(* ===== verification/_CoqProject ===== *)
-Q . S2P
Prelude.v
Serial.v
Buffer.v
Name.v
NameTheory.v
Hash.v
FromWire.v
Rdata.v
Message.v
MessageWire.v
MessageRead.v
MessagePlace.v
MessageRecord.v
MessageParse.v
MessageTheory.v
Compress.v
NameText.v
TextTheory.v
Codec.v
Ttl.v
Heap.v
Time.v
Timer.v
TimerQueue.v
TimerSystem.v
TimerSteps.v
TimerDispatch.v
TimerTheory.v
Netmap.v
Rwlock.v
RwlockTheory.v
Symtab.v
Rbt.v
RbtTheory.v
RbtDelete.v
RbtTree.v
RbtNames.v
RbtTrie.v
RbtFind.v
RbtAdd.v
RbtSplit.v
RbtInsert.v
RbtMap.v
RbtRemove.v
RbtHistory.v
RbtChain.v
Radix.v
RadixTheory.v
Acl.v
AclTheory.v
Task.v
TaskOps.v
TaskPlace.v
TaskSystem.v
TaskClient.v
TaskManager.v
TaskWorker.v
TaskDispatch.v
TaskTheory.v
