(* ===== verification/Prelude.v ===== *)
(** * A verification library for the name, wire and support layers of BIND 9

    The repository is BIND 9.9.3 with a netmap fast path for DNS over UDP.  A
    packet enters through [netmap/dns_util.c], which hands its payload to the
    server as a buffer ([lib/isc/buffer.c]); the message parser
    ([lib/dns/message.c]) reads the header, the questions and the records, with
    names from the buffer ([dns_name_fromwire] of [lib/dns/name.c], with the decompression
    context of [lib/dns/compress.c]); names are compared, hashed, split and
    joined by the rest of [name.c], printed and read as text by its text
    functions, and rendered into the answer with compression
    ([dns_name_towire], [compress.c]); the answer leaves through
    [netmap/dns_util.c].  Below them are the heap behind the timers and the
    cache ([lib/isc/heap.c]), the serial numbers of zones
    ([lib/isc/serial.c]), the binary-to-text encodings of rdata
    ([lib/isc/hex.c], [base64.c], [base32.c]), the text form of times to live
    ([lib/dns/ttl.c], [lib/isc/parseint.c]), the tasks whose events the worker
    threads run ([lib/isc/task.c]), the timers that send some of them
    ([lib/isc/timer.c], [lib/isc/unix/time.c]), the readers-writer lock around
    every shared structure ([lib/isc/rwlock.c]), the symbol tables of the
    configuration ([lib/isc/symtab.c]), the balanced trees that hold the names
    of a zone or of the cache ([lib/dns/rbt.c]), and the access lists that decide
    who may ask ([lib/dns/acl.c]) with their trees of address prefixes
    ([lib/isc/radix.c]).

    ** Files

    - [Prelude] (this file): the outcome of a C call, result codes, machine
      integers, memory objects, the loop combinator and its rules, tactics and
      the hint database [isc].
    - [Serial]: [lib/isc/serial.c].
    - [Buffer]: [lib/isc/buffer.c] and the macros of [isc/buffer.h]; a buffer is
      the record [isc_buffer_t] of its area and three offsets; [buf_step] is one
      state-changing call, the class [IntCodec] what a pair of integer accessors
      promises.
    - [Name]: [dns_name_t] and the operations of [lib/dns/name.c] that do not
      convert to or from text or wire form.  [NameTheory]: a name as its list of
      labels ([wf_name]), the order, hashing, splitting and joining.
    - [FromWire]: [dns_name_fromwire], one definition per case of its state
      machine, and the decompression context.
    - [Rdata]: the parts of [lib/dns/rdata.c] that the message parser uses; the
      switches over the record types, which the build generates, are the class
      [RdataTypes], and [RdataTypesOk] is what the parser relies on.  [Message]:
      the parser, creation, reset and destruction of a message and its header
      ([lib/dns/message.c]); one iteration of [getsection] is [get_record], its
      local variables are the record [section_st], and the labels [cleanup] the
      error of a small state and error monad; the pools of names and rdatasets are
      counters.  [MessageWire]: the fields, names and data of a packet.
      [MessageRead]: rules of the monad ([wp]) and the steps that only read.
      [MessagePlace]: what adding a record does to a section ([placed]).
      [MessageRecord]: one iteration.  [MessageParse]: the loops, the whole
      message and its reset.  [MessageTheory]: the theorems.
    - [Compress]: the compression table of [lib/dns/compress.c] and
      [dns_name_towire].
    - [NameText]: [dns_name_fromtext] (one definition per case of its state
      machine), [dns_name_totext2] and the functions built on them.
      [TextTheory]: their theorems.
    - [Codec]: the encoders and decoders of [hex.c], [base64.c], [base32.c]; the
      class [Decoder] is what the shared decoding loop uses.
    - [Ttl]: times to live as text ([lib/dns/ttl.c]) and [isc_parse_uint32]
      ([lib/isc/parseint.c]).
    - [Heap]: [lib/isc/heap.c]; the class [StrictWeak] is what it asks of the
      comparison.
    - [Time]: points in time and intervals ([lib/isc/unix/time.c]).  [Timer]: timers
      and their manager ([lib/isc/timer.c], the variant with a timer thread) as a
      transition system on top of the heap; a step is a call of the interface or one round
      of the timer thread.  [TimerQueue]: the heap of scheduled timers ([queue_ok]).
      [TimerSystem]: [schedule] and the invariant [inv].  [TimerSteps]: every call keeps it.
      [TimerDispatch]: one round of the thread.  [TimerTheory]: the theorems.
    - [Netmap]: [netmap/dns_util.c] with the rings, packet buffers and static
      variables as the record [nm_state], and [netmap_getring], [pkt_queued] of
      [netmap/nm_util.c].
    - [Rwlock]: the readers-writer lock of [lib/isc/rwlock.c] (the variant with
      atomic instructions) as a transition system over single accesses to shared
      memory, one program-counter type and one step function per C function.
      [RwlockTheory]: its invariants, by induction over reachable states.
    - [Symtab]: [lib/isc/symtab.c] and its specification as a list.
    - [Rbt]: rotation, insertion and deletion on one level of the tree of
      [lib/dns/rbt.c], on a store of nodes.  [RbtTheory]: trees, zippers, the
      representation predicate [tree_rep], rotations and insertion.
      [RbtDelete]: deletion.
    - [Hash]: the keyed hash of [lib/isc/hash.c].
    - [RbtTree]: the tree of trees of [lib/dns/rbt.c] above [Rbt]: search with
      and without the node chain, insertion with the splitting of nodes,
      deletion, the hash table of the nodes, and the chain functions.
      [RbtNames]: label sequences as the keys of a level.  [RbtTrie]: the trie
      of relative names that a tree stands for, the representation invariant
      [trie_ok] and the contents of the hash table ([hash_rep]).  [RbtFind]: the
      search.  [RbtAdd], [RbtSplit], [RbtInsert]: a new leaf, the split of a
      node, and the descent that ends in one of them.  [RbtMap]: the tree as a
      finite map from names to data.  [RbtRemove]: deletion of a node.
      [RbtHistory]: sequences of calls against the map.  [RbtChain]: walks.
    - [Radix]: the tree of address prefixes of [lib/isc/radix.c] on a store of
      nodes.  [RadixTheory]: addresses as lists of bits, the representation
      predicate [radix_rep], search and insertion.
    - [Acl]: IP tables ([lib/dns/iptable.c]) and access lists
      ([lib/dns/acl.c]).  [AclTheory]: lists as sequences of rules ([rule],
      [builds], [verdict]) and the match.
    - [Task]: tasks and their manager ([lib/isc/task.c], the variant with worker
      threads) as a transition system: a step is one call of a client or one
      section of a worker between two points where it gives up or takes a lock; the
      labels name the step and the thread, [guard] is when it can be taken, [step]
      what it does, [run] a sequence of steps.  [TaskOps]: what each operation on one
      task keeps ([task_ok]).  [TaskPlace]: where a task is ([placed]): in no queue, in
      the ready queues, or in the hands of one worker.  [TaskSystem]: the invariant
      [inv] of the whole system.  [TaskClient], [TaskManager], [TaskWorker],
      [TaskDispatch]: every step keeps it.  [TaskTheory]: the theorems.

    ** How C is modelled

    A function is a function of its arguments and of the objects it changes and
    returns an [outcome]: [Done] with the result and the new objects, [Abort] for
    a failed assertion, [Undef] for an access outside an object, [NoFuel] for a
    loop that the model cuts off.  A theorem that concludes [Done] therefore also
    proves that no assertion fires, that no access is out of bounds and that the
    loops end.  Areas are lists of octets (elements of [Z]); unsigned integers
    are reduced modulo their width where the code can wrap; magic numbers are
    left out, since an object of the model is valid by its type.  The answer of
    the memory allocator, where a function asks for memory, is an argument.

    Loops are [Fixpoint]s on a counter or on the data, or the combinator [loop],
    whose fuel is a bound computed from the data (the octets of a message times
    the positions of a pointer in [fw_fuel], the length of a text, an index of a
    heap, the packets of a ring, the labels of a name times the nodes of a tree
    in [search_fuel], twelve doublings of a buffer from 512 to more than 65535
    octets in [getrdata_fuel], the events of a task or the scheduled timers in
    [dispatch_fuel]); [loop_rule] turns an invariant and a decreasing
    measure into the fact that this fuel is enough, and every theorem about a
    function with a loop goes through it or through an induction.

    ** What the theorems show

    - Wire format: [dns_name_fromwire] is total and safe on arbitrary messages,
      accepts exactly what is spelled there and reports of everything else what is
      wrong with it ([wire_error]); rendering with compression
      followed by reading is the identity up to the case rule; rollback restores
      the table; the search finds the longest suffix.
    - Messages: [dns_message_parse] is total and safe on arbitrary packets, with
      every pattern of failing allocations and all options but
      DNS_MESSAGEPARSE_BESTEFFORT; on success the sections hold exactly
      what the packet spells, grouped by name, class and type with the least of the
      times to live ([of_records]), and the OPT, TSIG and SIG(0) records are held apart
      ([specials]); the pools are empty whenever a message is reset or destroyed; the header survives rendering and
      reading.
    - Names: the relation and the order of [dns_name_fullcompare] are those of
      label sequences, equality agrees with the order and with the hash,
      splitting and joining are inverse.
    - Text: [dns_name_fromtext] is total and safe (with DNS_NAME_DOWNCASE, on
      octets below 128), printing and reading are
      inverse, and the format size is enough for every name.
    - Buffers: the representation invariant, as long as no asserted sum wraps, integer round trips, compaction.
    - Netmap: the ring discipline and payload of a receive, the addresses and
      checksums of an answer of at most 492 octets whose entry is still there, the RFC 1071 checksum.
    - Heap: the multiset of elements, the heap condition and the stored indices
      through every operation, and the order in which a heap is consumed.
    - Lock: mutual exclusion, no failed assertion, writers in ticket order and no
      lost wake-up, in every interleaving of any number of threads.
    - Symbol table: refinement of a list of definitions, through growth.
    - Tree: insertion and deletion on a level keep the order, the red-black
      balance and every parent, child and root link.
    - Tree of trees: in every well-formed tree [dns_rbt_findnode] returns the
      node of the name, or else of the longest name above it that has data,
      whether the levels are searched through the hash table or through the
      binary trees; [dns_rbt_addnode] keeps the tree, its levels and the hash
      table well formed, also through the splitting of a node and the growth of
      the table; [dns_rbt_addname] and [dns_rbt_deletename] refine insertion into
      and deletion from a finite map, and so does every sequence of calls; a walk
      with a node chain visits all names in the DNSSEC order.
    - Address prefixes and access lists: insertion keeps a Patricia tree and fills the
      free slots of the prefix ([filled], slot by slot), a search
      finds the entry that was added first, and a list that was built by any
      sequence of additions answers with its first rule that applies.
    - Encodings: round trips for every length and every line break.
    - Times to live: what [dns_ttl_totext] prints, [dns_ttl_fromtext] reads back.
    - Times: sums and differences are exact or report the range, but for one carry.
    - Timers: in every execution within the contract of [timer.h] ([Timer.guard]) no
      assertion fails and no freed timer is used; a round of the timer thread ends unless a
      timer is due that is [restless], and then it does not end; the thread never sleeps past
      the first timer; events of a timer are purged before it goes away.  When tickers have
      intervals, resets do not report a range and no sum of the clock and an interval wraps
      ([modest], [tame]), every round ends and serves exactly the timers that are due, in
      order, with the right events and the right next times.
    - Tasks: in every interleaving of any number of clients and workers in which no thread
      moves between the two critical sections of [isc__task_setprivilege] ([undivided]; what
      happens otherwise is shown by [setprivilege_race]) no assertion fails and no freed
      task is used; a task is in one place; events run in the order in which they were
      sent, and none is lost; while a worker has exclusive access no other worker is
      inside an action; a worker sleeps only when there is nothing for it to do; and a
      destroyed manager leaves no task and no worker.
    - Limits of the code, each as a theorem: the assertion of [isc__buffer_add]
      wraps, [DNS_NAME_DOWNCASE] reads before its table for octets above 127,
      base 32 adds an octet when the length is 2 modulo 5, a heap with increment
      1, a long answer and a runt query overflow a buffer, a ninth pending query
      evicts the eighth, merging access lists that share a prefix loses rules, two
      TSIG records make an assertion of the message parser fail in best-effort
      mode, the masks of flags and opcode overlap, the sum of the parts of a time to
      live wraps, a call of [isc__taskmgr_pause] that finds a task running never returns,
      setting the privilege of a task while it is being queued damages the priority queue,
      and a timer that is due and has no interval, or neither an idle time nor a time of
      expiry, keeps the timer thread busy for ever.

    ** What is not modelled

    Memory management ([isc_buffer_allocate], [dns_name_free],
    [isc_heap_destroy]), stdio and thread keys ([dns_name_print],
    [dns_name_settotextfilter]), the lexer behind the [*_tobuffer] functions, the
    devices behind [netmap_open], and the rest of the server: the rendering of
    sections and the code of the single record types, the databases,
    rate limiters, the resolver, zones, the configuration and the tools.  In a message, the
    fields that only rendering and signing use are left out, and so are the blocks
    and free lists behind [newoffsets], [newrdata] and [newrdatalist], whose answers
    are those of the allocator.  Of the tasks, the variant without threads, the names
    and tags of tasks and the statistics are left out.  The predecessor that a search with a chain leaves in
    the chain, the backward steps of a chain and the recursive deletion are modelled
    in [RbtTree] without theorems. *)

From stdpp Require Export prelude list gmap.
From Stdlib Require Export ZArith Lia ZifyBool.

#[global] Open Scope Z_scope.

(** ** Outcomes of a call

    A C function returns, or the process stops.  [Done] carries what the
    function returns together with the state it changed; [Abort] is a failed
    [REQUIRE]/[INSIST]/[ENSURE] or a [FATAL_ERROR]; [Undef] is a read or write
    outside an object; [NoFuel] is a loop cut off by the model.  Theorems that
    conclude [Done] therefore prove that no assertion fires, that no access is
    out of bounds and that every loop ends. *)
Inductive outcome (A : Type) : Type :=
| Done (a : A)
| Abort
| Undef
| NoFuel.
Arguments Done {A} a.
Arguments Abort {A}.
Arguments Undef {A}.
Arguments NoFuel {A}.

Definition obind {A B : Type} (m : outcome A) (f : A -> outcome B) : outcome B :=
  match m with
  | Done a => f a
  | Abort => Abort
  | Undef => Undef
  | NoFuel => NoFuel
  end.

(** An assertion of the source: [REQUIRE], [INSIST], [ENSURE], [RUNTIME_CHECK]. *)
Definition require (b : bool) : outcome unit := if b then Done tt else Abort.

Declare Scope isc_scope.
Delimit Scope isc_scope with isc.
Notation "'let*' x ':=' m 'in' k" := (obind m (fun x => k))
  (at level 10, x pattern, m at level 100, k at level 200) : isc_scope.
Notation "'REQUIRE' b ';;' k" := (obind (require b) (fun _ => k))
  (at level 10, b at level 99, k at level 200) : isc_scope.
#[global] Open Scope isc_scope.

(** ** Result codes ([lib/isc/include/isc/result.h], [lib/dns/include/dns/result.h]) *)
Inductive isc_result_t : Type :=
| ISC_R_SUCCESS | ISC_R_NOMEMORY | ISC_R_NOSPACE | ISC_R_UNEXPECTEDEND
| ISC_R_BADHEX | ISC_R_BADBASE64 | ISC_R_BADBASE32 | ISC_R_QUOTA | ISC_R_SOFTQUOTA
| ISC_R_UNEXPECTED | ISC_R_NOTIMPLEMENTED | ISC_R_EXISTS | ISC_R_NOTFOUND | ISC_R_RANGE | ISC_R_BADNUMBER
| DNS_R_SYNTAX | DNS_R_BADTTL
| DNS_R_LABELTOOLONG | DNS_R_BADESCAPE | DNS_R_EMPTYLABEL | DNS_R_NAMETOOLONG
| DNS_R_BADLABELTYPE | DNS_R_BADPOINTER | DNS_R_DISALLOWED
| ISC_R_NOMORE | DNS_R_PARTIALMATCH | DNS_R_CONTINUE | DNS_R_NEWORIGIN
| DNS_R_FORMERR | DNS_R_EXTRADATA | DNS_R_RECOVERABLE
| ISC_R_SHUTTINGDOWN | ISC_R_LOCKBUSY | ISC_R_NOTHREADS.

#[export] Instance isc_result_eq_dec : EqDecision isc_result_t.
Proof. solve_decision. Defined.

(** ** Machine integers

    Unsigned integers are elements of [Z] reduced modulo their width at each
    operation that can wrap; [s32] is the conversion to [isc_int32_t]. *)
Definition u8 (x : Z) : Z := x mod 2 ^ 8.
Definition u16 (x : Z) : Z := x mod 2 ^ 16.
Definition u32 (x : Z) : Z := x mod 2 ^ 32.
Definition s32 (x : Z) : Z := let y := u32 x in if y <? 2 ^ 31 then y else y - 2 ^ 32.

Definition is_byte (b : Z) : Prop := 0 <= b < 256.
Definition is_byteb (b : Z) : bool := (0 <=? b) && (b <? 256).
Definition bytes (l : list Z) : Prop := Forall is_byte l.

(** ** Memory objects

    An array or buffer area is the list of its cells; an access outside it is
    [Undef]. *)
Definition Zlen {A} (l : list A) : Z := Z.of_nat (length l).

Definition rd {A} (l : list A) (i : Z) : outcome A :=
  if i <? 0 then Undef
  else match l !! Z.to_nat i with Some x => Done x | None => Undef end.

Definition wr {A} (l : list A) (i : Z) (x : A) : outcome (list A) :=
  if (0 <=? i) && (i <? Zlen l) then Done (<[Z.to_nat i := x]> l) else Undef.

(** The cells [i .. i+n-1]. *)
Definition sub {A} (l : list A) (i n : Z) : list A :=
  take (Z.to_nat n) (drop (Z.to_nat i) l).

(** [memcpy(l + i, src, length(src))]. *)
Definition blit {A} (l : list A) (i : Z) (src : list A) : outcome (list A) :=
  if (0 <=? i) && (i + Zlen src <=? Zlen l)
  then Done (take (Z.to_nat i) l ++ src ++ drop (Z.to_nat (i + Zlen src)) l)
  else Undef.

(** ** Loops

    A loop body maps the loop's variables either to their next values or to
    the value with which the loop (or the function) is left. *)
Fixpoint loop {St R : Type} (fuel : nat) (body : St -> outcome (St + R)) (s : St) : outcome R :=
  match fuel with
  | O => NoFuel
  | S fuel' =>
      match body s with
      | Done (inl s') => loop fuel' body s'
      | Done (inr r) => Done r
      | Abort => Abort
      | Undef => Undef
      | NoFuel => NoFuel
      end
  end.

(** ** Tactics *)

(** Split a successful sequence of calls into its successful parts. *)
Ltac outcome_inv H :=
  lazymatch type of H with
  | obind ?m _ = Done _ =>
      let E := fresh "E" in
      destruct m eqn:E; cbn [obind] in H; try discriminate H; outcome_inv H
  | Done _ = Done _ => injection H; clear H; intros; subst
  | _ => idtac
  end.

(** Turn every boolean comparison of the context into a proposition. *)
Ltac bool_prop :=
  repeat match goal with
  | H : (_ && _)%bool = true |- _ => apply andb_true_iff in H; destruct H
  | H : (_ || _)%bool = false |- _ => apply orb_false_iff in H; destruct H
  | H : negb _ = true |- _ => apply negb_true_iff in H
  | H : negb _ = false |- _ => apply negb_false_iff in H
  | H : (_ <? _) = true |- _ => apply Z.ltb_lt in H
  | H : (_ <? _) = false |- _ => apply Z.ltb_ge in H
  | H : (_ <=? _) = true |- _ => apply Z.leb_le in H
  | H : (_ <=? _) = false |- _ => apply Z.leb_gt in H
  | H : (_ =? _) = true |- _ => apply Z.eqb_eq in H
  | H : (_ =? _) = false |- _ => apply Z.eqb_neq in H
  end.

(** Case analysis on the test of the goal's first conditional. *)
Ltac case_if :=
  match goal with
  | |- context [if ?b then _ else _] => let E := fresh "E" in destruct b eqn:E
  end.

(** List lengths as integers. *)
Ltac len :=
  unfold Zlen in *;
  repeat (rewrite ?length_app, ?length_insert, ?length_take, ?length_drop, ?length_replicate,
    ?length_map in *; cbn [length] in * );
  try lia.

(** Linear arithmetic with division and remainder by constants. *)
Ltac divlia := Z.to_euclidean_division_equations; lia.

(** ** Lemmas on outcomes *)

Lemma require_true b : b = true -> require b = Done tt.
Proof. by intros ->. Qed.

Lemma require_Done b u : require b = Done u -> b = true.
Proof. by destruct b. Qed.

Lemma obind_Done {A B} (m : outcome A) (f : A -> outcome B) b :
  obind m f = Done b -> exists a, m = Done a /\ f a = Done b.
Proof. destruct m; cbn; naive_solver. Qed.

(** ** Lemmas on machine integers *)

Lemma u8_range x : 0 <= u8 x < 256.
Proof. apply Z.mod_pos_bound. lia. Qed.

Lemma u16_range x : 0 <= u16 x < 65536.
Proof. apply Z.mod_pos_bound. lia. Qed.

Lemma u32_range x : 0 <= u32 x < 4294967296.
Proof. apply Z.mod_pos_bound. lia. Qed.

Lemma u8_small x : 0 <= x < 256 -> u8 x = x.
Proof. apply Z.mod_small. Qed.

Lemma u16_small x : 0 <= x < 65536 -> u16 x = x.
Proof. apply Z.mod_small. Qed.

Lemma u32_small x : 0 <= x < 4294967296 -> u32 x = x.
Proof. apply Z.mod_small. Qed.

Lemma is_byteb_spec b : is_byteb b = true <-> is_byte b.
Proof. unfold is_byteb, is_byte. rewrite andb_true_iff. lia. Qed.

Lemma bytesb_spec l : forallb is_byteb l = true <-> bytes l.
Proof.
  unfold bytes. rewrite forallb_forall, Forall_forall. setoid_rewrite is_byteb_spec.
  split; intros H x Hx; apply H; by apply list_elem_of_In.
Qed.

(** A property of every byte is decided by computing it on the 256 of them. *)
Lemma byte_forall (P : Z -> bool) :
  forallb P (map Z.of_nat (seq 0 256)) = true -> forall b, is_byte b -> P b = true.
Proof.
  intros H b Hb. rewrite forallb_forall in H. apply H.
  apply in_map_iff. exists (Z.to_nat b). unfold is_byte in Hb.
  split; [lia|]. apply in_seq. lia.
Qed.

(** The same for a range [0 .. n-1]. *)
Lemma range_forall (n : nat) (P : Z -> bool) :
  forallb P (map Z.of_nat (seq 0 n)) = true -> forall b, 0 <= b < Z.of_nat n -> P b = true.
Proof.
  intros H b Hb. rewrite forallb_forall in H. apply H.
  apply in_map_iff. exists (Z.to_nat b). split; [lia|]. apply in_seq. lia.
Qed.

(** ** Lemmas on memory objects *)

Lemma Zlen_nonneg {A} (l : list A) : 0 <= Zlen l.
Proof. len. Qed.

Lemma Zlen_app {A} (l k : list A) : Zlen (l ++ k) = Zlen l + Zlen k.
Proof. len. Qed.

Lemma Zlen_cons {A} (x : A) l : Zlen (x :: l) = 1 + Zlen l.
Proof. len. Qed.

Lemma rd_Done {A} (l : list A) i x :
  rd l i = Done x <-> 0 <= i /\ l !! Z.to_nat i = Some x.
Proof.
  unfold rd. destruct (i <? 0) eqn:E; bool_prop.
  - split; [done|]. lia.
  - destruct (l !! Z.to_nat i); split; [by intros [= ->]|by intros [_ [= ->]]|done|by intros [_ ?]].
Qed.

Lemma rd_bound {A} (l : list A) i x : rd l i = Done x -> 0 <= i < Zlen l.
Proof. rewrite rd_Done. intros [? ?%lookup_lt_Some]. len. Qed.

Lemma rd_ok {A} (l : list A) i : 0 <= i < Zlen l -> exists x, rd l i = Done x.
Proof.
  intros H. destruct (lookup_lt_is_Some_2 l (Z.to_nat i)) as [x Hx]; [len|].
  exists x. apply rd_Done. split; [lia|done].
Qed.

Lemma rd_bytes l i x : bytes l -> rd l i = Done x -> is_byte x.
Proof.
  rewrite rd_Done. intros Hl [_ Hx]. by eapply Forall_lookup_1.
Qed.

Lemma rd_app_mid {A} (p : list A) x q i : i = Zlen p -> rd (p ++ x :: q) i = Done x.
Proof.
  intros ->. apply rd_Done. split; [len|].
  rewrite lookup_app_r by len. unfold Zlen. rewrite Nat2Z.id, Nat.sub_diag. done.
Qed.

Lemma rd_app_l {A} (l k : list A) i x : rd l i = Done x -> rd (l ++ k) i = Done x.
Proof. rewrite !rd_Done. intros [? ?]. split; [done|]. by apply lookup_app_l_Some. Qed.

Lemma wr_ok {A} (l : list A) i x :
  0 <= i < Zlen l -> wr l i x = Done (<[Z.to_nat i := x]> l).
Proof. intros H. unfold wr. case_if; [done|]. exfalso. lia. Qed.

Lemma wr_Done {A} (l l' : list A) i x :
  wr l i x = Done l' -> 0 <= i < Zlen l /\ l' = <[Z.to_nat i := x]> l.
Proof. unfold wr. case_if; [|done]. bool_prop. intros [= <-]. split; [lia|done]. Qed.

Lemma Zlen_wr {A} (l l' : list A) i x : wr l i x = Done l' -> Zlen l' = Zlen l.
Proof. intros [_ ->]%wr_Done. len. Qed.

Lemma rd_wr_eq {A} (l l' : list A) i x : wr l i x = Done l' -> rd l' i = Done x.
Proof.
  intros [? ->]%wr_Done. apply rd_Done. split; [lia|]. apply list_lookup_insert_eq. len.
Qed.

Lemma rd_wr_ne {A} (l l' : list A) i j x :
  wr l i x = Done l' -> 0 <= j -> i <> j -> rd l' j = rd l j.
Proof.
  intros [? ->]%wr_Done ? ?. unfold rd. case_if; [done|].
  rewrite list_lookup_insert_ne; [done|lia].
Qed.

Lemma bytes_app l k : bytes (l ++ k) <-> bytes l /\ bytes k.
Proof. apply Forall_app. Qed.

Lemma bytes_cons x l : bytes (x :: l) <-> is_byte x /\ bytes l.
Proof. apply Forall_cons. Qed.

Lemma bytes_take n l : bytes l -> bytes (take n l).
Proof. apply Forall_take. Qed.

Lemma bytes_drop n l : bytes l -> bytes (drop n l).
Proof. apply Forall_drop. Qed.

Lemma bytes_sub l i n : bytes l -> bytes (sub l i n).
Proof. intros. by apply bytes_take, bytes_drop. Qed.

Lemma bytes_replicate n : bytes (replicate n 0).
Proof. apply Forall_replicate. unfold is_byte. lia. Qed.

Lemma Zlen_sub {A} (l : list A) i n :
  0 <= i -> 0 <= n -> i + n <= Zlen l -> Zlen (sub l i n) = n.
Proof. intros. unfold sub. len. Qed.

Lemma blit_ok {A} (l : list A) i src :
  0 <= i -> i + Zlen src <= Zlen l ->
  blit l i src = Done (take (Z.to_nat i) l ++ src ++ drop (Z.to_nat (i + Zlen src)) l).
Proof. intros. unfold blit. case_if; [done|]. exfalso. lia. Qed.

Lemma blit_Done {A} (l l' src : list A) i :
  blit l i src = Done l' ->
  0 <= i /\ i + Zlen src <= Zlen l /\
  l' = take (Z.to_nat i) l ++ src ++ drop (Z.to_nat (i + Zlen src)) l.
Proof. unfold blit. case_if; [|done]. bool_prop. intros [= <-]. done. Qed.

Lemma wr_blit {A} (l : list A) i x : wr l i x = blit l i [x].
Proof.
  unfold wr, blit. change (Zlen [x]) with 1.
  destruct (0 <=? i) eqn:E1; [|done]. cbn [andb].
  destruct (i <? Zlen l) eqn:E2; destruct (i + 1 <=? Zlen l) eqn:E3; try done; try (exfalso; lia).
  f_equal. rewrite insert_take_drop by len. do 3 f_equal. lia.
Qed.

Lemma Zlen_blit {A} (l l' src : list A) i : blit l i src = Done l' -> Zlen l' = Zlen l.
Proof. intros (?&?&->)%blit_Done. len. Qed.

Lemma bytes_blit l l' src i : bytes l -> bytes src -> blit l i src = Done l' -> bytes l'.
Proof.
  intros ? ? (?&?&->)%blit_Done. rewrite !bytes_app. auto using bytes_take, bytes_drop.
Qed.

(** ** The loop rule

    An invariant that every iteration preserves, together with a measure it
    decreases, gives that the loop ends with enough fuel and that its result
    satisfies the postcondition. *)
Lemma loop_rule {St R} (body : St -> outcome (St + R)) (I : St -> Prop) (m : St -> Z)
    (Q : R -> Prop) :
  (forall s, I s -> match body s with
                    | Done (inl s') => I s' /\ 0 <= m s' < m s
                    | Done (inr r) => Q r
                    | _ => False
                    end) ->
  forall fuel s, I s -> 0 <= m s < Z.of_nat fuel ->
  exists r, loop fuel body s = Done r /\ Q r.
Proof.
  intros Hstep fuel. induction fuel as [|fuel IH]; intros s Hs Hm; [lia|].
  cbn [loop]. specialize (Hstep s Hs).
  destruct (body s) as [[s'|r]| | |]; try done; [|by exists r].
  destruct Hstep as [HI Hd]. apply IH; [done|lia].
Qed.

(** The same with a bound that depends on more than the state: [I n s] says that
    the invariant holds and that at most [n] iterations are left. *)
Lemma loop_rule_bound {St R} (body : St -> outcome (St + R)) (I : Z -> St -> Prop)
    (Q : R -> Prop) :
  (forall n s, I n s -> match body s with
                        | Done (inl s') => exists n', I n' s' /\ 0 <= n' < n
                        | Done (inr r) => Q r
                        | _ => False
                        end) ->
  forall fuel n s, I n s -> 0 <= n < Z.of_nat fuel ->
  exists r, loop fuel body s = Done r /\ Q r.
Proof.
  intros Hstep fuel. induction fuel as [|fuel IH]; intros n s Hs Hm; [lia|].
  cbn [loop]. specialize (Hstep n s Hs).
  destruct (body s) as [[s'|r]| | |]; try done; [|by exists r].
  destruct Hstep as (n' & HI & Hd). apply (IH n'); [done|lia].
Qed.

(** More fuel does not change a result. *)
Lemma loop_mono {St R} (body : St -> outcome (St + R)) fuel fuel' s r :
  loop fuel body s = Done r -> (fuel <= fuel')%nat -> loop fuel' body s = Done r.
Proof.
  revert fuel' s. induction fuel as [|fuel IH]; intros fuel' s H Hle; [done|].
  destruct fuel' as [|fuel']; [lia|]. cbn [loop] in *.
  destruct (body s) as [[s'|r']| | |]; try done. apply IH; [done|lia].
Qed.

(** A loop whose body preserves an invariant returns a result that satisfies
    the postcondition whenever it returns. *)
Lemma loop_partial {St R} (body : St -> outcome (St + R)) (I : St -> Prop) (Q : R -> Prop) :
  (forall s s', I s -> body s = Done (inl s') -> I s') ->
  (forall s r, I s -> body s = Done (inr r) -> Q r) ->
  forall fuel s r, I s -> loop fuel body s = Done r -> Q r.
Proof.
  intros Hstep Hexit fuel. induction fuel as [|fuel IH]; intros s r Hs H; [done|].
  cbn [loop] in H. destruct (body s) as [[s'|r']| | |] eqn:E; try done.
  - apply (IH s' r); [by eapply Hstep|done].
  - injection H as <-. by eapply Hexit.
Qed.

Create HintDb isc.
#[export] Hint Resolve u8_range u16_range u32_range Zlen_nonneg : isc.
#[export] Hint Resolve bytes_take bytes_drop bytes_sub bytes_replicate : isc.
