(* ===== verification/Serial.v ===== *)
(** * RFC 1982 serial number comparison ([lib/isc/serial.c])

    Zone transfer, notify and IXFR decide which of two SOA serials is newer
    with these six functions.  The theorems show that they compute the
    RFC 1982 relation on 32-bit serials, including the undefined pair at
    distance [2^31]. *)

From S2P Require Import Prelude.

(** ** The functions of serial.c *)

Definition isc_serial_lt (a b : Z) : bool :=
  if a =? Z.lxor b 0x80000000 then false
  else s32 (a - b) <? 0.

Definition isc_serial_gt (a b : Z) : bool := 0 <? s32 (a - b).

Definition isc_serial_le (a b : Z) : bool :=
  if a =? b then true else isc_serial_lt a b.

Definition isc_serial_ge (a b : Z) : bool :=
  if a =? b then true else isc_serial_gt a b.

Definition isc_serial_eq (a b : Z) : bool := a =? b.

Definition isc_serial_ne (a b : Z) : bool := negb (a =? b).

(** ** Specification: RFC 1982, section 3.2, with SERIAL_BITS = 32 *)

Definition serial (a : Z) : Prop := 0 <= a < 2 ^ 32.

Definition rfc1982_lt (a b : Z) : Prop :=
  (a < b /\ b - a < 2 ^ 31) \/ (a > b /\ a - b > 2 ^ 31).

(** ** Lemmas *)

Lemma lxor_signbit b : serial b ->
  Z.lxor b 0x80000000 = if b <? 2 ^ 31 then b + 2 ^ 31 else b - 2 ^ 31.
Proof.
  unfold serial. intros Hb.
  assert (E : b = b mod 2 ^ 31 + 2 ^ 31 * (b / 2 ^ 31)) by (pose proof (Z.div_mod b (2 ^ 31)); lia).
  assert (Hd : b / 2 ^ 31 = 0 \/ b / 2 ^ 31 = 1) by divlia.
  assert (Hm : 0 <= b mod 2 ^ 31 < 2 ^ 31) by (apply Z.mod_pos_bound; lia).
  set (m := b mod 2 ^ 31) in *.
  assert (Hland : Z.land m 0x80000000 = 0).
  { apply Z.bits_inj'. intros n Hn. rewrite Z.land_spec, Z.bits_0.
    change 0x80000000 with (2 ^ 31). rewrite Z.pow2_bits_eqb by lia.
    destruct (Z.eqb_spec 31 n) as [<-|]; [|apply andb_false_r].
    rewrite andb_true_r. apply Z.bits_above_log2; [lia|].
    destruct (Z.eq_dec m 0) as [->|]; [cbn; lia|]. apply Z.log2_lt_pow2; lia. }
  destruct Hd as [Hd|Hd]; rewrite Hd in E.
  - replace (b <? 2 ^ 31) with true by lia. replace b with m by lia.
    rewrite <- Z.add_nocarry_lxor by done. lia.
  - replace (b <? 2 ^ 31) with false by lia.
    replace b with (m + 2 ^ 31) at 1 by lia.
    rewrite (Z.add_nocarry_lxor m (2 ^ 31)) by done.
    rewrite Z.lxor_assoc. change (2 ^ 31) with 0x80000000 at 1.
    rewrite Z.lxor_nilpotent, Z.lxor_0_r. lia.
Qed.

Lemma s32_sub a b : serial a -> serial b ->
  s32 (a - b) = let d := a - b in
                if d <? - 2 ^ 31 then d + 2 ^ 32 else
                if d <? 2 ^ 31 then d else d - 2 ^ 32.
Proof.
  unfold serial, s32, u32. intros Ha Hb. cbv zeta.
  assert (H : (a - b) mod 2 ^ 32 = if a - b <? 0 then a - b + 2 ^ 32 else a - b).
  { case_if; bool_prop.
    - rewrite <- (Z.mod_add _ 1) by lia. rewrite Z.mod_small; lia.
    - apply Z.mod_small. lia. }
  rewrite H. repeat case_if; lia.
Qed.

(** ** Theorems *)

(** [isc_serial_lt] is the RFC 1982 "less than" of 32-bit serial numbers,
    [isc_serial_gt] is its converse, and [isc_serial_le]/[isc_serial_ge] are
    their reflexive closures: the four functions a secondary uses to decide
    whether a zone is newer agree with the RFC on every pair of serials,
    the pair at distance exactly [2^31] (on which all are false) included. *)
Theorem serial_compare_rfc1982 (a b : Z) :
  serial a -> serial b ->
  (isc_serial_lt a b = true <-> rfc1982_lt a b) /\
  (isc_serial_gt a b = true <-> rfc1982_lt b a) /\
  (isc_serial_le a b = true <-> a = b \/ rfc1982_lt a b) /\
  (isc_serial_ge a b = true <-> a = b \/ rfc1982_lt b a).
Proof.
  intros Ha Hb.
  assert (Hlt : isc_serial_lt a b = true <-> rfc1982_lt a b).
  { unfold isc_serial_lt, rfc1982_lt. rewrite lxor_signbit, s32_sub by done. cbv zeta.
    unfold serial in *. destruct (b <? 2 ^ 31) eqn:E; repeat case_if; bool_prop; lia. }
  assert (Hgt : isc_serial_gt a b = true <-> rfc1982_lt b a).
  { unfold isc_serial_gt, rfc1982_lt. rewrite s32_sub by done. cbv zeta.
    unfold serial in *. repeat case_if; bool_prop; lia. }
  unfold isc_serial_le, isc_serial_ge.
  destruct (Z.eqb_spec a b) as [->|Hne]; [tauto|].
  rewrite Hlt, Hgt. tauto.
Qed.

Lemma serial_compare_rfc1982_witness :
  isc_serial_lt 0xffffffff 5 = true <-> rfc1982_lt 0xffffffff 5.
Proof.
  destruct (serial_compare_rfc1982 0xffffffff 5) as (H & _).
  - unfold serial. lia.
  - unfold serial. lia.
  - exact H.
Defined.
