(* ===== verification/Buffer.v ===== *)
(** * Bounded buffers ([lib/isc/buffer.c], [lib/isc/include/isc/buffer.h])

    Every DNS message is parsed from and rendered into an [isc_buffer_t].  The
    area [base .. base+length) is the list [b_base]; the fields [used],
    [current] and [active] are the offsets of the same name.  The magic number,
    the link and the memory context of the C structure carry no data and are
    not modelled (a value of [isc_buffer_t] is a valid buffer); a region, a
    pair of a pointer and a length, is the list of the bytes it covers. *)

From S2P Require Import Prelude.

(** ** Data *)

Record isc_buffer_t := mkbuffer {
  b_base : list Z;
  b_used : Z;
  b_current : Z;
  b_active : Z
}.

Definition b_length (b : isc_buffer_t) : Z := Zlen (b_base b).

Definition set_base (b : isc_buffer_t) (l : list Z) : isc_buffer_t :=
  mkbuffer l (b_used b) (b_current b) (b_active b).
Definition set_used (b : isc_buffer_t) (n : Z) : isc_buffer_t :=
  mkbuffer (b_base b) n (b_current b) (b_active b).
Definition set_current (b : isc_buffer_t) (n : Z) : isc_buffer_t :=
  mkbuffer (b_base b) (b_used b) n (b_active b).
Definition set_active (b : isc_buffer_t) (n : Z) : isc_buffer_t :=
  mkbuffer (b_base b) (b_used b) (b_current b) n.

(** ** Operations *)

Definition isc_buffer_init (base : list Z) : isc_buffer_t := mkbuffer base 0 0 0.

Definition isc_buffer_initnull : isc_buffer_t := mkbuffer [] 0 0 0.

(** The new area [base] receives the old contents. *)
Definition isc_buffer_reinit (b : isc_buffer_t) (base : list Z) : outcome isc_buffer_t :=
  REQUIRE b_length b <=? Zlen base ;;
  let* base' := blit base 0 (b_base b) in
  Done (set_base b base').

Definition isc_buffer_region (b : isc_buffer_t) : list Z := b_base b.

Definition isc_buffer_usedregion (b : isc_buffer_t) : list Z :=
  sub (b_base b) 0 (b_used b).

(** [isc_buffer_availablelength]: [length - used]. *)
Definition isc_buffer_availablelength (b : isc_buffer_t) : Z := u32 (b_length b - b_used b).

Definition isc_buffer_availableregion (b : isc_buffer_t) : list Z :=
  sub (b_base b) (b_used b) (isc_buffer_availablelength b).

Definition isc_buffer_add (b : isc_buffer_t) (n : Z) : outcome isc_buffer_t :=
  REQUIRE u32 (b_used b + n) <=? b_length b ;;
  Done (set_used b (u32 (b_used b + n))).

Definition isc_buffer_subtract (b : isc_buffer_t) (n : Z) : outcome isc_buffer_t :=
  REQUIRE n <=? b_used b ;;
  let used := b_used b - n in
  Done (mkbuffer (b_base b) used
          (if used <? b_current b then used else b_current b)
          (if used <? b_active b then used else b_active b)).

Definition isc_buffer_clear (b : isc_buffer_t) : isc_buffer_t := mkbuffer (b_base b) 0 0 0.

Definition isc_buffer_consumedregion (b : isc_buffer_t) : list Z :=
  sub (b_base b) 0 (b_current b).

(** [isc_buffer_remaininglength]: [used - current]. *)
Definition isc_buffer_remaininglength (b : isc_buffer_t) : Z := u32 (b_used b - b_current b).

Definition isc_buffer_remainingregion (b : isc_buffer_t) : list Z :=
  sub (b_base b) (b_current b) (isc_buffer_remaininglength b).

Definition isc_buffer_activeregion (b : isc_buffer_t) : list Z :=
  if b_current b <? b_active b
  then sub (b_base b) (b_current b) (b_active b - b_current b)
  else [].

Definition isc_buffer_setactive (b : isc_buffer_t) (n : Z) : outcome isc_buffer_t :=
  REQUIRE u32 (b_current b + n) <=? b_used b ;;
  Done (set_active b (u32 (b_current b + n))).

Definition isc_buffer_first (b : isc_buffer_t) : isc_buffer_t := set_current b 0.

Definition isc_buffer_forward (b : isc_buffer_t) (n : Z) : outcome isc_buffer_t :=
  REQUIRE u32 (b_current b + n) <=? b_used b ;;
  Done (set_current b (u32 (b_current b + n))).

Definition isc_buffer_back (b : isc_buffer_t) (n : Z) : outcome isc_buffer_t :=
  REQUIRE n <=? b_current b ;;
  Done (set_current b (b_current b - n)).

Definition isc_buffer_compact (b : isc_buffer_t) : outcome isc_buffer_t :=
  let length := isc_buffer_remaininglength b in
  let src := sub (b_base b) (b_current b) length in
  let* base' := blit (b_base b) 0 src in
  Done (mkbuffer base' length 0
          (if b_current b <? b_active b then b_active b - b_current b else 0)).

Definition isc_buffer_getuint8 (b : isc_buffer_t) : outcome (Z * isc_buffer_t) :=
  REQUIRE 1 <=? u32 (b_used b - b_current b) ;;
  let cp := b_current b in
  let* c0 := rd (b_base b) cp in
  Done (u8 c0, set_current b (cp + 1)).

Definition isc_buffer_putuint8 (b : isc_buffer_t) (val : Z) : outcome isc_buffer_t :=
  REQUIRE u32 (b_used b + 1) <=? b_length b ;;
  let val2 := u8 val in
  let cp := b_used b in
  let* base := wr (b_base b) cp (Z.land val2 0xff) in
  Done (set_used (set_base b base) (cp + 1)).

Definition isc_buffer_getuint16 (b : isc_buffer_t) : outcome (Z * isc_buffer_t) :=
  REQUIRE 2 <=? u32 (b_used b - b_current b) ;;
  let cp := b_current b in
  let* c0 := rd (b_base b) cp in
  let* c1 := rd (b_base b) (cp + 1) in
  let result := u16 (Z.shiftl c0 8) in
  let result := u16 (Z.lor result c1) in
  Done (result, set_current b (cp + 2)).

(** The macro [ISC__BUFFER_PUTUINT16], shared with the 48-bit store. *)
Definition buffer_putuint16_macro (b : isc_buffer_t) (val : Z) : outcome isc_buffer_t :=
  let val2 := u16 val in
  let cp := b_used b in
  let* base := wr (b_base b) cp (u8 (Z.shiftr (Z.land val2 0xff00) 8)) in
  let* base := wr base (cp + 1) (u8 (Z.land val2 0x00ff)) in
  Done (set_used (set_base b base) (cp + 2)).

Definition isc_buffer_putuint16 (b : isc_buffer_t) (val : Z) : outcome isc_buffer_t :=
  REQUIRE u32 (b_used b + 2) <=? b_length b ;;
  buffer_putuint16_macro b val.

Definition isc_buffer_putuint24 (b : isc_buffer_t) (val : Z) : outcome isc_buffer_t :=
  REQUIRE u32 (b_used b + 3) <=? b_length b ;;
  let val2 := u32 val in
  let cp := b_used b in
  let* base := wr (b_base b) cp (u8 (Z.shiftr (Z.land val2 0xff0000) 16)) in
  let* base := wr base (cp + 1) (u8 (Z.shiftr (Z.land val2 0xff00) 8)) in
  let* base := wr base (cp + 2) (u8 (Z.land val2 0x00ff)) in
  Done (set_used (set_base b base) (cp + 3)).

Definition isc_buffer_getuint32 (b : isc_buffer_t) : outcome (Z * isc_buffer_t) :=
  REQUIRE 4 <=? u32 (b_used b - b_current b) ;;
  let cp := b_current b in
  let* c0 := rd (b_base b) cp in
  let* c1 := rd (b_base b) (cp + 1) in
  let* c2 := rd (b_base b) (cp + 2) in
  let* c3 := rd (b_base b) (cp + 3) in
  let result := u32 (Z.shiftl c0 24) in
  let result := Z.lor result (u32 (Z.shiftl c1 16)) in
  let result := Z.lor result (u32 (Z.shiftl c2 8)) in
  let result := Z.lor result c3 in
  Done (result, set_current b (cp + 4)).

(** The macro [ISC__BUFFER_PUTUINT32]. *)
Definition buffer_putuint32_macro (b : isc_buffer_t) (val : Z) : outcome isc_buffer_t :=
  let val2 := u32 val in
  let cp := b_used b in
  let* base := wr (b_base b) cp (u8 (Z.shiftr (Z.land val2 0xff000000) 24)) in
  let* base := wr base (cp + 1) (u8 (Z.shiftr (Z.land val2 0x00ff0000) 16)) in
  let* base := wr base (cp + 2) (u8 (Z.shiftr (Z.land val2 0x0000ff00) 8)) in
  let* base := wr base (cp + 3) (u8 (Z.land val2 0x000000ff)) in
  Done (set_used (set_base b base) (cp + 4)).

Definition isc_buffer_putuint32 (b : isc_buffer_t) (val : Z) : outcome isc_buffer_t :=
  REQUIRE u32 (b_used b + 4) <=? b_length b ;;
  buffer_putuint32_macro b val.

Definition isc_buffer_getuint48 (b : isc_buffer_t) : outcome (Z * isc_buffer_t) :=
  REQUIRE 6 <=? u32 (b_used b - b_current b) ;;
  let cp := b_current b in
  let* c0 := rd (b_base b) cp in
  let* c1 := rd (b_base b) (cp + 1) in
  let* c2 := rd (b_base b) (cp + 2) in
  let* c3 := rd (b_base b) (cp + 3) in
  let* c4 := rd (b_base b) (cp + 4) in
  let* c5 := rd (b_base b) (cp + 5) in
  let result := Z.shiftl c0 40 in
  let result := Z.lor result (Z.shiftl c1 32) in
  let result := Z.lor result (Z.shiftl c2 24) in
  let result := Z.lor result (Z.shiftl c3 16) in
  let result := Z.lor result (Z.shiftl c4 8) in
  let result := Z.lor result c5 in
  Done (result, set_current b (cp + 6)).

Definition isc_buffer_putuint48 (b : isc_buffer_t) (val : Z) : outcome isc_buffer_t :=
  REQUIRE u32 (b_used b + 6) <=? b_length b ;;
  let valhi := u16 (Z.shiftr val 32) in
  let vallo := u32 (Z.land val 0xFFFFFFFF) in
  let* b := buffer_putuint16_macro b valhi in
  buffer_putuint32_macro b vallo.

Definition isc_buffer_putmem (b : isc_buffer_t) (src : list Z) : outcome isc_buffer_t :=
  REQUIRE u32 (b_used b + Zlen src) <=? b_length b ;;
  let* base := blit (b_base b) (b_used b) src in
  Done (set_used (set_base b base) (u32 (b_used b + Zlen src))).

(** [source] is the characters of the C string, its terminator excluded. *)
Definition isc_buffer_putstr (b : isc_buffer_t) (source : list Z) : outcome isc_buffer_t :=
  let l := Zlen source in
  REQUIRE l <=? isc_buffer_availablelength b ;;
  let* base := blit (b_base b) (b_used b) source in
  Done (set_used (set_base b base) (u32 (b_used b + l))).

Definition isc_buffer_copyregion (b : isc_buffer_t) (r : list Z) :
    outcome (isc_result_t * isc_buffer_t) :=
  if isc_buffer_availablelength b <? Zlen r then Done (ISC_R_NOSPACE, b)
  else
    let* base := blit (b_base b) (b_used b) r in
    Done (ISC_R_SUCCESS, set_used (set_base b base) (u32 (b_used b + Zlen r))).

(** ** The state-changing operations as one step function *)

Inductive buf_op : Type :=
| OpReinit (base : list Z) | OpAdd (n : Z) | OpSubtract (n : Z) | OpClear
| OpSetactive (n : Z) | OpFirst | OpForward (n : Z) | OpBack (n : Z) | OpCompact
| OpGet8 | OpGet16 | OpGet32 | OpGet48
| OpPut8 (v : Z) | OpPut16 (v : Z) | OpPut24 (v : Z) | OpPut32 (v : Z) | OpPut48 (v : Z)
| OpPutmem (src : list Z) | OpPutstr (src : list Z) | OpCopyregion (src : list Z).

Definition osnd {A B} (m : outcome (A * B)) : outcome B := let* p := m in Done (snd p).

Definition buf_step (b : isc_buffer_t) (op : buf_op) : outcome isc_buffer_t :=
  match op with
  | OpReinit base => isc_buffer_reinit b base
  | OpAdd n => isc_buffer_add b n
  | OpSubtract n => isc_buffer_subtract b n
  | OpClear => Done (isc_buffer_clear b)
  | OpSetactive n => isc_buffer_setactive b n
  | OpFirst => Done (isc_buffer_first b)
  | OpForward n => isc_buffer_forward b n
  | OpBack n => isc_buffer_back b n
  | OpCompact => isc_buffer_compact b
  | OpGet8 => osnd (isc_buffer_getuint8 b)
  | OpGet16 => osnd (isc_buffer_getuint16 b)
  | OpGet32 => osnd (isc_buffer_getuint32 b)
  | OpGet48 => osnd (isc_buffer_getuint48 b)
  | OpPut8 v => isc_buffer_putuint8 b v
  | OpPut16 v => isc_buffer_putuint16 b v
  | OpPut24 v => isc_buffer_putuint24 b v
  | OpPut32 v => isc_buffer_putuint32 b v
  | OpPut48 v => isc_buffer_putuint48 b v
  | OpPutmem src => isc_buffer_putmem b src
  | OpPutstr src => isc_buffer_putstr b src
  | OpCopyregion src => osnd (isc_buffer_copyregion b src)
  end.

(** ** Specification *)

(** The representation invariant of buffer.h: the three offsets are ordered
    and inside the area, and the area fits an [unsigned int]. *)
Record wf_buffer (b : isc_buffer_t) : Prop := {
  wb_bytes : bytes (b_base b);
  wb_current : 0 <= b_current b <= b_used b;
  wb_used : b_used b <= b_length b;
  wb_active : 0 <= b_active b <= b_used b;
  wb_length : b_length b + 8 < 2 ^ 32
}.

Definition wf_bufferb (b : isc_buffer_t) : bool :=
  forallb is_byteb (b_base b) && (0 <=? b_current b) && (b_current b <=? b_used b) &&
  (b_used b <=? b_length b) && (0 <=? b_active b) && (b_active b <=? b_used b) &&
  (b_length b + 8 <? 2 ^ 32).

(** What a buffer holds for its reader: the bytes written and not yet consumed. *)
Definition remaining (b : isc_buffer_t) : list Z :=
  sub (b_base b) (b_current b) (b_used b - b_current b).

(** The [n]-byte big-endian representation of [v]. *)
Fixpoint be_bytes (n : nat) (v : Z) : list Z :=
  match n with
  | O => []
  | S n' => (v / 256 ^ Z.of_nat n') mod 256 :: be_bytes n' v
  end.

(** What an integer accessor pair promises to its clients: a store appends the
    big-endian bytes of the value to the remaining region, a load takes them
    off its front. *)
Class IntCodec (n : nat) (put : isc_buffer_t -> Z -> outcome isc_buffer_t)
    (get : isc_buffer_t -> outcome (Z * isc_buffer_t)) : Prop := {
  codec_put : forall b v, wf_buffer b -> b_used b + Z.of_nat n <= b_length b ->
    exists b', put b v = Done b' /\ wf_buffer b' /\
      remaining b' = remaining b ++ be_bytes n v /\
      b_used b' = b_used b + Z.of_nat n /\ b_length b' = b_length b /\
      b_current b' = b_current b;
  codec_get : forall b v rest, wf_buffer b -> 0 <= v < 256 ^ Z.of_nat n ->
    remaining b = be_bytes n v ++ rest ->
    exists b', get b = Done (v, b') /\ wf_buffer b' /\ remaining b' = rest /\
      b_base b' = b_base b /\ b_used b' = b_used b
}.

(** A record of fixed-width integers, as message headers and rdata are made of. *)
Inductive width : Type := W8 | W16 | W32 | W48.

Definition width_bytes (w : width) : nat :=
  match w with W8 => 1 | W16 => 2 | W32 => 4 | W48 => 6 end.

Definition put_w (w : width) : isc_buffer_t -> Z -> outcome isc_buffer_t :=
  match w with
  | W8 => isc_buffer_putuint8 | W16 => isc_buffer_putuint16
  | W32 => isc_buffer_putuint32 | W48 => isc_buffer_putuint48
  end.

Definition get_w (w : width) : isc_buffer_t -> outcome (Z * isc_buffer_t) :=
  match w with
  | W8 => isc_buffer_getuint8 | W16 => isc_buffer_getuint16
  | W32 => isc_buffer_getuint32 | W48 => isc_buffer_getuint48
  end.

Fixpoint put_fields (b : isc_buffer_t) (fs : list (width * Z)) : outcome isc_buffer_t :=
  match fs with
  | [] => Done b
  | (w, v) :: fs => let* b := put_w w b v in put_fields b fs
  end.

Fixpoint get_fields (b : isc_buffer_t) (ws : list width) : outcome (list Z * isc_buffer_t) :=
  match ws with
  | [] => Done ([], b)
  | w :: ws =>
      let* (v, b) := get_w w b in
      let* (vs, b) := get_fields b ws in
      Done (v :: vs, b)
  end.

Definition fields_size (fs : list (width * Z)) : Z :=
  Z.of_nat (list_sum (map (fun f => width_bytes (fst f)) fs)).

Definition fields_ok (fs : list (width * Z)) : Prop :=
  Forall (fun f => 0 <= snd f < 256 ^ Z.of_nat (width_bytes (fst f))) fs.

(** The arguments an operation is called with: byte strings are bytes, counts
    are unsigned, and the sums tested by the assertions do not wrap. *)
Definition op_ok (b : isc_buffer_t) (op : buf_op) : Prop :=
  match op with
  | OpReinit base => bytes base /\ Zlen base + 8 < 2 ^ 32
  | OpAdd n => 0 <= n /\ b_used b + n < 2 ^ 32
  | OpSetactive n | OpForward n => 0 <= n /\ b_current b + n < 2 ^ 32
  | OpSubtract n | OpBack n => 0 <= n
  | OpPutmem src | OpPutstr src | OpCopyregion src => bytes src /\ b_used b + Zlen src < 2 ^ 32
  | _ => True
  end.

(** ** Lemmas *)

Lemma blit_snoc {A} (l l' : list A) i src x :
  blit l i src = Done l' -> wr l' (i + Zlen src) x = blit l i (src ++ [x]).
Proof.
  intros (H1&H2&->)%blit_Done. unfold wr, blit.
  rewrite (Zlen_app src [x]). change (Zlen [x]) with 1.
  replace (0 <=? i) with true by lia. replace (0 <=? i + Zlen src) with true by (len).
  cbn [andb].
  assert (HL : Zlen (take (Z.to_nat i) l ++ src ++ drop (Z.to_nat (i + Zlen src)) l) = Zlen l) by len.
  rewrite HL.
  destruct (i + Zlen src <? Zlen l) eqn:E; destruct (i + (Zlen src + 1) <=? Zlen l) eqn:E';
    try done; try (exfalso; lia).
  f_equal. bool_prop.
  rewrite insert_app_r_alt by len. f_equal.
  replace (Z.to_nat (i + Zlen src) - length (take (Z.to_nat i) l))%nat with (length src + 0)%nat by len.
  rewrite insert_app_r. rewrite <- app_assoc. f_equal.
  destruct (drop (Z.to_nat (i + Zlen src)) l) as [|y r] eqn:Ed.
  - apply (f_equal length) in Ed. len.
  - cbn. f_equal. change r with (drop 1 (y :: r)). rewrite <- Ed, drop_drop. f_equal. len.
Qed.

(** Consecutive byte stores are one block store. *)
Lemma wr_seq {A} (l l1 : list A) i src x :
  blit l i src = Done l1 -> i + Zlen src < Zlen l ->
  exists l2, wr l1 (i + Zlen src) x = Done l2 /\ blit l i (src ++ [x]) = Done l2.
Proof.
  intros H Hlt. rewrite (blit_snoc _ _ _ _ _ H).
  apply blit_Done in H as (?&?&_). eexists. split; apply blit_ok; len.
Qed.

(** Appending bytes after the used region. *)
Lemma append_spec b src base' :
  wf_buffer b -> bytes src -> blit (b_base b) (b_used b) src = Done base' ->
  let b' := set_used (set_base b base') (b_used b + Zlen src) in
  wf_buffer b' /\ remaining b' = remaining b ++ src /\ b_length b' = b_length b /\
  take (Z.to_nat (b_used b)) base' = take (Z.to_nat (b_used b)) (b_base b) /\
  sub base' (b_used b) (Zlen src) = src.
Proof.
  intros [Hb Hc Hu Ha Hl] Hs Hblit. pose proof (bytes_blit _ _ _ _ Hb Hs Hblit).
  pose proof (Zlen_blit _ _ _ _ Hblit) as HL.
  apply blit_Done in Hblit as (_&H2&->). unfold b_length in *.
  split_and!.
  - constructor; cbn; unfold b_length; cbn; try done; len.
  - unfold remaining, sub; cbn [b_base b_current b_used set_used set_base].
    rewrite drop_app_le by len. rewrite take_app_ge by len.
    rewrite skipn_firstn_comm. f_equal.
    + f_equal. lia.
    + rewrite length_take, length_drop, take_app_le by len. apply take_ge. len.
  - done.
  - rewrite take_app_le by len. rewrite take_take. f_equal. lia.
  - unfold sub. rewrite drop_app_ge by len. rewrite length_take.
    replace (Z.to_nat (b_used b) - Z.to_nat (b_used b) `min` length (b_base b))%nat with 0%nat by len.
    rewrite drop_0, take_app_le by len. apply take_ge. len.
Qed.

Lemma length_be_bytes n v : length (be_bytes n v) = n.
Proof. induction n; cbn; auto. Qed.

Lemma bytes_be n v : bytes (be_bytes n v).
Proof.
  induction n; cbn; [constructor|]. constructor; [|done].
  unfold is_byte. pose proof (Z.mod_pos_bound (v / 256 ^ Z.of_nat n) 256). lia.
Qed.

(** The store macros extract byte [k] of a value with a mask and a shift. *)
Lemma mask_shift v k : 0 <= k ->
  u8 (Z.shiftr (Z.land v (255 * 2 ^ k)) k) = (v / 2 ^ k) mod 256.
Proof.
  intros Hk. rewrite Z.shiftr_land.
  replace (Z.shiftr (255 * 2 ^ k) k) with (Z.ones 8)
    by (rewrite Z.shiftr_div_pow2, Z.div_mul by lia; reflexivity).
  rewrite Z.land_ones, Z.shiftr_div_pow2 by lia. change (2 ^ 8) with 256.
  apply u8_small, Z.mod_pos_bound. lia.
Qed.

Lemma mask_low v : u8 (Z.land v 255) = v mod 256.
Proof.
  change 255 with (Z.ones 8). rewrite Z.land_ones by lia.
  apply u8_small, Z.mod_pos_bound. lia.
Qed.

(** The load functions assemble a value with shifts and [|]. *)
Lemma lor_add a b k : 0 <= k -> 0 <= b < 2 ^ k -> Z.lor (a * 2 ^ k) b = a * 2 ^ k + b.
Proof.
  intros Hk Hb. rewrite <- Z.shiftl_mul_pow2 by lia. symmetry. apply Z.add_nocarry_lor.
  apply Z.bits_inj'. intros n Hn. rewrite Z.land_spec, Z.bits_0.
  destruct (Z.lt_ge_cases n k).
  - rewrite Z.shiftl_spec_low by lia. done.
  - destruct (Z.eq_dec b 0) as [->|]; [rewrite Z.bits_0; apply andb_false_r|].
    assert (2 ^ k <= 2 ^ n) by (apply Z.pow_le_mono_r; lia).
    assert (Z.log2 b < n) by (apply Z.log2_lt_pow2; lia).
    rewrite (Z.bits_above_log2 b) by lia. apply andb_false_r.
Qed.

Lemma mod_div_byte v a b : 0 <= a -> a + 8 <= b ->
  ((v mod 2 ^ b) / 2 ^ a) mod 256 = (v / 2 ^ a) mod 256.
Proof.
  intros Ha Hb. change 256 with (2 ^ 8).
  rewrite <- !Z.land_ones, <- !Z.shiftr_div_pow2 by lia.
  apply Z.bits_inj'. intros n Hn. rewrite !Z.land_spec, !Z.shiftr_spec, !Z.land_spec by lia.
  rewrite !Z.testbit_ones_nonneg by lia.
  destruct (Z.ltb_spec n 8), (Z.ltb_spec (n + a) b); rewrite ?andb_true_r, ?andb_false_r;
    try done; exfalso; lia.
Qed.

Lemma store_byte v w k mask : 0 <= k -> k + 8 <= w -> mask = 255 * 2 ^ k ->
  u8 (Z.shiftr (Z.land (v mod 2 ^ w) mask) k) = (v / 2 ^ k) mod 256.
Proof. intros ? ? ->. rewrite mask_shift by lia. apply mod_div_byte; lia. Qed.

Lemma store_low v w : 8 <= w -> u8 (Z.land (v mod 2 ^ w) 255) = (v / 1) mod 256.
Proof.
  intros. rewrite mask_low, Z.div_1_r.
  pose proof (mod_div_byte v 0 w) as H1. rewrite !Z.div_1_r in H1. apply H1; lia.
Qed.

Lemma rd_remaining b k x :
  wf_buffer b -> remaining b !! k = Some x -> rd (b_base b) (b_current b + Z.of_nat k) = Done x.
Proof.
  intros [_ Hc _ _ _] H. unfold remaining, sub in H. apply lookup_take_Some in H as [H ?].
  rewrite lookup_drop in H. apply rd_Done. split; [lia|]. rewrite <- H. f_equal. lia.
Qed.

Lemma length_remaining b : wf_buffer b -> Zlen (remaining b) = b_used b - b_current b.
Proof. intros [? ? ? ? ?]. unfold remaining. rewrite Zlen_sub; unfold b_length in *; lia. Qed.

(** Consuming [n] bytes. *)
Lemma consume_spec b (l rest : list Z) :
  wf_buffer b -> remaining b = l ++ rest ->
  let b' := set_current b (b_current b + Zlen l) in
  Zlen l <= b_used b - b_current b /\ wf_buffer b' /\ remaining b' = rest.
Proof.
  intros Hwf H. pose proof (length_remaining b Hwf) as HL.
  rewrite H, Zlen_app in HL. pose proof (Zlen_nonneg rest). pose proof (Zlen_nonneg l).
  destruct Hwf as [? ? ? ? ?]. split_and!; [lia| |].
  - constructor; cbn; try done; lia.
  - unfold remaining, sub in *; cbn.
    replace (Z.to_nat (b_current b + Zlen l)) with (Z.to_nat (b_current b) + length l)%nat by len.
    rewrite <- drop_drop.
    replace (Z.to_nat (b_used b - (b_current b + Zlen l)))
      with (Z.to_nat (b_used b - b_current b) - length l)%nat by len.
    rewrite <- skipn_firstn_comm, H. apply drop_app_length.
Qed.

(** ** The integer accessors meet their contract *)

Ltac put_codec :=
  let b := fresh "b" in let v := fresh "v" in let Hwf := fresh "Hwf" in let Hsp := fresh "Hsp" in
  intros b v Hwf Hsp;
  pose proof (wb_current b Hwf); pose proof (wb_length b Hwf);
  rewrite require_true by (rewrite u32_small by lia; lia); cbn [obind].

(** Run the next byte store of a macro and remember the block written so far. *)
Ltac store H :=
  let l := fresh "base" in let E := fresh "E" in let Hn := fresh "H" in
  match goal with
  | |- context [wr _ _ ?x] =>
      destruct (wr_seq _ _ _ _ x H) as (l & E & Hn); [unfold b_length, Zlen in *; cbn [length app] in *; lia|];
      unfold Zlen in E; cbn [length app] in E, Hn;
      change (Z.of_nat 0) with 0 in E; change (Z.of_nat 1) with 1 in E;
      change (Z.of_nat 2) with 2 in E; change (Z.of_nat 3) with 3 in E;
      rewrite ?Z.add_0_r in E; rewrite E; cbn [obind]; clear H; rename Hn into H
  end.

Lemma blit_nil {A} (l : list A) i : 0 <= i <= Zlen l -> blit l i [] = Done l.
Proof.
  intros H. rewrite blit_ok by len. cbn. change (Zlen []) with 0. rewrite Z.add_0_r.
  by rewrite take_drop.
Qed.

Lemma codec_finish n b v base src :
  wf_buffer b -> blit (b_base b) (b_used b) src = Done base -> src = be_bytes n v ->
  let b' := set_used (set_base b base) (b_used b + Z.of_nat n) in
  wf_buffer b' /\ remaining b' = remaining b ++ be_bytes n v /\
  b_used b' = b_used b + Z.of_nat n /\ b_length b' = b_length b /\ b_current b' = b_current b.
Proof.
  intros Hwf H ->. replace (Z.of_nat n) with (Zlen (be_bytes n v)).
  - destruct (append_spec b _ base Hwf (bytes_be n v) H) as (?&?&?&_). done.
  - unfold Zlen. by rewrite length_be_bytes.
Qed.

Ltac store_bytes :=
  unfold u16, u32; cbn [be_bytes];
  change (256 ^ Z.of_nat 0) with 1; change (256 ^ Z.of_nat 1) with (2 ^ 8);
  change (256 ^ Z.of_nat 2) with (2 ^ 16); change (256 ^ Z.of_nat 3) with (2 ^ 24);
  repeat first
    [ rewrite (store_byte _ _ 8) by first [reflexivity|lia]
    | rewrite (store_byte _ _ 16) by first [reflexivity|lia]
    | rewrite (store_byte _ _ 24) by first [reflexivity|lia]
    | rewrite store_low by lia ];
  reflexivity.

Lemma putuint16_macro_spec b v :
  wf_buffer b -> b_used b + 2 <= b_length b ->
  exists base, buffer_putuint16_macro b v = Done (set_used (set_base b base) (b_used b + 2)) /\
    blit (b_base b) (b_used b) (be_bytes 2 v) = Done base.
Proof.
  intros Hwf Hsp. pose proof (wb_current b Hwf).
  pose proof (blit_nil (b_base b) (b_used b) ltac:(unfold b_length in *; lia)) as H0.
  unfold buffer_putuint16_macro. do 2 store H0. eexists. split; [done|].
  rewrite <- H0. f_equal. store_bytes.
Qed.

Lemma putuint32_macro_spec b v :
  wf_buffer b -> b_used b + 4 <= b_length b ->
  exists base, buffer_putuint32_macro b v = Done (set_used (set_base b base) (b_used b + 4)) /\
    blit (b_base b) (b_used b) (be_bytes 4 v) = Done base.
Proof.
  intros Hwf Hsp. pose proof (wb_current b Hwf).
  pose proof (blit_nil (b_base b) (b_used b) ltac:(unfold b_length in *; lia)) as H0.
  unfold buffer_putuint32_macro. do 4 store H0. eexists. split; [done|].
  rewrite <- H0. f_equal. store_bytes.
Qed.

Lemma putuint24_spec b v :
  wf_buffer b -> b_used b + 3 <= b_length b ->
  exists base, isc_buffer_putuint24 b v = Done (set_used (set_base b base) (b_used b + 3)) /\
    blit (b_base b) (b_used b) (be_bytes 3 v) = Done base.
Proof.
  intros Hwf Hsp. unfold isc_buffer_putuint24.
  pose proof (wb_current b Hwf). pose proof (wb_length b Hwf).
  rewrite require_true by (rewrite u32_small by lia; lia). cbn [obind].
  pose proof (blit_nil (b_base b) (b_used b) ltac:(unfold b_length in *; lia)) as H1.
  do 3 store H1. eexists. split; [done|]. rewrite <- H1. f_equal. store_bytes.
Qed.

Lemma putuint8_spec b v :
  wf_buffer b -> b_used b + 1 <= b_length b ->
  exists base, isc_buffer_putuint8 b v = Done (set_used (set_base b base) (b_used b + 1)) /\
    blit (b_base b) (b_used b) (be_bytes 1 v) = Done base.
Proof.
  intros Hwf Hsp. unfold isc_buffer_putuint8.
  pose proof (wb_current b Hwf). pose proof (wb_length b Hwf).
  rewrite require_true by (rewrite u32_small by lia; lia). cbn [obind].
  pose proof (blit_nil (b_base b) (b_used b) ltac:(unfold b_length in *; lia)) as H1.
  store H1. eexists. split; [done|]. rewrite <- H1. f_equal. cbn. f_equal.
  rewrite Z.div_1_r. change 255 with (Z.ones 8). rewrite Z.land_ones by lia.
  unfold u8. rewrite Z.mod_mod by lia. done.
Qed.

Lemma macro_codec n b v r base :
  wf_buffer b -> r = Done (set_used (set_base b base) (b_used b + Z.of_nat n)) ->
  blit (b_base b) (b_used b) (be_bytes n v) = Done base ->
  exists b', r = Done b' /\ wf_buffer b' /\
    remaining b' = remaining b ++ be_bytes n v /\
    b_used b' = b_used b + Z.of_nat n /\ b_length b' = b_length b /\ b_current b' = b_current b.
Proof. intros Hwf -> H. eexists. split; [done|]. by eapply codec_finish. Qed.

(** Assembling the bytes of a value with shifts gives the value back. *)
Lemma load_step a b k : 0 <= k -> 0 <= b < 256 -> 0 <= a ->
  Z.lor (Z.shiftl a (k + 8)) (Z.shiftl b k) = Z.shiftl (a * 256 + b) k.
Proof.
  intros. rewrite (Z.add_comm k 8), <- Z.shiftl_shiftl, <- Z.shiftl_lor by lia.
  f_equal. rewrite (Z.shiftl_mul_pow2 a) by lia. apply lor_add; lia.
Qed.

Lemma load16 v : 0 <= v < 65536 ->
  u16 (Z.lor (u16 (Z.shiftl ((v / 256) mod 256) 8)) ((v / 1) mod 256)) = v.
Proof.
  intros. rewrite Z.div_1_r. rewrite (u16_small (Z.shiftl _ _))
    by (rewrite Z.shiftl_mul_pow2 by lia; divlia).
  rewrite Z.shiftl_mul_pow2, lor_add by divlia. rewrite u16_small; divlia.
Qed.

Lemma load32 v : 0 <= v < 4294967296 ->
  Z.lor (Z.lor (Z.lor (u32 (Z.shiftl ((v / 2 ^ 24) mod 256) 24))
                      (u32 (Z.shiftl ((v / 2 ^ 16) mod 256) 16)))
               (u32 (Z.shiftl ((v / 2 ^ 8) mod 256) 8))) ((v / 1) mod 256) = v.
Proof.
  intros. rewrite !u32_small by (rewrite Z.shiftl_mul_pow2 by lia; divlia).
  rewrite <- (Z.shiftl_0_r ((v / 1) mod 256)).
  rewrite (load_step _ _ 16) by divlia. rewrite (load_step _ _ 8) by divlia.
  rewrite (load_step _ _ 0) by divlia. rewrite Z.shiftl_0_r. divlia.
Qed.

Lemma load48 v : 0 <= v < 2 ^ 48 ->
  Z.lor (Z.lor (Z.lor (Z.lor (Z.lor (Z.shiftl ((v / 2 ^ 40) mod 256) 40)
    (Z.shiftl ((v / 2 ^ 32) mod 256) 32)) (Z.shiftl ((v / 2 ^ 24) mod 256) 24))
    (Z.shiftl ((v / 2 ^ 16) mod 256) 16)) (Z.shiftl ((v / 2 ^ 8) mod 256) 8)) ((v / 1) mod 256) = v.
Proof.
  intros. rewrite <- (Z.shiftl_0_r ((v / 1) mod 256)).
  rewrite (load_step _ _ 32) by divlia. rewrite (load_step _ _ 24) by divlia.
  rewrite (load_step _ _ 16) by divlia. rewrite (load_step _ _ 8) by divlia.
  rewrite (load_step _ _ 0) by divlia. rewrite Z.shiftl_0_r. divlia.
Qed.

(** Read byte [k] of the value at the front of the remaining region. *)
Ltac load b Hwf H k :=
  let E := fresh "E" in
  epose proof (rd_remaining b k _ Hwf ltac:(rewrite H; reflexivity)) as E;
  change (Z.of_nat k) with (ltac:(let z := eval vm_compute in (Z.of_nat k) in exact z)) in E;
  rewrite ?Z.add_0_r in E; rewrite E; cbn [obind]; clear E.

Ltac get_start b Hwf H :=
  let HL := fresh "HL" in
  pose proof (length_remaining b Hwf) as HL; rewrite H, Zlen_app in HL;
  pose proof (wb_length b Hwf); pose proof (wb_used b Hwf); pose proof (wb_current b Hwf);
  unfold Zlen in HL; rewrite length_be_bytes in HL;
  rewrite require_true by (rewrite u32_small by (unfold b_length in *; lia); lia);
  cbn [obind]; clear HL.

Lemma get_finish n b v rest :
  wf_buffer b -> remaining b = be_bytes n v ++ rest ->
  wf_buffer (set_current b (b_current b + Z.of_nat n)) /\
  remaining (set_current b (b_current b + Z.of_nat n)) = rest.
Proof.
  intros Hwf H. destruct (consume_spec b _ _ Hwf H) as (_&H1&H2).
  unfold Zlen in *. rewrite length_be_bytes in *. done.
Qed.

Ltac get_done n b v rest Hwf H :=
  eexists; split; [reflexivity|]; destruct (get_finish n b v rest Hwf H); split_and!; done.

#[export] Instance codec8 : IntCodec 1 isc_buffer_putuint8 isc_buffer_getuint8.
Proof.
  split.
  - intros b v Hwf Hsp. destruct (putuint8_spec b v Hwf Hsp) as (base & E & Hb).
    by eapply macro_codec.
  - intros b v rest Hwf Hv H. unfold isc_buffer_getuint8.
    get_start b Hwf H. load b Hwf H 0%nat. rewrite Z.div_1_r, Z.mod_small, u8_small by lia.
    get_done 1%nat b v rest Hwf H.
Qed.

#[export] Instance codec16 : IntCodec 2 isc_buffer_putuint16 isc_buffer_getuint16.
Proof.
  split.
  - intros b v Hwf Hsp. unfold isc_buffer_putuint16.
    pose proof (wb_current b Hwf); pose proof (wb_length b Hwf).
    rewrite require_true by (rewrite u32_small by lia; lia). cbn [obind].
    destruct (putuint16_macro_spec b v Hwf Hsp) as (base & E & Hb). by eapply macro_codec.
  - intros b v rest Hwf Hv H. unfold isc_buffer_getuint16.
    get_start b Hwf H. load b Hwf H 0%nat. load b Hwf H 1%nat. rewrite load16 by lia.
    get_done 2%nat b v rest Hwf H.
Qed.

#[export] Instance codec32 : IntCodec 4 isc_buffer_putuint32 isc_buffer_getuint32.
Proof.
  split.
  - intros b v Hwf Hsp. unfold isc_buffer_putuint32.
    pose proof (wb_current b Hwf); pose proof (wb_length b Hwf).
    rewrite require_true by (rewrite u32_small by lia; lia). cbn [obind].
    destruct (putuint32_macro_spec b v Hwf Hsp) as (base & E & Hb). by eapply macro_codec.
  - intros b v rest Hwf Hv H. unfold isc_buffer_getuint32.
    get_start b Hwf H. load b Hwf H 0%nat. load b Hwf H 1%nat. load b Hwf H 2%nat.
    load b Hwf H 3%nat. rewrite load32 by lia. get_done 4%nat b v rest Hwf H.
Qed.

Lemma be_bytes_48 v : be_bytes 2 (u16 (Z.shiftr v 32)) ++ be_bytes 4 (u32 (Z.land v 0xFFFFFFFF)) = be_bytes 6 v.
Proof.
  change 0xFFFFFFFF with (Z.ones 32). rewrite Z.land_ones, Z.shiftr_div_pow2 by lia.
  unfold u16, u32. rewrite Z.mod_mod by lia. cbn [be_bytes app].
  change (256 ^ Z.of_nat 0) with (2 ^ 0); change (256 ^ Z.of_nat 1) with (2 ^ 8);
  change (256 ^ Z.of_nat 2) with (2 ^ 16); change (256 ^ Z.of_nat 3) with (2 ^ 24);
  change (256 ^ Z.of_nat 4) with (2 ^ 32); change (256 ^ Z.of_nat 5) with (2 ^ 40).
  rewrite !mod_div_byte by lia. rewrite !Z.div_div by lia. reflexivity.
Qed.

#[export] Instance codec48 : IntCodec 6 isc_buffer_putuint48 isc_buffer_getuint48.
Proof.
  split.
  - intros b v Hwf Hsp. unfold isc_buffer_putuint48.
    pose proof (wb_current b Hwf); pose proof (wb_length b Hwf).
    rewrite require_true by (rewrite u32_small by lia; lia). cbn [obind].
    destruct (putuint16_macro_spec b (u16 (Z.shiftr v 32)) Hwf) as (base & E & Hb); [lia|].
    destruct (macro_codec 2 b _ _ base Hwf E Hb) as (b1&->&Hwf1&Hr1&Hu1&Hl1&Hc1). cbn [obind].
    destruct (putuint32_macro_spec b1 (u32 (Z.land v 0xFFFFFFFF)) Hwf1) as (base1 & E1 & Hb1);
      [lia|].
    destruct (macro_codec 4 b1 _ _ base1 Hwf1 E1 Hb1) as (b2&->&Hwf2&Hr2&Hu2&Hl2&Hc2).
    exists b2. split_and!; try done; try lia.
    rewrite Hr2, Hr1, <- app_assoc, be_bytes_48. done.
  - intros b v rest Hwf Hv H. unfold isc_buffer_getuint48.
    get_start b Hwf H. load b Hwf H 0%nat. load b Hwf H 1%nat. load b Hwf H 2%nat.
    load b Hwf H 3%nat. load b Hwf H 4%nat. load b Hwf H 5%nat. rewrite load48 by lia.
    get_done 6%nat b v rest Hwf H.
Qed.

#[export] Instance codec_w w : IntCodec (width_bytes w) (put_w w) (get_w w).
Proof. destruct w; apply _. Qed.

Definition fields_wire (fs : list (width * Z)) : list Z :=
  concat (map (fun f => be_bytes (width_bytes (fst f)) (snd f)) fs).

Lemma put_fields_spec fs b :
  wf_buffer b -> b_used b + fields_size fs <= b_length b ->
  exists b', put_fields b fs = Done b' /\ wf_buffer b' /\
    remaining b' = remaining b ++ fields_wire fs /\
    b_used b' = b_used b + fields_size fs.
Proof.
  revert b. induction fs as [|[w v] fs IH]; intros b Hwf Hsp.
  - exists b. rewrite app_nil_r. unfold fields_size in *. cbn in *. split_and!; try done. lia.
  - change (fields_size ((w, v) :: fs)) with
      (Z.of_nat (width_bytes w + list_sum (map (fun f : width * Z => width_bytes (fst f)) fs))) in *.
    rewrite Nat2Z.inj_add in *. fold (fields_size fs) in *.
    assert (0 <= fields_size fs) by (unfold fields_size; lia).
    destruct (codec_put (put := put_w w) (get := get_w w) b v Hwf) as (b1&E1&Hwf1&Hr1&Hu1&Hl1&_);
      [lia|].
    destruct (IH b1 Hwf1) as (b2&E2&Hwf2&Hr2&Hu2); [lia|].
    exists b2. cbn [put_fields]. rewrite E1. cbn [obind]. split_and!; try done; [|lia].
    rewrite Hr2, Hr1, <- app_assoc. done.
Qed.

Lemma get_fields_spec fs b rest :
  wf_buffer b -> fields_ok fs -> remaining b = fields_wire fs ++ rest ->
  exists b', get_fields b (map fst fs) = Done (map snd fs, b') /\ wf_buffer b' /\
    remaining b' = rest.
Proof.
  revert b. induction fs as [|[w v] fs IH]; intros b Hwf Hok H.
  - exists b. done.
  - apply Forall_cons in Hok as [Hv Hok]. cbn [fields_wire map concat fst snd] in *.
    unfold fields_wire in H. cbn [map concat fst snd] in H. rewrite <- app_assoc in H.
    destruct (codec_get (put := put_w w) (get := get_w w) b v _ Hwf Hv H)
      as (b1&E1&Hwf1&Hr1&_).
    destruct (IH b1 Hwf1 Hok Hr1) as (b2&E2&Hwf2&Hr2).
    exists b2. cbn [get_fields]. rewrite E1. cbn [obind]. rewrite E2. done.
Qed.

Lemma forward_spec b n : wf_buffer b -> 0 <= n -> b_current b + n <= b_used b ->
  isc_buffer_forward b n = Done (set_current b (b_current b + n)) /\
  wf_buffer (set_current b (b_current b + n)).
Proof.
  intros [? ? ? ? ?] ? ?. unfold isc_buffer_forward. unfold b_length in *.
  rewrite require_true by (rewrite u32_small by lia; lia). cbn [obind].
  rewrite u32_small by lia. split; [done|]. constructor; cbn; try done; unfold b_length; cbn; lia.
Qed.

Lemma append_wf b src r :
  wf_buffer b -> bytes src -> b_used b + Zlen src < 2 ^ 32 ->
  (let* base := blit (b_base b) (b_used b) src in
   Done (set_used (set_base b base) (u32 (b_used b + Zlen src)))) = Done r -> wf_buffer r.
Proof.
  intros Hwf Hs Hn H. apply obind_Done in H as (base & Hb & [= <-]).
  pose proof (wb_current b Hwf). pose proof (Zlen_nonneg src).
  rewrite u32_small by lia. by apply append_spec.
Qed.

Lemma put_w_wf w b v b' : wf_buffer b -> b_used b + Z.of_nat (width_bytes w) <= b_length b ->
  put_w w b v = Done b' -> wf_buffer b'.
Proof.
  intros Hwf Hsp H.
  destruct (codec_put (put := put_w w) (get := get_w w) b v Hwf Hsp) as (b1&E&?&_).
  rewrite H in E. by injection E as ->.
Qed.

Lemma consume_wf b n : wf_buffer b -> 0 <= n ->
  require (n <=? u32 (b_used b - b_current b)) = Done tt ->
  wf_buffer (set_current b (b_current b + n)).
Proof.
  intros [? ? ? ? ?] Hn H%require_Done. unfold b_length in *. rewrite u32_small in H by lia.
  constructor; cbn; try done; unfold b_length; cbn; lia.
Qed.

Lemma space_check b n : wf_buffer b -> 0 <= n <= 8 ->
  require (u32 (b_used b + n) <=? b_length b) = Done tt -> b_used b + n <= b_length b.
Proof. intros [? ? ? ? ?] Hn H%require_Done. rewrite u32_small in H by lia. lia. Qed.

Lemma wf_init base : bytes base -> Zlen base + 8 < 2 ^ 32 -> wf_buffer (isc_buffer_init base).
Proof.
  intros. constructor; cbn; try done; unfold b_length; cbn; pose proof (Zlen_nonneg base); lia.
Qed.

Lemma wf_bufferb_spec b : wf_bufferb b = true -> wf_buffer b.
Proof. unfold wf_bufferb. intros H. bool_prop. constructor; try lia. by apply bytesb_spec. Qed.

(** Moving an offset of a well-formed buffer inside its range. *)
Ltac wf_offsets :=
  constructor; cbn; unfold b_length in *; cbn; try done; repeat case_if; bool_prop; lia.

Lemma reinit_wf b base b' : wf_buffer b -> bytes base -> Zlen base + 8 < 2 ^ 32 ->
  isc_buffer_reinit b base = Done b' -> wf_buffer b'.
Proof.
  intros [? ? ? ? ?] Hb Hn H. apply obind_Done in H as (? & Hle%require_Done & H).
  apply obind_Done in H as (base' & Hblit & [= <-]). bool_prop.
  pose proof (Zlen_blit _ _ _ _ Hblit). constructor; cbn; unfold b_length in *; cbn; try lia.
  by apply (bytes_blit base _ (b_base b) 0).
Qed.

Lemma compact_spec b : wf_buffer b ->
  exists b', isc_buffer_compact b = Done b' /\ wf_buffer b' /\ b_current b' = 0 /\
    b_used b' = b_used b - b_current b /\ remaining b' = remaining b.
Proof.
  intros Hwf. pose proof Hwf as [? ? ? ? ?]. pose proof (length_remaining b Hwf) as HL.
  unfold isc_buffer_compact, isc_buffer_remaininglength, b_length in *.
  rewrite u32_small by lia. fold (remaining b).
  rewrite blit_ok by lia. cbn [obind]. eexists. split; [done|].
  split_and!; try done.
  - constructor; cbn; unfold b_length; cbn; try (len; fail).
    + rewrite !bytes_app. split_and!; auto with isc. unfold remaining. auto with isc.
    + case_if; bool_prop; lia.
  - unfold remaining at 1, sub. cbn [b_base b_used b_current]. rewrite Z.sub_0_r.
    change (Z.to_nat 0) with 0%nat. rewrite take_0, drop_0. cbn [app].
    rewrite take_app_le by len. apply take_ge. len.
Qed.

(** ** Theorems *)

(** Integers survive the wire: storing any record of 8, 16, 32 and 48-bit
    fields with the [isc_buffer_putuint*] functions into a buffer with room for
    them, and loading the same record with [isc_buffer_getuint*], returns the
    stored values, for every record, and no assertion of either side fires.
    The stored bytes are the big-endian ones, after whatever the buffer held. *)
Theorem buffer_fields_roundtrip (b : isc_buffer_t) (fs : list (width * Z)) :
  wf_buffer b -> fields_ok fs -> b_used b + fields_size fs <= b_length b ->
  remaining b = [] ->
  exists b1 b2,
    put_fields b fs = Done b1 /\ remaining b1 = fields_wire fs /\
    get_fields b1 (map fst fs) = Done (map snd fs, b2) /\ remaining b2 = [] /\
    wf_buffer b2.
Proof.
  intros Hwf Hok Hsp He.
  destruct (put_fields_spec fs b Hwf Hsp) as (b1&E1&Hwf1&Hr1&_).
  rewrite He in Hr1. cbn in Hr1.
  destruct (get_fields_spec fs b1 [] Hwf1 Hok) as (b2&E2&Hwf2&Hr2); [by rewrite app_nil_r|].
  exists b1, b2. done.
Qed.

Lemma buffer_fields_roundtrip_witness :
  exists b1 b2,
    put_fields (isc_buffer_init (replicate 12 0)) [(W16, 0xbeef); (W32, 0x01020304); (W8, 7)]
      = Done b1 /\
    get_fields b1 [W16; W32; W8] = Done ([0xbeef; 0x01020304; 7], b2).
Proof.
  destruct (buffer_fields_roundtrip (isc_buffer_init (replicate 12 0))
              [(W16, 0xbeef); (W32, 0x01020304); (W8, 7)]) as (b1&b2&H1&_&H2&_).
  - apply wf_init; [apply bytes_replicate|reflexivity].
  - repeat constructor; cbn; lia.
  - vm_compute. discriminate.
  - reflexivity.
  - exists b1, b2. split; [exact H1|exact H2].
Defined.

(** C31. The representation invariant [current <= used <= length],
    [active <= used] of buffer.h is preserved by every operation of buffer.c
    that changes a buffer and returns, when the sum that its assertion tests does
    not wrap in 32 bits ([op_ok]).  When the sum wraps the assertion can pass and
    the invariant is lost ([buffer_add_assertion_wraps]). *)
Theorem buffer_invariant (b b' : isc_buffer_t) (op : buf_op) :
  wf_buffer b -> op_ok b op -> buf_step b op = Done b' -> wf_buffer b'.
Proof.
  intros Hwf Hok H. pose proof Hwf as [? ? ? ? ?].
  destruct op; cbn [buf_step op_ok] in *; try (injection H as <-; wf_offsets).
  all: try (by destruct Hok; eauto using reinit_wf).
  all: try (by apply obind_Done in H as (? & Hr%require_Done & [= <-]); bool_prop;
            rewrite ?u32_small in * by (unfold b_length in *; lia); wf_offsets).
  all: try (destruct (compact_spec b Hwf) as (b1&E&?&_); rewrite H in E; by injection E as ->).
  all: try (apply obind_Done in H as (p & H & [= <-]); apply obind_Done in H as ([] & Hr & H);
            repeat (apply obind_Done in H as (? & _ & H)); injection H as <-;
            by apply consume_wf).
  all: try (by pose proof H as H'; apply obind_Done in H' as ([] & Hr & _);
            apply space_check in Hr; [|done|lia];
            first [by apply (put_w_wf W8 b v) | by apply (put_w_wf W16 b v)
                  | by apply (put_w_wf W32 b v) | by apply (put_w_wf W48 b v)]).
  - pose proof H as H'. apply obind_Done in H' as ([] & Hr & _).
    apply space_check in Hr; [|done|lia].
    destruct (putuint24_spec b v Hwf Hr) as (base & E & Hb). rewrite H in E. injection E as ->.
    eapply (codec_finish 3); [done|exact Hb|reflexivity].
  - apply obind_Done in H as (? & _ & H). destruct Hok. by apply (append_wf b src b').
  - apply obind_Done in H as (? & _ & H). destruct Hok. by apply (append_wf b src b').
  - unfold osnd, isc_buffer_copyregion in H. destruct Hok.
    destruct (_ <? _); [by injection H as <-|]. apply (append_wf b src b'); [done..|].
    destruct (blit _ _ _); done.
Qed.

Lemma buffer_invariant_witness :
  wf_buffer (isc_buffer_init (replicate 20 0)) /\
  exists b', buf_step (isc_buffer_init (replicate 20 0)) (OpPutmem [1; 2; 3]) = Done b' /\
    wf_buffer b'.
Proof.
  assert (H : wf_buffer (isc_buffer_init (replicate 20 0)))
    by (apply wf_init; [apply bytes_replicate|reflexivity]).
  split; [exact H|]. eexists. split; [reflexivity|].
  apply (buffer_invariant (isc_buffer_init (replicate 20 0)) _ (OpPutmem [1; 2; 3]));
    [exact H| |reflexivity].
  split; [repeat constructor; lia|reflexivity].
Defined.

(** Compaction keeps the unread data: [isc_buffer_compact] on a
    well-formed buffer succeeds, moves exactly the remaining bytes to the start
    of the area, empties the consumed region and keeps the invariant. *)
Theorem buffer_compact_remaining (b : isc_buffer_t) :
  wf_buffer b ->
  exists b', isc_buffer_compact b = Done b' /\ wf_buffer b' /\ b_current b' = 0 /\
    b_used b' = b_used b - b_current b /\ remaining b' = remaining b.
Proof. apply compact_spec. Qed.

Lemma buffer_compact_remaining_witness :
  exists b', isc_buffer_compact (mkbuffer [1; 2; 3; 4; 5] 4 2 3) = Done b' /\
    remaining b' = [3; 4].
Proof.
  destruct (buffer_compact_remaining (mkbuffer [1; 2; 3; 4; 5] 4 2 3)) as (b'&H&_&_&_&Hr).
  - apply wf_bufferb_spec. reflexivity.
  - exists b'. split; [exact H|]. rewrite Hr. reflexivity.
Defined.

(** The bounds assertion of [isc__buffer_add] is computed in 32 bits and
    wraps: for any buffer with unread data there is a count [n] for which
    [REQUIRE(b->used + n <= b->length)] holds although [used + n] exceeds the
    length, and the call that should extend the used region shrinks it. *)
Theorem buffer_add_assertion_wraps (b : isc_buffer_t) :
  wf_buffer b -> b_current b < b_used b ->
  exists n b', 0 <= n < 2 ^ 32 /\ b_length b < b_used b + n /\
    isc_buffer_add b n = Done b' /\ b_used b' < b_used b.
Proof.
  intros [? ? ? ? ?] Hlt. exists (2 ^ 32 - b_used b + b_current b).
  assert (E : u32 (b_used b + (2 ^ 32 - b_used b + b_current b)) = b_current b).
  { unfold u32. replace (b_used b + (2 ^ 32 - b_used b + b_current b))
      with (b_current b + 1 * 2 ^ 32) by lia.
    rewrite Z.mod_add by lia. apply Z.mod_small. unfold b_length in *; lia. }
  eexists. unfold isc_buffer_add. rewrite E. rewrite require_true by lia. cbn [obind].
  split_and!; [..|done|]; cbn; try lia.
Qed.

Lemma buffer_add_assertion_wraps_witness :
  exists n b', 0 <= n < 2 ^ 32 /\ 3 < 2 + n /\
    isc_buffer_add (mkbuffer [1; 2; 3] 2 1 0) n = Done b'.
Proof.
  destruct (buffer_add_assertion_wraps (mkbuffer [1; 2; 3] 2 1 0)) as (n&b'&H1&H2&H3&_).
  - apply wf_bufferb_spec. reflexivity.
  - reflexivity.
  - exists n, b'. split; [exact H1|]. split; [exact H2|exact H3].
Defined.
