(* ===== verification/Name.v ===== *)
(** * Domain names ([lib/dns/name.c])

    A [dns_name_t] refers to a sequence of labels in uncompressed wire form: the
    pointer [ndata] with [length] is the list of the bytes it covers, [labels]
    counts the labels, [attributes] is the bit set of name.h and [offsets] is
    the optional table of label offsets.  Names are modelled by value: a target
    name does not share its storage with a source name.

    The file holds the operations on names that do not read or write text:
    offsets, hashing, the DNSSEC order, equality, label sequences, copying,
    case folding and concatenation.  The wire and text conversions, which build
    on them, are in the files for those parts. *)

From S2P Require Import Prelude Buffer.

(** ** Data *)

(** [maptolower], lines 79-112. *)
Definition maptolower : list Z :=
  [0; 1; 2; 3; 4; 5; 6; 7; 8; 9; 10; 11; 12; 13; 14; 15;
   16; 17; 18; 19; 20; 21; 22; 23; 24; 25; 26; 27; 28; 29; 30; 31;
   32; 33; 34; 35; 36; 37; 38; 39; 40; 41; 42; 43; 44; 45; 46; 47;
   48; 49; 50; 51; 52; 53; 54; 55; 56; 57; 58; 59; 60; 61; 62; 63;
   64; 97; 98; 99; 100; 101; 102; 103; 104; 105; 106; 107; 108; 109; 110; 111;
   112; 113; 114; 115; 116; 117; 118; 119; 120; 121; 122; 91; 92; 93; 94; 95;
   96; 97; 98; 99; 100; 101; 102; 103; 104; 105; 106; 107; 108; 109; 110; 111;
   112; 113; 114; 115; 116; 117; 118; 119; 120; 121; 122; 123; 124; 125; 126; 127;
   128; 129; 130; 131; 132; 133; 134; 135; 136; 137; 138; 139; 140; 141; 142; 143;
   144; 145; 146; 147; 148; 149; 150; 151; 152; 153; 154; 155; 156; 157; 158; 159;
   160; 161; 162; 163; 164; 165; 166; 167; 168; 169; 170; 171; 172; 173; 174; 175;
   176; 177; 178; 179; 180; 181; 182; 183; 184; 185; 186; 187; 188; 189; 190; 191;
   192; 193; 194; 195; 196; 197; 198; 199; 200; 201; 202; 203; 204; 205; 206; 207;
   208; 209; 210; 211; 212; 213; 214; 215; 216; 217; 218; 219; 220; 221; 222; 223;
   224; 225; 226; 227; 228; 229; 230; 231; 232; 233; 234; 235; 236; 237; 238; 239;
   240; 241; 242; 243; 244; 245; 246; 247; 248; 249; 250; 251; 252; 253; 254; 255].

(** [maptolower[c]] for an [unsigned char] [c]. *)
Definition tolower (c : Z) : Z := nth (Z.to_nat c) maptolower 0.

Record dns_name_t := mkname {
  ndata : list Z;
  labels : Z;
  attributes : Z;
  offsets : option (list Z);
  buffer : option isc_buffer_t
}.

Definition DNS_NAME_MAXWIRE : Z := 255.
Definition DNS_NAMEATTR_ABSOLUTE : Z := 0x01.
Definition DNS_NAMEATTR_READONLY : Z := 0x02.
Definition DNS_NAMEATTR_DYNAMIC : Z := 0x04.
Definition DNS_NAMEATTR_DYNOFFSETS : Z := 0x08.
Definition DNS_NAMEATTR_NOCOMPRESS : Z := 0x10.

Definition n_length (n : dns_name_t) : Z := Zlen (ndata n).

Definition attr_set (n : dns_name_t) (bit : Z) : bool := negb (Z.land (attributes n) bit =? 0).

Definition set_absolute (a : Z) (absolute : bool) : Z :=
  if absolute then Z.lor a DNS_NAMEATTR_ABSOLUTE else Z.land a (Z.lnot DNS_NAMEATTR_ABSOLUTE).

Definition BINDABLE (n : dns_name_t) : bool :=
  Z.land (attributes n) (Z.lor DNS_NAMEATTR_READONLY DNS_NAMEATTR_DYNAMIC) =? 0.

Definition MAKE_EMPTY (n : dns_name_t) : dns_name_t :=
  mkname [] 0 (set_absolute (attributes n) false) (offsets n) (buffer n).

(** [DNS_NAME_INIT]. *)
Definition dns_name_init (offs : option (list Z)) : dns_name_t := mkname [] 0 0 offs None.

Definition dns_rootname : dns_name_t :=
  mkname [0] 1 (Z.lor DNS_NAMEATTR_READONLY DNS_NAMEATTR_ABSOLUTE) (Some [0]) None.

Definition dns_wildcardname : dns_name_t :=
  mkname [1; 42] 1 DNS_NAMEATTR_READONLY (Some [0]) None.

(** [dns_offsets_t]: room for 128 labels. *)
Definition odata : list Z := replicate 128 0.

(** ** Offsets *)

(** The scan of [set_offsets]: variables offset, nlabels, table. *)
Definition so_body (data : list Z) (length : Z) (s : Z * Z * list Z) :
    outcome ((Z * Z * list Z) + (Z * Z * list Z * bool)) :=
  let '(offset, nlabels, tbl) := s in
  if negb (offset =? length) then
    REQUIRE nlabels <? 128 ;;
    let* tbl := wr tbl nlabels (u8 offset) in
    let nlabels := nlabels + 1 in
    let* count := rd data offset in
    let offset := offset + 1 in
    REQUIRE count <=? 63 ;;
    let offset := offset + count in
    REQUIRE offset <=? length ;;
    if count =? 0 then Done (inr (offset, nlabels, tbl, true))
    else Done (inl (offset, nlabels, tbl))
  else Done (inr (offset, nlabels, tbl, false)).

(** 129 iterations are enough: the assertion on [nlabels] bounds the loop. *)
Definition so_scan (data tbl : list Z) : outcome (Z * Z * list Z * bool) :=
  loop 130 (so_body data (Zlen data)) (0, 0, tbl).

(** [set_offsets(name, offsets, NULL)]. *)
Definition set_offsets (n : dns_name_t) (tbl : list Z) : outcome (list Z) :=
  let* (offset, nlabels, tbl, _) := so_scan (ndata n) tbl in
  REQUIRE nlabels =? labels n ;;
  REQUIRE offset =? n_length n ;;
  Done tbl.

(** [set_offsets(name, offsets, name)]: also sets the label count, the length
    and the ABSOLUTE attribute. *)
Definition set_offsets_name (n : dns_name_t) (tbl : list Z) : outcome (dns_name_t * list Z) :=
  let* (offset, nlabels, tbl, absolute) := so_scan (ndata n) tbl in
  Done (mkname (sub (ndata n) 0 offset) nlabels (set_absolute (attributes n) absolute)
               (offsets n) (buffer n), tbl).

(** [SETUP_OFFSETS]. *)
Definition setup_offsets (n : dns_name_t) : outcome (list Z) :=
  match offsets n with
  | Some tbl => Done tbl
  | None => set_offsets n odata
  end.

(** The table of a name that has one is replaced, a name without one keeps none. *)
Definition put_offsets (n : dns_name_t) (tbl : list Z) : option (list Z) :=
  match offsets n with Some _ => Some tbl | None => None end.

(** ** Accessors and predicates *)

Definition dns_name_reset (n : dns_name_t) : outcome dns_name_t :=
  REQUIRE BINDABLE n ;;
  Done (mkname [] 0 (set_absolute (attributes n) false) (offsets n)
          (match buffer n with Some b => Some (isc_buffer_clear b) | None => None end)).

Definition dns_name_setbuffer (n : dns_name_t) (b : option isc_buffer_t) : outcome dns_name_t :=
  REQUIRE match b, buffer n with Some _, Some _ => false | _, _ => true end ;;
  Done (mkname (ndata n) (labels n) (attributes n) (offsets n) b).

Definition dns_name_hasbuffer (n : dns_name_t) : bool :=
  match buffer n with Some _ => true | None => false end.

Definition dns_name_isabsolute (n : dns_name_t) : bool := attr_set n DNS_NAMEATTR_ABSOLUTE.

Definition dns_name_dynamic (n : dns_name_t) : bool := attr_set n DNS_NAMEATTR_DYNAMIC.

Definition hyphenchar (c : Z) : bool := c =? 0x2d.
Definition alphachar (c : Z) : bool :=
  ((0x41 <=? c) && (c <=? 0x5a)) || ((0x61 <=? c) && (c <=? 0x7a)).
Definition digitchar (c : Z) : bool := (0x30 <=? c) && (c <=? 0x39).
Definition borderchar (c : Z) : bool := alphachar c || digitchar c.
Definition middlechar (c : Z) : bool := borderchar c || hyphenchar c.
Definition domainchar (c : Z) : bool := (0x20 <? c) && (c <? 0x7f).

(** [while (n--)] over the characters of a mailbox's local part: the result and
    the position after it. *)
Fixpoint mailbox_local (data : list Z) (p : Z) (n : nat) : outcome (bool * Z) :=
  match n with
  | O => Done (true, p)
  | S n =>
      let* ch := rd data p in
      if negb (domainchar ch) then Done (false, p + 1) else mailbox_local data (p + 1) n
  end.

(** [while (n--)] over the characters of a host name label. *)
Fixpoint host_label (data : list Z) (p : Z) (n : nat) (first : bool) : outcome (bool * Z) :=
  match n with
  | O => Done (true, p)
  | S n =>
      let* ch := rd data p in
      if first || (Z.of_nat n =? 0) then
        if negb (borderchar ch) then Done (false, p + 1) else host_label data (p + 1) n false
      else
        if negb (middlechar ch) then Done (false, p + 1) else host_label data (p + 1) n false
  end.

(** [while (ndata < name->ndata + name->length)]. *)
Definition host_body (data : list Z) (p : Z) : outcome (Z + bool) :=
  if p <? Zlen data then
    let* n := rd data p in
    REQUIRE n <=? 63 ;;
    let* (ok, p) := host_label data (p + 1) (Z.to_nat n) true in
    if ok then Done (inl p) else Done (inr false)
  else Done (inr true).

(** Every iteration moves forward, so the length bounds the iterations. *)
Definition host_labels (data : list Z) (p : Z) : outcome bool :=
  loop (S (length data)) (host_body data) p.

Definition dns_name_ismailbox (n : dns_name_t) : outcome bool :=
  REQUIRE 0 <? labels n ;;
  REQUIRE attr_set n DNS_NAMEATTR_ABSOLUTE ;;
  if n_length n =? 1 then Done true
  else
    let* c := rd (ndata n) 0 in
    REQUIRE c <=? 63 ;;
    let* (ok, p) := mailbox_local (ndata n) 1 (Z.to_nat c) in
    if negb ok then Done false
    else if p =? n_length n then Done false
    else host_labels (ndata n) p.

Definition dns_name_ishostname (n : dns_name_t) (wildcard : bool) : outcome bool :=
  REQUIRE 0 <? labels n ;;
  REQUIRE attr_set n DNS_NAMEATTR_ABSOLUTE ;;
  if n_length n =? 1 then Done true
  else
    let* skip :=
      (if wildcard then
         let* c0 := rd (ndata n) 0 in
         if c0 =? 1 then let* c1 := rd (ndata n) 1 in Done (c1 =? 42) else Done false
       else Done false) in
    host_labels (ndata n) (if skip then 2 else 0).

Definition dns_name_iswildcard (n : dns_name_t) : outcome bool :=
  REQUIRE 0 <? labels n ;;
  if 2 <=? n_length n then
    let* c0 := rd (ndata n) 0 in
    let* c1 := rd (ndata n) 1 in
    Done ((c0 =? 1) && (c1 =? 42))
  else Done false.

(** [while (label + 1 < name->labels)], with the remaining number of labels. *)
Fixpoint internal_scan (data : list Z) (p : Z) (n : nat) : outcome bool :=
  match n with
  | O => Done false
  | S n =>
      let* count := rd data p in
      REQUIRE count <=? 63 ;;
      let* star := (if count =? 1 then let* c := rd data (p + 1) in Done (c =? 42) else Done false) in
      if star then Done true else internal_scan data (p + 1 + count) n
  end.

Definition dns_name_internalwildcard (n : dns_name_t) : outcome bool :=
  REQUIRE 0 <? labels n ;;
  let* count := rd (ndata n) 0 in
  REQUIRE count <=? 63 ;;
  internal_scan (ndata n) (1 + count) (Z.to_nat (labels n - 2)).

(** ** Hashing *)

(** [while (length > 0)] of [name_hash]. *)
Fixpoint hash_chars (data : list Z) (p : Z) (length : nat) (case_sensitive : bool) (h : Z) : outcome Z :=
  match length with
  | O => Done h
  | S length =>
      let* c := rd data p in
      let c := if case_sensitive then c else tolower c in
      hash_chars data (p + 1) length case_sensitive (u32 (h + (u32 (Z.shiftl h 3) + c)))
  end.

Definition name_hash (data : list Z) (case_sensitive : bool) : outcome Z :=
  let length := if 16 <? Zlen data then 16 else Zlen data in
  hash_chars data 0 (Z.to_nat length) case_sensitive 0.

Definition dns_name_hash (n : dns_name_t) (case_sensitive : bool) : outcome Z :=
  if labels n =? 0 then Done 0 else name_hash (ndata n) case_sensitive.

(** The loop of [dns_name_hashbylabel] from label [i] on. *)
Fixpoint hashbylabel_loop (n : dns_name_t) (offs : list Z) (i : Z) (k : nat)
    (case_sensitive : bool) (h : Z) : outcome Z :=
  match k with
  | O => Done h
  | S k =>
      let* oi := rd offs i in
      let* length :=
        (if i =? labels n - 1 then Done (n_length n - oi)
         else let* oj := rd offs (i + 1) in Done (oj - oi)) in
      let* hl := name_hash (sub (ndata n) oi length) case_sensitive in
      hashbylabel_loop n offs (i + 1) k case_sensitive (u32 (h + hl))
  end.

Definition dns_name_hashbylabel (n : dns_name_t) (case_sensitive : bool) : outcome Z :=
  if labels n =? 0 then Done 0
  else if labels n =? 1 then name_hash (ndata n) case_sensitive
  else
    let* offs := setup_offsets n in
    hashbylabel_loop n offs 0 (Z.to_nat (labels n)) case_sensitive 0.

(** ** Comparison *)

Inductive dns_namereln_t : Type :=
| dns_namereln_none | dns_namereln_contains | dns_namereln_subdomain
| dns_namereln_equal | dns_namereln_commonancestor.

#[export] Instance namereln_eq_dec : EqDecision dns_namereln_t.
Proof. solve_decision. Defined.

(** [while (count > 0)] of [dns_name_fullcompare]: the first non-zero
    difference of the characters, or 0. *)
Fixpoint fc_chars (d1 : list Z) (p1 : Z) (d2 : list Z) (p2 : Z) (count : nat) : outcome Z :=
  match count with
  | O => Done 0
  | S count =>
      let* c1 := rd d1 p1 in
      let* c2 := rd d2 p2 in
      let chdiff := tolower c1 - tolower c2 in
      if negb (chdiff =? 0) then Done chdiff else fc_chars d1 (p1 + 1) d2 (p2 + 1) count
  end.

(** [while (l > 0)] of [dns_name_fullcompare]: the order if a label differs,
    and the number of equal labels. *)
Fixpoint fc_labels (n1 n2 : dns_name_t) (offs1 offs2 : list Z) (l : nat) (l1 l2 nlabels : Z) :
    outcome (option Z * Z) :=
  match l with
  | O => Done (None, nlabels)
  | S l =>
      let l1 := l1 - 1 in
      let l2 := l2 - 1 in
      let* label1 := rd offs1 l1 in
      let* label2 := rd offs2 l2 in
      let* count1 := rd (ndata n1) label1 in
      let* count2 := rd (ndata n2) label2 in
      REQUIRE (count1 <=? 63) && (count2 <=? 63) ;;
      let cdiff := count1 - count2 in
      let count := if cdiff <? 0 then count1 else count2 in
      let* chdiff := fc_chars (ndata n1) (label1 + 1) (ndata n2) (label2 + 1) (Z.to_nat count) in
      if negb (chdiff =? 0) then Done (Some chdiff, nlabels)
      else if negb (cdiff =? 0) then Done (Some cdiff, nlabels)
      else fc_labels n1 n2 offs1 offs2 l l1 l2 (nlabels + 1)
  end.

(** The relation, the order and the number of common labels. *)
Definition dns_name_fullcompare (n1 n2 : dns_name_t) : outcome (dns_namereln_t * Z * Z) :=
  REQUIRE Z.land (attributes n1) DNS_NAMEATTR_ABSOLUTE =? Z.land (attributes n2) DNS_NAMEATTR_ABSOLUTE ;;
  let* offs1 := setup_offsets n1 in
  let* offs2 := setup_offsets n2 in
  let l1 := labels n1 in
  let l2 := labels n2 in
  let '(l, ldiff) := if l1 <? l2 then (l1, 0 - (l2 - l1)) else (l2, l1 - l2) in
  let* (early, nlabels) := fc_labels n1 n2 offs1 offs2 (Z.to_nat l) l1 l2 0 in
  let '(namereln, order) :=
    match early with
    | Some order => (dns_namereln_none, order)
    | None =>
        (if ldiff <? 0 then dns_namereln_contains
         else if 0 <? ldiff then dns_namereln_subdomain
         else dns_namereln_equal, ldiff)
    end in
  let namereln :=
    if (0 <? nlabels) && bool_decide (namereln = dns_namereln_none)
    then dns_namereln_commonancestor else namereln in
  Done (namereln, order, nlabels).

Definition dns_name_compare (n1 n2 : dns_name_t) : outcome Z :=
  let* (_, order, _) := dns_name_fullcompare n1 n2 in Done order.

(** [while (count > 0)] of [dns_name_equal]. *)
Fixpoint eq_chars (d1 : list Z) (p1 : Z) (d2 : list Z) (p2 : Z) (count : nat) : outcome bool :=
  match count with
  | O => Done true
  | S count =>
      let* c1 := rd d1 p1 in
      let* c2 := rd d2 p2 in
      if negb (tolower c1 =? tolower c2) then Done false
      else eq_chars d1 (p1 + 1) d2 (p2 + 1) count
  end.

(** [while (l > 0)] of [dns_name_equal]. *)
Fixpoint eq_labels (d1 : list Z) (p1 : Z) (d2 : list Z) (p2 : Z) (l : nat) : outcome bool :=
  match l with
  | O => Done true
  | S l =>
      let* count := rd d1 p1 in
      let* count2 := rd d2 p2 in
      if negb (count =? count2) then Done false
      else
        REQUIRE count <=? 63 ;;
        let* same := eq_chars d1 (p1 + 1) d2 (p2 + 1) (Z.to_nat count) in
        if same then eq_labels d1 (p1 + 1 + count) d2 (p2 + 1 + count) l else Done false
  end.

Definition dns_name_equal (n1 n2 : dns_name_t) : outcome bool :=
  REQUIRE Z.land (attributes n1) DNS_NAMEATTR_ABSOLUTE =? Z.land (attributes n2) DNS_NAMEATTR_ABSOLUTE ;;
  if negb (n_length n1 =? n_length n2) then Done false
  else if negb (labels n1 =? labels n2) then Done false
  else eq_labels (ndata n1) 0 (ndata n2) 0 (Z.to_nat (labels n1)).

Definition dns_name_caseequal (n1 n2 : dns_name_t) : outcome bool :=
  REQUIRE Z.land (attributes n1) DNS_NAMEATTR_ABSOLUTE =? Z.land (attributes n2) DNS_NAMEATTR_ABSOLUTE ;;
  if negb (n_length n1 =? n_length n2) then Done false
  else Done (bool_decide (ndata n1 = ndata n2)).

(** [while (count > 0)] of [dns_name_rdatacompare]: -1, 0 or 1. *)
Fixpoint rc_chars (d1 : list Z) (p1 : Z) (d2 : list Z) (p2 : Z) (count : nat) : outcome Z :=
  match count with
  | O => Done 0
  | S count =>
      let* c1 := rd d1 p1 in
      let* c2 := rd d2 p2 in
      if tolower c1 <? tolower c2 then Done (-1)
      else if tolower c2 <? tolower c1 then Done 1
      else rc_chars d1 (p1 + 1) d2 (p2 + 1) count
  end.

Fixpoint rc_labels (d1 : list Z) (p1 : Z) (d2 : list Z) (p2 : Z) (l : nat) : outcome Z :=
  match l with
  | O => Done 0
  | S l =>
      let* count1 := rd d1 p1 in
      let* count2 := rd d2 p2 in
      REQUIRE (count1 <=? 63) && (count2 <=? 63) ;;
      if negb (count1 =? count2) then Done (if count1 <? count2 then -1 else 1)
      else
        let* r := rc_chars d1 (p1 + 1) d2 (p2 + 1) (Z.to_nat count1) in
        if negb (r =? 0) then Done r
        else rc_labels d1 (p1 + 1 + count1) d2 (p2 + 1 + count2) l
  end.

Definition dns_name_rdatacompare (n1 n2 : dns_name_t) : outcome Z :=
  REQUIRE 0 <? labels n1 ;;
  REQUIRE attr_set n1 DNS_NAMEATTR_ABSOLUTE ;;
  REQUIRE 0 <? labels n2 ;;
  REQUIRE attr_set n2 DNS_NAMEATTR_ABSOLUTE ;;
  let l1 := labels n1 in
  let l2 := labels n2 in
  let l := if l1 <? l2 then l1 else l2 in
  let* r := rc_labels (ndata n1) 0 (ndata n2) 0 (Z.to_nat l) in
  if negb (r =? 0) then Done r
  else REQUIRE l1 =? l2 ;; Done 0.

Definition dns_name_issubdomain (n1 n2 : dns_name_t) : outcome bool :=
  let* (namereln, _, _) := dns_name_fullcompare n1 n2 in
  Done (bool_decide (namereln = dns_namereln_subdomain) || bool_decide (namereln = dns_namereln_equal)).

(** ** Label sequences *)

Definition dns_name_countlabels (n : dns_name_t) : outcome Z :=
  REQUIRE labels n <=? 128 ;; Done (labels n).

(** The region of label [i]. *)
Definition dns_name_getlabel (n : dns_name_t) (i : Z) : outcome (list Z) :=
  REQUIRE 0 <? labels n ;;
  REQUIRE i <? labels n ;;
  let* offs := setup_offsets n in
  let* oi := rd offs i in
  let* length :=
    (if i =? labels n - 1 then Done (n_length n - oi)
     else let* oj := rd offs (i + 1) in Done (oj - oi)) in
  Done (sub (ndata n) oi length).

(** [same]: the target is the source object. *)
Definition dns_name_getlabelsequence (source : dns_name_t) (first n : Z) (target : dns_name_t)
    (same : bool) : outcome dns_name_t :=
  REQUIRE first <=? labels source ;;
  REQUIRE n <=? labels source - first ;;
  REQUIRE BINDABLE target ;;
  let* offs := setup_offsets source in
  let* firstoffset := (if first =? labels source then Done (n_length source) else rd offs first) in
  let* endoffset := (if first + n =? labels source then Done (n_length source) else rd offs (first + n)) in
  let absolute := (first + n =? labels source) && (0 <? n) && attr_set source DNS_NAMEATTR_ABSOLUTE in
  let target' := mkname (sub (ndata source) firstoffset (endoffset - firstoffset)) n
                   (set_absolute (attributes target) absolute) (offsets target) (buffer target) in
  match offsets target with
  | Some tbl =>
      if negb same || negb (first =? 0) then
        let* tbl := set_offsets target' tbl in
        Done (mkname (ndata target') n (attributes target') (Some tbl) (buffer target))
      else Done target'
  | None => Done target'
  end.

Definition dns_name_matcheswildcard (n wname : dns_name_t) : outcome bool :=
  REQUIRE 0 <? labels n ;;
  let lbls := labels wname in
  REQUIRE 0 <? lbls ;;
  let* w := dns_name_iswildcard wname in
  REQUIRE w ;;
  let* tname := dns_name_getlabelsequence wname 1 (lbls - 1) (dns_name_init None) false in
  let* (namereln, _, _) := dns_name_fullcompare n tname in
  Done (bool_decide (namereln = dns_namereln_subdomain)).

(** [memcpy(dst, src, k)] on offset tables. *)
Definition copy_table (dst src : list Z) (k : Z) : outcome (list Z) :=
  if k <=? Zlen src then blit dst 0 (sub src 0 k) else Undef.

Definition dns_name_clone (source target : dns_name_t) : outcome dns_name_t :=
  REQUIRE BINDABLE target ;;
  let target' := mkname (ndata source) (labels source)
    (Z.land (attributes source)
       (u32 (Z.lnot (Z.lor (Z.lor DNS_NAMEATTR_READONLY DNS_NAMEATTR_DYNAMIC) DNS_NAMEATTR_DYNOFFSETS))))
    (offsets target) (buffer target) in
  match offsets target with
  | Some tbl =>
      if 0 <? labels source then
        let* tbl := (match offsets source with
                     | Some stbl => copy_table tbl stbl (labels source)
                     | None => set_offsets target' tbl
                     end) in
        Done (mkname (ndata target') (labels target') (attributes target') (Some tbl) (buffer target))
      else Done target'
  | None => Done target'
  end.

(** [mem]: whether the copy of the octets could be allocated. *)
Definition dns_name_dup (mem : bool) (source target : dns_name_t) : outcome (isc_result_t * dns_name_t) :=
  REQUIRE 0 <? n_length source ;;
  REQUIRE BINDABLE target ;;
  let target := MAKE_EMPTY target in
  if negb mem then Done (ISC_R_NOMEMORY, target)
  else
    let target := mkname (ndata source) (labels source)
      (if attr_set source DNS_NAMEATTR_ABSOLUTE
       then Z.lor DNS_NAMEATTR_DYNAMIC DNS_NAMEATTR_ABSOLUTE else DNS_NAMEATTR_DYNAMIC)
      (offsets target) (buffer target) in
    match offsets target with
    | Some tbl =>
        let* tbl := (match offsets source with
                     | Some stbl => copy_table tbl stbl (labels source)
                     | None => set_offsets target tbl
                     end) in
        Done (ISC_R_SUCCESS, mkname (ndata target) (labels target) (attributes target) (Some tbl) (buffer target))
    | None => Done (ISC_R_SUCCESS, target)
    end.

(** ** Operations that write into a target buffer

    The target is the buffer passed by the caller or, when that is [NULL], the
    cleared dedicated buffer of the name.  [give_back] stores the updated
    target where it came from: the result is the name and the caller's target. *)

Definition select_target (n : dns_name_t) (target : option isc_buffer_t) : outcome isc_buffer_t :=
  match target, buffer n with
  | Some t, _ => Done t
  | None, Some b => Done (isc_buffer_clear b)
  | None, None => Abort
  end.

Definition give_back (n : dns_name_t) (target : option isc_buffer_t) (t : isc_buffer_t) :
    dns_name_t * option isc_buffer_t :=
  match target with
  | Some _ => (n, Some t)
  | None => (mkname (ndata n) (labels n) (attributes n) (offsets n) (Some t), None)
  end.

Definition dns_name_fromregion (n : dns_name_t) (r : list Z) : outcome dns_name_t :=
  REQUIRE BINDABLE n ;;
  let tbl := match offsets n with Some t => t | None => odata end in
  let* (n, buf) :=
    (match buffer n with
     | Some b =>
         let b := isc_buffer_clear b in
         let r2 := isc_buffer_availableregion b in
         let len := if Zlen r <? Zlen r2 then Zlen r else Zlen r2 in
         let len := if DNS_NAME_MAXWIRE <? len then DNS_NAME_MAXWIRE else len in
         let* base := blit (b_base b) (b_used b) (sub r 0 len) in
         Done (mkname (sub base (b_used b) len) (labels n) (attributes n) (offsets n) (buffer n),
               Some (set_base b base))
     | None =>
         let len := if Zlen r <=? DNS_NAME_MAXWIRE then Zlen r else DNS_NAME_MAXWIRE in
         Done (mkname (sub r 0 len) (labels n) (attributes n) (offsets n) None, None)
     end) in
  let* n :=
    (if 0 <? Zlen r then
       let* (n', tbl) := set_offsets_name n tbl in
       Done (mkname (ndata n') (labels n') (attributes n') (put_offsets n tbl) (buffer n'))
     else Done (mkname (ndata n) 0 (set_absolute (attributes n) false) (offsets n) (buffer n))) in
  match buf with
  | Some b =>
      let* b := isc_buffer_add b (n_length n) in
      Done (mkname (ndata n) (labels n) (attributes n) (offsets n) (Some b))
  | None => Done n
  end.

Definition dns_name_toregion (n : dns_name_t) : list Z := ndata n.

(** The character loop of [dns_name_downcase]: copy [count] characters. *)
Fixpoint dc_chars (src : list Z) (p : Z) (base : list Z) (np : Z) (count : nat) : outcome (list Z) :=
  match count with
  | O => Done base
  | S count =>
      let* c := rd src p in
      let* base := wr base np (tolower c) in
      dc_chars src (p + 1) base (np + 1) count
  end.

(** [while (labels > 0 && nlen > 0)]. *)
Fixpoint dc_labels (src : list Z) (p : Z) (base : list Z) (np : Z) (lbls : nat) (nlen : Z) :
    outcome (list Z) :=
  match lbls with
  | O => Done base
  | S lbls =>
      if 0 <? nlen then
        let* count := rd src p in
        let* base := wr base np count in
        let nlen := nlen - 1 in
        if count <? 64 then
          REQUIRE count <=? nlen ;;
          let* base := dc_chars src (p + 1) base (np + 1) (Z.to_nat count) in
          dc_labels src (p + 1 + count) base (np + 1 + count) lbls (nlen - count)
        else Abort
      else Done base
  end.

(** [dns_name_downcase] with [source != name]. *)
Definition dns_name_downcase (source n : dns_name_t) (target : option isc_buffer_t) :
    outcome (isc_result_t * dns_name_t * option isc_buffer_t) :=
  REQUIRE BINDABLE n ;;
  let* t := select_target n target in
  if u32 (b_length t - b_used t) <? n_length source then
    let '(n, target) := give_back (MAKE_EMPTY n) target t in
    Done (ISC_R_NOSPACE, n, target)
  else
    let* base := dc_labels (ndata source) 0 (b_base t) (b_used t) (Z.to_nat (labels source)) (n_length source) in
    let t := set_base t base in
    let n' := mkname (sub base (b_used t) (n_length source)) (labels source)
                (if attr_set source DNS_NAMEATTR_ABSOLUTE then DNS_NAMEATTR_ABSOLUTE else 0)
                (offsets n) (buffer n) in
    let* offs :=
      (match offsets n with
       | Some tbl => if 0 <? labels n' then let* tbl := set_offsets n' tbl in Done (Some tbl)
                     else Done (Some tbl)
       | None => Done None
       end) in
    let* t := isc_buffer_add t (n_length n') in
    let '(n, target) := give_back (mkname (ndata n') (labels n') (attributes n') offs (buffer n)) target t in
    Done (ISC_R_SUCCESS, n, target).

(** [dns_name_downcase] with [source == name]: the name's own bytes are
    rewritten through a temporary buffer over them. *)
Definition dns_name_downcase_self (n : dns_name_t) : outcome (isc_result_t * dns_name_t) :=
  REQUIRE Z.land (attributes n) DNS_NAMEATTR_READONLY =? 0 ;;
  let t := isc_buffer_init (ndata n) in
  if u32 (b_length t - b_used t) <? n_length n then Done (ISC_R_NOSPACE, MAKE_EMPTY n)
  else
    let* base := dc_labels (ndata n) 0 (ndata n) 0 (Z.to_nat (labels n)) (n_length n) in
    let* _ := isc_buffer_add (set_base t base) (n_length n) in
    Done (ISC_R_SUCCESS, mkname base (labels n) (attributes n) (offsets n) (buffer n)).

(** [prefix], [suffix] and [n] are distinct objects. *)
Definition dns_name_concatenate (prefix suffix : option dns_name_t) (n : option dns_name_t)
    (target : option isc_buffer_t) : outcome (isc_result_t * dns_name_t * option isc_buffer_t) :=
  let pfx := match prefix with
             | Some p => if labels p =? 0 then None else Some p | None => None end in
  let sfx := match suffix with
             | Some s => if labels s =? 0 then None else Some s | None => None end in
  let absolute := match pfx with Some p => attr_set p DNS_NAMEATTR_ABSOLUTE | None => false end in
  REQUIRE negb (absolute && match sfx with Some _ => true | None => false end) ;;
  let n := match n with Some n => n | None => dns_name_init (Some odata) end in
  let* t := select_target n target in
  REQUIRE BINDABLE n ;;
  let nrem := u32 (b_length t - b_used t) in
  let nrem := if DNS_NAME_MAXWIRE <? nrem then DNS_NAME_MAXWIRE else nrem in
  let prefix_data := match pfx with Some p => ndata p | None => [] end in
  let suffix_data := match sfx with Some s => ndata s | None => [] end in
  let prefix_length := Zlen prefix_data in
  let length := prefix_length + Zlen suffix_data in
  let lbls := match pfx with Some p => labels p | None => 0 end +
              match sfx with Some s => labels s | None => 0 end in
  if DNS_NAME_MAXWIRE <? length then
    let '(n, target) := give_back (MAKE_EMPTY n) target t in
    Done (DNS_R_NAMETOOLONG, n, target)
  else if nrem <? length then
    let '(n, target) := give_back (MAKE_EMPTY n) target t in
    Done (ISC_R_NOSPACE, n, target)
  else
    let absolute := match sfx with
                    | Some s => attr_set s DNS_NAMEATTR_ABSOLUTE || absolute
                    | None => absolute end in
    let* base := blit (b_base t) (b_used t + prefix_length) suffix_data in
    let* base := blit base (b_used t) prefix_data in
    let n' := mkname (sub base (b_used t) length) lbls
                (if absolute then DNS_NAMEATTR_ABSOLUTE else 0) (offsets n) (buffer n) in
    let* offs :=
      (match offsets n with
       | Some tbl => if 0 <? lbls then let* tbl := set_offsets n' tbl in Done (Some tbl)
                     else Done (Some tbl)
       | None => Done None
       end) in
    let* t := isc_buffer_add (set_base t base) length in
    let '(n, target) := give_back (mkname (ndata n') lbls (attributes n') offs (buffer n)) target t in
    Done (ISC_R_SUCCESS, n, target).

(** [prefix] and [suffix] are optional and distinct from [n]; they need a
    dedicated buffer although it is not used. *)
Definition dns_name_split (n : dns_name_t) (suffixlabels : Z) (prefix suffix : option dns_name_t) :
    outcome (option dns_name_t * option dns_name_t) :=
  REQUIRE 0 <? suffixlabels ;;
  REQUIRE suffixlabels <? labels n ;;
  REQUIRE match prefix, suffix with None, None => false | _, _ => true end ;;
  REQUIRE match prefix with Some p => dns_name_hasbuffer p && BINDABLE p | None => true end ;;
  REQUIRE match suffix with Some s => dns_name_hasbuffer s && BINDABLE s | None => true end ;;
  let splitlabel := labels n - suffixlabels in
  let* prefix :=
    (match prefix with
     | Some p => let* p := dns_name_getlabelsequence n 0 splitlabel p false in Done (Some p)
     | None => Done None end) in
  let* suffix :=
    (match suffix with
     | Some s => let* s := dns_name_getlabelsequence n splitlabel suffixlabels s false in Done (Some s)
     | None => Done None end) in
  Done (prefix, suffix).

Definition dns_name_copy (source dest : dns_name_t) (target : option isc_buffer_t) :
    outcome (isc_result_t * dns_name_t * option isc_buffer_t) :=
  let* t := select_target dest target in
  REQUIRE BINDABLE dest ;;
  if u32 (b_length t - b_used t) <? n_length source then
    let '(dest, target) := give_back dest target t in
    Done (ISC_R_NOSPACE, dest, target)
  else
    let* base := blit (b_base t) (b_used t) (ndata source) in
    let dest' := mkname (sub base (b_used t) (n_length source)) (labels source)
                   (if attr_set source DNS_NAMEATTR_ABSOLUTE then DNS_NAMEATTR_ABSOLUTE else 0)
                   (offsets dest) (buffer dest) in
    let* offs :=
      (match offsets dest with
       | Some tbl =>
           if 0 <? labels dest' then
             let* tbl := (match offsets source with
                          | Some stbl => copy_table tbl stbl (labels source)
                          | None => set_offsets dest' tbl end) in
             Done (Some tbl)
           else Done (Some tbl)
       | None => Done None
       end) in
    let* t := isc_buffer_add (set_base t base) (n_length dest') in
    let '(dest, target) := give_back (mkname (ndata dest') (labels dest') (attributes dest') offs (buffer dest)) target t in
    Done (ISC_R_SUCCESS, dest, target).
