(* ===== verification/NameTheory.v ===== *)
(** * Domain names: specification and properties of [lib/dns/name.c]

    A well-formed name is described by its non-root labels and by whether the
    root label follows them.  The lemmas relate the byte-level loops of the
    source to this view; the theorems state the order, equality, hashing and
    label-sequence operations in terms of label sequences. *)

From S2P Require Import Prelude Buffer Name.

(** ** Specification *)

(** All labels of a name, the root label last if the name is absolute. *)
Definition labels_of (body : list (list Z)) (ab : bool) : list (list Z) :=
  body ++ (if ab then [[]] else []).

Definition enc_label (l : list Z) : list Z := Zlen l :: l.

(** Uncompressed wire form (RFC 1035, section 3.1). *)
Definition wire (ls : list (list Z)) : list Z := concat (map enc_label ls).

(** Offset of each label, starting from [o]. *)
Fixpoint offs (o : Z) (ls : list (list Z)) : list Z :=
  match ls with
  | [] => []
  | l :: ls => o :: offs (o + 1 + Zlen l) ls
  end.

Definition good_label (l : list Z) : Prop := bytes l /\ 1 <= Zlen l <= 63.

Record wf_name (n : dns_name_t) (body : list (list Z)) (ab : bool) : Prop := {
  wn_data : ndata n = wire (labels_of body ab);
  wn_body : Forall good_label body;
  wn_length : n_length n <= 255;
  wn_labels : labels n = Zlen (labels_of body ab);
  wn_abs : Z.land (attributes n) DNS_NAMEATTR_ABSOLUTE = Z.b2z ab;
  wn_offsets : match offsets n with
               | Some t => offs 0 (labels_of body ab) `prefix_of` t
               | None => True
               end
}.

(** Labels up to ASCII case. *)
Definition lower_label (l : list Z) : list Z := map tolower l.

(** The DNSSEC order on labels: lexicographic on the folded characters. *)
Fixpoint label_cmp (l1 l2 : list Z) : comparison :=
  match l1, l2 with
  | [], [] => Eq
  | [], _ :: _ => Lt
  | _ :: _, [] => Gt
  | c1 :: l1, c2 :: l2 =>
      match tolower c1 ?= tolower c2 with Eq => label_cmp l1 l2 | c => c end
  end.

(** The DNSSEC order on names (RFC 4034, section 6.1): compare the label
    sequences from the most significant label on. *)
Fixpoint labels_cmp (r1 r2 : list (list Z)) : comparison :=
  match r1, r2 with
  | [], [] => Eq
  | [], _ :: _ => Lt
  | _ :: _, [] => Gt
  | l1 :: r1, l2 :: r2 =>
      match label_cmp l1 l2 with Eq => labels_cmp r1 r2 | c => c end
  end.

Definition name_cmp (ls1 ls2 : list (list Z)) : comparison := labels_cmp (rev ls1) (rev ls2).

(** Number of common labels at the front of two reversed names. *)
Fixpoint common (r1 r2 : list (list Z)) : Z :=
  match r1, r2 with
  | l1 :: r1, l2 :: r2 => match label_cmp l1 l2 with Eq => 1 + common r1 r2 | _ => 0 end
  | _, _ => 0
  end.

(** ** Lemmas on characters *)

Lemma tolower_spec c : is_byte c -> tolower c = if (65 <=? c) && (c <=? 90) then c + 32 else c.
Proof.
  intros H. apply Z.eqb_eq.
  apply (byte_forall (fun c => tolower c =? if (65 <=? c) && (c <=? 90) then c + 32 else c));
    [vm_compute; reflexivity|done].
Qed.

Lemma tolower_byte c : is_byte c -> is_byte (tolower c).
Proof. intros H. rewrite tolower_spec by done. unfold is_byte in *. case_if; bool_prop; lia. Qed.

Lemma tolower_idem c : is_byte c -> tolower (tolower c) = tolower c.
Proof.
  intros H. rewrite (tolower_spec (tolower c)) by by apply tolower_byte.
  rewrite tolower_spec by done. unfold is_byte in *. repeat case_if; bool_prop; lia.
Qed.

(** Length octets are below the letters: case folding leaves them alone. *)
Lemma tolower_small c : 0 <= c <= 64 -> tolower c = c.
Proof.
  intros H. rewrite tolower_spec by (unfold is_byte; lia). case_if; [bool_prop; lia|done].
Qed.

(** ** Lemmas on the wire form *)

Lemma wire_app ls ms : wire (ls ++ ms) = wire ls ++ wire ms.
Proof. unfold wire. by rewrite map_app, concat_app. Qed.

Lemma wire_cons l ls : wire (l :: ls) = Zlen l :: l ++ wire ls.
Proof. done. Qed.

Lemma Zlen_wire_cons l ls : Zlen (wire (l :: ls)) = 1 + Zlen l + Zlen (wire ls).
Proof. rewrite wire_cons. len. Qed.

Lemma offs_app o ls ms : offs o (ls ++ ms) = offs o ls ++ offs (o + Zlen (wire ls)) ms.
Proof.
  revert o. induction ls as [|l ls IH]; intros o; cbn [offs app].
  - change (Zlen (wire [])) with 0. by rewrite Z.add_0_r.
  - rewrite IH, Zlen_wire_cons. do 3 f_equal. lia.
Qed.

Lemma length_offs o ls : length (offs o ls) = length ls.
Proof. revert o. induction ls; intros; cbn; auto. Qed.

Lemma offs_lookup ls i : (i < length ls)%nat ->
  offs 0 ls !! i = Some (Zlen (wire (take i ls))).
Proof.
  intros Hi. rewrite <- (take_drop i ls) at 1.
  rewrite offs_app, lookup_app_r by (rewrite length_offs; len).
  rewrite length_offs, length_take_le, Nat.sub_diag by lia.
  destruct (drop i ls) eqn:E; [apply (f_equal length) in E; len|]. done.
Qed.

Lemma good_label_byte l : good_label l -> bytes (enc_label l).
Proof. intros [? ?]. constructor; [unfold is_byte; lia|done]. Qed.

Lemma bytes_wire body ab : Forall good_label body -> bytes (wire (labels_of body ab)).
Proof.
  intros H. unfold labels_of. rewrite wire_app. apply bytes_app. split.
  - induction H; [constructor|]. rewrite wire_cons.
    change (bytes (enc_label x ++ wire l)). apply bytes_app. split; [by apply good_label_byte|done].
  - destruct ab; apply bytesb_spec; reflexivity.
Qed.

(** A name of at most 255 octets has at most 127 labels and the root. *)
Lemma wire_count body : Forall good_label body -> 2 * Zlen body <= Zlen (wire body).
Proof.
  induction 1 as [|l body [_ ?] _ IH]; [done|]. rewrite Zlen_wire_cons, Zlen_cons. lia.
Qed.

Lemma labels_of_count body ab : Forall good_label body -> Zlen (wire (labels_of body ab)) <= 255 ->
  Zlen (labels_of body ab) <= 128.
Proof.
  intros H. unfold labels_of. rewrite wire_app, !Zlen_app.
  pose proof (wire_count body H).
  destruct ab; [change (Zlen (wire [[]])) with 1; change (@Zlen (list Z) [[]]) with 1
               |change (Zlen (wire [])) with 0; change (@Zlen (list Z) []) with 0]; lia.
Qed.

(** Reading a label: its length octet and its characters. *)
Lemma rd_label_len p l q : rd (p ++ enc_label l ++ q) (Zlen p) = Done (Zlen l).
Proof. by apply rd_app_mid. Qed.

Lemma rd_label_char p l q k c : l !! k = Some c ->
  rd (p ++ enc_label l ++ q) (Zlen p + 1 + Z.of_nat k) = Done c.
Proof.
  intros H. apply rd_Done. split; [len|]. rewrite lookup_app_r by len.
  replace (Z.to_nat (Zlen p + 1 + Z.of_nat k) - length p)%nat with (S k) by len.
  cbn. by apply lookup_app_l_Some.
Qed.

Lemma wire_split ls ms : forall i l, ls !! i = Some l ->
  wire (ls ++ ms) = wire (take i ls) ++ enc_label l ++ wire (drop (S i) ls ++ ms).
Proof.
  intros i l H. rewrite <- (take_drop_middle ls i l H) at 1.
  rewrite <- app_assoc, wire_app. cbn [app]. by rewrite wire_cons.
Qed.

(** ** [set_offsets] *)

(** The table while the scan has passed the labels [pre]. *)
Definition scan_table (pre : list (list Z)) (tbl : list Z) : list Z :=
  offs 0 pre ++ drop (length pre) tbl.

Lemma scan_table_step pre l tbl : Zlen pre < Zlen tbl ->
  wr (scan_table pre tbl) (Zlen pre) (Zlen (wire pre)) = Done (scan_table (pre ++ [l]) tbl).
Proof.
  intros H. unfold scan_table. rewrite wr_ok by (len; rewrite length_offs; len). f_equal.
  rewrite offs_app. cbn [offs]. rewrite insert_app_r_alt by (rewrite length_offs; len).
  rewrite length_offs. replace (Z.to_nat (Zlen pre) - length pre)%nat with 0%nat by len.
  rewrite <- app_assoc. f_equal. rewrite length_app. cbn [length].
  destruct (drop (length pre) tbl) as [|y r] eqn:E; [apply (f_equal length) in E; len|].
  cbn. f_equal. change r with (drop 1 (y :: r)). rewrite <- E, drop_drop. done.
Qed.

Lemma so_step pre l rest tbl :
  let ls := pre ++ l :: rest in
  Zlen (wire ls) <= 255 -> Zlen pre < 128 -> Zlen pre < Zlen tbl -> Zlen l <= 63 ->
  so_body (wire ls) (Zlen (wire ls)) (Zlen (wire pre), Zlen pre, scan_table pre tbl) =
  let s := (Zlen (wire (pre ++ [l])), Zlen (pre ++ [l]), scan_table (pre ++ [l]) tbl) in
  Done (if Zlen l =? 0 then inr (s, true) else inl s).
Proof.
  cbv zeta. intros H255 H128 Htbl H63.
  assert (Hw : wire (pre ++ l :: rest) = wire pre ++ enc_label l ++ wire rest)
    by (rewrite wire_app, wire_cons; done).
  assert (HL : Zlen (wire (pre ++ l :: rest)) = Zlen (wire pre) + 1 + Zlen l + Zlen (wire rest))
    by (rewrite Hw; unfold enc_label; len).
  pose proof (Zlen_nonneg (wire rest)). pose proof (Zlen_nonneg (wire pre)).
  pose proof (Zlen_nonneg l).
  unfold so_body. rewrite (proj2 (Z.eqb_neq _ _)) by lia. cbn [negb].
  rewrite require_true by lia. cbn [obind]. rewrite u8_small by lia.
  rewrite (scan_table_step pre l tbl) by lia. cbn [obind].
  rewrite Hw, rd_label_len, <- Hw. cbn [obind].
  rewrite !require_true by lia. cbn [obind].
  assert (HE : Zlen (wire (pre ++ [l])) = Zlen (wire pre) + 1 + Zlen l).
  { rewrite wire_app, Zlen_app, Zlen_wire_cons. change (Zlen (wire [])) with 0. lia. }
  rewrite HE, Zlen_app. change (Zlen [l]) with 1. by destruct (Zlen l =? 0).
Qed.

Lemma so_loop body ab : forall pre tbl fuel,
  let ls := pre ++ labels_of body ab in
  Forall good_label body -> Zlen (wire ls) <= 255 -> Zlen ls <= 128 -> Zlen ls <= Zlen tbl ->
  (length (labels_of body ab) < fuel)%nat ->
  loop fuel (so_body (wire ls) (Zlen (wire ls))) (Zlen (wire pre), Zlen pre, scan_table pre tbl) =
  Done (Zlen (wire ls), Zlen ls, scan_table ls tbl, ab).
Proof.
  induction body as [|l body IH]; intros pre tbl fuel; cbv zeta; intros Hg H255 H128 Htbl Hf.
  - destruct fuel as [|fuel]; [lia|]. cbn [loop].
    destruct ab; unfold labels_of in *; cbn [app] in *.
    + rewrite so_step; [done|done|len|len|by cbn].
    + rewrite app_nil_r in *. unfold so_body. by rewrite Z.eqb_refl.
  - destruct fuel as [|fuel]; [lia|]. cbn [loop].
    apply Forall_cons in Hg as [[Hb Hl] Hg].
    change (labels_of (l :: body) ab) with (l :: labels_of body ab) in *.
    rewrite so_step by first [done|lia|len]. cbv zeta.
    rewrite (proj2 (Z.eqb_neq _ _)) by lia.
    specialize (IH (pre ++ [l]) tbl fuel). cbv zeta in IH.
    rewrite <- app_assoc in IH. apply IH; try done. cbn in Hf. lia.
Qed.

Lemma so_scan_spec body ab tbl : let ls := labels_of body ab in
  Forall good_label body -> Zlen (wire ls) <= 255 -> Zlen ls <= Zlen tbl ->
  so_scan (wire ls) tbl = Done (Zlen (wire ls), Zlen ls, scan_table ls tbl, ab).
Proof.
  cbv zeta. intros Hg H255 Htbl. pose proof (labels_of_count body ab Hg H255).
  apply (so_loop body ab [] tbl 130); try done; cbn [app]; len.
Qed.

Lemma setup_offsets_spec n body ab : wf_name n body ab ->
  exists t, setup_offsets n = Done t /\ offs 0 (labels_of body ab) `prefix_of` t.
Proof.
  intros [Hd Hg Hl Hn Ha Ho]. unfold setup_offsets. unfold n_length in *. rewrite Hd in *.
  destruct (offsets n) as [t|]; [by exists t|].
  pose proof (labels_of_count body ab Hg Hl).
  unfold set_offsets, n_length. rewrite Hd, so_scan_spec by (try done; unfold odata; len).
  cbn [obind]. rewrite !require_true by lia. cbn [obind].
  eexists. split; [done|]. unfold scan_table. apply prefix_app_r. done.
Qed.

Lemma set_offsets_spec n body ab tbl :
  ndata n = wire (labels_of body ab) -> Forall good_label body -> n_length n <= 255 ->
  labels n = Zlen (labels_of body ab) -> Zlen (labels_of body ab) <= Zlen tbl ->
  exists t, set_offsets n tbl = Done t /\ offs 0 (labels_of body ab) `prefix_of` t /\
    Zlen t = Zlen tbl.
Proof.
  intros Hd Hg Hl Hn Ht. unfold n_length in *. rewrite Hd in *.
  unfold set_offsets, n_length. rewrite Hd, so_scan_spec by done. cbn [obind].
  rewrite !require_true by lia. cbn [obind]. eexists. split; [done|].
  unfold scan_table. split; [by apply prefix_app_r|].
  unfold Zlen in *. rewrite length_app, length_offs, length_drop. lia.
Qed.

Lemma prefix_rd (l k : list Z) i x : l `prefix_of` k -> l !! i = Some x ->
  rd k (Z.of_nat i) = Done x.
Proof.
  intros [r ->] H. apply rd_Done. split; [lia|]. rewrite Nat2Z.id. by apply lookup_app_l_Some.
Qed.

(** Offset [i] of a well-formed name's table. *)
Lemma offs_rd t ls i : offs 0 ls `prefix_of` t -> 0 <= i < Zlen ls ->
  rd t i = Done (Zlen (wire (take (Z.to_nat i) ls))).
Proof.
  intros Ht Hi. replace i with (Z.of_nat (Z.to_nat i)) at 1 by lia.
  eapply prefix_rd; [done|]. apply offs_lookup. len.
Qed.

(** ** [dns_name_fullcompare] *)

Lemma fc_chars_spec l1 : forall l2 a1 q1 a2 q2,
  exists x, fc_chars (a1 ++ l1 ++ q1) (Zlen a1) (a2 ++ l2 ++ q2) (Zlen a2)
              (length l1 `min` length l2) = Done x /\
    label_cmp l1 l2 = (if x =? 0 then Zlen l1 ?= Zlen l2 else x ?= 0).
Proof.
  induction l1 as [|c1 l1 IH]; intros [|c2 l2] a1 q1 a2 q2; cbn [length Nat.min fc_chars].
  1-3: by exists 0.
  cbn [app]. rewrite !rd_app_mid by done. cbn [obind label_cmp].
  destruct (Z.eqb_spec (tolower c1 - tolower c2) 0) as [E|E]; cbn [negb].
  - replace (tolower c1) with (tolower c2) by lia. rewrite Z.compare_refl.
    destruct (IH l2 (a1 ++ [c1]) q1 (a2 ++ [c2]) q2) as (x & Hx & Hc).
    rewrite <- !app_assoc, !Zlen_app in Hx. exists x. split; [exact Hx|].
    rewrite Hc. destruct (x =? 0); [|done]. rewrite !Zlen_cons. rewrite Z.add_compare_mono_l. done.
  - exists (tolower c1 - tolower c2). split; [done|].
    rewrite (proj2 (Z.eqb_neq _ _)) by done. rewrite <- Z.compare_sub.
    destruct (tolower c1 ?= tolower c2) eqn:Hc; [|done..]. apply Z.compare_eq in Hc. lia.
Qed.

Lemma label_cmp_eq_len l1 l2 : label_cmp l1 l2 = Eq -> Zlen l1 = Zlen l2.
Proof.
  revert l2. induction l1 as [|c1 l1 IH]; intros [|c2 l2]; cbn; try done.
  destruct (_ ?= _); [|done..]. intros H%IH. rewrite !Zlen_cons. lia.
Qed.

Lemma label_cmp_eq l1 l2 : label_cmp l1 l2 = Eq <-> lower_label l1 = lower_label l2.
Proof.
  unfold lower_label. revert l2.
  induction l1 as [|c1 l1 IH]; intros [|c2 l2]; cbn [label_cmp map]; try done.
  destruct (Z.compare_spec (tolower c1) (tolower c2)) as [E|E|E].
  - rewrite IH, E. split; [by intros ->|by intros [= ->]].
  - split; [done|]. intros [= ?]. lia.
  - split; [done|]. intros [= ?]. lia.
Qed.

Definition short_label (l : list Z) : Prop := Zlen l <= 63.

Lemma labels_short body ab : Forall good_label body -> Forall short_label (labels_of body ab).
Proof.
  intros H. apply Forall_app. split.
  - eapply Forall_impl; [exact H|]. unfold good_label, short_label. intros x [_ ?]. lia.
  - destruct ab; repeat constructor. unfold short_label. len.
Qed.

Section fc_labels.
Context (n1 n2 : dns_name_t) (ls1 ls2 : list (list Z)) (t1 t2 : list Z).
Context (Hd1 : ndata n1 = wire ls1) (Hd2 : ndata n2 = wire ls2).
Context (Ht1 : offs 0 ls1 `prefix_of` t1) (Ht2 : offs 0 ls2 `prefix_of` t2).
Context (Hs1 : Forall short_label ls1) (Hs2 : Forall short_label ls2).

(** Comparing the last of the remaining labels of each name. *)
Lemma fc_labels_step l r1 l2 r2 c1 c2 k nl :
  ls1 = rev r1 ++ l :: c1 -> ls2 = rev r2 ++ l2 :: c2 ->
  exists o, fc_labels n1 n2 t1 t2 (S k) (1 + Zlen r1) (1 + Zlen r2) nl =
    match label_cmp l l2 with
    | Eq => fc_labels n1 n2 t1 t2 k (Zlen r1) (Zlen r2) (nl + 1)
    | _ => Done (Some o, nl)
    end /\ (o ?= 0) = label_cmp l l2.
Proof.
  intros E1 E2. cbn [fc_labels].
  replace (1 + Zlen r1 - 1) with (Zlen r1) by lia. replace (1 + Zlen r2 - 1) with (Zlen r2) by lia.
  assert (Hr : forall r : list (list Z), Zlen (rev r) = Zlen r) by (intros; unfold Zlen; by rewrite length_rev).
  rewrite (offs_rd _ _ _ Ht1) by (rewrite E1; len; rewrite length_rev; lia).
  rewrite (offs_rd _ _ _ Ht2) by (rewrite E2; len; rewrite length_rev; lia). cbn [obind].
  rewrite Hd1, Hd2, E1, E2.
  assert (Htake : forall r (x : list Z) c, take (Z.to_nat (Zlen r)) (rev r ++ x :: c) = rev r).
  { intros. apply take_app_length'. rewrite length_rev. len. }
  rewrite !Htake, !wire_app, !wire_cons.
  change (?a ++ Zlen ?x :: ?x ++ ?q) with (a ++ enc_label x ++ q).
  rewrite !rd_label_len. cbn [obind].
  assert (short_label l) by (rewrite E1 in Hs1; by apply Forall_app in Hs1 as [_ [? _]%Forall_cons]).
  assert (short_label l2) by (rewrite E2 in Hs2; by apply Forall_app in Hs2 as [_ [? _]%Forall_cons]).
  unfold short_label in *. rewrite require_true by lia. cbn [obind].
  replace (Z.to_nat (if Zlen l - Zlen l2 <? 0 then Zlen l else Zlen l2))
    with (length l `min` length l2)%nat by (unfold Zlen; case_if; bool_prop; lia).
  unfold enc_label. cbn [app].
  destruct (fc_chars_spec l l2 (wire (rev r1) ++ [Zlen l]) (wire c1) (wire (rev r2) ++ [Zlen l2]) (wire c2))
    as (x & Hx & Hc).
  rewrite <- !app_assoc, !Zlen_app in Hx. cbn [app] in Hx.
  change (Zlen [Zlen l]) with 1 in Hx. change (Zlen [Zlen l2]) with 1 in Hx.
  rewrite Hx. cbn [obind]. rewrite Hc.
  destruct (Z.eqb_spec x 0) as [->|Hne]; cbn [negb].
  - rewrite (Z.compare_sub (Zlen l)). 
    destruct (Z.eqb_spec (Zlen l - Zlen l2) 0) as [E|E]; cbn [negb].
    + rewrite E. exists 0. done.
    + exists (Zlen l - Zlen l2). destruct (Zlen l - Zlen l2 ?= 0) eqn:Hq; [|done..].
      apply Z.compare_eq in Hq. lia.
  - exists x. destruct (x ?= 0) eqn:Hq; [|done..]. apply Z.compare_eq in Hq. lia.
Qed.

Lemma fc_labels_spec : forall r1 r2 c1 c2 nl,
  ls1 = rev r1 ++ c1 -> ls2 = rev r2 ++ c2 ->
  exists early, fc_labels n1 n2 t1 t2 (length r1 `min` length r2) (Zlen r1) (Zlen r2) nl =
      Done (early, nl + common r1 r2) /\
    match early with
    | Some o => (o ?= 0) = labels_cmp r1 r2 /\ o <> 0 /\ common r1 r2 < Z.min (Zlen r1) (Zlen r2)
    | None => labels_cmp r1 r2 = (Zlen r1 ?= Zlen r2) /\ common r1 r2 = Z.min (Zlen r1) (Zlen r2)
    end.
Proof.
  induction r1 as [|l r1 IH]; intros [|l2 r2] c1 c2 nl E1 E2.
  1-3: exists None; cbn [fc_labels length Nat.min common]; rewrite Z.add_0_r; split; [done|];
       (split; [|len]); cbn [labels_cmp]; symmetry;
       first [done | apply Z.compare_lt_iff; len | apply Z.compare_gt_iff; len].
  cbn [length Nat.min rev] in *. rewrite <- app_assoc in E1, E2. cbn [app] in E1, E2.
  rewrite !Zlen_cons.
  destruct (fc_labels_step l r1 l2 r2 c1 c2 (length r1 `min` length r2) nl E1 E2) as (o & Ho & Hc).
  rewrite Ho. cbn [labels_cmp common].
  destruct (label_cmp l l2) eqn:Hlc.
  - destruct (IH r2 (l :: c1) (l2 :: c2) (nl + 1) E1 E2) as (early & He & Hm).
    exists early. rewrite He. split; [do 2 f_equal; lia|].
    destruct early as [o'|]; [destruct Hm as (?&?&?); split_and!; [done|done|lia]|].
    destruct Hm as [-> ?]. rewrite Z.add_compare_mono_l. split; [done|lia].
  - exists (Some o). rewrite Z.add_0_r. split; [done|]. rewrite Hc. pose proof (Zlen_nonneg r1).
    pose proof (Zlen_nonneg r2). split_and!; [done|by intros ->|lia].
  - exists (Some o). rewrite Z.add_0_r. split; [done|]. rewrite Hc. pose proof (Zlen_nonneg r1).
    pose proof (Zlen_nonneg r2). split_and!; [done|by intros ->|lia].
Qed.
End fc_labels.

(** ** The DNSSEC order is a total preorder *)

Class CmpLaws {A} (cmp : A -> A -> comparison) : Prop := {
  cmp_antisym : forall x y, cmp y x = CompOpp (cmp x y);
  cmp_eq_l : forall x y z, cmp x y = Eq -> cmp x z = cmp y z;
  cmp_lt_trans : forall x y z, cmp x y = Lt -> cmp y z = Lt -> cmp x z = Lt
}.

Fixpoint lex {A} (cmp : A -> A -> comparison) (l1 l2 : list A) : comparison :=
  match l1, l2 with
  | [], [] => Eq
  | [], _ :: _ => Lt
  | _ :: _, [] => Gt
  | x :: l1, y :: l2 => match cmp x y with Eq => lex cmp l1 l2 | c => c end
  end.

Section cmp.
Context {A : Type} (cmp : A -> A -> comparison) `{!CmpLaws cmp}.

Lemma cmp_eq_r x y z : cmp y z = Eq -> cmp x y = cmp x z.
Proof.
  intros H. rewrite (cmp_antisym y x), (cmp_antisym z x). f_equal. by apply cmp_eq_l.
Qed.

Lemma cmp_lt_eq x y z : cmp x y = Lt -> cmp y z = Eq -> cmp x z = Lt.
Proof. intros H1 H2. by rewrite <- (cmp_eq_r x y z H2). Qed.

#[local] Instance lex_laws : CmpLaws (lex cmp).
Proof.
  split.
  - induction x as [|a x IH]; intros [|b y]; cbn; try done.
    rewrite (cmp_antisym a b). destruct (cmp a b); cbn; auto.
  - induction x as [|a x IH]; intros [|b y] [|c z]; cbn; try done.
    destruct (cmp a b) eqn:E; try done. intros H. rewrite (cmp_eq_l a b c E).
    destruct (cmp b c); auto.
  - induction x as [|a x IH]; intros [|b y] [|c z]; cbn; try done.
    destruct (cmp a b) eqn:E1, (cmp b c) eqn:E2; try done; intros H1 H2.
    + rewrite (cmp_eq_l a b c E1), E2. eauto.
    + by rewrite (cmp_eq_l a b c E1), E2.
    + by rewrite (cmp_lt_eq a b c E1 E2).
    + by rewrite (cmp_lt_trans a b c E1 E2).
Qed.
End cmp.

#[export] Instance char_laws : CmpLaws (fun a b => tolower a ?= tolower b).
Proof.
  split.
  - intros. apply Z.compare_antisym.
  - intros x y z ->%Z.compare_eq. done.
  - intros x y z. rewrite !Z.compare_lt_iff. lia.
Qed.

Lemma label_cmp_lex l1 : forall l2, label_cmp l1 l2 = lex (fun a b => tolower a ?= tolower b) l1 l2.
Proof.
  induction l1 as [|a l1 IH]; intros [|b l2]; cbn; try done. by destruct (_ ?= _).
Qed.

#[export] Instance label_laws : CmpLaws label_cmp.
Proof.
  destruct (lex_laws (fun a b => tolower a ?= tolower b)) as [H1 H2 H3].
  split; intros *; rewrite !label_cmp_lex; auto.
  apply H3.
Qed.

Lemma labels_cmp_lex l1 : forall l2, labels_cmp l1 l2 = lex label_cmp l1 l2.
Proof.
  induction l1 as [|a l1 IH]; intros [|b l2]; cbn; try done. by destruct (label_cmp _ _).
Qed.

#[export] Instance labels_laws : CmpLaws labels_cmp.
Proof.
  destruct (lex_laws label_cmp) as [H1 H2 H3].
  split; intros *; rewrite !labels_cmp_lex; auto.
  apply H3.
Qed.

#[export] Instance name_cmp_laws : CmpLaws name_cmp.
Proof.
  unfold name_cmp. destruct labels_laws as [H1 H2 H3]. split; intros *; auto. apply H3.
Qed.

Lemma labels_cmp_eq r1 : forall r2, labels_cmp r1 r2 = Eq <-> map lower_label r1 = map lower_label r2.
Proof.
  induction r1 as [|l1 r1 IH]; intros [|l2 r2]; cbn [labels_cmp map]; try done.
  pose proof (label_cmp_eq l1 l2) as Hl. destruct (label_cmp l1 l2).
  - rewrite IH. rewrite (proj1 Hl eq_refl). split; [by intros ->|by intros [= ->]].
  - split; [done|]. intros [= ? ?]. by apply Hl.
  - split; [done|]. intros [= ? ?]. by apply Hl.
Qed.

Lemma name_cmp_eq ls1 ls2 : name_cmp ls1 ls2 = Eq <-> map lower_label ls1 = map lower_label ls2.
Proof.
  unfold name_cmp. rewrite labels_cmp_eq, !map_rev. split; [|by intros ->].
  intros H. by apply (f_equal (@rev _)) in H; rewrite !rev_involutive in H.
Qed.

(** ** What the comparison functions compute *)

(** The relation, from the number of common labels. *)
Definition reln_of (ls1 ls2 : list (list Z)) : dns_namereln_t :=
  let c := common (rev ls1) (rev ls2) in
  if c =? Z.min (Zlen ls1) (Zlen ls2) then
    if Zlen ls1 <? Zlen ls2 then dns_namereln_contains
    else if Zlen ls2 <? Zlen ls1 then dns_namereln_subdomain
    else dns_namereln_equal
  else if 0 <? c then dns_namereln_commonancestor else dns_namereln_none.

Lemma Zlen_rev {A} (l : list A) : Zlen (rev l) = Zlen l.
Proof. unfold Zlen. by rewrite length_rev. Qed.

Lemma fullcompare_spec n1 n2 b1 b2 ab :
  wf_name n1 b1 ab -> wf_name n2 b2 ab ->
  let ls1 := labels_of b1 ab in let ls2 := labels_of b2 ab in
  exists order, dns_name_fullcompare n1 n2 = Done (reln_of ls1 ls2, order, common (rev ls1) (rev ls2)) /\
    (order ?= 0) = name_cmp ls1 ls2.
Proof.
  intros W1 W2. cbv zeta.
  destruct (setup_offsets_spec _ _ _ W1) as (t1 & E1 & P1).
  destruct (setup_offsets_spec _ _ _ W2) as (t2 & E2 & P2).
  destruct W1 as [Hd1 Hg1 _ Hn1 Ha1 _], W2 as [Hd2 Hg2 _ Hn2 Ha2 _].
  unfold dns_name_fullcompare. rewrite Ha1, Ha2, Z.eqb_refl, E1, E2. cbn [require obind].
  rewrite Hn1, Hn2.
  set (ls1 := labels_of b1 ab) in *. set (ls2 := labels_of b2 ab) in *.
  destruct (fc_labels_spec n1 n2 ls1 ls2 t1 t2 Hd1 Hd2 P1 P2
              (labels_short _ _ Hg1) (labels_short _ _ Hg2) (rev ls1) (rev ls2) [] [] 0)
    as (early & He & Hm); [by rewrite rev_involutive, app_nil_r..|].
  rewrite !length_rev, !Zlen_rev in *. cbn [Z.add] in He.
  assert (Hl : (if Zlen ls1 <? Zlen ls2 then (Zlen ls1, 0 - (Zlen ls2 - Zlen ls1))
                else (Zlen ls2, Zlen ls1 - Zlen ls2))
               = (Z.min (Zlen ls1) (Zlen ls2), Zlen ls1 - Zlen ls2)).
  { case_if; bool_prop; f_equal; lia. }
  rewrite Hl. replace (Z.to_nat (Z.min (Zlen ls1) (Zlen ls2))) with (length ls1 `min` length ls2)%nat
    by (unfold Zlen; lia).
  rewrite He. cbn [obind]. unfold reln_of, name_cmp.
  destruct early as [o|].
  - destruct Hm as (Ho & Hnz & Hlt). exists o. split; [|done]. do 3 f_equal.
    rewrite (proj2 (Z.eqb_neq _ _)) by lia. rewrite andb_true_r. done.
  - destruct Hm as (Ho & Hc). exists (Zlen ls1 - Zlen ls2). split.
    + do 3 f_equal. rewrite Hc, Z.eqb_refl.
      destruct (Zlen ls1 - Zlen ls2 <? 0) eqn:Q1, (0 <? Zlen ls1 - Zlen ls2) eqn:Q2,
        (Zlen ls1 <? Zlen ls2) eqn:Q3, (Zlen ls2 <? Zlen ls1) eqn:Q4; bool_prop; try lia;
        by rewrite andb_false_r.
    + rewrite <- Z.compare_sub. done.
Qed.

(** Case-insensitive equality of label sequences. *)
Definition same_labels (ls1 ls2 : list (list Z)) : Prop := map lower_label ls1 = map lower_label ls2.

#[export] Instance same_labels_dec ls1 ls2 : Decision (same_labels ls1 ls2).
Proof. unfold same_labels. apply _. Defined.

#[export] Instance same_labels_equiv : Equivalence same_labels.
Proof.
  unfold same_labels. split; [by intros ?|by intros ? ? ?|].
  intros x y z ? ?. by transitivity (map lower_label y).
Qed.

Lemma eq_chars_spec l1 : forall l2 a1 q1 a2 q2, length l1 = length l2 ->
  eq_chars (a1 ++ l1 ++ q1) (Zlen a1) (a2 ++ l2 ++ q2) (Zlen a2) (length l1)
  = Done (bool_decide (lower_label l1 = lower_label l2)).
Proof.
  unfold lower_label.
  induction l1 as [|c1 l1 IH]; intros [|c2 l2] a1 q1 a2 q2 Hlen; cbn [eq_chars length map]; try done.
  cbn [app]. rewrite !rd_app_mid by done. cbn [obind].
  destruct (Z.eqb_spec (tolower c1) (tolower c2)) as [E|E]; cbn [negb].
  - specialize (IH l2 (a1 ++ [c1]) q1 (a2 ++ [c2]) q2). rewrite <- !app_assoc, !Zlen_app in IH.
    cbn [app] in IH. change (Zlen [c1]) with 1 in IH. change (Zlen [c2]) with 1 in IH.
    rewrite IH by (cbn in Hlen; lia). f_equal. apply bool_decide_ext. rewrite E.
    split; [by intros ->|by intros [= ->]].
  - rewrite bool_decide_false; [done|]. by intros [= ? ?].
Qed.

Lemma eq_labels_spec ls1 : forall ls2 a1 q1 a2 q2, length ls1 = length ls2 ->
  Forall short_label ls1 ->
  eq_labels (a1 ++ wire ls1 ++ q1) (Zlen a1) (a2 ++ wire ls2 ++ q2) (Zlen a2) (length ls1)
  = Done (bool_decide (same_labels ls1 ls2)).
Proof.
  unfold same_labels.
  induction ls1 as [|l1 ls1 IH]; intros [|l2 ls2] a1 q1 a2 q2 Hlen Hs; cbn [length map]; try done.
  apply Forall_cons in Hs as [Hl Hs]. unfold short_label in Hl.
  rewrite !wire_cons. rewrite <- !app_comm_cons, <- !app_assoc.
  cbn [eq_labels]. rewrite !rd_app_mid by done. cbn [obind].
  destruct (Z.eqb_spec (Zlen l1) (Zlen l2)) as [E|E]; cbn [negb].
  - rewrite require_true by lia. cbn [obind].
    pose proof (eq_chars_spec l1 l2 (a1 ++ [Zlen l1]) (wire ls1 ++ q1) (a2 ++ [Zlen l2]) (wire ls2 ++ q2)) as Hc.
    rewrite <- !app_assoc, !Zlen_app in Hc. cbn [app] in Hc.
    change (Zlen [Zlen l1]) with 1 in Hc. change (Zlen [Zlen l2]) with 1 in Hc.
    replace (Z.to_nat (Zlen l1)) with (length l1) by (unfold Zlen; lia).
    rewrite Hc by (unfold Zlen in E; lia). cbn [obind].
    destruct (bool_decide_reflect (lower_label l1 = lower_label l2)) as [Hb|Hb].
    + specialize (IH ls2 (a1 ++ Zlen l1 :: l1) q1 (a2 ++ Zlen l2 :: l2) q2).
      rewrite <- !app_assoc, <- !app_comm_cons, !Zlen_app, !Zlen_cons in IH.
      replace (Zlen a1 + 1 + Zlen l1) with (Zlen a1 + (1 + Zlen l1)) by lia.
      replace (Zlen a2 + 1 + Zlen l1) with (Zlen a2 + (1 + Zlen l2)) by lia.
      rewrite E. rewrite E in IH. rewrite IH; [|cbn in Hlen; lia|done].
      f_equal. apply bool_decide_ext. rewrite Hb. split; [by intros ->|by intros [= ->]].
    + rewrite bool_decide_false; [done|]. by intros [= ? ?].
  - rewrite bool_decide_false; [done|]. intros [= H _]. apply E.
    apply (f_equal length) in H. unfold lower_label in H. rewrite !length_map in H. unfold Zlen. lia.
Qed.

Lemma same_labels_wire_len ls1 ls2 : same_labels ls1 ls2 ->
  Zlen ls1 = Zlen ls2 /\ Zlen (wire ls1) = Zlen (wire ls2).
Proof.
  unfold same_labels. revert ls2. induction ls1 as [|l1 ls1 IH]; intros [|l2 ls2]; cbn [map]; try done.
  intros [= Hl [? ?]%IH]. apply (f_equal length) in Hl. unfold lower_label in Hl.
  rewrite !length_map in Hl. rewrite !Zlen_wire_cons, !Zlen_cons.
  assert (Zlen l1 = Zlen l2) by (unfold Zlen; lia). lia.
Qed.

Lemma equal_spec n1 n2 b1 b2 ab :
  wf_name n1 b1 ab -> wf_name n2 b2 ab ->
  dns_name_equal n1 n2 = Done (bool_decide (same_labels (labels_of b1 ab) (labels_of b2 ab))).
Proof.
  intros [Hd1 Hg1 _ Hn1 Ha1 _] [Hd2 Hg2 _ Hn2 Ha2 _].
  unfold dns_name_equal, n_length. rewrite Ha1, Ha2, Z.eqb_refl, Hd1, Hd2, Hn1, Hn2.
  cbn [require obind].
  destruct (Z.eqb_spec (Zlen (wire (labels_of b1 ab))) (Zlen (wire (labels_of b2 ab)))) as [E|E];
    cbn [negb].
  2: { rewrite bool_decide_false; [done|]. by intros [_ ?]%same_labels_wire_len. }
  destruct (Z.eqb_spec (Zlen (labels_of b1 ab)) (Zlen (labels_of b2 ab))) as [E'|E']; cbn [negb].
  2: { rewrite bool_decide_false; [done|]. by intros [? _]%same_labels_wire_len. }
  replace (Z.to_nat (Zlen (labels_of b1 ab))) with (length (labels_of b1 ab)) by (unfold Zlen; lia).
  pose proof (eq_labels_spec (labels_of b1 ab) (labels_of b2 ab) [] [] [] []) as H.
  rewrite !app_nil_r in H. cbn [app] in H. apply H; [unfold Zlen in E'; lia|].
  by apply labels_short.
Qed.

(** The common labels are the longest common suffix up to case. *)
Lemma common_prefix r1 : forall r2,
  0 <= common r1 r2 /\
  (exists p, Zlen p = common r1 r2 /\ p `prefix_of` map lower_label r1 /\ p `prefix_of` map lower_label r2) /\
  (forall p, p `prefix_of` map lower_label r1 -> p `prefix_of` map lower_label r2 ->
     Zlen p <= common r1 r2).
Proof.
  induction r1 as [|l1 r1 IH]; intros [|l2 r2]; cbn [common].
  1-3: split_and!; [lia|exists []; split_and!; [done|apply prefix_nil..]|].
  1-3: intros [|x p] H1 H2; [done|]; exfalso;
       first [by apply prefix_nil_not in H1 | by apply prefix_nil_not in H2].
  pose proof (label_cmp_eq l1 l2) as Hl. cbn [map].
  destruct (IH r2) as (H0 & (p & Hp & Hp1 & Hp2) & Hmax). clear IH.
  destruct (label_cmp l1 l2) eqn:E.
  - split_and!; [lia| |].
    + exists (lower_label l1 :: p). rewrite Zlen_cons, Hp. split; [done|].
      rewrite <- (proj1 Hl eq_refl). split; by apply prefix_cons.
    + intros [|x q] H1 H2; [unfold Zlen; cbn; lia|].
      apply prefix_cons_inv_2 in H1, H2. rewrite Zlen_cons. specialize (Hmax q H1 H2). lia.
  - split_and!; [lia|exists []; split_and!; [done|apply prefix_nil..]|].
    intros [|x q] H1 H2; [done|]. apply prefix_cons_inv_1 in H1, H2. subst x.
    exfalso; discriminate (proj2 Hl H2).
  - split_and!; [lia|exists []; split_and!; [done|apply prefix_nil..]|].
    intros [|x q] H1 H2; [done|]. apply prefix_cons_inv_1 in H1, H2. subst x.
    exfalso; discriminate (proj2 Hl H2).
Qed.

Lemma reverse_rev {A} (l : list A) : reverse l = rev l.
Proof. unfold reverse. by rewrite rev_alt. Qed.

Lemma common_suffix ls1 ls2 : let c := common (rev ls1) (rev ls2) in
  let f1 := map lower_label ls1 in let f2 := map lower_label ls2 in
  0 <= c /\ (exists s, Zlen s = c /\ s `suffix_of` f1 /\ s `suffix_of` f2) /\
  (forall s, s `suffix_of` f1 -> s `suffix_of` f2 -> Zlen s <= c).
Proof.
  cbv zeta. destruct (common_prefix (rev ls1) (rev ls2)) as (H0 & (p & Hp & H1 & H2) & Hmax).
  rewrite !map_rev, <- !reverse_rev in *. split_and!; [done| |].
  - exists (reverse p). split_and!; [unfold Zlen in *; by rewrite length_reverse|..];
      apply suffix_prefix_reverse; by rewrite reverse_involutive.
  - intros s Hs1%suffix_prefix_reverse Hs2%suffix_prefix_reverse.
    specialize (Hmax _ Hs1 Hs2). unfold Zlen in *. by rewrite length_reverse in Hmax.
Qed.

(** What each relation says about the label sequences. *)
Lemma reln_of_spec ls1 ls2 :
  let f1 := map lower_label ls1 in let f2 := map lower_label ls2 in
  (reln_of ls1 ls2 = dns_namereln_equal <-> f1 = f2) /\
  (reln_of ls1 ls2 = dns_namereln_subdomain <-> f2 `suffix_of` f1 /\ f1 <> f2) /\
  (reln_of ls1 ls2 = dns_namereln_contains <-> f1 `suffix_of` f2 /\ f1 <> f2).
Proof.
  cbv zeta. destruct (common_suffix ls1 ls2) as (H0 & (s & Hs & H1 & H2) & Hmax).
  unfold reln_of. set (c := common (rev ls1) (rev ls2)) in *.
  assert (L1 : Zlen (map lower_label ls1) = Zlen ls1) by len.
  assert (L2 : Zlen (map lower_label ls2) = Zlen ls2) by len.
  set (f1 := map lower_label ls1) in *. set (f2 := map lower_label ls2) in *.
  pose proof (suffix_length _ _ H1). pose proof (suffix_length _ _ H2).
  assert (Hs1 : Zlen ls1 <= c -> s = f1) by (intros; apply suffix_length_eq; [done|unfold Zlen in *; lia]).
  assert (Hs2 : Zlen ls2 <= c -> s = f2) by (intros; apply suffix_length_eq; [done|unfold Zlen in *; lia]).
  assert (M1 : f1 `suffix_of` f2 -> Zlen ls1 <= c) by (intros; rewrite <- L1; by apply Hmax).
  assert (M2 : f2 `suffix_of` f1 -> Zlen ls2 <= c) by (intros; rewrite <- L2; by apply Hmax).
  assert (Hq : f1 = f2 -> Zlen ls1 = Zlen ls2) by (rewrite <- L1, <- L2; by intros ->).
  assert (Hc1 : c <= Zlen ls1) by (unfold Zlen in *; lia).
  assert (Hc2 : c <= Zlen ls2) by (unfold Zlen in *; lia).
  destruct (Z.eqb_spec c (Z.min (Zlen ls1) (Zlen ls2))) as [E|E].
  - destruct (Z.ltb_spec (Zlen ls1) (Zlen ls2)) as [Q|Q];
      [|destruct (Z.ltb_spec (Zlen ls2) (Zlen ls1)) as [Q'|Q']].
    + rewrite (Hs1 ltac:(lia)) in *. split_and!; split; try done.
      * intros ?%Hq. lia.
      * intros [?%M2 _]. lia.
      * intros _. split; [done|]. intros ?%Hq. lia.
    + rewrite (Hs2 ltac:(lia)) in *. split_and!; split; try done.
      * intros ?%Hq. lia.
      * intros _. split; [done|]. intros ?%Hq. lia.
      * intros [?%M1 _]. lia.
    + rewrite (Hs1 ltac:(lia)) in *. pose proof (Hs2 ltac:(lia)). split_and!; split; try done; by intros [].
  - assert (Hr : forall r, (if 0 <? c then dns_namereln_commonancestor else dns_namereln_none) = r ->
      r = dns_namereln_commonancestor \/ r = dns_namereln_none) by (intros ? <-; case_if; auto).
    split_and!; (split; [intros [? | ?]%Hr; done|]).
    + intros Heq. exfalso. pose proof (Hq Heq). rewrite Heq in M1. specialize (M1 (reflexivity _)). lia.
    + intros [?%M2 _]. lia.
    + intros [?%M1 _]. lia.
Qed.

(** The other relations: neither name is above the other, and the label count tells
    whether they have an ancestor in common. *)
Lemma reln_of_unrelated ls1 ls2 :
  let f1 := map lower_label ls1 in let f2 := map lower_label ls2 in
  let c := common (rev ls1) (rev ls2) in
  (reln_of ls1 ls2 = dns_namereln_commonancestor <-> ~ f1 `suffix_of` f2 /\ ~ f2 `suffix_of` f1 /\ 0 < c) /\
  (reln_of ls1 ls2 = dns_namereln_none <-> ~ f1 `suffix_of` f2 /\ ~ f2 `suffix_of` f1 /\ c = 0).
Proof.
  cbv zeta. destruct (common_suffix ls1 ls2) as (H0 & (s & Hs & H1 & H2) & Hmax).
  unfold reln_of. set (c := common (rev ls1) (rev ls2)) in *.
  assert (L1 : Zlen (map lower_label ls1) = Zlen ls1) by len.
  assert (L2 : Zlen (map lower_label ls2) = Zlen ls2) by len.
  set (f1 := map lower_label ls1) in *. set (f2 := map lower_label ls2) in *.
  pose proof (suffix_length _ _ H1). pose proof (suffix_length _ _ H2).
  assert (M1 : f1 `suffix_of` f2 <-> Zlen ls1 <= c).
  { split; [intros; rewrite <- L1; by apply Hmax|]. intros. replace f1 with s; [done|].
    apply suffix_length_eq; [done|unfold Zlen in *; lia]. }
  assert (M2 : f2 `suffix_of` f1 <-> Zlen ls2 <= c).
  { split; [intros; rewrite <- L2; by apply Hmax|]. intros. replace f2 with s; [done|].
    apply suffix_length_eq; [done|unfold Zlen in *; lia]. }
  assert (c <= Zlen ls1 /\ c <= Zlen ls2) by (unfold Zlen in *; lia). rewrite M1, M2.
  destruct (Z.eqb_spec c (Z.min (Zlen ls1) (Zlen ls2))).
  - repeat case_if; (split; split; [done|lia|done|lia]).
  - case_if; bool_prop; (split; split; try done; intros; try lia; split_and!; lia).
Qed.

(** ** Hashing is invariant under case *)

Lemma rd_fold d1 d2 p : map tolower d1 = map tolower d2 ->
  match rd d1 p, rd d2 p with
  | Done c1, Done c2 => tolower c1 = tolower c2
  | Undef, Undef => True
  | _, _ => False
  end.
Proof.
  intros H. unfold rd. destruct (p <? 0); [done|].
  apply (f_equal (fun l => l !! Z.to_nat p)) in H. rewrite !list_lookup_fmap in H.
  destruct (d1 !! Z.to_nat p), (d2 !! Z.to_nat p); cbn in H; by simplify_eq.
Qed.

Lemma hash_chars_fold d1 d2 k : map tolower d1 = map tolower d2 -> forall p h,
  hash_chars d1 p k false h = hash_chars d2 p k false h.
Proof.
  intros H. induction k as [|k IH]; intros p h; cbn [hash_chars]; [done|].
  pose proof (rd_fold d1 d2 p H) as Hr. destruct (rd d1 p), (rd d2 p); try done. cbn [obind].
  rewrite Hr. apply IH.
Qed.

Lemma name_hash_fold d1 d2 : map tolower d1 = map tolower d2 ->
  name_hash d1 false = name_hash d2 false.
Proof.
  intros H. unfold name_hash.
  assert (E : Zlen d1 = Zlen d2) by (apply (f_equal length) in H; len).
  rewrite E. by apply hash_chars_fold.
Qed.

Lemma fold_enc_label l : short_label l -> map tolower (enc_label l) = Zlen l :: lower_label l.
Proof.
  intros H. unfold enc_label. cbn [map]. f_equal. apply tolower_small.
  unfold short_label in H. len.
Qed.

Lemma rootname_wf : wf_name dns_rootname [] true.
Proof. constructor; try done. by exists []. Qed.

Lemma fold_wire ls1 : forall ls2, Forall short_label ls1 -> Forall short_label ls2 ->
  same_labels ls1 ls2 -> map tolower (wire ls1) = map tolower (wire ls2).
Proof.
  unfold same_labels. induction ls1 as [|l1 ls1 IH]; intros [|l2 ls2] H1 H2; cbn [map]; try done.
  intros [= Hl Hr]. apply Forall_cons in H1 as [? ?], H2 as [? ?].
  rewrite !wire_cons. change (?a :: ?l ++ ?q) with (enc_label l ++ q).
  rewrite !map_app, !fold_enc_label, (IH ls2) by done.
  assert (E : Zlen l1 = Zlen l2).
  { apply (f_equal length) in Hl. unfold lower_label in Hl. len. }
  by rewrite E, Hl.
Qed.

Lemma hash_chars_total data cs k : forall p h, 0 <= p -> p + Z.of_nat k <= Zlen data ->
  exists r, hash_chars data p k cs h = Done r.
Proof.
  induction k as [|k IH]; intros p h Hp Hk; cbn [hash_chars]; [eauto|].
  destruct (rd_ok data p) as [c ->]; [lia|]. cbn [obind]. apply IH; lia.
Qed.

Lemma name_hash_total data cs : exists r, name_hash data cs = Done r.
Proof.
  unfold name_hash. apply hash_chars_total; [lia|]. pose proof (Zlen_nonneg data).
  case_if; bool_prop; lia.
Qed.

(** ** Names built from labels *)

Definition good_labelb (l : list Z) : bool :=
  forallb is_byteb l && (1 <=? Zlen l) && (Zlen l <=? 63).

(** The name with the given labels and no offsets table. *)
Definition mk_name (body : list (list Z)) (ab : bool) : dns_name_t :=
  mkname (wire (labels_of body ab)) (Zlen (labels_of body ab)) (Z.b2z ab) None None.

Lemma good_labelb_spec body : forallb good_labelb body = true -> Forall good_label body.
Proof.
  rewrite forallb_forall, Forall_forall. intros H l Hl%list_elem_of_In.
  specialize (H l Hl). unfold good_labelb in H. bool_prop. split; [by apply bytesb_spec|lia].
Qed.

Lemma mk_name_wf body ab :
  forallb good_labelb body = true -> (Zlen (wire (labels_of body ab)) <=? 255) = true ->
  wf_name (mk_name body ab) body ab.
Proof.
  intros H1%good_labelb_spec H2. bool_prop. constructor; cbn; try done. by destruct ab.
Qed.

(** ** Theorems: comparison *)

(** C30. [dns_name_fullcompare] reports the relation, the order and the number of common
    labels of two names (both absolute or both relative) up to ASCII case: they are [equal]
    iff their label sequences agree, the first is a [subdomain] iff the second is a proper
    suffix of it, [contains] is the converse, and of two names of which neither is a suffix
    of the other the relation is [commonancestor] iff they have a label in common at the
    end and [none] iff they have not; the label count is the length of the longest common
    suffix; and the order has the sign of the DNSSEC order of RFC 4034 section 6.1
    ([name_cmp]): label by label from the right, each label character by character, a
    prefix first.  No assertion fires and no byte outside the names is read. *)
Theorem fullcompare_relation (n1 n2 : dns_name_t) (b1 b2 : list (list Z)) (ab : bool) :
  wf_name n1 b1 ab -> wf_name n2 b2 ab ->
  let f1 := map lower_label (labels_of b1 ab) in
  let f2 := map lower_label (labels_of b2 ab) in
  exists reln order nlabels,
    dns_name_fullcompare n1 n2 = Done (reln, order, nlabels) /\
    (order ?= 0) = name_cmp (labels_of b1 ab) (labels_of b2 ab) /\
    (reln = dns_namereln_equal <-> f1 = f2) /\
    (reln = dns_namereln_subdomain <-> f2 `suffix_of` f1 /\ f1 <> f2) /\
    (reln = dns_namereln_contains <-> f1 `suffix_of` f2 /\ f1 <> f2) /\
    (reln = dns_namereln_commonancestor <-> ~ f1 `suffix_of` f2 /\ ~ f2 `suffix_of` f1 /\ 0 < nlabels) /\
    (reln = dns_namereln_none <-> ~ f1 `suffix_of` f2 /\ ~ f2 `suffix_of` f1 /\ nlabels = 0) /\
    (exists s, Zlen s = nlabels /\ s `suffix_of` f1 /\ s `suffix_of` f2) /\
    (forall s, s `suffix_of` f1 -> s `suffix_of` f2 -> Zlen s <= nlabels).
Proof.
  intros W1 W2. cbv zeta. destruct (fullcompare_spec n1 n2 b1 b2 ab W1 W2) as (order & E & Ho).
  do 3 eexists. split; [exact E|]. split; [exact Ho|].
  destruct (reln_of_unrelated (labels_of b1 ab) (labels_of b2 ab)) as [H6 H7].
  destruct (reln_of_spec (labels_of b1 ab) (labels_of b2 ab)) as (H1 & H2 & H3).
  destruct (common_suffix (labels_of b1 ab) (labels_of b2 ab)) as (_ & H4 & H5). done.
Qed.

(** C38. [dns_name_compare] is a total order on names up to case, the one
    DNSSEC needs for NSEC chains: comparing in the other direction flips the
    sign, the relation "less" is transitive, and the result is zero exactly for
    names that [dns_name_equal] accepts. *)
Theorem compare_total_order (n1 n2 n3 : dns_name_t) (b1 b2 b3 : list (list Z)) (ab : bool) :
  wf_name n1 b1 ab -> wf_name n2 b2 ab -> wf_name n3 b3 ab ->
  exists o12 o21 o23 o13 e12,
    dns_name_compare n1 n2 = Done o12 /\ dns_name_compare n2 n1 = Done o21 /\
    dns_name_compare n2 n3 = Done o23 /\ dns_name_compare n1 n3 = Done o13 /\
    dns_name_equal n1 n2 = Done e12 /\
    Z.sgn o21 = - Z.sgn o12 /\
    (o12 < 0 -> o23 < 0 -> o13 < 0) /\
    (o12 = 0 -> Z.sgn o13 = Z.sgn o23) /\
    (e12 = true <-> o12 = 0).
Proof.
  intros W1 W2 W3.
  assert (Hs : forall a b : Z, (a ?= 0) = (b ?= 0) -> Z.sgn a = Z.sgn b)
    by (intros [] []; done).
  destruct (fullcompare_spec n1 n2 b1 b2 ab W1 W2) as (o12 & E12 & C12).
  destruct (fullcompare_spec n2 n1 b2 b1 ab W2 W1) as (o21 & E21 & C21).
  destruct (fullcompare_spec n2 n3 b2 b3 ab W2 W3) as (o23 & E23 & C23).
  destruct (fullcompare_spec n1 n3 b1 b3 ab W1 W3) as (o13 & E13 & C13).
  exists o12, o21, o23, o13, (bool_decide (same_labels (labels_of b1 ab) (labels_of b2 ab))).
  unfold dns_name_compare. rewrite E12, E21, E23, E13, (equal_spec n1 n2 b1 b2 ab W1 W2).
  split_and!; try done.
  - rewrite <- Z.sgn_opp. apply Hs. rewrite C21, (cmp_antisym (labels_of b1 ab)), <- C12.
    destruct o12; done.
  - rewrite <- !Z.compare_lt_iff, C12, C23, C13. apply cmp_lt_trans.
  - rewrite <- Z.compare_eq_iff, C12. intros H. apply Hs. rewrite C13, C23. by apply cmp_eq_l.
  - rewrite bool_decide_eq_true, <- Z.compare_eq_iff, C12. symmetry. apply name_cmp_eq.
Qed.

(** Equal names hash alike: names that [dns_name_equal] identifies get the
    same case-insensitive hash from [dns_name_hash], so a name is always found
    in the bucket of any other spelling of it. *)
Theorem equal_names_hash_equal (n1 n2 : dns_name_t) (b1 b2 : list (list Z)) (ab : bool) :
  wf_name n1 b1 ab -> wf_name n2 b2 ab -> dns_name_equal n1 n2 = Done true ->
  exists h, dns_name_hash n1 false = Done h /\ dns_name_hash n2 false = Done h.
Proof.
  intros W1 W2. rewrite (equal_spec n1 n2 b1 b2 ab W1 W2). intros [= E%bool_decide_eq_true].
  destruct W1 as [Hd1 Hg1 _ Hn1 _ _], W2 as [Hd2 Hg2 _ Hn2 _ _].
  destruct (same_labels_wire_len _ _ E) as [HL _].
  unfold dns_name_hash. rewrite Hn1, Hn2, HL, Hd1, Hd2. case_if; [eauto|].
  rewrite (name_hash_fold _ _ (fold_wire _ _ (labels_short _ ab Hg1) (labels_short _ ab Hg2) E)).
  destruct (name_hash_total (wire (labels_of b2 ab)) false) as [h ->]. eauto.
Qed.

(** "www.ex." and "EX." *)
Definition ex_www : list (list Z) := [[119; 119; 119]; [101; 120]].
Definition ex_EX : list (list Z) := [[69; 88]].

Lemma fullcompare_relation_witness :
  exists reln order nlabels,
    dns_name_fullcompare (mk_name ex_www true) (mk_name ex_EX true) = Done (reln, order, nlabels) /\
    reln = dns_namereln_subdomain.
Proof.
  destruct (fullcompare_relation (mk_name ex_www true) (mk_name ex_EX true) ex_www ex_EX true)
    as (reln & order & nl & E & _ & _ & H & _).
  - apply mk_name_wf; reflexivity.
  - apply mk_name_wf; reflexivity.
  - exists reln, order, nl. split; [exact E|]. apply H. split; [|discriminate].
    exists [[119; 119; 119]]. reflexivity.
Defined.

Lemma compare_total_order_witness :
  exists o12 o23 o13,
    dns_name_compare (mk_name ex_EX true) (mk_name ex_www true) = Done o12 /\
    dns_name_compare (mk_name ex_www true) (mk_name [[122]] true) = Done o23 /\
    dns_name_compare (mk_name ex_EX true) (mk_name [[122]] true) = Done o13 /\
    (o12 < 0 -> o23 < 0 -> o13 < 0).
Proof.
  destruct (compare_total_order (mk_name ex_EX true) (mk_name ex_www true) (mk_name [[122]] true)
              ex_EX ex_www [[122]] true) as (o12&o21&o23&o13&e&E1&_&E3&E4&_&_&H&_).
  - apply mk_name_wf; reflexivity.
  - apply mk_name_wf; reflexivity.
  - apply mk_name_wf; reflexivity.
  - exists o12, o23, o13. split_and!; [exact E1|exact E3|exact E4|exact H].
Defined.

Lemma equal_names_hash_equal_witness :
  exists h, dns_name_hash (mk_name [[101; 120]] true) false = Done h /\
    dns_name_hash (mk_name ex_EX true) false = Done h.
Proof.
  apply (equal_names_hash_equal (mk_name [[101; 120]] true) (mk_name ex_EX true)
           [[101; 120]] ex_EX true).
  - apply mk_name_wf; reflexivity.
  - apply mk_name_wf; reflexivity.
  - reflexivity.
Defined.

(** ** Label sequences *)

Lemma land_1 x : Z.land x 1 = Z.b2z (Z.testbit x 0).
Proof. change 1 with (Z.ones 1). rewrite Z.land_ones, Z.bit0_mod by lia. done. Qed.

Lemma set_absolute_land a ab : Z.land (set_absolute a ab) DNS_NAMEATTR_ABSOLUTE = Z.b2z ab.
Proof.
  unfold set_absolute, DNS_NAMEATTR_ABSOLUTE. rewrite land_1. f_equal. destruct ab.
  - rewrite Z.lor_spec. apply orb_true_r.
  - rewrite Z.land_spec, Z.lnot_spec by lia. apply andb_false_r.
Qed.

Lemma wf_attr_abs n body ab : wf_name n body ab -> attr_set n DNS_NAMEATTR_ABSOLUTE = ab.
Proof. intros H. unfold attr_set. rewrite (wn_abs _ _ _ H). by destruct ab. Qed.

(** The labels [first .. first+k-1]. *)
Definition seq_body (body : list (list Z)) (first k : Z) : list (list Z) :=
  take (Z.to_nat k) (drop (Z.to_nat first) body).

Definition seq_abs (body : list (list Z)) (ab : bool) (first k : Z) : bool :=
  (first + k =? Zlen (labels_of body ab)) && (0 <? k) && ab.

Lemma labels_of_seq body ab first k :
  0 <= first -> 0 <= k -> first + k <= Zlen (labels_of body ab) ->
  seq_body (labels_of body ab) first k = labels_of (seq_body body first k) (seq_abs body ab first k).
Proof.
  intros Hf Hk Hle. unfold seq_abs, seq_body, labels_of in *.
  destruct ab; [|rewrite andb_false_r, !app_nil_r; done]. rewrite andb_true_r.
  rewrite Zlen_app in *. change (@Zlen (list Z) [[]]) with 1 in *.
  destruct (Z.eqb_spec (first + k) (Zlen body + 1)) as [E|E]; cbn [andb].
  - destruct (Z.ltb_spec 0 k) as [Hk'|Hk'].
    + rewrite drop_app_le by len. rewrite !take_ge by len. done.
    + replace k with 0 by lia. cbn. done.
  - rewrite app_nil_r. rewrite drop_app_le by len. rewrite take_app_le by len. done.
Qed.

Lemma wire_seq ls first k : 0 <= first -> 0 <= k -> first + k <= Zlen ls ->
  sub (wire ls) (Zlen (wire (take (Z.to_nat first) ls)))
      (Zlen (wire (take (Z.to_nat (first + k)) ls)) - Zlen (wire (take (Z.to_nat first) ls)))
  = wire (seq_body ls first k).
Proof.
  intros Hf Hk Hle. unfold seq_body.
  assert (E1 : take (Z.to_nat (first + k)) ls =
               take (Z.to_nat first) ls ++ take (Z.to_nat k) (drop (Z.to_nat first) ls)).
  { rewrite Z2Nat.inj_add by lia.
    rewrite <- (take_drop (Z.to_nat first) (take (Z.to_nat first + Z.to_nat k) ls)).
    rewrite take_take, skipn_firstn_comm. f_equal; f_equal; lia. }
  rewrite E1, wire_app, Zlen_app.
  rewrite <- (take_drop (Z.to_nat (first + k)) ls) at 1. rewrite E1, !wire_app.
  unfold sub. rewrite <- app_assoc, drop_app_length' by (unfold Zlen; lia).
  apply take_app_length'. unfold Zlen. lia.
Qed.

(** What the target of [dns_name_getlabelsequence] must provide. *)
Definition seq_target (target : dns_name_t) (k : Z) : Prop :=
  BINDABLE target = true /\ match offsets target with Some t => k <= Zlen t | None => True end.

Lemma getlabelsequence_spec source body ab first k target :
  wf_name source body ab -> 0 <= first -> 0 <= k -> first + k <= labels source ->
  seq_target target k ->
  exists n', dns_name_getlabelsequence source first k target false = Done n' /\
    wf_name n' (seq_body body first k) (seq_abs body ab first k) /\
    buffer n' = buffer target /\
    (offsets target = None -> offsets n' = None).
Proof.
  intros W Hf Hk Hle [Hb Ht]. pose proof (wf_attr_abs _ _ _ W) as Habs.
  destruct (setup_offsets_spec _ _ _ W) as (t & E & P).
  destruct W as [Hd Hg Hl Hn Ha Ho]. rewrite Hn in Hle.
  unfold dns_name_getlabelsequence. rewrite Hn.
  rewrite !require_true by first [done|lia]. cbn [obind]. rewrite E. cbn [obind].
  set (ls := labels_of body ab) in *.
  assert (Ho1 : forall i, 0 <= i <= Zlen ls ->
    (if i =? Zlen ls then Done (n_length source) else rd t i) = Done (Zlen (wire (take (Z.to_nat i) ls)))).
  { intros i Hi. destruct (Z.eqb_spec i (Zlen ls)) as [->|].
    - unfold n_length. rewrite Hd. rewrite take_ge by len. done.
    - apply offs_rd; [done|lia]. }
  rewrite !Ho1 by lia. cbn [obind]. rewrite Hd, wire_seq by lia.
  rewrite Habs. change ((first + k =? Zlen ls) && (0 <? k) && ab) with (seq_abs body ab first k).
  unfold ls. rewrite labels_of_seq by done.
  set (body' := seq_body body first k). set (ab' := seq_abs body ab first k).
  assert (Hg' : Forall good_label body') by (by apply Forall_take, Forall_drop).
  assert (Hcount : Zlen (labels_of body' ab') = k).
  { unfold body', ab'. rewrite <- labels_of_seq by done. fold ls. unfold seq_body.
    unfold Zlen in *. rewrite length_take, length_drop. lia. }
  assert (Hlen : Zlen (wire (labels_of body' ab')) <= 255).
  { unfold body', ab'. rewrite <- labels_of_seq by done. unfold n_length in Hl. rewrite Hd in Hl.
    fold ls. rewrite <- wire_seq by lia. unfold sub. unfold Zlen in *.
    rewrite length_take, length_drop. lia. }
  destruct (offsets target) as [tbl|] eqn:Et; cbn [negb orb].
  - destruct (set_offsets_spec (mkname (wire (labels_of body' ab')) k
        (set_absolute (attributes target) ab') (Some tbl) (buffer target)) body' ab' tbl)
      as (t' & E' & P' & _); try done; [lia|].
    rewrite E'. cbn [obind]. eexists. split; [done|]. split; [|by split_and!].
    constructor; cbn; try done. apply set_absolute_land.
  - eexists. split; [done|]. split; [|by split_and!].
    constructor; cbn; try done. apply set_absolute_land.
Qed.

(** ** Concatenation *)

Lemma blit_blit {A} (l l1 p s : list A) i :
  0 <= i -> i + Zlen p + Zlen s <= Zlen l -> blit l (i + Zlen p) s = Done l1 ->
  blit l1 i p = blit l i (p ++ s).
Proof.
  intros Hi Hle (?&?&->)%blit_Done. unfold blit. rewrite (Zlen_app p s).
  assert (HL : Zlen (take (Z.to_nat (i + Zlen p)) l ++ s ++ drop (Z.to_nat (i + Zlen p + Zlen s)) l) = Zlen l)
    by len.
  rewrite HL. pose proof (Zlen_nonneg s).
  replace ((0 <=? i) && (i + Zlen p <=? Zlen l)) with true by lia.
  replace ((0 <=? i) && (i + (Zlen p + Zlen s) <=? Zlen l)) with true by lia.
  f_equal. rewrite take_app_le by len. rewrite take_take.
  replace (Z.to_nat i `min` Z.to_nat (i + Zlen p))%nat with (Z.to_nat i) by len. f_equal.
  rewrite drop_app_ge by len. rewrite length_take, <- app_assoc. f_equal.
  replace (Z.to_nat (i + Zlen p) - Z.to_nat (i + Zlen p) `min` length l)%nat with 0%nat by len.
  rewrite drop_0. do 3 f_equal. lia.
Qed.

Lemma sub_blit {A} (l l' src : list A) i : blit l i src = Done l' -> sub l' i (Zlen src) = src.
Proof.
  intros (?&?&->)%blit_Done. unfold sub. rewrite drop_app_ge by len. rewrite length_take.
  replace (Z.to_nat i - Z.to_nat i `min` length l)%nat with 0%nat by len.
  rewrite drop_0, take_app_le by len. apply take_ge. len.
Qed.

Lemma labels_of_app b1 b2 ab : labels_of (b1 ++ b2) ab = labels_of b1 false ++ labels_of b2 ab.
Proof. unfold labels_of. by rewrite app_nil_r, app_assoc. Qed.

Lemma blit_then {A} (l l1 l2 a b : list A) i : blit l i a = Done l1 ->
  blit l1 (i + Zlen a) b = Done l2 -> blit l i (a ++ b) = Done l2.
Proof.
  intros (H1 & H2 & ->)%blit_Done (H3 & H4 & ->)%blit_Done.
  rewrite blit_ok by (rewrite ?(Zlen_app a b) in *; len). f_equal.
  rewrite (app_assoc (take (Z.to_nat i) l) a), (take_app_length' (take _ l ++ a)) by len.
  rewrite (drop_app_ge (take _ l ++ a)) by len. rewrite drop_drop, <- !app_assoc.
  do 4 f_equal. len.
Qed.

(** The buffer after the bytes of a name were appended to it. *)
Definition appended (t t' : isc_buffer_t) (src : list Z) : Prop :=
  exists base, blit (b_base t) (b_used t) src = Done base /\
    t' = set_used (set_base t base) (b_used t + Zlen src).

Definition name_target (n : dns_name_t) (k : Z) : Prop :=
  BINDABLE n = true /\ match offsets n with Some t => k <= Zlen t | None => True end.

Lemma add_after_blit t base src : wf_buffer t -> blit (b_base t) (b_used t) src = Done base ->
  isc_buffer_add (set_base t base) (Zlen src) = Done (set_used (set_base t base) (b_used t + Zlen src)).
Proof.
  intros Hwf Hb. pose proof (Zlen_blit _ _ _ _ Hb) as HL. apply blit_Done in Hb as (?&?&_).
  pose proof (wb_length t Hwf). pose proof (wb_current t Hwf). pose proof (Zlen_nonneg src).
  unfold isc_buffer_add, b_length in *. cbn. rewrite HL. rewrite u32_small by lia.
  rewrite require_true by lia. done.
Qed.

(** Filling the offsets table of the result, if it has one. *)
Lemma finish_offsets n n' body ab :
  ndata n' = wire (labels_of body ab) -> Forall good_label body -> n_length n' <= 255 ->
  labels n' = Zlen (labels_of body ab) ->
  match offsets n with Some t => labels n' <= Zlen t | None => True end ->
  exists o, (match offsets n with
             | Some tbl => if 0 <? labels n' then let* tbl := set_offsets n' tbl in Done (Some tbl)
                           else Done (Some tbl)
             | None => Done None
             end) = Done o /\
    match o with Some t => offs 0 (labels_of body ab) `prefix_of` t | None => True end.
Proof.
  intros Hd Hg Hl Hn Ht. destruct (offsets n) as [tbl|]; [|by exists None].
  destruct (Z.ltb_spec 0 (labels n')) as [Q|Q].
  - destruct (set_offsets_spec n' body ab tbl) as (t & E & P & _); try done; [lia|].
    rewrite E. by exists (Some t).
  - exists (Some tbl). split; [done|]. destruct (labels_of body ab); [apply prefix_nil|len].
Qed.

(** Every branch of [dns_name_concatenate] on a relative prefix. *)
Lemma concatenate_spec p s n t bp bs ab :
  wf_name p bp false -> wf_name s bs ab -> wf_buffer t ->
  name_target n (labels p + labels s) ->
  let length := n_length p + n_length s in
  exists r n' t',
    dns_name_concatenate (Some p) (Some s) (Some n) (Some t) = Done (r, n', Some t') /\
    ((255 < length /\ r = DNS_R_NAMETOOLONG /\ labels n' = 0 /\ t' = t) \/
     (length <= 255 /\ b_length t - b_used t < length /\ r = ISC_R_NOSPACE /\ labels n' = 0 /\ t' = t) \/
     (length <= 255 /\ length <= b_length t - b_used t /\ r = ISC_R_SUCCESS /\
      wf_name n' (bp ++ bs) ab /\ appended t t' (ndata n'))).
Proof.
  intros Wp Ws Wt [Hb Ht]. cbv zeta. pose proof (wf_attr_abs _ _ _ Wp) as Ap.
  pose proof (wf_attr_abs _ _ _ Ws) as As.
  destruct Wp as [Dp Gp Lp Np _ _], Ws as [Ds Gs Ls Ns _ _].
  pose proof Wt as [Tb Tc Tu Ta Tl].
  unfold dns_name_concatenate.
  set (pfx := if labels p =? 0 then None else Some p).
  set (sfx := if labels s =? 0 then None else Some s).
  assert (Hz : forall m b a, labels m = Zlen (labels_of b a) -> labels m = 0 -> b = [] /\ a = false).
  { intros m b a -> H. unfold labels_of in H. destruct b, a; try done; len. }
  assert (Pabs : match pfx with Some p => attr_set p DNS_NAMEATTR_ABSOLUTE | None => false end = false)
    by (unfold pfx; case_if; done).
  assert (Sabs : match sfx with Some s => attr_set s DNS_NAMEATTR_ABSOLUTE || false | None => false end = ab).
  { unfold sfx. case_if; [|by rewrite As, orb_false_r]. bool_prop.
    by destruct (Hz s bs ab Ns E). }
  assert (Pdata : match pfx with Some p => ndata p | None => [] end = ndata p).
  { unfold pfx. case_if; [|done]. bool_prop. destruct (Hz p bp false Np E) as [-> _]. by rewrite Dp. }
  assert (Sdata : match sfx with Some s => ndata s | None => [] end = ndata s).
  { unfold sfx. case_if; [|done]. bool_prop. destruct (Hz s bs ab Ns E) as [-> ->]. by rewrite Ds. }
  assert (Plab : match pfx with Some p => labels p | None => 0 end = labels p)
    by (unfold pfx; case_if; bool_prop; lia).
  assert (Slab : match sfx with Some s => labels s | None => 0 end = labels s)
    by (unfold sfx; case_if; bool_prop; lia).
  rewrite Pabs, Pdata, Sdata, Plab, Slab. cbn [andb negb require obind select_target].
  rewrite Hb. cbn [require obind]. unfold DNS_NAME_MAXWIRE.
  fold (n_length p). fold (n_length s). rewrite (u32_small (b_length t - b_used t)) by lia.
  assert (Hlen : Zlen (wire (labels_of (bp ++ bs) ab)) = n_length p + n_length s).
  { rewrite labels_of_app, wire_app, Zlen_app. unfold n_length. by rewrite Dp, Ds. }
  assert (Hcnt : Zlen (labels_of (bp ++ bs) ab) = labels p + labels s).
  { rewrite labels_of_app, Zlen_app. lia. }
  destruct (Z.ltb_spec 255 (n_length p + n_length s)) as [Q|Q].
  { do 3 eexists. split; [reflexivity|]. left. split_and!; done. }
  set (nrem := if 255 <? b_length t - b_used t then 255 else b_length t - b_used t).
  destruct (Z.ltb_spec nrem (n_length p + n_length s)) as [R|R].
  { do 3 eexists. split; [reflexivity|]. right. left. split_and!; try done.
    unfold nrem in R. destruct (255 <? b_length t - b_used t); lia. }
  assert (Hroom : n_length p + n_length s <= b_length t - b_used t)
    by (unfold nrem in R; destruct (Z.ltb_spec 255 (b_length t - b_used t)); lia).
  pose proof (Zlen_nonneg (ndata p)) as Z1. pose proof (Zlen_nonneg (ndata s)) as Z2.
  unfold n_length, b_length in *.
  destruct (blit (b_base t) (b_used t + Zlen (ndata p)) (ndata s)) as [l1| | |] eqn:E1;
    [|by rewrite blit_ok in E1 by lia..]. cbn [obind].
  rewrite (blit_blit (b_base t) l1 (ndata p) (ndata s) (b_used t)) by first [done|lia].
  replace (ndata p ++ ndata s) with (wire (labels_of (bp ++ bs) ab))
    by (rewrite labels_of_app, wire_app; by rewrite Dp, Ds).
  destruct (blit (b_base t) (b_used t) (wire (labels_of (bp ++ bs) ab))) as [base| | |] eqn:E2;
    [|by rewrite blit_ok in E2 by lia..]. cbn [obind].
  rewrite <- Hlen. rewrite (sub_blit _ _ _ _ E2).
  set (n' := mkname (wire (labels_of (bp ++ bs) ab)) (labels p + labels s) _ _ _).
  destruct (finish_offsets n n' (bp ++ bs) ab) as (o & Eo & Po); cbn; try done.
  { by apply Forall_app. }
  { unfold n_length. cbn. lia. }
  change (labels n') with (labels p + labels s) in Eo. rewrite Eo. cbn [obind].
  rewrite (add_after_blit t base _ Wt E2). cbn [obind give_back].
  do 3 eexists. split; [reflexivity|]. right. right. split_and!; try done; try lia.
  - constructor; cbn; try done; [by apply Forall_app|unfold n_length; cbn; lia|].
    rewrite Pabs in Sabs || idtac. rewrite Sabs. by destruct ab.
  - by exists base.
Qed.

Lemma seq_body_join body split k : 0 <= split -> Zlen body <= split + k ->
  seq_body body 0 split ++ seq_body body split k = body.
Proof.
  intros H1 H2. unfold seq_body. change (Z.to_nat 0) with 0%nat. rewrite drop_0.
  rewrite (take_ge (drop _ _)) by len. apply take_drop.
Qed.

Lemma seq_body_nil body first : seq_body body first 0 = [].
Proof. done. Qed.

(** ** Theorems: label sequences *)

(** Splitting and joining are inverse: splitting a name at any label
    boundary with [dns_name_split] and joining the two parts with
    [dns_name_concatenate] gives back the bytes, the label count and the
    absolute attribute of the name, when the target has room for it. *)
Theorem split_concatenate_roundtrip (n : dns_name_t) (body : list (list Z)) (ab : bool)
    (k : Z) (p0 s0 n0 : dns_name_t) (t : isc_buffer_t) :
  wf_name n body ab -> 0 < k < labels n ->
  seq_target p0 (labels n) -> dns_name_hasbuffer p0 = true ->
  seq_target s0 (labels n) -> dns_name_hasbuffer s0 = true ->
  name_target n0 (labels n) -> wf_buffer t -> n_length n <= b_length t - b_used t ->
  exists p s n2 t2,
    dns_name_split n k (Some p0) (Some s0) = Done (Some p, Some s) /\
    labels p = labels n - k /\ labels s = k /\
    dns_name_concatenate (Some p) (Some s) (Some n0) (Some t) = Done (ISC_R_SUCCESS, n2, Some t2) /\
    ndata n2 = ndata n /\ labels n2 = labels n /\
    dns_name_isabsolute n2 = dns_name_isabsolute n.
Proof.
  intros W Hk [Bp Tp] Hbp [Bs Ts] Hbs [Bn Tn] Wt Hroom.
  assert (Hsub : forall m j, BINDABLE m = true ->
            match offsets m with Some t => labels n <= Zlen t | None => True end ->
            j <= labels n -> seq_target m j).
  { intros m j ? ? ?. split; [done|]. destruct (offsets m); [lia|done]. }
  destruct (getlabelsequence_spec n body ab 0 (labels n - k) p0 W) as (p & Ep & Wp & _);
    [lia|lia|lia|apply Hsub; [done..|lia]|].
  destruct (getlabelsequence_spec n body ab (labels n - k) k s0 W) as (s & Es & Ws & _);
    [lia|lia|lia|apply Hsub; [done..|lia]|].
  pose proof (wn_labels _ _ _ W) as Hn.
  assert (Ap : seq_abs body ab 0 (labels n - k) = false).
  { unfold seq_abs. rewrite (proj2 (Z.eqb_neq _ _)) by lia. done. }
  assert (As : seq_abs body ab (labels n - k) k = ab).
  { unfold seq_abs. rewrite (proj2 (Z.eqb_eq _ _)) by lia.
    rewrite (proj2 (Z.ltb_lt _ _)) by lia. done. }
  rewrite Ap in Wp. rewrite As in Ws.
  assert (Hj : seq_body body 0 (labels n - k) ++ seq_body body (labels n - k) k = body).
  { apply seq_body_join; [lia|]. rewrite Hn. unfold labels_of. len. }
  assert (Hls : labels p = labels n - k /\ labels s = k).
  { rewrite (wn_labels _ _ _ Wp), (wn_labels _ _ _ Ws).
    rewrite <- Ap at 1. rewrite <- As at 2. rewrite <- !labels_of_seq by lia.
    unfold seq_body. rewrite Hn in *. len. }
  destruct Hls as [Lp Ls].
  assert (Hlen : n_length p + n_length s = n_length n).
  { unfold n_length. rewrite (wn_data _ _ _ Wp), (wn_data _ _ _ Ws), (wn_data _ _ _ W).
    rewrite <- Zlen_app, <- wire_app, <- labels_of_app, Hj. done. }
  destruct (concatenate_spec p s n0 t _ _ ab Wp Ws Wt) as (r & n2 & t2 & E & Hc).
  { split; [done|]. destruct (offsets n0); [lia|done]. }
  pose proof (wn_length _ _ _ W).
  destruct Hc as [(?&_)|[(_&?&_)|(_&_&->&W2&_)]]; [lia|lia|].
  rewrite Hj in W2. exists p, s, n2, t2. split_and!; try done.
  - unfold dns_name_split. rewrite !require_true by first [lia|done|by rewrite Hbp|by rewrite Hbs].
    cbn [obind]. rewrite Ep. cbn [obind]. rewrite Es. done.
  - by rewrite (wn_data _ _ _ W2), (wn_data _ _ _ W).
  - by rewrite (wn_labels _ _ _ W2), (wn_labels _ _ _ W).
  - unfold dns_name_isabsolute. by rewrite (wf_attr_abs _ _ _ W2), (wf_attr_abs _ _ _ W).
Qed.

(** A name with a dedicated buffer of 300 bytes. *)
Definition fixedname : dns_name_t :=
  mkname [] 0 0 (Some odata) (Some (isc_buffer_init (replicate 300 0))).

Lemma split_concatenate_roundtrip_witness :
  exists p s n2 t2,
    dns_name_split (mk_name ex_www true) 2 (Some fixedname) (Some fixedname) = Done (Some p, Some s) /\
    dns_name_concatenate (Some p) (Some s) (Some fixedname) (Some (isc_buffer_init (replicate 300 0)))
      = Done (ISC_R_SUCCESS, n2, Some t2) /\ ndata n2 = ndata (mk_name ex_www true).
Proof.
  destruct (split_concatenate_roundtrip (mk_name ex_www true) ex_www true 2 fixedname fixedname
              fixedname (isc_buffer_init (replicate 300 0))) as (p&s&n2&t2&H1&_&_&H2&H3&_).
  - apply mk_name_wf; reflexivity.
  - split; reflexivity.
  - split; [reflexivity|vm_compute; discriminate].
  - reflexivity.
  - split; [reflexivity|vm_compute; discriminate].
  - reflexivity.
  - split; [reflexivity|vm_compute; discriminate].
  - apply wf_bufferb_spec. reflexivity.
  - vm_compute. discriminate.
  - exists p, s, n2, t2. split_and!; [exact H1|exact H2|exact H3].
Defined.
