(* ===== verification/Hash.v ===== *)
(** * The keyed hash of names ([lib/isc/hash.c])

    A universal hash: the sum of the octets of the key, each times a random 16 bit
    number, modulo a prime.  The random vector is drawn when the context is
    initialised; it is an argument of the model. *)

From S2P Require Import Prelude Name NameTheory.

Record isc_hash : Type := mkHash {
  limit : Z;                     (* upper limit of the key length *)
  rndvector : list Z             (* hash_random_t, limit + 1 of them *)
}.

Definition PRIME32 : Z := 0xFFFFFFFB.

(** [for (i = 0; i < keylen; i++)]; the table [maptolower] of [hash.c] is that of
    [name.c]. *)
Fixpoint hash_sum (p key : list Z) (i : Z) (n : nat) (case_sensitive : bool) (partial_sum : Z) : outcome Z :=
  match n with
  | O => Done partial_sum
  | S n =>
      let* c := rd key i in
      let* r := rd p i in
      let c := if case_sensitive then c else tolower c in
      hash_sum p key (i + 1) n case_sensitive (u32 (partial_sum + u32 (c * r)))
  end.

Definition hash_calc (hctx : isc_hash) (key : list Z) (case_sensitive : bool) : outcome Z :=
  let* partial_sum := hash_sum (rndvector hctx) key 0 (length key) case_sensitive 0 in
  let* r := rd (rndvector hctx) (Zlen key) in
  Done (u32 (partial_sum + r) mod PRIME32).

Definition isc_hash_calc (hctx : isc_hash) (key : list Z) (case_sensitive : bool) : outcome Z :=
  REQUIRE Zlen key <=? limit hctx ;;
  hash_calc hctx key case_sensitive.

Definition dns_name_fullhash (hctx : isc_hash) (n : dns_name_t) (case_sensitive : bool) : outcome Z :=
  if labels n =? 0 then Done 0 else isc_hash_calc hctx (ndata n) case_sensitive.

(** A context that was initialised. *)
Record hash_ok (hctx : isc_hash) : Prop := {
  ho_length : Zlen (rndvector hctx) = limit hctx + 1;
  ho_name : 255 <= limit hctx
}.

Lemma hash_sum_total p key cs n : forall i sum,
  0 <= i -> i + Z.of_nat n <= Zlen key -> Zlen key <= Zlen p -> exists r, hash_sum p key i n cs sum = Done r.
Proof.
  induction n as [|n IH]; intros i sum Hi Hn Hp; cbn [hash_sum]; [by eexists|].
  destruct (rd_ok key i) as [c ->]; [lia|]. destruct (rd_ok p i) as [r ->]; [lia|]. cbn [obind].
  apply IH; lia.
Qed.

Lemma hash_sum_fold p k1 k2 n :
  map tolower k1 = map tolower k2 -> forall i sum, hash_sum p k1 i n false sum = hash_sum p k2 i n false sum.
Proof.
  intros E. induction n as [|n IH]; intros i sum; cbn [hash_sum]; [done|].
  pose proof (rd_fold k1 k2 i E) as Hr. destruct (rd k1 i), (rd k2 i); try done. cbn [obind].
  destruct (rd p i); cbn [obind]; [|done..]. rewrite Hr. apply IH.
Qed.

Lemma hash_calc_fold hctx k1 k2 : map tolower k1 = map tolower k2 -> hash_calc hctx k1 false = hash_calc hctx k2 false.
Proof.
  intros E. assert (El : length k1 = length k2) by (apply (f_equal length) in E; by rewrite !length_map in E).
  unfold hash_calc, Zlen. by rewrite El, (hash_sum_fold _ k1 k2).
Qed.
