(* ===== verification/FromWire.v ===== *)
(** * Names from the wire ([dns_name_fromwire] of [lib/dns/name.c], the
      decompression context of [lib/dns/compress.c])

    The parser is the state machine of the source: one iteration reads one
    octet of the message, writes at most one octet of the target buffer and one
    entry of the offsets table.  [fw_body] is the body of its loop, on the
    record of the loop's variables.  The pointer [cdata] of the source always
    equals [source->base + current] and is not a variable of its own. *)

From S2P Require Import Prelude Buffer Name NameTheory.

(** ** Decompression context *)

Definition DNS_COMPRESS_NONE : Z := 0x00.
Definition DNS_COMPRESS_GLOBAL14 : Z := 0x01.
Definition DNS_COMPRESS_ALL : Z := 0x01.
Definition DNS_COMPRESS_CASESENSITIVE : Z := 0x02.

Inductive dns_decompresstype_t : Type :=
| DNS_DECOMPRESS_ANY | DNS_DECOMPRESS_STRICT | DNS_DECOMPRESS_NONE.

Record dns_decompress_t := mkdctx {
  d_allowed : Z;
  d_edns : Z;
  d_type : dns_decompresstype_t
}.

Definition dns_decompress_init (edns : Z) (type : dns_decompresstype_t) : outcome dns_decompress_t :=
  REQUIRE (-1 <=? edns) && (edns <=? 255) ;;
  Done (mkdctx DNS_COMPRESS_NONE edns type).

Definition dns_decompress_setmethods (dctx : dns_decompress_t) (allowed : Z) : dns_decompress_t :=
  mkdctx (match d_type dctx with
          | DNS_DECOMPRESS_ANY => DNS_COMPRESS_ALL
          | DNS_DECOMPRESS_NONE => DNS_COMPRESS_NONE
          | DNS_DECOMPRESS_STRICT => allowed
          end) (d_edns dctx) (d_type dctx).

Definition dns_decompress_getmethods (dctx : dns_decompress_t) : Z := d_allowed dctx.

(** ** The parser *)

Inductive fw_state : Type := fw_start | fw_ordinary | fw_copy | fw_newcurrent.

(** The variables of the loop; [f_base] is the area of the target, [f_np] the
    offset of [ndata] in it and [f_offs] the offsets table. *)
Record fw := mkfw {
  f_state : fw_state;
  f_current : Z;
  f_cused : Z;
  f_nused : Z;
  f_labels : Z;
  f_n : Z;
  f_new_current : Z;
  f_biggest_pointer : Z;
  f_seen_pointer : bool;
  f_done : bool;
  f_np : Z;
  f_base : list Z;
  f_offs : list Z
}.

Section fw_body.
Context (src : list Z) (active : Z) (allowed : Z) (downcase : bool) (nmax : Z).

(** [case fw_start]. *)
Definition fw_case_start (s : fw) (c : Z) : outcome (fw + (isc_result_t * fw)) :=
  if c <? 64 then
    let* offs := wr (f_offs s) (f_labels s) (u8 (f_nused s)) in
    let s := mkfw fw_start (f_current s) (f_cused s) (f_nused s) (f_labels s + 1) (f_n s)
               (f_new_current s) (f_biggest_pointer s) (f_seen_pointer s) (f_done s)
               (f_np s) (f_base s) offs in
    if nmax <? f_nused s + c + 1 then
      Done (inr (if nmax =? DNS_NAME_MAXWIRE then DNS_R_NAMETOOLONG else ISC_R_NOSPACE, s))
    else
      let* base := wr (f_base s) (f_np s) c in
      Done (inl (mkfw fw_ordinary (f_current s) (f_cused s) (f_nused s + c + 1) (f_labels s) c
                   (f_new_current s) (f_biggest_pointer s) (f_seen_pointer s)
                   (if c =? 0 then true else f_done s) (f_np s + 1) base (f_offs s)))
  else if (128 <=? c) && (c <? 192) then Done (inr (DNS_R_BADLABELTYPE, s))
  else if 192 <=? c then
    if Z.land allowed DNS_COMPRESS_GLOBAL14 =? 0 then Done (inr (DNS_R_DISALLOWED, s))
    else Done (inl (mkfw fw_newcurrent (f_current s) (f_cused s) (f_nused s) (f_labels s) 1
                      (Z.land c 0x3F) (f_biggest_pointer s) (f_seen_pointer s) (f_done s)
                      (f_np s) (f_base s) (f_offs s)))
  else Done (inr (DNS_R_BADLABELTYPE, s)).

(** [case fw_copy], entered from [fw_ordinary] with the folded character. *)
Definition fw_case_copy (s : fw) (st : fw_state) (c : Z) : outcome (fw + (isc_result_t * fw)) :=
  let* base := wr (f_base s) (f_np s) c in
  let n := u32 (f_n s - 1) in
  Done (inl (mkfw (if n =? 0 then fw_start else st) (f_current s) (f_cused s) (f_nused s)
               (f_labels s) n (f_new_current s) (f_biggest_pointer s) (f_seen_pointer s)
               (f_done s) (f_np s + 1) base (f_offs s))).

(** [case fw_newcurrent]. *)
Definition fw_case_newcurrent (s : fw) (c : Z) : outcome (fw + (isc_result_t * fw)) :=
  let new_current := u32 (u32 (f_new_current s * 256) + c) in
  let n := u32 (f_n s - 1) in
  let s := mkfw fw_newcurrent (f_current s) (f_cused s) (f_nused s) (f_labels s) n new_current
             (f_biggest_pointer s) (f_seen_pointer s) (f_done s) (f_np s) (f_base s) (f_offs s) in
  if negb (n =? 0) then Done (inl s)
  else if f_biggest_pointer s <=? new_current then Done (inr (DNS_R_BADPOINTER, s))
  else Done (inl (mkfw fw_start new_current (f_cused s) (f_nused s) (f_labels s) n new_current
                    new_current true (f_done s) (f_np s) (f_base s) (f_offs s))).

(** One iteration of [while (current < source->active && !done)]; the loop is
    left with [ISC_R_SUCCESS] when a root label was seen. *)
Definition fw_body (s : fw) : outcome (fw + (isc_result_t * fw)) :=
  if (f_current s <? active) && negb (f_done s) then
    let* c := rd src (f_current s) in
    let s := mkfw (f_state s) (f_current s + 1)
               (if f_seen_pointer s then f_cused s else f_cused s + 1)
               (f_nused s) (f_labels s) (f_n s) (f_new_current s) (f_biggest_pointer s)
               (f_seen_pointer s) (f_done s) (f_np s) (f_base s) (f_offs s) in
    match f_state s with
    | fw_start => fw_case_start s c
    | fw_ordinary => fw_case_copy s fw_ordinary (if downcase then tolower c else c)
    | fw_copy => fw_case_copy s fw_copy c
    | fw_newcurrent => fw_case_newcurrent s c
    end
  else Done (inr (if f_done s then ISC_R_SUCCESS else ISC_R_UNEXPECTEDEND, s)).

End fw_body.

(** At most 255 octets of name data, and two octets for each of at most
    [2^14 + 1] pointers, since pointers strictly decrease. *)
Definition fw_fuel : nat := Z.to_nat 33100.

(** [DNS_NAME_DOWNCASE]. *)
Definition DNS_NAME_DOWNCASE : Z := 0x0001.

(** The part of [dns_name_fromwire] after the target is chosen: the result,
    the name, the source and the target. *)
Definition fromwire_into (n : dns_name_t) (source : isc_buffer_t) (dctx : dns_decompress_t)
    (options : Z) (target : isc_buffer_t) :
    outcome (isc_result_t * dns_name_t * isc_buffer_t * isc_buffer_t) :=
  let downcase := negb (Z.land options DNS_NAME_DOWNCASE =? 0) in
  REQUIRE BINDABLE n ;;
  let tbl := match offsets n with Some t => t | None => odata end in
  let n := MAKE_EMPTY n in
  let nmax := isc_buffer_availablelength target in
  let nmax := if DNS_NAME_MAXWIRE <? nmax then DNS_NAME_MAXWIRE else nmax in
  let current := b_current source in
  let* (r, s) :=
    loop fw_fuel (fw_body (b_base source) (b_active source) (d_allowed dctx) downcase nmax)
      (mkfw fw_start current 0 0 0 0 0 current false false (b_used target) (b_base target) tbl) in
  let n := mkname (ndata n) (labels n) (attributes n) (put_offsets n (f_offs s)) (buffer n) in
  let target' := set_base target (f_base s) in
  if bool_decide (r = ISC_R_SUCCESS) then
    let n := mkname (sub (b_base target') (b_used target') (f_nused s)) (f_labels s)
               (Z.lor (attributes n) DNS_NAMEATTR_ABSOLUTE) (offsets n) (buffer n) in
    let* source := isc_buffer_forward source (f_cused s) in
    let* target' := isc_buffer_add target' (n_length n) in
    Done (ISC_R_SUCCESS, n, source, target')
  else Done (r, n, source, target').

Definition dns_name_fromwire (n : dns_name_t) (source : isc_buffer_t) (dctx : dns_decompress_t)
    (options : Z) (target : option isc_buffer_t) :
    outcome (isc_result_t * dns_name_t * isc_buffer_t * option isc_buffer_t) :=
  let* t := select_target n target in
  let* (r, n, source, t) := fromwire_into n source dctx options t in
  let '(n, target) := give_back n target t in
  Done (r, n, source, target).

(** ** Specification: RFC 1035, section 4.1.4

    [wire_at msg active big pos ls k]: the octets of the message from [pos] on,
    those before [active] only, spell the labels [ls] followed by the root
    label, and [k] octets from [pos] on belong to the name; a pointer must
    point below [big], which it replaces. *)
Inductive wire_at (msg : list Z) (active : Z) : Z -> Z -> list (list Z) -> Z -> Prop :=
| wa_root big pos :
    pos < active -> rd msg pos = Done 0 -> wire_at msg active big pos [] 1
| wa_label big pos l ls k :
    1 <= Zlen l <= 63 -> pos + Zlen l < active -> rd msg pos = Done (Zlen l) ->
    sub msg (pos + 1) (Zlen l) = l ->
    wire_at msg active big (pos + 1 + Zlen l) ls k ->
    wire_at msg active big pos (l :: ls) (1 + Zlen l + k)
| wa_pointer big pos c1 c2 ls k :
    pos + 1 < active -> rd msg pos = Done c1 -> rd msg (pos + 1) = Done c2 ->
    192 <= c1 ->
    (c1 - 192) * 256 + c2 < big ->
    wire_at msg active ((c1 - 192) * 256 + c2) ((c1 - 192) * 256 + c2) ls k ->
    wire_at msg active big pos ls 2.

(** Why a text is refused, along the same walk.  [wire_error msg active allowed
    room big pos nused res]: with [nused] octets of the name read and room for
    [room] in all, the octets from [pos] on are refused with [res] - because the
    message ends within the name, because a label octet is of a type that does
    not exist (64 to 191), because a label does not fit (the name is too long
    when the room is that of the longest name, otherwise the target is too
    small), because of a pointer where none is allowed, or because of a pointer
    that does not point below [big]. *)
Inductive wire_error (msg : list Z) (active allowed room : Z) : Z -> Z -> Z -> isc_result_t -> Prop :=
| we_end big pos nused :
    active <= pos -> wire_error msg active allowed room big pos nused ISC_R_UNEXPECTEDEND
| we_type big pos nused c :
    pos < active -> rd msg pos = Done c -> 64 <= c < 192 ->
    wire_error msg active allowed room big pos nused DNS_R_BADLABELTYPE
| we_room big pos nused c :
    pos < active -> rd msg pos = Done c -> 0 <= c < 64 -> room < nused + 1 + c ->
    wire_error msg active allowed room big pos nused
      (if room =? DNS_NAME_MAXWIRE then DNS_R_NAMETOOLONG else ISC_R_NOSPACE)
| we_cut big pos nused c :
    pos < active -> rd msg pos = Done c -> 1 <= c < 64 -> nused + 1 + c <= room ->
    active <= pos + c -> wire_error msg active allowed room big pos nused ISC_R_UNEXPECTEDEND
| we_label big pos nused c res :
    rd msg pos = Done c -> 1 <= c < 64 -> nused + 1 + c <= room -> pos + c < active ->
    wire_error msg active allowed room big (pos + 1 + c) (nused + 1 + c) res ->
    wire_error msg active allowed room big pos nused res
| we_disallowed big pos nused c :
    pos < active -> rd msg pos = Done c -> 192 <= c -> Z.land allowed DNS_COMPRESS_GLOBAL14 = 0 ->
    wire_error msg active allowed room big pos nused DNS_R_DISALLOWED
| we_half big pos nused c :
    pos < active -> rd msg pos = Done c -> 192 <= c -> Z.land allowed DNS_COMPRESS_GLOBAL14 <> 0 ->
    active <= pos + 1 -> wire_error msg active allowed room big pos nused ISC_R_UNEXPECTEDEND
| we_target big pos nused c1 c2 :
    pos + 1 < active -> rd msg pos = Done c1 -> rd msg (pos + 1) = Done c2 -> 192 <= c1 ->
    Z.land allowed DNS_COMPRESS_GLOBAL14 <> 0 -> big <= (c1 - 192) * 256 + c2 ->
    wire_error msg active allowed room big pos nused DNS_R_BADPOINTER
| we_pointer big pos nused c1 c2 res :
    pos + 1 < active -> rd msg pos = Done c1 -> rd msg (pos + 1) = Done c2 -> 192 <= c1 ->
    Z.land allowed DNS_COMPRESS_GLOBAL14 <> 0 -> (c1 - 192) * 256 + c2 < big ->
    wire_error msg active allowed room ((c1 - 192) * 256 + c2) ((c1 - 192) * 256 + c2) nused res ->
    wire_error msg active allowed room big pos nused res.

(** ** Lemmas on the specification *)

Section wire_at.
Context (msg : list Z) (active : Z) (Hmsg : bytes msg) (Hact : active <= Zlen msg).

Lemma wire_at_end big pos ls k : active <= pos -> ~ wire_at msg active big pos ls k.
Proof. intros H W. pose proof (Zlen_nonneg (A := Z)). inversion W; subst; lia. Qed.

Lemma wire_at_0 big pos ls k : rd msg pos = Done 0 ->
  wire_at msg active big pos ls k <-> pos < active /\ ls = [] /\ k = 1.
Proof.
  intros H. split.
  - inversion 1; subst; [done|..]; exfalso; rewrite H in *; simplify_eq; lia.
  - intros (?&->&->). by constructor.
Qed.

Lemma wire_at_label big pos ls k c : rd msg pos = Done c -> 1 <= c <= 63 ->
  wire_at msg active big pos ls k <->
  pos + c < active /\ exists ls' k', ls = sub msg (pos + 1) c :: ls' /\ k = 1 + c + k' /\
    wire_at msg active big (pos + 1 + c) ls' k'.
Proof.
  intros H Hc. pose proof (rd_bound _ _ _ H). split.
  - inversion 1; subst; [exfalso; rewrite H in *; simplify_eq; lia| |
      exfalso; rewrite H in *; simplify_eq; lia].
    assert (c = Zlen l) by (rewrite H in *; by simplify_eq). subst c.
    split; [done|]. exists ls0, k0. split_and!; try done. by f_equal.
  - intros (Hlt & ls' & k' & -> & -> & W).
    assert (Hl : Zlen (sub msg (pos + 1) c) = c) by (apply Zlen_sub; lia).
    rewrite <- Hl at 2. apply wa_label; rewrite ?Hl; try done; lia.
Qed.

Lemma wire_at_bad big pos ls k c : rd msg pos = Done c -> 64 <= c < 192 ->
  ~ wire_at msg active big pos ls k.
Proof. intros H Hc. inversion 1; subst; rewrite H in *; simplify_eq; lia. Qed.

Lemma wire_at_pointer big pos ls k c1 : rd msg pos = Done c1 -> 192 <= c1 ->
  wire_at msg active big pos ls k <->
  pos + 1 < active /\ k = 2 /\ exists c2 k', rd msg (pos + 1) = Done c2 /\
    (c1 - 192) * 256 + c2 < big /\
    wire_at msg active ((c1 - 192) * 256 + c2) ((c1 - 192) * 256 + c2) ls k'.
Proof.
  intros H Hc. split.
  - inversion 1; subst; [exfalso; rewrite H in *; simplify_eq; lia
      |exfalso; rewrite H in *; simplify_eq; lia|].
    rewrite H in *. simplify_eq. eauto 10.
  - intros (Hlt & -> & c2 & k' & H2 & Hb & W). by eapply wa_pointer.
Qed.

Lemma wire_at_good big pos ls k : wire_at msg active big pos ls k -> Forall good_label ls.
Proof.
  induction 1; [constructor| |done]. constructor; [|done]. split; [|done].
  rewrite <- H2. by apply bytes_sub.
Qed.
End wire_at.

(** The bits of a pointer's first octet. *)
Lemma land_3f c : 192 <= c < 256 -> Z.land c 0x3F = c - 192.
Proof.
  intros H. apply Z.eqb_eq.
  assert (H1 := range_forall 64 (fun d => Z.land (192 + d) 0x3F =? d) ltac:(vm_compute; reflexivity) (c - 192)).
  replace c with (192 + (c - 192)) at 1 by lia. apply H1. lia.
Qed.

(** ** Case folding of labels *)

Section fold.
Context (downcase : bool).

(** The labels as they are stored. *)
Definition fold_label (l : list Z) : list Z := if downcase then lower_label l else l.

Lemma fold_label_len l : Zlen (fold_label l) = Zlen l.
Proof. unfold fold_label, lower_label. destruct downcase; len. Qed.

Lemma fold_label_bytes l : bytes l -> bytes (fold_label l).
Proof.
  unfold fold_label, lower_label. destruct downcase; [|done]. intros H.
  apply Forall_map. eapply Forall_impl; [exact H|]. intros. by apply tolower_byte.
Qed.

Lemma fold_label_good l : good_label l -> good_label (fold_label l).
Proof. intros [? ?]. split; [by apply fold_label_bytes|by rewrite fold_label_len]. Qed.

Lemma wire_fold_len ls : Zlen (wire (map fold_label ls)) = Zlen (wire ls).
Proof.
  induction ls as [|l ls IH]; [done|]. cbn [map]. by rewrite !Zlen_wire_cons, IH, fold_label_len.
Qed.

Lemma fold_label_snoc l x : fold_label (l ++ [x]) = fold_label l ++ [if downcase then tolower x else x].
Proof. unfold fold_label, lower_label. destruct downcase; [by rewrite map_app|done]. Qed.

Lemma labels_fold ls : labels_of (map fold_label ls) true = map fold_label (labels_of ls true).
Proof.
  unfold labels_of. rewrite map_app. f_equal. cbn. f_equal. unfold fold_label, lower_label.
  by destruct downcase.
Qed.

End fold.

Lemma sub_snoc (l : list Z) i n x : 0 <= i -> 0 <= n -> rd l (i + n) = Done x ->
  sub l i (n + 1) = sub l i n ++ [x].
Proof.
  intros Hi Hn [_ H]%rd_Done. unfold sub. rewrite Z2Nat.inj_add, Nat.add_1_r by lia.
  apply take_S_r. rewrite lookup_drop. rewrite <- Z2Nat.inj_add by lia. done.
Qed.

Lemma wire_snoc ls l : wire (ls ++ [l]) = wire ls ++ Zlen l :: l.
Proof. rewrite wire_app. unfold wire at 2. cbn. by rewrite app_nil_r. Qed.

Lemma labels_of_true ls : labels_of ls true = ls ++ [[]].
Proof. done. Qed.

(** ** The loop invariant *)

Section fw_loop.
Context (msg : list Z) (active allowed nmax cur0 used : Z) (downcase : bool) (tbase : list Z).
Context (Hmsg : bytes msg) (Hact : active <= Zlen msg) (Hcur : 0 <= cur0).
Context (Hnmax : 0 <= nmax <= 255) (Hused : 0 <= used) (Hroom : used + nmax <= Zlen tbase).


(** The names spelled from the start are the labels [ls0] read so far followed
    by what is spelled from [pos] on, and what is wrong from [pos] on is wrong
    with the whole. *)
Definition continues (ls0 : list (list Z)) (big pos cu : Z) (seen : bool) : Prop :=
  (forall ls k, wire_at msg active cur0 cur0 ls k <->
     exists rest k', ls = ls0 ++ rest /\ k = (if seen then cu else cu + k') /\
       wire_at msg active big pos rest k') /\
  (forall res, wire_error msg active allowed nmax big pos (Zlen (wire ls0)) res ->
     wire_error msg active allowed nmax cur0 cur0 0 res).

(** [w] are the octets written to the target so far. *)
Definition written (s : fw) (w : list Z) : Prop :=
  blit tbase used w = Done (f_base s) /\ f_np s = used + Zlen w /\ bytes w.

Record inv_common (s : fw) (ls0 : list (list Z)) (k : Z) : Prop := {
  ic_good : Forall good_label ls0;
  ic_labels : f_labels s = k;
  ic_table : 128 <= Zlen (f_offs s);
  ic_nused : f_nused s <= nmax;
  ic_current : 0 <= f_current s;
  ic_big : if f_seen_pointer s then 0 <= f_biggest_pointer s < 16384 else True
}.

Inductive inv (s : fw) : Prop :=
| inv_start ls0 :
    f_state s = fw_start -> f_done s = false -> inv_common s ls0 (Zlen ls0) ->
    written s (wire (map (fold_label downcase) ls0)) -> f_nused s = Zlen (wire ls0) ->
    offs 0 ls0 `prefix_of` f_offs s ->
    continues ls0 (f_biggest_pointer s) (f_current s) (f_cused s) (f_seen_pointer s) -> inv s
| inv_ordinary ls0 c :
    let got := c - f_n s in
    let start := f_current s - got - 1 in
    f_state s = fw_ordinary -> f_done s = false -> inv_common s ls0 (Zlen ls0 + 1) ->
    1 <= f_n s <= c -> c <= 63 -> 0 <= start -> f_current s <= active -> rd msg start = Done c ->
    written s (wire (map (fold_label downcase) ls0) ++ c :: fold_label downcase (sub msg (start + 1) got)) ->
    f_nused s = Zlen (wire ls0) + 1 + c ->
    offs 0 (ls0 ++ [[]]) `prefix_of` f_offs s ->
    continues ls0 (f_biggest_pointer s) start
      (if f_seen_pointer s then f_cused s else f_cused s - got - 1) (f_seen_pointer s) -> inv s
| inv_new ls0 c1 :
    f_state s = fw_newcurrent -> f_done s = false -> inv_common s ls0 (Zlen ls0) ->
    f_n s = 1 -> f_new_current s = c1 - 192 -> 192 <= c1 < 256 -> 1 <= f_current s <= active ->
    Z.land allowed DNS_COMPRESS_GLOBAL14 <> 0 -> rd msg (f_current s - 1) = Done c1 ->
    written s (wire (map (fold_label downcase) ls0)) -> f_nused s = Zlen (wire ls0) ->
    offs 0 ls0 `prefix_of` f_offs s ->
    continues ls0 (f_biggest_pointer s) (f_current s - 1)
      (if f_seen_pointer s then f_cused s else f_cused s - 1) (f_seen_pointer s) -> inv s
| inv_done ls0 :
    f_done s = true -> inv_common s ls0 (Zlen ls0 + 1) ->
    written s (wire (labels_of (map (fold_label downcase) ls0) true)) ->
    f_nused s = Zlen (wire (labels_of ls0 true)) ->
    offs 0 (labels_of ls0 true) `prefix_of` f_offs s ->
    wire_at msg active cur0 cur0 ls0 (f_cused s) -> inv s.

(** Remaining iterations. *)
Definition fw_measure (s : fw) : Z :=
  if f_done s then 0 else
  2 * (if f_seen_pointer s then f_biggest_pointer s else 16384) + (255 - f_nused s) +
  match f_state s with
  | fw_start => 2
  | fw_ordinary | fw_copy => 2 + f_n s
  | fw_newcurrent => 1
  end.

(** What the loop returns. *)
Definition fw_post (r : isc_result_t * fw) : Prop :=
  let '(res, s) := r in
  (exists w, blit tbase used w = Done (f_base s) /\ bytes w) /\ 128 <= Zlen (f_offs s) /\
  if bool_decide (res = ISC_R_SUCCESS) then
    exists ls0, wire_at msg active cur0 cur0 ls0 (f_cused s) /\
      Zlen (wire (labels_of ls0 true)) <= nmax /\
      blit tbase used (wire (labels_of (map (fold_label downcase) ls0) true)) = Done (f_base s) /\
      f_nused s = Zlen (wire (labels_of ls0 true)) /\ f_labels s = Zlen (labels_of ls0 true) /\
      offs 0 (labels_of ls0 true) `prefix_of` f_offs s
  else
    wire_error msg active allowed nmax cur0 cur0 0 res /\
    ((exists ls k, wire_at msg active cur0 cur0 ls k) ->
    Z.land allowed DNS_COMPRESS_GLOBAL14 <> 0 ->
    exists ls k, wire_at msg active cur0 cur0 ls k /\ nmax < Zlen (wire (labels_of ls true)) /\
      res = if nmax =? DNS_NAME_MAXWIRE then DNS_R_NAMETOOLONG else ISC_R_NOSPACE).





(** A table write at the index of the next label. *)
Lemma table_write t t' (ls : list (list Z)) l v :
  offs 0 ls `prefix_of` t -> wr t (Zlen ls) v = Done t' -> v = Zlen (wire ls) ->
  offs 0 (ls ++ [l]) `prefix_of` t' /\ Zlen t' = Zlen t.
Proof.
  intros [r ->] H ->. pose proof (Zlen_wr _ _ _ _ H). split; [|done].
  apply wr_Done in H as [Hb ->]. rewrite offs_app. cbn [offs].
  destruct r as [|x r]; [rewrite app_nil_r in Hb; unfold Zlen in Hb; rewrite length_offs in Hb; lia|].
  rewrite insert_app_r_alt by (rewrite length_offs; unfold Zlen; lia).
  rewrite length_offs. replace (Z.to_nat (Zlen ls) - length ls)%nat with 0%nat by (unfold Zlen; lia).
  cbn. exists r. rewrite <- app_assoc. done.
Qed.

Lemma write_next s w c : written s w -> is_byte c -> Zlen w < nmax ->
  exists base, wr (f_base s) (f_np s) c = Done base /\ blit tbase used (w ++ [c]) = Done base /\
    bytes (w ++ [c]).
Proof.
  intros (Hb & -> & Hw) Hc Hlt. destruct (wr_seq _ _ _ _ c Hb) as (l2 & E & E2); [lia|].
  exists l2. split_and!; [done|done|]. apply bytes_app. split; [done|].
  apply bytes_cons. split; [done|constructor].
Qed.




(** The invariant bounds the number of labels. *)
Lemma count_bound ls : Forall good_label ls -> Zlen (wire ls) <= nmax -> Zlen ls <= 127.
Proof. intros H%wire_count ?. lia. Qed.

(** What one iteration must establish. *)
Definition step_ok (s : fw) (r : outcome (fw + (isc_result_t * fw))) : Prop :=
  match r with
  | Done (inl s') => inv s' /\ 0 <= fw_measure s' < fw_measure s
  | Done (inr r) => fw_post r
  | _ => False
  end.

(** A failure of the parser where no name is spelled. *)
Lemma post_none s res ls0 big pos cu w :
  res <> ISC_R_SUCCESS -> written s w -> 128 <= Zlen (f_offs s) ->
  continues ls0 big pos cu (f_seen_pointer s) ->
  wire_error msg active allowed nmax big pos (Zlen (wire ls0)) res ->
  (Z.land allowed DNS_COMPRESS_GLOBAL14 <> 0 -> forall rest k, ~ wire_at msg active big pos rest k) ->
  fw_post (res, s).
Proof.
  intros Hres (Hb & _ & Hw) Ht [Hc He] Hwe Hn. unfold fw_post. rewrite bool_decide_eq_false_2 by done.
  split_and!; [eauto|done|by apply He|]. intros (ls & k & (rest & k' & _ & _ & W)%Hc) Ha. by destruct (Hn Ha rest k').
Qed.


Lemma continues_label ls0 big pos cu seen c :
  continues ls0 big pos cu seen -> rd msg pos = Done c -> 1 <= c <= 63 -> pos + c < active ->
  Zlen (wire ls0) + 1 + c <= nmax ->
  continues (ls0 ++ [sub msg (pos + 1) c]) big (pos + 1 + c) (if seen then cu else cu + 1 + c) seen.
Proof.
  intros [Hc He] Hrd Hb Hlt Hfit. pose proof (rd_bound _ _ _ Hrd). split.
  2:{ intros res W. apply He. eapply we_label; [done|lia|done|done|].
      rewrite wire_snoc, Zlen_app, Zlen_cons, Zlen_sub in W by lia.
      by replace (Zlen (wire ls0) + 1 + c) with (Zlen (wire ls0) + (1 + c)) by lia. }
  intros ls k. rewrite (Hc ls k).
  setoid_rewrite (wire_at_label msg active Hact _ _ _ _ _ Hrd Hb). split.
  - intros (? & ? & -> & -> & _ & rest & k' & -> & -> & W). exists rest, k'.
    rewrite <- app_assoc. split_and!; [done|destruct seen; lia|done].
  - intros (rest & k' & -> & -> & W). rewrite <- app_assoc.
    exists (sub msg (pos + 1) c :: rest), (1 + c + k').
    split_and!; [done|destruct seen; lia|done|]. eauto 10.
Qed.

Lemma continues_pointer ls0 big pos cu seen c1 c2 :
  let t := (c1 - 192) * 256 + c2 in
  continues ls0 big pos cu seen -> rd msg pos = Done c1 -> 192 <= c1 -> pos + 1 < active ->
  rd msg (pos + 1) = Done c2 -> t < big -> Z.land allowed DNS_COMPRESS_GLOBAL14 <> 0 ->
  continues ls0 t t (if seen then cu else cu + 2) true.
Proof.
  intros t [Hc He] Hrd Hb Hlt Hrd2 Ht Ha. split.
  2:{ intros res W. apply He. by eapply we_pointer. }
  intros ls k. rewrite (Hc ls k).
  setoid_rewrite (wire_at_pointer msg active _ _ _ _ _ Hrd Hb). split.
  - intros (rest & ? & -> & -> & _ & -> & c2' & k' & E & _ & W). rewrite Hrd2 in E.
    injection E as <-. exists rest, k'. split_and!; [done|by destruct seen|done].
  - intros (rest & k' & -> & -> & W). exists rest, 2.
    split_and!; [done|by destruct seen|done|done|]. eauto 10.
Qed.



(** The length octet of a label: [fw_case_start] with [c < 64]. *)
Lemma step_length s s0 ls0 c :
  inv_common s ls0 (Zlen ls0) -> f_done s = false ->
  written s (wire (map (fold_label downcase) ls0)) -> f_nused s = Zlen (wire ls0) ->
  offs 0 ls0 `prefix_of` f_offs s -> 1 <= f_current s <= active -> rd msg (f_current s - 1) = Done c ->
  continues ls0 (f_biggest_pointer s) (f_current s - 1)
    (if f_seen_pointer s then f_cused s else f_cused s - 1) (f_seen_pointer s) ->
  f_state s0 = fw_start -> f_done s0 = false -> f_nused s0 = f_nused s ->
  f_seen_pointer s0 = f_seen_pointer s -> f_biggest_pointer s0 = f_biggest_pointer s ->
  0 <= c < 64 ->
  step_ok s0 (fw_case_start allowed nmax s c).
Proof.
  intros [Hg Hl Ht Hn Hc Hbig] Hd Hw Hnu Hp Hcur1 Hrd Hcont Est Ed En Ese Ebi Hb.
  pose proof (count_bound ls0 Hg ltac:(lia)) as Hcnt. pose proof (Zlen_nonneg ls0).
  pose proof (Zlen_nonneg (wire ls0)) as Hwn.
  unfold fw_case_start. rewrite (proj2 (Z.ltb_lt c 64)) by lia.
  rewrite Hl, u8_small by lia.
  destruct (wr (f_offs s) (Zlen ls0) (f_nused s)) as [t| | |] eqn:Et; [|rewrite wr_ok in Et by lia; done..].
  cbn [obind f_nused f_base f_np f_offs f_current f_cused f_labels f_biggest_pointer f_seen_pointer
       f_new_current f_done f_n].
  pose proof (table_write _ _ _ [] _ Hp Et Hnu) as [Hp' Ht'].
  destruct (nmax <? f_nused s + c + 1) eqn:Efull; bool_prop; cbn [step_ok].
  - destruct Hw as (Hw1 & _ & Hw2). unfold fw_post. rewrite bool_decide_eq_false_2 by (by case_if).
    cbn [f_base f_offs]. split_and!; [eauto|lia| |].
    { apply Hcont. by eapply we_room; [|done|lia..]; lia. }
    intros (ls & k & W) _. exists ls, k.
    split; [done|]. split; [|done].
    apply Hcont in W as (rest & k' & -> & -> & W). unfold labels_of.
    rewrite <- app_assoc, wire_app, Zlen_app.
    destruct (Z.eq_dec c 0) as [->|].
    + apply (wire_at_0 _ _ _ _ _ _ Hrd) in W as (_ & -> & _). cbn. len.
    + apply (wire_at_label _ _ Hact _ _ _ _ _ Hrd) in W as (Hlt & ls' & ? & -> & _); [|lia].
      cbn [app]. rewrite Zlen_wire_cons, Zlen_sub by lia. pose proof (Zlen_nonneg (wire (ls' ++ [[]]))). lia.
  - destruct (write_next s _ c Hw ltac:(unfold is_byte; lia)) as (base & -> & Hw1 & Hw2);
      [rewrite wire_fold_len; lia|]. cbn [obind].
    assert (Hnp : f_np s + 1 = used + Zlen (wire (map (fold_label downcase) ls0) ++ [c])).
    { destruct Hw as (_ & -> & _). rewrite Zlen_app. change (Zlen [c]) with 1. lia. }
    destruct (c =? 0) eqn:E0; bool_prop; cbn [step_ok].
    + subst c. split; [|unfold fw_measure; rewrite Ed, Est, En, Ese, Ebi; cbn; destruct (f_seen_pointer s); lia].
      apply (inv_done _ ls0); cbn; try done.
      * constructor; cbn; try done; lia.
      * unfold written. cbn. by rewrite labels_of_true, wire_snoc.
      * rewrite labels_of_true, wire_snoc, Zlen_app. change (Zlen [Zlen []]) with 1. lia.
      * apply Hcont. exists [], 1. rewrite app_nil_r. split_and!; [done|destruct (f_seen_pointer s); lia|].
        constructor; [lia|done].
    + split; [|unfold fw_measure; rewrite Ed, Est, En, Ese, Ebi; cbn; rewrite Hd; destruct (f_seen_pointer s); lia].
      apply (inv_ordinary _ ls0 c); cbn; rewrite ?Z.sub_diag, ?Z.sub_0_r; try done; try lia.
      * constructor; cbn; try done; lia.
      * unfold written. cbn. unfold fold_label at 2 4 6. unfold sub. cbn. by destruct downcase.
Qed.

(** The first character of a label or a pointer. *)
Lemma step_start s ls0 c :
  f_state s = fw_start -> f_done s = false -> inv_common s ls0 (Zlen ls0) ->
  written s (wire (map (fold_label downcase) ls0)) -> f_nused s = Zlen (wire ls0) ->
  offs 0 ls0 `prefix_of` f_offs s ->
  continues ls0 (f_biggest_pointer s) (f_current s) (f_cused s) (f_seen_pointer s) ->
  f_current s < active -> rd msg (f_current s) = Done c ->
  step_ok s (fw_body msg active allowed downcase nmax s).
Proof.
  intros Hst Hd [Hg Hl Ht Hn Hc Hbig] Hw Hnu Hp Hcont Hlt Hrd.
  unfold fw_body. rewrite (proj2 (Z.ltb_lt _ _) Hlt), Hd, Hrd. cbn [negb andb obind].
  rewrite Hst. cbn [f_state]. pose proof (rd_bytes _ _ _ Hmsg Hrd) as Hcb.
  pose proof (count_bound ls0 Hg ltac:(lia)) as Hcnt.
  pose proof (Zlen_nonneg (wire ls0)) as Hwn. unfold is_byte in Hcb.
  
  destruct (c <? 64) eqn:E64; bool_prop;
   [|unfold fw_case_start; rewrite (proj2 (Z.ltb_ge _ _) E64)].
  - apply (step_length _ s ls0); cbn; rewrite ?Z.add_simpl_r; try done; try lia.
    + constructor; cbn; try done; lia.
    + by destruct (f_seen_pointer s); rewrite ?Z.add_simpl_r.
  - destruct ((128 <=? c) && (c <? 192)) eqn:E1; [|destruct (192 <=? c) eqn:E2;
      [destruct (Z.land allowed _ =? 0) eqn:E3|]]; cbn [step_ok]; bool_prop.
    + eapply post_none; [done| | |exact Hcont|by eapply we_type; [done|done|lia]|]; cbn; eauto.
      intros _ ? ?. eapply wire_at_bad; [done|]. lia.
    + eapply post_none; [done| | |exact Hcont|by eapply we_disallowed|]; cbn; eauto.
    + split.
      * apply (inv_new _ ls0 c); cbn; try done.
        all: rewrite ?Z.add_simpl_r; try done; try lia.
        -- constructor; cbn; try done; lia.
        -- rewrite land_3f; lia.
        -- by destruct (f_seen_pointer s); rewrite ?Z.add_simpl_r.
      * unfold fw_measure. cbn. rewrite Hd, Hst. destruct (f_seen_pointer s); lia.
    + eapply post_none; [done| | |exact Hcont|by eapply we_type; [done|done|lia]|]; cbn; eauto.
      intros _ ? ?. eapply wire_at_bad; [done|]. lia.
Qed.

(** A character of a label. *)
Lemma step_ordinary s ls0 c x :
  let got := c - f_n s in
  let start := f_current s - got - 1 in
  f_state s = fw_ordinary -> f_done s = false -> inv_common s ls0 (Zlen ls0 + 1) ->
  1 <= f_n s <= c -> c <= 63 -> 0 <= start -> rd msg start = Done c ->
  written s (wire (map (fold_label downcase) ls0) ++ c :: fold_label downcase (sub msg (start + 1) got)) ->
  f_nused s = Zlen (wire ls0) + 1 + c ->
  offs 0 (ls0 ++ [[]]) `prefix_of` f_offs s ->
  continues ls0 (f_biggest_pointer s) start
    (if f_seen_pointer s then f_cused s else f_cused s - got - 1) (f_seen_pointer s) ->
  f_current s < active -> rd msg (f_current s) = Done x ->
  step_ok s (fw_body msg active allowed downcase nmax s).
Proof.
  intros got start Hst Hd [Hg Hl Ht Hn Hc Hbig] Hfn Hc63 Hs0 Hrs Hw Hnu Hp Hcont Hlt Hrd.
  unfold fw_body. rewrite (proj2 (Z.ltb_lt _ _) Hlt), Hd, Hrd. cbn [negb andb obind].
  rewrite Hst. cbn [f_state]. pose proof (rd_bytes _ _ _ Hmsg Hrd) as Hcb.
  set (x' := if downcase then tolower x else x).
  assert (Hx' : is_byte x') by (unfold x'; destruct downcase; [by apply tolower_byte|done]).
  assert (Hcur1 : f_current s = start + 1 + got) by lia.
  assert (Hsub : fold_label downcase (sub msg (start + 1) (got + 1)) = fold_label downcase (sub msg (start + 1) got) ++ [x']).
  { rewrite (sub_snoc _ _ _ x), fold_label_snoc by (rewrite <- ?Hcur1; first [done|lia]). done. }
  assert (Hlen : Zlen (fold_label downcase (sub msg (start + 1) got)) = got).
  { rewrite fold_label_len. apply Zlen_sub; lia. }
  unfold fw_case_copy. cbn [f_base f_np f_n].
  destruct (write_next s _ x' Hw Hx') as (base & Ew & Hw1 & Hw2).
  { rewrite Zlen_app, Zlen_cons, wire_fold_len. lia. }
  destruct Hw as (_ & Hnp & _).
  rewrite Ew. cbn [obind f_current f_cused f_nused f_labels f_new_current f_biggest_pointer
    f_seen_pointer f_done f_np f_offs]. rewrite u32_small by lia.
  rewrite <- !app_assoc in *. cbn [app] in *. rewrite <- Hsub in *.
  assert (Hnp' : f_np s + 1 = used + Zlen (wire (map (fold_label downcase) ls0) ++ c :: fold_label downcase (sub msg (start + 1) (got + 1)))).
  { rewrite Hnp, Hsub, !Zlen_app, !Zlen_cons, Zlen_app. change (Zlen [x']) with 1. lia. }
  split.
  - destruct (f_n s - 1 =? 0) eqn:E; bool_prop.
    + assert (Hgc : got + 1 = c) by lia. rewrite Hgc in *.
      set (l := sub msg (start + 1) c) in *.
      assert (Hll : Zlen l = c) by (apply Zlen_sub; lia).
      apply (inv_start _ (ls0 ++ [l])); cbn; try done.
      * constructor; cbn; rewrite ?Zlen_app; try done; try lia.
        apply Forall_app. split; [done|]. constructor; [|done]. split; [by apply bytes_sub|lia].
      * unfold written. cbn. rewrite map_app. cbn [map]. by rewrite wire_snoc, fold_label_len, Hll.
      * rewrite wire_snoc, Zlen_app, Zlen_cons. lia.
      * rewrite offs_app in *. done.
      * pose proof (continues_label _ _ _ _ _ _ Hcont Hrs ltac:(lia) ltac:(lia) ltac:(lia)) as H.
        replace (start + 1 + c) with (f_current s + 1) in H by lia.
        destruct (f_seen_pointer s); [done|].
        replace (f_cused s - got - 1 + 1 + c) with (f_cused s + 1) in H by lia. done.
    + apply (inv_ordinary _ ls0 c); cbn; try done; try lia.
      all: replace (c - (f_n s - 1)) with (got + 1) by lia;
           replace (f_current s + 1 - (got + 1) - 1) with start by lia; try done; try lia.
      * constructor; cbn; try done; lia.
      * destruct (f_seen_pointer s); [done|].
        replace (f_cused s + 1 - (got + 1) - 1) with (f_cused s - got - 1) by lia. done.
  - unfold fw_measure. cbn. rewrite Hd, Hst. destruct (f_seen_pointer s), (f_n s - 1 =? 0) eqn:E; lia.
Qed.

(** The second octet of a pointer. *)
Lemma step_newcurrent s ls0 c1 c2 :
  f_state s = fw_newcurrent -> f_done s = false -> inv_common s ls0 (Zlen ls0) ->
  f_n s = 1 -> f_new_current s = c1 - 192 -> 192 <= c1 < 256 -> 1 <= f_current s <= active ->
  Z.land allowed DNS_COMPRESS_GLOBAL14 <> 0 -> rd msg (f_current s - 1) = Done c1 ->
  written s (wire (map (fold_label downcase) ls0)) -> f_nused s = Zlen (wire ls0) ->
  offs 0 ls0 `prefix_of` f_offs s ->
  continues ls0 (f_biggest_pointer s) (f_current s - 1)
    (if f_seen_pointer s then f_cused s else f_cused s - 1) (f_seen_pointer s) ->
  f_current s < active -> rd msg (f_current s) = Done c2 ->
  step_ok s (fw_body msg active allowed downcase nmax s).
Proof.
  intros Hst Hd [Hg Hl Ht Hn Hc Hbig] Hfn Hnew Hc1 Hcur1 Ha Hr1 Hw Hnu Hp Hcont Hlt Hrd.
  pose proof (rd_bytes _ _ _ Hmsg Hrd) as Hcb. unfold is_byte in Hcb.
  unfold fw_body. rewrite (proj2 (Z.ltb_lt _ _) Hlt), Hd, Hrd. cbn [negb andb obind].
  rewrite Hst. cbn [f_state]. unfold fw_case_newcurrent. cbn -[u32]. rewrite Hfn, Hnew.
  change (u32 (1 - 1)) with 0. cbn [Z.eqb negb].
  rewrite (u32_small ((c1 - 192) * 256)), u32_small by lia.
  replace (f_current s) with (f_current s - 1 + 1) in Hrd by lia.
  destruct (f_biggest_pointer s <=? (c1 - 192) * 256 + c2) eqn:E; bool_prop; cbn [step_ok].
  - eapply post_none; [done| | |exact Hcont|by eapply we_target; [|done|done|..]; first [done|lia]|]; cbn; eauto. intros _ rest k W.
    apply (wire_at_pointer _ _ _ _ _ _ _ Hr1) in W as (_ & _ & c2' & k' & E2 & Hb & _); [|lia].
    rewrite Hrd in E2. injection E2 as <-. lia.
  - split.
    + apply (inv_start _ ls0); cbn; try done.
      * constructor; cbn; try done; lia.
      * pose proof (continues_pointer _ _ _ _ _ _ _ Hcont Hr1 ltac:(lia) ltac:(lia) Hrd E Ha) as H.
        destruct (f_seen_pointer s); [done|]. replace (f_cused s + 1) with (f_cused s - 1 + 2) by lia. done.
    + unfold fw_measure. cbn. rewrite Hd, Hst. destruct (f_seen_pointer s); lia.
Qed.


Lemma step_exit s : inv s -> active <= f_current s \/ f_done s = true ->
  step_ok s (fw_body msg active allowed downcase nmax s).
Proof.
  intros Hinv Hex. unfold fw_body.
  assert (((f_current s <? active) && negb (f_done s)) = false) as ->.
  { destruct Hex as [?| ->]; [|apply andb_false_r]. apply andb_false_iff. lia. }
  cbn [step_ok]. destruct Hinv as [ls0 Hst Hd [] Hw _ _ Hc|ls0 c got start Hst Hd [] Hn Hc63 Hs Hcur1 Hr Hw Hnu _ Hc
    |ls0 c1 Hst Hd [] _ _ Hc1 Hcur1 Ha Hr Hw _ _ Hc|ls0 Hd [] Hw Hnu Hp W]; rewrite Hd in *.
  - destruct Hex as [Hex|]; [|done]. eapply post_none; [done|done|done|exact Hc|by apply we_end|].
    intros _ ? ?. by apply wire_at_end.
  - destruct Hex as [Hex|]; [|done]. eapply post_none; [done|done|done|exact Hc|eapply we_cut; [|done|lia..]; lia|].
    intros _ rest k W.
    apply (wire_at_label _ _ Hact _ _ _ _ _ Hr) in W as (Hlt & _); lia.
  - destruct Hex as [Hex|]; [|done]. eapply post_none; [done|done|done|exact Hc|eapply we_half; [|done|lia..]; lia|].
    intros _ rest k W.
    apply (wire_at_pointer _ _ _ _ _ _ _ Hr) in W as (Hlt & _); lia.
  - destruct Hw as (Hw1 & _ & Hw2). cbn. split_and!; [eauto|done|]. exists ls0.
    split_and!; try done; [lia|]. unfold labels_of. rewrite Zlen_app. done.
Qed.

Lemma step_inv s : inv s -> step_ok s (fw_body msg active allowed downcase nmax s).
Proof.
  intros Hinv. destruct (Z_lt_ge_dec (f_current s) active) as [Hlt|];
    [|apply step_exit; [done|left; lia]].
  destruct (f_done s) eqn:Hd; [apply step_exit; auto|].
  assert (0 <= f_current s) by (by destruct Hinv as [? ? ? []|? ? ? ? ? ? []|? ? ? ? []|? ? []]).
  destruct (rd_ok msg (f_current s)) as [x Hx]; [lia|].
  destruct Hinv as [ls0 ? ? []|ls0 c ? ? ? ? []|ls0 c1 ? ? []|]; [| | |congruence].
  - by eapply (step_start s ls0 x).
  - by eapply (step_ordinary s ls0 c x).
  - by eapply (step_newcurrent s ls0 c1 x).
Qed.

(** The loop ends within its fuel and establishes [fw_post]. *)
Lemma fw_loop_spec tbl : bytes tbase -> 128 <= Zlen tbl ->
  exists r, loop fw_fuel (fw_body msg active allowed downcase nmax)
    (mkfw fw_start cur0 0 0 0 0 0 cur0 false false used tbase tbl) = Done r /\ fw_post r.
Proof.
  intros Hb Ht. apply (loop_rule _ inv fw_measure fw_post).
  - intros s Hs. pose proof (step_inv s Hs) as H. unfold step_ok in H.
    by destruct (fw_body _ _ _ _ _ _) as [[?|?]| | |].
  - apply (inv_start _ []); cbn; try done.
    + constructor; cbn; try done. lia.
    + unfold written. cbn. rewrite blit_nil by lia. split_and!; [done|len|constructor].
    + apply prefix_nil.
    + split; [|done]. intros ls k. cbn. split; [eauto 10|]. by intros (? & ? & -> & -> & ?).
  - unfold fw_measure, fw_fuel. cbn. rewrite Z2Nat.id by lia. lia.
Qed.
End fw_loop.

(** ** Properties of the specification *)

Lemma wire_at_det msg active big pos ls k : wire_at msg active big pos ls k ->
  forall ls' k', wire_at msg active big pos ls' k' -> ls = ls' /\ k = k'.
Proof.
  induction 1 as [big pos Hlt Hr|big pos l ls k Hl Hlt Hr Hs W IH|big pos c1 c2 ls k Hlt H1 H2 Hc Hb W IH];
    intros ls' k' W'; inversion W'; subst; try (rewrite Hr in *; simplify_eq; lia);
    try (rewrite H1 in *; simplify_eq; lia); try done.
  - assert (Zlen l = Zlen l0) as El by (rewrite Hr in *; by simplify_eq).
    rewrite El in *. destruct (IH _ _ H3) as [-> ->]. split; [|done]. f_equal. congruence.
  - rewrite H1, H2 in *. simplify_eq. split; [|done]. by eapply IH.
Qed.

Lemma wire_at_bound msg active big pos ls k : wire_at msg active big pos ls k ->
  1 <= k /\ pos + k <= active.
Proof. induction 1; lia. Qed.

(** ** The whole function *)

Definition downcase_of (options : Z) : bool := negb (Z.land options DNS_NAME_DOWNCASE =? 0).

(** Octets of name data the target can take. *)
Definition room (target : isc_buffer_t) : Z :=
  Z.min DNS_NAME_MAXWIRE (b_length target - b_used target).

(** The name spelled at the current position of a message. *)
Definition spelled (source : isc_buffer_t) (ls : list (list Z)) (k : Z) : Prop :=
  wire_at (b_base source) (b_active source) (b_current source) (b_current source) ls k.

(** What is wrong with the name at the current position of a message. *)
Definition misspelled (source : isc_buffer_t) (allowed room : Z) (res : isc_result_t) : Prop :=
  wire_error (b_base source) (b_active source) allowed room (b_current source) (b_current source) 0 res.

(** What the call leaves behind on success and on failure. *)
Definition fromwire_ok (source target : isc_buffer_t) (downcase : bool) (n' : dns_name_t)
    (source' target' : isc_buffer_t) : Prop :=
  exists ls k, spelled source ls k /\ Zlen (wire (labels_of ls true)) <= room target /\
    wf_name n' (map (fold_label downcase) ls) true /\
    source' = set_current source (b_current source + k) /\ wf_buffer source' /\
    appended target target' (ndata n').

Definition fromwire_failed (source target : isc_buffer_t) (allowed : Z) (res : isc_result_t)
    (n' : dns_name_t) (source' target' : isc_buffer_t) : Prop :=
  misspelled source allowed (room target) res /\
  ndata n' = [] /\ labels n' = 0 /\ dns_name_isabsolute n' = false /\ source' = source /\
  isc_buffer_usedregion target' = isc_buffer_usedregion target /\ b_used target' = b_used target /\
  forall ls k, spelled source ls k -> Z.land allowed DNS_COMPRESS_GLOBAL14 <> 0 ->
    room target < Zlen (wire (labels_of ls true)) /\
    res = if room target =? DNS_NAME_MAXWIRE then DNS_R_NAMETOOLONG else ISC_R_NOSPACE.

Lemma blit_failed t base w : wf_buffer t -> bytes w -> blit (b_base t) (b_used t) w = Done base ->
  wf_buffer (set_base t base) /\ isc_buffer_usedregion (set_base t base) = isc_buffer_usedregion t.
Proof.
  intros Ht Hw Hb. destruct (append_spec t w base Ht Hw Hb) as (_ & _ & _ & H & _).
  pose proof (Zlen_blit _ _ _ _ Hb). destruct Ht as [T1 T2 T3 T4 T5]. split.
  - constructor; cbn; try done; [exact (bytes_blit _ _ _ _ T1 Hw Hb)|unfold b_length in *; cbn; lia..].
  - unfold isc_buffer_usedregion, sub. cbn. by rewrite !drop_0.
Qed.

Lemma wf_empty_abs n : dns_name_isabsolute (MAKE_EMPTY n) = false.
Proof.
  unfold dns_name_isabsolute, attr_set, MAKE_EMPTY. cbn [attributes]. by rewrite set_absolute_land.
Qed.

Lemma Zlen_map {A B} (f : A -> B) l : Zlen (map f l) = Zlen l.
Proof. len. Qed.

Lemma offs_fold downcase ls : forall o, offs o (map (fold_label downcase) ls) = offs o ls.
Proof.
  induction ls as [|l ls IH]; intros o; [done|]. cbn [map offs]. by rewrite IH, fold_label_len.
Qed.

Lemma fromwire_into_spec n source dctx options target :
  wf_buffer source -> wf_buffer target -> name_target n 128 ->
  exists res n' source' target',
    fromwire_into n source dctx options target = Done (res, n', source', target') /\
    wf_buffer target' /\ buffer n' = buffer n /\
    if bool_decide (res = ISC_R_SUCCESS)
    then fromwire_ok source target (downcase_of options) n' source' target'
    else fromwire_failed source target (d_allowed dctx) res n' source' target'.
Proof.
  intros Hs Ht [Hb Ho]. pose proof Hs as [S1 S2 S3 S4 S5]. pose proof Ht as [T1 T2 T3 T4 T5].
  unfold fromwire_into. rewrite Hb. cbn [require obind].
  assert (Hroom : (if DNS_NAME_MAXWIRE <? isc_buffer_availablelength target then DNS_NAME_MAXWIRE
                   else isc_buffer_availablelength target) = room target).
  { unfold room, isc_buffer_availablelength. rewrite u32_small by lia. unfold DNS_NAME_MAXWIRE. case_if; lia. }
  rewrite Hroom. change (negb (Z.land options DNS_NAME_DOWNCASE =? 0)) with (downcase_of options).
  set (tbl := match offsets n with Some t => t | None => odata end).
  assert (128 <= Zlen tbl) by (unfold tbl; destruct (offsets n); [done|by vm_compute]).
  assert (Hr : 0 <= room target <= 255 /\ b_used target + room target <= b_length target)
    by (unfold room, DNS_NAME_MAXWIRE; lia).
  destruct (fw_loop_spec (b_base source) (b_active source) (d_allowed dctx) (room target)
    (b_current source) (b_used target) (downcase_of options) (b_base target)) with (tbl := tbl)
    as ([res s] & E & (w & Hw1 & Hw2) & Hlen & Hpost); try done; try (unfold b_length in *; lia); [].

  rewrite E. cbn [obind].
  destruct (blit_failed target (f_base s) w Ht Hw2 Hw1) as [Hwf Hused].
  destruct (bool_decide (res = ISC_R_SUCCESS)) eqn:Eres.
  - destruct Hpost as (ls & W & Hfit & Hblit & Hn & Hlab & Hoffs).
    set (body := map (fold_label (downcase_of options)) ls) in *.
    pose proof (wire_at_good _ _ S1 _ _ _ _ W) as Hg. pose proof (wire_at_bound _ _ _ _ _ _ W) as Hk.
    assert (Hbody : Forall good_label body).
    { apply Forall_map. eapply Forall_impl; [exact Hg|]. intros. by apply fold_label_good. }
    assert (Hlw : Zlen (wire (labels_of body true)) = f_nused s).
    { unfold body. rewrite labels_fold, wire_fold_len. lia. }
    pose proof (bytes_wire body true Hbody) as Hwb.
    destruct (append_spec target _ _ Ht Hwb Hblit) as (Hwf' & _ & _ & _ & Hsub).
    destruct (forward_spec source (f_cused s) Hs) as [-> Hfwd]; [lia|lia|]. cbn [obind].
    cbn [b_base b_used set_base]. rewrite <- Hlw, Hsub. unfold n_length. cbn [ndata].
    rewrite (add_after_blit target _ _ Ht Hblit). cbn [obind].
    do 4 eexists. split; [reflexivity|]. split_and!; [done|done|]. cbn [bool_decide].
    exists ls, (f_cused s). split_and!; try done.
    + constructor; cbn; try done.
      * unfold n_length. cbn. lia.
      * rewrite Hlab. unfold labels_of, body. by rewrite !Zlen_app, Zlen_map.
      * apply (set_absolute_land (set_absolute (attributes n) false) true).
      * unfold put_offsets. cbn. destruct (offsets n); [|done]. unfold body. by rewrite labels_fold, offs_fold.
    + by exists (f_base s).
  - do 4 eexists. split; [reflexivity|]. rewrite Eres. split_and!; [exact Hwf|done|].
    destruct Hpost as [Hwhy Hpost].
    split_and!; try done; [apply (wf_empty_abs n)|]. intros ls k W Ha.
    destruct Hpost as (ls' & k' & W' & Hlt & Hres); [eauto|done|].
    destruct (wire_at_det _ _ _ _ _ _ W _ _ W') as [<- <-]. done.
Qed.

Lemma fromwire_complete_spec n b source dctx options ls k :
  wf_buffer source -> wf_buffer b -> name_target n 128 -> buffer n = Some b ->
  dns_decompress_getmethods dctx = DNS_COMPRESS_ALL ->
  spelled source ls k -> Zlen (wire (labels_of ls true)) <= Z.min 255 (b_length b) ->
  exists n',
    dns_name_fromwire n source dctx options None =
      Done (ISC_R_SUCCESS, n', set_current source (b_current source + k), None) /\
    wf_name n' (map (fold_label (downcase_of options)) ls) true.
Proof.
  intros Hs Hb Hn Eb Hd W Hlen.
  assert (Hc : wf_buffer (isc_buffer_clear b)).
  { destruct Hb. constructor; cbn; try done; unfold b_length in *; cbn; lia. }
  destruct (fromwire_into_spec n source dctx options _ Hs Hc Hn)
    as (res & n' & s' & t' & E & _ & Hbuf & H).
  unfold dns_name_fromwire, select_target. rewrite Eb. cbn [obind]. rewrite E. cbn [obind give_back].
  unfold dns_decompress_getmethods in Hd.
  destruct (bool_decide (res = ISC_R_SUCCESS)) eqn:Er.
  - apply bool_decide_eq_true in Er as ->. destruct H as (ls' & k' & W' & _ & Hwf & -> & _ & _).
    destruct (wire_at_det _ _ _ _ _ _ W _ _ W') as [<- <-].
    eexists. split; [reflexivity|]. destruct Hwf. by constructor.
  - exfalso. destruct H as (_ & _ & _ & _ & _ & _ & _ & H). rewrite Hd in H.
    destruct (H ls k W) as [Hlt _]; [done|]. unfold room, DNS_NAME_MAXWIRE, b_length in *. cbn in Hlt. lia.
Qed.

(** C1. [dns_name_fromwire] is total on arbitrary input: for any message, well
    formed or hostile, it returns (no assertion fails, no octet outside the
    message, the target or the offsets table is touched, and pointer loops
    end).  On success the name is the one spelled at the current position by
    RFC 1035 section 4.1.4 with pointers that strictly decrease, case folded
    when asked; the source advances past its first occurrence only and the
    target receives exactly its uncompressed form.  On failure the result code
    is the one of what is wrong at the first octet, in the order of reading,
    from which the name cannot go on: UNEXPECTEDEND where the message ends
    within the name, BADLABELTYPE for a label octet from 64 to 191, NAMETOOLONG
    (room of 255 octets) or NOSPACE (less) for a label that does not fit,
    DISALLOWED for a pointer where the context allows none, BADPOINTER for one
    that does not point strictly below; the name is empty and neither the
    source nor the used part of the target changes; with compression allowed
    and a name spelled there, the only failure is lack of room. *)
Theorem fromwire_correct (n : dns_name_t) (source target : isc_buffer_t) (dctx : dns_decompress_t)
    (options : Z) :
  wf_buffer source -> wf_buffer target -> name_target n 128 ->
  exists res n' source' target',
    dns_name_fromwire n source dctx options (Some target) = Done (res, n', source', Some target') /\
    wf_buffer target' /\
    if bool_decide (res = ISC_R_SUCCESS)
    then fromwire_ok source target (downcase_of options) n' source' target'
    else fromwire_failed source target (d_allowed dctx) res n' source' target'.
Proof.
  intros Hs Ht Hn.
  destruct (fromwire_into_spec n source dctx options target Hs Ht Hn) as (res & n' & s' & t' & E & Hwf & _ & H).
  exists res, n', s', t'. split_and!; [|done|done].
  unfold dns_name_fromwire. cbn [select_target obind]. by rewrite E.
Qed.

(** C2. A name that is spelled in the message is read, with or without
    compression pointers, when the context allows pointers and the dedicated
    buffer of the name can hold it. *)
Theorem fromwire_complete (n : dns_name_t) (b source : isc_buffer_t) (dctx : dns_decompress_t)
    (options : Z) (ls : list (list Z)) (k : Z) :
  wf_buffer source -> wf_buffer b -> name_target n 128 -> buffer n = Some b ->
  dns_decompress_getmethods dctx = DNS_COMPRESS_ALL ->
  spelled source ls k -> Zlen (wire (labels_of ls true)) <= Z.min 255 (b_length b) ->
  exists n',
    dns_name_fromwire n source dctx options None =
      Done (ISC_R_SUCCESS, n', set_current source (b_current source + k), None) /\
    wf_name n' (map (fold_label (downcase_of options)) ls) true.
Proof. apply fromwire_complete_spec. Qed.

(** ** Examples

    A message that holds [ex.] at offset 0 and [www.ex.] with a pointer to it
    at offset 4. *)
Definition ex_message : list Z := [2; 69; 88; 0; 3; 119; 119; 119; 192; 0].
Definition ex_source : isc_buffer_t := mkbuffer ex_message 10 4 10.
Definition ex_dctx : dns_decompress_t := mkdctx DNS_COMPRESS_ALL 0 DNS_DECOMPRESS_ANY.
Definition ex_target : isc_buffer_t := isc_buffer_init (replicate 20 0).

Lemma ex_spelled : spelled ex_source [[119; 119; 119]; [69; 88]] 6.
Proof.
  change 6 with (1 + Zlen [119; 119; 119] + 2). unfold spelled. cbn [b_base b_active b_current ex_source].
  apply wa_label; [split; vm_compute; discriminate|reflexivity..|].
  apply (wa_pointer _ _ _ _ 192 0 _ 4); [reflexivity..|vm_compute; discriminate|reflexivity|].
  change 4 with (1 + Zlen [69; 88] + 1).
  apply wa_label; [split; vm_compute; discriminate|reflexivity..|].
  apply wa_root; reflexivity.
Qed.

Lemma fromwire_correct_witness :
  exists n' source' target',
    dns_name_fromwire (dns_name_init (Some odata)) ex_source ex_dctx DNS_NAME_DOWNCASE (Some ex_target)
      = Done (ISC_R_SUCCESS, n', source', Some target') /\
    fromwire_ok ex_source ex_target true n' source' target'.
Proof.
  destruct (fromwire_correct (dns_name_init (Some odata)) ex_source ex_target ex_dctx DNS_NAME_DOWNCASE)
    as (res & n' & s' & t' & E & _ & H).
  - apply wf_bufferb_spec. reflexivity.
  - apply wf_bufferb_spec. reflexivity.
  - split; [reflexivity|vm_compute; discriminate].
  - assert (Er : res = ISC_R_SUCCESS) by (vm_compute in E; congruence). subst res.
    exists n', s', t'. split; [exact E|exact H].
Defined.

Lemma fromwire_complete_witness :
  exists n', dns_name_fromwire fixedname ex_source ex_dctx DNS_NAME_DOWNCASE None =
      Done (ISC_R_SUCCESS, n', set_current ex_source 10, None) /\
    wf_name n' [[119; 119; 119]; [101; 120]] true.
Proof.
  apply (fromwire_complete fixedname (isc_buffer_init (replicate 300 0)) ex_source ex_dctx
           DNS_NAME_DOWNCASE [[119; 119; 119]; [69; 88]] 6).
  - apply wf_bufferb_spec. reflexivity.
  - apply wf_bufferb_spec. reflexivity.
  - split; [reflexivity|vm_compute; discriminate].
  - reflexivity.
  - reflexivity.
  - exact ex_spelled.
  - vm_compute. discriminate.
Defined.
