(* ===== verification/Rdata.v ===== *)
(** * Record data

    The parts of [lib/dns/rdata.c] that the message parser uses.  The functions for
    the single record types are called through [switch] statements that the build
    generates from the files of [lib/dns/rdata]; they are the class [RdataTypes], and
    [RdataTypesOk] is what the message parser relies on. *)

From S2P Require Import Prelude Buffer Name NameTheory FromWire.

(** ** Data *)

Record dns_rdata := mkRdata {
  rdata_data : list Z;
  rdata_class : Z;
  rdata_type : Z;
  rdata_flags : Z
}.

Definition dns_rdata_init : dns_rdata := mkRdata [] 0 0 0.

Definition DNS_RDATA_UPDATE : Z := 0x0001.
Definition DNS_RDATA_MAXLENGTH : Z := 65512.

Definition dns_rdatatype_soa : Z := 6.
Definition dns_rdatatype_sig : Z := 24.
Definition dns_rdatatype_opt : Z := 41.
Definition dns_rdatatype_rrsig : Z := 46.
Definition dns_rdatatype_dnskey : Z := 48.
Definition dns_rdatatype_tkey : Z := 249.
Definition dns_rdatatype_tsig : Z := 250.
Definition dns_rdataclass_none : Z := 254.
Definition dns_rdataclass_any : Z := 255.

Definition DNS_RDATATYPEATTR_SINGLETON : Z := 0x00000001.
Definition DNS_RDATATYPEATTR_QUESTIONONLY : Z := 0x00000080.

(** ** The generated code *)

(** [FROMWIRESWITCH] returns the result, the source, the target and [use_default];
    [COMPARESWITCH] the order, or nothing for [use_default]. *)
Class RdataTypes := {
  fromwire_switch : Z -> Z -> isc_buffer_t -> dns_decompress_t -> Z -> isc_buffer_t ->
    outcome (isc_result_t * isc_buffer_t * isc_buffer_t * bool);
  compare_switch : dns_rdata -> dns_rdata -> option Z;
  dns_rdatatype_attributes : Z -> Z
}.

Section rdata.
Context `{RdataTypes}.

Definition dns_rdatatype_issingleton (type : Z) : bool :=
  negb (Z.land (dns_rdatatype_attributes type) DNS_RDATATYPEATTR_SINGLETON =? 0).

Definition dns_rdatatype_questiononly (type : Z) : bool :=
  negb (Z.land (dns_rdatatype_attributes type) DNS_RDATATYPEATTR_QUESTIONONLY =? 0).

(** [memcmp] on the common length, then the lengths. *)
Fixpoint isc_region_compare (r1 r2 : list Z) : Z :=
  match r1, r2 with
  | [], [] => 0
  | [], _ :: _ => -1
  | _ :: _, [] => 1
  | c1 :: r1, c2 :: r2 => if c1 <? c2 then -1 else if c2 <? c1 then 1 else isc_region_compare r1 r2
  end.

Definition dns_rdata_compare (rdata1 rdata2 : dns_rdata) : Z :=
  if negb (rdata_class rdata1 =? rdata_class rdata2) then
    if rdata_class rdata1 <? rdata_class rdata2 then -1 else 1
  else if negb (rdata_type rdata1 =? rdata_type rdata2) then
    if rdata_type rdata1 <? rdata_type rdata2 then -1 else 1
  else
    match compare_switch rdata1 rdata2 with
    | Some result => result
    | None => isc_region_compare (rdata_data rdata1) (rdata_data rdata2)
    end.

Definition uint16_fromregion (r : list Z) : outcome Z :=
  REQUIRE 2 <=? Zlen r ;;
  let* c0 := rd r 0 in
  let* c1 := rd r 1 in
  Done (Z.lor (Z.shiftl c0 8) c1).

Definition covers_rrsig (rdata : dns_rdata) : outcome Z :=
  REQUIRE rdata_type rdata =? 46 ;; uint16_fromregion (rdata_data rdata).

Definition covers_sig (rdata : dns_rdata) : outcome Z :=
  REQUIRE rdata_type rdata =? 24 ;; uint16_fromregion (rdata_data rdata).

Definition dns_rdata_covers (rdata : dns_rdata) : outcome Z :=
  if rdata_type rdata =? 46 then covers_rrsig rdata else covers_sig rdata.

(** [isc_buffer_activelength] *)
Definition isc_buffer_activelength (b : isc_buffer_t) : Z := u32 (b_active b - b_current b).

Definition buffer_empty (source : isc_buffer_t) : bool := b_current source =? b_active source.

(** The result, the data on success, the source and the target. *)
Definition dns_rdata_fromwire (rdclass type : Z) (source : isc_buffer_t) (dctx : dns_decompress_t) (options : Z)
    (target : isc_buffer_t) : outcome (isc_result_t * option dns_rdata * isc_buffer_t * isc_buffer_t) :=
  if type =? 0 then Done (DNS_R_FORMERR, None, source, target)
  else
    let ss := source in
    let st := target in
    let activelength := isc_buffer_activelength source in
    REQUIRE activelength <? 65536 ;;
    let* (result, source, target, use_default) := fromwire_switch rdclass type source dctx options target in
    let* (result, source, target) :=
      (if use_default : bool then
         if isc_buffer_availablelength target <? activelength then Done (ISC_R_NOSPACE, source, target)
         else
           let* target := isc_buffer_putmem target (sub (b_base source) (b_current source) activelength) in
           let* source := isc_buffer_forward source activelength in
           Done (ISC_R_SUCCESS, source, target)
       else Done (result, source, target)) in
    let length := b_used target - b_used st in
    let result := if bool_decide (result = ISC_R_SUCCESS) && (DNS_RDATA_MAXLENGTH <? length)
                  then DNS_R_FORMERR else result in
    let result := if bool_decide (result = ISC_R_SUCCESS) && negb (buffer_empty source)
                  then DNS_R_EXTRADATA else result in
    if bool_decide (result = ISC_R_SUCCESS)
    then Done (result, Some (mkRdata (sub (b_base target) (b_used st) length) rdclass type 0), source, target)
    else Done (result, None, ss, st).
End rdata.

(** ** What the parser relies on *)

(** The octets of [b'] after [b] were appended to it. *)
Record extends_buffer (b b' : isc_buffer_t) : Prop := {
  xb_wf : wf_buffer b';
  xb_length : b_length b' = b_length b;
  xb_used : b_used b <= b_used b';
  xb_same : isc_buffer_usedregion b = sub (b_base b') 0 (b_used b)
}.

(** The code of a type reads from the active region, writes behind the used part of
    the target, and returns; signatures have a type covered. *)
Class RdataTypesOk `{RdataTypes} : Prop := {
  switch_returns : forall rdclass type source dctx options target,
    wf_buffer source -> wf_buffer target -> b_current source <= b_active source ->
    exists result source' target' use_default,
      fromwire_switch rdclass type source dctx options target = Done (result, source', target', use_default)
      /\ (use_default = true -> source' = source /\ target' = target)
      /\ (exists k, 0 <= k <= b_active source - b_current source /\ source' = set_current source (b_current source + k))
      /\ extends_buffer target target'
      /\ (result = ISC_R_SUCCESS -> use_default = false ->
          type = dns_rdatatype_sig \/ type = dns_rdatatype_rrsig -> b_used target + 2 <= b_used target')
      /\ (type = dns_rdatatype_sig \/ type = dns_rdatatype_rrsig -> use_default = false)
}.
