(* ===== verification/Message.v ===== *)
(** * Messages

    The parser of [lib/dns/message.c]: the header, the question section, the sections
    of records, which are grouped by owner name and type, and the records that are
    kept apart (OPT, TSIG and SIG(0)).  Names and rdatasets come from the pools of
    the message; [m_names] and [m_rdatasets] count what was taken and not put back.
    Whether an allocation succeeds is the answer of [mem] to its number. *)

From S2P Require Import Prelude Buffer Name NameTheory FromWire Rdata.

(** ** Data *)

Definition DNS_SECTION_ANY : Z := -1.
Definition DNS_SECTION_QUESTION : Z := 0.
Definition DNS_SECTION_ANSWER : Z := 1.
Definition DNS_SECTION_AUTHORITY : Z := 2.
Definition DNS_SECTION_ADDITIONAL : Z := 3.
Definition DNS_SECTION_PREREQUISITE : Z := DNS_SECTION_ANSWER.
Definition DNS_SECTION_UPDATE : Z := DNS_SECTION_AUTHORITY.

Definition DNS_MESSAGE_OPCODE_MASK : Z := 0x7800.
Definition DNS_MESSAGE_OPCODE_SHIFT : Z := 11.
Definition DNS_MESSAGE_RCODE_MASK : Z := 0x000f.
Definition DNS_MESSAGE_FLAG_MASK : Z := 0x8ff0.
Definition DNS_MESSAGE_EDNSRCODE_MASK : Z := 0xff000000.
Definition DNS_MESSAGEFLAG_QR : Z := 0x8000.
Definition DNS_MESSAGE_HEADERLEN : Z := 12.
Definition DNS_MESSAGE_INTENTPARSE : Z := 1.
Definition DNS_MESSAGE_INTENTRENDER : Z := 2.
Definition DNS_MESSAGEPARSE_PRESERVEORDER : Z := 0x0001.
Definition DNS_MESSAGEPARSE_BESTEFFORT : Z := 0x0002.
Definition DNS_MESSAGEPARSE_CLONEBUFFER : Z := 0x0004.
Definition DNS_MESSAGEPARSE_IGNORETRUNCATION : Z := 0x0008.
Definition SCRATCHPAD_SIZE : Z := 512.
Definition DNS_RDATASETATTR_QUESTION : Z := 0x00000001.
Definition DNS_RDATASETATTR_TTLADJUSTED : Z := 0x00000200.
Definition dns_opcode_update : Z := 5.

(** [dns_rdatalist_t] *)
Record dns_rdatalist := mkRdatalist {
  rdl_class : Z;
  rdl_type : Z;
  rdl_covers : Z;
  rdl_ttl : Z;
  rdl_rdata : list dns_rdata
}.

(** [dns_rdataset_t] over an rdatalist ([private1]). *)
Record dns_rdataset := mkRdataset {
  rds_class : Z;
  rds_type : Z;
  rds_covers : Z;
  rds_ttl : Z;
  rds_attributes : Z;
  rds_list : dns_rdatalist
}.

(** A name of a section with its list of rdatasets. *)
Record msgname := mkMsgname {
  mn_name : dns_name_t;
  mn_list : list dns_rdataset
}.

Record dns_message := mkMessage {
  m_id : Z;
  m_flags : Z;
  m_rcode : Z;
  m_opcode : Z;
  m_rdclass : Z;
  m_counts : list Z;
  m_sections : list (list msgname);
  m_opt : option dns_rdataset;
  m_sig0 : option (dns_rdataset * dns_name_t);    (* sig0, sig0name *)
  m_tsig : option (dns_rdataset * dns_name_t);    (* tsig, tsigname *)
  m_state : Z;
  m_from_to_wire : Z;
  m_header_ok : bool;
  m_question_ok : bool;
  m_sigstart : Z;
  m_saved : list Z;
  m_free_saved : bool;
  m_scratchpad : list isc_buffer_t;
  m_names : Z;
  m_rdatasets : Z;
  m_allocs : Z
}.

Definition with_header (id flags rcode opcode : Z) (counts : list Z) (m : dns_message) : dns_message :=
  mkMessage id flags rcode opcode (m_rdclass m) counts (m_sections m) (m_opt m) (m_sig0 m) (m_tsig m) (m_state m)
    (m_from_to_wire m) (m_header_ok m) (m_question_ok m) (m_sigstart m) (m_saved m) (m_free_saved m) (m_scratchpad m)
    (m_names m) (m_rdatasets m) (m_allocs m).
Definition with_class (rdclass state : Z) (m : dns_message) : dns_message :=
  mkMessage (m_id m) (m_flags m) (m_rcode m) (m_opcode m) rdclass (m_counts m) (m_sections m) (m_opt m) (m_sig0 m)
    (m_tsig m) state (m_from_to_wire m) (m_header_ok m) (m_question_ok m) (m_sigstart m) (m_saved m) (m_free_saved m)
    (m_scratchpad m) (m_names m) (m_rdatasets m) (m_allocs m).
Definition with_sections (sections : list (list msgname)) (m : dns_message) : dns_message :=
  mkMessage (m_id m) (m_flags m) (m_rcode m) (m_opcode m) (m_rdclass m) (m_counts m) sections (m_opt m) (m_sig0 m)
    (m_tsig m) (m_state m) (m_from_to_wire m) (m_header_ok m) (m_question_ok m) (m_sigstart m) (m_saved m)
    (m_free_saved m) (m_scratchpad m) (m_names m) (m_rdatasets m) (m_allocs m).
(** [msg->opt] with the extended rcode. *)
Definition with_opt (opt : dns_rdataset) (rcode : Z) (m : dns_message) : dns_message :=
  mkMessage (m_id m) (m_flags m) rcode (m_opcode m) (m_rdclass m) (m_counts m) (m_sections m) (Some opt) (m_sig0 m)
    (m_tsig m) (m_state m) (m_from_to_wire m) (m_header_ok m) (m_question_ok m) (m_sigstart m) (m_saved m)
    (m_free_saved m) (m_scratchpad m) (m_names m) (m_rdatasets m) (m_allocs m).
Definition with_sigs (sig0 tsig : option (dns_rdataset * dns_name_t)) (m : dns_message) : dns_message :=
  mkMessage (m_id m) (m_flags m) (m_rcode m) (m_opcode m) (m_rdclass m) (m_counts m) (m_sections m) (m_opt m) sig0
    tsig (m_state m) (m_from_to_wire m) (m_header_ok m) (m_question_ok m) (m_sigstart m) (m_saved m)
    (m_free_saved m) (m_scratchpad m) (m_names m) (m_rdatasets m) (m_allocs m).
Definition with_ok (header_ok question_ok : bool) (m : dns_message) : dns_message :=
  mkMessage (m_id m) (m_flags m) (m_rcode m) (m_opcode m) (m_rdclass m) (m_counts m) (m_sections m) (m_opt m) (m_sig0 m)
    (m_tsig m) (m_state m) (m_from_to_wire m) header_ok question_ok (m_sigstart m) (m_saved m)
    (m_free_saved m) (m_scratchpad m) (m_names m) (m_rdatasets m) (m_allocs m).
Definition with_sigstart (sigstart : Z) (m : dns_message) : dns_message :=
  mkMessage (m_id m) (m_flags m) (m_rcode m) (m_opcode m) (m_rdclass m) (m_counts m) (m_sections m) (m_opt m) (m_sig0 m)
    (m_tsig m) (m_state m) (m_from_to_wire m) (m_header_ok m) (m_question_ok m) sigstart (m_saved m)
    (m_free_saved m) (m_scratchpad m) (m_names m) (m_rdatasets m) (m_allocs m).
Definition with_saved (saved : list Z) (free_saved : bool) (m : dns_message) : dns_message :=
  mkMessage (m_id m) (m_flags m) (m_rcode m) (m_opcode m) (m_rdclass m) (m_counts m) (m_sections m) (m_opt m) (m_sig0 m)
    (m_tsig m) (m_state m) (m_from_to_wire m) (m_header_ok m) (m_question_ok m) (m_sigstart m) saved
    free_saved (m_scratchpad m) (m_names m) (m_rdatasets m) (m_allocs m).
(** The scratch buffers, the names and rdatasets in use, and the allocations. *)
Definition with_memory (scratchpad : list isc_buffer_t) (names rdatasets allocs : Z) (m : dns_message) : dns_message :=
  mkMessage (m_id m) (m_flags m) (m_rcode m) (m_opcode m) (m_rdclass m) (m_counts m) (m_sections m) (m_opt m) (m_sig0 m)
    (m_tsig m) (m_state m) (m_from_to_wire m) (m_header_ok m) (m_question_ok m) (m_sigstart m) (m_saved m)
    (m_free_saved m) scratchpad names rdatasets allocs.

Definition count_of (m : dns_message) (section : Z) : Z := nth (Z.to_nat section) (m_counts m) 0.
Definition section_of (m : dns_message) (section : Z) : list msgname := nth (Z.to_nat section) (m_sections m) [].
Definition put_section (section : Z) (l : list msgname) (m : dns_message) : dns_message :=
  with_sections (<[Z.to_nat section := l]> (m_sections m)) m.

Definition option_on (options bit : Z) : bool := negb (Z.land options bit =? 0).

(** ** Searching a section *)

(** The loops run from the end of a list: the index of the last element with the
    property. *)
Fixpoint find_last {A} (p : A -> outcome bool) (l : list A) : outcome (option nat) :=
  match l with
  | [] => Done None
  | x :: l =>
      let* r := find_last p l in
      match r with
      | Some i => Done (Some (S i))
      | None => let* b := p x in Done (if b : bool then Some O else None)
      end
  end.

Definition findname (target : dns_name_t) (section : list msgname) : outcome (option nat) :=
  find_last (fun curr => dns_name_equal (mn_name curr) target) section.

Definition dns_message_find (l : list dns_rdataset) (rdclass type covers : Z) : outcome (option nat) :=
  find_last (fun curr => Done ((rds_class curr =? rdclass) && (rds_type curr =? type) && (rds_covers curr =? covers))) l.

Definition dns_message_findtype (l : list dns_rdataset) (type covers : Z) : outcome (option nat) :=
  find_last (fun curr => Done ((rds_type curr =? type) && (rds_covers curr =? covers))) l.

(** ** Header *)

Definition dns_message_peekheader (source : isc_buffer_t) : outcome (isc_result_t * Z * Z) :=
  if isc_buffer_remaininglength source <? DNS_MESSAGE_HEADERLEN then Done (ISC_R_UNEXPECTEDEND, 0, 0)
  else
    let* (id, source) := isc_buffer_getuint16 source in
    let* (flags, _) := isc_buffer_getuint16 source in
    Done (ISC_R_SUCCESS, id, Z.land flags DNS_MESSAGE_FLAG_MASK).

(** The header of [dns_message_parse]. *)
Definition parse_header (msg : dns_message) (source : isc_buffer_t) : outcome (dns_message * isc_buffer_t) :=
  let* (id, source) := isc_buffer_getuint16 source in
  let* (tmpflags, source) := isc_buffer_getuint16 source in
  let* (c0, source) := isc_buffer_getuint16 source in
  let* (c1, source) := isc_buffer_getuint16 source in
  let* (c2, source) := isc_buffer_getuint16 source in
  let* (c3, source) := isc_buffer_getuint16 source in
  Done (with_header id (Z.land tmpflags DNS_MESSAGE_FLAG_MASK) (Z.land tmpflags DNS_MESSAGE_RCODE_MASK)
          (Z.shiftr (Z.land tmpflags DNS_MESSAGE_OPCODE_MASK) DNS_MESSAGE_OPCODE_SHIFT) [c0; c1; c2; c3] msg, source).

Definition dns_message_renderheader (msg : dns_message) (target : isc_buffer_t) : outcome isc_buffer_t :=
  REQUIRE DNS_MESSAGE_HEADERLEN <=? isc_buffer_availablelength target ;;
  let* target := isc_buffer_putuint16 target (m_id msg) in
  let tmp := u16 (Z.land (u32 (Z.shiftl (m_opcode msg) DNS_MESSAGE_OPCODE_SHIFT)) DNS_MESSAGE_OPCODE_MASK) in
  let tmp := Z.lor tmp (Z.land (m_rcode msg) DNS_MESSAGE_RCODE_MASK) in
  let tmp := u16 (Z.lor tmp (Z.land (m_flags msg) DNS_MESSAGE_FLAG_MASK)) in
  REQUIRE (count_of msg 0 <? 65536) && (count_of msg 1 <? 65536)
          && (count_of msg 2 <? 65536) && (count_of msg 3 <? 65536) ;;
  let* target := isc_buffer_putuint16 target tmp in
  let* target := isc_buffer_putuint16 target (u16 (count_of msg 0)) in
  let* target := isc_buffer_putuint16 target (u16 (count_of msg 1)) in
  let* target := isc_buffer_putuint16 target (u16 (count_of msg 2)) in
  isc_buffer_putuint16 target (u16 (count_of msg 3)).

Section message.
Context `{RdataTypes} (mem : Z -> bool).

(** ** Memory *)

(** An allocation: whether it succeeded. *)
Definition alloc (m : dns_message) : bool * dns_message :=
  (mem (m_allocs m), with_memory (m_scratchpad m) (m_names m) (m_rdatasets m) (m_allocs m + 1) m).

Definition newbuffer (m : dns_message) (size : Z) : isc_result_t * dns_message :=
  let '(ok, m) := alloc m in
  if ok then (ISC_R_SUCCESS, with_memory (m_scratchpad m ++ [isc_buffer_init (replicate (Z.to_nat size) 0)])
                               (m_names m) (m_rdatasets m) (m_allocs m) m)
  else (ISC_R_NOMEMORY, m).

Definition currentbuffer (m : dns_message) : outcome isc_buffer_t :=
  match last (m_scratchpad m) with Some b => Done b | None => Abort end.

(** The current buffer after it was written to. *)
Definition put_currentbuffer (b : isc_buffer_t) (m : dns_message) : dns_message :=
  with_memory (removelast (m_scratchpad m) ++ [b]) (m_names m) (m_rdatasets m) (m_allocs m) m.

Definition msginit (intent : Z) : dns_message :=
  mkMessage 0 0 0 0 0 [0; 0; 0; 0] [[]; []; []; []] None None None DNS_SECTION_ANY intent false false (-1) [] false
    [] 0 0 0.

(** Allocations 0 to 3 are the message, the pools and the scratch buffer. *)
Definition dns_message_create (intent : Z) : outcome (isc_result_t * option dns_message) :=
  REQUIRE (intent =? DNS_MESSAGE_INTENTPARSE) || (intent =? DNS_MESSAGE_INTENTRENDER) ;;
  let '(ok, m) := alloc (msginit intent) in
  if negb ok then Done (ISC_R_NOMEMORY, None)
  else
    let '(ok, m) := alloc m in
    if negb ok then Done (ISC_R_NOMEMORY, None)
    else
      let '(ok, m) := alloc m in
      if negb ok then Done (ISC_R_NOMEMORY, None)
      else
        let '(result, m) := newbuffer m SCRATCHPAD_SIZE in
        if bool_decide (result = ISC_R_SUCCESS) then Done (ISC_R_SUCCESS, Some m) else Done (ISC_R_NOMEMORY, None).

(** ** Names and data from the wire *)

(** [while (tries < 2)] of [getname], with [tries] the tries that are left; the
    result, the name, the source and the message. *)
Fixpoint getname_tries (tries : nat) (name : dns_name_t) (source : isc_buffer_t) (msg : dns_message)
    (dctx : dns_decompress_t) : outcome (isc_result_t * dns_name_t * isc_buffer_t * dns_message) :=
  match tries with
  | O => Abort
  | S tries =>
      let* scratch := currentbuffer msg in
      let* (result, name, source, scratch') := dns_name_fromwire name source dctx 0 (Some scratch) in
      let msg := match scratch' with Some b => put_currentbuffer b msg | None => msg end in
      if bool_decide (result = ISC_R_NOSPACE) then
        let '(result, msg) := newbuffer msg SCRATCHPAD_SIZE in
        if bool_decide (result = ISC_R_SUCCESS) then
          let* name := dns_name_reset name in
          getname_tries tries name source msg dctx
        else Done (result, name, source, msg)
      else Done (result, name, source, msg)
  end.

Definition getname (name : dns_name_t) (source : isc_buffer_t) (msg : dns_message) (dctx : dns_decompress_t) :
    outcome (isc_result_t * dns_name_t * isc_buffer_t * dns_message) := getname_tries 2 name source msg dctx.

(** [for (;;)] of [getrdata]: [tries], [trysize], the source and the message. *)
Definition getrdata_body (dctx : dns_decompress_t) (rdclass rdtype rdatalen : Z)
    (s : Z * Z * isc_buffer_t * dns_message) :
    outcome ((Z * Z * isc_buffer_t * dns_message) + (isc_result_t * option dns_rdata * isc_buffer_t * dns_message)) :=
  let '(tries, trysize, source, msg) := s in
  let* scratch := currentbuffer msg in
  let* (result, rdata, source, scratch) := dns_rdata_fromwire rdclass rdtype source dctx 0 scratch in
  let msg := put_currentbuffer scratch msg in
  if bool_decide (result = ISC_R_NOSPACE) then
    if negb (tries =? 0) && (65535 <=? trysize) then Done (inr (ISC_R_NOSPACE, None, source, msg))
    else
      REQUIRE (tries =? 0) || negb (trysize =? 0) ;;
      let trysize := if tries =? 0 then Z.max (2 * rdatalen) SCRATCHPAD_SIZE else u32 (trysize * 2) in
      let '(result, msg) := newbuffer msg trysize in
      if bool_decide (result = ISC_R_SUCCESS) then Done (inl (tries + 1, trysize, source, msg))
      else Done (inr (result, None, source, msg))
  else Done (inr (result, rdata, source, msg)).

(** The size doubles from 512 to 65535 or more. *)
Definition getrdata_fuel : nat := 12.

Definition getrdata (source : isc_buffer_t) (msg : dns_message) (dctx : dns_decompress_t) (rdclass rdtype rdatalen : Z) :
    outcome (isc_result_t * option dns_rdata * isc_buffer_t * dns_message) :=
  let* _ := currentbuffer msg in
  let* source := isc_buffer_setactive source rdatalen in
  loop getrdata_fuel (getrdata_body dctx rdclass rdtype rdatalen) (0, 0, source, msg).

(** ** The parser of a section

    The variables that the code shares over its labels: [problem] is [seen_problem].
    A computation ends with an error, which goes to the label [cleanup], or with a
    value. *)
Record section_st := mkSt {
  s_source : isc_buffer_t;
  s_msg : dns_message;
  s_problem : bool;
  s_free_name : bool;
  s_free_rdataset : bool
}.

Definition parser (A : Type) : Type := section_st -> outcome ((isc_result_t + A) * section_st).

Definition ret {A} (a : A) : parser A := fun s => Done (inr a, s).
Definition fail {A} (r : isc_result_t) : parser A := fun s => Done (inl r, s).
Definition bind {A B} (m : parser A) (k : A -> parser B) : parser B := fun s =>
  let* (r, s) := m s in
  match r with inl e => Done (inl e, s) | inr a => k a s end.

Definition lift {A} (o : outcome A) : parser A := fun s => let* a := o in Done (inr a, s).
Definition get_msg : parser dns_message := fun s => Done (inr (s_msg s), s).
Definition get_source : parser isc_buffer_t := fun s => Done (inr (s_source s), s).
Definition put_msg (m : dns_message) : parser unit := fun s =>
  Done (inr tt, mkSt (s_source s) m (s_problem s) (s_free_name s) (s_free_rdataset s)).
Definition put_source (b : isc_buffer_t) : parser unit := fun s =>
  Done (inr tt, mkSt b (s_msg s) (s_problem s) (s_free_name s) (s_free_rdataset s)).
Definition put_free_name (b : bool) : parser unit := fun s =>
  Done (inr tt, mkSt (s_source s) (s_msg s) (s_problem s) b (s_free_rdataset s)).
Definition put_free_rdataset (b : bool) : parser unit := fun s =>
  Done (inr tt, mkSt (s_source s) (s_msg s) (s_problem s) (s_free_name s) b).

(** [DO_FORMERR] *)
Definition DO_FORMERR (best_effort : bool) : parser unit := fun s =>
  if best_effort then Done (inr tt, mkSt (s_source s) (s_msg s) true (s_free_name s) (s_free_rdataset s))
  else Done (inl DNS_R_FORMERR, s).
End message.

Declare Scope parser_scope.
Notation "'do' x '<-' m ';;' k" := (bind m (fun x => k))
  (at level 10, x name, m at level 99, k at level 200) : parser_scope.
Notation "'run' m ';;' k" := (bind m (fun _ => k))
  (at level 10, m at level 99, k at level 200) : parser_scope.
Open Scope parser_scope.

Section parse.
Context `{RdataTypes} (mem : Z -> bool).

(** An allocation, with the failure [ISC_R_NOMEMORY]; [newoffsets], [newrdata] and
    [newrdatalist] may answer from a block or a free list, which is an allocation that
    succeeds. *)
Definition allocate : parser unit :=
  do m <- get_msg ;;
  run put_msg (alloc mem m).2 ;;
  if (alloc mem m).1 then ret tt else fail ISC_R_NOMEMORY.

(** [isc_mempool_get] and [isc_mempool_put] on [namepool] and [rdspool]. *)
Definition add_names (k : Z) : parser unit :=
  do m <- get_msg ;;
  put_msg (with_memory (m_scratchpad m) (m_names m + k) (m_rdatasets m) (m_allocs m) m).
Definition add_rdatasets (k : Z) : parser unit :=
  do m <- get_msg ;;
  put_msg (with_memory (m_scratchpad m) (m_names m) (m_rdatasets m + k) (m_allocs m) m).
Definition namepool_get : parser unit := run allocate ;; add_names 1.
Definition namepool_put : parser unit := add_names (-1).
Definition rdspool_get : parser unit := run allocate ;; add_rdatasets 1.
Definition rdspool_put : parser unit := add_rdatasets (-1).

Definition getuint16 : parser Z :=
  do source <- get_source ;;
  do r <- lift (isc_buffer_getuint16 source) ;;
  run put_source r.2 ;;
  ret r.1.
Definition getuint32 : parser Z :=
  do source <- get_source ;;
  do r <- lift (isc_buffer_getuint32 source) ;;
  run put_source r.2 ;;
  ret r.1.

(** [isc_buffer_remainingregion(source, &r)] and the test of [r.length]. *)
Definition need (n : Z) : parser unit :=
  do source <- get_source ;;
  if isc_buffer_remaininglength source <? n then fail ISC_R_UNEXPECTEDEND else ret tt.

(** A name from the pool, read from the packet. *)
Definition read_name (dctx : dns_decompress_t) : parser dns_name_t :=
  run namepool_get ;;
  run put_free_name true ;;
  run allocate ;;                                (* newoffsets *)
  do source <- get_source ;;
  do source <- lift (isc_buffer_setactive source (isc_buffer_remaininglength source)) ;;
  run put_source source ;;
  do msg <- get_msg ;;
  do r <- lift (getname mem (dns_name_init (Some odata)) source msg dctx) ;;
  let '(result, name, source, msg) := r in
  run put_source source ;;
  run put_msg msg ;;
  if bool_decide (result = ISC_R_SUCCESS) then ret name else fail result.

(** [ISC_LIST_APPEND] of a name to a section: its index. *)
Definition append_name (sectionid : Z) (name : dns_name_t) : parser nat :=
  do msg <- get_msg ;;
  let section := section_of msg sectionid in
  run put_msg (put_section sectionid (section ++ [mkMsgname name []]) msg) ;;
  ret (length section).

(** The rdatasets of the name with index [i] are changed. *)
Definition alter_list (sectionid : Z) (i : nat) (f : list dns_rdataset -> list dns_rdataset) : parser unit :=
  do msg <- get_msg ;;
  let section := section_of msg sectionid in
  put_msg (put_section sectionid (alter (fun n => mkMsgname (mn_name n) (f (mn_list n))) i section) msg).

Definition list_of (sectionid : Z) (i : nat) : parser (list dns_rdataset) :=
  do msg <- get_msg ;;
  match section_of msg sectionid !! i with Some n => ret (mn_list n) | None => lift Undef end.

(** [dns_rdataset_init] and [dns_rdatalist_tordataset] for an empty list. *)
Definition new_rdataset (rdclass rdtype covers ttl : Z) : dns_rdataset :=
  mkRdataset rdclass rdtype covers ttl 0 (mkRdatalist rdclass rdtype covers ttl []).

(** ** The question section *)

(** One iteration of the loop of [getquestions]. *)
Definition get_question (dctx : dns_decompress_t) (best_effort : bool) : parser unit :=
  do name <- read_name dctx ;;
  do msg <- get_msg ;;
  let section := section_of msg DNS_SECTION_QUESTION in
  do name2 <- lift (findname name section) ;;
  do i <- (match name2 with
           | None =>
               run (if bool_decide (section = []) then ret tt else DO_FORMERR best_effort) ;;
               do i <- append_name DNS_SECTION_QUESTION name ;;
               run put_free_name false ;;
               ret i
           | Some i =>
               run namepool_put ;;
               run put_free_name false ;;
               ret i
           end) ;;
  run need 4 ;;
  do rdtype <- getuint16 ;;
  do rdclass <- getuint16 ;;
  do msg <- get_msg ;;
  run (if m_state msg =? DNS_SECTION_ANY then put_msg (with_class rdclass DNS_SECTION_QUESTION msg)
       else if negb (m_rdclass msg =? rdclass) then DO_FORMERR best_effort else ret tt) ;;
  do l <- list_of DNS_SECTION_QUESTION i ;;
  do found <- lift (dns_message_find l rdclass rdtype 0) ;;
  run (match found with Some _ => DO_FORMERR best_effort | None => ret tt end) ;;
  run allocate ;;                                (* newrdatalist *)
  run rdspool_get ;;
  let rdataset := new_rdataset rdclass rdtype 0 0 in
  let rdataset := mkRdataset (rds_class rdataset) (rds_type rdataset) (rds_covers rdataset) (rds_ttl rdataset)
                    (Z.lor (rds_attributes rdataset) DNS_RDATASETATTR_QUESTION) (rds_list rdataset) in
  alter_list DNS_SECTION_QUESTION i (fun l => l ++ [rdataset]).

(** ** The sections of records *)

(** A name or an rdataset that is linked into the section, by its index, or not. *)
Inductive nameref : Type := NLocal (name : dns_name_t) | NLinked (i : nat).
Inductive rdatasetref : Type := RLocal (r : dns_rdataset) | RLinked (i j : nat).

Definition update (section rdclass : Z) : bool :=
  if section =? DNS_SECTION_PREREQUISITE
  then (rdclass =? dns_rdataclass_any) || (rdclass =? dns_rdataclass_none)
  else if section =? DNS_SECTION_UPDATE then rdclass =? dns_rdataclass_any
  else false.

(** The class of the message, and the class of the record. *)
Definition check_class (best_effort : bool) (rdtype rdclass : Z) : parser unit :=
  do msg <- get_msg ;;
  run (if (m_state msg =? DNS_SECTION_ANY) && negb (rdtype =? dns_rdatatype_opt)
          && negb (rdtype =? dns_rdatatype_tsig) && negb (rdtype =? dns_rdatatype_tkey)
       then put_msg (with_class rdclass DNS_SECTION_QUESTION msg) else ret tt) ;;
  do msg <- get_msg ;;
  if negb (m_opcode msg =? dns_opcode_update) && negb (rdtype =? dns_rdatatype_tsig)
     && negb (rdtype =? dns_rdatatype_opt) && negb (rdtype =? dns_rdatatype_dnskey)
     && negb (rdtype =? dns_rdatatype_sig) && negb (rdtype =? dns_rdatatype_tkey)
     && negb (m_rdclass msg =? dns_rdataclass_any) && negb (m_rdclass msg =? rdclass)
  then DO_FORMERR best_effort else ret tt.

(** TSIG, OPT and TKEY; the result is [skip_name_search] and [skip_type_search],
    which are set together. *)
Definition check_special (best_effort : bool) (sectionid count recstart rdtype rdclass : Z) (name : dns_name_t) :
    parser bool :=
  do msg <- get_msg ;;
  if rdtype =? dns_rdatatype_tsig then
    run (if negb (sectionid =? DNS_SECTION_ADDITIONAL) || negb (rdclass =? dns_rdataclass_any)
            || negb (count =? count_of msg sectionid - 1)
         then DO_FORMERR best_effort else ret tt) ;;
    do msg <- get_msg ;;
    run put_msg (with_sigstart recstart msg) ;;
    ret true
  else if rdtype =? dns_rdatatype_opt then
    do root <- lift (dns_name_equal dns_rootname name) ;;
    run (if negb root || bool_decide (m_opt msg <> None) then DO_FORMERR best_effort else ret tt) ;;
    ret true
  else if rdtype =? dns_rdatatype_tkey then
    let tkeysection := if Z.land (m_flags msg) DNS_MESSAGEFLAG_QR =? 0 then DNS_SECTION_ADDITIONAL
                       else DNS_SECTION_ANSWER in
    run (if negb (sectionid =? tkeysection) && negb (sectionid =? DNS_SECTION_ANSWER)
         then DO_FORMERR best_effort else ret tt) ;;
    ret false
  else ret false.

(** The data of the record; its class is put back afterwards. *)
Definition read_rdata (dctx : dns_decompress_t) (sectionid rdtype rdclass rdatalen : Z) : parser dns_rdata :=
  run allocate ;;                                (* newrdata *)
  do msg <- get_msg ;;
  if (m_opcode msg =? dns_opcode_update) && update sectionid rdclass then
    if negb (rdatalen =? 0) then fail DNS_R_FORMERR
    else ret (mkRdata [] rdclass rdtype DNS_RDATA_UPDATE)
  else
    do source <- get_source ;;
    do r <- lift (getrdata mem source msg dctx
                    (if (rdclass =? dns_rdataclass_none) && (m_opcode msg =? dns_opcode_update)
                        && (sectionid =? DNS_SECTION_UPDATE) then m_rdclass msg else rdclass)
                    rdtype rdatalen) ;;
    let '(result, rdata, source, msg) := r in
    run put_source source ;;
    run put_msg msg ;;
    match rdata with
    | Some rdata =>
        if bool_decide (result = ISC_R_SUCCESS)
        then ret (mkRdata (rdata_data rdata) rdclass (rdata_type rdata) (rdata_flags rdata))
        else fail result
    | None => fail result
    end.

(** The type covered by a signature, and whether the record is a SIG(0). *)
Definition check_covers (best_effort : bool) (sectionid count recstart : Z) (rdtype : Z) (rdata : dns_rdata) :
    parser (Z * bool) :=
  if (rdtype =? dns_rdatatype_rrsig) && (rdata_flags rdata =? 0) then
    do covers <- lift (dns_rdata_covers rdata) ;;
    run (if covers =? 0 then DO_FORMERR best_effort else ret tt) ;;
    ret (covers, false)
  else if (rdtype =? dns_rdatatype_sig) && (rdata_flags rdata =? 0) then
    do covers <- lift (dns_rdata_covers rdata) ;;
    if covers =? 0 then
      do msg <- get_msg ;;
      run (if negb (sectionid =? DNS_SECTION_ADDITIONAL) || negb (count =? count_of msg sectionid - 1)
           then DO_FORMERR best_effort else ret tt) ;;
      do msg <- get_msg ;;
      run put_msg (with_sigstart recstart msg) ;;
      ret (covers, true)
    else ret (covers, false)
  else ret (0, false).

(** OPT, TSIG and SIG(0) are not linked into a section. *)
Definition kept_apart (rdtype : Z) (issigzero : bool) : bool :=
  (rdtype =? dns_rdatatype_opt) || (rdtype =? dns_rdatatype_tsig) || issigzero.

(** The name of the record in the section. *)
Definition place_name (sectionid : Z) (search : bool) (rdtype : Z) (issigzero : bool) (name : dns_name_t) :
    parser nameref :=
  if negb search then
    if negb (kept_apart rdtype issigzero) then
      do i <- append_name sectionid name ;;
      run put_free_name false ;;
      ret (NLinked i)
    else ret (NLocal name)
  else
    do msg <- get_msg ;;
    do name2 <- lift (findname name (section_of msg sectionid)) ;;
    do i <- (match name2 with
             | Some i => run namepool_put ;; ret i
             | None => append_name sectionid name
             end) ;;
    run put_free_name false ;;
    ret (NLinked i).

(** The search for an rdataset with the type and class; none when a search is not
    wanted. *)
Definition find_rdataset (best_effort : bool) (sectionid : Z) (search : bool) (rdtype rdclass covers : Z)
    (ref : nameref) : parser (option (nat * nat)) :=
  if negb search then ret None
  else
    run (if dns_rdatatype_questiononly rdtype then DO_FORMERR best_effort else ret tt) ;;
    match ref with
    | NLocal _ => ret None
    | NLinked i =>
        do l <- list_of sectionid i ;;
        do found <- lift (dns_message_find l rdclass rdtype covers) ;;
        ret (match found with Some j => Some (i, j) | None => None end)
    end.

Definition rdataset_at (sectionid : Z) (i j : nat) : parser dns_rdataset :=
  do l <- list_of sectionid i ;;
  match l !! j with Some r => ret r | None => lift Undef end.

(** A singleton type must not get different data. *)
Definition check_singleton (best_effort : bool) (sectionid rdtype : Z) (rdata : dns_rdata) (i j : nat) : parser unit :=
  if dns_rdatatype_issingleton rdtype then
    do rdataset <- rdataset_at sectionid i j ;;
    match rdl_rdata (rds_list rdataset) with
    | [] => lift Abort
    | first :: _ => if negb (dns_rdata_compare rdata first =? 0) then DO_FORMERR best_effort else ret tt
    end
  else ret tt.

(** A new rdataset, linked to its name unless it is kept apart. *)
Definition place_rdataset (sectionid : Z) (rdtype rdclass covers ttl : Z) (issigzero : bool) (ref : nameref) :
    parser rdatasetref :=
  run rdspool_get ;;
  run put_free_rdataset true ;;
  run allocate ;;                                (* newrdatalist *)
  let rdataset := new_rdataset rdclass rdtype covers ttl in
  if negb (kept_apart rdtype issigzero) then
    match ref with
    | NLinked i =>
        do l <- list_of sectionid i ;;
        run alter_list sectionid i (fun l => l ++ [rdataset]) ;;
        run put_free_rdataset false ;;
        ret (RLinked i (length l))
    | NLocal _ => lift Undef
    end
  else ret (RLocal rdataset).

(** The smaller TTL wins; the data is appended. *)
Definition add_rdata (ttl : Z) (rdata : dns_rdata) (r : dns_rdataset) : dns_rdataset :=
  let l := rds_list r in
  mkRdataset (rds_class r) (rds_type r) (rds_covers r)
    (if (negb (ttl =? rds_ttl r)) && (ttl <? rds_ttl r) then ttl else rds_ttl r)
    (if negb (ttl =? rds_ttl r) then Z.lor (rds_attributes r) DNS_RDATASETATTR_TTLADJUSTED else rds_attributes r)
    (mkRdatalist (rdl_class l) (rdl_type l) (rdl_covers l) (rdl_ttl l) (rdl_rdata l ++ [rdata])).

Definition append_rdata (sectionid ttl : Z) (rdata : dns_rdata) (ref : rdatasetref) : parser rdatasetref :=
  match ref with
  | RLocal r => ret (RLocal (add_rdata ttl rdata r))
  | RLinked i j =>
      run alter_list sectionid i (alter (add_rdata ttl rdata) j) ;;
      ret ref
  end.

(** An OPT record and its extended rcode. *)
Definition remember_opt (rdtype : Z) (ref : rdatasetref) : parser unit :=
  do msg <- get_msg ;;
  if (rdtype =? dns_rdatatype_opt) && bool_decide (m_opt msg = None) then
    match ref with
    | RLocal r =>
        let ercode := u16 (Z.shiftr (Z.land (rds_ttl r) DNS_MESSAGE_EDNSRCODE_MASK) 20) in
        run put_msg (with_opt r (Z.lor (m_rcode msg) ercode) msg) ;;
        run put_free_rdataset false ;;
        run namepool_put ;;
        put_free_name false
    | RLinked _ _ => lift Undef
    end
  else ret tt.

(** A SIG(0) or TSIG record. *)
Definition remember_sig (rdtype : Z) (issigzero : bool) (nref : nameref) (ref : rdatasetref) : parser unit :=
  do msg <- get_msg ;;
  if issigzero && bool_decide (m_sig0 msg = None) then
    match nref, ref with
    | NLocal name, RLocal r =>
        run put_msg (with_sigs (Some (r, name)) (m_tsig msg) msg) ;;
        run put_free_rdataset false ;;
        put_free_name false
    | _, _ => lift Undef
    end
  else if (rdtype =? dns_rdatatype_tsig) && bool_decide (m_tsig msg = None) then
    match nref, ref with
    | NLocal name, RLocal r =>
        let name := mkname (ndata name) (labels name) (Z.lor (attributes name) DNS_NAMEATTR_NOCOMPRESS)
                      (offsets name) (buffer name) in
        run put_msg (with_sigs (m_sig0 msg) (Some (r, name)) msg) ;;
        run put_free_rdataset false ;;
        put_free_name false
    | _, _ => lift Undef
    end
  else ret tt.

(** What is still unlinked goes back when there was a problem; else it is a bug. *)
Definition release_record : parser unit := fun s =>
  if s_problem s then
    (run (if s_free_name s then namepool_put else ret tt) ;;
     run (if s_free_rdataset s then rdspool_put else ret tt) ;;
     run put_free_name false ;;
     put_free_rdataset false) s
  else if s_free_name s then Abort
  else if s_free_rdataset s then Abort
  else Done (inr tt, s).

(** The second half of an iteration: the record goes to its place. *)
Definition place_record (preserve_order best_effort : bool) (sectionid rdtype rdclass ttl : Z) (name : dns_name_t)
    (skip : bool) (rdata : dns_rdata) (covers : Z) (issigzero : bool) : parser unit :=
  do msg <- get_msg ;;
  let search := negb (preserve_order || (m_opcode msg =? dns_opcode_update) || (skip || issigzero)) in
  do nref <- place_name sectionid search rdtype issigzero name ;;
  do found <- find_rdataset best_effort sectionid search rdtype rdclass covers nref ;;
  do ref <- (match found with
             | Some (i, j) => run check_singleton best_effort sectionid rdtype rdata i j ;; ret (RLinked i j)
             | None => place_rdataset sectionid rdtype rdclass covers ttl issigzero nref
             end) ;;
  do ref <- append_rdata sectionid ttl rdata ref ;;
  run remember_opt rdtype ref ;;
  run remember_sig rdtype issigzero nref ref ;;
  release_record.

(** One iteration of the loop of [getsection]. *)
Definition get_record (dctx : dns_decompress_t) (preserve_order best_effort : bool) (sectionid count : Z) : parser unit :=
  run put_free_rdataset false ;;
  do source <- get_source ;;
  let recstart := b_current source in
  do name <- read_name dctx ;;
  run need 10 ;;
  do rdtype <- getuint16 ;;
  do rdclass <- getuint16 ;;
  run check_class best_effort rdtype rdclass ;;
  do skip <- check_special best_effort sectionid count recstart rdtype rdclass name ;;
  do ttl <- getuint32 ;;
  do rdatalen <- getuint16 ;;
  run need rdatalen ;;
  do rdata <- read_rdata dctx sectionid rdtype rdclass rdatalen ;;
  do cov <- check_covers best_effort sectionid count recstart rdtype rdata ;;
  place_record preserve_order best_effort sectionid rdtype rdclass ttl name skip rdata cov.1 cov.2.

(** [for (count = 0; count < n; count++)]. *)
Fixpoint repeat_from (body : Z -> parser unit) (n : nat) (count : Z) : parser unit :=
  match n with
  | O => ret tt
  | S n => run body count ;; repeat_from body n (count + 1)
  end.

(** The labels at the end of [getquestions] and [getsection]. *)
Definition finish_section (r : isc_result_t + unit) (s : section_st) : isc_result_t * dns_message * isc_buffer_t :=
  match r with
  | inr _ => (if s_problem s then DNS_R_RECOVERABLE else ISC_R_SUCCESS, s_msg s, s_source s)
  | inl e =>
      let m := s_msg s in
      (e, with_memory (m_scratchpad m) (if s_free_name s then m_names m - 1 else m_names m)
            (if s_free_rdataset s then m_rdatasets m - 1 else m_rdatasets m) (m_allocs m) m, s_source s)
  end.

Definition getquestions (source : isc_buffer_t) (msg : dns_message) (dctx : dns_decompress_t) (options : Z) :
    outcome (isc_result_t * dns_message * isc_buffer_t) :=
  let best_effort := option_on options DNS_MESSAGEPARSE_BESTEFFORT in
  let* (r, s) := repeat_from (fun _ => get_question dctx best_effort)
                   (Z.to_nat (count_of msg DNS_SECTION_QUESTION)) 0 (mkSt source msg false false false) in
  Done (finish_section r s).

Definition getsection (source : isc_buffer_t) (msg : dns_message) (dctx : dns_decompress_t) (sectionid options : Z) :
    outcome (isc_result_t * dns_message * isc_buffer_t) :=
  let preserve_order := option_on options DNS_MESSAGEPARSE_PRESERVEORDER in
  let best_effort := option_on options DNS_MESSAGEPARSE_BESTEFFORT in
  let* (r, s) := repeat_from (get_record dctx preserve_order best_effort sectionid)
                   (Z.to_nat (count_of msg sectionid)) 0 (mkSt source msg false false false) in
  Done (finish_section r s).

(** ** The whole message *)

(** The label [truncated]: the message is saved. *)
Definition save_message (msg : dns_message) (origsource : isc_buffer_t) (options : Z) (recoverable : bool) :
    isc_result_t * dns_message :=
  let r := isc_buffer_usedregion origsource in
  let result := if recoverable then DNS_R_RECOVERABLE else ISC_R_SUCCESS in
  if negb (option_on options DNS_MESSAGEPARSE_CLONEBUFFER) then (result, with_saved r (m_free_saved msg) msg)
  else
    let '(ok, msg) := alloc mem msg in
    if ok then (result, with_saved r true msg) else (ISC_R_NOMEMORY, with_saved [] (m_free_saved msg) msg).

(** The answer, authority and additional sections in turn; [seen_problem] and the
    result, [None] for the label [truncated]. *)
Fixpoint parse_sections (sections : list Z) (source : isc_buffer_t) (msg : dns_message) (dctx : dns_decompress_t)
    (options : Z) (seen_problem : bool) : outcome (option isc_result_t * bool * dns_message * isc_buffer_t) :=
  match sections with
  | [] => Done (Some ISC_R_SUCCESS, seen_problem, msg, source)
  | sectionid :: sections =>
      let* (ret, msg, source) := getsection source msg dctx sectionid options in
      if bool_decide (ret = ISC_R_UNEXPECTEDEND) && option_on options DNS_MESSAGEPARSE_IGNORETRUNCATION
      then Done (None, seen_problem, msg, source)
      else if bool_decide (ret = DNS_R_RECOVERABLE) then parse_sections sections source msg dctx options true
      else if bool_decide (ret = ISC_R_SUCCESS) then parse_sections sections source msg dctx options seen_problem
      else Done (Some ret, seen_problem, msg, source)
  end.

Definition dns_message_parse (msg : dns_message) (source : isc_buffer_t) (options : Z) :
    outcome (isc_result_t * dns_message * isc_buffer_t) :=
  REQUIRE m_from_to_wire msg =? DNS_MESSAGE_INTENTPARSE ;;
  let origsource := source in
  let msg := with_ok false false msg in
  if isc_buffer_remaininglength source <? DNS_MESSAGE_HEADERLEN then Done (ISC_R_UNEXPECTEDEND, msg, source)
  else
    let* (msg, source) := parse_header msg source in
    let msg := with_ok true false msg in
    let* dctx := dns_decompress_init (-1) DNS_DECOMPRESS_ANY in
    let dctx := dns_decompress_setmethods dctx DNS_COMPRESS_GLOBAL14 in
    let* (ret, msg, source) := getquestions source msg dctx options in
    if bool_decide (ret = ISC_R_UNEXPECTEDEND) && option_on options DNS_MESSAGEPARSE_IGNORETRUNCATION then
      let '(result, msg) := save_message msg origsource options true in Done (result, msg, source)
    else if negb (bool_decide (ret = ISC_R_SUCCESS) || bool_decide (ret = DNS_R_RECOVERABLE)) then Done (ret, msg, source)
    else
      let msg := with_ok true true msg in
      let* (ret, seen_problem, msg, source) :=
        parse_sections [DNS_SECTION_ANSWER; DNS_SECTION_AUTHORITY; DNS_SECTION_ADDITIONAL] source msg dctx options
          (bool_decide (ret = DNS_R_RECOVERABLE)) in
      match ret with
      | None => let '(result, msg) := save_message msg origsource options true in Done (result, msg, source)
      | Some ret =>
          if bool_decide (ret = ISC_R_SUCCESS) then
            let '(result, msg) := save_message msg origsource options seen_problem in Done (result, msg, source)
          else Done (ret, msg, source)
      end.
End parse.

(** ** Resetting a message *)

(** One item goes back to [rdspool] or to [namepool]. *)
Definition put_rdataset (m : dns_message) : dns_message :=
  with_memory (m_scratchpad m) (m_names m) (m_rdatasets m - 1) (m_allocs m) m.
Definition put_name (m : dns_message) : dns_message :=
  with_memory (m_scratchpad m) (m_names m - 1) (m_rdatasets m) (m_allocs m) m.

(** [while (rds != NULL)] *)
Fixpoint reset_rdatasets (l : list dns_rdataset) (m : dns_message) : dns_message :=
  match l with
  | [] => m
  | _ :: l => reset_rdatasets l (put_rdataset m)
  end.

(** [while (name != NULL)] *)
Fixpoint reset_names (l : list msgname) (m : dns_message) : dns_message :=
  match l with
  | [] => m
  | name :: l => reset_names l (put_name (reset_rdatasets (mn_list name) m))
  end.

(** The sections from [first_section] on, of which [n] are left. *)
Fixpoint msgresetnames (n : nat) (first_section : Z) (m : dns_message) : dns_message :=
  match n with
  | O => m
  | S n =>
      let l := section_of m first_section in
      msgresetnames n (first_section + 1) (reset_names l (put_section first_section [] m))
  end.

(** A message that was parsed has no space reserved for an OPT or a signature. *)
Definition msgresetopt (m : dns_message) : dns_message :=
  match m_opt m with
  | Some _ =>
      let m := put_rdataset m in
      mkMessage (m_id m) (m_flags m) (m_rcode m) (m_opcode m) (m_rdclass m) (m_counts m) (m_sections m) None (m_sig0 m)
        (m_tsig m) (m_state m) (m_from_to_wire m) (m_header_ok m) (m_question_ok m) (m_sigstart m) (m_saved m)
        (m_free_saved m) (m_scratchpad m) (m_names m) (m_rdatasets m) (m_allocs m)
  | None => m
  end.

(** [msgresetsigs] with [replying] false. *)
Definition msgresetsigs (m : dns_message) : dns_message :=
  let m := match m_tsig m with
           | Some _ => with_sigs (m_sig0 m) None (put_name (put_rdataset m))
           | None => m
           end in
  match m_sig0 m with
  | Some _ => with_sigs None (m_tsig m) (put_name (put_rdataset m))
  | None => m
  end.

(** The fields that [msginit] sets; the lists, the pools and the intent stay. *)
Definition reinit (m : dns_message) : dns_message :=
  mkMessage 0 0 0 0 0 [0; 0; 0; 0] (m_sections m) None None None DNS_SECTION_ANY (m_from_to_wire m) false false (-1) [] false
    (m_scratchpad m) (m_names m) (m_rdatasets m) (m_allocs m).

Definition msgreset (m : dns_message) (everything : bool) : outcome dns_message :=
  let m := msgresetnames 4 0 m in
  let m := msgresetopt m in
  let m := msgresetsigs m in
  match m_scratchpad m with
  | [] => Abort
  | dynbuf :: _ =>
      let scratchpad := if everything then [] else [isc_buffer_clear dynbuf] in
      let m := with_memory scratchpad (m_names m) (m_rdatasets m) (m_allocs m) m in
      let m := with_saved [] (m_free_saved m) m in
      let m := if everything then m else reinit m in
      REQUIRE (m_names m =? 0) && (m_rdatasets m =? 0) ;;
      Done m
  end.

Definition dns_message_reset (m : dns_message) (intent : Z) : outcome dns_message :=
  REQUIRE (intent =? DNS_MESSAGE_INTENTPARSE) || (intent =? DNS_MESSAGE_INTENTRENDER) ;;
  let* m := msgreset m false in
  Done (mkMessage (m_id m) (m_flags m) (m_rcode m) (m_opcode m) (m_rdclass m) (m_counts m) (m_sections m) (m_opt m) (m_sig0 m)
          (m_tsig m) (m_state m) intent (m_header_ok m) (m_question_ok m) (m_sigstart m) (m_saved m)
          (m_free_saved m) (m_scratchpad m) (m_names m) (m_rdatasets m) (m_allocs m)).

(** The pools are destroyed, which asserts that they are empty. *)
Definition dns_message_destroy (m : dns_message) : outcome unit :=
  let* m := msgreset m true in
  REQUIRE (m_names m =? 0) && (m_rdatasets m =? 0) ;;
  Done tt.
