(* ===== verification/MessageWire.v ===== *)
(** * Reading from a packet

    The primitives of the message parser: names up to case, the searches of a
    section, the fields of a packet, and the readers of names and data, which return
    on every input, with new scratch buffers as needed. *)

From S2P Require Import Prelude Buffer Name NameTheory FromWire Rdata Message.

(** ** Names up to case *)

Definition name_fold (n : dns_name_t) : list Z := map tolower (ndata n).

Lemma wire_injective ls : forall ms, wire ls = wire ms -> ls = ms.
Proof.
  induction ls as [|l ls IH]; intros [|m ms]; try done. rewrite !wire_cons. intros [= El E].
  assert (length l = length m) by (unfold Zlen in El; lia).
  apply app_inj_1 in E as [-> E]; [|done]. f_equal. by apply IH.
Qed.

Lemma fold_of_wire ls : Forall short_label ls -> map tolower (wire ls) = wire (map lower_label ls).
Proof.
  induction 1 as [|l ls Hl _ IH]; [done|]. cbn [map]. rewrite !wire_cons. cbn [map]. rewrite map_app, IH.
  assert (E : Zlen (lower_label l) = Zlen l) by (unfold lower_label, Zlen; by rewrite length_map).
  pose proof (Zlen_nonneg l). unfold short_label in Hl. rewrite E, (tolower_spec (Zlen l)) by (unfold is_byte; lia).
  by rewrite (proj2 (andb_false_iff _ _)) by (left; lia).
Qed.

Lemma short_labels body ab : Forall good_label body -> Forall short_label (labels_of body ab).
Proof.
  intros Hb. unfold labels_of. apply Forall_app. split; [|by destruct ab; repeat constructor].
  eapply Forall_impl; [exact Hb|]. intros l [_ ?]. unfold short_label. lia.
Qed.

Lemma equal_fold n1 n2 b1 b2 : wf_name n1 b1 true -> wf_name n2 b2 true ->
  dns_name_equal n1 n2 = Done (bool_decide (name_fold n1 = name_fold n2)).
Proof.
  intros W1 W2. rewrite (equal_spec _ _ _ _ _ W1 W2). f_equal. apply bool_decide_ext. unfold name_fold, same_labels.
  rewrite (wn_data _ _ _ W1), (wn_data _ _ _ W2), !fold_of_wire by (by apply short_labels; eapply wn_body).
  split; [by intros ->|apply wire_injective].
Qed.

(** ** Searches *)

Lemma find_last_spec {A} (p : A -> outcome bool) (P : A -> Prop) (l : list A) :
  (forall x, x ∈ l -> exists b, p x = Done b /\ (b = true <-> P x)) ->
  exists r, find_last p l = Done r
    /\ match r with Some i => exists x, l !! i = Some x /\ P x | None => forall x, x ∈ l -> ~ P x end.
Proof.
  induction l as [|x l IH]; intros Hp; cbn [find_last].
  - exists None. split; [done|]. intros x Hx. by apply elem_of_nil in Hx.
  - destruct IH as (r & -> & Hr); [set_solver|]. cbn [obind]. destruct r as [i|].
    + exists (Some (S i)). done.
    + destruct (Hp x) as (b & -> & Hb); [set_solver|]. cbn [obind]. destruct b.
      * exists (Some 0%nat). split; [done|]. exists x. split; [done|]. by apply Hb.
      * exists None. split; [done|]. intros y [->|Hy]%elem_of_cons; [intros HP; by apply Hb in HP|by apply Hr].
Qed.

Lemma dns_message_find_spec l rdclass type covers : exists r, dns_message_find l rdclass type covers = Done r
  /\ match r with
     | Some j => exists x, l !! j = Some x /\ (rds_class x, rds_type x, rds_covers x) = (rdclass, type, covers)
     | None => forall x, x ∈ l -> (rds_class x, rds_type x, rds_covers x) <> (rdclass, type, covers)
     end.
Proof.
  apply (find_last_spec _ (fun x => (rds_class x, rds_type x, rds_covers x) = (rdclass, type, covers))).
  intros x _. eexists. split; [done|]. rewrite !andb_true_iff, !Z.eqb_eq. naive_solver.
Qed.

(** ** Fields of a packet *)

Definition u16_at (l : list Z) (pos : Z) : Z := nth (Z.to_nat pos) l 0 * 256 + nth (Z.to_nat (pos + 1)) l 0.
Definition u32_at (l : list Z) (pos : Z) : Z := u16_at l pos * 65536 + u16_at l (pos + 2).

Lemma rd_nth (l : list Z) i : bytes l -> 0 <= i < Zlen l ->
  rd l i = Done (nth (Z.to_nat i) l 0) /\ 0 <= nth (Z.to_nat i) l 0 < 256.
Proof.
  intros Hb Hi. destruct (rd_ok l i Hi) as [x Hx]. rewrite Hx. pose proof (rd_bytes _ _ _ Hb Hx) as Hbx.
  apply rd_Done in Hx as [_ Hx]. rewrite nth_lookup, Hx. done.
Qed.

Lemma set_current_wf b k : wf_buffer b -> 0 <= k <= b_used b -> wf_buffer (set_current b k).
Proof. intros [H1 H2 H3 H4 H5] Hk. by constructor. Qed.

Lemma get16_spec b : wf_buffer b -> b_current b + 2 <= b_used b ->
  isc_buffer_getuint16 b = Done (u16_at (b_base b) (b_current b), set_current b (b_current b + 2))
  /\ 0 <= u16_at (b_base b) (b_current b) < 65536 /\ wf_buffer (set_current b (b_current b + 2)).
Proof.
  intros W Hr. pose proof W as [H1 H2 H3 H4 H5]. unfold b_length in *.
  destruct (rd_nth (b_base b) (b_current b) H1) as [E0 R0]; [lia|].
  destruct (rd_nth (b_base b) (b_current b + 1) H1) as [E1 R1]; [lia|].
  unfold isc_buffer_getuint16. rewrite require_true by (rewrite u32_small by lia; lia). cbn [obind].
  rewrite E0. cbn [obind]. rewrite E1. cbn [obind]. unfold u16_at. set (c0 := nth _ _ _) in *. set (c1 := nth _ _ _) in *.
  split; [|split; [lia|apply set_current_wf; [done|lia]]]. do 3 f_equal.
  rewrite Z.shiftl_mul_pow2 by lia. change (2 ^ 8) with 256. rewrite (u16_small (c0 * 256)) by lia.
  change 256 with (2 ^ 8) at 1. rewrite lor_add by lia. change (2 ^ 8) with 256. apply u16_small. lia.
Qed.

Lemma get32_spec b : wf_buffer b -> b_current b + 4 <= b_used b ->
  isc_buffer_getuint32 b = Done (u32_at (b_base b) (b_current b), set_current b (b_current b + 4))
  /\ 0 <= u32_at (b_base b) (b_current b) < 2 ^ 32 /\ wf_buffer (set_current b (b_current b + 4)).
Proof.
  intros W Hr. pose proof W as [H1 H2 H3 H4 H5]. unfold b_length in *.
  destruct (rd_nth (b_base b) (b_current b) H1) as [E0 R0]; [lia|].
  destruct (rd_nth (b_base b) (b_current b + 1) H1) as [E1 R1]; [lia|].
  destruct (rd_nth (b_base b) (b_current b + 2) H1) as [E2 R2]; [lia|].
  destruct (rd_nth (b_base b) (b_current b + 3) H1) as [E3 R3]; [lia|].
  unfold isc_buffer_getuint32. rewrite require_true by (rewrite u32_small by lia; lia). cbn [obind].
  rewrite E0. cbn [obind]. rewrite E1. cbn [obind]. rewrite E2. cbn [obind]. rewrite E3. cbn [obind].
  unfold u32_at, u16_at. replace (b_current b + 2 + 1) with (b_current b + 3) by lia.
  set (c0 := nth (Z.to_nat (b_current b)) _ _) in *. set (c1 := nth (Z.to_nat (b_current b + 1)) _ _) in *.
  set (c2 := nth (Z.to_nat (b_current b + 2)) _ _) in *. set (c3 := nth (Z.to_nat (b_current b + 3)) _ _) in *.
  split; [|split; [lia|apply set_current_wf; [done|lia]]]. do 3 f_equal.
  rewrite !u32_small by (rewrite Z.shiftl_mul_pow2 by lia; lia). rewrite <- (Z.shiftl_0_r c3).
  rewrite (load_step _ _ 16), (load_step _ _ 8), (load_step _ _ 0) by lia. rewrite !Z.shiftl_0_r. lia.
Qed.

(** ** Names from the wire *)

Lemma loop_fw_exit src active allowed downcase nmax (tbl : list Z) fuel s r s' :
  Zlen (f_offs s) = Zlen tbl -> loop fuel (fw_body src active allowed downcase nmax) s = Done (r, s') ->
  Zlen (f_offs s') = Zlen tbl /\ (r = ISC_R_NOSPACE -> nmax <> DNS_NAME_MAXWIRE).
Proof.
  intros Hs Hl.
  apply (loop_partial _ (fun s => Zlen (f_offs s) = Zlen tbl)
    (fun '(r, s') => Zlen (f_offs s') = Zlen tbl /\ (r = ISC_R_NOSPACE -> nmax <> DNS_NAME_MAXWIRE))) with (3 := Hs) (4 := Hl).
  - clear. intros s s' Hs. unfold fw_body. case_if; [|intros Heq; discriminate Heq]. destruct (rd src (f_current s)) as [c| | |]; try (intros Heq; discriminate Heq). cbn [obind].
    destruct (f_state s); unfold fw_case_start, fw_case_copy, fw_case_newcurrent; cbn [f_offs f_labels f_nused f_n f_state f_base f_np f_new_current].
    + case_if; [|repeat case_if; intros ?; by simplify_eq/=].
      destruct (wr _ _ _) as [offs| | |] eqn:Eo; try done. apply wr_Done in Eo as [_ ->]. cbn [obind].
      destruct (nmax <? f_nused s + c + 1); [done|].
      destruct (wr _ _ _) as [base| | |]; try done. cbn. intros Heq. simplify_eq. cbn.
      rewrite <- Hs. unfold Zlen. by rewrite length_insert.
    + destruct (wr _ _ _) as [base| | |]; try done. intros ?; by simplify_eq/=.
    + destruct (wr _ _ _) as [base| | |]; try done. intros ?; by simplify_eq/=.
    + repeat case_if; intros ?; by simplify_eq/=.
  - clear. intros s [r s'] Hs. unfold fw_body. case_if; [|intros [= <- <-]; by destruct (f_done s)].
    destruct (rd src (f_current s)) as [c| | |]; try done. cbn [obind].
    destruct (f_state s); unfold fw_case_start, fw_case_copy, fw_case_newcurrent; cbn [f_offs f_labels f_nused f_n f_state f_base f_np f_new_current].
    + case_if; [|repeat case_if; intros ?; simplify_eq/=; by split].
      destruct (wr _ _ _) as [offs| | |] eqn:Eo; try done. cbn [obind].
      destruct (nmax <? f_nused s + c + 1); [|destruct (wr (f_base s) (f_np s) c); cbn; intros Heq; discriminate Heq].
      intros [= <- <-]. cbn. apply wr_Done in Eo as [_ ->]. split; [rewrite <- Hs; unfold Zlen; by rewrite length_insert|].
      destruct (Z.eqb_spec nmax DNS_NAME_MAXWIRE); done.
    + destruct (wr _ _ _); cbn; intros Heq; discriminate Heq.
    + destruct (wr _ _ _); cbn; intros Heq; discriminate Heq.
    + repeat case_if; intros ?; by simplify_eq/=.
Qed.

Lemma bindable_absolute a : Z.land (set_absolute a false) (Z.lor DNS_NAMEATTR_READONLY DNS_NAMEATTR_DYNAMIC)
  = Z.land a (Z.lor DNS_NAMEATTR_READONLY DNS_NAMEATTR_DYNAMIC).
Proof. unfold set_absolute. by rewrite <- Z.land_assoc. Qed.

Lemma fromwire_retry n source dctx options target r n' source' t' :
  wf_buffer target -> name_target n 128 ->
  dns_name_fromwire n source dctx options (Some target) = Done (r, n', source', Some t') -> r <> ISC_R_SUCCESS ->
  name_target n' 128 /\ (r = ISC_R_NOSPACE -> b_length target - b_used target < 255).
Proof.
  intros Wt [Hb Ho] E Hr. unfold dns_name_fromwire in E. cbn [select_target obind] in E.
  unfold fromwire_into in E. rewrite Hb in E. cbn [require obind] in E.
  destruct (loop _ _ _) as [[r0 s]| | |] eqn:El; try done. cbn [obind] in E.
  destruct (bool_decide (r0 = ISC_R_SUCCESS)) eqn:E0.
  { destruct (isc_buffer_forward _ _); try done. cbn [obind] in E. destruct (isc_buffer_add _ _); try done. cbn in E. by injection E as <-. }
  cbn [obind give_back] in E. injection E as <- <- <- <-.
  set (tbl := match offsets n with Some t => t | None => odata end) in *.
  eapply (loop_fw_exit _ _ _ _ _ tbl) in El as [Hoffs Hns]; [|done]. split_and!.
  - split.
    + unfold BINDABLE, MAKE_EMPTY in *. cbn [attributes].
      change (Z.land (attributes n) (Z.lnot DNS_NAMEATTR_ABSOLUTE)) with (set_absolute (attributes n) false).
      rewrite bindable_absolute. exact Hb.
    + cbn. unfold put_offsets. cbn. destruct (offsets n); [|done]. by rewrite Hoffs.
  - intros ->. specialize (Hns eq_refl). destruct Wt as [W1 W2 W3 W4 W5]. unfold isc_buffer_availablelength, DNS_NAME_MAXWIRE in Hns.
    rewrite u32_small in Hns by lia. destruct (Z.ltb_spec 255 (b_length target - b_used target)); lia.
Qed.

Lemma fromwire_read n source target dctx : wf_buffer source -> wf_buffer target -> name_target n 128 ->
  exists r n' source' t', dns_name_fromwire n source dctx 0 (Some target) = Done (r, n', source', Some t') /\ wf_buffer t'
    /\ if bool_decide (r = ISC_R_SUCCESS)
       then exists ls k, spelled source ls k /\ wf_name n' ls true /\ source' = set_current source (b_current source + k)
              /\ wf_buffer source'
       else source' = source /\ name_target n' 128 /\ (r = ISC_R_NOSPACE -> b_length target - b_used target < 255).
Proof.
  intros Ws Wt Hn. destruct (fromwire_into_spec n source dctx 0 target Ws Wt Hn) as (r & n' & s' & t' & E & Wt' & _ & Hr).
  assert (E' : dns_name_fromwire n source dctx 0 (Some target) = Done (r, n', s', Some t')).
  { unfold dns_name_fromwire. cbn [select_target obind]. by rewrite E. }
  exists r, n', s', t'. split_and!; [done|done|]. destruct (bool_decide (r = ISC_R_SUCCESS)) eqn:Er.
  - destruct Hr as (ls & k & Hs & _ & Wn & Es & Wsrc & _). exists ls, k. split_and!; [done| |done|done].
    replace (map (fold_label (downcase_of 0)) ls) with ls in Wn; [done|]. change (downcase_of 0) with false.
    unfold fold_label. by rewrite map_id.
  - apply bool_decide_eq_false in Er. destruct (fromwire_retry _ _ _ _ _ _ _ _ _ Wt Hn E' Er) as [Ht Hns].
    split_and!; [apply Hr|done|done].
Qed.

(** What reading names and data does to a message: scratch buffers and allocations. *)
Record reads (m m' : dns_message) : Prop := {
  rd_pad : m_scratchpad m' <> [] /\ Forall wf_buffer (m_scratchpad m');
  rd_rest : m' = with_memory (m_scratchpad m') (m_names m) (m_rdatasets m) (m_allocs m') m
}.

Definition pad_ok (m : dns_message) : Prop := m_scratchpad m <> [] /\ Forall wf_buffer (m_scratchpad m).

Lemma reads_refl m : pad_ok m -> reads m m.
Proof. intros H. split; [done|]. by destruct m. Qed.

Lemma reads_trans m1 m2 m3 : reads m1 m2 -> reads m2 m3 -> reads m1 m3.
Proof. intros [_ E1] [P2 E2]. split; [done|]. rewrite E2 at 1. by rewrite E1. Qed.

Lemma currentbuffer_spec m : pad_ok m -> exists b, currentbuffer m = Done b /\ wf_buffer b.
Proof.
  intros [Hne Hw]. unfold currentbuffer. destruct (m_scratchpad m) as [|b l _] using rev_ind; [done|].
  rewrite last_snoc. exists b. split; [done|]. by apply Forall_app in Hw as [_ [? _]%Forall_cons].
Qed.

Lemma put_currentbuffer_spec m b : pad_ok m -> wf_buffer b -> reads m (put_currentbuffer b m).
Proof.
  intros [Hne Hw] Hb. split; [|done]. cbn. split; [by destruct (removelast _)|].
  destruct (m_scratchpad m) as [|x l _] using rev_ind; [done|]. rewrite removelast_last.
  apply Forall_app in Hw as [Hl _]. apply Forall_app. split; [done|]. by apply Forall_singleton.
Qed.

Section memory.
Context (mem : Z -> bool).

Lemma alloc_reads m : pad_ok m -> reads m (alloc mem m).2.
Proof. intros H. by split. Qed.

Lemma newbuffer_spec m size r m' : pad_ok m -> 0 <= size -> size + 8 < 2 ^ 32 -> newbuffer mem m size = (r, m') ->
  reads m m' /\ ((r = ISC_R_SUCCESS /\ currentbuffer m' = Done (isc_buffer_init (replicate (Z.to_nat size) 0)))
                 \/ r = ISC_R_NOMEMORY).
Proof.
  intros [Hne Hw] H0 Hs. unfold newbuffer. cbn. destruct (mem (m_allocs m)); intros [= <- <-]; cbn.
  - split; [|left; split; [done|]; unfold currentbuffer; cbn; by rewrite last_snoc].
    split; [|done]. cbn. split; [by destruct (m_scratchpad m)|]. apply Forall_app. split; [done|]. constructor; [|done].
    apply wf_init; [by apply Forall_replicate|]. unfold Zlen. rewrite length_replicate. lia.
  - split; [by split|by right].
Qed.

(** The name spelled in the packet, or an error with the packet as it was; the second
    try has room for every name. *)
Definition name_read (source : isc_buffer_t) (m : dns_message) (r : isc_result_t) (name : dns_name_t)
    (source' : isc_buffer_t) (m' : dns_message) : Prop :=
  reads m m' /\ if bool_decide (r = ISC_R_SUCCESS)
    then exists ls k, spelled source ls k /\ wf_name name ls true /\ source' = set_current source (b_current source + k)
           /\ wf_buffer source'
    else source' = source.

Lemma getname_spec name source m dctx : wf_buffer source -> pad_ok m -> name_target name 128 ->
  exists r name' source' m', getname mem name source m dctx = Done (r, name', source', m') /\ name_read source m r name' source' m'.
Proof.
  intros Ws Hm Hn. unfold getname. cbn [getname_tries].
  destruct (currentbuffer_spec m Hm) as (b & -> & Wb). cbn [obind].
  destruct (fromwire_read name source b dctx Ws Wb Hn) as (r & n1 & s1 & b1 & -> & Wb1 & Hr). cbn [obind].
  set (m1 := put_currentbuffer b1 m). assert (R1 : reads m m1) by (by apply put_currentbuffer_spec).
  destruct (decide (r = ISC_R_NOSPACE)) as [->|Hns].
  2:{ rewrite bool_decide_eq_false_2 by done. eexists _, _, _, _. split; [done|]. split; [done|].
      destruct (bool_decide (r = ISC_R_SUCCESS)) eqn:E; [done|]. apply Hr. }
  rewrite bool_decide_eq_true_2 by done. destruct Hr as (-> & Hn1 & _).
  destruct (newbuffer mem m1 SCRATCHPAD_SIZE) as [r2 m2] eqn:E2.
  destruct (newbuffer_spec m1 SCRATCHPAD_SIZE r2 m2 (rd_pad _ _ R1)) as [R2 [[-> Hc]| ->]]; [done..| |].
  2:{ cbn. eexists _, _, _, _. split; [done|]. split; [by eapply reads_trans|done]. }
  rewrite bool_decide_eq_true_2 by done. unfold dns_name_reset. rewrite require_true by apply Hn1. cbn [obind].
  set (n2 := mkname _ _ _ _ _). assert (Hn2 : name_target n2 128).
  { destruct Hn1 as [Hb Ho]. split; [|exact Ho]. unfold BINDABLE in *. cbn [attributes n2]. rewrite bindable_absolute. exact Hb. }
  rewrite Hc. cbn [obind]. set (b2 := isc_buffer_init _). assert (Wb2 : wf_buffer b2).
  { apply wf_init; [by apply Forall_replicate|]. by vm_compute. }
  destruct (fromwire_read n2 source b2 dctx Ws Wb2 Hn2) as (r3 & n3 & s3 & b3 & -> & Wb3 & Hr3). cbn [obind].
  assert (Hne : r3 <> ISC_R_NOSPACE).
  { intros ->. destruct Hr3 as (_ & _ & H). specialize (H eq_refl). by vm_compute in H. }
  rewrite bool_decide_eq_false_2 by done. eexists _, _, _, _. split; [done|]. split.
  - eapply reads_trans; [exact R1|]. eapply reads_trans; [exact R2|]. apply put_currentbuffer_spec; [apply (rd_pad _ _ R2)|done].
  - destruct (bool_decide (r3 = ISC_R_SUCCESS)) eqn:E; [done|]. apply Hr3.
Qed.
End memory.

(** ** Data from the wire *)

Section rdata_wire.
Context `{RT : RdataTypes} `{OK : !RdataTypesOk} (mem : Z -> bool).

Lemma extends_same b : wf_buffer b -> extends_buffer b b.
Proof. intros W. split; [done|done|lia|]. unfold isc_buffer_usedregion. done. Qed.

Lemma putmem_extends t src : wf_buffer t -> bytes src -> b_used t + Zlen src <= b_length t ->
  exists t', isc_buffer_putmem t src = Done t' /\ extends_buffer t t' /\ b_used t' = b_used t + Zlen src.
Proof.
  intros W Hs Hl. pose proof W as [H1 H2 H3 H4 H5]. pose proof (Zlen_nonneg src). unfold isc_buffer_putmem.
  rewrite require_true by (rewrite u32_small by lia; lia). cbn [obind].
  destruct (blit (b_base t) (b_used t) src) as [base| | |] eqn:Eb;
    [|rewrite blit_ok in Eb by (unfold b_length in *; lia); discriminate Eb..].
  cbn [obind]. rewrite u32_small by lia. destruct (append_spec t src base W Hs Eb) as (W' & _ & El & Et & _).
  eexists. split; [done|]. split; [split; [exact W'|exact El|cbn; lia|]|done].
  unfold isc_buffer_usedregion, sub. cbn [b_base set_used set_base]. rewrite !drop_0. by rewrite Et.
Qed.

(** The data of the active region. *)
Definition data_read (source : isc_buffer_t) (type : Z) (r : isc_result_t) (d : option dns_rdata) (source' : isc_buffer_t) : Prop :=
  if bool_decide (r = ISC_R_SUCCESS)
  then exists rdata, d = Some rdata /\ rdata_type rdata = type /\ rdata_flags rdata = 0
         /\ (type = dns_rdatatype_sig \/ type = dns_rdatatype_rrsig -> 2 <= Zlen (rdata_data rdata))
         /\ bytes (rdata_data rdata) /\ source' = set_current source (b_active source)
  else d = None /\ source' = source.

(** The data is the one that [dns_rdata_fromwire] reads there. *)
Definition data_of (dctx : dns_decompress_t) (rdclass type : Z) (source : isc_buffer_t) (d : option dns_rdata) : Prop :=
  exists target source' t', dns_rdata_fromwire rdclass type source dctx 0 target = Done (ISC_R_SUCCESS, d, source', t').

Lemma rdata_fromwire_spec rdclass type source dctx target :
  wf_buffer source -> wf_buffer target -> b_current source <= b_active source -> b_active source - b_current source < 65536 ->
  exists r d source' t', dns_rdata_fromwire rdclass type source dctx 0 target = Done (r, d, source', t') /\ wf_buffer t'
    /\ data_read source type r d source'.
Proof.
  intros Ws Wt Hact Hlen. unfold dns_rdata_fromwire. destruct (type =? 0) eqn:E0.
  { eexists _, _, _, _. split; [done|]. by split. }
  assert (Eact : isc_buffer_activelength source = b_active source - b_current source).
  { unfold isc_buffer_activelength. destruct Ws. apply u32_small. lia. }
  rewrite Eact. rewrite require_true by lia. cbn [obind].
  destruct (switch_returns rdclass type source dctx 0 target Ws Wt Hact)
    as (r & s1 & t1 & def & -> & Hdef & (k & Hk & ->) & Hext & Hsig & Hsd). cbn [obind].
  assert (Hstep : exists r2 s2 t2 k2,
    (if def then
       if isc_buffer_availablelength t1 <? b_active source - b_current source
       then Done (ISC_R_NOSPACE, set_current source (b_current source + k), t1)
       else
         let* target := isc_buffer_putmem t1 (sub (b_base (set_current source (b_current source + k)))
             (b_current (set_current source (b_current source + k))) (b_active source - b_current source)) in
         let* source := isc_buffer_forward (set_current source (b_current source + k)) (b_active source - b_current source) in
         Done (ISC_R_SUCCESS, source, target)
     else Done (r, set_current source (b_current source + k), t1)) = Done (r2, s2, t2)
    /\ s2 = set_current source (b_current source + k2) /\ 0 <= k2 <= b_active source - b_current source
    /\ extends_buffer target t2
    /\ (r2 = ISC_R_SUCCESS -> type = dns_rdatatype_sig \/ type = dns_rdatatype_rrsig -> b_used target + 2 <= b_used t2)).
  { destruct def.
    - destruct (Hdef eq_refl) as [Hs1 ->]. destruct (Z.ltb_spec (isc_buffer_availablelength target) (b_active source - b_current source)) as [Hav|Hav].
      + eexists _, _, _, k. split_and!; [done|done|lia|lia|done|done].
      + rewrite Hs1. unfold isc_buffer_availablelength in Hav. pose proof Ws as [S1 S2 S3 S4 S5]. pose proof Wt as [T1 T2 T3 T4 T5].
        rewrite u32_small in Hav by lia.
        assert (Hz : Zlen (sub (b_base source) (b_current source) (b_active source - b_current source)) = b_active source - b_current source)
          by (apply Zlen_sub; unfold b_length in *; lia).
        destruct (putmem_extends target (sub (b_base source) (b_current source) (b_active source - b_current source)) Wt)
          as (t2 & -> & X2 & U2); [by apply bytes_sub|lia|]. cbn [obind].
        destruct (forward_spec source (b_active source - b_current source) Ws) as [-> _]; [lia..|]. cbn [obind].
        eexists _, _, _, _. split_and!; [done|done|lia|lia|done|]. intros _ Hty. by specialize (Hsd Hty).
    - eexists _, _, _, k. split_and!; [done|done|lia|lia|done|]. intros Er Hty. by apply Hsig. }
  destruct Hstep as (r2 & s2 & t2 & k2 & -> & -> & Hk2 & X2 & Hsig2). cbn [obind]. cbv zeta.
  pose proof (xb_wf _ _ X2) as W2. pose proof (xb_used _ _ X2) as U2. pose proof W2 as [T1 T2 T3 T4 T5].
  set (r3 := if bool_decide (r2 = ISC_R_SUCCESS) && (DNS_RDATA_MAXLENGTH <? b_used t2 - b_used target) then DNS_R_FORMERR else r2).
  set (r4 := if bool_decide (r3 = ISC_R_SUCCESS) && negb (buffer_empty (set_current source (b_current source + k2))) then DNS_R_EXTRADATA else r3).
  destruct (bool_decide (r4 = ISC_R_SUCCESS)) eqn:E4.
  2:{ eexists _, _, _, _. split; [done|]. split; [done|]. unfold data_read. by rewrite E4. }
  pose proof E4 as E4'. apply bool_decide_eq_true in E4'. unfold r4 in E4'.
  destruct (bool_decide (r3 = ISC_R_SUCCESS)) eqn:E3; cbn [andb] in E4'; [|apply bool_decide_eq_false in E3; done].
  destruct (buffer_empty _) eqn:Ebe; cbn [negb] in E4'; [|done]. unfold r3 in E4'.
  destruct (bool_decide (r2 = ISC_R_SUCCESS)) eqn:E2; cbn [andb] in E4'; [|apply bool_decide_eq_false in E2; done].
  apply bool_decide_eq_true in E2. unfold buffer_empty in Ebe. cbn in Ebe.
  eexists _, _, _, _. split; [done|]. split; [done|]. unfold data_read. rewrite E4. eexists. split; [done|]. cbn [rdata_type rdata_flags rdata_data].
  split_and!; [done|done| |by apply bytes_sub|f_equal; lia]. intros Hty. specialize (Hsig2 E2 Hty).
  destruct Wt. rewrite Zlen_sub by (unfold b_length in *; lia). lia.
Qed.

Lemma getrdata_spec source m dctx rdclass rdtype rdatalen : wf_buffer source -> pad_ok m -> 0 <= rdatalen < 65536 ->
  b_current source + rdatalen <= b_used source ->
  exists r d source' m', getrdata mem source m dctx rdclass rdtype rdatalen = Done (r, d, source', m') /\ reads m m'
    /\ wf_buffer source' /\ data_read (set_active source (b_current source + rdatalen)) rdtype r d source'
    /\ (r = ISC_R_SUCCESS -> data_of dctx rdclass rdtype (set_active source (b_current source + rdatalen)) d).
Proof.
  intros Ws Hm Hl Hu. unfold getrdata. destruct (currentbuffer_spec m Hm) as (b0 & -> & _). cbn [obind].
  pose proof Ws as [S1 S2 S3 S4 S5]. unfold isc_buffer_setactive.
  rewrite require_true by (rewrite u32_small by lia; lia). cbn [obind]. rewrite u32_small by lia.
  set (src := set_active source (b_current source + rdatalen)).
  assert (Wsrc : wf_buffer src) by (constructor; cbn; try done; unfold b_length in *; cbn; lia).
  set (I := fun (n : Z) (s : Z * Z * isc_buffer_t * dns_message) => let '(tries, trysize, s, m') := s in
     s = src /\ reads m m' /\ ((tries = 0 /\ n = 11) \/ (1 <= tries /\ 0 <= n <= 10 /\ 0 < trysize < 2 ^ 18 /\ 65535 < trysize * 2 ^ n))).
  destruct (loop_rule_bound (getrdata_body mem dctx rdclass rdtype rdatalen) I
    (fun '(r, d, s', m') => reads m m' /\ wf_buffer s' /\ data_read src rdtype r d s'
        /\ (r = ISC_R_SUCCESS -> data_of dctx rdclass rdtype src d))) with (fuel := getrdata_fuel) (n := 11)
    (s := (0, 0, src, m)) as ([[[r d] s'] m'] & E & H1 & H2 & H3 & H4); [| | |by exists r, d, s', m'].
  - intros n [[[tries trysize] s] m1] (-> & R1 & Ht). unfold getrdata_body.
    destruct (currentbuffer_spec m1 (rd_pad _ _ R1)) as (b & -> & Wb). cbn [obind].
    destruct (rdata_fromwire_spec rdclass rdtype src dctx b Wsrc Wb) as (r & d & s' & b' & Ef & Wb' & Hd); [cbn; lia..|]. rewrite Ef. cbn [obind].
    assert (R2 : reads m (put_currentbuffer b' m1)).
    { eapply reads_trans; [exact R1|]. apply put_currentbuffer_spec; [apply (rd_pad _ _ R1)|done]. }
    set (m2 := put_currentbuffer b' m1) in *. destruct (decide (r = ISC_R_NOSPACE)) as [->|Hns].
    2:{ rewrite bool_decide_eq_false_2 by done. split_and!; [done| |done|intros ->; by exists b, s', b']. unfold data_read in Hd.
        destruct (bool_decide (r = ISC_R_SUCCESS)); [destruct Hd as (? & _ & _ & _ & _ & _ & ->)|by destruct Hd as [_ ->]].
        apply set_current_wf; [done|cbn; lia]. }
    rewrite bool_decide_eq_true_2 by done. destruct Hd as [-> ->].
    destruct (negb (tries =? 0) && (65535 <=? trysize)) eqn:E1; [by split_and!|].
    assert (Hreq : (tries =? 0) || negb (trysize =? 0) = true).
    { destruct Ht as [[-> _]|(? & _ & ? & _)]; [done|]. rewrite (proj2 (Z.eqb_neq trysize 0)) by lia. by rewrite orb_true_r. }
    rewrite Hreq. cbn [require obind].
    set (size := if tries =? 0 then Z.max (2 * rdatalen) SCRATCHPAD_SIZE else u32 (trysize * 2)).
    assert (Hsize : 0 < size < 2 ^ 18 /\ exists n', 0 <= n' <= 10 /\ n' < n /\ 65535 < size * 2 ^ n').
    { unfold size. destruct Ht as [[-> ->]|(H1 & H2 & H3 & H4)].
      - cbn [Z.eqb]. unfold SCRATCHPAD_SIZE. split; [lia|]. exists 10. split_and!; try lia.
      - rewrite (proj2 (Z.eqb_neq tries 0)) in E1 |- * by lia. cbn [negb andb] in E1. apply Z.leb_gt in E1.
        rewrite u32_small by lia. split; [lia|].
        assert (n <> 0) by (intros ->; lia). exists (n - 1). split_and!; [lia..|].
        replace n with (Z.succ (n - 1)) in H4 by lia. rewrite Z.pow_succ_r in H4 by lia. lia. }
    destruct Hsize as (Hs1 & n' & Hn' & Hlt & Hp).
    destruct (newbuffer mem m2 size) as [r2 m3] eqn:E2.
    destruct (newbuffer_spec mem m2 size r2 m3 (rd_pad _ _ R2)) as [R3 [[-> _]| ->]]; [lia|lia|done| |].
    + rewrite bool_decide_eq_true_2 by done. exists n'. split; [|lia]. split; [done|]. split; [by eapply reads_trans|].
      right. split_and!; lia.
    + rewrite bool_decide_eq_false_2 by done. split; [by eapply reads_trans|]. by split_and!.
  - split; [done|]. split; [by apply reads_refl|]. by left.
  - unfold getrdata_fuel. lia.
Qed.
End rdata_wire.
