(* ===== verification/MessageRead.v ===== *)
(** * Reading a record

    Rules for the parser monad, and the steps of the parser that read from the packet
    without changing a section: names, fields, the checks of special types, and the
    data. *)

From S2P Require Import Prelude Buffer Name NameTheory FromWire Rdata Message MessageWire.


(** ** Rules for the parser monad *)

(** The computation returns: with a value that satisfies [Q], or with an error that
    satisfies [E]. *)
Definition wp {A} (m : parser A) (Q : A -> section_st -> Prop) (E : isc_result_t -> section_st -> Prop) (s : section_st) :
    Prop :=
  match m s with
  | Done (inr a, s') => Q a s'
  | Done (inl r, s') => E r s'
  | _ => False
  end.

Lemma wp_conseq {A} (m : parser A) (Q Q' : A -> section_st -> Prop) (E E' : isc_result_t -> section_st -> Prop) s :
  wp m Q E s -> (forall a s', Q a s' -> Q' a s') -> (forall r s', E r s' -> E' r s') -> wp m Q' E' s.
Proof. unfold wp. destruct (m s) as [[[r|a] s']| | |]; try done; eauto. Qed.

Section wp.
Context (E : isc_result_t -> section_st -> Prop).

Lemma wp_ret {A} (a : A) Q s : Q a s -> wp (ret a) Q E s.
Proof. done. Qed.

Lemma wp_fail {A} r (Q : A -> section_st -> Prop) s : E r s -> wp (fail r) Q E s.
Proof. done. Qed.

Lemma wp_bind {A B} (m : parser A) (k : A -> parser B) Q s :
  wp m (fun a s' => wp (k a) Q E s') E s -> wp (bind m k) Q E s.
Proof. unfold wp, bind. destruct (m s) as [[[r|a] s']| | |]; done. Qed.

Lemma wp_mono {A} (m : parser A) (Q Q' : A -> section_st -> Prop) s :
  wp m Q E s -> (forall a s', Q a s' -> Q' a s') -> wp m Q' E s.
Proof. unfold wp. destruct (m s) as [[[r|a] s']| | |]; try done. intros H1 H2. by apply H2. Qed.

Lemma wp_lift {A} (o : outcome A) a Q s : o = Done a -> Q a s -> wp (lift o) Q E s.
Proof. intros -> H. exact H. Qed.

Lemma wp_get_msg Q s : Q (s_msg s) s -> wp get_msg Q E s.
Proof. done. Qed.

Lemma wp_get_source Q s : Q (s_source s) s -> wp get_source Q E s.
Proof. done. Qed.
End wp.

Definition set_msg (m : dns_message) (s : section_st) : section_st :=
  mkSt (s_source s) m (s_problem s) (s_free_name s) (s_free_rdataset s).
Definition set_source (b : isc_buffer_t) (s : section_st) : section_st :=
  mkSt b (s_msg s) (s_problem s) (s_free_name s) (s_free_rdataset s).
Definition set_free (fn fr : bool) (s : section_st) : section_st :=
  mkSt (s_source s) (s_msg s) (s_problem s) fn fr.

(** ** Reading *)

Definition readable (s : section_st) : Prop := wf_buffer (s_source s) /\ pad_ok (s_msg s).

(** A part of the parser that only reads: the packet, the sections and the records
    kept apart are as before, and so is the account of the pools. *)
Record calm (s s' : section_st) : Prop := {
  cm_readable : readable s';
  cm_base : b_base (s_source s') = b_base (s_source s);
  cm_used : b_used (s_source s') = b_used (s_source s);
  cm_problem : s_problem s' = s_problem s;
  cm_rdataset : s_free_rdataset s' = s_free_rdataset s;
  cm_sections : m_sections (s_msg s') = m_sections (s_msg s);
  cm_opt : m_opt (s_msg s') = m_opt (s_msg s);
  cm_sig0 : m_sig0 (s_msg s') = m_sig0 (s_msg s);
  cm_tsig : m_tsig (s_msg s') = m_tsig (s_msg s);
  cm_counts : m_counts (s_msg s') = m_counts (s_msg s);
  cm_opcode : m_opcode (s_msg s') = m_opcode (s_msg s);
  cm_intent : m_from_to_wire (s_msg s') = m_from_to_wire (s_msg s);
  cm_names : m_names (s_msg s') - Z.b2z (s_free_name s') = m_names (s_msg s) - Z.b2z (s_free_name s);
  cm_rdatasets : m_rdatasets (s_msg s') = m_rdatasets (s_msg s)
}.

Definition fails (s0 : section_st) (r : isc_result_t) (s : section_st) : Prop := r <> ISC_R_SUCCESS /\ calm s0 s.

Lemma calm_refl s : readable s -> calm s s.
Proof. intros H. by split. Qed.

Lemma calm_trans s1 s2 s3 : calm s1 s2 -> calm s2 s3 -> calm s1 s3.
Proof. intros [] []. split; congruence || lia || done. Qed.

Lemma fails_trans s1 s2 r s3 : calm s1 s2 -> fails s2 r s3 -> fails s1 r s3.
Proof. intros H [? ?]. split; [done|]. by eapply calm_trans. Qed.

(** The current position of the packet. *)
Definition at_ (s : section_st) : Z := b_current (s_source s).

Lemma calm_source s b : readable s -> wf_buffer b -> b_base b = b_base (s_source s) -> b_used b = b_used (s_source s) ->
  calm s (set_source b s).
Proof. intros [W P] Wb E1 E2. split; try done. Qed.

Lemma calm_reads s m : readable s -> reads (s_msg s) m -> calm s (set_msg m s).
Proof. intros [W P] [P' E]. split; cbn [set_msg s_msg s_source s_problem s_free_rdataset s_free_name]; [by split|done..|rewrite E; done|rewrite E; done|rewrite E; done|rewrite E; done|rewrite E; done|rewrite E; done|rewrite E; done|rewrite E; cbn; lia|by rewrite E]. Qed.

Lemma reads_state m m' : reads m m' -> m_state m' = m_state m /\ m_rdclass m' = m_rdclass m /\ m_flags m' = m_flags m.
Proof. intros [_ E]. by rewrite E. Qed.

Ltac wbind := eapply wp_bind.
(** The next step has the specification [L]. *)
Ltac wstep L := eapply wp_bind, wp_conseq; [eapply L|cbv beta|cbv beta].

Lemma set_active_wf b k : wf_buffer b -> 0 <= k <= b_used b -> wf_buffer (set_active b k).
Proof. intros [H1 H2 H3 H4 H5] Hk. by constructor. Qed.

Section reading.
Context `{RT : RdataTypes} `{OK : !RdataTypesOk} (mem : Z -> bool).

Lemma wp_allocate s : readable s ->
  wp (allocate mem) (fun _ s' => s' = set_msg (alloc mem (s_msg s)).2 s /\ calm s s') (fails s) s.
Proof.
  intros R. assert (C : calm s (set_msg (alloc mem (s_msg s)).2 s)) by (apply calm_reads; [done|apply alloc_reads, R]).
  unfold allocate. wbind. apply wp_get_msg. wbind. unfold wp at 1, put_msg. fold (set_msg (alloc mem (s_msg s)).2 s).
  destruct (alloc mem (s_msg s)).1; [by apply wp_ret|apply wp_fail; by split].
Qed.

Lemma wp_need n s : readable s ->
  wp (need n) (fun _ s' => s' = s /\ n <= b_used (s_source s) - at_ s) (fails s) s.
Proof.
  intros R. unfold need. wbind. apply wp_get_source. pose proof R as [[H1 H2 H3 H4 H5] _].
  unfold isc_buffer_remaininglength. rewrite u32_small by lia. case_if; [apply wp_fail; split; [done|by apply calm_refl]|].
  apply wp_ret. split; [done|]. unfold at_. lia.
Qed.

Lemma wp_getuint16 s : readable s -> at_ s + 2 <= b_used (s_source s) ->
  wp getuint16 (fun v s' => v = u16_at (b_base (s_source s)) (at_ s) /\ 0 <= v < 65536 /\ at_ s' = at_ s + 2
    /\ calm s s' /\ s_free_name s' = s_free_name s) (fails s) s.
Proof.
  intros R Hu. destruct (get16_spec (s_source s) (proj1 R) Hu) as (E & Hv & W). unfold getuint16. wbind. apply wp_get_source.
  wbind. eapply wp_lift; [exact E|]. split_and!; try done; try apply Hv. by apply calm_source.
Qed.

Lemma wp_getuint32 s : readable s -> at_ s + 4 <= b_used (s_source s) ->
  wp getuint32 (fun v s' => v = u32_at (b_base (s_source s)) (at_ s) /\ 0 <= v < 2 ^ 32 /\ at_ s' = at_ s + 4
    /\ calm s s' /\ s_free_name s' = s_free_name s) (fails s) s.
Proof.
  intros R Hu. destruct (get32_spec (s_source s) (proj1 R) Hu) as (E & Hv & W). unfold getuint32. wbind. apply wp_get_source.
  wbind. eapply wp_lift; [exact E|]. split_and!; try done; try apply Hv. by apply calm_source.
Qed.

(** The name spelled from [pos] on takes [k] octets. *)
Definition name_at (b : isc_buffer_t) (pos : Z) (ls : list (list Z)) (k : Z) : Prop :=
  wire_at (b_base b) (b_used b) pos pos ls k.

Lemma wp_read_name dctx s : readable s -> s_free_name s = false ->
  wp (read_name mem dctx) (fun name s' => calm s s' /\ s_free_name s' = true
    /\ exists ls k, name_at (s_source s) (at_ s) ls k /\ wf_name name ls true /\ at_ s' = at_ s + k) (fails s) s.
Proof.
  intros R Hf. unfold read_name, namepool_get. wbind. wstep wp_allocate; [done| |done]. intros _ s1 [-> C1].
  unfold add_names. wbind. apply wp_get_msg. unfold wp at 1, put_msg. wbind. unfold wp at 1, put_free_name. cbn [s_source s_msg s_problem s_free_rdataset].
  set (s2 := mkSt _ _ _ _ _).
  assert (C2 : calm s s2) by (destruct C1; split; cbn; try done; rewrite Hf; cbn; lia).
  wstep wp_allocate; [apply C2| |by intros r s'; apply fails_trans]. intros _ s3 [-> C3].
  assert (C4 : calm s (set_msg (alloc mem (s_msg s2)).2 s2)) by (by eapply calm_trans). set (s3 := set_msg _ s2) in *.
  wbind. apply wp_get_source. pose proof (cm_readable _ _ C4) as [W3 P3]. pose proof W3 as [B1 B2 B3 B4 B5].
  assert (Erem : isc_buffer_remaininglength (s_source s3) = b_used (s_source s3) - b_current (s_source s3)) by (apply u32_small; lia).
  set (src := set_active (s_source s3) (b_used (s_source s3))).
  assert (Eact : isc_buffer_setactive (s_source s3) (isc_buffer_remaininglength (s_source s3)) = Done src).
  { rewrite Erem. unfold isc_buffer_setactive. rewrite (u32_small (_ + _)) by lia. rewrite require_true by lia. cbn [obind].
    unfold src. do 2 f_equal. lia. }
  wbind. eapply wp_lift; [exact Eact|]. wbind. unfold wp at 1, put_source. fold (set_source src s3). wbind. apply wp_get_msg.
  assert (Wsrc : wf_buffer src) by (apply set_active_wf; [done|lia]).
  destruct (getname_spec mem (dns_name_init (Some odata)) src (s_msg s3) dctx Wsrc P3) as (r & n' & b' & m' & Eg & Rm & Hr); [by vm_compute|].
  wbind. eapply wp_lift; [exact Eg|]. cbv beta iota. wbind. unfold wp at 1, put_source. wbind. unfold wp at 1, put_msg. cbn [s_source s_msg s_problem s_free_rdataset s_free_name set_source].
  assert (C5 : wf_buffer b' -> b_base b' = b_base (s_source s3) -> b_used b' = b_used (s_source s3) ->
    calm s (set_msg m' (set_source b' s3))).
  { intros Wb E1 E2. assert (C5 : calm s3 (set_source b' s3)) by (by apply calm_source).
    eapply calm_trans; [exact C4|]. eapply calm_trans; [exact C5|]. by apply calm_reads; [apply C5|]. }
  destruct (bool_decide (r = ISC_R_SUCCESS)) eqn:Er.
  - destruct Hr as (ls & k & Hs & Wn & -> & Wb'). apply wp_ret. split_and!; [by apply C5|done|].
    exists ls, k. split_and!; [exact Hs|done|done].
  - subst b'. apply wp_fail. split; [by apply bool_decide_eq_false in Er|]. by apply C5.
Qed.

(** A step that does not read from the packet. *)
Definition still (s s' : section_st) : Prop :=
  calm s s' /\ s_free_name s' = s_free_name s /\ s_source s' = s_source s.

Lemma still_refl s : readable s -> still s s.
Proof. intros R. split_and!; [by apply calm_refl|done..]. Qed.

Lemma wp_formerr {A} (c : bool) (k : unit -> parser A) Q s : readable s -> (c = false -> wp (k tt) Q (fails s) s) ->
  wp (bind (if c then DO_FORMERR false else ret tt) k) Q (fails s) s.
Proof.
  intros R H. wbind. destruct c; [|by apply H]. unfold wp, DO_FORMERR. split; [done|by apply calm_refl].
Qed.

Lemma wp_check_class rdtype rdclass s : readable s ->
  wp (check_class false rdtype rdclass) (fun _ s' => still s s') (fails s) s.
Proof.
  intros R. unfold check_class. wbind. apply wp_get_msg. wbind.
  apply wp_mono with (fun _ s' => still s s').
  - case_if; [|by apply wp_ret, still_refl]. unfold wp, put_msg. split_and!; [|done..]. by split.
  - intros _ s1 S1. wbind. apply wp_get_msg. case_if; [|by apply wp_ret]. split; [done|]. apply S1.
Qed.

(** The types whose name and type are not searched for. *)
Definition unsearched (rdtype : Z) : bool := (rdtype =? dns_rdatatype_opt) || (rdtype =? dns_rdatatype_tsig).

(** A TSIG is the last record of the additional section, an OPT the first one. *)
Definition unsearched_ok (id count rdtype : Z) (m : dns_message) : Prop :=
  (rdtype = dns_rdatatype_tsig -> id = DNS_SECTION_ADDITIONAL /\ count = count_of m id - 1)
  /\ (rdtype = dns_rdatatype_opt -> m_opt m = None).

Lemma wp_check_special id count recstart rdtype rdclass name ls s : readable s -> wf_name name ls true ->
  wp (check_special false id count recstart rdtype rdclass name)
    (fun skip s' => still s s' /\ skip = unsearched rdtype /\ unsearched_ok id count rdtype (s_msg s)) (fails s) s.
Proof.
  intros R Wn. unfold check_special. wbind. apply wp_get_msg. destruct (Z.eqb_spec rdtype dns_rdatatype_tsig) as [->|Ht].
  - apply wp_formerr; [done|]. intros Hc. wbind. apply wp_get_msg. wbind. unfold wp at 1, put_msg. apply wp_ret.
    split_and!; [split_and!; [|done..]; by split|done|]. split; [|done]. intros _. unfold DNS_SECTION_ADDITIONAL in *. lia.
  - destruct (Z.eqb_spec rdtype dns_rdatatype_opt) as [->|Ho].
    + wbind. eapply wp_lift; [exact (equal_fold _ _ _ _ rootname_wf Wn)|]. apply wp_formerr; [done|]. intros Hc. apply wp_ret.
      split_and!; [by apply still_refl|done|]. split; [done|]. intros _. apply orb_false_iff in Hc as [_ Hc%bool_decide_eq_false]. by apply dec_stable in Hc.
    + assert (Hs : unsearched rdtype = false) by (unfold unsearched; by rewrite (proj2 (Z.eqb_neq _ _) Ht), (proj2 (Z.eqb_neq _ _) Ho)).
      rewrite Hs. case_if; [apply wp_formerr; [done|]; intros _|]; apply wp_ret; (split_and!; [by apply still_refl|done|by split]).
Qed.

(** The data of a record at [pos]: [c] is the class it is read with. *)
Definition data_at (dctx : dns_decompress_t) (c type : Z) (b : isc_buffer_t) (pos len : Z) (d : list Z) : Prop :=
  exists rdata, data_of dctx c type (mkbuffer (b_base b) (b_used b) pos (pos + len)) (Some rdata) /\ d = rdata_data rdata.

(** What the data of a record is: nothing for the tests and deletions of a dynamic
    update, else what is read from the packet. *)
Definition rdata_from (dctx : dns_decompress_t) (opcode id rdclass rdtype : Z) (b : isc_buffer_t) (pos len : Z)
    (rdata : dns_rdata) : Prop :=
  if (opcode =? dns_opcode_update) && update id rdclass
  then len = 0 /\ rdata = mkRdata [] rdclass rdtype DNS_RDATA_UPDATE
  else exists c d, data_at dctx c rdtype b pos len d /\ rdata = mkRdata d rdclass rdtype 0
         /\ (c = rdclass \/ (opcode = dns_opcode_update /\ rdclass = dns_rdataclass_none /\ id = DNS_SECTION_UPDATE)).

(** Signatures have a type covered. *)
Definition signed (rdata : dns_rdata) : Prop :=
  bytes (rdata_data rdata) /\ (rdata_flags rdata = 0 ->
    rdata_type rdata = dns_rdatatype_sig \/ rdata_type rdata = dns_rdatatype_rrsig -> 2 <= Zlen (rdata_data rdata)).

Lemma wp_read_rdata dctx id rdtype rdclass len s : readable s -> 0 <= len < 65536 -> at_ s + len <= b_used (s_source s) ->
  wp (read_rdata mem dctx id rdtype rdclass len) (fun rdata s' => calm s s' /\ s_free_name s' = s_free_name s
    /\ at_ s' = at_ s + len /\ signed rdata /\ rdata_type rdata = rdtype
    /\ rdata_from dctx (m_opcode (s_msg s)) id rdclass rdtype (s_source s) (at_ s) len rdata) (fails s) s.
Proof.
  intros R Hl Hu. unfold read_rdata. wstep wp_allocate; [done| |done]. intros _ s1 [-> C1]. set (s1 := set_msg _ s) in *. wbind. apply wp_get_msg.
  unfold rdata_from. change (m_opcode (s_msg s1)) with (m_opcode (s_msg s)).
  destruct ((m_opcode (s_msg s) =? dns_opcode_update) && update id rdclass) eqn:Eu.
  { destruct (Z.eqb_spec len 0) as [->|]; [|apply wp_fail; by split]. apply wp_ret. split_and!; try done; [unfold at_; cbn; lia|split; [apply Forall_nil_2|done]]. }
  wbind. apply wp_get_source. set (c := if (rdclass =? _) && _ && _ then _ else _).
  assert (Hc : c = rdclass \/ (m_opcode (s_msg s) = dns_opcode_update /\ rdclass = dns_rdataclass_none /\ id = DNS_SECTION_UPDATE)).
  { unfold c. destruct ((rdclass =? _) && _ && _) eqn:E; [|by left]. right. rewrite !andb_true_iff, !Z.eqb_eq in E. tauto. }
  pose proof (cm_readable _ _ C1) as [W1 P1].
  destruct (getrdata_spec mem (s_source s1) (s_msg s1) dctx c rdtype len W1 P1 Hl) as (r & d & b' & m' & Eg & Rm & Wb & Hd & Hof); [exact Hu|].
  wbind. eapply wp_lift; [exact Eg|]. cbv beta iota. wbind. unfold wp at 1, put_source. wbind. unfold wp at 1, put_msg. cbn [s_source s_msg s_problem s_free_rdataset s_free_name].
  assert (C2 : b_base b' = b_base (s_source s1) -> b_used b' = b_used (s_source s1) -> calm s (set_msg m' (set_source b' s1))).
  { intros E1 E2. assert (C2 : calm s1 (set_source b' s1)) by (by apply calm_source).
    eapply calm_trans; [exact C1|]. eapply calm_trans; [exact C2|]. by apply calm_reads; [apply C2|]. }
  unfold data_read in Hd. destruct (bool_decide (r = ISC_R_SUCCESS)) eqn:Er.
  - apply bool_decide_eq_true in Er as ->. destruct Hd as (rdata & -> & Et & Ef & Hsig & Hb & ->). apply wp_ret.
    split_and!; [by apply C2|done|done| |done|].
    + split; [done|]. intros _ Hty. apply Hsig. cbn in Hty. by rewrite Et in Hty.
    + exists c, (rdata_data rdata). split_and!; [|by rewrite Et, Ef|done]. exists rdata. split; [by apply Hof|done].
  - apply bool_decide_eq_false in Er. destruct Hd as [-> ->]. apply wp_fail. split; [done|]. by apply C2.
Qed.

(** The type covered by a signature. *)
Definition covers_of (rdata : dns_rdata) : Z :=
  if ((rdata_type rdata =? dns_rdatatype_sig) || (rdata_type rdata =? dns_rdatatype_rrsig)) && (rdata_flags rdata =? 0)
  then u16_at (rdata_data rdata) 0 else 0.

Definition sigzero (rdata : dns_rdata) : bool :=
  (rdata_type rdata =? dns_rdatatype_sig) && (rdata_flags rdata =? 0) && (covers_of rdata =? 0).

Lemma covers_spec rdata : signed rdata -> rdata_flags rdata = 0 ->
  rdata_type rdata = dns_rdatatype_sig \/ rdata_type rdata = dns_rdatatype_rrsig ->
  dns_rdata_covers rdata = Done (u16_at (rdata_data rdata) 0) /\ 0 <= u16_at (rdata_data rdata) 0.
Proof.
  intros [Hb Hs] Hf Ht. specialize (Hs Hf Ht).
  destruct (rd_nth (rdata_data rdata) 0 Hb) as [E0 R0]; [lia|]. destruct (rd_nth (rdata_data rdata) 1 Hb) as [E1 R1]; [lia|].
  assert (E : uint16_fromregion (rdata_data rdata) = Done (u16_at (rdata_data rdata) 0)).
  { unfold uint16_fromregion. rewrite require_true by lia. cbn [obind]. rewrite E0. cbn [obind]. rewrite E1. cbn [obind].
    unfold u16_at. f_equal. change (Z.to_nat (0 + 1)) with (Z.to_nat 1). rewrite Z.shiftl_mul_pow2 by lia. by rewrite lor_add by lia. }
  split; [|unfold u16_at; change (Z.to_nat (0 + 1)) with (Z.to_nat 1); lia].
  unfold dns_rdata_covers, covers_rrsig, covers_sig. rewrite E. by destruct Ht as [-> | ->].
Qed.

Lemma wp_check_covers id count recstart rdata s : readable s -> signed rdata ->
  wp (check_covers false id count recstart (rdata_type rdata) rdata)
    (fun cov s' => still s s' /\ cov = (covers_of rdata, sigzero rdata)
       /\ (sigzero rdata = true -> id = DNS_SECTION_ADDITIONAL /\ count = count_of (s_msg s) id - 1)) (fails s) s.
Proof.
  intros R Hs. pose proof (covers_spec rdata Hs) as Hc. unfold check_covers, sigzero, covers_of.
  destruct (Z.eqb_spec (rdata_flags rdata) 0) as [Hf|Hf].
  2:{ rewrite !andb_false_r. apply wp_ret. split_and!; [by apply still_refl|done|done]. }
  rewrite !andb_true_r. specialize (Hc Hf). destruct (Z.eqb_spec (rdata_type rdata) dns_rdatatype_rrsig) as [Ht|Ht].
  - rewrite Ht in Hc |- *. destruct Hc as [-> _]; [by right|]. cbn [orb andb Z.eqb]. wbind. eapply wp_lift; [done|].
    apply wp_formerr; [done|]. intros _. apply wp_ret. split_and!; [by apply still_refl|done|done].
  - destruct (Z.eqb_spec (rdata_type rdata) dns_rdatatype_sig) as [Ht'|Ht'].
    2:{ apply wp_ret. split_and!; [by apply still_refl|done|done]. }
    destruct Hc as [-> _]; [by left|]. cbn [orb andb]. wbind. eapply wp_lift; [done|]. destruct (u16_at (rdata_data rdata) 0 =? 0) eqn:E0.
    + wbind. apply wp_get_msg. apply wp_formerr; [done|]. intros Hc. wbind. apply wp_get_msg. wbind. unfold wp at 1, put_msg. apply wp_ret.
      split_and!; [split_and!; [|done..]; by split|done|]. intros _. unfold DNS_SECTION_ADDITIONAL in *. lia.
    + apply wp_ret. split_and!; [by apply still_refl|done|done].
Qed.
End reading.
