(* ===== verification/MessagePlace.v ===== *)
(** * Sections of a message

    What adding a record does to a section, as a relation on lists, with the names and
    types that stay distinct, and the steps of the parser that implement it. *)

From S2P Require Import Prelude Buffer Name NameTheory FromWire Rdata Message MessageWire MessageRead.

(** ** Sections as lists *)

Definition total {A} (f : A -> Z) (l : list A) : Z := foldr (fun x n => f x + n) 0 l.
Arguments total : simpl never.

Lemma sum_app {A} (f : A -> Z) l1 l2 : total f (l1 ++ l2) = total f l1 + total f l2.
Proof. unfold total. induction l1 as [|x l1 IH]; cbn; [done|]. lia. Qed.

Lemma sum_insert {A} (f : A -> Z) l i x y : l !! i = Some x -> total f (<[i := y]> l) = total f l - f x + f y.
Proof.
  revert i. induction l as [|z l IH]; intros [|i]; try done.
  - intros [= ->]. unfold total. cbn. lia.
  - intros E. specialize (IH i E). change (f z + total f (<[i := y]> l) = f z + total f l - f x + f y). lia.
Qed.

Lemma alter_insert {A} (g : A -> A) (l : list A) i x : l !! i = Some x -> alter g i l = <[i := g x]> l.
Proof. revert i. induction l as [|z l IH]; intros [|i] E; try done; [by injection E as ->|]. cbn. f_equal. by apply IH. Qed.

Lemma elem_of_alter {A} (g : A -> A) (l : list A) i x : x ∈ alter g i l -> x ∈ l \/ exists y, l !! i = Some y /\ x = g y.
Proof.
  revert i. induction l as [|z l IH]; intros [|i] H; [by left..| |]; cbn in H; apply elem_of_cons in H as [->|H];
    [by right; exists z|left; set_solver|left; set_solver|]. destruct (IH i H) as [?|?]; [left; set_solver|by right].
Qed.

Lemma map_alter {A B} (f : A -> B) (g : A -> A) (l : list A) i : (forall x, l !! i = Some x -> f (g x) = f x) -> map f (alter g i l) = map f l.
Proof.
  revert i. induction l as [|z l IH]; intros [|i] H; try done; cbn; [f_equal; by apply H|]. f_equal. by apply IH.
Qed.

Lemma sum_alter {A} (f : A -> Z) (g : A -> A) (l : list A) i x : l !! i = Some x -> total f (alter g i l) = total f l - f x + f (g x).
Proof. intros E. rewrite (alter_insert _ _ _ _ E). by apply sum_insert. Qed.

Definition rdataset_count (l : list msgname) : Z := total (fun n => Zlen (mn_list n)) l.

(** The class, the type and the type covered identify an rdataset of a name. *)
Definition key (r : dns_rdataset) : Z * Z * Z := (rds_class r, rds_type r, rds_covers r).
Definition data_key (d : dns_rdata) : Z * Z * Z := (rdata_class d, rdata_type d, covers_of d).

Definition on_list (f : list dns_rdataset -> list dns_rdataset) (n : msgname) : msgname :=
  mkMsgname (mn_name n) (f (mn_list n)).

(** A section after a record was added to it. *)
Inductive placed (search : bool) (name : dns_name_t) (ttl : Z) (d : dns_rdata) (l : list msgname) : list msgname -> Prop :=
  | placed_name :
      (search = true -> forall n, n ∈ l -> name_fold (mn_name n) <> name_fold name) ->
      placed search name ttl d l (l ++ [mkMsgname name [add_rdata ttl d (new_rdataset (rdata_class d) (rdata_type d) (covers_of d) ttl)]])
  | placed_type i n :
      search = true -> l !! i = Some n -> name_fold (mn_name n) = name_fold name ->
      (forall r, r ∈ mn_list n -> key r <> data_key d) ->
      placed search name ttl d l
        (alter (on_list (fun rs => rs ++ [add_rdata ttl d (new_rdataset (rdata_class d) (rdata_type d) (covers_of d) ttl)])) i l)
  | placed_data i n j r :
      search = true -> l !! i = Some n -> name_fold (mn_name n) = name_fold name -> mn_list n !! j = Some r -> key r = data_key d ->
      placed search name ttl d l (alter (on_list (alter (add_rdata ttl d) j)) i l).

(** Names and data are well formed, the data of an rdataset is not empty and has its
    class and types; with a search, names and types are not repeated. *)
Record section_ok (search : bool) (l : list msgname) : Prop := {
  so_names : forall n, n ∈ l -> exists ls, wf_name (mn_name n) ls true;
  so_data : forall n r, n ∈ l -> r ∈ mn_list n ->
    rdl_rdata (rds_list r) <> [] /\ forall d, d ∈ rdl_rdata (rds_list r) -> data_key d = key r;
  so_distinct : search = true -> NoDup (map (fun n => name_fold (mn_name n)) l);
  so_types : search = true -> forall n, n ∈ l -> NoDup (map key (mn_list n))
}.

Lemma section_ok_nil search : section_ok search [].
Proof. split; [set_solver|set_solver|intros; constructor|set_solver]. Qed.

Lemma concat_alter {A B} (f : A -> list B) (g : A -> A) (l : list A) i x e : l !! i = Some x -> f (g x) ≡ₚ f x ++ [e] ->
  concat (map f (alter g i l)) ≡ₚ concat (map f l) ++ [e].
Proof.
  revert i. induction l as [|y l IH]; intros [|i] Hx He; try done; cbn in *.
  - injection Hx as ->. rewrite He. rewrite <- !app_assoc. f_equiv. apply Permutation_app_comm.
  - rewrite (IH i Hx He). by rewrite app_assoc.
Qed.

Lemma NoDup_snoc {A} (l : list A) x : NoDup l -> x ∉ l -> NoDup (l ++ [x]).
Proof. intros H1 H2. apply NoDup_app. split_and!; [done| |apply NoDup_singleton]. set_solver. Qed.

Lemma fresh_snoc {A B} (f : A -> B) (l : list A) x : NoDup (map f l) -> (forall y, y ∈ l -> f y <> f x) -> NoDup (map f (l ++ [x])).
Proof.
  intros H1 H2. rewrite map_app. apply NoDup_snoc; [done|]. intros (y & E & Hy)%list_elem_of_fmap. by apply (H2 y Hy).
Qed.

(** The rdatasets of a name may change; the name is the same. *)
Lemma ok_alter search l i f : section_ok search l ->
  (forall n, l !! i = Some n -> (forall r, r ∈ f (mn_list n) ->
     rdl_rdata (rds_list r) <> [] /\ forall d, d ∈ rdl_rdata (rds_list r) -> data_key d = key r)
   /\ (search = true -> NoDup (map key (f (mn_list n))))) ->
  section_ok search (alter (on_list f) i l).
Proof.
  intros [Hn Hd Hu Ht] Hf. split.
  - intros n [H|(y & Hy & ->)]%elem_of_alter; [by apply Hn|]. apply (Hn y). by eapply list_elem_of_lookup_2.
  - intros n r [H|(y & Hy & ->)]%elem_of_alter Hr; [by apply (Hd n)|]. by apply (Hf y Hy).
  - intros Hs. rewrite map_alter by done. by apply Hu.
  - intros Hs n [H|(y & Hy & ->)]%elem_of_alter; [by apply Ht|]. by apply (Hf y Hy).
Qed.

Lemma placed_ok search name ls ttl d l l' : wf_name name ls true -> section_ok search l -> placed search name ttl d l l' ->
  section_ok search l'.
Proof.
  intros Wn Hok P. pose proof Hok as [Hn Hd Hu Ht].
  set (new := add_rdata ttl d (new_rdataset (rdata_class d) (rdata_type d) (covers_of d) ttl)) in *.
  assert (Hnew : rdl_rdata (rds_list new) <> [] /\ forall x, x ∈ rdl_rdata (rds_list new) -> data_key x = key new).
  { split; [done|]. intros x Hx. cbn in Hx. by apply list_elem_of_singleton in Hx as ->. }
  destruct P as [H|i n Hs Hi Hf Hr|i n j r Hs Hi Hf Hj Hk]; fold new.
  - split.
    + intros n [Hin|Hin%list_elem_of_singleton]%elem_of_app; [by apply Hn|]. subst n. by exists ls.
    + intros n r [Hin|Hin%list_elem_of_singleton]%elem_of_app Hr; [by eapply Hd|]. subst n. by apply list_elem_of_singleton in Hr as ->.
    + intros Hs. apply fresh_snoc; [by apply Hu|by apply H].
    + intros Hs n [Hin|Hin%list_elem_of_singleton]%elem_of_app; [by apply Ht|]. subst n. apply NoDup_singleton.
  - apply ok_alter; [done|]. intros n' E. assert (n' = n) as -> by congruence. apply list_elem_of_lookup_2 in Hi. split.
    + intros r [Hin|Hin%list_elem_of_singleton]%elem_of_app; [by apply (Hd n)|]. by subst r.
    + intros _. apply fresh_snoc; [by apply Ht|]. exact Hr.
  - apply ok_alter; [done|]. intros n' E. assert (n' = n) as -> by congruence. apply list_elem_of_lookup_2 in Hi. split.
    + intros x [Hx|(y & Hy & ->)]%elem_of_alter; [by apply (Hd n)|]. assert (y = r) as -> by congruence. cbn. split; [by intros [_ [=]]%app_eq_nil|].
      intros d' [Hd'|Hd'%list_elem_of_singleton]%elem_of_app; [|by subst d'; symmetry]. apply (Hd n r); [done| |done]. by eapply list_elem_of_lookup_2.
    + intros _. rewrite map_alter by done. by apply Ht.
Qed.
(** ** Placing a record *)

(** The section [id] became [l]; what was taken from the pools is accounted for. *)
Record moved (id : Z) (l : list msgname) (s s' : section_st) : Prop := {
  mv_readable : readable s';
  mv_source : s_source s' = s_source s;
  mv_problem : s_problem s' = s_problem s;
  mv_opt : m_opt (s_msg s') = m_opt (s_msg s);
  mv_sig0 : m_sig0 (s_msg s') = m_sig0 (s_msg s);
  mv_tsig : m_tsig (s_msg s') = m_tsig (s_msg s);
  mv_counts : m_counts (s_msg s') = m_counts (s_msg s);
  mv_opcode : m_opcode (s_msg s') = m_opcode (s_msg s);
  mv_intent : m_from_to_wire (s_msg s') = m_from_to_wire (s_msg s);
  mv_sections : m_sections (s_msg s') = <[Z.to_nat id := l]> (m_sections (s_msg s));
  mv_names : m_names (s_msg s') - Z.b2z (s_free_name s') - Zlen l
    = m_names (s_msg s) - Z.b2z (s_free_name s) - Zlen (section_of (s_msg s) id);
  mv_rdatasets : m_rdatasets (s_msg s') - Z.b2z (s_free_rdataset s') - rdataset_count l
    = m_rdatasets (s_msg s) - Z.b2z (s_free_rdataset s) - rdataset_count (section_of (s_msg s) id)
}.

Definition has_section (id : Z) (s : section_st) : Prop := (Z.to_nat id < length (m_sections (s_msg s)))%nat.

Lemma section_lookup id s : has_section id s -> m_sections (s_msg s) !! Z.to_nat id = Some (section_of (s_msg s) id).
Proof.
  intros H. destruct (lookup_lt_is_Some_2 _ _ H) as [l E]. rewrite E. f_equal. unfold section_of. by rewrite nth_lookup, E.
Qed.

Lemma moved_section id l s s' : has_section id s -> moved id l s s' -> section_of (s_msg s') id = l /\ has_section id s'.
Proof.
  intros H M. unfold section_of, has_section. rewrite (mv_sections _ _ _ _ M), length_insert. split; [|done].
  by rewrite nth_lookup, list_lookup_insert_eq.
Qed.

Lemma moved_trans id l l' s s1 s2 : has_section id s -> moved id l s s1 -> moved id l' s1 s2 -> moved id l' s s2.
Proof.
  intros H M1 M2. destruct (moved_section _ _ _ _ H M1) as [E _]. destruct M1, M2. rewrite E in *.
  split; try congruence; try lia; try done. rewrite mv_sections1, mv_sections0. by rewrite list_insert_insert_eq.
Qed.

Lemma moved_still id s s' : has_section id s -> still s s' -> moved id (section_of (s_msg s) id) s s'.
Proof.
  intros H (C & F & Es). assert (Es' := cm_sections _ _ C). destruct C. split; try done; try congruence; try lia.
  rewrite Es'. symmetry. apply list_insert_id. by apply section_lookup.
Qed.

Lemma calm_still s s' : calm s s' -> s_free_name s' = s_free_name s -> s_source s' = s_source s -> still s s'.
Proof. done. Qed.

(** An error after the section was changed. *)
Definition stops (id : Z) (s : section_st) (r : isc_result_t) (s' : section_st) : Prop :=
  r <> ISC_R_SUCCESS /\ exists l, moved id l s s'.

Lemma stops_trans id l s s1 r s2 : has_section id s -> moved id l s s1 -> stops id s1 r s2 -> stops id s r s2.
Proof. intros H M [Hr [l' M']]. split; [done|]. exists l'. by eapply moved_trans. Qed.

Lemma put_section_moved id l s m (fn fr : bool) : readable s -> m = put_section id l (s_msg s) ->
  Zlen l + Z.b2z fn = Zlen (section_of (s_msg s) id) + Z.b2z (s_free_name s) ->
  rdataset_count l + Z.b2z fr = rdataset_count (section_of (s_msg s) id) + Z.b2z (s_free_rdataset s) ->
  moved id l s (set_free fn fr (set_msg m s)).
Proof. intros [R1 R2] -> H1 H2. split; try done; cbn; lia. Qed.

Lemma alter_snoc {A} (g : A -> A) (l : list A) x : alter g (length l) (l ++ [x]) = l ++ [g x].
Proof. induction l as [|y l IH]; [done|]. cbn. f_equal. apply IH. Qed.

Lemma alter_alter {A} (f g h : A -> A) (l : list A) i : (forall x, l !! i = Some x -> f (g x) = h x) -> alter f i (alter g i l) = alter h i l.
Proof.
  revert i. induction l as [|y l IH]; intros [|i] H; try done; cbn; f_equal; [by apply H|]. by apply IH.
Qed.

Lemma count_snoc l n : rdataset_count (l ++ [n]) = rdataset_count l + Zlen (mn_list n).
Proof. unfold rdataset_count. rewrite sum_app. unfold total at 2. cbn. lia. Qed.

Lemma count_alter l i n f : l !! i = Some n ->
  rdataset_count (alter (on_list f) i l) = rdataset_count l - Zlen (mn_list n) + Zlen (f (mn_list n)).
Proof. apply (sum_alter (fun n => Zlen (mn_list n))). Qed.

Lemma put_section_twice id l l' m : put_section id l (put_section id l' m) = put_section id l m.
Proof. unfold put_section, with_sections. cbn. by rewrite list_insert_insert_eq. Qed.

Section placing.
Context `{RT : RdataTypes} `{OK : !RdataTypesOk} (mem : Z -> bool).
Context (id : Z) (E : isc_result_t -> section_st -> Prop).

Lemma wp_append_name name s : has_section id s -> readable s -> s_free_name s = true ->
  wp (bind (append_name id name) (fun i => bind (put_free_name false) (fun _ => ret (NLinked i))))
    (fun ref s' => ref = NLinked (length (section_of (s_msg s) id))
       /\ s' = set_free false (s_free_rdataset s) (set_msg (put_section id (section_of (s_msg s) id ++ [mkMsgname name []]) (s_msg s)) s)
       /\ moved id (section_of (s_msg s) id ++ [mkMsgname name []]) s s') E s.
Proof.
  intros H R Hf. split_and!; [done|done|]. apply put_section_moved; [done|done|rewrite Hf; unfold Zlen; rewrite length_app; cbn; lia|].
  rewrite count_snoc. cbn. unfold Zlen. cbn. lia.
Qed.

(** The name of the record is in the section: it was there, or it was appended. *)
Definition name_placed (search : bool) (name : dns_name_t) (l l' : list msgname) (i : nat) : Prop :=
  (search = true /\ l' = l /\ exists n, l !! i = Some n /\ name_fold (mn_name n) = name_fold name)
  \/ (l' = l ++ [mkMsgname name []] /\ i = length l
      /\ (search = true -> forall n, n ∈ l -> name_fold (mn_name n) <> name_fold name)).

Lemma wp_place_name search rdtype issigzero name ls s : has_section id s -> readable s -> s_free_name s = true ->
  (forall n, n ∈ section_of (s_msg s) id -> exists ls, wf_name (mn_name n) ls true) -> wf_name name ls true ->
  (search = true -> kept_apart rdtype issigzero = false) ->
  wp (place_name id search rdtype issigzero name)
    (fun ref s' => match ref with
      | NLocal n => n = name /\ s' = s /\ kept_apart rdtype issigzero = true /\ search = false
      | NLinked i => kept_apart rdtype issigzero = false /\ s_free_name s' = false /\ s_free_rdataset s' = s_free_rdataset s
          /\ exists l', moved id l' s s' /\ name_placed search name (section_of (s_msg s) id) l' i
      end) E s.
Proof.
  intros H R Hf Hn Wn Ha. unfold place_name. destruct search; cbn [negb].
  - wbind. apply wp_get_msg.
    destruct (find_last_spec (fun curr => dns_name_equal (mn_name curr) name) (fun curr => name_fold (mn_name curr) = name_fold name)
      (section_of (s_msg s) id)) as (r & Er & Hr).
    { intros n Hin. destruct (Hn n Hin) as [ls' W]. eexists. split; [exact (equal_fold _ _ _ _ W Wn)|]. by rewrite bool_decide_eq_true. }
    wbind. eapply wp_lift; [exact Er|]. destruct r as [i|].
    + destruct Hr as (n & Hi & Hfn). split_and!; [by apply Ha|done|done|]. exists (section_of (s_msg s) id). split; [|left; eauto].
      split; try done; try exact (proj1 R); cbn; [|rewrite Hf; cbn; lia]. symmetry. apply list_insert_id. by apply section_lookup.
    + eapply wp_mono; [by apply wp_append_name|]. intros ref s' (-> & -> & M). split_and!; [by apply Ha|done|done|].
      eexists. split; [exact M|]. right. by split_and!.
  - destruct (kept_apart rdtype issigzero) eqn:Ek; cbn [negb]; [by apply wp_ret|].
    eapply wp_mono; [by apply wp_append_name|]. intros ref s' (-> & -> & M). split_and!; [done..|].
    eexists. split; [exact M|]. right. by split_and!.
Qed.

Lemma list_of_spec i n s : section_of (s_msg s) id !! i = Some n -> list_of id i s = Done (inr (mn_list n), s).
Proof. intros Hi. unfold list_of, bind, get_msg. cbn. by rewrite Hi. Qed.
End placing.

Section linking.
Context `{RT : RdataTypes} `{OK : !RdataTypesOk} (mem : Z -> bool).
Context (id : Z).

Lemma stops_fails s r s' : has_section id s -> s_free_name s' = s_free_name s -> s_source s' = s_source s ->
  fails s r s' -> stops id s r s'.
Proof. intros H Hf Hs [Hr C]. split; [done|]. eexists. by apply moved_still. Qed.

Lemma stops_here s r : has_section id s -> readable s -> r <> ISC_R_SUCCESS -> stops id s r s.
Proof. intros H R Hr. split; [done|]. eexists. by apply moved_still, still_refl. Qed.

Definition found_in (d : dns_rdata) (i : nat) (rs : list dns_rdataset) (found : option (nat * nat)) : Prop :=
  match found with
  | Some (i', j) => i' = i /\ exists r, rs !! j = Some r /\ key r = data_key d
  | None => forall r, r ∈ rs -> key r <> data_key d
  end.

Lemma wp_find_rdataset search d i n s : has_section id s -> readable s -> section_of (s_msg s) id !! i = Some n ->
  wp (find_rdataset false id search (rdata_type d) (rdata_class d) (covers_of d) (NLinked i))
    (fun found s' => s' = s /\ if search then found_in d i (mn_list n) found else found = None) (stops id s) s.
Proof.
  intros H R Hi. unfold find_rdataset. destruct search; [|by apply wp_ret]. cbn [negb]. wbind.
  destruct (dns_rdatatype_questiononly (rdata_type d)); [by apply stops_here|]. apply wp_ret. wbind. unfold wp at 1. rewrite (list_of_spec _ _ _ _ Hi).
  destruct (dns_message_find_spec (mn_list n) (rdata_class d) (rdata_type d) (covers_of d)) as (r & Er & Hr).
  wbind. eapply wp_lift; [exact Er|]. apply wp_ret. split; [done|]. destruct r as [j|]; exact Hr || by split.
Qed.

Lemma wp_check_singleton d i j n r s : has_section id s -> readable s -> section_of (s_msg s) id !! i = Some n ->
  mn_list n !! j = Some r -> rdl_rdata (rds_list r) <> [] ->
  wp (check_singleton false id (rdata_type d) d i j) (fun _ s' => s' = s) (stops id s) s.
Proof.
  intros H R Hi Hj Hr. unfold check_singleton. destruct (dns_rdatatype_issingleton (rdata_type d)); [|by apply wp_ret].
  wbind. unfold rdataset_at. wbind. unfold wp at 1. rewrite (list_of_spec _ _ _ _ Hi). rewrite Hj. apply wp_ret.
  destruct (rdl_rdata (rds_list r)); [done|]. case_if; [by apply stops_here|by apply wp_ret].
Qed.

Lemma wp_alter_list {A} i f (k : unit -> parser A) Q E s :
  wp (k tt) Q E (set_msg (put_section id (alter (on_list f) i (section_of (s_msg s) id)) (s_msg s)) s) -> wp (bind (alter_list id i f) k) Q E s.
Proof. intros H. exact H. Qed.

(** The data goes to an rdataset that is there. *)
Lemma wp_add_data ttl d i j n r s : has_section id s -> readable s -> section_of (s_msg s) id !! i = Some n ->
  mn_list n !! j = Some r -> rdl_rdata (rds_list r) <> [] ->
  wp (do ref <- (run check_singleton false id (rdata_type d) d i j ;; ret (RLinked i j)) ;; append_rdata id ttl d ref)
    (fun ref s' => ref = RLinked i j /\ s_free_name s' = s_free_name s /\ s_free_rdataset s' = s_free_rdataset s
       /\ moved id (alter (on_list (alter (add_rdata ttl d) j)) i (section_of (s_msg s) id)) s s') (stops id s) s.
Proof.
  intros H R Hi Hj Hr. wbind. wstep wp_check_singleton; [done..| |done]. intros _ s' ->. apply wp_ret.
  unfold append_rdata. apply wp_alter_list. apply wp_ret. split_and!; [done..|]. 
  assert (Es : forall s m, set_msg m s = set_free (s_free_name s) (s_free_rdataset s) (set_msg m s)) by done. rewrite Es.
  apply put_section_moved; [done|done|unfold Zlen; by rewrite length_alter|].
  rewrite (count_alter _ _ _ _ Hi). unfold Zlen. rewrite length_alter. lia.
Qed.

(** The exact effect of an allocation. *)
Lemma wp_alloc {A} (k : unit -> parser A) Q E s :
  wp (k tt) Q E (set_msg (alloc mem (s_msg s)).2 s) -> E ISC_R_NOMEMORY (set_msg (alloc mem (s_msg s)).2 s) ->
  wp (bind (allocate mem) k) Q E s.
Proof.
  intros H1 H2. unfold wp, bind, allocate in *. cbn in *. destruct (mem (m_allocs (s_msg s))); [exact H1|exact H2].
Qed.

Lemma moved_same l s s' : has_section id s -> l = section_of (s_msg s) id -> still s s' -> moved id l s s'.
Proof. intros H -> S. by apply moved_still. Qed.

(** A new rdataset is taken from the pool, with its list. *)
Lemma wp_new_rdataset {A} (k : parser A) Q s : has_section id s -> readable s -> s_free_rdataset s = false ->
  (forall s', moved id (section_of (s_msg s) id) s s' -> s_free_name s' = s_free_name s -> s_free_rdataset s' = true ->
    wp k Q (stops id s) s') ->
  wp (run rdspool_get mem ;; run put_free_rdataset true ;; run allocate mem ;; k) Q (stops id s) s.
Proof.
  intros H R Hr Hk.
  assert (Hsec : m_sections (s_msg s) = <[Z.to_nat id := section_of (s_msg s) id]> (m_sections (s_msg s)))
    by (symmetry; apply list_insert_id; by apply section_lookup).
  wbind. unfold rdspool_get. apply wp_alloc.
  2:{ split; [done|]. exists (section_of (s_msg s) id). split; try done; apply R. }
  unfold wp at 1. cbn. wbind. unfold wp at 1. cbn. apply wp_alloc.
  - apply Hk; [|done|done]. split; try done; try apply R; cbn; rewrite ?Hr; cbn; lia.
  - split; [done|]. exists (section_of (s_msg s) id). split; try done; try apply R; cbn; rewrite ?Hr; cbn; lia.
Qed.

(** The data goes to a new rdataset. *)
Lemma wp_add_rdataset ttl d issigzero i n s : has_section id s -> readable s -> section_of (s_msg s) id !! i = Some n ->
  s_free_rdataset s = false -> kept_apart (rdata_type d) issigzero = false ->
  wp (do ref <- place_rdataset mem id (rdata_type d) (rdata_class d) (covers_of d) ttl issigzero (NLinked i) ;; append_rdata id ttl d ref)
    (fun ref s' => (exists j, ref = RLinked i j) /\ s_free_name s' = s_free_name s /\ s_free_rdataset s' = false
       /\ moved id (alter (on_list (fun rs => rs ++ [add_rdata ttl d (new_rdataset (rdata_class d) (rdata_type d) (covers_of d) ttl)])) i
                      (section_of (s_msg s) id)) s s') (stops id s) s.
Proof.
  intros H R Hi Hr Ha. wbind. unfold place_rdataset. apply wp_new_rdataset; [done..|]. intros s1 M1 F1 R1.
  destruct (moved_section _ _ _ _ H M1) as [E1 H1]. cbv zeta. rewrite Ha. cbn [negb]. wbind. unfold wp at 1.
  rewrite (list_of_spec _ i n) by (by rewrite E1). apply wp_alter_list. rewrite E1. set (new := new_rdataset _ _ _ _).
  set (l1 := alter (on_list (fun l => l ++ [new])) i (section_of (s_msg s) id)). wbind. unfold wp at 1, put_free_rdataset. cbn [set_msg s_source s_msg s_problem s_free_name s_free_rdataset].
  apply wp_ret. unfold append_rdata. apply wp_alter_list. apply wp_ret. split_and!; [by eexists|done|done|].
  eapply moved_trans; [done|exact M1|]. cbn [s_msg]. 
  assert (El : section_of (put_section id l1 (s_msg s1)) id = l1).
  { unfold section_of, put_section. cbn. rewrite nth_lookup, list_lookup_insert_eq; [done|exact H1]. }
  rewrite El. unfold l1. rewrite (alter_alter _ _ (on_list (fun rs => rs ++ [add_rdata ttl d new]))).
  2:{ intros n' E. assert (n' = n) as -> by congruence. unfold on_list. cbn. f_equal. by rewrite alter_snoc. }
  set (l2 := alter _ i _). change (moved id l2 s1 (set_free (s_free_name s1) false (set_msg (put_section id l2 (put_section id l1 (s_msg s1))) s1))).
  rewrite put_section_twice. apply put_section_moved; [apply M1|done|rewrite E1; unfold l2, Zlen; by rewrite length_alter|].
  rewrite E1, R1. unfold l2. rewrite (count_alter _ _ _ _ Hi). unfold Zlen. rewrite length_app. cbn. lia.
Qed.

Definition new_for (ttl : Z) (d : dns_rdata) : dns_rdataset :=
  add_rdata ttl d (new_rdataset (rdata_class d) (rdata_type d) (covers_of d) ttl).

(** The data is with the name [i]: in a new rdataset, or in one that was there. *)
Definition data_placed (search : bool) (ttl : Z) (d : dns_rdata) (l l' : list msgname) (i : nat) (n : msgname) : Prop :=
  (l' = alter (on_list (fun rs => rs ++ [new_for ttl d])) i l
   /\ (search = true -> forall r, r ∈ mn_list n -> key r <> data_key d))
  \/ (search = true /\ exists j r, l' = alter (on_list (alter (add_rdata ttl d) j)) i l /\ mn_list n !! j = Some r /\ key r = data_key d).

Lemma both_placed search name ttl d l l1 l2 i n : name_placed search name l l1 i -> l1 !! i = Some n ->
  data_placed search ttl d l1 l2 i n -> placed search name ttl d l l2.
Proof.
  intros [(Hs & -> & n' & Hn & Hf)|(-> & -> & Hf)] Hi Hd.
  - assert (n' = n) as -> by congruence. destruct Hd as [[-> Hr]|(_ & j & r & -> & Hj & Hk)].
    + apply placed_type with n; eauto.
    + apply placed_data with n r; eauto.
  - rewrite lookup_app_r, Nat.sub_diag in Hi by done. injection Hi as <-. destruct Hd as [[-> _]|(_ & j & r & _ & Hj & _)]; [|done].
    rewrite alter_snoc. by apply placed_name.
Qed.

Lemma wp_link search ttl d issigzero i n s : has_section id s -> readable s -> section_of (s_msg s) id !! i = Some n ->
  s_free_rdataset s = false -> kept_apart (rdata_type d) issigzero = false ->
  (forall r, r ∈ mn_list n -> rdl_rdata (rds_list r) <> []) ->
  wp (do found <- find_rdataset false id search (rdata_type d) (rdata_class d) (covers_of d) (NLinked i) ;;
      do ref <- (match found with
                 | Some (i, j) => run check_singleton false id (rdata_type d) d i j ;; ret (RLinked i j)
                 | None => place_rdataset mem id (rdata_type d) (rdata_class d) (covers_of d) ttl issigzero (NLinked i)
                 end) ;;
      append_rdata id ttl d ref)
    (fun ref s' => (exists j, ref = RLinked i j) /\ s_free_name s' = s_free_name s /\ s_free_rdataset s' = false
       /\ exists l', moved id l' s s' /\ data_placed search ttl d (section_of (s_msg s) id) l' i n) (stops id s) s.
Proof.
  intros H R Hi Hr Ha Hne. wstep wp_find_rdataset; [done..| |done]. intros found s' [-> Hf]. destruct search.
  - destruct found as [[i' j]|].
    + destruct Hf as (-> & r & Hj & Hk). eapply wp_conseq; [eapply wp_add_data; try done; apply Hne; by eapply list_elem_of_lookup_2| |done].
      intros ref s1 (-> & F1 & R1 & M). split_and!; [by eexists|done|by rewrite R1|]. eexists. split; [exact M|]. right. eauto 6.
    + eapply wp_conseq; [by eapply wp_add_rdataset| |done]. intros ref s1 (Hj & F1 & R1 & M). split_and!; [done..|].
      eexists. split; [exact M|]. by left.
  - subst found. eapply wp_conseq; [by eapply wp_add_rdataset| |done]. intros ref s1 (Hj & F1 & R1 & M). split_and!; [done..|].
    eexists. split; [exact M|]. by left.
Qed.
End linking.

(** The rule for three steps that are specified together. *)
Lemma wp_bind3 {A B C D} (m : parser A) (f : A -> parser B) (g : B -> parser C) (k : C -> parser D) Q E s :
  wp (bind m (fun a => bind (f a) g)) (fun c s' => wp (k c) Q E s') E s ->
  wp (bind m (fun a => bind (f a) (fun b => bind (g b) k))) Q E s.
Proof.
  unfold wp, bind. destruct (m s) as [[[r|a] s1]| | |]; cbn; try done. destruct (f a s1) as [[[r|b] s2]| | |]; cbn; try done.
  destruct (g b s2) as [[[r|c] s3]| | |]; done.
Qed.
