(* ===== verification/MessageRecord.v ===== *)
(** * A record of a message

    One iteration of the loop over the records of a section: it returns, what it took
    from the pools is accounted for, and on success the record of the packet is in its
    place. *)

From S2P Require Import Prelude Buffer Name NameTheory FromWire Rdata Message MessageWire MessageRead MessagePlace.

(** ** The account of the pools *)

Definition one {A} (o : option A) : Z := match o with Some _ => 1 | None => 0 end.

(** The names and rdatasets that belong to the message. *)
Definition names_held (m : dns_message) : Z := total Zlen (m_sections m) + one (m_sig0 m) + one (m_tsig m).
Definition rdatasets_held (m : dns_message) : Z :=
  total rdataset_count (m_sections m) + one (m_opt m) + one (m_sig0 m) + one (m_tsig m).

(** Everything that was taken from the pools is linked into the message, except what
    is still to be freed. *)
Definition balanced (s : section_st) : Prop :=
  m_names (s_msg s) = names_held (s_msg s) + Z.b2z (s_free_name s)
  /\ m_rdatasets (s_msg s) = rdatasets_held (s_msg s) + Z.b2z (s_free_rdataset s).

(** What holds in every state while the section [id] is parsed. *)
Record frame (id : Z) (s0 s : section_st) : Prop := {
  fr_readable : readable s;
  fr_base : b_base (s_source s) = b_base (s_source s0);
  fr_used : b_used (s_source s) = b_used (s_source s0);
  fr_problem : s_problem s = false;
  fr_counts : m_counts (s_msg s) = m_counts (s_msg s0);
  fr_opcode : m_opcode (s_msg s) = m_opcode (s_msg s0);
  fr_intent : m_from_to_wire (s_msg s) = m_from_to_wire (s_msg s0);
  fr_section : has_section id s;
  fr_length : length (m_sections (s_msg s)) = length (m_sections (s_msg s0));
  fr_others : forall j, j <> Z.to_nat id -> m_sections (s_msg s) !! j = m_sections (s_msg s0) !! j;
  fr_balanced : balanced s
}.

Definition nosig (s : section_st) : Prop := m_sig0 (s_msg s) = None /\ m_tsig (s_msg s) = None.

Lemma frame_calm id s0 s s' : frame id s0 s -> calm s s' -> frame id s0 s' /\ (nosig s -> nosig s').
Proof.
  intros F C. split; [|unfold nosig; by rewrite (cm_sig0 _ _ C), (cm_tsig _ _ C)]. destruct F, C. unfold has_section, balanced, names_held, rdatasets_held in *.
  split; try congruence; try done; [unfold has_section; by rewrite cm_sections|by rewrite cm_sections|]. unfold balanced, names_held, rdatasets_held. rewrite cm_sections, cm_opt, cm_sig0, cm_tsig, cm_rdatasets, cm_rdataset. lia.
Qed.

Lemma frame_moved id s0 l s s' : frame id s0 s -> moved id l s s' -> frame id s0 s' /\ (nosig s -> nosig s').
Proof.
  intros F M. split; [|unfold nosig; by rewrite (mv_sig0 _ _ _ _ M), (mv_tsig _ _ _ _ M)].
  pose proof (section_lookup _ _ (fr_section _ _ _ F)) as Hl. destruct F as [? ? ? ? ? ? ? H ? ? B], M.
  split; try congruence; try done.
  - unfold has_section. by rewrite mv_sections, length_insert.
  - by rewrite mv_sections, length_insert.
  - intros j Hj. rewrite mv_sections, list_lookup_insert_ne by done. by apply fr_others0.
  - unfold balanced, names_held, rdatasets_held in *. rewrite mv_sections, mv_opt, mv_sig0, mv_tsig.
    rewrite (sum_insert _ _ _ _ _ Hl), (sum_insert _ _ _ _ _ Hl). lia.
Qed.

Section record.
Context `{RT : RdataTypes} `{OK : !RdataTypesOk} (mem : Z -> bool).
Context (id : Z) (s0 : section_st).

Definition apart (d : dns_rdata) : bool := kept_apart (rdata_type d) (sigzero d).

(** The rdatasets that a message holds apart: OPT, SIG(0) and TSIG. *)
Definition specials (m : dns_message) : option dns_rdataset * option (dns_rdataset * dns_name_t) * option (dns_rdataset * dns_name_t) :=
  (m_opt m, m_sig0 m, m_tsig m).

Definition uncompressed (name : dns_name_t) : dns_name_t :=
  mkname (ndata name) (labels name) (Z.lor (attributes name) DNS_NAMEATTR_NOCOMPRESS) (offsets name) (buffer name).

Lemma calm_specials s s' : calm s s' -> specials (s_msg s') = specials (s_msg s).
Proof. intros C. unfold specials. by rewrite (cm_opt _ _ C), (cm_sig0 _ _ C), (cm_tsig _ _ C). Qed.

Lemma moved_specials l s s' : moved id l s s' -> specials (s_msg s') = specials (s_msg s).
Proof. intros M. unfold specials. by rewrite (mv_opt _ _ _ _ M), (mv_sig0 _ _ _ _ M), (mv_tsig _ _ _ _ M). Qed.

(** What the message holds apart after a record: it takes the place of its kind. *)
Definition remembered (d : dns_rdata) (r : dns_rdataset) (name : dns_name_t) sp :
    option dns_rdataset * option (dns_rdataset * dns_name_t) * option (dns_rdataset * dns_name_t) :=
  let '(opt, sig0, tsig) := sp in
  if rdata_type d =? dns_rdatatype_opt then (Some r, sig0, tsig)
  else if sigzero d then (opt, Some (r, name), tsig)
  else if rdata_type d =? dns_rdatatype_tsig then (opt, sig0, Some (r, uncompressed name))
  else sp.

Lemma remembered_linked d r name sp : apart d = false -> remembered d r name sp = sp.
Proof.
  unfold apart, kept_apart, remembered. intros [[-> ->]%orb_false_iff ->]%orb_false_iff. by destruct sp as [[? ?] ?].
Qed.

(** An error: everything is accounted for, and no signature was seen. *)
Definition broken (r : isc_result_t) (s : section_st) : Prop := r <> ISC_R_SUCCESS /\ frame id s0 s /\ nosig s.

(** After a record, nothing is left to be freed. *)
Record settled (s s' : section_st) : Prop := {
  sd_frame : frame id s0 s';
  sd_source : s_source s' = s_source s;
  sd_name : s_free_name s' = false;
  sd_rdataset : s_free_rdataset s' = false
}.

Lemma broken_stops s r s' : frame id s0 s -> nosig s -> stops id s r s' -> broken r s'.
Proof. intros F N [Hr [l M]]. destruct (frame_moved _ _ _ _ _ F M) as [F' N']. split_and!; [done|done|by apply N']. Qed.

Lemma wp_release s : s_problem s = false -> s_free_name s = false -> s_free_rdataset s = false -> 
  forall (Q : unit -> section_st -> Prop), Q tt s -> wp release_record Q broken s.
Proof. intros H1 H2 H3 Q HQ. unfold wp, release_record. by rewrite H1, H2, H3. Qed.

(** The message took over the name and the rdataset. *)
Lemma frame_taken s m : frame id s0 s -> s_free_name s = true -> s_free_rdataset s = true ->
  m_scratchpad m = m_scratchpad (s_msg s) -> m_sections m = m_sections (s_msg s) -> m_counts m = m_counts (s_msg s) ->
  m_opcode m = m_opcode (s_msg s) -> m_from_to_wire m = m_from_to_wire (s_msg s) ->
  m_names m - names_held m = m_names (s_msg s) - names_held (s_msg s) - 1 ->
  m_rdatasets m - rdatasets_held m = m_rdatasets (s_msg s) - rdatasets_held (s_msg s) - 1 ->
  frame id s0 (set_free false false (set_msg m s)).
Proof.
  intros [[R1 R2] ? ? ? ? ? ? ? ? ? [B1 B2]] Hf Hr Ep Es Ec Eo Ei En Ed. unfold has_section, pad_ok in *. rewrite Hf, Hr in *.
  split; try done; cbn; try congruence.
  - split; [done|]. unfold pad_ok. cbn. by rewrite Ep.
  - unfold has_section. cbn. by rewrite Es.
  - by rewrite Es.
  - split; cbn in *; lia.
Qed.

Ltac taken m := apply frame_taken; [done|done|done|done|done|done|done|done|unfold names_held, m; cbn|unfold rdatasets_held, m; cbn].

(** OPT, TSIG and SIG(0): the record is remembered. *)
Lemma wp_remember d r name s : frame id s0 s -> nosig s -> s_free_name s = true -> s_free_rdataset s = true ->
  apart d = true -> (rdata_type d = dns_rdatatype_opt -> m_opt (s_msg s) = None) ->
  wp (run remember_opt (rdata_type d) (RLocal r) ;;
      run remember_sig (rdata_type d) (sigzero d) (NLocal name) (RLocal r) ;;
      release_record)
    (fun _ s' => settled s s' /\ section_of (s_msg s') id = section_of (s_msg s) id /\ (rdata_type d = dns_rdatatype_opt -> nosig s')
       /\ specials (s_msg s') = remembered d r name (specials (s_msg s)))
    broken s.
Proof.
  intros F [N1 N2] Hf Hr Ha Ho. wbind. unfold remember_opt. wbind. apply wp_get_msg.
  destruct (Z.eqb_spec (rdata_type d) dns_rdatatype_opt) as [Ht|Ht].
  - rewrite bool_decide_eq_true_2 by auto. cbn [andb]. unfold wp at 1. cbn.
    assert (Ez : sigzero d = false) by (unfold sigzero; by rewrite Ht). rewrite Ez, Ht. wbind. unfold wp at 1. cbn.
    apply wp_release; [apply F|done|done|]. split_and!; [|done|by intros _; split|by unfold specials, remembered; cbn; rewrite ?Ht].
    split; try done. cbn. set (m := with_memory _ _ _ _ _). change (frame id s0 (set_free false false (set_msg m s))).
    taken m; rewrite ?(Ho Ht); cbn; lia.
  - cbn [andb]. apply wp_ret. wbind. unfold remember_sig. wbind. apply wp_get_msg. rewrite !bool_decide_eq_true_2, !andb_true_r by done.
    destruct (sigzero d) eqn:Ez.
    + unfold wp at 1. cbn. apply wp_release; [apply F|done|done|].
      split_and!; [|done|done|by unfold specials, remembered; cbn; rewrite (proj2 (Z.eqb_neq _ _) Ht), Ez].
      split; try done. cbn. set (m := with_sigs _ _ _). change (frame id s0 (set_free false false (set_msg m s))).
      taken m; rewrite ?N1, ?N2; cbn; lia.
    + destruct (Z.eqb_spec (rdata_type d) dns_rdatatype_tsig) as [Hg|Hg].
      2:{ unfold apart, kept_apart in Ha. rewrite Ez, (proj2 (Z.eqb_neq _ _) Ht), (proj2 (Z.eqb_neq _ _) Hg) in Ha. done. }
      unfold wp at 1. cbn. apply wp_release; [apply F|done|done|].
      split_and!; [|done|done|by unfold specials, remembered; cbn; rewrite (proj2 (Z.eqb_neq _ _) Ht), Ez, Hg].
      split; try done. cbn. set (m := with_sigs _ _ _). change (frame id s0 (set_free false false (set_msg m s))).
      taken m; rewrite ?N1, ?N2; cbn; lia.
Qed.

Lemma wp_apart ttl d name s : frame id s0 s -> nosig s -> s_free_name s = true -> s_free_rdataset s = false ->
  apart d = true -> (rdata_type d = dns_rdatatype_opt -> m_opt (s_msg s) = None) ->
  wp (do ref <- place_rdataset mem id (rdata_type d) (rdata_class d) (covers_of d) ttl (sigzero d) (NLocal name) ;;
      do ref <- append_rdata id ttl d ref ;;
      run remember_opt (rdata_type d) ref ;;
      run remember_sig (rdata_type d) (sigzero d) (NLocal name) ref ;;
      release_record)
    (fun _ s' => settled s s' /\ section_of (s_msg s') id = section_of (s_msg s) id /\ (rdata_type d = dns_rdatatype_opt -> nosig s')
       /\ specials (s_msg s') = remembered d (new_for ttl d) name (specials (s_msg s)))
    broken s.
Proof.
  intros F N Hf Hr Ha Ho. pose proof (fr_section _ _ _ F) as H. wbind. unfold place_rdataset.
  eapply wp_conseq; [|intros ref s1 Q1; exact Q1|by intros r s1; apply broken_stops].
  apply wp_new_rdataset; [done|apply F|done|]. intros s1 M1 F1 R1.
  destruct (frame_moved _ _ _ _ _ F M1) as [Fr1 N1]. destruct (moved_section _ _ _ _ H M1) as [E1 H1].
  pose proof Ha as Ha'. unfold apart in Ha'. cbv zeta. rewrite Ha'. cbn [negb]. apply wp_ret. wbind. apply wp_ret.
  eapply wp_conseq; [apply wp_remember; [done|by apply N1|by rewrite F1|done|done|by rewrite (mv_opt _ _ _ _ M1)]| |done].
  intros _ s2 (S & E2 & Hn & Hk).
  split_and!; [|by rewrite E2|done|by rewrite Hk, (moved_specials _ _ _ M1)].
  destruct S as [? Es ? ?]. split; try done. by rewrite Es, (mv_source _ _ _ _ M1).
Qed.

Lemma wp_plain d nref i j s (Q : unit -> section_st -> Prop) : apart d = false -> s_problem s = false ->
  s_free_name s = false -> s_free_rdataset s = false -> Q tt s ->
  wp (run remember_opt (rdata_type d) (RLinked i j) ;;
      run remember_sig (rdata_type d) (sigzero d) nref (RLinked i j) ;;
      release_record) Q broken s.
Proof.
  intros Ha Hp Hf Hr HQ. unfold apart, kept_apart in Ha. apply orb_false_iff in Ha as [[Ho Ht]%orb_false_iff Hz].
  wbind. unfold remember_opt. wbind. apply wp_get_msg. rewrite Ho. apply wp_ret. wbind. unfold remember_sig. wbind. apply wp_get_msg.
  rewrite Hz, Ht. apply wp_ret. by apply wp_release.
Qed.

(** A record that belongs to the section. *)
Lemma wp_linked search ttl d name ls s : frame id s0 s -> nosig s -> s_free_name s = true -> s_free_rdataset s = false ->
  wf_name name ls true -> section_ok search (section_of (s_msg s) id) -> apart d = false ->
  wp (do nref <- place_name id search (rdata_type d) (sigzero d) name ;;
      do found <- find_rdataset false id search (rdata_type d) (rdata_class d) (covers_of d) nref ;;
      do ref <- (match found with
                 | Some (i, j) => run check_singleton false id (rdata_type d) d i j ;; ret (RLinked i j)
                 | None => place_rdataset mem id (rdata_type d) (rdata_class d) (covers_of d) ttl (sigzero d) nref
                 end) ;;
      do ref <- append_rdata id ttl d ref ;;
      run remember_opt (rdata_type d) ref ;;
      run remember_sig (rdata_type d) (sigzero d) nref ref ;;
      release_record)
    (fun _ s' => settled s s' /\ nosig s' /\ placed search name ttl d (section_of (s_msg s) id) (section_of (s_msg s') id)
       /\ specials (s_msg s') = specials (s_msg s)) broken s.
Proof.
  intros F N Hf Hr Wn Hok Ha. pose proof (fr_section _ _ _ F) as H. unfold apart in Ha.
  wstep (wp_place_name id broken); [done|apply F|done|apply Hok|done|done| |done].
  intros [n|i] s1; [intros (_ & _ & ? & _); congruence|]. intros (_ & F1 & R1 & l1 & M1 & P1). rewrite Hr in R1.
  destruct (frame_moved _ _ _ _ _ F M1) as [Fr1 N1]. specialize (N1 N). destruct (moved_section _ _ _ _ H M1) as [E1 H1].
  assert (Hi : exists n, l1 !! i = Some n /\ forall r, r ∈ mn_list n -> rdl_rdata (rds_list r) <> []).
  { destruct P1 as [(_ & -> & n & Hn & _)|(-> & -> & _)].
    - exists n. split; [done|]. intros r Hin. apply (so_data _ _ Hok n r); [by eapply list_elem_of_lookup_2|done].
    - eexists. split; [by rewrite lookup_app_r, Nat.sub_diag by done|]. intros r Hin. by apply elem_of_nil in Hin. }
  destruct Hi as (n & Hi & Hne). rewrite <- E1 in Hi.
  pose proof (wp_link mem id search ttl d (sigzero d) i n s1 H1 (fr_readable _ _ _ Fr1) Hi R1 Ha Hne) as Hl.
  apply wp_bind3. eapply wp_conseq; [exact Hl| |by intros r s2; apply broken_stops].
  intros ref s2 ([j ->] & F2 & R2 & l2 & M2 & P2). destruct (frame_moved _ _ _ _ _ Fr1 M2) as [Fr2 N2].
  destruct (moved_section _ _ _ _ H1 M2) as [E2 H2]. apply wp_plain; [done|apply Fr2|by rewrite F2|done|].
  split_and!; [split|by apply N2| |]; try done; [by rewrite (mv_source _ _ _ _ M2), (mv_source _ _ _ _ M1)|by rewrite F2| |].
  2:{ by rewrite (moved_specials _ _ _ M2), (moved_specials _ _ _ M1). }
  rewrite E2. eapply both_placed; [exact P1|by rewrite <- E1|]. by rewrite <- E1.
Qed.

(** With [search], a record is looked for in the section first. *)
Definition searches (preserve_order : bool) (opcode : Z) : bool := negb (preserve_order || (opcode =? dns_opcode_update)).

(** The section after a record: the same if the record is kept apart. *)
Definition record_placed (search : bool) (name : dns_name_t) (ttl : Z) (d : dns_rdata) (l l' : list msgname) : Prop :=
  if apart d then l' = l else placed search name ttl d l l'.

Lemma wp_place_record preserve_order ttl d name ls skip s : frame id s0 s -> nosig s -> s_free_name s = true -> s_free_rdataset s = false ->
  wf_name name ls true -> section_ok (searches preserve_order (m_opcode (s_msg s))) (section_of (s_msg s) id) ->
  skip = unsearched (rdata_type d) ->
  (rdata_type d = dns_rdatatype_opt -> m_opt (s_msg s) = None) ->
  wp (place_record mem preserve_order false id (rdata_type d) (rdata_class d) ttl name skip d (covers_of d) (sigzero d))
    (fun _ s' => settled s s' /\ (apart d = false \/ rdata_type d = dns_rdatatype_opt -> nosig s')
       /\ record_placed (searches preserve_order (m_opcode (s_msg s))) name ttl d (section_of (s_msg s) id) (section_of (s_msg s') id)
       /\ specials (s_msg s') = remembered d (new_for ttl d) name (specials (s_msg s)))
    broken s.
Proof.
  intros F N Hf Hr Wn Hok Hskip Ho. unfold place_record. wbind. apply wp_get_msg. cbv zeta. unfold record_placed.
  assert (Ea : skip || sigzero d = apart d) by (by rewrite Hskip). rewrite Ea. destruct (apart d) eqn:E.
  - rewrite orb_true_r. cbn [negb]. wbind. unfold place_name. cbn [negb]. unfold apart in E. rewrite E. cbn [negb]. apply wp_ret.
    wbind. unfold find_rdataset. cbn [negb]. apply wp_ret. eapply wp_conseq; [by apply wp_apart| |done].
    intros _ s' (S & E' & Hn & Hk). split_and!; [done| |done|done]. intros [?|?]; [done|by apply Hn].
  - rewrite orb_false_r. eapply wp_conseq; [by eapply wp_linked| |done]. intros _ s' (S & Hn & P & Hk).
    rewrite remembered_linked by done. by split_and!.
Qed.
End record.

(** A resource record of a packet: its name, its time to live and its data, from
    [pos] to [pos']. *)
Record rr := mkRR { rr_name : list (list Z); rr_ttl : Z; rr_rdata : dns_rdata }.

Definition rr_at `{RdataTypes} (dctx : dns_decompress_t) (opcode id : Z) (b : isc_buffer_t) (pos : Z) (x : rr) (pos' : Z) : Prop :=
  exists k len, name_at b pos (rr_name x) k
    /\ u16_at (b_base b) (pos + k) = rdata_type (rr_rdata x)
    /\ u16_at (b_base b) (pos + k + 2) = rdata_class (rr_rdata x)
    /\ u32_at (b_base b) (pos + k + 4) = rr_ttl x
    /\ u16_at (b_base b) (pos + k + 8) = len
    /\ rdata_from dctx opcode id (rdata_class (rr_rdata x)) (rdata_type (rr_rdata x)) b (pos + k + 10) len (rr_rdata x)
    /\ pos' = pos + k + 10 + len /\ pos' <= b_used b.

(** Between the records of a section. *)
Record between (id : Z) (search : bool) (s0 s : section_st) : Prop := {
  bt_frame : frame id s0 s;
  bt_name : s_free_name s = false;
  bt_rdataset : s_free_rdataset s = false;
  bt_ok : section_ok search (section_of (s_msg s) id)
}.

Section get_record.
Context `{RT : RdataTypes} `{OK : !RdataTypesOk} (mem : Z -> bool).

Lemma rdata_from_class dctx opcode id c t b pos len d : rdata_from dctx opcode id c t b pos len d -> rdata_class d = c /\ rdata_type d = t.
Proof. unfold rdata_from. case_if; [by intros [_ ->]|]. by intros (? & ? & _ & -> & _). Qed.

Lemma rdata_from_ext dctx opcode id c t b b' pos len d : b_base b = b_base b' -> b_used b = b_used b' ->
  rdata_from dctx opcode id c t b' pos len d -> rdata_from dctx opcode id c t b pos len d.
Proof. intros E1 E2. unfold rdata_from, data_at. by rewrite E1, E2. Qed.

Lemma rr_at_ext dctx opcode id b b' pos x pos' : b_base b = b_base b' -> b_used b = b_used b' ->
  rr_at dctx opcode id b' pos x pos' -> rr_at dctx opcode id b pos x pos'.
Proof.
  intros E1 E2 (k & len & H1 & H2 & H3 & H4 & H5 & H6 & H7 & H8). exists k, len. unfold name_at in *. rewrite E1, E2.
  split_and!; try done. by eapply rdata_from_ext.
Qed.

Lemma broken_fails id s0 s s1 r s2 : frame id s0 s -> nosig s -> calm s s1 -> fails s1 r s2 -> broken id s0 r s2.
Proof. intros F N C [Hr C']. destruct (frame_calm _ _ _ _ F (calm_trans _ _ _ C C')) as [F' N']. split_and!; [done|done|by apply N']. Qed.

(** The first half of an iteration, up to the data: the continuation gets the record. *)
Lemma wp_record_read dctx id count s0 s (k : dns_name_t -> Z -> Z -> Z -> bool -> dns_rdata -> parser unit) Q recstart :
  frame id s0 s -> nosig s -> s_free_name s = false -> s_free_rdataset s = false ->
  (forall name ttl skip d s' ls, calm s s' -> s_free_name s' = true -> wf_name name ls true ->
     rr_at dctx (m_opcode (s_msg s)) id (s_source s) (at_ s) (mkRR ls ttl d) (at_ s') -> signed d ->
     skip = unsearched (rdata_type d) ->
     unsearched_ok id count (rdata_type d) (s_msg s) ->
     wp (k name (rdata_type d) (rdata_class d) ttl skip d) Q (broken id s0) s') ->
  wp (do name <- read_name mem dctx ;;
      run need 10 ;;
      do rdtype <- getuint16 ;;
      do rdclass <- getuint16 ;;
      run check_class false rdtype rdclass ;;
      do skip <- check_special false id count recstart rdtype rdclass name ;;
      do ttl <- getuint32 ;;
      do rdatalen <- getuint16 ;;
      run need rdatalen ;;
      do rdata <- read_rdata mem dctx id rdtype rdclass rdatalen ;;
      k name rdtype rdclass ttl skip rdata) Q (broken id s0) s.
Proof.
  intros F N Hf Hr Hk. pose proof (fr_readable _ _ _ F) as R. pose proof (calm_refl s R) as C.
  wstep wp_read_name; [done|done| |by intros r s'; apply broken_fails with s]. intros name s1 (C1 & F1 & ls & kk & Hn & Wn & A1).
  wstep wp_need; [apply C1| |by intros r s'; apply broken_fails with s]. intros _ s1' [-> L1].
  wstep wp_getuint16; [apply C1|lia| |by intros r s'; apply broken_fails with s]. intros rdtype s2 (V2 & _ & A2 & C2 & F2).
  pose proof (calm_trans _ _ _ C1 C2) as C2'. pose proof (cm_used _ _ C1) as U1. pose proof (cm_used _ _ C2) as U2.
  wstep wp_getuint16; [apply C2|lia| |by intros r s'; apply broken_fails with s]. intros rdclass s3 (V3 & _ & A3 & C3 & F3).
  pose proof (calm_trans _ _ _ C2' C3) as C3'. pose proof (cm_used _ _ C3) as U3.
  wstep wp_check_class; [apply C3| |by intros r s'; apply broken_fails with s]. intros _ s4 (C4 & F4 & S4).
  pose proof (calm_trans _ _ _ C3' C4) as C4'.
  wstep wp_check_special; [apply C4|exact Wn| |by intros r s'; apply broken_fails with s]. intros skip s5 ((C5 & F5 & S5) & Hskip & Hspec).
  pose proof (calm_trans _ _ _ C4' C5) as C5'. assert (A5 : at_ s5 = at_ s3) by (unfold at_; by rewrite S5, S4).
  assert (U5 : b_used (s_source s5) = b_used (s_source s3)) by (by rewrite S5, S4).
  wstep wp_getuint32; [apply C5|clear - L1 U1 U2 U3 U5 A2 A3 A5; lia| |by intros r s'; apply broken_fails with s]. intros ttl s6 (V6 & _ & A6 & C6 & F6).
  pose proof (calm_trans _ _ _ C5' C6) as C6'. pose proof (cm_used _ _ C6) as U6.
  wstep wp_getuint16; [apply C6|clear - L1 U1 U2 U3 U5 U6 A2 A3 A5 A6; lia| |by intros r s'; apply broken_fails with s]. intros len s7 (V7 & L7 & A7 & C7 & F7).
  pose proof (calm_trans _ _ _ C6' C7) as C7'. pose proof (cm_used _ _ C7) as U7.
  wstep wp_need; [apply C7| |by intros r s'; apply broken_fails with s]. intros _ s7' [-> L8].
  wstep wp_read_rdata; [apply C7|done|clear - L8; lia| |by intros r s'; apply broken_fails with s]. intros d s8 (C8 & F8 & A8 & Hsig & Ht & Hd).
  pose proof (calm_trans _ _ _ C7' C8) as C8'. destruct (rdata_from_class _ _ _ _ _ _ _ _ _ Hd) as [Hc _].
  rewrite <- Ht, <- Hc. apply Hk with ls; [done|congruence|done| |done|by rewrite Ht|].
  - exists kk, len. cbn [rr_name rr_ttl rr_rdata]. rewrite Ht, Hc.
    rewrite (cm_base _ _ C1) in V2. rewrite (cm_base _ _ C2') in V3. rewrite (cm_base _ _ C5') in V6. rewrite (cm_base _ _ C6') in V7.
    assert (P7 : at_ s6 = at_ s + kk + 8 /\ at_ s7 = at_ s + kk + 10 /\ at_ s8 = at_ s + kk + 10 + len) by (clear - A1 A2 A3 A5 A6 A7 A8; lia).
    assert (P5 : at_ s2 = at_ s + kk + 2 /\ at_ s5 = at_ s + kk + 4) by (clear - A1 A2 A3 A5; lia).
    destruct P7 as (P6 & P7 & P8), P5 as [P2 P5]. rewrite A1 in V2. rewrite P2 in V3. rewrite P5 in V6. rewrite P6 in V7. rewrite P7 in Hd.
    split_and!; [done|done|done|done|done| |done|].
    + by eapply rdata_from_ext; [..|rewrite <- (cm_opcode _ _ C7')]; [symmetry; apply C7'|symmetry; apply C7'|].
    + rewrite <- (cm_used _ _ C7'). clear - P7 P8 L8. lia.
  - rewrite Ht. unfold unsearched_ok, count_of in *. by rewrite <- (cm_counts _ _ C4'), <- (cm_opt _ _ C4').
Qed.

Lemma section_calm id s s' : calm s s' -> section_of (s_msg s') id = section_of (s_msg s) id.
Proof. intros C. unfold section_of. by rewrite (cm_sections _ _ C). Qed.

Lemma wp_get_record dctx preserve_order id count s0 s : between id (searches preserve_order (m_opcode (s_msg s0))) s0 s -> nosig s ->
  wp (get_record mem dctx preserve_order false id count)
    (fun _ s' => between id (searches preserve_order (m_opcode (s_msg s0))) s0 s'
       /\ (nosig s' \/ (id = DNS_SECTION_ADDITIONAL /\ count = count_of (s_msg s0) id - 1))
       /\ exists x name, rr_at dctx (m_opcode (s_msg s0)) id (s_source s0) (at_ s) x (at_ s') /\ wf_name name (rr_name x) true
            /\ record_placed (searches preserve_order (m_opcode (s_msg s0))) name (rr_ttl x) (rr_rdata x)
                 (section_of (s_msg s) id) (section_of (s_msg s') id)
            /\ (rdata_type (rr_rdata x) = dns_rdatatype_opt -> m_opt (s_msg s) = None)
            /\ specials (s_msg s') = remembered (rr_rdata x) (new_for (rr_ttl x) (rr_rdata x)) name (specials (s_msg s)))
    (broken id s0) s.
Proof.
  intros [F Hf Hr Hok] N. unfold get_record. wbind. unfold wp at 1, put_free_rdataset.
  assert (Es : mkSt (s_source s) (s_msg s) (s_problem s) (s_free_name s) false = s) by (destruct s; cbn in *; by rewrite Hr).
  rewrite Es. wbind. apply wp_get_source. cbv zeta.
  apply (wp_record_read dctx id count s0 s (fun name rdtype rdclass ttl skip rdata =>
    do cov <- check_covers false id count (b_current (s_source s)) rdtype rdata ;;
    place_record mem preserve_order false id rdtype rdclass ttl name skip rdata cov.1 cov.2)); [done..|].
  intros name ttl skip d s1 ls C1 F1 Wn Hrr Hsig Hskip [Htsig Hopt]. destruct (frame_calm _ _ _ _ F C1) as [Fr1 N1].
  wstep wp_check_covers; [apply Fr1|done| |by intros r s2; apply (broken_fails id s0 s)].
  intros cov s2 ((C2 & F2 & S2) & -> & Hz). cbn [fst snd]. pose proof (calm_trans _ _ _ C1 C2) as C2'.
  destruct (frame_calm _ _ _ _ F C2') as [Fr2 N2]. pose proof (section_calm id _ _ C2') as E2.
  pose proof (cm_opcode _ _ C2') as O2. pose proof (fr_opcode _ _ _ F) as O. pose proof (fr_counts _ _ _ F) as Cn.
  eapply wp_conseq; [eapply (wp_place_record mem id s0 preserve_order ttl d name ls skip s2); [done|by apply N2|by rewrite F2| |done| |done|]| |done].
  - by rewrite (cm_rdataset _ _ C2').
  - by rewrite O2, O, E2.
  - by rewrite (cm_opt _ _ C2').
  - intros _ s3 (S3 & Hn & P3 & K3). rewrite O2, O, E2 in P3.
    assert (P3' : section_ok (searches preserve_order (m_opcode (s_msg s0))) (section_of (s_msg s3) id)).
    { unfold record_placed in P3. destruct (apart d); [by rewrite P3|]. by eapply placed_ok. }
    split_and!; [destruct S3; by split| |].
    + destruct (apart d) eqn:Ea; [|left; by apply Hn; left]. destruct (decide (rdata_type d = dns_rdatatype_opt)); [left; by apply Hn; right|].
      right. unfold count_of in *. rewrite <- Cn. destruct (sigzero d) eqn:Ez; [rewrite <- (cm_counts _ _ C1); by apply Hz|].
      apply Htsig. unfold apart, kept_apart in Ea. rewrite Ez in Ea. lia.
    + exists (mkRR ls ttl d), name.
      split_and!; [|done|done|done
        |by rewrite K3, (calm_specials _ _ C2')].
      rewrite <- O.
      assert (A3 : at_ s3 = at_ s1) by (unfold at_; by rewrite (sd_source _ _ _ _ S3), S2). rewrite A3.
      by eapply rr_at_ext; [symmetry; apply F|symmetry; apply F|].
Qed.
End get_record.
