(* ===== verification/MessageParse.v ===== *)
(** * Parsing a message

    The loops over the questions and over the records of a section, and the parser of
    a whole message: it returns on every packet, what it took from the pools belongs to
    the message, and on success the sections hold the records of the packet. *)

From S2P Require Import Prelude Buffer Name NameTheory FromWire Rdata Message MessageWire MessageRead MessagePlace MessageRecord.

(** ** A section of records *)

(** The name of a record up to case. *)
Definition owner (x : rr) : list Z := map tolower (wire (labels_of (rr_name x) true)).

Fixpoint rrs_at `{RdataTypes} (dctx : dns_decompress_t) (opcode id : Z) (b : isc_buffer_t) (pos : Z) (xs : list rr) (pos' : Z) : Prop :=
  match xs with
  | [] => pos' = pos
  | x :: xs => exists p, rr_at dctx opcode id b pos x p /\ rrs_at dctx opcode id b p xs pos'
  end.

(** The records that are linked into a section. *)
Definition linked (xs : list rr) : list rr := List.filter (fun x => negb (apart (rr_rdata x))) xs.

(** The least time to live of the records. *)
Definition min_ttl (ys : list rr) : Z :=
  match ys with [] => 0 | y :: ys => foldl Z.min (rr_ttl y) (map rr_ttl ys) end.

(** The rdataset [r] of a name has the data of the records [ys], in their order, and
    the least of their times to live. *)
Record of_records (name : list Z) (r : dns_rdataset) (ys : list rr) : Prop := {
  of_some : ys <> [];
  of_owner : Forall (fun y => owner y = name) ys;
  of_data : rdl_rdata (rds_list r) = map rr_rdata ys;
  of_ttl : rds_ttl r = min_ttl ys
}.

(** The section holds the records: they are dealt out to its rdatasets, each to one,
    and every rdataset has its records in the order of the packet; without a search
    every record has a name and an rdataset of its own, in the order of the packet. *)
Definition holds (search : bool) (l : list msgname) (xs : list rr) : Prop :=
  exists groups, Forall2 (fun n gs => Forall2 (of_records (name_fold (mn_name n))) (mn_list n) gs) l groups
    /\ concat (map (@concat rr) groups) ≡ₚ xs
    /\ Forall (Forall (fun ys => ys `sublist_of` xs)) groups
    /\ (search = false -> groups = map (fun x => [[x]]) xs).

(** The rdataset of a record that is kept apart, and its name. *)
Definition same_record (x : rr) (r : dns_rdataset) : Prop :=
  key r = data_key (rr_rdata x) /\ rds_ttl r = rr_ttl x /\ rdl_rdata (rds_list r) = [rr_rdata x].

Definition opt_holds (o : option dns_rdataset) (xs : list rr) : Prop :=
  match o, xs with None, [] => True | Some r, [x] => same_record x r | _, _ => False end.

Definition signature_holds (o : option (dns_rdataset * dns_name_t)) (xs : list rr) : Prop :=
  match o, xs with
  | None, [] => True
  | Some (r, n), [x] => same_record x r /\ ndata n = wire (labels_of (rr_name x) true)
  | _, _ => False
  end.

Definition of_type (type : Z) (xs : list rr) : list rr := List.filter (fun x => rdata_type (rr_rdata x) =? type) xs.
Definition of_sig0 (xs : list rr) : list rr := List.filter (fun x => sigzero (rr_rdata x)) xs.

(** The message holds apart the OPT, the SIG(0) and the TSIG of the records, of each
    at most one. *)
Definition keeps sp (xs : list rr) : Prop :=
  let '(opt, sig0, tsig) := sp in
  opt_holds opt (of_type dns_rdatatype_opt xs) /\ signature_holds sig0 (of_sig0 xs)
  /\ signature_holds tsig (of_type dns_rdatatype_tsig xs).

Lemma fold_of name ls : wf_name name ls true -> name_fold name = map tolower (wire (labels_of ls true)).
Proof. intros W. unfold name_fold. by rewrite (wn_data _ _ _ W). Qed.

Lemma holds_nil search : holds search [] [].
Proof. exists []. split_and!; [constructor|done|constructor|done]. Qed.

Lemma min_ttl_snoc ys x : ys <> [] -> min_ttl (ys ++ [x]) = Z.min (min_ttl ys) (rr_ttl x).
Proof. destruct ys as [|y ys]; [done|]. intros _. cbn. by rewrite map_app, foldl_app. Qed.

Lemma add_ttl ttl d r : rds_ttl (add_rdata ttl d r) = Z.min (rds_ttl r) ttl.
Proof. cbn. destruct (Z.eqb_spec ttl (rds_ttl r)), (Z.ltb_spec ttl (rds_ttl r)); cbn; lia. Qed.

Lemma new_of_records name x : owner x = name -> of_records name (new_for (rr_ttl x) (rr_rdata x)) [x].
Proof. intros E. split; [done|by repeat constructor|done|]. unfold new_for. rewrite add_ttl. cbn. lia. Qed.

Lemma more_of_records name r ys x : owner x = name -> of_records name r ys ->
  of_records name (add_rdata (rr_ttl x) (rr_rdata x) r) (ys ++ [x]).
Proof.
  intros E [O1 O2 O3 O4]. split; [by destruct ys|apply Forall_app; by repeat constructor|cbn; by rewrite map_app, O3|].
  by rewrite add_ttl, min_ttl_snoc, O4.
Qed.

Lemma sublists_snoc (groups : list (list (list rr))) xs x :
  Forall (Forall (fun ys => ys `sublist_of` xs)) groups -> Forall (Forall (fun ys => ys `sublist_of` xs ++ [x])) groups.
Proof. intros H. do 2 (eapply Forall_impl; [eassumption|]; clear H; intros ? H). by apply sublist_inserts_r. Qed.

Lemma sublist_snoc (ys xs : list rr) x : ys `sublist_of` xs -> ys ++ [x] `sublist_of` xs ++ [x].
Proof. intros H. by apply sublist_app. Qed.

Lemma holds_new search l xs name x : owner x = name_fold name -> holds search l xs ->
  holds search (l ++ [mkMsgname name [new_for (rr_ttl x) (rr_rdata x)]]) (xs ++ [x]).
Proof.
  intros Ho (gs & G1 & G2 & G3 & G4). exists (gs ++ [[[x]]]). split_and!.
  - apply Forall2_app; [done|]. constructor; [constructor; [by apply new_of_records|constructor]|constructor].
  - rewrite map_app, concat_app, G2. by cbn.
  - apply Forall_app. split; [by apply sublists_snoc|]. do 2 (constructor; [|constructor]). by apply sublist_inserts_l.
  - intros Hs. by rewrite map_app, (G4 Hs).
Qed.

Lemma holds_alter l xs i n f g x : holds true l xs -> l !! i = Some n ->
  (forall gs, Forall2 (of_records (name_fold (mn_name n))) (mn_list n) gs -> Forall (fun ys => ys `sublist_of` xs) gs ->
     Forall2 (of_records (name_fold (mn_name n))) (f (mn_list n)) (g gs)
     /\ Forall (fun ys => ys `sublist_of` xs ++ [x]) (g gs) /\ concat (g gs) ≡ₚ concat gs ++ [x]) ->
  holds true (alter (on_list f) i l) (xs ++ [x]).
Proof.
  intros (gs & G1 & G2 & G3 & _) Hi Hg. destruct (Forall2_lookup_l _ _ _ _ _ G1 Hi) as (g0 & Hg0 & H0).
  destruct (Hg g0 H0) as (K1 & K2 & K3); [by eapply Forall_lookup_1|]. exists (alter g i gs). split_and!; [| | |done].
  - apply Forall2_alter; [done|]. intros ? ? E1 E2 _. simplify_eq. exact K1.
  - rewrite (concat_alter (@concat rr) g gs i g0 x Hg0 K3). by rewrite G2.
  - apply Forall_alter; [by apply sublists_snoc|]. intros ? E _. by simplify_eq.
Qed.

Lemma holds_placed search name x l l' xs : wf_name name (rr_name x) true -> holds search l xs ->
  record_placed search name (rr_ttl x) (rr_rdata x) l l' -> holds search l' (xs ++ linked [x]).
Proof.
  intros Wn H P. assert (Ho : owner x = name_fold name) by (by rewrite (fold_of _ _ Wn)).
  unfold record_placed, linked in *. cbn. destruct (apart (rr_rdata x)); cbn; [subst l'; by rewrite app_nil_r|].
  destruct P as [_|i n -> Hi Hf _|i n j r -> Hi Hf Hj _]; [by apply holds_new| |].
  - apply (holds_alter l xs i n _ (fun gs => gs ++ [[x]]) x H Hi). intros gs G1 G2. split_and!.
    + apply Forall2_app; [done|]. constructor; [apply new_of_records; congruence|constructor].
    + apply Forall_app. split; [|constructor; [by apply sublist_inserts_l|constructor]].
      eapply Forall_impl; [exact G2|]. intros. by apply sublist_inserts_r.
    + by rewrite concat_app.
  - apply (holds_alter l xs i n _ (alter (fun ys => ys ++ [x]) j) x H Hi). intros gs G1 G2.
    destruct (Forall2_lookup_l _ _ _ _ _ G1 Hj) as (ys & Hys & Hr). split_and!.
    + apply Forall2_alter; [done|]. intros ? ? _ _ ?. apply more_of_records; congruence.
    + apply Forall_alter.
      * eapply Forall_impl; [exact G2|]. intros. by apply sublist_inserts_r.
      * intros ys' E' _. apply sublist_snoc. exact (Forall_lookup_1 _ _ _ _ G2 E').
    + assert (C := concat_alter (fun ys : list rr => ys) (fun ys => ys ++ [x]) gs j ys x Hys (reflexivity _)).
      by rewrite !map_id in C.
Qed.

Lemma linked_cons x xs : linked (x :: xs) = linked [x] ++ linked xs.
Proof. unfold linked. cbn. by destruct (apart (rr_rdata x)). Qed.

Lemma of_type_app t xs ys : of_type t (xs ++ ys) = of_type t xs ++ of_type t ys.
Proof. apply List.filter_app. Qed.

Lemma of_sig0_app xs ys : of_sig0 (xs ++ ys) = of_sig0 xs ++ of_sig0 ys.
Proof. apply List.filter_app. Qed.

Lemma of_type_one t x : of_type t [x] = if rdata_type (rr_rdata x) =? t then [x] else [].
Proof. done. Qed.

Lemma of_sig0_one x : of_sig0 [x] = if sigzero (rr_rdata x) then [x] else [].
Proof. done. Qed.

Lemma new_same x : same_record x (new_for (rr_ttl x) (rr_rdata x)).
Proof. split_and!; [done| |done]. unfold new_for. rewrite add_ttl. cbn. lia. Qed.

(** A record that the message keeps apart is the first of its kind. *)
Lemma keeps_remembered opt xs x name : wf_name name (rr_name x) true ->
  keeps (opt, None, None) xs -> (rdata_type (rr_rdata x) = dns_rdatatype_opt -> opt = None) ->
  keeps (remembered (rr_rdata x) (new_for (rr_ttl x) (rr_rdata x)) name (opt, None, None)) (xs ++ [x]).
Proof.
  intros Wn (K1 & K2 & K3) Ho. unfold keeps, remembered. rewrite !of_type_app, of_sig0_app.
  destruct (of_sig0 xs) eqn:E2; [|done]. destruct (of_type dns_rdatatype_tsig xs) eqn:E3; [|done].
  rewrite !of_type_one, of_sig0_one. cbn [app]. pose proof (wn_data _ _ _ Wn) as Hd. pose proof (new_same x) as Hn.
  unfold sigzero in *. destruct (Z.eqb_spec (rdata_type (rr_rdata x)) dns_rdatatype_opt) as [Et|Et].
  { rewrite (Ho Et) in *. rewrite Et. cbn. destruct (of_type dns_rdatatype_opt xs); [|done]. done. }
  rewrite app_nil_r. destruct (Z.eqb_spec (rdata_type (rr_rdata x)) dns_rdatatype_sig) as [Eg|Eg]; cbn [andb].
  { rewrite Eg. cbn [Z.eqb Pos.eqb dns_rdatatype_sig dns_rdatatype_tsig]. destruct (_ && _); done. }
  destruct (Z.eqb_spec (rdata_type (rr_rdata x)) dns_rdatatype_tsig); done.
Qed.

(** The records that are kept apart are those before and those of [xs]. *)
Definition keeps_more (m m' : dns_message) (xs : list rr) : Prop :=
  forall before, keeps (specials m) before -> keeps (specials m') (before ++ xs).

(** Everything that was taken from the pools belongs to the message. *)
Definition accounted (m : dns_message) : Prop := m_names m = names_held m /\ m_rdatasets m = rdatasets_held m.

(** What parsing the section [id] leaves as it was. *)
Record section_done (id : Z) (m : dns_message) (src : isc_buffer_t) (m' : dns_message) (src' : isc_buffer_t) : Prop := {
  dn_source : wf_buffer src';
  dn_base : b_base src' = b_base src;
  dn_used : b_used src' = b_used src;
  dn_pad : pad_ok m';
  dn_counts : m_counts m' = m_counts m;
  dn_opcode : m_opcode m' = m_opcode m;
  dn_intent : m_from_to_wire m' = m_from_to_wire m;
  dn_length : length (m_sections m') = length (m_sections m);
  dn_others : forall j, j <> Z.to_nat id -> m_sections m' !! j = m_sections m !! j;
  dn_accounted : accounted m'
}.

Definition unsigned (m : dns_message) : Prop := m_sig0 m = None /\ m_tsig m = None.

Lemma finish_error id s0 e s : frame id s0 s -> exists m', finish_section (inl e) s = (e, m', s_source s)
  /\ section_done id (s_msg s0) (s_source s0) m' (s_source s) /\ (nosig s -> unsigned m').
Proof.
  intros [[R1 R2] ? ? ? ? ? ? ? ? ? [B1 B2]]. eexists. split; [done|]. split; [|done]. split; try done. unfold accounted, names_held, rdatasets_held in *. cbn.
  destruct (s_free_name s), (s_free_rdataset s); cbn in *; lia.
Qed.

Lemma finish_success id s0 s : frame id s0 s -> s_free_name s = false -> s_free_rdataset s = false ->
  finish_section (inr tt) s = (ISC_R_SUCCESS, s_msg s, s_source s) /\ section_done id (s_msg s0) (s_source s0) (s_msg s) (s_source s).
Proof.
  intros [[R1 R2] ? ? Hp ? ? ? ? ? ? [B1 B2]] Hf Hr. unfold finish_section. rewrite Hp. split; [done|]. split; try done.
  rewrite Hf, Hr in *. unfold accounted. cbn in *. lia.
Qed.

Section sections.
Context `{RT : RdataTypes} `{OK : !RdataTypesOk} (mem : Z -> bool).

Lemma wp_records dctx preserve_order id s0 n : forall count s ls,
  let search := searches preserve_order (m_opcode (s_msg s0)) in
  between id search s0 s -> (nosig s \/ (id = DNS_SECTION_ADDITIONAL /\ n = O)) -> count + Z.of_nat n = count_of (s_msg s0) id ->
  holds search (section_of (s_msg s) id) ls ->
  wp (repeat_from (get_record mem dctx preserve_order false id) n count)
    (fun _ s' => between id search s0 s' /\ (nosig s' \/ id = DNS_SECTION_ADDITIONAL)
       /\ exists xs, length xs = n /\ rrs_at dctx (m_opcode (s_msg s0)) id (s_source s0) (at_ s) xs (at_ s')
            /\ holds search (section_of (s_msg s') id) (ls ++ linked xs) /\ keeps_more (s_msg s) (s_msg s') xs)
    (broken id s0) s.
Proof.
  induction n as [|n IH]; intros count s ls search B N Hc He; cbn [repeat_from].
  - apply wp_ret. split_and!; [done|by destruct N as [?|[? _] ]; [left|right]|]. exists []. unfold keeps_more. cbn. rewrite app_nil_r.
    split_and!; [done..|]. intros before. by rewrite app_nil_r.
  - destruct N as [N|[_ ?] ]; [|done]. wbind. eapply wp_mono; [by apply wp_get_record|]. intros _ s1 (B1 & N1 & x & name & Hx & Wn & P & Ho & K).
    eapply wp_mono; [apply (IH (count + 1) s1 (ls ++ linked [x]) B1)|].
    + destruct N1 as [?|[? ?] ]; [by left|right; split; [done|lia] ].
    + lia.
    + by eapply holds_placed.
    + intros _ s2 (B2 & N2 & xs & Hl & Hxs & Hh & Hk2). rewrite <- !app_assoc in *. split_and!; [done|done|].
      exists (x :: xs). split_and!; [cbn; lia|by exists (at_ s1)|by rewrite linked_cons|]. intros before Hk.
      replace (before ++ x :: xs) with ((before ++ [x]) ++ xs) by (by rewrite <- app_assoc). apply Hk2. rewrite K.
      unfold specials in *. destruct N as [Eg Et]. rewrite Eg, Et in *. by apply keeps_remembered.
Qed.

(** A loop that ends in the invariant gives the result of the function. *)
Lemma finish_loop id s0 (p : parser unit) (Q : section_st -> Prop) : 
  wp p (fun _ s => frame id s0 s /\ s_free_name s = false /\ s_free_rdataset s = false /\ Q s) (broken id s0) s0 ->
  exists r m' src', (let* (r, s) := p s0 in Done (finish_section r s)) = Done (r, m', src')
    /\ section_done id (s_msg s0) (s_source s0) m' src'
    /\ (if bool_decide (r = ISC_R_SUCCESS) then exists s, s_msg s = m' /\ s_source s = src' /\ Q s else unsigned m').
Proof.
  unfold wp. destruct (p s0) as [[[e|[]] s]| | |]; try done; cbn [obind].
  - intros (He & F & N). destruct (finish_error _ _ e _ F) as (m' & -> & D & Hu). exists e, m', (s_source s). split_and!; [done|done|].
    rewrite bool_decide_eq_false_2 by done. by apply Hu.
  - intros (F & Hf & Hr & HQ). destruct (finish_success _ _ _ F Hf Hr) as [-> D]. eexists _, _, _. split_and!; [done|done|].
    cbn. by exists s.
Qed.

(** The state in which a section is parsed. *)
Record ready (id : Z) (m : dns_message) (src : isc_buffer_t) : Prop := {
  ry_source : wf_buffer src;
  ry_pad : pad_ok m;
  ry_section : m_sections m !! Z.to_nat id = Some [];
  ry_accounted : accounted m;
  ry_unsigned : unsigned m
}.

Lemma ready_between id search m src : ready id m src -> between id search (mkSt src m false false false) (mkSt src m false false false)
  /\ section_of m id = [].
Proof.
  intros [W P S [A1 A2] U]. assert (E : section_of m id = []) by (unfold section_of; by rewrite nth_lookup, S). split; [|done].
  split; try done; [|cbn; rewrite E; apply section_ok_nil]. split; try done.
  - unfold has_section. by eapply lookup_lt_Some.
  - split; cbn; lia.
Qed.

(** The records [xs] of a section of a packet, from [pos] to [pos']. *)
Definition section_holds (dctx : dns_decompress_t) (options opcode id count : Z) (b : isc_buffer_t) (pos pos' : Z)
    (l : list msgname) (xs : list rr) : Prop :=
  let search := searches (option_on options DNS_MESSAGEPARSE_PRESERVEORDER) opcode in
  section_ok search l /\ Zlen xs = count /\ rrs_at dctx opcode id b pos xs pos' /\ holds search l (linked xs).

Lemma getsection_spec src m dctx id options : ready id m src -> 0 <= count_of m id -> option_on options DNS_MESSAGEPARSE_BESTEFFORT = false ->
  exists r m' src', getsection mem src m dctx id options = Done (r, m', src') /\ section_done id m src m' src'
    /\ (unsigned m' \/ (id = DNS_SECTION_ADDITIONAL /\ r = ISC_R_SUCCESS))
    /\ (r = ISC_R_SUCCESS -> exists xs, keeps_more m m' xs
         /\ section_holds dctx options (m_opcode m) id (count_of m id) src (b_current src) (b_current src') (section_of m' id) xs).
Proof.
  intros Rd Hc Hb. unfold getsection. rewrite Hb. set (po := option_on options DNS_MESSAGEPARSE_PRESERVEORDER).
  set (s0 := mkSt src m false false false). destruct (ready_between id (searches po (m_opcode m)) m src Rd) as [B E]. fold s0 in B.
  destruct (finish_loop id s0 (repeat_from (get_record mem dctx po false id) (Z.to_nat (count_of m id)) 0)
    (fun s => (nosig s \/ id = DNS_SECTION_ADDITIONAL)
       /\ exists xs, keeps_more m (s_msg s) xs
            /\ section_holds dctx options (m_opcode m) id (count_of m id) src (b_current src) (at_ s) (section_of (s_msg s) id) xs)) as (r & m' & src' & -> & D & H).
  - eapply wp_mono; [apply (wp_records dctx po id s0 _ 0 s0 []); [done|by left; apply Rd|cbn; lia|cbn; rewrite E; by apply holds_nil]|].
    intros _ s' ([F Hf Hr Hok] & N & xs & Hl & Hxs & Hh & Hk'). split_and!; [done..|].
    exists xs. unfold section_holds. split_and!; [done|done|unfold Zlen; lia|done|done].
  - exists r, m', src'. split_and!; [done|done| |].
    + case_bool_decide; [|by left]. destruct H as (s & <- & <- & [?|?] & _); [by left|by right].
    + intros Hr. rewrite bool_decide_eq_true_2 in H by done. by destruct H as (s & <- & <- & _ & ?).
Qed.
End sections.

(** ** The question section *)

(** The rule for two steps that are specified together. *)
Lemma wp_bind2 {A B C} (m : parser A) (f : A -> parser B) (k : B -> parser C) Q E s :
  wp (bind m f) (fun b s' => wp (k b) Q E s') E s -> wp (bind m (fun a => bind (f a) k)) Q E s.
Proof. unfold wp, bind. destruct (m s) as [[[r|a] s1]| | |]; cbn; try done. by destruct (f a s1) as [[[r|b] s2]| | |]. Qed.

(** A question: its name up to case, its class and its type. *)
Definition question : Type := list Z * Z * Z.

Definition q_at (b : isc_buffer_t) (pos : Z) (q : question) (pos' : Z) : Prop :=
  exists ls k, name_at b pos ls k
    /\ q = (map tolower (wire (labels_of ls true)), u16_at (b_base b) (pos + k + 2), u16_at (b_base b) (pos + k))
    /\ pos' = pos + k + 4 /\ pos' <= b_used b.

Fixpoint qs_at (b : isc_buffer_t) (pos : Z) (qs : list question) (pos' : Z) : Prop :=
  match qs with
  | [] => pos' = pos
  | q :: qs => exists p, q_at b pos q p /\ qs_at b p qs pos'
  end.

Definition name_questions (n : msgname) : list question :=
  map (fun r => (name_fold (mn_name n), rds_class r, rds_type r)) (mn_list n).
Definition questions (l : list msgname) : list question := concat (map name_questions l).

(** The section holds the questions, which have one name and are distinct. *)
Record questions_ok (l : list msgname) (qs : list question) : Prop := {
  qo_questions : questions l = qs;
  qo_distinct : NoDup qs;
  qo_one : (length l <= 1)%nat;
  qo_names : forall n, n ∈ l -> exists ls, wf_name (mn_name n) ls true;
  qo_covers : forall n r, n ∈ l -> r ∈ mn_list n -> rds_covers r = 0
}.

Definition question_rdataset (rdclass rdtype : Z) : dns_rdataset :=
  mkRdataset rdclass rdtype 0 0 DNS_RDATASETATTR_QUESTION (mkRdatalist rdclass rdtype 0 0 []).

Section question.
Context `{RT : RdataTypes} `{OK : !RdataTypesOk} (mem : Z -> bool) (s0 : section_st).

Lemma wp_question_name name ls s : frame 0 s0 s -> nosig s -> s_free_name s = true ->
  (forall n, n ∈ section_of (s_msg s) 0 -> exists ls, wf_name (mn_name n) ls true) -> wf_name name ls true ->
  wp (do name2 <- lift (findname name (section_of (s_msg s) 0)) ;;
      match name2 with
      | None =>
          run (if bool_decide (section_of (s_msg s) 0 = []) then ret tt else DO_FORMERR false) ;;
          do i <- append_name DNS_SECTION_QUESTION name ;;
          run put_free_name false ;;
          ret i
      | Some i =>
          run namepool_put ;;
          run put_free_name false ;;
          ret i
      end)
    (fun i s' => s_free_name s' = false /\ s_free_rdataset s' = s_free_rdataset s
       /\ exists l', moved 0 l' s s' /\ ((l' = section_of (s_msg s) 0 /\ exists n, l' !! i = Some n /\ name_fold (mn_name n) = name_fold name)
            \/ (section_of (s_msg s) 0 = [] /\ l' = [mkMsgname name []] /\ i = 0%nat))) (broken 0 s0) s.
Proof.
  intros F N Hf Hn Wn. pose proof (fr_section _ _ _ F) as H. pose proof (fr_readable _ _ _ F) as R.
  destruct (find_last_spec (fun curr => dns_name_equal (mn_name curr) name) (fun curr => name_fold (mn_name curr) = name_fold name)
    (section_of (s_msg s) 0)) as (r & Er & Hr).
  { intros n Hin. destruct (Hn n Hin) as [ls' W]. eexists. split; [exact (equal_fold _ _ _ _ W Wn)|]. by rewrite bool_decide_eq_true. }
  wbind. eapply wp_lift; [exact Er|]. destruct r as [i|].
  - destruct Hr as (n & Hi & Hfn). split_and!; [done|done|]. exists (section_of (s_msg s) 0). split; [|left; eauto].
    split; try done; try exact (proj1 R); cbn; [|rewrite Hf; cbn; lia]. symmetry. apply list_insert_id. exact (section_lookup 0 s H).
  - wbind. case_bool_decide as E; [|by split_and!]. apply wp_ret. split_and!; [done|done|]. exists [mkMsgname name []]. change DNS_SECTION_QUESTION with 0. rewrite E.
    split; [|right; by split_and!]. cbn.
    assert (M := put_section_moved 0 [mkMsgname name []] s (put_section 0 ([] ++ [mkMsgname name []]) (s_msg s)) false (s_free_rdataset s) R eq_refl).
    rewrite E, Hf in M. rewrite ?E. apply M; done.
Qed.

(** The class of the questions. *)
Lemma wp_question_class rdclass s : readable s ->
  wp (do msg <- get_msg ;;
      if m_state msg =? DNS_SECTION_ANY then put_msg (with_class rdclass DNS_SECTION_QUESTION msg)
      else if negb (m_rdclass msg =? rdclass) then DO_FORMERR false else ret tt)
    (fun _ s' => still s s') (fails s) s.
Proof.
  intros R. wbind. apply wp_get_msg. case_if; [split_and!; [by split|done..]|]. case_if; [|by apply wp_ret, still_refl].
  split; [done|by apply calm_refl].
Qed.

(** The rdataset of a question. *)
Lemma wp_question_rdataset rdclass rdtype i n s : frame 0 s0 s -> nosig s -> s_free_name s = false -> s_free_rdataset s = false ->
  section_of (s_msg s) 0 !! i = Some n ->
  wp (do l <- list_of DNS_SECTION_QUESTION i ;;
      do found <- lift (dns_message_find l rdclass rdtype 0) ;;
      run (match found with Some _ => DO_FORMERR false | None => ret tt end) ;;
      run allocate mem ;;
      run rdspool_get mem ;;
      alter_list DNS_SECTION_QUESTION i (fun l => l ++ [question_rdataset rdclass rdtype]))
    (fun _ s' => s_free_name s' = false /\ s_free_rdataset s' = false
       /\ moved 0 (alter (on_list (fun l => l ++ [question_rdataset rdclass rdtype])) i (section_of (s_msg s) 0)) s s'
       /\ forall r, r ∈ mn_list n -> key r <> (rdclass, rdtype, 0)) (broken 0 s0) s.
Proof.
  intros F N Hf Hr Hi. pose proof (fr_section _ _ _ F) as H. pose proof (fr_readable _ _ _ F) as R.
  wbind. unfold wp at 1. change DNS_SECTION_QUESTION with 0. rewrite (list_of_spec 0 i n s Hi).
  destruct (dns_message_find_spec (mn_list n) rdclass rdtype 0) as (r & Er & Hr').
  wbind. eapply wp_lift; [exact Er|]. wbind. destruct r as [j|]; [by split_and!|]. apply wp_ret.
  apply wp_alloc; [|apply (broken_stops 0 s0 s); [done|done|]; split; [done|]; eexists; apply moved_still; [done|]; split_and!; [by apply calm_reads; [|apply alloc_reads, R]|done|done]].
  wbind. unfold rdspool_get. apply wp_alloc;
    [|apply (broken_stops 0 s0 s); [done|done|]; split; [done|]; eexists; apply moved_still; [done|]; split_and!;
      [apply (calm_reads s (alloc mem (alloc mem (s_msg s)).2).2); [done|]; eapply reads_trans; apply alloc_reads; apply R|done|done]].
  unfold wp, add_rdatasets. cbn. split_and!; [done|done| |done]. set (f := on_list _).
  split; try done; try apply R; cbn; [unfold Zlen; rewrite length_alter; lia|]. unfold f. rewrite (count_alter _ _ _ _ Hi). unfold Zlen. rewrite length_app. cbn. lia.
Qed.

(** Between the questions. *)
Record asking (s : section_st) (qs : list question) : Prop := {
  ak_frame : frame 0 s0 s;
  ak_name : s_free_name s = false;
  ak_rdataset : s_free_rdataset s = false;
  ak_nosig : nosig s;
  ak_specials : specials (s_msg s) = specials (s_msg s0);
  ak_questions : questions_ok (section_of (s_msg s) 0) qs
}.

Lemma questions_placed name ls l l1 i n qs rdclass rdtype : questions_ok l qs -> wf_name name ls true ->
  (l1 = l /\ l1 !! i = Some n /\ name_fold (mn_name n) = name_fold name) \/ (l = [] /\ l1 = [mkMsgname name []] /\ i = 0%nat /\ n = mkMsgname name []) ->
  (forall r, r ∈ mn_list n -> key r <> (rdclass, rdtype, 0)) ->
  questions_ok (alter (on_list (fun l => l ++ [question_rdataset rdclass rdtype])) i l1) (qs ++ [(name_fold name, rdclass, rdtype)]).
Proof.
  intros [Q1 Q2 Q3 Q4 Q5] Wn P Hr. destruct P as [(-> & Hi & Hf)|(-> & -> & -> & ->)].
  - destruct l as [|n0 [|]]; [done| |cbn in Q3; lia]. destruct i; [|done]. injection Hi as ->.
    assert (Hin : n ∈ [n]) by set_solver. cbn. unfold questions in *. cbn in *. rewrite app_nil_r in *. split.
    + unfold questions, name_questions. cbn. rewrite map_app, app_nil_r. cbn. by rewrite <- Q1, <- Hf.
    + apply NoDup_snoc; [done|]. rewrite <- Q1. unfold name_questions. intros Hq. apply list_elem_of_fmap in Hq as (r & E & Hq).
      injection E as _ -> ->. apply (Hr r Hq). unfold key. by rewrite (Q5 n r).
    + cbn. lia.
    + intros x Hx. apply list_elem_of_singleton in Hx as ->. by apply (Q4 n).
    + intros x r Hx. apply list_elem_of_singleton in Hx as ->. cbn. intros [Hr'|Hr'%list_elem_of_singleton]%elem_of_app; [by apply (Q5 n)|by subst r].
  - unfold questions in *. cbn in Q1. subst qs. cbn. split; [done|apply NoDup_singleton|cbn; lia| |].
    + intros x Hx. apply list_elem_of_singleton in Hx as ->. by exists ls.
    + intros x r Hx. apply list_elem_of_singleton in Hx as ->. cbn. intros Hr'. by apply list_elem_of_singleton in Hr' as ->.
Qed.

Lemma wp_get_question dctx s qs : asking s qs ->
  wp (get_question mem dctx false) (fun _ s' => exists q, q_at (s_source s0) (at_ s) q (at_ s') /\ asking s' (qs ++ [q])) (broken 0 s0) s.
Proof.
  intros [F Hf Hr N K Q]. pose proof (fr_readable _ _ _ F) as R. unfold get_question.
  wstep wp_read_name; [done|done| |by intros r s'; apply (broken_fails 0 s0 s s); [..|by apply calm_refl] ]. intros name s1 (C1 & F1 & ls & k & Hn & Wn & A1).
  destruct (frame_calm _ _ _ _ F C1) as [Fr1 N1]. specialize (N1 N). pose proof (section_calm 0 _ _ C1) as E1.
  wbind. apply wp_get_msg. cbv zeta. apply wp_bind2. eapply wp_mono; [apply wp_question_name with ls; [done|done|done|rewrite E1; apply Q|done]|].
  intros i s2 (F2 & R2 & l2 & M2 & P2). rewrite (cm_rdataset _ _ C1), Hr in R2. rewrite E1 in P2.
  destruct (frame_moved _ _ _ _ _ Fr1 M2) as [Fr2 N2]. specialize (N2 N1). destruct (moved_section _ _ _ _ (fr_section _ _ _ Fr1) M2) as [E2 H2].
  assert (A2 : at_ s2 = at_ s + k) by (unfold at_ in *; by rewrite (mv_source _ _ _ _ M2)).
  pose proof (calm_refl _ (fr_readable _ _ _ Fr2)) as C2.
  wstep wp_need; [apply Fr2| |by intros r s'; apply (broken_fails 0 s0 s2)]. intros _ s2' [-> L2].
  wstep wp_getuint16; [apply Fr2|clear - L2; lia| |by intros r s'; apply (broken_fails 0 s0 s2)]. intros rdtype s3 (V3 & _ & A3 & C3 & F3).
  pose proof (cm_used _ _ C3) as U3.
  wstep wp_getuint16; [apply C3|clear - L2 A3 U3; lia| |by intros r s'; apply (broken_fails 0 s0 s2)]. intros rdclass s4 (V4 & _ & A4 & C4 & F4).
  pose proof (calm_trans _ _ _ C3 C4) as C4'. apply wp_bind2. eapply wp_conseq; [apply wp_question_class; apply C4| |by intros r s'; apply (broken_fails 0 s0 s2)].
  intros _ s5 (C5 & F5 & S5). pose proof (calm_trans _ _ _ C4' C5) as C5'.
  destruct (frame_calm _ _ _ _ Fr2 C5') as [Fr5 N5]. pose proof (section_calm 0 _ _ C5') as E5. rewrite E2 in E5.
  assert (Hi : exists n, l2 !! i = Some n /\ ((l2 = section_of (s_msg s) 0 /\ l2 !! i = Some n /\ name_fold (mn_name n) = name_fold name)
      \/ (section_of (s_msg s) 0 = [] /\ l2 = [mkMsgname name []] /\ i = 0%nat /\ n = mkMsgname name []))).
  { destruct P2 as [(? & n & ? & ?)|(? & ? & ?)]; [exists n; auto|]. exists (mkMsgname name []). subst. split; [done|right; by split_and!]. }
  destruct Hi as (n & Hi & P2').
  eapply wp_mono; [apply (wp_question_rdataset rdclass rdtype i n s5); [done|by apply N5|congruence|by rewrite (cm_rdataset _ _ C5')|by rewrite E5]|].
  intros _ s6 (F6 & R6 & M6 & Hk). destruct (frame_moved _ _ _ _ _ Fr5 M6) as [Fr6 N6].
  destruct (moved_section _ _ _ _ (fr_section _ _ _ Fr5) M6) as [E6 H6]. exists (name_fold name, rdclass, rdtype). split.
  - exists ls, k. unfold name_at in *. rewrite <- (fr_base _ _ _ F), <- (fr_used _ _ _ F). split; [done|].
    pose proof (cm_base _ _ C1) as B1. pose proof (mv_source _ _ _ _ M2) as S2. pose proof (cm_base _ _ C3) as B3.
    rewrite S2, B1, A2 in V3. rewrite B3, S2, B1, A3, A2 in V4. rewrite <- V3, <- V4, (fold_of _ _ Wn).
    assert (A6 : at_ s6 = at_ s + k + 4) by (unfold at_ in *; rewrite (mv_source _ _ _ _ M6), S5; clear - A2 A3 A4; lia).
    split_and!; [done|done|]. rewrite A6. rewrite S2, (cm_used _ _ C1) in L2. clear - L2 A2. lia.
  - split; [done|done|done|by apply N6, N5| |rewrite E6, E5; by eapply questions_placed].
    rewrite <- K, (moved_specials _ _ _ _ M6), (calm_specials _ _ C5'), (moved_specials _ _ _ _ M2). by apply calm_specials.
Qed.
End question.

Section whole.
Context `{RT : RdataTypes} `{OK : !RdataTypesOk} (mem : Z -> bool).

Lemma wp_questions dctx s0 n : forall count s qs, asking s0 s qs ->
  wp (repeat_from (fun _ => get_question mem dctx false) n count)
    (fun _ s' => exists qs', length qs' = n /\ qs_at (s_source s0) (at_ s) qs' (at_ s') /\ asking s0 s' (qs ++ qs')) (broken 0 s0) s.
Proof.
  induction n as [|n IH]; intros count s qs A; cbn [repeat_from].
  - apply wp_ret. exists []. by rewrite app_nil_r.
  - wbind. eapply wp_mono; [by apply wp_get_question|]. intros _ s1 (q & Hq & A1). eapply wp_mono; [by apply IH|].
    intros _ s2 (qs' & Hl & Hqs & A2). exists (q :: qs'). split_and!; [cbn; lia|by exists (at_ s1)|by rewrite <- app_assoc in A2].
Qed.

(** The questions of a packet, from [pos] to [pos']. *)
Definition questions_hold (count : Z) (b : isc_buffer_t) (pos pos' : Z) (l : list msgname) : Prop :=
  exists qs, Zlen qs = count /\ qs_at b pos qs pos' /\ questions_ok l qs.

Lemma getquestions_spec src m dctx options : ready 0 m src -> 0 <= count_of m 0 -> option_on options DNS_MESSAGEPARSE_BESTEFFORT = false ->
  exists r m' src', getquestions mem src m dctx options = Done (r, m', src') /\ section_done 0 m src m' src' /\ unsigned m'
    /\ (r = ISC_R_SUCCESS -> specials m' = specials m /\ questions_hold (count_of m 0) src (b_current src) (b_current src') (section_of m' 0)).
Proof.
  intros Rd Hc Hb. unfold getquestions. rewrite Hb. change DNS_SECTION_QUESTION with 0. set (s0 := mkSt src m false false false).
  destruct (ready_between 0 false m src Rd) as [[F _ _ _] E]. fold s0 in F.
  destruct (finish_loop 0 s0 (repeat_from (fun _ => get_question mem dctx false) (Z.to_nat (count_of m 0)) 0)
    (fun s => nosig s /\ specials (s_msg s) = specials m /\ questions_hold (count_of m 0) src (b_current src) (at_ s) (section_of (s_msg s) 0))) as (r & m' & src' & -> & D & H).
  - eapply wp_mono; [apply (wp_questions dctx s0 _ 0 s0 [])|].
    + split; [done|done|done|apply Rd|done|]. cbn. rewrite E. split; [done|constructor|cbn; lia|set_solver|set_solver].
    + intros _ s' (qs & Hl & Hqs & [F' Hf Hr N K Q]). split_and!; [done..|]. exists qs. split_and!; [unfold Zlen; lia|done|done].
  - exists r, m', src'. split_and!; [done|done| |].
    + case_bool_decide; [|done]. by destruct H as (s & <- & <- & ? & _).
    + intros Hr. rewrite bool_decide_eq_true_2 in H by done. by destruct H as (s & <- & <- & _ & ?).
Qed.

(** ** The whole message *)

Lemma ready_after id m src m' src' j : ready j m src -> section_done id m src m' src' -> unsigned m' -> Z.to_nat j <> Z.to_nat id ->
  ready j m' src'.
Proof. intros R D U Hj. split; [apply D|apply D|by rewrite (dn_others _ _ _ _ _ D); [apply R|]|apply D|done]. Qed.

Fixpoint sections_hold (dctx : dns_decompress_t) (options opcode : Z) (counts : Z -> Z) (b : isc_buffer_t) (ids : list Z) (pos pos' : Z)
    (section : Z -> list msgname) (all : list rr) : Prop :=
  match ids with
  | [] => pos' = pos /\ all = []
  | id :: ids => exists p xs rest, all = xs ++ rest
                   /\ section_holds dctx options opcode id (counts id) b pos p (section id) xs
                   /\ sections_hold dctx options opcode counts b ids p pos' section rest
  end.

Lemma rrs_at_ext dctx opcode id b b' xs : b_base b = b_base b' -> b_used b = b_used b' ->
  forall pos pos', rrs_at dctx opcode id b' pos xs pos' -> rrs_at dctx opcode id b pos xs pos'.
Proof.
  intros E1 E2. induction xs as [|x xs IH]; intros pos pos'; cbn; [done|]. intros (p & Hx & Hxs). exists p. split; [|by apply IH].
  by eapply rr_at_ext.
Qed.

Lemma section_holds_ext dctx options opcode id count b b' pos pos' l xs : b_base b = b_base b' -> b_used b = b_used b' ->
  section_holds dctx options opcode id count b' pos pos' l xs -> section_holds dctx options opcode id count b pos pos' l xs.
Proof. intros E1 E2 (H & H1 & H2 & H3). split_and!; [done|done|by eapply rrs_at_ext|done]. Qed.

(** What holds after every part of a message. *)
Record parsed (m : dns_message) (src : isc_buffer_t) (m' : dns_message) (src' : isc_buffer_t) : Prop := {
  pd_source : wf_buffer src';
  pd_base : b_base src' = b_base src;
  pd_used : b_used src' = b_used src;
  pd_pad : pad_ok m';
  pd_length : length (m_sections m') = length (m_sections m);
  pd_counts : m_counts m' = m_counts m;
  pd_opcode : m_opcode m' = m_opcode m;
  pd_accounted : accounted m'
}.

Lemma section_parsed id m src m' src' : section_done id m src m' src' -> parsed m src m' src'.
Proof. by intros []. Qed.

Lemma parsed_trans m1 s1 m2 s2 m3 s3 : parsed m1 s1 m2 s2 -> parsed m2 s2 m3 s3 -> parsed m1 s1 m3 s3.
Proof. intros [] []. split; congruence || done. Qed.

(** The additional section comes last; sections are not repeated. *)
Fixpoint in_order (ids : list Z) : Prop :=
  match ids with
  | [] => True
  | id :: ids => (ids <> [] -> id <> DNS_SECTION_ADDITIONAL) /\ (forall j, j ∈ ids -> Z.to_nat j <> Z.to_nat id) /\ in_order ids
  end.

(** The outcome of the sections [ids]: the others are as before, and on success the
    packet has the records that they hold. *)
Record sections_parsed (dctx : dns_decompress_t) (options : Z) (ids : list Z) (m : dns_message) (src : isc_buffer_t) (sp : bool)
    (r : option isc_result_t) (sp' : bool) (m' : dns_message) (src' : isc_buffer_t) : Prop := {
  sp_parsed : parsed m src m' src';
  sp_others : forall j, (forall id, id ∈ ids -> Z.to_nat j <> Z.to_nat id) -> section_of m' j = section_of m j;
  sp_hold : r = Some ISC_R_SUCCESS -> sp' = false -> sp = false
    /\ exists xs, keeps_more m m' xs
         /\ sections_hold dctx options (m_opcode m) (count_of m) src ids (b_current src) (b_current src') (section_of m') xs
}.

Lemma sections_hold_ext dctx options opcode counts counts' b b' ids section section' : b_base b = b_base b' -> b_used b = b_used b' ->
  (forall id, id ∈ ids -> counts id = counts' id /\ section id = section' id) ->
  forall pos pos' all, sections_hold dctx options opcode counts' b' ids pos pos' section' all ->
    sections_hold dctx options opcode counts b ids pos pos' section all.
Proof.
  intros E1 E2. induction ids as [|id ids IH]; intros Hid pos pos' all; cbn; [done|]. intros (p & xs & rest & H0 & H1 & H2). exists p, xs, rest.
  destruct (Hid id) as [-> ->]; [set_solver|]. split_and!; [done|by eapply section_holds_ext|]. apply IH; [set_solver|done].
Qed.

Lemma qs_at_ext b b' qs : b_base b = b_base b' -> b_used b = b_used b' -> forall pos pos', qs_at b' pos qs pos' -> qs_at b pos qs pos'.
Proof.
  intros E1 E2. induction qs as [|q qs IH]; intros pos pos'; cbn; [done|]. intros (p & H1 & H2). exists p. split; [|by apply IH].
  unfold q_at, name_at in *. by rewrite E1, E2.
Qed.

Lemma sections_step dctx options id ids m src sp m1 src1 sp1 r sp' m' src' xs : section_done id m src m1 src1 ->
  (sp1 = false -> keeps_more m m1 xs) -> (forall j, j ∈ ids -> Z.to_nat j <> Z.to_nat id) ->
  (sp1 = false -> sp = false /\ section_holds dctx options (m_opcode m) id (count_of m id) src (b_current src) (b_current src1) (section_of m1 id) xs) ->
  sections_parsed dctx options ids m1 src1 sp1 r sp' m' src' -> sections_parsed dctx options (id :: ids) m src sp r sp' m' src'.
Proof.
  intros D Hks Hne Hh [P O H]. pose proof (section_parsed _ _ _ _ _ D) as P1. split; [by eapply parsed_trans| |].
  - intros j Hj. rewrite O by (intros i Hi; apply Hj; set_solver). unfold section_of. rewrite !nth_lookup.
    rewrite (dn_others _ _ _ _ _ D); [done|]. apply Hj. set_solver.
  - intros Hr Hsp. destruct (H Hr Hsp) as (Hs1 & rest & Hk & Hrest). destruct (Hh Hs1) as [Hs Hsec]. split; [done|].
    exists (xs ++ rest). split; [intros before Hb; rewrite app_assoc; by apply Hk, Hks|]. exists (b_current src1), xs, rest. split_and!; [done| |].
    + rewrite (O id); [done|]. intros j Hj. apply not_eq_sym. by apply Hne.
    + eapply sections_hold_ext; [by rewrite (pd_base _ _ _ _ P1)|by rewrite (pd_used _ _ _ _ P1)|done|].
      unfold count_of in *. by rewrite <- (pd_opcode _ _ _ _ P1), <- (pd_counts _ _ _ _ P1).
Qed.

Lemma sections_end dctx options m src sp r : wf_buffer src -> pad_ok m -> accounted m ->
  sections_parsed dctx options [] m src sp r sp m src.
Proof. intros W Hp A. split; [by split|done|]. intros _ Hs. split; [done|]. exists []. split; [|done].
  intros before. by rewrite app_nil_r.
Qed.

Lemma sections_stop dctx options id ids m src sp r m1 src1 : section_done id m src m1 src1 ->
  r <> Some ISC_R_SUCCESS -> sections_parsed dctx options (id :: ids) m src sp r sp m1 src1.
Proof.
  intros D Hr. split; [by apply (section_parsed id)| |done]. intros j Hj. unfold section_of. rewrite !nth_lookup.
  rewrite (dn_others _ _ _ _ _ D); [done|]. apply Hj. set_solver.
Qed.

Lemma parse_sections_spec dctx options ids : option_on options DNS_MESSAGEPARSE_BESTEFFORT = false -> in_order ids ->
  forall src m sp, (forall id, id ∈ ids -> ready id m src /\ 0 <= count_of m id) -> wf_buffer src -> pad_ok m -> accounted m ->
  exists r sp' m' src', parse_sections mem ids src m dctx options sp = Done (r, sp', m', src')
    /\ sections_parsed dctx options ids m src sp r sp' m' src'.
Proof.
  intros Hb. induction ids as [|id ids IH]; intros Hio src m sp Hr Ws Hp Ha; cbn [parse_sections].
  { eexists _, _, _, _. split; [done|]. by apply sections_end. }
  destruct Hio as (Hadd & Hne & Hio). destruct (Hr id) as [Rd Hc]; [set_solver|].
  destruct (getsection_spec mem src m dctx id options Rd Hc Hb) as (r & m1 & src1 & -> & D & U & Hh). cbn [obind].
  assert (Hxs : exists xs, r = ISC_R_SUCCESS -> keeps_more m m1 xs
    /\ section_holds dctx options (m_opcode m) id (count_of m id) src (b_current src) (b_current src1) (section_of m1 id) xs).
  { destruct (decide (r = ISC_R_SUCCESS)) as [E|E]; [destruct (Hh E) as [xs ?]; by exists xs|by exists []]. }
  destruct Hxs as [xs Hxs].
  assert (Hgo : forall sp1, (sp1 = false -> sp = false /\ r = ISC_R_SUCCESS) ->
    exists r' sp' m' src', parse_sections mem ids src1 m1 dctx options sp1 = Done (r', sp', m', src')
      /\ sections_parsed dctx options (id :: ids) m src sp r' sp' m' src').
  { intros sp1 Hsp1. destruct (IH Hio src1 m1 sp1) as (r' & sp' & m' & src' & E & H).
    - intros j Hj. destruct U as [U|[U _] ]; [|exfalso; apply Hadd; [by intros ->; set_solver|done]].
      destruct (Hr j) as [Rj Hcj]; [set_solver|]. unfold count_of. rewrite (dn_counts _ _ _ _ _ D). split; [|done].
      eapply ready_after; [done..|]. by apply Hne.
    - apply D.
    - apply D.
    - apply D.
    - exists r', sp', m', src'. split; [done|]. eapply (sections_step _ _ _ _ _ _ _ _ _ _ _ _ _ _ xs); [done| |done| |done];
        intros Hs; destruct (Hsp1 Hs) as [? ->]; destruct Hxs; auto. }
  destruct (bool_decide (r = ISC_R_UNEXPECTEDEND) && _).
  { eexists _, _, _, _. split; [done|]. by apply sections_stop. }
  case_bool_decide; [by apply Hgo|]. case_bool_decide as E; [apply Hgo; auto|].
  eexists _, _, _, _. split; [done|]. apply sections_stop; [done|congruence].
Qed.

(** ** The header *)

Definition header_opcode (b : isc_buffer_t) (pos : Z) : Z :=
  Z.shiftr (Z.land (u16_at (b_base b) (pos + 2)) DNS_MESSAGE_OPCODE_MASK) DNS_MESSAGE_OPCODE_SHIFT.
Definition header_count (b : isc_buffer_t) (pos id : Z) : Z := u16_at (b_base b) (pos + 4 + 2 * id).

Lemma get16_next b k k' : wf_buffer b -> 0 <= k -> k' = k + 2 -> b_current b + k + 2 <= b_used b ->
  isc_buffer_getuint16 (set_current b (b_current b + k)) = Done (u16_at (b_base b) (b_current b + k), set_current b (b_current b + k'))
  /\ 0 <= u16_at (b_base b) (b_current b + k) < 65536.
Proof.
  intros W Hk -> Hl. pose proof W as [H1 H2 H3 H4 H5]. destruct (get16_spec (set_current b (b_current b + k))) as (E & Hv & _); [|cbn; lia|].
  - apply set_current_wf; [done|lia].
  - rewrite E. cbn. split; [|done]. do 2 f_equal. unfold set_current. cbn. f_equal. lia.
Qed.

Lemma parse_header_spec m b : wf_buffer b -> b_current b + 12 <= b_used b ->
  let f := u16_at (b_base b) (b_current b + 2) in
  parse_header m b = Done (with_header (u16_at (b_base b) (b_current b)) (Z.land f DNS_MESSAGE_FLAG_MASK) (Z.land f DNS_MESSAGE_RCODE_MASK)
      (header_opcode b (b_current b)) (map (header_count b (b_current b)) [0; 1; 2; 3]) m, set_current b (b_current b + 12))
  /\ forall id, 0 <= id < 4 -> 0 <= header_count b (b_current b) id < 65536.
Proof.
  intros W Hl f. pose proof W as [W1 W2 W3 W4 W5].
  assert (E0 : b = set_current b (b_current b + 0)) by (destruct b; unfold set_current; cbn; f_equal; lia).
  destruct (get16_next b 0 2 W) as [G0 _]; [lia..|]. destruct (get16_next b 2 4 W) as [G2 _]; [lia..|].
  destruct (get16_next b 4 6 W) as [G4 B4]; [lia..|]. destruct (get16_next b 6 8 W) as [G6 B6]; [lia..|].
  destruct (get16_next b 8 10 W) as [G8 B8]; [lia..|]. destruct (get16_next b 10 12 W) as [G10 B10]; [lia..|].
  split.
  - unfold parse_header. rewrite E0 at 1. rewrite G0. cbn [obind]. rewrite G2. cbn [obind]. rewrite G4. cbn [obind]. rewrite G6. cbn [obind].
    rewrite G8. cbn [obind]. rewrite G10. cbn [obind]. unfold header_count. cbn [map].
    replace (b_current b + 0) with (b_current b) by lia. by rewrite <- !Z.add_assoc.
  - intros id Hid. unfold header_count. assert (id = 0 \/ id = 1 \/ id = 2 \/ id = 3) as [->|[->|[->| ->]]] by lia; by rewrite <- Z.add_assoc.
Qed.

(** ** The whole message *)

(** A message as [dns_message_create] makes it. *)
Record fresh (m : dns_message) : Prop := {
  fs_intent : m_from_to_wire m = DNS_MESSAGE_INTENTPARSE;
  fs_pad : pad_ok m;
  fs_sections : m_sections m = [[]; []; []; []];
  fs_kept : m_opt m = None /\ unsigned m;
  fs_pools : m_names m = 0 /\ m_rdatasets m = 0
}.

Lemma create_fresh m : dns_message_create mem DNS_MESSAGE_INTENTPARSE = Done (ISC_R_SUCCESS, Some m) -> fresh m.
Proof.
  unfold dns_message_create. cbn -[newbuffer]. destruct (mem 0); cbn -[newbuffer]; [|done]. destruct (mem (0 + 1)); cbn -[newbuffer]; [|done].
  destruct (mem (0 + 1 + 1)); cbn -[newbuffer]; [|done]. unfold newbuffer, alloc. cbn -[replicate].
  destruct (mem (0 + 1 + 1 + 1)); cbn -[replicate]; [|done]. intros [= <-].
  split; try done. split; [done|]. apply Forall_singleton, (wf_init (replicate (Z.to_nat SCRATCHPAD_SIZE) 0)); [by apply Forall_replicate|by vm_compute].
Qed.

(** The decompression context of the parser. *)
Definition parse_dctx : dns_decompress_t :=
  dns_decompress_setmethods (mkdctx DNS_COMPRESS_NONE (-1) DNS_DECOMPRESS_ANY) DNS_COMPRESS_GLOBAL14.

Definition record_sections : list Z := [DNS_SECTION_ANSWER; DNS_SECTION_AUTHORITY; DNS_SECTION_ADDITIONAL].

(** The message of the packet: twelve octets of header, the questions, and the
    records of the three sections, which end where reading stopped; the OPT, the TSIG
    and the SIG(0) among the records are kept apart. *)
Definition message_holds (options : Z) (b : isc_buffer_t) (m : dns_message) (pos' : Z) : Prop :=
  let pos := b_current b in
  pos + 12 <= b_used b
  /\ exists p, questions_hold (header_count b pos 0) b (pos + 12) p (section_of m 0)
       /\ exists xs, sections_hold parse_dctx options (header_opcode b pos) (header_count b pos) b record_sections p pos' (section_of m) xs
            /\ keeps (specials m) xs.

(** A message that can be reset: [n] sections, a scratch buffer, and everything that was
    taken from the pools. *)
Definition reusable (n : nat) (m : dns_message) : Prop := length (m_sections m) = n /\ pad_ok m /\ accounted m.

Lemma parsed_reusable m src m' src' : parsed m src m' src' -> reusable (length (m_sections m)) m'.
Proof. by intros []. Qed.

Lemma save_reusable m b options rec r m' : save_message mem m b options rec = (r, m') ->
  (forall n, reusable n m -> reusable n m') /\ (r = ISC_R_SUCCESS -> rec = false) /\ (forall id, section_of m' id = section_of m id) /\ specials m' = specials m.
Proof.
  unfold save_message. destruct (option_on _ _); cbn [negb].
  - cbn. destruct (mem (m_allocs m)), rec; intros [= <- <-]; done.
  - destruct rec; intros [= <- <-]; done.
Qed.

Lemma header_ready m b f c op : fresh m -> wf_buffer b -> b_current b + 12 <= b_used b -> forall id, 0 <= id < 4 ->
  ready id (with_ok true false (with_header f c op (header_opcode b (b_current b)) (map (header_count b (b_current b)) [0; 1; 2; 3]) (with_ok false false m)))
    (set_current b (b_current b + 12)).
Proof.
  intros [F1 F2 F3 [F4 [F5 F5']] [F6 F7]] W Hl id Hid. pose proof W as [W1 W2 W3 W4 W5]. split; [apply set_current_wf; [done|lia]|done| | |done].
  - cbn. rewrite F3. assert (id = 0 \/ id = 1 \/ id = 2 \/ id = 3) as [->|[->|[->| ->]]] by lia; done.
  - unfold accounted, names_held, rdatasets_held. cbn. by rewrite F3, F4, F5, F5', F6, F7.
Qed.

Lemma record_sections_range id : id ∈ record_sections -> 0 < id < 4.
Proof.
  unfold record_sections, DNS_SECTION_ANSWER, DNS_SECTION_AUTHORITY, DNS_SECTION_ADDITIONAL. rewrite !elem_of_cons, elem_of_nil. lia.
Qed.

Lemma record_sections_order : in_order record_sections.
Proof.
  split_and!; [done| |split_and!; [done| |split_and!; [done| |done]]]; intros j; rewrite ?elem_of_cons, elem_of_nil;
    unfold DNS_SECTION_ANSWER, DNS_SECTION_AUTHORITY, DNS_SECTION_ADDITIONAL; lia.
Qed.

(** The records of a message, and the end of the parser. *)
Lemma parse_records m b orig options sp : (forall id, 0 < id < 4 -> ready id m b /\ 0 <= count_of m id) -> wf_buffer b -> pad_ok m -> accounted m ->
  option_on options DNS_MESSAGEPARSE_BESTEFFORT = false ->
  exists r m' b',
    (let* (ret, seen_problem, msg, source) := parse_sections mem record_sections b m parse_dctx options sp in
     match ret with
     | None => let '(result, msg) := save_message mem msg orig options true in Done (result, msg, source)
     | Some ret =>
         if bool_decide (ret = ISC_R_SUCCESS) then
           let '(result, msg) := save_message mem msg orig options seen_problem in Done (result, msg, source)
         else Done (ret, msg, source)
     end) = Done (r, m', b')
    /\ reusable (length (m_sections m)) m' /\ wf_buffer b' /\ b_base b' = b_base b /\ b_used b' = b_used b
    /\ (r = ISC_R_SUCCESS -> sp = false /\ section_of m' 0 = section_of m 0
         /\ exists xs, keeps_more m m' xs
              /\ sections_hold parse_dctx options (m_opcode m) (count_of m) b record_sections (b_current b) (b_current b') (section_of m') xs).
Proof.
  intros Hr W Hp A Hb.
  destruct (parse_sections_spec parse_dctx options record_sections Hb record_sections_order b m sp) as (r & sp' & m1 & b1 & -> & [P O H]);
    [intros id Hid; by apply Hr, record_sections_range|done..|]. cbn [obind]. pose proof (parsed_reusable _ _ _ _ P) as Rp. destruct r as [r|].
  2:{ destruct (save_message mem m1 orig options true) as [r2 m2] eqn:E2. destruct (save_reusable _ _ _ _ _ _ E2) as (A2 & S2 & _).
      eexists _, _, _. split; [done|]. split_and!; [by apply A2|apply P|apply P|apply P|]. by intros ?%S2. }
  destruct (bool_decide (r = ISC_R_SUCCESS)) eqn:Er; [apply bool_decide_eq_true in Er|apply bool_decide_eq_false in Er].
  2:{ eexists _, _, _. split; [done|]. split_and!; [done|apply P|apply P|apply P|by intros ?%Er]. }
  destruct (save_message mem m1 orig options sp') as [r2 m2] eqn:E2. destruct (save_reusable _ _ _ _ _ _ E2) as (A2 & S2 & O2 & K2).
  eexists _, _, _. split; [done|]. split_and!; [by apply A2|apply P|apply P|apply P|]. intros Hs2. specialize (S2 Hs2).
  destruct (H ltac:(congruence) S2) as (Hsp & xs & Hk & Hsec). split_and!; [done| |exists xs; split; [intros ?; rewrite K2; apply Hk|] ].
  - rewrite O2. apply O. intros id Hid%record_sections_range. lia.
  - by eapply sections_hold_ext; [..|exact Hsec].
Qed.

Lemma parse_spec m b options : fresh m -> wf_buffer b -> option_on options DNS_MESSAGEPARSE_BESTEFFORT = false ->
  exists r m' b', dns_message_parse mem m b options = Done (r, m', b') /\ reusable 4 m' /\ wf_buffer b' /\ b_base b' = b_base b
    /\ b_used b' = b_used b /\ (r = ISC_R_SUCCESS -> message_holds options b m' (b_current b')).
Proof.
  intros Fm W Hb. pose proof W as [W1 W2 W3 W4 W5]. unfold dns_message_parse. rewrite (fs_intent _ Fm). cbn [require obind Z.eqb Pos.eqb DNS_MESSAGE_INTENTPARSE]. cbv zeta.
  unfold isc_buffer_remaininglength, DNS_MESSAGE_HEADERLEN. rewrite u32_small by lia. destruct (Z.ltb_spec (b_used b - b_current b) 12) as [Hl|Hl].
  { eexists _, _, _. split; [done|]. split_and!; try done. destruct Fm as [F1 F2 F3 [F4 [F5 F5']] [F6 F7]].
    split_and!; [cbn; by rewrite F3|done|]. unfold accounted, names_held, rdatasets_held. cbn. by rewrite F3, F4, F5, F5', F6, F7. }
  destruct (parse_header_spec (with_ok false false m) b W) as [-> Hcnt]; [lia|]. cbn [obind].
  assert (Rd := header_ready m b (u16_at (b_base b) (b_current b)) (Z.land (u16_at (b_base b) (b_current b + 2)) DNS_MESSAGE_FLAG_MASK)
    (Z.land (u16_at (b_base b) (b_current b + 2)) DNS_MESSAGE_RCODE_MASK) Fm W ltac:(lia)).
  set (m1 := with_ok true false _) in *. set (b1 := set_current b _) in *.
  assert (Hc1 : forall id, 0 <= id < 4 -> count_of m1 id = header_count b (b_current b) id).
  { intros id Hid. assert (id = 0 \/ id = 1 \/ id = 2 \/ id = 3) as [->|[->|[->| ->]]] by lia; done. }
  change (dns_decompress_init (-1) DNS_DECOMPRESS_ANY) with (Done (mkdctx DNS_COMPRESS_NONE (-1) DNS_DECOMPRESS_ANY)). cbn [obind]. fold parse_dctx record_sections.
  destruct (getquestions_spec b1 m1 parse_dctx options (Rd 0 ltac:(lia))) as (r & m2 & b2 & -> & D2 & U2 & H2); [rewrite Hc1 by lia; apply Hcnt; lia|done|].
  cbn [obind]. pose proof (section_parsed _ _ _ _ _ D2) as P2.
  assert (Rp : reusable 4 m2).
  { pose proof (parsed_reusable _ _ _ _ P2) as Rp. change (m_sections m1) with (m_sections m) in Rp. by rewrite (fs_sections _ Fm) in Rp. }
  destruct (bool_decide (r = ISC_R_UNEXPECTEDEND) && _).
  { destruct (save_message mem m2 b options true) as [r3 m3] eqn:E3. destruct (save_reusable _ _ _ _ _ _ E3) as (A3 & S3 & _).
    eexists _, _, _. split; [done|]. split_and!; [by apply A3|apply P2|apply P2|apply P2|]. by intros ?%S3. }
  destruct (bool_decide (r = ISC_R_SUCCESS) || bool_decide (r = DNS_R_RECOVERABLE)) eqn:Er; cbn [negb].
  2:{ eexists _, _, _. split; [done|]. split_and!; [done|apply P2|apply P2|apply P2|]. intros ->. done. }
  assert (Hc2 : forall id, 0 <= id < 4 -> count_of (with_ok true true m2) id = header_count b (b_current b) id).
  { intros id Hid. unfold count_of. cbn [with_ok m_counts]. rewrite (dn_counts _ _ _ _ _ D2). by apply Hc1. }
  destruct (parse_records (with_ok true true m2) b2 b options (bool_decide (r = DNS_R_RECOVERABLE))) as (r4 & m4 & b4 & -> & A4 & W4' & B4 & U4 & H4);
    [|apply P2|apply P2|apply P2|done|].
  { intros id Hid. rewrite Hc2 by lia. split; [|apply Hcnt; lia].
    assert (Rd2 : ready id m2 b2) by (eapply ready_after; [apply Rd; lia|done|done|lia]). destruct Rd2. by split. }
  exists r4, m4, b4. split_and!; [done|by rewrite <- (proj1 Rp)|done|by rewrite B4, (pd_base _ _ _ _ P2)|by rewrite U4, (pd_used _ _ _ _ P2)|].
  intros Hs4. destruct (H4 Hs4) as (Hrec & E0 & xs & Hk & Hsec). apply bool_decide_eq_false in Hrec.
  apply orb_true_iff in Er as [Er%bool_decide_eq_true|?%bool_decide_eq_true]; [|done]. destruct (H2 Er) as (K2 & qs & Hn & Hq & Hok).
  split; [lia|]. exists (b_current b2). rewrite <- (Hc1 0), E0 by lia. split.
  - exists qs. split_and!; [done|by apply (qs_at_ext b b1)|done].
  - exists xs. split.
    2:{ apply (Hk []). change (specials (with_ok true true m2)) with (specials m2). rewrite K2.
        destruct Fm as [_ _ _ [F4 [F5 F5'] ] _]. unfold specials. cbn. by rewrite F4, F5, F5'. }
    cbn [with_ok m_opcode] in Hsec. rewrite (dn_opcode _ _ _ _ _ D2) in Hsec. change (m_opcode m1) with (header_opcode b (b_current b)) in Hsec.
    eapply sections_hold_ext; [by rewrite (pd_base _ _ _ _ P2)|by rewrite (pd_used _ _ _ _ P2)| |exact Hsec].
    intros id Hid%record_sections_range. split; [|done]. symmetry. apply Hc2. lia.
Qed.
End whole.

(** ** Resetting a message *)

Definition less (names rdatasets : Z) (m : dns_message) : dns_message :=
  with_memory (m_scratchpad m) (m_names m - names) (m_rdatasets m - rdatasets) (m_allocs m) m.

Lemma less_0 m : less 0 0 m = m.
Proof. destruct m. unfold less, with_memory. cbn. by rewrite !Z.sub_0_r. Qed.

Lemma less_less a b c d m : less a b (less c d m) = less (a + c) (b + d) m.
Proof. unfold less, with_memory. cbn. f_equal; lia. Qed.

Lemma reset_rdatasets_spec l : forall m, reset_rdatasets l m = less 0 (Zlen l) m.
Proof.
  induction l as [|r l IH]; intros m; cbn [reset_rdatasets]; [by rewrite less_0|]. rewrite IH.
  change (put_rdataset m) with (with_memory (m_scratchpad m) (m_names m) (m_rdatasets m - 1) (m_allocs m) m).
  unfold less, with_memory, Zlen. cbn. f_equal; lia.
Qed.

Lemma reset_names_spec l : forall m, reset_names l m = less (Zlen l) (rdataset_count l) m.
Proof.
  induction l as [|n l IH]; intros m; cbn [reset_names]; [by rewrite less_0|]. rewrite IH, reset_rdatasets_spec.
  unfold rdataset_count, total. cbn [foldr]. fold (total (fun n => Zlen (mn_list n)) l).
  unfold less, put_name, with_memory, Zlen. cbn. f_equal; lia.
Qed.

Lemma msgresetnames_spec n : forall i m, (i + n)%nat = length (m_sections m) ->
  msgresetnames n (Z.of_nat i) m
  = less (total Zlen (drop i (m_sections m))) (total rdataset_count (drop i (m_sections m)))
      (with_sections (take i (m_sections m) ++ replicate n []) m).
Proof.
  induction n as [|n IH]; intros i m Hl; cbn [msgresetnames].
  - rewrite drop_ge, take_ge by lia. rewrite app_nil_r. unfold total. cbn. rewrite less_0. by destruct m.
  - destruct (lookup_lt_is_Some_2 (m_sections m) i) as [l El]; [lia|].
    assert (Es : section_of m (Z.of_nat i) = l) by (unfold section_of; by rewrite Nat2Z.id, nth_lookup, El).
    rewrite Es, reset_names_spec. replace (Z.of_nat i + 1) with (Z.of_nat (S i)) by lia.
    assert (Esec : m_sections (less (Zlen l) (rdataset_count l) (put_section (Z.of_nat i) [] m)) = <[i := []]> (m_sections m)).
    { unfold put_section. rewrite Nat2Z.id. done. }
    rewrite IH by (rewrite Esec, length_insert; lia). rewrite Esec, drop_insert_lt by lia.
    rewrite (drop_S _ _ _ El). change (total Zlen (l :: ?x)) with (Zlen l + total Zlen x).
    change (total rdataset_count (l :: ?x)) with (rdataset_count l + total rdataset_count x).
    rewrite (take_S_r _ _ []) by (apply list_lookup_insert_eq; lia). rewrite take_insert_ge, <- app_assoc by lia.
    cbn [replicate]. unfold less, with_sections, put_section, with_memory. cbn. f_equal; lia.
Qed.

Lemma msgreset_spec m everything : reusable 4 m -> exists m', msgreset m everything = Done m'
  /\ m_sections m' = [[]; []; []; []] /\ (everything = false -> m_opt m' = None /\ unsigned m') /\ m_names m' = 0 /\ m_rdatasets m' = 0
  /\ (everything = false -> pad_ok m').
Proof.
  intros (Hl & [Hne Hw] & [A1 A2]). unfold msgreset. change (msgresetnames 4 0 m) with (msgresetnames 4 (Z.of_nat 0) m). rewrite (msgresetnames_spec 4 0 m) by done. rewrite drop_0, take_0. cbn [app].
  set (a := total Zlen _) in *. set (b := total rdataset_count _) in *.
  set (m3 := msgresetsigs _). unfold names_held, rdatasets_held in *. fold a in A1. fold b in A2.
  assert (H3 : m_sections m3 = [[]; []; []; []] /\ m_names m3 = 0 /\ m_rdatasets m3 = 0 /\ m_scratchpad m3 = m_scratchpad m).
  { unfold m3, msgresetopt. cbn. destruct (m_opt m); unfold msgresetsigs; cbn; (destruct (m_tsig m); cbn; (destruct (m_sig0 m); cbn in *; split_and!; try done; lia)). }
  destruct H3 as (S3 & N3 & R3 & P3). rewrite P3. destruct (m_scratchpad m) as [|d pad]; [done|]. apply Forall_cons in Hw as [Hd _].
  assert (Wc : wf_buffer (isc_buffer_clear d)) by (destruct Hd; split; cbn; unfold b_length in *; cbn; try done; lia).
  destruct everything; cbn; rewrite N3, R3; cbn; eexists; (split; [done|]); split_and!; try done. intros _. split; [done|]. cbn. by apply Forall_singleton.
Qed.

Lemma reset_fresh m : reusable 4 m -> exists m', dns_message_reset m DNS_MESSAGE_INTENTPARSE = Done m' /\ fresh m'.
Proof.
  intros R. unfold dns_message_reset. cbn [require orb Z.eqb Pos.eqb DNS_MESSAGE_INTENTPARSE].
  destruct (msgreset_spec m false R) as (m1 & -> & S1 & K1 & N1 & R1 & P1). destruct (K1 eq_refl). cbn [obind].
  eexists. split; [done|]. split; try done. by apply P1.
Qed.

Lemma destroy_spec m : reusable 4 m -> dns_message_destroy m = Done tt.
Proof.
  intros R. unfold dns_message_destroy. destruct (msgreset_spec m true R) as (m1 & -> & _ & _ & N1 & R1 & _). cbn [obind].
  by rewrite N1, R1.
Qed.

Lemma fresh_reusable m : fresh m -> reusable 4 m.
Proof.
  intros [F1 F2 F3 [F4 [F5 F5']] [F6 F7]]. split_and!; [by rewrite F3|done|]. unfold accounted, names_held, rdatasets_held.
  by rewrite F3, F4, F5, F5', F6, F7.
Qed.
