(* ===== verification/MessageTheory.v ===== *)
(** * Theorems about messages

    The parser of messages on every packet, what it delivers on success, the round trip
    of the header, and the assertion that a packet can make fail in best-effort mode.
    The code of the record types is a parameter; [copied] is an instance of what the
    parser relies on. *)

From S2P Require Import Prelude Buffer Name NameTheory FromWire Rdata Message MessageWire MessageRead MessagePlace MessageRecord MessageParse.

(** ** An instance of the code of the record types *)

(** Every type is unknown, so that its data is copied; a signature has the eighteen
    octets before the signer's name. *)
Definition copied_switch (rdclass type : Z) (source : isc_buffer_t) (dctx : dns_decompress_t) (options : Z) (target : isc_buffer_t) :
    outcome (isc_result_t * isc_buffer_t * isc_buffer_t * bool) :=
  if (type =? dns_rdatatype_sig) || (type =? dns_rdatatype_rrsig) then
    let len := isc_buffer_activelength source in
    if len <? 18 then Done (ISC_R_UNEXPECTEDEND, source, target, false)
    else if isc_buffer_availablelength target <? len then Done (ISC_R_NOSPACE, source, target, false)
    else
      let* target := isc_buffer_putmem target (sub (b_base source) (b_current source) len) in
      let* source := isc_buffer_forward source len in
      Done (ISC_R_SUCCESS, source, target, false)
  else Done (ISC_R_SUCCESS, source, target, true).

#[export] Instance copied : RdataTypes := {|
  fromwire_switch := copied_switch;
  compare_switch _ _ := None;
  dns_rdatatype_attributes type :=
    if (type =? 5) || (type =? dns_rdatatype_soa) then DNS_RDATATYPEATTR_SINGLETON
    else if type =? 255 then DNS_RDATATYPEATTR_QUESTIONONLY else 0
|}.

#[export] Instance copied_ok : RdataTypesOk.
Proof.
  constructor. intros rdclass type source dctx options target Ws Wt Hact. cbn [fromwire_switch copied]. unfold copied_switch.
  assert (E0 : source = set_current source (b_current source + 0)) by (destruct source; unfold set_current; cbn; f_equal; lia).
  pose proof Ws as [S1 S2 S3 S4 S5]. pose proof Wt as [T1 T2 T3 T4 T5].
  assert (Same : exists k, 0 <= k <= b_active source - b_current source /\ source = set_current source (b_current source + k))
    by (exists 0; split; [lia|done]).
  destruct ((type =? dns_rdatatype_sig) || (type =? dns_rdatatype_rrsig)) eqn:Et.
  2:{ eexists _, _, _, _. split; [done|]. split_and!; [done|done|by apply extends_same|done|]. intros [-> | ->]; done. }
  assert (El : isc_buffer_activelength source = b_active source - b_current source) by (apply u32_small; lia). rewrite El.
  destruct (Z.ltb_spec (b_active source - b_current source) 18) as [Hl|Hl].
  { eexists _, _, _, _. split; [done|]. split_and!; [done|done|by apply extends_same|done|done]. }
  unfold isc_buffer_availablelength. rewrite u32_small by lia.
  destruct (Z.ltb_spec (b_length target - b_used target) (b_active source - b_current source)) as [Hv|Hv].
  { eexists _, _, _, _. split; [done|]. split_and!; [done|done|by apply extends_same|done|done]. }
  set (len := b_active source - b_current source) in *. assert (Hz : Zlen (sub (b_base source) (b_current source) len) = len)
    by (apply Zlen_sub; unfold b_length, len in *; lia).
  destruct (putmem_extends target (sub (b_base source) (b_current source) len) Wt) as (t' & -> & X & U); [by apply bytes_sub|lia|]. cbn [obind].
  destruct (forward_spec source len Ws) as [-> _]; [lia..|]. cbn [obind].
  eexists _, _, _, _. split; [done|]. split_and!; [done|exists len; split; [lia|done]|done|intros; lia|done].
Qed.

(** ** The header *)

Definition header_word (m : dns_message) : Z :=
  u16 (Z.lor (Z.lor (u16 (Z.land (u32 (Z.shiftl (m_opcode m) DNS_MESSAGE_OPCODE_SHIFT)) DNS_MESSAGE_OPCODE_MASK))
                    (Z.land (m_rcode m) DNS_MESSAGE_RCODE_MASK))
             (Z.land (m_flags m) DNS_MESSAGE_FLAG_MASK)).

(** The mask of the flags has the lowest bit of the opcode, so the flags that are read
    show this bit, and a flag 0x0800 makes the opcode odd. *)
Definition flags_read (m : dns_message) : Z :=
  Z.lor (Z.land (m_flags m) DNS_MESSAGE_FLAG_MASK) (Z.land (Z.shiftl (m_opcode m) 11) 0x0800).
Definition opcode_read (m : dns_message) : Z := Z.lor (m_opcode m) (Z.land (Z.shiftr (m_flags m) 11) 1).
Definition rcode_read (m : dns_message) : Z := Z.land (m_rcode m) DNS_MESSAGE_RCODE_MASK.

Lemma header_word_fields m : 0 <= m_opcode m < 16 ->
  0 <= header_word m < 65536
  /\ Z.land (header_word m) DNS_MESSAGE_FLAG_MASK = flags_read m
  /\ Z.land (header_word m) DNS_MESSAGE_RCODE_MASK = rcode_read m
  /\ Z.shiftr (Z.land (header_word m) DNS_MESSAGE_OPCODE_MASK) DNS_MESSAGE_OPCODE_SHIFT = opcode_read m.
Proof.
  intros Ho. unfold header_word, flags_read, opcode_read, rcode_read. set (f := Z.land (m_flags m) _). set (r := Z.land (m_rcode m) _).
  set (o := u16 (Z.land (u32 _) _)).
  assert (Hf : forall k, Z.land f k = Z.land (m_flags m) (Z.land DNS_MESSAGE_FLAG_MASK k)) by (intros; apply eq_sym, Z.land_assoc).
  assert (Hr : forall k, Z.land r k = Z.land (m_rcode m) (Z.land DNS_MESSAGE_RCODE_MASK k)) by (intros; apply eq_sym, Z.land_assoc).
  assert (Hop : Z.land o 65535 = o /\ Z.land o DNS_MESSAGE_FLAG_MASK = Z.land (Z.shiftl (m_opcode m) 11) 0x0800
    /\ Z.land o DNS_MESSAGE_RCODE_MASK = 0 /\ Z.shiftr (Z.land o DNS_MESSAGE_OPCODE_MASK) 11 = m_opcode m).
  { assert (Hc : exists n, (n < 16)%nat /\ m_opcode m = Z.of_nat n) by (exists (Z.to_nat (m_opcode m)); lia).
    destruct Hc as (n & Hn & E). unfold o. rewrite E. clear - Hn. do 16 (destruct n as [|n]; [split_and!; reflexivity|]). lia. }
  destruct Hop as (Hoa & Hof & Hor & Hoo).
  assert (Ew : Z.lor (Z.lor o r) f = Z.land (Z.lor (Z.lor o r) f) (Z.ones 16)).
  { change (Z.ones 16) with 65535. rewrite !Z.land_lor_distr_l, Hoa, Hf, Hr. done. }
  rewrite Z.land_ones in Ew by lia. change (u16 ?x) with (x mod 2 ^ 16). rewrite <- Ew.
  split; [rewrite Ew; apply Z.mod_pos_bound; lia|]. change DNS_MESSAGE_OPCODE_SHIFT with 11.
  rewrite !Z.land_lor_distr_l, !Z.shiftr_lor, Hoo, !Hf, !Hr, Hof, Hor. split_and!.
  - change (Z.land DNS_MESSAGE_RCODE_MASK DNS_MESSAGE_FLAG_MASK) with 0. rewrite Z.land_0_r, Z.lor_0_r, Z.lor_comm. done.
  - change (Z.land DNS_MESSAGE_FLAG_MASK DNS_MESSAGE_RCODE_MASK) with 0. rewrite Z.land_0_r, Z.lor_0_r, Z.lor_0_l. done.
  - change (Z.land DNS_MESSAGE_RCODE_MASK DNS_MESSAGE_OPCODE_MASK) with 0. rewrite Z.land_0_r, Z.shiftr_0_l, Z.lor_0_r. f_equal.
    rewrite Z.shiftr_land. done.
Qed.

Definition header_fields (m : dns_message) : list (width * Z) :=
  [(W16, m_id m); (W16, header_word m); (W16, count_of m 0); (W16, count_of m 1); (W16, count_of m 2); (W16, count_of m 3)].

Lemma renderheader_fields m t : wf_buffer t -> b_used t + 12 <= b_length t -> (forall id, 0 <= id < 4 -> 0 <= count_of m id < 65536) ->
  dns_message_renderheader m t = put_fields t (header_fields m).
Proof.
  intros [W1 W2 W3 W4 W5] Hl Hc. unfold dns_message_renderheader, isc_buffer_availablelength, DNS_MESSAGE_HEADERLEN.
  rewrite require_true by (rewrite u32_small by lia; lia). cbn [obind]. unfold header_fields, put_fields, put_w.
  rewrite !(u16_small (count_of m _)) by (apply Hc; lia). pose proof (Hc 0). pose proof (Hc 1). pose proof (Hc 2). pose proof (Hc 3).
  rewrite require_true by lia. cbv zeta. fold (header_word m).
  destruct (isc_buffer_putuint16 t (m_id m)) as [t0| | |]; cbn [obind]; try done.
  repeat match goal with |- context [isc_buffer_putuint16 ?a ?b] => destruct (isc_buffer_putuint16 a b) as [?| | |]; cbn [obind]; try done end.
Qed.

Lemma parse_header_fields m0 m t t' : get_fields t (map fst (header_fields m)) = Done (map snd (header_fields m), t') ->
  0 <= m_opcode m < 16 ->
  parse_header m0 t = Done (with_header (m_id m) (flags_read m) (rcode_read m) (opcode_read m) (map (count_of m) [0; 1; 2; 3]) m0, t')
  /\ (12 <= b_used t - b_current t < 2 ^ 32 -> dns_message_peekheader t = Done (ISC_R_SUCCESS, m_id m, flags_read m)).
Proof.
  intros E Ho. destruct (header_word_fields m Ho) as (_ & Hf & Hr & Hop). cbn [header_fields map fst snd get_fields get_w] in E.
  unfold parse_header, dns_message_peekheader, isc_buffer_remaininglength, DNS_MESSAGE_HEADERLEN.
  do 6 match type of E with context [isc_buffer_getuint16 ?a] => destruct (isc_buffer_getuint16 a) as [[? ?]| | |]; cbn [obind] in E |- *; try done end.
  injection E as -> -> -> -> -> -> ->. rewrite Hf, Hr, Hop. split; [done|]. intros Hl. rewrite u32_small by lia. by rewrite (proj2 (Z.ltb_ge _ _)) by lia.
Qed.

(** C6. The header of a message survives the wire: for every message with a sixteen-bit
    id, a four-bit opcode and sixteen-bit counts, [dns_message_renderheader] writes
    twelve octets from which [dns_message_parse] reads back the id, the counts, the
    response code and the flags, with the one bit in which the two masks of the code
    overlap (0x0800) belonging to both the flags and the opcode, and
    [dns_message_peekheader] reads the same id and flags. *)
Theorem message_header_roundtrip (m m0 : dns_message) (t : isc_buffer_t) :
  wf_buffer t -> remaining t = [] -> b_used t + 12 <= b_length t ->
  0 <= m_id m < 65536 -> 0 <= m_opcode m < 16 -> (forall id, 0 <= id < 4 -> 0 <= count_of m id < 65536) ->
  exists t1 t2, dns_message_renderheader m t = Done t1 /\ Zlen (remaining t1) = 12
    /\ parse_header m0 t1 = Done (with_header (m_id m) (flags_read m) (rcode_read m) (opcode_read m) (map (count_of m) [0; 1; 2; 3]) m0, t2)
    /\ remaining t2 = [] /\ dns_message_peekheader t1 = Done (ISC_R_SUCCESS, m_id m, flags_read m).
Proof.
  intros W Hr Hl Hi Ho Hc. rewrite renderheader_fields by done. destruct (header_word_fields m Ho) as [Hw _].
  assert (Hok : fields_ok (header_fields m)).
  { repeat apply Forall_cons_2; try apply Forall_nil_2; cbn [fst snd width_bytes]; change (256 ^ Z.of_nat 2) with 65536; done || (apply Hc; lia). }
  destruct (put_fields_spec (header_fields m) t W Hl) as (t1 & -> & W1 & R1 & U1). rewrite Hr in R1. cbn [app] in R1.
  destruct (get_fields_spec (header_fields m) t1 [] W1 Hok) as (t2 & E2 & W2 & R2); [by rewrite app_nil_r|].
  destruct (parse_header_fields m0 m t1 t2 E2 Ho) as [E3 E4]. exists t1, t2.
  assert (H12 : Zlen (remaining t1) = 12) by (by rewrite R1).
  split_and!; [done|done|done|done|]. apply E4. destruct W1 as [A1 A2 A3 A4 A5]. 
  unfold remaining in H12. rewrite Zlen_sub in H12 by (unfold b_length in *; lia). lia.
Qed.

Lemma message_header_roundtrip_witness : exists t1 t2,
  dns_message_renderheader (with_header 0xbeef 0x0100 0x13 5 [1; 2; 3; 4] (msginit DNS_MESSAGE_INTENTRENDER)) (isc_buffer_init (replicate 12 0)) = Done t1
  /\ parse_header (msginit DNS_MESSAGE_INTENTPARSE) t1
     = Done (with_header 0xbeef 0x0900 3 5 [1; 2; 3; 4] (msginit DNS_MESSAGE_INTENTPARSE), t2).
Proof.
  destruct (message_header_roundtrip (with_header 0xbeef 0x0100 0x13 5 [1; 2; 3; 4] (msginit DNS_MESSAGE_INTENTRENDER))
    (msginit DNS_MESSAGE_INTENTPARSE) (isc_buffer_init (replicate 12 0))) as (t1 & t2 & E1 & _ & E2 & _).
  - apply wf_init; [apply bytes_replicate|reflexivity].
  - reflexivity.
  - vm_compute. discriminate.
  - cbn. lia.
  - cbn. lia.
  - intros id Hid. assert (id = 0 \/ id = 1 \/ id = 2 \/ id = 3) as [->|[->|[->| ->]]] by lia; (split; [vm_compute; discriminate|reflexivity]).
  - exists t1, t2. split; [exact E1|exact E2].
Defined.

(** ** The parser *)

Section parser.
Context `{RT : RdataTypes} `{OK : !RdataTypesOk}.

(** The life of a message: packets are parsed into it one after the other, and it is
    reset in between. *)
Fixpoint serve (mem : Z -> bool) (m : dns_message) (packets : list (isc_buffer_t * Z)) : outcome dns_message :=
  match packets with
  | [] => Done m
  | (b, options) :: packets =>
      let* (_, m, _) := dns_message_parse mem m b options in
      let* m := dns_message_reset m DNS_MESSAGE_INTENTPARSE in
      serve mem m packets
  end.

Lemma serve_fresh mem packets : forall m, fresh m ->
  Forall (fun p => wf_buffer p.1 /\ option_on p.2 DNS_MESSAGEPARSE_BESTEFFORT = false) packets ->
  exists m', serve mem m packets = Done m' /\ fresh m'.
Proof.
  induction packets as [|[b options] packets IH]; intros m F Hp; cbn [serve]; [by exists m|]. apply Forall_cons in Hp as [[W Hb] Hp].
  destruct (parse_spec mem m b options F W Hb) as (r & m1 & b1 & -> & R & _). cbn [obind].
  destruct (reset_fresh m1 R) as (m2 & -> & F2). cbn [obind]. by apply IH.
Qed.

(** C3. The parser of messages is safe on every packet unless it is told to do its best:
    a message made by [dns_message_create] for parsing, given any octets in a
    well-formed buffer, any options without DNS_MESSAGEPARSE_BESTEFFORT and any pattern
    of failing allocations, is parsed without a failing assertion and without a read
    outside of the packet; [dns_message_parse] returns and leaves the packet as it was.
    On success and on every error, as many names and rdatasets are out of the pools of
    the message as are linked into it, so that nothing is lost and nothing was put back
    twice.  With DNS_MESSAGEPARSE_BESTEFFORT a packet can make an assertion fail
    ([besteffort_insist_fails]). *)
Theorem message_parse_safe (mem : Z -> bool) (m : dns_message) (b : isc_buffer_t) (options : Z) :
  dns_message_create mem DNS_MESSAGE_INTENTPARSE = Done (ISC_R_SUCCESS, Some m) ->
  wf_buffer b -> option_on options DNS_MESSAGEPARSE_BESTEFFORT = false ->
  exists r m' b', dns_message_parse mem m b options = Done (r, m', b')
    /\ m_names m' = names_held m' /\ m_rdatasets m' = rdatasets_held m'
    /\ wf_buffer b' /\ b_base b' = b_base b /\ b_used b' = b_used b.
Proof.
  intros Hm W Hb. destruct (parse_spec mem m b options (create_fresh mem m Hm) W Hb) as (r & m' & b' & E & (_ & _ & [A1 A2]) & W' & B & U & _).
  by exists r, m', b'.
Qed.

(** C5. A message can be used for any number of packets: whatever the packets are,
    whatever the options of every parse are but DNS_MESSAGEPARSE_BESTEFFORT, and
    whatever parsing returns, every [dns_message_reset] in between and the final
    [dns_message_destroy] find both pools empty, which they assert. *)
Theorem message_reuse_safe (mem : Z -> bool) (m : dns_message) (packets : list (isc_buffer_t * Z)) :
  dns_message_create mem DNS_MESSAGE_INTENTPARSE = Done (ISC_R_SUCCESS, Some m) ->
  Forall (fun p => wf_buffer p.1 /\ option_on p.2 DNS_MESSAGEPARSE_BESTEFFORT = false) packets ->
  exists m', serve mem m packets = Done m' /\ dns_message_destroy m' = Done tt.
Proof.
  intros Hm Hp. destruct (serve_fresh mem packets m (create_fresh mem m Hm) Hp) as (m' & E & F). exists m'. split; [done|].
  by apply destroy_spec, fresh_reusable.
Qed.

(** C4. What a parsed message holds is what the packet says: when [dns_message_parse]
    without DNS_MESSAGEPARSE_BESTEFFORT succeeds, the packet is a header, then as many
    questions and records as the header counts, one after the other.  The question
    section holds the questions in order, under one name and without repetition.  The
    records of a section that are not OPT, TSIG or SIG(0) are dealt out to the
    rdatasets of the answer, authority and additional sections, every record to one
    rdataset: an rdataset is not empty, is under the owner name of its records up to
    case, has their class, type and covered type, has their data in the order of the
    packet, and has the least of their times to live.  Without a search
    (DNS_MESSAGEPARSE_PRESERVEORDER or a dynamic update) every record has a name and an
    rdataset of its own, in the order of the packet; else no name and no type of a name
    is there twice.  There is at most one OPT, one TSIG and one SIG(0) among all the
    records, and the message holds them apart: the rdataset with the data, the time to
    live, the class and the types of the record, the signatures also with its name. *)
Theorem message_parse_sound (mem : Z -> bool) (m m' : dns_message) (b b' : isc_buffer_t) (options : Z) :
  dns_message_create mem DNS_MESSAGE_INTENTPARSE = Done (ISC_R_SUCCESS, Some m) ->
  wf_buffer b -> option_on options DNS_MESSAGEPARSE_BESTEFFORT = false ->
  dns_message_parse mem m b options = Done (ISC_R_SUCCESS, m', b') ->
  message_holds options b m' (b_current b').
Proof.
  intros Hm W Hb E. destruct (parse_spec mem m b options (create_fresh mem m Hm) W Hb) as (r & m1 & b1 & E1 & _ & _ & _ & _ & H).
  rewrite E in E1. injection E1 as <- <- <-. by apply H.
Qed.
End parser.

(** ** Examples *)

Definition available (_ : Z) : bool := true.

Definition packet (l : list Z) : isc_buffer_t := mkbuffer l (Zlen l) 0 0.

(** The message that was created. *)
Definition created (mem : Z -> bool) : dns_message :=
  match dns_message_create mem DNS_MESSAGE_INTENTPARSE with Done (_, Some m) => m | _ => msginit DNS_MESSAGE_INTENTPARSE end.

(** A TSIG of seventeen octets of data, for the root. *)
Definition ex_tsig : list Z := [0; 0; 250; 0; 255; 0; 0; 0; 0; 0; 17] ++ [0; 0; 0; 0; 0; 0; 1; 0; 5; 0; 0; 0; 0; 0; 0; 0; 0].

(** A response with a question for [a.], two addresses under [a.] and [A.], an OPT
    and a TSIG. *)
Definition ex_response : list Z :=
  [0xbe; 0xef; 0x81; 0x80; 0; 1; 0; 2; 0; 0; 0; 2] ++ [1; 97; 0; 0; 1; 0; 1]
  ++ [0xc0; 12; 0; 1; 0; 1; 0; 0; 0; 60; 0; 4; 10; 0; 0; 1] ++ [1; 65; 0; 0; 1; 0; 1; 0; 0; 0; 30; 0; 4; 10; 0; 0; 2]
  ++ [0; 0; 41; 16; 0; 0; 0; 0; 0; 0; 0] ++ ex_tsig.

(** A response with a TSIG in the answer section and another at the end. *)
Definition ex_two_tsigs : list Z := [1; 2; 0x81; 0x80; 0; 0; 0; 1; 0; 0; 0; 1] ++ ex_tsig ++ ex_tsig.

Definition ex_parsed (options : Z) : dns_message * isc_buffer_t :=
  match dns_message_parse available (created available) (packet ex_response) options with
  | Done (_, m, b) => (m, b)
  | _ => (msginit DNS_MESSAGE_INTENTPARSE, packet [])
  end.

Lemma ex_response_wf : wf_buffer (packet ex_response).
Proof. constructor; [repeat constructor; lia|vm_compute; intuition discriminate..]. Qed.

Lemma message_parse_safe_witness : exists r m' b',
  dns_message_parse available (created available) (packet ex_response) 0 = Done (r, m', b')
  /\ m_names m' = names_held m' /\ m_rdatasets m' = rdatasets_held m'.
Proof.
  destruct (message_parse_safe available (created available) (packet ex_response) 0) as (r & m' & b' & E & H1 & H2 & _).
  - vm_compute. reflexivity.
  - exact ex_response_wf.
  - reflexivity.
  - exists r, m', b'. split; [exact E|]. split; [exact H1|exact H2].
Defined.

Lemma message_parse_sound_witness :
  message_holds 0 (packet ex_response) (ex_parsed 0).1 (b_current (ex_parsed 0).2)
  /\ map (fun n => (mn_name n).(ndata)) (section_of (ex_parsed 0).1 DNS_SECTION_ANSWER) = [[1; 97; 0]]
  /\ map rds_ttl (concat (map mn_list (section_of (ex_parsed 0).1 DNS_SECTION_ANSWER))) = [30].
Proof.
  split; [|split; vm_compute; reflexivity].
  apply (message_parse_sound available (created available) (ex_parsed 0).1 (packet ex_response) (ex_parsed 0).2 0).
  - vm_compute. reflexivity.
  - exact ex_response_wf.
  - reflexivity.
  - vm_compute. reflexivity.
Defined.

Lemma message_reuse_safe_witness : exists m',
  serve available (created available) [(packet ex_response, 0); (packet (take 50 ex_response), 8); (packet ex_two_tsigs, 0)] = Done m'
  /\ dns_message_destroy m' = Done tt.
Proof.
  apply (message_reuse_safe available (created available)).
  - vm_compute. reflexivity.
  - repeat apply Forall_cons_2; try apply Forall_nil_2; (split; [|reflexivity]); constructor;
      try (vm_compute; intuition discriminate); repeat constructor; lia.
Defined.

(** A packet can make an assertion of the parser fail in best-effort mode: for a
    response with a TSIG record in the answer section and a TSIG record at the end of
    the additional section, [dns_message_parse] with DNS_MESSAGEPARSE_BESTEFFORT
    reaches [INSIST(free_name == ISC_FALSE)] with the name of the second TSIG still
    unlinked: the first was remembered, and [seen_problem] is forgotten between two
    sections.  Without the option the result is DNS_R_FORMERR. *)
Theorem besteffort_insist_fails :
  dns_message_create available DNS_MESSAGE_INTENTPARSE = Done (ISC_R_SUCCESS, Some (created available))
  /\ dns_message_parse available (created available) (packet ex_two_tsigs) DNS_MESSAGEPARSE_BESTEFFORT = Abort
  /\ exists m b, dns_message_parse available (created available) (packet ex_two_tsigs) 0 = Done (DNS_R_FORMERR, m, b).
Proof.
  split; [by vm_compute|]. split; [by vm_compute|]. eexists _, _. vm_compute. reflexivity.
Qed.
