(* ===== verification/Compress.v ===== *)
(** * Name compression ([lib/dns/compress.c]) and [dns_name_towire]
      ([lib/dns/name.c])

    The compression context is a hash table of 64 chains; a node records the
    wire form of a name, its label count and the offset at which it was
    written.  A chain is the list of its nodes, first to last.  A node points
    to the text of a name its caller keeps alive, so its region is the list of
    the bytes.  Nodes 0 to 15 live in an array of the context and the others on
    the heap; [compress_abs] below shows that live nodes carry distinct counts,
    so a slot of the array is never reused while its node is in a chain. *)

From Stdlib Require Import Sorted.
From S2P Require Import Prelude Buffer Name NameTheory FromWire.

(** ** Data *)

Definition DNS_COMPRESS_TABLESIZE : Z := 64.
Definition DNS_COMPRESS_INITIALNODES : Z := 16.

Record dns_compressnode_t := mknode {
  cn_r : list Z;
  cn_offset : Z;
  cn_count : Z;
  cn_labels : Z
}.

Record dns_compress_t := mkcctx {
  cc_valid : bool;
  cc_allowed : Z;
  cc_edns : Z;
  cc_table : list (list dns_compressnode_t);
  cc_count : Z
}.

(** ** Operations *)

Definition dns_compress_init (edns : Z) : dns_compress_t :=
  mkcctx true 0 edns (replicate (Z.to_nat DNS_COMPRESS_TABLESIZE) []) 0.

Definition dns_compress_invalidate (c : dns_compress_t) : outcome dns_compress_t :=
  REQUIRE cc_valid c ;;
  Done (mkcctx false 0 (-1) (map (fun _ => []) (cc_table c)) (cc_count c)).

Definition dns_compress_setmethods (c : dns_compress_t) (allowed : Z) : outcome dns_compress_t :=
  REQUIRE cc_valid c ;;
  let a := Z.land (cc_allowed c) (u32 (Z.lnot DNS_COMPRESS_ALL)) in
  Done (mkcctx (cc_valid c) (Z.lor a (Z.land allowed DNS_COMPRESS_ALL)) (cc_edns c) (cc_table c) (cc_count c)).

Definition dns_compress_getmethods (c : dns_compress_t) : outcome Z :=
  REQUIRE cc_valid c ;; Done (Z.land (cc_allowed c) DNS_COMPRESS_ALL).

Definition dns_compress_setsensitive (c : dns_compress_t) (sensitive : bool) : outcome dns_compress_t :=
  REQUIRE cc_valid c ;;
  Done (mkcctx (cc_valid c)
          (if sensitive then Z.lor (cc_allowed c) DNS_COMPRESS_CASESENSITIVE
           else Z.land (cc_allowed c) (u32 (Z.lnot DNS_COMPRESS_CASESENSITIVE)))
          (cc_edns c) (cc_table c) (cc_count c)).

Definition cc_sensitive (c : dns_compress_t) : bool :=
  negb (Z.land (cc_allowed c) DNS_COMPRESS_CASESENSITIVE =? 0).

Definition dns_compress_getsensitive (c : dns_compress_t) : outcome bool :=
  REQUIRE cc_valid c ;; Done (cc_sensitive c).

Definition dns_compress_getedns (c : dns_compress_t) : outcome Z :=
  REQUIRE cc_valid c ;; Done (cc_edns c).

(** [NODENAME]. *)
Definition NODENAME (node : dns_compressnode_t) : dns_name_t :=
  mkname (cn_r node) (cn_labels node) DNS_NAMEATTR_ABSOLUTE None None.

(** The first node of a chain whose name is [tname]. *)
Fixpoint fg_chain (sensitive : bool) (chain : list dns_compressnode_t) (tname : dns_name_t) :
    outcome (option dns_compressnode_t) :=
  match chain with
  | [] => Done None
  | node :: chain =>
      let* eq := (if sensitive then dns_name_caseequal (NODENAME node) tname
                  else dns_name_equal (NODENAME node) tname) in
      if eq then Done (Some node) else fg_chain sensitive chain tname
  end.

(** [for (n = 0; n < labels - 1; n++)], from [n] on with [k] iterations left. *)
Fixpoint fg_labels (c : dns_compress_t) (nm : dns_name_t) (lbls : Z) (tname : dns_name_t) (n : Z) (k : nat) :
    outcome (option (Z * dns_compressnode_t)) :=
  match k with
  | O => Done None
  | S k =>
      let* tname := dns_name_getlabelsequence nm n (lbls - n) tname false in
      let* h := dns_name_hash tname false in
      let* chain := rd (cc_table c) (h mod DNS_COMPRESS_TABLESIZE) in
      let* node := fg_chain (cc_sensitive c) chain tname in
      match node with
      | Some node => Done (Some (n, node))
      | None => fg_labels c nm lbls tname (n + 1) k
      end
  end.

(** The result, with the prefix and the offset set when a match is found. *)
Definition dns_compress_findglobal (c : dns_compress_t) (nm prefix : dns_name_t) :
    outcome (option (dns_name_t * Z)) :=
  REQUIRE cc_valid c ;;
  REQUIRE dns_name_isabsolute nm ;;
  if cc_count c =? 0 then Done None
  else
    let* lbls := dns_name_countlabels nm in
    REQUIRE 0 <? lbls ;;
    let* found := fg_labels c nm lbls (dns_name_init None) 0 (Z.to_nat (lbls - 1)) in
    match found with
    | None => Done None
    | Some (n, node) =>
        let* prefix := (if n =? 0 then dns_name_reset prefix
                        else dns_name_getlabelsequence nm 0 n prefix false) in
        Done (Some (prefix, cn_offset node))
    end.

(** [while (count > 0)] of [dns_compress_add]; [mem] tells, for the number of
    a node, whether its allocation succeeds. *)
Fixpoint add_labels (mem : Z -> bool) (c : dns_compress_t) (nm tname : dns_name_t)
    (length offset start n : Z) (count : nat) : outcome dns_compress_t :=
  match count with
  | O => Done c
  | S count =>
      if 0x4000 <=? offset then Done c
      else
        let* tname := dns_name_getlabelsequence nm start n tname false in
        let* h := dns_name_hash tname false in
        let h := h mod DNS_COMPRESS_TABLESIZE in
        let tlength := Zlen (dns_name_toregion tname) in
        let toffset := u16 (u32 (offset + u32 (length - tlength))) in
        if negb (cc_count c <? DNS_COMPRESS_INITIALNODES) && negb (mem (cc_count c)) then Done c
        else
          let* lbls := dns_name_countlabels tname in
          let node := mknode (dns_name_toregion tname) toffset (cc_count c) (u8 lbls) in
          let* chain := rd (cc_table c) h in
          let* table := wr (cc_table c) h (node :: chain) in
          let c := mkcctx (cc_valid c) (cc_allowed c) (cc_edns c) table (u16 (cc_count c + 1)) in
          add_labels mem c nm tname length offset (start + 1) (n - 1) count
  end.

Definition dns_compress_add (mem : Z -> bool) (c : dns_compress_t) (nm prefix : dns_name_t)
    (offset : Z) : outcome dns_compress_t :=
  REQUIRE cc_valid c ;;
  REQUIRE dns_name_isabsolute nm ;;
  let* n := dns_name_countlabels nm in
  let* count := dns_name_countlabels prefix in
  let count := if dns_name_isabsolute prefix then u32 (count - 1) else count in
  add_labels mem c nm (dns_name_init None) (Zlen (dns_name_toregion nm)) offset 0 n (Z.to_nat count).

(** [while (node != NULL && node->offset >= offset)]: the chain that is left
    and the number of nodes removed. *)
Fixpoint rb_chain (offset : Z) (chain : list dns_compressnode_t) (count : Z) :
    list dns_compressnode_t * Z :=
  match chain with
  | [] => ([], count)
  | node :: rest =>
      if offset <=? cn_offset node then rb_chain offset rest (u16 (count - 1)) else (chain, count)
  end.

(** [for (i = 0; i < DNS_COMPRESS_TABLESIZE; i++)]. *)
Fixpoint rb_table (offset : Z) (table : list (list dns_compressnode_t)) (count : Z) :
    list (list dns_compressnode_t) * Z :=
  match table with
  | [] => ([], count)
  | chain :: table =>
      let '(chain, count) := rb_chain offset chain count in
      let '(table, count) := rb_table offset table count in
      (chain :: table, count)
  end.

Definition dns_compress_rollback (c : dns_compress_t) (offset : Z) : outcome dns_compress_t :=
  REQUIRE cc_valid c ;;
  let '(table, count) := rb_table offset (cc_table c) (cc_count c) in
  Done (mkcctx (cc_valid c) (cc_allowed c) (cc_edns c) table count).

(** ** [dns_name_towire] *)

(** The part that looks for a suffix to point to: [gf] with [gp] and [go]. *)
Definition towire_find (nm : dns_name_t) (c : dns_compress_t) : outcome (option (dns_name_t * Z)) :=
  let* methods := dns_compress_getmethods c in
  let* found := (if negb (attr_set nm DNS_NAMEATTR_NOCOMPRESS) &&
                    negb (Z.land methods DNS_COMPRESS_GLOBAL14 =? 0)
                 then dns_compress_findglobal c nm (dns_name_init None)
                 else Done None) in
  Done (match found with
        | Some (gp, go) =>
            if 0x4000 <=? go then None
            else if n_length nm <=? n_length gp + 2 then None
            else found
        | None => None
        end).

(** [if (gf)]: the prefix [gp] followed by a pointer to [go]. *)
Definition towire_pointer (mem : Z -> bool) (nm : dns_name_t) (c : dns_compress_t)
    (target : isc_buffer_t) (offset : Z) (gp : dns_name_t) (go : Z) :
    outcome (isc_result_t * dns_compress_t * isc_buffer_t) :=
  if u32 (b_length target - b_used target) <? n_length gp then Done (ISC_R_NOSPACE, c, target)
  else
    let* base := blit (b_base target) (b_used target) (ndata gp) in
    let* target := isc_buffer_add (set_base target base) (n_length gp) in
    let go := Z.lor go 0xc000 in
    if u32 (b_length target - b_used target) <? 2 then Done (ISC_R_NOSPACE, c, target)
    else
      let* target := isc_buffer_putuint16 target go in
      let* c := (if negb (n_length gp =? 0) then dns_compress_add mem c nm gp offset else Done c) in
      Done (ISC_R_SUCCESS, c, target).

(** The other branch: the whole name. *)
Definition towire_full (mem : Z -> bool) (nm : dns_name_t) (c : dns_compress_t)
    (target : isc_buffer_t) (offset : Z) : outcome (isc_result_t * dns_compress_t * isc_buffer_t) :=
  if u32 (b_length target - b_used target) <? n_length nm then Done (ISC_R_NOSPACE, c, target)
  else
    let* base := blit (b_base target) (b_used target) (ndata nm) in
    let* target := isc_buffer_add (set_base target base) (n_length nm) in
    let* c := dns_compress_add mem c nm nm offset in
    Done (ISC_R_SUCCESS, c, target).

Definition dns_name_towire (mem : Z -> bool) (nm : dns_name_t) (c : dns_compress_t)
    (target : isc_buffer_t) : outcome (isc_result_t * dns_compress_t * isc_buffer_t) :=
  let* nm := (match offsets nm with
              | None => dns_name_clone nm (dns_name_init (Some odata))
              | Some _ => Done nm
              end) in
  let offset := u16 (b_used target) in
  let* found := towire_find nm c in
  match found with
  | Some (gp, go) => towire_pointer mem nm c target offset gp go
  | None => towire_full mem nm c target offset
  end.

(** ** Names by suffix *)

(** Equality of names under the context's case rule. *)
Definition label_eqv (sensitive : bool) (ls1 ls2 : list (list Z)) : Prop :=
  if sensitive then ls1 = ls2 else same_labels ls1 ls2.

#[export] Instance label_eqv_dec cs ls1 ls2 : Decision (label_eqv cs ls1 ls2).
Proof. destruct cs; unfold label_eqv; apply _. Defined.

#[export] Instance label_eqv_equiv cs : Equivalence (label_eqv cs).
Proof. destruct cs; unfold label_eqv; apply _. Qed.

Lemma label_eqv_same cs ls1 ls2 : label_eqv cs ls1 ls2 -> same_labels ls1 ls2.
Proof. destruct cs; cbn; [by intros ->|done]. Qed.

Lemma label_eqv_app cs l1 l2 k1 k2 : label_eqv cs l1 l2 -> label_eqv cs k1 k2 ->
  label_eqv cs (l1 ++ k1) (l2 ++ k2).
Proof.
  destruct cs; cbn; [by intros -> ->|]. unfold same_labels. rewrite !map_app. by intros -> ->.
Qed.

Lemma wire_inj b1 : forall b2, Forall good_label b1 -> Forall good_label b2 ->
  wire (labels_of b1 true) = wire (labels_of b2 true) -> b1 = b2.
Proof.
  induction b1 as [|l1 b1 IH]; intros [|l2 b2] H1 H2; [done| | |];
    rewrite ?(Forall_cons good_label) in *; unfold labels_of; cbn [app]; rewrite ?wire_cons; intros E.
  - exfalso. injection E as E _. destruct H2 as [[_ ?] _]. change (Zlen []) with 0 in E. lia.
  - exfalso. injection E as E _. destruct H1 as [[_ ?] _]. change (Zlen []) with 0 in E. lia.
  - injection E as El E. apply app_inj_1 in E as [-> E]; [|unfold Zlen in El; lia].
    f_equal. apply IH; [tauto|tauto|exact E].
Qed.

Lemma labels_of_same b1 b2 : same_labels (labels_of b1 true) (labels_of b2 true) <-> same_labels b1 b2.
Proof.
  unfold same_labels, labels_of. rewrite !map_app. split; [|by intros ->].
  intros H. by apply app_inv_tail in H.
Qed.

(** Either comparison of the chain search decides [label_eqv]. *)
Lemma match_spec (cs : bool) n1 n2 b1 b2 : wf_name n1 b1 true -> wf_name n2 b2 true ->
  (if cs then dns_name_caseequal n1 n2 else dns_name_equal n1 n2) = Done (bool_decide (label_eqv cs b1 b2)).
Proof.
  intros W1 W2. destruct cs; cbn [label_eqv].
  - destruct W1 as [D1 G1 _ _ A1 _], W2 as [D2 G2 _ _ A2 _]. unfold dns_name_caseequal, n_length.
    rewrite A1, A2, D1, D2. cbn [Z.b2z Z.eqb require obind].
    destruct (decide (b1 = b2)) as [->|Hne].
    + rewrite Z.eqb_refl. cbn [negb]. by rewrite !bool_decide_eq_true_2.
    + rewrite !bool_decide_eq_false_2; [by case_if|done|]. intros E. by apply wire_inj in E.
  - rewrite (equal_spec _ _ _ _ _ W1 W2). f_equal. apply bool_decide_ext. apply labels_of_same.
Qed.

(** The slot of a wire form. *)
Definition hslot (r : list Z) : Z :=
  match name_hash r false with Done h => h mod DNS_COMPRESS_TABLESIZE | _ => 0 end.

Lemma hslot_range r : 0 <= hslot r < 64.
Proof.
  unfold hslot, DNS_COMPRESS_TABLESIZE. destruct (name_hash r false); try lia. apply Z.mod_pos_bound. lia.
Qed.

Lemma hslot_same b1 b2 : Forall good_label b1 -> Forall good_label b2 -> same_labels b1 b2 ->
  hslot (wire (labels_of b1 true)) = hslot (wire (labels_of b2 true)).
Proof.
  intros H1 H2 H. unfold hslot. erewrite name_hash_fold; [done|].
  apply fold_wire; try by apply labels_short. by apply labels_of_same.
Qed.

Lemma wf_labels_pos n body : wf_name n body true -> labels n = Zlen body + 1.
Proof. intros []. rewrite wn_labels. unfold labels_of. by rewrite Zlen_app. Qed.

Lemma hash_slot n body : wf_name n body true ->
  exists h, dns_name_hash n false = Done h /\ h mod DNS_COMPRESS_TABLESIZE = hslot (ndata n).
Proof.
  intros W. unfold dns_name_hash, hslot. destruct (name_hash_total (ndata n) false) as [h Hh].
  exists h. pose proof (wf_labels_pos _ _ W). pose proof (Zlen_nonneg body).
  destruct (labels n =? 0) eqn:E; bool_prop; [lia|]. by rewrite Hh.
Qed.

(** A scratch name that label sequences are bound to. *)
Definition scratch (t : dns_name_t) : Prop := BINDABLE t = true /\ offsets t = None.

Lemma BINDABLE_set n a b : BINDABLE (mkname (ndata n) (labels n) (set_absolute a b) (offsets n) (buffer n)) =
  (Z.land a (Z.lor DNS_NAMEATTR_READONLY DNS_NAMEATTR_DYNAMIC) =? 0).
Proof.
  unfold BINDABLE. cbn [attributes]. f_equal. apply Z.bits_inj'. intros i Hi.
  unfold set_absolute, DNS_NAMEATTR_READONLY, DNS_NAMEATTR_DYNAMIC, DNS_NAMEATTR_ABSOLUTE.
  change (Z.lor 2 4) with 6.
  destruct (Z.eq_dec i 0) as [->|].
  - rewrite !Z.land_spec. by rewrite !andb_false_r.
  - assert (E : Z.testbit 1 i = false) by (destruct i; [lia|apply Z.bits_above_log2; cbn; lia|lia]).
    destruct b; rewrite !Z.land_spec; [rewrite Z.lor_spec, E, orb_false_r; done|].
    rewrite Z.lnot_spec, E by lia. cbn [negb]. by rewrite andb_true_r.
Qed.

Lemma getlabelsequence_scratch nm first k t t' :
  dns_name_getlabelsequence nm first k t false = Done t' -> scratch t -> scratch t'.
Proof.
  unfold dns_name_getlabelsequence. intros H [Hb Ho]. rewrite Ho in H. cbn zeta in H.
  repeat (apply obind_Done in H as (? & _ & H)). injection H as <-. split; [|done].
  unfold BINDABLE in *. cbn [attributes]. match goal with
  | |- (Z.land (set_absolute ?a ?b) _ =? 0) = true => exact (eq_trans (BINDABLE_set nm a b) Hb) end.
Qed.

(** The suffix of a name from label [i] on. *)
Lemma suffix_spec nm body i t : wf_name nm body true -> scratch t -> 0 <= i <= Zlen body ->
  exists t', dns_name_getlabelsequence nm i (labels nm - i) t false = Done t' /\
    wf_name t' (drop (Z.to_nat i) body) true /\ scratch t'.
Proof.
  intros W Hs Hi. pose proof (wf_labels_pos _ _ W) as Hl.
  destruct (getlabelsequence_spec nm body true i (labels nm - i) t W) as (t' & E & Wt & _);
    [lia..|split; destruct Hs as [? Ho]; [done|by rewrite Ho]|].
  exists t'. split_and!; [done| |by apply (getlabelsequence_scratch _ _ _ _ _ E)].
  replace (seq_abs body true i (labels nm - i)) with true in Wt.
  - unfold seq_body in Wt. rewrite take_ge in Wt; [done|]. len.
  - unfold seq_abs, labels_of. rewrite Zlen_app. change (Zlen [[]]) with 1. symmetry. rewrite !andb_true_iff. lia.
Qed.

(** ** Abstraction of the table

    The live nodes in the order of their creation, newest first. *)

Definition slots : list Z := map Z.of_nat (seq 0 64).

Definition chain_of (nodes : list dns_compressnode_t) (h : Z) : list dns_compressnode_t :=
  filter (fun nd => hslot (cn_r nd) = h) nodes.

Record compress_abs (c : dns_compress_t) (nodes : list dns_compressnode_t) : Prop := {
  ca_valid : cc_valid c = true;
  ca_table : cc_table c = map (chain_of nodes) slots;
  ca_count : cc_count c = Zlen nodes;
  ca_counts : forall i nd, nodes !! i = Some nd -> cn_count nd = Zlen nodes - 1 - Z.of_nat i;
  ca_sorted : StronglySorted (fun a b => cn_offset b < cn_offset a) nodes;
  ca_range : Forall (fun nd => 0 <= cn_offset nd < 16640) nodes
}.

Lemma slots_lookup h : 0 <= h < 64 -> slots !! Z.to_nat h = Some h.
Proof.
  intros Hh. unfold slots. rewrite list_lookup_fmap. rewrite lookup_seq_lt by lia. cbn. f_equal. lia.
Qed.

Lemma table_rd nodes h : 0 <= h < 64 -> rd (map (chain_of nodes) slots) h = Done (chain_of nodes h).
Proof.
  intros Hh. apply rd_Done. split; [lia|]. rewrite list_lookup_fmap, slots_lookup by lia. done.
Qed.

Lemma table_wr nodes nd : let h := hslot (cn_r nd) in
  wr (map (chain_of nodes) slots) h (nd :: chain_of nodes h) = Done (map (chain_of (nd :: nodes)) slots).
Proof.
  intros h. pose proof (hslot_range (cn_r nd)) as Hh. fold h in Hh.
  rewrite wr_ok by (unfold Zlen, slots; rewrite !length_map, length_seq; lia). f_equal.
  apply list_eq. intros i. rewrite list_lookup_fmap. destruct (decide (i = Z.to_nat h)) as [->|Hne].
  - rewrite list_lookup_insert_eq by (unfold slots; rewrite !length_map, length_seq; lia).
    rewrite slots_lookup by lia. cbn [fmap option_fmap option_map]. f_equal. unfold chain_of. rewrite filter_cons_True; done.
  - rewrite list_lookup_insert_ne by done. rewrite list_lookup_fmap.
    destruct (slots !! i) as [h'|] eqn:E; [|done]. cbn [fmap option_fmap option_map]. f_equal. unfold chain_of.
    rewrite filter_cons_False; [done|]. fold h. intros ->. apply Hne.
    unfold slots in E. rewrite list_lookup_fmap in E. apply fmap_Some in E as (j & Ej & ->).
    apply lookup_seq in Ej as [-> _]. lia.
Qed.

(** Offsets strictly decrease, so there are at most 16640 nodes. *)
Lemma sorted_bound nodes M : StronglySorted (fun a b => cn_offset b < cn_offset a) nodes ->
  Forall (fun nd => 0 <= cn_offset nd < M) nodes -> 0 <= M -> Zlen nodes <= M.
Proof.
  intros Hs. revert M. induction Hs as [|nd nodes Hs IH Hlt]; intros M Hr HM; [done|].
  apply Forall_cons in Hr as [Hnd Hr]. rewrite Zlen_cons.
  enough (Zlen nodes <= cn_offset nd) by lia. apply IH; [|lia].
  rewrite Forall_forall in Hr, Hlt |- *. intros x Hx. specialize (Hr x Hx). specialize (Hlt x Hx). lia.
Qed.

Lemma abs_init edns : compress_abs (dns_compress_init edns) [].
Proof. constructor; try done; constructor. Qed.

(** *** Search *)

Lemma fg_chain_spec cs chain t body : wf_name t body true ->
  Forall (fun nd => exists ls, wf_name (NODENAME nd) ls true) chain ->
  exists r, fg_chain cs chain t = Done r /\
    match r with
    | Some nd => nd ∈ chain /\ (forall ls, wf_name (NODENAME nd) ls true -> label_eqv cs ls body)
    | None => forall nd ls, nd ∈ chain -> wf_name (NODENAME nd) ls true -> ~ label_eqv cs ls body
    end.
Proof.
  intros Wt. induction 1 as [|nd chain [ls W] Hf (r & E & Hr)]; cbn [fg_chain].
  - exists None. split; [done|]. intros ? ? ?%elem_of_nil. done.
  - rewrite (match_spec cs _ _ _ _ W Wt). cbn [obind].
    assert (Hu : forall ls', wf_name (NODENAME nd) ls' true -> ls' = ls).
    { intros ls' W'. apply wire_inj; [apply W'|apply W|]. rewrite <- (wn_data _ _ _ W'). apply W. }
    destruct (bool_decide (label_eqv cs ls body)) eqn:Eb.
    + apply bool_decide_eq_true in Eb. exists (Some nd). split; [done|]. split; [by left|].
      by intros ls' ->%Hu.
    + apply bool_decide_eq_false in Eb. exists r. split; [done|]. destruct r as [nd'|].
      * split; [by right; apply Hr|apply Hr].
      * intros nd' ls' [->|Hin]%elem_of_cons; [by intros ->%Hu|by apply Hr].
Qed.

(** The nodes a suffix matches. *)
Definition matches (cs : bool) (nodes : list dns_compressnode_t) (ls : list (list Z))
    (nd : dns_compressnode_t) : Prop :=
  nd ∈ nodes /\ exists ls', wf_name (NODENAME nd) ls' true /\ label_eqv cs ls' ls.

Lemma fg_labels_spec c nodes nm body : compress_abs c nodes -> wf_name nm body true ->
  Forall (fun nd => exists ls, wf_name (NODENAME nd) ls true) nodes ->
  forall k n t, scratch t -> 0 <= n -> n + Z.of_nat k <= Zlen body ->
  exists r, fg_labels c nm (labels nm) t n k = Done r /\
    match r with
    | Some (m, nd) => n <= m < n + Z.of_nat k /\ matches (cc_sensitive c) nodes (drop (Z.to_nat m) body) nd /\
        forall j nd', n <= j < m -> ~ matches (cc_sensitive c) nodes (drop (Z.to_nat j) body) nd'
    | None => forall j nd', n <= j < n + Z.of_nat k ->
        ~ matches (cc_sensitive c) nodes (drop (Z.to_nat j) body) nd'
    end.
Proof.
  intros Hc W Hf k. induction k as [|k IH]; intros n t Ht Hn Hk; cbn [fg_labels].
  { exists None. split; [done|]. lia. }
  destruct (suffix_spec nm body n t W Ht) as (t' & -> & Wt & Ht'); [lia|]. cbn [obind].
  destruct (hash_slot _ _ Wt) as (h & -> & Hh). cbn [obind]. rewrite Hh, (ca_table _ _ Hc).
  rewrite table_rd by apply hslot_range. cbn [obind].
  set (suf := drop (Z.to_nat n) body) in *.
  assert (Hin : forall nd, matches (cc_sensitive c) nodes suf nd -> nd ∈ chain_of nodes (hslot (ndata t'))).
  { intros nd (Hnd & ls & Wn & Heq). apply list_elem_of_filter. split; [|done].
    rewrite (wn_data _ _ _ Wt), <- (hslot_same ls suf); [|apply Wn|apply Wt|by eapply label_eqv_same].
    f_equal. apply (wn_data _ _ _ Wn). }
  destruct (fg_chain_spec (cc_sensitive c) (chain_of nodes (hslot (ndata t'))) t' suf Wt) as (r & -> & Hr).
  { rewrite Forall_forall in Hf |- *. intros nd [_ Hnd]%list_elem_of_filter. by apply Hf. }
  cbn [obind]. destruct r as [nd|].
  - eexists. split; [reflexivity|]. destruct Hr as [Hnd Hr]. apply list_elem_of_filter in Hnd as [_ Hnd].
    split_and!; [lia|lia| |lia]. split; [done|]. rewrite Forall_forall in Hf. destruct (Hf nd Hnd) as [ls Wn]. eauto.
  - assert (Hno : forall nd, ~ matches (cc_sensitive c) nodes suf nd).
    { intros nd Hm. pose proof (Hin nd Hm). destruct Hm as (_ & ls & Wn & Heq). by apply (Hr nd ls). }
    destruct (IH (n + 1) t' Ht') as (r & E & Hr'); [lia|lia|]. exists r. split; [done|].
    destruct r as [[m nd]|].
    + destruct Hr' as (Hm & Hmt & Hbefore). split_and!; [lia|lia|done|]. intros j nd' Hj.
      destruct (Z.eq_dec j n) as [->|]; [apply Hno|apply Hbefore; lia].
    + intros j nd' Hj. destruct (Z.eq_dec j n) as [->|]; [apply Hno|apply Hr'; lia].
Qed.

(** *** Insertion *)

Definition same_settings (c c' : dns_compress_t) : Prop :=
  cc_allowed c' = cc_allowed c /\ cc_edns c' = cc_edns c.

Lemma abs_push c nodes nd : compress_abs c nodes -> Zlen nodes < 65535 ->
  cn_count nd = Zlen nodes -> 0 <= cn_offset nd < 16640 ->
  Forall (fun x => cn_offset x < cn_offset nd) nodes ->
  compress_abs (mkcctx (cc_valid c) (cc_allowed c) (cc_edns c) (map (chain_of (nd :: nodes)) slots)
                  (u16 (cc_count c + 1))) (nd :: nodes).
Proof.
  intros [Hv Ht Hc Hcs Hs Hr] Hlen Hcnt Hoff Hlt. constructor; cbn; try done.
  - rewrite Hc, Zlen_cons, u16_small; pose proof (Zlen_nonneg nodes); lia.
  - intros [|i] x; cbn; intros Hx; rewrite Zlen_cons; [injection Hx as <-; lia|].
    rewrite (Hcs _ _ Hx). lia.
  - by constructor.
  - by constructor.
Qed.

(** A node for the suffix from label [i] of a name written at [offset]. *)
Definition node_for (body : list (list Z)) (offset i : Z) (nd : dns_compressnode_t) : Prop :=
  cn_offset nd = offset + Zlen (wire (take (Z.to_nat i) body)) /\
  wf_name (NODENAME nd) (drop (Z.to_nat i) body) true.

Lemma wire_take_drop i body :
  Zlen (wire (labels_of body true)) =
  Zlen (wire (take i body)) + Zlen (wire (labels_of (drop i body) true)).
Proof.
  unfold labels_of. rewrite <- (take_drop i body) at 1. rewrite <- app_assoc, wire_app, Zlen_app. done.
Qed.

Lemma wire_take_S body i l : body !! i = Some l ->
  Zlen (wire (take (S i) body)) = Zlen (wire (take i body)) + 1 + Zlen l.
Proof.
  intros H. rewrite (take_S_r _ _ _ H), wire_app, Zlen_app, Zlen_wire_cons. change (Zlen (wire [])) with 0. lia.
Qed.

Lemma wf_count n body ab : wf_name n body ab -> 0 <= labels n <= 128.
Proof.
  intros [D G L N _ _]. unfold n_length in L. rewrite D in L. rewrite N.
  split; [apply Zlen_nonneg|by apply labels_of_count].
Qed.

(** The offset computed for a suffix. *)
Lemma suffix_offset nm t body i offset : wf_name nm body true ->
  wf_name t (drop (Z.to_nat i) body) true -> 0 <= offset < 0x4000 ->
  let o := offset + Zlen (wire (take (Z.to_nat i) body)) in
  u16 (u32 (offset + u32 (Zlen (ndata nm) - Zlen (ndata t)))) = o /\ offset <= o < 16640.
Proof.
  intros W Wt Ho. pose proof (wn_length _ _ _ W) as HL. unfold n_length in HL.
  pose proof (wire_take_drop (Z.to_nat i) body) as Hs.
  rewrite <- (wn_data _ _ _ W), <- (wn_data _ _ _ Wt) in Hs.
  pose proof (Zlen_nonneg (ndata t)). pose proof (Zlen_nonneg (wire (take (Z.to_nat i) body))).
  rewrite (u32_small (Zlen (ndata nm) - _)), u32_small, u16_small by lia. lia.
Qed.

Lemma add_labels_spec mem nm body offset : wf_name nm body true -> 0 <= offset ->
  forall count c nodes t start,
  compress_abs c nodes -> scratch t -> 0 <= start -> start + Z.of_nat count <= Zlen body ->
  Forall (fun nd => cn_offset nd < offset + Zlen (wire (take (Z.to_nat start) body))) nodes ->
  exists c' news,
    add_labels mem c nm t (Zlen (ndata nm)) offset start (labels nm - start) count = Done c' /\
    compress_abs c' (news ++ nodes) /\ same_settings c c' /\
    Forall (fun nd => offset < 0x4000 /\ exists i, start <= i < start + Z.of_nat count /\ node_for body offset i nd) news.
Proof.
  intros W Ho count. induction count as [|count IH]; intros c nodes t start Hc Ht Hs Hle Hnew; cbn [add_labels].
  { exists c, []. by split_and!. }
  destruct (0x4000 <=? offset) eqn:Eoff; bool_prop; [by exists c, []; split_and!|].
  destruct (suffix_spec nm body start t W Ht) as (t' & -> & Wt & Ht'); [lia|]. cbn [obind].
  destruct (hash_slot _ _ Wt) as (h & -> & Hh). cbn [obind]. rewrite Hh.
  unfold dns_name_toregion.
  destruct (negb (cc_count c <? DNS_COMPRESS_INITIALNODES) && negb (mem (cc_count c)));
    [by exists c, []; split_and!|].
  pose proof (wf_count _ _ _ Wt) as Hlab.
  unfold dns_name_countlabels. rewrite require_true by lia. cbn [obind].
  destruct (suffix_offset nm t' body start offset W Wt) as [Htoff Hmax]; [lia|].
  rewrite Htoff, (u8_small (labels t')) by lia.
  set (nd := mknode _ _ _ _).
  rewrite (ca_table _ _ Hc), table_rd by apply hslot_range. cbn [obind].
  change (hslot (ndata t')) with (hslot (cn_r nd)). rewrite table_wr. cbn [obind].
  assert (Hfor : node_for body offset start nd).
  { split; [done|]. destruct Wt as [D G L N A O]. by constructor. }
  assert (Hbnd : Zlen nodes <= 16640) by (apply sorted_bound; [apply Hc|apply Hc|lia]).
  destruct (lookup_lt_is_Some_2 body (Z.to_nat start)) as [l Hl]; [unfold Zlen in *; lia|].
  pose proof (wire_take_S _ _ _ Hl) as HS. pose proof (Zlen_nonneg l).
  destruct Hfor as [Hof Wfor].
  assert (Hpush := abs_push c nodes nd Hc ltac:(lia) (ca_count _ _ Hc) ltac:(rewrite Hof; lia)
                     ltac:(by rewrite Hof)).
  destruct (IH _ (nd :: nodes) t' (start + 1) Hpush Ht') as (c' & news & E & Hc' & Hset & Hnews).
  { lia. } { lia. }
  { replace (Z.to_nat (start + 1)) with (S (Z.to_nat start)) by lia. rewrite HS. constructor; [lia|].
    eapply Forall_impl; [exact Hnew|]. cbn. intros. lia. }
  replace (labels nm - start - 1) with (labels nm - (start + 1)) by lia. rewrite E.
  exists c', (news ++ [nd]). rewrite <- app_assoc. split_and!; [done|done|exact Hset|].
  apply Forall_app. split.
  - eapply Forall_impl; [exact Hnews|]. cbn. intros x (? & i & ? & ?). split; [done|]. exists i. split; [lia|done].
  - constructor; [|done]. split; [done|]. exists start. split; [lia|done].
Qed.

(** *** Rollback *)

Definition older (offset : Z) (nodes : list dns_compressnode_t) : list dns_compressnode_t :=
  filter (fun nd => cn_offset nd < offset) nodes.

Lemma older_all offset nodes : Forall (fun nd => cn_offset nd < offset) nodes -> older offset nodes = nodes.
Proof.
  induction 1; [done|]. unfold older in *. rewrite filter_cons_True by done. by rewrite IHForall.
Qed.

Lemma rb_chain_spec offset chain : StronglySorted (fun a b => cn_offset b < cn_offset a) chain ->
  forall count, Zlen chain <= count <= 65535 ->
  rb_chain offset chain count = (older offset chain, count - (Zlen chain - Zlen (older offset chain))).
Proof.
  induction 1 as [|nd chain Hs IH Hlt]; intros count Hcnt; cbn [rb_chain].
  { f_equal. change (older offset []) with (@nil dns_compressnode_t). lia. }
  rewrite Zlen_cons in *. pose proof (Zlen_nonneg chain).
  destruct (offset <=? cn_offset nd) eqn:E; bool_prop.
  - rewrite u16_small, IH by lia. unfold older. rewrite filter_cons_False by lia. f_equal. lia.
  - rewrite older_all; [|constructor; [lia|]].
    + rewrite Zlen_cons. f_equal. lia.
    + eapply Forall_impl; [exact Hlt|]. cbn. lia.
Qed.

Definition total (table : list (list dns_compressnode_t)) : Z := Z.of_nat (list_sum (map length table)).

Lemma total_cons x tb : total (x :: tb) = Zlen x + total tb.
Proof. unfold total, Zlen. rewrite <- Nat2Z.inj_add. done. Qed.

Lemma rb_table_spec offset table :
  Forall (StronglySorted (fun a b => cn_offset b < cn_offset a)) table ->
  forall count, total table <= count <= 65535 ->
  rb_table offset table count =
    (map (older offset) table, count - (total table - total (map (older offset) table))).
Proof.
  induction 1 as [|chain table Hs _ IH]; intros count Hcnt; cbn [rb_table map].
  { f_equal. unfold total. cbn. lia. }
  rewrite total_cons in Hcnt.
  assert (0 <= total table) by (unfold total; lia).
  rewrite rb_chain_spec by (done || lia).
  assert (Zlen (older offset chain) <= Zlen chain) by (unfold Zlen, older; pose proof (length_filter (fun nd => cn_offset nd < offset) chain); lia).
  pose proof (Zlen_nonneg (older offset chain)).
  rewrite IH by lia. rewrite !total_cons. f_equal. lia.
Qed.

Lemma total_push nd nodes hs :
  total (map (chain_of (nd :: nodes)) hs) =
  total (map (chain_of nodes) hs) + Zlen (filter (fun h => hslot (cn_r nd) = h) hs).
Proof.
  induction hs as [|h hs IH]; [done|]. cbn [map]. rewrite !total_cons, IH. unfold chain_of.
  destruct (decide (hslot (cn_r nd) = h)).
  - rewrite !filter_cons_True by done. rewrite !Zlen_cons. lia.
  - rewrite !filter_cons_False by done. lia.
Qed.

Lemma slots_once x : 0 <= x < 64 -> Zlen (filter (fun h => x = h) slots) = 1.
Proof.
  intros Hx.
  assert (H : forallb (fun x => Zlen (filter (fun h => x = h) slots) =? 1) slots = true)
    by (vm_compute; reflexivity).
  rewrite forallb_forall in H. apply Z.eqb_eq, H, list_elem_of_In, list_elem_of_lookup.
  exists (Z.to_nat x). by apply slots_lookup.
Qed.

Lemma total_table nodes : total (map (chain_of nodes) slots) = Zlen nodes.
Proof.
  induction nodes as [|nd nodes IH]; [done|].
  rewrite total_push, IH, slots_once, Zlen_cons by apply hslot_range. lia.
Qed.

Lemma sorted_filter (P : dns_compressnode_t -> Prop) `{forall x, Decision (P x)} nodes R :
  StronglySorted R nodes -> StronglySorted R (filter P nodes).
Proof.
  induction 1 as [|nd nodes Hs IH Hf]; [constructor|]. destruct (decide (P nd)).
  - rewrite filter_cons_True by done. constructor; [done|]. rewrite Forall_forall in Hf |- *.
    intros x [_ Hx]%list_elem_of_filter. by apply Hf.
  - by rewrite filter_cons_False.
Qed.

Lemma older_chain offset nodes h : older offset (chain_of nodes h) = chain_of (older offset nodes) h.
Proof.
  unfold older, chain_of. rewrite !list_filter_filter. apply list_filter_iff. intros x. tauto.
Qed.

Lemma older_drop offset nodes : StronglySorted (fun a b => cn_offset b < cn_offset a) nodes ->
  exists m, older offset nodes = drop m nodes.
Proof.
  induction 1 as [|nd nodes Hs [m IH] Hf]; [by exists 0%nat|].
  destruct (decide (cn_offset nd < offset)).
  - exists 0%nat. apply older_all. constructor; [done|]. eapply Forall_impl; [exact Hf|]. cbn. lia.
  - exists (S m). unfold older. by rewrite filter_cons_False.
Qed.

Lemma rollback_spec c nodes offset : compress_abs c nodes ->
  exists c', dns_compress_rollback c offset = Done c' /\ compress_abs c' (older offset nodes) /\
    same_settings c c'.
Proof.
  intros [Hv Ht Hc Hcs Hs Hr]. pose proof (sorted_bound nodes 16640 Hs Hr ltac:(lia)).
  unfold dns_compress_rollback. rewrite Hv, Ht, Hc. cbn [require obind].
  rewrite rb_table_spec.
  - eexists. split; [reflexivity|]. split; [|done]. rewrite map_map.
    rewrite (map_ext _ _ (older_chain offset nodes)). rewrite !total_table.
    constructor; cbn [cc_valid cc_table cc_count]; try done; [lia| | |].
    + intros i nd Hi. destruct (older_drop offset nodes Hs) as [m Em]. rewrite Em in *.
      rewrite lookup_drop in Hi. rewrite (Hcs _ _ Hi). apply lookup_lt_Some in Hi. len.
    + by apply sorted_filter.
    + rewrite Forall_forall in Hr |- *. intros x [_ Hx]%list_elem_of_filter. by apply Hr.
  - apply Forall_map. rewrite Forall_forall. intros h _. by apply sorted_filter.
  - rewrite total_table. lia.
Qed.

(** The abstraction determines the context. *)
Lemma abs_inj c c' nodes : compress_abs c nodes -> compress_abs c' nodes -> same_settings c c' -> c = c'.
Proof.
  intros [V1 T1 C1 _ _ _] [V2 T2 C2 _ _ _] [HA HE]. destruct c, c'. cbn in *. congruence.
Qed.

(** *** Names in the message *)

Lemma agree_rd (m m' : list Z) a i x : take (Z.to_nat a) m' = take (Z.to_nat a) m -> i < a ->
  rd m i = Done x -> rd m' i = Done x.
Proof.
  rewrite !rd_Done. intros E Hi [? H]. split; [done|].
  rewrite <- H, <- (lookup_take_lt _ (Z.to_nat a)), E by lia. by rewrite lookup_take_lt by lia.
Qed.

Lemma agree_sub (m m' : list Z) a i n : take (Z.to_nat a) m' = take (Z.to_nat a) m ->
  0 <= i -> 0 <= n -> i + n <= a -> sub m' i n = sub m i n.
Proof.
  intros E Hi Hn Ha. unfold sub.
  assert (H : forall l : list Z, take (Z.to_nat n) (drop (Z.to_nat i) l) =
    take (Z.to_nat n) (drop (Z.to_nat i) (take (Z.to_nat a) l))).
  { intros l. rewrite skipn_firstn_comm, take_take. f_equal. lia. }
  by rewrite (H m), (H m'), E.
Qed.

(** A name stays readable when the message grows. *)
Lemma wire_at_mono m m' a a' : take (Z.to_nat a) m' = take (Z.to_nat a) m -> a <= a' ->
  forall big big' pos ls k, wire_at m a big pos ls k -> big <= big' -> wire_at m' a' big' pos ls k.
Proof.
  intros E Ha big big' pos ls k W. revert big'.
  induction W as [big pos Hlt Hr|big pos l ls k Hl Hlt Hr Hs W IH|big pos c1 c2 ls k Hlt H1 H2 Hc Hb W IH];
    intros big' Hbig.
  - constructor; [lia|]. by apply (agree_rd m m' a).
  - constructor; try done; [lia|by apply (agree_rd m m' a); [|lia|]| |by apply IH].
    pose proof (rd_bound _ _ _ Hr). rewrite (agree_sub m m' a); try done; lia.
  - apply (wa_pointer _ _ _ _ c1 c2 _ k); try done; try lia.
    + by apply (agree_rd m m' a); [|lia|].
    + by apply (agree_rd m m' a).
    + by apply IH.
Qed.

(** Labels written in full in front of a name. *)
Lemma wire_at_labels m a big pre : forall pos ls k, Forall good_label pre ->
  0 <= pos -> pos + Zlen (wire pre) <= a <= Zlen m ->
  sub m pos (Zlen (wire pre)) = wire pre ->
  wire_at m a big (pos + Zlen (wire pre)) ls k ->
  wire_at m a big pos (pre ++ ls) (Zlen (wire pre) + k).
Proof.
  induction pre as [|l pre IH]; intros pos ls k Hg Hp Ha Hs W.
  { change (Zlen (wire [])) with 0 in *. by rewrite Z.add_0_r in W. }
  apply Forall_cons in Hg as [[Hb Hl] Hg]. rewrite Zlen_wire_cons in *. rewrite wire_cons in Hs.
  pose proof (Zlen_nonneg (wire pre)).
  assert (Hd : drop (Z.to_nat pos) m = (Zlen l :: l ++ wire pre) ++ drop (Z.to_nat (pos + (1 + Zlen l + Zlen (wire pre)))) m).
  { rewrite <- Hs. unfold sub. rewrite <- (take_drop (Z.to_nat (1 + Zlen l + Zlen (wire pre))) (drop (Z.to_nat pos) m)) at 1.
    f_equal. rewrite drop_drop. f_equal. lia. }
  assert (Hd1 : drop (Z.to_nat (pos + 1)) m = l ++ wire pre ++ drop (Z.to_nat (pos + (1 + Zlen l + Zlen (wire pre)))) m).
  { replace (Z.to_nat (pos + 1)) with (Z.to_nat pos + 1)%nat by lia. rewrite <- drop_drop, Hd. cbn. by rewrite <- app_assoc. }
  assert (Hd2 : drop (Z.to_nat (pos + 1 + Zlen l)) m = wire pre ++ drop (Z.to_nat (pos + (1 + Zlen l + Zlen (wire pre)))) m).
  { replace (Z.to_nat (pos + 1 + Zlen l)) with (Z.to_nat (pos + 1) + length l)%nat by (unfold Zlen; lia).
    rewrite <- drop_drop, Hd1. by rewrite drop_app_length. }
  replace (1 + Zlen l + Zlen (wire pre) + k) with (1 + Zlen l + (Zlen (wire pre) + k)) by lia.
  cbn [app]. apply wa_label; [done|lia| | |].
  - apply rd_Done. split; [done|]. rewrite <- (Nat.add_0_r (Z.to_nat pos)), <- lookup_drop, Hd. done.
  - unfold sub. rewrite Hd1. apply take_app_length'. unfold Zlen. lia.
  - apply IH; try done; try lia.
    + unfold sub. rewrite Hd2. apply take_app_length'. unfold Zlen. lia.
    + by replace (pos + 1 + Zlen l + Zlen (wire pre)) with (pos + (1 + Zlen l + Zlen (wire pre))) by lia.
Qed.

(** ** What the context promises *)

(** The name of a node is spelled at its offset, up to the case rule. *)
Definition node_ok (cs : bool) (msg : list Z) (used : Z) (nd : dns_compressnode_t) : Prop :=
  exists ls ls' k, wf_name (NODENAME nd) ls true /\
    wire_at msg used (cn_offset nd) (cn_offset nd) ls' k /\ label_eqv cs ls' ls.

(** [cs]: the context has been case sensitive from the start. *)
Record compress_ok (cs : bool) (c : dns_compress_t) (nodes : list dns_compressnode_t)
    (msg : list Z) (used : Z) : Prop := {
  co_abs : compress_abs c nodes;
  co_nodes : Forall (node_ok cs msg used) nodes;
  co_sensitive : cs = true -> cc_sensitive c = true
}.

Lemma eqv_weaken (cs cs' : bool) l1 l2 : (cs = true -> cs' = true) -> label_eqv cs' l1 l2 -> label_eqv cs l1 l2.
Proof. intros H. destruct cs; [by rewrite H|]. apply label_eqv_same. Qed.

Lemma node_ok_mono cs m m' a a' nd : take (Z.to_nat a) m' = take (Z.to_nat a) m -> a <= a' ->
  node_ok cs m a nd -> node_ok cs m' a' nd.
Proof.
  intros E Ha (ls & ls' & k & ? & W & ?). exists ls, ls', k. split_and!; try done.
  by apply (wire_at_mono m m' a a' E Ha (cn_offset nd)).
Qed.

Lemma nodes_wf cs m a nodes : Forall (node_ok cs m a) nodes ->
  Forall (fun nd => exists ls, wf_name (NODENAME nd) ls true) nodes.
Proof. intros H. eapply Forall_impl; [exact H|]. intros nd (ls & _ & _ & W & _). eauto. Qed.

Lemma nodes_below cs m a nodes : Forall (node_ok cs m a) nodes ->
  Forall (fun nd => cn_offset nd < a) nodes.
Proof.
  intros H. eapply Forall_impl; [exact H|]. intros nd (_ & _ & k & _ & W%wire_at_bound & _). lia.
Qed.

Lemma prefix_spec nm body m t : wf_name nm body true -> scratch t -> 0 <= m < Zlen body ->
  exists gp, (if m =? 0 then dns_name_reset t else dns_name_getlabelsequence nm 0 m t false) = Done gp /\
    wf_name gp (take (Z.to_nat m) body) false.
Proof.
  intros W [Hb Ho] Hm. destruct (m =? 0) eqn:E; bool_prop.
  - subst m. unfold dns_name_reset. rewrite Hb. cbn [require obind]. eexists. split; [reflexivity|].
    constructor; try done. + apply set_absolute_land. + cbn. by rewrite Ho.
  - pose proof (wf_labels_pos _ _ W).
    destruct (getlabelsequence_spec nm body true 0 m t W) as (gp & -> & Wg & _);
      [lia..|split; [done|by rewrite Ho]|].
    exists gp. split; [done|]. replace (seq_abs body true 0 m) with false in Wg; [done|].
    unfold seq_abs, labels_of. rewrite Zlen_app. change (Zlen [[]]) with 1. symmetry.
    rewrite !andb_false_iff. lia.
Qed.

(** The longest suffix of [body] that is in the table, by its first label. *)
Definition longest_match (cs : bool) (nodes : list dns_compressnode_t) (body : list (list Z)) (m : Z)
    (nd : dns_compressnode_t) : Prop :=
  0 <= m < Zlen body /\ matches cs nodes (drop (Z.to_nat m) body) nd /\
  forall j nd', 0 <= j < m -> ~ matches cs nodes (drop (Z.to_nat j) body) nd'.

Lemma findglobal_spec c nodes nm body t : compress_abs c nodes -> wf_name nm body true -> scratch t ->
  Forall (fun nd => exists ls, wf_name (NODENAME nd) ls true) nodes ->
  exists r, dns_compress_findglobal c nm t = Done r /\
    match r with
    | Some (gp, go) => exists m nd, longest_match (cc_sensitive c) nodes body m nd /\ go = cn_offset nd /\
        wf_name gp (take (Z.to_nat m) body) false
    | None => forall j nd, 0 <= j < Zlen body -> ~ matches (cc_sensitive c) nodes (drop (Z.to_nat j) body) nd
    end.
Proof.
  intros Hc W Ht Hf. unfold dns_compress_findglobal, dns_name_isabsolute.
  rewrite (wf_attr_abs _ _ _ W), (ca_valid _ _ Hc). cbn [require obind].
  pose proof (wf_labels_pos _ _ W) as Hl. pose proof (wf_count _ _ _ W). pose proof (Zlen_nonneg body).
  destruct (cc_count c =? 0) eqn:E0; bool_prop.
  { exists None. split; [done|]. intros j nd _ [Hin _]. rewrite (ca_count _ _ Hc) in E0.
    destruct nodes; [by apply elem_of_nil in Hin|]. rewrite Zlen_cons in E0. pose proof (Zlen_nonneg nodes). lia. }
  unfold dns_name_countlabels. rewrite require_true by lia. cbn [obind]. rewrite require_true by lia. cbn [obind].
  destruct (fg_labels_spec c nodes nm body Hc W Hf (Z.to_nat (labels nm - 1)) 0 (dns_name_init None))
    as (r & -> & Hr); [done|lia|lia|]. cbn [obind].
  replace (0 + Z.of_nat (Z.to_nat (labels nm - 1))) with (Zlen body) in Hr by lia.
  destruct r as [[m nd]|]; [|eauto]. destruct Hr as (Hm & Hmt & Hb).
  destruct (prefix_spec nm body m t W Ht Hm) as (gp & E & Wg).
  rewrite E. cbn [obind]. eexists. split; [reflexivity|]. exists m, nd. done.
Qed.

Lemma compress_add_spec mem c nodes nm body prefix pb pab offset :
  compress_abs c nodes -> wf_name nm body true -> wf_name prefix pb pab -> Zlen pb <= Zlen body ->
  0 <= offset -> Forall (fun nd => cn_offset nd < offset) nodes ->
  exists c' news,
    dns_compress_add mem c nm prefix offset = Done c' /\ compress_abs c' (news ++ nodes) /\
    same_settings c c' /\
    Forall (fun nd => offset < 0x4000 /\ exists i, 0 <= i < Zlen pb /\ node_for body offset i nd) news.
Proof.
  intros Hc W Wp Hle Ho Hf. unfold dns_compress_add, dns_name_isabsolute.
  rewrite (wf_attr_abs _ _ _ W), (ca_valid _ _ Hc). cbn [require obind].
  pose proof (wf_count _ _ _ W). pose proof (wf_count _ _ _ Wp). pose proof (Zlen_nonneg pb).
  unfold dns_name_countlabels. rewrite !require_true by lia. cbn [obind].
  rewrite (wf_attr_abs _ _ _ Wp).
  assert (Hcnt : (if pab then u32 (labels prefix - 1) else labels prefix) = Zlen pb).
  { rewrite (wn_labels _ _ _ Wp). unfold labels_of. rewrite Zlen_app.
    destruct pab; [|apply Z.add_0_r]. change (Zlen [[]]) with 1. rewrite u32_small; [lia|].
    pose proof (wn_labels _ _ _ Wp) as E. unfold labels_of in E. rewrite Zlen_app in E.
    change (Zlen [[]]) with 1 in E. lia. }
  rewrite Hcnt. unfold dns_name_toregion.
  destruct (add_labels_spec mem nm body offset W Ho (Z.to_nat (Zlen pb)) c nodes (dns_name_init None) 0)
    as (c' & news & E & Hc' & Hset & Hn); try done; [lia| |].
  - change (Z.to_nat 0) with 0%nat. rewrite take_0. change (Zlen (wire [])) with 0. by rewrite Z.add_0_r.
  - rewrite Z.sub_0_r in E. rewrite Z2Nat.id, Z.add_0_l in Hn by lia. eauto 10.
Qed.

(** ** [dns_name_towire] *)

Lemma clone_spec nm body ab : wf_name nm body ab -> offsets nm = None ->
  exists n', dns_name_clone nm (dns_name_init (Some odata)) = Done n' /\ wf_name n' body ab.
Proof.
  intros W Ho. pose proof (wf_count _ _ _ W) as Hcnt. destruct W as [D G L N A O].
  unfold dns_name_clone. cbn [BINDABLE require obind]. rewrite Ho.
  set (n0 := mkname _ _ _ _ _). cbn [offsets dns_name_init].
  assert (HA : Z.land (attributes n0) DNS_NAMEATTR_ABSOLUTE = Z.b2z ab) by (cbn; rewrite <- Z.land_assoc; exact A).
  destruct (0 <? labels nm) eqn:E; bool_prop.
  - destruct (set_offsets_spec n0 body ab odata) as (t & Et & Hp & _); try done.
    { rewrite <- N. change (Zlen odata) with 128. lia. }
    rewrite Et. cbn [obind]. eexists. split; [reflexivity|]. by constructor.
  - eexists. split; [reflexivity|]. constructor; try done. cbn.
    assert (labels_of body ab = []) as -> by (destruct (labels_of body ab); [done|rewrite Zlen_cons in N;
      pose proof (Zlen_nonneg l0); lia]). apply prefix_nil.
Qed.

Lemma towire_find_spec c nodes nm body : compress_abs c nodes -> wf_name nm body true ->
  Forall (fun nd => exists ls, wf_name (NODENAME nd) ls true) nodes ->
  exists r, towire_find nm c = Done r /\
    match r with
    | Some (gp, go) => exists m nd, 0 <= m < Zlen body /\
        matches (cc_sensitive c) nodes (drop (Z.to_nat m) body) nd /\ go = cn_offset nd /\ go < 0x4000 /\
        wf_name gp (take (Z.to_nat m) body) false /\ n_length gp + 2 < n_length nm
    | None => True
    end.
Proof.
  intros Hc W Hf. unfold towire_find, dns_compress_getmethods. rewrite (ca_valid _ _ Hc). cbn [require obind].
  destruct (negb _ && negb _); [|by exists None].
  destruct (findglobal_spec c nodes nm body (dns_name_init None) Hc W) as (r & -> & Hr); [done|done|].
  cbn [obind]. destruct r as [[gp go]|]; [|by exists None].
  destruct Hr as (m & nd & (Hm & Hmt & _) & -> & Wg).
  destruct (0x4000 <=? cn_offset nd) eqn:E1; bool_prop; [by exists None|].
  destruct (n_length nm <=? n_length gp + 2) eqn:E2; bool_prop; [by exists None|].
  eexists. split; [reflexivity|]. exists m, nd. split_and!; try done; lia.
Qed.

(** Every suffix of labels written at [used] in front of [ls] is spelled. *)
Lemma written_suffix base used used' pre ls k i : Forall good_label pre -> 0 <= used ->
  used + Zlen (wire pre) <= used' <= Zlen base -> sub base used (Zlen (wire pre)) = wire pre ->
  (forall big, used <= big -> wire_at base used' big (used + Zlen (wire pre)) ls k) ->
  let o := used + Zlen (wire (take i pre)) in
  wire_at base used' o o (drop i pre ++ ls) (Zlen (wire (drop i pre)) + k).
Proof.
  intros Hg Hu Hle Hs Hls o.
  assert (Hw : wire pre = wire (take i pre) ++ wire (drop i pre)) by (by rewrite <- wire_app, take_drop).
  assert (Hlen : Zlen (wire pre) = Zlen (wire (take i pre)) + Zlen (wire (drop i pre)))
    by (rewrite Hw at 1; apply Zlen_app).
  pose proof (Zlen_nonneg (wire (take i pre))). pose proof (Zlen_nonneg (wire (drop i pre))).
  apply wire_at_labels; [by apply Forall_drop|lia|lia| |].
  - unfold o, sub in *. rewrite Hlen in Hs.
    replace (Z.to_nat (used + Zlen (wire (take i pre)))) with (Z.to_nat used + length (wire (take i pre)))%nat by (unfold Zlen; lia).
    rewrite <- drop_drop. rewrite Hw in Hs.
    replace (Z.to_nat (Zlen (wire (take i pre)) + Zlen (wire (drop i pre)))) with
      (length (wire (take i pre)) + Z.to_nat (Zlen (wire (drop i pre))))%nat in Hs by (unfold Zlen; lia).
    apply (f_equal (drop (length (wire (take i pre))))) in Hs.
    rewrite drop_app_length, <- firstn_skipn_comm in Hs. exact Hs.
  - replace (o + Zlen (wire (drop i pre))) with (used + Zlen (wire pre)) by lia. apply Hls. lia.
Qed.

(** Labels [pre] were written at [used], followed by something that spells the
    rest of the name: the table invariant holds for the new nodes too. *)
Lemma extended_ok cs c nodes c' news m used base used' body pre ls k :
  compress_ok cs c nodes m used -> compress_abs c' (news ++ nodes) -> same_settings c c' ->
  Forall (fun nd => used < 0x4000 /\ exists i, 0 <= i < Zlen pre /\ node_for body used i nd) news ->
  take (Z.to_nat used) base = take (Z.to_nat used) m -> used <= used' ->
  (forall i, let o := used + Zlen (wire (take i pre)) in
     wire_at base used' o o (drop i pre ++ ls) (Zlen (wire (drop i pre)) + k)) ->
  pre `prefix_of` body -> label_eqv cs ls (drop (length pre) body) ->
  compress_ok cs c' (news ++ nodes) base used'.
Proof.
  intros [Ha Hn Hs] Ha' [Hal _] Hnews Hag Hle Hsp [rest ->] Heq. constructor; [done| |].
  - apply Forall_app. split; [|eapply Forall_impl; [exact Hn|]; intros; by eapply node_ok_mono].
    eapply Forall_impl; [exact Hnews|]. intros nd (_ & i & Hi & Ho & W).
    rewrite drop_app_length in Heq. unfold Zlen in Hi.
    rewrite take_app_le in Ho by lia. rewrite drop_app_le in W by lia.
    specialize (Hsp (Z.to_nat i)). cbn zeta in Hsp. rewrite <- Ho in Hsp.
    do 3 eexists. split_and!; [exact W|exact Hsp|]. apply label_eqv_app; [reflexivity|done].
  - intros E. unfold cc_sensitive in *. rewrite Hal. auto.
Qed.

Lemma lor_c000 go : 0 <= go < 0x4000 -> Z.lor go 0xc000 = go + 192 * 256.
Proof.
  intros H. rewrite Z.lor_comm, Z.add_comm. change 0xc000 with (3 * 2 ^ 14). rewrite lor_add by lia. lia.
Qed.

(** What one call of [dns_name_towire] leaves behind. *)
Definition towire_post (cs : bool) (nm : dns_name_t) (body : list (list Z)) (c : dns_compress_t)
    (nodes : list dns_compressnode_t) (t : isc_buffer_t)
    (r : isc_result_t) (c' : dns_compress_t) (t' : isc_buffer_t) : Prop :=
  let used := b_used t in
  wf_buffer t' /\ b_length t' = b_length t /\ used <= b_used t' /\
  take (Z.to_nat used) (b_base t') = take (Z.to_nat used) (b_base t) /\
  exists news, compress_ok cs c' (news ++ nodes) (b_base t') (b_used t') /\ same_settings c c' /\
    Forall (fun nd => used <= cn_offset nd) news /\
    ((r = ISC_R_SUCCESS /\ b_used t' - used <= n_length nm /\
      exists ls, wire_at (b_base t') (b_used t') used used ls (b_used t' - used) /\ label_eqv cs ls body) \/
     (r = ISC_R_NOSPACE /\ c' = c /\ news = [] /\ b_length t - used < n_length nm)).

Lemma news_above body used (n : Z) news :
  Forall (fun nd => used < 0x4000 /\ exists i, 0 <= i < n /\ node_for body used i nd) news ->
  Forall (fun nd => used <= cn_offset nd) news.
Proof.
  intros H. eapply Forall_impl; [exact H|]. intros nd (_ & i & _ & -> & _).
  pose proof (Zlen_nonneg (wire (take (Z.to_nat i) body))). lia.
Qed.

(** No room: nothing is added. *)
Lemma nospace_post cs nm body c nodes t t' : compress_ok cs c nodes (b_base t) (b_used t) ->
  wf_buffer t' -> b_length t' = b_length t -> b_used t <= b_used t' ->
  take (Z.to_nat (b_used t)) (b_base t') = take (Z.to_nat (b_used t)) (b_base t) ->
  b_length t - b_used t < n_length nm ->
  towire_post cs nm body c nodes t ISC_R_NOSPACE c t'.
Proof.
  intros [Ha Hn Hs] Hw HL Hu Hag Hlt. split_and!; try done. exists []. split_and!; try done.
  - constructor; try done. eapply Forall_impl; [exact Hn|]. intros. by eapply node_ok_mono.
  - right. done.
Qed.

(** Room: the octets [w] were appended and [pre] was added to the table. *)
Lemma success_post cs nm body c nodes t base w c' news pre ls k :
  wf_name nm body true -> wf_buffer t -> compress_ok cs c nodes (b_base t) (b_used t) ->
  bytes w -> blit (b_base t) (b_used t) w = Done base -> Zlen w <= n_length nm ->
  let t' := set_used (set_base t base) (b_used t + Zlen w) in
  compress_abs c' (news ++ nodes) -> same_settings c c' ->
  Forall (fun nd => b_used t < 0x4000 /\ exists i, 0 <= i < Zlen pre /\ node_for body (b_used t) i nd) news ->
  Zlen w = Zlen (wire pre) + k -> wire pre `prefix_of` w -> Forall good_label pre -> pre `prefix_of` body ->
  (forall big, b_used t <= big -> wire_at base (b_used t + Zlen w) big (b_used t + Zlen (wire pre)) ls k) ->
  label_eqv cs ls (drop (length pre) body) ->
  towire_post cs nm body c nodes t ISC_R_SUCCESS c' t'.
Proof.
  intros W Ht Hok Hw Hb Hle t' Ha Hset Hnews Hk [tl Htl] Hg Hpre Hls Heq.
  destruct (append_spec t w base Ht Hw Hb) as (Hwf & _ & HL & Hag & Hsub). fold t' in Hwf, HL.
  pose proof (blit_Done _ _ _ _ Hb) as (_ & Hfit & _). pose proof (Zlen_blit _ _ _ _ Hb) as HLb.
  pose proof Ht as [T1 T2 T3 T4 T5]. pose proof (Zlen_nonneg (wire pre)).
  assert (Hk0 : 1 <= k) by (pose proof (wire_at_bound _ _ _ _ _ _ (Hls (b_used t) ltac:(lia))); lia).
  assert (Hsp : forall i, let o := b_used t + Zlen (wire (take i pre)) in
     wire_at base (b_used t') o o (drop i pre ++ ls) (Zlen (wire (drop i pre)) + k)).
  { intros i. apply (written_suffix base (b_used t)); cbn; try done; try lia.
    unfold sub in *. apply (f_equal (take (Z.to_nat (Zlen (wire pre))))) in Hsub.
    rewrite take_take, Nat.min_l in Hsub by lia. rewrite Hsub, Htl. apply take_app_length'. unfold Zlen. lia. }
  split_and!; try done; [cbn; lia|]. exists news. split_and!; [|done|by eapply news_above|].
  - eapply extended_ok; try done. cbn. lia.
  - left. split_and!; [done|cbn; lia|]. exists (pre ++ ls). specialize (Hsp 0%nat).
    cbn zeta in Hsp. rewrite take_0, drop_0 in Hsp. change (Zlen (wire [])) with 0 in Hsp.
    rewrite Z.add_0_r in Hsp. cbn. replace (b_used t + Zlen w - b_used t) with (Zlen (wire pre) + k) by lia.
    split; [exact Hsp|]. destruct Hpre as [rest ->]. rewrite drop_app_length in Heq.
    by apply label_eqv_app.
Qed.

Lemma rd_sub {A} (l : list A) i n j : 0 <= i -> 0 <= j < n -> rd (sub l i n) j = rd l (i + j).
Proof.
  intros Hi Hj. unfold rd, sub. rewrite (proj2 (Z.ltb_ge j 0)), (proj2 (Z.ltb_ge (i + j) 0)) by lia.
  rewrite lookup_take_lt, lookup_drop by lia. by rewrite Z2Nat.inj_add by lia.
Qed.

Lemma towire_full_spec mem cs nm body c nodes t :
  wf_name nm body true -> wf_buffer t -> b_used t < 65536 -> compress_ok cs c nodes (b_base t) (b_used t) ->
  exists r c' t', towire_full mem nm c t (u16 (b_used t)) = Done (r, c', t') /\
    towire_post cs nm body c nodes t r c' t'.
Proof.
  intros W Ht Hu Hok. pose proof Ht as [T1 T2 T3 T4 T5]. unfold towire_full.
  rewrite u32_small, u16_small by lia. destruct (_ <? n_length nm) eqn:E; bool_prop.
  { do 3 eexists. split; [reflexivity|]. by apply nospace_post. }
  assert (Hb := blit_ok (b_base t) (b_used t) (ndata nm) ltac:(lia)
                  ltac:(unfold b_length, n_length in *; lia)).
  rewrite Hb. cbn [obind]. unfold n_length. rewrite (add_after_blit t _ _ Ht Hb). cbn [obind].
  destruct (compress_add_spec mem c nodes nm body nm body true (b_used t)) as (c' & news & -> & Ha & Hset & Hn);
    try done; [apply Hok|lia|eapply nodes_below, Hok|].
  cbn [obind]. do 3 eexists. split; [reflexivity|].
  pose proof (wn_data _ _ _ W) as D. pose proof (wn_body _ _ _ W) as G.
  assert (Hlen : Zlen (ndata nm) = Zlen (wire body) + 1).
  { rewrite D, labels_of_true, wire_snoc, Zlen_app. done. }
  apply (success_post cs nm body c nodes t _ (ndata nm) c' news body [] 1); try done.
  - rewrite D. by apply bytes_wire.
  - rewrite D, labels_of_true, wire_snoc. by eexists.
  - intros big Hbig. constructor; [lia|]. pose proof (sub_blit _ _ _ _ Hb) as Hsub.
    pose proof (blit_Done _ _ _ _ Hb) as (_ & Hfit & _). pose proof (Zlen_blit _ _ _ _ Hb) as HLb.
    pose proof (Zlen_nonneg (wire body)).
    rewrite <- (rd_sub _ (b_used t) (Zlen (ndata nm))) by lia. rewrite Hsub, D, labels_of_true, wire_snoc.
    by apply rd_app_mid.
  - rewrite drop_all. reflexivity.
Qed.

Lemma be_pointer go : 0 <= go < 0x4000 -> be_bytes 2 (go + 192 * 256) = [192 + go / 256; go mod 256].
Proof.
  intros H. cbn [be_bytes]. change (256 ^ Z.of_nat 1) with 256. change (256 ^ Z.of_nat 0) with 1.
  rewrite Z.div_1_r, Z.div_add, Z.mod_add by lia. do 2 f_equal.
  rewrite Z.mod_small; [lia|]. pose proof (Z.div_lt_upper_bound go 256 64). pose proof (Z.div_pos go 256). lia.
Qed.

(** The message holds a prefix and a pointer to a node: what they spell. *)
Lemma pointer_spells cs (m base : list Z) used nd pre :
  node_ok cs m used nd -> cn_offset nd < 0x4000 ->
  take (Z.to_nat used) base = take (Z.to_nat used) m ->
  let w := wire pre ++ [192 + cn_offset nd / 256; cn_offset nd mod 256] in
  blit m used w = Done base ->
  exists ls ls', wf_name (NODENAME nd) ls true /\ label_eqv cs ls' ls /\
    forall big, used <= big -> wire_at base (used + Zlen w) big (used + Zlen (wire pre)) ls' 2.
Proof.
  intros (ls & ls' & k & Wn & Wa & Heq) Hgo Hag w Hb. exists ls, ls'. split_and!; [done|done|].
  intros big Hbig. pose proof (wire_at_bound _ _ _ _ _ _ Wa) as Hk.
  assert (Ho : 0 <= cn_offset nd) by (inversion Wa; subst; match goal with H : rd _ (cn_offset nd) = _ |- _ =>
    pose proof (rd_bound _ _ _ H); lia end).
  pose proof (blit_Done _ _ _ _ Hb) as (Hu & Hfit & _). pose proof (sub_blit _ _ _ _ Hb) as Hsub.
  assert (Hw : Zlen w = Zlen (wire pre) + 2) by (unfold w; by rewrite Zlen_app).
  pose proof (Zlen_nonneg (wire pre)).
  assert (Hgoeq : (192 + cn_offset nd / 256 - 192) * 256 + cn_offset nd mod 256 = cn_offset nd)
    by (rewrite (Z.div_mod (cn_offset nd) 256) at 3 by lia; lia).
  apply (wa_pointer _ _ _ _ (192 + cn_offset nd / 256) (cn_offset nd mod 256) _ k); rewrite ?Hgoeq; try lia.
  - rewrite <- (rd_sub _ used (Zlen w)), Hsub by lia. unfold w. by apply rd_app_mid.
  - rewrite <- Z.add_assoc, <- (rd_sub _ used (Zlen w)), Hsub by lia. unfold w.
    rewrite cons_middle, app_assoc. apply rd_app_mid. rewrite Zlen_app. done.
  - pose proof (Z.div_pos (cn_offset nd) 256). lia.
  - by apply (wire_at_mono m base used (used + Zlen w) Hag ltac:(lia) (cn_offset nd)).
Qed.

Lemma pointer_add mem cs nm body c nodes t gp m :
  wf_name nm body true -> wf_buffer t -> compress_ok cs c nodes (b_base t) (b_used t) ->
  0 <= m < Zlen body -> wf_name gp (take (Z.to_nat m) body) false ->
  exists c' news,
    (if negb (n_length gp =? 0) then dns_compress_add mem c nm gp (b_used t) else Done c) = Done c' /\
    compress_abs c' (news ++ nodes) /\ same_settings c c' /\
    Forall (fun x => b_used t < 0x4000 /\ exists i, 0 <= i < m /\ node_for body (b_used t) i x) news.
Proof.
  intros W [_ ? ? _ _] Hok Hm Wg. destruct (negb _); [|exists c, []; split_and!; try done; apply Hok].
  assert (Hpl : Zlen (take (Z.to_nat m) body) = m) by (unfold Zlen in *; rewrite length_take; lia).
  rewrite <- Hpl. apply (compress_add_spec mem c nodes nm body gp _ false); try done; [apply Hok|lia|lia|].
  eapply nodes_below, Hok.
Qed.

Lemma towire_pointer_spec mem cs nm body c nodes t gp m nd :
  wf_name nm body true -> wf_buffer t -> b_used t < 65536 -> compress_ok cs c nodes (b_base t) (b_used t) ->
  0 <= m < Zlen body -> matches (cc_sensitive c) nodes (drop (Z.to_nat m) body) nd ->
  cn_offset nd < 0x4000 -> wf_name gp (take (Z.to_nat m) body) false -> n_length gp + 2 < n_length nm ->
  exists r c' t', towire_pointer mem nm c t (u16 (b_used t)) gp (cn_offset nd) = Done (r, c', t') /\
    towire_post cs nm body c nodes t r c' t'.
Proof.
  intros W Ht Hu Hok Hm (Hin & ls1 & Wn & Heq) Hgo Wg Hlt. pose proof Ht as [T1 T2 T3 T4 T5].
  unfold towire_pointer. rewrite (u32_small (b_length t - b_used t)), u16_small by lia.
  destruct (_ <? n_length gp) eqn:E; bool_prop.
  { do 3 eexists. split; [reflexivity|]. apply nospace_post; try done; lia. }
  assert (Hb := blit_ok (b_base t) (b_used t) (ndata gp) ltac:(lia) ltac:(unfold b_length, n_length in *; lia)).
  rewrite Hb. cbn [obind]. unfold n_length at 1. rewrite (add_after_blit t _ _ Ht Hb). cbn [obind].
  set (base1 := _ ++ _) in *. set (t1 := set_used _ _).
  pose proof (wn_data _ _ _ Wg) as D. pose proof (wn_body _ _ _ Wg) as G.
  unfold labels_of in D. rewrite app_nil_r in D.
  assert (Hgb : bytes (ndata gp)).
  { rewrite D. pose proof (bytes_wire _ false G) as B. unfold labels_of in B. by rewrite app_nil_r in B. }
  destruct (append_spec t _ _ Ht Hgb Hb) as (Wt1 & _ & HL1 & Hag1 & _). fold t1 in Wt1, HL1.
  pose proof (Zlen_nonneg (ndata gp)) as Hgn. pose proof Wt1 as [_ C1 U1 _ L1].
  assert (Eu : b_used t1 = b_used t + n_length gp) by done.
  rewrite (u32_small (b_length t1 - b_used t1)) by lia. destruct (_ <? 2) eqn:E2; bool_prop.
  { do 3 eexists. split; [reflexivity|]. apply nospace_post; try done; unfold n_length in *; lia. }
  unfold isc_buffer_putuint16. rewrite u32_small, require_true by lia. cbn [obind].
  destruct (putuint16_macro_spec t1 (Z.lor (cn_offset nd) 0xc000) Wt1) as (base & -> & Hb2); [lia|].
  pose proof Hok as [Ha Hn _]. rewrite Forall_forall in Hn. pose proof (Hn nd Hin) as Hnd.
  assert (Ho : 0 <= cn_offset nd) by (pose proof (ca_range _ _ Ha) as R; rewrite Forall_forall in R; by apply R).
  rewrite lor_c000, be_pointer in Hb2 by lia.
  pose proof (blit_then _ _ _ _ _ _ Hb Hb2) as Hb3. rewrite D in Hb3.
  set (w := wire _ ++ _) in Hb3. cbn [obind].
  assert (Hwb : bytes w).
  { unfold w. rewrite <- D. apply bytes_app. split; [done|].
    rewrite <- be_pointer by lia. apply bytes_be. }
  pose proof (append_spec t w base Ht Hwb Hb3) as (_ & _ & _ & Hag & _).
  destruct (pointer_spells cs (b_base t) base (b_used t) nd (take (Z.to_nat m) body) Hnd Hgo Hag Hb3)
    as (ls & ls' & Wn' & Heq' & Hspell).
  assert (ls1 = ls) as ->.
  { apply wire_inj; [apply Wn|apply Wn'|]. rewrite <- (wn_data _ _ _ Wn). apply (wn_data _ _ _ Wn'). }
  assert (Hlw : Zlen w = n_length gp + 2) by (unfold w, n_length; rewrite <- D; by rewrite Zlen_app).
  assert (Hpl : Zlen (take (Z.to_nat m) body) = m) by (unfold Zlen in *; rewrite length_take; lia).
  destruct (pointer_add mem cs nm body c nodes t gp m W Ht Hok Hm Wg) as (c' & news & -> & Hc' & Hset & Hnews). cbn [obind].
  do 3 eexists. split; [reflexivity|].
  replace (set_used (set_base t1 base) (b_used t1 + 2)) with (set_used (set_base t base) (b_used t + Zlen w))
    by (unfold set_used, set_base, t1, n_length in *; cbn; f_equal; lia).
  apply (success_post cs nm body c nodes t base w c' news (take (Z.to_nat m) body) ls' 2); try done.
  - lia.
  - by rewrite Hpl.
  - by rewrite Hlw, <- D.
  - by eexists.
  - by apply prefix_take.
  - rewrite length_take_le by (unfold Zlen in *; lia). transitivity ls; [done|].
    eapply eqv_weaken; [apply (co_sensitive _ _ _ _ _ Hok)|done].
Qed.

Lemma towire_spec mem cs nm body c nodes t :
  wf_name nm body true -> wf_buffer t -> b_used t < 65536 -> compress_ok cs c nodes (b_base t) (b_used t) ->
  exists r c' t', dns_name_towire mem nm c t = Done (r, c', t') /\ towire_post cs nm body c nodes t r c' t'.
Proof.
  intros W Ht Hu Hok. unfold dns_name_towire.
  assert (Hcl : exists nm', (match offsets nm with
      | None => dns_name_clone nm (dns_name_init (Some odata)) | Some _ => Done nm end) = Done nm' /\
      wf_name nm' body true).
  { destruct (offsets nm) eqn:Eo; [eauto|by apply clone_spec]. }
  destruct Hcl as (nm' & -> & W'). cbn [obind].
  assert (Hpost : forall r c' t', towire_post cs nm' body c nodes t r c' t' -> towire_post cs nm body c nodes t r c' t').
  { unfold towire_post, n_length. by rewrite (wn_data _ _ _ W), (wn_data _ _ _ W'). }
  destruct (towire_find_spec c nodes nm' body) as (r & -> & Hr); [apply Hok|done|eapply nodes_wf, Hok|].
  cbn [obind]. destruct r as [[gp go]|].
  - destruct Hr as (m & nd & Hm & Hmt & -> & Hgo & Wg & Hlt).
    destruct (towire_pointer_spec mem cs nm' body c nodes t gp m nd) as (r & c' & t' & E & H); eauto 10.
  - destruct (towire_full_spec mem cs nm' body c nodes t) as (r & c' & t' & E & H); eauto 10.
Qed.

(** A sequence of names rendered into one message, as the sections of a message
    are; stops at the first failure. *)
Fixpoint towire_all (mem : Z -> bool) (names : list dns_name_t) (c : dns_compress_t)
    (t : isc_buffer_t) : outcome (isc_result_t * dns_compress_t * isc_buffer_t) :=
  match names with
  | [] => Done (ISC_R_SUCCESS, c, t)
  | nm :: names =>
      let* (r, c, t) := dns_name_towire mem nm c t in
      if bool_decide (r = ISC_R_SUCCESS) then towire_all mem names c t else Done (r, c, t)
  end.

Definition absolute (nm : dns_name_t) : Prop := exists body, wf_name nm body true.

Lemma towire_all_spec mem cs names : forall c nodes t,
  Forall absolute names -> wf_buffer t -> b_length t <= 65535 ->
  compress_ok cs c nodes (b_base t) (b_used t) ->
  exists r c' t' news, towire_all mem names c t = Done (r, c', t') /\ wf_buffer t' /\
    compress_ok cs c' (news ++ nodes) (b_base t') (b_used t') /\ same_settings c c' /\
    b_used t <= b_used t' /\ b_length t' = b_length t /\
    Forall (fun nd => b_used t <= cn_offset nd) news /\
    take (Z.to_nat (b_used t)) (b_base t') = take (Z.to_nat (b_used t)) (b_base t).
Proof.
  induction names as [|nm names IH]; intros c nodes t Hn Ht HL Hok; cbn [towire_all].
  { exists ISC_R_SUCCESS, c, t, []. by split_and!. }
  apply Forall_cons in Hn as [[body W] Hn]. pose proof (wb_used t Ht).
  destruct (towire_spec mem cs nm body c nodes t W Ht) as (r & c1 & t1 & -> & Hp); [lia|done|].
  destruct Hp as (Ht1 & HL1 & Hu1 & Hag1 & news1 & Hok1 & Hs1 & Hn1 & _). cbn [obind].
  destruct (bool_decide _); [|by exists r, c1, t1, news1].
  destruct (IH c1 (news1 ++ nodes) t1 Hn Ht1) as (r2 & c2 & t2 & news2 & E & Ht2 & Hok2 & Hs2 & Hu2 & HL2 & Hn2 & Hag2);
    [lia|done|].
  exists r2, c2, t2, (news2 ++ news1). rewrite <- app_assoc. split_and!; try done; try lia.
  - destruct Hs1, Hs2. split; congruence.
  - apply Forall_app. split; [|done]. eapply Forall_impl; [exact Hn2|]. cbn. lia.
  - rewrite <- Hag1. pose proof (wb_current t Ht).
    assert (E2 : forall l : list Z, take (Z.to_nat (b_used t)) l = take (Z.to_nat (b_used t)) (take (Z.to_nat (b_used t1)) l)).
    { intros l. rewrite take_take. f_equal. lia. }
    by rewrite (E2 (b_base t2)), Hag2, <- E2.
Qed.

(** The message as its receiver sees it: positioned at [pos]. *)
Definition received (t : isc_buffer_t) (pos : Z) : isc_buffer_t :=
  mkbuffer (b_base t) (b_used t) pos (b_used t).

Lemma received_wf t pos : wf_buffer t -> 0 <= pos <= b_used t -> wf_buffer (received t pos).
Proof. intros [? ? ? ? ?] ?. constructor; cbn; unfold b_length in *; cbn; try done; lia. Qed.

Lemma fold_nodown ls : map (fold_label false) ls = ls.
Proof. apply map_id. Qed.

Lemma reads_back cs nm body fixed fb t dctx p ls k :
  wf_name nm body true -> wf_buffer t -> 0 <= p <= b_used t ->
  wire_at (b_base t) (b_used t) p p ls k -> label_eqv cs ls body ->
  dns_decompress_getmethods dctx = DNS_COMPRESS_ALL ->
  name_target fixed 128 -> buffer fixed = Some fb -> wf_buffer fb -> 255 <= b_length fb ->
  exists n', dns_name_fromwire fixed (received t p) dctx 0 None =
      Done (ISC_R_SUCCESS, n', received t (p + k), None) /\
    dns_name_equal n' nm = Done true /\ (cs = true -> dns_name_caseequal n' nm = Done true).
Proof.
  intros W Ht Hp Hw Heq Hd Hf Efb Hfb Hfl.
  pose proof (proj2 (labels_of_same ls body) (label_eqv_same _ _ _ Heq)) as Hsame.
  pose proof (proj2 (same_labels_wire_len _ _ Hsame)) as Hlen.
  pose proof (wn_length _ _ _ W) as Hn. unfold n_length in Hn. rewrite (wn_data _ _ _ W) in Hn.
  assert (Hspell : spelled (received t p) ls k) by exact Hw.
  assert (Hfit : Zlen (wire (labels_of ls true)) <= Z.min 255 (b_length fb)) by lia.
  destruct (fromwire_complete_spec fixed fb (received t p) dctx 0 ls k (received_wf t p Ht Hp) Hfb Hf Efb Hd Hspell Hfit)
    as (n' & E & Wn). change (downcase_of 0) with false in Wn. rewrite fold_nodown in Wn.
  exists n'. split_and!; [exact E| |].
  - rewrite (equal_spec _ _ _ _ _ Wn W). by rewrite bool_decide_eq_true_2.
  - intros ->. rewrite (match_spec true _ _ _ _ Wn W). by rewrite bool_decide_eq_true_2.
Qed.

Lemma setup_ok edns allowed cs c0 c1 m used :
  dns_compress_setmethods (dns_compress_init edns) allowed = Done c0 ->
  dns_compress_setsensitive c0 cs = Done c1 -> compress_ok cs c1 [] m used.
Proof.
  intros E0 E1. cbn in E0. injection E0 as <-. cbn in E1. injection E1 as <-.
  constructor; [constructor; try done; constructor|constructor|]. intros ->.
  unfold cc_sensitive. cbn [cc_allowed]. rewrite Z.lor_comm. unfold DNS_COMPRESS_CASESENSITIVE.
  rewrite Z.land_lor_distr_l. apply negb_true_iff, Z.eqb_neq. intros [? _]%Z.lor_eq_0_iff. done.
Qed.

(** C7. A name rendered with compression is read back: after any sequence of
    names was rendered into a message of at most 65535 octets, rendering an
    absolute name either reports ISC_R_NOSPACE, and then the name does not fit
    uncompressed either and the table is unchanged, or it takes at most the
    uncompressed length, and [dns_name_fromwire] at its position, in the final
    message, consumes exactly the octets written and yields a name
    [dns_name_equal] to it - [dns_name_caseequal] when the context is case
    sensitive.  Every pointer written is below 0x4000 and points backwards. *)
Theorem towire_fromwire_roundtrip (mem : Z -> bool) (before after : list dns_name_t) (nm fixed : dns_name_t)
    (fb : isc_buffer_t) (edns allowed : Z) (cs : bool) (t : isc_buffer_t) (dctx : dns_decompress_t)
    (c0 c1 : dns_compress_t) :
  Forall absolute (before ++ nm :: after) -> wf_buffer t -> b_length t <= 65535 ->
  dns_compress_setmethods (dns_compress_init edns) allowed = Done c0 ->
  dns_compress_setsensitive c0 cs = Done c1 ->
  dns_decompress_getmethods dctx = DNS_COMPRESS_ALL ->
  name_target fixed 128 -> buffer fixed = Some fb -> wf_buffer fb -> 255 <= b_length fb ->
  exists r1 c2 t1 r2 c3 t2,
    towire_all mem before c1 t = Done (r1, c2, t1) /\
    dns_name_towire mem nm c2 t1 = Done (r2, c3, t2) /\
    ((r2 = ISC_R_NOSPACE /\ c3 = c2 /\ b_length t1 - b_used t1 < n_length nm) \/
     (r2 = ISC_R_SUCCESS /\ b_used t2 - b_used t1 <= n_length nm /\
      exists r4 c4 t4 n',
        towire_all mem after c3 t2 = Done (r4, c4, t4) /\
        dns_name_fromwire fixed (received t4 (b_used t1)) dctx 0 None =
          Done (ISC_R_SUCCESS, n', received t4 (b_used t2), None) /\
        dns_name_equal n' nm = Done true /\
        (cs = true -> dns_name_caseequal n' nm = Done true))).
Proof.
  intros Hall Ht HL E0 E1 Hd Hf Efb Hfb Hfl.
  apply Forall_app in Hall as [Hbef Hall]. apply Forall_cons in Hall as [[body W] Haft].
  destruct (towire_all_spec mem cs before c1 [] t Hbef Ht HL (setup_ok _ _ _ _ _ _ _ E0 E1))
    as (r1 & c2 & t1 & news1 & -> & Ht1 & Hok1 & _ & _ & HL1 & _).
  pose proof (wb_used t1 Ht1). pose proof (wb_current t1 Ht1).
  destruct (towire_spec mem cs nm body c2 _ t1 W Ht1 ltac:(lia) Hok1) as (r2 & c3 & t2 & E2 & Hp).
  exists r1, c2, t1, r2, c3, t2. split_and!; [done|done|].
  destruct Hp as (Ht2 & HL2 & Hu2 & _ & news2 & Hok2 & _ & _ & [(-> & Hle & ls & Hw & Heq)|(-> & -> & _ & Hlt)]);
    [right|by left].
  destruct (towire_all_spec mem cs after c3 _ t2 Haft Ht2 ltac:(lia) Hok2)
    as (r4 & c4 & t4 & _ & E4 & Ht4 & _ & _ & Hu4 & _ & _ & Hag4).
  assert (Hw4 := wire_at_mono _ _ _ _ Hag4 Hu4 _ (b_used t1) _ _ _ Hw ltac:(lia)).
  destruct (reads_back cs nm body fixed fb t4 dctx (b_used t1) ls _ W Ht4 ltac:(lia) Hw4 Heq Hd Hf Efb Hfb Hfl)
    as (n' & E & H1 & H2).
  split_and!; [done|done|]. exists r4, c4, t4, n'. split_and!; [done| |done|done].
  by replace (b_used t1 + (b_used t2 - b_used t1)) with (b_used t2) in E by lia.
Qed.

(** C8. [dns_compress_rollback] undoes rendering: whatever names were rendered
    after the mark [b_used t], whether they fitted or not, rolling back to the
    mark gives back exactly the context of the mark (table, count, settings). *)
Theorem rollback_restores (mem : Z -> bool) (before names : list dns_name_t) (edns allowed : Z) (cs : bool)
    (t0 t : isc_buffer_t) (c0 c1 c : dns_compress_t) (r : isc_result_t) :
  Forall absolute (before ++ names) -> wf_buffer t0 -> b_length t0 <= 65535 ->
  dns_compress_setmethods (dns_compress_init edns) allowed = Done c0 ->
  dns_compress_setsensitive c0 cs = Done c1 ->
  towire_all mem before c1 t0 = Done (r, c, t) ->
  exists r' c' t', towire_all mem names c t = Done (r', c', t') /\
    dns_compress_rollback c' (u16 (b_used t)) = Done c.
Proof.
  intros Hall Ht0 HL E0 E1 E. apply Forall_app in Hall as [Hbef Hn].
  destruct (towire_all_spec mem cs before c1 [] t0 Hbef Ht0 HL (setup_ok _ _ _ _ _ _ _ E0 E1))
    as (r1 & c2 & t1 & nodes & E' & Ht & Hok & _ & _ & HL1 & _).
  rewrite E in E'. injection E' as <- <- <-. rewrite app_nil_r in Hok.
  pose proof (wb_used t Ht). pose proof (wb_current t Ht).
  destruct (towire_all_spec mem cs names c nodes t Hn Ht ltac:(lia) Hok)
    as (r' & c' & t' & news & E2 & _ & Hok2 & Hset & _ & _ & Hnews & _).
  exists r', c', t'. split; [done|]. rewrite u16_small by lia.
  destruct (rollback_spec c' _ (b_used t) (co_abs _ _ _ _ _ Hok2)) as (c'' & -> & Ha & Hset2).
  f_equal. symmetry. apply (abs_inj _ _ nodes); [apply Hok| |].
  - unfold older in Ha. rewrite filter_app in Ha.
    assert (filter (fun nd => cn_offset nd < b_used t) news = []) as En.
    { clear -Hnews. induction Hnews; [done|]. rewrite filter_cons_False by lia. done. }
    rewrite En in Ha. cbn [app] in Ha. pose proof (older_all _ _ (nodes_below _ _ _ _ (co_nodes _ _ _ _ _ Hok))) as Eo.
    unfold older in Eo. by rewrite Eo in Ha.
  - destruct Hset, Hset2. split; congruence.
Qed.

(** [dns_compress_findglobal] returns the longest match: with a table in
    which every node is a well-formed name, it finds the suffix with the most
    labels that is in the table under the context's case rule, splits the name
    there, and reports no match only when no suffix but the root is there. *)
Theorem findglobal_longest (c : dns_compress_t) (nodes : list dns_compressnode_t) (nm prefix : dns_name_t)
    (body : list (list Z)) :
  compress_abs c nodes -> Forall (fun nd => absolute (NODENAME nd)) nodes ->
  wf_name nm body true -> scratch prefix ->
  (exists gp go m nd, dns_compress_findglobal c nm prefix = Done (Some (gp, go)) /\
     longest_match (cc_sensitive c) nodes body m nd /\ go = cn_offset nd /\
     wf_name gp (take (Z.to_nat m) body) false) \/
  (dns_compress_findglobal c nm prefix = Done None /\
     forall m nd, ~ longest_match (cc_sensitive c) nodes body m nd).
Proof.
  intros Hc Hf W Hp. destruct (findglobal_spec c nodes nm body prefix Hc W Hp Hf) as (r & E & Hr).
  destruct r as [[gp go]|]; [left|right].
  - destruct Hr as (m & nd & ? & ? & ?). eauto 10.
  - split; [done|]. intros m nd (Hm & Hmt & _). by apply (Hr m nd).
Qed.

(** ** Examples *)

Definition ex_mail : list (list Z) := [[109; 97; 105; 108]; [69; 120]].
Definition ex_room : isc_buffer_t := isc_buffer_init (replicate 40 0).
Definition ex_cctx : dns_compress_t := mkcctx true 1 0 (replicate 64 []) 0.

Lemma ex_absolute body : forallb good_labelb body = true ->
  (Zlen (wire (labels_of body true)) <=? 255) = true -> absolute (mk_name body true).
Proof. intros H1 H2. exists body. by apply mk_name_wf. Qed.

Lemma towire_fromwire_roundtrip_witness :
  exists r1 c2 t1 c3 t2,
    towire_all (fun _ => true) [mk_name ex_www true] ex_cctx ex_room = Done (r1, c2, t1) /\
    dns_name_towire (fun _ => true) (mk_name ex_mail true) c2 t1 = Done (ISC_R_SUCCESS, c3, t2) /\
    b_used t2 - b_used t1 = 7 /\
    exists n', dns_name_fromwire fixedname (received t2 (b_used t1)) ex_dctx 0 None =
      Done (ISC_R_SUCCESS, n', received t2 (b_used t2), None) /\
      dns_name_equal n' (mk_name ex_mail true) = Done true.
Proof.
  destruct (towire_fromwire_roundtrip (fun _ => true) [mk_name ex_www true] [] (mk_name ex_mail true) fixedname
    (isc_buffer_init (replicate 300 0)) 0 1 false ex_room ex_dctx ex_cctx ex_cctx)
    as (r1 & c2 & t1 & r2 & c3 & t2 & E1 & E2 & H).
  - repeat constructor; apply ex_absolute; reflexivity.
  - apply wf_bufferb_spec. reflexivity.
  - vm_compute. discriminate.
  - reflexivity.
  - reflexivity.
  - reflexivity.
  - split; [reflexivity|vm_compute; discriminate].
  - reflexivity.
  - apply wf_bufferb_spec. reflexivity.
  - vm_compute. discriminate.
  - vm_compute in E1. injection E1 as <- <- <-. vm_compute in E2. injection E2 as <- <- <-.
    destruct H as [[H _]|(_ & _ & r4 & c4 & t4 & n' & E4 & E5 & E6 & _)]; [discriminate H|].
    injection E4 as <- <- <-.
    do 5 eexists. split; [vm_compute; reflexivity|]. split; [vm_compute; reflexivity|].
    split; [reflexivity|]. exists n'. split; [exact E5|exact E6].
Defined.

Lemma rollback_restores_witness :
  exists c t, towire_all (fun _ => true) [mk_name ex_www true] ex_cctx ex_room = Done (ISC_R_SUCCESS, c, t) /\
    exists r' c' t', towire_all (fun _ => true) [mk_name ex_mail true; mk_name [[120]] true] c t = Done (r', c', t') /\
      dns_compress_rollback c' (u16 (b_used t)) = Done c.
Proof.
  do 2 eexists. split; [vm_compute; reflexivity|].
  eapply (rollback_restores (fun _ => true) [mk_name ex_www true] _ 0 1 false ex_room).
  - repeat constructor; apply ex_absolute; reflexivity.
  - apply wf_bufferb_spec. reflexivity.
  - vm_compute. discriminate.
  - reflexivity.
  - reflexivity.
  - vm_compute. reflexivity.
Defined.

Definition ex_node : dns_compressnode_t := mknode [2; 101; 120; 0] 12 0 2.

Lemma findglobal_longest_witness :
  exists gp, dns_compress_findglobal (mkcctx true 1 0 (map (chain_of [ex_node]) slots) 1)
      (mk_name ex_www true) (dns_name_init None) = Done (Some (gp, 12)) /\ ndata gp = [3; 119; 119; 119].
Proof.
  destruct (findglobal_longest (mkcctx true 1 0 (map (chain_of [ex_node]) slots) 1) [ex_node]
    (mk_name ex_www true) (dns_name_init None) ex_www) as [H|[H _]].
  - constructor; try reflexivity.
    + intros [|i] nd E; [injection E as <-; reflexivity|discriminate E].
    + repeat constructor.
    + repeat constructor; discriminate.
  - constructor; [|constructor]. exists [[101; 120]]. constructor; try reflexivity; try discriminate.
    apply good_labelb_spec. reflexivity.
  - apply mk_name_wf; reflexivity.
  - split; reflexivity.
  - destruct H as (gp & go & m & nd & E & _ & _ & _). vm_compute in E. injection E as <- <-.
    eexists. split; vm_compute; reflexivity.
  - vm_compute in H. discriminate H.
Defined.
