(* ===== verification/NameText.v ===== *)
(** * Names as text ([dns_name_fromtext], [dns_name_totext2],
      [dns_name_tofilenametext] and the string functions of [lib/dns/name.c])

    Text is a list of octets.  [char] is signed on the supported platforms, so
    a table indexed with [(int)c] is indexed with [schar c]. *)

From S2P Require Import Prelude Buffer Name NameTheory FromWire.

(** [digitvalue], lines 59-76. *)
Definition digitvalue (c : Z) : Z :=
  if (48 <=? c) && (c <=? 57) then c - 48
  else if (65 <=? c) && (c <=? 70) then c - 55
  else if (97 <=? c) && (c <=? 102) then c - 87
  else -1.

Definition schar (c : Z) : Z := if c <? 128 then c else c - 256.

Definition isdigit (c : Z) : bool := (48 <=? c) && (c <=? 57).

(** [if (downcase) c = maptolower[(int)c]] for a [char] [c]. *)
Definition fold_char (downcase : bool) (c : Z) : outcome Z :=
  if downcase then rd maptolower (schar c) else Done c.

(** ** [dns_name_fromtext] *)

Inductive ft_state : Type :=
| ft_init | ft_start | ft_ordinary | ft_initialescape | ft_escape | ft_escdecimal | ft_at.

#[export] Instance ft_state_eq_dec : EqDecision ft_state.
Proof. solve_decision. Defined.

(** The variables of the loop: [t_pos] is the offset of [tdata] in the source,
    [t_np] that of [ndata] and [t_label] that of [label] in the target. *)
Record ft := mkft {
  t_state : ft_state;
  t_pos : Z;
  t_len : Z;
  t_used : Z;
  t_label : Z;
  t_count : Z;
  t_value : Z;
  t_digits : Z;
  t_labels : Z;
  t_nused : Z;
  t_nrem : Z;
  t_done : bool;
  t_np : Z;
  t_base : list Z;
  t_offs : list Z
}.

Definition ft_result : Type := outcome (ft + (isc_result_t * ft)).

Definition ft_continue (s : ft) : ft_result := Done (inl s).
Definition ft_return (r : isc_result_t) (s : ft) : ft_result := Done (inr (r, s)).

Definition ft_goto (s : ft) (st : ft_state) : ft :=
  mkft st (t_pos s) (t_len s) (t_used s) (t_label s) (t_count s) (t_value s) (t_digits s)
    (t_labels s) (t_nused s) (t_nrem s) (t_done s) (t_np s) (t_base s) (t_offs s).

(** [*ndata++ = c; nrem--; nused++]; every use is guarded by [nrem > 0]. *)
Definition ft_put (s : ft) (c : Z) : outcome ft :=
  let* base := wr (t_base s) (t_np s) (u8 c) in
  Done (mkft (t_state s) (t_pos s) (t_len s) (t_used s) (t_label s) (t_count s) (t_value s)
          (t_digits s) (t_labels s) (t_nused s + 1) (t_nrem s - 1) (t_done s) (t_np s + 1)
          base (t_offs s)).

Definition ft_set_count (s : ft) (count : Z) : ft :=
  mkft (t_state s) (t_pos s) (t_len s) (t_used s) (t_label s) count (t_value s) (t_digits s)
    (t_labels s) (t_nused s) (t_nrem s) (t_done s) (t_np s) (t_base s) (t_offs s).

Definition ft_set_done (s : ft) : ft :=
  mkft (t_state s) (t_pos s) (t_len s) (t_used s) (t_label s) (t_count s) (t_value s) (t_digits s)
    (t_labels s + 1) (t_nused s) (t_nrem s) true (t_np s) (t_base s) (t_offs s).

(** [*label = count; labels++; INSIST(labels <= 127); offsets[labels] = nused]. *)
Definition ft_end_label (s : ft) : outcome ft :=
  let* base := wr (t_base s) (t_label s) (u8 (t_count s)) in
  let labels := t_labels s + 1 in
  REQUIRE labels <=? 127 ;;
  let* offs := wr (t_offs s) labels (u8 (t_nused s)) in
  Done (mkft (t_state s) (t_pos s) (t_len s) (t_used s) (t_label s) (t_count s) (t_value s)
          (t_digits s) labels (t_nused s) (t_nrem s) (t_done s) (t_np s) base offs).

Section ft_body.
Context (src : list Z) (downcase : bool).

(** [case ft_ordinary]. *)
Definition ft_case_ordinary (s : ft) (c : Z) : ft_result :=
  if c =? 46 then
    if t_count s =? 0 then ft_return DNS_R_EMPTYLABEL s
    else
      let* s := ft_end_label s in
      let* s := (if t_len s =? 0 then let* s := ft_put s 0 in Done (ft_set_done s) else Done s) in
      ft_continue (ft_goto s ft_start)
  else if c =? 92 then ft_continue (ft_goto s ft_escape)
  else if 63 <=? t_count s then ft_return DNS_R_LABELTOOLONG s
  else
    let s := ft_set_count s (t_count s + 1) in
    let* c := fold_char downcase c in
    let* s := ft_put s c in
    ft_continue s.

(** [case ft_start], with its fall through. *)
Definition ft_case_start (s : ft) (c : Z) : ft_result :=
  let s := mkft (t_state s) (t_pos s) (t_len s) (t_used s) (t_np s) 0 (t_value s) (t_digits s)
             (t_labels s) (t_nused s + 1) (t_nrem s - 1) (t_done s) (t_np s + 1) (t_base s) (t_offs s) in
  if c =? 92 then ft_continue (ft_goto s ft_initialescape)
  else
    let s := ft_goto s ft_ordinary in
    if t_nrem s =? 0 then ft_return ISC_R_NOSPACE s
    else ft_case_ordinary s c.

(** [case ft_escdecimal]. *)
Definition ft_case_escdecimal (s : ft) (c : Z) : ft_result :=
  if negb (isdigit c) then ft_return DNS_R_BADESCAPE s
  else
    let value := u32 (u32 (t_value s * 10) + u32 (digitvalue c)) in
    let digits := t_digits s + 1 in
    let s := mkft (t_state s) (t_pos s) (t_len s) (t_used s) (t_label s) (t_count s) value digits
               (t_labels s) (t_nused s) (t_nrem s) (t_done s) (t_np s) (t_base s) (t_offs s) in
    if digits =? 3 then
      if 255 <? value then ft_return DNS_R_BADESCAPE s
      else if 63 <=? t_count s then ft_return DNS_R_LABELTOOLONG s
      else
        let s := ft_set_count s (t_count s + 1) in
        let* value := (if downcase then rd maptolower value else Done value) in
        let* s := ft_put s value in
        ft_continue (ft_goto s ft_ordinary)
    else ft_continue s.

(** [case ft_escape], with its fall through. *)
Definition ft_case_escape (s : ft) (c : Z) : ft_result :=
  if negb (isdigit c) then
    if 63 <=? t_count s then ft_return DNS_R_LABELTOOLONG s
    else
      let s := ft_set_count s (t_count s + 1) in
      let* c := fold_char downcase c in
      let* s := ft_put s c in
      ft_continue (ft_goto s ft_ordinary)
  else
    ft_case_escdecimal
      (mkft ft_escdecimal (t_pos s) (t_len s) (t_used s) (t_label s) (t_count s) 0 0
         (t_labels s) (t_nused s) (t_nrem s) (t_done s) (t_np s) (t_base s) (t_offs s)) c.

(** [case ft_init], with its fall through. *)
Definition ft_case_init (s : ft) (c : Z) : ft_result :=
  if c =? 46 then
    if negb (t_len s =? 0) then ft_return DNS_R_EMPTYLABEL s
    else
      let* s := ft_put s 0 in
      ft_continue (ft_set_done s)
  else if (c =? 64) && (t_len s =? 0) then ft_continue (ft_goto s ft_at)
  else ft_case_start s c.

(** One iteration of [while (nrem > 0 && tlen > 0 && !done)].  [ISC_R_SUCCESS]
    stands for leaving the loop. *)
Definition ft_body (s : ft) : ft_result :=
  if (0 <? t_nrem s) && (0 <? t_len s) && negb (t_done s) then
    let* c := rd src (t_pos s) in
    let s := mkft (t_state s) (t_pos s + 1) (t_len s - 1) (t_used s + 1) (t_label s) (t_count s)
               (t_value s) (t_digits s) (t_labels s) (t_nused s) (t_nrem s) (t_done s) (t_np s)
               (t_base s) (t_offs s) in
    match t_state s with
    | ft_init => ft_case_init s c
    | ft_start => ft_case_start s c
    | ft_ordinary => ft_case_ordinary s c
    | ft_initialescape => if c =? 91 then ft_return DNS_R_BADLABELTYPE s
                          else ft_case_escape (ft_goto s ft_escape) c
    | ft_escape => ft_case_escape s c
    | ft_escdecimal => ft_case_escdecimal s c
    | ft_at => Abort
    end
  else ft_return ISC_R_SUCCESS s.

(** [while (n2 > 0)]: copy the characters of a label of the origin. *)
Fixpoint origin_chars (od : list Z) (p : Z) (base : list Z) (np : Z) (n2 : nat) : outcome (list Z) :=
  match n2 with
  | O => Done base
  | S n2 =>
      let* c := rd od p in
      let* c := fold_char downcase c in
      let* base := wr base np (u8 c) in
      origin_chars od (p + 1) base (np + 1) n2
  end.

(** [while (n1 > 0)]: variables label, n1, labels, nused, ndata, target, offsets. *)
Definition origin_body (od : list Z) (s : Z * Z * Z * Z * Z * list Z * list Z) :
    outcome ((Z * Z * Z * Z * Z * list Z * list Z) + (Z * Z * Z * list Z * list Z)) :=
  let '(p, n1, labels, nused, np, base, offs) := s in
  if 0 <? n1 then
    let* n2 := rd od p in
    REQUIRE n2 <=? 63 ;;
    let* base := wr base np n2 in
    let n1 := u32 (n1 - (n2 + 1)) in
    let nused := nused + (n2 + 1) in
    let* base := origin_chars od (p + 1) base (np + 1) (Z.to_nat n2) in
    let labels := labels + 1 in
    let* offs := (if 0 <? n1 then
                    REQUIRE labels <=? 127 ;;
                    wr offs labels (u8 nused)
                  else Done offs) in
    Done (inl (p + 1 + n2, n1, labels, nused, np + 1 + n2, base, offs))
  else Done (inr (labels, nused, np, base, offs)).

(** Each iteration takes at least one octet of the origin. *)
Definition append_origin (od : list Z) (labels nused np : Z) (base offs : list Z) :
    outcome (Z * Z * Z * list Z * list Z) :=
  loop (S (length od)) (origin_body od) (0, Zlen od, labels, nused, np, base, offs).

(** [if (origin != NULL)] after a relative name: the result, the final variables
    and whether the name is absolute. *)
Definition ft_relative (s : ft) (origin : option dns_name_t) : outcome (isc_result_t * ft * bool) :=
  match origin with
  | None => Done (ISC_R_SUCCESS, s, false)
  | Some o =>
      if t_nrem s <? n_length o then Done (ISC_R_NOSPACE, s, false)
      else
        let* (labels, nused, np, base, offs) :=
          append_origin (ndata o) (t_labels s) (t_nused s) (t_np s) (t_base s) (t_offs s) in
        Done (ISC_R_SUCCESS,
              mkft (t_state s) (t_pos s) (t_len s) (t_used s) (t_label s) (t_count s) (t_value s)
                (t_digits s) labels nused (t_nrem s - n_length o) (t_done s) np base offs,
              attr_set o DNS_NAMEATTR_ABSOLUTE)
  end.

(** The code between the loop and the common end: the result, the final
    variables and whether the name is absolute. *)
Definition ft_finish (s : ft) (origin : option dns_name_t) : outcome (isc_result_t * ft * bool) :=
  if t_done s then Done (ISC_R_SUCCESS, s, true)
  else if t_nrem s =? 0 then Done (ISC_R_NOSPACE, s, false)
  else
    REQUIRE t_len s =? 0 ;;
    if negb (bool_decide (t_state s = ft_ordinary)) && negb (bool_decide (t_state s = ft_at))
    then Done (ISC_R_UNEXPECTEDEND, s, false)
    else
      let* s := (if bool_decide (t_state s = ft_ordinary) then
                   REQUIRE negb (t_count s =? 0) ;;
                   ft_end_label s
                 else Done s) in
      ft_relative s origin.

End ft_body.

(** [dns_name_fromtext] after the target is chosen. *)
Definition fromtext_into (n : dns_name_t) (source : isc_buffer_t) (origin : option dns_name_t)
    (options : Z) (target : isc_buffer_t) :
    outcome (isc_result_t * dns_name_t * isc_buffer_t * isc_buffer_t) :=
  let downcase := negb (Z.land options DNS_NAME_DOWNCASE =? 0) in
  REQUIRE BINDABLE n ;;
  let* tbl := wr (match offsets n with Some t => t | None => odata end) 0 0 in
  let n := MAKE_EMPTY n in
  let tlen := isc_buffer_remaininglength source in
  let nrem := isc_buffer_availablelength target in
  let nrem := if 255 <? nrem then 255 else nrem in
  let* (r, s) :=
    loop (S (Z.to_nat tlen)) (ft_body (b_base source) downcase)
      (mkft ft_init (b_current source) tlen 0 0 0 0 0 0 0 nrem false (b_used target) (b_base target) tbl) in
  let* (r, s, ab) :=
    (if bool_decide (r = ISC_R_SUCCESS) then ft_finish downcase s origin else Done (r, s, false)) in
  let target := set_base target (t_base s) in
  let n := mkname [] 0 (attributes n) (put_offsets n (t_offs s)) (buffer n) in
  if bool_decide (r = ISC_R_SUCCESS) then
    let n := mkname (sub (b_base target) (b_used target) (t_nused s)) (t_labels s)
               (if ab then Z.lor (attributes n) DNS_NAMEATTR_ABSOLUTE else attributes n)
               (offsets n) (buffer n) in
    let* source := isc_buffer_forward source (t_used s) in
    let* target := isc_buffer_add target (n_length n) in
    Done (ISC_R_SUCCESS, n, source, target)
  else Done (r, n, source, target).

Definition dns_name_fromtext (n : dns_name_t) (source : isc_buffer_t) (origin : option dns_name_t)
    (options : Z) (target : option isc_buffer_t) :
    outcome (isc_result_t * dns_name_t * isc_buffer_t * option isc_buffer_t) :=
  let* t := select_target n target in
  let* (r, n, source, t) := fromtext_into n source origin options t in
  let '(n, target) := give_back n target t in
  Done (r, n, source, target).

(** ** [dns_name_totext2] *)

Definition DNS_NAME_OMITFINALDOT : Z := 0x01.
Definition DNS_NAME_MASTERFILE : Z := 0x02.
Definition DNS_NAME_FORMATSIZE : Z := 1024.

(** Successive [*tdata++ = c]. *)
Fixpoint put_chars (base : list Z) (tp : Z) (cs : list Z) : outcome (list Z) :=
  match cs with
  | [] => Done base
  | c :: cs => let* base := wr base tp c in put_chars base (tp + 1) cs
  end.

(** The text of one character of a label. *)
Definition special (options c : Z) : bool :=
  if (c =? 0x40) || (c =? 0x24) then negb (Z.land options DNS_NAME_MASTERFILE =? 0)
  else (c =? 0x22) || (c =? 0x28) || (c =? 0x29) || (c =? 0x2E) || (c =? 0x3B) || (c =? 0x5C).

Definition esc_char (options c : Z) : list Z :=
  if special options c then [92; c]
  else if (0x20 <? c) && (c <? 0x7f) then [c]
  else [0x5c; u8 (0x30 + (c / 100) mod 10); u8 (0x30 + (c / 10) mod 10); u8 (0x30 + c mod 10)].

Section totext.
(** How a character is written. *)
Context (esc : Z -> list Z).

(** [while (count > 0)]: the target and the room left, or the target when the
    room ran out. *)
Fixpoint tt_chars (data : list Z) (p : Z) (base : list Z) (tp trem : Z) (count : nat) :
    outcome ((list Z * Z * Z) + list Z) :=
  match count with
  | O => Done (inl (base, tp, trem))
  | S count =>
      let* c := rd data p in
      let cs := esc c in
      if trem <? Zlen cs then Done (inr base)
      else
        let* base := put_chars base tp cs in
        tt_chars data (p + 1) base (tp + Zlen cs) (trem - Zlen cs) count
  end.

(** [while (labels > 0 && nlen > 0 && trem > 0)]: target, room left, octets of
    the name left and [saw_root]; or the target when the room ran out. *)
Fixpoint tt_labels (data : list Z) (p nlen : Z) (base : list Z) (tp trem : Z) (labels : nat) :
    outcome ((list Z * Z * Z * Z * bool) + list Z) :=
  match labels with
  | O => Done (inl (base, tp, trem, nlen, false))
  | S labels =>
      if (0 <? nlen) && (0 <? trem) then
        let* count := rd data p in
        let p := p + 1 in
        let nlen := nlen - 1 in
        if count =? 0 then Done (inl (base, tp, trem, nlen, true))
        else
          REQUIRE count <? 64 ;;
          REQUIRE count <=? nlen ;;
          let* r := tt_chars data p base tp trem (Z.to_nat count) in
          match r with
          | inr base => Done (inr base)
          | inl (base, tp, trem) =>
              if trem =? 0 then Done (inr base)
              else
                let* base := wr base tp 46 in
                tt_labels data (p + count) (nlen - count) base (tp + 1) (trem - 1) labels
          end
      else Done (inl (base, tp, trem, nlen, false))
  end.
End totext.

(** The thread-specific filter of [dns_name_settotextfilter]: it gets the
    target, the old [used] and [saw_root]. *)
Definition totextfilter : Type := isc_buffer_t -> Z -> bool -> isc_result_t * isc_buffer_t.

(** The names with a text of one character: an empty name and the root. *)
Definition totext_single (target : isc_buffer_t) (tlen c : Z) :
    outcome ((list Z * Z * Z * bool * bool) + list Z) :=
  if tlen =? 0 then Done (inr (b_base target))
  else
    let* base := wr (b_base target) (b_used target) c in
    Done (inl (base, tlen - 1, 0, true, false)).

(** From the end of the loop on: target, room left, octets of the name left,
    [saw_root] and [omit_final_dot], or the target when the room ran out. *)
Definition totext_end (filter : option totextfilter) (target : isc_buffer_t) (tlen : Z)
    (r : (list Z * Z * Z * bool * bool) + list Z) : outcome (isc_result_t * isc_buffer_t) :=
  let oused := b_used target in
  match r with
  | inr base => Done (ISC_R_NOSPACE, set_base target base)
  | inl (base, trem, nlen, saw_root, omit_final_dot) =>
      let target := set_base target base in
      if negb (nlen =? 0) && (trem =? 0) then Done (ISC_R_NOSPACE, target)
      else
        let trem := if negb saw_root || omit_final_dot then u32 (trem + 1) else trem in
        let* target := isc_buffer_add target (u32 (tlen - trem)) in
        match filter with
        | Some proc => Done (proc target oused saw_root)
        | None => Done (ISC_R_SUCCESS, target)
        end
  end.

(** [key] is the result of creating the thread-specific key and [filter] the
    filter installed for the thread. *)
Definition dns_name_totext2 (key : isc_result_t) (filter : option totextfilter) (n : dns_name_t)
    (options : Z) (target : isc_buffer_t) : outcome (isc_result_t * isc_buffer_t) :=
  let omit_final_dot := negb (Z.land options DNS_NAME_OMITFINALDOT =? 0) in
  if negb (bool_decide (key = ISC_R_SUCCESS)) then Done (key, target)
  else
    let nlen := n_length n in
    let tlen := isc_buffer_availablelength target in
    let* first := (if (nlen =? 1) && (labels n =? 1) then rd (ndata n) 0 else Done 1) in
    let* r :=
      (if (labels n =? 0) && (nlen =? 0) then totext_single target tlen 64
       else if (nlen =? 1) && (labels n =? 1) && (first =? 0) then totext_single target tlen 46
       else
         let* r := tt_labels (esc_char options) (ndata n) 0 nlen (b_base target) (b_used target) tlen
                     (Z.to_nat (labels n)) in
         Done (match r with
               | inl (base, _, trem, nlen, saw_root) => inl (base, trem, nlen, saw_root, omit_final_dot)
               | inr base => inr base
               end)) in
    totext_end filter target tlen r.

Definition dns_name_totext (key : isc_result_t) (filter : option totextfilter) (n : dns_name_t)
    (omit_final_dot : bool) (target : isc_buffer_t) : outcome (isc_result_t * isc_buffer_t) :=
  dns_name_totext2 key filter n
    (if omit_final_dot then Z.lor DNS_NAME_MASTERFILE DNS_NAME_OMITFINALDOT else DNS_NAME_MASTERFILE) target.

Definition dns_name_toprincipal (key : isc_result_t) (filter : option totextfilter) (n : dns_name_t)
    (target : isc_buffer_t) : outcome (isc_result_t * isc_buffer_t) :=
  dns_name_totext2 key filter n DNS_NAME_OMITFINALDOT target.

(** ** [dns_name_tofilenametext] *)

(** [%02X]. *)
Definition hexdigit (d : Z) : Z := if d <? 10 then 48 + d else 55 + d.

Definition filename_char (c : Z) : list Z :=
  if ((0x30 <=? c) && (c <=? 0x39)) || ((0x41 <=? c) && (c <=? 0x5A)) ||
     ((0x61 <=? c) && (c <=? 0x7A)) || (c =? 0x2D) || (c =? 0x5F)
  then [if (0x41 <=? c) && (c <=? 0x5A) then c + 0x20 else c]
  else [37; hexdigit (c / 16); hexdigit (c mod 16)].

(** The end differs from [dns_name_totext2] in that the name is absolute and
    there is no filter. *)
Definition dns_name_tofilenametext (n : dns_name_t) (omit_final_dot : bool) (target : isc_buffer_t) :
    outcome (isc_result_t * isc_buffer_t) :=
  REQUIRE attr_set n DNS_NAMEATTR_ABSOLUTE ;;
  let nlen := n_length n in
  let tlen := isc_buffer_availablelength target in
  let* first := (if (nlen =? 1) && (labels n =? 1) then rd (ndata n) 0 else Done 1) in
  let* r :=
    (if (nlen =? 1) && (labels n =? 1) && (first =? 0) then totext_single target tlen 46
     else
       let* r := tt_labels filename_char (ndata n) 0 nlen (b_base target) (b_used target) tlen
                   (Z.to_nat (labels n)) in
       Done (match r with
             | inl (base, _, trem, nlen, _) => inl (base, trem, nlen, true, omit_final_dot)
             | inr base => inr base
             end)) in
  totext_end None target tlen r.

(** ** String functions *)

(** The text and its terminating 0, or [<unknown>]; [size] octets at [cp]. *)
Definition dns_name_format (key : isc_result_t) (filter : option totextfilter) (n : dns_name_t)
    (cp : list Z) (size : Z) : outcome (list Z) :=
  REQUIRE 0 <? size ;;
  let* (r, buf) := dns_name_totext key filter n true (isc_buffer_init (sub cp 0 (size - 1))) in
  if bool_decide (r = ISC_R_SUCCESS) then
    let* cp := blit cp 0 (b_base buf) in
    wr cp (b_used buf) 0
  else blit cp 0 (sub [60; 117; 110; 107; 110; 111; 119; 110; 62] 0 (Z.min (size - 1) 9) ++ [0]).

Definition dns_name_tostring (key : isc_result_t) (filter : option totextfilter) (n : dns_name_t)
    (txt : list Z) : outcome (isc_result_t * option (list Z)) :=
  let* (r, buf) := dns_name_totext key filter n false (isc_buffer_init txt) in
  if bool_decide (r = ISC_R_SUCCESS) then Done (ISC_R_SUCCESS, Some (isc_buffer_usedregion buf ++ [0]))
  else Done (r, None).

(** ** Theory of [dns_name_totext2] *)

Lemma put_chars_spec tb used cs : forall w base, blit tb used w = Done base ->
  used + Zlen w + Zlen cs <= Zlen tb ->
  exists base', put_chars base (used + Zlen w) cs = Done base' /\ blit tb used (w ++ cs) = Done base'.
Proof.
  induction cs as [|c cs IH]; intros w base Hb Hle; cbn [put_chars].
  - exists base. by rewrite app_nil_r.
  - rewrite Zlen_cons in Hle. pose proof (Zlen_nonneg cs).
    destruct (wr_seq _ _ _ _ c Hb) as (l2 & -> & E2); [lia|]. cbn [obind].
    destruct (IH (w ++ [c]) l2 E2) as (base' & E & E'); [rewrite Zlen_app; change (Zlen [c]) with 1; lia|].
    exists base'. rewrite <- app_assoc in E'. split; [|done].
    rewrite Zlen_app in E. change (Zlen [c]) with 1 in E. by rewrite Z.add_assoc in E.
Qed.

(** Labels with a dot after each. *)
Definition label_text (esc : Z -> list Z) (l : list Z) : list Z := concat (map esc l).
Definition dotted (esc : Z -> list Z) (body : list (list Z)) : list Z :=
  concat (map (fun l => label_text esc l ++ [46]) body).

Section totext_theory.
Context (esc : Z -> list Z) (tb : list Z) (used avail : Z).
Context (Hused : 0 <= used) (Hfit : used + avail <= Zlen tb).
Context (Hesc : forall c, is_byte c -> bytes (esc c)).

Definition junk (base : list Z) : Prop := exists w, bytes w /\ blit tb used w = Done base.

Lemma label_text_bytes l : bytes l -> bytes (label_text esc l).
Proof.
  induction l as [|c l IH]; intros H; [constructor|]. apply bytes_cons in H as [Hc Hl].
  unfold label_text. cbn. apply bytes_app. auto.
Qed.

Lemma tt_chars_spec l : forall a q w base, bytes l -> bytes w -> blit tb used w = Done base ->
  Zlen w <= avail ->
  exists r, tt_chars esc (a ++ l ++ q) (Zlen a) base (used + Zlen w) (avail - Zlen w) (length l) = Done r /\
    if Zlen w + Zlen (label_text esc l) <=? avail
    then exists base', r = inl (base', used + Zlen (w ++ label_text esc l), avail - Zlen (w ++ label_text esc l)) /\
      blit tb used (w ++ label_text esc l) = Done base'
    else exists base', r = inr base' /\ junk base'.
Proof.
  induction l as [|c l IH]; intros a q w base Hl Hw Hb Hle; cbn [tt_chars length].
  { eexists. split; [reflexivity|]. unfold label_text. cbn. change (Zlen []) with 0.
    rewrite (proj2 (Z.leb_le _ _)) by lia. rewrite app_nil_r. eauto. }
  apply bytes_cons in Hl as [Hc Hl]. cbn [app]. rewrite rd_app_mid by done. cbn [obind].
  assert (El : label_text esc (c :: l) = esc c ++ label_text esc l) by done. rewrite El, Zlen_app.
  pose proof (Zlen_nonneg (label_text esc l)). pose proof (Hesc c Hc) as Hec.
  destruct (avail - Zlen w <? Zlen (esc c)) eqn:E; bool_prop.
  { eexists. split; [reflexivity|]. rewrite (proj2 (Z.leb_gt _ _)) by lia. exists base. split; [done|]. by exists w. }
  destruct (put_chars_spec tb used (esc c) w base Hb) as (base' & -> & Hb'); [lia|]. cbn [obind].
  destruct (IH (a ++ [c]) q (w ++ esc c) base' Hl) as (r & Er & Hr); [by apply bytes_app|done|rewrite Zlen_app; lia|].
  rewrite <- app_assoc in Er. cbn [app] in Er. rewrite !Zlen_app in Er. change (Zlen [c]) with 1 in Er.
  exists r. split.
  - rewrite <- Er. f_equal; lia.
  - rewrite <- app_assoc in Hr. rewrite Zlen_app, <- Z.add_assoc in Hr. done.
Qed.

(** Enough room: one octet more than the text of an absolute name. *)
Definition need (body : list (list Z)) (ab : bool) : Z := Zlen (dotted esc body) + Z.b2z ab.

Lemma dotted_cons l body : dotted esc (l :: body) = label_text esc l ++ [46] ++ dotted esc body.
Proof. unfold dotted. cbn. by rewrite <- app_assoc. Qed.

Lemma tt_labels_spec ab body : forall a w base, Forall good_label body -> bytes w -> blit tb used w = Done base ->
  Zlen w <= avail ->
  let ls := labels_of body ab in
  exists r, tt_labels esc (a ++ wire ls) (Zlen a) (Zlen (wire ls)) base (used + Zlen w) (avail - Zlen w) (length ls) = Done r /\
    if Zlen w + need body ab <=? avail
    then exists base', r = inl (base', used + Zlen (w ++ dotted esc body), avail - Zlen (w ++ dotted esc body), 0, ab) /\
      blit tb used (w ++ dotted esc body) = Done base'
    else exists base', junk base' /\
      (r = inr base' \/ exists tp nlen sr, nlen <> 0 /\ r = inl (base', tp, 0, nlen, sr)).
Proof.
  induction body as [|l body IH]; intros a w base Hg Hw Hb Hle.
  - unfold need. change (dotted esc []) with (@nil Z). rewrite app_nil_r. change (Zlen []) with 0.
    destruct ab; cbn [labels_of app length tt_labels Z.b2z].
    + change (wire [[]]) with [0]. change (Zlen [0]) with 1. cbn [Z.ltb Z.compare andb].
      destruct (0 <? avail - Zlen w) eqn:E; bool_prop.
      * rewrite rd_app_mid by done. cbn. rewrite (proj2 (Z.leb_le _ _)) by lia. eauto.
      * eexists. split; [reflexivity|]. rewrite (proj2 (Z.leb_gt _ _)) by lia.
        exists base. split; [by exists w|]. right. replace (avail - Zlen w) with 0 by lia. do 3 eexists. by split; [|reflexivity].
    + eexists. split; [reflexivity|]. change (Zlen (wire [])) with 0. rewrite (proj2 (Z.leb_le _ _)) by lia. eauto.
  - apply Forall_cons in Hg as [[Hlb Hll] Hg]. cbn [labels_of app length tt_labels].
    change (wire (l :: body ++ _)) with (wire (l :: labels_of body ab)).
    rewrite wire_cons, Zlen_cons, Zlen_app. pose proof (Zlen_nonneg (wire (labels_of body ab))).
    pose proof (Zlen_nonneg (dotted esc body)) as Hdn.
    assert (Hneed : need (l :: body) ab = Zlen (label_text esc l) + 1 + need body ab).
    { unfold need. rewrite dotted_cons, !Zlen_app. change (Zlen [46]) with 1. lia. }
    assert (Hn0 : 0 <= need body ab) by (unfold need; destruct ab; cbn; lia).
    pose proof (Zlen_nonneg (label_text esc l)).
    rewrite Hneed, (proj2 (Z.ltb_lt 0 _)) by lia. cbn [andb].
    destruct (0 <? avail - Zlen w) eqn:E; bool_prop.
    2:{ eexists. split; [reflexivity|]. rewrite (proj2 (Z.leb_gt _ _)) by lia. exists base. split; [by exists w|].
        right. replace (avail - Zlen w) with 0 by lia. do 3 eexists. split; [|reflexivity]. lia. }
    rewrite rd_app_mid by done. cbn [obind]. rewrite (proj2 (Z.eqb_neq _ _)) by lia.
    rewrite !require_true by lia. cbn [obind].
    destruct (tt_chars_spec l (a ++ [Zlen l]) (wire (labels_of body ab)) w base Hlb Hw Hb Hle) as (r & Er & Hr).
    rewrite <- app_assoc in Er. cbn [app] in Er. rewrite Zlen_app in Er. change (Zlen [Zlen l]) with 1 in Er.
    assert (Z.to_nat (Zlen l) = length l) as -> by (unfold Zlen; lia). rewrite Er. cbn [obind].
    destruct (Zlen w + Zlen (label_text esc l) <=? avail) eqn:E1; bool_prop; destruct Hr as (base1 & -> & Hb1).
    2:{ eexists. split; [reflexivity|]. rewrite (proj2 (Z.leb_gt _ _)) by lia. eauto. }
    assert (Hw1 : bytes (w ++ label_text esc l)) by (apply bytes_app; auto using label_text_bytes).
    rewrite !Zlen_app. destruct (avail - (Zlen w + Zlen (label_text esc l)) =? 0) eqn:E2; bool_prop.
    { eexists. split; [reflexivity|]. rewrite (proj2 (Z.leb_gt _ _)) by lia. exists base1. split; [by eexists|by left]. }
    destruct (wr_seq _ _ _ _ 46 Hb1) as (base2 & Ew & Hb2); [rewrite Zlen_app; lia|].
    rewrite Zlen_app in Ew. rewrite Ew. cbn [obind].
    destruct (IH (a ++ Zlen l :: l) ((w ++ label_text esc l) ++ [46]) base2 Hg) as (r & Er2 & Hr2);
      [apply bytes_app; split; [done|apply bytesb_spec; reflexivity]|done|rewrite !Zlen_app; change (Zlen [46]) with 1; lia|].
    exists r. split.
    + rewrite <- Er2. rewrite !Zlen_app, !Zlen_cons. change (Zlen []) with 0. rewrite <- app_assoc. cbn [app]. f_equal; lia.
    + rewrite dotted_cons. rewrite <- !app_assoc in Hr2. rewrite !Zlen_app in *.
      change (Zlen [46]) with 1 in *. rewrite <- !Z.add_assoc in *. done.
Qed.
End totext_theory.

(** Only a part [x] of what was written becomes part of the used region. *)
Lemma append_prefix t x y base : wf_buffer t -> bytes (x ++ y) -> blit (b_base t) (b_used t) (x ++ y) = Done base ->
  let t' := set_used (set_base t base) (b_used t + Zlen x) in
  isc_buffer_add (set_base t base) (Zlen x) = Done t' /\
  wf_buffer t' /\ b_length t' = b_length t /\ remaining t' = remaining t ++ x.
Proof.
  intros Ht Hb Hbl. destruct (append_spec t (x ++ y) base Ht Hb Hbl) as (Wf & Hrem & HL & _ & _).
  pose proof (length_remaining t Ht) as Hlr. pose proof Ht as [T1 T2 T3 T4 T5]. pose proof Wf as [W1 W2 W3 W4 W5].
  pose proof (Zlen_blit _ _ _ _ Hbl) as HLb. cbn in *. unfold b_length in *. cbn in *.
  rewrite Zlen_app in *. pose proof (Zlen_nonneg x). pose proof (Zlen_nonneg y).
  split_and!.
  - unfold isc_buffer_add. cbn. unfold b_length. cbn. rewrite u32_small by lia. by rewrite require_true by lia.
  - constructor; cbn; unfold b_length; cbn; try done; lia.
  - done.
  - unfold remaining in *. cbn in *. unfold sub in *.
    apply (f_equal (take (Z.to_nat (b_used t + Zlen x - b_current t)))) in Hrem.
    rewrite take_take, Nat.min_l in Hrem by lia. rewrite Hrem.
    rewrite app_assoc. apply take_app_length'. rewrite length_app. unfold Zlen in *. lia.
Qed.

Definition omits (options : Z) : bool := negb (Z.land options DNS_NAME_OMITFINALDOT =? 0).

(** The text of a name and the room [dns_name_totext2] asks for. *)
Definition name_text (options : Z) (body : list (list Z)) (ab : bool) : list Z :=
  match body with
  | [] => if ab then [46] else [64]
  | _ => let d := dotted (esc_char options) body in
         if ab && negb (omits options) then d else removelast d
  end.

Definition text_room (options : Z) (body : list (list Z)) (ab : bool) : Z :=
  match body with [] => 1 | _ => need (esc_char options) body ab end.

Lemma esc_bytes options c : is_byte c -> bytes (esc_char options c).
Proof.
  intros Hc. unfold esc_char. destruct (special options c); [|case_if].
  - apply bytes_cons. split; [unfold is_byte; lia|]. apply bytes_cons. by split; [|constructor].
  - apply bytes_cons. by split; [|constructor].
  - repeat (apply bytes_cons; split; [first [apply u8_range|unfold is_byte; lia]|]). constructor.
Qed.

Lemma dotted_last esc body : body <> [] -> exists d, dotted esc body = d ++ [46] /\ removelast (dotted esc body) = d.
Proof.
  intros H. destruct (exists_last H) as (b & l & ->).
  exists (dotted esc b ++ label_text esc l). assert (E : dotted esc (b ++ [l]) = (dotted esc b ++ label_text esc l) ++ [46]).
  { unfold dotted. rewrite map_app, concat_app. cbn. by rewrite app_nil_r, app_assoc. }
  split; [done|]. by rewrite E, removelast_last.
Qed.

Lemma dotted_bytes options body : Forall good_label body -> bytes (dotted (esc_char options) body).
Proof.
  induction 1 as [|l body [Hl _] _ IH]; [constructor|]. rewrite dotted_cons. apply bytes_app. split.
  - apply label_text_bytes; [apply esc_bytes|done].
  - apply bytes_cons. split; [unfold is_byte; lia|done].
Qed.

(** What is left of the target. *)
Definition totext_post (t : isc_buffer_t) (room : Z) (text : list Z) (r : isc_result_t) (t' : isc_buffer_t) : Prop :=
  wf_buffer t' /\ b_length t' = b_length t /\ b_current t' = b_current t /\
  if room <=? b_length t - b_used t
  then r = ISC_R_SUCCESS /\ b_used t' = b_used t + Zlen text /\ remaining t' = remaining t ++ text
  else r = ISC_R_NOSPACE /\ b_used t' = b_used t.

Lemma totext_failed t room text base : wf_buffer t -> junk (b_base t) (b_used t) base ->
  b_length t - b_used t < room -> totext_post t room text ISC_R_NOSPACE (set_base t base).
Proof.
  intros Ht (w & Hw & Hb) Hlt. destruct (blit_failed t base w Ht Hw Hb) as [Hwf _].
  pose proof (Zlen_blit _ _ _ _ Hb). split_and!; [done|done|done|].
  rewrite (proj2 (Z.leb_gt _ _)) by lia. done.
Qed.

(** One character: [@] or [.]. *)
Lemma totext_one t c : wf_buffer t -> is_byte c ->
  exists r t', (let* r := totext_single t (b_length t - b_used t) c in
                totext_end None t (b_length t - b_used t) r) = Done (r, t') /\ totext_post t 1 [c] r t'.
Proof.
  intros Ht Hc. pose proof Ht as [T1 T2 T3 T4 T5]. unfold totext_single.
  destruct (b_length t - b_used t =? 0) eqn:E; bool_prop; cbn [obind].
  - do 2 eexists. split; [reflexivity|]. apply totext_failed; [done| |lia]. exists []. split; [constructor|].
    apply blit_nil. unfold b_length in *. lia.
  - assert (Hb : exists base, blit (b_base t) (b_used t) [c] = Done base).
    { eexists. apply blit_ok; [lia|]. change (Zlen [c]) with 1. unfold b_length in *. lia. }
    destruct Hb as [base Hb]. rewrite wr_blit, Hb. cbn [obind totext_end negb andb orb Z.eqb].
    destruct (append_prefix t [c] [] base Ht) as (Ha & Hwf & HL & Hrem); cbn [app]; [|done|].
    { apply bytes_cons. by split; [|constructor]. }
    change (Zlen [c]) with 1 in *. replace (u32 _) with 1 by (rewrite u32_small by lia; lia).
    rewrite Ha. do 2 eexists. split; [reflexivity|]. split_and!; [done|done|done|].
    rewrite (proj2 (Z.leb_le _ _)) by lia. done.
Qed.

(** Several labels: the dot after the last one is dropped when asked. *)
Lemma totext_many t body ab esc omit : wf_buffer t -> Forall good_label body -> body <> [] ->
  (forall c, is_byte c -> bytes (esc c)) -> bytes (dotted esc body) ->
  let d := dotted esc body in
  exists r t', (let* r := tt_labels esc (wire (labels_of body ab)) 0 (Zlen (wire (labels_of body ab)))
                  (b_base t) (b_used t) (b_length t - b_used t) (length (labels_of body ab)) in
                totext_end None t (b_length t - b_used t)
                  (match r with
                   | inl (base, _, trem, nlen, saw_root) => inl (base, trem, nlen, saw_root, omit)
                   | inr base => inr base
                   end)) = Done (r, t') /\
    totext_post t (need esc body ab) (if ab && negb omit then d else removelast d) r t'.
Proof.
  intros Ht Hg Hne Hesc Hdb d. pose proof Ht as [T1 T2 T3 T4 T5].
  destruct (tt_labels_spec esc (b_base t) (b_used t) (b_length t - b_used t)) with
    (ab := ab) (body := body) (a := @nil Z) (w := @nil Z) (base := b_base t) as (r & Er & Hr); try done;
    try (unfold b_length in *; lia); try constructor; try (apply blit_nil; unfold b_length in *; lia);
    try (change (Zlen []) with 0; lia).
  cbn [app] in Er, Hr. change (Zlen []) with 0 in *. rewrite Z.add_0_r, Z.sub_0_r in Er. rewrite Z.add_0_l in Hr.
  fold d in Hr. rewrite Er. cbn [obind].
  destruct (need esc body ab <=? b_length t - b_used t) eqn:En; bool_prop.
  - destruct Hr as (base & -> & Hb). cbn [totext_end negb andb Z.eqb].
    destruct (dotted_last esc body Hne) as (d0 & Ed & Erl). fold d in Ed, Erl.
    assert (Hd0 : Zlen d = Zlen d0 + 1) by (rewrite Ed, Zlen_app; done). pose proof (Zlen_nonneg d0).
    unfold need in En. fold d in En.
    assert (Htext : exists x y, d = x ++ y /\ (if ab && negb omit then d else removelast d) = x /\
      u32 (b_length t - b_used t - (if negb ab || omit then u32 (b_length t - b_used t - Zlen d + 1) else b_length t - b_used t - Zlen d)) = Zlen x).
    { destruct (ab && negb omit) eqn:Ea.
      - exists d, []. rewrite app_nil_r. destruct ab, omit; try done. cbn. split_and!; try done.
        rewrite u32_small; lia.
      - exists d0, [46]. split_and!; [done|done|]. destruct ab, omit; try done; cbn in En |- *;
          rewrite (u32_small (_ + 1)), u32_small by lia; lia. }
    destruct Htext as (x & y & Exy & -> & ->). fold d in Hdb. rewrite Exy in *.
    destruct (append_prefix t x y base Ht Hdb Hb) as (-> & Hwf & HL & Hrem). cbn [obind].
    do 2 eexists. split; [reflexivity|]. split_and!; [done|done|done|].
    rewrite (proj2 (Z.leb_le _ _)); [done|]. unfold need. fold d. rewrite Exy. done.
  - destruct Hr as (base & Hj & [->|(tp & nlen & sr & Hn & ->)]); cbn [totext_end].
    + do 2 eexists. split; [reflexivity|]. by apply totext_failed.
    + rewrite (proj2 (Z.eqb_neq nlen 0)) by done. cbn [negb andb Z.eqb].
      do 2 eexists. split; [reflexivity|]. by apply totext_failed.
Qed.

Lemma totext2_spec n body ab options t : wf_name n body ab -> wf_buffer t ->
  exists r t', dns_name_totext2 ISC_R_SUCCESS None n options t = Done (r, t') /\
    totext_post t (text_room options body ab) (name_text options body ab) r t'.
Proof.
  intros [D G L N _ _] Ht. pose proof Ht as [T1 T2 T3 T4 T5].
  unfold dns_name_totext2, isc_buffer_availablelength, n_length. cbn [bool_decide].
  change (bool_decide (ISC_R_SUCCESS = ISC_R_SUCCESS)) with true. cbn [negb].
  rewrite u32_small by lia. rewrite D, N. destruct body as [|l body].
  - destruct ab; cbn [labels_of app].
    + change (wire [[]]) with [0]. change (Zlen [0]) with 1. cbn [Zlen]. cbn.
      apply (totext_one t 46 Ht). unfold is_byte. lia.
    + cbn. apply (totext_one t 64 Ht). unfold is_byte. lia.
  - assert (Hl : 3 <= Zlen (wire (labels_of (l :: body) ab)) \/ Zlen (wire (labels_of (l :: body) ab)) = 2).
    { unfold labels_of. cbn [app]. rewrite Zlen_wire_cons. apply Forall_cons in G as [[_ ?] _].
      pose proof (Zlen_nonneg (wire (body ++ if ab then [[]] else []))). lia. }
    rewrite (proj2 (Z.eqb_neq (Zlen (wire _)) 1)) by lia. cbn [andb obind].
    rewrite (proj2 (Z.eqb_neq (Zlen (labels_of (l :: body) ab)) 0))
      by (unfold labels_of; cbn [app]; rewrite Zlen_cons; pose proof (Zlen_nonneg (body ++ if ab then [[]] else [])); lia).
    cbn [andb]. assert (Z.to_nat (Zlen (labels_of (l :: body) ab)) = length (labels_of (l :: body) ab)) as ->
      by (unfold Zlen; lia).
    destruct (totext_many t (l :: body) ab (esc_char options) (omits options) Ht G ltac:(done) (esc_bytes options)
      (dotted_bytes options _ G)) as (r & t' & E & Hp).
    exists r, t'. split; [|exact Hp]. rewrite <- E. unfold omits.
    by destruct (tt_labels _ _ _ _ _ _ _ _) as [[[[[[? ?] ?] ?] ?]|?]| | |].
Qed.

(** Every octet becomes at most four characters. *)
Lemma esc_length options c : 1 <= Zlen (esc_char options c) <= 4.
Proof. unfold esc_char. destruct (special options c); [split; done|case_if; split; done]. Qed.

Lemma dotted_length options body : Forall good_label body ->
  Zlen (dotted (esc_char options) body) <= 4 * Zlen (wire body).
Proof.
  induction 1 as [|l body _ _ IH]; [done|]. rewrite dotted_cons, !Zlen_app, Zlen_wire_cons.
  change (Zlen [46]) with 1.
  assert (H : Zlen (label_text (esc_char options) l) <= 4 * Zlen l).
  { induction l as [|c l IHl]; [done|]. unfold label_text in *. cbn [map concat].
    rewrite Zlen_app, Zlen_cons. pose proof (esc_length options c). lia. }
  lia.
Qed.

Lemma text_room_bound options n body ab : wf_name n body ab -> text_room options body ab <= 1020.
Proof.
  intros [D G L _ _ _]. unfold text_room, need. destruct body as [|l body]; [lia|].
  pose proof (dotted_length options _ G). unfold n_length in L. rewrite D in L. unfold labels_of in L.
  rewrite wire_app, Zlen_app in L. destruct ab; cbn [Z.b2z]; [|change (Zlen (wire [])) with 0 in L; lia].
  change (Zlen (wire [[]])) with 1 in L. lia.
Qed.
