(* ===== verification/TextTheory.v ===== *)
(** * Text to names and back: theory of [dns_name_fromtext] and
      [dns_name_totext2]

    The state machine of [dns_name_fromtext] keeps the labels read so far in
    wire form in the target ([at_label] between labels, [in_label] inside one).
    From this: no assertion fails and no access is out of bounds on any text,
    and the text of a name is read back as the name. *)

From S2P Require Import Prelude Buffer Name NameTheory FromWire Compress NameText.

(** ** Writing one cell of what was written before *)

Lemma wr_mid {A} (l l1 a b : list A) x y i : blit l i (a ++ x :: b) = Done l1 ->
  exists l2, wr l1 (i + Zlen a) y = Done l2 /\ blit l i (a ++ y :: b) = Done l2.
Proof.
  intros (H1 & H2 & ->)%blit_Done. rewrite Zlen_app, Zlen_cons in H2. pose proof (Zlen_nonneg a). pose proof (Zlen_nonneg b).
  eexists. split; [apply wr_ok; len|]. rewrite blit_ok by (rewrite ?Zlen_app, ?Zlen_cons; lia). f_equal.
  rewrite !Zlen_app, !Zlen_cons.
  rewrite <- !app_assoc. cbn [app]. rewrite insert_app_r_alt by len. f_equal.
  rewrite insert_app_r_alt by len. f_equal.
  replace (Z.to_nat (i + Zlen a) - length (take (Z.to_nat i) l) - length a)%nat with 0%nat by len. done.
Qed.

(** A cell that is skipped keeps its value. *)
Lemma blit_skip (l l1 w : list Z) i : bytes l -> blit l i w = Done l1 -> i + Zlen w < Zlen l ->
  exists x, is_byte x /\ blit l i (w ++ [x]) = Done l1.
Proof.
  intros Hl Hb Hlt. pose proof (Zlen_blit _ _ _ _ Hb) as HL. pose proof (blit_Done _ _ _ _ Hb) as (H1 & H2 & E).
  pose proof (Zlen_nonneg w).
  destruct (rd_ok l1 (i + Zlen w)) as [x Hx]; [lia|].
  destruct (wr_seq _ _ _ _ x Hb Hlt) as (l2 & Ew & E2). exists x. split.
  - apply rd_Done in Hx as [_ Hx]. rewrite E in Hx. rewrite app_assoc in Hx.
    rewrite lookup_app_r in Hx by len.
    by eapply Forall_lookup_1 in Hx; [|apply bytes_drop, Hl].
  - rewrite E2. f_equal. apply wr_Done in Ew as [_ ->]. apply list_insert_id.
    by apply rd_Done in Hx as [_ Hx].
Qed.

Lemma rd_maptolower v : is_byte v -> rd maptolower v = Done (tolower v).
Proof.
  intros Hv. destruct (rd_ok maptolower v) as [x Hx]; [exact Hv|]. rewrite Hx. f_equal.
  apply rd_Done in Hx as [_ Hx]. unfold tolower. by rewrite (nth_lookup_Some _ _ 0 _ Hx).
Qed.

(** ** The state machine *)

Section fromtext.
Context (src : list Z) (downcase : bool) (tb : list Z) (used room : Z).
Context (Hsrc : bytes src) (Htb : bytes tb) (Hused : 0 <= used).
Context (Hroom : 0 <= room <= 255) (Hfit : used + room <= Zlen tb).

(** What both kinds of state share: [w] octets of the target are used. *)
Record ft_common (s : ft) (ls0 : list (list Z)) (w : Z) : Prop := {
  fc_good : Forall good_label ls0;
  fc_np : t_np s = used + w;
  fc_nused : t_nused s = w;
  fc_nrem : t_nrem s = room - w;
  fc_nrem0 : 0 <= t_nrem s;
  fc_labels : t_labels s = Zlen ls0;
  fc_offs : offs 0 (ls0 ++ [[]]) `prefix_of` t_offs s;
  fc_table : 128 <= Zlen (t_offs s);
  fc_done : t_done s = false
}.

(** Between labels. *)
Definition at_label (s : ft) (ls0 : list (list Z)) : Prop :=
  ft_common s ls0 (Zlen (wire ls0)) /\ blit tb used (wire ls0) = Done (t_base s).

(** Inside a label whose first characters are [q]. *)
Definition in_label (s : ft) (ls0 : list (list Z)) (q : list Z) : Prop :=
  ft_common s ls0 (Zlen (wire ls0) + 1 + Zlen q) /\ bytes q /\ Zlen q <= 63 /\ t_count s = Zlen q /\
  t_label s = used + Zlen (wire ls0) /\
  exists x, is_byte x /\ blit tb used (wire ls0 ++ x :: q) = Done (t_base s).

(** The text position is not touched by the helpers. *)
Definition same_text (s s' : ft) : Prop :=
  t_pos s' = t_pos s /\ t_len s' = t_len s /\ t_used s' = t_used s.

Lemma in_label_goto s ls0 q st : in_label s ls0 q -> in_label (ft_goto s st) ls0 q.
Proof. intros ([] & ? & ? & ? & ? & ?). by split_and!. Qed.

Lemma put_step s ls0 q c : in_label s ls0 q -> Zlen q < 63 -> 0 < t_nrem s -> is_byte c ->
  exists s', ft_put (ft_set_count s (t_count s + 1)) c = Done s' /\ in_label s' ls0 (q ++ [c]) /\
    same_text s s' /\ t_state s' = t_state s.
Proof.
  intros (C & Hq & Hl & Hc & Hlab & x & Hx & Hb) Hlt Hrem Hcb. destruct C as [C1 C2 C3 C4 C5 C6 C7 C8 C9].
  unfold ft_put. cbn [t_base t_np ft_set_count]. rewrite (u8_small c) by done.
  pose proof (Zlen_nonneg (wire ls0)). pose proof (Zlen_nonneg q).
  destruct (wr_seq _ _ _ _ c Hb) as (base & Ew & Hb').
  { rewrite Zlen_app, Zlen_cons. lia. }
  rewrite Zlen_app, Zlen_cons in Ew. replace (t_np s) with (used + (Zlen (wire ls0) + (1 + Zlen q))) by lia.
  rewrite Ew. cbn [obind]. rewrite <- app_assoc in Hb'. cbn [app] in Hb'.
  eexists. split; [reflexivity|]. unfold in_label. rewrite Zlen_app. change (Zlen [c]) with 1.
  split_and!; cbn; try done; try lia.
  - constructor; cbn; try done; lia.
  - apply bytes_app. split; [done|]. apply bytes_cons. by split; [|constructor].
  - eauto.
Qed.

(** The state after the first lines of [case ft_start]. *)
Lemma start_step s ls0 : at_label s ls0 -> 0 < t_nrem s ->
  in_label (mkft (t_state s) (t_pos s) (t_len s) (t_used s) (t_np s) 0 (t_value s) (t_digits s)
             (t_labels s) (t_nused s + 1) (t_nrem s - 1) (t_done s) (t_np s + 1) (t_base s) (t_offs s)) ls0 [].
Proof.
  intros (C & Hb) Hrem. destruct C as [C1 C2 C3 C4 C5 C6 C7 C8 C9].
  pose proof (Zlen_nonneg (wire ls0)).
  destruct (blit_skip _ _ _ _ Htb Hb) as (x & Hx & Hb'); [lia|].
  unfold in_label. change (Zlen []) with 0. split_and!; cbn; try done; try lia.
  - constructor; cbn; try done; lia.
  - constructor.
  - eauto.
Qed.

(** The end of a label. *)
Lemma end_step s ls0 q : in_label s ls0 q -> 1 <= Zlen q -> t_nused s <= 254 \/ 0 < t_nrem s ->
  exists s', ft_end_label s = Done s' /\ at_label s' (ls0 ++ [q]) /\ same_text s s' /\
    t_state s' = t_state s /\ t_nrem s' = t_nrem s.
Proof.
  intros (C & Hq & Hl & Hc & Hlab & x & Hx & Hb) Hq1 Hroom'. destruct C as [C1 C2 C3 C4 C5 C6 C7 C8 C9].
  unfold ft_end_label. rewrite Hc, Hlab, u8_small by lia.
  destruct (wr_mid _ _ _ _ _ (Zlen q) _ Hb) as (base & -> & Hb'). cbn [obind].
  assert (Hg : Forall good_label (ls0 ++ [q])).
  { apply Forall_app. split; [done|]. constructor; [|done]. split; [done|lia]. }
  assert (Hw : Zlen (wire (ls0 ++ [q])) = Zlen (wire ls0) + 1 + Zlen q) by (rewrite wire_snoc, Zlen_app, Zlen_cons; lia).
  pose proof (wire_count _ Hg) as Hcnt. rewrite Zlen_app in Hcnt. change (Zlen [q]) with 1 in Hcnt.
  pose proof (Zlen_nonneg ls0). pose proof (Zlen_nonneg (wire ls0)).
  rewrite C6, require_true by lia. cbn [obind]. rewrite C3, u8_small by lia.
  destruct (wr (t_offs s) (Zlen ls0 + 1) (Zlen (wire ls0) + 1 + Zlen q)) as [t'| | |] eqn:Et;
    [|rewrite wr_ok in Et by lia; done..].
  assert (Hpre : offs 0 (ls0 ++ [q]) `prefix_of` t_offs s) by (rewrite offs_app in *; exact C7).
  destruct (table_write (t_offs s) t' (ls0 ++ [q]) [] (Zlen (wire ls0) + 1 + Zlen q) Hpre) as [Hp Ht]; [rewrite Zlen_app; exact Et|lia|].
  cbn [obind]. eexists. split; [reflexivity|]. split_and!; try done. split; [|cbn; by rewrite wire_snoc].
  rewrite Hw. constructor; cbn; try done; try lia. rewrite Zlen_app. done.
Qed.

(** *** Results of the cases *)

(** The name is complete: the root label was written. *)
Definition finished (s : ft) (ls0 : list (list Z)) : Prop :=
  t_done s = true /\ Forall good_label ls0 /\
  blit tb used (wire (labels_of ls0 true)) = Done (t_base s) /\
  t_nused s = Zlen (wire (labels_of ls0 true)) /\ t_nused s <= room /\
  t_labels s = Zlen (labels_of ls0 true) /\
  offs 0 (labels_of ls0 true) `prefix_of` t_offs s /\ 128 <= Zlen (t_offs s).

Lemma finish_step s ls0 : at_label s ls0 -> 0 < t_nrem s ->
  exists s', ft_put s 0 = Done s' /\ finished (ft_set_done s') ls0 /\ same_text s (ft_set_done s').
Proof.
  intros ([C1 C2 C3 C4 C5 C6 C7 C8 C9] & Hb) Hrem. unfold ft_put.
  destruct (wr_seq _ _ _ _ 0 Hb) as (base & Ew & Hb'); [lia|]. rewrite C2. change (u8 0) with 0. rewrite Ew.
  cbn [obind]. eexists. split; [reflexivity|]. split; [|done].
  assert (Hw : wire (labels_of ls0 true) = wire ls0 ++ [0]) by (rewrite labels_of_true, wire_snoc; done).
  assert (Hlw : Zlen (wire (labels_of ls0 true)) = Zlen (wire ls0) + 1) by (rewrite Hw, Zlen_app; done).
  split_and!; cbn; try done; try lia.
  - by rewrite Hw.
  - rewrite labels_of_true, Zlen_app. change (Zlen [[]]) with 1. lia.
Qed.

Definition is_fold (c c' : Z) : Prop := fold_char downcase c = Done c' /\ is_byte c'.

Lemma ord_char s ls0 q c c' : in_label s ls0 q -> 0 < t_nrem s -> c <> 46 -> c <> 92 -> is_fold c c' ->
  if 63 <=? Zlen q then ft_case_ordinary downcase s c = ft_return DNS_R_LABELTOOLONG s
  else exists s', ft_case_ordinary downcase s c = ft_continue s' /\ in_label s' ls0 (q ++ [c']) /\
    same_text s s' /\ t_state s' = t_state s.
Proof.
  intros Hin Hrem H1 H2 [Hf Hc]. unfold ft_case_ordinary.
  rewrite (proj2 (Z.eqb_neq c 46)), (proj2 (Z.eqb_neq c 92)) by done.
  pose proof Hin as (_ & _ & _ & -> & _). destruct (63 <=? Zlen q) eqn:E; bool_prop; [done|].
  rewrite Hf. cbn [obind]. pose proof Hin as (_ & _ & _ & Hcnt & _).
  destruct (put_step s ls0 q c' Hin E Hrem Hc) as (s' & Ep & Hs'). rewrite Hcnt in Ep. rewrite Ep. cbn [obind]. eauto.
Qed.

Lemma ord_dot s ls0 q : in_label s ls0 q -> 0 < t_nrem s -> 1 <= Zlen q ->
  exists s', ft_case_ordinary downcase s 46 = ft_continue s' /\ same_text s s' /\ t_state s' = ft_start /\
    if t_len s =? 0 then finished s' (ls0 ++ [q]) else at_label s' (ls0 ++ [q]).
Proof.
  intros Hin Hrem Hq. unfold ft_case_ordinary. cbn [Z.eqb Pos.eqb].
  pose proof Hin as (_ & _ & _ & -> & _). rewrite (proj2 (Z.eqb_neq (Zlen q) 0)) by lia.
  destruct (end_step s ls0 q Hin Hq) as (s1 & -> & Hat & (T1 & T2 & T3) & _ & Hr); [lia|]. cbn [obind].
  rewrite T2. destruct (t_len s =? 0).
  - destruct (finish_step s1 _ Hat) as (s2 & -> & Hfin & (U1 & U2 & U3)); [lia|]. cbn [obind].
    eexists. split; [reflexivity|]. split_and!; [|done|exact Hfin]. split_and!; cbn in *; congruence.
  - cbn [obind]. eexists. split; [reflexivity|]. split_and!; [by split_and!|done|].
    destruct Hat as ([] & Hb). split; [by constructor|done].
Qed.

Lemma esc_plain s ls0 q c c' : in_label s ls0 q -> 0 < t_nrem s -> isdigit c = false -> is_fold c c' ->
  if 63 <=? Zlen q then ft_case_escape downcase s c = ft_return DNS_R_LABELTOOLONG s
  else exists s', ft_case_escape downcase s c = ft_continue s' /\ in_label s' ls0 (q ++ [c']) /\
    same_text s s' /\ t_state s' = ft_ordinary.
Proof.
  intros Hin Hrem Hd [Hf Hc]. unfold ft_case_escape. rewrite Hd. cbn [negb].
  pose proof Hin as (_ & _ & _ & Hcnt & _). rewrite Hcnt. destruct (63 <=? Zlen q) eqn:E; bool_prop; [done|].
  rewrite Hf. cbn [obind]. destruct (put_step s ls0 q c' Hin E Hrem Hc) as (s' & Ep & Hs' & Ht & _).
  rewrite Hcnt in Ep. rewrite Ep. cbn [obind]. eexists. split; [reflexivity|]. split_and!; [by apply in_label_goto|exact Ht|done].
Qed.

(** A decimal digit. *)
Lemma digit_step s ls0 q c : in_label s ls0 q -> 0 < t_nrem s -> 0 <= t_value s <= 99 -> 0 <= t_digits s <= 2 ->
  isdigit c = true ->
  let v := t_value s * 10 + (c - 48) in
  if t_digits s =? 2 then
    if (255 <? v) || (63 <=? Zlen q)
    then exists r s', ft_case_escdecimal downcase s c = ft_return r s' /\ r <> ISC_R_SUCCESS /\
           t_base s' = t_base s /\ t_offs s' = t_offs s
    else exists s', ft_case_escdecimal downcase s c = ft_continue s' /\ same_text s s' /\ t_state s' = ft_ordinary /\
           in_label s' ls0 (q ++ [if downcase then tolower v else v])
  else exists s', ft_case_escdecimal downcase s c = ft_continue s' /\ same_text s s' /\ t_state s' = t_state s /\
           in_label s' ls0 q /\ t_value s' = v /\ t_digits s' = t_digits s + 1.
Proof.
  intros Hin Hrem Hv Hd Hc v. unfold ft_case_escdecimal. rewrite Hc. cbn [negb].
  unfold isdigit in Hc. unfold digitvalue. rewrite Hc. bool_prop.
  rewrite (u32_small (c - 48)), (u32_small (t_value s * 10)), u32_small by lia. fold v.
  destruct (t_digits s =? 2) eqn:E2; bool_prop.
  - rewrite E2. cbn [Z.add Pos.add Pos.succ Z.eqb Pos.eqb Pos.add_carry].
    destruct (255 <? v) eqn:E3; cbn [orb]; [by do 2 eexists|].
    pose proof Hin as (_ & _ & _ & Hcnt & _). cbn [t_count]. rewrite Hcnt. destruct (63 <=? Zlen q) eqn:E4; [by do 2 eexists|].
    bool_prop. set (s0 := mkft _ _ _ _ _ _ _ _ _ _ _ _ _ _ _).
    assert (Hin0 : in_label s0 ls0 q) by (destruct Hin as ([] & ? & ? & ? & ? & ?); by split_and!).
    assert (Hb : is_byte v) by (unfold is_byte; lia).
    assert (Hfv : (if downcase then rd maptolower v else Done v) = Done (if downcase then tolower v else v)).
    { destruct downcase; [by apply rd_maptolower|done]. }
    rewrite Hfv. cbn [obind].
    destruct (put_step s0 ls0 q (if downcase then tolower v else v) Hin0 E4 Hrem) as (s' & Ep & Hs' & Ht & _).
    { destruct downcase; [by apply tolower_byte|done]. }
    change (t_count s0) with (Zlen q) in Ep. rewrite Ep. cbn [obind].
    eexists. split; [reflexivity|]. split_and!; [exact Ht|done|by apply in_label_goto].
  - rewrite (proj2 (Z.eqb_neq (t_digits s + 1) 3)) by lia. eexists. split; [reflexivity|].
    split_and!; try done. destruct Hin as ([] & ? & ? & ? & ? & ?). by split_and!.
Qed.

(** *** The invariant of the loop *)

Context (cur0 fin : Z) (Hcur0 : 0 <= cur0) (Hfin : fin <= Zlen src).
Context (Hascii : downcase = true -> Forall (fun c => c < 128) src).

Definition text_ok (s : ft) : Prop :=
  cur0 <= t_pos s /\ 0 <= t_len s /\ t_pos s + t_len s = fin /\ t_used s = t_pos s - cur0.

Inductive ft_inv (s : ft) : Prop :=
| fi_init : t_state s = ft_init -> at_label s [] -> ft_inv s
| fi_start ls0 : t_state s = ft_start -> at_label s ls0 -> ft_inv s
| fi_ordinary ls0 q : t_state s = ft_ordinary -> in_label s ls0 q -> 1 <= Zlen q -> ft_inv s
| fi_initialescape ls0 : t_state s = ft_initialescape -> in_label s ls0 [] -> ft_inv s
| fi_escape ls0 q : t_state s = ft_escape -> in_label s ls0 q -> ft_inv s
| fi_escdecimal ls0 q : t_state s = ft_escdecimal -> in_label s ls0 q ->
    (t_digits s = 1 /\ 0 <= t_value s <= 9) \/ (t_digits s = 2 /\ 0 <= t_value s <= 99) -> ft_inv s
| fi_at : t_state s = ft_at -> at_label s [] -> t_len s = 0 -> ft_inv s
| fi_done ls0 : finished s ls0 -> t_len s = 0 -> ft_inv s.

Definition ft_failed (s : ft) : Prop := junk tb used (t_base s) /\ 128 <= Zlen (t_offs s).

(** What one case must establish from the state [s] it starts with. *)
Definition case_ok (s : ft) (r : ft_result) : Prop :=
  match r with
  | Done (inl s') => ft_inv s' /\ same_text s s'
  | Done (inr (res, s')) => res <> ISC_R_SUCCESS /\ ft_failed s'
  | _ => False
  end.

Lemma wire_bytes ls : Forall good_label ls -> bytes (wire ls).
Proof. intros H. pose proof (bytes_wire ls false H) as B. unfold labels_of in B. by rewrite app_nil_r in B. Qed.

Lemma failed_at s ls0 : at_label s ls0 -> ft_failed s.
Proof. intros ([] & Hb). split; [|done]. exists (wire ls0). split; [by apply wire_bytes|done]. Qed.

Lemma failed_in s ls0 q : in_label s ls0 q -> ft_failed s.
Proof.
  intros ([] & Hq & _ & _ & _ & x & Hx & Hb). split; [|done]. exists (wire ls0 ++ x :: q). split; [|done].
  apply bytes_app. split; [by apply wire_bytes|]. by apply bytes_cons.
Qed.

Lemma fold_ok c : is_byte c -> (downcase = true -> c < 128) -> exists c', is_fold c c'.
Proof.
  intros Hc Ha. unfold is_fold, fold_char. destruct downcase; [|by exists c].
  exists (tolower c). split; [|by apply tolower_byte].
  unfold schar. rewrite (proj2 (Z.ltb_lt c 128)) by auto. by apply rd_maptolower.
Qed.

Lemma same_text_trans s1 s2 s3 : same_text s1 s2 -> same_text s2 s3 -> same_text s1 s3.
Proof. intros (?&?&?) (?&?&?). split_and!; congruence. Qed.

Lemma snoc_len (q : list Z) c : 1 <= Zlen (q ++ [c]).
Proof. rewrite Zlen_app. change (Zlen [c]) with 1. pose proof (Zlen_nonneg q). lia. Qed.

Lemma ordinary_ok s ls0 q c c' : in_label s ls0 q -> 0 < t_nrem s -> 0 <= t_len s ->
  t_state s = ft_ordinary -> is_fold c c' -> (c = 92 -> 1 <= Zlen q) ->
  case_ok s (ft_case_ordinary downcase s c).
Proof.
  intros Hin Hrem Hlen Hst Hf Hbs. pose proof Hin as (_ & _ & _ & Hcnt & _).
  destruct (Z.eq_dec c 46) as [->|H46]; [destruct (Z.eq_dec (Zlen q) 0) as [E0|]|
    destruct (Z.eq_dec c 92) as [->|H92]].
  - unfold ft_case_ordinary. cbn. rewrite Hcnt, E0. cbn. split; [done|]. by eapply failed_in.
  - destruct (ord_dot s ls0 q Hin Hrem) as (s' & -> & Ht & Hs & H); [pose proof (Zlen_nonneg q); lia|].
    cbn. split; [|done]. destruct (t_len s =? 0) eqn:E; bool_prop.
    + apply (fi_done _ (ls0 ++ [q])); [done|]. destruct Ht as (_ & -> & _). done.
    + by apply (fi_start _ (ls0 ++ [q])).
  - cbn. split; [|done]. apply (fi_escape _ ls0 q); [done|by apply in_label_goto].
  - pose proof (ord_char s ls0 q c c' Hin Hrem H46 H92 Hf) as H. destruct (63 <=? Zlen q).
    + rewrite H. cbn. split; [done|]. by eapply failed_in.
    + destruct H as (s' & -> & Hin' & Ht & Hs). cbn. split; [|done].
      apply (fi_ordinary _ ls0 (q ++ [c'])); [congruence|done|apply snoc_len].
Qed.

Lemma escdecimal_ok s ls0 q c : in_label s ls0 q -> 0 < t_nrem s -> t_state s = ft_escdecimal ->
  (t_digits s = 0 /\ t_value s = 0) \/ (t_digits s = 1 /\ 0 <= t_value s <= 9) \/
  (t_digits s = 2 /\ 0 <= t_value s <= 99) ->
  case_ok s (ft_case_escdecimal downcase s c).
Proof.
  intros Hin Hrem Hst Hdv. destruct (isdigit c) eqn:Hd.
  - pose proof (digit_step s ls0 q c Hin Hrem ltac:(lia) ltac:(lia) Hd) as H. cbn zeta in H.
    unfold isdigit in Hd. bool_prop. destruct (t_digits s =? 2) eqn:E2; bool_prop.
    + destruct (_ || _).
      * destruct H as (r & s' & -> & Hr & Hb & Ho). cbn. split; [done|].
        pose proof (failed_in _ _ _ Hin) as [? ?]. split; congruence.
      * destruct H as (s' & -> & Ht & Hs & Hin'). cbn. split; [|done].
        eapply fi_ordinary; [done|exact Hin'|apply snoc_len].
    + destruct H as (s' & -> & Ht & Hs & Hin' & Hv & Hdg). cbn. split; [|done].
      apply (fi_escdecimal _ ls0 q); [congruence|done|]. lia.
  - unfold ft_case_escdecimal. rewrite Hd. cbn. split; [done|]. by eapply failed_in.
Qed.

Lemma escape_ok s ls0 q c c' : in_label s ls0 q -> 0 < t_nrem s -> is_fold c c' ->
  case_ok s (ft_case_escape downcase s c).
Proof.
  intros Hin Hrem Hf. destruct (isdigit c) eqn:Hd.
  - unfold ft_case_escape. rewrite Hd. cbn [negb]. set (s0 := mkft _ _ _ _ _ _ _ _ _ _ _ _ _ _ _).
    assert (Hin0 : in_label s0 ls0 q) by (destruct Hin as ([] & ? & ? & ? & ? & ?); by split_and!).
    exact (escdecimal_ok s0 ls0 q c Hin0 Hrem eq_refl ltac:(by left)).
  - pose proof (esc_plain s ls0 q c c' Hin Hrem Hd Hf) as H. destruct (63 <=? Zlen q).
    + rewrite H. cbn. split; [done|]. by eapply failed_in.
    + destruct H as (s' & -> & Hin' & Ht & Hs). cbn. split; [|done].
      eapply fi_ordinary; [done|exact Hin'|apply snoc_len].
Qed.

Lemma start_ok s ls0 c c' : at_label s ls0 -> 0 < t_nrem s -> 0 <= t_len s -> is_fold c c' ->
  case_ok s (ft_case_start downcase s c).
Proof.
  intros Hat Hrem Hlen Hf. pose proof (start_step s ls0 Hat Hrem) as Hin.
  unfold ft_case_start. set (s0 := mkft _ _ _ _ _ _ _ _ _ _ _ _ _ _ _) in *.
  destruct (c =? 92) eqn:E; bool_prop.
  - cbn. split; [|done]. apply (fi_initialescape _ ls0); [done|]. by apply in_label_goto.
  - destruct (t_nrem (ft_goto s0 ft_ordinary) =? 0) eqn:E0; bool_prop.
    + cbn. split; [done|]. by eapply failed_in, in_label_goto.
    + pose proof (in_label_goto _ _ _ ft_ordinary Hin) as Hin'.
      pose proof Hin' as ([? ? ? ? ? ? ? ? ?] & _).
      exact (ordinary_ok (ft_goto s0 ft_ordinary) ls0 [] c c' Hin' ltac:(lia) Hlen eq_refl Hf ltac:(lia)).
Qed.

Lemma init_ok s c c' : at_label s [] -> 0 < t_nrem s -> 0 <= t_len s -> is_fold c c' ->
  case_ok s (ft_case_init downcase s c).
Proof.
  intros Hat Hrem Hlen Hf. unfold ft_case_init. destruct (c =? 46) eqn:E; bool_prop.
  - destruct (t_len s =? 0) eqn:E0; bool_prop; cbn [negb].
    + destruct (finish_step s [] Hat Hrem) as (s' & -> & Hfi & Ht). cbn [obind]. cbn. split; [|done].
      apply (fi_done _ []); [done|]. destruct Ht as (_ & -> & _). done.
    + cbn. split; [done|]. by eapply failed_at.
  - destruct ((c =? 64) && (t_len s =? 0)) eqn:E1; bool_prop.
    + cbn. split; [|done]. apply fi_at; [done| |done]. destruct Hat as ([] & ?). by split.
    + by apply (start_ok s [] c c').
Qed.

Lemma inv_failed s : ft_inv s -> ft_failed s.
Proof.
  destruct 1 as [? H|? ? H|? ? ? H|? ? H|? ? ? H|? ? ? H|? H|ls0 (_ & Hg & Hb & _ & _ & _ & _ & Ht) _];
    try (by eapply failed_at); try (by eapply failed_in).
  split; [|done]. eexists. split; [|exact Hb]. by apply bytes_wire.
Qed.

(** One iteration. *)
Lemma body_ok s : ft_inv s -> text_ok s ->
  match ft_body src downcase s with
  | Done (inl s') => (ft_inv s' /\ text_ok s') /\ 0 <= t_len s' < t_len s
  | Done (inr (res, s')) =>
      if bool_decide (res = ISC_R_SUCCESS)
      then s' = s /\ (t_done s = true \/ t_nrem s <= 0 \/ t_len s = 0) else ft_failed s'
  | _ => False
  end.
Proof.
  intros Hinv (Hp & Hl & Hfi & Hu). unfold ft_body.
  destruct ((0 <? t_nrem s) && (0 <? t_len s) && negb (t_done s)) eqn:E.
  2:{ cbn. split; [done|]. rewrite !andb_false_iff in E.
      destruct E as [[?|?]|?]; [right; left; lia|right; right; lia|left; by apply negb_false_iff]. }
  bool_prop. destruct (rd_ok src (t_pos s)) as [c Hc]; [lia|]. rewrite Hc. cbn [obind].
  pose proof (rd_bytes _ _ _ Hsrc Hc) as Hcb.
  assert (Hca : downcase = true -> c < 128).
  { intros Hd. apply rd_Done in Hc as [_ Hc]. pose proof (Hascii Hd) as Ha. exact (Forall_lookup_1 _ _ _ _ Ha Hc). }
  destruct (fold_ok c Hcb Hca) as [c' Hf].
  set (s0 := mkft _ _ _ _ _ _ _ _ _ _ _ _ _ _ _).
  assert (Hat0 : forall ls0, at_label s ls0 -> at_label s0 ls0) by (intros ? ([] & ?); split; [by constructor|done]).
  assert (Hin0 : forall ls0 q, in_label s ls0 q -> in_label s0 ls0 q)
    by (intros ? ? ([] & ? & ? & ? & ? & ?); by split_and!).
  assert (Hgo : forall r, case_ok s0 r -> match r with
     | Done (inl s') => (ft_inv s' /\ text_ok s') /\ 0 <= t_len s' < t_len s
     | Done (inr (res, s')) => if bool_decide (res = ISC_R_SUCCESS)
        then s' = s /\ (t_done s = true \/ t_nrem s <= 0 \/ t_len s = 0) else ft_failed s'
     | _ => False end).
  { intros [[s'|[res s']]| | |]; cbn; try done.
    - intros [Hi (T1 & T2 & T3)]. cbn in T1, T2, T3. split; [split; [done|]|lia]. unfold text_ok. lia.
    - intros [Hr Hfail]. by rewrite bool_decide_eq_false_2. }
  apply Hgo. assert (Hl0 : 0 <= t_len s0) by (cbn; lia). change (t_state s0) with (t_state s).
  destruct Hinv as [Hst Hx|ls0 Hst Hx|ls0 q Hst Hx Hq|ls0 Hst Hx|ls0 q Hst Hx|ls0 q Hst Hx Hdv|Hst Hx Hz|ls0 (Hd & _) _];
    try rewrite Hst; try lia; try congruence.
  - apply (init_ok s0 c c'); auto.
  - apply (start_ok s0 ls0 c c'); auto.
  - apply (ordinary_ok s0 ls0 q c c'); auto.
  - destruct (c =? 91).
    + cbn. split; [done|]. eapply failed_in. by apply Hin0.
    + pose proof (escape_ok (ft_goto s0 ft_escape) ls0 [] c c' (in_label_goto _ _ _ _ (Hin0 _ _ Hx)) ltac:(done) Hf) as Hok.
      unfold case_ok in *. by destruct (ft_case_escape _ _ _) as [[?|[? ?]]| | |].
  - apply (escape_ok s0 ls0 q c c'); auto.
  - apply (escdecimal_ok s0 ls0 q c); auto.
Qed.

(** The loop ends and leaves a state the end of the function can use. *)
Lemma ft_loop_ok s fuel : ft_inv s -> text_ok s -> t_len s < Z.of_nat fuel ->
  exists res s', loop fuel (ft_body src downcase) s = Done (res, s') /\
    if bool_decide (res = ISC_R_SUCCESS)
    then ft_inv s' /\ text_ok s' /\ (t_done s' = true \/ t_nrem s' <= 0 \/ t_len s' = 0)
    else ft_failed s'.
Proof.
  intros Hi Ht Hf.
  destruct (loop_rule (ft_body src downcase) (fun s => ft_inv s /\ text_ok s) t_len
    (fun r => let '(res, s') := r in if bool_decide (res = ISC_R_SUCCESS)
       then ft_inv s' /\ text_ok s' /\ (t_done s' = true \/ t_nrem s' <= 0 \/ t_len s' = 0)
       else ft_failed s')) with (fuel := fuel) (s := s) as ([res s'] & E & H).
  - intros x [Hx Htx]. pose proof (body_ok x Hx Htx) as H.
    destruct (ft_body src downcase x) as [[?|[res s']]| | |]; try done.
    destruct (bool_decide (res = ISC_R_SUCCESS)); [|done]. destruct H as [-> H]. done.
  - done.
  - destruct Ht as (_ & ? & _). lia.
  - eauto.
Qed.

(** *** The origin *)

Lemma fold_char_ok c : is_byte c -> (downcase = true -> c < 128) ->
  fold_char downcase c = Done (if downcase then tolower c else c).
Proof.
  intros Hc Ha. unfold fold_char. destruct downcase; [|done]. unfold schar.
  rewrite (proj2 (Z.ltb_lt c 128)) by auto. by apply rd_maptolower.
Qed.

Lemma origin_chars_spec l : forall a b w base, bytes l -> (downcase = true -> Forall (fun c => c < 128) l) ->
  blit tb used w = Done base -> used + Zlen w + Zlen l <= Zlen tb ->
  exists base', origin_chars downcase (a ++ l ++ b) (Zlen a) base (used + Zlen w) (length l) = Done base' /\
    blit tb used (w ++ fold_label downcase l) = Done base'.
Proof.
  induction l as [|c l IH]; intros a b w base Hl Ha Hb Hle; cbn [origin_chars length].
  { exists base. split; [done|]. unfold fold_label, lower_label. destruct downcase; by rewrite app_nil_r. }
  apply bytes_cons in Hl as [Hc Hl]. rewrite Zlen_cons in Hle. pose proof (Zlen_nonneg l).
  cbn [app]. rewrite rd_app_mid by done. cbn [obind].
  rewrite fold_char_ok; [|done|by intros Hd; specialize (Ha Hd); inversion Ha]. cbn [obind].
  set (c' := if downcase then tolower c else c).
  assert (Hc' : is_byte c') by (unfold c'; destruct downcase; [by apply tolower_byte|done]).
  rewrite (u8_small c') by done.
  destruct (wr_seq _ _ _ _ c' Hb) as (base1 & -> & Hb1); [lia|]. cbn [obind].
  destruct (IH (a ++ [c]) b (w ++ [c']) base1 Hl) as (base' & E & Hb'); [|done|rewrite Zlen_app; change (Zlen [c']) with 1; lia|].
  { intros Hd. specialize (Ha Hd). by inversion Ha. }
  exists base'. split.
  - rewrite <- E. rewrite <- app_assoc, !Zlen_app. cbn [app]. change (Zlen [c]) with 1. change (Zlen [c']) with 1.
    f_equal; lia.
  - rewrite <- Hb'. f_equal. rewrite <- app_assoc. f_equal. unfold fold_label, lower_label, c'. by destruct downcase.
Qed.

Lemma labels_of_split bo abo pre l rest : labels_of bo abo = pre ++ l :: rest -> Forall good_label bo ->
  Forall good_label pre /\ (rest <> [] -> Forall good_label (pre ++ [l])).
Proof.
  unfold labels_of. intros E Hg. destruct abo.
  - destruct (exists_last (l := l :: rest)) as (r & x & Er); [done|]. rewrite Er, app_assoc in E.
    apply app_inj_tail in E as [-> <-]. apply Forall_app in Hg as [H1 H2]. split; [done|].
    intros Hne. destruct r as [|y r]; cbn in Er; [injection Er as -> ->; done|].
    injection Er as <- ->. inversion H2; subst. apply Forall_app. split; [done|]. by constructor.
  - rewrite app_nil_r in E. subst bo. apply Forall_app in Hg as [H1 H2]. inversion H2; subst. split; [done|].
    intros _. apply Forall_app. split; [done|]. by constructor.
Qed.

(** The labels of the result after the first labels of the origin. *)
Definition with_origin (ls pre : list (list Z)) : list (list Z) := ls ++ map (fold_label downcase) pre.

Lemma with_origin_len ls pre : Zlen (wire (with_origin ls pre)) = Zlen (wire ls) + Zlen (wire pre).
Proof. unfold with_origin. by rewrite wire_app, Zlen_app, wire_fold_len. Qed.

Lemma with_origin_snoc ls pre l : with_origin ls (pre ++ [l]) = with_origin ls pre ++ [fold_label downcase l].
Proof. unfold with_origin. by rewrite map_app, app_assoc. Qed.

Lemma with_origin_good ls pre : Forall good_label ls -> Forall good_label pre -> Forall good_label (with_origin ls pre).
Proof.
  intros H1 H2. apply Forall_app. split; [done|]. apply Forall_map.
  eapply Forall_impl; [exact H2|]. intros. by apply fold_label_good.
Qed.

(** What the offsets table holds before the labels [rest]. *)
Definition origin_table (ls pre rest : list (list Z)) (tbl : list Z) : Prop :=
  128 <= Zlen tbl /\
  offs 0 (with_origin ls pre ++ match rest with [] => [] | _ => [[]] end) `prefix_of` tbl.

Lemma origin_offs ls pre l rest tbl : Forall good_label ls -> (rest <> [] -> Forall good_label (pre ++ [l])) ->
  origin_table ls pre (l :: rest) tbl -> Zlen (wire (with_origin ls (pre ++ [l]))) + Zlen (wire rest) <= room ->
  exists tbl', (if 0 <? Zlen (wire rest) then
                  REQUIRE Zlen (with_origin ls pre) + 1 <=? 127 ;;
                  wr tbl (Zlen (with_origin ls pre) + 1) (u8 (Zlen (wire (with_origin ls (pre ++ [l])))))
                else Done tbl) = Done tbl' /\ origin_table ls (pre ++ [l]) rest tbl'.
Proof.
  intros Hls Hr [Ht Hp] Hlen. pose proof (with_origin_snoc ls pre l) as Es.
  assert (Hp1 : offs 0 (with_origin ls (pre ++ [l])) `prefix_of` tbl) by (rewrite Es, offs_app in *; exact Hp).
  destruct rest as [|l2 rest].
  { change (Zlen (wire [])) with 0. cbn [Z.ltb Z.compare]. exists tbl. split; [done|]. split; [done|]. by rewrite app_nil_r. }
  rewrite Zlen_wire_cons in *. pose proof (Zlen_nonneg l2). pose proof (Zlen_nonneg (wire rest)).
  rewrite (proj2 (Z.ltb_lt 0 _)) by lia.
  pose proof (with_origin_good ls (pre ++ [l]) Hls (Hr ltac:(done))) as Hg. pose proof (wire_count _ Hg) as Hc.
  assert (Hz : Zlen (with_origin ls (pre ++ [l])) = Zlen (with_origin ls pre) + 1) by (rewrite Es, Zlen_app; done).
  pose proof (Zlen_nonneg (with_origin ls pre)).
  rewrite require_true by lia. cbn [obind]. rewrite u8_small by lia. rewrite <- Hz.
  destruct (wr tbl _ _) as [tbl'| | |] eqn:Et; [|rewrite wr_ok in Et by lia; done..].
  destruct (table_write tbl tbl' _ [] _ Hp1 Et eq_refl) as [Hp2 Ht2]. exists tbl'. split; [done|]. split; [lia|done].
Qed.

Lemma origin_step bo abo ls pre l rest base tbl :
  (downcase = true -> Forall (fun c => c < 128) (wire (labels_of bo abo))) ->
  Forall good_label bo -> Forall good_label ls -> Zlen (wire ls) + Zlen (wire (labels_of bo abo)) <= room ->
  labels_of bo abo = pre ++ l :: rest ->
  let d := with_origin ls pre in let d1 := with_origin ls (pre ++ [l]) in
  blit tb used (wire d) = Done base -> origin_table ls pre (l :: rest) tbl ->
  exists base' tbl',
    origin_body downcase (wire (labels_of bo abo))
      (Zlen (wire pre), Zlen (wire (l :: rest)), Zlen d, Zlen (wire d), used + Zlen (wire d), base, tbl) =
    Done (inl (Zlen (wire (pre ++ [l])), Zlen (wire rest), Zlen d1, Zlen (wire d1), used + Zlen (wire d1), base', tbl')) /\
    blit tb used (wire d1) = Done base' /\ origin_table ls (pre ++ [l]) rest tbl'.
Proof.
  intros Ha Hg Hls Hlen E d d1 Hb Htab.
  destruct (labels_of_split _ _ _ _ _ E Hg) as [_ Hrest].
  assert (Hl63 : Zlen l <= 63).
  { pose proof (labels_short bo abo Hg) as Hsh. rewrite E in Hsh. apply Forall_app in Hsh as [_ Hsh]. by inversion Hsh. }
  assert (Hod : wire (labels_of bo abo) = (wire pre ++ [Zlen l]) ++ l ++ wire rest)
    by (rewrite E, wire_app, wire_cons, <- app_assoc; done).
  assert (Hlb : bytes l).
  { pose proof (bytes_wire bo abo Hg) as B. rewrite Hod in B. apply bytes_app in B as [_ B]. by apply bytes_app in B as [B _]. }
  assert (Hla : downcase = true -> Forall (fun c => c < 128) l).
  { intros Hd. specialize (Ha Hd). rewrite Hod in Ha. apply Forall_app in Ha as [_ Ha]. by apply Forall_app in Ha as [? _]. }
  rewrite Hod in *. rewrite !Zlen_app in Hlen. change (Zlen [Zlen l]) with 1 in Hlen.
  pose proof (with_origin_len ls pre) as Hdl. fold d in Hdl.
  pose proof (with_origin_len ls (pre ++ [l])) as Hdl1. fold d1 in Hdl1.
  rewrite wire_snoc, Zlen_app, Zlen_cons in Hdl1.
  pose proof (Zlen_nonneg l). pose proof (Zlen_nonneg (wire rest)). pose proof (Zlen_nonneg (wire ls)). pose proof (Zlen_nonneg (wire pre)).
  unfold origin_body. rewrite Zlen_wire_cons, (proj2 (Z.ltb_lt 0 _)) by lia.
  rewrite <- (app_assoc (wire pre)). cbn [app]. rewrite rd_app_mid by done. cbn [obind].
  rewrite require_true by lia. cbn [obind].
  destruct (wr_seq _ _ _ _ (Zlen l) Hb) as (base1 & -> & Hb1); [lia|]. cbn [obind].
  rewrite u32_small by lia. replace (1 + Zlen l + Zlen (wire rest) - (Zlen l + 1)) with (Zlen (wire rest)) by lia.
  destruct (origin_chars_spec l (wire pre ++ [Zlen l]) (wire rest) (wire d ++ [Zlen l]) base1 Hlb Hla Hb1)
    as (base2 & Ec & Hb2); [rewrite Zlen_app; change (Zlen [Zlen l]) with 1; lia|].
  rewrite !Zlen_app in Ec. change (Zlen [Zlen l]) with 1 in Ec. rewrite <- app_assoc in Ec. cbn [app] in Ec.
  assert (Z.to_nat (Zlen l) = length l) as -> by (unfold Zlen; lia).
  rewrite <- (Z.add_assoc used), Ec. cbn [obind].
  destruct (origin_offs ls pre l rest tbl Hls Hrest Htab) as (tbl' & Eo & Htab'); [fold d1; lia|].
  fold d d1 in Eo. replace (Zlen (wire d) + (Zlen l + 1)) with (Zlen (wire d1)) by lia. rewrite Eo. cbn [obind].
  exists base2, tbl'. split_and!; [|unfold d1; rewrite with_origin_snoc, wire_snoc, fold_label_len; fold d; by rewrite <- app_assoc in Hb2|done].
  rewrite wire_snoc, Zlen_app, Zlen_cons. unfold d1 at 2. rewrite with_origin_snoc, Zlen_app. fold d. change (Zlen [_]) with 1.
  replace (Zlen (wire pre) + 1 + Zlen l) with (Zlen (wire pre) + (1 + Zlen l)) by lia.
  replace (used + (Zlen (wire d) + 1) + Zlen l) with (used + Zlen (wire d1)) by lia. done.
Qed.

Lemma origin_loop bo abo ls :
  (downcase = true -> Forall (fun c => c < 128) (wire (labels_of bo abo))) ->
  Forall good_label bo -> Forall good_label ls -> Zlen (wire ls) + Zlen (wire (labels_of bo abo)) <= room ->
  let all := with_origin ls (labels_of bo abo) in
  forall rest pre base tbl fuel,
  labels_of bo abo = pre ++ rest -> (length rest < fuel)%nat ->
  let d := with_origin ls pre in
  blit tb used (wire d) = Done base -> origin_table ls pre rest tbl ->
  exists base' tbl',
    loop fuel (origin_body downcase (wire (labels_of bo abo)))
      (Zlen (wire pre), Zlen (wire rest), Zlen d, Zlen (wire d), used + Zlen (wire d), base, tbl) =
      Done (Zlen all, Zlen (wire all), used + Zlen (wire all), base', tbl') /\
    blit tb used (wire all) = Done base' /\ offs 0 all `prefix_of` tbl' /\ 128 <= Zlen tbl'.
Proof.
  intros Ha Hg Hls Hlen all. induction rest as [|l rest IH]; intros pre base tbl fuel E Hf d Hb Htab;
    (destruct fuel as [|fuel]; [lia|]); cbn [loop].
  - unfold origin_body at 1. change (Zlen (wire [])) with 0. cbn [Z.ltb Z.compare]. rewrite app_nil_r in E.
    destruct Htab as [Ht Hp]. rewrite app_nil_r in Hp.
    assert (d = all) as Ed by (unfold d, all; by rewrite E). fold d in Hp. rewrite Ed in *. eauto 10.
  - destruct (origin_step bo abo ls pre l rest base tbl Ha Hg Hls Hlen E Hb Htab) as (base1 & tbl1 & Es & Hb1 & Htab1).
    fold d in Es. rewrite Es.
    apply IH; [by rewrite <- app_assoc|cbn in Hf; lia|done|done].
Qed.

(** *** The end of the function *)

(** The final variables describe the name with labels [ls]. *)
Definition final (s : ft) (ls : list (list Z)) (ab : bool) : Prop :=
  Forall good_label ls /\ blit tb used (wire (labels_of ls ab)) = Done (t_base s) /\
  t_nused s = Zlen (wire (labels_of ls ab)) /\ t_nused s <= 255 /\ t_labels s = Zlen (labels_of ls ab) /\
  offs 0 (labels_of ls ab) `prefix_of` t_offs s /\ 128 <= Zlen (t_offs s) /\ t_used s = fin - cur0.

Definition origin_ok (origin : option dns_name_t) (bo : list (list Z)) (abo : bool) : Prop :=
  match origin with
  | None => bo = [] /\ abo = false
  | Some o => wf_name o bo abo /\ (downcase = true -> Forall (fun c => c < 128) (ndata o))
  end.

(** From a position between labels on. *)
Lemma relative_end s ls origin bo abo : at_label s ls -> t_used s = fin - cur0 -> origin_ok origin bo abo ->
  exists r s', ft_relative downcase s origin = Done (r, s', bool_decide (r = ISC_R_SUCCESS) && abo) /\
    (match origin with None => True | Some o => n_length o <= t_nrem s end -> r = ISC_R_SUCCESS) /\
    if bool_decide (r = ISC_R_SUCCESS) then final s' (with_origin ls bo) abo else ft_failed s'.
Proof.
  intros Hat Hu Ho. unfold ft_relative. pose proof Hat as ([C1 C2 C3 C4 C5 C6 C7 C8 C9] & Hb).
  assert (Hp : offs 0 ls `prefix_of` t_offs s) by (rewrite offs_app in C7; etransitivity; [apply prefix_app_r; reflexivity|exact C7]).
  destruct origin as [o|].
  2:{ destruct Ho as [-> ->]. exists ISC_R_SUCCESS, s. split; [done|]. split; [done|]. cbn. unfold with_origin, final, labels_of. cbn.
      rewrite !app_nil_r. split_and!; try done; lia. }
  destruct Ho as [Wo Ha]. pose proof (wf_attr_abs _ _ _ Wo) as Habs. destruct Wo as [D G L N _ _].
  unfold n_length in *. rewrite D in *. destruct (t_nrem s <? _) eqn:E; bool_prop.
  { exists ISC_R_NOSPACE, s. split; [done|]. split; [lia|]. cbn. by eapply failed_at. }
  assert (Htab : origin_table ls [] (labels_of bo abo) (t_offs s)).
  { split; [done|]. unfold with_origin. cbn [map]. rewrite app_nil_r. destruct (labels_of bo abo); [|done]. by rewrite app_nil_r. }
  assert (Hb0 : blit tb used (wire (with_origin ls [])) = Done (t_base s)) by (unfold with_origin; cbn [map]; by rewrite app_nil_r).
  destruct (origin_loop bo abo ls Ha G C1 ltac:(lia) (labels_of bo abo) [] (t_base s) (t_offs s)
    (S (length (wire (labels_of bo abo)))) eq_refl) as (base' & tbl' & El & Hb' & Hp' & Ht'); [|done|done|].
  { assert (Hc : Zlen (labels_of bo abo) <= Zlen (wire (labels_of bo abo))); [|unfold Zlen in Hc; lia].
    generalize (labels_of bo abo). intros x. induction x as [|y x IHx]; [done|]. rewrite Zlen_wire_cons, Zlen_cons.
    pose proof (Zlen_nonneg y). lia. }
  unfold with_origin in El at 1 2 3. cbn [map] in El. rewrite app_nil_r in El.
  unfold append_origin. rewrite C6, C3, C2. change (Zlen (wire [])) with 0 in El. rewrite El. cbn [obind].
  rewrite Habs. exists ISC_R_SUCCESS. eexists. split; [reflexivity|]. split; [done|]. cbn. unfold final.
  assert (Eall : with_origin ls (labels_of bo abo) = labels_of (with_origin ls bo) abo).
  { unfold with_origin, labels_of. rewrite map_app, app_assoc. f_equal. destruct abo; [|done]. cbn. f_equal.
    unfold fold_label, lower_label. by destruct downcase. }
  rewrite <- Eall. split_and!; try done; [by apply with_origin_good|].
  cbn. rewrite with_origin_len. lia.
Qed.

Lemma finish_ok s origin bo abo : ft_inv s -> text_ok s ->
  (t_done s = true \/ t_nrem s <= 0 \/ t_len s = 0) -> origin_ok origin bo abo ->
  exists r s' ab, ft_finish downcase s origin = Done (r, s', ab) /\
    if bool_decide (r = ISC_R_SUCCESS) then exists ls, final s' ls ab else ft_failed s' /\ ab = false.
Proof.
  intros Hinv (Hp & Hl & Hfi & Hu) Hex Ho. pose proof (inv_failed s Hinv) as Hfail. unfold ft_finish.
  destruct (t_done s) eqn:Ed.
  { assert (H : exists ls0, finished s ls0 /\ t_len s = 0).
    { destruct Hinv as [? ([] & _)|? ? ([] & _)|? ? ? ([] & _)|? ? ([] & _)|? ? ? ([] & _)|? ? ? ([] & _)|? ([] & _)|ls0 H Hz];
        try congruence. eauto. }
    destruct H as (ls0 & (_ & Hg & Hb & Hn & Hle & Hlab & Hof & Ht) & Hz).
    exists ISC_R_SUCCESS, s, true. split; [done|]. cbn. exists ls0. split_and!; try done; lia. }
  destruct (t_nrem s =? 0) eqn:Er; bool_prop; [by exists ISC_R_NOSPACE, s, false|].
  assert (Hrem : 0 <= t_nrem s).
  { destruct Hinv as [? ([] & _)|? ? ([] & _)|? ? ? ([] & _)|? ? ([] & _)|? ? ? ([] & _)|? ? ? ([] & _)|? ([] & _)|? [? _] _];
      done || congruence. }
  assert (Hz : t_len s = 0) by (destruct Hex as [?|[?|?]]; [done|lia|done]). rewrite Hz. cbn [Z.eqb require obind].
  destruct Hinv as [Hst H|ls0 Hst H|ls0 q Hst H Hq|ls0 Hst H|ls0 q Hst H|ls0 q Hst H Hdv|Hst H _|ls0 (Hd & _) _];
    try congruence; rewrite Hst; try (by exists ISC_R_UNEXPECTEDEND, s, false).
  - cbn. pose proof H as (_ & _ & _ & Hcnt & _). rewrite Hcnt, (proj2 (Z.eqb_neq (Zlen q) 0)) by lia. cbn [negb require obind].
    destruct (end_step s ls0 q H Hq) as (s1 & -> & Hat & (T1 & T2 & T3) & _ & _); [lia|]. cbn [obind].
    destruct (relative_end s1 (ls0 ++ [q]) origin bo abo Hat ltac:(lia) Ho) as (r & s' & E & _ & Hr).
    exists r, s', (bool_decide (r = ISC_R_SUCCESS) && abo). split; [exact E|]. destruct (bool_decide _); eauto.
  - cbn. destruct (relative_end s [] origin bo abo H ltac:(lia) Ho) as (r & s' & E & _ & Hr).
    exists r, s', (bool_decide (r = ISC_R_SUCCESS) && abo). split; [exact E|]. destruct (bool_decide _); eauto.
Qed.
End fromtext.

(** ** Reading what [dns_name_totext2] wrote *)

(** The three forms of a character in text. *)
Definition digits3 (c d1 d2 d3 : Z) : Prop :=
  isdigit d1 = true /\ isdigit d2 = true /\ isdigit d3 = true /\
  ((d1 - 48) * 10 + (d2 - 48)) * 10 + (d3 - 48) = c.

Inductive char_text (c : Z) : list Z -> Prop :=
| ct_raw : c <> 46 -> c <> 92 -> c <> 64 -> char_text c [c]
| ct_escaped : isdigit c = false -> c <> 91 -> char_text c [92; c]
| ct_decimal d1 d2 d3 : digits3 c d1 d2 d3 -> char_text c [92; d1; d2; d3].

Definition masterfile (options : Z) : Prop := Z.land options DNS_NAME_MASTERFILE <> 0.

Lemma decimal_digits c : is_byte c ->
  digits3 c (u8 (0x30 + (c / 100) mod 10)) (u8 (0x30 + (c / 10) mod 10)) (u8 (0x30 + c mod 10)).
Proof.
  intros Hc.
  pose (P := fun c => isdigit (u8 (0x30 + (c / 100) mod 10)) && isdigit (u8 (0x30 + (c / 10) mod 10)) &&
    isdigit (u8 (0x30 + c mod 10)) &&
    (((u8 (0x30 + (c / 100) mod 10) - 48) * 10 + (u8 (0x30 + (c / 10) mod 10) - 48)) * 10 +
       (u8 (0x30 + c mod 10) - 48) =? c)).
  assert (H : P c = true) by (apply byte_forall; [vm_compute; reflexivity|done]).
  unfold P in H. bool_prop. by split_and!.
Qed.

Lemma esc_char_text options c : masterfile options -> is_byte c -> char_text c (esc_char options c).
Proof.
  intros Hm Hc. unfold esc_char. destruct (special options c) eqn:Es.
  - unfold special in Es. constructor.
    + unfold isdigit. destruct ((c =? 64) || (c =? 36)) eqn:E;
        [apply orb_true_iff in E as [E|E]; bool_prop; subst; done|]. repeat apply orb_true_iff in Es as [Es|Es];
        bool_prop; subst; done.
    + intros ->. done.
  - case_if.
    + unfold special in Es. destruct ((c =? 64) || (c =? 36)) eqn:E2; bool_prop; [done|].
      by constructor.
    + constructor. by apply decimal_digits.
Qed.

Section read.
Context (src : list Z) (tb : list Z) (used room : Z).
Context (Hsrc : bytes src) (Htb : bytes tb) (Hused : 0 <= used).
Context (Hroom : 0 <= room <= 255) (Hfit : used + room <= Zlen tb).

Notation body := (ft_body src false).
Notation at_label := (at_label tb used room).
Notation in_label := (in_label tb used room).
Notation finished := (finished tb used room).

(** The text from the current position to the end. *)
Definition reads (s : ft) (txt : list Z) : Prop :=
  0 <= t_pos s /\ t_len s = Zlen txt /\ sub src (t_pos s) (t_len s) = txt.

(** [k] iterations lead from [s] to [s']. *)
Definition runs (k : nat) (s s' : ft) : Prop :=
  t_len s' = t_len s - Z.of_nat k /\ t_used s' = t_used s + Z.of_nat k /\
  forall fuel, loop (k + fuel) body s = loop fuel body s'.

Lemma runs_trans k1 k2 s1 s2 s3 : runs k1 s1 s2 -> runs k2 s2 s3 -> runs (k1 + k2) s1 s3.
Proof.
  intros (L1 & U1 & R1) (L2 & U2 & R2). split_and!; [lia|lia|]. intros fuel.
  by rewrite <- Nat.add_assoc, R1, R2.
Qed.

(** The state after a character is read. *)
Definition advance (s : ft) : ft :=
  mkft (t_state s) (t_pos s + 1) (t_len s - 1) (t_used s + 1) (t_label s) (t_count s) (t_value s)
    (t_digits s) (t_labels s) (t_nused s) (t_nrem s) (t_done s) (t_np s) (t_base s) (t_offs s).

Definition dispatch (s : ft) (c : Z) : ft_result :=
  match t_state s with
  | ft_init => ft_case_init false s c
  | ft_start => ft_case_start false s c
  | ft_ordinary => ft_case_ordinary false s c
  | ft_initialescape => if c =? 91 then ft_return DNS_R_BADLABELTYPE s
                        else ft_case_escape false (ft_goto s ft_escape) c
  | ft_escape => ft_case_escape false s c
  | ft_escdecimal => ft_case_escdecimal false s c
  | ft_at => Abort
  end.

Lemma reads_advance s c txt : reads s (c :: txt) -> reads (advance s) txt.
Proof.
  intros (Hp & Hl & Hs). rewrite Zlen_cons in Hl. pose proof (Zlen_nonneg txt). split_and!; cbn; [lia|lia|].
  unfold sub in *. replace (Z.to_nat (t_len s)) with (S (Z.to_nat (t_len s - 1))) in Hs by lia.
  replace (Z.to_nat (t_pos s + 1)) with (Z.to_nat (t_pos s) + 1)%nat by lia. rewrite <- drop_drop.
  destruct (drop (Z.to_nat (t_pos s)) src) as [|x d]; [done|]. cbn in Hs |- *. injection Hs as _ Hs.
  by rewrite drop_0.
Qed.

Lemma run_one s c txt s' : reads s (c :: txt) -> 0 < t_nrem s -> t_done s = false ->
  dispatch (advance s) c = ft_continue s' -> same_text (advance s) s' -> runs 1 s s' /\ reads s' txt.
Proof.
  intros Hr Hrem Hd Hdis (T1 & T2 & T3). pose proof (reads_advance _ _ _ Hr) as Hr'.
  destruct Hr as (Hp & Hl & Hs). rewrite Zlen_cons in Hl. pose proof (Zlen_nonneg txt).
  cbn in T1, T2, T3. split.
  - split_and!; [lia|lia|]. intros fuel. cbn [Nat.add loop].
    assert (Hc : rd src (t_pos s) = Done c).
    { apply rd_Done. split; [done|]. rewrite <- (Nat.add_0_r (Z.to_nat (t_pos s))), <- lookup_drop.
      rewrite <- (lookup_take_lt _ (Z.to_nat (t_len s))) by lia. unfold sub in Hs. by rewrite Hs. }
    assert (G : (0 <? t_nrem s) && (0 <? t_len s) && negb (t_done s) = true) by (rewrite Hd, !andb_true_iff; lia).
    assert (E : ft_body src false s = dispatch (advance s) c)
      by (unfold ft_body; rewrite G, Hc; reflexivity).
    by rewrite E, Hdis.
  - destruct Hr' as (R1 & R2 & R3). cbn in R1, R2, R3. unfold reads. rewrite T1, T2. by split_and!.
Qed.

Lemma at_advance s ls0 : at_label s ls0 -> at_label (advance s) ls0.
Proof. intros ([] & ?). split; [by constructor|done]. Qed.

Lemma in_advance s ls0 q : in_label s ls0 q -> in_label (advance s) ls0 q.
Proof. intros ([] & ? & ? & ? & ? & ?). by split_and!. Qed.

Lemma nrem_in s ls0 q : in_label s ls0 q -> t_nrem s = room - (Zlen (wire ls0) + 1 + Zlen q) /\ t_done s = false.
Proof. intros ([] & _). done. Qed.

Lemma nrem_at s ls0 : at_label s ls0 -> t_nrem s = room - Zlen (wire ls0) /\ t_done s = false.
Proof. intros ([] & _). done. Qed.

Lemma fold_same c : is_byte c -> is_fold false c c.
Proof. done. Qed.

(** After a backslash. *)
Lemma run_escaped s ls0 q c txt : (t_state s = ft_escape \/ t_state s = ft_initialescape) ->
  in_label s ls0 q -> Zlen q < 63 -> 0 < t_nrem s -> is_byte c -> isdigit c = false -> c <> 91 ->
  reads s (c :: txt) ->
  exists s', runs 1 s s' /\ in_label s' ls0 (q ++ [c]) /\ t_state s' = ft_ordinary /\ reads s' txt.
Proof.
  intros Hst Hin Hq Hrem Hc Hd Hb Hr. destruct (nrem_in _ _ _ Hin) as [_ Hdn].
  pose proof (in_advance _ _ _ Hin) as Ha.
  assert (Hcase : exists s', dispatch (advance s) c = ft_continue s' /\ in_label s' ls0 (q ++ [c]) /\
            same_text (advance s) s' /\ t_state s' = ft_ordinary).
  { unfold dispatch. change (t_state (advance s)) with (t_state s). destruct Hst as [-> | ->].
    - pose proof (esc_plain false tb used room Hfit (advance s) ls0 q c c Ha Hrem Hd (fold_same c Hc)) as H.
      by rewrite (proj2 (Z.leb_gt _ _) Hq) in H.
    - rewrite (proj2 (Z.eqb_neq c 91)) by done.
      pose proof (esc_plain false tb used room Hfit (ft_goto (advance s) ft_escape) ls0 q c c
        (in_label_goto _ _ _ _ _ _ _ Ha) Hrem Hd (fold_same c Hc)) as H.
      by rewrite (proj2 (Z.leb_gt _ _) Hq) in H. }
  destruct Hcase as (s' & E & Hin' & Ht & Hs'). destruct (run_one s c txt s' Hr Hrem Hdn E Ht) as [R Hr']. eauto 10.
Qed.

(** The digits after the first one of [\DDD]. *)
Lemma run_digit s ls0 q d txt : t_state s = ft_escdecimal -> in_label s ls0 q -> 0 < t_nrem s ->
  0 <= t_value s <= 99 -> t_digits s = 1 -> isdigit d = true -> reads s (d :: txt) ->
  exists s', runs 1 s s' /\ in_label s' ls0 q /\ t_state s' = ft_escdecimal /\ reads s' txt /\
    t_value s' = t_value s * 10 + (d - 48) /\ t_digits s' = 2.
Proof.
  intros Hst Hin Hrem Hv Hd Hdig Hr. destruct (nrem_in _ _ _ Hin) as [_ Hdn].
  pose proof (digit_step false tb used room Hfit (advance s) ls0 q d (in_advance _ _ _ Hin) Hrem Hv) as H.
  cbn [t_digits advance] in H. rewrite Hd in H. specialize (H ltac:(lia) Hdig). cbn in H.
  destruct H as (s' & E & Ht & Hs & Hin' & Hval & Hdg).
  destruct (run_one s d txt s' Hr Hrem Hdn) as [R Hr'].
  { unfold dispatch. change (t_state (advance s)) with (t_state s). by rewrite Hst. } { done. }
  exists s'. split_and!; try done. congruence.
Qed.

Lemma run_last_digit s ls0 q d txt : t_state s = ft_escdecimal -> in_label s ls0 q -> Zlen q < 63 -> 0 < t_nrem s ->
  0 <= t_value s <= 99 -> t_digits s = 2 -> isdigit d = true -> t_value s * 10 + (d - 48) <= 255 ->
  reads s (d :: txt) ->
  exists s', runs 1 s s' /\ in_label s' ls0 (q ++ [t_value s * 10 + (d - 48)]) /\ t_state s' = ft_ordinary /\ reads s' txt.
Proof.
  intros Hst Hin Hq Hrem Hv Hd Hdig Hle Hr. destruct (nrem_in _ _ _ Hin) as [_ Hdn].
  pose proof (digit_step false tb used room Hfit (advance s) ls0 q d (in_advance _ _ _ Hin) Hrem Hv) as H.
  cbn [t_digits t_value advance] in H. rewrite Hd in H. specialize (H ltac:(lia) Hdig). cbn [Z.eqb Pos.eqb] in H.
  rewrite (proj2 (Z.ltb_ge 255 _)), (proj2 (Z.leb_gt _ _) Hq) in H by lia. cbn [orb] in H.
  destruct H as (s' & E & Ht & Hs & Hin').
  destruct (run_one s d txt s' Hr Hrem Hdn) as [R Hr'].
  { unfold dispatch. change (t_state (advance s)) with (t_state s). by rewrite Hst. } { done. }
  eauto 10.
Qed.

Lemma run_first_digit s ls0 q d txt : (t_state s = ft_escape \/ t_state s = ft_initialescape) ->
  in_label s ls0 q -> 0 < t_nrem s -> isdigit d = true -> reads s (d :: txt) ->
  exists s', runs 1 s s' /\ in_label s' ls0 q /\ t_state s' = ft_escdecimal /\ reads s' txt /\
    t_value s' = d - 48 /\ t_digits s' = 1.
Proof.
  intros Hst Hin Hrem Hdig Hr. destruct (nrem_in _ _ _ Hin) as [_ Hdn].
  assert (Hesc : forall st, exists s', ft_case_escape false (ft_goto (advance s) st) d = ft_continue s' /\
     same_text (advance s) s' /\ t_state s' = ft_escdecimal /\ in_label s' ls0 q /\ t_value s' = d - 48 /\ t_digits s' = 1).
  { intros st. unfold ft_case_escape. rewrite Hdig. cbn [negb]. set (s0 := mkft _ _ _ _ _ _ _ _ _ _ _ _ _ _ _).
    assert (Hin0 : in_label s0 ls0 q) by (destruct Hin as ([] & ? & ? & ? & ? & ?); by split_and!).
    exact (digit_step false tb used room Hfit s0 ls0 q d Hin0 Hrem ltac:(cbn; lia) ltac:(cbn; lia) Hdig). }
  assert (Hcase : exists s', dispatch (advance s) d = ft_continue s' /\ same_text (advance s) s' /\
      t_state s' = ft_escdecimal /\ in_label s' ls0 q /\ t_value s' = d - 48 /\ t_digits s' = 1).
  { unfold dispatch. change (t_state (advance s)) with (t_state s). destruct Hst as [Hst|Hst]; rewrite Hst.
    - destruct (Hesc (t_state (advance s))) as (s' & E & H). exists s'. split; [|done]. rewrite <- E. by destruct s.
    - unfold isdigit in Hdig. bool_prop. rewrite (proj2 (Z.eqb_neq d 91)) by lia. apply Hesc. }
  destruct Hcase as (s' & E & Ht & Hs & Hin' & Hv & Hd). destruct (run_one s d txt s' Hr Hrem Hdn E Ht) as [R Hr'].
  eauto 10.
Qed.

(** The part of a character's text after the backslash. *)
Lemma run_after_backslash s ls0 q c t txt : (t_state s = ft_escape \/ t_state s = ft_initialescape) ->
  in_label s ls0 q -> Zlen q < 63 -> 0 < t_nrem s -> is_byte c -> char_text c (92 :: t) ->
  t <> [] -> reads s (t ++ txt) ->
  exists s', runs (length t) s s' /\ in_label s' ls0 (q ++ [c]) /\ t_state s' = ft_ordinary /\ reads s' txt.
Proof.
  intros Hst Hin Hq Hrem Hc Hct Hne Hr. inversion Hct as [| |d1 d2 d3 (D1 & D2 & D3 & Hval)]; subst t; [done| |].
  - by apply (run_escaped s).
  - destruct (run_first_digit s ls0 q d1 ([d2; d3] ++ txt) Hst Hin Hrem D1 Hr) as (s1 & R1 & I1 & S1 & Rd1 & V1 & G1).
    destruct (nrem_in _ _ _ Hin) as [N0 _]. destruct (nrem_in _ _ _ I1) as [N1 _].
    unfold isdigit in D1, D2, D3. bool_prop.
    destruct (run_digit s1 ls0 q d2 ([d3] ++ txt) S1 I1 ltac:(lia) ltac:(lia) G1) as (s2 & R2 & I2 & S2 & Rd2 & V2 & G2);
      [unfold isdigit; lia|done|].
    destruct (nrem_in _ _ _ I2) as [N2 _]. unfold is_byte in Hc.
    destruct (run_last_digit s2 ls0 q d3 txt S2 I2 Hq ltac:(lia) ltac:(lia) G2) as (s3 & R3 & I3 & S3 & Rd3);
      [unfold isdigit; lia|lia|done|].
    exists s3. split_and!; [exact (runs_trans _ _ _ _ _ R1 (runs_trans _ _ _ _ _ R2 R3))| |done|done].
    replace (t_value s2 * 10 + (d3 - 48)) with c in I3 by lia. done.
Qed.

(** A character inside a label. *)
Lemma run_char s ls0 q c t txt : t_state s = ft_ordinary -> in_label s ls0 q -> Zlen q < 63 -> 0 < t_nrem s ->
  is_byte c -> char_text c t -> reads s (t ++ txt) ->
  exists s', runs (length t) s s' /\ in_label s' ls0 (q ++ [c]) /\ t_state s' = ft_ordinary /\ reads s' txt.
Proof.
  intros Hst Hin Hq Hrem Hc Hct Hr. destruct (nrem_in _ _ _ Hin) as [_ Hdn].
  assert (Hbs : forall t', t = 92 :: t' -> t' <> [] ->
    exists s', runs (length t) s s' /\ in_label s' ls0 (q ++ [c]) /\ t_state s' = ft_ordinary /\ reads s' txt).
  { intros t' -> Hne. destruct (run_one s 92 (t' ++ txt) (ft_goto (advance s) ft_escape) Hr Hrem Hdn) as [R1 Hr1]; [|done|].
    { unfold dispatch. change (t_state (advance s)) with (t_state s). by rewrite Hst. }
    destruct (run_after_backslash (ft_goto (advance s) ft_escape) ls0 q c t' txt) as (s' & R2 & H); try done; [by left| |].
    { by apply in_label_goto, in_advance. }
    exists s'. split; [|done]. exact (runs_trans _ _ _ _ _ R1 R2). }
  inversion Hct as [H1 H2 H3| |]; subst t; [|by eapply Hbs..].
  pose proof (ord_char false tb used room Hfit (advance s) ls0 q c c (in_advance _ _ _ Hin) Hrem H1 H2 (fold_same c Hc)) as H.
  rewrite (proj2 (Z.leb_gt _ _) Hq) in H. destruct H as (s' & E & Hin' & Ht & Hs).
  destruct (run_one s c txt s' Hr Hrem Hdn) as [R Hr'].
  { unfold dispatch. change (t_state (advance s)) with (t_state s). by rewrite Hst. } { done. }
  exists s'. split_and!; try done. rewrite Hs. exact Hst.
Qed.

(** The first character of a label. *)
Lemma run_first s ls0 c t txt : (t_state s = ft_init \/ t_state s = ft_start) -> at_label s ls0 -> 1 < t_nrem s ->
  is_byte c -> char_text c t -> reads s (t ++ txt) ->
  exists s', runs (length t) s s' /\ in_label s' ls0 [c] /\ t_state s' = ft_ordinary /\ reads s' txt.
Proof.
  intros Hst Hat Hrem Hc Hct Hr. destruct (nrem_at _ _ Hat) as [_ Hdn].
  pose proof (start_step tb used room Htb Hfit (advance s) ls0 (at_advance _ _ Hat) ltac:(cbn; lia)) as Hin.
  set (s0 := mkft _ _ _ _ _ _ _ _ _ _ _ _ _ _ _) in Hin.
  assert (Hdis : forall x, x <> 46 -> x <> 64 -> dispatch (advance s) x = ft_case_start false (advance s) x).
  { intros x H1 H2. unfold dispatch. change (t_state (advance s)) with (t_state s). destruct Hst as [-> | ->]; [|done].
    unfold ft_case_init. by rewrite (proj2 (Z.eqb_neq x 46)), (proj2 (Z.eqb_neq x 64)). }
  assert (Hbs : forall t', t = 92 :: t' -> t' <> [] ->
    exists s', runs (length t) s s' /\ in_label s' ls0 [c] /\ t_state s' = ft_ordinary /\ reads s' txt).
  { intros t' -> Hne.
    destruct (run_one s 92 (t' ++ txt) (ft_goto s0 ft_initialescape) Hr ltac:(lia) Hdn) as [R1 Hr1]; [by rewrite Hdis|done|].
    destruct (run_after_backslash (ft_goto s0 ft_initialescape) ls0 [] c t' txt) as (s' & R2 & H); try done; [by right| |cbn; lia|].
    { by apply in_label_goto. }
    exists s'. split; [|done]. exact (runs_trans _ _ _ _ _ R1 R2). }
  inversion Hct as [H1 H2 H3| |]; subst t; [|by eapply Hbs..].
  pose proof (in_label_goto _ _ _ _ _ _ ft_ordinary Hin) as Hin'.
  pose proof (ord_char false tb used room Hfit (ft_goto s0 ft_ordinary) ls0 [] c c Hin' ltac:(cbn; lia) H1 H2 (fold_same c Hc)) as H.
  destruct H as (s' & E & Hin2 & Ht & Hs). destruct (run_one s c txt s' Hr ltac:(lia) Hdn) as [R Hr'].
  { rewrite Hdis by done. unfold ft_case_start. fold s0. rewrite (proj2 (Z.eqb_neq c 92)) by done.
    rewrite (proj2 (Z.eqb_neq (t_nrem (ft_goto s0 ft_ordinary)) 0)) by (cbn; lia). exact E. }
  { done. }
  exists s'. split_and!; done.
Qed.

Context (options : Z) (Hmf : masterfile options).
Notation esc := (esc_char options).

(** The rest of a label. *)
Lemma run_chars l : forall s ls0 q txt, t_state s = ft_ordinary -> in_label s ls0 q -> bytes l ->
  Zlen q + Zlen l <= 63 -> Zlen (wire ls0) + 1 + Zlen q + Zlen l <= room -> reads s (label_text esc l ++ txt) ->
  exists s', runs (length (label_text esc l)) s s' /\ in_label s' ls0 (q ++ l) /\ t_state s' = ft_ordinary /\ reads s' txt.
Proof.
  induction l as [|c l IH]; intros s ls0 q txt Hst Hin Hl Hlen Hrm Hr.
  { exists s. rewrite app_nil_r. split_and!; try done. split_and!; [cbn; lia|cbn; lia|done]. }
  apply bytes_cons in Hl as [Hc Hl]. rewrite Zlen_cons in *. pose proof (Zlen_nonneg l).
  destruct (nrem_in _ _ _ Hin) as [N0 _].
  assert (El : label_text esc (c :: l) = esc c ++ label_text esc l) by done. rewrite El, <- app_assoc in *.
  destruct (run_char s ls0 q c (esc c) (label_text esc l ++ txt) Hst Hin ltac:(lia) ltac:(lia) Hc (esc_char_text _ _ Hmf Hc) Hr)
    as (s1 & R1 & I1 & S1 & Rd1).
  destruct (IH s1 ls0 (q ++ [c]) txt S1 I1 Hl) as (s2 & R2 & I2 & S2 & Rd2);
    [rewrite Zlen_app; change (Zlen [c]) with 1; lia|rewrite Zlen_app; change (Zlen [c]) with 1; lia|done|].
  exists s2. rewrite <- app_assoc in I2. split_and!; try done. rewrite length_app. exact (runs_trans _ _ _ _ _ R1 R2).
Qed.

(** A whole label. *)
Lemma run_label s ls0 l txt : (t_state s = ft_init \/ t_state s = ft_start) -> at_label s ls0 -> good_label l ->
  Zlen (wire ls0) + 1 + Zlen l <= room -> reads s (label_text esc l ++ txt) ->
  exists s', runs (length (label_text esc l)) s s' /\ in_label s' ls0 l /\ t_state s' = ft_ordinary /\ reads s' txt.
Proof.
  intros Hst Hat [Hb Hl] Hrm Hr. destruct l as [|c l]; [change (Zlen []) with 0 in Hl; lia|].
  apply bytes_cons in Hb as [Hc Hb]. rewrite Zlen_cons in *. pose proof (Zlen_nonneg l).
  destruct (nrem_at _ _ Hat) as [N0 _].
  assert (El : label_text esc (c :: l) = esc c ++ label_text esc l) by done. rewrite El, <- app_assoc in *.
  destruct (run_first s ls0 c (esc c) (label_text esc l ++ txt) Hst Hat ltac:(lia) Hc (esc_char_text _ _ Hmf Hc) Hr)
    as (s1 & R1 & I1 & S1 & Rd1).
  destruct (run_chars l s1 ls0 [c] txt S1 I1 Hb) as (s2 & R2 & I2 & S2 & Rd2); [change (Zlen [c]) with 1; lia..|done|].
  exists s2. split_and!; try done. rewrite length_app. exact (runs_trans _ _ _ _ _ R1 R2).
Qed.

(** The dot after a label. *)
Lemma run_dot s ls0 l txt : t_state s = ft_ordinary -> in_label s ls0 l -> 1 <= Zlen l -> 0 < t_nrem s ->
  reads s (46 :: txt) ->
  exists s', runs 1 s s' /\ t_state s' = ft_start /\ reads s' txt /\
    match txt with [] => finished s' (ls0 ++ [l]) | _ => at_label s' (ls0 ++ [l]) end.
Proof.
  intros Hst Hin Hl Hrem Hr. destruct (nrem_in _ _ _ Hin) as [_ Hdn].
  destruct (ord_dot false tb used room Hroom Hfit (advance s) ls0 l (in_advance _ _ _ Hin) Hrem Hl) as (s' & E & Ht & Hs & H).
  destruct (run_one s 46 txt s' Hr Hrem Hdn) as [R Hr'].
  { unfold dispatch. change (t_state (advance s)) with (t_state s). by rewrite Hst. } { done. }
  exists s'. split_and!; try done. destruct (reads_advance _ _ _ Hr) as (_ & Hlen & _). rewrite Hlen in H.
  destruct txt as [|x txt]; [done|]. rewrite (proj2 (Z.eqb_neq _ 0)) in H; [done|].
  rewrite Zlen_cons. pose proof (Zlen_nonneg txt). lia.
Qed.

(** Labels with their dots, followed by something. *)
Lemma run_dotted b : forall s ls0 txt, (t_state s = ft_init \/ t_state s = ft_start) -> at_label s ls0 ->
  Forall good_label b -> Zlen (wire (ls0 ++ b)) < room -> reads s (dotted esc b ++ txt) -> txt <> [] ->
  exists s', runs (length (dotted esc b)) s s' /\ at_label s' (ls0 ++ b) /\ (t_state s' = ft_init \/ t_state s' = ft_start) /\ reads s' txt.
Proof.
  induction b as [|l b IH]; intros s ls0 txt Hst Hat Hg Hrm Hr Hne.
  { exists s. rewrite app_nil_r. split_and!; try done. split_and!; [cbn; lia|cbn; lia|done]. }
  apply Forall_cons in Hg as [Hl Hg]. rewrite dotted_cons, <- !app_assoc in Hr.
  rewrite wire_app, Zlen_app, Zlen_wire_cons in Hrm. pose proof (Zlen_nonneg (wire b)).
  destruct (run_label s ls0 l _ Hst Hat Hl ltac:(lia) Hr) as (s1 & R1 & I1 & S1 & Rd1).
  destruct (nrem_in _ _ _ I1) as [N1 _]. destruct Hl as [Hlb Hll].
  destruct (run_dot s1 ls0 l (dotted esc b ++ txt) S1 I1 ltac:(lia) ltac:(lia) Rd1) as (s2 & R2 & S2 & Rd2 & H2).
  assert (Hat2 : at_label s2 (ls0 ++ [l])).
  { destruct (dotted esc b ++ txt) eqn:E; [|done]. by apply app_nil in E as [_ ->]. }
  destruct (IH s2 (ls0 ++ [l]) txt) as (s3 & R3 & A3 & S3 & Rd3); try done; [by right| |].
  { rewrite <- app_assoc. cbn [app]. rewrite wire_app, Zlen_app, Zlen_wire_cons. lia. }
  exists s3. rewrite <- app_assoc in A3. split_and!; try done.
  rewrite dotted_cons, !length_app. exact (runs_trans _ _ _ _ _ R1 (runs_trans _ _ _ _ _ R2 R3)).
Qed.

Lemma run_loop k s s' fuel : runs k s s' -> (k < fuel)%nat -> t_done s' = true \/ t_len s' = 0 ->
  loop fuel body s = Done (ISC_R_SUCCESS, s').
Proof.
  intros (_ & _ & R) Hf Hex. replace fuel with (k + S (fuel - k - 1))%nat by lia. rewrite R. cbn [loop].
  assert (G : (0 <? t_nrem s') && (0 <? t_len s') && negb (t_done s') = false).
  { rewrite !andb_false_iff. destruct Hex as [->|H]; [by right|left; right; lia]. }
  unfold ft_body. by rewrite G.
Qed.

Lemma reads_all k s s' txt : runs k s s' -> reads s txt -> k = length txt -> t_len s' = 0 /\ t_used s' = t_used s + Zlen txt.
Proof. intros (L & U & _) (_ & Hl & _) ->. unfold Zlen in *. lia. Qed.

(** The text of an absolute name. *)
Lemma read_absolute s b fuel : t_state s = ft_init -> at_label s [] -> Forall good_label b ->
  Zlen (wire b) < room -> reads s (match b with [] => [46] | _ => dotted esc b end) ->
  (Z.to_nat (t_len s) < fuel)%nat ->
  exists s', loop fuel body s = Done (ISC_R_SUCCESS, s') /\ finished s' b /\ t_used s' = t_used s + t_len s.
Proof.
  intros Hst Hat Hg Hrm Hr Hf. destruct (nrem_at _ _ Hat) as [N0 Hdn].
  assert (Hlen : forall txt, reads s txt -> (length txt < fuel)%nat) by (intros txt (_ & Hl & _); unfold Zlen in Hl; lia).
  assert (Hu : forall txt k s', reads s txt -> runs k s s' -> k = length txt -> t_used s' = t_used s + t_len s).
  { intros txt k s' Hr' R Hk. destruct (reads_all _ _ _ _ R Hr' Hk) as [_ ->]. destruct Hr' as (_ & -> & _). done. }
  destruct b as [|l0 b0].
  - change (Zlen (wire [])) with 0 in N0, Hrm.
    destruct (finish_step tb used room Hfit (advance s) [] (at_advance _ _ Hat)) as (s1 & E1 & F1 & T1); [cbn; lia|].
    destruct (reads_advance _ _ _ Hr) as (_ & Hl1 & _).
    destruct (run_one s 46 [] (ft_set_done s1) Hr ltac:(lia) Hdn) as [R _]; [|done|].
    { unfold dispatch. change (t_state (advance s)) with (t_state s). rewrite Hst. unfold ft_case_init. cbn [Z.eqb Pos.eqb].
      rewrite Hl1. cbn [Z.eqb negb]. by rewrite E1. }
    exists (ft_set_done s1). split_and!; [|done|by eapply Hu].
    eapply run_loop; [exact R|by apply Hlen in Hr|]. left. apply F1.
  - destruct (exists_last (l := l0 :: b0)) as (b & l & Eb); [done|]. rewrite Eb in *. clear Eb l0 b0.
    apply Forall_app in Hg as [Hgb Hgl]. apply Forall_cons in Hgl as [Hgl _].
    assert (Er : reads s (dotted esc b ++ label_text esc l ++ [46])).
    { assert (Ed : dotted esc (b ++ [l]) = dotted esc b ++ label_text esc l ++ [46])
        by (unfold dotted; rewrite map_app, concat_app; cbn; by rewrite app_nil_r).
      destruct (b ++ [l]) eqn:E; [by apply app_nil in E as [_ ?]|]. by rewrite <- Ed. }
    pose proof (wire_snoc b l) as Ew. rewrite Ew, Zlen_app, Zlen_cons in Hrm. destruct Hgl as [Hlb Hll].
    destruct (run_dotted b s [] (label_text esc l ++ [46])) as (s1 & R1 & A1 & S1 & Rd1); try done; [by left|cbn [app]; lia| |].
    { intros [_ ?]%app_nil. done. }
    destruct (run_label s1 b l [46] S1 A1) as (s2 & R2 & I2 & S2 & Rd2); [by split|lia|done|].
    destruct (nrem_in _ _ _ I2) as [N2 _].
    destruct (run_dot s2 b l [] S2 I2 ltac:(lia) ltac:(lia) Rd2) as (s3 & R3 & S3 & Rd3 & F3).
    pose proof (runs_trans _ _ _ _ _ R1 (runs_trans _ _ _ _ _ R2 R3)) as R.
    exists s3. split_and!; [|done|eapply Hu; [exact Er|exact R|rewrite !length_app; cbn; lia]].
    eapply run_loop; [exact R|apply Hlen in Er; rewrite !length_app in Er; cbn in Er; lia|]. left. apply F3.
Qed.

(** The text of a relative name. *)
Lemma read_relative s b fuel : t_state s = ft_init -> at_label s [] -> Forall good_label b ->
  Zlen (wire b) < room -> reads s (match b with [] => [64] | _ => removelast (dotted esc b) end) ->
  (Z.to_nat (t_len s) < fuel)%nat ->
  exists s', loop fuel body s = Done (ISC_R_SUCCESS, s') /\ t_used s' = t_used s + t_len s /\ t_len s' = 0 /\
    match b with
    | [] => t_state s' = ft_at /\ at_label s' []
    | _ => exists b0 l, b = b0 ++ [l] /\ t_state s' = ft_ordinary /\ in_label s' b0 l /\ 1 <= Zlen l
    end.
Proof.
  intros Hst Hat Hg Hrm Hr Hf. destruct (nrem_at _ _ Hat) as [N0 Hdn].
  assert (Hlen : forall txt, reads s txt -> (length txt < fuel)%nat) by (intros txt (_ & Hl & _); unfold Zlen in Hl; lia).
  assert (Hu : forall txt k s', reads s txt -> runs k s s' -> k = length txt -> t_used s' = t_used s + t_len s /\ t_len s' = 0).
  { intros txt k s' Hr' R Hk. destruct (reads_all _ _ _ _ R Hr' Hk) as [-> ->]. destruct Hr' as (_ & -> & _). done. }
  destruct b as [|l0 b0].
  - change (Zlen (wire [])) with 0 in N0, Hrm. destruct (reads_advance _ _ _ Hr) as (_ & Hl1 & _).
    destruct (run_one s 64 [] (ft_goto (advance s) ft_at) Hr ltac:(lia) Hdn) as [R _]; [|done|].
    { unfold dispatch. change (t_state (advance s)) with (t_state s). rewrite Hst. unfold ft_case_init. cbn [Z.eqb Pos.eqb].
      by rewrite Hl1. }
    destruct (Hu _ _ _ Hr R eq_refl) as [U L]. exists (ft_goto (advance s) ft_at). split_and!; try done.
    + eapply run_loop; [exact R|by apply Hlen in Hr|by right].
    + destruct (at_advance _ _ Hat) as ([] & ?). by split.
  - destruct (dotted_last esc (l0 :: b0)) as (d & Ed & Edl); [done|]. rewrite Edl in Hr.
    destruct (exists_last (l := l0 :: b0)) as (b & l & Eb); [done|]. rewrite Eb in *.
    apply Forall_app in Hg as [Hgb Hgl]. apply Forall_cons in Hgl as [Hgl _].
    assert (Er : reads s (dotted esc b ++ label_text esc l)).
    { assert (E : dotted esc (b ++ [l]) = (dotted esc b ++ label_text esc l) ++ [46])
        by (unfold dotted; rewrite map_app, concat_app; cbn; by rewrite app_nil_r, app_assoc).
      rewrite E in Ed. apply app_inj_tail in Ed as [<- _]. done. }
    pose proof (wire_snoc b l) as Ew. rewrite Ew, Zlen_app, Zlen_cons in Hrm. destruct Hgl as [Hlb Hll].
    assert (Hne : label_text esc l <> []).
    { destruct l as [|c l]; [change (Zlen []) with 0 in Hll; lia|]. unfold label_text. cbn. pose proof (esc_length options c) as He.
      destruct (esc_char options c); [change (Zlen []) with 0 in He; lia|done]. }
    destruct (run_dotted b s [] (label_text esc l)) as (s1 & R1 & A1 & S1 & Rd1); try done; [by left|cbn [app]; lia|].
    destruct (run_label s1 b l [] S1 A1) as (s2 & R2 & I2 & S2 & Rd2); [by split|lia|by rewrite app_nil_r|].
    pose proof (runs_trans _ _ _ _ _ R1 R2) as R.
    destruct (Hu _ _ _ Er R ltac:(by rewrite length_app)) as [U L]. exists s2. split_and!; try done.
    + eapply run_loop; [exact R|apply Hlen in Er; by rewrite length_app in Er|by right].
    + exists b, l. split_and!; try done. lia.
Qed.
End read.

(** ** The whole function *)

(** Octets the name can take in the target. *)
Definition name_room (target : isc_buffer_t) : Z := Z.min 255 (b_length target - b_used target).

Definition ft_initial (source target : isc_buffer_t) (tbl : list Z) : ft :=
  mkft ft_init (b_current source) (b_used source - b_current source) 0 0 0 0 0 0 0 (name_room target) false
    (b_used target) (b_base target) tbl.

(** The success and the failure end of [fromtext_into]. *)
Lemma into_cases n source origin options target :
  wf_buffer source -> wf_buffer target -> name_target n 128 ->
  let downcase := negb (Z.land options DNS_NAME_DOWNCASE =? 0) in
  exists tbl, 128 <= Zlen tbl /\ rd tbl 0 = Done 0 /\
  forall res s1 r s2 ab,
    loop (S (Z.to_nat (b_used source - b_current source))) (ft_body (b_base source) downcase)
      (ft_initial source target tbl) = Done (res, s1) ->
    (if bool_decide (res = ISC_R_SUCCESS) then ft_finish downcase s1 origin else Done (res, s1, false)) = Done (r, s2, ab) ->
    if bool_decide (r = ISC_R_SUCCESS) then
      forall ls, final (b_base target) (b_used target) (b_current source) (b_used source) s2 ls ab ->
      exists n' target', fromtext_into n source origin options target =
          Done (ISC_R_SUCCESS, n', set_current source (b_used source), target') /\
        wf_name n' ls ab /\ wf_buffer target' /\ appended target target' (ndata n')
    else
      ft_failed (b_base target) (b_used target) s2 ->
      exists n' target', fromtext_into n source origin options target = Done (r, n', source, target') /\
        ndata n' = [] /\ labels n' = 0 /\ wf_buffer target' /\ b_used target' = b_used target /\
        isc_buffer_usedregion target' = isc_buffer_usedregion target.
Proof.
  intros Hs Ht [Hb Ho] downcase. pose proof Hs as [S1 S2 S3 S4 S5]. pose proof Ht as [T1 T2 T3 T4 T5].
  assert (Hw : exists tbl, wr (match offsets n with Some t => t | None => odata end) 0 0 = Done tbl /\ 128 <= Zlen tbl).
  { destruct (offsets n) as [t|].
    - eexists. split; [apply wr_ok; lia|]. len.
    - eexists. split; [apply wr_ok; by vm_compute|by vm_compute]. }
  destruct Hw as (tbl & Hw & Hl). exists tbl. split_and!; [done|by eapply rd_wr_eq|].
  intros res s1 r s2 ab Eloop Efin.
  assert (Einto : fromtext_into n source origin options target =
    (let target := set_base target (t_base s2) in
     let n := mkname [] 0 (attributes (MAKE_EMPTY n)) (put_offsets n (t_offs s2)) (buffer n) in
     if bool_decide (r = ISC_R_SUCCESS) then
       let n := mkname (sub (b_base target) (b_used target) (t_nused s2)) (t_labels s2)
                 (if ab then Z.lor (attributes n) DNS_NAMEATTR_ABSOLUTE else attributes n) (offsets n) (buffer n) in
       let* source := isc_buffer_forward source (t_used s2) in
       let* target := isc_buffer_add target (n_length n) in
       Done (ISC_R_SUCCESS, n, source, target)
     else Done (r, n, source, target))).
  { unfold fromtext_into. fold downcase. rewrite Hb. cbn [require obind]. rewrite Hw. cbn [obind].
    unfold isc_buffer_remaininglength, isc_buffer_availablelength. rewrite !u32_small by lia.
    assert ((if 255 <? b_length target - b_used target then 255 else b_length target - b_used target) = name_room target) as ->
      by (unfold name_room; case_if; lia).
    fold (ft_initial source target tbl). rewrite Eloop. cbn [obind]. rewrite Efin. cbn [obind]. done. }
  rewrite Einto. cbn zeta. destruct (bool_decide (r = ISC_R_SUCCESS)) eqn:Er.
  - intros ls (Hg & Hbl & Hn & Hle & Hlab & Hof & Htab & Hu).
    pose proof (bytes_wire ls ab Hg) as Hwb.
    destruct (append_spec target _ _ Ht Hwb Hbl) as (Hwf & _ & _ & _ & Hsub).
    destruct (forward_spec source (t_used s2) Hs) as [-> _]; [lia|lia|]. cbn [obind].
    cbn [b_base b_used set_base]. rewrite Hn, Hsub. unfold n_length. cbn [ndata].
    rewrite (add_after_blit target _ _ Ht Hbl). cbn [obind].
    replace (b_current source + t_used s2) with (b_used source) by lia.
    do 2 eexists. split; [reflexivity|]. split_and!; [|done|by exists (t_base s2)].
    constructor; cbn; try done.
    + unfold n_length. cbn. lia.
    + destruct ab; [apply (set_absolute_land (set_absolute (attributes n) false) true)|
        apply (set_absolute_land (attributes n) false)].
    + unfold put_offsets. destruct (offsets n); done.
  - intros ((w & Hwb & Hbl) & _). destruct (blit_failed target _ w Ht Hwb Hbl) as [Hwf Hus].
    do 2 eexists. split; [reflexivity|]. by split_and!.
Qed.

Lemma initial_at source target tbl : wf_buffer target -> 128 <= Zlen tbl -> rd tbl 0 = Done 0 ->
  at_label (b_base target) (b_used target) (name_room target) (ft_initial source target tbl) [].
Proof.
  intros [T1 T2 T3 T4 T5] Hl H0. split; [|apply (blit_nil (b_base target)); unfold b_length in *; lia].
  change (Zlen (wire [])) with 0. assert (0 <= name_room target) by (unfold name_room; lia).
  constructor; cbn; try done; try lia.
  destruct tbl as [|x tbl]; [done|]. apply rd_Done in H0 as [_ H0]. injection H0 as ->. by exists tbl.
Qed.

(** C28. [dns_name_fromtext] on any octets without [DNS_NAME_DOWNCASE], and on
    text and origin of octets below 128 with it: for any target and any well-formed
    origin the function returns, no INSIST fails and no access is out of
    bounds.  On success the whole text is consumed and the result is a
    well-formed name appended to the target; on failure the name is empty, the
    source is unchanged and so is the used part of the target.  With
    [DNS_NAME_DOWNCASE] an octet of 128 or more reads outside of the table
    ([fromtext_downcase_high_octet]). *)
Theorem fromtext_correct (n : dns_name_t) (source target : isc_buffer_t) (origin : option dns_name_t)
    (bo : list (list Z)) (abo : bool) (options : Z) :
  wf_buffer source -> wf_buffer target -> name_target n 128 ->
  origin_ok (downcase_of options) origin bo abo ->
  (downcase_of options = true -> Forall (fun c => c < 128) (b_base source)) ->
  exists r n' source' target',
    dns_name_fromtext n source origin options (Some target) = Done (r, n', source', Some target') /\
    wf_buffer target' /\
    if bool_decide (r = ISC_R_SUCCESS)
    then exists ls ab, wf_name n' ls ab /\ source' = set_current source (b_used source) /\
           appended target target' (ndata n')
    else ndata n' = [] /\ labels n' = 0 /\ source' = source /\
           isc_buffer_usedregion target' = isc_buffer_usedregion target.
Proof.
  intros Hs Ht Hn Ho Ha. pose proof Hs as [S1 S2 S3 S4 S5]. pose proof Ht as [T1 T2 T3 T4 T5].
  destruct (into_cases n source origin options target Hs Ht Hn) as (tbl & Hl & H0 & Hcases).
  fold (downcase_of options) in Hcases.
  assert (Hroom : 0 <= name_room target <= 255) by (unfold name_room; lia).
  assert (Hfit : b_used target + name_room target <= Zlen (b_base target)) by (unfold name_room; unfold b_length in *; lia).
  assert (Hsl : b_used source <= Zlen (b_base source)) by exact S3.
  destruct (ft_loop_ok (b_base source) (downcase_of options) (b_base target) (b_used target) (name_room target)
    S1 T1 Hroom Hfit (b_current source) (b_used source) ltac:(lia) Hsl Ha
    (ft_initial source target tbl) (S (Z.to_nat (b_used source - b_current source)))) as (res & s1 & Eloop & H1).
  { apply fi_init; [done|]. by apply initial_at. }
  { unfold text_ok. cbn. lia. } { cbn. lia. }
  assert (Hfin : exists r s2 ab,
    (if bool_decide (res = ISC_R_SUCCESS) then ft_finish (downcase_of options) s1 origin else Done (res, s1, false)) = Done (r, s2, ab) /\
    if bool_decide (r = ISC_R_SUCCESS) then exists ls, final (b_base target) (b_used target) (b_current source) (b_used source) s2 ls ab
    else ft_failed (b_base target) (b_used target) s2).
  { destruct (bool_decide (res = ISC_R_SUCCESS)) eqn:Er.
    - destruct H1 as (Hi & Htx & Hex).
      destruct (finish_ok _ _ _ _ _ Hroom Hfit _ _ Ha s1 origin bo abo Hi Htx Hex Ho) as (r & s2 & ab & E & H).
      exists r, s2, ab. split; [done|]. by destruct (bool_decide (r = ISC_R_SUCCESS)); [|destruct H].
    - exists res, s1, false. by rewrite Er. }
  destruct Hfin as (r & s2 & ab & Efin & Hr). specialize (Hcases res s1 r s2 ab Eloop Efin).
  unfold dns_name_fromtext. cbn [select_target obind].
  destruct (bool_decide (r = ISC_R_SUCCESS)) eqn:Er.
  - destruct Hr as [ls Hls]. destruct (Hcases ls Hls) as (n' & t' & -> & Wn & Wt & Happ). cbn.
    do 4 eexists. split; [reflexivity|]. split; [done|]. cbn. exists ls, ab. by split_and!.
  - destruct (Hcases Hr) as (n' & t' & -> & H2 & H3 & H4 & H5 & H6). cbn [obind give_back].
    do 4 eexists. split; [reflexivity|]. rewrite Er. by split_and!.
Qed.

(** *** Text written and read *)

Lemma remaining_reads t txt (s : ft) : wf_buffer t -> remaining t = txt -> t_pos s = b_current t ->
  t_len s = b_used t - b_current t -> reads (b_base t) s txt.
Proof.
  intros Ht Hr Hp Hl. pose proof (length_remaining t Ht) as E. rewrite Hr in E. pose proof (wb_current t Ht).
  split_and!; [lia|lia|]. rewrite Hp, Hl. exact Hr.
Qed.

Lemma final_finished tb used room cur fin s ls : room <= 255 -> finished tb used room s ls -> t_used s = fin - cur ->
  final tb used cur fin s ls true.
Proof. intros Hr (_ & Hg & Hb & Hn & Hle & Hlab & Hof & Ht) Hu. split_and!; try done. lia. Qed.

(** The end of the function after a relative name. *)
Lemma relative_finish target room cur fin s1 body origin bo abo :
  0 <= room <= 255 -> b_used target + room <= Zlen (b_base target) ->
  Zlen (wire body) < room -> t_used s1 = fin - cur -> t_len s1 = 0 -> origin_ok false origin bo abo ->
  match origin with None => True | Some o => Zlen (wire body) + n_length o <= room end ->
  match body with
  | [] => t_state s1 = ft_at /\ at_label (b_base target) (b_used target) room s1 []
  | _ => exists b0 l, body = b0 ++ [l] /\ t_state s1 = ft_ordinary /\
           in_label (b_base target) (b_used target) room s1 b0 l /\ 1 <= Zlen l
  end ->
  exists s2, ft_finish false s1 origin = Done (ISC_R_SUCCESS, s2, abo) /\
    final (b_base target) (b_used target) cur fin s2 (body ++ bo) abo.
Proof.
  intros Hr255 Hfit Hrm Hu Hz Ho Hroom Hst.
  assert (Hend : forall s1' ls, at_label (b_base target) (b_used target) room s1' ls -> wire ls = wire body -> ls = body ->
    t_used s1' = t_used s1 -> exists s2, ft_relative false s1' origin = Done (ISC_R_SUCCESS, s2, abo) /\
    final (b_base target) (b_used target) cur fin s2 (body ++ bo) abo).
  { intros s1' ls Hat Hw -> Hu'. destruct (nrem_at _ _ _ _ _ Hat) as [N _].
    destruct (relative_end [] false _ _ _ Hr255 Hfit cur fin ltac:(done) s1' body origin bo abo Hat ltac:(lia) Ho)
      as (r & s2 & Er & Hr & Hf).
    rewrite Hr in * by (destruct origin; [lia|done]). exists s2. split; [exact Er|].
    cbn in Hf. unfold with_origin in Hf. by rewrite fold_nodown in Hf. }
  destruct body as [|l0 b0].
  - destruct Hst as [Hst Hat]. destruct (nrem_at _ _ _ _ _ Hat) as [N Hd].
    destruct (Hend s1 [] Hat) as (s2 & E & Hf); try done. exists s2. split; [|done].
    unfold ft_finish. change (Zlen (wire [])) with 0 in *.
    rewrite Hd, (proj2 (Z.eqb_neq (t_nrem s1) 0)), Hz, Hst by lia. exact E.
  - destruct Hst as (b & l & Eb & Hst & Hin & Hll). rewrite Eb in *. destruct (nrem_in _ _ _ _ _ _ Hin) as [N Hd].
    destruct (end_step _ _ _ Hr255 s1 b l Hin Hll) as (s1' & Ee & Hat1 & (_ & _ & T3') & _ & _);
      [rewrite wire_snoc, Zlen_app, Zlen_cons in Hrm; lia|].
    destruct (Hend s1' (b ++ [l]) Hat1) as (s2 & E & Hf); try done. exists s2. split; [|done].
    rewrite wire_snoc, Zlen_app, Zlen_cons in Hrm.
    unfold ft_finish. rewrite Hd, (proj2 (Z.eqb_neq (t_nrem s1) 0)), Hz, Hst by lia. cbn [Z.eqb require obind].
    cbn. destruct Hin as (_ & _ & _ & Hcnt & _). rewrite Hcnt, (proj2 (Z.eqb_neq (Zlen l) 0)) by lia. cbn [negb require obind].
    rewrite Ee. exact E.
Qed.

(** The parser on the text of a name: the end of the function succeeds. *)
Lemma read_text options source target tbl body ab origin bo abo :
  masterfile options -> wf_buffer source -> wf_buffer target -> 128 <= Zlen tbl -> rd tbl 0 = Done 0 ->
  Forall good_label body -> Zlen (wire body) < name_room target ->
  remaining source = name_text options body ab -> origin_ok false origin bo abo ->
  match origin with None => True | Some o => Zlen (wire body) + n_length o <= name_room target end ->
  let relative := negb ab || (omits options && negb (bool_decide (body = []))) in
  exists s1 s2, loop (S (Z.to_nat (b_used source - b_current source))) (ft_body (b_base source) false)
      (ft_initial source target tbl) = Done (ISC_R_SUCCESS, s1) /\
    ft_finish false s1 origin = Done (ISC_R_SUCCESS, s2, if relative then abo else true) /\
    final (b_base target) (b_used target) (b_current source) (b_used source) s2
      (if relative then body ++ bo else body) (if relative then abo else true).
Proof.
  intros Hm Hs Ht Hl H0 Hg Hrm Hrem Ho Hroom relative.
  pose proof Hs as [S1 S2 S3 S4 S5]. pose proof Ht as [T1 T2 T3 T4 T5].
  assert (Hr255 : 0 <= name_room target <= 255) by (unfold name_room; lia).
  assert (Hfit : b_used target + name_room target <= Zlen (b_base target)) by (unfold name_room; unfold b_length in *; lia).
  pose proof (initial_at source target tbl Ht Hl H0) as Hat.
  assert (Hrd : reads (b_base source) (ft_initial source target tbl) (name_text options body ab))
    by (by apply remaining_reads).
  destruct relative eqn:Erel.
  - destruct (read_relative (b_base source) (b_base target) (b_used target) (name_room target) T1 Hr255 Hfit options Hm
      (ft_initial source target tbl) body (S (Z.to_nat (b_used source - b_current source))))
      as (s1 & E & Hu & Hz & Hst); try done.
    { unfold relative in Erel. unfold name_text in Hrd. destruct body; [destruct ab; [|done]|].
      - rewrite bool_decide_eq_true_2, andb_false_r in Erel by done. done.
      - destruct ab, (omits options); done. }
    { cbn. lia. }
    destruct (relative_finish target (name_room target) (b_current source) (b_used source) s1 body origin bo abo
      Hr255 Hfit Hrm ltac:(cbn in Hu; lia) Hz Ho Hroom Hst) as (s2 & Ef & Hf).
    exists s1, s2. by split_and!.
  - destruct (read_absolute (b_base source) (b_base target) (b_used target) (name_room target) T1 Hr255 Hfit options Hm
      (ft_initial source target tbl) body (S (Z.to_nat (b_used source - b_current source))))
      as (s1 & E & Hf & Hu); try done.
    { unfold relative in Erel. unfold name_text in Hrd. apply orb_false_iff in Erel as [Ea Eo]. destruct ab; [|done].
      destruct body; [done|]. rewrite bool_decide_eq_false_2, andb_true_r in Eo by done. by rewrite Eo in Hrd. }
    { cbn. lia. }
    exists s1, s1. split_and!; [done| |].
    + unfold ft_finish. destruct Hf as (-> & _). done.
    + eapply final_finished; [|exact Hf|cbn in Hu; lia]. lia.
Qed.

(** C29. A name printed in master file form is read back: after
    [dns_name_totext2] with DNS_NAME_MASTERFILE (and no filter) into a buffer
    with room, [dns_name_fromtext] consumes exactly the text and yields the
    same octets, label count and absoluteness: absolute names with any octets
    in their labels, the root, relative names (and the empty name) without an
    origin, and, with DNS_NAME_OMITFINALDOT, absolute names with the root as
    the origin. *)
Theorem totext_fromtext_roundtrip (n fixed : dns_name_t) (body : list (list Z)) (ab : bool) (options : Z)
    (t fb : isc_buffer_t) :
  wf_name n body ab -> masterfile options -> (omits options = true -> ab = true) ->
  (ab = true \/ n_length n <= 254) ->
  wf_buffer t -> remaining t = [] -> text_room options body ab <= b_length t - b_used t ->
  name_target fixed 128 -> buffer fixed = Some fb -> wf_buffer fb -> 255 <= b_length fb ->
  exists t' n',
    dns_name_totext2 ISC_R_SUCCESS None n options t = Done (ISC_R_SUCCESS, t') /\
    dns_name_fromtext fixed t' (if omits options then Some dns_rootname else None) 0 None =
      Done (ISC_R_SUCCESS, n', set_current t' (b_used t'), None) /\
    ndata n' = ndata n /\ labels n' = labels n /\ dns_name_isabsolute n' = dns_name_isabsolute n.
Proof.
  intros W Hm Hom Hlen Ht Hre Hroom Hf Efb Hfb Hfl.
  destruct (totext2_spec n body ab options t W Ht) as (r & t' & Et & Ht' & HL & Hc & Hp).
  rewrite (proj2 (Z.leb_le _ _) Hroom), Hre in Hp. destruct Hp as (-> & Hu & Hrem). cbn [app] in Hrem.
  assert (Hcl : wf_buffer (isc_buffer_clear fb)) by (destruct Hfb; constructor; cbn; try done; unfold b_length in *; cbn; lia).
  assert (Hnr : name_room (isc_buffer_clear fb) = 255) by (unfold name_room, b_length in *; cbn; lia).
  set (origin := if omits options then Some dns_rootname else None).
  set (abo := omits options).
  assert (Ho : origin_ok false origin [] abo).
  { unfold origin, abo. destruct (omits options); [split; [apply rootname_wf|done]|done]. }
  pose proof (wn_data _ _ _ W) as D. pose proof (wn_body _ _ _ W) as G. pose proof (wn_length _ _ _ W) as L.
  assert (Hw : Zlen (wire body) <= 254 /\ (origin <> None -> Zlen (wire body) + 1 <= 255)).
  { unfold n_length in *. rewrite D in *. unfold labels_of in *. rewrite wire_app, Zlen_app in *.
    destruct ab; [change (Zlen (wire [[]])) with 1 in *; lia|]. change (Zlen (wire [])) with 0 in *.
    split; [destruct Hlen; [done|lia]|]. unfold origin. destruct (omits options); [by specialize (Hom eq_refl)|done]. }
  destruct (into_cases fixed t' origin 0 _ Ht' Hcl Hf) as (tbl & Hl & H0 & Hcases).
  destruct (read_text options t' (isc_buffer_clear fb) tbl body ab origin [] abo Hm Ht' Hcl Hl H0 G ltac:(lia) Hrem Ho)
    as (s1 & s2 & Eloop & Efin & Hfinal).
  { rewrite Hnr. unfold origin. destruct (omits options); [|done]. change (n_length dns_rootname) with 1. lia. }
  specialize (Hcases _ _ _ _ _ Eloop Efin). cbn in Hcases. destruct (Hcases _ Hfinal) as (n' & tt & Ei & Wn & _).
  assert (Wn' : wf_name n' body ab).
  { rewrite app_nil_r in Wn. destruct ab; cbn [negb orb] in Wn.
    - unfold abo in Wn. destruct (omits options); cbn [andb] in Wn; [|by destruct (negb _)].
      by destruct (negb (bool_decide (body = []))).
    - unfold abo in Wn. destruct (omits options); [by specialize (Hom eq_refl)|done]. }
  exists t'. unfold dns_name_fromtext, select_target. rewrite Efb. cbn [obind]. rewrite Ei. cbn [obind give_back].
  eexists. split; [done|]. split; [reflexivity|]. cbn. destruct Wn' as [D' _ _ N' A' _].
  split_and!; [congruence|rewrite N'; by rewrite (wn_labels _ _ _ W)|].
  unfold dns_name_isabsolute, attr_set. cbn. rewrite A'. by rewrite (wn_abs _ _ _ W).
Qed.

(** DNS_NAME_FORMATSIZE is enough for every name: [dns_name_totext2] with a
    buffer of at least 1023 free octets never reports ISC_R_NOSPACE, whatever
    octets the labels hold. *)
Theorem totext_fits (n : dns_name_t) (body : list (list Z)) (ab : bool) (options : Z) (t : isc_buffer_t) :
  wf_name n body ab -> wf_buffer t -> DNS_NAME_FORMATSIZE - 1 <= b_length t - b_used t ->
  exists t', dns_name_totext2 ISC_R_SUCCESS None n options t = Done (ISC_R_SUCCESS, t') /\
    wf_buffer t' /\ remaining t' = remaining t ++ name_text options body ab.
Proof.
  intros W Ht Hroom. destruct (totext2_spec n body ab options t W Ht) as (r & t' & Et & Ht' & _ & _ & Hp).
  pose proof (text_room_bound options n body ab W). unfold DNS_NAME_FORMATSIZE in Hroom.
  rewrite (proj2 (Z.leb_le _ _)) in Hp by lia. destruct Hp as (-> & _ & Hrem). eauto.
Qed.

(** ** Examples *)

(** [a\.b.\200c.], read with and without folding. *)
Definition ex_text : isc_buffer_t := mkbuffer [97; 92; 46; 98; 46; 92; 50; 48; 48; 67; 46] 11 0 0.
Definition ex_odd : list (list Z) := [[97; 46; 98]; [200; 67]].

Lemma fromtext_correct_witness :
  exists n' source' target',
    dns_name_fromtext (dns_name_init (Some odata)) ex_text (Some dns_rootname) 0
      (Some (isc_buffer_init (replicate 20 0))) = Done (ISC_R_SUCCESS, n', source', Some target') /\
    exists ls ab, wf_name n' ls ab.
Proof.
  destruct (fromtext_correct (dns_name_init (Some odata)) ex_text (isc_buffer_init (replicate 20 0))
    (Some dns_rootname) [] true 0) as (r & n' & s' & t' & E & _ & H).
  - apply wf_bufferb_spec. reflexivity.
  - apply wf_bufferb_spec. reflexivity.
  - split; [reflexivity|vm_compute; discriminate].
  - split; [exact rootname_wf|discriminate].
  - discriminate.
  - assert (Er : r = ISC_R_SUCCESS) by (vm_compute in E; congruence). subst r.
    exists n', s', t'. split; [exact E|]. destruct H as (ls & ab & W & _). exists ls, ab. exact W.
Defined.

Lemma totext_fromtext_roundtrip_witness :
  exists t' n',
    dns_name_totext2 ISC_R_SUCCESS None (mk_name ex_odd true) DNS_NAME_MASTERFILE
      (isc_buffer_init (replicate 20 0)) = Done (ISC_R_SUCCESS, t') /\
    dns_name_fromtext fixedname t' None 0 None = Done (ISC_R_SUCCESS, n', set_current t' (b_used t'), None) /\
    ndata n' = ndata (mk_name ex_odd true).
Proof.
  destruct (totext_fromtext_roundtrip (mk_name ex_odd true) fixedname ex_odd true DNS_NAME_MASTERFILE
    (isc_buffer_init (replicate 20 0)) (isc_buffer_init (replicate 300 0))) as (t' & n' & H1 & H2 & H3 & _).
  - apply mk_name_wf; reflexivity.
  - vm_compute. discriminate.
  - discriminate.
  - left. reflexivity.
  - apply wf_bufferb_spec. reflexivity.
  - reflexivity.
  - vm_compute. discriminate.
  - split; [reflexivity|vm_compute; discriminate].
  - reflexivity.
  - apply wf_bufferb_spec. reflexivity.
  - vm_compute. discriminate.
  - exists t', n'. split_and!; [exact H1|exact H2|exact H3].
Defined.

Lemma totext_fits_witness :
  exists t', dns_name_totext2 ISC_R_SUCCESS None (mk_name ex_odd true) 0 (isc_buffer_init (replicate 1023 0))
    = Done (ISC_R_SUCCESS, t').
Proof.
  destruct (totext_fits (mk_name ex_odd true) ex_odd true 0 (isc_buffer_init (replicate 1023 0))) as (t' & H & _).
  - apply mk_name_wf; reflexivity.
  - apply wf_bufferb_spec. vm_compute. reflexivity.
  - vm_compute. discriminate.
  - exists t'. exact H.
Defined.

(** The guard of [fromtext_correct] on DNS_NAME_DOWNCASE is needed: [char]
    is signed, so with DNS_NAME_DOWNCASE an octet of 128 or more indexes
    [maptolower] with a negative number, a read outside the table. *)
Theorem fromtext_downcase_high_octet (c : Z) :
  128 <= c < 256 ->
  dns_name_fromtext (dns_name_init None) (mkbuffer [c] 1 0 0) None DNS_NAME_DOWNCASE
    (Some (isc_buffer_init (replicate 20 0))) = Undef.
Proof.
  intros Hc. assert (H : is_byte c) by (unfold is_byte; lia).
  set (run := fun c => dns_name_fromtext (dns_name_init None) (mkbuffer [c] 1 0 0) None DNS_NAME_DOWNCASE
    (Some (isc_buffer_init (replicate 20 0)))).
  assert (E : (if 128 <=? c then match run c with Undef => true | _ => false end else true) = true).
  { apply (byte_forall (fun c => if 128 <=? c then match run c with Undef => true | _ => false end else true));
      [vm_compute; reflexivity|done]. }
  rewrite (proj2 (Z.leb_le 128 c)) in E by lia. fold (run c). by destruct (run c).
Qed.

Lemma fromtext_downcase_high_octet_witness :
  dns_name_fromtext (dns_name_init None) (mkbuffer [228] 1 0 0) None DNS_NAME_DOWNCASE
    (Some (isc_buffer_init (replicate 20 0))) = Undef.
Proof. apply (fromtext_downcase_high_octet 228). split; [discriminate|reflexivity]. Defined.
