(* ===== verification/Codec.v ===== *)
(** * Binary to text: [lib/isc/hex.c], [lib/isc/base64.c], [lib/isc/base32.c]

    A string is the list of its octets without the terminating 0; a string that
    is read up to its terminator is the list with the 0.  A region that is
    consumed is the list of its remaining octets.  The decoders of the three
    files share the loop of [decodestring] and the shape of their context, which
    the class [Decoder] states; [isc_*_tobuffer], which reads tokens of the
    master file lexer, is not part of this file. *)

From S2P Require Import Prelude Buffer Name NameTheory.

(** ** Helpers the three files share *)

(** [RETERR(m); k], where [m] also changes the state [S]. *)
Definition reterr {S T : Type} (m : outcome (isc_result_t * S)) (fail : S -> T)
    (k : S -> outcome (isc_result_t * T)) : outcome (isc_result_t * T) :=
  let* (r, s) := m in
  if bool_decide (r = ISC_R_SUCCESS) then k s else Done (r, fail s).

(** [str_totext] and [mem_tobuffer] have the same body but for [strlen]. *)
Definition mem_tobuffer (target : isc_buffer_t) (base : list Z) : outcome (isc_result_t * isc_buffer_t) :=
  if Zlen (isc_buffer_availableregion target) <? Zlen base then Done (ISC_R_NOSPACE, target)
  else
    let* area := blit (b_base target) (b_used target) base in
    let* target := isc_buffer_add (set_base target area) (Zlen base) in
    Done (ISC_R_SUCCESS, target).

Definition str_totext (source : list Z) (target : isc_buffer_t) : outcome (isc_result_t * isc_buffer_t) :=
  mem_tobuffer target source.

(** [strchr(base, c)] as an index; the terminating 0 belongs to the string. *)
Fixpoint strchr (base : list Z) (c : Z) : option Z :=
  match base with
  | [] => if c =? 0 then Some 0 else None
  | x :: base => if c =? x then Some 0 else option_map Z.succ (strchr base c)
  end.

Definition char_at (base : list Z) (i : Z) : Z := nth (Z.to_nat i) base 0.

(** The end of an iteration of the encoders: emit a group, consume it ([source]
    becomes [rest]), count it, and break the line when more follows and the line
    is full; [w] is the width of a group.  The state is the remaining source,
    [loops] and the target.  The test [wordlength >= 0] is that of
    [base32_totext]; the other two clamp [wordlength] to a positive value. *)
Definition put_group (w wordlength : Z) (wordbreak buf source rest : list Z) (loops : Z)
    (target : isc_buffer_t) : outcome (isc_result_t * (list Z * Z * isc_buffer_t)) :=
  reterr (str_totext buf target) (fun t => (source, loops, t)) (fun target =>
    let loops := u32 (loops + 1) in
    if negb (Zlen rest =? 0) && (0 <=? wordlength) && (wordlength <=? s32 (u32 ((loops + 1) * w))) then
      reterr (str_totext wordbreak target) (fun t => (rest, 0, t))
        (fun target => Done (ISC_R_SUCCESS, (rest, 0, target)))
    else Done (ISC_R_SUCCESS, (rest, loops, target))).

(** The state without [loops]. *)
Definition forget (s : list Z * Z * isc_buffer_t) : list Z * isc_buffer_t := (fst (fst s), snd s).

(** ** hex.c *)

Definition hex : list Z := [48; 49; 50; 51; 52; 53; 54; 55; 56; 57; 65; 66; 67; 68; 69; 70].

Definition hex_group (b0 : Z) : list Z :=
  [char_at hex (Z.land (Z.shiftr b0 4) 0xf); char_at hex (Z.land b0 0xf)].

Fixpoint hex_loop (wordlength : Z) (wordbreak source : list Z) (loops : Z) (target : isc_buffer_t) :
    outcome (isc_result_t * (list Z * isc_buffer_t)) :=
  match source with
  | [] => Done (ISC_R_SUCCESS, ([], target))
  | b0 :: rest =>
      reterr (put_group 2 wordlength wordbreak (hex_group b0) source rest loops target) forget
        (fun s => hex_loop wordlength wordbreak rest (snd (fst s)) (snd s))
  end.

Definition isc_hex_totext (source : list Z) (wordlength : Z) (wordbreak : list Z) (target : isc_buffer_t) :
    outcome (isc_result_t * (list Z * isc_buffer_t)) :=
  let wordlength := if wordlength <? 2 then 2 else wordlength in
  hex_loop wordlength wordbreak source 0 target.

(** The state of a decoder; [x_seen_end] and [x_seen_32] are used by base64 and
    base32 only. *)
Record decode_ctx := mkctx {
  x_length : Z;
  x_target : isc_buffer_t;
  x_digits : Z;
  x_val : list Z;
  x_seen_end : bool;
  x_seen_32 : Z
}.

(** The interface of a decoder. *)
Class Decoder (D : Type) := {
  decode_char : D -> decode_ctx -> Z -> outcome (isc_result_t * decode_ctx);
  decode_bad : D -> isc_result_t
}.

(** [*_decode_init]; the array [val] holds whatever was on the stack. *)
Definition decode_init (length : Z) (target : isc_buffer_t) (val : list Z) : decode_ctx :=
  mkctx length target 0 val false 0.

(** [*_decode_finish]. *)
Definition decode_finish {D} `{Decoder D} (d : D) (ctx : decode_ctx) : isc_result_t :=
  if 0 <? x_length ctx then ISC_R_UNEXPECTEDEND
  else if negb (x_digits ctx =? 0) then decode_bad d
  else ISC_R_SUCCESS.

Definition isspace4 (c : Z) : bool := (c =? 32) || (c =? 9) || (c =? 10) || (c =? 13).

(** [for (;;)] of the [*_decodestring] functions; a string without a
    terminator is read past its end. *)
Fixpoint decode_loop {D} `{Decoder D} (d : D) (cstr : list Z) (ctx : decode_ctx) :
    outcome (isc_result_t * decode_ctx) :=
  match cstr with
  | [] => Undef
  | c :: cstr =>
      if c =? 0 then Done (ISC_R_SUCCESS, ctx)
      else if isspace4 c then decode_loop d cstr ctx
      else reterr (decode_char d ctx c) id (fun ctx => decode_loop d cstr ctx)
  end.

Definition decodestring {D} `{Decoder D} (d : D) (val cstr : list Z) (target : isc_buffer_t) :
    outcome (isc_result_t * isc_buffer_t) :=
  let* (r, ctx) := decode_loop d cstr (decode_init (-1) target val) in
  if bool_decide (r = ISC_R_SUCCESS) then Done (decode_finish d ctx, x_target ctx) else Done (r, x_target ctx).

Definition toupper (c : Z) : Z := if (97 <=? c) && (c <=? 122) then c - 32 else c.

(** The common end of the decoders: [n] octets of [buf] are stored. *)
Definition decode_store (bad : isc_result_t) (ctx : decode_ctx) (buf : list Z) (n : Z) :
    outcome (isc_result_t * decode_ctx) :=
  reterr (mem_tobuffer (x_target ctx) (sub buf 0 n))
    (fun t => mkctx (x_length ctx) t (x_digits ctx) (x_val ctx) (x_seen_end ctx) (x_seen_32 ctx))
    (fun t =>
      let done_ := fun length => mkctx length t 0 (x_val ctx) (x_seen_end ctx) (x_seen_32 ctx) in
      if 0 <=? x_length ctx then
        if x_length ctx <? n
        then Done (bad, mkctx (x_length ctx) t (x_digits ctx) (x_val ctx) (x_seen_end ctx) (x_seen_32 ctx))
        else Done (ISC_R_SUCCESS, done_ (x_length ctx - n))
      else Done (ISC_R_SUCCESS, done_ (x_length ctx))).

(** [ctx->val[ctx->digits++] = v]. *)
Definition push_digit (ctx : decode_ctx) (v : Z) : outcome decode_ctx :=
  let* val := wr (x_val ctx) (x_digits ctx) v in
  Done (mkctx (x_length ctx) (x_target ctx) (x_digits ctx + 1) val (x_seen_end ctx) (x_seen_32 ctx)).

Definition hex_decode_char (ctx : decode_ctx) (c : Z) : outcome (isc_result_t * decode_ctx) :=
  match strchr hex (toupper c) with
  | None => Done (ISC_R_BADHEX, ctx)
  | Some s =>
      let* ctx := push_digit ctx s in
      if x_digits ctx =? 2 then
        let* v0 := rd (x_val ctx) 0 in
        let* v1 := rd (x_val ctx) 1 in
        decode_store ISC_R_BADHEX ctx [u8 (Z.shiftl v0 4 + v1)] 1
      else Done (ISC_R_SUCCESS, ctx)
  end.

Inductive hex_decoder : Type := Hex.
#[export] Instance hex_Decoder : Decoder hex_decoder := {
  decode_char _ := hex_decode_char;
  decode_bad _ := ISC_R_BADHEX
}.

Definition isc_hex_decodestring (val cstr : list Z) (target : isc_buffer_t) :
    outcome (isc_result_t * isc_buffer_t) := decodestring Hex val cstr target.

(** ** base64.c *)

Definition base64 : list Z :=
  map Z.of_nat (seq 65 26) ++ map Z.of_nat (seq 97 26) ++ map Z.of_nat (seq 48 10) ++ [43; 47; 61].

Definition b64_0 (b0 : Z) : Z := Z.land (Z.shiftr b0 2) 0x3f.
Definition b64_1 (b0 b1 : Z) : Z := Z.lor (Z.land (Z.shiftl b0 4) 0x30) (Z.land (Z.shiftr b1 4) 0x0f).
Definition b64_2 (b1 b2 : Z) : Z := Z.lor (Z.land (Z.shiftl b1 2) 0x3c) (Z.land (Z.shiftr b2 6) 0x03).
Definition b64_3 (b2 : Z) : Z := Z.land b2 0x3f.

Definition base64_group (b0 b1 b2 : Z) : list Z :=
  map (char_at base64) [b64_0 b0; b64_1 b0 b1; b64_2 b1 b2; b64_3 b2].

(** [while (source->length > 2)] and the two tails. *)
Fixpoint base64_loop (wordlength : Z) (wordbreak source : list Z) (loops : Z) (target : isc_buffer_t) :
    outcome (isc_result_t * (list Z * isc_buffer_t)) :=
  match source with
  | b0 :: b1 :: b2 :: rest =>
      reterr (put_group 4 wordlength wordbreak (base64_group b0 b1 b2) source rest loops target) forget
        (fun s => base64_loop wordlength wordbreak rest (snd (fst s)) (snd s))
  | [b0; b1] =>
      reterr (str_totext [char_at base64 (b64_0 b0); char_at base64 (b64_1 b0 b1);
                          char_at base64 (Z.land (Z.shiftl b1 2) 0x3c); 61] target)
        (fun t => ([b0; b1], t)) (fun t => Done (ISC_R_SUCCESS, ([], t)))
  | [b0] =>
      reterr (str_totext [char_at base64 (b64_0 b0); char_at base64 (Z.land (Z.shiftl b0 4) 0x30); 61; 61] target)
        (fun t => ([b0], t)) (fun t => Done (ISC_R_SUCCESS, ([], t)))
  | [] => Done (ISC_R_SUCCESS, ([], target))
  end.

Definition isc_base64_totext (source : list Z) (wordlength : Z) (wordbreak : list Z) (target : isc_buffer_t) :
    outcome (isc_result_t * (list Z * isc_buffer_t)) :=
  let wordlength := if wordlength <? 4 then 4 else wordlength in
  base64_loop wordlength wordbreak source 0 target.

Definition base64_decode_char (ctx : decode_ctx) (c : Z) : outcome (isc_result_t * decode_ctx) :=
  if x_seen_end ctx then Done (ISC_R_BADBASE64, ctx)
  else
    match strchr base64 c with
    | None => Done (ISC_R_BADBASE64, ctx)
    | Some s =>
        let* ctx := push_digit ctx s in
        if x_digits ctx =? 4 then
          let* v0 := rd (x_val ctx) 0 in
          let* v1 := rd (x_val ctx) 1 in
          let* v2 := rd (x_val ctx) 2 in
          let* v3 := rd (x_val ctx) 3 in
          if (v0 =? 64) || (v1 =? 64) then Done (ISC_R_BADBASE64, ctx)
          else if (v2 =? 64) && negb (v3 =? 64) then Done (ISC_R_BADBASE64, ctx)
          else if (v2 =? 64) && negb (Z.land v1 0xf =? 0) then Done (ISC_R_BADBASE64, ctx)
          else if (v3 =? 64) && negb (Z.land v2 0x3 =? 0) then Done (ISC_R_BADBASE64, ctx)
          else
            let n := if v2 =? 64 then 1 else if v3 =? 64 then 2 else 3 in
            let* ctx := (if negb (n =? 3) then
                           let* val := (if v2 =? 64 then wr (x_val ctx) 2 0 else Done (x_val ctx)) in
                           let* val := (if v3 =? 64 then wr val 3 0 else Done val) in
                           Done (mkctx (x_length ctx) (x_target ctx) (x_digits ctx) val true (x_seen_32 ctx))
                         else Done ctx) in
            let* v2 := rd (x_val ctx) 2 in
            let* v3 := rd (x_val ctx) 3 in
            let buf := [u8 (Z.lor (Z.shiftl v0 2) (Z.shiftr v1 4));
                        u8 (Z.lor (Z.shiftl v1 4) (Z.shiftr v2 2));
                        u8 (Z.lor (Z.shiftl v2 6) v3)] in
            decode_store ISC_R_BADBASE64 ctx buf n
        else Done (ISC_R_SUCCESS, ctx)
    end.

Inductive base64_decoder : Type := Base64.
#[export] Instance base64_Decoder : Decoder base64_decoder := {
  decode_char _ := base64_decode_char;
  decode_bad _ := ISC_R_BADBASE64
}.

Definition isc_base64_decodestring (val cstr : list Z) (target : isc_buffer_t) :
    outcome (isc_result_t * isc_buffer_t) := decodestring Base64 val cstr target.

(** ** base32.c *)

Definition base32 : list Z :=
  map Z.of_nat (seq 65 26) ++ map Z.of_nat (seq 50 6) ++ [61] ++
  map Z.of_nat (seq 97 26) ++ map Z.of_nat (seq 50 6).
Definition base32hex : list Z :=
  map Z.of_nat (seq 48 10) ++ map Z.of_nat (seq 65 22) ++ [61] ++
  map Z.of_nat (seq 48 10) ++ map Z.of_nat (seq 97 22).

(** The digits of a group; the second argument of a digit is 0 at the end of
    the data, as in the code's tails. *)
Definition b32_0 (b0 : Z) : Z := Z.land (Z.shiftr b0 3) 0x1f.
Definition b32_1 (b0 b1 : Z) : Z := Z.lor (Z.land (Z.shiftl b0 2) 0x1c) (Z.land (Z.shiftr b1 6) 0x03).
Definition b32_2 (b1 : Z) : Z := Z.land (Z.shiftr b1 1) 0x1f.
Definition b32_3 (b1 b2 : Z) : Z := Z.lor (Z.land (Z.shiftl b1 4) 0x10) (Z.land (Z.shiftr b2 4) 0x0f).
Definition b32_4 (b2 b3 : Z) : Z := Z.lor (Z.land (Z.shiftl b2 1) 0x1e) (Z.land (Z.shiftr b3 7) 0x01).
Definition b32_5 (b3 : Z) : Z := Z.land (Z.shiftr b3 2) 0x1f.
Definition b32_6 (b3 b4 : Z) : Z := Z.lor (Z.land (Z.shiftl b3 3) 0x18) (Z.land (Z.shiftr b4 5) 0x07).
Definition b32_7 (b4 : Z) : Z := Z.land b4 0x1f.

(** [while (source->length > 0)]; a group of fewer than five octets ends it. *)
Fixpoint base32_loop (base : list Z) (wordlength : Z) (wordbreak source : list Z) (loops : Z)
    (target : isc_buffer_t) : outcome (isc_result_t * (list Z * isc_buffer_t)) :=
  let last digits :=
    reterr (str_totext (map (char_at base) digits ++ replicate (8 - length digits) 61) target)
      (fun t => (source, t)) (fun t => Done (ISC_R_SUCCESS, ([], t))) in
  match source with
  | [] => Done (ISC_R_SUCCESS, ([], target))
  | [b0] => last [b32_0 b0; Z.land (Z.shiftl b0 2) 0x1c]
  | [b0; b1] => last [b32_0 b0; b32_1 b0 b1; b32_2 b1; Z.land (Z.shiftl b1 4) 0x10]
  | [b0; b1; b2] => last [b32_0 b0; b32_1 b0 b1; b32_2 b1; b32_3 b1 b2; Z.land (Z.shiftl b2 1) 0x1e]
  | [b0; b1; b2; b3] =>
      last [b32_0 b0; b32_1 b0 b1; b32_2 b1; b32_3 b1 b2; b32_4 b2 b3; b32_5 b3;
            Z.land (Z.shiftl b3 3) 0x18]
  | b0 :: b1 :: b2 :: b3 :: b4 :: rest =>
      reterr (put_group 8 wordlength wordbreak
                (map (char_at base) [b32_0 b0; b32_1 b0 b1; b32_2 b1; b32_3 b1 b2; b32_4 b2 b3;
                                     b32_5 b3; b32_6 b3 b4; b32_7 b4]) source rest loops target) forget
        (fun s => base32_loop base wordlength wordbreak rest (snd (fst s)) (snd s))
  end.

Definition base32_totext (source : list Z) (wordlength : Z) (wordbreak : list Z) (target : isc_buffer_t)
    (base : list Z) : outcome (isc_result_t * (list Z * isc_buffer_t)) :=
  let wordlength := if (0 <=? wordlength) && (wordlength <? 8) then 8 else wordlength in
  base32_loop base wordlength wordbreak source 0 target.

Definition isc_base32_totext (source : list Z) (wordlength : Z) (wordbreak : list Z) (target : isc_buffer_t) :=
  base32_totext source wordlength wordbreak target base32.
Definition isc_base32hex_totext (source : list Z) (wordlength : Z) (wordbreak : list Z) (target : isc_buffer_t) :=
  base32_totext source wordlength wordbreak target base32hex.

(** The [switch (ctx->digits)]: [None] is ISC_R_BADBASE32, otherwise the new
    [seen_32]. *)
Definition pad_bytes (ctx : decode_ctx) : outcome (option Z) :=
  let zero i mask n := let* v := rd (x_val ctx) i in
                       Done (if negb (Z.land v mask =? 0) then None else Some n) in
  match x_digits ctx with
  | 0 | 1 => Done None
  | 2 => zero 1 0x03 1
  | 3 => Done None
  | 4 => zero 3 0x0f 3
  | 5 => zero 4 0x01 3
  | 6 => Done None
  | 7 => zero 6 0x07 4
  | _ => Done (Some (x_seen_32 ctx))
  end.

(** The block that runs when [ctx->digits == 8]. *)
Definition base32_store (ctx : decode_ctx) : outcome (isc_result_t * decode_ctx) :=
  let ctx := if negb (x_seen_32 ctx =? 0)
             then mkctx (x_length ctx) (x_target ctx) (x_digits ctx) (x_val ctx) true (x_seen_32 ctx)
             else ctx in
  let n := if negb (x_seen_32 ctx =? 0) then x_seen_32 ctx else 5 in
  let* v0 := rd (x_val ctx) 0 in
  let* v1 := rd (x_val ctx) 1 in
  let* v2 := rd (x_val ctx) 2 in
  let* v3 := rd (x_val ctx) 3 in
  let* v4 := rd (x_val ctx) 4 in
  let* v5 := rd (x_val ctx) 5 in
  let* v6 := rd (x_val ctx) 6 in
  let* v7 := rd (x_val ctx) 7 in
  let buf := [u8 (Z.lor (Z.shiftl v0 3) (Z.shiftr v1 2));
              u8 (Z.lor (Z.lor (Z.shiftl v1 6) (Z.shiftl v2 1)) (Z.shiftr v3 4));
              u8 (Z.lor (Z.shiftl v3 4) (Z.shiftr v4 1));
              u8 (Z.lor (Z.lor (Z.shiftl v4 7) (Z.shiftl v5 2)) (Z.shiftr v6 3));
              u8 (Z.lor (Z.shiftl v6 5) v7)] in
  decode_store ISC_R_BADBASE32 ctx buf n.

Definition base32_decode_char (base : list Z) (ctx : decode_ctx) (c : Z) :
    outcome (isc_result_t * decode_ctx) :=
  if x_seen_end ctx then Done (ISC_R_BADBASE32, ctx)
  else
    match strchr base c with
    | None => Done (ISC_R_BADBASE32, ctx)
    | Some s =>
        let last := if 32 <? s then s - 33 else s in
        if negb (last =? 32) && negb (x_seen_32 ctx =? 0) then Done (ISC_R_BADBASE32, ctx)
        else
          let* pad := (if (last =? 32) && (x_seen_32 ctx =? 0) then pad_bytes ctx
                       else Done (Some (x_seen_32 ctx))) in
          match pad with
          | None => Done (ISC_R_BADBASE32, ctx)
          | Some seen_32 =>
              let ctx := mkctx (x_length ctx) (x_target ctx) (x_digits ctx) (x_val ctx) (x_seen_end ctx) seen_32 in
              let* ctx := push_digit ctx (if last =? 32 then 0 else last) in
              if x_digits ctx =? 8 then base32_store ctx
              else Done (ISC_R_SUCCESS, ctx)
          end
    end.

(** A base32 decoder is its alphabet. *)
Inductive base32_decoder : Type := Base32 (base : list Z).
#[export] Instance base32_Decoder : Decoder base32_decoder := {
  decode_char d := let 'Base32 base := d in base32_decode_char base;
  decode_bad _ := ISC_R_BADBASE32
}.

Definition isc_base32_decodestring (val cstr : list Z) (target : isc_buffer_t) :=
  decodestring (Base32 base32) val cstr target.
Definition isc_base32hex_decodestring (val cstr : list Z) (target : isc_buffer_t) :=
  decodestring (Base32 base32hex) val cstr target.

(** [while (source->length != 0)] of [base32_decoderegion]: the context and the
    part of the region that was not consumed. *)
Fixpoint decoderegion_loop {D} `{Decoder D} (d : D) (source : list Z) (ctx : decode_ctx) :
    outcome (isc_result_t * (list Z * decode_ctx)) :=
  match source with
  | [] => Done (ISC_R_SUCCESS, ([], ctx))
  | c :: rest =>
      reterr (decode_char d ctx c) (fun ctx => (source, ctx)) (fun ctx => decoderegion_loop d rest ctx)
  end.

Definition base32_decoderegion (base val source : list Z) (target : isc_buffer_t) :
    outcome (isc_result_t * (list Z * isc_buffer_t)) :=
  let* (r, (rest, ctx)) := decoderegion_loop (Base32 base) source (decode_init (-1) target val) in
  if bool_decide (r = ISC_R_SUCCESS)
  then Done (decode_finish (Base32 base) ctx, (rest, x_target ctx)) else Done (r, (rest, x_target ctx)).

Definition isc_base32_decoderegion (val source : list Z) (target : isc_buffer_t) :=
  base32_decoderegion base32 val source target.
Definition isc_base32hex_decoderegion (val source : list Z) (target : isc_buffer_t) :=
  base32_decoderegion base32hex val source target.

(** ** Writing text *)

Lemma appended_trans t t1 t2 a b : appended t t1 a -> appended t1 t2 b -> appended t t2 (a ++ b).
Proof.
  intros (base1 & H1 & ->) (base2 & H2 & ->). cbn in H2. exists base2. split; [by eapply blit_then|].
  unfold set_used, set_base. cbn. f_equal. rewrite Zlen_app. lia.
Qed.

Lemma appended_used t t' a : appended t t' a -> b_used t' = b_used t + Zlen a /\ b_length t' = b_length t.
Proof. intros (base & H & ->). pose proof (Zlen_blit _ _ _ _ H). cbn. unfold b_length. cbn. lia. Qed.

Lemma appended_nil t : wf_buffer t -> appended t t [].
Proof.
  intros [T1 T2 T3 T4 T5]. exists (b_base t). split; [apply blit_nil; unfold b_length in *; lia|].
  destruct t. cbn. unfold set_used, set_base. cbn. f_equal. change (Zlen []) with 0. lia.
Qed.

Lemma mem_tobuffer_spec t s : wf_buffer t -> bytes s ->
  if Zlen s <=? b_length t - b_used t
  then exists t', mem_tobuffer t s = Done (ISC_R_SUCCESS, t') /\ wf_buffer t' /\ appended t t' s
  else mem_tobuffer t s = Done (ISC_R_NOSPACE, t).
Proof.
  intros Ht Hs. pose proof Ht as [T1 T2 T3 T4 T5]. unfold mem_tobuffer.
  assert (Hav : Zlen (isc_buffer_availableregion t) = b_length t - b_used t).
  { unfold isc_buffer_availableregion, isc_buffer_availablelength. rewrite u32_small by lia.
    apply Zlen_sub; unfold b_length in *; lia. }
  rewrite Hav. destruct (Zlen s <=? b_length t - b_used t) eqn:E; bool_prop.
  - rewrite (proj2 (Z.ltb_ge _ _)) by lia.
    assert (Hb := blit_ok (b_base t) (b_used t) s ltac:(lia) ltac:(unfold b_length in *; lia)).
    rewrite Hb. cbn [obind]. rewrite (add_after_blit t _ _ Ht Hb). cbn [obind].
    eexists. split; [reflexivity|]. split; [|by eexists]. by destruct (append_spec t s _ Ht Hs Hb).
  - by rewrite (proj2 (Z.ltb_lt _ _)) by lia.
Qed.

(** Text without the white space the decoders skip. *)
Definition nonspace (l : list Z) : list Z := filter (fun c => isspace4 c = false) l.
Definition spaces (l : list Z) : Prop := bytes l /\ Forall (fun c => isspace4 c = true) l.
Definition visible (l : list Z) : Prop := bytes l /\ Forall (fun c => isspace4 c = false /\ c <> 0) l.

Lemma nonspace_visible l : visible l -> nonspace l = l.
Proof.
  intros [_ H]. unfold nonspace. induction H as [|c l [Hc _] _ IH]; [done|].
  rewrite filter_cons_True by done. by rewrite IH.
Qed.

Lemma nonspace_spaces l : spaces l -> nonspace l = [].
Proof.
  intros [_ H]. unfold nonspace. induction H as [|c l Hc _ IH]; [done|].
  rewrite filter_cons_False by congruence. done.
Qed.

Lemma nonspace_app a b : nonspace (a ++ b) = nonspace a ++ nonspace b.
Proof. apply filter_app. Qed.

(** What an encoder leaves behind: [out] is the text [txt] with line breaks, or
    the room is less than the text with a break after every octet. *)
Definition nonzero (l : list Z) : Prop := Forall (fun c => c <> 0) l.

Definition encoded (t : isc_buffer_t) (txt : list Z) (room : Z)
    (res : outcome (isc_result_t * (list Z * isc_buffer_t))) : Prop :=
  exists r rest t' out, res = Done (r, (rest, t')) /\ wf_buffer t' /\ appended t t' out /\
    ((r = ISC_R_SUCCESS /\ rest = [] /\ nonspace out = txt /\ nonzero out) \/
     (r = ISC_R_NOSPACE /\ b_length t - b_used t < room)).

Section encode.
Context (wordbreak : list Z) (Hwb : spaces wordbreak).

Lemma visible_nonzero l : visible l -> nonzero l.
Proof. intros [_ H]. eapply Forall_impl; [exact H|]. by intros ? []. Qed.

Lemma spaces_nonzero l : spaces l -> nonzero l.
Proof. intros [_ H]. eapply Forall_impl; [exact H|]. intros c Hc ->. done. Qed.

Lemma put_group_spec w wordlength buf source rest loops t : wf_buffer t -> visible buf ->
  exists r s t' out, put_group w wordlength wordbreak buf source rest loops t = Done (r, (s, t')) /\
    wf_buffer t' /\ appended t t' out /\
    ((r = ISC_R_SUCCESS /\ fst s = rest /\ nonspace out = buf /\ nonzero out /\ Zlen out <= Zlen buf + Zlen wordbreak) \/
     (r = ISC_R_NOSPACE /\ b_length t - b_used t < Zlen buf + Zlen wordbreak)).
Proof.
  intros Ht Hv. unfold put_group, reterr, str_totext. pose proof (Zlen_nonneg wordbreak).
  pose proof (mem_tobuffer_spec t buf Ht (proj1 Hv)) as Hm. destruct (Zlen buf <=? _) eqn:E; bool_prop.
  2:{ rewrite Hm. cbn. exists ISC_R_NOSPACE, (source, loops), t, []. split_and!; try done; [by apply appended_nil|].
      right. split; [done|lia]. }
  destruct Hm as (t1 & -> & Ht1 & Ha1). cbn [obind]. change (bool_decide (ISC_R_SUCCESS = ISC_R_SUCCESS)) with true. cbn iota.
  destruct (appended_used _ _ _ Ha1) as [Hu1 HL1].
  pose proof (nonspace_visible _ Hv) as Hns. pose proof (visible_nonzero _ Hv) as Hnz.
  destruct (_ && _).
  2:{ exists ISC_R_SUCCESS, (rest, u32 (loops + 1)), t1, buf. split_and!; try done. left. split_and!; try done. lia. }
  pose proof (mem_tobuffer_spec t1 wordbreak Ht1 (proj1 Hwb)) as Hm. destruct (Zlen wordbreak <=? _) eqn:E2; bool_prop.
  2:{ rewrite Hm. cbn. exists ISC_R_NOSPACE, (rest, 0), t1, buf. split_and!; try done. right. split; [done|lia]. }
  destruct Hm as (t2 & -> & Ht2 & Ha2). cbn.
  exists ISC_R_SUCCESS, (rest, 0), t2, (buf ++ wordbreak). split_and!; try done; [by eapply appended_trans|].
  left. split_and!; try done.
  - by rewrite nonspace_app, Hns, (nonspace_spaces _ Hwb), app_nil_r.
  - apply Forall_app. split; [done|by apply spaces_nonzero].
  - rewrite Zlen_app. lia.
Qed.

(** One iteration followed by the rest of the loop. *)
Lemma encoded_step w wordlength buf source rest loops t k txt room :
  wf_buffer t -> visible buf ->
  (forall s t1, wf_buffer t1 -> encoded t1 txt room (k (rest, s, t1))) ->
  0 <= room ->
  encoded t (buf ++ txt) (Zlen buf + Zlen wordbreak + room)
    (reterr (put_group w wordlength wordbreak buf source rest loops t) forget k).
Proof.
  intros Ht Hv Hk Hroom.
  destruct (put_group_spec w wordlength buf source rest loops t Ht Hv) as (r & [s l] & t1 & out & -> & Ht1 & Ha1 & H).
  unfold reterr. cbn [obind]. destruct H as [(-> & Hs & Hns & Hnz & Hlen)|(-> & Hlt)].
  - cbn in Hs. subst s. change (bool_decide (ISC_R_SUCCESS = ISC_R_SUCCESS)) with true. cbn iota.
    destruct (Hk l t1 Ht1) as (r & rst & t2 & out2 & -> & Ht2 & Ha2 & H). destruct (appended_used _ _ _ Ha1) as [Hu1 HL1].
    exists r, rst, t2, (out ++ out2). split_and!; try done; [by eapply appended_trans|].
    destruct H as [(-> & -> & Hns2 & Hnz2)|(-> & Hlt)]; [left|right].
    + split_and!; try done; [by rewrite nonspace_app, Hns, Hns2|by apply Forall_app].
    + split; [done|lia].
  - change (bool_decide (ISC_R_NOSPACE = ISC_R_SUCCESS)) with false. cbn iota.
    do 4 eexists. split; [reflexivity|]. split_and!; try done. right. split; [done|lia].
Qed.

(** A last group, written in one piece. *)
Lemma encoded_last buf source t room : wf_buffer t -> visible buf -> Zlen buf <= room ->
  encoded t buf room
    (reterr (str_totext buf t) (fun t => (source, t)) (fun t => Done (ISC_R_SUCCESS, ([], t)))).
Proof.
  intros Ht Hv Hroom. unfold reterr, str_totext. pose proof (mem_tobuffer_spec t buf Ht (proj1 Hv)) as Hm.
  destruct (Zlen buf <=? _) eqn:E; bool_prop.
  - destruct Hm as (t1 & -> & Ht1 & Ha1). cbn. exists ISC_R_SUCCESS, [], t1, buf. split_and!; try done.
    left. split_and!; try done; [by apply nonspace_visible|by apply visible_nonzero].
  - rewrite Hm. cbn. exists ISC_R_NOSPACE, source, t, []. split_and!; try done; [by apply appended_nil|].
    right. split; [done|lia].
Qed.

Lemma encoded_none t : wf_buffer t -> encoded t [] 0 (Done (ISC_R_SUCCESS, ([], t))).
Proof.
  intros Ht. exists ISC_R_SUCCESS, [], t, []. split_and!; try done; [by apply appended_nil|]. left.
  split_and!; try done. constructor.
Qed.

Lemma encoded_weaken t txt room room' res : encoded t txt room res -> room <= room' -> encoded t txt room' res.
Proof.
  intros (r & rest & t' & out & E & Ht & Ha & H) Hle. exists r, rest, t', out. split_and!; try done.
  destruct H as [H|[H1 H2]]; [by left|right; split; [done|lia]].
Qed.
End encode.

(** ** Reading text *)

(** The digits buffered in a context. *)
Definition holds (ctx : decode_ctx) (t : isc_buffer_t) (vs : list Z) (n : Z) : Prop :=
  x_length ctx = -1 /\ x_target ctx = t /\ x_digits ctx = Zlen vs /\ vs `prefix_of` x_val ctx /\
  n <= Zlen (x_val ctx) /\ x_seen_end ctx = false.

Lemma push_spec ctx t vs n v : holds ctx t vs n -> Zlen vs < n ->
  exists ctx', push_digit ctx v = Done ctx' /\ holds ctx' t (vs ++ [v]) n /\ x_seen_32 ctx' = x_seen_32 ctx.
Proof.
  intros (H1 & H2 & H3 & [r Hr] & H5 & H6) Hlt. unfold push_digit. rewrite Hr, H3.
  destruct r as [|x r]; [rewrite Hr, app_nil_r in H5; lia|].
  assert (Hw : wr (vs ++ x :: r) (Zlen vs) v = Done (vs ++ v :: r)).
  { rewrite wr_ok by (rewrite Zlen_app, Zlen_cons; pose proof (Zlen_nonneg vs); pose proof (Zlen_nonneg r); lia).
    f_equal. rewrite insert_app_r_alt by (unfold Zlen; lia).
    by replace (Z.to_nat (Zlen vs) - length vs)%nat with 0%nat by (unfold Zlen; lia). }
  rewrite Hw. cbn [obind]. eexists. split; [reflexivity|]. split; [|done]. split_and!; cbn; try done.
  - by rewrite Zlen_app.
  - exists r. by rewrite <- app_assoc.
  - rewrite Hr in H5. rewrite Zlen_app, Zlen_cons in *. lia.
Qed.

Lemma holds_rd ctx t vs n i v : holds ctx t vs n -> vs !! i = Some v -> rd (x_val ctx) (Z.of_nat i) = Done v.
Proof. intros (_ & _ & _ & Hp & _) Hv. by apply (prefix_rd vs). Qed.

(** Feeding [txt] leads from one context to another. *)
Definition feeds {D} `{Decoder D} (d : D) (txt : list Z) (ctx ctx' : decode_ctx) : Prop :=
  forall rest, decode_loop d (txt ++ rest) ctx = decode_loop d rest ctx'.

Section feeds.
Context {D : Type} `{Decoder D} (d : D).

Lemma feeds_nil ctx : feeds d [] ctx ctx.
Proof. done. Qed.

Lemma feeds_app a b c1 c2 c3 : feeds d a c1 c2 -> feeds d b c2 c3 -> feeds d (a ++ b) c1 c3.
Proof. intros H1 H2 rest. by rewrite <- app_assoc, H1, H2. Qed.

Lemma feeds_char c ctx ctx' : isspace4 c = false -> c <> 0 -> decode_char d ctx c = Done (ISC_R_SUCCESS, ctx') ->
  feeds d [c] ctx ctx'.
Proof.
  intros Hs Hz E rest. cbn [app decode_loop]. rewrite (proj2 (Z.eqb_neq c 0)), Hs by done. unfold reterr. by rewrite E.
Qed.

(** White space is skipped. *)
Lemma decode_skip out ctx : nonzero out -> decode_loop d (out ++ [0]) ctx = decode_loop d (nonspace out ++ [0]) ctx.
Proof.
  intros Hz. revert ctx. induction Hz as [|c out Hc _ IH]; intros ctx; [done|].
  unfold nonspace. destruct (isspace4 c) eqn:E.
  - rewrite filter_cons_False by congruence. cbn [app decode_loop]. rewrite (proj2 (Z.eqb_neq c 0)), E by done. apply IH.
  - rewrite filter_cons_True by done. cbn [app decode_loop]. rewrite (proj2 (Z.eqb_neq c 0)), E by done.
    unfold reterr. destruct (decode_char d ctx c) as [[r ctx']| | |]; try done. cbn [obind].
    destruct (bool_decide _); [apply IH|done].
Qed.

(** A text that is fed completely is decoded. *)
Lemma feeds_decode out txt val t ctx' : nonzero out -> nonspace out = txt ->
  feeds d txt (decode_init (-1) t val) ctx' -> x_length ctx' = -1 -> x_digits ctx' = 0 ->
  decodestring d val (out ++ [0]) t = Done (ISC_R_SUCCESS, x_target ctx').
Proof.
  intros Hz Hn Hf Hl Hd. unfold decodestring. rewrite decode_skip, Hn, Hf by done. cbn.
  unfold decode_finish. by rewrite Hl, Hd.
Qed.
End feeds.

Lemma store_spec bad ctx t buf k : x_length ctx = -1 -> x_target ctx = t -> wf_buffer t -> bytes buf -> 0 <= k <= Zlen buf ->
  k <= b_length t - b_used t ->
  exists ctx' t', decode_store bad ctx buf k = Done (ISC_R_SUCCESS, ctx') /\ wf_buffer t' /\
    appended t t' (sub buf 0 k) /\ x_length ctx' = -1 /\ x_target ctx' = t' /\ x_digits ctx' = 0 /\
    x_val ctx' = x_val ctx /\ x_seen_end ctx' = x_seen_end ctx /\ x_seen_32 ctx' = x_seen_32 ctx.
Proof.
  intros H1 H2 Ht Hb Hk Hroom. unfold decode_store, reterr. rewrite H2, H1.
  pose proof (mem_tobuffer_spec t (sub buf 0 k) Ht (bytes_sub _ _ _ Hb)) as Hm.
  assert (Hlen : Zlen (sub buf 0 k) = k) by (apply Zlen_sub; lia).
  rewrite Hlen, (proj2 (Z.leb_le _ _) Hroom) in Hm. destruct Hm as (t' & -> & Ht' & Ha). cbn.
  do 2 eexists. split; [reflexivity|]. by split_and!.
Qed.

(** *** Bits *)

Lemma u8_lor a b : u8 (Z.lor a b) = Z.lor (u8 a) (u8 b).
Proof. unfold u8. rewrite <- !(Z.land_ones _ 8) by lia. apply Z.land_lor_distr_l. Qed.

Lemma byte_ext (f g : Z -> Z) : forallb (fun b => f b =? g b) (map Z.of_nat (seq 0 256)) = true ->
  forall b, is_byte b -> f b = g b.
Proof. intros H b Hb. apply Z.eqb_eq. by apply (byte_forall (fun b => f b =? g b)). Qed.

(** ** Hexadecimal *)

Definition enc_hex (source : list Z) : list Z := concat (map hex_group source).

Definition is_visible (c : Z) : bool := is_byteb c && negb (isspace4 c) && negb (c =? 0).

Lemma is_visible_spec l : forallb is_visible l = true -> visible l.
Proof.
  rewrite forallb_forall. intros H. split; apply Forall_forall; intros c Hc%list_elem_of_In; specialize (H c Hc);
    unfold is_visible in H; bool_prop; [by apply is_byteb_spec|done].
Qed.

Lemma visible_in l c : visible l -> c ∈ l -> isspace4 c = false /\ c <> 0.
Proof. intros [_ H] Hc. rewrite Forall_forall in H. by apply H. Qed.

Lemma hex_digit i : 0 <= i < 16 -> strchr hex (toupper (char_at hex i)) = Some i /\ is_visible (char_at hex i) = true.
Proof.
  intros Hi. pose (P := fun i => bool_decide (strchr hex (toupper (char_at hex i)) = Some i) && is_visible (char_at hex i)).
  assert (H : P i = true) by (apply (range_forall 16 P); [vm_compute; reflexivity|lia]).
  unfold P in H. apply andb_true_iff in H as [H1 H2]. split; [exact (bool_decide_eq_true_1 _ H1)|done].
Qed.

Lemma hex_digits b : is_byte b -> 0 <= Z.land (Z.shiftr b 4) 0xf < 16 /\ 0 <= Z.land b 0xf < 16 /\
  u8 (Z.shiftl (Z.land (Z.shiftr b 4) 0xf) 4 + Z.land b 0xf) = b.
Proof.
  intros Hb. pose (P := fun b => (0 <=? Z.land (Z.shiftr b 4) 0xf) && (Z.land (Z.shiftr b 4) 0xf <? 16) &&
    (0 <=? Z.land b 0xf) && (Z.land b 0xf <? 16) && (u8 (Z.shiftl (Z.land (Z.shiftr b 4) 0xf) 4 + Z.land b 0xf) =? b)).
  assert (H : P b = true) by (apply byte_forall; [vm_compute; reflexivity|done]).
  unfold P in H. bool_prop. lia.
Qed.

Lemma hex_group_visible b : is_byte b -> visible (hex_group b).
Proof.
  intros Hb. destruct (hex_digits b Hb) as (H0 & H1 & _). apply is_visible_spec. unfold hex_group. cbn [forallb].
  by rewrite (proj2 (hex_digit _ H0)), (proj2 (hex_digit _ H1)).
Qed.

Lemma hex_feed ctx t b : holds ctx t [] 2 -> wf_buffer t -> is_byte b -> 1 <= b_length t - b_used t ->
  exists ctx' t', feeds Hex (hex_group b) ctx ctx' /\ holds ctx' t' [] 2 /\ wf_buffer t' /\ appended t t' [b].
Proof.
  intros Hh Ht Hb Hroom. destruct (hex_digits b Hb) as (H0 & H1 & Hval).
  pose proof (hex_group_visible b Hb) as Hvis. unfold hex_group in *.
  set (v0 := Z.land (Z.shiftr b 4) 0xf) in *. set (v1 := Z.land b 0xf) in *.
  destruct (push_spec ctx t [] 2 v0 Hh) as (c1 & E1 & Hh1 & _); [done|]. cbn [app] in Hh1.
  destruct (push_spec c1 t [v0] 2 v1 Hh1) as (c2 & E2 & Hh2 & _); [done|]. cbn [app] in Hh2.
  destruct (store_spec ISC_R_BADHEX c2 t [b] 1 (proj1 Hh2) (proj1 (proj2 Hh2)) Ht) as (c3 & t' & Es & Ht' & Ha & X1 & X2 & X3 & X4 & X5 & _);
    [apply bytes_cons; by split; [|constructor]|by cbn|done|].
  exists c3, t'. split_and!; [|split_and!; try done|done|done].
  - apply (feeds_app Hex [_] [_] ctx c1 c3).
    + apply feeds_char; [by apply (visible_in _ _ Hvis); left|by apply (visible_in _ _ Hvis); left|].
      cbn [decode_char hex_Decoder]. unfold hex_decode_char. rewrite (proj1 (hex_digit v0 H0)), E1. cbn [obind].
      destruct Hh1 as (_ & _ & -> & _). done.
    + apply feeds_char; [by apply (visible_in _ _ Hvis); right; left|by apply (visible_in _ _ Hvis); right; left|].
      cbn [decode_char hex_Decoder]. unfold hex_decode_char. rewrite (proj1 (hex_digit v1 H1)), E2. cbn [obind].
      pose proof Hh2 as (_ & _ & -> & _). change (Zlen [v0; v1] =? 2) with true. cbn iota.
      rewrite (holds_rd _ _ _ _ 0 v0 Hh2 eq_refl : rd (x_val c2) 0 = Done v0). cbn [obind].
      rewrite (holds_rd _ _ _ _ 1 v1 Hh2 eq_refl : rd (x_val c2) 1 = Done v1). cbn [obind]. by rewrite Hval.
  - apply prefix_nil.
  - rewrite X4. apply Hh2.
  - rewrite X5. apply Hh2.
Qed.

Lemma hex_feeds source : forall ctx t, holds ctx t [] 2 -> wf_buffer t -> bytes source ->
  Zlen source <= b_length t - b_used t ->
  exists ctx' t', feeds Hex (enc_hex source) ctx ctx' /\ holds ctx' t' [] 2 /\ wf_buffer t' /\ appended t t' source.
Proof.
  induction source as [|b source IH]; intros ctx t Hh Ht Hs Hroom.
  - exists ctx, t. split_and!; try done. by apply appended_nil.
  - apply bytes_cons in Hs as [Hb Hs]. rewrite Zlen_cons in Hroom. pose proof (Zlen_nonneg source).
    destruct (hex_feed ctx t b Hh Ht Hb) as (c1 & t1 & F1 & Hh1 & Ht1 & A1); [lia|].
    destruct (appended_used _ _ _ A1) as [Hu HL]. change (Zlen [b]) with 1 in Hu.
    destruct (IH c1 t1 Hh1 Ht1 Hs) as (c2 & t2 & F2 & Hh2 & Ht2 & A2); [lia|].
    exists c2, t2. split_and!; try done; [by eapply feeds_app|]. change (b :: source) with ([b] ++ source).
    by eapply appended_trans.
Qed.

Lemma hex_loop_spec wordlength wordbreak source : spaces wordbreak -> bytes source ->
  forall loops t, wf_buffer t ->
  encoded t (enc_hex source) (Zlen (enc_hex source) + Zlen source * Zlen wordbreak)
    (hex_loop wordlength wordbreak source loops t).
Proof.
  intros Hw. induction source as [|b source IH]; intros Hs loops t Ht; cbn [hex_loop]; [by apply encoded_none|].
  apply bytes_cons in Hs as [Hb Hs]. eapply encoded_weaken.
  - apply (encoded_step wordbreak Hw 2 wordlength (hex_group b) (b :: source) source loops t _ (enc_hex source)
      (Zlen (enc_hex source) + Zlen source * Zlen wordbreak) Ht (hex_group_visible b Hb)).
    + intros s t1 Ht1. by apply IH.
    + pose proof (Zlen_nonneg (enc_hex source)). pose proof (Zlen_nonneg source). pose proof (Zlen_nonneg wordbreak). nia.
  - unfold enc_hex. cbn [map concat]. rewrite Zlen_app, Zlen_cons. lia.
Qed.

(** The context the decoders start with. *)
Lemma init_holds t val n : n <= Zlen val -> holds (decode_init (-1) t val) t [] n.
Proof. intros H. split_and!; try done. apply prefix_nil. Qed.

(** A round trip through an encoder and a decoder. *)
Definition codec_roundtrip (source wordbreak txt : list Z) (totext : isc_buffer_t -> outcome (isc_result_t * (list Z * isc_buffer_t)))
    (decode : list Z -> isc_buffer_t -> outcome (isc_result_t * isc_buffer_t)) (result : list Z) (t1 t2 : isc_buffer_t) : Prop :=
  exists r rest t1', totext t1 = Done (r, (rest, t1')) /\ wf_buffer t1' /\
    ((r = ISC_R_NOSPACE /\ b_length t1 - b_used t1 < Zlen txt + Zlen source * Zlen wordbreak) \/
     (r = ISC_R_SUCCESS /\ rest = [] /\
      exists out t2', appended t1 t1' out /\ decode (out ++ [0]) t2 = Done (ISC_R_SUCCESS, t2') /\
        wf_buffer t2' /\ appended t2 t2' result)).

(** Hexadecimal: whatever line length and white space break are chosen,
    what [isc_hex_totext] writes is decoded by [isc_hex_decodestring] to the
    source, octet for octet; it reports ISC_R_NOSPACE only when the text with
    its breaks may not fit. *)
Theorem hex_roundtrip (source wordbreak val : list Z) (wordlength : Z) (t1 t2 : isc_buffer_t) :
  bytes source -> spaces wordbreak -> wf_buffer t1 -> wf_buffer t2 ->
  2 <= Zlen val -> Zlen source <= b_length t2 - b_used t2 ->
  codec_roundtrip source wordbreak (enc_hex source) (isc_hex_totext source wordlength wordbreak)
    (isc_hex_decodestring val) source t1 t2.
Proof.
  intros Hs Hw Ht1 Ht2 Hv Hroom. unfold isc_hex_totext.
  destruct (hex_loop_spec (if wordlength <? 2 then 2 else wordlength) wordbreak source Hw Hs 0 t1 Ht1)
    as (r & rest & t1' & out & E & Ht1' & Ha & H).
  exists r, rest, t1'. split_and!; [done|done|]. destruct H as [(-> & -> & Hns & Hnz)|[-> Hlt]]; [right|by left].
  split_and!; [done|done|].
  destruct (hex_feeds source _ t2 (init_holds t2 val 2 Hv) Ht2 Hs Hroom) as (c' & t2' & F & (X1 & X2 & X3 & _) & Ht2' & A2).
  exists out, t2'. split_and!; try done. rewrite <- X2. by apply (feeds_decode Hex out (enc_hex source)).
Qed.

Lemma hex_roundtrip_witness :
  codec_roundtrip [1; 171; 255] [32] (enc_hex [1; 171; 255]) (isc_hex_totext [1; 171; 255] 4 [32])
    (isc_hex_decodestring [7; 7]) [1; 171; 255] (isc_buffer_init (replicate 20 0)) (isc_buffer_init (replicate 3 0)).
Proof.
  apply hex_roundtrip.
  - apply bytesb_spec. reflexivity.
  - split; [apply bytesb_spec; reflexivity|]. repeat constructor.
  - apply wf_bufferb_spec. reflexivity.
  - apply wf_bufferb_spec. reflexivity.
  - vm_compute. discriminate.
  - vm_compute. discriminate.
Defined.

(** ** Base 64 *)

(** Four characters; the octet after the end counts as 0. *)
Definition quad (v0 v1 v2 v3 : Z) : list Z := map (char_at base64) [v0; v1; v2; v3].

Fixpoint enc64 (source : list Z) : list Z :=
  match source with
  | b0 :: b1 :: b2 :: rest => base64_group b0 b1 b2 ++ enc64 rest
  | [b0; b1] => quad (b64_0 b0) (b64_1 b0 b1) (b64_2 b1 0) 64
  | [b0] => quad (b64_0 b0) (b64_1 b0 0) 64 64
  | [] => []
  end.

Lemma b64_digit i : 0 <= i <= 64 -> strchr base64 (char_at base64 i) = Some i /\ is_visible (char_at base64 i) = true.
Proof.
  intros Hi. pose (P := fun i => bool_decide (strchr base64 (char_at base64 i) = Some i) && is_visible (char_at base64 i)).
  assert (H : P i = true) by (apply (range_forall 65 P); [vm_compute; reflexivity|lia]).
  unfold P in H. apply andb_true_iff in H as [H1 H2]. split; [exact (bool_decide_eq_true_1 _ H1)|done].
Qed.

Lemma land_lor_range a b m k : 0 <= m < 2 ^ k -> 0 <= k -> 0 <= a -> 0 <= b -> Z.land a m = a -> Z.land b m = b ->
  0 <= Z.lor a b < 2 ^ k.
Proof.
  intros Hm Hk Ha Hb H1 H2. assert (E : Z.land (Z.lor a b) m = Z.lor a b) by (by rewrite Z.land_lor_distr_l, H1, H2).
  assert (0 <= Z.lor a b) by (by apply Z.lor_nonneg). split; [done|].
  destruct (Z.eq_dec (Z.lor a b) 0) as [->|]; [lia|]. apply Z.log2_lt_pow2; [lia|].
  pose proof (Z.log2_land (Z.lor a b) m ltac:(done) ltac:(lia)) as Hl. rewrite E in Hl.
  destruct (Z.eq_dec m 0) as [->|]; [rewrite Z.land_0_r in E; lia|].
  assert (Z.log2 m < k) by (apply Z.log2_lt_pow2; lia). lia.
Qed.

(** Both parts of a digit are below [2 ^ k]. *)
Lemma lor_range (f g : Z -> Z) (m k : Z) : 0 <= k -> 0 <= m < 2 ^ k ->
  forallb (fun b => (0 <=? f b) && (Z.land (f b) m =? f b) && (0 <=? g b) && (Z.land (g b) m =? g b)) (map Z.of_nat (seq 0 256)) = true ->
  forall a b, is_byte a -> is_byte b -> 0 <= Z.lor (f a) (g b) < 2 ^ k.
Proof.
  intros Hk Hm H a b Ha Hb.
  pose proof (byte_forall _ H a Ha) as H1. pose proof (byte_forall _ H b Hb) as H2. cbn beta in H1, H2. bool_prop.
  apply (land_lor_range _ _ m); done.
Qed.

Lemma b64_range b0 b1 b2 : is_byte b0 -> is_byte b1 -> is_byte b2 ->
  0 <= b64_0 b0 < 64 /\ 0 <= b64_1 b0 b1 < 64 /\ 0 <= b64_2 b1 b2 < 64 /\ 0 <= b64_3 b2 < 64.
Proof.
  intros H0 H1 H2.
  assert (Hl : forall x, 0 <= Z.land x 63 < 64) by (intros x; change 63 with (Z.ones 6); rewrite Z.land_ones by lia; apply Z.mod_pos_bound; lia).
  split_and!; try apply Hl.
  - apply (lor_range (fun a => Z.land (Z.shiftl a 4) 0x30) (fun b => Z.land (Z.shiftr b 4) 0x0f) 63 6); [lia|lia|by vm_compute|done|done].
  - apply (lor_range (fun a => Z.land (Z.shiftl a 4) 0x30) (fun b => Z.land (Z.shiftr b 4) 0x0f) 63 6); [lia|lia|by vm_compute|done|done].
  - apply (lor_range (fun a => Z.land (Z.shiftl a 2) 0x3c) (fun b => Z.land (Z.shiftr b 6) 0x03) 63 6); [lia|lia|by vm_compute|done|done].
  - apply (lor_range (fun a => Z.land (Z.shiftl a 2) 0x3c) (fun b => Z.land (Z.shiftr b 6) 0x03) 63 6); [lia|lia|by vm_compute|done|done].
Qed.


Lemma b64_bits b0 b1 b2 : is_byte b0 -> is_byte b1 -> is_byte b2 ->
  u8 (Z.lor (Z.shiftl (b64_0 b0) 2) (Z.shiftr (b64_1 b0 b1) 4)) = b0 /\
  u8 (Z.lor (Z.shiftl (b64_1 b0 b1) 4) (Z.shiftr (b64_2 b1 b2) 2)) = b1 /\
  u8 (Z.lor (Z.shiftl (b64_2 b1 b2) 6) (b64_3 b2)) = b2.
Proof.
  intros H0 H1 H2. unfold b64_1, b64_2. rewrite !Z.shiftl_lor, !Z.shiftr_lor, !u8_lor. split_and!.
  - pose proof (byte_ext (fun b => Z.lor (u8 (Z.shiftl (b64_0 b) 2)) (u8 (Z.shiftr (Z.land (Z.shiftl b 4) 48) 4))) id
      ltac:(vm_compute; reflexivity) b0 H0) as E1.
    pose proof (byte_ext (fun b => u8 (Z.shiftr (Z.land (Z.shiftr b 4) 15) 4)) (fun _ => 0) ltac:(vm_compute; reflexivity) b1 H1) as E2.
    cbn beta in E1, E2. rewrite E2, Z.lor_0_r. exact E1.
  - pose proof (byte_ext (fun b => u8 (Z.shiftl (Z.land (Z.shiftl b 4) 48) 4)) (fun _ => 0) ltac:(vm_compute; reflexivity) b0 H0) as E1.
    pose proof (byte_ext (fun b => Z.lor (u8 (Z.shiftl (Z.land (Z.shiftr b 4) 15) 4)) (u8 (Z.shiftr (Z.land (Z.shiftl b 2) 60) 2))) id
      ltac:(vm_compute; reflexivity) b1 H1) as E2.
    pose proof (byte_ext (fun b => u8 (Z.shiftr (Z.land (Z.shiftr b 6) 3) 2)) (fun _ => 0) ltac:(vm_compute; reflexivity) b2 H2) as E3.
    cbn beta in E1, E2, E3. rewrite E1, E3, Z.lor_0_l, Z.lor_0_r. exact E2.
  - pose proof (byte_ext (fun b => u8 (Z.shiftl (Z.land (Z.shiftl b 2) 60) 6)) (fun _ => 0) ltac:(vm_compute; reflexivity) b1 H1) as E1.
    pose proof (byte_ext (fun b => Z.lor (u8 (Z.shiftl (Z.land (Z.shiftr b 6) 3) 6)) (u8 (b64_3 b))) id ltac:(vm_compute; reflexivity) b2 H2) as E2.
    cbn beta in E1, E2. rewrite E1, Z.lor_0_l. exact E2.
Qed.

(** The digits before padding end in zero bits. *)
Lemma b64_zero b : is_byte b -> Z.land (b64_1 b 0) 0xf = 0 /\ Z.land (b64_2 b 0) 0x3 = 0.
Proof.
  intros Hb. split.
  - exact (byte_ext (fun b => Z.land (b64_1 b 0) 15) (fun _ => 0) ltac:(vm_compute; reflexivity) b Hb).
  - exact (byte_ext (fun b => Z.land (b64_2 b 0) 3) (fun _ => 0) ltac:(vm_compute; reflexivity) b Hb).
Qed.

Lemma b64_char ctx t vs v : holds ctx t vs 4 -> Zlen vs < 3 -> 0 <= v <= 64 ->
  exists ctx', feeds Base64 [char_at base64 v] ctx ctx' /\ holds ctx' t (vs ++ [v]) 4.
Proof.
  intros Hh Hl Hv. destruct (b64_digit v Hv) as [Hs Hvis]. unfold is_visible in Hvis. bool_prop.
  destruct (push_spec ctx t vs 4 v Hh) as (c1 & E1 & Hh1 & _); [lia|]. exists c1. split; [|done].
  apply feeds_char; [done|done|]. cbn [decode_char base64_Decoder]. unfold base64_decode_char.
  pose proof Hh as (_ & _ & _ & _ & _ & ->). rewrite Hs, E1. cbn [obind]. destruct Hh1 as (_ & _ & -> & _).
  rewrite Zlen_app, (proj2 (Z.eqb_neq _ 4)); [done|]. change (Zlen [v]) with 1. lia.
Qed.

(** The octets of four digits; [n] of them are significant. *)
Definition b64_octets (v0 v1 v2 v3 : Z) : list Z :=
  let v2' := if v2 =? 64 then 0 else v2 in let v3' := if v3 =? 64 then 0 else v3 in
  sub [u8 (Z.lor (Z.shiftl v0 2) (Z.shiftr v1 4)); u8 (Z.lor (Z.shiftl v1 4) (Z.shiftr v2' 2));
       u8 (Z.lor (Z.shiftl v2' 6) v3')] 0 (if v2 =? 64 then 1 else if v3 =? 64 then 2 else 3).

Lemma b64_octets_bytes v0 v1 v2 v3 : bytes (b64_octets v0 v1 v2 v3).
Proof. apply bytes_sub. repeat (apply bytes_cons; split; [apply u8_range|]). constructor. Qed.

Lemma wr_prefix (vs val : list Z) i v w : vs `prefix_of` val -> vs !! i = Some v ->
  exists val', wr val (Z.of_nat i) w = Done val' /\ <[i := w]> vs `prefix_of` val' /\ Zlen val' = Zlen val.
Proof.
  intros [r ->] Hi. pose proof (lookup_lt_Some _ _ _ Hi). rewrite wr_ok by len. eexists. split; [reflexivity|].
  rewrite Nat2Z.id, insert_app_l by done. split; [by exists r|]. len.
Qed.

(** The padding digits are cleared and the end is noted. *)
Lemma b64_clear ctx t v0 v1 v2 v3 : holds ctx t [v0; v1; v2; v3] 4 -> (v2 = 64 -> v3 = 64) ->
  let v2' := if v2 =? 64 then 0 else v2 in let v3' := if v3 =? 64 then 0 else v3 in
  let n := if v2 =? 64 then 1 else if v3 =? 64 then 2 else 3 in
  exists ctx', (if negb (n =? 3) then
      let* val := (if v2 =? 64 then wr (x_val ctx) 2 0 else Done (x_val ctx)) in
      let* val := (if v3 =? 64 then wr val 3 0 else Done val) in
      Done (mkctx (x_length ctx) (x_target ctx) (x_digits ctx) val true (x_seen_32 ctx)) else Done ctx) = Done ctx' /\
    x_length ctx' = -1 /\ x_target ctx' = t /\ [v0; v1; v2'; v3'] `prefix_of` x_val ctx' /\ 4 <= Zlen (x_val ctx') /\
    (v3 <> 64 -> x_seen_end ctx' = false).
Proof.
  intros (X1 & X2 & X3 & Hp & Hl & Hse) H23 v2' v3' n. unfold n, v2', v3' in *.
  destruct (v3 =? 64) eqn:E3, (v2 =? 64) eqn:E2; bool_prop; cbn [Z.eqb Pos.eqb negb obind]; try tauto.
  - destruct (wr_prefix _ _ 2 v2 0 Hp eq_refl) as (val1 & E1 & Hp1 & Hl1). change (Z.of_nat 2) with 2 in E1.
    rewrite E1. cbn [obind]. destruct (wr_prefix _ _ 3 v3 0 Hp1 eq_refl) as (val2 & E2' & Hp2 & Hl2).
    change (Z.of_nat 3) with 3 in E2'. rewrite E2'. cbn [obind].
    eexists. split; [reflexivity|]. cbn in *. split_and!; try done. lia.
  - destruct (wr_prefix _ _ 3 v3 0 Hp eq_refl) as (val1 & E1 & Hp1 & Hl1).
    change (Z.of_nat 3) with 3 in E1. rewrite E1. cbn [obind].
    eexists. split; [reflexivity|]. cbn in *. split_and!; try done. lia.
  - eexists. split; [reflexivity|]. by split_and!.
Qed.

(** The test of the digits. *)
Lemma b64_final ctx t v0 v1 v2 v3 : holds ctx t [v0; v1; v2] 4 -> wf_buffer t ->
  0 <= v0 < 64 -> 0 <= v1 < 64 -> 0 <= v2 <= 64 -> 0 <= v3 <= 64 ->
  (v2 = 64 -> v3 = 64 /\ Z.land v1 0xf = 0) -> (v3 = 64 -> Z.land v2 0x3 = 0) ->
  Zlen (b64_octets v0 v1 v2 v3) <= b_length t - b_used t ->
  exists ctx' t', base64_decode_char ctx (char_at base64 v3) = Done (ISC_R_SUCCESS, ctx') /\
    wf_buffer t' /\ appended t t' (b64_octets v0 v1 v2 v3) /\
    x_length ctx' = -1 /\ x_target ctx' = t' /\ x_digits ctx' = 0 /\ (v3 <> 64 -> holds ctx' t' [] 4).
Proof.
  intros Hh2 Ht H0 H1 H2 H3 Hp2 Hp3 Hroom.
  destruct (push_spec ctx t [v0; v1; v2] 4 v3 Hh2) as (c3 & E3 & Hh3 & _); [done|]. cbn [app] in Hh3.
  unfold base64_decode_char. pose proof Hh2 as (_ & _ & _ & _ & _ & ->). rewrite (proj1 (b64_digit v3 H3)), E3. cbn [obind].
  assert ((x_digits c3 =? 4) = true) as -> by (by rewrite (proj1 (proj2 (proj2 Hh3)))). cbn iota.
  rewrite (holds_rd _ _ _ _ 0 v0 Hh3 eq_refl : rd (x_val c3) 0 = Done v0). cbn [obind].
  rewrite (holds_rd _ _ _ _ 1 v1 Hh3 eq_refl : rd (x_val c3) 1 = Done v1). cbn [obind].
  rewrite (holds_rd _ _ _ _ 2 v2 Hh3 eq_refl : rd (x_val c3) 2 = Done v2). cbn [obind].
  rewrite (holds_rd _ _ _ _ 3 v3 Hh3 eq_refl : rd (x_val c3) 3 = Done v3). cbn [obind].
  rewrite (proj2 (Z.eqb_neq v0 64)), (proj2 (Z.eqb_neq v1 64)) by lia. cbn [orb].
  assert ((v2 =? 64) && negb (v3 =? 64) = false) as -> by (apply andb_false_iff; destruct (Z.eq_dec v2 64); [right; apply negb_false_iff; lia|left; lia]).
  assert ((v2 =? 64) && negb (Z.land v1 15 =? 0) = false) as ->
    by (apply andb_false_iff; destruct (Z.eq_dec v2 64); [right; apply negb_false_iff, Z.eqb_eq; tauto|left; lia]).
  assert ((v3 =? 64) && negb (Z.land v2 3 =? 0) = false) as ->
    by (apply andb_false_iff; destruct (Z.eq_dec v3 64); [right; apply negb_false_iff, Z.eqb_eq; auto|left; lia]).
  cbv zeta.
  destruct (b64_clear c3 t v0 v1 v2 v3 Hh3 ltac:(tauto)) as (c4 & -> & Y1 & Y2 & Yp & Yl & Yse). cbn [obind].
  rewrite (prefix_rd _ _ 2 _ Yp eq_refl : rd (x_val c4) 2 = _). cbn [obind].
  rewrite (prefix_rd _ _ 3 _ Yp eq_refl : rd (x_val c4) 3 = _). cbn [obind].
  destruct (store_spec ISC_R_BADBASE64 c4 t
    [u8 (Z.lor (Z.shiftl v0 2) (Z.shiftr v1 4)); u8 (Z.lor (Z.shiftl v1 4) (Z.shiftr (if v2 =? 64 then 0 else v2) 2));
     u8 (Z.lor (Z.shiftl (if v2 =? 64 then 0 else v2) 6) (if v3 =? 64 then 0 else v3))]
    (if v2 =? 64 then 1 else if v3 =? 64 then 2 else 3) Y1 Y2 Ht) as (c5 & t' & Es & Ht' & Ha & X1 & X2 & X3 & X4 & X5 & _).
  { repeat (apply bytes_cons; split; [apply u8_range|]). constructor. }
  { change (Zlen _) with 3. destruct (v2 =? 64); [lia|]. destruct (v3 =? 64); lia. }
  { unfold b64_octets in Hroom. destruct (v2 =? 64); [exact Hroom|]. destruct (v3 =? 64); exact Hroom. }
  rewrite Es. exists c5, t'. split_and!; try done. intros Hv3. split_and!; try done.
  - apply prefix_nil.
  - by rewrite X4.
  - rewrite X5. auto.
Qed.

Lemma b64_quad ctx t v0 v1 v2 v3 : holds ctx t [] 4 -> wf_buffer t ->
  0 <= v0 < 64 -> 0 <= v1 < 64 -> 0 <= v2 <= 64 -> 0 <= v3 <= 64 ->
  (v2 = 64 -> v3 = 64 /\ Z.land v1 0xf = 0) -> (v3 = 64 -> Z.land v2 0x3 = 0) ->
  Zlen (b64_octets v0 v1 v2 v3) <= b_length t - b_used t ->
  exists ctx' t', feeds Base64 (quad v0 v1 v2 v3) ctx ctx' /\ wf_buffer t' /\ appended t t' (b64_octets v0 v1 v2 v3) /\
    x_length ctx' = -1 /\ x_target ctx' = t' /\ x_digits ctx' = 0 /\ (v3 <> 64 -> holds ctx' t' [] 4).
Proof.
  intros Hh Ht H0 H1 H2 H3 Hp2 Hp3 Hroom.
  destruct (b64_char ctx t [] v0 Hh) as (c0 & F0 & Hh0); [done|lia|]. cbn [app] in Hh0.
  destruct (b64_char c0 t [v0] v1 Hh0) as (c1 & F1 & Hh1); [done|lia|]. cbn [app] in Hh1.
  destruct (b64_char c1 t [v0; v1] v2 Hh1) as (c2 & F2 & Hh2); [done|lia|]. cbn [app] in Hh2.
  destruct (b64_final c2 t v0 v1 v2 v3) as (c3 & t' & E & H); try done.
  exists c3, t'. split; [|done]. destruct (b64_digit v3 H3) as [_ Hvis3]. unfold is_visible in Hvis3. bool_prop.
  assert (F3 : feeds Base64 [char_at base64 v3] c2 c3) by (by apply feeds_char).
  exact (feeds_app _ _ _ _ _ _ F0 (feeds_app _ _ _ _ _ _ F1 (feeds_app _ _ _ _ _ _ F2 F3))).
Qed.

Lemma list3_ind (P : list Z -> Prop) : P [] -> (forall a, P [a]) -> (forall a b, P [a; b]) ->
  (forall a b c l, P l -> P (a :: b :: c :: l)) -> forall l, P l.
Proof.
  intros H0 H1 H2 H3. fix IH 1. intros [|a [|b [|c l]]]; [exact H0|apply H1|apply H2|apply H3, IH].
Qed.

(** A group of octets, each side of the round trip; [bs] are the significant
    ones. *)
Lemma b64_tail1 b0 : is_byte b0 -> b64_octets (b64_0 b0) (b64_1 b0 0) 64 64 = [b0].
Proof.
  intros H0. destruct (b64_bits b0 0 0 H0) as (E & _ & _); [done|done|].
  unfold b64_octets. change (64 =? 64) with true. cbn iota zeta. rewrite E. done.
Qed.

Lemma b64_tail2 b0 b1 : is_byte b0 -> is_byte b1 -> b64_octets (b64_0 b0) (b64_1 b0 b1) (b64_2 b1 0) 64 = [b0; b1].
Proof.
  intros H0 H1. destruct (b64_bits b0 b1 0 H0 H1) as (E0 & E1 & _); [done|].
  destruct (b64_range b0 b1 0 H0 H1) as (_ & _ & R & _); [done|].
  unfold b64_octets. rewrite (proj2 (Z.eqb_neq (b64_2 b1 0) 64)) by lia. change (64 =? 64) with true. cbn iota zeta.
  by rewrite E0, E1.
Qed.

Lemma b64_full b0 b1 b2 : is_byte b0 -> is_byte b1 -> is_byte b2 ->
  b64_octets (b64_0 b0) (b64_1 b0 b1) (b64_2 b1 b2) (b64_3 b2) = [b0; b1; b2].
Proof.
  intros H0 H1 H2. destruct (b64_bits b0 b1 b2 H0 H1 H2) as (E0 & E1 & E2).
  destruct (b64_range b0 b1 b2 H0 H1 H2) as (_ & _ & R2 & R3).
  unfold b64_octets. rewrite (proj2 (Z.eqb_neq (b64_2 b1 b2) 64)), (proj2 (Z.eqb_neq (b64_3 b2) 64)) by lia. cbn iota zeta.
  by rewrite E0, E1, E2.
Qed.

Lemma b64_feeds source : forall ctx t, holds ctx t [] 4 -> wf_buffer t -> bytes source ->
  Zlen source <= b_length t - b_used t ->
  exists ctx' t', feeds Base64 (enc64 source) ctx ctx' /\ wf_buffer t' /\ appended t t' source /\
    x_length ctx' = -1 /\ x_target ctx' = t' /\ x_digits ctx' = 0.
Proof.
  induction source as [|b0|b0 b1|b0 b1 b2 source IH] using list3_ind; intros ctx t Hh Ht Hs Hroom; cbn [enc64];
    rewrite ?bytes_cons in Hs; destruct_and?.
  - exists ctx, t. split_and!; try done; try apply Hh. by apply appended_nil.
  - destruct (b64_range b0 0 0) as (R0 & R1 & _); [done..|].
    destruct (b64_quad ctx t (b64_0 b0) (b64_1 b0 0) 64 64) as (c' & t' & F & W & A & X1 & X2 & X3 & _);
      rewrite ?b64_tail1 in *; try done; try lia; [by intros _; split; [|apply b64_zero]|].
    by exists c', t'.
  - destruct (b64_range b0 b1 0) as (R0 & R1 & R2 & _); [done..|].
    destruct (b64_quad ctx t (b64_0 b0) (b64_1 b0 b1) (b64_2 b1 0) 64) as (c' & t' & F & W & A & X1 & X2 & X3 & _);
      rewrite ?b64_tail2 in *; try done; try lia; [by intros _; apply b64_zero|].
    by exists c', t'.
  - destruct (b64_range b0 b1 b2) as (R0 & R1 & R2 & R3); [done..|]. rewrite !Zlen_cons in Hroom. pose proof (Zlen_nonneg source).
    destruct (b64_quad ctx t (b64_0 b0) (b64_1 b0 b1) (b64_2 b1 b2) (b64_3 b2)) as (c1 & t1 & F1 & W1 & A1 & _ & _ & _ & Hh1);
      rewrite ?b64_full in *; try done; try lia; [change (Zlen [b0; b1; b2]) with 3; lia|].
    destruct (appended_used _ _ _ A1) as [Hu HL]. change (Zlen [b0; b1; b2]) with 3 in Hu.
    destruct (IH c1 t1 (Hh1 ltac:(lia)) W1) as (c2 & t2 & F2 & W2 & A2 & X); [done|lia|].
    exists c2, t2. split_and!; try apply X; try done; [by apply (feeds_app _ _ _ _ c1)|].
    change (b0 :: b1 :: b2 :: source) with ([b0; b1; b2] ++ source). by eapply appended_trans.
Qed.

Lemma quad_visible v0 v1 v2 v3 : 0 <= v0 <= 64 -> 0 <= v1 <= 64 -> 0 <= v2 <= 64 -> 0 <= v3 <= 64 ->
  visible (quad v0 v1 v2 v3).
Proof.
  intros H0 H1 H2 H3. apply is_visible_spec. unfold quad. cbn [map forallb].
  by rewrite (proj2 (b64_digit _ H0)), (proj2 (b64_digit _ H1)), (proj2 (b64_digit _ H2)), (proj2 (b64_digit _ H3)).
Qed.

Lemma b64_loop_spec wordlength wordbreak source : spaces wordbreak -> bytes source ->
  forall loops t, wf_buffer t ->
  encoded t (enc64 source) (Zlen (enc64 source) + Zlen source * Zlen wordbreak)
    (base64_loop wordlength wordbreak source loops t).
Proof.
  intros Hw. pose proof (Zlen_nonneg wordbreak).
  induction source as [|b0|b0 b1|b0 b1 b2 source IH] using list3_ind; intros Hs loops t Ht; cbn [base64_loop enc64];
    rewrite ?bytes_cons in Hs; destruct_and?.
  - by apply encoded_none.
  - destruct (b64_range b0 0 0) as (R0 & R1 & _); [done..|].
    rewrite <- (Z.lor_0_r (Z.land (b0 ≪ 4) 48)). change 61 with (char_at base64 64).
    apply (encoded_last (quad (b64_0 b0) (b64_1 b0 0) 64 64)); [done|apply quad_visible; lia|len; nia].
  - destruct (b64_range b0 b1 0) as (R0 & R1 & R2 & _); [done..|].
    rewrite <- (Z.lor_0_r (Z.land (b1 ≪ 2) 60)). change 61 with (char_at base64 64).
    apply (encoded_last (quad (b64_0 b0) (b64_1 b0 b1) (b64_2 b1 0) 64)); [done|apply quad_visible; lia|len; nia].
  - destruct (b64_range b0 b1 b2) as (R0 & R1 & R2 & R3); [done..|]. pose proof (Zlen_nonneg source). pose proof (Zlen_nonneg (enc64 source)).
    eapply encoded_weaken.
    + apply (encoded_step wordbreak Hw 4 wordlength (base64_group b0 b1 b2) _ source loops t _ (enc64 source)
        (Zlen (enc64 source) + Zlen source * Zlen wordbreak) Ht).
      * apply (quad_visible (b64_0 b0) (b64_1 b0 b1) (b64_2 b1 b2) (b64_3 b2)); lia.
      * intros s t1 Ht1. by apply IH.
      * nia.
    + rewrite Zlen_app, !Zlen_cons. nia.
Qed.

(** Base 64: whatever line length and white space break are chosen, what
    [isc_base64_totext] writes is decoded by [isc_base64_decodestring] to the
    source, for every length modulo 3. *)
Theorem base64_roundtrip (source wordbreak val : list Z) (wordlength : Z) (t1 t2 : isc_buffer_t) :
  bytes source -> spaces wordbreak -> wf_buffer t1 -> wf_buffer t2 ->
  4 <= Zlen val -> Zlen source <= b_length t2 - b_used t2 ->
  codec_roundtrip source wordbreak (enc64 source) (isc_base64_totext source wordlength wordbreak)
    (isc_base64_decodestring val) source t1 t2.
Proof.
  intros Hs Hw Ht1 Ht2 Hv Hroom. unfold isc_base64_totext.
  destruct (b64_loop_spec (if wordlength <? 4 then 4 else wordlength) wordbreak source Hw Hs 0 t1 Ht1)
    as (r & rest & t1' & out & E & Ht1' & Ha & H).
  exists r, rest, t1'. split_and!; [done|done|]. destruct H as [(-> & -> & Hns & Hnz)|[-> Hlt]]; [right|by left].
  split_and!; [done|done|].
  destruct (b64_feeds source _ t2 (init_holds t2 val 4 Hv) Ht2 Hs Hroom) as (c' & t2' & F & Ht2' & A2 & X1 & X2 & X3).
  exists out, t2'. split_and!; try done. rewrite <- X2. by apply (feeds_decode Base64 out (enc64 source)).
Qed.

Lemma base64_roundtrip_witness :
  codec_roundtrip [1; 171; 255; 7] [13; 10] (enc64 [1; 171; 255; 7]) (isc_base64_totext [1; 171; 255; 7] 4 [13; 10])
    (isc_base64_decodestring [7; 7; 7; 7]) [1; 171; 255; 7] (isc_buffer_init (replicate 20 0)) (isc_buffer_init (replicate 4 0)).
Proof.
  apply base64_roundtrip.
  - apply bytesb_spec. reflexivity.
  - split; [apply bytesb_spec; reflexivity|]. repeat constructor.
  - apply wf_bufferb_spec. reflexivity.
  - apply wf_bufferb_spec. reflexivity.
  - vm_compute. discriminate.
  - vm_compute. discriminate.
Defined.

(** ** Base 32 *)

(** The digits of five octets and the octets of eight digits. *)
Definition digits32 (b0 b1 b2 b3 b4 : Z) : list Z :=
  [b32_0 b0; b32_1 b0 b1; b32_2 b1; b32_3 b1 b2; b32_4 b2 b3; b32_5 b3; b32_6 b3 b4; b32_7 b4].

Definition octets32 (v0 v1 v2 v3 v4 v5 v6 v7 : Z) : list Z :=
  [u8 (Z.lor (Z.shiftl v0 3) (Z.shiftr v1 2));
   u8 (Z.lor (Z.lor (Z.shiftl v1 6) (Z.shiftl v2 1)) (Z.shiftr v3 4));
   u8 (Z.lor (Z.shiftl v3 4) (Z.shiftr v4 1));
   u8 (Z.lor (Z.lor (Z.shiftl v4 7) (Z.shiftl v5 2)) (Z.shiftr v6 3));
   u8 (Z.lor (Z.shiftl v6 5) v7)].

Lemma octets32_bytes v0 v1 v2 v3 v4 v5 v6 v7 : bytes (octets32 v0 v1 v2 v3 v4 v5 v6 v7).
Proof. repeat (apply bytes_cons; split; [apply u8_range|]). constructor. Qed.

(** [f b] is [b]: by evaluation on the 256 octets. *)
Ltac all_bits H :=
  match goal with |- ?L = ?b =>
    let f := eval pattern b in L in
    match f with ?g _ => exact (byte_ext g id ltac:(vm_compute; reflexivity) b H) end end.

Lemma b32_bits b0 b1 b2 b3 b4 : is_byte b0 -> is_byte b1 -> is_byte b2 -> is_byte b3 -> is_byte b4 ->
  octets32 (b32_0 b0) (b32_1 b0 b1) (b32_2 b1) (b32_3 b1 b2) (b32_4 b2 b3) (b32_5 b3) (b32_6 b3 b4) (b32_7 b4) =
  [b0; b1; b2; b3; b4].
Proof.
  intros H0 H1 H2 H3 H4. unfold octets32, b32_1, b32_3, b32_4, b32_6.
  rewrite !Z.shiftl_lor, !Z.shiftr_lor, !u8_lor. repeat f_equal.
  - pose proof (byte_ext (fun b => u8 (Z.shiftr (Z.land (Z.shiftr b 6) 3) 2)) (fun _ => 0) ltac:(vm_compute; reflexivity) b1 H1) as E.
    cbn beta in E. rewrite E, Z.lor_0_r. all_bits H0.
  - pose proof (byte_ext (fun b => u8 (Z.shiftl (Z.land (Z.shiftl b 2) 28) 6)) (fun _ => 0) ltac:(vm_compute; reflexivity) b0 H0) as E.
    pose proof (byte_ext (fun b => u8 (Z.shiftr (Z.land (Z.shiftr b 4) 15) 4)) (fun _ => 0) ltac:(vm_compute; reflexivity) b2 H2) as E'.
    cbn beta in E, E'. rewrite E, E', Z.lor_0_r, Z.lor_0_l. all_bits H1.
  - pose proof (byte_ext (fun b => u8 (Z.shiftl (Z.land (Z.shiftl b 4) 16) 4)) (fun _ => 0) ltac:(vm_compute; reflexivity) b1 H1) as E.
    pose proof (byte_ext (fun b => u8 (Z.shiftr (Z.land (Z.shiftr b 7) 1) 1)) (fun _ => 0) ltac:(vm_compute; reflexivity) b3 H3) as E'.
    cbn beta in E, E'. rewrite E, E', Z.lor_0_r, Z.lor_0_l. all_bits H2.
  - pose proof (byte_ext (fun b => u8 (Z.shiftl (Z.land (Z.shiftl b 1) 30) 7)) (fun _ => 0) ltac:(vm_compute; reflexivity) b2 H2) as E.
    pose proof (byte_ext (fun b => u8 (Z.shiftr (Z.land (Z.shiftr b 5) 7) 3)) (fun _ => 0) ltac:(vm_compute; reflexivity) b4 H4) as E'.
    cbn beta in E, E'. rewrite E, E', Z.lor_0_r, Z.lor_0_l. all_bits H3.
  - pose proof (byte_ext (fun b => u8 (Z.shiftl (Z.land (Z.shiftl b 3) 24) 5)) (fun _ => 0) ltac:(vm_compute; reflexivity) b3 H3) as E.
    cbn beta in E. rewrite E, Z.lor_0_l. all_bits H4.
Qed.

Lemma b32_range b0 b1 b2 b3 b4 : is_byte b0 -> is_byte b1 -> is_byte b2 -> is_byte b3 -> is_byte b4 ->
  Forall (fun v => 0 <= v < 32) (digits32 b0 b1 b2 b3 b4).
Proof.
  intros H0 H1 H2 H3 H4.
  assert (Hl : forall x, 0 <= Z.land x 31 < 32) by (intros x; change 31 with (Z.ones 5); rewrite Z.land_ones by lia; apply Z.mod_pos_bound; lia).
  unfold digits32. repeat (apply Forall_cons; split); [apply Hl| |apply Hl| | |apply Hl| |apply Hl|constructor]; change 32 with (2 ^ 5).
  - apply (lor_range (fun a => Z.land (Z.shiftl a 2) 0x1c) (fun b => Z.land (Z.shiftr b 6) 0x03) 31 5); [lia|lia|by vm_compute|done|done].
  - apply (lor_range (fun a => Z.land (Z.shiftl a 4) 0x10) (fun b => Z.land (Z.shiftr b 4) 0x0f) 31 5); [lia|lia|by vm_compute|done|done].
  - apply (lor_range (fun a => Z.land (Z.shiftl a 1) 0x1e) (fun b => Z.land (Z.shiftr b 7) 0x01) 31 5); [lia|lia|by vm_compute|done|done].
  - apply (lor_range (fun a => Z.land (Z.shiftl a 3) 0x18) (fun b => Z.land (Z.shiftr b 5) 0x07) 31 5); [lia|lia|by vm_compute|done|done].
Qed.

Lemma list5_ind (P : list Z -> Prop) : P [] -> (forall a, P [a]) -> (forall a b, P [a; b]) ->
  (forall a b c, P [a; b; c]) -> (forall a b c d, P [a; b; c; d]) ->
  (forall a b c d e l, P l -> P (a :: b :: c :: d :: e :: l)) -> forall l, P l.
Proof.
  intros H0 H1 H2 H3 H4 H5. fix IH 1.
  intros [|a [|b [|c [|d [|e l]]]]]; [exact H0|apply H1|apply H2|apply H3|apply H4|apply H5, IH].
Qed.

(** The digits before padding end in zero bits. *)
Lemma b32_zero1 b : is_byte b -> Z.land (b32_1 b 0) 0x03 = 0.
Proof. exact (byte_ext (fun b => Z.land (b32_1 b 0) 0x03) (fun _ => 0) ltac:(vm_compute; reflexivity) b). Qed.
Lemma b32_zero3 b : is_byte b -> Z.land (b32_3 b 0) 0x0f = 0.
Proof. exact (byte_ext (fun b => Z.land (b32_3 b 0) 0x0f) (fun _ => 0) ltac:(vm_compute; reflexivity) b). Qed.
Lemma b32_zero4 b : is_byte b -> Z.land (b32_4 b 0) 0x01 = 0.
Proof. exact (byte_ext (fun b => Z.land (b32_4 b 0) 0x01) (fun _ => 0) ltac:(vm_compute; reflexivity) b). Qed.
Lemma b32_zero6 b : is_byte b -> Z.land (b32_6 b 0) 0x07 = 0.
Proof. exact (byte_ext (fun b => Z.land (b32_6 b 0) 0x07) (fun _ => 0) ltac:(vm_compute; reflexivity) b). Qed.

Section base32.
Context (base : list Z) (Hbase : forall i, 0 <= i <= 32 -> strchr base (char_at base i) = Some i /\ is_visible (char_at base i) = true).
Context (Hpad : char_at base 32 = 61).

(** What [seen_32] becomes at a padding character. *)
Definition pads (ctx : decode_ctx) (s : Z) : Prop :=
  (x_seen_32 ctx <> 0 /\ s = x_seen_32 ctx) \/ (x_seen_32 ctx = 0 /\ pad_bytes ctx = Done (Some s)).

Lemma b32_step ctx t vs i v s : holds ctx t vs 8 -> Zlen vs < 8 ->
  (0 <= i < 32 /\ x_seen_32 ctx = 0 /\ v = i /\ s = 0) \/ (i = 32 /\ v = 0 /\ pads ctx s) ->
  exists ctx', holds ctx' t (vs ++ [v]) 8 /\ x_seen_32 ctx' = s /\
    base32_decode_char base ctx (char_at base i) =
      if Zlen vs =? 7 then base32_store ctx' else Done (ISC_R_SUCCESS, ctx').
Proof.
  intros Hh Hl Hi. assert (Hi' : 0 <= i <= 32) by (destruct Hi as [?|[-> _]]; lia).
  destruct (push_spec (mkctx (x_length ctx) (x_target ctx) (x_digits ctx) (x_val ctx) (x_seen_end ctx) s) t vs 8 v Hh)
    as (c1 & E1 & Hh1 & Hs1); [lia|].
  exists c1. split_and!; [done|done|]. unfold base32_decode_char.
  assert (Hse : x_seen_end ctx = false) by apply Hh. rewrite Hse in E1 |- *. rewrite (proj1 (Hbase i Hi')), (proj2 (Z.ltb_ge 32 i)) by lia. cbv zeta.
  assert (Hd : (x_digits c1 =? 8) = (Zlen vs =? 7)).
  { destruct Hh1 as (_ & _ & -> & _). rewrite Zlen_app. change (Zlen [v]) with 1. destruct (Zlen vs =? 7) eqn:E; bool_prop; lia. }
  destruct Hi as [(Hr & Hs & -> & ->)|(-> & -> & [[Hs ->]|[Hs Hp]])].
  - rewrite Hs, (proj2 (Z.eqb_neq i 32)) by lia. cbn [negb andb Z.eqb obind]. by rewrite E1, <- Hd.
  - change (32 =? 32) with true. rewrite (proj2 (Z.eqb_neq _ 0) Hs). cbn [negb andb obind]. by rewrite E1, <- Hd.
  - change (32 =? 32) with true. rewrite Hs, Hp. cbn [negb andb Z.eqb obind]. by rewrite E1, <- Hd.
Qed.

Lemma b32_char ctx t vs i v s : holds ctx t vs 8 -> Zlen vs < 7 ->
  (0 <= i < 32 /\ x_seen_32 ctx = 0 /\ v = i /\ s = 0) \/ (i = 32 /\ v = 0 /\ pads ctx s) ->
  exists ctx', feeds (Base32 base) [char_at base i] ctx ctx' /\ holds ctx' t (vs ++ [v]) 8 /\ x_seen_32 ctx' = s.
Proof.
  intros Hh Hl Hi. assert (Hi' : 0 <= i <= 32) by (destruct Hi as [?|[-> _]]; lia).
  destruct (b32_step ctx t vs i v s Hh ltac:(lia) Hi) as (c & Hc & Hs & E). exists c. split_and!; try done.
  pose proof (proj2 (Hbase i Hi')) as Hv. unfold is_visible in Hv. bool_prop.
  apply feeds_char; [done|done|]. cbn [decode_char base32_Decoder]. by rewrite E, (proj2 (Z.eqb_neq _ 7)) by lia.
Qed.

Lemma b32_values ds : Forall (fun v => 0 <= v < 32) ds -> forall ctx t vs, holds ctx t vs 8 -> x_seen_32 ctx = 0 ->
  Zlen vs + Zlen ds <= 7 ->
  exists ctx', feeds (Base32 base) (map (char_at base) ds) ctx ctx' /\ holds ctx' t (vs ++ ds) 8 /\ x_seen_32 ctx' = 0.
Proof.
  induction 1 as [|d ds Hd _ IH]; intros ctx t vs Hh Hs Hl.
  - exists ctx. rewrite app_nil_r. by split_and!.
  - rewrite Zlen_cons in Hl. pose proof (Zlen_nonneg ds).
    destruct (b32_char ctx t vs d d 0 Hh ltac:(lia)) as (c1 & F1 & Hh1 & Hs1); [left; split_and!; try done; lia|].
    destruct (IH c1 t _ Hh1 Hs1) as (c2 & F2 & Hh2 & Hs2); [rewrite Zlen_app; change (Zlen [d]) with 1; lia|].
    exists c2. rewrite <- app_assoc in Hh2. split_and!; try done. by apply (feeds_app _ [_] _ ctx c1).
Qed.

Lemma b32_pads n : forall ctx t vs s, holds ctx t vs 8 -> (0 < n)%nat -> s <> 0 -> pads ctx s -> Zlen vs + Z.of_nat n <= 7 ->
  exists ctx', feeds (Base32 base) (replicate n 61) ctx ctx' /\ holds ctx' t (vs ++ replicate n 0) 8 /\ x_seen_32 ctx' = s.
Proof.
  induction n as [|n IH]; intros ctx t vs s Hh Hn Hs Hp Hl; [lia|].
  destruct (b32_char ctx t vs 32 0 s Hh ltac:(lia)) as (c1 & F1 & Hh1 & Hs1); [right; by split_and!|]. rewrite Hpad in F1.
  destruct n as [|n]; [by exists c1|].
  destruct (IH c1 t (vs ++ [0]) s Hh1) as (c2 & F2 & Hh2 & Hs2); [lia|done|left; by rewrite Hs1|rewrite Zlen_app; change (Zlen [0]) with 1; lia|].
  exists c2. rewrite <- app_assoc in Hh2. split_and!; try done. by apply (feeds_app _ [61] (replicate (S n) 61) ctx c1).
Qed.

Lemma b32_store_spec ctx t v0 v1 v2 v3 v4 v5 v6 v7 : holds ctx t [v0; v1; v2; v3; v4; v5; v6; v7] 8 -> wf_buffer t ->
  let n := if x_seen_32 ctx =? 0 then 5 else x_seen_32 ctx in
  0 <= n <= 5 -> n <= b_length t - b_used t ->
  exists ctx' t', base32_store ctx = Done (ISC_R_SUCCESS, ctx') /\ wf_buffer t' /\
    appended t t' (sub (octets32 v0 v1 v2 v3 v4 v5 v6 v7) 0 n) /\
    x_length ctx' = -1 /\ x_target ctx' = t' /\ x_digits ctx' = 0 /\
    (x_seen_32 ctx = 0 -> holds ctx' t' [] 8 /\ x_seen_32 ctx' = 0).
Proof.
  intros Hh Ht n Hn Hroom. unfold base32_store.
  set (c := if negb (x_seen_32 ctx =? 0) then _ else ctx). cbv zeta.
  assert (Hc : x_val c = x_val ctx /\ x_length c = -1 /\ x_target c = t /\ x_seen_32 c = x_seen_32 ctx).
  { unfold c. destruct Hh as (? & ? & _). destruct (negb _); by split_and!. }
  destruct Hc as (-> & HL & HT & HS). rewrite HS.
  rewrite (holds_rd _ _ _ _ 0 v0 Hh eq_refl : rd (x_val ctx) 0 = _). cbn [obind].
  rewrite (holds_rd _ _ _ _ 1 v1 Hh eq_refl : rd (x_val ctx) 1 = _). cbn [obind].
  rewrite (holds_rd _ _ _ _ 2 v2 Hh eq_refl : rd (x_val ctx) 2 = _). cbn [obind].
  rewrite (holds_rd _ _ _ _ 3 v3 Hh eq_refl : rd (x_val ctx) 3 = _). cbn [obind].
  rewrite (holds_rd _ _ _ _ 4 v4 Hh eq_refl : rd (x_val ctx) 4 = _). cbn [obind].
  rewrite (holds_rd _ _ _ _ 5 v5 Hh eq_refl : rd (x_val ctx) 5 = _). cbn [obind].
  rewrite (holds_rd _ _ _ _ 6 v6 Hh eq_refl : rd (x_val ctx) 6 = _). cbn [obind].
  rewrite (holds_rd _ _ _ _ 7 v7 Hh eq_refl : rd (x_val ctx) 7 = _). cbn [obind].
  assert ((if negb (x_seen_32 ctx =? 0) then x_seen_32 ctx else 5) = n) as -> by (unfold n; by destruct (x_seen_32 ctx =? 0)).
  destruct (store_spec ISC_R_BADBASE32 c t (octets32 v0 v1 v2 v3 v4 v5 v6 v7) n HL HT Ht (octets32_bytes _ _ _ _ _ _ _ _))
    as (c5 & t' & Es & Ht' & Ha & X1 & X2 & X3 & X4 & X5 & X6); [exact Hn|done|].
  exists c5, t'. split_and!; try done. intros Hs0. unfold c in X4, X5, X6. rewrite Hs0 in X4, X5, X6. cbn in X4, X5, X6.
  destruct Hh as (_ & _ & _ & _ & HLv & Hse). split; [|congruence]. split_and!; try done; [apply prefix_nil|by rewrite X4|by rewrite X5].
Qed.

(** The eighth character. *)
Lemma b32_final ctx t v0 v1 v2 v3 v4 v5 v6 v7 i s : holds ctx t [v0; v1; v2; v3; v4; v5; v6] 8 -> wf_buffer t ->
  (0 <= i < 32 /\ x_seen_32 ctx = 0 /\ v7 = i /\ s = 0) \/ (i = 32 /\ v7 = 0 /\ pads ctx s) ->
  let n := if s =? 0 then 5 else s in 0 <= n <= 5 -> n <= b_length t - b_used t ->
  exists ctx' t', feeds (Base32 base) [char_at base i] ctx ctx' /\ wf_buffer t' /\
    appended t t' (sub (octets32 v0 v1 v2 v3 v4 v5 v6 v7) 0 n) /\
    x_length ctx' = -1 /\ x_target ctx' = t' /\ x_digits ctx' = 0 /\
    (s = 0 -> holds ctx' t' [] 8 /\ x_seen_32 ctx' = 0).
Proof.
  intros Hh Ht Hi n Hn Hroom. assert (Hi' : 0 <= i <= 32) by (destruct Hi as [?|[-> _]]; lia).
  destruct (b32_step ctx t _ i v7 s Hh eq_refl Hi) as (c & Hc & Hs & E). cbn [app] in Hc. unfold n in *. clear n. subst s.
  destruct (b32_store_spec c t v0 v1 v2 v3 v4 v5 v6 v7 Hc Ht Hn Hroom) as (c' & t' & Es & H).
  exists c', t'. split; [|exact H]. pose proof (proj2 (Hbase i Hi')) as Hv. unfold is_visible in Hv. bool_prop.
  apply feeds_char; [done|done|]. cbn [decode_char base32_Decoder]. by rewrite E.
Qed.

Lemma b32_group ctx t b0 b1 b2 b3 b4 : holds ctx t [] 8 -> x_seen_32 ctx = 0 -> wf_buffer t ->
  is_byte b0 -> is_byte b1 -> is_byte b2 -> is_byte b3 -> is_byte b4 -> 5 <= b_length t - b_used t ->
  exists ctx' t', feeds (Base32 base) (map (char_at base) (digits32 b0 b1 b2 b3 b4)) ctx ctx' /\ wf_buffer t' /\
    appended t t' [b0; b1; b2; b3; b4] /\ holds ctx' t' [] 8 /\ x_seen_32 ctx' = 0.
Proof.
  intros Hh Hs Ht H0 H1 H2 H3 H4 Hroom. pose proof (b32_range b0 b1 b2 b3 b4 H0 H1 H2 H3 H4) as HR.
  pose proof (b32_bits b0 b1 b2 b3 b4 H0 H1 H2 H3 H4) as HB.
  change (digits32 b0 b1 b2 b3 b4) with (take 7 (digits32 b0 b1 b2 b3 b4) ++ [b32_7 b4]) in HR |- *.
  apply Forall_app in HR as [HR H7]. apply Forall_cons in H7 as [H7 _].
  destruct (b32_values _ HR ctx t [] Hh Hs) as (c1 & F1 & Hh1 & Hs1); [done|].
  destruct (b32_final c1 t _ _ _ _ _ _ _ (b32_7 b4) (b32_7 b4) 0 Hh1 Ht) as (c2 & t2 & F2 & W & A & X1 & X2 & X3 & Hh2);
    [left; split_and!; try done; lia|done|done|]. rewrite HB in A.
  exists c2, t2. rewrite map_app. split_and!; try done; [by apply (feeds_app _ _ _ _ c1)|apply Hh2; done..].
Qed.

(** The end of the data: [k] digits and padding; [n] octets are stored. *)
Lemma b32_tail ctx t b0 b1 b2 b3 k n : holds ctx t [] 8 -> x_seen_32 ctx = 0 -> wf_buffer t ->
  is_byte b0 -> is_byte b1 -> is_byte b2 -> is_byte b3 -> (k <= 7)%nat ->
  drop k (digits32 b0 b1 b2 b3 0) = replicate (8 - k) 0 ->
  (forall c, holds c t (take k (digits32 b0 b1 b2 b3 0)) 8 -> x_seen_32 c = 0 -> pad_bytes c = Done (Some n)) ->
  0 < n < 5 -> n <= b_length t - b_used t ->
  exists ctx' t', feeds (Base32 base) (map (char_at base) (take k (digits32 b0 b1 b2 b3 0)) ++ replicate (8 - k) 61) ctx ctx' /\
    wf_buffer t' /\ appended t t' (sub [b0; b1; b2; b3; 0] 0 n) /\
    x_length ctx' = -1 /\ x_target ctx' = t' /\ x_digits ctx' = 0.
Proof.
  intros Hh Hs Ht H0 H1 H2 H3 Hk Hd Hp Hn Hroom.
  pose proof (b32_range b0 b1 b2 b3 0 H0 H1 H2 H3 ltac:(done)) as HR.
  pose proof (b32_bits b0 b1 b2 b3 0 H0 H1 H2 H3 ltac:(done)) as HB.
  pose proof (Forall_take _ k _ HR) as HRk.
  assert (Hlk : Zlen (take k (digits32 b0 b1 b2 b3 0)) = Z.of_nat k).
  { unfold Zlen. rewrite length_take_le; [done|]. cbn. lia. }
  destruct (b32_values _ HRk ctx t [] Hh Hs) as (c1 & F1 & Hh1 & Hs1); [rewrite Hlk; change (Zlen (@nil Z)) with 0; lia|]. cbn [app] in Hh1.
  pose proof (Hp c1 Hh1 Hs1) as Hp1.
  assert (Hpre : exists c2, feeds (Base32 base) (replicate (7 - k) 61) c1 c2 /\
            holds c2 t (take k (digits32 b0 b1 b2 b3 0) ++ replicate (7 - k) 0) 8 /\ pads c2 n).
  { destruct (decide (k = 7%nat)) as [->|Hk7].
    - exists c1. cbn [Nat.sub replicate]. rewrite app_nil_r. split_and!; [done..|by right].
    - destruct (b32_pads (7 - k) c1 t _ n Hh1) as (c2 & F2 & Hh2 & Hs2); [lia|lia|by right|lia|].
      exists c2. split_and!; try done. left. split; [lia|done]. }
  destruct Hpre as (c2 & F2 & Hh2 & Hp2).
  assert (Hds : take k (digits32 b0 b1 b2 b3 0) ++ replicate (7 - k) 0 = take 7 (digits32 b0 b1 b2 b3 0)).
  { rewrite <- (take_drop k (digits32 b0 b1 b2 b3 0)) at 2. rewrite Hd, take_app.
    replace (8 - k)%nat with (S (7 - k)) by lia. rewrite length_take_le by (cbn; lia).
    rewrite take_replicate, Nat.min_l by lia. f_equal. symmetry. apply take_ge. rewrite length_take_le; [lia|cbn; lia]. }
  rewrite Hds in Hh2.
  destruct (b32_final c2 t _ _ _ _ _ _ _ 0 32 n Hh2 Ht) as (c3 & t3 & F3 & W & A & X1 & X2 & X3 & _);
    rewrite ?(proj2 (Z.eqb_neq n 0)) by lia; [right; by split_and!|lia|done|].
  rewrite (proj2 (Z.eqb_neq n 0)) in A by lia. change (b32_7 0) with 0 in HB. rewrite HB in A. rewrite Hpad in F3.
  exists c3, t3. split_and!; try done.
  replace (8 - k)%nat with (7 - k + 1)%nat by lia. rewrite replicate_add.
  apply (feeds_app _ _ _ _ c1); [done|]. by apply (feeds_app _ _ _ _ c2).
Qed.

Fixpoint enc32 (source : list Z) : list Z :=
  let tail k ds := map (char_at base) (take k ds) ++ replicate (8 - k) 61 in
  match source with
  | [] => []
  | [b0] => tail 2%nat (digits32 b0 0 0 0 0)
  | [b0; b1] => tail 4%nat (digits32 b0 b1 0 0 0)
  | [b0; b1; b2] => tail 5%nat (digits32 b0 b1 b2 0 0)
  | [b0; b1; b2; b3] => tail 7%nat (digits32 b0 b1 b2 b3 0)
  | b0 :: b1 :: b2 :: b3 :: b4 :: rest => map (char_at base) (digits32 b0 b1 b2 b3 b4) ++ enc32 rest
  end.

(** What the decoder makes of it. *)
Definition dec32 (source : list Z) : list Z := source ++ (if Zlen source mod 5 =? 2 then [0] else []).

Lemma dec32_group b0 b1 b2 b3 b4 source :
  dec32 (b0 :: b1 :: b2 :: b3 :: b4 :: source) = [b0; b1; b2; b3; b4] ++ dec32 source.
Proof.
  unfold dec32. rewrite !Zlen_cons.
  replace (1 + (1 + (1 + (1 + (1 + Zlen source))))) with (Zlen source + 1 * 5) by lia. by rewrite Z_mod_plus_full.
Qed.

Lemma b32_feeds source : forall ctx t, holds ctx t [] 8 -> x_seen_32 ctx = 0 -> wf_buffer t -> bytes source ->
  Zlen (dec32 source) <= b_length t - b_used t ->
  exists ctx' t', feeds (Base32 base) (enc32 source) ctx ctx' /\ wf_buffer t' /\ appended t t' (dec32 source) /\
    x_length ctx' = -1 /\ x_target ctx' = t' /\ x_digits ctx' = 0.
Proof.
  induction source as [|b0|b0 b1|b0 b1 b2|b0 b1 b2 b3|b0 b1 b2 b3 b4 source IH] using list5_ind;
    intros ctx t Hh Hs Ht Hb Hroom; cbn [enc32]; rewrite ?bytes_cons in Hb; destruct_and?.
  - exists ctx, t. split_and!; try done; try apply Hh. by apply appended_nil.
  - apply (b32_tail ctx t b0 0 0 0 2 1); try done; try lia; try exact Hroom. intros c Hc _. unfold pad_bytes.
    rewrite (proj1 (proj2 (proj2 Hc)) : x_digits c = 2), (holds_rd _ _ _ _ 1 (b32_1 b0 0) Hc eq_refl : rd (x_val c) 1 = _).
    cbn [obind]. by rewrite (b32_zero1 b0).
  - apply (b32_tail ctx t b0 b1 0 0 4 3); try done; try lia; try exact Hroom. intros c Hc _. unfold pad_bytes.
    rewrite (proj1 (proj2 (proj2 Hc)) : x_digits c = 4), (holds_rd _ _ _ _ 3 (b32_3 b1 0) Hc eq_refl : rd (x_val c) 3 = _).
    cbn [obind]. by rewrite (b32_zero3 b1).
  - apply (b32_tail ctx t b0 b1 b2 0 5 3); try done; try lia; try exact Hroom. intros c Hc _. unfold pad_bytes.
    rewrite (proj1 (proj2 (proj2 Hc)) : x_digits c = 5), (holds_rd _ _ _ _ 4 (b32_4 b2 0) Hc eq_refl : rd (x_val c) 4 = _).
    cbn [obind]. by rewrite (b32_zero4 b2).
  - apply (b32_tail ctx t b0 b1 b2 b3 7 4); try done; try lia; try exact Hroom. intros c Hc _. unfold pad_bytes.
    rewrite (proj1 (proj2 (proj2 Hc)) : x_digits c = 7), (holds_rd _ _ _ _ 6 (b32_6 b3 0) Hc eq_refl : rd (x_val c) 6 = _).
    cbn [obind]. by rewrite (b32_zero6 b3).
  - rewrite dec32_group, Zlen_app in Hroom. change (Zlen [b0; b1; b2; b3; b4]) with 5 in Hroom. pose proof (Zlen_nonneg (dec32 source)).
    destruct (b32_group ctx t b0 b1 b2 b3 b4) as (c1 & t1 & F1 & W1 & A1 & Hh1 & Hs1); try done; [lia|].
    destruct (appended_used _ _ _ A1) as [Hu HL]. change (Zlen [b0; b1; b2; b3; b4]) with 5 in Hu.
    destruct (IH c1 t1 Hh1 Hs1 W1) as (c2 & t2 & F2 & W2 & A2 & X); [done|lia|].
    exists c2, t2. rewrite dec32_group. split_and!; try apply X; try done; [by apply (feeds_app _ _ _ _ c1)|by eapply appended_trans].
Qed.

Lemma chars32_visible ds n : Forall (fun v => 0 <= v < 32) ds -> visible (map (char_at base) ds ++ replicate n 61).
Proof.
  intros H. apply is_visible_spec. rewrite forallb_app. apply andb_true_iff. split.
  - induction H as [|d ds Hd _ IH]; [done|]. cbn [map forallb]. by rewrite IH, (proj2 (Hbase d ltac:(lia))).
  - induction n as [|n IH]; [done|]. cbn [replicate forallb]. by rewrite IH.
Qed.

Lemma b32_loop_spec wordlength wordbreak source : spaces wordbreak -> bytes source ->
  forall loops t, wf_buffer t ->
  encoded t (enc32 source) (Zlen (enc32 source) + Zlen source * Zlen wordbreak)
    (base32_loop base wordlength wordbreak source loops t).
Proof.
  intros Hw. pose proof (Zlen_nonneg wordbreak).
  assert (Hlast : forall t src txt txt', txt = txt' -> wf_buffer t -> visible txt' ->
    encoded t txt' (Zlen txt' + Zlen src * Zlen wordbreak)
      (reterr (str_totext txt t) (fun t => (src, t)) (fun t => Done (ISC_R_SUCCESS, ([], t))))).
  { intros t src txt txt' -> Ht Hv. apply encoded_last; try done. pose proof (Zlen_nonneg src). nia. }
  induction source as [|b0|b0 b1|b0 b1 b2|b0 b1 b2 b3|b0 b1 b2 b3 b4 source IH] using list5_ind; intros Hs loops t Ht;
    cbn [base32_loop enc32]; rewrite ?bytes_cons in Hs; destruct_and?.
  - by apply encoded_none.
  - apply Hlast; [|done|by apply chars32_visible, Forall_take, b32_range].
    rewrite <- (Z.lor_0_r (Z.land (b0 ≪ 2) 28)). done.
  - apply Hlast; [|done|by apply chars32_visible, Forall_take, b32_range].
    rewrite <- (Z.lor_0_r (Z.land (b1 ≪ 4) 16)). done.
  - apply Hlast; [|done|by apply chars32_visible, Forall_take, b32_range].
    rewrite <- (Z.lor_0_r (Z.land (b2 ≪ 1) 30)). done.
  - apply Hlast; [|done|by apply chars32_visible, Forall_take, b32_range].
    rewrite <- (Z.lor_0_r (Z.land (b3 ≪ 3) 24)). done.
  - pose proof (Zlen_nonneg source). pose proof (Zlen_nonneg (enc32 source)). eapply encoded_weaken.
    + apply (encoded_step wordbreak Hw 8 wordlength (map (char_at base) (digits32 b0 b1 b2 b3 b4)) _ source loops t _
        (enc32 source) (Zlen (enc32 source) + Zlen source * Zlen wordbreak) Ht).
      * pose proof (chars32_visible (digits32 b0 b1 b2 b3 b4) 0) as Hv. cbn [replicate] in Hv. rewrite app_nil_r in Hv.
        by apply Hv, b32_range.
      * intros s t1 Ht1. by apply IH.
      * nia.
    + rewrite Zlen_app, !Zlen_cons. nia.
Qed.

Lemma b32_roundtrip source wordbreak val wordlength t1 t2 :
  bytes source -> spaces wordbreak -> wf_buffer t1 -> wf_buffer t2 ->
  8 <= Zlen val -> Zlen (dec32 source) <= b_length t2 - b_used t2 ->
  codec_roundtrip source wordbreak (enc32 source) (fun t => base32_totext source wordlength wordbreak t base)
    (decodestring (Base32 base) val) (dec32 source) t1 t2.
Proof.
  intros Hs Hw Ht1 Ht2 Hv Hroom. unfold base32_totext.
  destruct (b32_loop_spec (if (0 <=? wordlength) && (wordlength <? 8) then 8 else wordlength) wordbreak source Hw Hs 0 t1 Ht1)
    as (r & rest & t1' & out & E & Ht1' & Ha & H).
  exists r, rest, t1'. split_and!; [done|done|]. destruct H as [(-> & -> & Hns & Hnz)|[-> Hlt]]; [right|by left].
  split_and!; [done|done|].
  destruct (b32_feeds source _ t2 (init_holds t2 val 8 Hv) eq_refl Ht2 Hs Hroom) as (c' & t2' & F & Ht2' & A2 & X1 & X2 & X3).
  exists out, t2'. split_and!; try done. rewrite <- X2. by apply (feeds_decode (Base32 base) out (enc32 source)).
Qed.
End base32.

Lemma alphabet_ok base : forallb (fun i => bool_decide (strchr base (char_at base i) = Some i) && is_visible (char_at base i))
    (map Z.of_nat (seq 0 33)) = true ->
  forall i, 0 <= i <= 32 -> strchr base (char_at base i) = Some i /\ is_visible (char_at base i) = true.
Proof.
  intros H i Hi. pose proof (range_forall 33 _ H i ltac:(lia)) as Hr. cbn beta in Hr.
  apply andb_true_iff in Hr as [H1 H2]. split; [exact (bool_decide_eq_true_1 _ H1)|done].
Qed.

(** Base 32 and base 32 with the extended hex alphabet: what [totext]
    writes is decoded to the source, except that a source of [5 k + 2] octets
    comes back with a 0 octet added: for four digits the decoder counts three
    octets where the encoder made two. *)
Theorem base32_roundtrip (source wordbreak val : list Z) (wordlength : Z) (t1 t2 : isc_buffer_t) :
  bytes source -> spaces wordbreak -> wf_buffer t1 -> wf_buffer t2 ->
  8 <= Zlen val -> Zlen (dec32 source) <= b_length t2 - b_used t2 ->
  codec_roundtrip source wordbreak (enc32 base32 source) (isc_base32_totext source wordlength wordbreak)
    (isc_base32_decodestring val) (dec32 source) t1 t2 /\
  codec_roundtrip source wordbreak (enc32 base32hex source) (isc_base32hex_totext source wordlength wordbreak)
    (isc_base32hex_decodestring val) (dec32 source) t1 t2.
Proof.
  intros Hs Hw Ht1 Ht2 Hv Hroom.
  split; apply b32_roundtrip; try done; apply alphabet_ok; vm_compute; reflexivity.
Qed.

Lemma base32_roundtrip_witness :
  codec_roundtrip [1; 171] [32] (enc32 base32 [1; 171]) (isc_base32_totext [1; 171] 60 [32])
    (isc_base32_decodestring (replicate 8 7)) [1; 171; 0] (isc_buffer_init (replicate 10 0)) (isc_buffer_init (replicate 3 0)) /\
  codec_roundtrip [1; 171] [32] (enc32 base32hex [1; 171]) (isc_base32hex_totext [1; 171] 60 [32])
    (isc_base32hex_decodestring (replicate 8 7)) [1; 171; 0] (isc_buffer_init (replicate 10 0)) (isc_buffer_init (replicate 3 0)).
Proof.
  apply (base32_roundtrip [1; 171] [32] (replicate 8 7) 60 (isc_buffer_init (replicate 10 0)) (isc_buffer_init (replicate 3 0))).
  - apply bytesb_spec. reflexivity.
  - split; [apply bytesb_spec; reflexivity|]. repeat constructor.
  - apply wf_bufferb_spec. reflexivity.
  - apply wf_bufferb_spec. reflexivity.
  - vm_compute. discriminate.
  - vm_compute. discriminate.
Defined.

(** The terminator of the alphabet is found by [strchr], so octets 0 in a region
    count as padding. *)
Example decoderegion_accepts_nul :
  isc_base32_decoderegion (replicate 8 7) [65; 69; 0; 0; 0; 0; 0; 0] (isc_buffer_init [9]) =
  isc_base32_decoderegion (replicate 8 7) [65; 69; 61; 61; 61; 61; 61; 61] (isc_buffer_init [9]).
Proof. vm_compute. reflexivity. Qed.
