(* ===== verification/Ttl.v ===== *)
(** * Times to live as text ([lib/dns/ttl.c], [lib/isc/parseint.c])

    A time to live is a 32-bit number of seconds.  It is printed as a sum of weeks,
    days, hours, minutes and seconds, and read as a plain number or as such a sum.
    Text is a list of octets; a string is given without its terminating 0. *)

From S2P Require Import Prelude Buffer NameTheory Codec.

(** ** What the code uses of the C library *)

Definition isdigit (c : Z) : bool := (48 <=? c) && (c <=? 57).
Definition isupper (c : Z) : bool := (65 <=? c) && (c <=? 90).
Definition islower (c : Z) : bool := (97 <=? c) && (c <=? 122).
Definition isalnum (c : Z) : bool := isdigit c || isupper c || islower c.
Definition toupper (c : Z) : Z := if islower c then c - 32 else c.

(** [%u]: the decimal digits of a number below [10 ^ fuel]. *)
Fixpoint digits (fuel : nat) (n : Z) : list Z :=
  match fuel with
  | O => []
  | S fuel' => (if n <? 10 then [] else digits fuel' (n / 10)) ++ [48 + n mod 10]
  end.

Definition print_u (n : Z) : list Z := digits 10 n.

Definition ULONG_MAX : Z := 2 ^ 64 - 1.

(** The value of a digit of [strtoul] *)
Definition digit_value (c : Z) : Z :=
  if isdigit c then c - 48
  else if isupper c then c - 55
  else if islower c then c - 87
  else 36.

(** The digits of a number: its value, whether it is out of range, and what follows. *)
Fixpoint strtoul_digits (base : Z) (s : list Z) (n : Z) (erange : bool) : Z * bool * list Z :=
  match s with
  | c :: s' =>
      if digit_value c <? base then
        let n' := n * base + digit_value c in
        if erange || (ULONG_MAX <? n') then strtoul_digits base s' ULONG_MAX true
        else strtoul_digits base s' n' false
      else (n, erange, s)
  | [] => (n, erange, s)
  end.

(** [strtoul] of a string that does not start with white space or a sign, in a base
    from 2 to 36, or 0 for the base of the prefix. *)
Definition strtoul (base : Z) (s : list Z) : Z * bool * list Z :=
  let hex :=
    match s with
    | 48 :: x :: c :: _ => ((x =? 120) || (x =? 88)) && (digit_value c <? 16)
    | _ => false
    end in
  if ((base =? 0) || (base =? 16)) && hex then strtoul_digits 16 (drop 2 s) 0 false
  else
    let base := if base =? 0 then match s with 48 :: _ => 8 | _ => 10 end else base in
    match s with
    | c :: _ => if digit_value c <? base then strtoul_digits base s 0 false else (0, false, s)
    | [] => (0, false, s)
    end.

(** ** [lib/isc/parseint.c] *)

Definition isc_parse_uint32 (string : list Z) (base : Z) : isc_result_t * option Z :=
  match string with
  | [] => (ISC_R_BADNUMBER, None)
  | c :: _ =>
      if negb (isalnum c) then (ISC_R_BADNUMBER, None)
      else
        let '(n, erange, e) := strtoul base string in
        match e with
        | _ :: _ => (ISC_R_BADNUMBER, None)
        | [] =>
            let r := u32 n in
            if ((n =? ULONG_MAX) && erange) || negb (n =? r) then (ISC_R_RANGE, None)
            else (ISC_R_SUCCESS, Some r)
        end
  end.

Definition isc_parse_uint16 (string : list Z) (base : Z) : isc_result_t * option Z :=
  match isc_parse_uint32 string base with
  | (ISC_R_SUCCESS, Some val) =>
      if 0xFFFF <? val then (ISC_R_RANGE, None) else (ISC_R_SUCCESS, Some (u16 val))
  | r => r
  end.

Definition isc_parse_uint8 (string : list Z) (base : Z) : isc_result_t * option Z :=
  match isc_parse_uint32 string base with
  | (ISC_R_SUCCESS, Some val) =>
      if 0xFF <? val then (ISC_R_RANGE, None) else (ISC_R_SUCCESS, Some (u8 val))
  | r => r
  end.

(** ** Printing *)

Definition s_week : list Z := [119; 101; 101; 107].
Definition s_day : list Z := [100; 97; 121].
Definition s_hour : list Z := [104; 111; 117; 114].
Definition s_minute : list Z := [109; 105; 110; 117; 116; 101].
Definition s_second : list Z := [115; 101; 99; 111; 110; 100].

(** What [snprintf] writes into [tmp] *)
Definition ttlfmt_text (t : Z) (s : list Z) (verbose space : bool) : list Z :=
  if verbose then
    (if space then [32] else []) ++ print_u t ++ [32] ++ s ++ (if t =? 1 then [] else [115])
  else print_u t ++ take 1 s.

Definition ttlfmt (t : Z) (s : list Z) (verbose space : bool) (target : isc_buffer_t)
    : outcome (isc_result_t * isc_buffer_t) :=
  let tmp := ttlfmt_text t s verbose space in
  REQUIRE Zlen tmp + 1 <=? 60 ;;
  mem_tobuffer target tmp.

(** One of the five parts of [dns_ttl_totext], unless an earlier one failed; [x] is
    the number of parts printed. *)
Definition ttl_part (present : bool) (t : Z) (s : list Z) (verbose : bool)
    (r : isc_result_t * Z * isc_buffer_t) : outcome (isc_result_t * Z * isc_buffer_t) :=
  let '(result, x, target) := r in
  match result with
  | ISC_R_SUCCESS =>
      if present then
        let* (result, target) := ttlfmt t s verbose (0 <? x) target in
        Done (result, match result with ISC_R_SUCCESS => x + 1 | _ => x end, target)
      else Done r
  | _ => Done r
  end.

Definition dns_ttl_totext (src : Z) (verbose : bool) (target : isc_buffer_t)
    : outcome (isc_result_t * isc_buffer_t) :=
  let secs := src mod 60 in let src := src / 60 in
  let mins := src mod 60 in let src := src / 60 in
  let hours := src mod 24 in let src := src / 24 in
  let days := src mod 7 in let weeks := src / 7 in
  let* r := ttl_part (negb (weeks =? 0)) weeks s_week verbose (ISC_R_SUCCESS, 0, target) in
  let* r := ttl_part (negb (days =? 0)) days s_day verbose r in
  let* r := ttl_part (negb (hours =? 0)) hours s_hour verbose r in
  let* r := ttl_part (negb (mins =? 0)) mins s_minute verbose r in
  let* (result, x, target) :=
    ttl_part (negb (secs =? 0) || ((weeks =? 0) && (days =? 0) && (hours =? 0) && (mins =? 0)))
      secs s_second verbose r in
  match result with
  | ISC_R_SUCCESS =>
      REQUIRE 0 <? x ;;
      if (x =? 1) && negb verbose then
        let* c := rd (b_base target) (b_used target - 1) in
        let* area := wr (b_base target) (b_used target - 1) (toupper c) in
        Done (ISC_R_SUCCESS, set_base target area)
      else Done (ISC_R_SUCCESS, target)
  | _ => Done (result, target)
  end.

(** ** Reading *)

Fixpoint take_digits (s : list Z) : list Z :=
  match s with
  | c :: s' => if isdigit c then c :: take_digits s' else []
  | [] => []
  end.

(** The seconds of a unit, by its letter *)
Definition ttl_unit (c : Z) : option Z :=
  if (c =? 119) || (c =? 87) then Some (7 * 24 * 3600)
  else if (c =? 100) || (c =? 68) then Some (24 * 3600)
  else if (c =? 104) || (c =? 72) then Some 3600
  else if (c =? 109) || (c =? 77) then Some 60
  else if (c =? 115) || (c =? 83) then Some 1
  else None.

(** One turn of the loop of [bind_ttl]; the loop's variables are [s] and [tmp]. *)
Definition bind_ttl_body (st : list Z * Z) : outcome ((list Z * Z) + (isc_result_t * option Z)) :=
  let '(s, tmp) := st in
  let nbuf := take_digits s in
  let s := drop (length nbuf) s in
  REQUIRE Zlen nbuf + 1 <=? 64 ;;
  match isc_parse_uint32 nbuf 10 with
  | (ISC_R_SUCCESS, Some n) =>
      match s with
      | [] => if negb (tmp =? 0) then Done (inr (DNS_R_SYNTAX, None)) else Done (inr (ISC_R_SUCCESS, Some n))
      | c :: s' =>
          match ttl_unit c with
          | Some unit =>
              let tmp := u32 (tmp + u32 (n * unit)) in
              match s' with
              | [] => Done (inr (ISC_R_SUCCESS, Some tmp))
              | _ => Done (inl (s', tmp))
              end
          | None => Done (inr (DNS_R_SYNTAX, None))
          end
      end
  | _ => Done (inr (DNS_R_SYNTAX, None))
  end.

(** [strncpy] stops at a 0. *)
Fixpoint until_nul (s : list Z) : list Z :=
  match s with
  | c :: s' => if c =? 0 then [] else c :: until_nul s'
  | [] => []
  end.

Definition bind_ttl (source : list Z) : outcome (isc_result_t * option Z) :=
  if 63 <? Zlen source then Done (DNS_R_SYNTAX, None)
  else loop (S (length source)) bind_ttl_body (until_nul source, 0).

Definition dns_counter_fromtext (source : list Z) : outcome (isc_result_t * option Z) := bind_ttl source.

Definition dns_ttl_fromtext (source : list Z) : outcome (isc_result_t * option Z) :=
  let* (result, ttl) := bind_ttl source in
  match result with
  | ISC_R_SUCCESS => Done (ISC_R_SUCCESS, ttl)
  | _ => Done (DNS_R_BADTTL, ttl)
  end.

(** ** Numbers *)

Definition dec_value (l : list Z) (n : Z) : Z := fold_left (fun a c => a * 10 + (c - 48)) l n.

Lemma dec_value_snoc l c n : dec_value (l ++ [c]) n = dec_value l n * 10 + (c - 48).
Proof. unfold dec_value. by rewrite fold_left_app. Qed.

Lemma digits_digit k n : 0 <= n -> Forall (fun c => isdigit c = true) (digits k n).
Proof.
  revert n. induction k as [|k IH]; intros n Hn; [constructor|]. cbn [digits].
  apply Forall_app. split.
  - case_if; [constructor|]. apply IH. apply Z.div_pos; lia.
  - constructor; [|constructor]. unfold isdigit. pose proof (Z.mod_pos_bound n 10). lia.
Qed.

Lemma digits_value k n : 0 <= n < 10 ^ Z.of_nat k -> dec_value (digits k n) 0 = n.
Proof.
  revert n. induction k as [|k IH]; intros n Hn; [cbn in *; lia|]. cbn [digits]. rewrite dec_value_snoc.
  rewrite Nat2Z.inj_succ, Z.pow_succ_r in Hn by lia. case_if; bool_prop.
  - cbn. rewrite Z.mod_small; lia.
  - rewrite IH; [|split; [apply Z.div_pos; lia|apply Z.div_lt_upper_bound; lia]].
    pose proof (Z.div_mod n 10). lia.
Qed.

Lemma digits_length k (m : nat) n : 0 <= n < 10 ^ Z.of_nat m -> (0 < m)%nat -> Zlen (digits k n) <= Z.of_nat m.
Proof.
  revert m n. induction k as [|k IH]; intros m n Hn Hm; [unfold Zlen; cbn [digits length]; lia|].
  cbn [digits]. rewrite Zlen_app. change (Zlen [48 + n mod 10]) with 1.
  case_if; bool_prop; [change (Zlen (@nil Z)) with 0; lia|].
  destruct m as [|[|m]]; [lia|cbn in Hn; lia|].
  assert (Zlen (digits k (n / 10)) <= Z.of_nat (S m)); [|lia]. apply IH; [|lia].
  rewrite Nat2Z.inj_succ, Z.pow_succ_r in Hn by lia.
  split; [apply Z.div_pos; lia|apply Z.div_lt_upper_bound; lia].
Qed.

Lemma digits_some k n : exists c l, digits (S k) n = c :: l.
Proof. cbn. destruct (_ ++ [_]) as [|c l] eqn:E; [by apply app_nil in E as [_ ?]|eauto]. Qed.

Lemma dec_value_ge l n : Forall (fun c => isdigit c = true) l -> 0 <= n -> n <= dec_value l n.
Proof.
  intros Hl. revert n. induction Hl as [|c l Hc Hl IH]; intros n Hn; [done|].
  change (dec_value (c :: l) n) with (dec_value l (n * 10 + (c - 48))).
  unfold isdigit in Hc. bool_prop. specialize (IH (n * 10 + (c - 48))). lia.
Qed.

Lemma strtoul_digits_dec l n :
  Forall (fun c => isdigit c = true) l -> 0 <= n -> dec_value l n <= ULONG_MAX ->
  strtoul_digits 10 l n false = (dec_value l n, false, []).
Proof.
  intros Hl. revert n. induction Hl as [|c l Hc Hl IH]; intros n Hn Hle; [done|].
  change (dec_value (c :: l) n) with (dec_value l (n * 10 + (c - 48))) in *.
  cbn [strtoul_digits]. unfold digit_value. rewrite Hc. unfold isdigit in Hc. bool_prop.
  rewrite (proj2 (Z.ltb_lt (c - 48) 10)) by lia.
  pose proof (dec_value_ge l (n * 10 + (c - 48)) Hl ltac:(lia)) as Hge.
  rewrite (proj2 (Z.ltb_ge ULONG_MAX (n * 10 + (c - 48)))) by lia. cbn [orb]. apply IH; lia.
Qed.

(** A printed number is read back. *)
Lemma parse_print n : 0 <= n < 2 ^ 32 -> isc_parse_uint32 (print_u n) 10 = (ISC_R_SUCCESS, Some n).
Proof.
  intros Hn. assert (dec_value (print_u n) 0 = n) as Hv by (apply digits_value; lia).
  pose proof (digits_digit 10 n ltac:(lia)) as Hd. fold (print_u n) in Hd.
  destruct (digits_some 9 n) as (c & l & E). fold (print_u n) in E. rewrite E in *.
  pose proof (Forall_inv Hd) as Hc. cbn beta in Hc. unfold isc_parse_uint32.
  assert (isalnum c = true) as -> by (unfold isalnum; by rewrite Hc). cbn [negb].
  unfold strtoul. change ((10 =? 0) || (10 =? 16)) with false. change (10 =? 0) with false. cbn [andb].
  assert (digit_value c <? 10 = true) as ->.
  { unfold digit_value. rewrite Hc. unfold isdigit in Hc. bool_prop. lia. }
  rewrite strtoul_digits_dec by (done || unfold ULONG_MAX; lia). rewrite Hv.
  rewrite u32_small by lia. rewrite Z.eqb_refl. cbn [negb]. rewrite orb_false_r, andb_false_r. done.
Qed.

Lemma take_digits_app l c s :
  Forall (fun c => isdigit c = true) l -> isdigit c = false -> take_digits (l ++ c :: s) = l.
Proof. induction 1 as [|x l Hx Hl IH]; intros Hc; cbn; [by rewrite Hc|]. rewrite Hx. by rewrite IH. Qed.

(** ** Reading sums *)

(** A number with the letter of its unit *)
Definition unit_text (p : Z * Z) : list Z := print_u p.1 ++ [p.2].
Definition sum_text (l : list (Z * Z)) : list Z := concat (map unit_text l).

(** The seconds of a number with its unit, and whether it is one. *)
Definition seconds (p : Z * Z) : Z := match ttl_unit p.2 with Some u => p.1 * u | None => 0 end.
Definition is_unit (p : Z * Z) : Prop := 0 <= p.1 < 2 ^ 32 /\ ttl_unit p.2 <> None.
Definition total (l : list (Z * Z)) : Z := foldr (fun p n => seconds p + n) 0 l.

Lemma unit_letter c : ttl_unit c <> None -> isdigit c = false /\ c <> 0.
Proof.
  intros H. split.
  - destruct (isdigit c) eqn:E; [|done]. unfold isdigit in E. bool_prop. destruct H. unfold ttl_unit.
    repeat (case_if; [exfalso; lia|]). done.
  - intros ->. by apply H.
Qed.

Lemma sum_text_some p l : exists c s, sum_text (p :: l) = c :: s.
Proof.
  destruct (digits_some 9 p.1) as (c & s & E). unfold sum_text. cbn [map concat].
  unfold unit_text, print_u. rewrite E. cbn [app]. eauto.
Qed.

(** One turn of the loop *)
Lemma bind_ttl_unit p s tmp :
  is_unit p ->
  bind_ttl_body (unit_text p ++ s, tmp) =
    let tmp := u32 (tmp + seconds p) in
    match s with [] => Done (inr (ISC_R_SUCCESS, Some tmp)) | _ => Done (inl (s, tmp)) end.
Proof.
  destruct p as [n c]. intros [Hn Hu]. cbn in Hn, Hu. destruct (unit_letter c Hu) as [Hc _].
  unfold bind_ttl_body, unit_text. cbn [fst snd]. rewrite <- app_assoc. cbn [app].
  rewrite take_digits_app; [|apply digits_digit; lia|done]. rewrite drop_app_length.
  assert (Zlen (print_u n) <= 10) as Hlen by (apply (digits_length 10 10); lia).
  rewrite require_true by lia. cbn [obind]. rewrite parse_print by done.
  unfold seconds. cbn [fst snd]. destruct (ttl_unit c) as [u|]; [|done].
  assert (u32 (tmp + u32 (n * u)) = u32 (tmp + n * u)) as ->.
  { unfold u32. by rewrite Zplus_mod_idemp_r. }
  by destruct s.
Qed.

Lemma bind_ttl_sum l p tmp fuel :
  Forall is_unit (p :: l) -> (length l < fuel)%nat ->
  loop fuel bind_ttl_body (sum_text (p :: l), tmp) = Done (ISC_R_SUCCESS, Some (u32 (tmp + total (p :: l)))).
Proof.
  revert p tmp fuel. induction l as [|p' l IH]; intros p tmp [|fuel] Hl Hf; try lia;
    apply Forall_cons in Hl as [Hp Hl]; cbn [loop].
  - unfold sum_text. cbn [map concat]. rewrite bind_ttl_unit by done. cbn. by rewrite Z.add_0_r.
  - change (sum_text (p :: p' :: l)) with (unit_text p ++ sum_text (p' :: l)).
    rewrite bind_ttl_unit by done. destruct (sum_text (p' :: l)) as [|c s] eqn:Es.
    { destruct (sum_text_some p' l) as (? & ? & ?). congruence. }
    cbv zeta. rewrite <- Es. rewrite IH by (done || cbn [length] in Hf; lia). do 3 f_equal. unfold u32.
    rewrite Zplus_mod_idemp_l. f_equal. cbn [total foldr]. lia.
Qed.

Lemma until_nul_text l : Forall is_unit l -> until_nul (sum_text l) = sum_text l.
Proof.
  intros Hl. assert (Forall (fun c => c <> 0) (sum_text l)) as H0.
  { induction Hl as [|[n c] l [Hn Hu] Hl IH]; [constructor|].
    change (sum_text ((n, c) :: l)) with ((print_u n ++ [c]) ++ sum_text l).
    rewrite !Forall_app. split_and!; [|constructor; [by apply unit_letter|constructor]|done].
    eapply Forall_impl; [apply digits_digit; cbn in Hn; lia|]. intros x Hx ->. done. }
  induction H0 as [|c s Hc H0 IH]; [done|]. cbn. rewrite (proj2 (Z.eqb_neq c 0)) by done. by rewrite IH.
Qed.

(** What [dns_ttl_fromtext] makes of a sum *)
Lemma fromtext_sum l :
  Forall is_unit l -> l <> [] -> Zlen (sum_text l) <= 63 ->
  dns_ttl_fromtext (sum_text l) = Done (ISC_R_SUCCESS, Some (u32 (total l))).
Proof.
  intros Hl Hne Hlen. destruct l as [|p l]; [done|]. unfold dns_ttl_fromtext, bind_ttl.
  rewrite (proj2 (Z.ltb_ge _ _)) by done. rewrite until_nul_text by done.
  rewrite bind_ttl_sum; [done|done|]. assert (length (p :: l) <= length (sum_text (p :: l)))%nat; [|cbn in *; lia].
  clear. induction (p :: l) as [|[n c] k IH]; [done|].
  change (sum_text ((n, c) :: k)) with ((print_u n ++ [c]) ++ sum_text k). rewrite !length_app. cbn. lia.
Qed.

(** ** Printing *)

Definition part_text (present : bool) (p : Z * Z) : list Z := if present then unit_text p else [].

Lemma print_u_bytes n : 0 <= n -> bytes (print_u n).
Proof.
  intros Hn. eapply Forall_impl; [by apply digits_digit|]. intros c Hc. unfold isdigit in Hc. bool_prop.
  unfold is_byte. lia.
Qed.

Lemma part_length present n c k :
  0 <= n < 10 ^ Z.of_nat k -> (0 < k)%nat -> Zlen (part_text present (n, c)) <= Z.of_nat k + 1.
Proof.
  intros Hn Hk. destruct present; cbn [part_text]; [|unfold Zlen; cbn [length]; lia].
  unfold unit_text. cbn [fst snd]. rewrite Zlen_app. change (Zlen [c]) with 1.
  pose proof (digits_length 10 k n Hn Hk). unfold print_u. lia.
Qed.

(** One part of [dns_ttl_totext], when there is room for it *)
Lemma ttl_part_ok present n c s x t :
  wf_buffer t -> 0 <= n < 10000 -> is_byte c -> take 1 s = [c] ->
  Zlen (part_text present (n, c)) <= b_length t - b_used t ->
  exists t', ttl_part present n s false (ISC_R_SUCCESS, x, t)
      = Done (ISC_R_SUCCESS, x + (if present then 1 else 0), t') /\
    wf_buffer t' /\ appended t t' (part_text present (n, c)).
Proof.
  intros Ht Hn Hc Hs Hroom. unfold ttl_part. destruct present; cbn [part_text] in *.
  2: { exists t. rewrite Z.add_0_r. split_and!; [done|done|by apply appended_nil]. }
  unfold ttlfmt, ttlfmt_text. rewrite Hs. change (print_u n ++ [c]) with (unit_text (n, c)).
  assert (Zlen (unit_text (n, c)) <= 5) as Hlen by (apply (part_length true n c 4); lia).
  rewrite require_true by lia. cbn [obind].
  assert (bytes (unit_text (n, c))) as Hb.
  { apply bytes_app. split; [apply print_u_bytes; cbn; lia|by constructor]. }
  pose proof (mem_tobuffer_spec t (unit_text (n, c)) Ht Hb) as Hm.
  rewrite (proj2 (Z.leb_le _ _)) in Hm by done. destruct Hm as (t' & -> & Ht' & Ha).
  cbn [obind]. by exists t'.
Qed.

(** The last octet written is replaced. *)
Lemma appended_last t t' a c c' :
  wf_buffer t -> wf_buffer t' -> is_byte c' -> appended t t' (a ++ [c]) -> exists area,
    rd (b_base t') (b_used t' - 1) = Done c /\ wr (b_base t') (b_used t' - 1) c' = Done area /\
    wf_buffer (set_base t' area) /\ appended t (set_base t' area) (a ++ [c']).
Proof.
  intros Ht Ht' Hc' Ha. destruct (appended_used _ _ _ Ha) as [Hu _].
  destruct Ha as (base & Hb & ->). cbn [b_base b_used set_base set_used] in *.
  apply blit_Done in Hb as (H1 & H2 & Hb).
  assert (Zlen (a ++ [c]) = Zlen a + 1 /\ Zlen (a ++ [c']) = Zlen a + 1) as [L1 L2] by (rewrite !Zlen_app; done).
  set (p := take (Z.to_nat (b_used t)) (b_base t) ++ a).
  set (q := drop (Z.to_nat (b_used t + (Zlen a + 1))) (b_base t)).
  assert (base = p ++ c :: q) as Ep.
  { rewrite Hb. unfold p, q. rewrite L1, <- !app_assoc. done. }
  assert (b_used t + Zlen (a ++ [c]) - 1 = Zlen p) as Ei.
  { unfold p. rewrite Zlen_app. len. }
  assert (Zlen (p ++ c' :: q) = Zlen (p ++ c :: q)) as EL by (by rewrite !Zlen_app, !Zlen_cons).
  rewrite Ei. exists (p ++ c' :: q). rewrite Ep. split_and!.
  - by apply rd_app_mid.
  - rewrite wr_ok by (pose proof (Zlen_nonneg p); rewrite Zlen_app, Zlen_cons; pose proof (Zlen_nonneg q); lia).
    f_equal. unfold Zlen. rewrite Nat2Z.id, insert_app_r_alt, Nat.sub_diag by lia. done.
  - destruct Ht' as [W1 W2 W3 W4 W5]. cbn in W1, W2, W3, W4, W5. rewrite Ep in *.
    unfold b_length in *. cbn in *. split; cbn; unfold b_length; cbn; try done.
    + rewrite bytes_app, bytes_cons in W1 |- *. naive_solver.
    + by rewrite EL.
    + by rewrite EL.
  - exists (p ++ c' :: q). split.
    + rewrite blit_ok by lia. f_equal. unfold p, q. rewrite L2, <- !app_assoc. done.
    + cbn. unfold set_base, set_used. cbn. f_equal. lia.
Qed.

Definition kept (present : bool) (p : Z * Z) : list (Z * Z) := if present then [p] else [].

Lemma kept_text present p l : part_text present p ++ sum_text l = sum_text (kept present p ++ l).
Proof. by destruct present. Qed.

Lemma kept_total present p l :
  (present = false -> seconds p = 0) -> total (kept present p ++ l) = seconds p + total l.
Proof. destruct present; intros H; cbn [kept app]; [done|]. rewrite H by done. lia. Qed.

Lemma kept_units present p l : is_unit p -> Forall is_unit l -> Forall is_unit (kept present p ++ l).
Proof. intros. destruct present; cbn; [by constructor|done]. Qed.

(** The parts that are printed *)
Definition printed (src : Z) : list (Z * Z) :=
  let mins := src / 60 in let hours := mins / 60 in let days := hours / 24 in
  let weeks := days / 7 in
  kept (negb (weeks =? 0)) (weeks, 119) ++ kept (negb (days mod 7 =? 0)) (days mod 7, 100)
  ++ kept (negb (hours mod 24 =? 0)) (hours mod 24, 104) ++ kept (negb (mins mod 60 =? 0)) (mins mod 60, 109)
  ++ kept (negb (src mod 60 =? 0) || ((weeks =? 0) && (days mod 7 =? 0) && (hours mod 24 =? 0) && (mins mod 60 =? 0)))
       (src mod 60, 115).

Lemma printed_ok src :
  0 <= src < 2 ^ 32 -> Forall is_unit (printed src) /\ total (printed src) = src /\ printed src <> [].
Proof.
  intros Hs. unfold printed. set (mins := src / 60). set (hours := mins / 60). set (days := hours / 24).
  assert (0 <= days / 7 < 2 ^ 32 /\ 0 <= days mod 7 < 7 /\ 0 <= hours mod 24 < 24 /\ 0 <= mins mod 60 < 60 /\
    0 <= src mod 60 < 60 /\
    src = 604800 * (days / 7) + 86400 * (days mod 7) + 3600 * (hours mod 24) + 60 * (mins mod 60) + src mod 60)
    as (R1 & R2 & R3 & R4 & R5 & Esum).
  { unfold days, hours, mins. divlia. }
  split_and!.
  - repeat (apply kept_units; [split; cbn; [lia|discriminate]|]). rewrite <- (app_nil_r (kept _ _)).
    apply kept_units; [split; cbn; [lia|discriminate]|constructor].
  - rewrite <- (app_nil_r (kept (negb (src mod 60 =? 0) || _) _)). rewrite !kept_total; unfold seconds; cbn [fst snd ttl_unit Z.eqb].
    + change (total []) with 0. cbn. lia.
    + intros [H%negb_false_iff%Z.eqb_eq _]%orb_false_iff. rewrite H. done.
    + intros H%negb_false_iff%Z.eqb_eq. rewrite H. done.
    + intros H%negb_false_iff%Z.eqb_eq. rewrite H. done.
    + intros H%negb_false_iff%Z.eqb_eq. rewrite H. done.
    + intros H%negb_false_iff%Z.eqb_eq. rewrite H. done.
  - destruct (days / 7 =? 0), (days mod 7 =? 0), (hours mod 24 =? 0), (mins mod 60 =? 0), (src mod 60 =? 0); done.
Qed.

(** The text of [dns_ttl_totext]: the unit of a single part is in upper case. *)
Definition shown (l : list (Z * Z)) : list (Z * Z) :=
  match l with [(n, c)] => [(n, toupper c)] | _ => l end.

Lemma shown_ok l :
  Forall is_unit l -> Forall is_unit (shown l) /\ total (shown l) = total l /\
  Zlen (sum_text (shown l)) = Zlen (sum_text l).
Proof.
  intros Hl. destruct l as [|[n c] [|p l]]; [done| |done].
  apply Forall_cons in Hl as [[Hn Hu] _]. cbn in Hn, Hu.
  assert (ttl_unit (toupper c) = ttl_unit c) as E.
  { unfold ttl_unit in Hu. unfold toupper, islower, ttl_unit.
    repeat match type of Hu with context [if ?b then _ else _] => destruct b eqn:?; bool_prop end; try done.
    all: match goal with H : (_ =? _) || (_ =? _) = true |- _ => apply orb_true_iff in H as [H|H]; apply Z.eqb_eq in H end;
      subst; done. }
  split_and!.
  - constructor; [|constructor]. split; cbn; [done|by rewrite E].
  - unfold shown, total, seconds. cbn. by rewrite E.
  - unfold sum_text, unit_text. cbn. rewrite !app_nil_r, !Zlen_app. done.
Qed.

(** The end of [dns_ttl_totext], when the parts [l] have been written. *)
Lemma totext_last b t l :
  wf_buffer b -> wf_buffer t -> appended b t (sum_text l) -> Forall is_unit l -> l <> [] -> exists b',
    (REQUIRE 0 <? Zlen l ;;
     if (Zlen l =? 1) && negb false then
       let* c := rd (b_base t) (b_used t - 1) in
       let* area := wr (b_base t) (b_used t - 1) (toupper c) in
       Done (ISC_R_SUCCESS, set_base t area)
     else Done (ISC_R_SUCCESS, t)) = Done (ISC_R_SUCCESS, b') /\
    wf_buffer b' /\ appended b b' (sum_text (shown l)).
Proof.
  intros Hb Ht A Hun Hne.
  rewrite require_true by (destruct l; [done|]; rewrite Zlen_cons; pose proof (Zlen_nonneg l); lia).
  cbn [obind negb]. rewrite andb_true_r. destruct l as [|[n c] [|p l]]; [done| |].
  - change (Zlen [(n, c)] =? 1) with true. cbv iota. unfold sum_text, unit_text in A. cbn [map concat fst snd] in A.
    rewrite app_nil_r in A. apply Forall_cons in Hun as [[Hn Hu] _]. cbn in Hn, Hu.
    destruct (appended_last b t (print_u n) c (toupper c) Hb Ht) as (area & -> & H2 & H3 & H4); [|done|].
    { unfold ttl_unit in Hu. unfold toupper, islower, is_byte. case_if; bool_prop; [lia|].
      repeat match type of Hu with context [if ?b then _ else _] => destruct b eqn:?; bool_prop end; try done; lia. }
    cbn [obind]. rewrite H2. cbn [obind]. eexists. split; [done|]. split_and!; try done.
    unfold shown, sum_text, unit_text. cbn [map concat fst snd]. by rewrite app_nil_r.
  - rewrite (proj2 (Z.eqb_neq _ _)) by (rewrite !Zlen_cons; pose proof (Zlen_nonneg l); lia).
    eexists. by split_and!.
Qed.

Lemma totext_ok src b :
  0 <= src < 2 ^ 32 -> wf_buffer b -> b_used b + 16 <= b_length b -> exists b',
    dns_ttl_totext src false b = Done (ISC_R_SUCCESS, b') /\ wf_buffer b' /\
    appended b b' (sum_text (shown (printed src))) /\ Zlen (sum_text (printed src)) <= 16.
Proof.
  intros Hs Hb Hroom. pose proof (printed_ok src Hs) as (Hun & _ & Hne). revert Hun Hne.
  unfold dns_ttl_totext, printed.
  set (mins := src / 60). set (hours := mins / 60). set (days := hours / 24).
  assert (0 <= days / 7 < 10 ^ 4 /\ 0 <= days mod 7 < 10 ^ 1 /\ 0 <= hours mod 24 < 10 ^ 2 /\
    0 <= mins mod 60 < 10 ^ 2 /\ 0 <= src mod 60 < 10 ^ 2) as (R1 & R2 & R3 & R4 & R5).
  { unfold days, hours, mins. divlia. }
  set (p1 := negb (days / 7 =? 0)). set (p2 := negb (days mod 7 =? 0)). set (p3 := negb (hours mod 24 =? 0)).
  set (p4 := negb (mins mod 60 =? 0)). set (p5 := negb (src mod 60 =? 0) || _).
  pose proof (part_length p1 _ 119 4 R1 ltac:(lia)) as L1. pose proof (part_length p2 _ 100 1 R2 ltac:(lia)) as L2.
  pose proof (part_length p3 _ 104 2 R3 ltac:(lia)) as L3. pose proof (part_length p4 _ 109 2 R4 ltac:(lia)) as L4.
  pose proof (part_length p5 _ 115 2 R5 ltac:(lia)) as L5.
  set (l := kept p1 _ ++ kept p2 _ ++ kept p3 _ ++ kept p4 _ ++ kept p5 _).
  assert (part_text p1 (days / 7, 119) ++ part_text p2 (days mod 7, 100) ++ part_text p3 (hours mod 24, 104)
    ++ part_text p4 (mins mod 60, 109) ++ part_text p5 (src mod 60, 115) = sum_text l) as Etext.
  { unfold l. rewrite <- (app_nil_r (kept p5 _)), <- !kept_text. by rewrite app_nil_r. }
  destruct (ttl_part_ok p1 (days / 7) 119 s_week 0 b Hb) as (t1 & -> & W1 & A1); [lia|done|done|lia|].
  destruct (appended_used _ _ _ A1) as [U1 B1]. cbn [obind].
  destruct (ttl_part_ok p2 (days mod 7) 100 s_day (0 + (if p1 then 1 else 0)) t1 W1) as (t2 & -> & W2 & A2); [lia|done|done|lia|].
  destruct (appended_used _ _ _ A2) as [U2 B2]. cbn [obind].
  destruct (ttl_part_ok p3 (hours mod 24) 104 s_hour (0 + (if p1 then 1 else 0) + (if p2 then 1 else 0)) t2 W2)
    as (t3 & -> & W3 & A3); [lia|done|done|lia|].
  destruct (appended_used _ _ _ A3) as [U3 B3]. cbn [obind].
  destruct (ttl_part_ok p4 (mins mod 60) 109 s_minute
    (0 + (if p1 then 1 else 0) + (if p2 then 1 else 0) + (if p3 then 1 else 0)) t3 W3)
    as (t4 & -> & W4 & A4); [lia|done|done|lia|].
  destruct (appended_used _ _ _ A4) as [U4 B4]. cbn [obind].
  destruct (ttl_part_ok p5 (src mod 60) 115 s_second
    (0 + (if p1 then 1 else 0) + (if p2 then 1 else 0) + (if p3 then 1 else 0) + (if p4 then 1 else 0)) t4 W4)
    as (t5 & -> & W5 & A5); [lia|done|done|lia|]. cbn [obind].
  set (x := 0 + _ + _ + _ + _ + _).
  assert (x = Zlen l) as Ex by (unfold x, l; destruct p1, p2, p3, p4, p5; done).
  assert (appended b t5 (sum_text l)) as A.
  { rewrite <- Etext. do 4 (eapply appended_trans; [eassumption|]). done. }
  assert (Zlen (sum_text l) <= 16) as Hlen by (rewrite <- Etext, !Zlen_app; lia).
  intros Hun Hne. rewrite Ex. destruct (totext_last b t5 l Hb W5 A Hun Hne) as (b' & -> & Hb' & Ha).
  exists b'. by split_and!.
Qed.

(** ** The theorems *)

(** C34. A time to live that was printed is read back, for every 32-bit value: 16 octets
    are enough for the text, and [dns_ttl_fromtext] returns the value. *)
Theorem ttl_roundtrip src b :
  0 <= src < 2 ^ 32 -> wf_buffer b -> b_used b + 16 <= b_length b -> exists b' text,
    dns_ttl_totext src false b = Done (ISC_R_SUCCESS, b') /\ wf_buffer b' /\
    appended b b' text /\ Zlen text <= 16 /\
    dns_ttl_fromtext text = Done (ISC_R_SUCCESS, Some src).
Proof.
  intros Hs Hb Hroom. destruct (totext_ok src b Hs Hb Hroom) as (b' & E & Hb' & Ha & Hlen).
  destruct (printed_ok src Hs) as (Hun & Htot & Hne).
  destruct (shown_ok _ Hun) as (Hun' & Htot' & Hlen').
  exists b', (sum_text (shown (printed src))). split_and!; try done; [lia|].
  rewrite fromtext_sum; [|done| |lia].
  - rewrite Htot', Htot, u32_small by done. done.
  - destruct (printed src) as [|[n c] [|p l]]; done.
Qed.

Lemma ttl_roundtrip_witness :
  exists b' text, dns_ttl_totext 694861 false (mkbuffer (replicate 20 0) 2 0 0) = Done (ISC_R_SUCCESS, b') /\
    dns_ttl_fromtext text = Done (ISC_R_SUCCESS, Some 694861).
Proof.
  destruct (ttl_roundtrip 694861 (mkbuffer (replicate 20 0) 2 0 0)) as (b' & text & H1 & _ & _ & _ & H2).
  - lia.
  - split; [apply bytes_replicate|cbn; lia|vm_compute; discriminate|cbn; lia|vm_compute; reflexivity].
  - vm_compute. discriminate.
  - exists b', text. split; [exact H1|exact H2].
Defined.

(** A sum of numbers with units is read as its number of seconds modulo [2 ^ 32],
    with success: a time that does not fit is not refused, as it is for a plain number,
    but wraps around. *)
Theorem ttl_sum_wraps l :
  Forall is_unit l -> l <> [] -> Zlen (sum_text l) <= 63 ->
  dns_ttl_fromtext (sum_text l) = Done (ISC_R_SUCCESS, Some (total l mod 2 ^ 32)).
Proof. apply fromtext_sum. Qed.

(** The text [7102w] is read as 322304 seconds, less than four days. *)
Lemma ttl_sum_wraps_witness :
  dns_ttl_fromtext [55; 49; 48; 50; 119] = Done (ISC_R_SUCCESS, Some 322304).
Proof.
  apply (ttl_sum_wraps [(7102, 119)]).
  - constructor; [split; [cbn; lia|discriminate]|constructor].
  - discriminate.
  - vm_compute. discriminate.
Defined.
