(* ===== verification/Heap.v ===== *)
(** * The priority queue: [lib/isc/heap.c]

    The array is the list of its cells, 1-based as in the source (cell 0 is not
    used); an element is its pointer, an integer, with 0 for NULL.  The memory
    allocator's answer is an argument: [None] or the new area, whose content is
    arbitrary.  The [index] callback, when the heap has one, is the [set_index]
    of the library's clients ([timer.c], [rbtdb.c]): it stores the index in the
    element, here in a map from elements to their index field.  The [compare]
    callback is a parameter of the operations and what the heap relies on is the
    class [StrictWeak]. *)

From S2P Require Import Prelude.
From Stdlib Require Import Sorted.

Definition heap_parent (i : Z) : Z := Z.shiftr i 1.
Definition heap_left (i : Z) : Z := u32 (Z.shiftl i 1).

Definition SIZE_INCREMENT : Z := 1024.

Record isc_heap := mkheap {
  h_size : Z;
  h_size_increment : Z;
  h_last : Z;
  h_array : list Z;
  h_has_index : bool;
  h_index : gmap Z Z
}.

(** [set_index]: [what->index = index]. *)
Definition set_index (idx : gmap Z Z) (what index : Z) : gmap Z Z := <[what := index]> idx.

Definition isc_heap_create (has_index : bool) (idx : gmap Z Z) (size_increment : Z) : isc_heap :=
  mkheap 0 (if size_increment =? 0 then SIZE_INCREMENT else size_increment) 0 [] has_index idx.

Definition set_array (h : isc_heap) (a : list Z) : isc_heap :=
  mkheap (h_size h) (h_size_increment h) (h_last h) a (h_has_index h) (h_index h).
Definition set_last (h : isc_heap) (n : Z) : isc_heap :=
  mkheap (h_size h) (h_size_increment h) n (h_array h) (h_has_index h) (h_index h).

(** [heap->array[i] = x; if (heap->index != NULL) (heap->index)(heap->array[i], i);]. *)
Definition put (h : isc_heap) (i x : Z) : outcome isc_heap :=
  let* a := wr (h_array h) i x in
  Done (mkheap (h_size h) (h_size_increment h) (h_last h) a (h_has_index h)
          (if h_has_index h then set_index (h_index h) x i else h_index h)).

(** [size_t new_size = heap->size + heap->size_increment], a sum of two
    [unsigned int]; [mem] is what [isc_mem_get] returns for it. *)
Definition resize (h : isc_heap) (mem : option (list Z)) : outcome (bool * isc_heap) :=
  let new_size := u32 (h_size h + h_size_increment h) in
  match mem with
  | None => Done (false, h)
  | Some new_array =>
      let* a := blit new_array 0 (sub (h_array h) 0 (h_size h)) in
      Done (true, mkheap new_size (h_size_increment h) (h_last h) a (h_has_index h) (h_index h))
  end.

Section ops.
Context (compare : Z -> Z -> bool).

Definition HEAPCONDITION (h : isc_heap) (i : Z) : outcome bool :=
  if i =? 1 then Done true
  else
    let* x := rd (h_array h) i in
    let* p := rd (h_array h) (heap_parent i) in
    Done (negb (compare x p)).

(** One test of the [for] loop of [float_up] and its body. *)
Definition float_body (elt : Z) (s : isc_heap * Z) : outcome ((isc_heap * Z) + (isc_heap * Z)) :=
  let '(h, i) := s in
  let p := heap_parent i in
  if 1 <? i then
    let* x := rd (h_array h) p in
    if compare elt x then
      let* h := put h i x in
      Done (inl (h, p))
    else Done (inr (h, i))
  else Done (inr (h, i)).

(** The index halves in each iteration. *)
Definition float_up (h : isc_heap) (i elt : Z) : outcome isc_heap :=
  let* (h, i) := loop (S (Z.to_nat i)) (float_body elt) (h, i) in
  let* h := put h i elt in
  let* c := HEAPCONDITION h i in
  REQUIRE c ;;
  Done h.

(** One test of the [while] loop of [sink_down] and its body. *)
Definition sink_body (elt size half_size : Z) (s : isc_heap * Z) : outcome ((isc_heap * Z) + (isc_heap * Z)) :=
  let '(h, i) := s in
  if i <=? half_size then
    let j := heap_left i in
    let* j := (if j <? size then
                 let* r := rd (h_array h) (j + 1) in
                 let* l := rd (h_array h) j in
                 Done (if compare r l then j + 1 else j)
               else Done j) in
    let* x := rd (h_array h) j in
    if compare elt x then Done (inr (h, i))
    else
      let* h := put h i x in
      Done (inl (h, j))
  else Done (inr (h, i)).

(** The index grows in each iteration and stays at most [size]. *)
Definition sink_down (h : isc_heap) (i elt : Z) : outcome isc_heap :=
  let size := h_last h in
  let half_size := size / 2 in
  let* (h, i) := loop (S (Z.to_nat size)) (sink_body elt size half_size) (h, i) in
  let* h := put h i elt in
  let* c := HEAPCONDITION h i in
  REQUIRE c ;;
  Done h.

Definition isc_heap_insert (h : isc_heap) (elt : Z) (mem : option (list Z)) : outcome (isc_result_t * isc_heap) :=
  let new_last := u32 (h_last h + 1) in
  REQUIRE 0 <? new_last ;;
  let* (ok, h) := (if h_size h <=? new_last then resize h mem else Done (true, h)) in
  if negb ok then Done (ISC_R_NOMEMORY, h)
  else
    let* h := float_up (set_last h new_last) new_last elt in
    Done (ISC_R_SUCCESS, h).

Definition isc_heap_delete (h : isc_heap) (index : Z) : outcome isc_heap :=
  REQUIRE (1 <=? index) && (index <=? h_last h) ;;
  if index =? h_last h then
    let* a := wr (h_array h) (h_last h) 0 in
    Done (set_last (set_array h a) (h_last h - 1))
  else
    let* elt := rd (h_array h) (h_last h) in
    let* a := wr (h_array h) (h_last h) 0 in
    let h := set_last (set_array h a) (h_last h - 1) in
    let* x := rd (h_array h) index in
    let less := compare elt x in
    let* a := wr (h_array h) index elt in
    let h := set_array h a in
    let* e := rd (h_array h) index in
    if less then float_up h index e else sink_down h index e.

Definition isc_heap_increased (h : isc_heap) (index : Z) : outcome isc_heap :=
  REQUIRE (1 <=? index) && (index <=? h_last h) ;;
  let* e := rd (h_array h) index in
  float_up h index e.

Definition isc_heap_decreased (h : isc_heap) (index : Z) : outcome isc_heap :=
  REQUIRE (1 <=? index) && (index <=? h_last h) ;;
  let* e := rd (h_array h) index in
  sink_down h index e.
End ops.

Definition isc_heap_element (h : isc_heap) (index : Z) : outcome Z :=
  REQUIRE 1 <=? index ;;
  if index <=? h_last h then rd (h_array h) index else Done 0.

(** [action] is called on the cells in order; its state is threaded. *)
Definition isc_heap_foreach {U} (h : isc_heap) (action : Z -> U -> U) (uap : U) : outcome U :=
  loop (S (Z.to_nat (h_last h))) (fun '(i, uap) =>
    if i <=? h_last h then
      let* x := rd (h_array h) i in
      Done (inl (i + 1, action x uap))
    else Done (inr uap)) (1, uap).

(** ** What the comparison promises *)

Class StrictWeak (compare : Z -> Z -> bool) : Prop := {
  compare_asym x y : compare x y = true -> compare y x = false;
  compare_negtrans x y z : compare x y = false -> compare y z = false -> compare x z = false
}.

(** ** Cells *)

Definition cell (a : list Z) (i : Z) : Z := nth (Z.to_nat i) a 0.

Lemma cell_lookup a i : 0 <= i < Zlen a -> a !! Z.to_nat i = Some (cell a i).
Proof.
  intros H. destruct (lookup_lt_is_Some_2 a (Z.to_nat i)) as [x Hx]; [len|].
  rewrite Hx. unfold cell. by rewrite nth_lookup, Hx.
Qed.

Lemma rd_cell a i : 0 <= i < Zlen a -> rd a i = Done (cell a i).
Proof. intros H. apply rd_Done. split; [lia|by apply cell_lookup]. Qed.

Lemma cell_insert a i j x : 0 <= i < Zlen a -> 0 <= j ->
  cell (<[Z.to_nat i := x]> a) j = if j =? i then x else cell a j.
Proof.
  intros Hi Hj. unfold cell. rewrite !nth_lookup. destruct (j =? i) eqn:E; bool_prop.
  - subst j. by rewrite list_lookup_insert_eq by len.
  - rewrite list_lookup_insert_ne by lia. done.
Qed.

(** The elements of a heap. *)
Definition elements (h : isc_heap) : list Z := sub (h_array h) 1 (h_last h).

Lemma elements_perm a b n : 0 <= n -> n + 1 <= Zlen a -> a ≡ₚ b ->
  (forall j, 0 <= j < Zlen a -> ~ (1 <= j <= n) -> cell a j = cell b j) -> sub a 1 n ≡ₚ sub b 1 n.
Proof.
  intros Hn Hl Hp Hout. pose proof (Permutation_length Hp) as Hlen.
  assert (Hsplit : forall l : list Z, l = take 1 l ++ sub l 1 n ++ drop (Z.to_nat (n + 1)) l).
  { intros l. unfold sub. rewrite <- (take_drop 1 l) at 1. f_equal. change (drop 1 l) with (drop (Z.to_nat 1) l).
    rewrite <- (take_drop (Z.to_nat n) (drop (Z.to_nat 1) l)) at 1. f_equal. rewrite drop_drop. f_equal. lia. }
  assert (Heq : forall k, (k < length a)%nat -> ~ (1 <= Z.of_nat k <= n) -> a !! k = b !! k).
  { intros k Hk Hnk. specialize (Hout (Z.of_nat k) ltac:(len) Hnk).
    pose proof (cell_lookup a (Z.of_nat k) ltac:(len)) as Ha. pose proof (cell_lookup b (Z.of_nat k) ltac:(len)) as Hb.
    rewrite Nat2Z.id in Ha, Hb. congruence. }
  assert (H1 : take 1 a = take 1 b).
  { apply list_eq. intros [|k]; [rewrite !lookup_take_lt by lia; apply Heq; [len|lia]|by rewrite !lookup_take_ge by lia]. }
  assert (H2 : drop (Z.to_nat (n + 1)) a = drop (Z.to_nat (n + 1)) b).
  { apply list_eq. intros k. rewrite !lookup_drop.
    destruct (decide (Z.to_nat (n + 1) + k < length a)%nat); [apply Heq; lia|].
    rewrite !lookup_ge_None_2; [done|lia|lia]. }
  rewrite (Hsplit a), (Hsplit b), H1, H2 in Hp. apply Permutation_app_inv_l in Hp. by apply Permutation_app_inv_r in Hp.
Qed.

(** ** The state while a hole is moved *)

(** The array as it is once the element fills the hole at [i]. *)
Definition filled (h : isc_heap) (i elt : Z) : list Z := <[Z.to_nat i := elt]> (h_array h).

Definition distinct (a : list Z) (n : Z) : Prop :=
  forall j k, 1 <= j <= n -> 1 <= k <= n -> cell a j = cell a k -> j = k.

(** All cells but the one at [skip] know their index. *)
Definition indexed (h : isc_heap) (a : list Z) (skip : Z) : Prop :=
  h_has_index h = true -> distinct a (h_last h) /\
    forall j, 1 <= j <= h_last h -> j <> skip -> h_index h !! cell a j = Some j.

Definition same_shape (h h' : isc_heap) : Prop :=
  h_size h' = h_size h /\ h_size_increment h' = h_size_increment h /\ h_last h' = h_last h /\
  h_has_index h' = h_has_index h /\ Zlen (h_array h') = Zlen (h_array h).

Record moving (h0 : isc_heap) (i0 elt : Z) (h : isc_heap) (i : Z) : Prop := {
  mv_shape : same_shape h0 h;
  mv_hole : 1 <= i <= h_last h;
  mv_room : h_last h < Zlen (h_array h);
  mv_perm : filled h i elt ≡ₚ filled h0 i0 elt;
  mv_out : forall j, 0 <= j < Zlen (h_array h) -> ~ (1 <= j <= h_last h) -> cell (filled h i elt) j = cell (filled h0 i0 elt) j;
  mv_index : indexed h (filled h i elt) i;
  mv_others : forall x, x ∉ sub (filled h0 i0 elt) 1 (h_last h0) -> h_index h !! x = h_index h0 !! x
}.

Lemma moving_elements h0 i0 elt h i : moving h0 i0 elt h i ->
  sub (filled h i elt) 1 (h_last h) ≡ₚ sub (filled h0 i0 elt) 1 (h_last h0).
Proof.
  intros [(S1 & S2 & S3 & S4 & S5) Hi Hr Hp Ho _ _]. rewrite <- S3. apply elements_perm; [lia|unfold filled; len|done|].
  intros j Hj. apply Ho. unfold filled in Hj. len.
Qed.

Lemma sub_cell_elem (a : list Z) j n : 1 <= j <= n -> n < Zlen a -> cell a j ∈ sub a 1 n.
Proof.
  intros Hj Hn. apply list_elem_of_lookup. exists (Z.to_nat (j - 1)). unfold sub.
  rewrite lookup_take_lt, lookup_drop by lia. rewrite <- cell_lookup by lia. f_equal. lia.
Qed.

Lemma moving_start h i elt : 1 <= i <= h_last h -> h_last h < Zlen (h_array h) ->
  indexed h (filled h i elt) i -> moving h i elt h i.
Proof. intros Hi Hr Hx. by constructor. Qed.

Lemma cell_filled h i elt j : 0 <= i < Zlen (h_array h) -> 0 <= j ->
  cell (filled h i elt) j = if j =? i then elt else cell (h_array h) j.
Proof. apply cell_insert. Qed.

(** One move: the content of [k] goes to the hole, which is now at [k]. *)
Lemma moving_step h0 i0 elt h i k : moving h0 i0 elt h i -> 1 <= k <= h_last h -> k <> i ->
  exists h', put h i (cell (h_array h) k) = Done h' /\ moving h0 i0 elt h' k /\
    (forall j, 0 <= j -> cell (filled h' k elt) j =
       if j =? k then elt else if j =? i then cell (filled h i elt) k else cell (filled h i elt) j).
Proof.
  intros Hm Hk Hki. pose proof (moving_elements _ _ _ _ _ Hm) as Hel.
  destruct Hm as [(S1 & S2 & S3 & S4 & S5) Hi Hr Hp Ho Hx Hoth]. unfold put. rewrite wr_ok by lia. cbn [obind].
  eexists. split; [reflexivity|]. set (h' := mkheap _ _ _ _ _ _).
  assert (Hcell : forall j, 0 <= j -> cell (filled h' k elt) j =
    if j =? k then elt else if j =? i then cell (filled h i elt) k else cell (filled h i elt) j).
  { intros j Hj. rewrite cell_filled by (cbn; len). cbn [h' h_array]. rewrite cell_insert by lia.
    rewrite !cell_filled by lia. destruct (j =? k) eqn:E1, (j =? i) eqn:E2, (k =? i) eqn:E3; bool_prop; congruence. }
  split; [|exact Hcell]. constructor.
  - unfold same_shape. cbn. split_and!; try done. len.
  - done.
  - cbn. len.
  - rewrite <- Hp. unfold filled, h'. cbn [h_array].
    assert (Hsw := Permutation_insert_swap (filled h i elt) (Z.to_nat i) (Z.to_nat k) elt (cell (h_array h) k)).
    unfold filled in Hsw. rewrite list_insert_insert_eq in Hsw. apply Hsw.
    + apply list_lookup_insert_eq. len.
    + rewrite list_lookup_insert_ne by lia. apply cell_lookup. lia.
  - intros j Hj Hout. cbn in Hj, Hout. rewrite Hcell by lia. rewrite (proj2 (Z.eqb_neq j k)), (proj2 (Z.eqb_neq j i)) by lia.
    apply Ho; [len|done].
  - intros Hhas. cbn in Hhas. destruct (Hx Hhas) as [Hd Hidx].
    assert (Hk' : cell (filled h i elt) k = cell (h_array h) k) by (rewrite cell_filled by lia; by rewrite (proj2 (Z.eqb_neq k i)) by lia).
    assert (Hi' : cell (filled h i elt) i = elt) by (rewrite cell_filled by lia; by rewrite Z.eqb_refl).
    split.
    + assert (Hf : forall j, 0 <= j -> cell (filled h' k elt) j = cell (filled h i elt) (if j =? k then i else if j =? i then k else j)).
      { intros j Hj. rewrite Hcell by done. destruct (j =? k), (j =? i); congruence. }
      intros a b Ha Hb E. cbn in Ha, Hb. rewrite !Hf in E by lia.
      apply Hd in E; destruct (a =? k) eqn:E1, (a =? i) eqn:E2, (b =? k) eqn:E3, (b =? i) eqn:E4; lia.
    + intros j Hj Hne. cbn in Hj. cbn. rewrite Hhas. unfold set_index. rewrite Hcell by lia.
      rewrite (proj2 (Z.eqb_neq j k)) by lia. destruct (j =? i) eqn:E; bool_prop.
      * subst j. rewrite Hk'. by rewrite lookup_insert_eq.
      * rewrite lookup_insert_ne; [apply Hidx; lia|]. rewrite <- Hk'. intros E'. apply Hd in E'; lia.
  - intros x Hnx. cbn [h' h_index]. rewrite <- (Hoth x Hnx). destruct (h_has_index h); [|done]. unfold set_index.
    apply lookup_insert_ne. intros <-. apply Hnx. rewrite <- Hel.
    replace (cell (h_array h) k) with (cell (filled h i elt) k)
      by (rewrite cell_filled by lia; by rewrite (proj2 (Z.eqb_neq k i)) by lia).
    apply sub_cell_elem; [lia|unfold filled; len].
Qed.

(** The element fills the hole. *)
Lemma moving_end h0 i0 elt h i : moving h0 i0 elt h i ->
  exists h', put h i elt = Done h' /\ same_shape h0 h' /\ h_array h' = filled h i elt /\
    elements h' ≡ₚ sub (filled h0 i0 elt) 1 (h_last h0) /\ indexed h' (h_array h') 0 /\
    (forall x, x ∉ elements h' -> h_index h' !! x = h_index h0 !! x).
Proof.
  intros Hm. pose proof (moving_elements _ _ _ _ _ Hm) as Hel.
  destruct Hm as [(S1 & S2 & S3 & S4 & S5) Hi Hr Hp Ho Hx Hoth]. unfold put. rewrite wr_ok by lia. cbn [obind].
  eexists. split; [reflexivity|]. split_and!.
  - unfold same_shape. cbn. split_and!; try done. len.
  - done.
  - exact Hel.
  - intros Hhas. cbn in Hhas. destruct (Hx Hhas) as [Hd Hidx]. split; [done|]. cbn [h_index h_array h_last h_has_index]. intros j Hj _. rewrite Hhas. unfold set_index.
    destruct (Z.eq_dec j i) as [->|Hne].
    + rewrite cell_insert by lia. rewrite Z.eqb_refl. by rewrite lookup_insert_eq.
    + rewrite lookup_insert_ne; [by apply Hidx|]. intros E. apply Hne, (Hd j i); [lia|lia|].
      change (<[Z.to_nat i := elt]> (h_array h)) with (filled h i elt) in E. rewrite <- E, cell_filled by lia. by rewrite Z.eqb_refl.
  - intros x Hnx. unfold elements in Hnx. cbn [h_array h_last] in Hnx. fold (filled h i elt) in Hnx. cbn [h_index].
    rewrite <- (Hoth x) by (by rewrite <- Hel). destruct (h_has_index h); [|done]. unfold set_index.
    apply lookup_insert_ne. intros <-. apply Hnx.
    replace elt with (cell (filled h i elt) i) at 1 by (rewrite cell_filled by lia; by rewrite Z.eqb_refl).
    apply sub_cell_elem; [lia|unfold filled; len].
Qed.

(** ** Heap order *)

Lemma parent_div j : heap_parent j = j / 2.
Proof. unfold heap_parent. by rewrite Z.shiftr_div_pow2 by lia. Qed.

Section theory.
Context (compare : Z -> Z -> bool) `{!StrictWeak compare}.

Definition above (a : list Z) (j : Z) : Prop := compare (cell a j) (cell a (j / 2)) = false.

(** [HEAPCONDITION] of every element. *)
Definition ordered (a : list Z) (n : Z) : Prop := forall j, 2 <= j <= n -> above a j.

(** The order while an element floats up from, or sinks down to, [i]. *)
Definition grand (a : list Z) (n i : Z) : Prop :=
  forall j, 2 <= j <= n -> j / 2 = i -> 2 <= i -> compare (cell a j) (cell a (i / 2)) = false.
Definition floating (a : list Z) (n i : Z) : Prop :=
  (forall j, 2 <= j <= n -> j <> i -> above a j) /\ grand a n i.
Definition sinking (a : list Z) (n i : Z) : Prop :=
  (forall j, 2 <= j <= n -> j / 2 <> i -> above a j) /\ grand a n i.

(** Exchanging a floating element with its parent. *)
Lemma floating_step a b n i : 2 <= i <= n -> floating a n i -> compare (cell a i) (cell a (i / 2)) = true ->
  (forall j, 0 <= j -> cell b j = if j =? i / 2 then cell a i else if j =? i then cell a (i / 2) else cell a j) ->
  floating b n (i / 2).
Proof.
  intros Hi [Ha Hg] Hlt Hb. assert (Hp : 1 <= i / 2 < i) by divlia.
  pose proof (compare_asym _ _ Hlt) as Has. split.
  - intros j Hj Hne. unfold above. rewrite !Hb by divlia. rewrite (proj2 (Z.eqb_neq j (i / 2))) by done.
    destruct (j =? i) eqn:E1; bool_prop.
    { subst j. by rewrite Z.eqb_refl. }
    specialize (Ha j Hj E1). unfold above in Ha. destruct (j / 2 =? i / 2) eqn:E2; bool_prop.
    { rewrite E2 in Ha. by apply (compare_negtrans _ (cell a (i / 2))). }
    destruct (j / 2 =? i) eqn:E3; bool_prop; [|done]. apply Hg; [done|done|lia].
  - intros j Hj Hji H2. assert (Hq : i / 2 / 2 <> i / 2 /\ i / 2 / 2 <> i /\ 0 <= i / 2 / 2) by divlia.
    rewrite !Hb by lia. rewrite (proj2 (Z.eqb_neq (i / 2 / 2) (i / 2))), (proj2 (Z.eqb_neq (i / 2 / 2) i)) by lia.
    rewrite (proj2 (Z.eqb_neq j (i / 2))) by divlia.
    assert (Hgp : compare (cell a (i / 2)) (cell a (i / 2 / 2)) = false) by (apply (Ha (i / 2)); lia).
    destruct (j =? i) eqn:E1; bool_prop; [done|]. apply (compare_negtrans _ (cell a (i / 2))); [|done].
    specialize (Ha j Hj E1). unfold above in Ha. by rewrite Hji in Ha.
Qed.

Lemma floating_end a n i : floating a n i -> (i <= 1 \/ above a i) -> ordered a n.
Proof.
  intros [Ha _] Hi j Hj. destruct (Z.eq_dec j i) as [->|]; [|by apply Ha]. destruct Hi; [lia|done].
Qed.

(** Exchanging a sinking element with its smaller child [k]. *)
Lemma sinking_step a b n i k : 1 <= i -> 2 <= k <= n -> k / 2 = i -> sinking a n i ->
  compare (cell a i) (cell a k) = false ->
  (forall j, 2 <= j <= n -> j / 2 = i -> j <> k -> compare (cell a j) (cell a k) = false) ->
  (forall j, 0 <= j -> cell b j = if j =? k then cell a i else if j =? i then cell a k else cell a j) ->
  sinking b n k.
Proof.
  intros Hi Hk Hki [Ha Hg] Hge Hmin Hb. assert (Hlt : i < k) by divlia. split.
  - intros j Hj Hne. unfold above. rewrite !Hb by divlia. rewrite (proj2 (Z.eqb_neq (j / 2) k)) by done.
    destruct (j =? k) eqn:E1; bool_prop.
    { subst j. by rewrite Hki, Z.eqb_refl. }
    destruct (j =? i) eqn:E2; bool_prop.
    { subst j. rewrite (proj2 (Z.eqb_neq (i / 2) i)) by divlia. apply Hg; [done|done|lia]. }
    destruct (j / 2 =? i) eqn:E3; bool_prop; [by apply Hmin|]. by apply Ha.
  - intros j Hj Hjk H2. rewrite !Hb by divlia. rewrite Hki, Z.eqb_refl, (proj2 (Z.eqb_neq i k)) by lia.
    rewrite (proj2 (Z.eqb_neq j k)), (proj2 (Z.eqb_neq j i)) by divlia.
    specialize (Ha j Hj ltac:(divlia)). unfold above in Ha. by rewrite Hjk in Ha.
Qed.

Lemma sinking_end a n i : sinking a n i ->
  (forall j, 2 <= j <= n -> j / 2 = i -> compare (cell a j) (cell a i) = false) -> ordered a n.
Proof.
  intros [Ha _] Hc j Hj. unfold above. destruct (Z.eq_dec (j / 2) i) as [E|]; [rewrite E; by apply Hc|by apply Ha].
Qed.

(** ** The two loops *)

(** What both leave behind. *)
Definition settled (h0 h : isc_heap) (i elt : Z) : Prop :=
  same_shape h0 h /\ ordered (h_array h) (h_last h) /\
  elements h ≡ₚ sub (filled h0 i elt) 1 (h_last h0) /\ indexed h (h_array h) 0 /\
  (forall x, x ∉ elements h -> h_index h !! x = h_index h0 !! x).

Lemma settle h0 i0 elt h i : moving h0 i0 elt h i -> ordered (filled h i elt) (h_last h) ->
  exists h', (let* h := put h i elt in let* c := HEAPCONDITION compare h i in REQUIRE c ;; Done h) = Done h' /\
    settled h0 h' i0 elt.
Proof.
  intros Hm Ho. destruct (moving_end _ _ _ _ _ Hm) as (h' & -> & Hs & Ha & He & Hx & Hot).
  destruct Hm as [(_ & _ & L3 & _ & L5) Hi Hr _ _ _ _]. pose proof Hs as (_ & _ & S3 & _ & S5). cbn [obind].
  assert (Hc : HEAPCONDITION compare h' i = Done true).
  { unfold HEAPCONDITION. destruct (i =? 1) eqn:E; bool_prop; [done|]. rewrite parent_div.
    rewrite !rd_cell by divlia. cbn [obind]. specialize (Ho i ltac:(lia)). unfold above in Ho. by rewrite Ha, Ho. }
  rewrite Hc. cbn [obind require]. exists h'. split; [done|]. split_and!; try done. rewrite Ha, S3, <- L3. done.
Qed.

Lemma float_up_spec h i elt : 1 <= i <= h_last h -> h_last h < Zlen (h_array h) ->
  indexed h (filled h i elt) i -> floating (filled h i elt) (h_last h) i ->
  exists h', float_up compare h i elt = Done h' /\ settled h h' i elt.
Proof.
  intros Hi Hr Hx Hf. unfold float_up.
  destruct (loop_rule (float_body compare elt)
    (fun s => moving h i elt (fst s) (snd s) /\ floating (filled (fst s) (snd s) elt) (h_last h) (snd s)) snd
    (fun r => moving h i elt (fst r) (snd r) /\ ordered (filled (fst r) (snd r) elt) (h_last h))) with
    (fuel := S (Z.to_nat i)) (s := (h, i)) as ([h1 i1] & -> & Hm & Ho); cbn [fst snd] in *.
  - intros [h1 i1] [Hm Hfl]. cbn [fst snd] in *. unfold float_body. rewrite parent_div.
    pose proof Hm as [(_ & _ & L3 & _ & _) Hi1 Hr1 _ _ _ _]. destruct (1 <? i1) eqn:E1; bool_prop.
    2:{ split; [done|]. apply (floating_end _ _ i1); [done|by left]. }
    assert (Hpar : 1 <= i1 / 2 < i1) by divlia. rewrite rd_cell by lia. cbn [obind].
    assert (Hfi : cell (filled h1 i1 elt) i1 = elt) by (rewrite cell_filled by lia; by rewrite Z.eqb_refl).
    assert (Hfp : cell (filled h1 i1 elt) (i1 / 2) = cell (h_array h1) (i1 / 2))
      by (rewrite cell_filled by lia; by rewrite (proj2 (Z.eqb_neq (i1 / 2) i1)) by lia).
    destruct (compare elt _) eqn:Ec.
    + destruct (moving_step _ _ _ _ _ (i1 / 2) Hm ltac:(lia) ltac:(lia)) as (h2 & -> & Hm2 & Hc2). cbn [obind fst snd].
      split_and!; [done| |lia|lia]. apply (floating_step (filled h1 i1 elt) _ _ i1); [lia|done| |]; rewrite ?Hfi, ?Hfp; [done|].
      rewrite Hfp in Hc2. exact Hc2.
    + split; [done|]. apply (floating_end _ _ i1); [done|]. right. unfold above. cbn [fst snd]. by rewrite Hfi, Hfp.
  - split; [by apply moving_start|done].
  - lia.
  - cbn [obind]. apply settle; [done|]. destruct Hm as [(_ & _ & -> & _ & _) _ _ _ _ _ _]. done.
Qed.

(** The child [sink_down] chooses. *)
Lemma smaller_child h n i : 1 <= i -> 2 * i <= n -> n < Zlen (h_array h) -> n < 2 ^ 32 ->
  exists k, (let j := heap_left i in
             if j <? n then
               let* r := rd (h_array h) (j + 1) in
               let* l := rd (h_array h) j in
               Done (if compare r l then j + 1 else j)
             else Done j) = Done k /\ 2 <= k <= n /\ k / 2 = i /\
    (forall j, 2 <= j <= n -> j / 2 = i -> j <> k -> compare (cell (h_array h) j) (cell (h_array h) k) = false).
Proof.
  intros Hi Hn Hr Hw.
  assert (Hl : heap_left i = 2 * i) by (unfold heap_left; rewrite Z.shiftl_mul_pow2 by lia; rewrite u32_small; lia).
  rewrite Hl. cbv zeta. destruct (2 * i <? n) eqn:E; bool_prop.
  2:{ exists (2 * i). split_and!; [done|lia|lia|divlia|]. intros j Hj Hji Hne. exfalso. divlia. }
  rewrite !rd_cell by lia. cbn [obind]. destruct (compare _ _) eqn:Ec.
  - exists (2 * i + 1). split_and!; [done|lia|lia|divlia|]. intros j Hj Hji Hne.
    replace j with (2 * i) by divlia. by apply compare_asym.
  - exists (2 * i). split_and!; [done|lia|lia|divlia|]. intros j Hj Hji Hne.
    by replace j with (2 * i + 1) by divlia.
Qed.

Lemma sink_down_spec h i elt : 1 <= i <= h_last h -> h_last h < Zlen (h_array h) -> h_last h < 2 ^ 32 ->
  indexed h (filled h i elt) i -> sinking (filled h i elt) (h_last h) i ->
  exists h', sink_down compare h i elt = Done h' /\ settled h h' i elt.
Proof.
  intros Hi Hr Hw Hx Hf. unfold sink_down.
  destruct (loop_rule (sink_body compare elt (h_last h) (h_last h / 2))
    (fun s => moving h i elt (fst s) (snd s) /\ sinking (filled (fst s) (snd s) elt) (h_last h) (snd s)) (fun s => h_last h - snd s)
    (fun r => moving h i elt (fst r) (snd r) /\ ordered (filled (fst r) (snd r) elt) (h_last h))) with
    (fuel := S (Z.to_nat (h_last h))) (s := (h, i)) as ([h1 i1] & -> & Hm & Ho); cbn [fst snd] in *.
  - intros [h1 i1] [Hm Hfl]. cbn [fst snd] in *. unfold sink_body.
    pose proof Hm as [(_ & _ & L3 & _ & _) Hi1 Hr1 _ _ _ _]. destruct (i1 <=? h_last h / 2) eqn:E1; bool_prop.
    2:{ split; [done|]. apply (sinking_end _ _ i1); [done|]. intros j Hj Hji. exfalso. divlia. }
    destruct (smaller_child h1 (h_last h) i1) as (k & Ek & Hk & Hki & Hmin); [lia|divlia|lia|done|].
    cbv zeta in Ek |- *. rewrite Ek. cbn [obind]. rewrite rd_cell by lia. cbn [obind].
    assert (Hfi : cell (filled h1 i1 elt) i1 = elt) by (rewrite cell_filled by lia; by rewrite Z.eqb_refl).
    assert (Hfo : forall j, 0 <= j -> j <> i1 -> cell (filled h1 i1 elt) j = cell (h_array h1) j)
      by (intros j Hj Hne; rewrite cell_filled by lia; by rewrite (proj2 (Z.eqb_neq j i1)) by lia).
    assert (Hmin' : forall j, 2 <= j <= h_last h -> j / 2 = i1 -> j <> k ->
      compare (cell (filled h1 i1 elt) j) (cell (filled h1 i1 elt) k) = false)
      by (intros j Hj Hji Hne; rewrite !Hfo by divlia; by apply Hmin).
    destruct (compare elt _) eqn:Ec.
    + split; [done|]. apply (sinking_end _ _ i1); [done|]. cbn [fst snd]. intros j Hj Hji. rewrite Hfi.
      destruct (Z.eq_dec j k) as [->|Hne]; [rewrite Hfo by divlia; by apply compare_asym|].
      apply (compare_negtrans _ (cell (filled h1 i1 elt) k)); [by apply Hmin'|]. rewrite Hfo by divlia. by apply compare_asym.
    + destruct (moving_step _ _ _ _ _ k Hm ltac:(lia) ltac:(divlia)) as (h2 & -> & Hm2 & Hc2). cbn [obind fst snd].
      split_and!; [done| |divlia|divlia]. apply (sinking_step (filled h1 i1 elt) _ _ i1 k); try done; [lia|by rewrite Hfi, Hfo by divlia|].
      rewrite Hfi. exact Hc2.
  - split; [by apply moving_start|done].
  - lia.
  - cbn [obind]. apply settle; [done|]. destruct Hm as [(_ & _ & -> & _ & _) _ _ _ _ _ _]. done.
Qed.

(** ** The invariant of a heap *)

Record wf_heap (h : isc_heap) : Prop := {
  wf_last : 0 <= h_last h;
  wf_size : h_size h = Zlen (h_array h) /\ h_size h < 2 ^ 32;
  wf_room : h_last h = 0 \/ h_last h < h_size h;
  wf_increment : 2 <= h_size_increment h < 2 ^ 32;
  wf_ordered : ordered (h_array h) (h_last h);
  wf_indexed : indexed h (h_array h) 0
}.

(** What no operation changes: an element that is not on the heap keeps its index. *)
Definition kept (h h' : isc_heap) : Prop :=
  h_size_increment h' = h_size_increment h /\ h_has_index h' = h_has_index h /\
  (forall x, x ∉ elements h' -> h_index h' !! x = h_index h !! x).

Lemma settled_kept h h' i elt : settled h h' i elt -> kept h h' /\ h_size h' = h_size h.
Proof. intros ((S1 & S2 & S3 & S4 & S5) & _ & _ & _ & Ho). by repeat split. Qed.

Lemma settled_wf h h' i elt : settled h h' i elt -> 1 <= h_last h < h_size h -> h_size h = Zlen (h_array h) -> h_size h < 2 ^ 32 ->
  2 <= h_size_increment h < 2 ^ 32 -> wf_heap h'.
Proof.
  intros ((S1 & S2 & S3 & S4 & S5) & Ho & _ & Hx & _) Hl Hs Hw Hi. constructor; rewrite ?S1, ?S2, ?S3, ?S5; try done; try lia.
  by rewrite S3 in Ho.
Qed.

Lemma elements_cell h x : 0 <= h_last h -> h_last h = 0 \/ h_last h < Zlen (h_array h) ->
  x ∈ elements h <-> exists j, 1 <= j <= h_last h /\ cell (h_array h) j = x.
Proof.
  intros H0 H1. unfold elements, sub. rewrite list_elem_of_lookup. split.
  - intros (k & [Hk Hlt]%lookup_take_Some). rewrite lookup_drop in Hk. pose proof (lookup_lt_Some _ _ _ Hk).
    exists (1 + Z.of_nat k). split; [lia|]. unfold cell. rewrite nth_lookup.
    replace (Z.to_nat (1 + Z.of_nat k)) with (Z.to_nat 1 + k)%nat by lia. by rewrite Hk.
  - intros (j & Hj & <-). exists (Z.to_nat (j - 1)). rewrite lookup_take_lt by lia. rewrite lookup_drop.
    rewrite <- cell_lookup by lia. f_equal. lia.
Qed.

Lemma sub_snoc_insert (a : list Z) n x : 0 <= n -> n + 1 < Zlen a ->
  sub (<[Z.to_nat (n + 1) := x]> a) 1 (n + 1) = sub a 1 n ++ [x].
Proof.
  intros Hn Hl. unfold sub. apply list_eq. intros k. destruct (decide (k < Z.to_nat n)%nat) as [Hk|Hk].
  - rewrite lookup_take_lt, lookup_drop by lia. rewrite list_lookup_insert_ne by lia.
    rewrite lookup_app_l by len. by rewrite lookup_take_lt, lookup_drop by lia.
  - rewrite lookup_app_r by len. rewrite length_take, length_drop, Nat.min_l by len.
    destruct (decide (k = Z.to_nat n)) as [->|Hne].
    + rewrite lookup_take_lt, lookup_drop, Nat.sub_diag by lia.
      replace (Z.to_nat 1 + Z.to_nat n)%nat with (Z.to_nat (n + 1)) by lia. by rewrite list_lookup_insert_eq by len.
    + rewrite lookup_take_ge by lia. destruct (k - Z.to_nat n)%nat as [|m] eqn:E; [lia|]. done.
Qed.

Lemma sub_snoc_cell (a : list Z) n : 1 <= n < Zlen a -> sub a 1 n = sub a 1 (n - 1) ++ [cell a n].
Proof.
  intros H. pose proof (sub_snoc_insert a (n - 1) (cell a n) ltac:(lia) ltac:(lia)) as E. replace (n - 1 + 1) with n in E by lia.
  by rewrite (list_insert_id a (Z.to_nat n) (cell a n)) in E by (apply cell_lookup; lia).
Qed.

Lemma resize_spec h a : wf_heap h -> h_size h + h_size_increment h < 2 ^ 32 -> Zlen a = h_size h + h_size_increment h ->
  exists h', resize h (Some a) = Done (true, h') /\ h_size h' = Zlen a /\ Zlen (h_array h') = Zlen a /\ h_last h' = h_last h /\
    h_size_increment h' = h_size_increment h /\ h_has_index h' = h_has_index h /\ h_index h' = h_index h /\
    (forall j, 0 <= j < h_size h -> cell (h_array h') j = cell (h_array h) j).
Proof.
  intros [W1 [W2 W3] W4 W5 W6 W7] Hs Ha. unfold resize. pose proof (Zlen_nonneg (h_array h)).
  assert (E : sub (h_array h) 0 (h_size h) = h_array h) by (unfold sub; rewrite W2; apply take_ge; unfold Zlen; rewrite Nat2Z.id; done).
  rewrite E, blit_ok by lia. cbn [obind]. eexists. split; [reflexivity|]. cbn [h_size h_array h_last h_size_increment h_has_index h_index].
  split_and!; try done.
  - rewrite u32_small by lia. lia.
  - len.
  - intros j Hj. unfold cell. rewrite !nth_lookup. change (take (Z.to_nat 0) a) with (@nil Z). cbn [app]. by rewrite lookup_app_l by len.
Qed.

(** The element that enters at [n + 1] floats up from there. *)
Lemma enter h n elt : h_last h = n + 1 -> 0 <= n -> n + 1 < Zlen (h_array h) -> ordered (h_array h) n ->
  (h_has_index h = true -> distinct (h_array h) n /\ (forall j, 1 <= j <= n -> h_index h !! cell (h_array h) j = Some j) /\
     elt ∉ sub (h_array h) 1 n) ->
  exists h', float_up compare h (n + 1) elt = Done h' /\ settled h h' (n + 1) elt.
Proof.
  intros Hl Hn Hr Ho Hx. apply float_up_spec; [lia|lia| |].
  - intros Hhas. destruct (Hx Hhas) as (Hd & Hi & He). rewrite Hl.
    assert (Hne : forall j, 1 <= j <= n -> cell (h_array h) j <> elt).
    { intros j Hj E. apply He. apply (elements_cell (set_last h n)); cbn; [lia|lia|]. by exists j. }
    split.
    + intros j k Hj Hk. rewrite !cell_filled by lia. destruct (j =? n + 1) eqn:E1, (k =? n + 1) eqn:E2; bool_prop; try lia; intros E.
      * exfalso. apply (Hne k); [lia|done].
      * exfalso. apply (Hne j); [lia|done].
      * apply Hd; [lia|lia|done].
    + intros j Hj Hjn. rewrite cell_filled by lia. rewrite (proj2 (Z.eqb_neq j (n + 1))) by done. apply Hi. lia.
  - rewrite Hl. split.
    + intros j Hj Hne. unfold above. rewrite !cell_filled by divlia.
      rewrite (proj2 (Z.eqb_neq j (n + 1))), (proj2 (Z.eqb_neq (j / 2) (n + 1))) by divlia. apply Ho. lia.
    + intros j Hj Hji. exfalso. divlia.
Qed.

Lemma insert_spec h elt mem : wf_heap h -> h_size h + h_size_increment h < 2 ^ 32 ->
  (h_has_index h = true -> elt ∉ elements h) ->
  (forall a, mem = Some a -> Zlen a = h_size h + h_size_increment h) ->
  exists r h', isc_heap_insert compare h elt mem = Done (r, h') /\ wf_heap h' /\
    ((r = ISC_R_SUCCESS /\ elements h' ≡ₚ elt :: elements h /\ h_last h' = h_last h + 1 /\ kept h h' /\
      h_size h' <= Z.max (h_size h) (h_last h + 1 + h_size_increment h)) \/
     (r = ISC_R_NOMEMORY /\ h' = h /\ mem = None /\ h_size h <= h_last h + 1)).
Proof.
  intros Hwf Hs Hfresh Hmem. pose proof Hwf as [W1 [W2 W3] W4 W5 W6 W7].
  unfold isc_heap_insert. pose proof (Zlen_nonneg (h_array h)).
  rewrite (u32_small (h_last h + 1)) by lia. rewrite require_true by lia. cbn [obind].
  assert (Hgo : forall h1, h_size h1 = Zlen (h_array h1) -> h_last h + 1 < h_size h1 -> h_size h1 < 2 ^ 32 ->
    h_size_increment h1 = h_size_increment h -> h_has_index h1 = h_has_index h -> h_index h1 = h_index h ->
    (forall j, 0 <= j <= h_last h -> 0 <= j < h_size h -> cell (h_array h1) j = cell (h_array h) j) ->
    exists r h', (let* h' := float_up compare (set_last h1 (h_last h + 1)) (h_last h + 1) elt in Done (ISC_R_SUCCESS, h')) = Done (r, h') /\
      wf_heap h' /\ r = ISC_R_SUCCESS /\ elements h' ≡ₚ elt :: elements h /\ h_last h' = h_last h + 1 /\
      kept h h' /\ h_size h' = h_size h1).
  { intros h1 H1 H2 H3 H4 H5 H6 H7.
    assert (Hsub : sub (h_array h1) 1 (h_last h) = elements h).
    { unfold elements, sub. apply list_eq. intros k. destruct (decide (k < Z.to_nat (h_last h))%nat); [|by rewrite !lookup_take_ge by lia].
      rewrite !lookup_take_lt, !lookup_drop by lia. specialize (H7 (1 + Z.of_nat k) ltac:(lia) ltac:(lia)).
      pose proof (cell_lookup (h_array h1) (1 + Z.of_nat k) ltac:(lia)) as Ea. pose proof (cell_lookup (h_array h) (1 + Z.of_nat k) ltac:(lia)) as Eb.
      replace (Z.to_nat (1 + Z.of_nat k)) with (Z.to_nat 1 + k)%nat in Ea, Eb by lia. congruence. }
    destruct (enter (set_last h1 (h_last h + 1)) (h_last h) elt) as (h' & -> & Hset); cbn [set_last h_last h_array h_has_index h_index] in *; try lia.
    { intros j Hj. unfold above. rewrite !H7 by divlia. by apply W6. }
    { rewrite H5, H6. intros Hhas. destruct (W7 Hhas) as [Hd Hi]. split_and!.
      - intros j k Hj Hk. rewrite !H7 by lia. by apply Hd.
      - intros j Hj. rewrite H7 by lia. apply Hi; lia.
      - rewrite Hsub. by apply Hfresh. }
    cbn [obind]. do 2 eexists. split; [reflexivity|]. pose proof (settled_kept _ _ _ _ Hset) as [(K1 & K2 & K3) K4].
    cbn [set_last h_size h_size_increment h_has_index h_index] in K1, K2, K3, K4.
    rewrite H4 in K1. rewrite H5 in K2. rewrite H6 in K3.
    split_and!; try done.
    - apply (settled_wf _ _ _ _ Hset); cbn; rewrite ?H4; lia.
    - destruct Hset as (_ & _ & -> & _). unfold filled. cbn [set_last h_array h_last]. rewrite sub_snoc_insert by lia.
      rewrite Hsub. symmetry. apply Permutation_cons_append.
    - by destruct Hset as ((_ & _ & -> & _) & _). }
  destruct (h_size h <=? h_last h + 1) eqn:E; bool_prop.
  - destruct mem as [a|].
    + destruct (resize_spec h a Hwf Hs (Hmem a eq_refl)) as (h1 & -> & R1 & R2 & R3 & R4 & R5 & R6 & R7). cbn [obind negb].
      pose proof (Hmem a eq_refl). destruct (Hgo h1) as (r & h' & E1 & Hw' & -> & He & Hl & Hk & Hz); try done; try lia; [by intros; apply R7|].
      exists ISC_R_SUCCESS, h'. split_and!; [done|done|left]. split_and!; try done. lia.
    + cbn. exists ISC_R_NOMEMORY, h. split_and!; [done|done|]. right. by split_and!.
  - cbn [obind negb]. destruct (Hgo h) as (r & h' & E1 & Hw' & -> & He & Hl & Hk & Hz); try done; try lia.
    exists ISC_R_SUCCESS, h'. split_and!; [done|done|left]. split_and!; try done. lia.
Qed.

Lemma insert_perm (s : list Z) k x y : s !! k = Some x -> x :: <[k := y]> s ≡ₚ y :: s.
Proof.
  intros Hk. pose proof (lookup_lt_Some _ _ _ Hk). rewrite (insert_take_drop s k y) by done.
  rewrite <- (take_drop_middle s k x Hk) at 3. rewrite <- !Permutation_middle. apply perm_swap.
Qed.

Lemma sub_insert (a : list Z) i n x : 1 <= i <= n -> sub (<[Z.to_nat i := x]> a) 1 n = <[Z.to_nat (i - 1) := x]> (sub a 1 n).
Proof.
  intros Hi. unfold sub. rewrite drop_insert_ge by lia. rewrite take_insert_lt by lia. do 2 f_equal. lia.
Qed.

Lemma sub_lookup (a : list Z) i n : 1 <= i <= n -> n < Zlen a -> sub a 1 n !! Z.to_nat (i - 1) = Some (cell a i).
Proof.
  intros Hi Hn. unfold sub. rewrite lookup_take_lt, lookup_drop by lia. rewrite <- cell_lookup by lia. f_equal. lia.
Qed.

(** The array of [h] without its last element, with the last element at [i]. *)
Lemma replace_perm (a : list Z) i n : 1 <= i -> i < n -> n < Zlen a ->
  cell a i :: sub (<[Z.to_nat i := cell a n]> (<[Z.to_nat n := 0]> a)) 1 (n - 1) ≡ₚ sub a 1 n.
Proof.
  intros Hi Hn Hl. rewrite sub_insert by lia. rewrite (sub_snoc_cell a n) by lia.
  assert (E : sub (<[Z.to_nat n := 0]> a) 1 (n - 1) = sub a 1 (n - 1)).
  { unfold sub. rewrite drop_insert_ge by lia. rewrite take_insert_ge; [done|lia]. }
  rewrite E, (insert_perm _ _ (cell a i)); [apply Permutation_cons_append|]. apply sub_lookup; lia.
Qed.

(** The order and the indices once the last element took the place [i]. *)
Lemma replace_cells h i : 1 <= i -> i < h_last h -> h_last h < Zlen (h_array h) ->
  forall j, 0 <= j < h_last h ->
  cell (<[Z.to_nat i := cell (h_array h) (h_last h)]> (<[Z.to_nat (h_last h) := 0]> (h_array h))) j =
    if j =? i then cell (h_array h) (h_last h) else cell (h_array h) j.
Proof.
  intros Hi Hn Hl j Hj. rewrite cell_insert by len. rewrite cell_insert by len.
  by rewrite (proj2 (Z.eqb_neq j (h_last h))) by lia.
Qed.

Section replaced.
Context (h : isc_heap) (i : Z) (b : list Z) (Hwf : wf_heap h) (Hi : 1 <= i) (Hn : i < h_last h).
Context (Hb : forall j, 0 <= j < h_last h -> cell b j = if j =? i then cell (h_array h) (h_last h) else cell (h_array h) j).

Lemma replaced_index : h_has_index h = true -> distinct b (h_last h - 1) /\
  forall j, 1 <= j <= h_last h - 1 -> j <> i -> h_index h !! cell b j = Some j.
Proof.
  intros Hhas. destruct Hwf as [W1 [W2 W3] W4 W5 W6 W7]. destruct (W7 Hhas) as [Hd Hx]. split.
  - intros j k Hj Hk. rewrite !Hb by lia. destruct (j =? i) eqn:E1, (k =? i) eqn:E2; bool_prop; intros E; apply Hd in E; lia.
  - intros j Hj Hne. rewrite Hb by lia. rewrite (proj2 (Z.eqb_neq j i)) by done. apply Hx; lia.
Qed.

Lemma replaced_other j : 2 <= j <= h_last h - 1 -> j <> i -> j / 2 <> i -> above b j.
Proof.
  intros Hj H1 H2. destruct Hwf as [_ _ _ _ W6 _]. unfold above. rewrite !Hb by divlia.
  rewrite (proj2 (Z.eqb_neq j i)), (proj2 (Z.eqb_neq (j / 2) i)) by done. apply W6. lia.
Qed.

Lemma replaced_grand : grand b (h_last h - 1) i.
Proof.
  intros j Hj Hji H2. destruct Hwf as [_ _ _ _ W6 _]. rewrite !Hb by divlia.
  rewrite (proj2 (Z.eqb_neq j i)), (proj2 (Z.eqb_neq (i / 2) i)) by divlia.
  apply (compare_negtrans _ (cell (h_array h) i)).
  - specialize (W6 j ltac:(lia)). unfold above in W6. by rewrite Hji in W6.
  - apply W6. lia.
Qed.

Lemma replaced_floating : compare (cell (h_array h) (h_last h)) (cell (h_array h) i) = true -> floating b (h_last h - 1) i.
Proof.
  intros Hlt. split; [|apply replaced_grand]. intros j Hj Hne. destruct (Z.eq_dec (j / 2) i) as [E|]; [|by apply replaced_other].
  pose proof (wf_ordered _ Hwf j ltac:(lia)) as Ho. unfold above in *. rewrite !Hb by divlia.
  rewrite E in *. rewrite Z.eqb_refl, (proj2 (Z.eqb_neq j i)) by done.
  apply (compare_negtrans _ (cell (h_array h) i)); [done|by apply compare_asym].
Qed.

Lemma replaced_sinking : compare (cell (h_array h) (h_last h)) (cell (h_array h) i) = false -> sinking b (h_last h - 1) i.
Proof.
  intros Hlt. split; [|apply replaced_grand]. intros j Hj Hne. destruct (Z.eq_dec j i) as [->|]; [|by apply replaced_other].
  pose proof (wf_ordered _ Hwf i ltac:(lia)) as Ho. unfold above in *. rewrite !Hb by divlia.
  rewrite Z.eqb_refl, (proj2 (Z.eqb_neq (i / 2) i)) by done. by apply (compare_negtrans _ (cell (h_array h) i)).
Qed.
End replaced.

(** Deletion does not read the indices, so that of the element that goes away need not
    be right. *)
Definition reindex (h : isc_heap) (idx : gmap Z Z) : isc_heap :=
  mkheap (h_size h) (h_size_increment h) (h_last h) (h_array h) (h_has_index h) idx.

Section deletion.
Context (h : isc_heap) (i : Z) (idx : gmap Z Z) (Hwf : wf_heap (reindex h idx)) (Hi : 1 <= i <= h_last h).
Context (Hidx : forall x, x <> cell (h_array h) i -> h_index h !! x = idx !! x).

Lemma delete_last_spec : i = h_last h ->
  exists h', isc_heap_delete compare h i = Done h' /\ wf_heap h' /\ h_last h' = h_last h - 1 /\
    cell (h_array h) i :: elements h' ≡ₚ elements h /\ kept h h' /\ h_size h' = h_size h.
Proof.
  intros E. pose proof Hwf as [W1 [W2 W3] W4 W5 W6 W7]. cbn [reindex h_last h_size h_array h_size_increment] in *.
  unfold isc_heap_delete. rewrite require_true by lia. cbn [obind]. rewrite (proj2 (Z.eqb_eq _ _) E).
  rewrite wr_ok by lia. cbn [obind]. eexists. split; [reflexivity|].
  assert (Hc : forall j, 0 <= j < h_last h -> cell (<[Z.to_nat (h_last h) := 0]> (h_array h)) j = cell (h_array h) j)
    by (intros j Hj; rewrite cell_insert by lia; by rewrite (proj2 (Z.eqb_neq j (h_last h))) by lia).
  split_and!; try done.
  - constructor; cbn [set_last set_array h_last h_size h_array h_size_increment]; try done; try lia; [split; [len|done]| |].
    + intros j Hj. unfold above. rewrite !Hc by divlia. apply W6. lia.
    + intros Hhas. destruct (W7 Hhas) as [Hd Hx]. cbn in Hd, Hx |- *. split.
      * intros j k Hj Hk. rewrite !Hc by lia. apply Hd; lia.
      * intros j Hj _. rewrite Hc by lia. rewrite Hidx; [apply Hx; lia|]. intros Ej. apply Hd in Ej; lia.
  - unfold elements. cbn [set_last set_array h_last h_array]. rewrite (sub_snoc_cell (h_array h) (h_last h)) by lia.
    rewrite E. unfold sub at 1. rewrite drop_insert_ge, take_insert_ge by lia. apply Permutation_cons_append.
Qed.

Lemma delete_inner_spec : i < h_last h ->
  exists h', isc_heap_delete compare h i = Done h' /\ wf_heap h' /\ h_last h' = h_last h - 1 /\
    cell (h_array h) i :: elements h' ≡ₚ elements h /\ kept h h' /\ h_size h' = h_size h.
Proof.
  intros E. pose proof Hwf as [W1 [W2 W3] W4 W5 W6 W7]. cbn [reindex h_last h_size h_array h_size_increment] in *.
  unfold isc_heap_delete. rewrite require_true by lia. cbn [obind]. rewrite (proj2 (Z.eqb_neq i (h_last h))) by lia.
  rewrite rd_cell by lia. cbn [obind]. rewrite wr_ok by lia. cbn [obind set_last set_array h_array].
  rewrite rd_cell by len. cbn [obind]. rewrite wr_ok by len. cbn [obind].
  rewrite (rd_wr_eq _ _ _ _ (wr_ok (<[Z.to_nat (h_last h) := 0]> (h_array h)) i (cell (h_array h) (h_last h)) ltac:(len))). cbn [obind].
  rewrite cell_insert, (proj2 (Z.eqb_neq i (h_last h))) by lia.
  pose proof (replace_cells h i ltac:(lia) ltac:(lia) ltac:(lia)) as Hb.
  set (b := <[Z.to_nat i := _]> _) in *. pose (h1 := mkheap (h_size h) (h_size_increment h) (h_last h - 1) b (h_has_index h) (h_index h)).
  assert (Hfill : filled h1 i (cell (h_array h) (h_last h)) = b) by (unfold filled, h1, b; cbn; apply list_insert_insert_eq).
  assert (Hlb : Zlen b = Zlen (h_array h)) by (unfold b; len).
  assert (Hx : indexed h1 b i).
  { intros Hhas. destruct (replaced_index (reindex h idx) i b Hwf Hb Hhas) as [Hd Hx]. split; [done|].
    intros j Hj Hne. cbn [h1 h_index h_last] in *. rewrite Hidx; [by apply Hx|]. rewrite Hb, (proj2 (Z.eqb_neq j i)) by lia.
    intros Ej. destruct (W7 Hhas) as [Hd' _]. apply Hd' in Ej; cbn; lia. }
  assert (Hgo : exists h', (if compare (cell (h_array h) (h_last h)) (cell (h_array h) i)
     then float_up compare h1 i (cell (h_array h) (h_last h)) else sink_down compare h1 i (cell (h_array h) (h_last h))) = Done h' /\
     settled h1 h' i (cell (h_array h) (h_last h))).
  { destruct (compare _ _) eqn:Ec.
    - apply float_up_spec; rewrite ?Hfill; cbn [h1 h_last h_array]; try lia; [exact Hx|].
      apply (replaced_floating (reindex h idx)); try done; cbn; lia.
    - apply sink_down_spec; rewrite ?Hfill; cbn [h1 h_last h_array]; try lia; [exact Hx|].
      apply (replaced_sinking (reindex h idx)); try done; cbn; lia. }
  destruct Hgo as (h' & Eg & Hset). exists h'. destruct (settled_kept _ _ _ _ Hset) as [Hk Hz]. split_and!; try done.
  - apply (settled_wf _ _ _ _ Hset); cbn; lia.
  - by destruct Hset as ((_ & _ & -> & _) & _).
  - destruct Hset as (_ & _ & -> & _). rewrite Hfill. cbn [h1 h_last]. apply replace_perm; lia.
Qed.

Lemma delete_reindexed_spec :
  exists h', isc_heap_delete compare h i = Done h' /\ wf_heap h' /\ h_last h' = h_last h - 1 /\
    cell (h_array h) i :: elements h' ≡ₚ elements h /\ kept h h' /\ h_size h' = h_size h.
Proof. destruct (Z.eq_dec i (h_last h)); [by apply delete_last_spec|apply delete_inner_spec; lia]. Qed.
End deletion.

Lemma delete_spec h i : wf_heap h -> 1 <= i <= h_last h ->
  exists h', isc_heap_delete compare h i = Done h' /\ wf_heap h' /\ h_last h' = h_last h - 1 /\
    cell (h_array h) i :: elements h' ≡ₚ elements h /\ kept h h' /\ h_size h' = h_size h.
Proof. intros Hwf Hi. apply (delete_reindexed_spec h i (h_index h)); by destruct h. Qed.

(** ** The first element *)

Lemma compare_irrefl x : compare x x = false.
Proof. destruct (compare x x) eqn:E; [|done]. by rewrite (compare_asym _ _ E) in E. Qed.

Lemma first_min a n : ordered a n -> forall j, 1 <= j <= n -> compare (cell a j) (cell a 1) = false.
Proof.
  intros Ho j. induction j as [j IH] using (well_founded_induction (Z.lt_wf 0)). intros Hj.
  destruct (Z.eq_dec j 1) as [->|]; [apply compare_irrefl|].
  apply (compare_negtrans _ (cell a (j / 2))); [apply Ho; lia|apply IH; divlia].
Qed.

(** [isc_heap_element(heap, 1)] then [isc_heap_delete(heap, 1)], [n] times: how
    the timer manager and the signer consume a heap. *)
Fixpoint drain (n : nat) (h : isc_heap) : outcome (list Z) :=
  match n with
  | O => Done []
  | S n =>
      let* x := isc_heap_element h 1 in
      let* h := isc_heap_delete compare h 1 in
      let* l := drain n h in
      Done (x :: l)
  end.

Lemma drain_spec n : forall h, wf_heap h -> h_last h = Z.of_nat n ->
  exists l, drain n h = Done l /\ l ≡ₚ elements h /\ StronglySorted (fun x y => compare y x = false) l.
Proof.
  induction n as [|n IH]; intros h Hwf Hl; cbn [drain].
  - exists []. split_and!; [done| |constructor]. unfold elements, sub. by rewrite Hl.
  - pose proof Hwf as [W1 [W2 W3] W4 W5 W6 W7].
    unfold isc_heap_element. rewrite require_true by lia. cbn [obind]. rewrite (proj2 (Z.leb_le 1 (h_last h))), rd_cell by lia. cbn [obind].
    destruct (delete_spec h 1 Hwf ltac:(lia)) as (h' & -> & Hwf' & Hl' & Hp & _). cbn [obind].
    destruct (IH h' Hwf' ltac:(lia)) as (l & -> & Hperm & Hs). cbn [obind].
    eexists. split; [reflexivity|]. split; [by rewrite Hperm|]. constructor; [done|].
    apply Forall_forall. intros y Hy. rewrite Hperm in Hy.
    assert (Hin : y ∈ elements h) by (rewrite <- Hp; by right).
    apply elements_cell in Hin as (j & Hj & <-); [|lia|lia]. by apply (first_min _ (h_last h)).
Qed.
End theory.

(** ** A change of priority *)

Section priority.
Context (compare compare' : Z -> Z -> bool) `{!StrictWeak compare} `{!StrictWeak compare'}.

(** Only the priority of [e] changed. *)
Definition only (e : Z) : Prop := forall x y, x <> e -> y <> e -> compare' x y = compare x y.

Context (h : isc_heap) (i : Z) (Hwf : wf_heap compare h) (Hi : 1 <= i <= h_last h)
  (Hd : distinct (h_array h) (h_last h)) (Honly : only (cell (h_array h) i)).

Lemma others_kept j k : 1 <= j <= h_last h -> 1 <= k <= h_last h -> j <> i -> k <> i ->
  compare (cell (h_array h) j) (cell (h_array h) k) = false -> compare' (cell (h_array h) j) (cell (h_array h) k) = false.
Proof. intros Hj Hk H1 H2 E. rewrite Honly; [done| |]; intros E'; apply Hd in E'; lia. Qed.

Lemma changed_grand : grand compare' (h_array h) (h_last h) i.
Proof.
  intros j Hj Hji H2. apply others_kept; try divlia. pose proof (wf_ordered _ _ Hwf) as Ho.
  apply (compare_negtrans _ (cell (h_array h) i)).
  - specialize (Ho j Hj). unfold above in Ho. by rewrite Hji in Ho.
  - apply Ho. lia.
Qed.

Lemma changed_other j : 2 <= j <= h_last h -> j <> i -> j / 2 <> i -> above compare' (h_array h) j.
Proof. intros Hj H1 H2. apply others_kept; try divlia. by apply (wf_ordered _ _ Hwf). Qed.

Lemma filled_same : filled h i (cell (h_array h) i) = h_array h.
Proof. destruct Hwf as [W1 [W2 W3] W4 W5 W6 W7]. apply list_insert_id, cell_lookup. lia. Qed.

Lemma indexed_same : indexed h (h_array h) i.
Proof. intros Hhas. destruct (wf_indexed _ _ Hwf Hhas) as [H1 H2]. split; [done|]. intros j Hj _. apply H2; lia. Qed.

Lemma settled_same h' : settled compare' h h' i (cell (h_array h) i) ->
  wf_heap compare' h' /\ elements h' ≡ₚ elements h /\ h_last h' = h_last h /\ kept h h' /\ h_size h' = h_size h.
Proof.
  intros Hs. destruct Hwf as [W1 [W2 W3] W4 W5 W6 W7]. destruct (settled_kept _ _ _ _ _ Hs) as [Hk Hz]. split_and!; try done.
  - apply (settled_wf _ _ _ _ _ Hs); lia.
  - destruct Hs as (_ & _ & -> & _). by rewrite filled_same.
  - by destruct Hs as ((_ & _ & -> & _) & _).
Qed.

Lemma increased_spec : (forall y, compare y (cell (h_array h) i) = false -> compare' y (cell (h_array h) i) = false) ->
  exists h', isc_heap_increased compare' h i = Done h' /\ wf_heap compare' h' /\ elements h' ≡ₚ elements h /\
    h_last h' = h_last h /\ kept h h' /\ h_size h' = h_size h.
Proof.
  intros Hup. pose proof Hwf as [W1 [W2 W3] W4 W5 W6 W7]. unfold isc_heap_increased. rewrite require_true by lia. cbn [obind].
  rewrite rd_cell by lia. cbn [obind].
  destruct (float_up_spec compare' h i (cell (h_array h) i)) as (h' & E & Hs); rewrite ?filled_same; try lia.
  - apply indexed_same.
  - split; [|apply changed_grand]. intros j Hj Hne. destruct (Z.eq_dec (j / 2) i) as [Ej|]; [|by apply changed_other].
    unfold above. rewrite Ej. apply Hup. specialize (W6 j Hj). unfold above in W6. by rewrite Ej in W6.
  - exists h'. split; [done|]. by apply settled_same.
Qed.

Lemma decreased_spec : (forall y, compare (cell (h_array h) i) y = false -> compare' (cell (h_array h) i) y = false) ->
  exists h', isc_heap_decreased compare' h i = Done h' /\ wf_heap compare' h' /\ elements h' ≡ₚ elements h /\
    h_last h' = h_last h /\ kept h h' /\ h_size h' = h_size h.
Proof.
  intros Hdown. pose proof Hwf as [W1 [W2 W3] W4 W5 W6 W7]. unfold isc_heap_decreased. rewrite require_true by lia. cbn [obind].
  rewrite rd_cell by lia. cbn [obind].
  destruct (sink_down_spec compare' h i (cell (h_array h) i)) as (h' & E & Hs); rewrite ?filled_same; try lia.
  - apply indexed_same.
  - split; [|apply changed_grand]. intros j Hj Hne. destruct (Z.eq_dec j i) as [->|]; [|by apply changed_other].
    apply Hdown, W6. lia.
  - exists h'. split; [done|]. by apply settled_same.
Qed.
End priority.

(** ** Properties *)

(** Insertion: on a well-formed heap with a consistent comparison
    [isc_heap_insert] always returns; it either reports ISC_R_NOMEMORY, only
    when the array was full and no memory was given, and leaves the heap as it
    was, or adds exactly the element, keeps the heap condition and leaves every
    element with its index stored. *)
Theorem heap_insert_correct (compare : Z -> Z -> bool) (h : isc_heap) (elt : Z) (mem : option (list Z)) :
  StrictWeak compare -> wf_heap compare h -> h_size h + h_size_increment h < 2 ^ 32 ->
  (h_has_index h = true -> elt ∉ elements h) ->
  (forall a, mem = Some a -> Zlen a = h_size h + h_size_increment h) ->
  exists r h', isc_heap_insert compare h elt mem = Done (r, h') /\ wf_heap compare h' /\
    ((r = ISC_R_SUCCESS /\ elements h' ≡ₚ elt :: elements h) \/
     (r = ISC_R_NOMEMORY /\ h' = h /\ mem = None /\ h_size h <= h_last h + 1)).
Proof.
  intros Hc Hwf Hs Hf Hm. destruct (insert_spec compare h elt mem Hwf Hs Hf Hm) as (r & h' & E & W & Hr).
  exists r, h'. split_and!; [done|done|]. naive_solver.
Qed.

(** Deletion at any index of the heap removes exactly the element there:
    no assertion fires, the heap condition and the stored indices hold again. *)
Theorem heap_delete_correct (compare : Z -> Z -> bool) (h : isc_heap) (i : Z) :
  StrictWeak compare -> wf_heap compare h -> 1 <= i <= h_last h ->
  exists h', isc_heap_delete compare h i = Done h' /\ wf_heap compare h' /\ h_last h' = h_last h - 1 /\
    cell (h_array h) i :: elements h' ≡ₚ elements h.
Proof.
  intros Hc Hwf Hi. destruct (delete_spec compare h i Hwf Hi) as (h' & E & W & Hl & Hp & _). by exists h'.
Qed.

(** A priority queue: taking the first element and deleting it until the
    heap is empty yields all the elements, each once, in order of priority. *)
Theorem heap_drains_in_order (compare : Z -> Z -> bool) (h : isc_heap) :
  StrictWeak compare -> wf_heap compare h ->
  exists l, drain compare (Z.to_nat (h_last h)) h = Done l /\ l ≡ₚ elements h /\
    StronglySorted (fun x y => compare y x = false) l.
Proof. intros Hc Hwf. apply (drain_spec compare); [done|]. pose proof (wf_last _ _ Hwf). lia. Qed.

(** A changed priority: when only the element at [i] changed its place in
    the order, [isc_heap_increased] after a change towards the front and
    [isc_heap_decreased] after a change towards the back make the heap well
    formed for the new order, with the same elements. *)
Theorem heap_priority_change (compare compare' : Z -> Z -> bool) (h : isc_heap) (i : Z) :
  StrictWeak compare -> StrictWeak compare' -> wf_heap compare h -> 1 <= i <= h_last h ->
  distinct (h_array h) (h_last h) -> only compare compare' (cell (h_array h) i) ->
  ((forall y, compare y (cell (h_array h) i) = false -> compare' y (cell (h_array h) i) = false) ->
   exists h', isc_heap_increased compare' h i = Done h' /\ wf_heap compare' h' /\ elements h' ≡ₚ elements h) /\
  ((forall y, compare (cell (h_array h) i) y = false -> compare' (cell (h_array h) i) y = false) ->
   exists h', isc_heap_decreased compare' h i = Done h' /\ wf_heap compare' h' /\ elements h' ≡ₚ elements h).
Proof.
  intros Hc Hc' Hwf Hi Hd Ho. split; intros Hx.
  - destruct (increased_spec compare compare' h i Hwf Hi Hd Ho Hx) as (h' & E & W & Hp & _). by exists h'.
  - destruct (decreased_spec compare compare' h i Hwf Hi Hd Ho Hx) as (h' & E & W & Hp & _). by exists h'.
Qed.

(** A heap created with a size increment of 1 has no room for its first
    element: the first insertion, given all the memory it asks for, writes
    behind the array. *)
Theorem insert_increment_one (compare : Z -> Z -> bool) (has_index : bool) (idx : gmap Z Z) (elt x : Z) :
  isc_heap_insert compare (isc_heap_create has_index idx 1) elt (Some [x]) = Undef.
Proof. reflexivity. Qed.

(** *** Witnesses *)

#[export] Instance ltb_StrictWeak : StrictWeak Z.ltb.
Proof. split; intros; lia. Qed.

(** A heap of three elements with stored indices. *)
Definition sample_heap : isc_heap :=
  mkheap 4 2 3 [0; 1; 5; 3] true (<[1 := 1]> (<[5 := 2]> (<[3 := 3]> ∅))).

Lemma sample_distinct : distinct (h_array sample_heap) 3.
Proof.
  intros j k Hj Hk. assert (j = 1 \/ j = 2 \/ j = 3) as [->|[->| ->]] by lia;
    assert (k = 1 \/ k = 2 \/ k = 3) as [->|[->| ->]] by lia; vm_compute; congruence.
Qed.

Lemma sample_wf : wf_heap Z.ltb sample_heap.
Proof.
  constructor; try (vm_compute; split; congruence); try (vm_compute; congruence).
  - by right.
  - intros j Hj. cbn [sample_heap h_last] in Hj. assert (j = 2 \/ j = 3) as [->| ->] by lia; done.
  - intros _. split; [apply sample_distinct|]. intros j Hj _. cbn [sample_heap h_last] in Hj. assert (j = 1 \/ j = 2 \/ j = 3) as [->|[->| ->]] by lia; done.
Qed.

Lemma heap_insert_correct_witness :
  exists r h', isc_heap_insert Z.ltb sample_heap 2 (Some (replicate 6 0)) = Done (r, h') /\ wf_heap Z.ltb h' /\
    ((r = ISC_R_SUCCESS /\ elements h' ≡ₚ 2 :: elements sample_heap) \/
     (r = ISC_R_NOMEMORY /\ h' = sample_heap /\ Some (replicate 6 0) = None /\ 4 <= 4)).
Proof.
  apply (heap_insert_correct Z.ltb sample_heap 2 (Some (replicate 6 0))).
  - apply ltb_StrictWeak.
  - apply sample_wf.
  - reflexivity.
  - intros _ H. apply list_elem_of_In in H. vm_compute in H. intuition congruence.
  - intros a [= <-]. reflexivity.
Defined.

Lemma heap_delete_correct_witness :
  exists h', isc_heap_delete Z.ltb sample_heap 1 = Done h' /\ wf_heap Z.ltb h' /\ h_last h' = 2 /\
    1 :: elements h' ≡ₚ elements sample_heap.
Proof.
  apply (heap_delete_correct Z.ltb sample_heap 1); [apply ltb_StrictWeak|apply sample_wf|cbn; lia].
Defined.

Lemma heap_drains_in_order_witness :
  exists l, drain Z.ltb 3 sample_heap = Done l /\ l ≡ₚ elements sample_heap /\
    StronglySorted (fun x y => (y <? x) = false) l.
Proof. apply (heap_drains_in_order Z.ltb sample_heap); [apply ltb_StrictWeak|apply sample_wf]. Defined.

(** Element 5 now comes first, or last. *)
Definition before5 (x y : Z) : bool := (if x =? 5 then 0 else x) <? (if y =? 5 then 0 else y).

#[export] Instance before5_StrictWeak : StrictWeak before5.
Proof. unfold before5. split; intros x y; try intros z; repeat case_if; lia. Qed.

Lemma before5_only : only Z.ltb before5 5.
Proof. intros x y Hx Hy. unfold before5. by rewrite (proj2 (Z.eqb_neq x 5)), (proj2 (Z.eqb_neq y 5)). Qed.

Lemma before5_first y : (y <? 5) = false -> before5 y 5 = false.
Proof. unfold before5. change (5 =? 5) with true. cbn iota. case_if; lia. Qed.

Lemma heap_priority_change_witness :
  exists h', isc_heap_increased before5 (mkheap 4 2 3 [0; 1; 5; 3] false ∅) 2 = Done h' /\ wf_heap before5 h' /\
    elements h' ≡ₚ elements (mkheap 4 2 3 [0; 1; 5; 3] false ∅).
Proof.
  assert (Hd : distinct [0; 1; 5; 3] 3) by apply sample_distinct.
  assert (Hw : wf_heap Z.ltb (mkheap 4 2 3 [0; 1; 5; 3] false ∅)).
  { destruct sample_wf as [W1 W2 W3 W4 W5 W6]. constructor; try done. }
  apply (proj1 (heap_priority_change Z.ltb before5 (mkheap 4 2 3 [0; 1; 5; 3] false ∅) 2 ltb_StrictWeak before5_StrictWeak Hw
    ltac:(cbn; lia) Hd before5_only)).
  exact before5_first.
Defined.
