(* ===== verification/Time.v ===== *)
(** * Points in time and intervals: [lib/isc/unix/time.c]

    A time is a number of seconds, an [unsigned int], and of nanoseconds below
    [NS_PER_S].  What [gettimeofday] answers is an argument: [None] for -1, or the two
    fields of a [struct timeval]; [long] and [time_t] have 64 bits, and the seconds of
    the clock stay within them. *)

From S2P Require Import Prelude.

Definition NS_PER_S : Z := 1000000000.
Definition NS_PER_US : Z := 1000.
Definition US_PER_S : Z := 1000000.
Definition INT_MAX : Z := 2 ^ 31 - 1.
Definition UINT_MAX : Z := 2 ^ 32 - 1.

Record isc_interval_t : Type := mkInterval { i_seconds : Z; i_nanoseconds : Z }.
Record isc_time_t : Type := mkTime { seconds : Z; nanoseconds : Z }.

#[export] Instance isc_interval_eq_dec : EqDecision isc_interval_t.
Proof. solve_decision. Defined.
#[export] Instance isc_time_eq_dec : EqDecision isc_time_t.
Proof. solve_decision. Defined.

(** ** Intervals *)

Definition isc_interval_zero : isc_interval_t := mkInterval 0 0.

Definition isc_interval_set (s n : Z) : outcome isc_interval_t :=
  REQUIRE n <? NS_PER_S ;; Done (mkInterval s n).

Definition isc_interval_iszero (i : isc_interval_t) : outcome bool :=
  REQUIRE i_nanoseconds i <? NS_PER_S ;;
  Done ((i_seconds i =? 0) && (i_nanoseconds i =? 0)).

(** ** Times *)

Definition isc_time_epoch : isc_time_t := mkTime 0 0.

Definition isc_time_set (s n : Z) : outcome isc_time_t :=
  REQUIRE n <? NS_PER_S ;; Done (mkTime s n).

Definition isc_time_settoepoch : isc_time_t := mkTime 0 0.

Definition isc_time_isepoch (t : isc_time_t) : outcome bool :=
  REQUIRE nanoseconds t <? NS_PER_S ;;
  Done ((seconds t =? 0) && (nanoseconds t =? 0)).

(** The two loops of [fix_tv_usec] *)
Definition fix_below (tv : Z * Z) : outcome ((Z * Z) + (Z * Z)) :=
  let '(tv_sec, tv_usec) := tv in
  let tv := (tv_sec - 1, tv_usec + US_PER_S) in
  Done (if snd tv <? 0 then inl tv else inr tv).

Definition fix_above (tv : Z * Z) : outcome ((Z * Z) + (Z * Z)) :=
  let '(tv_sec, tv_usec) := tv in
  let tv := (tv_sec + 1, tv_usec - US_PER_S) in
  Done (if US_PER_S <=? snd tv then inl tv else inr tv).

(** Each round takes [US_PER_S] off the distance to the range. *)
Definition fix_tv_usec (tv : Z * Z) : outcome (Z * Z) :=
  let fuel := S (Z.to_nat (Z.abs (snd tv))) in
  if snd tv <? 0 then loop fuel fix_below tv
  else if US_PER_S <=? snd tv then loop fuel fix_above tv
  else Done tv.

(** [*t] is [t0] before the call. *)
Definition isc_time_now (clock : option (Z * Z)) (t0 : isc_time_t) : outcome (isc_result_t * isc_time_t) :=
  match clock with
  | None => Done (ISC_R_UNEXPECTED, t0)
  | Some tv =>
      let* (tv_sec, tv_usec) := fix_tv_usec tv in
      if tv_sec <? 0 then Done (ISC_R_UNEXPECTED, t0)
      else if negb (Z.lxor (Z.lor tv_sec UINT_MAX) UINT_MAX =? 0) then Done (ISC_R_RANGE, t0)
      else Done (ISC_R_SUCCESS, mkTime (u32 tv_sec) (u32 (tv_usec * NS_PER_US)))
  end.

(** The sum that [isc_time_nowplusinterval] and [isc_time_add] share *)
Definition time_sum (s n s' n' : Z) (t0 : isc_time_t) : isc_result_t * isc_time_t :=
  if ((INT_MAX <? s) || (INT_MAX <? s')) && (UINT_MAX <? s + s') then (ISC_R_RANGE, t0)
  else
    let t := mkTime (u32 (s + s')) (u32 (n + n')) in
    (ISC_R_SUCCESS,
     if NS_PER_S <=? nanoseconds t then mkTime (u32 (seconds t + 1)) (nanoseconds t - NS_PER_S) else t).

Definition isc_time_nowplusinterval (clock : option (Z * Z)) (i : isc_interval_t) (t0 : isc_time_t)
    : outcome (isc_result_t * isc_time_t) :=
  REQUIRE i_nanoseconds i <? NS_PER_S ;;
  match clock with
  | None => Done (ISC_R_UNEXPECTED, t0)
  | Some tv =>
      let* (tv_sec, tv_usec) := fix_tv_usec tv in
      if tv_sec <? 0 then Done (ISC_R_UNEXPECTED, t0)
      else Done (time_sum tv_sec (tv_usec * NS_PER_US) (i_seconds i) (i_nanoseconds i) t0)
  end.

(** The four tests of [isc_time_compare] *)
Definition time_order (t1 t2 : isc_time_t) : Z :=
  if seconds t1 <? seconds t2 then -1
  else if seconds t2 <? seconds t1 then 1
  else if nanoseconds t1 <? nanoseconds t2 then -1
  else if nanoseconds t2 <? nanoseconds t1 then 1
  else 0.

Definition isc_time_compare (t1 t2 : isc_time_t) : outcome Z :=
  REQUIRE (nanoseconds t1 <? NS_PER_S) && (nanoseconds t2 <? NS_PER_S) ;;
  Done (time_order t1 t2).

Definition isc_time_add (t : isc_time_t) (i : isc_interval_t) (t0 : isc_time_t)
    : outcome (isc_result_t * isc_time_t) :=
  REQUIRE (nanoseconds t <? NS_PER_S) && (i_nanoseconds i <? NS_PER_S) ;;
  Done (time_sum (seconds t) (nanoseconds t) (i_seconds i) (i_nanoseconds i) t0).

Definition isc_time_subtract (t : isc_time_t) (i : isc_interval_t) (t0 : isc_time_t)
    : outcome (isc_result_t * isc_time_t) :=
  REQUIRE (nanoseconds t <? NS_PER_S) && (i_nanoseconds i <? NS_PER_S) ;;
  if (seconds t <? i_seconds i) || ((seconds t =? i_seconds i) && (nanoseconds t <? i_nanoseconds i))
  then Done (ISC_R_RANGE, t0)
  else if i_nanoseconds i <=? nanoseconds t
  then Done (ISC_R_SUCCESS, mkTime (u32 (seconds t - i_seconds i)) (nanoseconds t - i_nanoseconds i))
  else Done (ISC_R_SUCCESS,
             mkTime (u32 (u32 (seconds t - i_seconds i) - 1))
                    (u32 (NS_PER_S - i_nanoseconds i + nanoseconds t))).

Definition isc_time_microdiff (t1 t2 : isc_time_t) : outcome Z :=
  REQUIRE (nanoseconds t1 <? NS_PER_S) && (nanoseconds t2 <? NS_PER_S) ;;
  let i1 := (seconds t1 * NS_PER_S + nanoseconds t1) mod 2 ^ 64 in
  let i2 := (seconds t2 * NS_PER_S + nanoseconds t2) mod 2 ^ 64 in
  if i1 <=? i2 then Done 0 else Done ((i1 - i2) / NS_PER_US).

Definition isc_time_seconds (t : isc_time_t) : outcome Z :=
  REQUIRE nanoseconds t <? NS_PER_S ;; Done (seconds t).

(** With a [time_t] of 64 bits the conversion keeps the value. *)
Definition isc_time_secondsastimet (t : isc_time_t) : outcome (isc_result_t * Z) :=
  REQUIRE nanoseconds t <? NS_PER_S ;;
  let s := seconds t in
  if (INT_MAX <? seconds t) && (s <=? INT_MAX) then Done (ISC_R_RANGE, 0) else Done (ISC_R_SUCCESS, s).

Definition isc_time_nanoseconds (t : isc_time_t) : outcome Z :=
  REQUIRE nanoseconds t <? NS_PER_S ;; Done (nanoseconds t).

(** [TIME_NOW]: the clock must answer. *)
Definition TIME_NOW (clock : option (Z * Z)) : outcome isc_time_t :=
  let* (r, t) := isc_time_now clock isc_time_epoch in
  REQUIRE bool_decide (r = ISC_R_SUCCESS) ;;
  Done t.

(** ** Nanoseconds since the epoch *)

Definition ns (t : isc_time_t) : Z := seconds t * NS_PER_S + nanoseconds t.
Definition ins (i : isc_interval_t) : Z := i_seconds i * NS_PER_S + i_nanoseconds i.

Definition time_okb (t : isc_time_t) : bool :=
  (0 <=? seconds t) && (seconds t <=? UINT_MAX) && (0 <=? nanoseconds t) && (nanoseconds t <? NS_PER_S).
Definition interval_okb (i : isc_interval_t) : bool :=
  (0 <=? i_seconds i) && (i_seconds i <=? UINT_MAX) && (0 <=? i_nanoseconds i) && (i_nanoseconds i <? NS_PER_S).

(** The clock gives a time that fits. *)
Definition clock_ok (clock : option (Z * Z)) : bool :=
  match clock with
  | Some (s, u) => let s := s + u / US_PER_S in (0 <=? s) && (s <=? UINT_MAX)
  | None => false
  end.

Ltac time_lia :=
  unfold time_okb, interval_okb, ns, ins, UINT_MAX, INT_MAX, NS_PER_S, NS_PER_US, US_PER_S in *;
  cbn [seconds nanoseconds i_seconds i_nanoseconds] in *; bool_prop; lia.

Lemma ns_inj t1 t2 : time_okb t1 = true -> time_okb t2 = true -> ns t1 = ns t2 -> t1 = t2.
Proof. destruct t1, t2. intros H1 H2 E. f_equal; time_lia. Qed.

Lemma time_order_spec t1 t2 : time_okb t1 = true -> time_okb t2 = true ->
  time_order t1 t2 = Z.sgn (ns t1 - ns t2).
Proof.
  intros H1 H2. unfold time_order. repeat case_if; symmetry.
  - apply Z.sgn_neg. time_lia.
  - apply Z.sgn_pos. time_lia.
  - apply Z.sgn_neg. time_lia.
  - apply Z.sgn_pos. time_lia.
  - apply Z.sgn_null. time_lia.
Qed.

Lemma compare_Done t1 t2 : time_okb t1 = true -> time_okb t2 = true ->
  isc_time_compare t1 t2 = Done (Z.sgn (ns t1 - ns t2)).
Proof.
  intros H1 H2. unfold isc_time_compare. rewrite require_true by time_lia. cbn [obind].
  by rewrite time_order_spec.
Qed.

Lemma isepoch_Done t : time_okb t = true -> isc_time_isepoch t = Done (ns t =? 0).
Proof.
  intros H. unfold isc_time_isepoch. rewrite require_true by time_lia. cbn [obind]. f_equal.
  apply eq_true_iff_eq. rewrite andb_true_iff, !Z.eqb_eq. time_lia.
Qed.

Lemma iszero_Done i : interval_okb i = true -> isc_interval_iszero i = Done (ins i =? 0).
Proof.
  intros H. unfold isc_interval_iszero. rewrite require_true by time_lia. cbn [obind]. f_equal.
  apply eq_true_iff_eq. rewrite andb_true_iff, !Z.eqb_eq. time_lia.
Qed.

(** The correction of the microseconds is a division with remainder. *)
Lemma fix_tv_usec_spec s u : fix_tv_usec (s, u) = Done (s + u / US_PER_S, u mod US_PER_S).
Proof.
  unfold fix_tv_usec. cbn [snd].
  assert (forall s' u', s' + u' / US_PER_S = s + u / US_PER_S -> u' mod US_PER_S = u mod US_PER_S ->
    0 <= u' < US_PER_S -> (s', u') = (s + u / US_PER_S, u mod US_PER_S)) as Hend.
  { intros s' u' H1 H2 H3. rewrite Z.div_small, Z.mod_small in * by done. f_equal; lia. }
  assert (forall a, (a + US_PER_S) / US_PER_S = a / US_PER_S + 1 /\ (a + US_PER_S) mod US_PER_S = a mod US_PER_S) as Hadd.
  { intros a. unfold US_PER_S. split; divlia. }
  destruct (u <? 0) eqn:E1; bool_prop; [|destruct (US_PER_S <=? u) eqn:E2; bool_prop].
  - destruct (loop_rule fix_below
      (fun tv => fst tv + snd tv / US_PER_S = s + u / US_PER_S /\ snd tv mod US_PER_S = u mod US_PER_S /\ snd tv < 0)
      (fun tv => - snd tv) (fun tv => tv = (s + u / US_PER_S, u mod US_PER_S)))
      with (fuel := S (Z.to_nat (Z.abs u))) (s := (s, u)) as (r & -> & ->); cbn [fst snd]; try done; try lia.
    intros [s' u'] (H1 & H2 & H3). cbn [fst snd] in *. unfold fix_below. cbn [snd].
    destruct (Hadd u') as [D1 D2]. destruct (u' + US_PER_S <? 0) eqn:E; bool_prop.
    + cbn [fst snd]. unfold US_PER_S in *. split_and!; lia.
    + apply Hend; [lia|lia|]. unfold US_PER_S in *. lia.
  - destruct (loop_rule fix_above
      (fun tv => fst tv + snd tv / US_PER_S = s + u / US_PER_S /\ snd tv mod US_PER_S = u mod US_PER_S /\ US_PER_S <= snd tv)
      snd (fun tv => tv = (s + u / US_PER_S, u mod US_PER_S)))
      with (fuel := S (Z.to_nat (Z.abs u))) (s := (s, u)) as (r & -> & ->); cbn [fst snd]; try done; try lia.
    intros [s' u'] (H1 & H2 & H3). cbn [fst snd] in *. unfold fix_above. cbn [snd].
    destruct (Hadd (u' - US_PER_S)) as [D1 D2]. replace (u' - US_PER_S + US_PER_S) with u' in D1, D2 by lia.
    destruct (US_PER_S <=? u' - US_PER_S) eqn:E; bool_prop.
    + cbn [fst snd]. unfold US_PER_S in *. split_and!; lia.
    + apply Hend; [lia|lia|]. unfold US_PER_S in *. lia.
  - f_equal. by apply Hend.
Qed.

Lemma high_bits s : 0 <= s -> (Z.lxor (Z.lor s UINT_MAX) UINT_MAX =? 0) = (s <=? UINT_MAX).
Proof.
  intros Hs. apply eq_true_iff_eq. rewrite Z.eqb_eq, Z.leb_le, Z.lxor_eq_0_iff.
  change UINT_MAX with (Z.ones 32). split; intros H.
  - assert (s = Z.land s (Z.ones 32)) as ->; [|rewrite Z.land_ones by lia].
    + apply Z.bits_inj'. intros n Hn. rewrite Z.land_spec, <- H, Z.lor_spec. by destruct (Z.testbit s n).
    + change (Z.ones 32) with (2 ^ 32 - 1). pose proof (Z.mod_pos_bound s (2 ^ 32) eq_refl). lia.
  - replace s with (s mod 2 ^ 32) by (apply Z.mod_small; change (Z.ones 32) with (2 ^ 32 - 1) in H; lia).
    rewrite <- Z.land_ones by lia. apply Z.bits_inj'. intros n Hn. rewrite Z.lor_spec, Z.land_spec.
    by destruct (Z.testbit s n), (Z.testbit (Z.ones 32) n).
Qed.

(** Reading the clock *)
Lemma time_now_spec s u t0 :
  exists r t, isc_time_now (Some (s, u)) t0 = Done (r, t) /\
    (if clock_ok (Some (s, u)) then r = ISC_R_SUCCESS /\ time_okb t = true /\ ns t = (s * US_PER_S + u) * NS_PER_US
     else r <> ISC_R_SUCCESS /\ t = t0).
Proof.
  unfold isc_time_now. rewrite fix_tv_usec_spec. cbn [obind clock_ok].
  set (q := s + u / US_PER_S). destruct (q <? 0) eqn:E1; bool_prop.
  - do 2 eexists. split; [reflexivity|]. rewrite (proj2 (Z.leb_gt 0 q)) by lia. done.
  - rewrite high_bits, (proj2 (Z.leb_le 0 q)) by done. cbn [andb]. destruct (q <=? UINT_MAX) eqn:E2; cbn [negb].
    + do 2 eexists. split; [reflexivity|]. bool_prop. pose proof (Z.mod_pos_bound u US_PER_S eq_refl) as Hm.
      pose proof (Z.div_mod u US_PER_S ltac:(done)) as Hd. subst q. unfold UINT_MAX in E2.
      rewrite (u32_small (s + _)) by lia. rewrite u32_small by time_lia. split_and!; [done| |].
      * unfold time_okb. cbn. rewrite !andb_true_iff. time_lia.
      * unfold ns. cbn [seconds nanoseconds]. time_lia.
    + by do 2 eexists.
Qed.

Lemma TIME_NOW_Done clock : clock_ok clock = true ->
  exists t, TIME_NOW clock = Done t /\ time_okb t = true.
Proof.
  destruct clock as [[s u]|]; [|done]. intros Hc. unfold TIME_NOW.
  destruct (time_now_spec s u isc_time_epoch) as (r & t & -> & Hr). rewrite Hc in Hr. destruct Hr as (-> & Ht & _).
  exists t. cbn [obind]. by rewrite bool_decide_eq_true_2.
Qed.

(** Seconds that add up to exactly [UINT_MAX] leave no room for a carry. *)
Definition carries (t : isc_time_t) (i : isc_interval_t) : bool :=
  (seconds t + i_seconds i =? UINT_MAX) && (NS_PER_S <=? nanoseconds t + i_nanoseconds i).

Lemma add_spec t i t0 : time_okb t = true -> interval_okb i = true ->
  exists r t', isc_time_add t i t0 = Done (r, t') /\
    (if UINT_MAX <? seconds t + i_seconds i then r = ISC_R_RANGE /\ t' = t0
     else r = ISC_R_SUCCESS /\ time_okb t' = true /\
          ns t' = ns t + ins i - (if carries t i then 2 ^ 32 * NS_PER_S else 0)).
Proof.
  intros Ht Hi. unfold isc_time_add. rewrite require_true by time_lia. cbn [obind]. unfold time_sum.
  assert (UINT_MAX < seconds t + i_seconds i -> ((INT_MAX <? seconds t) || (INT_MAX <? i_seconds i)) = true) as Hbig.
  { intros H. apply orb_true_iff. rewrite !Z.ltb_lt. time_lia. }
  destruct (UINT_MAX <? seconds t + i_seconds i) eqn:E.
  { rewrite Hbig by (by apply Z.ltb_lt). cbn [andb]. by do 2 eexists. }
  rewrite andb_false_r. do 2 eexists. split; [reflexivity|]. split; [done|]. clear Hbig. bool_prop.
  cbn [seconds nanoseconds]. unfold carries. rewrite (u32_small (seconds t + i_seconds i)) by time_lia.
  rewrite (u32_small (nanoseconds t + i_nanoseconds i)) by time_lia.
  destruct (NS_PER_S <=? nanoseconds t + i_nanoseconds i) eqn:E2; bool_prop.
  - destruct (seconds t + i_seconds i =? UINT_MAX) eqn:E3; bool_prop; cbn [andb].
    + rewrite E3. change (u32 (UINT_MAX + 1)) with 0. unfold time_okb, ns. cbn [seconds nanoseconds].
      rewrite !andb_true_iff, !Z.leb_le, Z.ltb_lt. time_lia.
    + rewrite u32_small by time_lia. unfold time_okb, ns. cbn [seconds nanoseconds].
      rewrite !andb_true_iff, !Z.leb_le, Z.ltb_lt. time_lia.
  - rewrite andb_false_r. unfold time_okb, ns. cbn [seconds nanoseconds].
    rewrite !andb_true_iff, !Z.leb_le, Z.ltb_lt. time_lia.
Qed.

Lemma subtract_spec t i t0 : time_okb t = true -> interval_okb i = true ->
  exists r t', isc_time_subtract t i t0 = Done (r, t') /\
    (if ns t <? ins i then r = ISC_R_RANGE /\ t' = t0
     else r = ISC_R_SUCCESS /\ time_okb t' = true /\ ns t' = ns t - ins i).
Proof.
  intros Ht Hi. unfold isc_time_subtract. rewrite require_true by time_lia. cbn [obind].
  assert ((seconds t <? i_seconds i) || ((seconds t =? i_seconds i) && (nanoseconds t <? i_nanoseconds i)) = (ns t <? ins i)) as ->.
  { apply eq_true_iff_eq. rewrite orb_true_iff, andb_true_iff, !Z.ltb_lt, Z.eqb_eq. time_lia. }
  destruct (ns t <? ins i) eqn:E; [by do 2 eexists|]. bool_prop.
  destruct (i_nanoseconds i <=? nanoseconds t) eqn:E2; bool_prop;
    (do 2 eexists; split; [reflexivity|]; split; [done|];
     rewrite (u32_small (seconds t - i_seconds i)) by time_lia; rewrite ?u32_small by time_lia;
     unfold time_okb, ns; cbn [seconds nanoseconds]; rewrite !andb_true_iff, !Z.leb_le, Z.ltb_lt; time_lia).
Qed.

(** The difference in whole microseconds, or 0 *)
Lemma microdiff_spec t1 t2 : time_okb t1 = true -> time_okb t2 = true ->
  isc_time_microdiff t1 t2 = Done (Z.max 0 (ns t1 - ns t2) / NS_PER_US).
Proof.
  intros H1 H2. unfold isc_time_microdiff. rewrite require_true by time_lia. cbn [obind].
  rewrite !Z.mod_small by time_lia. fold (ns t1) (ns t2).
  destruct (ns t1 <=? ns t2) eqn:E; bool_prop; [rewrite Z.max_l by lia|rewrite Z.max_r by lia]; done.
Qed.

(** ** Properties *)

(** C39. Times are added exactly, in nanoseconds, with one exception: [isc_time_add]
    reports ISC_R_RANGE when the seconds do not fit, but the test is made before the carry
    of the nanoseconds, and a sum whose seconds are exactly [UINT_MAX] with a carry comes
    out as a time in the first second after the epoch, with success.  A difference is
    exact or reports ISC_R_RANGE, and undoes an exact sum. *)
Theorem time_arithmetic t i t0 :
  time_okb t = true -> interval_okb i = true ->
  (exists r t', isc_time_add t i t0 = Done (r, t') /\
     (if UINT_MAX <? seconds t + i_seconds i then r = ISC_R_RANGE /\ t' = t0
      else r = ISC_R_SUCCESS /\ time_okb t' = true /\
           if carries t i then seconds t' = 0
           else ns t' = ns t + ins i /\ isc_time_subtract t' i t0 = Done (ISC_R_SUCCESS, t))) /\
  (exists r t', isc_time_subtract t i t0 = Done (r, t') /\
     (if ns t <? ins i then r = ISC_R_RANGE /\ t' = t0
      else r = ISC_R_SUCCESS /\ time_okb t' = true /\ ns t' = ns t - ins i)).
Proof.
  intros Ht Hi. split; [|by apply subtract_spec].
  destruct (add_spec t i t0 Ht Hi) as (r & t' & E & Hr). exists r, t'. split; [done|].
  destruct (UINT_MAX <? _); [done|]. destruct Hr as (-> & Ht' & Hn). split_and!; [done|done|].
  destruct (carries t i) eqn:Ec.
  - unfold carries in Ec. time_lia.
  - rewrite Z.sub_0_r in Hn. split; [done|]. destruct (subtract_spec t' i t0 Ht' Hi) as (r2 & t2 & -> & H2).
    rewrite (proj2 (Z.ltb_ge _ _)) in H2 by time_lia. destruct H2 as (-> & H2 & Hn2).
    by rewrite (ns_inj t2 t) by (done || lia).
Qed.

Lemma time_arithmetic_witness :
  isc_time_add (mkTime UINT_MAX 999999999) (mkInterval 0 1) isc_time_epoch = Done (ISC_R_SUCCESS, mkTime 0 0) /\
  isc_time_subtract (mkTime 11 5) (mkInterval 1 999999999) isc_time_epoch = Done (ISC_R_SUCCESS, mkTime 9 6) /\
  exists r t', isc_time_add (mkTime 9 6) (mkInterval 1 999999999) isc_time_epoch = Done (r, t') /\
    r = ISC_R_SUCCESS /\ ns t' = 11000000005.
Proof.
  split; [reflexivity|]. split; [reflexivity|].
  destruct (time_arithmetic (mkTime 9 6) (mkInterval 1 999999999) isc_time_epoch) as [(r & t' & E & Hr) _];
    [reflexivity|reflexivity|].
  exists r, t'. split; [exact E|]. destruct Hr as (Hr & _ & Hn). split; [exact Hr|].
  destruct Hn as [Hn _]. rewrite Hn. reflexivity.
Defined.
