(* ===== verification/Timer.v ===== *)
(** * Timers: [lib/isc/timer.c]

    The variant with a timer thread.  The timers are a store of records by address, and
    the manager keeps those that are scheduled in a heap ([Heap]) ordered by the time at
    which they are due.  The field [index] of a timer is written by the heap, through
    [set_index], and is kept in the index map of the heap.

    Everything but reference counts and [isc__timer_touch] happens under the lock of the
    manager, so the system moves in steps: a call of the interface, the [destroy] that
    follows the last [isc__timer_detach], and one round of the loop of [run], from the
    moment the thread has the lock to the moment it sleeps on [wakeup].  [SIGNAL] wakes the
    thread when it sleeps and is lost when it does not; a thread that sleeps may also wake
    because its time has come or without a reason.

    The tasks are addresses; the calls of [isc_task_attach], [isc_task_detach],
    [isc_task_send] and [isc_task_purgerange] are what a step shows ([obs]). *)

From S2P Require Import Prelude Heap Time.

Inductive isc_timertype_t : Type :=
| isc_timertype_ticker | isc_timertype_once | isc_timertype_limited | isc_timertype_inactive.

#[export] Instance isc_timertype_eq_dec : EqDecision isc_timertype_t.
Proof. solve_decision. Defined.

Definition ISC_EVENTCLASS_TIMER : Z := Z.shiftl 1 16.
Definition ISC_TIMEREVENT_FIRSTEVENT : Z := ISC_EVENTCLASS_TIMER + 0.
Definition ISC_TIMEREVENT_TICK : Z := ISC_EVENTCLASS_TIMER + 1.
Definition ISC_TIMEREVENT_IDLE : Z := ISC_EVENTCLASS_TIMER + 2.
Definition ISC_TIMEREVENT_LIFE : Z := ISC_EVENTCLASS_TIMER + 3.
Definition ISC_TIMEREVENT_LASTEVENT : Z := ISC_EVENTCLASS_TIMER + 65535.

Record isc__timer : Type := mkTimer {
  references : Z;
  idle : isc_time_t;
  type : isc_timertype_t;
  expires : isc_time_t;
  interval : isc_interval_t;
  task : Z;
  action : Z;
  arg : Z;
  due : isc_time_t
}.

Record isc_timerevent : Type := mkTimerEvent {
  ev_sender : Z;
  ev_type : Z;
  ev_action : Z;
  ev_arg : Z;
  ev_due : isc_time_t
}.

Record isc__timermgr : Type := mkTimerMgr {
  done : bool;
  timers : list Z;
  nscheduled : Z;
  mgr_due : isc_time_t;
  heap : isc_heap
}.

(** Where the timer thread is: about to take the lock and test [done], asleep with or
    without a time to wake up, or at its end. *)
Inductive run_pc : Type :=
| R_ready
| R_waituntil (d : isc_time_t)
| R_wait
| R_exit.

#[export] Instance run_pc_eq_dec : EqDecision run_pc.
Proof. solve_decision. Defined.

(** [dying] are the timers whose last reference is gone and whose [destroy] is still to
    come. *)
Record system : Type := mkSystem {
  store : gmap Z isc__timer;
  manager : isc__timermgr;
  thread : run_pc;
  dying : list Z;
  freed : bool
}.

(** ** Fields *)

Definition set_references (n : Z) (T : isc__timer) : isc__timer :=
  mkTimer n (idle T) (type T) (expires T) (interval T) (task T) (action T) (arg T) (due T).
Definition set_idle (x : isc_time_t) (T : isc__timer) : isc__timer :=
  mkTimer (references T) x (type T) (expires T) (interval T) (task T) (action T) (arg T) (due T).
Definition set_due (x : isc_time_t) (T : isc__timer) : isc__timer :=
  mkTimer (references T) (idle T) (type T) (expires T) (interval T) (task T) (action T) (arg T) x.

Definition set_nscheduled (n : Z) (m : isc__timermgr) : isc__timermgr :=
  mkTimerMgr (done m) (timers m) n (mgr_due m) (heap m).
Definition set_mgr_due (d : isc_time_t) (m : isc__timermgr) : isc__timermgr :=
  mkTimerMgr (done m) (timers m) (nscheduled m) d (heap m).
Definition set_timers (l : list Z) (m : isc__timermgr) : isc__timermgr :=
  mkTimerMgr (done m) l (nscheduled m) (mgr_due m) (heap m).
Definition set_done (m : isc__timermgr) : isc__timermgr :=
  mkTimerMgr true (timers m) (nscheduled m) (mgr_due m) (heap m).
Definition set_mgr_heap (h : isc_heap) (m : isc__timermgr) : isc__timermgr :=
  mkTimerMgr (done m) (timers m) (nscheduled m) (mgr_due m) h.

Definition set_manager (m : isc__timermgr) (st : system) : system :=
  mkSystem (store st) m (thread st) (dying st) (freed st).
Definition set_store (s : gmap Z isc__timer) (st : system) : system :=
  mkSystem s (manager st) (thread st) (dying st) (freed st).
Definition set_thread (pc : run_pc) (st : system) : system :=
  mkSystem (store st) (manager st) pc (dying st) (freed st).
Definition set_dying (l : list Z) (st : system) : system :=
  mkSystem (store st) (manager st) (thread st) l (freed st).
Definition set_freed (st : system) : system :=
  mkSystem (store st) (manager st) (thread st) (dying st) true.

Definition mgr_heap (st : system) : isc_heap := heap (manager st).
Definition set_heap (h : isc_heap) (st : system) : system := set_manager (set_mgr_heap h (manager st)) st.

(** A timer that is not in the store has been freed. *)
Definition get (st : system) (t : Z) : outcome isc__timer :=
  match store st !! t with Some T => Done T | None => Undef end.
Definition put (t : Z) (T : isc__timer) (st : system) : system := set_store (<[t := T]> (store st)) st.

(** [timer->index] *)
Definition index (st : system) (t : Z) : Z := default 0 (h_index (mgr_heap st) !! t).
Definition put_index (t i : Z) (st : system) : system :=
  set_heap (reindex (mgr_heap st) (set_index (h_index (mgr_heap st)) t i)) st.

(** [SIGNAL(&manager->wakeup)] *)
Definition SIGNAL (st : system) : system :=
  match thread st with
  | R_waituntil _ | R_wait => set_thread R_ready st
  | _ => st
  end.

(** ** The order of the heap *)

Definition due_of (s : gmap Z isc__timer) (t : Z) : isc_time_t :=
  match s !! t with Some T => due T | None => isc_time_epoch end.

(** The result of [sooner]; its assertions are those of [comparable]. *)
Definition sooner (s : gmap Z isc__timer) (v1 v2 : Z) : bool :=
  time_order (due_of s v1) (due_of s v2) <? 0.

(** The assertions of [sooner] and [isc_time_compare] for all the timers [l] of a heap at
    once: every one of them exists, and the time at which it is due is valid.  The heap
    compares only some of them. *)
Definition comparable (s : gmap Z isc__timer) (l : list Z) : bool :=
  forallb (fun t => match s !! t with Some T => nanoseconds (due T) <? NS_PER_S | None => false end) l.

Definition on_heap {A} (st : system) (l : list Z) (f : (Z -> Z -> bool) -> isc_heap -> outcome A) : outcome A :=
  REQUIRE comparable (store st) (l ++ elements (mgr_heap st)) ;;
  f (sooner (store st)) (mgr_heap st).

(** ** [schedule] and [deschedule] *)

(** [Compute the new due time.] *)
Definition new_due (T : isc__timer) (now : isc_time_t) : outcome (isc_result_t * isc_time_t) :=
  if negb (bool_decide (type T = isc_timertype_once)) then
    let* (r, d) := isc_time_add now (interval T) isc_time_epoch in
    if negb (bool_decide (r = ISC_R_SUCCESS)) then Done (r, d)
    else if bool_decide (type T = isc_timertype_limited) then
      let* c := isc_time_compare (expires T) d in
      Done (ISC_R_SUCCESS, if c <? 0 then expires T else d)
    else Done (ISC_R_SUCCESS, d)
  else
    let* no_idle := isc_time_isepoch (idle T) in
    if no_idle then Done (ISC_R_SUCCESS, expires T)
    else
      let* no_life := isc_time_isepoch (expires T) in
      if no_life then Done (ISC_R_SUCCESS, idle T)
      else
        let* c := isc_time_compare (idle T) (expires T) in
        Done (ISC_R_SUCCESS, if c <? 0 then idle T else expires T).

(** [Schedule the timer.]; [mem] is what the allocator answers when the heap grows. *)
Definition place (st : system) (t : Z) (d : isc_time_t) (mem : option (list Z))
    : outcome (isc_result_t * system) :=
  let* T := get st t in
  if 0 <? index st t then
    let* cmp := isc_time_compare d (due T) in
    let st := put t (set_due d T) st in
    if cmp =? -1 then
      let* h := on_heap st [] (fun c h => isc_heap_increased c h (index st t)) in
      Done (ISC_R_SUCCESS, set_heap h st)
    else if cmp =? 1 then
      let* h := on_heap st [] (fun c h => isc_heap_decreased c h (index st t)) in
      Done (ISC_R_SUCCESS, set_heap h st)
    else Done (ISC_R_SUCCESS, st)
  else
    let st := put t (set_due d T) st in
    let* (r, h) := on_heap st [t] (fun c h => isc_heap_insert c h t mem) in
    let st := set_heap h st in
    if negb (bool_decide (r = ISC_R_SUCCESS)) then
      REQUIRE bool_decide (r = ISC_R_NOMEMORY) ;;
      Done (ISC_R_NOMEMORY, st)
    else Done (ISC_R_SUCCESS, set_manager (set_nscheduled (u32 (nscheduled (manager st) + 1)) (manager st)) st).

(** The end of [schedule]: wake the timer thread when the timer is the first one, or when
    the thread is fifteen seconds late. *)
Definition wakeup (st : system) (t : Z) (now : isc_time_t) (signal_ok timedwait : bool) : outcome system :=
  let* (st, signal_ok) :=
    (if signal_ok && timedwait then
       let* fifteen := isc_interval_set 15 0 in
       let* (r, late) := isc_time_add (mgr_due (manager st)) fifteen isc_time_epoch in
       if bool_decide (r = ISC_R_SUCCESS) then
         let* c := isc_time_compare late now in
         Done (if c <? 0 then (SIGNAL st, false) else (st, signal_ok))
       else Done (st, signal_ok)
     else Done (st, signal_ok)) in
  Done (if (index st t =? 1) && signal_ok then SIGNAL st else st).

Definition schedule (st : system) (t : Z) (now : isc_time_t) (signal_ok : bool) (mem : option (list Z))
    : outcome (isc_result_t * system) :=
  let* T := get st t in
  REQUIRE negb (bool_decide (type T = isc_timertype_inactive)) ;;
  let* timedwait :=
    (if 0 <? nscheduled (manager st) then
       let* s := isc_time_seconds (mgr_due (manager st)) in Done (negb (s =? 0))
     else Done false) in
  let* (r, d) := new_due T now in
  if negb (bool_decide (r = ISC_R_SUCCESS)) then Done (r, st)
  else
    let* (r, st) := place st t d mem in
    if negb (bool_decide (r = ISC_R_SUCCESS)) then Done (r, st)
    else
      let* st := wakeup st t now signal_ok timedwait in
      Done (ISC_R_SUCCESS, st).

Definition deschedule (st : system) (t : Z) : outcome system :=
  let i := index st t in
  if 0 <? i then
    let need_wakeup := i =? 1 in
    let* h := on_heap st [] (fun c h => isc_heap_delete c h i) in
    let st := put_index t 0 (set_heap h st) in
    REQUIRE 0 <? nscheduled (manager st) ;;
    let st := set_manager (set_nscheduled (u32 (nscheduled (manager st) - 1)) (manager st)) st in
    Done (if need_wakeup then SIGNAL st else st)
  else Done st.

(** ** The interface *)

(** What the steps show of the tasks, and of the life of a timer *)
Inductive obs : Type :=
| Created (task t : Z)
| Destroyed (t : Z)
| Attach (task : Z)
| Detach (task : Z)
| Purge (task t : Z)
| Send (task : Z) (e : isc_timerevent).

(** [isc_task_purgerange(timer->task, timer, FIRSTEVENT, LASTEVENT, NULL)],
    [deschedule], [UNLINK], [isc_task_detach] and the memory of the timer *)
Definition destroy (st : system) (t : Z) : outcome (system * list obs) :=
  let* T := get st t in
  let* st := deschedule st t in
  if negb (bool_decide (t ∈ timers (manager st))) then Undef
  else
    let st := set_manager (set_timers (filter (fun x => x <> t) (timers (manager st))) (manager st)) st in
    let st := set_heap (reindex (mgr_heap st) (delete t (h_index (mgr_heap st)))) st in
    Done (set_store (delete t (store st)) st, [Purge (task T) t; Detach (task T); Destroyed t]).

(** The assertions on [type], [expires] and [interval] that [isc__timer_create] and
    [isc__timer_reset] share *)
Definition check_arguments (ty : isc_timertype_t) (e : isc_time_t) (i : isc_interval_t) : outcome unit :=
  let* _ :=
    (if bool_decide (ty = isc_timertype_inactive) then Done tt
     else
       let* a := isc_time_isepoch e in
       if a then let* b := isc_interval_iszero i in require (negb b) else Done tt) in
  if negb (bool_decide (ty = isc_timertype_limited)) then Done tt
  else
    let* a := isc_time_isepoch e in
    REQUIRE negb a ;;
    let* b := isc_interval_iszero i in
    require (negb b).

(** [Get current time.] *)
Definition current_time (ty : isc_timertype_t) (clock : option (Z * Z)) : outcome isc_time_t :=
  if negb (bool_decide (ty = isc_timertype_inactive)) then TIME_NOW clock else Done isc_time_settoepoch.

(** [timer->idle], which is [old] before *)
Definition new_idle (ty : isc_timertype_t) (now : isc_time_t) (i : isc_interval_t) (old : isc_time_t)
    : outcome (isc_result_t * isc_time_t) :=
  if bool_decide (ty = isc_timertype_once) then
    let* z := isc_interval_iszero i in
    if negb z then isc_time_add now i old else Done (ISC_R_SUCCESS, isc_time_settoepoch)
  else Done (ISC_R_SUCCESS, isc_time_settoepoch).

(** The answers of the allocator and of [isc_mutex_init], and what the new memory holds
    where [timer->due] will be *)
Record create_answers : Type := mkAnswers {
  new_timer : option Z;
  mutex_ok : bool;
  heap_mem : option (list Z);
  garbage : isc_time_t
}.

Definition isc__timer_create (st : system) (ty : isc_timertype_t) (e : option isc_time_t) (i : option isc_interval_t)
    (tsk act a : Z) (clock : option (Z * Z)) (ans : create_answers) : outcome (isc_result_t * system * list obs) :=
  REQUIRE negb (tsk =? 0) ;;
  REQUIRE negb (act =? 0) ;;
  let e := default isc_time_epoch e in
  let i := default isc_interval_zero i in
  let* _ := check_arguments ty e i in
  let* now := current_time ty clock in
  match new_timer ans with
  | None => Done (ISC_R_NOMEMORY, st, [])
  | Some t =>
      let* (r, idl) := new_idle ty now i isc_time_settoepoch in
      if negb (bool_decide (r = ISC_R_SUCCESS)) then Done (r, st, [])
      else if negb (mutex_ok ans) then Done (ISC_R_UNEXPECTED, st, [Attach tsk; Detach tsk])
      else
        let st1 := put_index t 0 (put t (mkTimer 1 idl ty e i tsk act a (garbage ans)) st) in
        let* (r, st2) :=
          (if negb (bool_decide (ty = isc_timertype_inactive)) then schedule st1 t now true (heap_mem ans)
           else Done (ISC_R_SUCCESS, st1)) in
        if bool_decide (r = ISC_R_SUCCESS) then
          Done (ISC_R_SUCCESS,
                set_manager (set_timers (timers (manager st2) ++ [t]) (manager st2)) st2,
                [Attach tsk; Created tsk t])
        else
          let st3 := set_heap (reindex (mgr_heap st2) (delete t (h_index (mgr_heap st2)))) st2 in
          Done (r, set_store (delete t (store st3)) st3, [Attach tsk; Detach tsk])
  end.

Definition isc__timer_reset (st : system) (t : Z) (ty : isc_timertype_t) (e : option isc_time_t)
    (i : option isc_interval_t) (purge : bool) (clock : option (Z * Z)) (mem : option (list Z))
    : outcome (isc_result_t * system * list obs) :=
  let* T := get st t in
  let e := default isc_time_epoch e in
  let i := default isc_interval_zero i in
  let* _ := check_arguments ty e i in
  let* now := current_time ty clock in
  let o := if purge then [Purge (task T) t] else [] in
  let* (r, idl) := new_idle ty now i (idle T) in
  let st := put t (mkTimer (references T) idl ty e i (task T) (action T) (arg T) (due T)) st in
  if bool_decide (r = ISC_R_SUCCESS) then
    if bool_decide (ty = isc_timertype_inactive) then
      let* st := deschedule st t in
      Done (ISC_R_SUCCESS, st, o)
    else
      let* (r, st) := schedule st t now true mem in
      Done (r, st, o)
  else Done (r, st, o).

Definition isc__timer_gettype (st : system) (t : Z) : outcome isc_timertype_t :=
  let* T := get st t in Done (type T).

Definition isc__timer_touch (st : system) (t : Z) (clock : option (Z * Z)) : outcome (isc_result_t * system) :=
  let* T := get st t in
  let* now := TIME_NOW clock in
  let* (r, idl) := isc_time_add now (interval T) (idle T) in
  Done (r, put t (set_idle idl T) st).

Definition isc__timer_attach (st : system) (t : Z) : outcome system :=
  let* T := get st t in
  Done (put t (set_references (u32 (references T + 1)) T) st).

(** The part of [isc__timer_detach] under the lock of the timer; [destroy] follows when
    the count is 0. *)
Definition isc__timer_detach (st : system) (t : Z) : outcome system :=
  let* T := get st t in
  REQUIRE 0 <? references T ;;
  let T' := set_references (references T - 1) T in
  let st := put t T' st in
  Done (if references T' =? 0 then set_dying (dying st ++ [t]) st else st).

(** ** The timer thread *)

(** What is due of a timer at [now]: the event to post, and whether the timer goes back on
    the heap *)
Definition fire (now : isc_time_t) (T : isc__timer) : outcome (option Z * bool) :=
  if bool_decide (type T = isc_timertype_ticker) then Done (Some ISC_TIMEREVENT_TICK, true)
  else if bool_decide (type T = isc_timertype_limited) then
    let* cmp := isc_time_compare now (expires T) in
    Done (if 0 <=? cmp then (Some ISC_TIMEREVENT_LIFE, false) else (Some ISC_TIMEREVENT_TICK, true))
  else
    let* no_life := isc_time_isepoch (expires T) in
    let* life := (if negb no_life then let* cmp := isc_time_compare now (expires T) in Done (0 <=? cmp) else Done false) in
    if (life : bool) then Done (Some ISC_TIMEREVENT_LIFE, false)
    else
      let* no_idle := isc_time_isepoch (idle T) in
      let* is_idle := (if negb no_idle then let* cmp := isc_time_compare now (idle T) in Done (0 <=? cmp) else Done false) in
      Done (if (is_idle : bool) then (Some ISC_TIMEREVENT_IDLE, false) else (None, true)).

(** The answers of the allocator in the [k]-th round of [dispatch]: whether there is
    memory for the event, and the array of a heap that grows *)
Definition answers : Type := nat -> bool * option (list Z).

Definition post (t : Z) (T : isc__timer) (event : option Z) (ok : bool) : list obs :=
  match event with
  | Some ty => if ok then [Send (task T) (mkTimerEvent t ty (action T) (arg T) (due T))] else []
  | None => []
  end.

(** One round of the loop of [dispatch] *)
Definition dispatch_body (now : isc_time_t) (alloc : answers) (s : system * nat * list obs)
    : outcome ((system * nat * list obs) + (system * list obs)) :=
  let '(st, k, out) := s in
  if 0 <? nscheduled (manager st) then
    let* t := isc_heap_element (mgr_heap st) 1 in
    REQUIRE negb (t =? 0) ;;
    let* T := get st t in
    REQUIRE negb (bool_decide (type T = isc_timertype_inactive)) ;;
    let* c := isc_time_compare now (due T) in
    if 0 <=? c then
      let* (event, need_schedule) := fire now T in
      let out := out ++ post t T event (fst (alloc k)) in
      let st := put_index t 0 st in
      let* h := on_heap st [] (fun c h => isc_heap_delete c h 1) in
      let st := set_heap h st in
      let st := set_manager (set_nscheduled (u32 (nscheduled (manager st) - 1)) (manager st)) st in
      let* st :=
        (if (need_schedule : bool) then let* (_, st) := schedule st t now false (snd (alloc k)) in Done st
         else Done st) in
      Done (inl (st, S k, out))
    else Done (inr (set_manager (set_mgr_due (due T) (manager st)) st, out))
  else Done (inr (st, out)).

(** A timer that goes back on the heap is not due again, so that a round for every
    scheduled timer is enough. *)
Definition dispatch_fuel (st : system) : nat := S (Z.to_nat (nscheduled (manager st))).

Definition dispatch (st : system) (now : isc_time_t) (alloc : answers) : outcome (system * list obs) :=
  loop (dispatch_fuel st) (dispatch_body now alloc) (st, 0%nat, []).

(** A round of the loop of [run], up to the sleep *)
Definition run (st : system) (clock : option (Z * Z)) (alloc : answers) : outcome (system * list obs) :=
  if done (manager st) then Done (set_thread R_exit st, [])
  else
    let* now := TIME_NOW clock in
    let* (st, out) := dispatch st now alloc in
    Done (if 0 <? nscheduled (manager st)
          then set_thread (R_waituntil (mgr_due (manager st))) st
          else set_thread R_wait st, out).

(** ** The manager *)

(** [mem] is the answer for the memory of the manager, [heap_ok] that of
    [isc_heap_create]. *)
Definition isc__timermgr_create (mem heap_ok mutex cond thr : bool) : isc_result_t * option system :=
  if negb mem then (ISC_R_NOMEMORY, None)
  else if negb heap_ok then (ISC_R_NOMEMORY, None)
  else if negb mutex then (ISC_R_UNEXPECTED, None)
  else if negb cond then (ISC_R_UNEXPECTED, None)
  else if negb thr then (ISC_R_UNEXPECTED, None)
  else (ISC_R_SUCCESS,
        Some (mkSystem ∅ (mkTimerMgr false [] 0 isc_time_settoepoch (isc_heap_create true ∅ 0)) R_ready [] false)).

Definition isc__timermgr_poke (st : system) : system := SIGNAL st.

(** [isc__timermgr_destroy] up to the wait for the thread *)
Definition isc__timermgr_destroy (st : system) : outcome system :=
  REQUIRE match timers (manager st) with [] => true | _ => false end ;;
  Done (SIGNAL (set_manager (set_done (manager st)) st)).

(** ** Steps *)

Inductive label : Type :=
| C_create (ty : isc_timertype_t) (e : option isc_time_t) (i : option isc_interval_t) (tsk act a : Z)
    (clock : option (Z * Z)) (ans : create_answers)
| C_reset (t : Z) (ty : isc_timertype_t) (e : option isc_time_t) (i : option isc_interval_t) (purge : bool)
    (clock : option (Z * Z)) (mem : option (list Z))
| C_touch (t : Z) (clock : option (Z * Z))
| C_attach (t : Z)
| C_detach (t : Z)
| C_destroy (t : Z)
| C_poke
| C_mgr_destroy
| C_join
| R_run (clock : option (Z * Z)) (alloc : answers)
| R_wakes.

Definition step (st : system) (l : label) : outcome (system * list obs) :=
  if freed st then Undef
  else match l with
  | C_create ty e i tsk act a clock ans =>
      let* (_, s, o) := isc__timer_create st ty e i tsk act a clock ans in Done (s, o)
  | C_reset t ty e i purge clock mem =>
      let* (_, s, o) := isc__timer_reset st t ty e i purge clock mem in Done (s, o)
  | C_touch t clock => let* (_, s) := isc__timer_touch st t clock in Done (s, [])
  | C_attach t => let* s := isc__timer_attach st t in Done (s, [])
  | C_detach t => let* s := isc__timer_detach st t in Done (s, [])
  | C_destroy t => destroy (set_dying (filter (fun x => x <> t) (dying st)) st) t
  | C_poke => Done (isc__timermgr_poke st, [])
  | C_mgr_destroy => let* s := isc__timermgr_destroy st in Done (s, [])
  | C_join => Done (set_freed st, [])
  | R_run clock alloc => run st clock alloc
  | R_wakes => Done (set_thread R_ready st, [])
  end.

(** *** The callers' side of the contract *)

(** The caller holds a reference. *)
Definition held (st : system) (t : Z) : bool :=
  negb (freed st) && match store st !! t with Some T => 0 <? references T | None => false end.

(** The arguments of a timer: valid times, not both zero unless the timer is inactive, and
    both given for a limited timer. *)
Definition arguments_ok (ty : isc_timertype_t) (e : isc_time_t) (i : isc_interval_t) : bool :=
  time_okb e && interval_okb i &&
  match ty with
  | isc_timertype_ticker | isc_timertype_once => (0 <? ns e) || (0 <? ins i)
  | isc_timertype_limited => (0 <? ns e) && (0 <? ins i)
  | isc_timertype_inactive => true
  end.

(** The clock answers with a time after the epoch for which [p] holds. *)
Definition clock_says (clock : option (Z * Z)) (p : isc_time_t -> bool) : bool :=
  match TIME_NOW clock with Done now => (0 <? ns now) && p now | _ => false end.

(** The memory for a larger heap, if there is any, has the size that was asked for. *)
Definition mem_ok (st : system) (mem : option (list Z)) : bool :=
  match mem with
  | Some a => Zlen a =? h_size (mgr_heap st) + h_size_increment (mgr_heap st)
  | None => true
  end.

Definition MAX_TIMERS : Z := 2 ^ 31.

(** When a step may be taken: what the caller owes according to [timer.h], and what the
    system around the timers gives - a clock that works, memory of the right size and at a
    fresh address, a mutex, and fewer than 2^31 timers and 2^32 references. *)
Definition guard (st : system) (l : label) : bool :=
  negb (freed st) &&
  match l with
  | C_create ty e i tsk act _ clock ans =>
      negb (done (manager st)) && negb (tsk =? 0) && negb (act =? 0) &&
      arguments_ok ty (default isc_time_epoch e) (default isc_interval_zero i) &&
      (bool_decide (ty = isc_timertype_inactive) || clock_says clock (fun _ => true)) &&
      match new_timer ans with Some t => (0 <? t) && bool_decide (store st !! t = None) | None => true end &&
      mem_ok st (heap_mem ans) && (Zlen (timers (manager st)) <? MAX_TIMERS)
  | C_reset t ty e i _ clock mem =>
      held st t && arguments_ok ty (default isc_time_epoch e) (default isc_interval_zero i) &&
      (bool_decide (ty = isc_timertype_inactive) || clock_says clock (fun _ => true)) &&
      mem_ok st mem
  | C_touch t clock => held st t && clock_says clock (fun _ => true)
  | C_attach t => held st t && match store st !! t with Some T => references T <? UINT_MAX | None => false end
  | C_detach t => held st t
  | C_destroy t => bool_decide (t ∈ dying st)
  | C_poke => true
  | C_mgr_destroy => negb (done (manager st)) && match timers (manager st) with [] => true | _ => false end
  | C_join => done (manager st) && bool_decide (thread st = R_exit)
  | R_run clock alloc =>
      bool_decide (thread st = R_ready) && (done (manager st) || clock_says clock (fun _ => true))
  | R_wakes => match thread st with R_wait | R_waituntil _ => true | _ => false end
  end.

(** What the contract does not ask for, and without which [dispatch] may not end: a ticker
    has an interval; an idle time that [isc__timer_reset] sets is in the range of times; and
    no sum of the clock and an interval has seconds of exactly [UINT_MAX] with a carry
    ([carries]). *)
Definition modest (st : system) (l : label) : bool :=
  match l with
  | C_create ty _ i _ _ _ clock _ =>
      let i := default isc_interval_zero i in
      (negb (bool_decide (ty = isc_timertype_ticker)) || (0 <? ins i)) &&
      (bool_decide (ty = isc_timertype_inactive) || clock_says clock (fun now => negb (carries now i)))
  | C_reset _ ty _ i _ clock _ =>
      let i := default isc_interval_zero i in
      (negb (bool_decide (ty = isc_timertype_ticker)) || (0 <? ins i)) &&
      (bool_decide (ty = isc_timertype_inactive) ||
       clock_says clock (fun now => negb (carries now i) &&
         (negb (bool_decide (ty = isc_timertype_once)) || (seconds now + i_seconds i <=? UINT_MAX))))
  | C_touch t clock =>
      match store st !! t with
      | Some T => clock_says clock (fun now => negb (carries now (interval T)))
      | None => false
      end
  | R_run clock alloc =>
      done (manager st) ||
      clock_says clock (fun now => forallb (fun p => negb (carries now (interval p.2))) (map_to_list (store st)))
  | _ => true
  end.

Definition tame (st : system) (l : label) : bool := guard st l && modest st l.

(** What a sequence of observations says about each timer: its task, and whether there may
    be an event of the timer that was not purged.  [None] when an event is posted by a timer
    that does not exist or to another task, or when a timer goes away that has not been
    purged since its last event. *)
Fixpoint scan (m : gmap Z (Z * bool)) (tr : list obs) : option (gmap Z (Z * bool)) :=
  match tr with
  | [] => Some m
  | o :: tr' =>
      match o with
      | Created k t => if bool_decide (m !! t = None) then scan (<[t := (k, true)]> m) tr' else None
      | Destroyed t =>
          match m !! t with Some (_, true) => scan (delete t m) tr' | _ => None end
      | Purge k t =>
          if bool_decide (fst <$> m !! t = Some k) then scan (<[t := (k, true)]> m) tr' else None
      | Send k e =>
          if bool_decide (fst <$> m !! ev_sender e = Some k) then scan (<[ev_sender e := (k, false)]> m) tr' else None
      | Attach _ | Detach _ => scan m tr'
      end
  end.

(** The executions in which every step may be taken: [steps guard] are those that keep to the
    contract, [steps tame] those in which the timers are modest as well. *)
Inductive steps (may : system -> label -> bool) (st0 : system) : list obs -> system -> Prop :=
| steps_refl : steps may st0 [] st0
| steps_next tr st l st' o :
    steps may st0 tr st -> may st l = true -> step st l = Done (st', o) -> steps may st0 (tr ++ o) st'.

Fixpoint run_labels (may : system -> label -> bool) (st : system) (ls : list label) : option (system * list obs) :=
  match ls with
  | [] => Some (st, [])
  | l :: ls' =>
      if may st l then
        match step st l with
        | Done (st', o) =>
            match run_labels may st' ls' with Some (st'', tr) => Some (st'', o ++ tr) | None => None end
        | _ => None
        end
      else None
  end.
