(* ===== verification/TimerQueue.v ===== *)
(** * The heap of scheduled timers

    [queue_ok] is the invariant that ties the timers, the heap and the count of scheduled
    timers together; here are what [place] and the deletions of [timer.c] do to it. *)

From S2P Require Import Prelude Heap Time Timer.

(** ** The order of the timers *)

Lemma time_order_lt t1 t2 : (time_order t1 t2 <? 0) = true <->
  seconds t1 < seconds t2 \/ (seconds t1 = seconds t2 /\ nanoseconds t1 < nanoseconds t2).
Proof. unfold time_order. repeat case_if; bool_prop; lia. Qed.

Lemma time_order_ge t1 t2 : (time_order t1 t2 <? 0) = false <->
  seconds t2 < seconds t1 \/ (seconds t1 = seconds t2 /\ nanoseconds t2 <= nanoseconds t1).
Proof. unfold time_order. repeat case_if; bool_prop; lia. Qed.

#[export] Instance sooner_StrictWeak s : StrictWeak (sooner s).
Proof.
  split; unfold sooner.
  - intros x y. rewrite time_order_lt, time_order_ge. lia.
  - intros x y z. rewrite !time_order_ge. lia.
Qed.

Lemma sooner_ns s x y T U : s !! x = Some T -> s !! y = Some U -> time_okb (due T) = true -> time_okb (due U) = true ->
  sooner s x y = (ns (due T) <? ns (due U)).
Proof.
  intros Ex Ey HT HU. unfold sooner, due_of. rewrite Ex, Ey, time_order_spec by done.
  apply eq_true_iff_eq. rewrite !Z.ltb_lt. lia.
Qed.

Lemma wf_heap_ext c c' h :
  (forall x y, x ∈ elements h -> y ∈ elements h -> c x y = c' x y) -> wf_heap c h -> wf_heap c' h.
Proof.
  intros Hc [W1 [W2 W3] W4 W5 W6 W7]. constructor; try done. intros j Hj. unfold above.
  rewrite <- Hc; [by apply W6| |]; unfold elements; apply sub_cell_elem; divlia.
Qed.

Lemma wf_reindex c h idx :
  wf_heap c h -> (forall x, x ∈ elements h -> idx !! x = h_index h !! x) -> wf_heap c (reindex h idx).
Proof.
  intros [W1 [W2 W3] W4 W5 W6 W7] Hx. constructor; try done. intros Hhas. destruct (W7 Hhas) as [Hd Hi].
  split; [done|]. intros j Hj Hne. cbn in Hj |- *. rewrite Hx; [by apply Hi|]. unfold elements. apply sub_cell_elem; lia.
Qed.

Lemma NoDup_elements c h : wf_heap c h -> h_has_index h = true -> NoDup (elements h).
Proof.
  intros [W1 [W2 W3] W4 W5 W6 W7] Hhas. destruct (W7 Hhas) as [Hd _]. apply NoDup_alt. intros i j x Hi Hj.
  assert (forall k, elements h !! k = Some x -> (k < Z.to_nat (h_last h))%nat /\ cell (h_array h) (1 + Z.of_nat k) = x) as Hk.
  { intros k Hk. assert (k < Z.to_nat (h_last h))%nat as Hlt.
    { apply lookup_lt_Some in Hk. unfold elements, sub in Hk. rewrite length_take in Hk. lia. }
    split; [done|]. pose proof (sub_lookup (h_array h) (1 + Z.of_nat k) (h_last h) ltac:(lia) ltac:(lia)) as E.
    replace (Z.to_nat (1 + Z.of_nat k - 1)) with k in E by lia. unfold elements in Hk. congruence. }
  destruct (Hk i Hi) as [Li Ci], (Hk j Hj) as [Lj Cj]. rewrite <- Cj in Ci. apply Hd in Ci; lia.
Qed.

Lemma length_elements c h : wf_heap c h -> Zlen (elements h) = h_last h.
Proof. intros [W1 [W2 W3] W4 W5 W6 W7]. destruct W4 as [E|W4]; [unfold elements, sub; rewrite E; done|]. apply Zlen_sub; lia. Qed.

(** ** The invariant *)

Definition timer_ok (T : isc__timer) : Prop :=
  time_okb (idle T) = true /\ time_okb (expires T) = true /\ interval_okb (interval T) = true.

Record queue_ok (s : gmap Z isc__timer) (h : isc_heap) (n : Z) : Prop := {
  q_wf : wf_heap (sooner s) h;
  q_has : h_has_index h = true;
  q_inc : h_size_increment h = SIZE_INCREMENT;
  q_size : h_size h <= MAX_TIMERS + SIZE_INCREMENT;
  q_n : n = h_last h;
  q_count : Z.of_nat (size s) <= MAX_TIMERS;
  q_timer : forall t T, s !! t = Some T -> 0 < t /\ timer_ok T /\
    exists j, h_index h !! t = Some j /\ 0 <= j /\ (0 < j <-> t ∈ elements h);
  q_elem : forall t, t ∈ elements h -> exists T, s !! t = Some T /\ time_okb (due T) = true
}.

Definition queued (st : system) : Prop := queue_ok (store st) (mgr_heap st) (nscheduled (manager st)).

(** The timers that are scheduled *)
Definition scheduled (st : system) (t : Z) : Prop := t ∈ elements (mgr_heap st).

Section Queue.
Context {s : gmap Z isc__timer} {h : isc_heap} {n : Z} (Q : queue_ok s h n).

Lemma queue_NoDup : NoDup (elements h).
Proof. apply (NoDup_elements (sooner s)); apply Q. Qed.

Lemma queue_index t : t ∈ elements h -> exists j, 1 <= j <= h_last h /\ h_index h !! t = Some j /\ cell (h_array h) j = t.
Proof.
  intros Ht. pose proof (q_wf _ _ _ Q) as [W1 [W2 W3] W4 W5 W6 W7].
  apply elements_cell in Ht as (j & Hj & <-); [|lia|lia]. exists j. split; [done|]. split; [|done].
  apply W7; [apply Q|lia|lia].
Qed.

Lemma queue_distinct : distinct (h_array h) (h_last h).
Proof. apply (wf_indexed _ _ (q_wf _ _ _ Q)), Q. Qed.

Lemma queue_comparable l :
  (forall t, t ∈ l -> exists T, s !! t = Some T /\ time_okb (due T) = true) -> comparable s (l ++ elements h) = true.
Proof.
  intros Hl. apply forallb_forall. intros t Ht%list_elem_of_In.
  assert (exists T, s !! t = Some T /\ time_okb (due T) = true) as (T & -> & HT).
  { apply elem_of_app in Ht as [Ht|Ht]; [by apply Hl|by apply (q_elem _ _ _ Q)]. }
  time_lia.
Qed.

Lemma queue_comparable_all : comparable s (elements h) = true.
Proof. apply (queue_comparable []). intros t Ht. by apply not_elem_of_nil in Ht. Qed.

(** A timer that is not scheduled leaves room for itself. *)
Lemma queue_room t T : s !! t = Some T -> t ∉ elements h -> h_last h + 1 <= MAX_TIMERS.
Proof.
  intros E Ht. pose proof (q_count _ _ _ Q) as Hc. pose proof (length_elements _ _ (q_wf _ _ _ Q)) as Hl.
  assert (NoDup (t :: elements h)) as Hn by (by apply NoDup_cons; split; [|apply queue_NoDup]).
  assert (list_to_set (t :: elements h) ⊆ dom s) as Hsub.
  { intros x Hx. apply elem_of_list_to_set, elem_of_cons in Hx as [->|Hx]; apply elem_of_dom; [by eexists|].
    destruct (q_elem _ _ _ Q x Hx) as (U & EU & _). by eexists. }
  apply subseteq_size in Hsub. rewrite size_list_to_set, size_dom in Hsub by done. unfold Zlen in Hl. cbn in Hsub. lia.
Qed.

(** *** Changes of the store *)

Lemma queue_sooner_put t T T' x y : s !! t = Some T -> due T' = due T ->
  sooner s x y = sooner (<[t := T']> s) x y.
Proof.
  intros E Hd. unfold sooner, due_of.
  destruct (decide (x = t)) as [->|Hx], (decide (y = t)) as [->|Hy];
    rewrite ?lookup_insert_eq, ?lookup_insert_ne, ?E, ?Hd by done; done.
Qed.

Lemma size_put t T T' : s !! t = Some T -> size (<[t := T']> s) = size s.
Proof. intros E. rewrite <- !size_dom, dom_insert_lookup_L; [done|by eexists]. Qed.

(** A change of a timer that does not touch [due] *)
Lemma queue_put t T T' : s !! t = Some T -> timer_ok T' -> due T' = due T -> queue_ok (<[t := T']> s) h n.
Proof.
  intros E Hok Hd. destruct Q as [Q1 Q2 Q3 Q4 Q5 Q6 Q7 Q8]. constructor; try done.
  - apply (wf_heap_ext (sooner s)); [|done]. intros x y _ _. by apply queue_sooner_put with T.
  - by rewrite (size_put t T).
  - intros x X Hx. destruct (decide (x = t)) as [->|Hne].
    + rewrite lookup_insert_eq in Hx. injection Hx as <-. destruct (Q7 _ _ E) as (H1 & _ & H3). done.
    + rewrite lookup_insert_ne in Hx by done. by apply Q7.
  - intros x Hx. destruct (Q8 x Hx) as (X & EX & HX). destruct (decide (x = t)) as [->|Hne].
    + rewrite lookup_insert_eq. assert (X = T) as -> by congruence. exists T'. by rewrite Hd.
    + rewrite lookup_insert_ne by done. by exists X.
Qed.

Lemma queue_fresh t : s !! t = None -> t ∉ elements h.
Proof. intros E Ht. destruct (q_elem _ _ _ Q t Ht) as (T & ET & _). congruence. Qed.

(** A new timer that is not scheduled *)
Lemma queue_new t T : s !! t = None -> 0 < t -> timer_ok T -> Z.of_nat (size s) < MAX_TIMERS ->
  queue_ok (<[t := T]> s) (reindex h (set_index (h_index h) t 0)) n.
Proof.
  intros E Ht Hok Hs. pose proof (queue_fresh t E) as Hf. destruct Q as [Q1 Q2 Q3 Q4 Q5 Q6 Q7 Q8].
  unfold set_index. constructor; try done.
  - apply wf_reindex.
    + apply (wf_heap_ext (sooner s)); [|done]. intros x y Hx Hy. unfold sooner, due_of.
      rewrite !lookup_insert_ne by congruence. done.
    + intros x Hx. apply lookup_insert_ne. congruence.
  - rewrite map_size_insert_None by done. lia.
  - intros x X Hx. cbn [reindex h_index]. change (elements (reindex h _)) with (elements h). destruct (decide (x = t)) as [->|Hne].
    + rewrite lookup_insert_eq in Hx. injection Hx as <-. rewrite lookup_insert_eq. split_and!; [done|apply Hok..|].
      exists 0. split_and!; [done|lia|]. split; [lia|done].
    + rewrite lookup_insert_ne in Hx by done. rewrite lookup_insert_ne by done. by apply Q7.
  - intros x Hx. change (elements (reindex h _)) with (elements h) in Hx. destruct (Q8 x Hx) as (X & EX & HX).
    rewrite lookup_insert_ne by congruence. by exists X.
Qed.

(** A timer that is not scheduled goes away. *)
Lemma queue_del t : t ∉ elements h -> queue_ok (delete t s) (reindex h (delete t (h_index h))) n.
Proof.
  intros Hf. destruct Q as [Q1 Q2 Q3 Q4 Q5 Q6 Q7 Q8]. constructor; try done.
  - apply wf_reindex.
    + apply (wf_heap_ext (sooner s)); [|done]. intros x y Hx Hy. unfold sooner, due_of.
      rewrite !lookup_delete_ne by congruence. done.
    + intros x Hx. apply lookup_delete_ne. congruence.
  - destruct (s !! t) as [T|] eqn:E; [rewrite map_size_delete_Some by eauto; lia|by rewrite delete_id].
  - intros x X Hx. cbn [reindex h_index]. change (elements (reindex h _)) with (elements h).
    apply lookup_delete_Some in Hx as [Hne Hx]. rewrite lookup_delete_ne by done. by apply Q7.
  - intros x Hx. change (elements (reindex h _)) with (elements h) in Hx. destruct (Q8 x Hx) as (X & EX & HX).
    rewrite lookup_delete_ne by congruence. by exists X.
Qed.

End Queue.

(** ** Changes of the heap *)

(** The index of a timer, when the heap is [h'] and the indices of what is not on it are
    those of the timers that were not on [h]. *)
Lemma index_after s h n h' t T :
  queue_ok s h n -> wf_heap (sooner s) h' -> h_has_index h' = true -> s !! t = Some T ->
  (t ∉ elements h' -> h_index h' !! t = Some 0 \/ (t ∉ elements h /\ h_index h' !! t = h_index h !! t)) ->
  exists j, h_index h' !! t = Some j /\ 0 <= j /\ (0 < j <-> t ∈ elements h').
Proof.
  intros Q Hw Hhas E Hx. destruct (decide (t ∈ elements h')) as [Hin|Hn].
  - pose proof Hw as [W1 [W2 W3] W4 W5 W6 W7]. pose proof Hin as Hin'.
    apply elements_cell in Hin' as (j & Hj & <-); [|lia|lia]. exists j. split; [apply W7; [done|lia|lia]|].
    split; [lia|]. split; [done|lia].
  - destruct (Hx Hn) as [Hz|[Hn' Hz]]; [exists 0; split_and!; [done|lia|split; [lia|done]]|].
    destruct (q_timer _ _ _ Q t T E) as (_ & _ & j & Ej & Hj & Hjt). exists j. rewrite Hz. split_and!; try done.
    split; [|done]. intros H. by apply Hjt in H.
Qed.

Section Change.
Context {s : gmap Z isc__timer} {h : isc_heap} {n : Z} (Q : queue_ok s h n).
Context (h' : isc_heap) (Hsize : h_size h' <= MAX_TIMERS + SIZE_INCREMENT).

(** [t] was put on the heap, or moved, with the new time [d]. *)
Lemma queue_placed t T d : s !! t = Some T -> time_okb d = true ->
  wf_heap (sooner (<[t := set_due d T]> s)) h' -> kept h h' ->
  (forall x, x ∈ elements h' <-> x = t \/ x ∈ elements h) -> queue_ok (<[t := set_due d T]> s) h' (h_last h').
Proof.
  intros E Hd Hw (K1 & K2 & K3) Hel. pose proof Q as [Q1 Q2 Q3 Q4 Q5 Q6 Q7 Q8].
  assert (t ∈ elements h') as Hin by (apply Hel; by left). rewrite Q2 in K2. rewrite Q3 in K1.
  constructor; try done; try congruence.
  - by rewrite (size_put t T).
  - intros x X Hx. assert (exists X0, s !! x = Some X0 /\ timer_ok X) as (X0 & E0 & HX).
    { destruct (decide (x = t)) as [->|Hne].
      - rewrite lookup_insert_eq in Hx. injection Hx as <-. exists T. split; [done|]. by apply (Q7 _ _ E).
      - rewrite lookup_insert_ne in Hx by done. exists X. split; [done|]. by apply (Q7 _ _ Hx). }
    split_and!; [by apply (Q7 _ _ E0)|apply HX..|].
    pose proof Hw as [W1 [W2 W3] W4 W5 W6 W7]. destruct (decide (x ∈ elements h')) as [Hxi|Hxn].
    + pose proof Hxi as Hxi'. apply elements_cell in Hxi' as (j & Hj & <-); [|lia|lia]. exists j.
      split; [apply W7; [done|lia|lia]|]. split; [lia|]. split; [done|lia].
    + destruct (Q7 _ _ E0) as (_ & _ & j & Ej & Hj & Hjt). exists j. rewrite K3 by done. split_and!; try done.
      split; [intros Hp%Hjt; apply Hel; by right|done].
  - intros x Hx. destruct (decide (x = t)) as [->|Hne].
    + exists (set_due d T). by rewrite lookup_insert_eq.
    + apply Hel in Hx as [?|Hx]; [done|]. rewrite lookup_insert_ne by done. by apply Q8.
Qed.

(** [t] was taken off the heap. *)
Lemma queue_removed t : wf_heap (sooner s) h' -> h_has_index h' = true -> h_size_increment h' = SIZE_INCREMENT ->
  (forall x, x ∈ elements h' <-> x ∈ elements h /\ x <> t) ->
  (forall x, x ∉ elements h' -> x = t /\ h_index h' !! x = Some 0 \/ x <> t /\ h_index h' !! x = h_index h !! x) ->
  queue_ok s h' (h_last h').
Proof.
  intros Hw Hhas Hinc Hel Hidx. pose proof Q as [Q1 Q2 Q3 Q4 Q5 Q6 Q7 Q8]. constructor; try done.
  - intros x X Hx. destruct (Q7 _ _ Hx) as (H1 & H2 & _). split_and!; [done|apply H2..|].
    apply (index_after s h n h' x X); try done. intros Hn. destruct (Hidx x Hn) as [[_ ?]|[Hne ?]]; [by left|].
    right. split; [|done]. intros Hin. apply Hn, Hel. done.
  - intros x Hx. apply Q8. by apply Hel in Hx as [? _].
Qed.
End Change.

(** The elements of a heap from which [t] was deleted *)
Lemma deleted_elements s h n t l : queue_ok s h n -> t :: l ≡ₚ elements h ->
  forall x, x ∈ l <-> x ∈ elements h /\ x <> t.
Proof.
  intros Q Hp x. pose proof (queue_NoDup Q) as Hn. rewrite <- Hp in Hn |- *. apply NoDup_cons in Hn as [Hn _].
  rewrite elem_of_cons. split; [intros Hx; split; [by right|congruence]|]. intros [[?|?] ?]; done.
Qed.

(** What [place] and the deletions leave as it is *)
Definition same_control (st st' : system) : Prop :=
  done (manager st') = done (manager st) /\ timers (manager st') = timers (manager st) /\
  mgr_due (manager st') = mgr_due (manager st) /\ dying st' = dying st /\ freed st' = freed st.

Definition same_frame (st st' : system) : Prop := same_control st st' /\ thread st' = thread st.

Lemma mem_ok_size st mem a : mem_ok st mem = true -> mem = Some a ->
  Zlen a = h_size (mgr_heap st) + h_size_increment (mgr_heap st).
Proof. intros H ->. cbn in H. by apply Z.eqb_eq. Qed.

Lemma index_lookup st t j : h_index (mgr_heap st) !! t = Some j -> index st t = j.
Proof. intros E. unfold index. by rewrite E. Qed.

Section Place.
Context (st : system) (t : Z) (T : isc__timer) (d : isc_time_t) (mem : option (list Z)).
Context (Q : queued st) (E : store st !! t = Some T) (Hd : time_okb d = true).

Let s' := <[t := set_due d T]> (store st).

Lemma moved_due x : due_of s' x = if decide (x = t) then d else due_of (store st) x.
Proof. unfold s', due_of. case_decide as Hx; [subst x; by rewrite lookup_insert_eq|by rewrite lookup_insert_ne]. Qed.

Lemma old_due : due_of (store st) t = due T.
Proof. unfold due_of. by rewrite E. Qed.

Lemma moved_comparable : comparable s' (t :: elements (mgr_heap st)) = true.
Proof.
  apply forallb_forall. intros x Hx%list_elem_of_In. unfold s'. destruct (decide (x = t)) as [->|Hne].
  - rewrite lookup_insert_eq. cbn. time_lia.
  - rewrite lookup_insert_ne by done. apply elem_of_cons in Hx as [?|Hx]; [done|].
    destruct (q_elem _ _ _ Q x Hx) as (X & -> & HX). time_lia.
Qed.

Lemma moved_sooner x y : x <> t -> y <> t -> sooner s' x y = sooner (store st) x y.
Proof. intros Hx Hy. unfold sooner. by rewrite !moved_due, !decide_False by done. Qed.

(** The state in which the heap has become [h'] *)
Lemma moved_queue h' : scheduled st t ->
  wf_heap (sooner s') h' /\ elements h' ≡ₚ elements (mgr_heap st) /\ h_last h' = h_last (mgr_heap st) /\
    kept (mgr_heap st) h' /\ h_size h' = h_size (mgr_heap st) ->
  let st' := set_heap h' (put t (set_due d T) st) in
  queued st' /\ same_frame st st' /\ store st' = s' /\ (forall x, scheduled st' x <-> scheduled st x).
Proof.
  intros Ht (Hw & Hp & Hl & Hk & Hz). split_and!; try done.
  - unfold queued. cbn. rewrite (q_n _ _ _ Q), <- Hl. apply (queue_placed Q); try done; [rewrite Hz; apply Q|].
    intros x. rewrite Hp. split; [by right|]. by intros [->|?].
  - intros x. unfold scheduled. cbn. by rewrite Hp.
Qed.

(** A timer that is already on the heap *)
Lemma place_moved : scheduled st t ->
  exists st', place st t d mem = Done (ISC_R_SUCCESS, st') /\ queued st' /\ same_frame st st' /\
    store st' = s' /\ (forall x, scheduled st' x <-> scheduled st x).
Proof.
  intros Ht. destruct (queue_index Q t Ht) as (j & Hj & Ej & Cj).
  destruct (q_elem _ _ _ Q t Ht) as (T' & E' & HT). assert (T' = T) as -> by congruence. clear E'.
  unfold place, get. rewrite E. cbn [obind]. rewrite (index_lookup st t j Ej), (proj2 (Z.ltb_lt 0 j)) by lia.
  rewrite compare_Done by done. cbn [obind]. rewrite (index_lookup (put t (set_due d T) st) t j Ej).
  assert (comparable s' (elements (mgr_heap st)) = true) as Hcmp
    by (pose proof moved_comparable as [_ H]%andb_true_iff; exact H).
  assert (only (sooner (store st)) (sooner s') (cell (h_array (mgr_heap st)) j)) as Honly
    by (rewrite Cj; intros x y; apply moved_sooner).
  pose proof (time_order_spec d (due T) Hd HT) as Hsp. pose proof (time_order_spec (due T) d HT Hd) as Hsp'.
  unfold on_heap. cbn [app]. change (store (put t (set_due d T) st)) with s'.
  change (mgr_heap (put t (set_due d T) st)) with (mgr_heap st). rewrite Hcmp. cbn [require obind].
  destruct (Z.sgn (ns d - ns (due T)) =? -1) eqn:E1; [|destruct (Z.sgn (ns d - ns (due T)) =? 1) eqn:E2]; bool_prop.
  - destruct (increased_spec (sooner (store st)) (sooner s') (mgr_heap st) j (q_wf _ _ _ Q) Hj (queue_distinct Q) Honly)
      as (h' & Eh & H); [|rewrite Eh; eexists; split; [reflexivity|by apply moved_queue]].
    rewrite Cj. intros y. unfold sooner. rewrite !moved_due, old_due, (decide_True (P := t = t)) by done. case_decide as Hy; rewrite !time_order_ge; [lia|].
    assert ((time_order d (due T) <? 0) = true) as Hlt%time_order_lt by lia. lia.
  - destruct (decreased_spec (sooner (store st)) (sooner s') (mgr_heap st) j (q_wf _ _ _ Q) Hj (queue_distinct Q) Honly)
      as (h' & Eh & H); [|rewrite Eh; eexists; split; [reflexivity|by apply moved_queue]].
    rewrite Cj. intros y. unfold sooner. rewrite !moved_due, old_due, (decide_True (P := t = t)) by done. case_decide as Hy; rewrite !time_order_ge; [lia|].
    assert ((time_order (due T) d <? 0) = true) as Hlt%time_order_lt by lia. lia.
  - assert (d = due T) as Heq by (apply ns_inj; try done; lia).
    assert (s' = store st) as Hs by (unfold s'; rewrite Heq; apply insert_id; rewrite E; by destruct T).
    eexists. split; [reflexivity|]. split_and!; try done. unfold queued. by change (queue_ok s' (mgr_heap st) (nscheduled (manager st))); rewrite Hs.
Qed.

(** A timer that is not on the heap *)
Lemma place_inserted : ~ scheduled st t -> mem_ok st mem = true ->
  exists r st', place st t d mem = Done (r, st') /\ queued st' /\ same_frame st st' /\ store st' = s' /\
    ((r = ISC_R_SUCCESS /\ forall x, scheduled st' x <-> x = t \/ scheduled st x) \/
     (r = ISC_R_NOMEMORY /\ mgr_heap st' = mgr_heap st /\ h_size (mgr_heap st) <= h_last (mgr_heap st) + 1)).
Proof.
  intros Ht Hm. destruct (q_timer _ _ _ Q t T E) as (_ & Hok & j & Ej & Hj & Hjt).
  unfold place, get. rewrite E. cbn [obind]. rewrite (index_lookup st t j Ej).
  rewrite (proj2 (Z.ltb_ge 0 j)) by (destruct (decide (0 < j)) as [Hp%Hjt|]; [done|lia]).
  unfold on_heap. change (store (put t (set_due d T) st)) with s'.
  change (mgr_heap (put t (set_due d T) st)) with (mgr_heap st). cbn [app]. rewrite moved_comparable. cbn [require obind].
  pose proof (queue_room Q t T E Ht) as Hroom. pose proof (q_size _ _ _ Q) as Hsz. pose proof (q_inc _ _ _ Q) as Hinc.
  assert (wf_heap (sooner s') (mgr_heap st)) as Hw.
  { apply (wf_heap_ext (sooner (store st))); [|apply Q]. intros x y Hx Hy. symmetry. apply moved_sooner; by intros ->. }
  destruct (insert_spec (sooner s') (mgr_heap st) t mem Hw) as (r & h' & Eh & Hw' & Hr);
    [rewrite Hinc; unfold SIZE_INCREMENT, MAX_TIMERS in *; lia|done|by intros a; apply mem_ok_size|].
  rewrite Eh. cbn [obind]. destruct Hr as [(-> & Hp & Hl & Hk & Hz)|(-> & -> & Hmem & Hfull)].
  - rewrite bool_decide_eq_true_2 by done. cbn [negb]. do 2 eexists. split; [reflexivity|].
    assert (forall x, x ∈ elements h' <-> x = t \/ x ∈ elements (mgr_heap st)) as Hel
      by (intros x; rewrite Hp; apply elem_of_cons).
    split_and!; try done; [|by left].
    unfold queued. cbn. rewrite (q_n _ _ _ Q).
    pose proof (wf_last _ _ (q_wf _ _ _ Q)). rewrite u32_small by (unfold MAX_TIMERS in *; lia). rewrite <- Hl.
    apply (queue_placed Q); try done. rewrite Hinc in Hz. lia.
  - rewrite bool_decide_eq_false_2 by done. cbn [negb]. rewrite bool_decide_eq_true_2 by done. cbn [require obind].
    do 2 eexists. split; [reflexivity|]. split_and!; try done; [|by right].
    pose proof Q as [Q1 Q2 Q3 Q4 Q5 Q6 Q7 Q8]. constructor; try done.
    + change (Z.of_nat (size s') <= MAX_TIMERS). unfold s'. by rewrite (size_put t T).
    + intros x X Hx. cbn in Hx. destruct (decide (x = t)) as [->|Hne].
      * rewrite lookup_insert_eq in Hx. injection Hx as <-. by apply (Q7 _ _ E).
      * rewrite lookup_insert_ne in Hx by done. by apply Q7.
    + intros x Hx. cbn. rewrite lookup_insert_ne by (intros <-; by apply Ht). by apply Q8.
Qed.

Lemma place_spec : mem_ok st mem = true ->
  exists r st', place st t d mem = Done (r, st') /\ queued st' /\ same_frame st st' /\ store st' = s' /\
    ((r = ISC_R_SUCCESS /\ forall x, scheduled st' x <-> x = t \/ scheduled st x) \/
     (r = ISC_R_NOMEMORY /\ mgr_heap st' = mgr_heap st /\ ~ scheduled st t /\
      h_size (mgr_heap st) <= h_last (mgr_heap st) + 1)).
Proof.
  intros Hm. destruct (decide (t ∈ elements (mgr_heap st))) as [Ht|Ht].
  - destruct (place_moved Ht) as (st' & -> & H1 & H2 & H3 & H4). do 2 eexists. split; [reflexivity|].
    split_and!; try done. left. split; [done|]. intros x. rewrite H4. split; [by right|]. by intros [->|?].
  - destruct (place_inserted Ht Hm) as (r & st' & -> & H1 & H2 & H3 & [H4|(H4 & H5 & H6)]); do 2 eexists;
      (split; [reflexivity|]); split_and!; try done; [by left|by right].
Qed.
End Place.

(** ** Taking a timer off the heap *)

Lemma SIGNAL_thread st : thread (SIGNAL st) = match thread st with R_exit => R_exit | _ => R_ready end.
Proof. unfold SIGNAL. by destruct (thread st) eqn:E. Qed.

Lemma queued_SIGNAL st : queued st -> queued (SIGNAL st).
Proof. unfold SIGNAL. by destruct (thread st). Qed.

Lemma scheduled_SIGNAL st t : scheduled (SIGNAL st) t <-> scheduled st t.
Proof. unfold SIGNAL. by destruct (thread st). Qed.

Lemma control_SIGNAL st : store (SIGNAL st) = store st /\ mgr_heap (SIGNAL st) = mgr_heap st /\ same_control st (SIGNAL st).
Proof. unfold SIGNAL. by destruct (thread st). Qed.

Section Remove.
Context (st : system) (Q : queued st).

Lemma count_down : nscheduled (manager st) <> 0 -> u32 (nscheduled (manager st) - 1) = h_last (mgr_heap st) - 1.
Proof.
  intros Hn. pose proof (q_n _ _ _ Q) as En. pose proof (wf_last _ _ (q_wf _ _ _ Q)). destruct (wf_size _ _ (q_wf _ _ _ Q)) as [_ Hs].
  pose proof (wf_room _ _ (q_wf _ _ _ Q)). rewrite u32_small; lia.
Qed.

(** The heap of [deschedule] once the index of [t] is cleared *)
Lemma descheduled_queue t h' : scheduled st t ->
  wf_heap (sooner (store st)) h' /\ h_last h' = h_last (mgr_heap st) - 1 /\ t :: elements h' ≡ₚ elements (mgr_heap st) /\
    kept (mgr_heap st) h' /\ h_size h' = h_size (mgr_heap st) ->
  queue_ok (store st) (reindex h' (set_index (h_index h') t 0)) (h_last h').
Proof.
  intros Ht (Hw & Hl & Hp & (K1 & K2 & K3) & Hz). pose proof (deleted_elements _ _ _ _ _ Q Hp) as Hel.
  set (h2 := reindex h' _). change (h_last h') with (h_last h2). apply (queue_removed Q h2) with (t := t); try done.
  - change (h_size h' <= MAX_TIMERS + SIZE_INCREMENT). rewrite Hz. apply (q_size _ _ _ Q).
  - apply wf_reindex; [done|]. intros x Hx. apply lookup_insert_ne. intros <-. by apply Hel in Hx as [_ ?].
  - change (h_has_index h' = true). rewrite K2. apply (q_has _ _ _ Q).
  - change (h_size_increment h' = SIZE_INCREMENT). rewrite K1. apply (q_inc _ _ _ Q).
  - intros x Hx. change (elements h2) with (elements h') in Hx. cbn [h2 reindex h_index]. unfold set_index.
    destruct (decide (x = t)) as [->|Hne]; [left; by rewrite lookup_insert_eq|right].
    rewrite lookup_insert_ne by done. split; [done|]. by apply K3.
Qed.

Lemma deschedule_spec t T : store st !! t = Some T ->
  exists st', deschedule st t = Done st' /\ queued st' /\ store st' = store st /\ same_control st st' /\
    (thread st' = thread st \/ thread st' = thread (SIGNAL st)) /\
    (forall x, scheduled st' x <-> scheduled st x /\ x <> t).
Proof.
  intros E. destruct (q_timer _ _ _ Q t T E) as (_ & _ & j & Ej & Hj & Hjt). unfold deschedule.
  rewrite (index_lookup st t j Ej). destruct (0 <? j) eqn:E0; bool_prop.
  2:{ eexists. split; [reflexivity|]. split_and!; try done; [by left|]. intros x. split; [|by intros [? _]].
      intros Hx. split; [done|]. intros ->. apply Hjt in Hx. lia. }
  assert (scheduled st t) as Ht by (by apply Hjt). destruct (queue_index Q t Ht) as (j' & Hj' & Ej' & Cj).
  assert (j' = j) as -> by congruence. pose proof (q_n _ _ _ Q) as En.
  unfold on_heap. cbn [app]. rewrite (queue_comparable_all Q). cbn [require obind].
  destruct (delete_spec (sooner (store st)) (mgr_heap st) j (q_wf _ _ _ Q) Hj') as (h' & -> & Hd).
  cbn [obind]. rewrite Cj in Hd. rewrite require_true by (cbn; lia). cbn [obind].
  set (st1 := set_manager _ _). assert (queued st1) as Q1.
  { unfold queued. cbn. rewrite count_down by lia. rewrite <- (proj1 (proj2 Hd)). by apply descheduled_queue. }
  assert (forall x, scheduled st1 x <-> scheduled st x /\ x <> t) as Hs
    by (apply (deleted_elements _ _ _ _ (elements h') Q), Hd).
  destruct (j =? 1); eexists; (split; [reflexivity|]); [|split_and!; try done; by left].
  destruct (control_SIGNAL st1) as (C1 & _ & C2). split_and!; try done.
  - by apply queued_SIGNAL.
  - right. by rewrite !SIGNAL_thread.
  - intros x. rewrite scheduled_SIGNAL. apply Hs.
Qed.

(** The first timer, taken off by [dispatch] *)
Lemma pop_spec t : cell (h_array (mgr_heap st)) 1 = t -> 0 < nscheduled (manager st) ->
  exists h', on_heap (put_index t 0 st) [] (fun c h => isc_heap_delete c h 1) = Done h' /\
    let st' := set_heap h' (put_index t 0 st) in
    let st' := set_manager (set_nscheduled (u32 (nscheduled (manager st') - 1)) (manager st')) st' in
    queued st' /\ same_frame st st' /\ store st' = store st /\
    (forall x, scheduled st' x <-> scheduled st x /\ x <> t) /\
    h_size (mgr_heap st') = h_size (mgr_heap st) /\ h_last (mgr_heap st') = h_last (mgr_heap st) - 1.
Proof.
  intros Ht Hn. pose proof (q_n _ _ _ Q) as En. unfold on_heap. cbn [app].
  change (elements (mgr_heap (put_index t 0 st))) with (elements (mgr_heap st)).
  change (store (put_index t 0 st)) with (store st). rewrite (queue_comparable_all Q). cbn [require obind].
  set (h1 := mgr_heap (put_index t 0 st)).
  destruct (delete_reindexed_spec (sooner (store st)) h1 1 (h_index (mgr_heap st))) as (h' & -> & Hw & Hl & Hp & (K1 & K2 & K3) & Hz).
  - change (reindex h1 (h_index (mgr_heap st))) with (reindex (mgr_heap st) (h_index (mgr_heap st))).
    destruct (mgr_heap st) eqn:Eh. unfold reindex. cbn. rewrite <- Eh. apply Q.
  - cbn. fold (mgr_heap st). lia.
  - intros x Hx. change (cell (h_array h1) 1) with (cell (h_array (mgr_heap st)) 1) in Hx. rewrite Ht in Hx.
    cbn [h1 put_index set_heap set_manager set_mgr_heap manager mgr_heap heap reindex h_index]. unfold set_index. by apply lookup_insert_ne.
  - exists h'. split; [done|]. change (cell (h_array h1) 1) with (cell (h_array (mgr_heap st)) 1) in Hp. rewrite Ht in Hp.
    change (elements h1) with (elements (mgr_heap st)) in Hp. pose proof (deleted_elements _ _ _ _ _ Q Hp) as Hel.
    split_and!; try done. unfold queued. cbn. rewrite count_down by lia.
    change (h_last (mgr_heap st)) with (h_last h1). rewrite <- Hl. apply (queue_removed Q h') with (t := t); try done.
    + rewrite Hz. apply (q_size _ _ _ Q).
    + rewrite K2. apply (q_has _ _ _ Q).
    + rewrite K1. apply (q_inc _ _ _ Q).
    + intros x Hx. rewrite K3 by done.
      cbn [h1 put_index set_heap set_manager set_mgr_heap manager mgr_heap heap reindex h_index]. unfold set_index.
      destruct (decide (x = t)) as [->|Hne]; [left; by rewrite lookup_insert_eq|right; by rewrite lookup_insert_ne].
Qed.
End Remove.
