(* ===== verification/TimerSystem.v ===== *)
(** * The invariant of the timer manager

    [inv] holds in every state of the system, and every operation of [timer.c] keeps it. *)

From S2P Require Import Prelude Heap Time Timer TimerQueue.

(** ** The time at which a timer is due *)

(** The earlier of two times, where the epoch stands for none *)
Definition first_of (a b : Z) : Z := if a =? 0 then b else if b =? 0 then a else Z.min a b.

Lemma new_due_spec T now : timer_ok T -> time_okb now = true ->
  exists r d, new_due T now = Done (r, d) /\
    (if bool_decide (type T = isc_timertype_once)
     then r = ISC_R_SUCCESS /\ time_okb d = true /\ ns d = first_of (ns (idle T)) (ns (expires T))
     else if UINT_MAX <? seconds now + i_seconds (interval T) then r = ISC_R_RANGE
     else r = ISC_R_SUCCESS /\ time_okb d = true /\
          let sum := ns now + ins (interval T) - (if carries now (interval T) then 2 ^ 32 * NS_PER_S else 0) in
          ns d = if bool_decide (type T = isc_timertype_limited) then Z.min (ns (expires T)) sum else sum).
Proof.
  intros (Hi & He & Hv) Hn. unfold new_due. destruct (bool_decide (type T = isc_timertype_once)); cbn [negb].
  - rewrite !isepoch_Done by done. cbn [obind]. unfold first_of. destruct (ns (idle T) =? 0); [by do 2 eexists|].
    destruct (ns (expires T) =? 0); [by do 2 eexists|]. rewrite compare_Done by done. cbn [obind].
    do 2 eexists. split; [reflexivity|]. split; [done|]. case_if; split; try done; lia.
  - destruct (add_spec now (interval T) isc_time_epoch Hn Hv) as (r & d & -> & Hr). cbn [obind].
    destruct (UINT_MAX <? _).
    + destruct Hr as [-> ->]. rewrite bool_decide_eq_false_2 by done. by do 2 eexists.
    + destruct Hr as (-> & Hd & Hs). rewrite bool_decide_eq_true_2 by done. cbn [negb].
      destruct (bool_decide (type T = isc_timertype_limited)).
      * rewrite compare_Done by done. cbn [obind]. do 2 eexists. split; [reflexivity|]. split; [done|].
        case_if; (split; [done|]); cbv zeta; lia.
      * do 2 eexists. split; [reflexivity|]. by split_and!.
Qed.

Lemma new_due_ok T now : timer_ok T -> time_okb now = true ->
  exists r d, new_due T now = Done (r, d) /\ (r = ISC_R_SUCCESS -> time_okb d = true).
Proof.
  intros HT Hn. destruct (new_due_spec T now HT Hn) as (r & d & -> & Hr). exists r, d. split; [done|]. intros ->.
  destruct (bool_decide (type T = isc_timertype_once)); [apply Hr|]. destruct (UINT_MAX <? _); [done|apply Hr].
Qed.

(** ** [schedule] *)

(** The timer [t] was scheduled for [d]; unless the thread was woken, it is not the first. *)
Record rescheduled (st : system) (t : Z) (T : isc__timer) (d : isc_time_t) (signal_ok : bool) (st' : system) : Prop := {
  r_store : store st' = <[t := set_due d T]> (store st);
  r_scheduled : forall x, scheduled st' x <-> x = t \/ scheduled st x;
  r_thread : thread st' = thread st /\ (signal_ok = true -> index st' t <> 1) \/
             signal_ok = true /\ thread st' = thread (SIGNAL st)
}.

(** Nothing was scheduled; at most [due] has changed, when there was no memory. *)
Record unscheduled (st : system) (t : Z) (T : isc__timer) (st' : system) : Prop := {
  u_store : store st' = store st \/ exists d, store st' = <[t := set_due d T]> (store st) /\ ~ scheduled st t;
  u_heap : mgr_heap st' = mgr_heap st;
  u_thread : thread st' = thread st
}.

Lemma wakeup_spec st t now signal_ok timedwait : time_okb (mgr_due (manager st)) = true -> time_okb now = true ->
  exists st', wakeup st t now signal_ok timedwait = Done st' /\
    store st' = store st /\ manager st' = manager st /\ dying st' = dying st /\ freed st' = freed st /\
    (thread st' = thread st /\ (signal_ok = true -> index st' t <> 1) \/
     signal_ok = true /\ thread st' = thread (SIGNAL st)).
Proof.
  intros Hm Hn. assert (forall s, s = st \/ s = SIGNAL st ->
    store s = store st /\ manager s = manager st /\ dying s = dying st /\ freed s = freed st /\
    thread (SIGNAL s) = thread (SIGNAL st) /\ index s t = index st t) as Hs.
  { intros s [->| ->]; unfold SIGNAL, index, mgr_heap; by destruct (thread st) eqn:E; cbn; rewrite ?E. }
  assert (forall s b, s = st /\ b = signal_ok \/ s = SIGNAL st /\ b = false /\ signal_ok = true ->
    exists st', Done (if (index s t =? 1) && b then SIGNAL s else s) = Done st' /\
      store st' = store st /\ manager st' = manager st /\ dying st' = dying st /\ freed st' = freed st /\
      (thread st' = thread st /\ (signal_ok = true -> index st' t <> 1) \/ signal_ok = true /\ thread st' = thread (SIGNAL st))) as Hend.
  { intros s b [[-> ->]|(-> & -> & ->)].
    - eexists. split; [reflexivity|]. destruct (index st t =? 1) eqn:Ei, signal_ok; cbn [andb].
      + destruct (Hs (SIGNAL st)) as (? & ? & ? & ? & _); [by right|]. split_and!; try done. by right.
      + split_and!; try done. by left.
      + bool_prop. split_and!; try done. left. split; [done|]. intros _. done.
      + split_and!; try done. by left.
    - rewrite andb_false_r. eexists. split; [reflexivity|].
      destruct (Hs (SIGNAL st)) as (? & ? & ? & ? & _); [by right|]. split_and!; try done. by right. }
  unfold wakeup. destruct (signal_ok && timedwait) eqn:E; [|cbn [obind]; apply Hend; by left].
  apply andb_true_iff in E as [-> _]. cbn [isc_interval_set require obind].
  change (15 <? NS_PER_S) with true. cbn [require obind].
  assert (isc_interval_set 15 0 = Done (mkInterval 15 0)) as -> by reflexivity. cbn [obind].
  destruct (add_spec (mgr_due (manager st)) (mkInterval 15 0) isc_time_epoch Hm eq_refl) as (r & l & -> & Hr). cbn [obind].
  destruct (UINT_MAX <? _); [destruct Hr as [-> _]; rewrite bool_decide_eq_false_2 by done; cbn [obind]; apply Hend; by left|].
  destruct Hr as (-> & Hl & _). rewrite bool_decide_eq_true_2, compare_Done by done. cbn [obind].
  case_if; apply Hend; [by right|by left].
Qed.

Lemma schedule_spec st t T now signal_ok mem :
  queued st -> time_okb (mgr_due (manager st)) = true -> store st !! t = Some T -> type T <> isc_timertype_inactive ->
  time_okb now = true -> mem_ok st mem = true ->
  exists r st', schedule st t now signal_ok mem = Done (r, st') /\ queued st' /\ same_control st st' /\
    (r = ISC_R_SUCCESS /\ (exists d, new_due T now = Done (ISC_R_SUCCESS, d) /\ time_okb d = true /\
       rescheduled st t T d signal_ok st') \/
     r <> ISC_R_SUCCESS /\ unscheduled st t T st' /\
       ((exists d, new_due T now = Done (r, d)) \/ r = ISC_R_NOMEMORY /\ h_size (mgr_heap st) <= h_last (mgr_heap st) + 1)).
Proof.
  intros Q Hm E Hty Hn Hmem. unfold schedule, get. rewrite E. cbn [obind].
  rewrite bool_decide_eq_false_2 by done. cbn [negb require obind].
  set (tw := if 0 <? nscheduled (manager st) then _ else _). assert (exists b, tw = Done b) as [b ->].
  { unfold tw, isc_time_seconds. destruct (0 <? _); [|by eexists]. rewrite require_true by time_lia. by eexists. }
  cbn [obind]. destruct (q_timer _ _ _ Q t T E) as (_ & HT & _).
  destruct (new_due_ok T now HT Hn) as (r & d & En & Hd). rewrite En. cbn [obind].
  destruct (bool_decide_reflect (r = ISC_R_SUCCESS)) as [->|Hr]; cbn [negb].
  2:{ exists r, st. split; [done|]. split; [done|]. split; [done|]. right. split; [done|].
      split; [by split; [left| |]|]. left. by exists d. }
  destruct (place_spec st t T d mem Q E (Hd eq_refl) Hmem) as (r & st1 & -> & Q1 & [F1 F2] & Hs & Hr). cbn [obind].
  destruct Hr as [[-> Hsch]|(-> & Hh & Hns & Hfull)].
  - rewrite bool_decide_eq_true_2 by done. cbn [negb]. pose proof F1 as (_ & _ & Hdue & _ & _).
    destruct (wakeup_spec st1 t now signal_ok b) as (st2 & -> & W1 & W2 & W3 & W4 & W5); [by rewrite Hdue|done|].
    cbn [obind]. do 2 eexists. split; [reflexivity|]. unfold queued, same_control, mgr_heap in *. rewrite W1, W2, W3, W4.
    split; [done|]. split; [done|]. left. split; [done|]. exists d. split_and!; [done|by apply Hd|]. split.
    + by rewrite W1.
    + intros x. unfold scheduled, mgr_heap. rewrite W2. apply Hsch.
    + rewrite SIGNAL_thread, F2 in W5. by rewrite SIGNAL_thread.
  - rewrite bool_decide_eq_false_2 by done. cbn [negb]. do 2 eexists. split; [reflexivity|]. split; [done|]. split; [done|].
    right. split; [done|]. split; [|by right]. split; [right; by exists d|done|done].
Qed.

(** ** The invariant *)

(** The timers are those of the list [L], and the timers without references those of [D]. *)
Record base (L D : list Z) (st : system) : Prop := {
  b_queued : queued st;
  b_timers : NoDup L /\ forall t, t ∈ L <-> is_Some (store st !! t);
  b_dying : NoDup D /\ forall t, t ∈ D <-> exists T, store st !! t = Some T /\ references T = 0;
  b_refs : forall t T, store st !! t = Some T -> 0 <= references T <= UINT_MAX;
  b_due : time_okb (mgr_due (manager st)) = true;
  b_done : done (manager st) = true -> store st = ∅ /\ (thread st = R_ready \/ thread st = R_exit);
  b_exit : thread st = R_exit -> done (manager st) = true
}.

Definition active (st : system) : Prop :=
  forall t T, scheduled st t -> store st !! t = Some T -> type T <> isc_timertype_inactive.

(** The thread sleeps no longer than the first timer allows. *)
Definition calm (st : system) : Prop :=
  match thread st with
  | R_waituntil d => forall t T, scheduled st t -> store st !! t = Some T -> ns d <= ns (due T)
  | R_wait => forall t, ~ scheduled st t
  | R_ready | R_exit => True
  end.

Record inv (st : system) : Prop := {
  i_base : base (timers (manager st)) (dying st) st;
  i_active : active st;
  i_calm : calm st
}.

(** *** Changes of the time at which timers are due *)

Definition same_timers (s s' : gmap Z isc__timer) : Prop :=
  forall t, match s !! t, s' !! t with
            | Some T, Some T' => T' = set_due (due T') T
            | None, None => True
            | _, _ => False
            end.

Lemma same_timers_refl s : same_timers s s.
Proof. intros t. destruct (s !! t) as [[]|]; done. Qed.

Lemma same_timers_due s t T d : s !! t = Some T -> same_timers s (<[t := set_due d T]> s).
Proof.
  intros E x. destruct (decide (x = t)) as [->|Hne]; [rewrite E, lookup_insert_eq; done|].
  rewrite lookup_insert_ne by done. apply same_timers_refl.
Qed.

Lemma same_timers_trans s1 s2 s3 : same_timers s1 s2 -> same_timers s2 s3 -> same_timers s1 s3.
Proof.
  intros H1 H2 t. specialize (H1 t). specialize (H2 t).
  destruct (s1 !! t), (s2 !! t), (s3 !! t); try done. rewrite H1 in H2. by rewrite H2.
Qed.

Lemma same_timers_lookup s s' t T' : same_timers s s' -> s' !! t = Some T' ->
  exists T, s !! t = Some T /\ T' = set_due (due T') T.
Proof. intros H E. specialize (H t). rewrite E in H. destruct (s !! t) as [T|]; [by exists T|done]. Qed.

Lemma same_timers_lookup_l s s' t T : same_timers s s' -> s !! t = Some T ->
  exists T', s' !! t = Some T' /\ T' = set_due (due T') T.
Proof. intros H E. specialize (H t). rewrite E in H. destruct (s' !! t) as [T'|]; [by exists T'|done]. Qed.

Lemma base_transfer L D st st' :
  base L D st -> queued st' -> done (manager st') = done (manager st) -> time_okb (mgr_due (manager st')) = true ->
  same_timers (store st) (store st') -> thread st' = thread st \/ thread st' = thread (SIGNAL st) -> base L D st'.
Proof.
  intros [B1 B3 B4 B5 B6 B7 B8] Q Hd Hm Hs Ht. constructor; try done.
  - destruct B3 as [N3 B3]. split; [done|]. intros t. rewrite B3. specialize (Hs t).
    destruct (store st !! t), (store st' !! t); try done.
  - destruct B4 as [N4 B4]. split; [done|]. intros t. rewrite B4. split; intros (T & E & Hr).
    + destruct (same_timers_lookup_l _ _ _ _ Hs E) as (T' & E' & HT). exists T'. split; [done|]. by rewrite HT.
    + destruct (same_timers_lookup _ _ _ _ Hs E) as (T' & E' & ET). exists T'. split; [done|]. by rewrite ET in Hr.
  - intros t T' E. destruct (same_timers_lookup _ _ _ _ Hs E) as (T & ET & HT). rewrite HT. by apply (B5 t T).
  - rewrite Hd. intros Hdn. destruct (B7 Hdn) as [He Hth]. split.
    + apply map_empty. intros t. specialize (Hs t). rewrite He, lookup_empty in Hs. by destruct (store st' !! t).
    + rewrite SIGNAL_thread in Ht. destruct Hth as [Hth|Hth]; rewrite Hth in Ht; destruct Ht as [->| ->]; auto.
  - rewrite Hd. intros Hx. apply B8. rewrite SIGNAL_thread in Ht. destruct Ht as [<-|Ht]; [done|].
    rewrite Hx in Ht. by destruct (thread st).
Qed.

(** *** Quiet changes *)

Lemma calm_mono st st' : calm st -> thread st' = thread st \/ thread st' = thread (SIGNAL st) ->
  (forall t, scheduled st' t -> scheduled st t) ->
  (forall t T', scheduled st' t -> store st' !! t = Some T' -> exists T, store st !! t = Some T /\ due T = due T') ->
  calm st'.
Proof.
  intros Hc Ht Hs Hd. unfold calm in *. rewrite SIGNAL_thread in Ht.
  destruct Ht as [->| ->]; [|by destruct (thread st)]. destruct (thread st) as [|d| |]; try done.
  - intros t T' Hx E. destruct (Hd t T' Hx E) as (T & ET & <-). apply (Hc t T); [by apply Hs|done].
  - intros t Hx. exact (Hc t (Hs t Hx)).
Qed.

(** A timer other than [t] is first, when the index of [t] is not 1. *)
Lemma other_first st t : queued st -> scheduled st t -> index st t <> 1 ->
  exists x, x <> t /\ scheduled st x /\ sooner (store st) t x = false.
Proof.
  intros Q Ht Hi. destruct (queue_index Q t Ht) as (j & Hj & Ej & Cj). rewrite (index_lookup _ _ _ Ej) in Hi.
  pose proof (q_wf _ _ _ Q) as [W1 [W2 W3] W4 W5 W6 W7]. exists (cell (h_array (mgr_heap st)) 1). split_and!.
  - intros E. rewrite <- E in Cj. apply (queue_distinct Q) in Cj; lia.
  - apply sub_cell_elem; lia.
  - rewrite <- Cj at 1. by apply (first_min _ _ (h_last (mgr_heap st))).
Qed.

Lemma calm_rescheduled st t T d st' :
  queued st' -> calm st -> rescheduled st t T d true st' -> calm st'.
Proof.
  intros Q' Hc [Hs Hsch [[Ht Hi]|[_ Ht]]].
  2:{ unfold calm. rewrite Ht, SIGNAL_thread. by destruct (thread st). }
  assert (scheduled st' t) as Hst by (apply Hsch; by left).
  destruct (other_first st' t Q' Hst (Hi eq_refl)) as (x & Hne & Hx & Hmin).
  assert (scheduled st x) as Hx0 by (apply Hsch in Hx as [?|?]; done).
  unfold calm in *. rewrite Ht. destruct (thread st) as [|w| |]; try done; [|by destruct (Hc x)].
  destruct (q_elem _ _ _ Q' x Hx) as (X & EX & HX). destruct (q_elem _ _ _ Q' t Hst) as (T1 & E1 & H1).
  assert (ns w <= ns (due X)) as Hw by (apply (Hc x X Hx0); by rewrite Hs, lookup_insert_ne in EX by done).
  rewrite (sooner_ns _ _ _ _ _ E1 EX H1 HX) in Hmin. intros y Y Hy EY. destruct (decide (y = t)) as [->|Hyt].
  - assert (Y = T1) as -> by congruence. lia.
  - apply Hsch in Hy as [?|Hy]; [done|]. apply (Hc y Y Hy). by rewrite Hs, lookup_insert_ne in EY by done.
Qed.

(** ** Timers that let [dispatch] end *)

(** A timer of this kind, when it is due, is not due for ever. *)
Definition lively (T : isc__timer) : Prop :=
  match type T with
  | isc_timertype_ticker => 0 < ins (interval T)
  | isc_timertype_once => 0 < ns (idle T) \/ 0 < ns (expires T)
  | isc_timertype_limited => 0 < ns (expires T) /\ 0 < ins (interval T)
  | isc_timertype_inactive => True
  end.

Definition all_lively (s : gmap Z isc__timer) : Prop := forall t T, s !! t = Some T -> lively T.

Lemma lively_same s s' : same_timers s s' -> all_lively s -> all_lively s'.
Proof.
  intros Hs Hl t T' E. destruct (same_timers_lookup _ _ _ _ Hs E) as (T & ET & HT). rewrite HT. by apply (Hl t T).
Qed.

Lemma lively_insert s t T : lively T -> all_lively s -> all_lively (<[t := T]> s).
Proof. intros HT Hl. by apply map_Forall_insert_2. Qed.

Lemma lively_delete s t : all_lively s -> all_lively (delete t s).
Proof. intros Hl. by apply map_Forall_delete. Qed.
