(* ===== verification/TimerSteps.v ===== *)
(** * Every call of the interface keeps the invariant *)

From S2P Require Import Prelude Heap Time Timer TimerQueue TimerSystem.

(** ** Observations *)

Definition agrees (m : gmap Z (Z * bool)) (s : gmap Z isc__timer) : Prop :=
  forall t, fst <$> m !! t = task <$> s !! t.

Definition shown (s : gmap Z isc__timer) (o : list obs) (s' : gmap Z isc__timer) : Prop :=
  forall m, agrees m s -> exists m', scan m o = Some m' /\ agrees m' s'.

(** A step returns, and what it leaves is in order; a modest step leaves the timers such that
    [dispatch] ends. *)
Definition step_good (st : system) (l : label) : Prop :=
  exists st' o, step st l = Done (st', o) /\ inv st' /\ shown (store st) o (store st') /\
    (modest st l = true -> all_lively (store st) -> all_lively (store st')).

Lemma scan_app m a b : scan m (a ++ b) = scan m a ≫= fun m' => scan m' b.
Proof.
  revert m. induction a as [|o a IH]; intros m; [done|]. cbn. destruct o; try apply IH; try (case_bool_decide; [apply IH|done]).
  destruct (m !! t) as [[? []]|]; [apply IH|done|done].
Qed.

Lemma shown_app s1 s2 s3 a b : shown s1 a s2 -> shown s2 b s3 -> shown s1 (a ++ b) s3.
Proof.
  intros H1 H2 m Hm. destruct (H1 m Hm) as (m1 & E1 & A1). destruct (H2 m1 A1) as (m2 & E2 & A2).
  exists m2. by rewrite scan_app, E1.
Qed.

Lemma shown_nil s s' : (forall t, task <$> s' !! t = task <$> s !! t) -> shown s [] s'.
Proof. intros H m Hm. exists m. split; [done|]. intros t. by rewrite H. Qed.

Lemma same_timers_task s s' t : same_timers s s' -> task <$> s' !! t = task <$> s !! t.
Proof.
  intros H. specialize (H t). destruct (s !! t), (s' !! t); try done. cbn. by rewrite H.
Qed.

Lemma shown_same s s' : same_timers s s' -> shown s [] s'.
Proof. intros H. apply shown_nil. intros t. by apply same_timers_task. Qed.

Lemma put_task (s : gmap Z isc__timer) t T T' x : s !! t = Some T -> task T' = task T -> task <$> <[t := T']> s !! x = task <$> s !! x.
Proof.
  intros E Ht. destruct (decide (x = t)) as [->|Hne]; [by rewrite lookup_insert_eq, E; cbn; rewrite Ht|by rewrite lookup_insert_ne].
Qed.

(** ** Changes of one timer *)

Lemma base_put L D D' st t T T' :
  base L D st -> store st !! t = Some T -> timer_ok T' -> due T' = due T ->
  0 <= references T' <= UINT_MAX ->
  NoDup D' -> (forall x, x ∈ D' <-> exists X, <[t := T']> (store st) !! x = Some X /\ references X = 0) ->
  base L D' (put t T' st).
Proof.
  intros [B1 B3 B4 B5 B6 B7 B8] E Hok Hd Hr HD1 HD2.
  assert (forall (P : isc__timer -> Prop), P T' -> (forall x X, store st !! x = Some X -> P X) ->
    forall x X, <[t := T']> (store st) !! x = Some X -> P X) as Hall.
  { intros P H1 H2 x X Hx. destruct (decide (x = t)) as [->|Hne].
    - rewrite lookup_insert_eq in Hx. by injection Hx as <-.
    - rewrite lookup_insert_ne in Hx by done. by apply (H2 x). }
  constructor; try done.
  - unfold queued. cbn. by apply (queue_put B1 t T T').
  - destruct B3 as [N3 B3]. split; [done|]. intros x. rewrite B3. cbn. destruct (decide (x = t)) as [->|Hne].
    + by rewrite lookup_insert_eq, E.
    + by rewrite lookup_insert_ne.
  - by apply (Hall (fun X => 0 <= references X <= UINT_MAX)).
  - intros Hdn. destruct (B7 Hdn) as [He _]. by rewrite He, lookup_empty in E.
Qed.

Lemma zero_refs_put L D st t T T' : base L D st -> store st !! t = Some T -> (references T' = 0 <-> references T = 0) ->
  NoDup D /\ forall x, x ∈ D <-> exists X, <[t := T']> (store st) !! x = Some X /\ references X = 0.
Proof.
  intros B E Hr. destruct (b_dying _ _ _ B) as [N HD]. split; [done|]. intros x. rewrite HD.
  destruct (decide (x = t)) as [->|Hne]; [rewrite lookup_insert_eq, E|by rewrite lookup_insert_ne].
  split; intros (X & [= <-] & HX); eexists; (split; [reflexivity|]); by apply Hr.
Qed.

Lemma calm_put st t T T' : calm st -> store st !! t = Some T -> due T' = due T -> calm (put t T' st).
Proof.
  intros Hc E Hd. apply (calm_mono st); [done|by left|done|]. intros x X _ Hx. cbn in Hx.
  destruct (decide (x = t)) as [->|Hne]; [rewrite lookup_insert_eq in Hx; injection Hx as <-; by exists T|].
  rewrite lookup_insert_ne in Hx by done. by exists X.
Qed.

(** A change that leaves the type alone *)
Lemma inv_put st t T T' D' :
  inv st -> store st !! t = Some T -> timer_ok T' -> due T' = due T -> type T' = type T ->
  0 <= references T' <= UINT_MAX ->
  NoDup D' -> (forall x, x ∈ D' <-> exists X, <[t := T']> (store st) !! x = Some X /\ references X = 0) ->
  inv (set_dying D' (put t T' st)).
Proof.
  intros [B A C] E Hok Hd Hty Hr HD1 HD2. constructor.
  - cbn. destruct (base_put _ _ D' st t T T' B E Hok Hd Hr HD1 HD2). by constructor.
  - intros x X Hx HX. cbn in HX. destruct (decide (x = t)) as [->|Hne].
    + rewrite lookup_insert_eq in HX. injection HX as <-. rewrite Hty. by apply (A t T).
    + rewrite lookup_insert_ne in HX by done. by apply (A x X).
  - by apply (calm_put st t T T') in C.
Qed.

Lemma held_lookup st t : held st t = true -> exists T, store st !! t = Some T /\ 0 < references T.
Proof. unfold held. rewrite andb_true_iff. intros [_ H]. destruct (store st !! t) as [T|]; [exists T; split; [done|lia]|done]. Qed.

Lemma step_unfreed st l : guard st l = true -> freed st = false.
Proof. unfold guard. rewrite andb_true_iff. intros [H _]. by apply negb_true_iff. Qed.

Lemma timer_attach_good st t : inv st -> guard st (C_attach t) = true -> step_good st (C_attach t).
Proof.
  intros Hi Hg. pose proof (step_unfreed _ _ Hg) as Hf. unfold guard in Hg. rewrite Hf in Hg. cbn in Hg.
  apply andb_true_iff in Hg as [Hh Hg]. destruct (held_lookup st t Hh) as (T & E & Hr). rewrite E in Hg.
  unfold step_good, step. rewrite Hf. unfold isc__timer_attach, get. rewrite E. cbn [obind].
  rewrite u32_small by time_lia. set (T' := set_references _ T). do 2 eexists. split; [reflexivity|].
  pose proof (i_base _ Hi) as B. destruct (q_timer _ _ _ (b_queued _ _ _ B) t T E) as (_ & Hok & _).
  destruct (zero_refs_put _ _ _ t T T' B E) as [N HD]; [cbn; lia|]. split_and!.
  - apply (inv_put st t T T' (dying st)); try done. cbn. time_lia.
  - apply shown_nil. intros x. by apply (put_task _ _ T).
  - intros _ Hl. apply lively_insert; [by apply (Hl t T)|done].
Qed.

Lemma timer_detach_good st t : inv st -> guard st (C_detach t) = true -> step_good st (C_detach t).
Proof.
  intros Hi Hg. pose proof (step_unfreed _ _ Hg) as Hf. unfold guard in Hg. rewrite Hf in Hg. cbn in Hg.
  destruct (held_lookup st t Hg) as (T & E & Hr).
  unfold step_good, step. rewrite Hf. unfold isc__timer_detach, get. rewrite E. cbn [obind].
  rewrite require_true by lia. cbn [obind]. set (T' := set_references _ T). do 2 eexists. split; [reflexivity|].
  pose proof (i_base _ Hi) as B. destruct (q_timer _ _ _ (b_queued _ _ _ B) t T E) as (_ & Hok & _).
  pose proof (b_refs _ _ _ B t T E) as Hb. pose proof (b_dying _ _ _ B) as [N HD].
  destruct (references T' =? 0) eqn:Ez; cbn in Ez; bool_prop.
  - split_and!; [|apply shown_nil; intros x; by apply (put_task _ _ T)|intros _ Hl; apply lively_insert; [by apply (Hl t T)|done] ].
    apply (inv_put st t T T'); try done; [cbn; lia| |].
    + apply NoDup_app. split_and!; [done| |apply NoDup_singleton]. intros x Hx ->%list_elem_of_singleton.
      apply HD in Hx as (X & EX & HX). assert (X = T) as -> by congruence. lia.
    + intros x. rewrite elem_of_app, list_elem_of_singleton, HD. destruct (decide (x = t)) as [->|Hne].
      * rewrite lookup_insert_eq. split; [intros _; by exists T'|by right].
      * rewrite lookup_insert_ne by done. split; [by intros [?|?]|by left].
  - destruct (zero_refs_put _ _ _ t T T' B E) as [N' HD']; [cbn; lia|]. split_and!.
    + apply (inv_put st t T T' (dying st)); try done. cbn. lia.
    + apply shown_nil. intros x. by apply (put_task _ _ T).
    + intros _ Hl. apply lively_insert; [by apply (Hl t T)|done].
Qed.

(** ** The clock *)

Lemma TIME_NOW_ok clock now : TIME_NOW clock = Done now -> time_okb now = true.
Proof.
  unfold TIME_NOW. destruct clock as [[s u]|]; [|done].
  destruct (time_now_spec s u isc_time_epoch) as (r & t & -> & Hr). cbn [obind].
  case_bool_decide as Hs; [|done]. cbn [require obind]. intros [= <-]. subst r.
  destruct (clock_ok _); [apply Hr|by destruct Hr].
Qed.

Lemma clock_says_spec clock p : clock_says clock p = true ->
  exists now, TIME_NOW clock = Done now /\ time_okb now = true /\ 0 < ns now /\ p now = true.
Proof.
  unfold clock_says. destruct (TIME_NOW clock) as [now| | |] eqn:E; try done.
  rewrite andb_true_iff. intros [H1 H2]. exists now. split_and!; try done; [by apply (TIME_NOW_ok clock)|lia].
Qed.

(** The same clock, asked for more *)
Lemma clock_says_more clock p now : TIME_NOW clock = Done now -> clock_says clock p = true -> 0 < ns now /\ p now = true.
Proof. unfold clock_says. intros ->. rewrite andb_true_iff. intros [H1 H2]. split; [lia|done]. Qed.

Lemma timer_touch_good st t clock : inv st -> guard st (C_touch t clock) = true -> step_good st (C_touch t clock).
Proof.
  intros Hi Hg. pose proof (step_unfreed _ _ Hg) as Hf. unfold guard in Hg. rewrite Hf in Hg. cbn in Hg.
  apply andb_true_iff in Hg as [Hh Hg]. destruct (held_lookup st t Hh) as (T & E & Hr).
  destruct (clock_says_spec _ _ Hg) as (now & En & Hn & _ & _).
  pose proof (i_base _ Hi) as B. destruct (q_timer _ _ _ (b_queued _ _ _ B) t T E) as (_ & Hok & _).
  pose proof Hok as (Ho1 & Ho2 & Ho3).
  unfold step_good, step. rewrite Hf. unfold isc__timer_touch, get. rewrite E. cbn [obind]. rewrite En. cbn [obind].
  destruct (add_spec now (interval T) (idle T) Hn Ho3) as (r & d & -> & Hd). cbn [obind].
  set (T' := set_idle d T). do 2 eexists. split; [reflexivity|].
  destruct (zero_refs_put _ _ _ t T T' B E) as [N HD]; [done|].
  assert (time_okb d = true /\ (0 < ns now -> carries now (interval T) = false -> 0 < ns (idle T) -> 0 < ns d)) as [Hdo Hdp].
  { destruct (UINT_MAX <? _); [by destruct Hd as [_ ->]|]. destruct Hd as (_ & Hd & Hs). split; [done|]. intros Hp Hc _.
    rewrite Hc, Z.sub_0_r in Hs. time_lia. }
  split_and!; [|apply shown_nil; intros x; by apply (put_task _ _ T)|].
  - apply (inv_put st t T T' (dying st)); try done. by apply (b_refs _ _ _ B t T).
  - intros Hm Hl. unfold modest in Hm. rewrite E in Hm. destruct (clock_says_more _ _ now En Hm) as [Hp Hc%negb_true_iff].
    apply lively_insert; [|done]. specialize (Hl t T E). unfold lively in *. cbn. destruct (type T); try done. destruct Hl; auto.
Qed.

(** ** Scheduling *)

Lemma same_timers_at s s' t T : s !! t = Some T -> s' !! t = Some T \/ (exists d, s' !! t = Some (set_due d T)) ->
  (forall x, x <> t -> s' !! x = s !! x) -> same_timers s s'.
Proof.
  intros E Ht Ho x. destruct (decide (x = t)) as [->|Hne]; [|rewrite Ho by done; apply same_timers_refl].
  rewrite E. destruct Ht as [->|[d ->]]; [by destruct T|done].
Qed.

Section Scheduling.
Context (L D : list Z) (st : system) (t : Z) (T : isc__timer) (now : isc_time_t) (mem : option (list Z)).
Context (B : base L D st) (E : store st !! t = Some T) (C : calm st).
Context (A : forall x X, x <> t -> scheduled st x -> store st !! x = Some X -> type X <> isc_timertype_inactive).

(** A call of [schedule] by a client *)
Lemma schedule_keeps : type T <> isc_timertype_inactive -> time_okb now = true -> mem_ok st mem = true ->
  exists r st', schedule st t now true mem = Done (r, st') /\ base L D st' /\ active st' /\ calm st' /\
    same_control st st' /\ same_timers (store st) (store st') /\ (forall x, x <> t -> store st' !! x = store st !! x) /\
    (r <> ISC_R_SUCCESS -> mgr_heap st' = mgr_heap st /\ thread st' = thread st).
Proof.
  intros Hty Hn Hm. pose proof (b_queued _ _ _ B) as Q. pose proof (b_due _ _ _ B) as Hdue.
  destruct (schedule_spec st t T now true mem Q Hdue E Hty Hn Hm) as (r & st' & -> & Q' & F & Hr).
  exists r, st'. split; [done|]. pose proof F as (F1 & F2 & F3 & F4 & F5).
  destruct Hr as [(-> & d & _ & Hd & R)|(Hne & U & _)].
  - pose proof R as [R1 R2 R3].
    assert (forall x, x <> t -> store st' !! x = store st !! x) as Ho by (intros x Hx; by rewrite R1, lookup_insert_ne).
    assert (same_timers (store st) (store st')) as Hs by (rewrite R1; by apply same_timers_due). split_and!; try done.
    + apply (base_transfer L D st); try done; [by rewrite F3|]. destruct R3 as [[? _]|[_ ?]]; [by left|by right].
    + intros x X Hx HX. destruct (decide (x = t)) as [->|Hxt].
      * rewrite R1, lookup_insert_eq in HX. by injection HX as <-.
      * rewrite Ho in HX by done. apply R2 in Hx as [?|Hx]; [done|]. by apply (A x X).
    + by apply (calm_rescheduled st t T d).
  - pose proof U as [U1 U2 U3].
    assert (forall x, x <> t -> store st' !! x = store st !! x) as Ho.
    { intros x Hx. destruct U1 as [->|(d & -> & _)]; [done|by rewrite lookup_insert_ne]. }
    assert (same_timers (store st) (store st')) as Hs.
    { apply (same_timers_at _ _ t T); try done. destruct U1 as [->|(d & -> & _)]; [by left|right; exists d; by rewrite lookup_insert_eq]. }
    split_and!; try done.
    + apply (base_transfer L D st); try done; [by rewrite F3|by left].
    + intros x X Hx HX. unfold scheduled in Hx. rewrite U2 in Hx. destruct (decide (x = t)) as [->|Hxt].
      * destruct (same_timers_lookup _ _ _ _ Hs HX) as (T0 & E0 & ->). assert (T0 = T) as -> by congruence. done.
      * rewrite Ho in HX by done. by apply (A x X).
    + apply (calm_mono st); [done|by left|intros x; unfold scheduled; by rewrite U2|]. intros x X Hx HX.
      unfold scheduled in Hx. rewrite U2 in Hx. destruct U1 as [U1|(d & U1 & Hns)]; rewrite U1 in HX; [by exists X|].
      rewrite lookup_insert_ne in HX by (intros ->; by apply Hns). by exists X.
Qed.

(** A call of [deschedule] *)
Lemma deschedule_keeps :
  exists st', deschedule st t = Done st' /\ base L D st' /\ active st' /\ calm st' /\
    same_control st st' /\ store st' = store st /\ (forall x, scheduled st' x <-> scheduled st x /\ x <> t).
Proof.
  destruct (deschedule_spec st (b_queued _ _ _ B) t T E) as (st' & -> & Q' & Hs & F & Ht & Hsch).
  exists st'. split; [done|]. pose proof F as (F1 & F2 & F3 & F4 & F5). split_and!; try done.
  - apply (base_transfer L D st); try done; [rewrite F3; apply (b_due _ _ _ B)|rewrite Hs; apply same_timers_refl].
  - intros x X Hx HX. apply Hsch in Hx as [Hx Hne]. rewrite Hs in HX. by apply (A x X).
  - apply (calm_mono st); [done|done|by intros x [? _]%Hsch|]. intros x X _ HX. rewrite Hs in HX. by exists X.
Qed.
End Scheduling.

(** ** [isc__timer_reset] and [isc__timer_create] *)

Lemma check_arguments_ok ty e i : arguments_ok ty e i = true -> check_arguments ty e i = Done tt.
Proof.
  unfold arguments_ok. intros [[He Hi]%andb_true_iff Hty]%andb_true_iff. unfold check_arguments.
  rewrite !isepoch_Done, !iszero_Done by done. cbn [obind].
  destruct ty; cbn [negb]; repeat (rewrite bool_decide_eq_true_2 by done || rewrite bool_decide_eq_false_2 by done); cbn [negb obind].
  - destruct (ns e =? 0) eqn:E1; cbn [obind]; [|done]. rewrite require_true; [done|lia].
  - destruct (ns e =? 0) eqn:E1; cbn [obind]; [|done]. rewrite require_true; [done|lia].
  - rewrite (proj2 (Z.eqb_neq (ns e) 0)), (proj2 (Z.eqb_neq (ins i) 0)) by lia. done.
  - done.
Qed.

Lemma current_time_ok ty clock p :
  bool_decide (ty = isc_timertype_inactive) || clock_says clock p = true ->
  exists now, current_time ty clock = Done now /\ time_okb now = true /\
    (ty <> isc_timertype_inactive -> TIME_NOW clock = Done now).
Proof.
  intros H. unfold current_time. destruct (bool_decide_reflect (ty = isc_timertype_inactive)) as [->|Hty]; cbn [negb].
  - exists isc_time_settoepoch. by split_and!.
  - destruct (clock_says_spec _ _ H) as (now & E & H1 & H2 & H3). exists now. by rewrite E.
Qed.

Lemma new_idle_spec ty now i old : time_okb now = true -> interval_okb i = true -> time_okb old = true ->
  exists r d, new_idle ty now i old = Done (r, d) /\ time_okb d = true /\
    (if bool_decide (ty = isc_timertype_once) && (0 <? ins i) && (UINT_MAX <? seconds now + i_seconds i)
     then r = ISC_R_RANGE
     else r = ISC_R_SUCCESS /\ (ty = isc_timertype_once -> carries now i = false -> 0 < ns now -> 0 < ins i -> 0 < ns d)).
Proof.
  intros Hn Hi Ho. unfold new_idle. destruct (bool_decide_reflect (ty = isc_timertype_once)) as [->|Hty].
  2:{ do 2 eexists. split; [reflexivity|]. by split_and!. }
  assert (0 <= ins i) as Hpos by time_lia. rewrite iszero_Done by done. cbn [obind andb].
  destruct (ins i =? 0) eqn:Ez; bool_prop; cbn [negb].
  - do 2 eexists. split; [reflexivity|]. rewrite Ez. split; [done|]. change (0 <? 0) with false. cbn [andb]. split; [done|]. lia.
  - rewrite (proj2 (Z.ltb_lt 0 (ins i))) by lia. cbn [andb].
    destruct (add_spec now i old Hn Hi) as (r & d & -> & Hr). exists r, d. split; [done|].
    destruct (UINT_MAX <? _); [by destruct Hr as [-> ->]|]. destruct Hr as (-> & Hd & Hs). split_and!; [done|done|].
    intros _ Hc Hp Hq. rewrite Hc in Hs. lia.
Qed.

Lemma arguments_timer ty e i idl refs tsk act a d : arguments_ok ty e i = true -> time_okb idl = true ->
  timer_ok (mkTimer refs idl ty e i tsk act a d).
Proof. unfold arguments_ok. by intros [[He Hi]%andb_true_iff _]%andb_true_iff Ho. Qed.

Lemma arguments_lively ty e i idl refs tsk act a d :
  arguments_ok ty e i = true -> negb (bool_decide (ty = isc_timertype_ticker)) || (0 <? ins i) = true ->
  (ty = isc_timertype_once -> 0 < ins i -> 0 < ns idl) -> lively (mkTimer refs idl ty e i tsk act a d).
Proof.
  unfold arguments_ok. intros [_ Hty]%andb_true_iff Htick Hidl. unfold lively. cbn. destruct ty; bool_prop; try done; try lia.
  - rewrite bool_decide_eq_true_2 in Htick by done. cbn in Htick. lia.
  - apply orb_true_iff in Hty as [Hty|Hty]; bool_prop; auto.
Qed.

Lemma shown_purge (s s' : gmap Z isc__timer) t T (purge : bool) : s !! t = Some T ->
  (forall x, task <$> s' !! x = task <$> s !! x) -> shown s (if purge then [Purge (task T) t] else []) s'.
Proof.
  intros E H. destruct purge; [|by apply shown_nil]. intros m Hm. cbn.
  rewrite bool_decide_eq_true_2 by (by rewrite Hm, E). eexists. split; [reflexivity|]. intros x.
  destruct (decide (x = t)) as [->|Hne]; [by rewrite lookup_insert_eq, H, E|by rewrite lookup_insert_ne, H].
Qed.

Lemma timer_reset_good st t ty e i purge clock mem :
  inv st -> guard st (C_reset t ty e i purge clock mem) = true -> step_good st (C_reset t ty e i purge clock mem).
Proof.
  intros Hi Hg. pose proof (step_unfreed _ _ Hg) as Hf. unfold guard in Hg. rewrite Hf in Hg. cbn [negb andb] in Hg.
  apply andb_true_iff in Hg as [[[Hh Harg]%andb_true_iff Hclk]%andb_true_iff Hmem].
  destruct (held_lookup st t Hh) as (T & E & Hr). unfold step_good, step. rewrite Hf. unfold isc__timer_reset, get.
  rewrite E. cbn [obind]. set (e1 := default isc_time_epoch e) in *. set (i1 := default isc_interval_zero i) in *.
  rewrite (check_arguments_ok ty e1 i1 Harg). cbn [obind].
  destruct (current_time_ok _ _ _ Hclk) as (now & -> & Hn & Hnow). cbn [obind].
  destruct Hi as [B A C]. destruct (q_timer _ _ _ (b_queued _ _ _ B) t T E) as (_ & (Ho & _ & _) & _).
  assert (interval_okb i1 = true) as Hiv by (unfold arguments_ok in Harg; by apply andb_true_iff in Harg as [[_ ?]%andb_true_iff _]).
  destruct (new_idle_spec ty now i1 (idle T) Hn Hiv Ho) as (r & idl & -> & Hidl & Hr1). cbn [obind].
  set (T' := mkTimer _ idl ty e1 i1 _ _ _ _).
  pose proof (arguments_timer ty e1 i1 idl (references T) (task T) (action T) (arg T) (due T) Harg Hidl : timer_ok T') as Hok.
  set (m := C_reset t ty e i purge clock mem).
  assert (modest st m = true -> r = ISC_R_SUCCESS /\ lively T') as Hmod.
  { intros [Htick Hm]%andb_true_iff. fold i1 in Htick, Hm.
    assert (ty = isc_timertype_once -> r = ISC_R_SUCCESS /\ (0 < ins i1 -> 0 < ns idl)) as Honce.
    { intros ->. cbn [bool_decide orb] in Hm. rewrite bool_decide_eq_false_2 in Hm by done. cbn [orb] in Hm.
      destruct (clock_says_more _ _ now (Hnow ltac:(done)) Hm) as [Hp [Hc%negb_true_iff Hrange]%andb_true_iff].
      cbn in Hrange. apply Z.leb_le, Z.ltb_ge in Hrange. rewrite Hrange, andb_false_r in Hr1. destruct Hr1 as [-> Hr1].
      split; [done|]. intros Hq. by apply Hr1. }
    split; [|apply arguments_lively; [done|done|intros Hty; by apply Honce] ].
    destruct (bool_decide_reflect (ty = isc_timertype_once)) as [Hty|Hty]; [by apply Honce|by destruct Hr1]. }
  destruct (zero_refs_put _ _ st t T T' B E) as [N HD]; [done|].
  pose proof (base_put _ _ (dying st) st t T T' B E Hok eq_refl (b_refs _ _ _ B t T E) N HD) as B1.
  pose proof (calm_put st t T T' C E eq_refl) as C1.
  assert (store (put t T' st) !! t = Some T') as E1 by apply lookup_insert_eq.
  assert (forall x X, x <> t -> scheduled (put t T' st) x -> store (put t T' st) !! x = Some X -> type X <> isc_timertype_inactive) as A1.
  { intros x X Hne Hx HX. cbn in HX. rewrite lookup_insert_ne in HX by done. by apply (A x X). }
  assert (forall st', same_timers (store (put t T' st)) (store st') ->
    shown (store st) (if purge then [Purge (task T) t] else []) (store st')) as Hsh.
  { intros st' Hs. apply shown_purge; [done|]. intros x. rewrite (same_timers_task _ _ x Hs). by apply (put_task _ _ T). }
  assert (forall st', same_timers (store (put t T' st)) (store st') ->
    modest st m = true -> all_lively (store st) -> all_lively (store st')) as Hlv.
  { intros st' Hs Hm Hl. apply (lively_same _ _ Hs), lively_insert; [by apply Hmod|done]. }
  destruct (bool_decide_reflect (r = ISC_R_SUCCESS)) as [->|Hfail].
  2:{ do 2 eexists. split; [reflexivity|]. split_and!; [|by apply Hsh, same_timers_refl|intros Hm; by destruct (Hmod Hm)].
      constructor; [done| |done]. intros x X Hx HX. destruct (decide (x = t)) as [->|Hne]; [|by apply (A1 x X)].
      rewrite E1 in HX. injection HX as <-. intros Hty. change (ty = isc_timertype_inactive) in Hty. subst ty.
      rewrite bool_decide_eq_false_2 in Hr1 by done. by destruct Hr1. }
  destruct (bool_decide_reflect (ty = isc_timertype_inactive)) as [Hty|Hty].
  - destruct (deschedule_keeps _ _ _ t T' B1 E1 C1 A1) as (st' & -> & B2 & A2 & C2 & (F1 & F2 & F3 & F4 & F5) & Hs & _).
    cbn [obind]. do 2 eexists. split; [reflexivity|]. split_and!; [split; [by rewrite F2, F4|done|done]|apply Hsh|apply Hlv];
      rewrite Hs; apply same_timers_refl.
  - destruct (schedule_keeps _ _ _ t T' now mem B1 E1 C1 A1 Hty Hn Hmem)
      as (r & st' & -> & B2 & A2 & C2 & (F1 & F2 & F3 & F4 & F5) & Hs & _).
    cbn [obind]. do 2 eexists. split; [reflexivity|]. split_and!; [split; [by rewrite F2, F4|done|done]|by apply Hsh|by apply Hlv].
Qed.

Section Creation.
Context (st : system) (t : Z) (T : isc__timer) (Hi : inv st).
Context (Hd : done (manager st) = false) (Ef : store st !! t = None) (Hpos : 0 < t) (Hok : timer_ok T)
  (Hr : references T = 1) (Hcount : Zlen (timers (manager st)) < MAX_TIMERS).

Let st1 := put_index t 0 (put t T st).

Lemma timers_count : Z.of_nat (size (store st)) = Zlen (timers (manager st)).
Proof.
  destruct (b_timers _ _ _ (i_base _ Hi)) as [N HT]. rewrite <- size_dom. unfold Zlen. f_equal.
  rewrite <- (size_list_to_set (C := gset Z)) by done. f_equal. apply set_eq. intros x.
  by rewrite elem_of_list_to_set, elem_of_dom, HT.
Qed.

Lemma new_lookup : store st1 !! t = Some T.
Proof. apply lookup_insert_eq. Qed.

Lemma new_other x : x <> t -> store st1 !! x = store st !! x.
Proof. intros Hne. by apply lookup_insert_ne. Qed.

Lemma new_unscheduled : ~ scheduled st t.
Proof. apply (queue_fresh (b_queued _ _ _ (i_base _ Hi)) t Ef). Qed.

Lemma created_base : base (timers (manager st) ++ [t]) (dying st) st1.
Proof.
  pose proof (i_base _ Hi) as [B1 [N3 B3] [N4 B4] B5 B6 B7 B8]. constructor; try done.
  - apply (queue_new B1); try done. rewrite timers_count. done.
  - split.
    + apply NoDup_app. split_and!; [done| |apply NoDup_singleton]. intros x Hx ->%list_elem_of_singleton.
      apply B3 in Hx. rewrite Ef in Hx. by destruct Hx.
    + intros x. rewrite elem_of_app, list_elem_of_singleton, B3. destruct (decide (x = t)) as [->|Hne].
      * rewrite new_lookup. split; [intros _; by eexists|by right].
      * rewrite new_other by done. split; [by intros [?|?]|by left].
  - split; [done|]. intros x. rewrite B4. destruct (decide (x = t)) as [->|Hne]; [|by rewrite new_other].
    rewrite new_lookup, Ef. split; [by intros (? & ? & _)|]. intros (X & [= <-] & HX). lia.
  - intros x X HX. destruct (decide (x = t)) as [->|Hne].
    + rewrite new_lookup in HX. injection HX as <-. rewrite Hr. unfold UINT_MAX. lia.
    + rewrite new_other in HX by done. by apply (B5 x).
  - intros Hx. change (done (manager st) = true) in Hx. congruence.
Qed.

Lemma created_active x X : x <> t -> scheduled st1 x -> store st1 !! x = Some X -> type X <> isc_timertype_inactive.
Proof. intros Hne Hx HX. rewrite new_other in HX by done. by apply (i_active _ Hi x). Qed.

Lemma created_calm : calm st1.
Proof.
  apply (calm_mono st); [apply Hi|by left|done|]. intros x X Hx HX. exists X. split; [|done].
  rewrite new_other in HX; [done|]. intros ->. by apply new_unscheduled.
Qed.

(** The timer is linked. *)
Lemma linked_inv st2 : base (timers (manager st) ++ [t]) (dying st) st2 -> active st2 -> calm st2 -> same_control st1 st2 ->
  same_timers (store st1) (store st2) ->
  let st' := set_manager (set_timers (timers (manager st2) ++ [t]) (manager st2)) st2 in
  inv st' /\ shown (store st) [Attach (task T); Created (task T) t] (store st').
Proof.
  intros [B1 B3 B4 B5 B6 B7 B8] A C (F1 & F2 & F3 & F4 & F5) Hs. split.
  - constructor; [|done|done]. cbn [set_manager dying timers set_timers manager]. rewrite F2, F4. constructor; done.
  - intros m Hm. cbn [scan set_manager store]. rewrite bool_decide_eq_true_2.
    + eexists. split; [reflexivity|]. intros x. rewrite (same_timers_task _ _ x Hs). destruct (decide (x = t)) as [->|Hne].
      * by rewrite lookup_insert_eq, new_lookup.
      * rewrite new_other by done. by rewrite lookup_insert_ne.
    + specialize (Hm t). rewrite Ef in Hm. by destruct (m !! t).
Qed.

(** The timer could not be scheduled and is freed again. *)
Lemma unmade_inv st2 : queued st2 -> same_control st1 st2 -> (forall x, x <> t -> store st2 !! x = store st1 !! x) ->
  mgr_heap st2 = mgr_heap st1 -> thread st2 = thread st1 ->
  let st3 := set_heap (reindex (mgr_heap st2) (delete t (h_index (mgr_heap st2)))) st2 in
  let st' := set_store (delete t (store st3)) st3 in
  inv st' /\ store st' = store st.
Proof.
  intros Q2 (F1 & F2 & F3 & F4 & F5) Ho Hh Ht st3 st'.
  assert (store st' = store st) as Hs.
  { apply map_eq. intros x. cbn. destruct (decide (x = t)) as [->|Hne]; [by rewrite lookup_delete_eq|].
    by rewrite lookup_delete_ne, Ho, new_other by done. }
  assert (forall x, scheduled st' x <-> scheduled st x) as Hsch.
  { intros x. change (scheduled st' x) with (scheduled st2 x). unfold scheduled. by rewrite Hh. }
  split; [|done]. constructor.
  - change (timers (manager st')) with (timers (manager st2)). change (dying st') with (dying st2). rewrite F2, F4.
    apply (base_transfer _ _ st); [apply Hi| |done| |rewrite Hs; apply same_timers_refl|by left].
    + apply (queue_del Q2). intros Hx. apply new_unscheduled. by apply Hsch.
    + change (time_okb (mgr_due (manager st2)) = true). rewrite F3. apply (b_due _ _ _ (i_base _ Hi)).
  - intros x X Hx HX. rewrite Hs in HX. by apply (i_active _ Hi x), HX; apply Hsch.
  - apply (calm_mono st); [apply Hi|by left|by intros x ?%Hsch|]. intros x X _ HX. rewrite Hs in HX. by exists X.
Qed.
End Creation.

Lemma shown_attached s k : shown s [Attach k; Detach k] s.
Proof. intros m Hm. by exists m. Qed.

Lemma timer_create_good st ty e i tsk act a clock ans :
  inv st -> guard st (C_create ty e i tsk act a clock ans) = true -> step_good st (C_create ty e i tsk act a clock ans).
Proof.
  intros Hi Hg. pose proof (step_unfreed _ _ Hg) as Hf. unfold guard in Hg. rewrite Hf in Hg. cbn [negb andb] in Hg.
  apply andb_true_iff in Hg as [[[[[[[Hd Htsk]%andb_true_iff Hact]%andb_true_iff Harg]%andb_true_iff Hclk]%andb_true_iff Hnew]%andb_true_iff
    Hmem]%andb_true_iff Hcount].
  unfold step_good, step. rewrite Hf. unfold isc__timer_create. rewrite Htsk, Hact. cbn [require obind].
  set (e1 := default isc_time_epoch e) in *. set (i1 := default isc_interval_zero i) in *.
  rewrite (check_arguments_ok ty e1 i1 Harg). cbn [obind].
  destruct (current_time_ok _ _ _ Hclk) as (now & -> & Hn & Hnow). cbn [obind].
  assert (forall r o, shown (store st) o (store st) ->
    exists st' o', (let* (_, s, o1) := Done (r : isc_result_t, st, o) in Done (s, o1)) = Done (st', o') /\ inv st' /\ shown (store st) o' (store st') /\
      (modest st (C_create ty e i tsk act a clock ans) = true -> all_lively (store st) -> all_lively (store st'))) as Hstay.
  { intros r o Ho. by do 2 eexists. }
  destruct (new_timer ans) as [t|]; [|by apply Hstay, shown_same, same_timers_refl].
  apply andb_true_iff in Hnew as [Hpos%Z.ltb_lt Hfresh%bool_decide_eq_true].
  assert (interval_okb i1 = true) as Hiv by (unfold arguments_ok in Harg; by apply andb_true_iff in Harg as [[_ ?]%andb_true_iff _]).
  destruct (new_idle_spec ty now i1 isc_time_settoepoch Hn Hiv eq_refl) as (r & idl & -> & Hidl & Hr1). cbn [obind].
  destruct (bool_decide_reflect (r = ISC_R_SUCCESS)) as [->|Hr]; cbn [negb]; [|by apply Hstay, shown_same, same_timers_refl].
  destruct (mutex_ok ans); cbn [negb]; [|by apply Hstay, shown_attached].
  set (T := mkTimer 1 idl ty e1 i1 tsk act a (garbage ans)).
  pose proof (arguments_timer ty e1 i1 idl 1 tsk act a (garbage ans) Harg Hidl : timer_ok T) as Hok.
  assert (modest st (C_create ty e i tsk act a clock ans) = true -> lively T) as Hl.
  { intros [Htick Hm]%andb_true_iff. fold i1 in Htick, Hm. apply arguments_lively; [done|done|]. intros Hty Hq.
    rewrite bool_decide_eq_false_2 in Hm by (by rewrite Hty). cbn [orb] in Hm.
    destruct (clock_says_more _ _ now (Hnow ltac:(by rewrite Hty)) Hm) as [Hp Hc%negb_true_iff].
    destruct (_ && _); [done|]. by apply Hr1. }
  apply negb_true_iff in Hd. apply Z.ltb_lt in Hcount.
  pose proof (created_base st t T Hi Hd Hfresh Hpos Hok eq_refl Hcount) as B1.
  pose proof (created_calm st t T Hi Hfresh) as C1. pose proof (created_active st t T Hi) as A1.
  pose proof (new_lookup st t T) as E1. set (st1 := put_index t 0 (put t T st)) in *.
  destruct (bool_decide_reflect (ty = isc_timertype_inactive)) as [Hty|Hty]; cbn [negb].
  - cbn [obind]. rewrite bool_decide_eq_true_2 by done. cbn [obind]. do 2 eexists. split; [reflexivity|].
    destruct (linked_inv st t T Hfresh st1) as [Hinv Hsh]; try done; [|apply same_timers_refl|
      split_and!; [done|done|intros Hm Hall; apply lively_insert; auto] ].
    intros x X Hx HX. destruct (decide (x = t)) as [->|Hne]; [|by apply (A1 x X)].
    by apply (new_unscheduled st t Hi Hfresh) in Hx.
  - destruct (schedule_keeps _ _ st1 t T now (heap_mem ans) B1 E1 C1 A1 Hty Hn Hmem)
      as (r & st2 & -> & B2 & A2 & C2 & F2 & Hs & Ho & Hfail). cbn [obind].
    destruct (bool_decide_reflect (r = ISC_R_SUCCESS)) as [->|Hr]; cbn [obind]; do 2 eexists; (split; [reflexivity|]).
    + destruct (linked_inv st t T Hfresh st2) as [Hinv Hsh]; [done..|]. split_and!; [done|done|].
      intros Hm Hall. apply (lively_same _ _ Hs), lively_insert; auto.
    + destruct (Hfail Hr) as [Hh Ht].
      destruct (unmade_inv st t T Hi Hfresh st2 (b_queued _ _ _ B2) F2 Ho Hh Ht) as [Hinv Hst].
      rewrite Hst. split_and!; [done|apply shown_attached|done].
Qed.

(** ** [destroy] *)

Lemma timer_destroy_good st t : inv st -> guard st (C_destroy t) = true -> step_good st (C_destroy t).
Proof.
  intros Hi Hg. pose proof (step_unfreed _ _ Hg) as Hf. unfold guard in Hg. rewrite Hf in Hg. cbn [negb andb] in Hg.
  apply bool_decide_eq_true in Hg. destruct Hi as [B A C]. pose proof B as [B1 [N3 B3] [N4 B4] B5 B6 B7 B8].
  apply B4 in Hg as (T & E & Hr). unfold step_good, step. rewrite Hf.
  set (D' := filter (fun x => x <> t) (dying st)). set (st0 := set_dying D' st).
  assert (base (timers (manager st)) (dying st) st0) as B0 by (by constructor).
  destruct (deschedule_keeps _ _ st0 t T B0 E C) as (st1 & E1 & Bd & Ad & Cd & (F1 & F2 & F3 & F4 & F5) & Hs & Hsch).
  { intros x X _. apply A. }
  unfold destroy, get. change (store st0) with (store st). rewrite E. cbn [obind]. rewrite E1. cbn [obind].
  change (store st0) with (store st) in Hs. change (timers (manager st0)) with (timers (manager st)) in F2.
  rewrite F2, bool_decide_eq_true_2 by (apply B3; by eexists). cbn [negb]. do 2 eexists. split; [reflexivity|].
  set (L' := filter (fun x => x <> t) (timers (manager st))). set (st' := set_store _ _).
  assert (store st' = delete t (store st)) as Hst by (cbn; by rewrite Hs). split_and!.
  - constructor.
    + change (timers (manager st')) with L'. change (dying st') with (dying st1). rewrite F4. change (dying st0) with D'.
      constructor.
      * apply (queue_del (b_queued _ _ _ Bd)). intros Hx. by apply Hsch in Hx as [_ ?].
      * split; [by apply NoDup_filter|]. intros x. unfold L'. rewrite list_elem_of_filter, B3, Hst.
        destruct (decide (x = t)) as [->|Hne]; [rewrite lookup_delete_eq; split; [by intros [? _]|by intros [? ?]]|].
        rewrite lookup_delete_ne by done. split; [by intros [_ ?]|done].
      * split; [by apply NoDup_filter|]. intros x. unfold D'. rewrite list_elem_of_filter, B4, Hst.
        destruct (decide (x = t)) as [->|Hne]; [rewrite lookup_delete_eq; split; [by intros [? _]|by intros (? & ? & _)]|].
        rewrite lookup_delete_ne by done. split; [by intros [_ ?]|done].
      * intros x X HX. rewrite Hst in HX. apply lookup_delete_Some in HX as [_ HX]. by apply (B5 x).
      * apply (b_due _ _ _ Bd).
      * intros Hx. destruct (b_done _ _ _ Bd Hx) as [He Ht]. split; [|exact Ht]. rewrite Hst, <- Hs, He. apply delete_empty.
      * apply (b_exit _ _ _ Bd).
    + intros x X Hx HX. rewrite Hst in HX. apply lookup_delete_Some in HX as [_ HX]. apply Hsch in Hx as [Hx _]. by apply (A x).
    + apply (calm_mono st1); [done|by left|done|]. intros x X _ HX. rewrite Hst in HX.
      apply lookup_delete_Some in HX as [_ HX]. exists X. by rewrite Hs.
  - rewrite Hst. intros m Hm. pose proof (Hm t) as Ht. rewrite E in Ht. cbn [scan]. rewrite bool_decide_eq_true_2 by done.
    rewrite lookup_insert_eq. eexists. split; [reflexivity|]. intros x. destruct (decide (x = t)) as [->|Hne].
    + by rewrite !lookup_delete_eq.
    + rewrite !lookup_delete_ne by done. by rewrite lookup_insert_ne.
  - rewrite Hst. intros _. apply lively_delete.
Qed.

(** ** The manager *)

Lemma timer_thread_good st pc : inv st -> (pc = R_ready \/ pc = R_exit /\ done (manager st) = true) -> inv (set_thread pc st).
Proof.
  intros [[B1 B3 B4 B5 B6 B7 B8] A C] Hpc. constructor; [constructor|done|]; try done.
  - intros Hd. split; [by apply B7|]. destruct Hpc as [->|[-> _]]; auto.
  - cbn. destruct Hpc as [->|[-> ?]]; done.
  - unfold calm. by destruct Hpc as [->|[-> _]].
Qed.

Lemma timer_poke_good st : inv st -> guard st C_poke = true -> step_good st C_poke.
Proof.
  intros Hi Hg. pose proof (step_unfreed _ _ Hg) as Hf. unfold step_good, step. rewrite Hf. do 2 eexists. split; [reflexivity|].
  unfold isc__timermgr_poke, SIGNAL. destruct (thread st); (split_and!; [|apply shown_same, same_timers_refl|done]); try done;
    apply timer_thread_good; auto.
Qed.

Lemma timer_wakes_good st : inv st -> guard st R_wakes = true -> step_good st R_wakes.
Proof.
  intros Hi Hg. pose proof (step_unfreed _ _ Hg) as Hf. unfold step_good, step. rewrite Hf. do 2 eexists. split; [reflexivity|].
  split_and!; [apply timer_thread_good; auto|apply shown_same, same_timers_refl|done].
Qed.

Lemma timer_mgr_destroy_good st : inv st -> guard st C_mgr_destroy = true -> step_good st C_mgr_destroy.
Proof.
  intros Hi Hg. pose proof (step_unfreed _ _ Hg) as Hf. unfold guard in Hg. rewrite Hf in Hg. cbn [negb andb] in Hg.
  apply andb_true_iff in Hg as [Hd Ht]. unfold step_good, step. rewrite Hf. unfold isc__timermgr_destroy. rewrite Ht.
  cbn [require obind]. do 2 eexists. split; [reflexivity|]. set (st1 := set_manager _ st).
  destruct (control_SIGNAL st1) as (C1 & C2 & C3 & C4 & C5 & C6 & C7). pose proof (SIGNAL_thread st1) as Hth.
  destruct Hi as [[B1 [N3 B3] B4 B5 B6 B7 B8] A C]. destruct (timers (manager st)) eqn:El; [|done].
  assert (store st = ∅) as Hs.
  { apply map_empty. intros x. destruct (store st !! x) eqn:Ex; [|done].
    assert (x ∈ ([] : list Z)) as Hx by (apply B3; by rewrite Ex). by apply not_elem_of_nil in Hx. }
  split_and!; [|rewrite C1; apply shown_same, same_timers_refl|by rewrite C1]. constructor.
  - rewrite C4, C6. change (timers (manager st1)) with (timers (manager st)). rewrite El. change (dying st1) with (dying st). constructor.
    + by apply queued_SIGNAL.
    + rewrite C1. done.
    + rewrite C1. done.
    + rewrite C1. done.
    + rewrite C5. done.
    + intros _. rewrite C1. split; [done|]. rewrite Hth. destruct (thread st1); auto.
    + intros _. by rewrite C3.
  - intros x X _ HX. rewrite C1 in HX. change (store st1) with (store st) in HX. by rewrite Hs, lookup_empty in HX.
  - unfold calm. rewrite Hth. by destruct (thread st1).
Qed.

Lemma timer_join_good st : inv st -> guard st C_join = true -> step_good st C_join.
Proof.
  intros Hi Hg. pose proof (step_unfreed _ _ Hg) as Hf. unfold step_good, step. rewrite Hf. do 2 eexists. split; [reflexivity|].
  destruct Hi as [[B1 B3 B4 B5 B6 B7 B8] A C]. split_and!; [by constructor; [constructor| |]|apply shown_same, same_timers_refl|done].
Qed.
