(* ===== verification/TimerDispatch.v ===== *)
(** * What [dispatch] does

    The timers that are due are served once each, in the order in which they are due; each
    posts its event, if it has one, and is scheduled again, if it is to be, for a time that
    has not come yet. *)

From stdpp Require Import sorting.
From S2P Require Import Prelude Heap Time Timer TimerQueue TimerSystem TimerSteps.

(** ** One timer *)

(** The event of a timer that is due at [now] *)
Definition event_of (now : isc_time_t) (T : isc__timer) : option Z :=
  match type T with
  | isc_timertype_ticker => Some ISC_TIMEREVENT_TICK
  | isc_timertype_limited =>
      Some (if ns (expires T) <=? ns now then ISC_TIMEREVENT_LIFE else ISC_TIMEREVENT_TICK)
  | isc_timertype_once | isc_timertype_inactive =>
      if (0 <? ns (expires T)) && (ns (expires T) <=? ns now) then Some ISC_TIMEREVENT_LIFE
      else if (0 <? ns (idle T)) && (ns (idle T) <=? ns now) then Some ISC_TIMEREVENT_IDLE
      else None
  end.

(** The time for which a timer that was served is scheduled again, where [later] is one
    interval later: that time, but no later than a limited timer lives; when it was touched,
    the time that is left to it; and never when its life or its idle time is over. *)
Definition served_again (later : option Z) (now : isc_time_t) (T : isc__timer) : option Z :=
  match type T with
  | isc_timertype_ticker => later
  | isc_timertype_limited => if ns (expires T) <=? ns now then None else Z.min (ns (expires T)) <$> later
  | isc_timertype_once =>
      match event_of now T with Some _ => None | None => Some (first_of (ns (idle T)) (ns (expires T))) end
  | isc_timertype_inactive => None
  end.

Definition in_range (now : isc_time_t) (T : isc__timer) : bool := seconds now + i_seconds (interval T) <=? UINT_MAX.

(** The time, in nanoseconds, for which it should be scheduled again; never when the time is
    out of range. *)
Definition next_due (now : isc_time_t) (T : isc__timer) : option Z :=
  served_again (if in_range now T then Some (ns now + ins (interval T)) else None) now T.

(** The time for which it is: a sum that carries into seconds beyond [UINT_MAX] wraps. *)
Definition again (now : isc_time_t) (T : isc__timer) : option Z :=
  served_again
    (if in_range now T
     then Some (ns now + ins (interval T) - (if carries now (interval T) then 2 ^ 32 * NS_PER_S else 0)) else None) now T.

(** A timer that is due again as soon as it has been served: without an interval, or with
    one that makes the time wrap; or once, without an idle time and without a life. *)
Definition restless (now : isc_time_t) (T : isc__timer) : bool :=
  match type T with
  | isc_timertype_ticker => in_range now T && ((ins (interval T) =? 0) || carries now (interval T))
  | isc_timertype_limited =>
      (ns now <? ns (expires T)) && (in_range now T && ((ins (interval T) =? 0) || carries now (interval T)))
  | isc_timertype_once => (ns (idle T) =? 0) && (ns (expires T) =? 0)
  | isc_timertype_inactive => false
  end.

Section One.
Context (now : isc_time_t) (T : isc__timer) (Hn : time_okb now = true) (Hok : timer_ok T).
Context (Hty : type T <> isc_timertype_inactive).

Lemma ns_nonneg t : time_okb t = true -> 0 <= ns t.
Proof. intros H. time_lia. Qed.

Lemma fire_spec : exists need, fire now T = Done (event_of now T, need) /\
  (need = false -> forall later, served_again later now T = None) /\
  (need = true -> (type T = isc_timertype_limited -> ns now < ns (expires T)) /\
    (type T = isc_timertype_once -> event_of now T = None)).
Proof.
  destruct Hok as (Hi & He & Hv). unfold fire, served_again, event_of. rewrite !isepoch_Done, !compare_Done by done.
  pose proof (ns_nonneg _ He). pose proof (ns_nonneg _ Hi).
  destruct (type T) eqn:Et; try done.
  - by exists true.
  - cbn [obind]. rewrite !bool_decide_eq_false_2 by done.
    assert (forall x, 0 <= x -> (if negb (x =? 0) then Done (0 <=? Z.sgn (ns now - x)) else Done false) = Done ((0 <? x) && (x <=? ns now))) as Hx.
    { intros x Hx. destruct (x =? 0) eqn:E0; bool_prop; cbn [negb].
      - subst x. done.
      - rewrite (proj2 (Z.ltb_lt 0 x)) by lia. f_equal. cbn [andb]. apply eq_true_iff_eq. rewrite !Z.leb_le. lia. }
    rewrite !Hx by done. cbn [obind]. destruct ((0 <? ns (expires T)) && _); [by exists false|]. cbn [obind].
    destruct ((0 <? ns (idle T)) && _); [by exists false|by exists true].
  - rewrite bool_decide_eq_false_2, bool_decide_eq_true_2 by done. cbn [obind].
    destruct (ns (expires T) <=? ns now) eqn:E; bool_prop.
    + rewrite (proj2 (Z.leb_le 0 _)) by lia. by exists false.
    + rewrite (proj2 (Z.leb_gt 0 _)) by lia. by exists true.
Qed.

(** What [schedule] makes of it *)
Lemma new_due_again r d :
  (type T = isc_timertype_limited -> ns now < ns (expires T)) -> (type T = isc_timertype_once -> event_of now T = None) ->
  new_due T now = Done (r, d) ->
  if bool_decide (r = ISC_R_SUCCESS) then again now T = Some (ns d) else again now T = None.
Proof.
  intros Hlim Honce E. destruct (new_due_spec T now Hok Hn) as (r' & d' & E' & Hr). rewrite E in E'. injection E' as <- <-.
  unfold again, served_again, in_range. rewrite Z.leb_antisym. destruct (type T) eqn:Et; try done.
  - rewrite !bool_decide_eq_false_2 in Hr by done. destruct (UINT_MAX <? _); [by rewrite bool_decide_eq_false_2 by (by rewrite Hr)|].
    destruct Hr as (-> & _ & Hr). rewrite bool_decide_eq_true_2 by done. by rewrite Hr.
  - rewrite bool_decide_eq_true_2 in Hr by done. destruct Hr as (-> & _ & ->). rewrite bool_decide_eq_true_2 by done.
    by rewrite (Honce eq_refl).
  - rewrite bool_decide_eq_false_2, bool_decide_eq_true_2 in Hr by done. rewrite (proj2 (Z.leb_gt _ _)) by auto.
    destruct (UINT_MAX <? _); [by rewrite bool_decide_eq_false_2 by (by rewrite Hr)|].
    destruct Hr as (-> & _ & Hr). rewrite bool_decide_eq_true_2 by done. cbn. by rewrite Hr.
Qed.

(** One interval later, which may wrap, is later unless the interval is zero or it wraps. *)
Lemma later_leb : let i := interval T in
  (ns now + ins i - (if carries now i then 2 ^ 32 * NS_PER_S else 0) <=? ns now) = (ins i =? 0) || carries now i.
Proof.
  destruct Hok as (_ & _ & Hv). cbv zeta. destruct (carries now (interval T)) eqn:Ec.
  - rewrite orb_true_r. apply Z.leb_le. time_lia.
  - rewrite orb_false_r. apply eq_true_iff_eq. rewrite Z.leb_le, Z.eqb_eq. time_lia.
Qed.

Lemma restless_again : restless now T = match again now T with Some x => x <=? ns now | None => false end.
Proof.
  destruct Hok as (Hi & He & Hv). pose proof (ns_nonneg _ He). pose proof (ns_nonneg _ Hi). pose proof later_leb as Hl. cbv zeta in Hl.
  unfold restless, again, served_again, event_of. destruct (type T) eqn:Et; try done.
  - destruct (in_range now T); [|done]. by rewrite Hl.
  - destruct ((0 <? ns (expires T)) && (ns (expires T) <=? ns now)) eqn:E1; [apply andb_true_iff in E1 as [? ?]; bool_prop; lia|].
    destruct ((0 <? ns (idle T)) && (ns (idle T) <=? ns now)) eqn:E2; [apply andb_true_iff in E2 as [? ?]; bool_prop; lia|].
    apply eq_true_iff_eq. rewrite andb_true_iff, !Z.eqb_eq, Z.leb_le. apply andb_false_iff in E1, E2. pose proof (ns_nonneg _ Hn).
    unfold first_of. repeat case_if; bool_prop; destruct E1, E2; bool_prop; lia.
  - rewrite Z.leb_antisym. destruct (ns now <? ns (expires T)) eqn:E; [|done]. cbn [negb andb].
    destruct (in_range now T); [|done]. cbn [andb fmap option_fmap option_map]. rewrite <- Hl. bool_prop.
    apply eq_true_iff_eq. rewrite !Z.leb_le. lia.
Qed.

(** For a timer that is not restless the time does not wrap, and has not come yet. *)
Lemma again_next : restless now T = false -> again now T = next_due now T.
Proof.
  unfold restless, again, next_due, served_again. destruct (type T) eqn:Et; try done.
  - destruct (in_range now T); [|done]. intros [_ ->]%orb_false_iff. by rewrite Z.sub_0_r.
  - rewrite Z.leb_antisym. destruct (ns now <? ns (expires T)); [|done]. cbn [negb andb].
    destruct (in_range now T); [|done]. intros [_ ->]%orb_false_iff. by rewrite Z.sub_0_r.
Qed.

Lemma again_later x : restless now T = false -> again now T = Some x -> ns now < x.
Proof. rewrite restless_again. intros H E. rewrite E in H. lia. Qed.

(** A lively timer is not restless, as long as no sum carries. *)
Lemma lively_restful : lively T -> carries now (interval T) = false -> restless now T = false.
Proof.
  clear Hty. destruct Hok as (Hi & He & Hv). pose proof (ns_nonneg _ He). pose proof (ns_nonneg _ Hi).
  unfold lively, restless. intros Hl ->. rewrite orb_false_r. destruct (type T); try done; [| |]; try (rewrite (proj2 (Z.eqb_neq (ins _) 0)) by lia).
  - apply andb_false_r.
  - destruct Hl; [rewrite (proj2 (Z.eqb_neq (ns (idle T)) 0)) by lia|rewrite (proj2 (Z.eqb_neq (ns (expires T)) 0)) by lia]; [done|apply andb_false_r].
  - rewrite !andb_false_r. done.
Qed.
End One.

(** ** Posting *)

Fixpoint posts (alloc : answers) (s : gmap Z isc__timer) (now : isc_time_t) (k : nat) (l : list Z) : list obs :=
  match l with
  | [] => []
  | t :: l' =>
      match s !! t with Some T => post t T (event_of now T) (fst (alloc k)) | None => [] end ++
      posts alloc s now (S k) l'
  end.

Lemma posts_snoc alloc s now k l t T : s !! t = Some T ->
  posts alloc s now k (l ++ [t]) = posts alloc s now k l ++ post t T (event_of now T) (fst (alloc (k + length l)%nat)).
Proof.
  intros E. revert k. induction l as [|x l IH]; intros k; cbn [posts app length].
  - by rewrite E, app_nil_r, Nat.add_0_r.
  - by rewrite IH, app_assoc, Nat.add_succ_r.
Qed.

Lemma shown_posts alloc s now k l : shown s (posts alloc s now k l) s.
Proof.
  revert k. induction l as [|t l IH]; intros k; cbn [posts]; [apply shown_same, same_timers_refl|].
  apply (shown_app _ s); [|apply IH]. destruct (s !! t) as [T|] eqn:E; [|apply shown_same, same_timers_refl].
  unfold post. destruct (event_of now T) as [ty|]; [|apply shown_same, same_timers_refl].
  destruct (fst (alloc k)); [|apply shown_same, same_timers_refl]. intros m Hm. cbn [scan ev_sender].
  rewrite bool_decide_eq_true_2 by (by rewrite Hm, E). eexists. split; [reflexivity|]. intros x.
  destruct (decide (x = t)) as [->|Hne]; [by rewrite lookup_insert_eq, E|by rewrite lookup_insert_ne].
Qed.

(** ** Room on the heap *)

(** Nothing is asked of the allocator when the heap has room. *)
Lemma schedule_room st t now b mem :
  0 <= h_last (mgr_heap st) + 1 < h_size (mgr_heap st) -> h_size (mgr_heap st) < 2 ^ 32 ->
  schedule st t now b mem = schedule st t now b None.
Proof.
  intros H1 H2. unfold schedule. destruct (get st t) as [T| | |]; try done. cbn [obind].
  destruct (require _); try done. cbn [obind]. destruct (if 0 <? nscheduled (manager st) then _ else _); try done. cbn [obind].
  destruct (new_due T now) as [[r d]| | |]; try done. cbn [obind]. destruct (negb _); [done|].
  assert (place st t d mem = place st t d None) as ->; [|done].
  unfold place. destruct (get st t) as [T1| | |]; try done. cbn [obind]. destruct (0 <? index st t); [done|].
  unfold on_heap. destruct (require _); try done. cbn [obind]. unfold isc_heap_insert.
  change (mgr_heap (put t (set_due d T1) st)) with (mgr_heap st). rewrite u32_small by lia.
  by rewrite (proj2 (Z.leb_gt (h_size (mgr_heap st)) (h_last (mgr_heap st) + 1))) by lia.
Qed.

(** ** The loop *)

(** The first timer of the heap *)
Lemma first_timer st : queued st -> 0 < nscheduled (manager st) ->
  exists t T, isc_heap_element (mgr_heap st) 1 = Done t /\ cell (h_array (mgr_heap st)) 1 = t /\ 0 < t /\ scheduled st t /\
    store st !! t = Some T /\ time_okb (due T) = true /\
    (forall u U, scheduled st u -> store st !! u = Some U -> ns (due T) <= ns (due U)).
Proof.
  intros Q H. rewrite (q_n _ _ _ Q) in H. pose proof (q_wf _ _ _ Q) as [W1 [W2 W3] W4 W5 W6 W7].
  assert (scheduled st (cell (h_array (mgr_heap st)) 1)) as Ht by (apply sub_cell_elem; lia).
  destruct (q_elem _ _ _ Q _ Ht) as (T & E & HT). destruct (q_timer _ _ _ Q _ _ E) as (Hp & _ & _).
  exists (cell (h_array (mgr_heap st)) 1), T. split_and!; try done.
  - unfold isc_heap_element. rewrite require_true by lia. cbn [obind]. rewrite (proj2 (Z.leb_le 1 _)), rd_cell by lia. done.
  - intros u U Hu EU. destruct (q_elem _ _ _ Q u Hu) as (U' & EU' & HU). assert (U' = U) as -> by congruence.
    destruct (queue_index Q u Hu) as (j & Hj & _ & Cj).
    pose proof (first_min (sooner (store st)) _ _ W6 j Hj) as Hm. rewrite Cj in Hm.
    rewrite (sooner_ns _ _ _ _ _ EU E HU HT) in Hm. lia.
Qed.

(** [t] was served: it posted its event, and it is scheduled again if it should be. *)
Record round_done (now : isc_time_t) (st : system) (t : Z) (T : isc__timer) (st' : system) : Prop := {
  rd_scheduled : scheduled st t;
  rd_lookup : store st !! t = Some T;
  rd_due : ns (due T) <= ns now;
  rd_first : forall u U, scheduled st u -> store st !! u = Some U -> ns (due T) <= ns (due U);
  rd_queued : queued st';
  rd_frame : same_frame st st';
  rd_others : forall x, x <> t -> store st' !! x = store st !! x /\ (scheduled st' x <-> scheduled st x);
  rd_again : exists d, store st' !! t = Some (set_due d T) /\ (scheduled st' t <-> is_Some (again now T)) /\
    (forall x, again now T = Some x -> ns d = x)
}.

(** Nothing that is scheduled is due. *)
Definition late (now : isc_time_t) (st st' : system) : Prop :=
  exists d, st' = set_manager (set_mgr_due d (manager st)) st /\ time_okb d = true /\
    (forall t T, scheduled st t -> store st !! t = Some T -> ns now < ns (due T) /\ ns d <= ns (due T)).

Section Round.
Context (st : system) (now : isc_time_t) (alloc : answers).
Context (Q : queued st) (A : active st) (Hm : time_okb (mgr_due (manager st)) = true) (Hn : time_okb now = true).

(** The timer, once it was taken off the heap, is scheduled again. *)
Lemma again_spec t T st2 mem :
  store st !! t = Some T -> type T <> isc_timertype_inactive ->
  (type T = isc_timertype_limited -> ns now < ns (expires T)) -> (type T = isc_timertype_once -> event_of now T = None) ->
  queued st2 -> same_frame st st2 -> store st2 = store st ->
  (forall x, scheduled st2 x <-> scheduled st x /\ x <> t) -> h_last (mgr_heap st2) + 1 < h_size (mgr_heap st2) ->
  exists r st', schedule st2 t now false mem = Done (r, st') /\ queued st' /\ same_frame st st' /\
    (forall x, x <> t -> store st' !! x = store st !! x /\ (scheduled st' x <-> scheduled st x)) /\
    (exists d, store st' !! t = Some (set_due d T) /\ (scheduled st' t <-> is_Some (again now T)) /\
       (forall x, again now T = Some x -> ns d = x)).
Proof.
  intros E Hty Hlim Honce Q2 [F2 F2'] Hs Hsch Hroom. destruct (q_timer _ _ _ Q t T E) as (_ & Hok & _).
  pose proof (wf_last _ _ (q_wf _ _ _ Q2)). destruct (wf_size _ _ (q_wf _ _ _ Q2)) as [_ Hsz].
  rewrite schedule_room by lia. pose proof F2 as (H1 & H2 & H3 & H4 & H5).
  destruct (schedule_spec st2 t T now false None Q2) as (r & st' & -> & Q' & (K1 & K2 & K3 & K4 & K5) & Hr); try done.
  { by rewrite H3. }
  { by rewrite Hs. }
  assert (forall st', thread st' = thread st2 -> same_control st2 st' -> same_frame st st') as Hframe.
  { intros st3 Ht (C1 & C2 & C3 & C4 & C5). repeat split; congruence. }
  exists r, st'. split; [done|]. split; [done|]. destruct Hr as [(-> & d & En & Hd & [R1 R2 R3])|(Hne & [U1 U2 U3] & Hwhy)].
  - split; [apply Hframe; [|done]; by destruct R3 as [[? _]|[? _]]|]. split.
    + intros x Hx. rewrite R1, lookup_insert_ne, Hs, R2, Hsch by done. tauto.
    + exists d. rewrite R1, lookup_insert_eq.
      pose proof (new_due_again now T Hn Hok Hty _ _ Hlim Honce En) as Hnx. rewrite bool_decide_eq_true_2 in Hnx by done.
      rewrite Hnx. split_and!; [done| |by intros x [= <-]]. rewrite R2. split; [by eexists|by left].
  - destruct Hwhy as [[d En]|[_ Hfull]]; [|lia].
    pose proof (new_due_again now T Hn Hok Hty _ _ Hlim Honce En) as Hnx. rewrite bool_decide_eq_false_2 in Hnx by done.
    assert (forall x, scheduled st' x <-> scheduled st2 x) as Hsame by (intros x; unfold scheduled; by rewrite U2).
    split; [by apply Hframe|]. split.
    + intros x Hx. rewrite Hsame, Hsch. split; [|tauto]. destruct U1 as [->|(d' & -> & _)]; [by rewrite Hs|by rewrite lookup_insert_ne, Hs].
    + assert (exists d', store st' !! t = Some (set_due d' T)) as [d' Ed'].
      { destruct U1 as [->|(d' & -> & _)]; [exists (due T); rewrite Hs, E; by destruct T|exists d'; by rewrite lookup_insert_eq]. }
      exists d'. rewrite Hnx. split_and!; [done| |done]. rewrite Hsame, Hsch. split; [by intros [_ ?]|by intros [? ?]].
Qed.

(** One round *)
Lemma dispatch_round k out :
  match dispatch_body now alloc (st, k, out) with
  | Done (inl (st', k', out')) => k' = S k /\ exists t T, out' = out ++ post t T (event_of now T) (fst (alloc k)) /\ round_done now st t T st'
  | Done (inr (st', out')) => out' = out /\ late now st st'
  | _ => False
  end.
Proof.
  unfold dispatch_body. destruct (0 <? nscheduled (manager st)) eqn:E0; bool_prop.
  2:{ split; [done|]. exists (mgr_due (manager st)). split_and!; [by destruct st as [? [] ? ? ?]|done|].
      intros t T Ht. destruct (queue_index Q t Ht) as (j & Hj & _). rewrite (q_n _ _ _ Q) in E0. lia. }
  destruct (first_timer st Q E0) as (t & T & -> & Hc & Hpos & Ht & E & HT & Hmin). cbn [obind].
  rewrite (proj2 (Z.eqb_neq t 0)) by lia. cbn [negb require obind]. unfold get. rewrite E. cbn [obind].
  pose proof (A t T Ht E) as Hty.
  rewrite bool_decide_eq_false_2 by done. cbn [negb require obind]. rewrite compare_Done by done. cbn [obind].
  destruct (0 <=? Z.sgn (ns now - ns (due T))) eqn:Ed; bool_prop.
  2:{ split; [done|]. exists (due T). split_and!; try done. intros u U Hu EU. pose proof (Hmin u U Hu EU). lia. }
  destruct (q_timer _ _ _ Q t T E) as (_ & Hok & _).
  destruct (fire_spec now T Hn Hok Hty) as (need & -> & Hno & Hyes). cbn [obind].
  destruct (pop_spec st Q t Hc E0) as (h' & -> & Q2 & F2 & Hs2 & Hsch2 & Hz2 & Hl2). cbn [obind].
  set (st2 := set_manager _ _) in *. destruct need.
  - destruct (Hyes eq_refl) as [Hlim Honce].
    destruct (again_spec t T st2 (snd (alloc k)) E Hty Hlim Honce Q2 F2 Hs2 Hsch2) as (r & st' & -> & Q' & F' & Ho & Hd).
    { rewrite Hz2, Hl2. pose proof (wf_room _ _ (q_wf _ _ _ Q)). rewrite (q_n _ _ _ Q) in E0. lia. }
    cbn [obind]. split; [done|]. exists t, T. split; [done|]. constructor; try done. lia.
  - cbn [obind]. split; [done|]. exists t, T. split; [done|]. constructor; try done; [lia| |].
    + intros x Hx. rewrite Hs2, Hsch2. tauto.
    + exists (due T). rewrite Hs2, E. unfold again. rewrite (Hno eq_refl). split_and!; [by destruct T| |done].
      rewrite Hsch2. split; [by intros [_ ?]|by intros [? ?]].
Qed.
End Round.

Section Dispatch.
Context (st0 : system) (now : isc_time_t) (alloc : answers).
Context (Hi : inv st0) (Hn : time_okb now = true).

(** In the middle of [dispatch] *)
Record rounding (st : system) : Prop := {
  g_queued : queued st;
  g_frame : same_frame st0 st;
  g_same : same_timers (store st0) (store st);
  g_scheduled : forall t, scheduled st t -> scheduled st0 t
}.

Lemma rounding_start : rounding st0.
Proof. constructor; [apply (b_queued _ _ _ (i_base _ Hi))|done|apply same_timers_refl|done]. Qed.

Lemma rounding_active st : rounding st -> active st.
Proof.
  intros [G1 G2 G3 G4] t T Ht E. destruct (same_timers_lookup _ _ _ _ G3 E) as (T0 & E0 & ->).
  by apply (i_active _ Hi t T0); [apply G4|].
Qed.

Lemma rounding_due st : rounding st -> time_okb (mgr_due (manager st)) = true.
Proof. intros [_ [(_ & _ & H & _) _] _ _]. rewrite H. apply (b_due _ _ _ (i_base _ Hi)). Qed.

Lemma round_same st t T st' : round_done now st t T st' -> same_timers (store st) (store st').
Proof.
  intros R. destruct (rd_again _ _ _ _ _ R) as (d & Ed & _). apply (same_timers_at _ _ t T); [apply R|right; by exists d|].
  intros x Hx. by apply (rd_others _ _ _ _ _ R).
Qed.

Lemma rounding_next st t T st' : rounding st -> round_done now st t T st' -> rounding st'.
Proof.
  intros [G1 [(F1 & F2 & F3 & F4 & F5) F6] G3 G4] R. destruct (rd_frame _ _ _ _ _ R) as [(H1 & H2 & H3 & H4 & H5) H6]. constructor.
  - apply R.
  - repeat split; congruence.
  - apply (same_timers_trans _ _ _ G3). by apply (round_same st t T).
  - intros x Hx. destruct (decide (x = t)) as [->|Hne]; [apply G4, R|]. by apply G4, (rd_others _ _ _ _ _ R x Hne).
Qed.

Lemma post_shown s t T event ok : s !! t = Some T -> shown s (post t T event ok) s.
Proof.
  intros E. unfold post. destruct event as [ty|]; [|apply shown_same, same_timers_refl].
  destruct ok; [|apply shown_same, same_timers_refl]. intros m Hm. cbn [scan ev_sender].
  rewrite bool_decide_eq_true_2 by (by rewrite Hm, E). eexists. split; [reflexivity|]. intros x.
  destruct (decide (x = t)) as [->|Hne]; [by rewrite lookup_insert_eq, E|by rewrite lookup_insert_ne].
Qed.

Lemma round_shown st t T st' out k : rounding st -> round_done now st t T st' -> shown (store st0) out (store st) ->
  shown (store st0) (out ++ post t T (event_of now T) (fst (alloc k))) (store st').
Proof.
  intros G R H. eapply shown_app; [exact H|]. intros m Hm.
  destruct (post_shown (store st) t T (event_of now T) (fst (alloc k)) (rd_lookup _ _ _ _ _ R) m Hm) as (m' & E & Hm').
  exists m'. split; [done|]. intros x. rewrite Hm'. symmetry. apply same_timers_task. by apply (round_same st t T).
Qed.

(** Whatever the timers are, no assertion fails in [dispatch]; when it ends nothing that is
    scheduled is due. *)
Lemma dispatch_safe : match dispatch st0 now alloc with
  | Done (st', out) => exists st, rounding st /\ shown (store st0) out (store st) /\ late now st st'
  | NoFuel => True
  | _ => False
  end.
Proof.
  unfold dispatch. set (I := fun s : system * nat * list obs => rounding s.1.1 /\ shown (store st0) s.2 (store s.1.1)).
  assert (forall n s, I s -> match loop n (dispatch_body now alloc) s with
    | Done (st', out) => exists st, rounding st /\ shown (store st0) out (store st) /\ late now st st' | NoFuel => True | _ => False end) as H.
  2:{ apply H. split; [apply rounding_start|apply shown_same, same_timers_refl]. }
  induction n as [|n IH]; intros [[st k] out] [G Hsh]; [done|]. cbn [loop fst snd] in *.
  pose proof (dispatch_round st now alloc (g_queued _ G) (rounding_active _ G) (rounding_due _ G) Hn k out) as H.
  destruct (dispatch_body now alloc (st, k, out)) as [[[[st' k'] out']|[st' out']]| | |]; try done.
  - destruct H as (-> & t & T & -> & R). apply IH. split; cbn; [by apply (rounding_next st t T)|by apply (round_shown st)].
  - destruct H as [-> Hl]. by exists st.
Qed.

(** A due timer that is restless is served without end. *)
Lemma dispatch_endless t T : scheduled st0 t -> store st0 !! t = Some T -> ns (due T) <= ns now -> restless now T = true ->
  forall n, loop n (dispatch_body now alloc) (st0, 0%nat, []) = NoFuel.
Proof.
  intros Ht E Hd Hr.
  set (I := fun s : system * nat * list obs => rounding s.1.1 /\ scheduled s.1.1 t /\
    exists d, store s.1.1 !! t = Some (set_due d T) /\ ns d <= ns now).
  assert (forall n s, I s -> loop n (dispatch_body now alloc) s = NoFuel) as H.
  2:{ intros n. apply H. split; [apply rounding_start|]. split; [done|]. exists (due T). split; [|done]. cbn [fst snd]. rewrite E. by destruct T. }
  induction n as [|n IH]; intros [[st k] out] (G & Hst & d & Ed & Hdd); [done|]. cbn [loop fst snd] in *.
  pose proof (dispatch_round st now alloc (g_queued _ G) (rounding_active _ G) (rounding_due _ G) Hn k out) as H.
  destruct (dispatch_body now alloc (st, k, out)) as [[[[st' k'] out']|[st' out']]| | |]; try done.
  - destruct H as (-> & u & U & -> & R). apply IH. split; [by apply (rounding_next st u U)|]. cbn [fst snd].
    destruct (decide (t = u)) as [<-|Hne].
    + assert (U = set_due d T) as -> by (pose proof (rd_lookup _ _ _ _ _ R); congruence).
      destruct (rd_again _ _ _ _ _ R) as (d' & E' & Hs' & Hx').
      destruct (q_timer _ _ _ (g_queued _ G) t _ Ed) as (_ & Hok & _).
      pose proof (rounding_active _ G t _ Hst Ed) as Hty. change (restless now (set_due d T) = true) in Hr.
      rewrite (restless_again now _ Hn Hok Hty) in Hr. destruct (again now (set_due d T)) as [x|]; [|done].
      split; [by apply Hs'|]. exists d'. split; [by rewrite E'|]. rewrite (Hx' x eq_refl). lia.
    + destruct (rd_others _ _ _ _ _ R t Hne) as [E1 E2]. split; [by apply E2|]. exists d. by rewrite E1.
  - destruct H as (_ & d' & _ & _ & Hlate). destruct (Hlate t _ Hst Ed) as [H _]. cbn in H. lia.
Qed.

(** ** No due timer is restless *)

Context (Hrest : forall t T, scheduled st0 t -> store st0 !! t = Some T -> ns (due T) <= ns now -> restless now T = false).

Definition before (t u : Z) : Prop := ns (due_of (store st0) t) <= ns (due_of (store st0) u).

(** The timers [l] have been served, in this order. *)
Record serving (l : list Z) (st : system) (out : list obs) : Prop := {
  s_rounding : rounding st;
  s_nodup : NoDup l;
  s_served : forall t, t ∈ l -> scheduled st0 t /\ ns (due_of (store st0) t) <= ns now;
  s_waiting : forall t, t ∉ l -> store st !! t = store st0 !! t /\ (scheduled st t <-> scheduled st0 t);
  s_again : forall t T, t ∈ l -> store st0 !! t = Some T ->
    (scheduled st t <-> is_Some (next_due now T)) /\
    (forall T' x, store st !! t = Some T' -> next_due now T = Some x -> ns (due T') = x);
  s_out : out = posts alloc (store st0) now 0 l;
  s_sorted : StronglySorted before l;
  s_first : forall t u, t ∈ l -> u ∉ l -> scheduled st0 u -> before t u
}.

Lemma serving_start : serving [] st0 [].
Proof.
  constructor; try done; try (by intros t Ht; apply not_elem_of_nil in Ht);
    try (by intros t ? Ht; apply not_elem_of_nil in Ht).
  - apply rounding_start.
  - apply NoDup_nil_2.
  - constructor.
Qed.

Lemma due_of_lookup s t T : s !! t = Some T -> due_of s t = due T.
Proof. intros E. unfold due_of. by rewrite E. Qed.

(** A due timer is scheduled again for a time that has not come. *)
Lemma next_due_later t T x : scheduled st0 t -> store st0 !! t = Some T -> ns (due T) <= ns now ->
  next_due now T = Some x -> ns now < x.
Proof.
  intros Ht E Hd Hx. destruct (q_timer _ _ _ (b_queued _ _ _ (i_base _ Hi)) t T E) as (_ & Hok & _).
  pose proof (Hrest t T Ht E Hd) as Hr.
  pose proof (i_active _ Hi t T Ht E) as Hty. apply (again_later now T Hn Hok); [done..|]. by rewrite again_next.
Qed.

(** A timer on the heap that is due has not been served yet. *)
Lemma unserved l st out t T : serving l st out -> scheduled st t -> store st !! t = Some T -> ns (due T) <= ns now ->
  t ∉ l /\ store st0 !! t = Some T /\ scheduled st0 t.
Proof.
  intros S Ht E Hd. assert (t ∉ l) as Hl.
  { intros Hl. destruct (same_timers_lookup _ _ _ _ (g_same _ (s_rounding _ _ _ S)) E) as (T0 & E0 & HT).
    destruct (s_again _ _ _ S t T0 Hl E0) as [Hs Hx]. destruct (proj1 Hs Ht) as [x Ex].
    destruct (s_served _ _ _ S t Hl) as [Ht0 Hd0]. rewrite (due_of_lookup _ _ _ E0) in Hd0.
    pose proof (next_due_later t T0 x Ht0 E0 Hd0 Ex). rewrite (Hx T x E Ex) in Hd. lia. }
  destruct (s_waiting _ _ _ S t Hl) as [Hw Hsch]. rewrite Hw in E. split_and!; [done|done|by apply Hsch].
Qed.

(** One timer more *)
Lemma serving_step l st out t T st' : serving l st out -> round_done now st t T st' ->
  serving (l ++ [t]) st' (out ++ post t T (event_of now T) (fst (alloc (length l)))).
Proof.
  intros S R. pose proof R as [R1 R2 R3 R4 R5 R6 R7 (d & E' & Hagain & Hx)].
  destruct (unserved l st out t T S R1 R2 R3) as (Hl & E & Hs0). pose proof S as [S1 S4 S5 S6 S7 S8 S9 S10].
  pose proof (Hrest t T Hs0 E R3) as Hr. pose proof (i_active _ Hi t T Hs0 E) as Hty. rewrite (again_next now T) in Hagain, Hx by done.
  assert (forall u, u ∈ l ++ [t] <-> u ∈ l \/ u = t) as Hin by (intros u; by rewrite elem_of_app, list_elem_of_singleton).
  assert (forall u, u ∉ l -> scheduled st0 u -> before t u) as Hbefore.
  { intros u Hu Hsu. unfold before. rewrite (due_of_lookup _ t T E). destruct (S6 u Hu) as [Hw Hsch].
    destruct (q_elem _ _ _ (b_queued _ _ _ (i_base _ Hi)) u Hsu) as (U & EU & _). rewrite (due_of_lookup _ u U EU).
    apply (R4 u U); [by apply Hsch|by rewrite Hw]. }
  constructor.
  - by apply (rounding_next st t T).
  - apply NoDup_app. split_and!; [done| |apply NoDup_singleton]. by intros x Hxl ->%list_elem_of_singleton.
  - intros u [Hu| ->]%Hin; [by apply S5|]. split; [done|]. by rewrite (due_of_lookup _ t T E).
  - intros u Hu. rewrite Hin in Hu. destruct (R7 u) as [H1 H2]; [tauto|]. rewrite H1, H2. apply S6. tauto.
  - intros u U [Hu| ->]%Hin EU.
    + assert (u <> t) as Hne by congruence. destruct (R7 u Hne) as [H1 H2]. rewrite H1, H2. by apply S7.
    + assert (U = T) as -> by congruence. split; [done|]. intros T' x ET' Ex. rewrite E' in ET'. injection ET' as <-. by apply Hx.
  - rewrite S8. symmetry. by rewrite (posts_snoc _ _ _ _ _ _ T E).
  - apply StronglySorted_app_2; [|done|repeat constructor]. intros x y Hxl ->%list_elem_of_singleton. by apply S10.
  - intros a u [Ha| ->]%Hin Hu Hsu; rewrite Hin in Hu; [apply S10; tauto|apply Hbefore; tauto].
Qed.

(** The end of the loop *)
Definition finished (l : list Z) (st' : system) (out : list obs) : Prop :=
  exists st, serving l st out /\ late now st st'.

Lemma serving_length l st out : serving l st out -> Z.of_nat (length l) <= nscheduled (manager st0).
Proof.
  intros S. pose proof (b_queued _ _ _ (i_base _ Hi)) as Q. rewrite (q_n _ _ _ Q), <- (length_elements _ _ (q_wf _ _ _ Q)).
  apply inj_le, submseteq_length, NoDup_submseteq; [apply (s_nodup _ _ _ S)|]. intros x Hx. by apply (s_served _ _ _ S).
Qed.

Lemma dispatch_spec : exists l st' out, dispatch st0 now alloc = Done (st', out) /\ finished l st' out.
Proof.
  unfold dispatch.
  destruct (loop_rule (dispatch_body now alloc)
    (fun s => exists l, s.1.2 = length l /\ serving l s.1.1 s.2) (fun s => nscheduled (manager st0) - Z.of_nat s.1.2)
    (fun r => exists l, finished l r.1 r.2)) with (fuel := dispatch_fuel st0) (s := (st0, 0%nat, [] : list obs))
    as ([st' out] & -> & l & Hl).
  - intros [[st k] out] (l & Hk & S). cbn [fst snd] in *. subst k. pose proof (s_rounding _ _ _ S) as G.
    pose proof (dispatch_round st now alloc (g_queued _ G) (rounding_active _ G) (rounding_due _ G) Hn (length l) out) as H.
    destruct (dispatch_body now alloc (st, length l, out)) as [[[[st' k'] out']|[st' out']]| | |]; try done.
    + destruct H as (-> & t & T & -> & R). cbn [fst snd]. pose proof (serving_step l st out t T st' S R) as S'.
      split; [exists (l ++ [t]); split; [rewrite length_app; cbn; lia|done]|].
      pose proof (serving_length _ _ _ S'). rewrite length_app in *. cbn [length] in *. lia.
    + destruct H as [-> H]. exists l, st. by split.
  - exists []. split; [done|]. apply serving_start.
  - cbn [fst snd]. unfold dispatch_fuel. pose proof (b_queued _ _ _ (i_base _ Hi)) as Q. rewrite (q_n _ _ _ Q).
    pose proof (wf_last _ _ (q_wf _ _ _ Q)). lia.
  - by exists l, st', out.
Qed.

(** The timers served are those that were due. *)
Lemma finished_served l st' out t : finished l st' out ->
  t ∈ l <-> scheduled st0 t /\ ns (due_of (store st0) t) <= ns now.
Proof.
  intros (st & S & d & -> & Hd & Hlate). split; [apply (s_served _ _ _ S)|]. intros [Ht Hdue].
  destruct (decide (t ∈ l)) as [|Hl]; [done|exfalso]. destruct (s_waiting _ _ _ S t Hl) as [Hw Hsch].
  destruct (q_elem _ _ _ (b_queued _ _ _ (i_base _ Hi)) t Ht) as (T & E & _). rewrite (due_of_lookup _ t T E) in Hdue.
  destruct (Hlate t T); [by apply Hsch|by rewrite Hw|]. lia.
Qed.
End Dispatch.

Section Sleep.
Context (st0 : system) (now : isc_time_t) (Hi : inv st0).

Hypothesis Hrunning : done (manager st0) = false.

(** The invariant, once the thread sleeps. *)
Lemma sleep_inv st st' : rounding st0 st -> late now st st' ->
  inv (if 0 <? nscheduled (manager st') then set_thread (R_waituntil (mgr_due (manager st'))) st' else set_thread R_wait st').
Proof.
  intros S (d & -> & Hd & Hlate). pose proof S as [S1 [(G1 & G2 & G3 & G4 & G5) G6] S3 S4].
  set (st1 := set_manager _ st). set (pc := if 0 <? nscheduled (manager st1) then R_waituntil (mgr_due (manager st1)) else R_wait).
  replace (if 0 <? nscheduled (manager st1) then set_thread (R_waituntil (mgr_due (manager st1))) st1 else set_thread R_wait st1)
    with (set_thread pc st1) by (unfold pc; by destruct (0 <? _)).
  assert (base (timers (manager st0)) (dying st0) st1) as [B1 B3 B4 B5 B6 B7 B8].
  { apply (base_transfer _ _ st0); try done; [apply Hi|by left]. }
  constructor.
  - change (timers (manager (set_thread pc st1))) with (timers (manager st)). change (dying (set_thread pc st1)) with (dying st).
    rewrite G2, G4. constructor; try done.
    + intros Hx. change (done (manager st) = true) in Hx. congruence.
    + unfold pc. cbn. by destruct (0 <? _).
  - intros t T Ht E. destruct (same_timers_lookup _ _ _ _ S3 E) as (T0 & E0 & HT). rewrite HT.
    apply (i_active _ Hi t T0); [|done]. by apply S4.
  - unfold calm, pc. cbn. destruct (0 <? nscheduled (manager st)) eqn:E0; bool_prop.
    + intros t T Ht E. by apply (Hlate t T).
    + intros t Ht. destruct (queue_index S1 t Ht) as (j & Hj & _). rewrite (q_n _ _ _ S1) in E0. lia.
Qed.
End Sleep.

(** A step that is safe: it returns and leaves everything in order, or it is a round of the
    timer thread that serves a restless timer without end. *)
Definition step_safe (st : system) (l : label) : Prop :=
  step_good st l \/
  exists clock alloc now t T, l = R_run clock alloc /\ TIME_NOW clock = Done now /\ done (manager st) = false /\
    scheduled st t /\ store st !! t = Some T /\ ns (due T) <= ns now /\ restless now T = true.

(** Either a due timer is restless, or none is. *)
Lemma restless_dec st now : queued st ->
  (exists t T, scheduled st t /\ store st !! t = Some T /\ ns (due T) <= ns now /\ restless now T = true) \/
  (forall t T, scheduled st t -> store st !! t = Some T -> ns (due T) <= ns now -> restless now T = false).
Proof.
  intros Q.
  set (bad := fun t => match store st !! t with Some T => (ns (due T) <=? ns now) && restless now T | None => false end).
  destruct (existsb bad (elements (mgr_heap st))) eqn:E.
  - left. apply existsb_exists in E as (t & Ht%list_elem_of_In & Hb). unfold bad in Hb.
    destruct (store st !! t) as [T|] eqn:ET; [|done]. apply andb_true_iff in Hb as [Hd%Z.leb_le Hr]. by exists t, T.
  - right. intros t T Ht ET Hd. destruct (restless now T) eqn:Er; [|done]. exfalso.
    assert (existsb bad (elements (mgr_heap st)) = true); [|congruence]. apply existsb_exists. exists t.
    split; [by apply list_elem_of_In|]. unfold bad. rewrite ET, Er, andb_true_r. lia.
Qed.

Lemma timer_run_safe st clock alloc : inv st -> guard st (R_run clock alloc) = true -> step_safe st (R_run clock alloc).
Proof.
  intros Hi Hg. pose proof (step_unfreed _ _ Hg) as Hf. unfold guard in Hg. rewrite Hf in Hg. cbn [negb andb] in Hg.
  apply andb_true_iff in Hg as [Ht%bool_decide_eq_true Hg]. unfold step_safe, step_good, step. rewrite Hf. unfold run.
  destruct (done (manager st)) eqn:Ed.
  - left. do 2 eexists. split; [reflexivity|]. split_and!; [apply timer_thread_good; auto|apply shown_same, same_timers_refl|done].
  - destruct (clock_says_spec _ _ Hg) as (now & En & Hn & _ & _). rewrite En. cbn [obind].
    destruct (restless_dec st now (b_queued _ _ _ (i_base _ Hi))) as [(t & T & H1 & H2 & H3 & H4)|Hrest].
    { right. exists clock, alloc, now, t, T. by split_and!. }
    left. pose proof (dispatch_safe st now alloc Hi Hn) as Hsafe.
    destruct (dispatch_spec st now alloc Hi Hn Hrest) as (l & st' & out & E & _). rewrite E in *. cbn [obind].
    destruct Hsafe as (st1 & G & Hsh & Hl). do 2 eexists. split; [reflexivity|]. split_and!; [by apply (sleep_inv st now Hi Ed st1)|..].
    + destruct Hl as (d & -> & _). by destruct (0 <? _).
    + intros _ Hall. destruct Hl as (d & -> & _). pose proof (lively_same _ _ (g_same _ _ G) Hall). by destruct (0 <? _).
Qed.

Lemma every_timer_step st l : inv st -> guard st l = true -> step_safe st l.
Proof.
  intros Hi Hg. destruct l; try (by apply timer_run_safe); left.
  - by apply timer_create_good.
  - by apply timer_reset_good.
  - by apply timer_touch_good.
  - by apply timer_attach_good.
  - by apply timer_detach_good.
  - by apply timer_destroy_good.
  - by apply timer_poke_good.
  - by apply timer_mgr_destroy_good.
  - by apply timer_join_good.
  - by apply timer_wakes_good.
Qed.

(** When a step that may be taken returns, everything is in order. *)
Lemma timer_step_kept st l st' o : inv st -> guard st l = true -> step st l = Done (st', o) ->
  inv st' /\ shown (store st) o (store st') /\ (modest st l = true -> all_lively (store st) -> all_lively (store st')).
Proof.
  intros Hi Hg E. destruct (every_timer_step st l Hi Hg) as [(st1 & o1 & E1 & H)|(clock & alloc & now & t & T & -> & En & Ed & Ht & ET & Hd & Hr)].
  - rewrite E in E1. by injection E1 as <- <-.
  - exfalso. pose proof (step_unfreed _ _ Hg) as Hf. pose proof (TIME_NOW_ok _ _ En) as Hn.
    unfold step in E. rewrite Hf in E. unfold run in E. rewrite Ed, En in E. cbn [obind] in E. unfold dispatch in E.
    by rewrite (dispatch_endless st now alloc Hi Hn t T Ht ET Hd Hr) in E.
Qed.
