(* ===== verification/TimerTheory.v ===== *)
(** * Theorems on timers

    Each is a statement about every execution of the timer thread and of any number of
    callers that keep to the contract ([guard]), from the system that
    [isc__timermgr_create] makes; that [dispatch] ends needs more of the callers and of the
    clock ([modest], [tame]). *)

From stdpp Require Import sorting.
From S2P Require Import Prelude Heap Time Timer TimerQueue TimerSystem TimerSteps TimerDispatch.

(** ** Executions *)

Lemma timermgr_inv mem heap_ok mutex cond thr st0 :
  isc__timermgr_create mem heap_ok mutex cond thr = (ISC_R_SUCCESS, Some st0) -> inv st0 /\ store st0 = ∅.
Proof.
  unfold isc__timermgr_create. destruct mem, heap_ok, mutex, cond, thr; cbn [negb]; try discriminate. intros [= <-].
  assert (forall x, x ∉ elements (isc_heap_create true ∅ 0)) as Hno.
  { intros x Hx. unfold elements, sub in Hx. cbn in Hx. by apply not_elem_of_nil in Hx. }
  assert (queued (mkSystem ∅ (mkTimerMgr false [] 0 isc_time_settoepoch (isc_heap_create true ∅ 0)) R_ready [] false)) as Q.
  { constructor; try done.
    - constructor; try done; try (by left).
      intros _. split; [intros j k Hj; cbn in Hj; lia|]. intros j Hj. cbn in Hj. lia.
    - intros x Hx. by apply Hno in Hx. }
  split; [|done]. constructor; [constructor|..]; try done.
  - split; [apply NoDup_nil_2|]. intros t. cbn. rewrite lookup_empty. split; [by intros ?%not_elem_of_nil|by intros [? ?]].
  - split; [apply NoDup_nil_2|]. intros t. cbn. split; [by intros ?%not_elem_of_nil|by intros (? & ? & _)].
Qed.

Section Executions.
Context {mem heap_ok mutex cond thr : bool} {st0 : system}.
Context (Hcreate : isc__timermgr_create mem heap_ok mutex cond thr = (ISC_R_SUCCESS, Some st0)).

Lemma timer_steps_inv tr st : steps guard st0 tr st -> inv st /\ exists m, scan ∅ tr = Some m /\ agrees m (store st).
Proof.
  destruct (timermgr_inv _ _ _ _ _ _ Hcreate) as [Hi Hs]. induction 1 as [|tr st l st' o Hst [IH1 (m & Em & Am)] Hg Hstep].
  - split; [done|]. exists ∅. split; [done|]. intros t. by rewrite Hs, !lookup_empty.
  - destruct (timer_step_kept st l st' o IH1 Hg Hstep) as (Hinv & Hsh & _). split; [done|]. destruct (Hsh m Am) as (m' & Em' & Am'). exists m'. by rewrite scan_app, Em.
Qed.

Lemma tame_steps tr st : steps tame st0 tr st -> steps guard st0 tr st /\ all_lively (store st).
Proof.
  destruct (timermgr_inv _ _ _ _ _ _ Hcreate) as [_ Hs]. induction 1 as [|tr st l st' o Hst [IH1 IH2] Hg Hstep].
  - split; [constructor|]. intros t T. by rewrite Hs, lookup_empty.
  - apply andb_true_iff in Hg as [Hg Hm]. split; [by apply steps_next with st l|].
    destruct (timer_steps_inv _ _ IH1) as [Hi _]. destruct (timer_step_kept st l st' o Hi Hg Hstep) as (_ & _ & H). auto.
Qed.
End Executions.

(** In a tame execution no due timer is restless. *)
Lemma tame_restful st now : inv st -> all_lively (store st) -> time_okb now = true ->
  (forall t T, store st !! t = Some T -> carries now (interval T) = false) ->
  forall t T, scheduled st t -> store st !! t = Some T -> ns (due T) <= ns now -> restless now T = false.
Proof.
  intros Hi Hl Hn Hc t T Ht E _. destruct (q_timer _ _ _ (b_queued _ _ _ (i_base _ Hi)) t T E) as (_ & Hok & _).
  pose proof (i_active _ Hi t T Ht E). apply lively_restful; try done; [by apply (Hl t)|by apply (Hc t)].
Qed.

(** A timer is on the heap when its index is positive. *)
Lemma scheduled_index st t T : queued st -> store st !! t = Some T -> scheduled st t <-> 0 < index st t.
Proof.
  intros Q E. destruct (q_timer _ _ _ Q t T E) as (_ & _ & j & Ej & _ & Hj). rewrite (index_lookup st t j Ej). by rewrite Hj.
Qed.

(** ** The theorems *)

Section Theorems.
Context {mem heap_ok mutex cond thr : bool} {st0 : system}.


(** C19. In an execution in which callers and clock are modest ([tame]), a round of the
    timer thread serves exactly the timers that are due, each once and in the order in which
    they are due.  Each posts the event of its kind ([event_of]), when
    there is memory for it; it is scheduled again exactly when its kind says so, for the time
    [next_due]; nothing else changes; and afterwards no scheduled timer is due. *)
Theorem timer_dispatch_correct tr st now alloc :
  isc__timermgr_create mem heap_ok mutex cond thr = (ISC_R_SUCCESS, Some st0) ->
  steps tame st0 tr st -> time_okb now = true ->
  (forall t T, store st !! t = Some T -> carries now (interval T) = false) ->
  exists l st' out, dispatch st now alloc = Done (st', out) /\
    NoDup l /\
    (forall t, t ∈ l <-> exists T, store st !! t = Some T /\ 0 < index st t /\ ns (due T) <= ns now) /\
    StronglySorted (fun t u => ns (due_of (store st) t) <= ns (due_of (store st) u)) l /\
    out = posts alloc (store st) now 0 l /\
    (forall t T', store st' !! t = Some T' -> exists T, store st !! t = Some T /\
       if decide (t ∈ l)
       then T' = set_due (due T') T /\ (0 < index st' t <-> is_Some (next_due now T)) /\
            (forall x, next_due now T = Some x -> ns (due T') = x)
       else T' = T /\ (0 < index st' t <-> 0 < index st t)) /\
    (forall t T', store st' !! t = Some T' -> 0 < index st' t -> ns now < ns (due T')).
Proof.
  intros Hc Hts Hn Hcarry. destruct (tame_steps Hc _ _ Hts) as [Hs Hlv]. destruct (timer_steps_inv Hc _ _ Hs) as [Hi _]. pose proof (b_queued _ _ _ (i_base _ Hi)) as Q.
  destruct (dispatch_spec st now alloc Hi Hn (tame_restful st now Hi Hlv Hn Hcarry)) as (l & st' & out & E & Hfin). exists l, st', out. split; [done|].
  pose proof (fun t => finished_served st now alloc Hi Hn l st' out t Hfin) as Hserved.
  destruct Hfin as (st1 & [[S1 _ S3 _] S4 _ S6 S7 S8 S9 _] & d & -> & Hd & Hlate).
  assert (forall t T', store st1 !! t = Some T' -> scheduled st1 t <-> 0 < index st1 t) as Hidx
    by (intros t T'; by apply scheduled_index).
  split_and!; try done.
  - intros t. rewrite Hserved. split.
    + intros [Ht Hdue]. destruct (q_elem _ _ _ Q t Ht) as (T & ET & _). exists T. rewrite (due_of_lookup _ t T ET) in Hdue.
      split_and!; try done. by apply (scheduled_index st t T).
    + intros (T & ET & Ht & Hdue). rewrite (due_of_lookup _ t T ET). split; [by apply (scheduled_index st t T)|done].
  - intros t T' ET'. change (store st1 !! t = Some T') in ET'. change (index (set_manager _ st1) t) with (index st1 t).
    destruct (same_timers_lookup _ _ _ _ S3 ET') as (T & ET & HT). exists T. split; [done|].
    pose proof (Hidx t T' ET') as Hx. case_decide as Hl.
    + destruct (S7 t T Hl ET) as [H1 H2]. split_and!; [done|by rewrite <- Hx; apply H1..|]. intros x. by apply H2.
    + destruct (S6 t Hl) as [H1 H2]. split; [congruence|]. by rewrite <- Hx, H2, (scheduled_index st t T).
  - intros t T' ET' Ht. change (store st1 !! t = Some T') in ET'. change (index (set_manager _ st1) t) with (index st1 t) in Ht.
    apply (Hlate t T'); [by apply (Hidx t T')|done].
Qed.

(** C20. No timer is missed: while the timer thread sleeps until some time, no timer is due
    before that time; while it sleeps without a limit, no timer is scheduled; and when the
    manager is being destroyed it does not sleep.  So every change that makes an earlier
    wake-up necessary has signalled the thread. *)
Theorem timer_never_missed tr st :
  isc__timermgr_create mem heap_ok mutex cond thr = (ISC_R_SUCCESS, Some st0) ->
  steps guard st0 tr st ->
  match thread st with
  | R_waituntil d => forall t T, store st !! t = Some T -> 0 < index st t -> ns d <= ns (due T)
  | R_wait => forall t T, store st !! t = Some T -> index st t <= 0
  | R_ready | R_exit => True
  end /\
  (done (manager st) = true -> thread st = R_ready \/ thread st = R_exit).
Proof.
  intros Hc Hs. destruct (timer_steps_inv Hc _ _ Hs) as [[B _ C] _]. pose proof (b_queued _ _ _ B) as Q.
  split; [|apply (b_done _ _ _ B)]. unfold calm in C. destruct (thread st) as [|d| |]; try done.
  - intros t T E Ht. apply (C t T); [|done]. by apply (scheduled_index st t T).
  - intros t T E. destruct (decide (0 < index st t)) as [H|]; [|lia]. by apply (scheduled_index st t T), C in H.
Qed.

(** The heap, the index fields and the count of scheduled timers agree, and the timer
    that is due first is the first of the heap. *)
Theorem timer_heap_agrees tr st :
  isc__timermgr_create mem heap_ok mutex cond thr = (ISC_R_SUCCESS, Some st0) ->
  steps guard st0 tr st ->
  nscheduled (manager st) = Zlen (elements (mgr_heap st)) /\ NoDup (elements (mgr_heap st)) /\
  (forall t, t ∈ timers (manager st) <-> is_Some (store st !! t)) /\
  (forall t T, store st !! t = Some T -> 0 < index st t ->
     isc_heap_element (mgr_heap st) (index st t) = Done t /\ type T <> isc_timertype_inactive) /\
  (0 < nscheduled (manager st) -> exists t T, isc_heap_element (mgr_heap st) 1 = Done t /\ store st !! t = Some T /\
     forall u U, store st !! u = Some U -> 0 < index st u -> ns (due T) <= ns (due U)).
Proof.
  intros Hc Hs. destruct (timer_steps_inv Hc _ _ Hs) as [[B A _] _]. pose proof (b_queued _ _ _ B) as Q. split_and!.
  - rewrite (q_n _ _ _ Q). symmetry. apply (length_elements _ _ (q_wf _ _ _ Q)).
  - by apply (queue_NoDup Q).
  - apply (b_timers _ _ _ B).
  - intros t T E Ht. apply (scheduled_index st t T Q E) in Ht. split; [|by apply (A t T)].
    destruct (queue_index Q t Ht) as (j & Hj & Ej & Cj). rewrite (index_lookup st t j Ej).
    pose proof (q_wf _ _ _ Q) as [W1 [W2 W3] W4 W5 W6 W7]. unfold isc_heap_element. rewrite require_true by lia. cbn [obind].
    rewrite (proj2 (Z.leb_le j _)), rd_cell by lia. by rewrite Cj.
  - intros Hn. destruct (first_timer st Q Hn) as (t & T & E1 & _ & _ & _ & ET & _ & Hmin). exists t, T. split_and!; try done.
    intros u U EU Hu. apply (Hmin u U); [|done]. by apply (scheduled_index st u U).
Qed.

(** C21. Events come from timers that exist, and go to their tasks; and when a timer goes
    away its events have been purged since the last one was posted, so that no task is left
    with an event whose sender was freed. *)
Theorem timer_events_purged tr st :
  isc__timermgr_create mem heap_ok mutex cond thr = (ISC_R_SUCCESS, Some st0) ->
  steps guard st0 tr st ->
  exists m, scan ∅ tr = Some m /\ forall t, fst <$> m !! t = task <$> store st !! t.
Proof. intros Hc Hs. apply (timer_steps_inv Hc _ _ Hs). Qed.

End Theorems.

(** ** Executions that were run *)

Lemma labels_steps_from may st0 tr st ls st' tr' :
  steps may st0 tr st -> run_labels may st ls = Some (st', tr') -> steps may st0 (tr ++ tr') st'.
Proof.
  revert tr st tr'. induction ls as [|l ls IH]; intros tr st tr' Hs Hr.
  - injection Hr as <- <-. by rewrite app_nil_r.
  - cbn [run_labels] in Hr. destruct (may st l) eqn:Hg; [|done].
    destruct (step st l) as [[st1 o]| | |] eqn:Es; try done.
    destruct (run_labels may st1 ls) as [[st2 tr2]|] eqn:Er; [|done]. injection Hr as <- <-.
    rewrite app_assoc. apply (IH (tr ++ o) st1 tr2); [|done]. by apply steps_next with st l.
Qed.

Section Demo.

Definition demo_mgr : system :=
  mkSystem ∅ (mkTimerMgr false [] 0 isc_time_settoepoch (isc_heap_create true ∅ 0)) R_ready [] false.

Definition demo_answers (t : Z) (mem : option (list Z)) : create_answers := mkAnswers (Some t) true mem (mkTime 7 (2 ^ 31)).
Definition demo_alloc : answers := fun _ => (true, None).

(** A ticker, a timer with a lifetime and one that is both; the first two come due. *)
Definition demo_labels : list label :=
  [R_run (Some (100, 0)) demo_alloc;
   C_create isc_timertype_ticker None (Some (mkInterval 5 0)) 9 8 7 (Some (100, 5)) (demo_answers 1 (Some (replicate 1024 0)));
   C_create isc_timertype_once (Some (mkTime 103 0)) None 9 8 7 (Some (101, 5)) (demo_answers 2 None);
   R_run (Some (102, 0)) demo_alloc;
   C_create isc_timertype_limited (Some (mkTime 113 0)) (Some (mkInterval 6 0)) 9 8 7 (Some (102, 5)) (demo_answers 3 None)].

(** The ticker is given up after it has ticked. *)
Definition demo_rest : list label :=
  [R_wakes; R_run (Some (107, 0)) demo_alloc; C_detach 1; C_destroy 1].

Definition demo_timers (ls : list label) : system :=
  match run_labels guard demo_mgr ls with Some (st, _) => st | None => demo_mgr end.
Definition demo_events (ls : list label) : list obs :=
  match run_labels guard demo_mgr ls with Some (_, tr) => tr | None => [] end.

Lemma demo_timer_steps ls : is_Some (run_labels guard demo_mgr ls) -> steps guard demo_mgr (demo_events ls) (demo_timers ls).
Proof.
  intros [[st tr] E]. unfold demo_timers, demo_events. rewrite E. apply (labels_steps_from guard demo_mgr [] demo_mgr ls); [constructor|done].
Qed.

Lemma demo_tame_steps ls : run_labels tame demo_mgr ls = Some (demo_timers ls, demo_events ls) ->
  steps tame demo_mgr (demo_events ls) (demo_timers ls).
Proof. intros E. by apply (labels_steps_from tame demo_mgr [] demo_mgr ls); [constructor|]. Qed.

End Demo.


Lemma timer_dispatch_correct_witness :
  exists l st' out, dispatch (demo_timers demo_labels) (mkTime 107 0) demo_alloc = Done (st', out) /\ NoDup l /\
    (forall t, t ∈ l <-> exists T, store (demo_timers demo_labels) !! t = Some T /\ 0 < index (demo_timers demo_labels) t /\
       ns (due T) <= ns (mkTime 107 0)) /\
    out = posts demo_alloc (store (demo_timers demo_labels)) (mkTime 107 0) 0 l.
Proof.
  destruct (timer_dispatch_correct (mem := true) (heap_ok := true) (mutex := true) (cond := true) (thr := true) (st0 := demo_mgr)
    (demo_events demo_labels) (demo_timers demo_labels) (mkTime 107 0) demo_alloc)
    as (l & st' & out & H1 & H2 & H3 & _ & H5 & _).
  - reflexivity.
  - apply demo_tame_steps. vm_compute. reflexivity.
  - reflexivity.
  - assert (map_Forall (fun _ T => carries (mkTime 107 0) (interval T) = false) (store (demo_timers demo_labels))) as H
      by (apply map_Forall_to_list; vm_compute; repeat constructor).
    intros t T E. exact (H t T E).
  - exists l, st', out. split; [exact H1|]. split; [exact H2|]. split; [exact H3|exact H5].
Defined.

(** The thread sleeps until the first timer is due, at 103 seconds. *)
Lemma timer_never_missed_witness :
  thread (demo_timers demo_labels) = R_waituntil (mkTime 103 0) /\
  exists T, store (demo_timers demo_labels) !! 3 = Some T /\ ns (mkTime 103 0) <= ns (due T).
Proof.
  split; [vm_compute; reflexivity|].
  destruct (timer_never_missed (mem := true) (heap_ok := true) (mutex := true) (cond := true) (thr := true) (st0 := demo_mgr)
    (demo_events demo_labels) (demo_timers demo_labels)) as [H _]; [reflexivity|apply demo_timer_steps; vm_compute; eauto|].
  destruct (thread (demo_timers demo_labels)) as [|d| |] eqn:Et; [vm_compute in Et; discriminate Et| |vm_compute in Et; discriminate Et..].
  destruct (store (demo_timers demo_labels) !! 3) as [T|] eqn:E; [|vm_compute in E; discriminate E].
  exists T. split; [reflexivity|]. assert (d = mkTime 103 0) as Hd by (vm_compute in Et; by injection Et).
  rewrite <- Hd. apply (H 3 T E). vm_compute. reflexivity.
Defined.

Lemma timer_events_purged_witness :
  exists m, scan ∅ (demo_events (demo_labels ++ demo_rest)) = Some m /\ m !! 1 = None.
Proof.
  destruct (timer_events_purged (mem := true) (heap_ok := true) (mutex := true) (cond := true) (thr := true) (st0 := demo_mgr)
    (demo_events (demo_labels ++ demo_rest)) (demo_timers (demo_labels ++ demo_rest))) as (m & E & H);
    [reflexivity|apply demo_timer_steps; vm_compute; eauto|].
  exists m. split; [exact E|]. specialize (H 1).
  destruct (store (demo_timers (demo_labels ++ demo_rest)) !! 1) eqn:Es; [vm_compute in Es; discriminate Es|].
  destruct (m !! 1); [discriminate H|reflexivity].
Defined.

(** ** Timers that keep the thread busy *)

Section Spinning.
Context {mem heap_ok mutex cond thr : bool} {st0 : system}.

(** C40. [dispatch] ends only when no due timer is restless: from every reachable state in
    which a timer is scheduled and due that is restless - a ticker or a limited timer whose
    interval is zero or makes the time wrap, or a once timer with neither an idle time nor a
    life - the loop of [dispatch] does not end in any number of rounds, whatever the
    allocator answers, and the thread holds the lock of the manager all the while.
    [isc_timer_create] admits a ticker without an interval when a time of expiry is given,
    and [isc_timer_reset], when it makes a ticker a once timer and reports that the idle
    time is out of range, leaves it scheduled with neither time. *)
Theorem dispatch_spins tr st now alloc t T :
  isc__timermgr_create mem heap_ok mutex cond thr = (ISC_R_SUCCESS, Some st0) ->
  steps guard st0 tr st -> time_okb now = true ->
  store st !! t = Some T -> 0 < index st t -> ns (due T) <= ns now -> restless now T = true ->
  forall n, loop n (dispatch_body now alloc) (st, 0%nat, []) = NoFuel.
Proof.
  intros Hc Hs Hn E Ht Hd Hr. destruct (timer_steps_inv Hc _ _ Hs) as [Hi _].
  apply (dispatch_endless st now alloc Hi Hn t T); try done. by apply (scheduled_index st t T (b_queued _ _ _ (i_base _ Hi))).
Qed.
End Spinning.

(** A ticker without an interval *)
Definition zero_ticker : list label :=
  [C_create isc_timertype_ticker (Some (mkTime 200 0)) None 9 8 7 (Some (100, 0)) (demo_answers 1 (Some (replicate 1024 0)))].

(** A ticker that is made an idle timer whose time would be out of range: the call returns
    ISC_R_RANGE. *)
Definition failed_reset : list label :=
  [C_create isc_timertype_ticker None (Some (mkInterval 5 0)) 9 8 7 (Some (100, 0)) (demo_answers 1 (Some (replicate 1024 0)));
   C_reset 1 isc_timertype_once None (Some (mkInterval UINT_MAX 0)) true (Some (101, 0)) None].

Definition demo_timer (ls : list label) (t : Z) : isc__timer :=
  default (mkTimer 0 isc_time_epoch isc_timertype_inactive isc_time_epoch isc_interval_zero 0 0 0 isc_time_epoch)
    (store (demo_timers ls) !! t).

Lemma dispatch_spins_witness :
  (forall n, loop n (dispatch_body (mkTime 100 0) demo_alloc) (demo_timers zero_ticker, 0%nat, []) = NoFuel) /\
  (forall n, loop n (dispatch_body (mkTime 105 0) demo_alloc) (demo_timers failed_reset, 0%nat, []) = NoFuel).
Proof.
  split.
  - apply (dispatch_spins (mem := true) (heap_ok := true) (mutex := true) (cond := true) (thr := true) (st0 := demo_mgr)
      (demo_events zero_ticker) (demo_timers zero_ticker) (mkTime 100 0) demo_alloc 1 (demo_timer zero_ticker 1));
      [reflexivity|apply demo_timer_steps; vm_compute; eauto|vm_compute; try reflexivity; discriminate..].
  - apply (dispatch_spins (mem := true) (heap_ok := true) (mutex := true) (cond := true) (thr := true) (st0 := demo_mgr)
      (demo_events failed_reset) (demo_timers failed_reset) (mkTime 105 0) demo_alloc 1 (demo_timer failed_reset 1));
      [reflexivity|apply demo_timer_steps; vm_compute; eauto|vm_compute; try reflexivity; discriminate..].
Defined.

Example failed_reset_range : exists s o,
  isc__timer_reset (demo_timers (take 1 failed_reset)) 1 isc_timertype_once None (Some (mkInterval UINT_MAX 0)) true (Some (101, 0)) None
  = Done (ISC_R_RANGE, s, o).
Proof. eexists _, _. vm_compute. reflexivity. Qed.
