(* ===== verification/Netmap.v ===== *)
(** * The netmap fast path: [netmap/dns_util.c], [netmap/nm_util.c]

    DNS over UDP packets are read from and written to the rings of a network
    interface mapped into memory.  The mapped memory is a list of packet buffers,
    indexed by [buf_idx], that the receive and transmit rings share; a ring is
    its slots with [cur] and [avail].  A packet buffer is an object of its own:
    an access outside it is [Undef].  Integers in a packet are loaded and stored
    as on the little-endian machines the file is compiled for, so a field that
    is never converted keeps its network order.  The static variables of the two
    files are the fields of [nm_state].  [verbose] is 0 and is not modelled, nor
    are the log lines and the [sleep]. *)

From S2P Require Import Prelude.

(** ** Loads and stores *)

Definition le16 (v : Z) : list Z := [v mod 256; v / 256 mod 256].
Definition le32 (v : Z) : list Z := [v mod 256; v / 256 mod 256; v / 65536 mod 256; v / 16777216 mod 256].

Definition load16 (l : list Z) (i : Z) : outcome Z :=
  let* a := rd l i in
  let* b := rd l (i + 1) in
  Done (a + 256 * b).

Definition load32 (l : list Z) (i : Z) : outcome Z :=
  let* a := load16 l i in
  let* b := load16 l (i + 2) in
  Done (a + 65536 * b).

Definition store16 (l : list Z) (i v : Z) : outcome (list Z) := blit l i (le16 v).
Definition store32 (l : list Z) (i v : Z) : outcome (list Z) := blit l i (le32 v).

(** [htons] and [ntohs]. *)
Definition htons (v : Z) : Z := let v := u16 v in 256 * (v mod 256) + v / 256.

(** [memcpy(dst + i, src + j, n)]; a negative [n] becomes a huge [size_t]. *)
Definition memcpy (dst : list Z) (i : Z) (src : list Z) (j n : Z) : outcome (list Z) :=
  if (0 <=? j) && (0 <=? n) && (j + n <=? Zlen src) then blit dst i (sub src j n) else Undef.

(** ** State *)

Record macaddr_map_s := mkmac {
  m_smac : list Z;
  m_dmac : list Z;
  m_dirty : Z;
  m_qid : Z;
  m_saddr : Z;
  m_source : Z
}.

Record io_msg_s := mkmsg {
  io_buff : list Z;
  io_buff_len : Z;
  io_n : Z;
  io_saddr : Z;
  io_daddr : Z;
  io_source : Z;
  io_dest : Z
}.

Record netmap_slot := mkslot { s_buf_idx : Z; s_len : Z; s_flags : Z }.
Definition NS_BUF_CHANGED : Z := 1.

Record netmap_ring := mkring { r_avail : Z; r_cur : Z; r_slot : list netmap_slot }.
Definition r_num_slots (r : netmap_ring) : Z := Zlen (r_slot r).

Definition NETMAP_RING_NEXT (r : netmap_ring) (i : Z) : Z := if i + 1 =? r_num_slots r then 0 else i + 1.

Record my_ring := mkmyring { y_begin : Z; y_end : Z }.

(** An entry of [g_storage]; [ifname] and the fields of [ring] that belong to
    [netmap_open] are left out. *)
Record netmap_storage_s := mksto { sto_ring : my_ring; sto_fd : Z }.

Record nm_state := mkst {
  g_macaddr_map : list macaddr_map_s;
  g_macaddr_map_inited : bool;
  g_pkt_header : list Z;
  g_pkt_header_inited : bool;
  g_ip_id_next : Z;
  g_storage : list netmap_storage_s;
  w_bufs : list (list Z);
  w_rx : list netmap_ring;
  w_tx : list netmap_ring
}.

Definition set_map (w : nm_state) (m : list macaddr_map_s) (inited : bool) : nm_state :=
  mkst m inited (g_pkt_header w) (g_pkt_header_inited w) (g_ip_id_next w) (g_storage w) (w_bufs w) (w_rx w) (w_tx w).
Definition set_header (w : nm_state) (h : list Z) (inited : bool) : nm_state :=
  mkst (g_macaddr_map w) (g_macaddr_map_inited w) h inited (g_ip_id_next w) (g_storage w) (w_bufs w) (w_rx w) (w_tx w).
Definition set_ip_id (w : nm_state) (i : Z) : nm_state :=
  mkst (g_macaddr_map w) (g_macaddr_map_inited w) (g_pkt_header w) (g_pkt_header_inited w) i (g_storage w)
    (w_bufs w) (w_rx w) (w_tx w).
Definition set_bufs (w : nm_state) (b : list (list Z)) : nm_state :=
  mkst (g_macaddr_map w) (g_macaddr_map_inited w) (g_pkt_header w) (g_pkt_header_inited w) (g_ip_id_next w)
    (g_storage w) b (w_rx w) (w_tx w).
Definition set_rx (w : nm_state) (r : list netmap_ring) : nm_state :=
  mkst (g_macaddr_map w) (g_macaddr_map_inited w) (g_pkt_header w) (g_pkt_header_inited w) (g_ip_id_next w)
    (g_storage w) (w_bufs w) r (w_tx w).
Definition set_tx (w : nm_state) (r : list netmap_ring) : nm_state :=
  mkst (g_macaddr_map w) (g_macaddr_map_inited w) (g_pkt_header w) (g_pkt_header_inited w) (g_ip_id_next w)
    (g_storage w) (w_bufs w) (w_rx w) r.

(** ** The map from query id to addresses *)

Definition MAC_ADDR_MAP_ITEMS : nat := 8.
Definition zero_mac : macaddr_map_s := mkmac (replicate 6 0) (replicate 6 0) 0 0 0 0.

(** The [for] loop: the first entry that is not dirty, else the last one. *)
Fixpoint add_entry (m : list macaddr_map_s) (e : macaddr_map_s) : list macaddr_map_s :=
  match m with
  | [] => []
  | [x] => [e]
  | x :: rest => if m_dirty x =? 0 then e :: rest else x :: add_entry rest e
  end.

Definition netmap_add_macaddr (w : nm_state) (smac dmac : list Z) (saddr source qid : Z) : nm_state :=
  let m := if g_macaddr_map_inited w then g_macaddr_map w else replicate MAC_ADDR_MAP_ITEMS zero_mac in
  set_map w (add_entry m (mkmac smac dmac 1 qid saddr source)) true.

(** The first entry with the id, and the map with its [dirty] cleared; [dirty]
    is not tested. *)
Fixpoint get_entry (m : list macaddr_map_s) (qid : Z) : option (macaddr_map_s * list macaddr_map_s) :=
  match m with
  | [] => None
  | x :: rest =>
      if m_qid x =? qid then
        Some (x, mkmac (m_smac x) (m_dmac x) 0 (m_qid x) (m_saddr x) (m_source x) :: rest)
      else
        match get_entry rest qid with
        | Some (e, rest) => Some (e, x :: rest)
        | None => None
        end
  end.

(** The four outputs are in the packet [buff]: [h_source], [h_dest], [ip->saddr]
    and [udp->source]. *)
Definition netmap_get_macmap (w : nm_state) (buff : list Z) (qid : Z) : outcome (Z * nm_state * list Z) :=
  match get_entry (g_macaddr_map w) qid with
  | None => Done (-1, w, buff)
  | Some (e, m) =>
      let* buff := memcpy buff 6 (m_smac e) 0 6 in
      let* buff := memcpy buff 0 (m_dmac e) 0 6 in
      let* buff := store32 buff 26 (m_saddr e) in
      let* buff := store16 buff 34 (m_source e) in
      Done (0, set_map w m (g_macaddr_map_inited w), buff)
  end.

(** ** The Internet checksum *)

(** [sum += x] in a signed [int]. *)
Definition add_int (sum x : Z) : outcome Z := if sum + x <? 2 ^ 31 then Done (sum + x) else Undef.

(** [while (len > 1)] and the odd octet; [l] is what [addr] points to. *)
Fixpoint cksum_loop (l : list Z) (len sum : Z) : outcome Z :=
  if 1 <? len then
    match l with
    | a :: b :: l => let* sum := add_int sum (a + 256 * b) in cksum_loop l (len - 2) sum
    | _ => Undef
    end
  else if len =? 1 then
    match l with
    | a :: _ => add_int sum a
    | [] => Undef
    end
  else Done sum.

Definition in_cksum (addr : list Z) (len : Z) : outcome Z :=
  let* sum := cksum_loop addr len 0 in
  let sum := Z.shiftr sum 16 + Z.land sum 0xffff in
  let sum := sum + Z.shiftr sum 16 in
  Done (u16 (Z.lnot sum)).

(** ** Packets *)

Definition IPPROTO_UDP : Z := 17.

(** The fields are at the offsets of [struct ethhdr] (14 octets), [struct iphdr]
    (20) and [struct udphdr] (8). *)
Definition is_dns_query (buff : list Z) : outcome Z :=
  let* h_proto := load16 buff 12 in
  if negb (h_proto =? htons 0x0800) then Done 1
  else
    let* protocol := rd buff 23 in
    if negb (protocol =? IPPROTO_UDP) then Done 2
    else
      let* dest := load16 buff 36 in
      if negb (dest =? htons 53) then Done 3 else Done 0.

Definition parse_addr (w : nm_state) (buff : list Z) (iomsg : io_msg_s) : outcome (nm_state * io_msg_s) :=
  let* qid := load16 buff 42 in
  let* saddr := load32 buff 26 in
  let* daddr := load32 buff 30 in
  let* source := load16 buff 34 in
  let* dest := load16 buff 36 in
  let iomsg := mkmsg (io_buff iomsg) (io_buff_len iomsg) (io_n iomsg) saddr daddr source dest in
  let* w := (if g_pkt_header_inited w then Done w
             else
               let* h := memcpy (g_pkt_header w) 0 buff 0 42 in
               Done (set_header w h true)) in
  Done (netmap_add_macaddr w (sub buff 0 6) (sub buff 6 6) daddr dest qid, iomsg).

Definition sizeof_iphdr : Z := 20.
Definition sizeof_pesudo_udphdr : Z := 12.

(** The block that fills [check_buf] and computes [udp->check]. *)
Definition udp_checksum (buff : list Z) (udp_len : Z) : outcome Z :=
  let check_buf := replicate 512 0 in
  let* check_buf := memcpy check_buf sizeof_pesudo_udphdr buff 34 udp_len in
  let* saddr := load32 buff 26 in
  let* check_buf := store32 check_buf 0 saddr in
  let* daddr := load32 buff 30 in
  let* check_buf := store32 check_buf 4 daddr in
  let* check_buf := wr check_buf 8 0 in
  let* check_buf := wr check_buf 9 IPPROTO_UDP in
  let* check_buf := store16 check_buf 10 (htons udp_len) in
  in_cksum check_buf (udp_len + sizeof_pesudo_udphdr).

Definition build_pkt_header (w : nm_state) (buff : list Z) (n : Z) (iomsg : io_msg_s) :
    outcome (nm_state * list Z) :=
  let* qid := load16 buff 42 in
  let* (_, w, buff) := netmap_get_macmap w buff qid in
  let* buff := store32 buff 30 (io_daddr iomsg) in
  let* buff := store16 buff 16 (htons (n - 14)) in
  let id := u16 (g_ip_id_next w + 1) in
  let w := set_ip_id w id in
  let* buff := store16 buff 18 id in
  let* buff := store16 buff 24 0 in
  let* check := in_cksum (drop 14 buff) sizeof_iphdr in
  let* buff := store16 buff 24 check in
  let* buff := store16 buff 36 (io_dest iomsg) in
  let* buff := store16 buff 40 0 in
  let udp_len := n - sizeof_iphdr - 14 in
  let* buff := store16 buff 38 (htons udp_len) in
  let* check := udp_checksum buff udp_len in
  let* buff := store16 buff 40 check in
  Done (w, buff).

(** ** Rings *)

(** [rs->flags |= NS_BUF_CHANGED]. *)
Definition mark_changed (s : netmap_slot) : netmap_slot :=
  mkslot (s_buf_idx s) (s_len s) (Z.lor (s_flags s) NS_BUF_CHANGED).

(** The state of the [while] loop of [process_recv_ring]. *)
Record recv_st := mkrecv { rv_w : nm_state; rv_msg : io_msg_s; rv_slot : list netmap_slot; rv_j : Z; rv_m : Z }.

Definition recv_body (num_slots limit : Z) (s : recv_st) : outcome (recv_st + recv_st) :=
  if rv_m s <? limit then
    let* rs := rd (rv_slot s) (rv_j s) in
    let* rxbuf := rd (w_bufs (rv_w s)) (s_buf_idx rs) in
    REQUIRE s_len rs <? io_buff_len (rv_msg s) ;;
    let* q := is_dns_query rxbuf in
    let* (w, iomsg) :=
      (if negb (q =? 0) then Done (rv_w s, rv_msg s)
       else
         let* (w, iomsg) := parse_addr (rv_w s) rxbuf (rv_msg s) in
         let* b := memcpy (io_buff iomsg) 0 rxbuf 42 (s_len rs - 14 - 20 - 8) in
         Done (w, mkmsg b (io_buff_len iomsg) (s_len rs - 14 - 20 - 8) (io_saddr iomsg) (io_daddr iomsg)
                    (io_source iomsg) (io_dest iomsg))) in
    let j := if rv_j s + 1 =? num_slots then 0 else rv_j s + 1 in
    let* slot := wr (rv_slot s) (rv_j s) (mark_changed rs) in
    let s := mkrecv w iomsg slot j (rv_m s + 1) in
    Done (if q =? 0 then inr s else inl s)
  else Done (inr s).

(** At most [avail] slots are looked at.  The result is [m], the state, the
    ring and the message. *)
Definition process_recv_ring (w : nm_state) (rxring : netmap_ring) (limit : Z) (iomsg : io_msg_s) :
    outcome (Z * nm_state * netmap_ring * io_msg_s) :=
  let limit := if r_avail rxring <? limit then r_avail rxring else limit in
  let* s := loop (S (Z.to_nat limit)) (recv_body (r_num_slots rxring) limit)
              (mkrecv w iomsg (r_slot rxring) (r_cur rxring) 0) in
  Done (rv_m s, rv_w s, mkring (u32 (r_avail rxring - rv_m s)) (rv_j s) (rv_slot s), rv_msg s).

(** The [while] loop of [process_send_ring] ends with [break]. *)
Definition process_send_ring (w : nm_state) (txring : netmap_ring) (limit : Z) (iomsg : io_msg_s) :
    outcome (Z * nm_state * netmap_ring * io_msg_s) :=
  let k := r_cur txring in
  let limit := if r_avail txring <? limit then r_avail txring else limit in
  if 0 <? limit then
    let* ts := rd (r_slot txring) k in
    let* txbuf := rd (w_bufs w) (s_buf_idx ts) in
    let len := u16 (io_buff_len iomsg + 14 + 20 + 8) in
    let* txbuf := memcpy txbuf 0 (g_pkt_header w) 0 42 in
    let* txbuf := memcpy txbuf 42 (io_buff iomsg) 0 (io_buff_len iomsg) in
    let* (w, txbuf) := build_pkt_header w txbuf len iomsg in
    let* bufs := wr (w_bufs w) (s_buf_idx ts) txbuf in
    let* slot := wr (r_slot txring) k (mark_changed (mkslot (s_buf_idx ts) len (s_flags ts))) in
    Done (1, set_bufs w bufs,
          mkring (u32 (r_avail txring - 1)) (NETMAP_RING_NEXT txring k) slot,
          mkmsg (io_buff iomsg) (io_buff_len iomsg) (io_buff_len iomsg) (io_saddr iomsg) (io_daddr iomsg)
            (io_source iomsg) (io_dest iomsg))
  else Done (0, w, mkring (u32 (r_avail txring)) k (r_slot txring), iomsg).

(** [while (ri < src->end)]: the first ring of [begin .. end-1] with packets. *)
Definition find_ring (rings : list netmap_ring) (src : my_ring) : outcome (option Z) :=
  loop (S (Z.to_nat (y_end src - y_begin src))) (fun ri =>
    if ri <? y_end src then
      let* r := rd rings ri in
      if r_avail r =? 0 then Done (inl (ri + 1)) else Done (inr (Some ri))
    else Done (inr None)) (y_begin src).

Definition netmap_recv_from_ring (w : nm_state) (src : my_ring) (iomsg : io_msg_s) :
    outcome (Z * nm_state * io_msg_s) :=
  let* ri := find_ring (w_rx w) src in
  match ri with
  | None => Done (0, w, iomsg)
  | Some ri =>
      let* r := rd (w_rx w) ri in
      let* (m, w, r, iomsg) := process_recv_ring w r 512 iomsg in
      let* rx := wr (w_rx w) ri r in
      Done (m, set_rx w rx, iomsg)
  end.

Definition netmap_send_to_ring (w : nm_state) (src : my_ring) (iomsg : io_msg_s) :
    outcome (Z * nm_state * io_msg_s) :=
  let* ti := find_ring (w_tx w) src in
  match ti with
  | None => Done (0, w, iomsg)
  | Some ti =>
      let* r := rd (w_tx w) ti in
      let* (m, w, r, iomsg) := process_send_ring w r 512 iomsg in
      let* tx := wr (w_tx w) ti r in
      Done (m, set_tx w tx, iomsg)
  end.

(** ** Interfaces: nm_util.c *)

(** [pkt_queued]: the packets on the rings [begin .. end-1]. *)
Definition pkt_queued (rings : list netmap_ring) (me : my_ring) : outcome Z :=
  loop (S (Z.to_nat (y_end me - y_begin me))) (fun '(i, tot) =>
    if i <? y_end me then
      let* r := rd rings i in
      Done (inl (i + 1, u32 (tot + r_avail r)))
    else Done (inr tot)) (y_begin me, 0).

Fixpoint netmap_getring (storage : list netmap_storage_s) (fd : Z) : option my_ring :=
  match storage with
  | [] => None
  | sto :: storage => if sto_fd sto =? fd then Some (sto_ring sto) else netmap_getring storage fd
  end.

Definition netmap_recv (w : nm_state) (fd : Z) (iomsg : io_msg_s) : outcome (Z * nm_state * io_msg_s) :=
  match netmap_getring (g_storage w) fd with
  | None => Done (-1, w, iomsg)
  | Some ring => netmap_recv_from_ring w ring iomsg
  end.

Definition netmap_send (w : nm_state) (fd : Z) (iomsg : io_msg_s) : outcome (Z * nm_state * io_msg_s) :=
  match netmap_getring (g_storage w) fd with
  | None => Done (-1, w, iomsg)
  | Some ring => netmap_send_to_ring w ring iomsg
  end.

(** ** The checksum is that of RFC 1071 *)

(** The sum of the 16-bit words, an odd octet padded with 0. *)
Fixpoint wsum (l : list Z) : Z :=
  match l with
  | a :: b :: l => a + 256 * b + wsum l
  | [a] => a
  | [] => 0
  end.

Lemma pair_ind (P : list Z -> Prop) : P [] -> (forall a, P [a]) -> (forall a b l, P l -> P (a :: b :: l)) -> forall l, P l.
Proof. intros H0 H1 H2. fix IH 1. intros [|a [|b l]]; [exact H0|apply H1|apply H2, IH]. Qed.

Lemma wsum_range l : bytes l -> 0 <= wsum l <= 65535 * ((Zlen l + 1) / 2).
Proof.
  induction l as [|a|a b l IH] using pair_ind; intros Hb; cbn [wsum]; rewrite ?bytes_cons in Hb; destruct_and?; unfold is_byte in *.
  - by vm_compute.
  - change ((Zlen [a] + 1) / 2) with 1. lia.
  - rewrite !Zlen_cons. replace (1 + (1 + Zlen l) + 1) with (Zlen l + 1 + 1 * 2) by lia. rewrite Z_div_plus_full by lia.
    specialize (IH ltac:(done)). lia.
Qed.

Lemma wsum_app p q : Zlen p mod 2 = 0 -> wsum (p ++ q) = wsum p + wsum q.
Proof.
  induction p as [|a|a b p IH] using pair_ind; intros He; cbn [wsum app].
  - lia.
  - by vm_compute in He.
  - rewrite !Zlen_cons in He. replace (1 + (1 + Zlen p)) with (Zlen p + 1 * 2) in He by lia. rewrite Z_mod_plus_full in He.
    rewrite IH by done. lia.
Qed.

Lemma cksum_loop_spec l : forall rest sum, bytes l -> 0 <= sum -> sum + wsum l < 2 ^ 31 ->
  cksum_loop (l ++ rest) (Zlen l) sum = Done (sum + wsum l).
Proof.
  induction l as [|a|a b l IH] using pair_ind; intros rest sum Hb Hs Hw; cbn [wsum] in *; rewrite ?bytes_cons in Hb; destruct_and?; unfold is_byte in *.
  - change (Zlen []) with 0. destruct ([] ++ rest) as [|? [|? ?]]; cbn; f_equal; lia.
  - change (Zlen [a]) with 1. cbn. unfold add_int. by rewrite (proj2 (Z.ltb_lt _ _)) by lia.
  - pose proof (Zlen_nonneg l). pose proof (wsum_range l ltac:(done)). rewrite !Zlen_cons. cbn [app cksum_loop].
    rewrite (proj2 (Z.ltb_lt 1 _)) by lia. unfold add_int. rewrite (proj2 (Z.ltb_lt _ _)) by lia. cbn [obind].
    replace (1 + (1 + Zlen l) - 2) with (Zlen l) by lia. rewrite IH by (done || lia). f_equal. lia.
Qed.

(** The one's complement of the one's complement sum. *)
Definition rfc1071 (s : Z) : Z := if s =? 0 then 65535 else 65534 - (s - 1) mod 65535.

Lemma fold_spec s : 0 <= s < 2 ^ 31 ->
  u16 (Z.lnot (let s1 := Z.shiftr s 16 + Z.land s 0xffff in s1 + Z.shiftr s1 16)) = rfc1071 s.
Proof.
  intros Hs. cbv zeta. change 0xffff with (Z.ones 16). rewrite Z.land_ones, !Z.shiftr_div_pow2 by lia. unfold u16, rfc1071, Z.lnot.
  change (2 ^ 16) with 65536 in *. change (2 ^ 31) with 2147483648 in *.
  destruct (s =? 0) eqn:E; bool_prop; [subst; reflexivity|].
  pose proof (Z.div_mod s 65536 ltac:(lia)) as Hd. pose proof (Z.mod_pos_bound s 65536 ltac:(lia)) as Hr.
  set (q := s / 65536) in *. set (r := s mod 65536) in *. assert (Hq : 0 <= q < 32768) by lia.
  destruct (Z.lt_ge_cases (q + r) 65536) as [H|H].
  - rewrite (Z.div_small (q + r)) by lia. rewrite <- (Z.mod_unique (s - 1) 65535 q (q + r - 1)) by lia.
    rewrite <- (Z.mod_unique (Z.pred (- (q + r + 0))) 65536 (-1) (65535 - (q + r))) by lia. lia.
  - assert (E1 : (q + r) / 65536 = 1) by (symmetry; apply (Z.div_unique _ _ _ (q + r - 65536)); lia). rewrite E1.
    rewrite <- (Z.mod_unique (s - 1) 65535 (q + 1) (q + r - 65536)) by lia.
    rewrite <- (Z.mod_unique (Z.pred (- (q + r + 1))) 65536 (-2) (131070 - (q + r))) by lia. lia.
Qed.

Lemma in_cksum_spec l rest : bytes l -> Zlen l <= 65535 -> in_cksum (l ++ rest) (Zlen l) = Done (rfc1071 (wsum l)).
Proof.
  intros Hb Hl. pose proof (wsum_range l Hb) as Hw.
  assert (wsum l < 2 ^ 31) by (change (2 ^ 31) with 2147483648; divlia).
  unfold in_cksum. rewrite cksum_loop_spec by (done || lia). cbn [obind]. f_equal. apply fold_spec. lia.
Qed.

Lemma rfc1071_range s : 0 <= s -> 0 <= rfc1071 s <= 65535.
Proof. intros Hs. unfold rfc1071. case_if; bool_prop; [lia|]. pose proof (Z.mod_pos_bound (s - 1) 65535). lia. Qed.

(** A sum that contains its own checksum is all ones. *)
Lemma rfc1071_verifies s : 0 <= s -> rfc1071 (s + rfc1071 s) = 0.
Proof.
  intros Hs. unfold rfc1071 at 2. destruct (s =? 0) eqn:E; bool_prop; [subst; reflexivity|].
  unfold rfc1071. pose proof (Z.mod_pos_bound (s - 1) 65535). rewrite (proj2 (Z.eqb_neq _ 0)) by lia.
  pose proof (Z.div_mod (s - 1) 65535). replace (s + (65534 - (s - 1) mod 65535) - 1) with (65534 + (s - 1) / 65535 * 65535) by lia.
  rewrite Z_mod_plus_full. reflexivity.
Qed.

Lemma wsum_le16 c : 0 <= c <= 65535 -> wsum (le16 c) = c.
Proof. intros H. unfold le16. cbn [wsum]. divlia. Qed.

Lemma le16_bytes v : bytes (le16 v).
Proof. unfold le16. repeat (apply bytes_cons; split; [unfold is_byte; apply Z.mod_pos_bound; lia|]). constructor. Qed.

Lemma le32_bytes v : bytes (le32 v).
Proof. unfold le32. repeat (apply bytes_cons; split; [unfold is_byte; apply Z.mod_pos_bound; lia|]). constructor. Qed.

(** Data with the checksum of the same data with a zero checksum field. *)
Lemma checksum_verifies p q c : bytes p -> bytes q -> Zlen p mod 2 = 0 -> Zlen p + 2 + Zlen q <= 65535 ->
  in_cksum (p ++ [0; 0] ++ q) (Zlen p + 2 + Zlen q) = Done c ->
  0 <= c <= 65535 /\ in_cksum (p ++ le16 c ++ q) (Zlen p + 2 + Zlen q) = Done 0.
Proof.
  intros Hp Hq He Hl Hc.
  assert (Hs : forall x, bytes x -> Zlen x = 2 -> in_cksum (p ++ x ++ q) (Zlen p + 2 + Zlen q) = Done (rfc1071 (wsum p + wsum x + wsum q))).
  { intros x Hx Hlx. pose proof (in_cksum_spec (p ++ x ++ q) []) as E. rewrite app_nil_r, !Zlen_app, Hlx in E.
    replace (Zlen p + (2 + Zlen q)) with (Zlen p + 2 + Zlen q) in E by lia. rewrite E; [|by rewrite !bytes_app|lia].
    rewrite !wsum_app by (done || by rewrite Hlx). do 2 f_equal. lia. }
  rewrite Hs in Hc; [|by apply bytesb_spec|done]. injection Hc as <-.
  pose proof (wsum_range p Hp). pose proof (wsum_range q Hq). change (wsum [0; 0]) with 0.
  pose proof (rfc1071_range (wsum p + 0 + wsum q) ltac:(lia)). split; [done|].
  rewrite Hs; [|apply le16_bytes|done]. rewrite wsum_le16 by done. f_equal.
  pose proof (rfc1071_verifies (wsum p + 0 + wsum q) ltac:(lia)) as E. etransitivity; [|exact E]. apply (f_equal rfc1071). change (0 + 256 * 0 + 0) with 0. lia.
Qed.

(** ** Packets as fields *)

(** [concat fs] is a memory area made of fields; [L] are their widths. *)
Definition offset (L : list nat) (k : nat) : Z := Z.of_nat (sum_list (take k L)).

Lemma length_concat {A} (fs : list (list A)) : length (concat fs) = sum_list (map length fs).
Proof. induction fs as [|f fs IH]; [done|]. cbn [concat map sum_list]. by rewrite length_app, IH. Qed.

Lemma concat_split {A} (fs : list (list A)) k f : fs !! k = Some f ->
  concat fs = concat (take k fs) ++ f ++ concat (drop (S k) fs).
Proof. intros H. rewrite <- (take_drop_middle fs k f H) at 1. by rewrite concat_app. Qed.

Lemma offset_take {A} (fs : list (list A)) L k : map length fs = L -> Zlen (concat (take k fs)) = offset L k.
Proof. intros <-. unfold Zlen, offset. by rewrite length_concat, <- firstn_map. Qed.

Lemma blit_mid {A} (p old new q : list A) : length new = length old -> blit (p ++ old ++ q) (Zlen p) new = Done (p ++ new ++ q).
Proof.
  intros H. rewrite blit_ok by len. do 2 f_equal.
  - unfold Zlen. by rewrite Nat2Z.id, take_app_length.
  - f_equal. replace (Z.to_nat (Zlen p + Zlen new)) with (length p + length old)%nat by len.
    rewrite app_assoc, <- length_app. apply drop_app_length.
Qed.

Lemma store_field (fs : list (list Z)) L k new off : map length fs = L -> L !! k = Some (length new) -> off = offset L k ->
  blit (concat fs) off new = Done (concat (<[k := new]> fs)) /\ map length (<[k := new]> fs) = L.
Proof.
  intros HL Hk ->. pose proof Hk as Hk'. rewrite <- HL, list_lookup_fmap in Hk'. apply fmap_Some in Hk' as (old & Hf & Hlen).
  pose proof (lookup_lt_Some _ _ _ Hf). split.
  - rewrite <- (offset_take fs L k HL), (concat_split fs k old Hf), blit_mid by done. f_equal.
    by rewrite insert_take_drop, concat_app by done.
  - rewrite list_fmap_insert. change (length <$> fs) with (map length fs). rewrite HL. by apply list_insert_id.
Qed.

Lemma rd_field (fs : list (list Z)) L k f i x off : map length fs = L -> fs !! k = Some f -> f !! i = Some x ->
  off = offset L k + Z.of_nat i -> rd (concat fs) off = Done x.
Proof.
  intros HL Hf Hx ->. rewrite <- (offset_take fs L k HL), (concat_split fs k f Hf). apply rd_Done. split; [len|].
  rewrite lookup_app_r by len. unfold Zlen.
  replace (Z.to_nat (_ + Z.of_nat i) - length (concat (take k fs)))%nat with i by lia. by apply lookup_app_l_Some.
Qed.

Lemma load16_field (fs : list (list Z)) L k f i a b off : map length fs = L -> fs !! k = Some f ->
  f !! i = Some a -> f !! S i = Some b -> off = offset L k + Z.of_nat i -> load16 (concat fs) off = Done (a + 256 * b).
Proof.
  intros HL Hf Ha Hb ->. unfold load16. rewrite (rd_field fs L k f i a) by done. cbn [obind].
  rewrite (rd_field fs L k f (S i) b) by (done || lia). done.
Qed.

Lemma load32_field (fs : list (list Z)) L k v off : map length fs = L -> fs !! k = Some (le32 v) -> 0 <= v < 2 ^ 32 ->
  off = offset L k -> load32 (concat fs) off = Done v.
Proof.
  intros HL Hf Hv ->. unfold load32. rewrite (load16_field fs L k _ 0 _ _ _ HL Hf eq_refl eq_refl) by lia. cbn [obind].
  rewrite (load16_field fs L k _ 2 _ _ _ HL Hf eq_refl eq_refl) by lia. cbn [obind]. f_equal. divlia.
Qed.

Lemma drop_fields (fs : list (list Z)) L k n : map length fs = L -> Z.of_nat n = offset L k -> drop n (concat fs) = concat (drop k fs).
Proof.
  intros HL Hn. rewrite <- (offset_take fs L k HL) in Hn. unfold Zlen in Hn.
  rewrite <- (take_drop k fs) at 1. rewrite concat_app. replace n with (length (concat (take k fs))) by lia. apply drop_app_length.
Qed.

(** [memcpy] of a whole object. *)
Lemma memcpy_whole dst i src n : n = Zlen src -> memcpy dst i src 0 n = blit dst i src.
Proof.
  intros ->. unfold memcpy. pose proof (Zlen_nonneg src).
  assert ((0 <=? 0) && (0 <=? Zlen src) && (0 + Zlen src <=? Zlen src) = true) as -> by lia.
  f_equal. unfold sub. apply take_ge. unfold Zlen. rewrite Nat2Z.id. done.
Qed.

(** Network order. *)
Definition be16 (v : Z) : list Z := [v / 256; v mod 256].

Lemma le16_htons v : 0 <= v < 65536 -> le16 (htons v) = be16 v.
Proof. intros H. unfold le16, htons, be16. rewrite u16_small by done. f_equal; [divlia|f_equal; divlia]. Qed.

(** An Ethernet frame with an IP header without options and a UDP header. *)
Record packet := mkpkt {
  p_dst : list Z; p_src : list Z; p_proto : list Z;
  p_vertos : list Z; p_totlen : list Z; p_id : list Z; p_frag : list Z; p_ipcheck : list Z;
  p_saddr : list Z; p_daddr : list Z;
  p_sport : list Z; p_dport : list Z; p_udplen : list Z; p_udpcheck : list Z;
  p_data : list Z
}.

Definition fields (p : packet) : list (list Z) :=
  [p_dst p; p_src p; p_proto p; p_vertos p; p_totlen p; p_id p; p_frag p; p_ipcheck p; p_saddr p; p_daddr p;
   p_sport p; p_dport p; p_udplen p; p_udpcheck p; p_data p].

(** [p_frag] holds the fragment field, the time to live and the protocol. *)
Definition widths (n : nat) : list nat := [6; 6; 2; 2; 2; 2; 4; 2; 4; 4; 2; 2; 2; 2; n]%nat.

Definition frame (p : packet) : list Z := concat (fields p).

Definition wf_packet (p : packet) : Prop := map length (fields p) = widths (length (p_data p)) /\ Forall bytes (fields p).

(** What a receiver sums: the IP header, and the pseudo header with the segment
    of [len] octets. *)
Definition ip_header (p : packet) : list Z :=
  p_vertos p ++ p_totlen p ++ p_id p ++ p_frag p ++ p_ipcheck p ++ p_saddr p ++ p_daddr p.
Definition udp_segment (p : packet) (len : Z) : list Z :=
  p_sport p ++ p_dport p ++ p_udplen p ++ p_udpcheck p ++ take (Z.to_nat (len - 8)) (p_data p).
Definition pseudo_header (p : packet) (len : Z) : list Z := p_saddr p ++ p_daddr p ++ [0; 17] ++ be16 len.

Lemma bytes_concat fs : Forall bytes fs -> bytes (concat fs).
Proof. induction 1 as [|f fs Hf _ IH]; [constructor|]. cbn [concat]. by apply bytes_app. Qed.

Ltac packet_inv H :=
  let HL := fresh "HL" in let HB := fresh "HB" in
  destruct H as [HL HB]; unfold fields, widths in HL, HB; cbn [map] in HL;
  injection HL as ?L0 ?L1 ?L2 ?L3 ?L4 ?L5 ?L6 ?L7 ?L8 ?L9 ?L10 ?L11 ?L12 ?L13;
  rewrite !Forall_cons in HB; destruct HB as (?B0 & ?B1 & ?B2 & ?B3 & ?B4 & ?B5 & ?B6 & ?B7 & ?B8 & ?B9 & ?B10 & ?B11 & ?B12 & ?B13 & ?B14 & _).

(** The segment is copied behind the pseudo header. *)
Lemma udp_checksum_spec p len sa da : wf_packet p -> p_saddr p = le32 sa -> p_daddr p = le32 da ->
  0 <= sa < 2 ^ 32 -> 0 <= da < 2 ^ 32 -> 8 <= len <= 500 -> len <= 8 + Zlen (p_data p) ->
  udp_checksum (frame p) len = in_cksum (pseudo_header p len ++ udp_segment p len) (len + 12).
Proof.
  intros Hwf Hsa Hda Hra Hrd Hlen Hfit. pose proof Hwf as [HL HB].
  assert (Hseg : sub (frame p) 34 len = udp_segment p len).
  { unfold sub. change (Z.to_nat 34) with 34%nat. unfold frame. rewrite (drop_fields _ _ 10 34 HL eq_refl). packet_inv Hwf.
    unfold udp_segment, fields. cbn [drop concat]. rewrite app_nil_r.
    repeat (rewrite take_app_ge by lia; f_equal). f_equal. rewrite L10, L11, L12, L13. lia. }
  assert (Hls : Zlen (udp_segment p len) = len) by (packet_inv Hwf; unfold udp_segment; len).
  assert (Hbs : bytes (udp_segment p len)).
  { packet_inv Hwf. unfold udp_segment. rewrite !bytes_app. split_and!; try done. by apply bytes_take. }
  unfold udp_checksum, memcpy. assert ((0 <=? 34) && (0 <=? len) && (34 + len <=? Zlen (frame p)) = true) as ->.
  { unfold frame, Zlen. rewrite length_concat, HL. cbn. unfold Zlen in Hfit. lia. }
  rewrite Hseg.
  set (fs := [replicate 4 0; replicate 4 0; [0]; [0]; replicate 2 0; replicate (Z.to_nat len) 0; replicate (Z.to_nat (500 - len)) 0]).
  set (L := [4; 4; 1; 1; 2; Z.to_nat len; Z.to_nat (500 - len)]%nat).
  assert (HF : map length fs = L) by (unfold fs, L; cbn [map]; by rewrite !length_replicate).
  assert (Hbuf : replicate 512 0 = concat fs).
  { unfold fs. cbn [concat]. rewrite app_nil_r.
    change [0] with (replicate 1 0). rewrite <- !replicate_add. f_equal. lia. }
  rewrite Hbuf. unfold sizeof_pesudo_udphdr.
  destruct (store_field fs L 5 (udp_segment p len) 12 HF) as [-> HF1]; [cbn; f_equal; len|done|]. cbn [obind].
  change (frame p) with (concat (fields p)).
  rewrite (load32_field _ _ 8 sa 26 HL) by (done || by (cbn; rewrite Hsa)). cbn [obind]. unfold store32.
  destruct (store_field _ L 0 (le32 sa) 0 HF1 eq_refl eq_refl) as [-> HF2]. cbn [obind].
  rewrite (load32_field _ _ 9 da 30 HL) by (done || by (cbn; rewrite Hda)). cbn [obind].
  destruct (store_field _ L 1 (le32 da) 4 HF2 eq_refl eq_refl) as [-> HF3]. cbn [obind]. rewrite !wr_blit.
  destruct (store_field _ L 2 [0] 8 HF3 eq_refl eq_refl) as [-> HF4]. cbn [obind]. rewrite !wr_blit.
  destruct (store_field _ L 3 [IPPROTO_UDP] 9 HF4 eq_refl eq_refl) as [-> HF5]. cbn [obind].
  unfold store16. rewrite le16_htons by lia.
  destruct (store_field _ L 4 (be16 len) 10 HF5 eq_refl eq_refl) as [-> _]. cbn [obind].
  assert (Hbp : bytes (pseudo_header p len)).
  { unfold pseudo_header. rewrite !bytes_app, Hsa, Hda. split_and!; try apply le32_bytes; [by apply bytesb_spec|].
    unfold be16. repeat (apply bytes_cons; split; [unfold is_byte; divlia|]). constructor. }
  assert (Hlp : Zlen (pseudo_header p len ++ udp_segment p len) = len + 12) by (rewrite Zlen_app, Hls; assert (Zlen (pseudo_header p len) = 12) as -> by (unfold pseudo_header; by rewrite Hsa, Hda); lia).
  rewrite <- Hlp. rewrite <- (app_nil_r (pseudo_header p len ++ udp_segment p len)) at 2.
  rewrite (in_cksum_spec _ []) by (by rewrite ?bytes_app || lia).
  rewrite <- (in_cksum_spec (pseudo_header p len ++ udp_segment p len) (replicate (Z.to_nat (500 - len)) 0)) by (by rewrite ?bytes_app || lia).
  f_equal. unfold fs, pseudo_header, IPPROTO_UDP. rewrite Hsa, Hda. cbn [insert list_insert concat app]. rewrite <- !app_assoc, app_nil_r. done.
Qed.

(** Storing a field gives the packet with that field. *)
Lemma store_packet p p' k new off : wf_packet p -> bytes new -> widths (length (p_data p)) !! k = Some (length new) ->
  fields p' = <[k := new]> (fields p) -> p_data p' = p_data p -> off = offset (widths (length (p_data p))) k ->
  blit (frame p) off new = Done (frame p') /\ wf_packet p'.
Proof.
  intros [HL HB] Hn Hk E Hd ->. destruct (store_field _ _ k new _ HL Hk eq_refl) as [Hs HL'].
  split; [unfold frame; by rewrite Hs, <- E|]. split; rewrite E; [by rewrite Hd|]. by apply Forall_insert.
Qed.

Definition wf_entry (e : macaddr_map_s) : Prop :=
  Zlen (m_smac e) = 6 /\ Zlen (m_dmac e) = 6 /\ bytes (m_smac e) /\ bytes (m_dmac e) /\
  0 <= m_saddr e < 2 ^ 32 /\ 0 <= m_source e < 65536.

(** The packet with the addresses of the map's entry. *)
Definition from_entry (p : packet) (e : macaddr_map_s) : packet :=
  mkpkt (m_dmac e) (m_smac e) (p_proto p) (p_vertos p) (p_totlen p) (p_id p) (p_frag p) (p_ipcheck p)
    (le32 (m_saddr e)) (p_daddr p) (le16 (m_source e)) (p_dport p) (p_udplen p) (p_udpcheck p) (p_data p).

Lemma get_macmap_spec w p qid e m : wf_packet p -> get_entry (g_macaddr_map w) qid = Some (e, m) -> wf_entry e ->
  netmap_get_macmap w (frame p) qid = Done (0, set_map w m (g_macaddr_map_inited w), frame (from_entry p e)) /\
  wf_packet (from_entry p e).
Proof.
  intros Hwf Hg (E1 & E2 & E3 & E4 & _). unfold netmap_get_macmap. rewrite Hg, memcpy_whole by done.
  assert (length (m_smac e) = 6%nat /\ length (m_dmac e) = 6%nat) as [E1' E2'] by (unfold Zlen in *; lia).
  destruct p as [a0 a1 a2 a3 a4 a5 a6 a7 a8 a9 a10 a11 a12 a13 a14].
  edestruct (store_packet _ (mkpkt a0 (m_smac e) a2 a3 a4 a5 a6 a7 a8 a9 a10 a11 a12 a13 a14) 1 (m_smac e) 6 Hwf) as [-> H1];
    [done|by rewrite E1'|done|done|done|]. cbn [obind]. rewrite memcpy_whole by done.
  edestruct (store_packet _ (mkpkt (m_dmac e) (m_smac e) a2 a3 a4 a5 a6 a7 a8 a9 a10 a11 a12 a13 a14) 0 (m_dmac e) 0 H1) as [-> H2];
    [done|by rewrite E2'|done|done|done|]. cbn [obind]. unfold store32.
  edestruct (store_packet _ (mkpkt (m_dmac e) (m_smac e) a2 a3 a4 a5 a6 a7 (le32 (m_saddr e)) a9 a10 a11 a12 a13 a14) 8 (le32 (m_saddr e)) 26 H2) as [-> H3];
    [apply le32_bytes|done|done|done|done|]. cbn [obind]. unfold store16.
  edestruct (store_packet _ (from_entry (mkpkt a0 a1 a2 a3 a4 a5 a6 a7 a8 a9 a10 a11 a12 a13 a14) e) 10 (le16 (m_source e)) 34 H3) as [-> H4];
    [apply le16_bytes|done|done|done|done|]. done.
Qed.

(** The packet that is sent, but for the two checksums. *)
Definition outgoing (p : packet) (e : macaddr_map_s) (id n : Z) (iomsg : io_msg_s) (c1 c2 : Z) : packet :=
  mkpkt (m_dmac e) (m_smac e) (p_proto p) (p_vertos p) (be16 (n - 14)) (le16 id) (p_frag p) (le16 c1)
    (le32 (m_saddr e)) (le32 (io_daddr iomsg)) (le16 (m_source e)) (le16 (io_dest iomsg)) (be16 (n - 34)) (le16 c2) (p_data p).

Lemma be16_bytes v : 0 <= v < 65536 -> bytes (be16 v).
Proof. intros H. unfold be16. repeat (apply bytes_cons; split; [unfold is_byte; divlia|]). constructor. Qed.

Lemma ip_drop p : wf_packet p -> exists rest, drop 14 (frame p) = ip_header p ++ rest.
Proof.
  intros [HL HB]. unfold frame. rewrite (drop_fields _ _ 3 14 HL eq_refl).
  exists (p_sport p ++ p_dport p ++ p_udplen p ++ p_udpcheck p ++ p_data p).
  unfold fields, ip_header. cbn [drop concat]. rewrite app_nil_r, <- !app_assoc. done.
Qed.

Lemma ip_cksum p : wf_packet p -> exists c, in_cksum (drop 14 (frame p)) sizeof_iphdr = Done c /\
  in_cksum (ip_header p) 20 = Done c /\ 0 <= c <= 65535.
Proof.
  intros Hwf. destruct (ip_drop p Hwf) as [rest ->]. packet_inv Hwf.
  assert (Hl : Zlen (ip_header p) = 20) by (unfold ip_header; len).
  assert (Hb : bytes (ip_header p)) by (unfold ip_header; rewrite !bytes_app; by split_and!).
  exists (rfc1071 (wsum (ip_header p))). unfold sizeof_iphdr. rewrite <- Hl. rewrite in_cksum_spec by (done || lia).
  pose proof (in_cksum_spec (ip_header p) [] Hb ltac:(lia)) as E. rewrite app_nil_r in E. rewrite E.
  split_and!; try done; apply rfc1071_range, wsum_range, Hb.
Qed.

Definition with_udpcheck (p : packet) (c : list Z) : packet :=
  mkpkt (p_dst p) (p_src p) (p_proto p) (p_vertos p) (p_totlen p) (p_id p) (p_frag p) (p_ipcheck p)
    (p_saddr p) (p_daddr p) (p_sport p) (p_dport p) (p_udplen p) c (p_data p).

(** The checksum over a zero field verifies once it is stored there. *)
Lemma udp_sum_verifies p len : wf_packet p -> p_udpcheck p = [0; 0] -> 8 <= len <= 500 -> len <= 8 + Zlen (p_data p) ->
  exists c, in_cksum (pseudo_header p len ++ udp_segment p len) (len + 12) = Done c /\
    in_cksum (pseudo_header (with_udpcheck p (le16 c)) len ++ udp_segment (with_udpcheck p (le16 c)) len) (len + 12) = Done 0.
Proof.
  intros Hwf H0 Hlen Hfit. packet_inv Hwf.
  set (pre := p_saddr p ++ p_daddr p ++ [0; 17] ++ be16 len ++ p_sport p ++ p_dport p ++ p_udplen p).
  set (post := take (Z.to_nat (len - 8)) (p_data p)).
  assert (Hsplit : forall c, pseudo_header (with_udpcheck p c) len ++ udp_segment (with_udpcheck p c) len = pre ++ c ++ post).
  { intros c. unfold pseudo_header, udp_segment, pre, post. cbn [with_udpcheck p_saddr p_daddr p_sport p_dport p_udplen p_udpcheck p_data].
    by rewrite <- !app_assoc. }
  assert (Hp : with_udpcheck p [0; 0] = p) by (destruct p; cbn in *; by rewrite <- H0).
  pose proof (Hsplit [0; 0]) as Hs0. rewrite Hp in Hs0. rewrite Hs0.
  assert (Hlpre : Zlen pre = 18) by (unfold pre, be16; len).
  assert (Hlpost : Zlen post = len - 8) by (unfold post; unfold Zlen in *; rewrite length_take; lia).
  assert (Hbpre : bytes pre).
  { unfold pre. rewrite !bytes_app. split_and!; try done; [by apply bytesb_spec|apply be16_bytes; lia]. }
  assert (Hbpost : bytes post) by (by apply bytes_take).
  replace (len + 12) with (Zlen pre + 2 + Zlen post) by lia.
  pose proof (in_cksum_spec (pre ++ [0; 0] ++ post) []) as E. rewrite app_nil_r, !Zlen_app in E. change (Zlen [0; 0]) with 2 in E.
  rewrite Z.add_assoc in E. rewrite E; [|rewrite !bytes_app; split_and!; try done; by apply bytesb_spec|lia].
  eexists. split; [reflexivity|]. rewrite Hsplit. apply checksum_verifies; try done; [by rewrite Hlpre|lia|].
  apply E; [rewrite !bytes_app; split_and!; try done; by apply bytesb_spec|lia].
Qed.

(** The second half of [build_pkt_header], from the UDP header on. *)
Lemma udp_fill p n dest sa da : wf_packet p -> p_saddr p = le32 sa -> p_daddr p = le32 da ->
  0 <= sa < 2 ^ 32 -> 0 <= da < 2 ^ 32 -> 42 <= n <= 534 -> n <= 42 + Zlen (p_data p) ->
  exists c2, let p' := mkpkt (p_dst p) (p_src p) (p_proto p) (p_vertos p) (p_totlen p) (p_id p) (p_frag p) (p_ipcheck p)
      (p_saddr p) (p_daddr p) (p_sport p) (le16 dest) (be16 (n - 34)) (le16 c2) (p_data p) in
    (let* buff := store16 (frame p) 36 dest in
     let* buff := store16 buff 40 0 in
     let* buff := store16 buff 38 (htons (n - 34)) in
     let* check := udp_checksum buff (n - 34) in
     store16 buff 40 check) = Done (frame p') /\ wf_packet p' /\
    in_cksum (pseudo_header p' (n - 34) ++ udp_segment p' (n - 34)) (n - 34 + 12) = Done 0.
Proof.
  intros Hwf Hsa Hda Hrs Hrd Hn Hfit. destruct p as [a0 a1 a2 a3 a4 a5 a6 a7 a8 a9 a10 a11 a12 a13 a14].
  cbn [p_dst p_src p_proto p_vertos p_totlen p_id p_frag p_ipcheck p_saddr p_daddr p_sport p_dport p_udplen p_udpcheck p_data] in *.
  subst a8 a9. unfold store16.
  destruct (store_packet _ (mkpkt a0 a1 a2 a3 a4 a5 a6 a7 (le32 sa) (le32 da) a10 (le16 dest) a12 a13 a14) 11 (le16 dest) 36 Hwf) as [-> H1];
    [apply le16_bytes|done..|]. cbn [obind].
  destruct (store_packet _ (mkpkt a0 a1 a2 a3 a4 a5 a6 a7 (le32 sa) (le32 da) a10 (le16 dest) a12 [0; 0] a14) 13 (le16 0) 40 H1) as [-> H2];
    [apply le16_bytes|done..|]. cbn [obind]. rewrite le16_htons by lia.
  set (q := mkpkt a0 a1 a2 a3 a4 a5 a6 a7 (le32 sa) (le32 da) a10 (le16 dest) (be16 (n - 34)) [0; 0] a14).
  destruct (store_packet _ q 12 (be16 (n - 34)) 38 H2) as [-> H3]; [apply be16_bytes; lia|done..|]. cbn [obind].
  assert (Hfq : n - 34 <= 8 + Zlen (p_data q)) by (cbn [q p_data]; lia).
  rewrite (udp_checksum_spec q (n - 34) sa da H3 eq_refl eq_refl Hrs Hrd ltac:(lia) Hfq).
  destruct (udp_sum_verifies q (n - 34) H3 eq_refl ltac:(lia) Hfq) as (c & -> & Hv). cbn [obind]. exists c.
  destruct (store_packet q (with_udpcheck q (le16 c)) 13 (le16 c) 40 H3) as [-> H4]; [apply le16_bytes|done..|]. done.
Qed.

Definition with_ipcheck (p : packet) (c : list Z) : packet :=
  mkpkt (p_dst p) (p_src p) (p_proto p) (p_vertos p) (p_totlen p) (p_id p) (p_frag p) c
    (p_saddr p) (p_daddr p) (p_sport p) (p_dport p) (p_udplen p) (p_udpcheck p) (p_data p).

Lemma ip_verifies p c : wf_packet p -> p_ipcheck p = [0; 0] -> in_cksum (ip_header p) 20 = Done c ->
  in_cksum (ip_header (with_ipcheck p (le16 c))) 20 = Done 0.
Proof.
  intros Hwf H0 Hc. packet_inv Hwf.
  set (pre := p_vertos p ++ p_totlen p ++ p_id p ++ p_frag p). set (post := p_saddr p ++ p_daddr p).
  assert (Hsplit : forall c, ip_header (with_ipcheck p c) = pre ++ c ++ post)
    by (intros; unfold ip_header, pre, post; cbn [with_ipcheck p_vertos p_totlen p_id p_frag p_ipcheck p_saddr p_daddr]; by rewrite <- !app_assoc).
  assert (Hp : with_ipcheck p [0; 0] = p) by (destruct p; cbn in *; by rewrite <- H0).
  pose proof (Hsplit [0; 0]) as Hs0. rewrite Hp in Hs0. rewrite Hs0 in Hc. rewrite Hsplit.
  assert (Hl1 : Zlen pre = 10) by (unfold pre; len). assert (Hl2 : Zlen post = 8) by (unfold post; len).
  replace 20 with (Zlen pre + 2 + Zlen post) in Hc |- * by lia.
  apply checksum_verifies; try done; [unfold pre|unfold post|by rewrite Hl1|lia]; rewrite !bytes_app; by split_and!.
Qed.

Lemma build_spec w p n iomsg e m a b rest : wf_packet p -> p_data p = a :: b :: rest ->
  get_entry (g_macaddr_map w) (a + 256 * b) = Some (e, m) -> wf_entry e -> 0 <= io_daddr iomsg < 2 ^ 32 ->
  42 <= n <= 534 -> n <= 42 + Zlen (p_data p) ->
  exists c1 c2, let id := u16 (g_ip_id_next w + 1) in let p' := outgoing p e id n iomsg c1 c2 in
    build_pkt_header w (frame p) n iomsg = Done (set_ip_id (set_map w m (g_macaddr_map_inited w)) id, frame p') /\
    wf_packet p' /\ in_cksum (ip_header p') 20 = Done 0 /\
    in_cksum (pseudo_header p' (n - 34) ++ udp_segment p' (n - 34)) (n - 34 + 12) = Done 0.
Proof.
  intros Hwf Hd Hg He Hda Hn Hfit. unfold build_pkt_header.
  assert (load16 (frame p) 42 = Done (a + 256 * b)) as ->
    by (apply (load16_field (fields p) _ 14 (p_data p) 0 a b 42 (proj1 Hwf) eq_refl); by rewrite ?Hd).
  cbn [obind]. destruct (get_macmap_spec w p _ e m Hwf Hg He) as [-> Hw1]. cbn [obind].
  destruct p as [a0 a1 a2 a3 a4 a5 a6 a7 a8 a9 a10 a11 a12 a13 a14]. destruct He as (_ & _ & _ & _ & Hsa & _).
  unfold from_entry in *.
  cbn [p_dst p_src p_proto p_vertos p_totlen p_id p_frag p_ipcheck p_saddr p_daddr p_sport p_dport p_udplen p_udpcheck p_data] in *.
  unfold store32, store16 at 1 2 3 4. set (sa := le32 (m_saddr e)) in *. set (da := le32 (io_daddr iomsg)). set (id := u16 (g_ip_id_next w + 1)).
  set (q := fun tl i ck => mkpkt (m_dmac e) (m_smac e) a2 a3 tl i a6 ck sa da (le16 (m_source e)) a11 a12 a13 a14).
  destruct (store_packet _ (q a4 a5 a7) 9 da 30 Hw1) as [-> H2]; [apply le32_bytes|done..|]. cbn [obind].
  rewrite le16_htons by lia.
  destruct (store_packet _ (q (be16 (n - 14)) a5 a7) 4 (be16 (n - 14)) 16 H2) as [-> H3]; [apply be16_bytes; lia|done..|]. cbn [obind].
  change (g_ip_id_next (set_map w m (g_macaddr_map_inited w))) with (g_ip_id_next w). fold id.
  destruct (store_packet _ (q (be16 (n - 14)) (le16 id) a7) 5 (le16 id) 18 H3) as [-> H4]; [apply le16_bytes|done..|]. cbn [obind].
  destruct (store_packet _ (q (be16 (n - 14)) (le16 id) [0; 0]) 7 (le16 0) 24 H4) as [-> H5]; [apply le16_bytes|done..|]. cbn [obind].
  destruct (ip_cksum _ H5) as (c1 & -> & Hc1 & Hr1). cbn [obind].
  destruct (store_packet _ (q (be16 (n - 14)) (le16 id) (le16 c1)) 7 (le16 c1) 24 H5) as [E6 H6]; [apply le16_bytes|done..|].
  rewrite E6. cbn [obind].
  destruct (udp_fill (q (be16 (n - 14)) (le16 id) (le16 c1)) n (io_dest iomsg) (m_saddr e) (io_daddr iomsg) H6 eq_refl eq_refl Hsa Hda Hn Hfit)
    as (c2 & Hu & Hw7 & Hv).
  exists c1, c2. split_and!; [|done| |done].
  - unfold sizeof_iphdr. replace (n - 20 - 14) with (n - 34) by lia.
    apply obind_Done in Hu as (b1 & -> & Hu). cbn [obind]. apply obind_Done in Hu as (b2 & -> & Hu). cbn [obind].
    apply obind_Done in Hu as (b3 & -> & Hu). cbn [obind]. apply obind_Done in Hu as (b4 & -> & Hst). cbn [obind]. rewrite Hst. done.
  - pose proof (ip_verifies (q (be16 (n - 14)) (le16 id) [0; 0]) c1 H5 eq_refl Hc1) as Hv1. exact Hv1.
Qed.

(** ** Remembering a query *)

(** The entries [netmap_add_macaddr] passes before the one it takes. *)
Fixpoint scanned (m : list macaddr_map_s) : list macaddr_map_s :=
  match m with
  | [] | [_] => []
  | x :: rest => if m_dirty x =? 0 then [] else x :: scanned rest
  end.

Lemma get_add m e : m <> [] -> Forall (fun x => m_qid x <> m_qid e) (scanned m) ->
  exists m', get_entry (add_entry m e) (m_qid e) = Some (e, m').
Proof.
  induction m as [|x m IH]; intros Hne Hs; [done|]. destruct m as [|y m].
  - cbn. rewrite Z.eqb_refl. by eexists.
  - cbn [scanned add_entry] in *. destruct (m_dirty x =? 0).
    + cbn [get_entry]. rewrite Z.eqb_refl. by eexists.
    + apply Forall_cons in Hs as [Hx Hs]. destruct (IH ltac:(done) Hs) as [m' Hm']. cbn [get_entry].
      rewrite (proj2 (Z.eqb_neq _ _) Hx). rewrite Hm'. by eexists.
Qed.

(** The map [netmap_add_macaddr] works on. *)
Definition current_map (w : nm_state) : list macaddr_map_s :=
  if g_macaddr_map_inited w then g_macaddr_map w else replicate MAC_ADDR_MAP_ITEMS zero_mac.

Lemma load16_raw (fs : list (list Z)) L k f off : map length fs = L -> fs !! k = Some f -> length f = 2%nat -> bytes f -> off = offset L k ->
  exists v, load16 (concat fs) off = Done v /\ le16 v = f /\ 0 <= v < 65536.
Proof.
  intros HL Hf Hl Hb ->. destruct f as [|a [|b [|]]]; try discriminate Hl. rewrite !bytes_cons in Hb. destruct Hb as (Ha & Hb & _). unfold is_byte in *.
  rewrite (load16_field fs L k _ 0 a b _ HL Hf eq_refl eq_refl) by lia. eexists. split; [reflexivity|]. split; [|lia].
  unfold le16. f_equal; [divlia|f_equal; divlia].
Qed.

Lemma load32_raw (fs : list (list Z)) L k f off : map length fs = L -> fs !! k = Some f -> length f = 4%nat -> bytes f -> off = offset L k ->
  exists v, load32 (concat fs) off = Done v /\ le32 v = f /\ 0 <= v < 2 ^ 32.
Proof.
  intros HL Hf Hl Hb ->. destruct f as [|a [|b [|c [|d [|]]]]]; try discriminate Hl. rewrite !bytes_cons in Hb.
  destruct Hb as (Ha & Hb & Hc & Hd & _). unfold is_byte in *. unfold load32.
  rewrite (load16_field fs L k _ 0 a b _ HL Hf eq_refl eq_refl) by lia. cbn [obind].
  rewrite (load16_field fs L k _ 2 c d _ HL Hf eq_refl eq_refl) by lia. cbn [obind].
  eexists. split; [reflexivity|]. split; [|lia].
  unfold le32. repeat (f_equal; [divlia|]). f_equal. divlia.
Qed.

Lemma parse_addr_spec w q iomsg a b rest : wf_packet q -> p_data q = a :: b :: rest -> Zlen (g_pkt_header w) = 42 ->
  Forall (fun x => m_qid x <> a + 256 * b) (scanned (current_map w)) -> current_map w <> [] ->
  exists w1 msg1 e m, parse_addr w (frame q) iomsg = Done (w1, msg1) /\
    le32 (io_saddr msg1) = p_saddr q /\ le32 (io_daddr msg1) = p_daddr q /\
    le16 (io_source msg1) = p_sport q /\ le16 (io_dest msg1) = p_dport q /\
    0 <= io_saddr msg1 < 2 ^ 32 /\ io_buff msg1 = io_buff iomsg /\ io_buff_len msg1 = io_buff_len iomsg /\ io_n msg1 = io_n iomsg /\
    get_entry (g_macaddr_map w1) (a + 256 * b) = Some (e, m) /\ wf_entry e /\
    m_smac e = p_dst q /\ m_dmac e = p_src q /\ le32 (m_saddr e) = p_daddr q /\ le16 (m_source e) = p_dport q /\
    g_pkt_header w1 = (if g_pkt_header_inited w then g_pkt_header w else sub (frame q) 0 42) /\
    w_bufs w1 = w_bufs w /\ w_tx w1 = w_tx w.
Proof.
  intros Hwf Hd Hh Hs Hne. unfold parse_addr.
  assert (load16 (frame q) 42 = Done (a + 256 * b)) as ->
    by (apply (load16_field (fields q) _ 14 (p_data q) 0 a b 42 (proj1 Hwf) eq_refl); by rewrite ?Hd).
  pose proof Hwf as Hq. packet_inv Hq. cbn [obind].
  destruct (load32_raw (fields q) _ 8 _ 26 (proj1 Hwf) eq_refl L8 B8 eq_refl) as (sa & Esa & Hsa & Rsa). unfold frame at 1. rewrite Esa. cbn [obind].
  destruct (load32_raw (fields q) _ 9 _ 30 (proj1 Hwf) eq_refl L9 B9 eq_refl) as (da & Eda & Hda & Rda). unfold frame at 1. rewrite Eda. cbn [obind].
  destruct (load16_raw (fields q) _ 10 _ 34 (proj1 Hwf) eq_refl L10 B10 eq_refl) as (sp & Esp & Hsp & Rsp). unfold frame at 1. rewrite Esp. cbn [obind].
  destruct (load16_raw (fields q) _ 11 _ 36 (proj1 Hwf) eq_refl L11 B11 eq_refl) as (dp & Edp & Hdp & Rdp). unfold frame at 1. rewrite Edp. cbn [obind].
  assert (Hlen : 42 <= Zlen (frame q)) by (unfold frame, Zlen; rewrite length_concat, (proj1 Hwf); cbn; lia).
  assert (Hw : exists w1, (if g_pkt_header_inited w then Done w else let* h := memcpy (g_pkt_header w) 0 (frame q) 0 42 in Done (set_header w h true)) = Done w1 /\
    current_map w1 = current_map w /\ g_pkt_header w1 = (if g_pkt_header_inited w then g_pkt_header w else sub (frame q) 0 42) /\
    w_bufs w1 = w_bufs w /\ w_tx w1 = w_tx w).
  { destruct (g_pkt_header_inited w); [by exists w|]. unfold memcpy.
    assert ((0 <=? 0) && (0 <=? 42) && (0 + 42 <=? Zlen (frame q)) = true) as -> by lia.
    pose proof (Zlen_sub (frame q) 0 42 ltac:(lia) ltac:(lia) ltac:(lia)) as Hls.
    rewrite blit_ok by lia. cbn [obind]. eexists. split; [reflexivity|]. split_and!; try done. cbn [set_header g_pkt_header].
    rewrite Hls, drop_ge by (unfold Zlen in *; lia). by rewrite app_nil_r. }
  destruct Hw as (w1 & -> & Hcm & Hhd & Hbf & Htx). cbn [obind].
  set (e := mkmac (sub (frame q) 0 6) (sub (frame q) 6 6) 1 (a + 256 * b) da dp).
  destruct (get_add (current_map w) e Hne Hs) as [m Hm].
  assert (Esm : sub (frame q) 0 6 = p_dst q /\ sub (frame q) 6 6 = p_src q).
  { unfold sub. change (Z.to_nat 0) with 0%nat. change (Z.to_nat 6) with 6%nat. rewrite drop_0. split.
    - unfold frame, fields. cbn [concat]. rewrite take_app_length'; done.
    - unfold frame. rewrite (drop_fields _ _ 1 6 (proj1 Hwf) eq_refl). unfold fields. cbn [drop concat]. rewrite take_app_length'; done. }
  destruct Esm as [Em1 Em2]. do 2 eexists. exists e, m. split; [reflexivity|]. split_and!; try done; try apply Rsa.
  - change (get_entry (add_entry (current_map w1) e) (m_qid e) = Some (e, m)). rewrite Hcm. exact Hm.
  - unfold e, wf_entry. cbn [m_smac m_dmac m_saddr m_source]. rewrite Em1, Em2. unfold Zlen. rewrite L0, L1. split_and!; try done; lia.
Qed.

(** ** Sending *)

(** The header of 42 octets [h] and what follows it, as a packet. *)
Definition packet_of (h data : list Z) : packet :=
  mkpkt (sub h 0 6) (sub h 6 6) (sub h 12 2) (sub h 14 2) (sub h 16 2) (sub h 18 2) (sub h 20 4) (sub h 24 2)
    (sub h 26 4) (sub h 30 4) (sub h 34 2) (sub h 36 2) (sub h 38 2) (sub h 40 2) data.

Lemma packet_of_spec h data : Zlen h = 42 -> bytes h -> bytes data ->
  frame (packet_of h data) = h ++ data /\ wf_packet (packet_of h data).
Proof.
  intros Hl Hh Hd. split.
  - do 42 (destruct h as [|? h]; [discriminate Hl|]). destruct h; [|len]. unfold frame, fields, packet_of, sub. cbn. by rewrite app_nil_r.
  - split; [|unfold fields, packet_of; cbn [p_dst p_src p_proto p_vertos p_totlen p_id p_frag p_ipcheck p_saddr p_daddr p_sport p_dport p_udplen p_udpcheck p_data];
      repeat (apply Forall_cons; split; [by try apply bytes_sub|]); constructor].
    unfold fields, packet_of, widths. cbn [map p_dst p_src p_proto p_vertos p_totlen p_id p_frag p_ipcheck p_saddr p_daddr p_sport p_dport p_udplen p_udpcheck p_data].
    unfold Zlen in Hl. unfold sub. rewrite !length_take, !length_drop. repeat (apply (f_equal2 cons); [lia|]). reflexivity.
Qed.

(** What a message that is sent is made of. *)
Record sendable (w : nm_state) (r : netmap_ring) (iomsg : io_msg_s) (ts : netmap_slot) (txbuf answer : list Z) : Prop := {
  sd_avail : 0 < r_avail r < 2 ^ 32;
  sd_cur : 0 <= r_cur r;
  sd_slot : rd (r_slot r) (r_cur r) = Done ts;
  sd_buf : rd (w_bufs w) (s_buf_idx ts) = Done txbuf;
  sd_header : Zlen (g_pkt_header w) = 42 /\ bytes (g_pkt_header w);
  sd_answer : io_buff_len iomsg = Zlen answer /\ answer `prefix_of` io_buff iomsg;
  sd_bytes : bytes answer /\ bytes txbuf;
  sd_len : Zlen answer <= 492 /\ 42 + Zlen answer <= Zlen txbuf;
  sd_addr : 0 <= io_daddr iomsg < 2 ^ 32
}.

Lemma memcpy_prefix dst i src s n : s `prefix_of` src -> n = Zlen s -> memcpy dst i src 0 n = blit dst i s.
Proof.
  intros [r ->] ->. unfold memcpy. pose proof (Zlen_nonneg s). pose proof (Zlen_nonneg r). rewrite Zlen_app.
  assert ((0 <=? 0) && (0 <=? Zlen s) && (0 + Zlen s <=? Zlen s + Zlen r) = true) as -> by lia.
  f_equal. unfold sub, Zlen. rewrite Nat2Z.id. change (Z.to_nat 0) with 0%nat. rewrite drop_0. apply take_app_length.
Qed.

Lemma send_spec w r iomsg ts txbuf answer a b rest e m : sendable w r iomsg ts txbuf answer -> answer = a :: b :: rest ->
  get_entry (g_macaddr_map w) (a + 256 * b) = Some (e, m) -> wf_entry e ->
  exists w2 p' tail, process_send_ring w r 512 iomsg =
      Done (1, w2, mkring (r_avail r - 1) (NETMAP_RING_NEXT r (r_cur r))
                     (<[Z.to_nat (r_cur r) := mark_changed (mkslot (s_buf_idx ts) (42 + Zlen answer) (s_flags ts))]> (r_slot r)),
            mkmsg (io_buff iomsg) (Zlen answer) (Zlen answer) (io_saddr iomsg) (io_daddr iomsg) (io_source iomsg) (io_dest iomsg)) /\
    rd (w_bufs w2) (s_buf_idx ts) = Done (frame p') /\ p_data p' = answer ++ tail /\ wf_packet p' /\
    p_dst p' = m_dmac e /\ p_src p' = m_smac e /\ p_saddr p' = le32 (m_saddr e) /\ p_daddr p' = le32 (io_daddr iomsg) /\
    p_sport p' = le16 (m_source e) /\ p_dport p' = le16 (io_dest iomsg) /\
    p_totlen p' = be16 (28 + Zlen answer) /\ p_udplen p' = be16 (8 + Zlen answer) /\
    in_cksum (ip_header p') 20 = Done 0 /\
    in_cksum (pseudo_header p' (8 + Zlen answer) ++ udp_segment p' (8 + Zlen answer)) (20 + Zlen answer) = Done 0.
Proof.
  intros [S1 S2 S3 S4 [S5 S6] [S7 S8] [S9 S10] [S11 S12] S13] Ha Hg He. pose proof (Zlen_nonneg rest).
  assert (Hla : 2 <= Zlen answer) by (rewrite Ha, !Zlen_cons; lia). unfold process_send_ring.
  rewrite (proj2 (Z.ltb_lt 0 _)) by (case_if; lia). rewrite S3. cbn [obind]. rewrite S4. cbn [obind].
  rewrite u16_small by lia. rewrite S7. replace (Zlen answer + 14 + 20 + 8) with (42 + Zlen answer) by lia.
  rewrite (memcpy_whole txbuf 0 (g_pkt_header w) 42) by done.
  set (tail := drop (length answer) (drop 42 txbuf)).
  assert (Hb1 : blit txbuf 0 (g_pkt_header w) = Done (g_pkt_header w ++ drop 42 txbuf))
    by (rewrite blit_ok by lia; by rewrite S5).
  rewrite Hb1. cbn [obind]. rewrite (memcpy_prefix _ _ _ answer) by done.
  assert (Hb2 : blit (g_pkt_header w ++ drop 42 txbuf) 42 answer = Done (g_pkt_header w ++ answer ++ tail)).
  { rewrite <- S5. rewrite <- (take_drop (length answer) (drop 42 txbuf)) at 1. fold tail.
    apply (blit_mid (g_pkt_header w) (take (length answer) (drop 42 txbuf)) answer tail).
    rewrite length_take, length_drop. unfold Zlen in *. lia. }
  rewrite Hb2. cbn [obind].
  destruct (packet_of_spec (g_pkt_header w) (answer ++ tail) S5 S6) as [Hf Hwf]; [apply bytes_app; split; [done|by do 2 apply bytes_drop]|].
  rewrite <- Hf.
  destruct (build_spec w (packet_of (g_pkt_header w) (answer ++ tail)) (42 + Zlen answer) iomsg e m a b (rest ++ tail) Hwf)
    as (c1 & c2 & Hb & Hw' & Hc1 & Hc2); [by cbn; rewrite Ha|done|done|done|lia|cbn [packet_of p_data]; rewrite Zlen_app; pose proof (Zlen_nonneg tail); lia|].
  rewrite Hb. cbn [obind set_ip_id set_map w_bufs]. pose proof (rd_bound _ _ _ S4). pose proof (rd_bound _ _ _ S3).
  rewrite wr_ok by done. cbn [obind]. rewrite wr_ok by done. cbn [obind]. rewrite u32_small by lia.
  do 2 eexists. exists tail. split; [reflexivity|]. split.
  { apply (rd_wr_eq (w_bufs w)). by rewrite wr_ok. }
  replace (42 + Zlen answer - 14) with (28 + Zlen answer) in * by lia. replace (42 + Zlen answer - 34) with (8 + Zlen answer) in * by lia.
  replace (8 + Zlen answer + 12) with (20 + Zlen answer) in Hc2 by lia.
  split_and!; try done; cbn; f_equal; lia.
Qed.

(** ** Receiving *)

(** The [k]-th packet of a ring, counted from [cur]. *)
Definition queued (w : nm_state) (r : netmap_ring) (k : Z) (sl : netmap_slot) (buf : list Z) : Prop :=
  rd (r_slot r) ((r_cur r + k) mod r_num_slots r) = Done sl /\ rd (w_bufs w) (s_buf_idx sl) = Done buf.

Record receivable (w : nm_state) (r : netmap_ring) (iomsg : io_msg_s) : Prop := {
  rc_cur : 0 <= r_cur r < r_num_slots r;
  rc_avail : 0 <= r_avail r <= r_num_slots r /\ r_num_slots r < 2 ^ 32;
  rc_slot : forall sl, sl ∈ r_slot r -> exists buf, rd (w_bufs w) (s_buf_idx sl) = Done buf /\
    44 <= Zlen buf /\ 42 <= s_len sl <= Zlen buf /\ s_len sl < io_buff_len iomsg;
  rc_buff : io_buff_len iomsg <= Zlen (io_buff iomsg);
  rc_header : Zlen (g_pkt_header w) = 42
}.

Lemma load16_ok l i : 0 <= i -> i + 1 < Zlen l -> exists v, load16 l i = Done v.
Proof.
  intros H1 H2. unfold load16. destruct (rd_ok l i) as [x ->]; [lia|]. destruct (rd_ok l (i + 1)) as [y ->]; [lia|]. by eexists.
Qed.

Lemma load32_ok l i : 0 <= i -> i + 3 < Zlen l -> exists v, load32 l i = Done v.
Proof.
  intros H1 H2. unfold load32. destruct (load16_ok l i) as [x ->]; [lia|lia|]. destruct (load16_ok l (i + 2)) as [y ->]; [lia|lia|]. by eexists.
Qed.

Lemma is_dns_query_ok buf : 44 <= Zlen buf -> exists q, is_dns_query buf = Done q.
Proof.
  intros H. unfold is_dns_query. destruct (load16_ok buf 12) as [x ->]; [lia|lia|]. cbn [obind]. case_if; [by eexists|].
  destruct (rd_ok buf 23) as [y ->]; [lia|]. cbn [obind]. case_if; [by eexists|].
  destruct (load16_ok buf 36) as [z ->]; [lia|lia|]. cbn [obind]. case_if; by eexists.
Qed.

Lemma parse_addr_ok w buf iomsg : 44 <= Zlen buf -> Zlen (g_pkt_header w) = 42 ->
  exists w1 msg1, parse_addr w buf iomsg = Done (w1, msg1) /\ io_buff msg1 = io_buff iomsg /\ io_buff_len msg1 = io_buff_len iomsg.
Proof.
  intros H Hh. unfold parse_addr. destruct (load16_ok buf 42) as [x ->]; [lia|lia|]. cbn [obind].
  destruct (load32_ok buf 26) as [sa ->]; [lia|lia|]. cbn [obind]. destruct (load32_ok buf 30) as [da ->]; [lia|lia|]. cbn [obind].
  destruct (load16_ok buf 34) as [sp ->]; [lia|lia|]. cbn [obind]. destruct (load16_ok buf 36) as [dp ->]; [lia|lia|]. cbn [obind].
  destruct (g_pkt_header_inited w); cbn [obind]; [by do 2 eexists|]. unfold memcpy.
  assert ((0 <=? 0) && (0 <=? 42) && (0 + 42 <=? Zlen buf) = true) as -> by lia.
  rewrite blit_ok; [|lia|rewrite Zlen_sub; lia]. cbn [obind]. by do 2 eexists.
Qed.

(** Only the flags of a slot change. *)
Definition geometry (l : list netmap_slot) : list (Z * Z) := map (fun s => (s_buf_idx s, s_len s)) l.

Lemma geometry_rd l l' i sl : geometry l = geometry l' -> rd l i = Done sl ->
  exists sl', rd l' i = Done sl' /\ s_buf_idx sl' = s_buf_idx sl /\ s_len sl' = s_len sl.
Proof.
  intros Hg [Hi Hs]%rd_Done. assert (E : geometry l !! Z.to_nat i = Some (s_buf_idx sl, s_len sl)) by (unfold geometry; by rewrite list_lookup_fmap, Hs).
  rewrite Hg in E. unfold geometry in E. rewrite list_lookup_fmap in E. apply fmap_Some in E as (sl' & Hl & [= E1 E2]).
  exists sl'. split; [apply rd_Done; split; [lia|done]|]. by rewrite E1, E2.
Qed.

Lemma geometry_mark l i sl : rd l i = Done sl -> geometry (<[Z.to_nat i := mark_changed sl]> l) = geometry l.
Proof.
  intros [Hi Hs]%rd_Done. unfold geometry. rewrite list_fmap_insert. apply list_insert_id. by rewrite list_lookup_fmap, Hs.
Qed.

Lemma ring_next n j : 0 <= j < n -> (if j + 1 =? n then 0 else j + 1) = (j + 1) mod n.
Proof. intros H. case_if; bool_prop; [rewrite E; by rewrite Z_mod_same_full|by rewrite Z.mod_small by lia]. Qed.

(** What [process_recv_ring] leaves behind. *)
Definition received (w : nm_state) (r : netmap_ring) (limit : Z) (iomsg : io_msg_s) (m : Z) (w' : nm_state) (msg' : io_msg_s) : Prop :=
  (m = limit /\ w' = w /\ msg' = iomsg /\
   forall k sl buf, 0 <= k < m -> queued w r k sl buf -> is_dns_query buf <> Done 0) \/
  (exists sl buf msg1 b, 1 <= m <= limit /\ queued w r (m - 1) sl buf /\ is_dns_query buf = Done 0 /\
     (forall k sl buf, 0 <= k < m - 1 -> queued w r k sl buf -> is_dns_query buf <> Done 0) /\
     parse_addr w buf iomsg = Done (w', msg1) /\ sub b 0 (s_len sl - 42) = sub buf 42 (s_len sl - 42) /\
     msg' = mkmsg b (io_buff_len iomsg) (s_len sl - 42) (io_saddr msg1) (io_daddr msg1) (io_source msg1) (io_dest msg1)).

Lemma sub_blit_front (l src l' : list Z) : blit l 0 src = Done l' -> sub l' 0 (Zlen src) = src.
Proof.
  intros (_ & H & ->)%blit_Done. unfold sub, Zlen. change (Z.to_nat 0) with 0%nat. rewrite take_0, drop_0, Nat2Z.id. cbn [app]. apply take_app_length.
Qed.

Definition recv_inv (w : nm_state) (r : netmap_ring) (limit : Z) (iomsg : io_msg_s) (s : recv_st) : Prop :=
  0 <= rv_m s <= limit /\ rv_j s = (r_cur r + rv_m s) mod r_num_slots r /\ geometry (rv_slot s) = geometry (r_slot r) /\
  rv_w s = w /\ rv_msg s = iomsg /\
  forall k sl buf, 0 <= k < rv_m s -> queued w r k sl buf -> is_dns_query buf <> Done 0.

Definition recv_post (w : nm_state) (r : netmap_ring) (limit : Z) (iomsg : io_msg_s) (s : recv_st) : Prop :=
  0 <= rv_m s <= limit /\ rv_j s = (r_cur r + rv_m s) mod r_num_slots r /\ geometry (rv_slot s) = geometry (r_slot r) /\
  received w r limit iomsg (rv_m s) (rv_w s) (rv_msg s).

(** One packet. *)
Lemma recv_body_spec w r limit iomsg s : receivable w r iomsg -> recv_inv w r limit iomsg s ->
  match recv_body (r_num_slots r) limit s with
  | Done (inl s') => recv_inv w r limit iomsg s' /\ 0 <= limit - rv_m s' < limit - rv_m s
  | Done (inr s') => recv_post w r limit iomsg s'
  | _ => False
  end.
Proof.
  intros [C1 [C2 C3] C4 C5 C6] (Hm & Hj & Hg & Hw & Hmsg & Hno). unfold recv_body. rewrite Hw, Hmsg.
  destruct (rv_m s <? limit) eqn:Elim; bool_prop.
  2:{ split_and!; try done; try lia. left. rewrite Hw, Hmsg. split_and!; try done. lia. }
  assert (Hjr : 0 <= rv_j s < r_num_slots r) by (rewrite Hj; apply Z.mod_pos_bound; lia).
  destruct (rd_ok (r_slot r) (rv_j s)) as [sl0 Hsl0]; [done|].
  destruct (geometry_rd _ (rv_slot s) _ _ (eq_sym Hg) Hsl0) as (sl & Hsl & Eidx & Elen). rewrite Hsl. cbn [obind]. rewrite Eidx, Elen.
  destruct (C4 sl0) as (buf & Hbuf & Hb1 & Hb2 & Hb3); [apply rd_Done in Hsl0 as [_ Hx]; by apply list_elem_of_lookup_2 in Hx|].
  rewrite Hbuf. cbn [obind]. rewrite require_true by lia. cbn [obind].
  assert (Hqd : queued w r (rv_m s) sl0 buf) by (split; [by rewrite <- Hj|done]).
  destruct (is_dns_query_ok buf Hb1) as [q Hq]. rewrite Hq. cbn [obind].
  assert (Hnext : (if rv_j s + 1 =? r_num_slots r then 0 else rv_j s + 1) = (r_cur r + (rv_m s + 1)) mod r_num_slots r).
  { rewrite ring_next by done. rewrite Hj, Z.add_mod_idemp_l by lia. f_equal. lia. }
  pose proof (geometry_mark _ _ _ Hsl) as Hgm. pose proof (rd_bound _ _ _ Hsl) as Hbd.
  destruct (q =? 0) eqn:Eq; bool_prop; cbn [negb].
  - subst q. destruct (parse_addr_ok w buf iomsg Hb1 C6) as (w1 & msg1 & Hp & Hbf & Hbl). rewrite Hp. cbn [obind].
    unfold memcpy. replace (s_len sl0 - 14 - 20 - 8) with (s_len sl0 - 42) by lia.
    assert ((0 <=? 42) && (0 <=? s_len sl0 - 42) && (42 + (s_len sl0 - 42) <=? Zlen buf) = true) as -> by lia.
    assert (Hls : Zlen (sub buf 42 (s_len sl0 - 42)) = s_len sl0 - 42) by (apply Zlen_sub; lia).
    rewrite Hbf. assert (Hbk : exists b, blit (io_buff iomsg) 0 (sub buf 42 (s_len sl0 - 42)) = Done b) by (rewrite blit_ok by lia; by eexists).
    destruct Hbk as [b Hbk]. rewrite Hbk. cbn [obind]. rewrite wr_ok by done. cbn [obind].
    split_and!; cbn [rv_m rv_j rv_slot rv_w rv_msg]; try lia; try exact Hnext; try by rewrite Hgm.
    right. exists sl0, buf, msg1, b. replace (rv_m s + 1 - 1) with (rv_m s) by lia. split_and!; try done; try lia.
    + pose proof (sub_blit_front _ _ _ Hbk) as Hsb. by rewrite Hls in Hsb.
    + by rewrite Hbl.
  - cbn [obind]. rewrite wr_ok by done. cbn [obind]. split; [|cbn; lia].
    split_and!; cbn [rv_m rv_j rv_slot rv_w rv_msg]; try lia; try done; try by rewrite Hgm.
    intros k sl' buf' Hk [Hk1 Hk2]. destruct (Z.eq_dec k (rv_m s)) as [->|Hne]; [|apply (Hno k sl' buf'); [lia|done]].
    destruct Hqd as [Hq1 Hq2]. rewrite Hq1 in Hk1. injection Hk1 as <-. rewrite Hq2 in Hk2. injection Hk2 as <-. congruence.
Qed.

Lemma recv_spec w r limit iomsg : receivable w r iomsg -> 0 <= limit ->
  let lim := Z.min (r_avail r) limit in
  exists m w' r' msg', process_recv_ring w r limit iomsg = Done (m, w', r', msg') /\ 0 <= m <= lim /\
    r_avail r' = r_avail r - m /\ r_cur r' = (r_cur r + m) mod r_num_slots r /\ geometry (r_slot r') = geometry (r_slot r) /\
    received w r lim iomsg m w' msg'.
Proof.
  intros Hr Hl lim. pose proof Hr as [C1 [C2 C3] C4 C5 C6]. unfold process_recv_ring.
  assert ((if r_avail r <? limit then r_avail r else limit) = lim) as -> by (unfold lim; case_if; lia).
  assert (0 <= lim) by (unfold lim; lia).
  destruct (loop_rule (recv_body (r_num_slots r) lim) (recv_inv w r lim iomsg) (fun s => lim - rv_m s) (recv_post w r lim iomsg)
    (fun s => recv_body_spec w r lim iomsg s Hr) (S (Z.to_nat lim)) (mkrecv w iomsg (r_slot r) (r_cur r) 0)) as (s & -> & P1 & P2 & P3 & P4).
  - split_and!; cbn; try done; try lia. by rewrite Z.add_0_r, Z.mod_small.
  - cbn. lia.
  - cbn [obind]. do 4 eexists. split; [reflexivity|]. cbn [r_avail r_cur r_slot]. split_and!; try done; try lia.
    rewrite u32_small; lia.
Qed.

Lemma parse_addr_rx w buf iomsg w1 msg1 : parse_addr w buf iomsg = Done (w1, msg1) -> w_rx w1 = w_rx w.
Proof.
  unfold parse_addr. intros H. do 5 (apply obind_Done in H as (? & _ & H)). apply obind_Done in H as (w2 & Hw & [= <- <-]).
  cbn. destruct (g_pkt_header_inited w); [by injection Hw as <-|]. apply obind_Done in Hw as (h & _ & [= <-]). done.
Qed.

Lemma received_rx w r lim iomsg m w' msg' : received w r lim iomsg m w' msg' -> w_rx w' = w_rx w.
Proof. intros [(_ & -> & _)|(sl & buf & msg1 & b & _ & _ & _ & _ & Hp & _)]; [done|by eapply parse_addr_rx]. Qed.

(** The first ring with packets. *)
Lemma find_ring_spec rings src : 0 <= y_begin src <= y_end src -> y_end src <= Zlen rings ->
  exists o, find_ring rings src = Done o /\
    match o with
    | Some ri => y_begin src <= ri < y_end src /\ exists r, rd rings ri = Done r /\ r_avail r <> 0
    | None => forall i r, y_begin src <= i < y_end src -> rd rings i = Done r -> r_avail r = 0
    end.
Proof.
  intros Hb He. unfold find_ring.
  refine (loop_rule _ (fun ri => y_begin src <= ri <= y_end src /\ forall i r, y_begin src <= i < ri -> rd rings i = Done r -> r_avail r = 0)
    (fun ri => y_end src - ri) _ _ _ _ _ _).
  - intros ri [Hri Hz]. destruct (ri <? y_end src) eqn:E; bool_prop.
    + destruct (rd_ok rings ri) as [r Hr]; [lia|]. rewrite Hr. cbn [obind]. destruct (r_avail r =? 0) eqn:Ea; bool_prop.
      * split; [|lia]. split; [lia|]. intros i r' Hi Hr'. destruct (Z.eq_dec i ri) as [->|]; [congruence|apply (Hz i); [lia|done]].
      * split; [lia|]. by exists r.
    + intros i r Hi. apply Hz. lia.
  - split; [lia|]. intros i r Hi. lia.
  - lia.
Qed.

(** ** Properties *)

(** The checksum: on at most 65535 octets [in_cksum] does not overflow its
    [int] and returns the RFC 1071 checksum; storing the checksum of data with a
    zero checksum field in that field makes the sum over the data verify. *)
Theorem in_cksum_rfc1071 (p q rest : list Z) :
  bytes p -> bytes q -> Zlen p mod 2 = 0 -> Zlen p + 2 + Zlen q <= 65535 ->
  in_cksum ((p ++ [0; 0] ++ q) ++ rest) (Zlen p + 2 + Zlen q) = Done (rfc1071 (wsum (p ++ [0; 0] ++ q))) /\
  in_cksum (p ++ le16 (rfc1071 (wsum (p ++ [0; 0] ++ q))) ++ q) (Zlen p + 2 + Zlen q) = Done 0.
Proof.
  intros Hp Hq He Hl.
  assert (Hb : bytes (p ++ [0; 0] ++ q)) by (rewrite !bytes_app; split_and!; try done; by apply bytesb_spec).
  assert (E : Zlen (p ++ [0; 0] ++ q) = Zlen p + 2 + Zlen q) by (rewrite !Zlen_app; change (Zlen [0; 0]) with 2; lia).
  pose proof (fun r => in_cksum_spec (p ++ [0; 0] ++ q) r Hb ltac:(lia)) as Hc. rewrite E in Hc. split; [apply Hc|].
  apply checksum_verifies; try done. specialize (Hc []). by rewrite app_nil_r in Hc.
Qed.

(** C32. An answer returns to its sender under three conditions: no pending
    entry before that of the query has its id, no other query is parsed between
    the query and its answer, and the answer has at most 492 octets.  Then the
    packet built for an answer with the query's id goes from and to the
    addresses of the query exchanged (hardware, Internet and port), carries the
    answer with the right lengths, and both its checksums verify.  A longer answer
    overflows a buffer ([long_answer_overflows]), and a query parsed in between can
    evict the entry ([pending_query_evicted]). *)
Theorem answer_returns_to_sender (w : nm_state) (q : packet) (iomsg : io_msg_s) (a b : Z) (rest : list Z) :
  wf_packet q -> p_data q = a :: b :: rest -> Zlen (g_pkt_header w) = 42 ->
  Forall (fun x => m_qid x <> a + 256 * b) (scanned (current_map w)) -> current_map w <> [] ->
  exists w1 msg1, parse_addr w (frame q) iomsg = Done (w1, msg1) /\
    forall r out ts txbuf answer arest, sendable w1 r out ts txbuf answer -> answer = a :: b :: arest ->
      io_daddr out = io_saddr msg1 -> io_dest out = io_source msg1 ->
      exists w2 r2 out2 p' tail, process_send_ring w1 r 512 out = Done (1, w2, r2, out2) /\ io_n out2 = Zlen answer /\
        r_cur r2 = NETMAP_RING_NEXT r (r_cur r) /\ r_avail r2 = r_avail r - 1 /\
        rd (w_bufs w2) (s_buf_idx ts) = Done (frame p') /\ p_data p' = answer ++ tail /\
        p_dst p' = p_src q /\ p_src p' = p_dst q /\ p_saddr p' = p_daddr q /\ p_daddr p' = p_saddr q /\
        p_sport p' = p_dport q /\ p_dport p' = p_sport q /\
        p_totlen p' = be16 (28 + Zlen answer) /\ p_udplen p' = be16 (8 + Zlen answer) /\
        in_cksum (ip_header p') 20 = Done 0 /\
        in_cksum (pseudo_header p' (8 + Zlen answer) ++ udp_segment p' (8 + Zlen answer)) (20 + Zlen answer) = Done 0.
Proof.
  intros Hwf Hd Hh Hs Hne.
  destruct (parse_addr_spec w q iomsg a b rest Hwf Hd Hh Hs Hne) as
    (w1 & msg1 & e & m & Hp & P1 & P2 & P3 & P4 & P5 & _ & _ & _ & Hg & He & E1 & E2 & E3 & E4 & _).
  exists w1, msg1. split; [done|]. intros r out ts txbuf answer arest Hsd Ha Hda Hde.
  destruct (send_spec w1 r out ts txbuf answer a b arest e m Hsd Ha Hg He) as
    (w2 & p' & tail & Hsend & Hrd & Hdata & _ & D1 & D2 & D3 & D4 & D5 & D6 & D7 & D8 & D9 & D10).
  do 3 eexists. exists p', tail. split; [exact Hsend|]. split_and!; try done; congruence.
Qed.

(** C33. Receiving: [netmap_recv] on a known descriptor takes packets from the
    first ring that has any, and stops at the first DNS query: it returns the
    number of packets it consumed, advances [cur] cyclically and lowers [avail]
    by it, and either all of them were no queries and the message is unchanged,
    or the last one was the only query, and the message holds its payload,
    length and addresses. *)
Theorem netmap_recv_correct (w : nm_state) (fd : Z) (src : my_ring) (iomsg : io_msg_s) :
  netmap_getring (g_storage w) fd = Some src -> 0 <= y_begin src <= y_end src -> y_end src <= Zlen (w_rx w) ->
  (forall r, r ∈ w_rx w -> receivable w r iomsg) ->
  (netmap_recv w fd iomsg = Done (0, w, iomsg) /\
   forall i r, y_begin src <= i < y_end src -> rd (w_rx w) i = Done r -> r_avail r = 0) \/
  (exists ri r m w' r' msg', y_begin src <= ri < y_end src /\ rd (w_rx w) ri = Done r /\ r_avail r <> 0 /\
     netmap_recv w fd iomsg = Done (m, set_rx w' (<[Z.to_nat ri := r']> (w_rx w)), msg') /\
     r_avail r' = r_avail r - m /\ r_cur r' = (r_cur r + m) mod r_num_slots r /\
     geometry (r_slot r') = geometry (r_slot r) /\ received w r (Z.min (r_avail r) 512) iomsg m w' msg').
Proof.
  intros Hg Hb He Hrc. unfold netmap_recv, netmap_recv_from_ring. rewrite Hg.
  destruct (find_ring_spec (w_rx w) src Hb He) as ([ri|] & -> & H); cbn [obind]; [right|left; done].
  destruct H as (Hri & r & Hr & Ha). rewrite Hr. cbn [obind].
  assert (Hin : r ∈ w_rx w) by (apply rd_Done in Hr as [_ Hr]; by apply list_elem_of_lookup_2 in Hr).
  destruct (recv_spec w r 512 iomsg (Hrc r Hin) ltac:(lia)) as (m & w' & r' & msg' & -> & Hm & H1 & H2 & H3 & H4). cbn [obind].
  assert (Hrx : w_rx w' = w_rx w) by (by eapply received_rx).
  rewrite Hrx. rewrite wr_ok by (by eapply rd_bound). cbn [obind].
  exists ri, r, m, w', r', msg'. split_and!; try done; lia.
Qed.

(** An answer of more than 492 octets does not get out: its segment is
    copied into the 512 octets of [check_buf] behind the pseudo header without
    a test, so no run of [process_send_ring] on it returns. *)
Theorem long_answer_overflows (w : nm_state) (r : netmap_ring) (iomsg : io_msg_s) :
  0 < r_avail r -> 492 < io_buff_len iomsg <= 65493 ->
  forall res, process_send_ring w r 512 iomsg <> Done res.
Proof.
  intros Ha Hl res H. unfold process_send_ring in H. rewrite (proj2 (Z.ltb_lt 0 _)) in H by (case_if; lia).
  rewrite u16_small in H by lia. do 4 (apply obind_Done in H as (? & _ & H)).
  apply obind_Done in H as ([w' b'] & Hb & _). unfold build_pkt_header in Hb.
  apply obind_Done in Hb as (qid & _ & Hb). apply obind_Done in Hb as ([[r0 w0] b0] & _ & Hb).
  do 9 (apply obind_Done in Hb as (? & _ & Hb)). apply obind_Done in Hb as (c & Hc & _).
  unfold udp_checksum in Hc. apply obind_Done in Hc as (cb & Hm & _). unfold memcpy in Hm.
  destruct (_ && _) eqn:E; [|done]. unfold sizeof_iphdr in *. bool_prop. apply blit_Done in Hm as (_ & Hm & _).
  rewrite Zlen_sub in Hm by lia. change (Zlen (replicate 512 0)) with 512 in Hm. unfold sizeof_pesudo_udphdr in Hm. lia.
Qed.

(** A runt packet: when the first packet of a ring looks like a DNS query
    in its buffer but its slot says fewer than 42 octets, the length handed to
    [memcpy] is negative; the length is tested only to log it. *)
Theorem short_query_overflows (w : nm_state) (r : netmap_ring) (iomsg : io_msg_s) (sl : netmap_slot) (buf : list Z) :
  0 < r_avail r -> 0 <= r_cur r < r_num_slots r -> queued w r 0 sl buf -> is_dns_query buf = Done 0 -> s_len sl < 42 ->
  forall res, process_recv_ring w r 512 iomsg <> Done res.
Proof.
  intros Ha Hcur [Hq1 Hq2] Hq Hl res H. unfold process_recv_ring in H. apply obind_Done in H as (s & H & _).
  set (lim := if r_avail r <? 512 then r_avail r else 512) in H. assert (Hlim : 0 < lim) by (unfold lim; case_if; lia).
  destruct (Z.to_nat lim) as [|k] eqn:E; cbn [loop] in H; unfold recv_body at 1 in H; cbn [rv_m rv_slot rv_j rv_w rv_msg] in H;
    rewrite (proj2 (Z.ltb_lt 0 _) Hlim), Z.add_0_r, Z.mod_small in * by done; rewrite Hq1 in H; cbn [obind] in H; rewrite Hq2 in H; cbn [obind] in H.
  all: destruct (s_len sl <? io_buff_len iomsg); cbn [require obind] in H; [|done]; rewrite Hq in H; cbn [obind negb Z.eqb] in H.
  all: destruct (parse_addr w buf iomsg) as [[w1 msg1]| | |]; cbn [obind] in H; try done.
  all: unfold memcpy in H; assert (Hf : (0 <=? 42) && (0 <=? s_len sl - 14 - 20 - 8) && (42 + (s_len sl - 14 - 20 - 8) <=? Zlen buf) = false) by lia;
    rewrite Hf in H; done.
Qed.

Lemma get_entry_None m qid : Forall (fun x => m_qid x <> qid) m -> get_entry m qid = None.
Proof. induction 1 as [|x m Hx _ IH]; [done|]. cbn. by rewrite (proj2 (Z.eqb_neq _ _) Hx), IH. Qed.

Lemma add_entry_full m x e : Forall (fun y => m_dirty y <> 0) m -> add_entry (m ++ [x]) e = m ++ [e].
Proof.
  induction 1 as [|y m Hy _ IH]; [done|]. cbn [app add_entry]. rewrite (proj2 (Z.eqb_neq _ _) Hy), IH.
  destruct (m ++ [x]) eqn:E; [by destruct m|done].
Qed.

(** The map holds eight pending queries: when the others are pending, a new
    query takes the place of the last one, and the addresses of the query that
    was there are not found again. *)
Theorem pending_query_evicted (w : nm_state) (m : list macaddr_map_s) (x : macaddr_map_s)
    (smac dmac : list Z) (saddr source qid : Z) (buff : list Z) :
  g_macaddr_map_inited w = true -> g_macaddr_map w = m ++ [x] -> Forall (fun y => m_dirty y <> 0) m ->
  Forall (fun y => m_qid y <> m_qid x) m -> qid <> m_qid x ->
  let w' := netmap_add_macaddr w smac dmac saddr source qid in
  netmap_get_macmap w' buff (m_qid x) = Done (-1, w', buff).
Proof.
  intros Hi Hm Hd Hq Hne w'. unfold netmap_get_macmap, w', netmap_add_macaddr. rewrite Hi, Hm. cbn [set_map g_macaddr_map].
  rewrite add_entry_full by done. rewrite get_entry_None; [done|]. apply Forall_app. split; [done|]. by constructor.
Qed.

(** *** Witnesses *)

Definition sample_msg : io_msg_s := mkmsg (replicate 512 0) 512 0 0 0 0 0.

Definition sample_query : packet :=
  mkpkt [2; 0; 0; 0; 0; 1] [2; 0; 0; 0; 0; 2] [8; 0] [69; 0] [0; 33] [0; 7] [64; 0; 64; 17] [0; 0]
    [10; 0; 0; 2] [10; 0; 0; 1] [4; 210] [0; 53] [0; 13] [0; 0] [18; 52; 1; 0; 0].

Definition sample_ring : netmap_ring := mkring 1 1 [mkslot 2 47 0; mkslot 2 47 0].

Definition sample_state : nm_state :=
  mkst (replicate 8 zero_mac) false (replicate 42 0) false 298 [mksto (mkmyring 0 1) 5]
    [[]; []; frame sample_query ++ replicate 3 0; replicate 64 0] [sample_ring] [].

Lemma bytes_dec l : forallb is_byteb l = true -> bytes l.
Proof. apply bytesb_spec. Qed.

Lemma sample_query_wf : wf_packet sample_query.
Proof. split; [reflexivity|]. repeat (apply Forall_cons; split; [apply bytes_dec; reflexivity|]). constructor. Qed.

Lemma in_cksum_rfc1071_witness :
  in_cksum (([69; 0] ++ [0; 0] ++ [255; 255; 9]) ++ [1]) 7 = Done (rfc1071 (wsum ([69; 0] ++ [0; 0] ++ [255; 255; 9]))) /\
  in_cksum ([69; 0] ++ le16 (rfc1071 (wsum ([69; 0] ++ [0; 0] ++ [255; 255; 9]))) ++ [255; 255; 9]) 7 = Done 0.
Proof.
  apply (in_cksum_rfc1071 [69; 0] [255; 255; 9] [1]).
  - apply bytes_dec. reflexivity.
  - apply bytes_dec. reflexivity.
  - reflexivity.
  - vm_compute. discriminate.
Defined.

Lemma long_answer_overflows_witness : process_send_ring sample_state sample_ring 512 (mkmsg (replicate 500 0) 500 0 0 0 0 0) <> Done (0, sample_state, sample_ring, sample_msg).
Proof. apply long_answer_overflows; [reflexivity|split; [reflexivity|vm_compute; discriminate]]. Defined.

Lemma short_query_overflows_witness :
  process_recv_ring sample_state (mkring 1 0 [mkslot 2 41 0]) 512 sample_msg <> Done (0, sample_state, sample_ring, sample_msg).
Proof.
  apply (short_query_overflows sample_state (mkring 1 0 [mkslot 2 41 0]) sample_msg (mkslot 2 41 0) (frame sample_query ++ replicate 3 0)).
  - reflexivity.
  - vm_compute. split; [discriminate|reflexivity].
  - split; reflexivity.
  - reflexivity.
  - reflexivity.
Defined.

Lemma pending_query_evicted_witness :
  let m := map (fun i => mkmac (replicate 6 0) (replicate 6 0) 1 i 0 0) [1; 2; 3; 4; 5; 6; 7] in
  let x := mkmac (replicate 6 0) (replicate 6 0) 1 8 0 0 in
  let w' := netmap_add_macaddr (set_map sample_state (m ++ [x]) true) (replicate 6 1) (replicate 6 2) 0 0 9 in
  netmap_get_macmap w' [] 8 = Done (-1, w', []).
Proof.
  intros m x. apply (pending_query_evicted (set_map sample_state (m ++ [x]) true) m x (replicate 6 1) (replicate 6 2) 0 0 9 []).
  - reflexivity.
  - reflexivity.
  - repeat (apply Forall_cons; split; [discriminate|]). constructor.
  - repeat (apply Forall_cons; split; [discriminate|]). constructor.
  - discriminate.
Defined.

Lemma netmap_recv_correct_witness :
  (netmap_recv sample_state 5 sample_msg = Done (0, sample_state, sample_msg) /\
   forall i r, 0 <= i < 1 -> rd (w_rx sample_state) i = Done r -> r_avail r = 0) \/
  (exists ri r m w' r' msg', 0 <= ri < 1 /\ rd (w_rx sample_state) ri = Done r /\ r_avail r <> 0 /\
     netmap_recv sample_state 5 sample_msg = Done (m, set_rx w' (<[Z.to_nat ri := r']> (w_rx sample_state)), msg') /\
     r_avail r' = r_avail r - m /\ r_cur r' = (r_cur r + m) mod r_num_slots r /\
     geometry (r_slot r') = geometry (r_slot r) /\ received sample_state r (Z.min (r_avail r) 512) sample_msg m w' msg').
Proof.
  apply (netmap_recv_correct sample_state 5 (mkmyring 0 1) sample_msg).
  - reflexivity.
  - cbn. lia.
  - vm_compute. discriminate.
  - intros r Hr. apply list_elem_of_In in Hr. destruct Hr as [<-|[]]. constructor.
    + vm_compute. split; [discriminate|reflexivity].
    + vm_compute. repeat split; discriminate.
    + intros sl Hsl. apply list_elem_of_In in Hsl. exists (frame sample_query ++ replicate 3 0).
      destruct Hsl as [<-|[<-|[]]]; (split; [reflexivity|]); vm_compute; repeat split; discriminate.
    + vm_compute. discriminate.
    + reflexivity.
Defined.

(** An answer of seven octets on a ring whose slot uses the fourth buffer. *)
Definition sample_answer : io_msg_s := mkmsg [18; 52; 129; 128; 0; 1; 7; 99] 7 0 0 33554442 0 53764.
Definition sample_tx : netmap_ring := mkring 1 0 [mkslot 3 0 0].

Lemma answer_returns_to_sender_witness :
  exists w1 msg1 w2 r2 out2 p' tail, parse_addr sample_state (frame sample_query) sample_msg = Done (w1, msg1) /\
    process_send_ring w1 sample_tx 512 sample_answer = Done (1, w2, r2, out2) /\
    rd (w_bufs w2) 3 = Done (frame p') /\ p_data p' = [18; 52; 129; 128; 0; 1; 7] ++ tail /\
    p_dst p' = [2; 0; 0; 0; 0; 2] /\ p_daddr p' = [10; 0; 0; 2] /\ p_dport p' = [4; 210] /\
    in_cksum (ip_header p') 20 = Done 0.
Proof.
  destruct (answer_returns_to_sender sample_state sample_query sample_msg 18 52 [1; 0; 0] sample_query_wf) as (w1 & msg1 & Hp & Hs).
  - reflexivity.
  - reflexivity.
  - constructor.
  - discriminate.
  - pose proof Hp as Hp'. vm_compute in Hp'. injection Hp' as <- <-.
    edestruct (Hs sample_tx sample_answer (mkslot 3 0 0) (replicate 64 0) [18; 52; 129; 128; 0; 1; 7] [129; 128; 0; 1; 7])
      as (w2 & r2 & out2 & p' & tail & H1 & _ & _ & _ & H2 & H3 & H4 & _ & _ & H5 & _ & H6 & _ & _ & H7 & _); try reflexivity.
    + constructor; try reflexivity; try (vm_compute; split; congruence).
      * split; [reflexivity|]. apply bytes_dec. reflexivity.
      * split; [reflexivity|]. by exists [99].
      * split; apply bytes_dec; reflexivity.
    + do 7 eexists. split; [exact Hp|]. by split_and!.
Defined.
