(* ===== verification/Rwlock.v ===== *)
(** * Readers-writer locks ([lib/isc/rwlock.c], the atomic-operation variant)

    [isc_rwlock_t] is the lock every database, cache and zone of the server is
    guarded by.  With threads and with the [xadd] and [cmpxchg] instructions
    (the configuration of every x86 build) it mixes three atomically modified
    words with a mutex and two condition variables, so its correctness is a
    statement about every interleaving of the threads that use it.

    A thread is its program counter, the local variables it still needs held
    in the constructor.  One step of a thread is one access to shared memory:
    a load, a store, an [isc_atomic_xadd], an [isc_atomic_cmpxchg], taking or
    releasing the mutex, going to sleep on a condition variable or a
    broadcast.  A comparison of two shared words is two loads, in the order
    of the source, so other threads may run in between; [write_granted++] is
    a load and a store.  Words modified only while the mutex is held
    ([readers_waiting]) are updated in one step.  Memory is sequentially
    consistent.  A sleeping thread leaves its condition variable when someone
    broadcasts on it, or for no reason at all (POSIX permits it).

    The callers' side of the contract is the shape of [entry]: a thread
    unlocks, upgrades or downgrades a lock it holds, in the mode it holds it. *)

From S2P Require Import Prelude.

(** ** The shared lock structure *)

Definition RWLOCK_MAGIC : Z := 1381452907.       (* ISC_MAGIC('R','W','L','k') *)
Definition RWLOCK_DEFAULT_WRITE_QUOTA : Z := 4.
Definition WRITER_ACTIVE : Z := 1.
Definition READER_INCR : Z := 2.

Record isc_rwlock : Type := mkRwlock {
  magic : Z;
  lock : bool;                   (* the mutex: is it held? *)
  write_requests : Z;            (* isc_int32_t *)
  write_completions : Z;         (* isc_int32_t *)
  cnt_and_flag : Z;              (* isc_int32_t *)
  readers_waiting : Z;           (* unsigned int *)
  write_granted : Z;             (* unsigned int *)
  write_quota : Z                (* unsigned int *)
}.

Inductive condvar : Type := readable | writeable.

Definition set_magic (x : Z) (r : isc_rwlock) : isc_rwlock :=
  mkRwlock x (lock r) (write_requests r) (write_completions r) (cnt_and_flag r)
    (readers_waiting r) (write_granted r) (write_quota r).
Definition set_lock (b : bool) (r : isc_rwlock) : isc_rwlock :=
  mkRwlock (magic r) b (write_requests r) (write_completions r) (cnt_and_flag r)
    (readers_waiting r) (write_granted r) (write_quota r).
Definition set_requests (x : Z) (r : isc_rwlock) : isc_rwlock :=
  mkRwlock (magic r) (lock r) x (write_completions r) (cnt_and_flag r)
    (readers_waiting r) (write_granted r) (write_quota r).
Definition set_completions (x : Z) (r : isc_rwlock) : isc_rwlock :=
  mkRwlock (magic r) (lock r) (write_requests r) x (cnt_and_flag r)
    (readers_waiting r) (write_granted r) (write_quota r).
Definition set_cnt (x : Z) (r : isc_rwlock) : isc_rwlock :=
  mkRwlock (magic r) (lock r) (write_requests r) (write_completions r) x
    (readers_waiting r) (write_granted r) (write_quota r).
Definition set_waiting (x : Z) (r : isc_rwlock) : isc_rwlock :=
  mkRwlock (magic r) (lock r) (write_requests r) (write_completions r) (cnt_and_flag r)
    x (write_granted r) (write_quota r).
Definition set_granted (x : Z) (r : isc_rwlock) : isc_rwlock :=
  mkRwlock (magic r) (lock r) (write_requests r) (write_completions r) (cnt_and_flag r)
    (readers_waiting r) x (write_quota r).

(** ** Program counters, one type per function *)

(** [isc_rwlock_lock(rwl, isc_rwlocktype_read)] *)
Inductive lock_read_pc : Type :=
| LR_requests                       (* if (rwl->write_requests ... *)
| LR_completions (req : Z)          (*     ... != rwl->write_completions) *)
| LR_lock1                          (* LOCK *)
| LR_requests2                      (* if (rwl->write_requests ... *)
| LR_completions2 (req : Z)         (*     ... != rwl->write_completions) *)
| LR_count1                         (* readers_waiting++ *)
| LR_wait1                          (* WAIT(readable) *)
| LR_asleep1                        (* inside WAIT, not signalled *)
| LR_woken1                         (* inside WAIT, taking the mutex back *)
| LR_uncount1                       (* readers_waiting-- *)
| LR_unlock1                        (* UNLOCK *)
| LR_incr                           (* isc_atomic_xadd(cnt_and_flag, READER_INCR) *)
| LR_test                           (* cnt_and_flag & WRITER_ACTIVE *)
| LR_lock2                          (* LOCK *)
| LR_count2                         (* readers_waiting++ *)
| LR_test2                          (* cnt_and_flag & WRITER_ACTIVE *)
| LR_wait2 | LR_asleep2 | LR_woken2 (* WAIT(readable) *)
| LR_uncount2                       (* readers_waiting-- *)
| LR_unlock2                        (* UNLOCK *)
| LR_reset.                         (* write_granted = 0 *)

(** [isc_rwlock_lock(rwl, isc_rwlocktype_write)]; [prev] is [prev_writer], the
    ticket. *)
Inductive lock_write_pc : Type :=
| LW_enter                          (* prev_writer = xadd(write_requests, 1) *)
| LW_test (prev : Z)                (* while (write_completions != prev_writer) *)
| LW_lock1 (prev : Z)               (* LOCK *)
| LW_test2 (prev : Z)               (* if (write_completions != prev_writer) *)
| LW_wait1 (prev : Z) | LW_asleep1 (prev : Z) | LW_woken1 (prev : Z)
| LW_unlock1 (prev : Z)             (* UNLOCK; continue *)
| LW_leave                          (* UNLOCK; break *)
| LW_cas                            (* cmpxchg(cnt_and_flag, 0, WRITER_ACTIVE) *)
| LW_lock2                          (* LOCK *)
| LW_test3                          (* if (cnt_and_flag != 0) *)
| LW_wait2 | LW_asleep2 | LW_woken2 (* WAIT(writeable) *)
| LW_unlock2                        (* UNLOCK *)
| LW_insist                         (* INSIST(cnt_and_flag & WRITER_ACTIVE) *)
| LW_granted                        (* write_granted++: load *)
| LW_store (granted : Z).           (* write_granted++: store *)

(** [isc_rwlock_trylock] *)
Inductive trylock_pc : Type :=
| TR_requests                       (* if (rwl->write_requests ... *)
| TR_completions (req : Z)          (*     ... != rwl->write_completions) *)
| TR_incr                           (* xadd(cnt_and_flag, READER_INCR) *)
| TR_cancel                         (* xadd(cnt_and_flag, -READER_INCR) *)
| TR_completions2                   (* write_completions ... *)
| TR_requests2 (comp : Z)           (*     ... != write_requests *)
| TR_lock | TR_wake | TR_unlock     (* LOCK; BROADCAST(writeable); UNLOCK *)
| TW_cas                            (* cmpxchg(cnt_and_flag, 0, WRITER_ACTIVE) *)
| TW_jump                           (* xadd(write_completions, -1) *)
| TW_granted | TW_store (granted : Z).  (* write_granted++ *)

(** [isc_rwlock_tryupgrade] *)
Inductive upgrade_pc : Type :=
| TU_cas                            (* cmpxchg(cnt_and_flag, READER_INCR, WRITER_ACTIVE) *)
| TU_jump.                          (* xadd(write_completions, -1) *)

(** [isc_rwlock_downgrade] *)
Inductive downgrade_pc : Type :=
| DG_incr                           (* xadd(cnt_and_flag, READER_INCR) *)
| DG_clear                          (* xadd(cnt_and_flag, -WRITER_ACTIVE) *)
| DG_complete                       (* xadd(write_completions, 1) *)
| DG_lock                           (* LOCK *)
| DG_test                           (* if (readers_waiting > 0) *)
| DG_wake                           (* BROADCAST(readable) *)
| DG_unlock.                        (* UNLOCK *)

(** [isc_rwlock_unlock(rwl, isc_rwlocktype_read)] *)
Inductive unlock_read_pc : Type :=
| UR_decr                           (* xadd(cnt_and_flag, -READER_INCR) *)
| UR_completions                    (* write_completions ... *)
| UR_requests (comp : Z)            (*     ... != write_requests *)
| UR_lock | UR_wake | UR_unlock.    (* LOCK; BROADCAST(writeable); UNLOCK *)

(** [isc_rwlock_unlock(rwl, isc_rwlocktype_write)]; [wk] is
    [wakeup_writers]. *)
Inductive unlock_write_pc : Type :=
| UW_clear                          (* xadd(cnt_and_flag, -WRITER_ACTIVE) *)
| UW_complete                       (* xadd(write_completions, 1) *)
| UW_granted                        (* write_granted >= write_quota *)
| UW_requests                       (* || write_requests ... *)
| UW_completions (req : Z)          (*        ... == write_completions *)
| UW_count                          (* || (cnt_and_flag & ~WRITER_ACTIVE) != 0 *)
| UW_lock1                          (* LOCK *)
| UW_waiting                        (* if (readers_waiting > 0) *)
| UW_wake1                          (* BROADCAST(readable) *)
| UW_unlock1 (wk : bool)            (* UNLOCK *)
| UW_requests2 (wk : bool)          (* if (write_requests ... *)
| UW_completions2 (wk : bool) (req : Z) (*  ... != write_completions && wk) *)
| UW_lock2 | UW_wake2 | UW_unlock2. (* LOCK; BROADCAST(writeable); UNLOCK *)

(** Where a thread is: outside the lock, holding it, inside one of the
    functions, or stopped by a failed assertion. *)
Inductive pc : Type :=
| Idle
| HoldR
| HoldW
| Aborted
| InLockR (p : lock_read_pc)
| InLockW (p : lock_write_pc)
| InTry (p : trylock_pc)
| InUpgrade (p : upgrade_pc)
| InDowngrade (p : downgrade_pc)
| InUnlockR (p : unlock_read_pc)
| InUnlockW (p : unlock_write_pc).

(** ** Atomic operations *)

(** [isc_atomic_xadd]: the old value, and the word with [d] added (32-bit
    wrap-around). *)
Definition isc_atomic_xadd (x d : Z) : Z * Z := (x, s32 (x + d)).

(** [isc_atomic_cmpxchg]: the old value, and the new contents of the word. *)
Definition isc_atomic_cmpxchg (x cmpval val : Z) : Z * Z :=
  (x, if x =? cmpval then val else x).

(** A step of a thread: the new shared structure, the thread's next program
    counter, and the condition variable it broadcasts on, if any.  [None] is a
    thread that cannot run: asleep, or waiting for the mutex. *)
Definition effect : Type := option (isc_rwlock * pc * option condvar).

Definition go (r : isc_rwlock) (p : pc) : effect := Some (r, p, None).

(** [LOCK] blocks while the mutex is held. *)
Definition mutex_lock (r : isc_rwlock) (p : pc) : effect :=
  if lock r then None else go (set_lock true r) p.
Definition mutex_unlock (r : isc_rwlock) (p : pc) : effect := go (set_lock false r) p.
Definition broadcast (r : isc_rwlock) (cv : condvar) (p : pc) : effect := Some (r, p, Some cv).
Definition writer_active (cntflag : Z) : bool := negb (Z.land cntflag WRITER_ACTIVE =? 0).

(** ** The functions *)

(** [isc_rwlock_lock], [type == isc_rwlocktype_read]. *)
Definition isc_rwlock_lock_read (r : isc_rwlock) (p : lock_read_pc) : effect :=
  let at_ q := InLockR q in
  match p with
  | LR_requests => go r (at_ (LR_completions (write_requests r)))
  | LR_completions req =>
      go r (at_ (if req =? write_completions r then LR_incr else LR_lock1))
  | LR_lock1 => mutex_lock r (at_ LR_requests2)
  | LR_requests2 => go r (at_ (LR_completions2 (write_requests r)))
  | LR_completions2 req =>
      go r (at_ (if req =? write_completions r then LR_unlock1 else LR_count1))
  | LR_count1 => go (set_waiting (u32 (readers_waiting r + 1)) r) (at_ LR_wait1)
  | LR_wait1 => mutex_unlock r (at_ LR_asleep1)
  | LR_asleep1 => None
  | LR_woken1 => mutex_lock r (at_ LR_uncount1)
  | LR_uncount1 => go (set_waiting (u32 (readers_waiting r - 1)) r) (at_ LR_unlock1)
  | LR_unlock1 => mutex_unlock r (at_ LR_incr)
  | LR_incr =>
      let '(_, x) := isc_atomic_xadd (cnt_and_flag r) READER_INCR in
      go (set_cnt x r) (at_ LR_test)
  | LR_test => go r (at_ (if writer_active (cnt_and_flag r) then LR_lock2 else LR_reset))
  | LR_lock2 => mutex_lock r (at_ LR_count2)
  | LR_count2 => go (set_waiting (u32 (readers_waiting r + 1)) r) (at_ LR_test2)
  | LR_test2 =>
      go r (at_ (if writer_active (cnt_and_flag r) then LR_wait2 else LR_uncount2))
  | LR_wait2 => mutex_unlock r (at_ LR_asleep2)
  | LR_asleep2 => None
  | LR_woken2 => mutex_lock r (at_ LR_uncount2)
  | LR_uncount2 => go (set_waiting (u32 (readers_waiting r - 1)) r) (at_ LR_unlock2)
  | LR_unlock2 => mutex_unlock r (at_ LR_test)
  | LR_reset => go (set_granted 0 r) HoldR
  end.

(** [isc_rwlock_lock], otherwise. *)
Definition isc_rwlock_lock_write (r : isc_rwlock) (p : lock_write_pc) : effect :=
  let at_ q := InLockW q in
  match p with
  | LW_enter =>
      let '(prev, x) := isc_atomic_xadd (write_requests r) 1 in
      go (set_requests x r) (at_ (LW_test prev))
  | LW_test prev =>
      go r (at_ (if write_completions r =? prev then LW_cas else LW_lock1 prev))
  | LW_lock1 prev => mutex_lock r (at_ (LW_test2 prev))
  | LW_test2 prev =>
      go r (at_ (if write_completions r =? prev then LW_leave else LW_wait1 prev))
  | LW_wait1 prev => mutex_unlock r (at_ (LW_asleep1 prev))
  | LW_asleep1 _ => None
  | LW_woken1 prev => mutex_lock r (at_ (LW_unlock1 prev))
  | LW_unlock1 prev => mutex_unlock r (at_ (LW_test prev))
  | LW_leave => mutex_unlock r (at_ LW_cas)
  | LW_cas =>
      let '(old, x) := isc_atomic_cmpxchg (cnt_and_flag r) 0 WRITER_ACTIVE in
      go (set_cnt x r) (at_ (if old =? 0 then LW_insist else LW_lock2))
  | LW_lock2 => mutex_lock r (at_ LW_test3)
  | LW_test3 => go r (at_ (if cnt_and_flag r =? 0 then LW_unlock2 else LW_wait2))
  | LW_wait2 => mutex_unlock r (at_ LW_asleep2)
  | LW_asleep2 => None
  | LW_woken2 => mutex_lock r (at_ LW_unlock2)
  | LW_unlock2 => mutex_unlock r (at_ LW_cas)
  | LW_insist => go r (if writer_active (cnt_and_flag r) then at_ LW_granted else Aborted)
  | LW_granted => go r (at_ (LW_store (write_granted r)))
  | LW_store granted => go (set_granted (u32 (granted + 1)) r) HoldW
  end.

(** [isc_rwlock_trylock]: [TR_] for the read type, [TW_] for the other.
    [ISC_R_LOCKBUSY] takes the thread back to [Idle]. *)
Definition isc_rwlock_trylock (r : isc_rwlock) (p : trylock_pc) : effect :=
  let at_ q := InTry q in
  match p with
  | TR_requests => go r (at_ (TR_completions (write_requests r)))
  | TR_completions req =>
      go r (if req =? write_completions r then at_ TR_incr else Idle)
  | TR_incr =>
      let '(cntflag, x) := isc_atomic_xadd (cnt_and_flag r) READER_INCR in
      go (set_cnt x r) (if writer_active cntflag then at_ TR_cancel else HoldR)
  | TR_cancel =>
      let '(cntflag, x) := isc_atomic_xadd (cnt_and_flag r) (- READER_INCR) in
      go (set_cnt x r) (if cntflag =? READER_INCR then at_ TR_completions2 else Idle)
  | TR_completions2 => go r (at_ (TR_requests2 (write_completions r)))
  | TR_requests2 comp => go r (if comp =? write_requests r then Idle else at_ TR_lock)
  | TR_lock => mutex_lock r (at_ TR_wake)
  | TR_wake => broadcast r writeable (at_ TR_unlock)
  | TR_unlock => mutex_unlock r Idle
  | TW_cas =>
      let '(cntflag, x) := isc_atomic_cmpxchg (cnt_and_flag r) 0 WRITER_ACTIVE in
      go (set_cnt x r) (if cntflag =? 0 then at_ TW_jump else Idle)
  | TW_jump =>
      let '(_, x) := isc_atomic_xadd (write_completions r) (-1) in
      go (set_completions x r) (at_ TW_granted)
  | TW_granted => go r (at_ (TW_store (write_granted r)))
  | TW_store granted => go (set_granted (u32 (granted + 1)) r) HoldW
  end.

(** [isc_rwlock_tryupgrade]; [ISC_R_LOCKBUSY] leaves the caller a reader. *)
Definition isc_rwlock_tryupgrade (r : isc_rwlock) (p : upgrade_pc) : effect :=
  match p with
  | TU_cas =>
      let '(prevcnt, x) := isc_atomic_cmpxchg (cnt_and_flag r) READER_INCR WRITER_ACTIVE in
      go (set_cnt x r)
        (if negb (writer_active prevcnt)
            && negb (Z.land prevcnt (Z.lnot WRITER_ACTIVE) =? 0)
         then if prevcnt =? READER_INCR then InUpgrade TU_jump else HoldR
         else Aborted)
  | TU_jump =>
      let '(_, x) := isc_atomic_xadd (write_completions r) (-1) in
      go (set_completions x r) HoldW
  end.

Definition isc_rwlock_downgrade (r : isc_rwlock) (p : downgrade_pc) : effect :=
  let at_ q := InDowngrade q in
  match p with
  | DG_incr =>
      let '(prev_readers, x) := isc_atomic_xadd (cnt_and_flag r) READER_INCR in
      go (set_cnt x r) (if writer_active prev_readers then at_ DG_clear else Aborted)
  | DG_clear =>
      let '(_, x) := isc_atomic_xadd (cnt_and_flag r) (- WRITER_ACTIVE) in
      go (set_cnt x r) (at_ DG_complete)
  | DG_complete =>
      let '(_, x) := isc_atomic_xadd (write_completions r) 1 in
      go (set_completions x r) (at_ DG_lock)
  | DG_lock => mutex_lock r (at_ DG_test)
  | DG_test => go r (at_ (if 0 <? readers_waiting r then DG_wake else DG_unlock))
  | DG_wake => broadcast r readable (at_ DG_unlock)
  | DG_unlock => mutex_unlock r HoldR
  end.

(** [isc_rwlock_unlock], [type == isc_rwlocktype_read]. *)
Definition isc_rwlock_unlock_read (r : isc_rwlock) (p : unlock_read_pc) : effect :=
  let at_ q := InUnlockR q in
  match p with
  | UR_decr =>
      let '(prev_cnt, x) := isc_atomic_xadd (cnt_and_flag r) (- READER_INCR) in
      go (set_cnt x r) (if prev_cnt =? READER_INCR then at_ UR_completions else Idle)
  | UR_completions => go r (at_ (UR_requests (write_completions r)))
  | UR_requests comp => go r (if comp =? write_requests r then Idle else at_ UR_lock)
  | UR_lock => mutex_lock r (at_ UR_wake)
  | UR_wake => broadcast r writeable (at_ UR_unlock)
  | UR_unlock => mutex_unlock r Idle
  end.

(** [isc_rwlock_unlock], otherwise. *)
Definition isc_rwlock_unlock_write (r : isc_rwlock) (p : unlock_write_pc) : effect :=
  let at_ q := InUnlockW q in
  match p with
  | UW_clear =>
      let '(_, x) := isc_atomic_xadd (cnt_and_flag r) (- WRITER_ACTIVE) in
      go (set_cnt x r) (at_ UW_complete)
  | UW_complete =>
      let '(_, x) := isc_atomic_xadd (write_completions r) 1 in
      go (set_completions x r) (at_ UW_granted)
  | UW_granted =>
      go r (at_ (if write_quota r <=? write_granted r then UW_lock1 else UW_requests))
  | UW_requests => go r (at_ (UW_completions (write_requests r)))
  | UW_completions req =>
      go r (at_ (if req =? write_completions r then UW_lock1 else UW_count))
  | UW_count =>
      go r (at_ (if Z.land (cnt_and_flag r) (Z.lnot WRITER_ACTIVE) =? 0
                 then UW_requests2 true else UW_lock1))
  | UW_lock1 => mutex_lock r (at_ UW_waiting)
  | UW_waiting => go r (at_ (if 0 <? readers_waiting r then UW_wake1 else UW_unlock1 true))
  | UW_wake1 => broadcast r readable (at_ (UW_unlock1 false))
  | UW_unlock1 wk => mutex_unlock r (at_ (UW_requests2 wk))
  | UW_requests2 wk => go r (at_ (UW_completions2 wk (write_requests r)))
  | UW_completions2 wk req =>
      go r (if negb (req =? write_completions r) && wk then at_ UW_lock2 else Idle)
  | UW_lock2 => mutex_lock r (at_ UW_wake2)
  | UW_wake2 => broadcast r writeable (at_ UW_unlock2)
  | UW_unlock2 => mutex_unlock r Idle
  end.

(** One step of the function a thread is in. *)
Definition exec (r : isc_rwlock) (p : pc) : effect :=
  match p with
  | Idle | HoldR | HoldW | Aborted => None
  | InLockR q => isc_rwlock_lock_read r q
  | InLockW q => isc_rwlock_lock_write r q
  | InTry q => isc_rwlock_trylock r q
  | InUpgrade q => isc_rwlock_tryupgrade r q
  | InDowngrade q => isc_rwlock_downgrade r q
  | InUnlockR q => isc_rwlock_unlock_read r q
  | InUnlockW q => isc_rwlock_unlock_write r q
  end.

(** Sleeping threads, and what a broadcast does to a thread. *)
Definition asleep_on (p : pc) : option condvar :=
  match p with
  | InLockR LR_asleep1 | InLockR LR_asleep2 => Some readable
  | InLockW (LW_asleep1 _) | InLockW LW_asleep2 => Some writeable
  | _ => None
  end.

Definition woken (p : pc) : pc :=
  match p with
  | InLockR LR_asleep1 => InLockR LR_woken1
  | InLockR LR_asleep2 => InLockR LR_woken2
  | InLockW (LW_asleep1 prev) => InLockW (LW_woken1 prev)
  | InLockW LW_asleep2 => InLockW LW_woken2
  | _ => p
  end.

Definition signal (cv : option condvar) (p : pc) : pc :=
  match cv, asleep_on p with
  | Some readable, Some readable => woken p
  | Some writeable, Some writeable => woken p
  | _, _ => p
  end.

(** The calls a thread may make, by what it holds; [VALID_RWLOCK] is checked on
    entry. *)
Inductive entry : pc -> pc -> Prop :=
| call_lock_read : entry Idle (InLockR LR_requests)
| call_lock_write : entry Idle (InLockW LW_enter)
| call_trylock_read : entry Idle (InTry TR_requests)
| call_trylock_write : entry Idle (InTry TW_cas)
| call_unlock_read : entry HoldR (InUnlockR UR_decr)
| call_tryupgrade : entry HoldR (InUpgrade TU_cas)
| call_unlock_write : entry HoldW (InUnlockW UW_clear)
| call_downgrade : entry HoldW (InDowngrade DG_incr).

Definition valid_rwlock (r : isc_rwlock) : bool := magic r =? RWLOCK_MAGIC.

(** ** The system: one lock, the threads that use it *)

Record system : Type := mkSystem { shared : isc_rwlock; threads : list pc }.

(** What one thread can do: call a function, run a step of the one it is in, or
    wake up for no reason. *)
Inductive move (r : isc_rwlock) : pc -> isc_rwlock -> pc -> option condvar -> Prop :=
| move_call p p' :
    entry p p' -> move r p r (if valid_rwlock r then p' else Aborted) None
| move_exec p r' p' cv :
    exec r p = Some (r', p', cv) -> move r p r' p' cv
| move_spurious p cv :
    asleep_on p = Some cv -> move r p r (woken p) None.

Inductive step : system -> system -> Prop :=
| step_thread r ts i p r' p' cv :
    ts !! i = Some p -> move r p r' p' cv ->
    step (mkSystem r ts) (mkSystem r' (<[i := p']> (signal cv <$> ts))).

(** ** Creation and destruction *)

(** [isc_rwlock_init].  Whether the mutex and the two condition variables can
    be created is up to the platform. *)
Definition isc_rwlock_init (mutex_ok readable_ok writeable_ok : isc_result_t)
    (wquota : Z) : isc_result_t * isc_rwlock :=
  let quota := if wquota =? 0 then RWLOCK_DEFAULT_WRITE_QUOTA else wquota in
  let r := mkRwlock 0 false 0 0 0 0 0 quota in
  if bool_decide (mutex_ok <> ISC_R_SUCCESS) then (mutex_ok, r)
  else if bool_decide (readable_ok <> ISC_R_SUCCESS) then (ISC_R_UNEXPECTED, r)
  else if bool_decide (writeable_ok <> ISC_R_SUCCESS) then (ISC_R_UNEXPECTED, r)
  else (ISC_R_SUCCESS, set_magic RWLOCK_MAGIC r).

(** [isc_rwlock_destroy]. *)
Definition isc_rwlock_destroy (r : isc_rwlock) : outcome isc_rwlock :=
  REQUIRE valid_rwlock r ;;
  REQUIRE ((write_requests r =? write_completions r)
           && (cnt_and_flag r =? 0) && (readers_waiting r =? 0)) ;;
  Done (set_magic 0 r).

(** [n] threads that have just got a lock made by [isc_rwlock_init]. *)
Definition start (wquota : Z) (n : nat) : system :=
  mkSystem (snd (isc_rwlock_init ISC_R_SUCCESS ISC_R_SUCCESS ISC_R_SUCCESS wquota))
           (replicate n Idle).

Definition reachable (wquota : Z) (n : nat) (s : system) : Prop :=
  rtc step (start wquota n) s.
