(* ===== verification/RwlockTheory.v ===== *)
(** * Readers-writer locks: every interleaving is safe and none gets stuck

    The invariants of the system of [Rwlock.v] and their consequences.

    - [counts]: each shared word is a sum over the threads.  [cnt_and_flag] is
      twice the number of counted readers plus the number of writers holding
      the flag; [write_requests - write_completions] is the number of writers
      queued, served or writing; the mutex is held by the threads inside it;
      [readers_waiting] counts the readers around a [WAIT].  Exclusion follows
      from the first equation, and so does every assertion of the code.
    - [queue]: the tickets of the queued writers are the last ones drawn.
    - [wakeups]: whenever a sleeping thread's condition holds, some thread that
      is still running is bound to broadcast for it. *)

From S2P Require Import Prelude Rwlock.

(** ** Counting threads *)

(** The number of threads that satisfy [f]. *)
Fixpoint total (f : pc -> bool) (ts : list pc) : Z :=
  match ts with
  | [] => 0
  | p :: ts => Z.b2z (f p) + total f ts
  end.

Lemma total_range f ts : 0 <= total f ts <= Zlen ts.
Proof.
  induction ts as [|p ts IH]; cbn [total]; [by cbn|].
  rewrite Zlen_cons. destruct (f p); cbn; lia.
Qed.

Lemma total_insert f ts i p q :
  ts !! i = Some p ->
  total f (<[i := q]> ts) = total f ts - Z.b2z (f p) + Z.b2z (f q).
Proof.
  revert i. induction ts as [|p0 ts IH]; intros [|i] H; try done; cbn in H.
  - simplify_eq. cbn. lia.
  - change (<[S i := q]> (p0 :: ts)) with (p0 :: <[i := q]> ts). cbn [total].
    rewrite (IH i H). lia.
Qed.

Lemma total_fmap f g ts : (forall p, f (g p) = f p) -> total f (g <$> ts) = total f ts.
Proof. intros H. induction ts as [|p ts IH]; [done|]. rewrite fmap_cons; cbn [total]. by rewrite H, IH. Qed.

Lemma total_mono f g ts :
  (forall p, f p = true -> g p = true) -> total f ts <= total g ts.
Proof.
  intros H. induction ts as [|p ts IH]; [done|]; cbn [total].
  specialize (H p). destruct (f p); [rewrite H by done|]; destruct (g p); cbn; lia.
Qed.

Lemma total_in f ts i p : ts !! i = Some p -> f p = true -> 1 <= total f ts.
Proof.
  intros Hi Hp. revert i Hi.
  induction ts as [|q ts IH]; intros [|i] Hi; try done; cbn in Hi |- *.
  - simplify_eq. rewrite Hp. pose proof (total_range f ts). cbn. lia.
  - specialize (IH i Hi). destruct (f q); cbn; lia.
Qed.

Lemma total_ex f ts : 0 < total f ts -> exists i p, ts !! i = Some p /\ f p = true.
Proof.
  induction ts as [|q ts IH]; cbn; [lia|].
  destruct (f q) eqn:Hq; [intros _; by exists 0%nat, q|].
  intros H. destruct IH as (i & p & Hi & Hp); [done|]. by exists (S i), p.
Qed.

Lemma total_two f ts i j p q :
  ts !! i = Some p -> ts !! j = Some q -> i <> j -> f p = true -> f q = true ->
  2 <= total f ts.
Proof.
  intros Hi Hj Hij Hp Hq. revert i j Hi Hj Hij.
  induction ts as [|x ts IH]; intros [|i] [|j] Hi Hj Hij; try done;
    cbn [lookup list_lookup total] in *; simplify_eq.
  - rewrite Hp. pose proof (total_in f ts j q Hj Hq). cbn. lia.
  - rewrite Hq. pose proof (total_in f ts i p Hi Hp). cbn. lia.
  - pose proof (IH i j Hi Hj ltac:(congruence)). destruct (f x); cbn; lia.
Qed.

Lemma total_none f ts : (forall i p, ts !! i = Some p -> f p = false) -> total f ts = 0.
Proof.
  intros H. pose proof (total_range f ts).
  destruct (decide (total f ts = 0)) as [|Hne]; [done|].
  destruct (total_ex f ts) as (i & p & Hi & Hp); [lia|].
  rewrite (H i p Hi) in Hp. done.
Qed.

(** ** What a program counter says about the shared words *)

(** Counted in the reader half of [cnt_and_flag]. *)
Definition counted (p : pc) : bool :=
  match p with
  | HoldR | InUpgrade TU_cas | InUnlockR UR_decr | InTry TR_cancel => true
  | InLockR q =>
      match q with
      | LR_test | LR_lock2 | LR_count2 | LR_test2 | LR_wait2 | LR_asleep2 | LR_woken2
      | LR_uncount2 | LR_unlock2 | LR_reset => true
      | _ => false
      end
  | InDowngrade q => match q with DG_incr => false | _ => true end
  | _ => false
  end.

(** A reader that has been let in. *)
Definition reading (p : pc) : bool :=
  match p with
  | HoldR | InUpgrade TU_cas | InUnlockR UR_decr | InLockR LR_reset => true
  | InDowngrade q => match q with DG_incr | DG_clear => false | _ => true end
  | _ => false
  end.

(** Holds the writer flag of [cnt_and_flag]. *)
Definition writing (p : pc) : bool :=
  match p with
  | HoldW | InUpgrade TU_jump | InUnlockW UW_clear => true
  | InLockW q => match q with LW_insist | LW_granted | LW_store _ => true | _ => false end
  | InTry q => match q with TW_jump | TW_granted | TW_store _ => true | _ => false end
  | InDowngrade q => match q with DG_incr | DG_clear => true | _ => false end
  | _ => false
  end.

(** Waits for its ticket. *)
Definition ticket (p : pc) : option Z :=
  match p with
  | InLockW q =>
      match q with
      | LW_test t | LW_lock1 t | LW_test2 t | LW_wait1 t | LW_asleep1 t | LW_woken1 t
      | LW_unlock1 t => Some t
      | _ => None
      end
  | _ => None
  end.
Definition queued (p : pc) : bool := match ticket p with Some _ => true | None => false end.

(** Its ticket has come up, and it waits for [cnt_and_flag] to be 0. *)
Definition served (p : pc) : bool :=
  match p with
  | InLockW q =>
      match q with
      | LW_leave | LW_cas | LW_lock2 | LW_test3 | LW_wait2 | LW_asleep2 | LW_woken2
      | LW_unlock2 => true
      | _ => false
      end
  | _ => false
  end.

(** Past the queue, its completion not yet recorded. *)
Definition owner (p : pc) : bool :=
  match p with
  | HoldW => true
  | InLockW q => match q with LW_insist | LW_granted | LW_store _ => true | _ => false end
  | InTry q => match q with TW_granted | TW_store _ => true | _ => false end
  | InDowngrade q => match q with DG_incr | DG_clear | DG_complete => true | _ => false end
  | InUnlockW q => match q with UW_clear | UW_complete => true | _ => false end
  | _ => false
  end.

(** Holds the mutex. *)
Definition in_mutex (p : pc) : bool :=
  match p with
  | InLockR q =>
      match q with
      | LR_requests2 | LR_completions2 _ | LR_count1 | LR_wait1 | LR_uncount1 | LR_unlock1
      | LR_count2 | LR_test2 | LR_wait2 | LR_uncount2 | LR_unlock2 => true
      | _ => false
      end
  | InLockW q =>
      match q with
      | LW_test2 _ | LW_wait1 _ | LW_unlock1 _ | LW_leave | LW_test3 | LW_wait2
      | LW_unlock2 => true
      | _ => false
      end
  | InTry q => match q with TR_wake | TR_unlock => true | _ => false end
  | InDowngrade q => match q with DG_test | DG_wake | DG_unlock => true | _ => false end
  | InUnlockR q => match q with UR_wake | UR_unlock => true | _ => false end
  | InUnlockW q =>
      match q with
      | UW_waiting | UW_wake1 | UW_unlock1 _ | UW_wake2 | UW_unlock2 => true
      | _ => false
      end
  | _ => false
  end.

(** Counted in [readers_waiting]. *)
Definition waiting (p : pc) : bool :=
  match p with
  | InLockR q =>
      match q with
      | LR_wait1 | LR_asleep1 | LR_woken1 | LR_uncount1
      | LR_test2 | LR_wait2 | LR_asleep2 | LR_woken2 | LR_uncount2 => true
      | _ => false
      end
  | _ => false
  end.

Definition aborted (p : pc) : bool := match p with Aborted => true | _ => false end.

(** ** The words agree with the threads *)

Record counts (r : isc_rwlock) (ts : list pc) : Prop := {
  c_len : Zlen ts < 2 ^ 30;
  c_magic : valid_rwlock r = true;
  c_cnt : cnt_and_flag r = 2 * total counted ts + total writing ts;
  c_one_writer : total writing ts <= 1;
  c_excl : 0 < total writing ts -> total reading ts = 0;
  c_pending : u32 (write_requests r - write_completions r)
              = total queued ts + total served ts + total owner ts;
  c_mutex : Z.b2z (lock r) = total in_mutex ts;
  c_waiting : readers_waiting r = total waiting ts;
  c_alive : total aborted ts = 0
}.

Lemma s32_small x : - 2 ^ 31 <= x < 2 ^ 31 -> s32 x = x.
Proof. intros H. unfold s32, u32. destruct (_ <? _) eqn:?; divlia. Qed.

Lemma u32_s32_add x y d : u32 (s32 (x + d) - y) = u32 (u32 (x - y) + d).
Proof. unfold s32, u32. destruct (_ <? _) eqn:?; divlia. Qed.

Lemma u32_s32_sub x y d : u32 (x - s32 (y + d)) = u32 (u32 (x - y) - d).
Proof. unfold s32, u32. destruct (_ <? _) eqn:?; divlia. Qed.

Lemma land_flag c f : 0 <= c -> 0 <= f <= 1 -> Z.land (2 * c + f) 1 = f.
Proof.
  intros Hc Hf. change 1 with (Z.ones 1). rewrite Z.land_ones by lia. divlia.
Qed.

Lemma land_count c f : 0 <= c -> 0 <= f <= 1 -> Z.land (2 * c + f) (Z.lnot 1) = 2 * c.
Proof.
  intros Hc Hf. rewrite <- Z.ldiff_land. change 1 with (Z.ones 1).
  rewrite Z.ldiff_ones_r by lia. rewrite Z.shiftl_mul_pow2, Z.shiftr_div_pow2 by lia. divlia.
Qed.

Lemma writer_active_spec c f :
  0 <= c -> 0 <= f <= 1 -> writer_active (2 * c + f) = (f =? 1).
Proof. intros Hc Hf. unfold writer_active, WRITER_ACTIVE. rewrite land_flag by done. lia. Qed.

Lemma total_step f ts i p p' cv :
  ts !! i = Some p -> (forall q, f (woken q) = f q) ->
  total f (<[i := p']> (signal cv <$> ts)) = total f ts - Z.b2z (f p) + Z.b2z (f p').
Proof.
  intros Hi Hf.
  assert (Hs : forall q, f (signal cv q) = f q).
  { intros q. unfold signal. destruct cv as [[]|], (asleep_on q) as [[]|]; try done; apply Hf. }
  rewrite (total_insert f _ i (signal cv p)) by (by rewrite list_lookup_fmap, Hi).
  by rewrite Hs, total_fmap.
Qed.

Lemma counted_woken q : counted (woken q) = counted q.
Proof. by destruct q as [| | | |[]|[]|[]|[]|[]|[]|[]]. Qed.
Lemma reading_woken q : reading (woken q) = reading q.
Proof. by destruct q as [| | | |[]|[]|[]|[]|[]|[]|[]]. Qed.
Lemma writing_woken q : writing (woken q) = writing q.
Proof. by destruct q as [| | | |[]|[]|[]|[]|[]|[]|[]]. Qed.
Lemma queued_woken q : queued (woken q) = queued q.
Proof. by destruct q as [| | | |[]|[]|[]|[]|[]|[]|[]]. Qed.
Lemma served_woken q : served (woken q) = served q.
Proof. by destruct q as [| | | |[]|[]|[]|[]|[]|[]|[]]. Qed.
Lemma owner_woken q : owner (woken q) = owner q.
Proof. by destruct q as [| | | |[]|[]|[]|[]|[]|[]|[]]. Qed.
Lemma in_mutex_woken q : in_mutex (woken q) = in_mutex q.
Proof. by destruct q as [| | | |[]|[]|[]|[]|[]|[]|[]]. Qed.
Lemma waiting_woken q : waiting (woken q) = waiting q.
Proof. by destruct q as [| | | |[]|[]|[]|[]|[]|[]|[]]. Qed.
Lemma aborted_woken q : aborted (woken q) = aborted q.
Proof. by destruct q as [| | | |[]|[]|[]|[]|[]|[]|[]]. Qed.
Lemma total_ge f ts i p : ts !! i = Some p -> Z.b2z (f p) <= total f ts.
Proof.
  intros Hi. destruct (f p) eqn:Hp; cbn.
  - by eapply total_in.
  - apply total_range.
Qed.

(** How a step changes the number of threads in each class. *)
Ltac class_facts f Hw Hi p' cv :=
  let H := fresh "Hstep" in
  let G := fresh "Hge" in
  let R := fresh "Hrange" in
  match type of Hi with
  | ?ts !! ?i = Some ?p =>
      pose proof (total_step f ts i p p' cv Hi Hw) as H;
      pose proof (total_ge f ts i p Hi) as G;
      pose proof (total_range f ts) as R
  end.

Ltac move_cases Hm :=
  let p0 := fresh "p" in
  let He := fresh "He" in
  destruct Hm as [? ? He|p0 ? ? ? He|p0 ? He];
  [ destruct He
  | destruct p0 as [| | | |[]|[]|[]|[]|[]|[]|[]]
  | destruct p0 as [| | | |[]|[]|[]|[]|[]|[]|[]] ];
  cbn [exec isc_rwlock_lock_read isc_rwlock_lock_write isc_rwlock_trylock
       isc_rwlock_tryupgrade isc_rwlock_downgrade isc_rwlock_unlock_read
       isc_rwlock_unlock_write asleep_on isc_atomic_xadd isc_atomic_cmpxchg] in *;
  try discriminate He.


(** Split a step into its branches; the new structure and counter are then
    explicit. *)
Ltac move_branches Hm :=
  move_cases Hm;
  unfold mutex_lock, mutex_unlock, broadcast, go, READER_INCR, WRITER_ACTIVE in *;
  repeat match goal with
    | H : context [if ?b then _ else _] |- _ => destruct b eqn:?
    end;
  try discriminate; simplify_eq; cbn in *.

Section Step.
Context (r : isc_rwlock) (ts : list pc) (i : nat) (p : pc) (r' : isc_rwlock) (p' : pc)
  (cv : option condvar).
Hypothesis C : counts r ts.
Hypothesis Hi : ts !! i = Some p.
Hypothesis Hm : move r p r' p' cv.
Let ts' := <[i := p']> (signal cv <$> ts).

Lemma step_len : Zlen ts' = Zlen ts.
Proof. unfold Zlen, ts'. by rewrite length_insert, length_fmap. Qed.

Lemma step_magic : magic r' = magic r.
Proof. clear -Hm. move_branches Hm; done. Qed.

Lemma step_mutex : Z.b2z (lock r') = total in_mutex ts'.
Proof.
  pose proof (c_mutex _ _ C) as C7. clear C. class_facts in_mutex in_mutex_woken Hi p' cv.
  subst ts'. revert Hi. move_branches Hm; intros _; lia.
Qed.

Lemma step_waiting : readers_waiting r' = total waiting ts'.
Proof.
  pose proof (c_waiting _ _ C) as C8. pose proof (c_len _ _ C) as C1. clear C.
  class_facts waiting waiting_woken Hi p' cv. subst ts'. revert Hi.
  move_branches Hm; intros _; rewrite ?u32_small by lia; lia.
Qed.

Lemma cnt_facts :
  writer_active (cnt_and_flag r) = (total writing ts =? 1)
  /\ (Z.land (cnt_and_flag r) (Z.lnot WRITER_ACTIVE) =? 0) = (total counted ts =? 0).
Proof.
  clear -C. destruct C as [C1 _ C3 C4 _ _ _ _ _].
  pose proof (total_range counted ts). pose proof (total_range writing ts).
  unfold WRITER_ACTIVE. rewrite C3, writer_active_spec, land_count by lia. lia.
Qed.

(** No assertion of the functions fails. *)
Lemma step_alive : p' <> Aborted.
Proof.
  destruct cnt_facts as [Hf Hc]. destruct C as [_ C2 _ C4 C5 _ _ _ C9]. clear C.
  pose proof (total_ge counted ts i p Hi) as Gc. pose proof (total_ge writing ts i p Hi) as Gw.
  pose proof (total_ge reading ts i p Hi) as Gr. pose proof (total_ge aborted ts i p Hi) as Ga.
  subst ts'. revert Hi. move_branches Hm; intros _; try done; exfalso.
  all: first [congruence | lia].
Qed.

Lemma step_pending :
  u32 (write_requests r' - write_completions r')
  = total queued ts' + total served ts' + total owner ts'.
Proof.
  pose proof step_alive as Ha.
  pose proof (c_pending _ _ C) as C6. pose proof (c_len _ _ C) as C1. clear C.
  class_facts queued queued_woken Hi p' cv.
  class_facts served served_woken Hi p' cv. class_facts owner owner_woken Hi p' cv.
  subst ts'. revert Hi.
  move_branches Hm; intros _; try done;
    rewrite ?u32_s32_add, ?u32_s32_sub, ?C6,
      ?(u32_small (_ + _ + _ + _)), ?(u32_small (_ + _ + _ - _)) by lia; lia.
Qed.

Lemma step_cnt :
  cnt_and_flag r' = 2 * total counted ts' + total writing ts'
  /\ total writing ts' <= 1 /\ (0 < total writing ts' -> total reading ts' = 0).
Proof.
  pose proof step_alive as Ha. destruct cnt_facts as [Hf Hc].
  destruct C as [C1 _ C3 C4 C5 _ _ _ _]. clear C.
  assert (total reading ts <= total counted ts) as Hrc.
  { apply total_mono. intros q. by destruct q as [| | | |[]|[]|[]|[]|[]|[]|[]]. }
  pose proof (total_range counted ts') as R'. rewrite step_len in R'.
  class_facts counted counted_woken Hi p' cv.
  class_facts reading reading_woken Hi p' cv. class_facts writing writing_woken Hi p' cv.
  subst ts'. unfold READER_INCR, WRITER_ACTIVE in *. revert Hi.
  move_branches Hm; intros _; try done; rewrite ?s32_small by lia; lia.
Qed.

Lemma counts_step : counts r' ts'.
Proof.
  destruct step_cnt as (H1 & H2 & H3). split; try done.
  - rewrite step_len. apply C.
  - unfold valid_rwlock. rewrite step_magic. apply C.
  - apply step_pending.
  - apply step_mutex.
  - apply step_waiting.
  - pose proof step_alive. unfold ts'. rewrite (total_step aborted ts i p p' cv Hi aborted_woken), (c_alive _ _ C).
    pose proof (total_ge aborted ts i p Hi). rewrite (c_alive _ _ C) in *.
    destruct (aborted p); cbn in *; [lia|]. by destruct p'.
Qed.
End Step.

(** ** The writers' queue *)

(** How many tickets ago each queued writer drew its own. *)
Definition ages (r : isc_rwlock) (ts : list pc) : list Z :=
  (fun t => u32 (write_requests r - t)) <$> omap ticket ts.

(** The queued writers hold the last tickets drawn, each a different one, and
    at most one writer has been served and still waits for the readers. *)
Record queue (r : isc_rwlock) (ts : list pc) : Prop := {
  q_ages : ages r ts ≡ₚ seqZ 1 (total queued ts);
  q_served : total served ts <= 1
}.

Lemma ticket_signal cv p : ticket (signal cv p) = ticket p.
Proof. by destruct cv as [[]|], p as [| | | |[]|[]|[]|[]|[]|[]|[]]. Qed.

Lemma tickets_signal cv (ts : list pc) : omap ticket (signal cv <$> ts) = omap ticket ts.
Proof.
  induction ts as [|p ts IH]; [done|]. rewrite fmap_cons. cbn.
  rewrite ticket_signal. destruct (ticket p); [f_equal|]; apply IH.
Qed.

Lemma slot_perm {A} (l : list A) i x :
  l !! i = Some x ->
  exists rest, l ≡ₚ x :: rest /\ forall y, <[i := y]> l ≡ₚ y :: rest.
Proof.
  intros H. exists (take i l ++ drop (S i) l). split.
  - rewrite <- (take_drop_middle l i x H) at 1. by rewrite Permutation_middle.
  - intros y. rewrite insert_take_drop by (by eapply lookup_lt_Some).
    by rewrite Permutation_middle.
Qed.

#[export] Instance Zlen_Permutation {A} : Proper (Permutation ==> eq) (@Zlen A).
Proof. intros l k H. unfold Zlen. by rewrite H. Qed.

(** The tickets before and after a step. *)
Lemma tickets_step (ts : list pc) i p p' cv :
  ts !! i = Some p ->
  exists rest, omap ticket ts ≡ₚ option_list (ticket p) ++ rest
    /\ omap ticket (<[i := p']> (signal cv <$> ts)) ≡ₚ option_list (ticket p') ++ rest.
Proof.
  intros Hi. assert (Hs : (signal cv <$> ts) !! i = Some (signal cv p)).
  { by rewrite list_lookup_fmap, Hi. }
  destruct (slot_perm _ _ _ Hs) as (rest & H1 & H2). exists (omap ticket rest). split.
  - rewrite <- (tickets_signal cv ts), H1. cbn. rewrite ticket_signal. by destruct (ticket p).
  - rewrite (H2 p'). cbn. by destruct (ticket p').
Qed.

(** The three things a step can do to the queue. *)
Inductive queue_move (r r' : isc_rwlock) (p p' : pc) : Prop :=
| queue_same :
    ticket p' = ticket p -> write_requests r' = write_requests r ->
    Z.b2z (served p') <= Z.b2z (served p) -> queue_move r r' p p'
| queue_enter :
    ticket p = None -> ticket p' = Some (write_requests r) ->
    write_requests r' = s32 (write_requests r + 1) ->
    served p = false -> served p' = false -> queue_move r r' p p'
| queue_leave :
    ticket p = Some (write_completions r) -> ticket p' = None ->
    write_requests r' = write_requests r ->
    served p = false -> served p' = true -> queue_move r r' p p'.

Lemma move_queue r p r' p' cv : move r p r' p' cv -> p' <> Aborted -> queue_move r r' p p'.
Proof.
  intros Hm Ha.
  move_branches Hm; try done; try (apply queue_same; (reflexivity || (cbn; lia))).
  - by apply queue_enter.
  - apply Z.eqb_eq in Heqb. subst. by apply queue_leave.
  - apply Z.eqb_eq in Heqb. subst. by apply queue_leave.
Qed.

Lemma queued_total (ts : list pc) : total queued ts = Zlen (omap ticket ts).
Proof.
  induction ts as [|p ts IH]; [done|]. cbn [total]. unfold queued at 1. cbn.
  destruct (ticket p); cbn; [rewrite Zlen_cons|]; rewrite IH; reflexivity.
Qed.

Lemma seqZ_snoc m n : 0 <= n -> seqZ m (n + 1) = seqZ m n ++ [m + n].
Proof. intros H. by rewrite seqZ_app by lia. Qed.

(** A writer is served only when its ticket is the oldest one outstanding and
    no other writer has been served. *)
Lemma leave_oldest r ts i p :
  counts r ts -> queue r ts -> ts !! i = Some p ->
  ticket p = Some (write_completions r) ->
  u32 (write_requests r - write_completions r) = total queued ts
  /\ total served ts = 0 /\ total owner ts = 0.
Proof.
  intros C [Hages _] Hi Ht.
  assert (Hin : u32 (write_requests r - write_completions r) ∈ ages r ts).
  { unfold ages. apply list_elem_of_fmap. eexists. split; [done|].
    apply list_elem_of_omap. exists p. split; [by eapply list_elem_of_lookup_2|done]. }
  rewrite Hages in Hin. apply elem_of_seqZ in Hin.
  rewrite (c_pending _ _ C) in *.
  pose proof (total_range served ts). pose proof (total_range owner ts). lia.
Qed.
Lemma queue_step r ts i p r' p' cv :
  counts r ts -> queue r ts -> ts !! i = Some p -> move r p r' p' cv ->
  queue r' (<[i := p']> (signal cv <$> ts)).
Proof.
  intros C Q Hi Hm.
  pose proof (step_alive _ _ _ _ _ _ _ C Hi Hm) as Ha.
  pose proof (total_step served ts i p p' cv Hi served_woken) as Hserved.
  pose proof (total_range queued ts) as Hr. pose proof (c_len _ _ C) as Hlen.
  destruct (tickets_step ts i p p' cv Hi) as (rest & H1 & H2).
  destruct (move_queue _ _ _ _ _ Hm Ha) as [Ht Hw Hs|Hp Hp' Hw Hs Hs'|Hp Hp' Hw Hs Hs'].
  - destruct Q as [Hages Hone]. split; [|lia].
    assert (E : omap ticket (<[i := p']> (signal cv <$> ts)) ≡ₚ omap ticket ts).
    { by rewrite H1, H2, Ht. }
    unfold ages. rewrite Hw, E, queued_total, E, <- queued_total. exact Hages.
  - destruct Q as [Hages Hone]. rewrite Hs, Hs' in Hserved. cbn in Hserved. split; [|lia].
    rewrite Hp in H1. rewrite Hp' in H2. cbn in H1, H2.
    assert (Hq : total queued (<[i := p']> (signal cv <$> ts)) = total queued ts + 1).
    { rewrite !queued_total, H1, H2. rewrite Zlen_cons. lia. }
    unfold ages in *. rewrite Hq, H2, Hw. rewrite H1 in Hages. cbn.
    rewrite seqZ_cons by lia. apply Permutation_cons.
    + rewrite u32_s32_add, Z.sub_diag. reflexivity.
    + replace (Z.pred (total queued ts + 1)) with (total queued ts) by lia.
      change (Z.succ 1) with (1 + 1). rewrite <- (fmap_add_seqZ 1 1), <- Hages, <- list_fmap_compose.
      apply reflexive_eq, list_fmap_ext. intros k t Hk. cbn. rewrite u32_s32_add.
      rewrite u32_small; [lia|].
      assert (Hin : u32 (write_requests r - t) ∈ seqZ 1 (total queued ts)).
      { rewrite <- Hages. apply list_elem_of_fmap. eexists. split; [done|].
        by eapply list_elem_of_lookup_2. }
      apply elem_of_seqZ in Hin. lia.
  - destruct (leave_oldest r ts i p C Q Hi Hp) as (Hage & Hs0 & _).
    destruct Q as [Hages Hone]. rewrite Hs, Hs' in Hserved. cbn in Hserved. split; [|lia].
    rewrite Hp in H1. rewrite Hp' in H2. cbn in H1, H2.
    assert (Hq : total queued ts = total queued (<[i := p']> (signal cv <$> ts)) + 1).
    { rewrite !queued_total, H1, H2, Zlen_cons. lia. }
    unfold ages in *. rewrite H1 in Hages. cbn in Hages.
    rewrite Hage, Hq in Hages. rewrite Hw, H2.
    pose proof (total_range queued (<[i := p']> (signal cv <$> ts))).
    rewrite seqZ_snoc, (Z.add_comm 1), Permutation_app_comm in Hages by lia.
    cbn in Hages. by apply Permutation_cons_inv in Hages.
Qed.

(** ** Wake-ups *)

(** A reader that saw the writer flag and sleeps, or is about to. *)
Definition sleepy2 (p : pc) : bool :=
  match p with InLockR LR_wait2 | InLockR LR_asleep2 => true | _ => false end.

(** Has given up the writer flag and has not yet reached the broadcast on
    [readable]. *)
Definition wakes2 (p : pc) : bool :=
  match p with
  | InUnlockW q =>
      match q with
      | UW_complete | UW_granted | UW_requests | UW_completions _ | UW_count | UW_lock1
      | UW_waiting | UW_wake1 => true
      | _ => false
      end
  | InDowngrade q =>
      match q with DG_complete | DG_lock | DG_test | DG_wake => true | _ => false end
  | _ => false
  end.

(** A reader that saw an outstanding writer and sleeps, or is bound to;
    [comp] is [write_completions]. *)
Definition sleepy1 (comp : Z) (p : pc) : bool :=
  match p with
  | InLockR q =>
      match q with
      | LR_completions2 req => negb (req =? comp)
      | LR_count1 | LR_wait1 | LR_asleep1 => true
      | _ => false
      end
  | _ => false
  end.

(** Has completed a write and will broadcast on [readable] if no writer is
    outstanding; [req] is [write_requests]. *)
Definition wakes1 (req : Z) (p : pc) : bool :=
  match p with
  | InUnlockW q =>
      match q with
      | UW_granted | UW_requests | UW_lock1 | UW_waiting | UW_wake1 => true
      | UW_completions v => v =? req
      | _ => false
      end
  | InDowngrade q => match q with DG_lock | DG_test | DG_wake => true | _ => false end
  | _ => false
  end.

(** A writer whose turn it is, or that waits for the readers, and sleeps or is
    about to; [comp] is [write_completions]. *)
Definition sleepyW (comp : Z) (p : pc) : bool :=
  match p with
  | InLockW q =>
      match q with
      | LW_wait1 t | LW_asleep1 t => t =? comp
      | LW_wait2 | LW_asleep2 => true
      | _ => false
      end
  | _ => false
  end.

(** Will broadcast on [writeable], or is a reader on its way in. *)
Definition wakesW (comp : Z) (p : pc) : bool :=
  match p with
  | InLockR q =>
      match q with LR_woken1 | LR_uncount1 | LR_unlock1 | LR_incr => true | _ => false end
  | InTry q =>
      match q with
      | TR_completions2 | TR_lock | TR_wake => true
      | TR_requests2 v => v =? comp
      | _ => false
      end
  | InUnlockR q =>
      match q with
      | UR_completions | UR_lock | UR_wake => true
      | UR_requests v => v =? comp
      | _ => false
      end
  | InUnlockW q =>
      match q with
      | UW_complete | UW_granted | UW_requests | UW_completions _ | UW_count | UW_lock1
      | UW_waiting | UW_wake1 | UW_lock2 | UW_wake2 => true
      | UW_unlock1 wk | UW_requests2 wk => wk
      | UW_completions2 wk v => wk && negb (v =? comp)
      | _ => false
      end
  | _ => false
  end.

Definition about_to_wake (p : pc) : bool :=
  match p with InUnlockW UW_wake1 => true | _ => false end.

(** A ticket is an [isc_int32_t]. *)
Definition bad_ticket (p : pc) : bool :=
  match ticket p with
  | Some t => negb ((- 2 ^ 31 <=? t) && (t <? 2 ^ 31))
  | None => false
  end.

Definition pending (ts : list pc) : Z := total queued ts + total served ts + total owner ts.

(** Whenever the condition a thread sleeps for holds, some thread that runs is
    bound to wake it. *)
Record wakeups (r : isc_rwlock) (ts : list pc) : Prop := {
  w_words : - 2 ^ 31 <= write_requests r < 2 ^ 31 /\ - 2 ^ 31 <= write_completions r < 2 ^ 31;
  w_readers2 : 0 < total sleepy2 ts -> 0 < total writing ts + total wakes2 ts;
  w_readers1 :
    0 < total (sleepy1 (write_completions r)) ts ->
    0 < pending ts + total (wakes1 (write_requests r)) ts;
  w_writers :
    0 < total (sleepyW (write_completions r)) ts ->
    0 < total counted ts + total writing ts + total (wakesW (write_completions r)) ts;
  w_waiting : 0 < total about_to_wake ts -> 0 < readers_waiting r;
  w_tickets : total bad_ticket ts = 0
}.

(** Bounds on a class that a broadcast may shrink, or extend. *)
Lemma total_step_le f g ts i p p' :
  ts !! i = Some p -> (forall q, f (g q) = true -> f q = true) ->
  total f (<[i := p']> (g <$> ts)) <= total f ts - Z.b2z (f p) + Z.b2z (f p').
Proof.
  intros Hi Hg.
  assert (Hle : forall l, total f (g <$> l) <= total f l).
  { induction l as [|q l IH]; [done|]. rewrite fmap_cons. cbn [total].
    specialize (Hg q). destruct (f (g q)), (f q); cbn; lia. }
  revert i Hi. induction ts as [|q ts IH]; intros [|i] Hi; try done; cbn in Hi; rewrite fmap_cons.
  - simplify_eq. cbn [insert list_insert total]. specialize (Hle ts). lia.
  - change (<[S i := p']> (g q :: (g <$> ts))) with (g q :: <[i := p']> (g <$> ts)). cbn [total].
    specialize (IH i Hi). specialize (Hg q).
    destruct (f (g q)), (f q); cbn; lia.
Qed.

Lemma total_negb f ts : total (fun q => negb (f q)) ts = Zlen ts - total f ts.
Proof.
  induction ts as [|q ts IH]; [done|]. cbn [total]. rewrite Zlen_cons, IH.
  destruct (f q); cbn; lia.
Qed.

Lemma total_step_ge f g ts i p p' :
  ts !! i = Some p -> (forall q, f q = true -> f (g q) = true) ->
  total f ts - Z.b2z (f p) + Z.b2z (f p') <= total f (<[i := p']> (g <$> ts)).
Proof.
  intros Hi Hg.
  pose proof (total_step_le (fun q => negb (f q)) g ts i p p' Hi) as H.
  rewrite !total_negb in H.
  assert (Zlen (<[i := p']> (g <$> ts)) = Zlen ts) as Hlen
    by (unfold Zlen; by rewrite length_insert, length_fmap).
  assert (forall q, negb (f (g q)) = true -> negb (f q) = true) as Hn.
  { intros q. specialize (Hg q). destruct (f q), (f (g q)); cbn; auto. }
  specialize (H Hn). destruct (f p), (f p'); cbn in *; lia.
Qed.

(** While a thread holds the mutex every other thread is outside it. *)
Lemma mutex_alone r ts i p j q :
  counts r ts -> ts !! i = Some p -> in_mutex p = true ->
  ts !! j = Some q -> i <> j -> in_mutex q = false.
Proof.
  intros C Hi Hp Hj Hij. destruct (in_mutex q) eqn:Hq; [|done]. exfalso.
  pose proof (total_two in_mutex ts i j p q Hi Hj Hij Hp Hq).
  pose proof (c_mutex _ _ C). destruct (lock r); cbn in *; lia.
Qed.

Lemma mutex_none r ts i p f :
  counts r ts -> ts !! i = Some p -> in_mutex p = true ->
  f p = false -> (forall q, f q = true -> in_mutex q = true) -> total f ts = 0.
Proof.
  intros C Hi Hp Hfp Hf. apply total_none. intros j q Hj.
  destruct (decide (i = j)) as [<-|Hij]; [congruence|].
  pose proof (mutex_alone r ts i p j q C Hi Hp Hj Hij) as Hq.
  specialize (Hf q). destruct (f q); [|done]. rewrite Hf in Hq; done.
Qed.

Lemma thread_after (ts : list pc) i p' cv j q' :
  <[i := p']> (signal cv <$> ts) !! j = Some q' ->
  (j = i /\ q' = p') \/ (j <> i /\ exists q, ts !! j = Some q /\ q' = signal cv q).
Proof.
  destruct (decide (j = i)) as [->|Hij].
  - intros H. left. split; [done|].
    assert (i < length (signal cv <$> ts))%nat.
    { apply lookup_lt_Some in H. by rewrite length_insert in H. }
    rewrite list_lookup_insert_eq in H by done. congruence.
  - rewrite list_lookup_insert_ne by done. rewrite list_lookup_fmap.
    intros H. right. split; [done|]. destruct (ts !! j) as [q|]; [|done]. cbn in H.
    exists q. split; congruence.
Qed.

(** A broadcast, made inside the mutex, leaves no sleeper of its kind. *)
Lemma broadcast_clears r ts i p p' cv f :
  counts r ts -> ts !! i = Some p -> in_mutex p = true -> f p' = false ->
  (forall q, in_mutex q = false -> f (signal cv q) = false) ->
  total f (<[i := p']> (signal cv <$> ts)) = 0.
Proof.
  intros C Hi Hp Hp' Hf. apply total_none. intros j q' Hj.
  destruct (thread_after _ _ _ _ _ _ Hj) as [[_ ->]|(Hij & q & Hq & ->)]; [done|].
  apply Hf. by apply (mutex_alone r ts i p j q).
Qed.

Ltac pc_cases q := destruct q as [| | | |[]|[]|[]|[]|[]|[]|[]].

Lemma move_readable r p r' p' cv :
  move r p r' p' cv -> cv = Some readable ->
  (p = InUnlockW UW_wake1 /\ p' = InUnlockW (UW_unlock1 false))
  \/ (p = InDowngrade DG_wake /\ p' = InDowngrade DG_unlock).
Proof. intros Hm Hcv. move_branches Hm; auto. Qed.

Lemma move_writeable r p r' p' cv :
  move r p r' p' cv -> cv = Some writeable ->
  (p = InTry TR_wake /\ p' = InTry TR_unlock)
  \/ (p = InUnlockR UR_wake /\ p' = InUnlockR UR_unlock)
  \/ (p = InUnlockW UW_wake2 /\ p' = InUnlockW UW_unlock2).
Proof. intros Hm Hcv. move_branches Hm; auto. Qed.

Section Wake.
Context (r : isc_rwlock) (ts : list pc) (i : nat) (p : pc) (r' : isc_rwlock) (p' : pc)
  (cv : option condvar).
Hypothesis C : counts r ts.
Hypothesis W : wakeups r ts.
Hypothesis Hi : ts !! i = Some p.
Hypothesis Hm : move r p r' p' cv.
Let ts' := <[i := p']> (signal cv <$> ts).

Lemma wake_words :
  - 2 ^ 31 <= write_requests r' < 2 ^ 31 /\ - 2 ^ 31 <= write_completions r' < 2 ^ 31.
Proof.
  pose proof (w_words _ _ W) as Hw. clear W C Hi.
  assert (Hs : forall x, - 2 ^ 31 <= s32 x < 2 ^ 31).
  { intros x. unfold s32, u32. destruct (_ <? _) eqn:?; divlia. }
  move_branches Hm; split; try apply Hs; lia.
Qed.

Lemma wake_readers2 : 0 < total sleepy2 ts' -> 0 < total writing ts' + total wakes2 ts'.
Proof.
  pose proof (w_readers2 _ _ W) as W2. pose proof (c_waiting _ _ C) as Cw.
  destruct (cnt_facts _ _ C) as [Hf Hc]. pose proof (step_alive _ _ _ _ _ _ _ C Hi Hm) as Ha.
  assert (S1 : total sleepy2 ts' <= total sleepy2 ts - Z.b2z (sleepy2 p) + Z.b2z (sleepy2 p')).
  { apply total_step_le; [done|]. intros q. destruct cv as [[]|]; by pc_cases q. }
  assert (S2 : total sleepy2 ts <= total counted ts).
  { apply total_mono. intros q. by pc_cases q. }
  assert (S3 : total sleepy2 ts <= total waiting ts).
  { apply total_mono. intros q. by pc_cases q. }
  assert (S4 : cv = Some readable -> total sleepy2 ts' = 0).
  { intros Hcv. destruct (move_readable _ _ _ _ _ Hm Hcv) as [[-> ->]|[-> ->]]; subst cv;
      eapply broadcast_clears; eauto; intros q; by pc_cases q. }
  class_facts writing writing_woken Hi p' cv.
  assert (H2 : forall q, wakes2 (woken q) = wakes2 q) by (intros q; by pc_cases q).
  class_facts wakes2 H2 Hi p' cv. clear C W H2. subst ts'. revert Hi.
  move_branches Hm; intros _; try done; try lia.
  all: try (specialize (S4 eq_refl); lia).
Qed.

(** The two ticket counters agree exactly when no writer is outstanding. *)
Lemma pending_words : pending ts = 0 <-> write_requests r = write_completions r.
Proof.
  pose proof (w_words _ _ W) as Hw. pose proof (c_pending _ _ C) as Cp.
  unfold pending. rewrite <- Cp. unfold u32. divlia.
Qed.

Lemma wake_readers1 :
  0 < total (sleepy1 (write_completions r')) ts' ->
  0 < pending ts' + total (wakes1 (write_requests r')) ts'.
Proof.
  pose proof (w_readers1 _ _ W) as W1. pose proof (c_waiting _ _ C) as Cw.
  pose proof pending_words as Hpw. pose proof (step_alive _ _ _ _ _ _ _ C Hi Hm) as Ha.
  set (comp := write_completions r) in *. set (req := write_requests r) in *.
  assert (S1 : total (sleepy1 comp) ts' <= total (sleepy1 comp) ts - Z.b2z (sleepy1 comp p)
                                          + Z.b2z (sleepy1 comp p')).
  { apply total_step_le; [done|]. intros q. destruct cv as [[]|]; by pc_cases q. }
  assert (S3 : in_mutex p = true -> sleepy1 comp p = false ->
               total (sleepy1 comp) ts <= total waiting ts).
  { intros Hp Hs. pose proof (mutex_none r ts i p
      (fun q => sleepy1 comp q && in_mutex q) C Hi Hp) as H0.
    assert (total (sleepy1 comp) ts
            <= total (fun q => sleepy1 comp q && in_mutex q) ts + total waiting ts) as Hle.
    { clear. induction ts as [|q l IH]; [done|]. cbn [total].
      assert (Z.b2z (sleepy1 comp q)
              <= Z.b2z (sleepy1 comp q && in_mutex q) + Z.b2z (waiting q)); [|lia].
      pc_cases q; cbn; lia. }
    rewrite H0 in Hle; [lia|by rewrite Hs|intros q; by destruct (sleepy1 comp q)]. }
  assert (S4 : cv = Some readable -> total (sleepy1 comp) ts' = 0).
  { intros Hcv. destruct (move_readable _ _ _ _ _ Hm Hcv) as [[-> ->]|[-> ->]]; subst cv;
      eapply broadcast_clears; eauto; intros q; by pc_cases q. }
  pose proof (total_range (wakes1 (write_requests r')) ts') as Rw.
  class_facts queued queued_woken Hi p' cv.
  class_facts served served_woken Hi p' cv. class_facts owner owner_woken Hi p' cv.
  assert (H1 : forall q, wakes1 req (woken q) = wakes1 req q) by (intros q; by pc_cases q).
  class_facts (wakes1 req) H1 Hi p' cv.
  assert (Hnew : wakes1 (write_requests r') p' = true ->
                 1 <= total (wakes1 (write_requests r')) ts').
  { apply total_in with i. apply list_lookup_insert_eq. rewrite length_fmap.
    by eapply lookup_lt_Some. }
  unfold pending in *. clear C W H1. subst ts'. revert Hi.
  move_branches Hm; intros _; try done; subst comp req; try lia.
  all: first [specialize (S4 eq_refl); lia | specialize (Hnew eq_refl); lia
             | specialize (S3 eq_refl eq_refl); lia].
Qed.

(** When [readers_waiting] is positive the readers woken by a broadcast on
    [readable] are on their way in. *)
Lemma woken_readers :
  p = InUnlockW UW_wake1 -> p' = InUnlockW (UW_unlock1 false) -> cv = Some readable ->
  forall comp, 0 < total counted ts' + total (wakesW comp) ts'.
Proof.
  intros Hp Hp' Hcv comp.
  assert (0 < total waiting ts) as Hw.
  { rewrite <- (c_waiting _ _ C). apply (w_waiting _ _ W).
    pose proof (total_in about_to_wake ts i p Hi) as H. rewrite Hp in H. specialize (H eq_refl). lia. }
  destruct (total_ex _ _ Hw) as (j & q & Hj & Hq).
  assert (Hij : i <> j) by (intros <-; assert (p = q) by congruence; subst; done).
  assert (Hmq : in_mutex q = false).
  { apply (mutex_alone r ts i p j q); try done. by rewrite Hp. }
  assert (Hj' : ts' !! j = Some (signal cv q)).
  { unfold ts'. by rewrite list_lookup_insert_ne, list_lookup_fmap, Hj. }
  pose proof (total_in counted _ _ _ Hj') as H1.
  pose proof (total_in (wakesW comp) _ _ _ Hj') as H2.
  pose proof (total_range counted ts'). pose proof (total_range (wakesW comp) ts').
  subst cv. revert Hq Hmq H1 H2. clear -H H0. pc_cases q; cbn; intros; try done;
    first [specialize (H1 eq_refl); lia | specialize (H2 eq_refl); lia].
Qed.

Lemma wake_writers :
  0 < total (sleepyW (write_completions r')) ts' ->
  0 < total counted ts' + total writing ts' + total (wakesW (write_completions r')) ts'.
Proof.
  pose proof (w_writers _ _ W) as WW. pose proof (c_cnt _ _ C) as Cc.
  pose proof pending_words as Hpw. pose proof (step_alive _ _ _ _ _ _ _ C Hi Hm) as Ha.
  pose proof (fun H1 H2 H3 => woken_readers H1 H2 H3 (write_completions r')) as Hwr.
  set (comp := write_completions r) in *. set (req := write_requests r) in *.
  assert (S1 : total (sleepyW comp) ts' <= total (sleepyW comp) ts - Z.b2z (sleepyW comp p)
                                          + Z.b2z (sleepyW comp p')).
  { apply total_step_le; [done|]. intros q. destruct cv as [[]|]; by pc_cases q. }
  assert (S2 : 0 < total (sleepyW comp) ts -> 0 < pending ts).
  { unfold pending. intros Hs. destruct (total_ex _ _ Hs) as (j & q & Hj & Hq).
    pose proof (total_ge queued _ _ _ Hj). pose proof (total_ge served _ _ _ Hj).
    pose proof (total_range queued ts). pose proof (total_range served ts).
    pose proof (total_range owner ts).
    pc_cases q; try done; cbn in *; lia. }
  assert (S3 : total (wakesW comp) ts - Z.b2z (wakesW comp p) + Z.b2z (wakesW comp p')
               <= total (wakesW comp) ts').
  { apply total_step_ge; [done|]. intros q. destruct cv as [[]|]; by pc_cases q. }
  assert (S4 : cv = Some writeable -> total (sleepyW comp) ts' = 0).
  { intros Hcv. destruct (move_writeable _ _ _ _ _ Hm Hcv) as [[-> ->]|[[-> ->]|[-> ->]]];
      subst cv; eapply broadcast_clears; eauto; intros q; by pc_cases q. }
  pose proof (total_ge (wakesW comp) ts i p Hi) as Gw.
  pose proof (total_range (wakesW comp) ts) as Rw.
  pose proof (total_range (wakesW (write_completions r')) ts') as Rw'.
  class_facts counted counted_woken Hi p' cv. class_facts writing writing_woken Hi p' cv.
  assert (Hnew : wakesW (write_completions r') p' = true ->
                 1 <= total (wakesW (write_completions r')) ts').
  { apply total_in with i. apply list_lookup_insert_eq. rewrite length_fmap.
    by eapply lookup_lt_Some. }
  unfold pending in *. clear C W. subst ts'. revert Hi.
  move_branches Hm; intros _; try done; subst comp req; try lia.
  all: first [specialize (S4 eq_refl); lia | specialize (Hnew eq_refl); lia
             | specialize (Hwr eq_refl eq_refl eq_refl); lia].
Qed.

Lemma wake_waiting : 0 < total about_to_wake ts' -> 0 < readers_waiting r'.
Proof.
  pose proof (w_waiting _ _ W) as Ww. pose proof (step_waiting _ _ _ _ _ _ _ C Hi Hm) as Cw'.
  pose proof (c_len _ _ C) as Hlen.
  assert (Hnone : in_mutex p = true -> about_to_wake p = false -> total about_to_wake ts = 0).
  { intros Hp Ha. eapply mutex_none; eauto. intros q. by pc_cases q. }
  assert (H0 : forall q, about_to_wake (woken q) = about_to_wake q) by (intros q; by pc_cases q).
  class_facts about_to_wake H0 Hi p' cv. clear C W H0. subst ts'. revert Hi.
  move_branches Hm; intros _; try lia.
  all: specialize (Hnone eq_refl eq_refl); lia.
Qed.

Lemma wake_tickets : total bad_ticket ts' = 0.
Proof.
  pose proof (w_words _ _ W) as Hw. pose proof (w_tickets _ _ W) as Ht.
  pose proof (step_alive _ _ _ _ _ _ _ C Hi Hm) as Ha.
  assert (H0 : forall q, bad_ticket (woken q) = bad_ticket q) by (intros q; by pc_cases q).
  class_facts bad_ticket H0 Hi p' cv. unfold ts'. rewrite Hstep, Ht.
  destruct (move_queue _ _ _ _ _ Hm Ha) as [E _ _|E E' _ _ _|E E' _ _ _];
    unfold bad_ticket in Hge |- *; rewrite ?E, ?E' in *; cbn in *; try lia.
Qed.

Lemma wakeups_step : wakeups r' ts'.
Proof.
  split; [apply wake_words|apply wake_readers2|apply wake_readers1|apply wake_writers
         |apply wake_waiting|apply wake_tickets].
Qed.
End Wake.

(** ** Every reachable state *)

Record invariant (s : system) : Prop := {
  i_counts : counts (shared s) (threads s);
  i_queue : queue (shared s) (threads s);
  i_wakeups : wakeups (shared s) (threads s)
}.

Lemma total_replicate_idle f n : f Idle = false -> total f (replicate n Idle) = 0.
Proof. intros H. apply total_none. intros i p Hp. apply lookup_replicate in Hp. by destruct Hp as [-> _]. Qed.

Lemma start_invariant wquota n : Z.of_nat n < 2 ^ 30 -> invariant (start wquota n).
Proof.
  intros Hn.
  assert (Hinit : snd (isc_rwlock_init ISC_R_SUCCESS ISC_R_SUCCESS ISC_R_SUCCESS wquota)
    = mkRwlock RWLOCK_MAGIC false 0 0 0 0 0
        (if wquota =? 0 then RWLOCK_DEFAULT_WRITE_QUOTA else wquota)) by reflexivity.
  unfold start. rewrite Hinit.
  split; cbn [shared threads]; split; cbn -[Z.pow]; rewrite ?total_replicate_idle by done;
    try done; try lia.
  - unfold Zlen. by rewrite length_replicate.
  - unfold ages. assert (omap ticket (replicate n Idle) = []) as ->
      by (clear; induction n as [|n IH]; [reflexivity|exact IH]).
    done.
Qed.

Lemma step_invariant s s' : step s s' -> invariant s -> invariant s'.
Proof.
  intros [r ts i p r' p' cv Hi Hm] [C Q W]. split; cbn in *.
  - by eapply counts_step.
  - by eapply queue_step.
  - by eapply wakeups_step.
Qed.

Lemma reachable_invariant wquota n s :
  Z.of_nat n < 2 ^ 30 -> reachable wquota n s -> invariant s.
Proof.
  intros Hn Hr. pose proof (start_invariant wquota n Hn) as H0.
  unfold reachable in Hr. induction Hr as [|s1 s2 s3 Hs Hr IH]; [done|].
  apply IH. by eapply step_invariant.
Qed.

(** ** Progress *)

Definition asleep (p : pc) : bool := match asleep_on p with Some _ => true | None => false end.
Definition holding (p : pc) : bool := match p with HoldR | HoldW => true | _ => false end.
Definition resting (p : pc) : bool := match p with Idle => true | _ => asleep p end.

Lemma exec_in_mutex r p : in_mutex p = true -> exists e, exec r p = Some e.
Proof. pc_cases p; intros H; try done; cbn; unfold mutex_unlock, broadcast, go; eauto. Qed.

Lemma exec_unlocked r p :
  lock r = false -> resting p = false -> holding p = false -> aborted p = false ->
  exists e, exec r p = Some e.
Proof.
  intros Hl. pc_cases p; intros; try done; cbn; unfold mutex_lock, mutex_unlock, broadcast, go;
    rewrite ?Hl; eauto.
Qed.

Lemma resting_none f ts :
  (forall i p, ts !! i = Some p -> resting p = true) ->
  (forall p, resting p = true -> f p = false) -> total f ts = 0.
Proof. intros H Hf. apply total_none. intros i p Hp. eauto. Qed.

Lemma resting_le f g ts :
  (forall i p, ts !! i = Some p -> resting p = true) ->
  (forall p, resting p = true -> f p = true -> g p = true) -> total f ts <= total g ts.
Proof.
  intros H Hf. induction ts as [|q ts IH]; [done|]. cbn [total].
  pose proof (Hf q (H 0%nat q eq_refl)) as Hq.
  assert (total f ts <= total g ts) by (apply IH; intros i p Hp; exact (H (S i) p Hp)).
  destruct (f q), (g q); cbn; lia.
Qed.

(** The oldest queued writer's ticket is the next one to be served when no
    writer is ahead of the queue. *)
Lemma oldest_ticket r ts :
  counts r ts -> queue r ts -> wakeups r ts ->
  0 < total queued ts -> total served ts = 0 -> total owner ts = 0 ->
  exists i p, ts !! i = Some p /\ ticket p = Some (write_completions r).
Proof.
  intros C Q W Hq Hs Ho.
  assert (Hin : total queued ts ∈ ages r ts).
  { rewrite (q_ages _ _ Q). apply elem_of_seqZ. lia. }
  unfold ages in Hin. apply list_elem_of_fmap in Hin. destruct Hin as (t & Ht & Hin).
  apply list_elem_of_omap in Hin. destruct Hin as (p & Hp & Hpt).
  apply list_elem_of_lookup_1 in Hp. destruct Hp as (i & Hi). exists i, p. split; [done|].
  pose proof (c_pending _ _ C) as Cp. pose proof (w_words _ _ W) as Hw.
  pose proof (total_ge bad_ticket ts i p Hi) as Hb. rewrite (w_tickets _ _ W) in Hb.
  unfold bad_ticket in Hb. rewrite Hpt in Hb |- *. f_equal.
  rewrite Hs, Ho, Ht in Cp. destruct (negb _) eqn:Hn in Hb; cbn in Hb; [lia|].
  unfold u32 in Cp. divlia.
Qed.

(** Threads that all rest are all idle. *)
Lemma nobody_asleep r ts :
  counts r ts -> queue r ts -> wakeups r ts ->
  (forall i p, ts !! i = Some p -> resting p = true) ->
  total asleep ts = 0.
Proof.
  intros C Q W Hrest.
  pose proof (fun f => resting_none f ts Hrest) as Hz.
  assert (E1 : total writing ts = 0) by (apply Hz; intros p; by pc_cases p).
  assert (E2 : total wakes2 ts = 0) by (apply Hz; intros p; by pc_cases p).
  assert (E3 : total owner ts = 0) by (apply Hz; intros p; by pc_cases p).
  assert (E4 : total (wakes1 (write_requests r)) ts = 0) by (apply Hz; intros p; by pc_cases p).
  assert (E5 : total (wakesW (write_completions r)) ts = 0) by (apply Hz; intros p; by pc_cases p).
  assert (L1 : total counted ts <= total sleepy2 ts)
    by (apply resting_le; [done|]; intros p; by pc_cases p).
  assert (L2 : total served ts <= total (sleepyW (write_completions r)) ts)
    by (apply resting_le; [done|]; intros p; by pc_cases p).
  pose proof (w_readers2 _ _ W) as W2. pose proof (w_readers1 _ _ W) as W1.
  pose proof (w_writers _ _ W) as WW. unfold pending in W1.
  pose proof (total_range counted ts). pose proof (total_range served ts).
  pose proof (total_range queued ts).
  assert (Hqueued : total queued ts = 0).
  { destruct (decide (total queued ts = 0)) as [|Hne]; [done|].
    destruct (oldest_ticket r ts C Q W) as (i & p & Hi & Hp); [lia..|].
    pose proof (total_in (sleepyW (write_completions r)) ts i p Hi) as Hin.
    specialize (Hrest i p Hi). exfalso. revert Hp Hrest Hin.
    pc_cases p; cbn; intros; try done; simplify_eq. rewrite Z.eqb_refl in Hin.
    specialize (Hin eq_refl). lia. }
  assert (L3 : total asleep ts <= total sleepy2 ts + total (sleepy1 (write_completions r)) ts
               + total served ts + total queued ts).
  { clear. induction ts as [|q l IH]; [done|]. cbn [total].
    assert (Z.b2z (asleep q) <= Z.b2z (sleepy2 q) + Z.b2z (sleepy1 (write_completions r) q)
                              + Z.b2z (served q) + Z.b2z (queued q)); [|lia].
    pc_cases q; cbn; lia. }
  pose proof (total_range asleep ts). lia.
Qed.
(** Another queued writer than the oldest is younger. *)
Lemma younger r ts i j p q t' :
  queue r ts -> ts !! i = Some p -> ts !! j = Some q -> j <> i ->
  ticket p = Some (write_completions r) -> ticket q = Some t' ->
  u32 (write_requests r - write_completions r) = total queued ts ->
  u32 (write_requests r - t') < total queued ts.
Proof.
  intros Q Hi Hj Hij Hp Hq Hage.
  destruct (tickets_step ts i p Idle None Hi) as (rest & E1 & E2). rewrite Hp in E1. cbn in E1, E2.
  assert (Hin : t' ∈ rest).
  { rewrite <- E2. apply list_elem_of_omap. exists q. split; [|done].
    apply (list_elem_of_lookup_2 _ j). by rewrite list_lookup_insert_ne, list_lookup_fmap, Hj. }
  pose proof (q_ages _ _ Q) as Hages. unfold ages in Hages. rewrite E1 in Hages. cbn in Hages.
  assert (Hin' : u32 (write_requests r - t') ∈ (fun t => u32 (write_requests r - t)) <$> rest)
    by (apply list_elem_of_fmap; by exists t').
  assert (Hnd : NoDup (seqZ 1 (total queued ts))) by apply NoDup_seqZ.
  rewrite <- Hages in Hnd. apply NoDup_cons in Hnd as [Hnotin _].
  assert (Hr : u32 (write_requests r - t') ∈ seqZ 1 (total queued ts))
    by (rewrite <- Hages; by apply elem_of_cons; right).
  apply elem_of_seqZ in Hr.
  assert (u32 (write_requests r - t') <> total queued ts); [|lia].
  intros Heq. apply Hnotin. by rewrite Hage, <- Heq.
Qed.

(** ** Schedules: running the system *)

Inductive action : Type :=
| Call (i : nat) (p : pc)
| Run (i : nat)
| Spurious (i : nat).

Definition calls (p : pc) : list pc :=
  match p with
  | Idle => [InLockR LR_requests; InLockW LW_enter; InTry TR_requests; InTry TW_cas]
  | HoldR => [InUnlockR UR_decr; InUpgrade TU_cas]
  | HoldW => [InUnlockW UW_clear; InDowngrade DG_incr]
  | _ => []
  end.

#[export] Instance lock_read_pc_eq_dec : EqDecision lock_read_pc.
Proof. solve_decision. Defined.
#[export] Instance lock_write_pc_eq_dec : EqDecision lock_write_pc.
Proof. solve_decision. Defined.
#[export] Instance trylock_pc_eq_dec : EqDecision trylock_pc.
Proof. solve_decision. Defined.
#[export] Instance upgrade_pc_eq_dec : EqDecision upgrade_pc.
Proof. solve_decision. Defined.
#[export] Instance downgrade_pc_eq_dec : EqDecision downgrade_pc.
Proof. solve_decision. Defined.
#[export] Instance unlock_read_pc_eq_dec : EqDecision unlock_read_pc.
Proof. solve_decision. Defined.
#[export] Instance unlock_write_pc_eq_dec : EqDecision unlock_write_pc.
Proof. solve_decision. Defined.
#[export] Instance pc_eq_dec : EqDecision pc.
Proof. solve_decision. Defined.

Definition perform (s : system) (a : action) : option system :=
  let 'mkSystem r ts := s in
  match a with
  | Call i p' =>
      p ← ts !! i;
      if bool_decide (p' ∈ calls p)
      then Some (mkSystem r (<[i := if valid_rwlock r then p' else Aborted]> (signal None <$> ts)))
      else None
  | Run i =>
      p ← ts !! i;
      '(r', p', cv) ← exec r p;
      Some (mkSystem r' (<[i := p']> (signal cv <$> ts)))
  | Spurious i =>
      p ← ts !! i;
      _ ← asleep_on p;
      Some (mkSystem r (<[i := woken p]> (signal None <$> ts)))
  end.

Fixpoint schedule (s : system) (l : list action) : option system :=
  match l with
  | [] => Some s
  | a :: l => s' ← perform s a; schedule s' l
  end.

Lemma perform_step s a s' : perform s a = Some s' -> step s s'.
Proof.
  destruct s as [r ts], a as [i p'|i|i]; cbn; intros H;
    destruct (ts !! i) as [p|] eqn:Hi; try discriminate; cbn in H.
  - case_bool_decide as Hc; [|discriminate]. simplify_eq.
    econstructor; [done|]. apply move_call.
    destruct p; cbn in Hc; rewrite ?elem_of_cons, ?elem_of_nil in Hc;
      repeat (destruct Hc as [->|Hc]; [constructor|]); done.
  - destruct (exec r p) as [[[r' p'] cv]|] eqn:He; [|discriminate]. cbn in H. simplify_eq.
    econstructor; [done|]. by apply move_exec.
  - destruct (asleep_on p) as [cv|] eqn:Ha; [|discriminate]. cbn in H. simplify_eq.
    econstructor; [done|]. by eapply move_spurious.
Qed.

Lemma schedule_reachable wquota n l s :
  schedule (start wquota n) l = Some s -> reachable wquota n s.
Proof.
  unfold reachable. generalize (start wquota n) as s0. induction l as [|a l IH]; cbn; intros s0 H.
  - simplify_eq. apply rtc_refl.
  - destruct (perform s0 a) as [s1|] eqn:Ha; [|discriminate]. cbn in H.
    eapply rtc_l; [by eapply perform_step|]. by apply IH.
Qed.

(** ** The guarantees *)

(** C23. Exclusion: in every state any number of threads can reach, through any
    interleaving of lock, try-lock, upgrade, downgrade and unlock calls and
    with spurious wake-ups, a thread that holds the lock for writing is the
    only thread that holds it. *)
Theorem rwlock_mutual_exclusion (wquota : Z) (n : nat) (s : system) (i j : nat) (p : pc) :
  Z.of_nat n < 2 ^ 30 -> reachable wquota n s ->
  threads s !! i = Some HoldW -> threads s !! j = Some p -> i <> j ->
  p <> HoldR /\ p <> HoldW.
Proof.
  intros Hn Hr Hi Hj Hij. destruct (reachable_invariant _ _ _ Hn Hr) as [C _ _].
  pose proof (total_in writing _ _ _ Hi eq_refl) as Hw. split; intros ->.
  - pose proof (total_in reading _ _ _ Hj eq_refl). pose proof (c_excl _ _ C). lia.
  - pose proof (total_two writing _ _ _ _ _ Hi Hj Hij eq_refl eq_refl).
    pose proof (c_one_writer _ _ C). lia.
Qed.

(** No assertion of the lock's functions ever fails: no thread reaches the
    state of a failed [REQUIRE] or [INSIST], [cnt_and_flag] never overflows,
    and once every thread is outside the lock [isc_rwlock_destroy]'s
    requirement is met. *)
Theorem rwlock_assertions_hold (wquota : Z) (n : nat) (s : system) :
  Z.of_nat n < 2 ^ 30 -> reachable wquota n s ->
  (forall i, threads s !! i <> Some Aborted)
  /\ 0 <= cnt_and_flag (shared s) < 2 ^ 31
  /\ ((forall i p, threads s !! i = Some p -> p = Idle) ->
      isc_rwlock_destroy (shared s) = Done (set_magic 0 (shared s))).
Proof.
  intros Hn Hr. destruct (reachable_invariant _ _ _ Hn Hr) as [C _ W].
  destruct s as [r ts]; cbn in *. split_and!.
  - intros i Hi. pose proof (total_in aborted _ _ _ Hi eq_refl).
    rewrite (c_alive _ _ C) in *. lia.
  - rewrite (c_cnt _ _ C). pose proof (total_range counted ts). pose proof (total_range writing ts). lia.
  - rewrite (c_cnt _ _ C). pose proof (total_range counted ts). pose proof (c_len _ _ C).
    pose proof (c_one_writer _ _ C). lia.
  - intros Hidle.
    assert (Hz : forall f, f Idle = false -> total f ts = 0).
    { intros f Hf. apply total_none. intros i p Hp. by rewrite (Hidle i p Hp). }
    unfold isc_rwlock_destroy. rewrite (c_magic _ _ C), (c_cnt _ _ C), (c_waiting _ _ C).
    rewrite !Hz by done. pose proof (proj1 (pending_words r ts C W)) as Hp.
    unfold pending in Hp. rewrite !Hz in Hp by done. by rewrite (Hp eq_refl), Z.eqb_refl.
Qed.

(** Writers are served in the order of their tickets: when a queued writer
    leaves the queue, every other queued writer drew its ticket later, and no
    other writer is between the queue and the end of its write. *)
Theorem rwlock_writers_fifo (wquota : Z) (n : nat) (s : system) (i : nat) (p : pc) (t : Z)
    (r' : isc_rwlock) (p' : pc) (cv : option condvar) :
  Z.of_nat n < 2 ^ 30 -> reachable wquota n s ->
  threads s !! i = Some p -> ticket p = Some t ->
  exec (shared s) p = Some (r', p', cv) -> ticket p' = None ->
  t = write_completions (shared s)
  /\ (forall j q t', threads s !! j = Some q -> j <> i -> ticket q = Some t' ->
        u32 (write_requests (shared s) - t') < u32 (write_requests (shared s) - t))
  /\ (forall j q, threads s !! j = Some q -> served q = false /\ owner q = false).
Proof.
  intros Hn Hr Hi Ht He Ht'. destruct (reachable_invariant _ _ _ Hn Hr) as [C Q W].
  destruct s as [r ts]; cbn in *.
  pose proof (move_exec _ _ _ _ _ He) as Hm.
  pose proof (step_alive _ _ _ _ _ _ _ C Hi Hm) as Ha.
  destruct (move_queue _ _ _ _ _ Hm Ha) as [E _ _|E _ _ _ _|E _ _ _ _]; [congruence..|].
  assert (t = write_completions r) as -> by congruence.
  destruct (leave_oldest r ts i p C Q Hi E) as (Hage & Hs & Ho). split_and!; [done| |].
  - intros j q t' Hj Hij Hq. rewrite Hage. exact (younger r ts i j p q t' Q Hi Hj Hij E Hq Hage).
  - intros j q Hj. pose proof (total_ge served _ _ _ Hj). pose proof (total_ge owner _ _ _ Hj).
    destruct (served q), (owner q); cbn in *; (done || lia).
Qed.

(** C24. No wake-up is lost and nothing deadlocks: while any thread is inside one
    of the lock's functions, some thread holds the lock or can take a step
    without waiting for a spurious wake-up. *)
Theorem rwlock_progress (wquota : Z) (n : nat) (s : system) (i : nat) (p : pc) :
  Z.of_nat n < 2 ^ 30 -> reachable wquota n s ->
  threads s !! i = Some p -> p <> Idle ->
  exists j q, threads s !! j = Some q
    /\ (q = HoldR \/ q = HoldW \/ exists e, exec (shared s) q = Some e).
Proof.
  intros Hn Hr Hi Hp. destruct (reachable_invariant _ _ _ Hn Hr) as [C Q W].
  destruct s as [r ts]; cbn in *. pose proof (c_mutex _ _ C) as Cm.
  destruct (lock r) eqn:Hl; cbn in Cm.
  - destruct (total_ex in_mutex ts) as (j & q & Hj & Hq); [lia|].
    exists j, q. eauto using exec_in_mutex.
  - destruct (decide (total (fun q => negb (resting q)) ts = 0)) as [Hz|Hz].
    + exfalso.
      assert (Hrest : forall j q, ts !! j = Some q -> resting q = true).
      { intros j q Hj. pose proof (total_ge (fun q => negb (resting q)) _ _ _ Hj) as Hge.
        cbn in Hge. destruct (resting q); [done|]; cbn in Hge; lia. }
      pose proof (nobody_asleep r ts C Q W Hrest) as Hna.
      pose proof (total_in asleep ts i p Hi) as Hin. specialize (Hrest i p Hi).
      destruct p; try done; cbn in Hrest; specialize (Hin Hrest); lia.
    + pose proof (total_range (fun q => negb (resting q)) ts).
      destruct (total_ex (fun q => negb (resting q)) ts) as (j & q & Hj & Hq); [lia|].
      exists j, q. split; [done|]. pose proof (total_ge aborted _ _ _ Hj) as Hab.
      rewrite (c_alive _ _ C) in Hab. destruct (holding q) eqn:Hh; [destruct q; auto; done|].
      right; right. apply exec_unlocked; try done; [by destruct (resting q)|].
      destruct (aborted q); cbn in Hab; [lia|done].
Qed.

(** ** Witnesses *)

(** Three threads: the first writes while the two others queue and fall
    asleep. *)
Definition two_asleep : list action :=
  Call 0 (InLockW LW_enter) :: replicate 6 (Run 0)
  ++ Call 1 (InLockW LW_enter) :: replicate 5 (Run 1)
  ++ Call 2 (InLockW LW_enter) :: replicate 5 (Run 2).

(** The first one unlocks and the second one comes back to its test. *)
Definition second_turn : list action :=
  two_asleep ++ Call 0 (InUnlockW UW_clear) :: replicate 11 (Run 0) ++ replicate 2 (Run 1).

(** The queue empties. *)
Definition all_done : list action :=
  second_turn ++ replicate 5 (Run 1) ++ Call 1 (InUnlockW UW_clear) :: replicate 11 (Run 1)
  ++ replicate 7 (Run 2) ++ Call 2 (InUnlockW UW_clear) :: replicate 10 (Run 2).

Definition system_of (l : list action) : system :=
  match schedule (start 0 3) l with Some s => s | None => start 0 3 end.

Lemma two_asleep_reachable : reachable 0 3 (system_of two_asleep).
Proof. apply (schedule_reachable 0 3 two_asleep). vm_compute. reflexivity. Qed.
Lemma second_turn_reachable : reachable 0 3 (system_of second_turn).
Proof. apply (schedule_reachable 0 3 second_turn). vm_compute. reflexivity. Qed.
Lemma all_done_reachable : reachable 0 3 (system_of all_done).
Proof. apply (schedule_reachable 0 3 all_done). vm_compute. reflexivity. Qed.

Lemma rwlock_mutual_exclusion_witness :
  threads (system_of two_asleep) !! 0%nat = Some HoldW
  /\ InLockW (LW_asleep1 1) <> HoldR /\ InLockW (LW_asleep1 1) <> HoldW.
Proof.
  split; [vm_compute; reflexivity|].
  apply (rwlock_mutual_exclusion 0 3 (system_of two_asleep) 0 1).
  - cbn. lia.
  - apply two_asleep_reachable.
  - vm_compute. reflexivity.
  - vm_compute. reflexivity.
  - lia.
Defined.

Lemma rwlock_assertions_hold_witness :
  isc_rwlock_destroy (shared (system_of all_done))
  = Done (set_magic 0 (shared (system_of all_done))).
Proof.
  apply (rwlock_assertions_hold 0 3 (system_of all_done)).
  - cbn. lia.
  - apply all_done_reachable.
  - intros [|[|[|i]]] p H; vm_compute in H; congruence.
Defined.

Lemma rwlock_writers_fifo_witness :
  threads (system_of second_turn) !! 1%nat = Some (InLockW (LW_test 1))
  /\ write_completions (shared (system_of second_turn)) = 1.
Proof.
  split; [vm_compute; reflexivity|]. symmetry.
  apply (rwlock_writers_fifo 0 3 (system_of second_turn) 1 (InLockW (LW_test 1)) 1
           (shared (system_of second_turn)) (InLockW LW_cas) None).
  - cbn. lia.
  - apply second_turn_reachable.
  - vm_compute. reflexivity.
  - reflexivity.
  - vm_compute. reflexivity.
  - reflexivity.
Defined.

Lemma rwlock_progress_witness :
  exists j q, threads (system_of two_asleep) !! j = Some q
    /\ (q = HoldR \/ q = HoldW \/ exists e, exec (shared (system_of two_asleep)) q = Some e).
Proof.
  apply (rwlock_progress 0 3 (system_of two_asleep) 2 (InLockW (LW_asleep1 2))).
  - cbn. lia.
  - apply two_asleep_reachable.
  - vm_compute. reflexivity.
  - discriminate.
Defined.
