(* ===== verification/Symtab.v ===== *)
(** * Symbol tables ([lib/isc/symtab.c])

    A hash table of chains with a most-recent-first discipline, used for the
    configuration parser's symbols, the zones' master-file keywords and the
    view's keys.  A chain is the list of its elements, the table the list of its
    chains.  A key is the list of the bytes of its C string, without the
    terminating NUL; [isc_symvalue_t] is an integer.  Memory allocation is an
    argument of the operations that allocate.  The calls made to the
    [undefine_action] are recorded in a log, in order.

    The abstract table is one list of definitions, the most recent first; the
    refinement theorem says that no sequence of operations can tell the hash
    table, with its growth and its rehashing, from that list. *)

From S2P Require Import Prelude.

(** ** The data *)

Record elt_t : Type := mkElt { key : list Z; type : Z; value : Z }.

Record isc_symtab : Type := mkSymtab {
  size : Z;
  count : Z;
  maxload : Z;
  table : list (list elt_t);
  has_action : bool;
  case_sensitive : bool
}.

Inductive isc_symexists_t : Type :=
| isc_symexists_reject
| isc_symexists_replace
| isc_symexists_add.

(** ** The C library's part *)

(** [tolower] in the C locale. *)
Definition tolower (c : Z) : Z := if (65 <=? c) && (c <=? 90) then c + 32 else c.

(** A [char] of the platform, as an [int]. *)
Definition char_int (c : Z) : Z := if c <? 128 then c else c - 256.

(** [strcmp(a, b) == 0] and [strcasecmp(a, b) == 0]. *)
Definition strcmp_eq (a b : list Z) : bool := bool_decide (a = b).
Definition strcasecmp_eq (a b : list Z) : bool :=
  bool_decide ((tolower <$> a) = (tolower <$> b)).

(** ** The operations *)

(** [h += (h << 3) + c]. *)
Definition hash_add (h c : Z) : Z := u32 (h + u32 (u32 (Z.shiftl h 3) + c)).

Definition hash (k : list Z) (cs : bool) : Z :=
  if cs then foldl (fun h s => hash_add h (char_int s)) 0 k
  else foldl (fun h s => hash_add h (tolower s)) 0 k.

(** The test in the loops of [FIND]. *)
Definition matches (cs : bool) (k : list Z) (t : Z) (e : elt_t) : bool :=
  ((t =? 0) || (type e =? t))
  && (if cs then strcmp_eq (key e) k else strcasecmp_eq (key e) k).

(** A chain searched from its head: the place of the element, and the element. *)
Fixpoint find_elt (f : elt_t -> bool) (l : list elt_t) : option (nat * elt_t) :=
  match l with
  | [] => None
  | e :: l =>
      if f e then Some (0%nat, e)
      else match find_elt f l with Some (n, x) => Some (S n, x) | None => None end
  end.

(** [FIND(s, k, t, b, e)]: the bucket, and the element or NULL. *)
Definition FIND (st : isc_symtab) (k : list Z) (t : Z) : outcome (Z * option (nat * elt_t)) :=
  let b := hash k (case_sensitive st) mod size st in
  let* chain := rd (table st) b in
  Done (b, find_elt (matches (case_sensitive st) k t) chain).

Definition set_table (st : isc_symtab) (t : list (list elt_t)) : isc_symtab :=
  mkSymtab (size st) (count st) (maxload st) t (has_action st) (case_sensitive st).
Definition set_count (st : isc_symtab) (n : Z) : isc_symtab :=
  mkSymtab (size st) n (maxload st) (table st) (has_action st) (case_sensitive st).

(** [isc_symtab_create]; [mem] says whether the two allocations succeed. *)
Definition isc_symtab_create (mem : bool) (sz : Z) (action cs : bool) :
    outcome (isc_result_t * option isc_symtab) :=
  REQUIRE 0 <? sz ;;
  if negb mem then Done (ISC_R_NOMEMORY, None)
  else Done (ISC_R_SUCCESS,
             Some (mkSymtab sz 0 (u32 (sz * 3) / 4) (replicate (Z.to_nat sz) []) action cs)).

(** [isc_symtab_destroy]: the elements the action is called on. *)
Definition isc_symtab_destroy (st : isc_symtab) : list elt_t :=
  if has_action st then concat (table st) else [].

Definition isc_symtab_lookup (st : isc_symtab) (k : list Z) (t : Z) :
    outcome (isc_result_t * option Z) :=
  let* (_, r) := FIND st k t in
  match r with
  | None => Done (ISC_R_NOTFOUND, None)
  | Some (_, e) => Done (ISC_R_SUCCESS, Some (value e))
  end.

(** The body of the inner loop of [grow_table]: [APPEND(newtable[hv % newsize], elt, link)]. *)
Definition rehash (cs : bool) (newsize : Z) (newtable : list (list elt_t)) (e : elt_t) :
    list (list elt_t) :=
  alter (fun l => l ++ [e]) (Z.to_nat (hash (key e) cs mod newsize)) newtable.

Definition grow_table (mem : bool) (st : isc_symtab) : outcome isc_symtab :=
  let newsize := u32 (size st * 2) in
  let newmax := u32 (newsize * 3) / 4 in
  REQUIRE (0 <? newsize) && (0 <? newmax) ;;
  if negb mem then Done st
  else
    let newtable := replicate (Z.to_nat newsize) [] in
    let newtable :=
      foldl (fun nt chain => foldl (rehash (case_sensitive st) newsize) nt chain)
        newtable (table st) in
    Done (mkSymtab newsize (count st) newmax newtable (has_action st) (case_sensitive st)).

(** The end of [isc_symtab_define]: the element is filled in and prepended to its
    chain, and the table grows when it is too full. *)
Definition define_tail (grow_mem : bool) (st : isc_symtab) (bucket : Z) (chain : list elt_t)
    (k : list Z) (t v : Z) : outcome (isc_result_t * isc_symtab) :=
  let* tb := wr (table st) bucket (mkElt k t v :: chain) in
  let st := set_table st tb in
  let* st := (if maxload st <? count st then grow_table grow_mem st else Done st) in
  Done (ISC_R_SUCCESS, st).

Definition isc_symtab_define (mem grow_mem : bool) (st : isc_symtab) (k : list Z) (t v : Z)
    (policy : isc_symexists_t) : outcome (isc_result_t * isc_symtab * list elt_t) :=
  REQUIRE negb (t =? 0) ;;
  let* (bucket, r) := FIND st k t in
  let* chain := rd (table st) bucket in
  match policy, r with
  | isc_symexists_reject, Some _ => Done (ISC_R_EXISTS, st, [])
  | isc_symexists_replace, Some (n, e) =>
      let* (r, st) := define_tail grow_mem st bucket (delete n chain) k t v in
      Done (r, st, if has_action st then [e] else [])
  | _, _ =>
      if negb mem then Done (ISC_R_NOMEMORY, st, [])
      else
        let* (r, st) := define_tail grow_mem (set_count st (u32 (count st + 1))) bucket chain k t v in
        Done (r, st, [])
  end.

Definition isc_symtab_undefine (st : isc_symtab) (k : list Z) (t : Z) :
    outcome (isc_result_t * isc_symtab * list elt_t) :=
  let* (bucket, r) := FIND st k t in
  match r with
  | None => Done (ISC_R_NOTFOUND, st, [])
  | Some (n, e) =>
      let* chain := rd (table st) bucket in
      let* tb := wr (table st) bucket (delete n chain) in
      Done (ISC_R_SUCCESS, set_count (set_table st tb) (u32 (count st - 1)),
            if has_action st then [e] else [])
  end.

(** ** The abstract table: the definitions in force, the most recent first *)

Fixpoint remove_first (f : elt_t -> bool) (l : list elt_t) : list elt_t :=
  match l with
  | [] => []
  | e :: l => if f e then l else e :: remove_first f l
  end.

Definition first (f : elt_t -> bool) (l : list elt_t) : option elt_t := head (List.filter f l).

Definition spec_lookup (cs : bool) (l : list elt_t) (k : list Z) (t : Z) :
    isc_result_t * option Z :=
  match first (matches cs k t) l with
  | None => (ISC_R_NOTFOUND, None)
  | Some e => (ISC_R_SUCCESS, Some (value e))
  end.

Definition spec_define (cs action mem : bool) (l : list elt_t) (k : list Z) (t v : Z)
    (policy : isc_symexists_t) : isc_result_t * list elt_t * list elt_t :=
  match policy, first (matches cs k t) l with
  | isc_symexists_reject, Some _ => (ISC_R_EXISTS, l, [])
  | isc_symexists_replace, Some e =>
      (ISC_R_SUCCESS, mkElt k t v :: remove_first (matches cs k t) l, if action then [e] else [])
  | _, _ => if negb mem then (ISC_R_NOMEMORY, l, []) else (ISC_R_SUCCESS, mkElt k t v :: l, [])
  end.

Definition spec_undefine (cs action : bool) (l : list elt_t) (k : list Z) (t : Z) :
    isc_result_t * list elt_t * list elt_t :=
  match first (matches cs k t) l with
  | None => (ISC_R_NOTFOUND, l, [])
  | Some e => (ISC_R_SUCCESS, remove_first (matches cs k t) l, if action then [e] else [])
  end.

(** ** Sequences of operations *)

Inductive op : Type :=
| Lookup (k : list Z) (t : Z)
| Define (mem grow_mem : bool) (k : list Z) (t v : Z) (policy : isc_symexists_t)
| Undefine (k : list Z) (t : Z).

(** What the caller sees of an operation: the result code, the value looked up,
    the calls of the undefine action. *)
Definition observation : Type := isc_result_t * option Z * list elt_t.

Definition apply_op (st : isc_symtab) (o : op) : outcome (isc_symtab * observation) :=
  match o with
  | Lookup k t => let* (r, v) := isc_symtab_lookup st k t in Done (st, (r, v, []))
  | Define mem gm k t v policy =>
      let* (r, st, log) := isc_symtab_define mem gm st k t v policy in Done (st, (r, None, log))
  | Undefine k t =>
      let* (r, st, log) := isc_symtab_undefine st k t in Done (st, (r, None, log))
  end.

Definition spec_op (cs action : bool) (l : list elt_t) (o : op) : list elt_t * observation :=
  match o with
  | Lookup k t => let '(r, v) := spec_lookup cs l k t in (l, (r, v, []))
  | Define mem _ k t v policy =>
      let '(r, l, log) := spec_define cs action mem l k t v policy in (l, (r, None, log))
  | Undefine k t => let '(r, l, log) := spec_undefine cs action l k t in (l, (r, None, log))
  end.

Fixpoint run (st : isc_symtab) (os : list op) : outcome (isc_symtab * list observation) :=
  match os with
  | [] => Done (st, [])
  | o :: os =>
      let* (st, x) := apply_op st o in
      let* (st, xs) := run st os in
      Done (st, x :: xs)
  end.

Fixpoint spec_run (cs action : bool) (l : list elt_t) (os : list op) :
    list elt_t * list observation :=
  match os with
  | [] => (l, [])
  | o :: os =>
      let '(l, x) := spec_op cs action l o in
      let '(l, xs) := spec_run cs action l os in
      (l, x :: xs)
  end.

(** ** Keys and hashes *)

Definition keyeq (cs : bool) (a b : list Z) : bool :=
  if cs then strcmp_eq a b else strcasecmp_eq a b.

Lemma matches_keyeq cs k t e : matches cs k t e = true -> keyeq cs (key e) k = true.
Proof. unfold matches, keyeq. by intros [_ ?]%andb_true_iff. Qed.

Lemma keyeq_hash cs a b : keyeq cs a b = true -> hash a cs = hash b cs.
Proof.
  assert (E : forall k, hash k false = foldl hash_add 0 (tolower <$> k)).
  { intros k. unfold hash. generalize 0 as h. induction k as [|c k IH]; intros h; [done|].
    rewrite fmap_cons. cbn. apply IH. }
  unfold keyeq, strcmp_eq, strcasecmp_eq. destruct cs; intros H%bool_decide_eq_true.
  - by subst.
  - by rewrite !E, H.
Qed.

Lemma keyeq_trans cs a b c : keyeq cs b c = true -> keyeq cs a b = keyeq cs a c.
Proof.
  unfold keyeq, strcmp_eq, strcasecmp_eq. destruct cs; intros H%bool_decide_eq_true.
  - by subst.
  - by rewrite H.
Qed.

Lemma keyeq_disjoint cs a b c :
  keyeq cs b c = false -> keyeq cs a c = true -> keyeq cs a b = false.
Proof.
  unfold keyeq, strcmp_eq, strcasecmp_eq.
  destruct cs; intros H%bool_decide_eq_false H2%bool_decide_eq_true;
    apply bool_decide_eq_false; congruence.
Qed.

Definition samekey (cs : bool) (k : list Z) (e : elt_t) : bool := keyeq cs (key e) k.

(** ** Lists of definitions *)

Lemma filter_none {A} (f : A -> bool) l : (forall x, x ∈ l -> f x = false) -> List.filter f l = [].
Proof.
  induction l as [|x l IH]; [done|]; intros H; cbn. rewrite (H x) by (by left).
  apply IH. intros y Hy. apply H. by right.
Qed.

Lemma filter_sub {A} (f g : A -> bool) l :
  (forall x, f x = true -> g x = true) -> List.filter f (List.filter g l) = List.filter f l.
Proof.
  intros H. induction l as [|x l IH]; [done|]. cbn. destruct (g x) eqn:Hg; cbn.
  - destruct (f x); by rewrite IH.
  - destruct (f x) eqn:Hf; [|done]. rewrite H in Hg; done.
Qed.

Lemma find_elt_spec f l :
  match find_elt f l with
  | None => first f l = None /\ remove_first f l = l
  | Some (n, e) => first f l = Some e /\ delete n l = remove_first f l /\ f e = true
  end.
Proof.
  unfold first. induction l as [|x l IH]; [done|]. cbn. destruct (f x) eqn:Hf; [done|].
  destruct (find_elt f l) as [[n e]|].
  - destruct IH as (H1 & H2 & H3). cbn. by rewrite H1, <- H2.
  - destruct IH as [H1 H2]. by rewrite H1, H2.
Qed.

Lemma first_remove f l e : first f l = Some e -> l ≡ₚ e :: remove_first f l.
Proof.
  unfold first. induction l as [|x l IH]; [done|]. cbn. destruct (f x); cbn; intros H.
  - by simplify_eq.
  - rewrite (IH H) at 1. apply Permutation_swap.
Qed.

Lemma first_none f l : first f l = None -> remove_first f l = l.
Proof.
  unfold first. induction l as [|x l IH]; [done|]. cbn. destruct (f x); [done|]. intros H.
  by rewrite IH.
Qed.

Lemma filter_remove_sub f g l :
  (forall x, f x = true -> g x = true) ->
  List.filter g (remove_first f l) = remove_first f (List.filter g l).
Proof.
  intros H. induction l as [|x l IH]; [done|]. cbn. destruct (f x) eqn:Hf.
  - rewrite (H x Hf). cbn. by rewrite Hf.
  - cbn. destruct (g x); cbn; [rewrite Hf|]; by rewrite IH.
Qed.

Lemma filter_remove_disjoint f g l :
  (forall x, f x = true -> g x = false) ->
  List.filter g (remove_first f l) = List.filter g l.
Proof.
  intros H. induction l as [|x l IH]; [done|]. cbn. destruct (f x) eqn:Hf.
  - by rewrite (H x Hf).
  - cbn. by rewrite IH.
Qed.

Lemma remove_first_in f l x : x ∈ remove_first f l -> x ∈ l.
Proof.
  induction l as [|y l IH]; [done|]. cbn. destruct (f y); rewrite ?elem_of_cons; [by right|].
  intros [->|H]; [by left|right; auto].
Qed.

(** ** Tables and abstract tables *)

(** Each element is in the chain of its hash, and for each key the chains hold
    the same definitions as the abstract table, in the same order. *)
Record holds (cs : bool) (sz : Z) (tb : list (list elt_t)) (l : list elt_t) : Prop := {
  h_len : Zlen tb = sz;
  h_pos : 0 < sz;
  h_placed : forall b chain e,
    tb !! b = Some chain -> e ∈ chain -> hash (key e) cs mod sz = Z.of_nat b;
  h_keys : forall k, List.filter (samekey cs k) (concat tb) = List.filter (samekey cs k) l;
  h_perm : concat tb ≡ₚ l
}.

Lemma concat_at (tb : list (list elt_t)) b chain :
  tb !! b = Some chain ->
  concat tb = concat (take b tb) ++ chain ++ concat (drop (S b) tb)
  /\ forall c', concat (<[b := c']> tb) = concat (take b tb) ++ c' ++ concat (drop (S b) tb).
Proof.
  intros H. split.
  - rewrite <- (take_drop_middle tb b chain H) at 1. by rewrite concat_app.
  - intros c'. rewrite insert_take_drop by (by eapply lookup_lt_Some). by rewrite concat_app.
Qed.

(** Outside its chain a key has no definitions. *)
Lemma elsewhere cs sz tb k b :
  (forall b chain e, tb !! b = Some chain -> e ∈ chain -> hash (key e) cs mod sz = Z.of_nat b) ->
  hash k cs mod sz = Z.of_nat b ->
  List.filter (samekey cs k) (concat (take b tb)) = []
  /\ List.filter (samekey cs k) (concat (drop (S b) tb)) = [].
Proof.
  intros Hp Hk.
  assert (Hout : forall b' chain e, b' <> b -> tb !! b' = Some chain -> e ∈ chain ->
                                    samekey cs k e = false).
  { intros b' chain e Hb Hc He. destruct (samekey cs k e) eqn:Hs; [|done].
    apply keyeq_hash in Hs. pose proof (Hp b' chain e Hc He) as H. rewrite Hs, Hk in H. lia. }
  split; apply filter_none; intros e He; apply list_elem_of_In, in_concat in He;
    destruct He as (chain & Hc & He); apply list_elem_of_In in Hc, He;
    apply list_elem_of_lookup_1 in Hc; destruct Hc as (j & Hj).
  - apply lookup_take_Some in Hj as [Hj Hlt]. apply (Hout j chain e); [lia|done..].
  - rewrite lookup_drop in Hj. apply (Hout (S b + j)%nat chain e); [lia|done..].
Qed.

Lemma holds_chain cs sz tb l k :
  holds cs sz tb l ->
  exists chain, rd tb (hash k cs mod sz) = Done chain
    /\ tb !! Z.to_nat (hash k cs mod sz) = Some chain
    /\ List.filter (samekey cs k) chain = List.filter (samekey cs k) l.
Proof.
  intros H. pose proof (h_pos _ _ _ _ H) as Hpos.
  pose proof (Z.mod_pos_bound (hash k cs) sz Hpos) as Hb.
  destruct (rd_ok tb (hash k cs mod sz)) as [chain Hr]; [rewrite (h_len _ _ _ _ H); lia|].
  exists chain. pose proof (proj1 (rd_Done _ _ _) Hr) as [_ Hl].
  split_and!; [done|done|]. rewrite <- (h_keys _ _ _ _ H).
  destruct (concat_at tb _ _ Hl) as [-> _]. rewrite !List.filter_app.
  destruct (elsewhere cs sz tb k (Z.to_nat (hash k cs mod sz)) (h_placed _ _ _ _ H)) as [-> ->];
    [lia|]. by rewrite app_nil_r.
Qed.

(** ** What each update does to the two tables *)

Lemma holds_cons cs sz tb l e chain :
  holds cs sz tb l -> tb !! Z.to_nat (hash (key e) cs mod sz) = Some chain ->
  holds cs sz (<[Z.to_nat (hash (key e) cs mod sz) := e :: chain]> tb) (e :: l).
Proof.
  intros H Hc. set (b := Z.to_nat (hash (key e) cs mod sz)) in *.
  pose proof (Z.mod_pos_bound (hash (key e) cs) sz (h_pos _ _ _ _ H)) as Hb.
  destruct (concat_at tb b chain Hc) as [Ec Ec'].
  split; [| apply H | | |].
  - unfold Zlen. rewrite length_insert. apply H.
  - intros b' chain' x Hb' Hx. apply list_lookup_insert_Some in Hb'.
    destruct Hb' as [(<- & <- & _)|[Hne Hb']]; [|by apply (h_placed _ _ _ _ H b' chain')].
    apply elem_of_cons in Hx. destruct Hx as [->|Hx]; [lia|].
    by apply (h_placed _ _ _ _ H b chain).
  - intros k. rewrite Ec'. pose proof (h_keys _ _ _ _ H k) as Hk. rewrite Ec in Hk.
    rewrite !List.filter_app in *. cbn. destruct (samekey cs k e) eqn:Hs; [|done].
    destruct (elsewhere cs sz tb k b (h_placed _ _ _ _ H)) as [E1 _].
    { apply keyeq_hash in Hs. rewrite <- Hs. lia. }
    rewrite E1 in *. cbn in *. by rewrite Hk.
  - rewrite Ec'. rewrite <- (h_perm _ _ _ _ H), Ec. cbn. symmetry. apply Permutation_middle.
Qed.

Lemma holds_remove cs sz tb l k f chain :
  holds cs sz tb l -> (forall e, f e = true -> samekey cs k e = true) ->
  tb !! Z.to_nat (hash k cs mod sz) = Some chain ->
  holds cs sz (<[Z.to_nat (hash k cs mod sz) := remove_first f chain]> tb) (remove_first f l).
Proof.
  intros H Hf Hc. set (b := Z.to_nat (hash k cs mod sz)) in *.
  pose proof (Z.mod_pos_bound (hash k cs) sz (h_pos _ _ _ _ H)) as Hb.
  destruct (concat_at tb b chain Hc) as [Ec Ec'].
  assert (Hel : List.filter (samekey cs k) (concat (take b tb)) = []
                /\ List.filter (samekey cs k) (concat (drop (S b) tb)) = []).
  { apply (elsewhere cs sz tb k b (h_placed _ _ _ _ H)). lia. }
  destruct Hel as [Hpre Hpost].
  assert (Hchain : List.filter (samekey cs k) chain = List.filter (samekey cs k) l).
  { rewrite <- (h_keys _ _ _ _ H), Ec, !List.filter_app, Hpre, Hpost. by rewrite app_nil_r. }
  split; [| apply H | | |].
  - unfold Zlen. rewrite length_insert. apply H.
  - intros b' chain' x Hb' Hx. apply list_lookup_insert_Some in Hb'.
    destruct Hb' as [(<- & <- & _)|[Hne Hb']]; [|by apply (h_placed _ _ _ _ H b' chain')].
    apply remove_first_in in Hx. by apply (h_placed _ _ _ _ H b chain).
  - intros k'. rewrite Ec', !List.filter_app.
    pose proof (h_keys _ _ _ _ H k') as Hk. rewrite Ec, !List.filter_app in Hk.
    destruct (keyeq cs k' k) eqn:Hkk.
    + assert (Hext : forall m, List.filter (samekey cs k') m = List.filter (samekey cs k) m).
      { intros m. apply List.filter_ext. intros e. unfold samekey. by apply keyeq_trans. }
      rewrite !Hext, Hpre, Hpost, !(filter_remove_sub f (samekey cs k)), Hchain by done.
      by rewrite app_nil_r.
    + rewrite !(filter_remove_disjoint f (samekey cs k')); [done|..];
        intros e He; apply (keyeq_disjoint cs (key e) k' k Hkk); by apply Hf.
  - rewrite Ec'. assert (Hfirst : first f chain = first f l).
    { unfold first. rewrite <- (filter_sub f (samekey cs k) chain), <- (filter_sub f (samekey cs k) l)
        by done. by rewrite Hchain. }
    pose proof (h_perm _ _ _ _ H) as Hperm. rewrite Ec in Hperm.
    destruct (first f l) as [e|] eqn:Hl.
    + rewrite (first_remove f l e Hl), (first_remove f chain e Hfirst) in Hperm.
      cbn in Hperm. rewrite <- Permutation_middle in Hperm.
      by apply Permutation_cons_inv in Hperm.
    + by rewrite !first_none.
Qed.

(** *** Growth *)

Definition in_bucket (cs : bool) (sz : Z) (b : nat) (e : elt_t) : bool :=
  hash (key e) cs mod sz =? Z.of_nat b.

Lemma rehash_lookup cs sz es nt b c :
  0 < sz -> nt !! b = Some c ->
  foldl (rehash cs sz) nt es !! b = Some (c ++ List.filter (in_bucket cs sz b) es).
Proof.
  intros Hsz. revert nt c. induction es as [|e es IH]; intros nt c Hb; cbn.
  { by rewrite app_nil_r. }
  pose proof (Z.mod_pos_bound (hash (key e) cs) sz Hsz).
  unfold in_bucket at 1. unfold rehash at 2.
  destruct (hash (key e) cs mod sz =? Z.of_nat b) eqn:He; bool_prop.
  - rewrite He, Nat2Z.id. rewrite (IH _ (c ++ [e])); [by rewrite <- app_assoc|].
    by rewrite list_lookup_alter_eq, Hb.
  - apply IH. rewrite list_lookup_alter_ne by lia. done.
Qed.

Lemma rehash_length cs sz es nt : length (foldl (rehash cs sz) nt es) = length nt.
Proof.
  revert nt. induction es as [|e es IH]; intros nt; [done|]. cbn. rewrite IH.
  unfold rehash. apply length_alter.
Qed.

Lemma rehash_perm cs sz es nt :
  0 < sz -> Zlen nt = sz -> concat (foldl (rehash cs sz) nt es) ≡ₚ concat nt ++ es.
Proof.
  intros Hsz. revert nt. induction es as [|e es IH]; intros nt Hl; cbn.
  { by rewrite app_nil_r. }
  pose proof (Z.mod_pos_bound (hash (key e) cs) sz Hsz).
  destruct (rd_ok nt (hash (key e) cs mod sz)) as [c Hc]; [lia|]. apply rd_Done in Hc as [_ Hc].
  rewrite IH by (unfold rehash, Zlen; by rewrite length_alter).
  assert (rehash cs sz nt e = <[Z.to_nat (hash (key e) cs mod sz) := c ++ [e]]> nt) as ->.
  { unfold rehash. apply list_eq. intros j.
    destruct (decide (j = Z.to_nat (hash (key e) cs mod sz))) as [->|Hj].
    - rewrite list_lookup_alter_eq, Hc, list_lookup_insert_eq; [done|by eapply lookup_lt_Some].
    - by rewrite list_lookup_alter_ne, list_lookup_insert_ne. }
  destruct (concat_at nt _ c Hc) as [-> ->]. rewrite <- !app_assoc. cbn.
  by rewrite <- !Permutation_middle.
Qed.

Lemma foldl_concat cs sz tb nt :
  foldl (fun nt chain => foldl (rehash cs sz) nt chain) nt tb = foldl (rehash cs sz) nt (concat tb).
Proof.
  revert nt. induction tb as [|c tb IH]; intros nt; [done|]. cbn. by rewrite foldl_app, IH.
Qed.

Lemma concat_replicate_nil {A} n : concat (replicate n (@nil A)) = [].
Proof. by induction n. Qed.

Lemma holds_grow cs sz sz' tb l :
  holds cs sz tb l -> 0 < sz' ->
  holds cs sz' (foldl (fun nt chain => foldl (rehash cs sz') nt chain)
                  (replicate (Z.to_nat sz') []) tb) l.
Proof.
  intros H Hsz. rewrite foldl_concat.
  set (nt := replicate (Z.to_nat sz') []).
  assert (Hlen : Zlen nt = sz') by (unfold Zlen, nt; rewrite length_replicate; lia).
  set (tb' := foldl (rehash cs sz') nt (concat tb)).
  assert (Hplaced : forall b chain e, tb' !! b = Some chain -> e ∈ chain ->
                      hash (key e) cs mod sz' = Z.of_nat b).
  { intros b chain e Hb He.
    assert (Hn : nt !! b = Some []).
    { apply lookup_replicate. split; [done|]. apply lookup_lt_Some in Hb.
      unfold tb', nt in Hb. by rewrite rehash_length, length_replicate in Hb. }
    unfold tb' in Hb. rewrite (rehash_lookup cs sz' _ nt b [] Hsz Hn) in Hb. simplify_eq.
    apply list_elem_of_In, List.filter_In in He as [_ He]. unfold in_bucket in He. lia. }
  split; [| done | exact Hplaced | |].
  - unfold tb', Zlen. by rewrite rehash_length.
  - intros k. pose proof (Z.mod_pos_bound (hash k cs) sz' Hsz) as Hb.
    set (b := Z.to_nat (hash k cs mod sz')).
    assert (Hn : nt !! b = Some []) by (apply lookup_replicate; unfold b; split; [done|lia]).
    pose proof (rehash_lookup cs sz' (concat tb) nt b [] Hsz Hn) as Hl. fold tb' in Hl.
    destruct (concat_at tb' b _ Hl) as [-> _]. rewrite !List.filter_app.
    destruct (elsewhere cs sz' tb' k b Hplaced) as [-> ->]; [unfold b; lia|]. cbn.
    rewrite app_nil_r, filter_sub; [apply H|].
    intros e He. apply keyeq_hash in He. unfold in_bucket, b. rewrite He. lia.
  - unfold tb'. rewrite (rehash_perm cs sz' (concat tb) nt Hsz Hlen).
    unfold nt. rewrite concat_replicate_nil. apply H.
Qed.

Lemma holds_create cs sz : 0 < sz -> holds cs sz (replicate (Z.to_nat sz) []) [].
Proof.
  intros Hsz. split; rewrite ?concat_replicate_nil; try done.
  - unfold Zlen. rewrite length_replicate. lia.
  - intros b chain e Hb He. apply lookup_replicate in Hb as [-> _]. by apply elem_of_nil in He.
Qed.

(** ** The simulation *)

Record refines (cs action : bool) (st : isc_symtab) (l : list elt_t) : Prop := {
  f_holds : holds cs (size st) (table st) l;
  f_cs : case_sensitive st = cs;
  f_action : has_action st = action;
  f_size : 3 * size st < 2 ^ 32;
  f_maxload : maxload st = 3 * size st / 4;
  f_count : count st = Zlen l
}.

Lemma FIND_refines cs action st l k t :
  refines cs action st l ->
  exists chain r, FIND st k t = Done (hash k cs mod size st, r)
    /\ rd (table st) (hash k cs mod size st) = Done chain
    /\ table st !! Z.to_nat (hash k cs mod size st) = Some chain
    /\ match r with
       | None => first (matches cs k t) l = None
       | Some (n, e) => first (matches cs k t) l = Some e
                        /\ delete n chain = remove_first (matches cs k t) chain
       end.
Proof.
  intros F. destruct (holds_chain _ _ _ _ k (f_holds _ _ _ _ F)) as (chain & Hr & Hl & Hk).
  exists chain, (find_elt (matches cs k t) chain). unfold FIND. rewrite (f_cs _ _ _ _ F), Hr.
  split_and!; [done..|].
  assert (Hfirst : first (matches cs k t) chain = first (matches cs k t) l).
  { unfold first. rewrite <- (filter_sub (matches cs k t) (samekey cs k) chain),
      <- (filter_sub (matches cs k t) (samekey cs k) l), Hk; [done|apply matches_keyeq..]. }
  pose proof (find_elt_spec (matches cs k t) chain) as Hs.
  destruct (find_elt (matches cs k t) chain) as [[n e]|]; rewrite <- Hfirst; [|by destruct Hs].
  by destruct Hs as (? & ? & _).
Qed.

Lemma wr_lookup {A} (l : list A) i x c :
  0 <= i -> l !! Z.to_nat i = Some c -> wr l i x = Done (<[Z.to_nat i := x]> l).
Proof.
  intros Hi Hl. apply lookup_lt_Some in Hl. apply wr_ok. unfold Zlen. lia.
Qed.

(** The end of [isc_symtab_define]: growth leaves the abstract table alone. *)
Lemma grow_refines cs action mem st l :
  refines cs action st l -> Zlen l < 2 ^ 29 ->
  exists st', (if maxload st <? count st then grow_table mem st else Done st) = Done st'
    /\ refines cs action st' l.
Proof.
  intros F Hl. pose proof F as [Hh Hcs Ha Hs Hm Hc]. pose proof (h_pos _ _ _ _ Hh).
  destruct (maxload st <? count st) eqn:E; bool_prop; [|by exists st].
  unfold grow_table. rewrite (u32_small (size st * 2)) by lia.
  assert (3 * (size st * 2) < 2 ^ 32) by (Z.to_euclidean_division_equations; lia).
  rewrite (u32_small (size st * 2 * 3)) by lia.
  rewrite require_true by (Z.to_euclidean_division_equations; lia). cbn [obind].
  destruct mem; cbn [negb]; [|by exists st]. eexists. split; [done|].
  split; cbn -[Z.pow]; try done; [|f_equal; lia].
  rewrite Hcs. apply holds_grow with (size st); [done|lia].
Qed.

Lemma first_length f l e : first f l = Some e -> Zlen l = 1 + Zlen (remove_first f l).
Proof.
  intros H. apply first_remove, Permutation_length in H. unfold Zlen. rewrite H. cbn. lia.
Qed.

(** The new definition goes in front of the chain [chain'] that [table st] is to
    hold, for the abstract table [l]. *)
Lemma tail_refines cs action gm st l k t v chain chain' :
  holds cs (size st) (<[Z.to_nat (hash k cs mod size st) := chain']> (table st)) l ->
  case_sensitive st = cs -> has_action st = action ->
  3 * size st < 2 ^ 32 -> maxload st = 3 * size st / 4 ->
  count st = Zlen l + 1 -> Zlen l + 1 < 2 ^ 29 ->
  table st !! Z.to_nat (hash k cs mod size st) = Some chain ->
  exists st', define_tail gm st (hash k cs mod size st) chain' k t v = Done (ISC_R_SUCCESS, st')
    /\ refines cs action st' (mkElt k t v :: l).
Proof.
  intros Hh Hcs Ha Hs Hm Hc Hl Hch. unfold define_tail.
  pose proof (Z.mod_pos_bound (hash k cs) (size st) (h_pos _ _ _ _ Hh)) as Hb.
  rewrite (wr_lookup _ _ _ chain) by (done || lia). cbn [obind].
  set (b := Z.to_nat (hash k cs mod size st)) in *. set (e0 := mkElt k t v).
  assert (Hlook : <[b := chain']> (table st) !! b = Some chain').
  { apply list_lookup_insert_eq. by eapply lookup_lt_Some. }
  pose proof (holds_cons cs (size st) _ l e0 chain' Hh Hlook) as H2. cbn in H2. fold b in H2.
  rewrite list_insert_insert_eq in H2.
  set (st1 := set_table _ _). destruct (grow_refines cs action gm st1 (e0 :: l)) as (st' & E & F').
  - split; try done. cbn. rewrite Zlen_cons. lia.
  - rewrite Zlen_cons. lia.
  - exists st'. unfold st1 in *. by rewrite E.
Qed.

Lemma define_refines cs action mem gm st l k t v policy :
  refines cs action st l -> Zlen l + 1 < 2 ^ 29 -> t <> 0 ->
  let '(r, l', log) := spec_define cs action mem l k t v policy in
  exists st', isc_symtab_define mem gm st k t v policy = Done (r, st', log)
    /\ refines cs action st' l'.
Proof.
  intros F Hl Ht. unfold isc_symtab_define, spec_define.
  rewrite require_true by lia. cbn [obind].
  destruct (FIND_refines cs action st l k t F) as (chain & r & -> & Hrd & Hch & Hr).
  cbn [obind]. rewrite Hrd. cbn [obind].
  pose proof F as [Hh Hcs Ha Hs Hm Hc].
  destruct (tail_refines cs action gm (set_count st (u32 (count st + 1))) l k t v chain chain)
    as (sa & Ea & Fa); try done.
  { cbn. by rewrite list_insert_id. }
  { cbn. rewrite Hc, u32_small; [done|]. pose proof (Zlen_nonneg l). lia. }
  cbn in Ea. rewrite Ea. clear Ea. cbn [obind].
  destruct r as [[n e]|].
  - destruct Hr as [Hfirst Hdel]. rewrite Hfirst, Hdel.
    pose proof (first_length _ _ _ Hfirst) as Hlen.
    destruct (tail_refines cs action gm st (remove_first (matches cs k t) l) k t v chain
                (remove_first (matches cs k t) chain)) as (sr & Er & Fr); try done; [|lia..|].
    { apply holds_remove; try done. apply matches_keyeq. }
    rewrite Er. cbn [obind].
    destruct policy, mem; cbn [negb]; eauto; rewrite (f_action _ _ _ _ Fr); eauto.
  - rewrite Hr. destruct policy, mem; cbn [negb]; eauto.
Qed.

Lemma undefine_refines cs action st l k t :
  refines cs action st l -> Zlen l < 2 ^ 29 ->
  let '(r, l', log) := spec_undefine cs action l k t in
  exists st', isc_symtab_undefine st k t = Done (r, st', log) /\ refines cs action st' l'.
Proof.
  intros F Hl. unfold isc_symtab_undefine, spec_undefine.
  destruct (FIND_refines cs action st l k t F) as (chain & r & -> & Hrd & Hch & Hr).
  cbn [obind]. pose proof F as [Hh Hcs Ha Hs Hm Hc].
  pose proof (Z.mod_pos_bound (hash k cs) (size st) (h_pos _ _ _ _ Hh)) as Hb.
  destruct r as [[n e]|]; [|rewrite Hr; by exists st].
  destruct Hr as [Hfirst Hdel]. rewrite Hfirst, Hrd. cbn [obind].
  rewrite Hdel, (wr_lookup _ _ _ chain) by (done || lia). cbn [obind]. rewrite Ha.
  eexists. split; [done|].
  split; cbn; try done.
  - apply holds_remove; try done. apply matches_keyeq.
  - pose proof (first_length _ _ _ Hfirst) as Hlen. rewrite Hc.
    pose proof (Zlen_nonneg (remove_first (matches cs k t) l)). rewrite u32_small by lia. lia.
Qed.

Definition op_ok (o : op) : bool :=
  match o with Define _ _ _ t _ _ => negb (t =? 0) | _ => true end.

Lemma op_refines cs action st l o :
  refines cs action st l -> Zlen l + 1 < 2 ^ 29 -> op_ok o = true ->
  exists st', apply_op st o = Done (st', snd (spec_op cs action l o))
    /\ refines cs action st' (fst (spec_op cs action l o))
    /\ Zlen (fst (spec_op cs action l o)) <= Zlen l + 1.
Proof.
  intros F Hl Ho. destruct o as [k t|mem gm k t v policy|k t]; cbn [apply_op spec_op op_ok] in *.
  - unfold isc_symtab_lookup, spec_lookup.
    destruct (FIND_refines cs action st l k t F) as (chain & r & -> & _ & _ & Hr). cbn [obind].
    exists st. destruct r as [[n e]|]; [destruct Hr as [-> _]|rewrite Hr]; cbn; split_and!; done || lia.
  - pose proof (define_refines cs action mem gm st l k t v policy F Hl ltac:(lia)) as H.
    destruct (spec_define cs action mem l k t v policy) as [[r l'] log] eqn:E.
    destruct H as (st' & -> & F'). exists st'. cbn. split_and!; [done..|].
    revert E. unfold spec_define. pose proof (Zlen_nonneg l).
    destruct policy, mem, (first (matches cs k t) l) eqn:Hf; cbn [negb]; intros; simplify_eq;
      rewrite ?Zlen_cons; try lia.
    all: apply first_length in Hf; lia.
  - pose proof (undefine_refines cs action st l k t F ltac:(lia)) as H.
    destruct (spec_undefine cs action l k t) as [[r l'] log] eqn:E.
    destruct H as (st' & -> & F'). exists st'. cbn. split_and!; [done..|].
    revert E. unfold spec_undefine. destruct (first (matches cs k t) l) eqn:Hf; intros; simplify_eq;
      try lia.
    apply first_length in Hf. lia.
Qed.

Lemma run_refines cs action os st l :
  refines cs action st l -> Zlen l + Zlen os < 2 ^ 29 -> forallb op_ok os = true ->
  exists st', run st os = Done (st', snd (spec_run cs action l os))
    /\ refines cs action st' (fst (spec_run cs action l os)).
Proof.
  revert st l. induction os as [|o os IH]; intros st l F Hl Ho; cbn [run spec_run forallb] in *.
  { by exists st. }
  rewrite Zlen_cons in Hl. apply andb_true_iff in Ho as [Ho Hos]. pose proof (Zlen_nonneg os).
  destruct (op_refines cs action st l o F) as (st1 & E1 & F1 & L1); [lia|done|].
  destruct (spec_op cs action l o) as [l1 x]. cbn [fst snd] in *.
  destruct (IH st1 l1 F1) as (st2 & E2 & F2); [lia|done|].
  destruct (spec_run cs action l1 os) as [l2 xs]. cbn [fst snd] in *.
  exists st2. by rewrite E1; cbn [obind]; rewrite E2.
Qed.

(** C25. A symbol table is a list of definitions, the most recent first: for any
    sequence of definitions, lookups and removals, with allocations that may
    fail, the hash table answers as the list does, makes the same calls of the
    undefine action, in the same order, keeps the same number of elements, and
    its destruction hands the action exactly the definitions still in force.
    Growing and rehashing the table is never observable. *)
Theorem symtab_refines_list (cs action : bool) (sz : Z) (os : list op) :
  0 < sz -> 3 * sz < 2 ^ 32 -> Zlen os < 2 ^ 29 -> forallb op_ok os = true ->
  exists st st',
    isc_symtab_create true sz action cs = Done (ISC_R_SUCCESS, Some st)
    /\ run st os = Done (st', snd (spec_run cs action [] os))
    /\ count st' = Zlen (fst (spec_run cs action [] os))
    /\ (action = true -> isc_symtab_destroy st' ≡ₚ fst (spec_run cs action [] os)).
Proof.
  intros Hpos Hsz Hos Hok. unfold isc_symtab_create.
  rewrite require_true by lia. cbn [obind negb]. eexists.
  set (st := mkSymtab _ _ _ _ _ _).
  assert (F : refines cs action st []).
  { split; cbn -[Z.pow]; try done; [by apply holds_create|].
    rewrite u32_small by lia. f_equal. lia. }
  destruct (run_refines cs action os st [] F) as (st' & E & F'); [done..|].
  exists st'. split_and!; [done|done|apply F'|].
  intros ->. unfold isc_symtab_destroy. rewrite (f_action _ _ _ _ F').
  apply (h_perm _ _ _ _ (f_holds _ _ _ _ F')).
Qed.

(** Six definitions in a case-insensitive table of one chain, which grows under
    them; "Key" and "kEY" are the same symbol. *)
Definition sample_ops : list op :=
  [ Define true true [75; 101; 121] 1 10 isc_symexists_reject;
    Define true true [107; 69; 89] 1 11 isc_symexists_reject;
    Define true true [107; 69; 89] 1 12 isc_symexists_replace;
    Define true true [107; 69; 89] 2 13 isc_symexists_add;
    Define true false [97] 1 14 isc_symexists_add;
    Define false true [98] 1 15 isc_symexists_add;
    Lookup [75; 101; 121] 0; Lookup [75; 101; 121] 1; Undefine [75; 69; 89] 2;
    Lookup [107; 101; 121] 0; Lookup [98] 1 ].

Lemma symtab_refines_list_witness :
  snd (spec_run false true [] sample_ops)
  = [ (ISC_R_SUCCESS, None, []); (ISC_R_EXISTS, None, []);
      (ISC_R_SUCCESS, None, [mkElt [75; 101; 121] 1 10]); (ISC_R_SUCCESS, None, []);
      (ISC_R_SUCCESS, None, []); (ISC_R_NOMEMORY, None, []);
      (ISC_R_SUCCESS, Some 13, []); (ISC_R_SUCCESS, Some 12, []);
      (ISC_R_SUCCESS, None, [mkElt [107; 69; 89] 2 13]);
      (ISC_R_SUCCESS, Some 12, []); (ISC_R_NOTFOUND, None, []) ]
  /\ exists st st',
    isc_symtab_create true 1 true false = Done (ISC_R_SUCCESS, Some st)
    /\ run st sample_ops = Done (st', snd (spec_run false true [] sample_ops))
    /\ count st' = Zlen (fst (spec_run false true [] sample_ops))
    /\ (true = true -> isc_symtab_destroy st' ≡ₚ fst (spec_run false true [] sample_ops)).
Proof.
  split; [vm_compute; reflexivity|].
  apply (symtab_refines_list false true 1 sample_ops); [lia|lia|vm_compute; reflexivity|reflexivity].
Defined.
