(* ===== verification/Rbt.v ===== *)
(** * One level of the red-black tree of trees ([lib/dns/rbt.c])

    The names of a zone or of the cache are kept in a tree of red-black trees.
    This file models the balancing on one level: the rotations, insertion below
    a given node ([dns_rbt_addonlevel]) and deletion of a given node
    ([dns_rbt_deletefromlevel]).

    Nodes are records in a store from addresses to nodes, with the source's
    parent, left and right pointers, its colour and its [is_root] bit; 0 is the
    NULL pointer and an access through NULL or outside the store is [Undef].
    The fields that balancing does not touch are carried along: [down], the
    address of the level below, and the [info] of the node: its name, its data
    pointer and its link in the hash table.  The root pointer [*rootp] of the level
    is threaded through the functions. *)

From S2P Require Import Prelude.

Inductive colour : Type := RED | BLACK.

(** The fields that balancing does not read.  [name_data] and [name_offsets] are
    the areas behind the node, of the sizes the name had when the node was made;
    [namelen] and [offsetlen] are the parts in use. *)
Record rbtinfo : Type := mkInfo {
  name_data : list Z;
  name_offsets : list Z;
  namelen : Z;
  offsetlen : Z;
  attrs : Z;                     (* 3 bits *)
  data : Z;
  hashval : Z;
  hashnext : Z;
  find_callback : bool;
  nsec : Z
}.

Record rbtnode : Type := mkNode {
  parent : Z;
  left : Z;
  right : Z;
  color : colour;
  is_root : bool;
  down : Z;
  info : rbtinfo
}.

Abbreviation store := (gmap Z rbtnode).

#[export] Instance colour_eq_dec : EqDecision colour.
Proof. solve_decision. Defined.

(** ** Access to the fields of a node *)

Definition node_at (h : store) (p : Z) : outcome rbtnode :=
  match h !! p with Some n => Done n | None => Undef end.

Definition PARENT (h : store) (p : Z) : outcome Z := let* n := node_at h p in Done (parent n).
Definition LEFT (h : store) (p : Z) : outcome Z := let* n := node_at h p in Done (left n).
Definition RIGHT (h : store) (p : Z) : outcome Z := let* n := node_at h p in Done (right n).
Definition COLOR (h : store) (p : Z) : outcome colour := let* n := node_at h p in Done (color n).
Definition IS_ROOT (h : store) (p : Z) : outcome bool := let* n := node_at h p in Done (is_root n).

Definition with_parent (v : Z) (n : rbtnode) : rbtnode :=
  mkNode v (left n) (right n) (color n) (is_root n) (down n) (info n).
Definition with_left (v : Z) (n : rbtnode) : rbtnode :=
  mkNode (parent n) v (right n) (color n) (is_root n) (down n) (info n).
Definition with_right (v : Z) (n : rbtnode) : rbtnode :=
  mkNode (parent n) (left n) v (color n) (is_root n) (down n) (info n).
Definition with_color (c : colour) (n : rbtnode) : rbtnode :=
  mkNode (parent n) (left n) (right n) c (is_root n) (down n) (info n).
Definition with_root (b : bool) (n : rbtnode) : rbtnode :=
  mkNode (parent n) (left n) (right n) (color n) b (down n) (info n).

(** An assignment to a field of the node at [p]. *)
Definition assign (f : rbtnode -> rbtnode) (h : store) (p : Z) : outcome store :=
  let* n := node_at h p in Done (<[p := f n]> h).

Definition set_parent (h : store) (p v : Z) : outcome store := assign (with_parent v) h p.
Definition set_left (h : store) (p v : Z) : outcome store := assign (with_left v) h p.
Definition set_right (h : store) (p v : Z) : outcome store := assign (with_right v) h p.
Definition set_color (h : store) (p : Z) (c : colour) : outcome store := assign (with_color c) h p.
Definition set_root (h : store) (p : Z) (b : bool) : outcome store := assign (with_root b) h p.

Definition MAKE_RED (h : store) (p : Z) : outcome store := set_color h p RED.
Definition MAKE_BLACK (h : store) (p : Z) : outcome store := set_color h p BLACK.

(** [IS_RED], [IS_BLACK]: the NULL pointer is black. *)
Definition IS_RED (h : store) (p : Z) : outcome bool :=
  if p =? 0 then Done false
  else let* c := COLOR h p in Done (bool_decide (c = RED)).
Definition IS_BLACK (h : store) (p : Z) : outcome bool :=
  if p =? 0 then Done true
  else let* c := COLOR h p in Done (bool_decide (c = BLACK)).

(** ** Rotations *)

(** The common end of the rotations: [child] takes the place of [node]. *)
Definition replace_child (h : store) (root node child : Z) : outcome (store * Z) :=
  let* pn := PARENT h node in
  let* h := set_parent h child pn in
  let* isr := IS_ROOT h node in
  let* (h, root) :=
    (if isr then
       let* h := set_root h child true in
       let* h := set_root h node false in
       Done (h, child)
     else
       let* l := LEFT h pn in
       let* h := (if l =? node then set_left h pn child else set_right h pn child) in
       Done (h, root)) in
  let* h := set_parent h node child in
  Done (h, root).

Definition rotate_left (h : store) (root node : Z) : outcome (store * Z) :=
  let* child := RIGHT h node in
  REQUIRE negb (child =? 0) ;;
  let* cl := LEFT h child in
  let* h := set_right h node cl in
  let* h := (if cl =? 0 then Done h else set_parent h cl node) in
  let* h := set_left h child node in
  replace_child h root node child.

Definition rotate_right (h : store) (root node : Z) : outcome (store * Z) :=
  let* child := LEFT h node in
  REQUIRE negb (child =? 0) ;;
  let* cr := RIGHT h child in
  let* h := set_left h node cr in
  let* h := (if cr =? 0 then Done h else set_parent h cr node) in
  let* h := set_right h child node in
  replace_child h root node child.

(** ** Insertion *)

(** One iteration of the loop of [dns_rbt_addonlevel]; the state is the store,
    [node] and [root]. *)
Definition add_body (s : store * Z * Z) : outcome ((store * Z * Z) + (store * Z)) :=
  let '(h, node, root) := s in
  if node =? root then Done (inr (h, root))
  else
    let* parent := PARENT h node in
    let* red := IS_RED h parent in
    if negb red then Done (inr (h, root))
    else
      let* grandparent := PARENT h parent in
      let* gl := LEFT h grandparent in
      if parent =? gl then
        let* child := RIGHT h grandparent in
        let* cred := IS_RED h child in
        if cred then
          let* h := MAKE_BLACK h parent in
          let* h := MAKE_BLACK h child in
          let* h := MAKE_RED h grandparent in
          Done (inl (h, grandparent, root))
        else
          let* pr := RIGHT h parent in
          let* (h, root, node, parent, grandparent) :=
            (if node =? pr then
               let* (h, root) := rotate_left h root parent in
               let node := parent in
               let* parent := PARENT h node in
               let* grandparent := PARENT h parent in
               Done (h, root, node, parent, grandparent)
             else Done (h, root, node, parent, grandparent)) in
          let* h := MAKE_BLACK h parent in
          let* h := MAKE_RED h grandparent in
          let* (h, root) := rotate_right h root grandparent in
          Done (inl (h, node, root))
      else
        let* child := LEFT h grandparent in
        let* cred := IS_RED h child in
        if cred then
          let* h := MAKE_BLACK h parent in
          let* h := MAKE_BLACK h child in
          let* h := MAKE_RED h grandparent in
          Done (inl (h, grandparent, root))
        else
          let* pl := LEFT h parent in
          let* (h, root, node, parent, grandparent) :=
            (if node =? pl then
               let* (h, root) := rotate_right h root parent in
               let node := parent in
               let* parent := PARENT h node in
               let* grandparent := PARENT h parent in
               Done (h, root, node, parent, grandparent)
             else Done (h, root, node, parent, grandparent)) in
          let* h := MAKE_BLACK h parent in
          let* h := MAKE_RED h grandparent in
          let* (h, root) := rotate_left h root grandparent in
          Done (inl (h, node, root)).

(** A path of the tree is no longer than the number of nodes. *)
Definition rbt_fuel (h : store) : nat := S (S (base.size h)).

Definition dns_rbt_addonlevel (h : store) (node current order root : Z) :
    outcome (store * Z) :=
  let* nl := LEFT h node in
  let* nr := RIGHT h node in
  REQUIRE (nl =? 0) && (nr =? 0) ;;
  REQUIRE negb (current =? 0) ;;
  if root =? 0 then
    let* h := MAKE_BLACK h node in
    let* h := set_root h node true in
    let* h := set_parent h node current in
    Done (h, node)
  else
    let* h :=
      (if order <? 0 then
         let* l := LEFT h current in
         REQUIRE l =? 0 ;; set_left h current node
       else
         let* r := RIGHT h current in
         REQUIRE r =? 0 ;; set_right h current node) in
    let* pn := PARENT h node in
    REQUIRE pn =? 0 ;;
    let* h := set_parent h node current in
    let* h := MAKE_RED h node in
    let* (h, root) := loop (rbt_fuel h) add_body (h, node, root) in
    let* h := MAKE_BLACK h root in
    let* isr := IS_ROOT h root in
    REQUIRE isr ;;
    Done (h, root).

(** ** Deletion *)

(** [while (LEFT(successor) != NULL) successor = LEFT(successor);] *)
Definition leftmost_body (h : store) (p : Z) : outcome (Z + Z) :=
  let* l := LEFT h p in Done (if l =? 0 then inr p else inl l).

(** The link to [delete] is moved to [successor]. *)
Definition swap_link (h : store) (root delete successor : Z) : outcome (store * Z) :=
  let* isr := IS_ROOT h delete in
  if isr then
    let* h := set_root h successor true in
    let* h := set_root h delete false in
    Done (h, successor)
  else
    let* pd := PARENT h delete in
    let* l := LEFT h pd in
    let* h := (if l =? delete then set_left h pd successor else set_right h pd successor) in
    Done (h, root).

(** The node to be deleted and its in-order successor change places.  First the
    successor is put into the place of [delete]. *)
Definition successor_in_place (h : store) (root delete successor : Z) : outcome (store * Z) :=
  let* (h, root) := swap_link h root delete successor in
  let* pd := PARENT h delete in
  let* h := set_parent h successor pd in
  let* ld := LEFT h delete in
  let* h := set_left h successor ld in
  let* rd_ := RIGHT h delete in
  let* h := set_right h successor rd_ in
  let* cd := COLOR h delete in
  let* h := set_color h successor cd in
  let* ls := LEFT h successor in
  let* h := (if ls =? 0 then Done h else set_parent h ls successor) in
  let* rs := RIGHT h successor in
  let* h := (if rs =? successor then Done h else set_parent h rs successor) in
  Done (h, root).

(** Then [delete] is put into the old place of the successor, which [tmp]
    remembers. *)
Definition delete_in_place (h : store) (tmp : rbtnode) (delete successor : Z) : outcome store :=
  let* isr := IS_ROOT h delete in
  REQUIRE negb isr ;;
  let* h :=
    (if parent tmp =? delete then
       let* h := set_right h successor delete in
       set_parent h delete successor
     else
       let* h := set_left h (parent tmp) delete in
       set_parent h delete (parent tmp)) in
  let* h := set_left h delete 0 in
  let* h := set_right h delete (right tmp) in
  set_color h delete (color tmp).

Definition swap_nodes (h : store) (root delete successor : Z) : outcome (store * Z) :=
  let* tmp := node_at h successor in
  let* (h, root) := successor_in_place h root delete successor in
  let* h := delete_in_place h tmp delete successor in
  Done (h, root).

(** The body of the loop that repairs the colours, when [child] is the left child
    of [parent]; the result is the store, the new [child] and [*rootp]. *)
Definition repair_left (h : store) (parent root : Z) : outcome (store * Z * Z) :=
  let* sibling := RIGHT h parent in
  let* sred := IS_RED h sibling in
  let* (h, root, sibling) :=
    (if sred then
       let* h := MAKE_BLACK h sibling in
       let* h := MAKE_RED h parent in
       let* (h, root) := rotate_left h root parent in
       let* sibling := RIGHT h parent in
       Done (h, root, sibling)
     else Done (h, root, sibling)) in
  REQUIRE negb (sibling =? 0) ;;
  let* sl := LEFT h sibling in
  let* sr := RIGHT h sibling in
  let* slb := IS_BLACK h sl in
  let* srb := IS_BLACK h sr in
  if slb && srb then
    let* h := MAKE_RED h sibling in
    Done (h, parent, root)
  else
    let* (h, root, sibling) :=
      (if srb then
         let* h := MAKE_BLACK h sl in
         let* h := MAKE_RED h sibling in
         let* (h, root) := rotate_right h root sibling in
         let* sibling := RIGHT h parent in
         Done (h, root, sibling)
       else Done (h, root, sibling)) in
    let* pc := COLOR h parent in
    let* h := set_color h sibling pc in
    let* h := MAKE_BLACK h parent in
    let* sr := RIGHT h sibling in
    REQUIRE negb (sr =? 0) ;;
    let* h := MAKE_BLACK h sr in
    let* (h, root) := rotate_left h root parent in
    Done (h, root, root).

(** The same, mirrored: [child] is the right child of [parent]. *)
Definition repair_right (h : store) (parent root : Z) : outcome (store * Z * Z) :=
  let* sibling := LEFT h parent in
  let* sred := IS_RED h sibling in
  let* (h, root, sibling) :=
    (if sred then
       let* h := MAKE_BLACK h sibling in
       let* h := MAKE_RED h parent in
       let* (h, root) := rotate_right h root parent in
       let* sibling := LEFT h parent in
       Done (h, root, sibling)
     else Done (h, root, sibling)) in
  REQUIRE negb (sibling =? 0) ;;
  let* sl := LEFT h sibling in
  let* sr := RIGHT h sibling in
  let* slb := IS_BLACK h sl in
  let* srb := IS_BLACK h sr in
  if slb && srb then
    let* h := MAKE_RED h sibling in
    Done (h, parent, root)
  else
    let* (h, root, sibling) :=
      (if slb then
         let* h := MAKE_BLACK h sr in
         let* h := MAKE_RED h sibling in
         let* (h, root) := rotate_left h root sibling in
         let* sibling := LEFT h parent in
         Done (h, root, sibling)
       else Done (h, root, sibling)) in
    let* pc := COLOR h parent in
    let* h := set_color h sibling pc in
    let* h := MAKE_BLACK h parent in
    let* sl := LEFT h sibling in
    REQUIRE negb (sl =? 0) ;;
    let* h := MAKE_BLACK h sl in
    let* (h, root) := rotate_right h root parent in
    Done (h, root, root).

(** One iteration of that loop; the state is the store, [child], [parent] and
    [*rootp]. *)
Definition delete_body (s : store * Z * Z * Z) :
    outcome ((store * Z * Z * Z) + (store * Z * Z)) :=
  let '(h, child, parent, root) := s in
  if child =? root then Done (inr (h, child, root))
  else
    let* black := IS_BLACK h child in
    if negb black then Done (inr (h, child, root))
    else
      let* croot := (if child =? 0 then Done false else IS_ROOT h child) in
      REQUIRE (child =? 0) || negb croot ;;
      let* lp := LEFT h parent in
      let* (h, child, root) :=
        (if lp =? child then repair_left h parent root else repair_right h parent root) in
      let* parent := PARENT h child in
      Done (inl (h, child, parent, root)).

(** The colours are repaired from [child], the subtree that lost a black node. *)
Definition fix_colors (h : store) (delete child root : Z) : outcome (store * Z) :=
  let* black := IS_BLACK h delete in
  if negb black then Done (h, root)
  else
    let* parent := PARENT h delete in
    let* (h, child, root) := loop (rbt_fuel h) delete_body (h, child, parent, root) in
    let* red := IS_RED h child in
    if red then let* h := MAKE_BLACK h child in Done (h, root) else Done (h, root).

(** The links from the parent of [delete] are moved to [child]. *)
Definition unlink_node (h : store) (delete child root : Z) : outcome (store * Z) :=
  let* isr := IS_ROOT h delete in
  let* pd := PARENT h delete in
  if negb isr then
    let* l := LEFT h pd in
    let* h := (if l =? delete then set_left h pd child else set_right h pd child) in
    let* h := (if child =? 0 then Done h else set_parent h child pd) in
    Done (h, root)
  else
    let* h := set_root h child true in
    let* h := set_parent h child pd in
    Done (h, child).

Definition dns_rbt_deletefromlevel (h : store) (delete root : Z) : outcome (store * Z) :=
  REQUIRE negb (delete =? 0) ;;
  let* isr := IS_ROOT h delete in
  let* linked :=
    (if isr then Done (root =? delete)
     else
       let* pd := PARENT h delete in
       let* l := LEFT h pd in
       let* r := RIGHT h pd in
       Done ((l =? delete) || (r =? delete))) in
  REQUIRE linked ;;
  let* l := LEFT h delete in
  let* r := RIGHT h delete in
  if (l =? 0) && (r =? 0) && isr then Done (h, 0)
  else
    let* (h, child, root) :=
      (if l =? 0 then Done (h, r, root)
       else if r =? 0 then Done (h, l, root)
       else
         let* successor := loop (rbt_fuel h) (leftmost_body h) r in
         let* child := RIGHT h successor in
         let* (h, root) := swap_nodes h root delete successor in
         Done (h, child, root)) in
    let* (h, root) := unlink_node h delete child root in
    fix_colors h delete child root.
