(* ===== verification/RbtTheory.v ===== *)
(** * One level of the red-black tree: balance, order and links are preserved

    The store of [Rbt.v] represents a tree of addresses ([tree_rep]): parent,
    left and right pointers agree, exactly the root has [is_root] set and its
    parent pointer is the node of the level above.  A position in a tree is a
    zipper ([plug]).  Each primitive (a change of colour, a rotation) is shown
    once to turn the representation of one tree into that of another; the loops
    of insertion and deletion are then followed on trees and zippers. *)

From S2P Require Import Prelude Rbt.

Inductive tree : Type :=
| Leaf
| Node (c : colour) (l : tree) (x : Z) (r : tree).

#[export] Instance tree_eq_dec : EqDecision tree.
Proof. solve_decision. Defined.

Definition ptr (t : tree) : Z := match t with Leaf => 0 | Node _ _ x _ => x end.

Definition root_color (t : tree) : colour := match t with Leaf => BLACK | Node c _ _ _ => c end.

Fixpoint inorder (t : tree) : list Z :=
  match t with
  | Leaf => []
  | Node _ l x r => inorder l ++ x :: inorder r
  end.

(** ** Zippers *)

Inductive side : Type := L | R.

(** [Frame L c x s]: the hole is the left child of [x], [s] is its sibling. *)
Inductive frame : Type := Frame (d : side) (c : colour) (x : Z) (s : tree).

Definition fill (f : frame) (t : tree) : tree :=
  match f with
  | Frame L c x s => Node c t x s
  | Frame R c x s => Node c s x t
  end.

(** The frames around the hole, the innermost first. *)
Fixpoint plug (k : list frame) (t : tree) : tree :=
  match k with
  | [] => t
  | f :: k => plug k (fill f t)
  end.

Fixpoint before (k : list frame) : list Z :=
  match k with
  | [] => []
  | Frame L _ _ _ :: k => before k
  | Frame R _ x s :: k => before k ++ inorder s ++ [x]
  end.

Fixpoint after (k : list frame) : list Z :=
  match k with
  | [] => []
  | Frame L _ x s :: k => x :: inorder s ++ after k
  | Frame R _ _ _ :: k => after k
  end.

Lemma inorder_plug k t : inorder (plug k t) = before k ++ inorder t ++ after k.
Proof.
  revert t. induction k as [|[[] c x s] k IH]; intros t; cbn.
  - by rewrite app_nil_r.
  - rewrite IH. cbn. by rewrite <- app_assoc.
  - rewrite IH. cbn. by rewrite <- !app_assoc.
Qed.

(** The parent pointer and the root flag of the node in the hole. *)
Definition up_of (k : list frame) (up : Z) : Z :=
  match k with [] => up | Frame _ _ x _ :: _ => x end.
Definition at_root (k : list frame) : bool := match k with [] => true | _ => false end.

(** ** Representation *)

Fixpoint rep (h : store) (par : Z) (b : bool) (t : tree) : Prop :=
  match t with
  | Leaf => True
  | Node c l x r =>
      x <> 0 /\ (exists dn dt, h !! x = Some (mkNode par (ptr l) (ptr r) c b dn dt))
      /\ rep h x false l /\ rep h x false r
  end.

Fixpoint rep_ctx (h : store) (up : Z) (k : list frame) (hole : Z) : Prop :=
  match k with
  | [] => True
  | Frame d c x s :: k =>
      x <> 0
      /\ (exists dn dt,
            h !! x = Some (mkNode (up_of k up) (match d with L => hole | R => ptr s end)
                             (match d with L => ptr s | R => hole end) c (at_root k) dn dt))
      /\ rep h x false s /\ rep_ctx h up k x
  end.

Record tree_rep (h : store) (up : Z) (t : tree) : Prop := {
  t_rep : rep h up true t;
  t_nodup : NoDup (inorder t)
}.

Lemma ptr_fill f t : ptr (fill f t) = match f with Frame _ _ x _ => x end.
Proof. by destruct f as [[] ? ? ?]. Qed.

Lemma rep_plug h up k t :
  rep h up true (plug k t) <-> rep_ctx h up k (ptr t) /\ rep h (up_of k up) (at_root k) t.
Proof.
  revert t. induction k as [|[d c x s] k IH]; intros t; cbn [plug rep_ctx up_of at_root].
  - split; [done|by intros [_ ?]].
  - rewrite IH, ptr_fill. destruct d; cbn [fill rep]; tauto.
Qed.

Lemma rep_agree h h' par b t :
  (forall q, q ∈ inorder t -> h' !! q = h !! q) -> rep h par b t -> rep h' par b t.
Proof.
  revert par b. induction t as [|c l IHl x r IHr]; intros par b H; cbn; [done|].
  intros (Hx & (dn & dt & Hn) & Hl & Hr).
  assert (Hin : forall q, q ∈ inorder l \/ q = x \/ q ∈ inorder r -> h' !! q = h !! q).
  { intros q Hq. apply H. cbn. rewrite elem_of_app, elem_of_cons. tauto. }
  split_and!; [done| |apply IHl; auto|apply IHr; auto].
  exists dn, dt. rewrite Hin by tauto. done.
Qed.

Lemma rep_ctx_agree h h' up k hole :
  (forall q, q ∈ before k ++ after k -> h' !! q = h !! q) ->
  rep_ctx h up k hole -> rep_ctx h' up k hole.
Proof.
  revert hole. induction k as [|[d c x s] k IH]; intros hole H; cbn; [done|].
  intros (Hx & (dn & dt & Hn) & Hs & Hk).
  assert (Hin : forall q, q ∈ inorder s \/ q = x \/ q ∈ before k ++ after k -> h' !! q = h !! q).
  { intros q Hq. apply H. destruct d; cbn; set_solver. }
  split_and!; [done| |apply (rep_agree h); auto|apply IH; auto].
  exists dn, dt. by rewrite Hin by tauto.
Qed.

(** ** What the primitives leave alone *)

Definition payload (n : rbtnode) : Z * rbtinfo := (down n, info n).

(** The nodes outside [D] are untouched, and everywhere the fields that
    balancing does not use keep their values. *)
Record evolves (D : list Z) (h h' : store) : Prop := {
  e_outside : forall q, q ∉ D -> h' !! q = h !! q;
  e_payload : payload <$> h' = payload <$> h
}.

#[export] Instance evolves_refl D : Reflexive (evolves D).
Proof. by split. Qed.
#[export] Instance evolves_trans D : Transitive (evolves D).
Proof.
  intros h1 h2 h3 [A1 B1] [A2 B2]. split; [|congruence].
  intros q Hq. rewrite A2 by done. by apply A1.
Qed.

Lemma evolves_insert D h x n n' :
  h !! x = Some n -> payload n' = payload n -> x ∈ D -> evolves D h (<[x := n']> h).
Proof.
  intros Hx Hp Hin. split.
  - intros q Hq. rewrite lookup_insert_ne; [done|]. by intros ->.
  - rewrite fmap_insert, Hp. apply insert_id. by rewrite lookup_fmap, Hx.
Qed.

Lemma node_at_Done h p n : h !! p = Some n -> node_at h p = Done n.
Proof. unfold node_at. by intros ->. Qed.

(** Reading a node at a position of the tree. *)
Lemma read_node h up k c l x r :
  tree_rep h up (plug k (Node c l x r)) ->
  x <> 0 /\ exists dn dt,
    h !! x = Some (mkNode (up_of k up) (ptr l) (ptr r) c (at_root k) dn dt).
Proof. intros [H _]. apply rep_plug in H as [_ (Hx & Hn & _)]. done. Qed.

(** The addresses around a position are different from each other. *)
Lemma nodup_position k t :
  NoDup (inorder (plug k t)) ->
  NoDup (inorder t) /\ NoDup (before k ++ after k)
  /\ (forall q, q ∈ inorder t -> q ∉ before k ++ after k).
Proof.
  rewrite inorder_plug, !NoDup_app. intros (H1 & H2 & H3 & H4 & H5).
  split_and!; try done.
  - set_solver.
  - set_solver.
Qed.

Lemma set_color_rep h up k c l x r c' :
  tree_rep h up (plug k (Node c l x r)) ->
  exists h', set_color h x c' = Done h' /\ tree_rep h' up (plug k (Node c' l x r))
    /\ evolves (inorder (plug k (Node c l x r))) h h'.
Proof.
  intros T. destruct (read_node _ _ _ _ _ _ _ T) as (Hx & dn & dt & Hn).
  destruct T as [H Hd]. apply rep_plug in H as [Hk (_ & _ & Hl & Hr)].
  destruct (nodup_position _ _ Hd) as (Hd1 & _ & Hd2). cbn in Hd1, Hd2.
  unfold set_color, assign. rewrite (node_at_Done _ _ _ Hn). cbn [obind].
  eexists. split; [done|]. split.
  - split; [|by rewrite inorder_plug in *]. apply rep_plug. cbn [ptr rep].
    assert (Hag : forall q, q <> x -> <[x := with_color c' (mkNode (up_of k up) (ptr l) (ptr r) c (at_root k) dn dt)]> h !! q = h !! q)
      by (intros q Hq; by rewrite lookup_insert_ne).
    apply NoDup_app in Hd1 as (_ & Hnl & Hnr%NoDup_cons).
    split_and!; [|done| | |].
    + apply (rep_ctx_agree h); [|done]. intros q Hq. apply Hag. intros ->. set_solver.
    + exists dn, dt. by rewrite lookup_insert_eq.
    + apply (rep_agree h); [|done]. intros q Hq. apply Hag. intros ->. set_solver.
    + apply (rep_agree h); [|done]. intros q Hq. apply Hag. intros ->. set_solver.
  - apply evolves_insert with (mkNode (up_of k up) (ptr l) (ptr r) c (at_root k) dn dt);
      [done|done|]. rewrite inorder_plug. cbn. set_solver.
Qed.

(** ** Symbolic execution on the store *)

Lemma payload_insert (h : store) x n n' :
  h !! x = Some n -> payload n' = payload n -> payload <$> (<[x := n']> h) = payload <$> h.
Proof. intros Hx Hp. rewrite fmap_insert, Hp. apply insert_id. by rewrite lookup_fmap, Hx. Qed.

(** A lookup behind assignments to other nodes. *)
Ltac look :=
  first [ eassumption
        | rewrite lookup_insert_eq; reflexivity
        | rewrite lookup_insert_ne by congruence; look ].

(** Run the next access to a node. *)
Ltac access :=
  match goal with
  | |- context [node_at ?h ?p] => erewrite (node_at_Done h p) by look
  end; cbn [obind].

Ltac run_store :=
  unfold PARENT, LEFT, RIGHT, COLOR, IS_ROOT, MAKE_RED, MAKE_BLACK,
    set_parent, set_left, set_right, set_color, set_root, assign;
  cbn [obind]; repeat access.

Ltac payload_same := repeat (erewrite payload_insert; [|look|reflexivity]).

(** ** Rotations *)

(** The addresses around a hole, and the one whose child the hole is. *)
Definition around (k : list frame) : list Z := before k ++ after k.
Definition touched (k : list frame) : list Z :=
  match k with [] => [] | Frame _ _ x _ :: _ => [x] end.

Lemma around_cons d c x s k q :
  q ∈ around (Frame d c x s :: k) <-> q = x \/ q ∈ inorder s \/ q ∈ around k.
Proof. unfold around. destruct d; cbn; set_solver. Qed.

Lemma around_nodup d c x s k :
  NoDup (around (Frame d c x s :: k)) ->
  x ∉ inorder s /\ x ∉ around k /\ NoDup (around k)
  /\ (forall q, q ∈ inorder s -> q ∉ around k) /\ NoDup (inorder s).
Proof.
  unfold around. destruct d; cbn; rewrite !NoDup_app, ?NoDup_cons, ?NoDup_app; intros H;
    destruct_and!; split_and!; try done; set_solver.
Qed.

(** The parent of a hole is told of the new occupant. *)
Lemma rep_ctx_child h h' up d c p s k hole dn dt :
  rep_ctx h up k p -> rep h p false s -> p <> 0 ->
  h' !! p = Some (mkNode (up_of k up) (match d with L => hole | R => ptr s end)
                    (match d with L => ptr s | R => hole end) c (at_root k) dn dt) ->
  (forall q, q ∈ inorder s \/ q ∈ around k -> h' !! q = h !! q) ->
  rep_ctx h' up (Frame d c p s :: k) hole.
Proof.
  intros Hk Hs Hp Hp' Hag. cbn. split_and!; [done| | |].
  - by exists dn, dt.
  - apply (rep_agree h); [|done]. intros q Hq. apply Hag. auto.
  - apply (rep_ctx_agree h); [|done]. intros q Hq. apply Hag. auto.
Qed.

(** [child] takes the place of [node] under the frames [k]. *)
Lemma replace_child_rep h up k root node child nn nc :
  rep_ctx h up k node -> NoDup (around k) ->
  h !! node = Some nn -> h !! child = Some nc ->
  parent nn = up_of k up -> is_root nn = at_root k -> is_root nc = false ->
  node <> child -> node ∉ around k -> child ∉ around k ->
  (forall d c p s k', k = Frame d c p s :: k' -> ptr s <> node) ->
  exists h', replace_child h root node child = Done (h', if at_root k then child else root)
    /\ rep_ctx h' up k child
    /\ h' !! node = Some (with_parent child (with_root false nn))
    /\ h' !! child = Some (with_parent (up_of k up) (with_root (at_root k) nc))
    /\ (forall q, q <> node -> q <> child -> q ∉ touched k -> h' !! q = h !! q)
    /\ payload <$> h' = payload <$> h.
Proof.
  intros Hk Hnd Hn Hc Hpar Hroot Hcroot Hne Hnk Hck Hsib. unfold replace_child.
  assert (Hcfalse : with_root false nc = nc) by (destruct nc; cbn in *; by subst).
  destruct k as [|[d c p s] k]; cbn [at_root up_of touched] in *.
  - run_store. rewrite Hroot. run_store.
    eexists. split; [done|]. rewrite Hpar. split_and!; [done| | | |].
    + look.
    + look.
    + intros q H1 H2 _. by rewrite !lookup_insert_ne by done.
    + by payload_same.
  - destruct Hk as (Hp0 & (dn & dt & Hp) & Hs & Hk).
    assert (Hpn : p <> node) by (intros ->; apply Hnk, around_cons; auto).
    assert (Hpc : p <> child) by (intros ->; apply Hck, around_cons; auto).
    assert (Hcs : child ∉ inorder s /\ child ∉ around k)
      by (split; intros ?; apply Hck, around_cons; auto).
    assert (Hns : node ∉ inorder s /\ node ∉ around k)
      by (split; intros ?; apply Hnk, around_cons; auto).
    destruct (around_nodup _ _ _ _ _ Hnd) as (Hps & Hpk & _).
    run_store. rewrite Hroot, Hpar. run_store.
    assert (Hnfalse : with_root false nn = nn) by (destruct nn; cbn in *; by subst).
    specialize (Hsib _ _ _ _ _ eq_refl).
    destruct d; cbn [left];
      [rewrite Z.eqb_refl|rewrite (proj2 (Z.eqb_neq (ptr s) node)) by done]; run_store.
    all: eexists; split; [done|]; split_and!.
    all: try (intros q H1 H2 H3%not_elem_of_cons; by rewrite !lookup_insert_ne by naive_solver).
    all: try (by payload_same).
    all: try (rewrite ?Hcfalse, ?Hnfalse; look).
    + apply (rep_ctx_child h _ up L c p s k child dn dt); try done; [look|].
      intros q Hq. rewrite !lookup_insert_ne; [done|..]; intros <-; tauto.
    + apply (rep_ctx_child h _ up R c p s k child dn dt); try done; [look|].
      intros q Hq. rewrite !lookup_insert_ne; [done|..]; intros <-; tauto.
Qed.

(** A subtree whose root gets a new parent. *)
Lemma rep_move h h' par par' f t :
  rep h par f t -> NoDup (inorder t) ->
  (forall n, t <> Leaf -> h !! ptr t = Some n -> h' !! ptr t = Some (with_parent par' n)) ->
  (forall q, q ∈ inorder t -> q <> ptr t -> h' !! q = h !! q) -> rep h' par' f t.
Proof.
  destruct t as [|c l x r]; [done|]. cbn [rep inorder ptr].
  intros (Hx & (dn & dt & Hn) & Hl & Hr) Hd Hroot Hag.
  apply NoDup_app in Hd as (_ & Hd1 & Hd2%NoDup_cons).
  split_and!; [done| | |].
  - exists dn, dt. by rewrite (Hroot _ ltac:(done) Hn).
  - apply (rep_agree h); [|done]. intros q Hq. apply Hag; set_solver.
  - apply (rep_agree h); [|done]. intros q Hq. apply Hag; set_solver.
Qed.

Lemma ptr_plug k t t' : ptr (plug k t) = if at_root k then ptr t else ptr (plug k t').
Proof.
  revert t t'. induction k as [|f k IH]; intros t t'; [done|]. cbn [plug at_root].
  rewrite (IH (fill f t) (fill f t')). destruct (at_root k) eqn:E; [|done].
  destruct k; [|done]. cbn. by rewrite !ptr_fill.
Qed.

Lemma ptr_in t : t <> Leaf -> ptr t ∈ inorder t.
Proof. destruct t as [|c l x r]; [done|]. intros _. cbn. set_solver. Qed.

Lemma rep_ptr h par f t : rep h par f t -> t <> Leaf -> ptr t <> 0 /\ exists n, h !! ptr t = Some n /\ is_root n = f.
Proof. destruct t; [done|]. intros (Hx & (dn & dt & Hn) & _) _. split; [done|]. by eexists. Qed.

(** The hole's sibling is not the node in the hole. *)
Lemma sibling_ptr k x :
  x <> 0 -> x ∉ around k ->
  forall d c p s k', k = Frame d c p s :: k' -> ptr s <> x.
Proof.
  intros Hx Hk d c p s k' -> <-. destruct s as [|c' l z r]; [done|].
  apply Hk, around_cons. right; left. apply ptr_in. done.
Qed.

Lemma touched_around k q : q ∉ around k -> q ∉ touched k.
Proof.
  destruct k as [|[d c x s] k]; cbn [touched]; [set_solver|]. intros H [->|?%elem_of_nil]%elem_of_cons; [|done].
  apply H, around_cons. auto.
Qed.

(** [if (t != NULL) PARENT(t) = par;] *)
Lemma move_subtree h b par :
  (b <> Leaf -> ptr b <> 0 /\ exists n, h !! ptr b = Some n) ->
  exists h', (if ptr b =? 0 then Done h else set_parent h (ptr b) par) = Done h'
    /\ (forall q, q <> ptr b \/ b = Leaf -> h' !! q = h !! q)
    /\ (forall n, b <> Leaf -> h !! ptr b = Some n -> h' !! ptr b = Some (with_parent par n))
    /\ payload <$> h' = payload <$> h.
Proof.
  intros Hb. destruct b as [|c l z r]; [by exists h|]. destruct Hb as (Hz & n & Hn); [done|].
  cbn [ptr] in *. rewrite (proj2 (Z.eqb_neq z 0)) by done. run_store.
  eexists. split_and!; [done| | |].
  - intros q [Hq|]; [|done]. by rewrite lookup_insert_ne.
  - intros n' _ Hn'. rewrite lookup_insert_eq. congruence.
  - by payload_same.
Qed.

Lemma inorder_rotate k c a x d b y e :
  inorder (plug k (Node d (Node c a x b) y e)) = inorder (plug k (Node c a x (Node d b y e))).
Proof. rewrite !inorder_plug. cbn. rewrite <- !app_assoc. cbn. by rewrite <- !app_assoc. Qed.

(** The addresses in two neighbouring nodes and around them. *)
Lemma pair_facts k c a x d b y e :
  NoDup (inorder (plug k (Node c a x (Node d b y e)))) ->
  x ∉ around k /\ y ∉ around k /\ x <> y /\ NoDup (around k)
  /\ (forall q, q ∈ inorder a \/ q ∈ inorder b \/ q ∈ inorder e ->
        q <> x /\ q <> y /\ q ∉ around k)
  /\ (forall q, q ∈ inorder a -> q ∉ inorder b) /\ (forall q, q ∈ inorder e -> q ∉ inorder b)
  /\ NoDup (inorder b).
Proof.
  intros Hd. destruct (nodup_position _ _ Hd) as (Hd1 & Hdk & Hdx).
  change (before k ++ after k) with (around k) in Hdk, Hdx. cbn [inorder] in Hd1, Hdx.
  apply NoDup_app in Hd1 as (_ & Ha & Hd1). apply NoDup_cons in Hd1 as (Hx & Hd1).
  apply NoDup_app in Hd1 as (Hb & Hbe & Hd1). apply NoDup_cons in Hd1 as (Hy & He).
  rewrite not_elem_of_app, not_elem_of_cons in Hx.
  assert (Ha' : forall q, q ∈ inorder a -> q <> x /\ q ∉ inorder b /\ q <> y /\ q ∉ inorder e).
  { intros q Hq. specialize (Ha q Hq). rewrite not_elem_of_cons, not_elem_of_app, not_elem_of_cons in Ha.
    tauto. }
  assert (Hb' : forall q, q ∈ inorder b -> q <> y /\ q ∉ inorder e).
  { intros q Hq. specialize (Hbe q Hq). by rewrite not_elem_of_cons in Hbe. }
  assert (Hall : forall q, q ∈ inorder a \/ q = x \/ q ∈ inorder b \/ q = y \/ q ∈ inorder e -> q ∉ around k).
  { intros q Hq. apply Hdx. rewrite elem_of_app, elem_of_cons, elem_of_app, elem_of_cons. tauto. }
  destruct Hx as (Hxb & Hxy & Hxe).
  split_and!; [apply Hall; tauto|apply Hall; tauto|done|done| | | |done].
  - intros q Hq. split_and!; [| |apply Hall; tauto].
    + intros ->. destruct Hq as [Hq|[Hq|Hq]]; [|done..]. destruct (Ha' _ Hq); tauto.
    + intros ->. destruct Hq as [Hq|[Hq|Hq]]; [| |done];
        [destruct (Ha' _ Hq)|destruct (Hb' _ Hq)]; tauto.
  - intros q Hq. destruct (Ha' q Hq); tauto.
  - intros q Hq Hq'. destruct (Hb' q Hq'); tauto.
Qed.

Lemma pair_outside k c a x d b y e q :
  q ∉ inorder (plug k (Node c a x (Node d b y e))) ->
  q <> x /\ q <> y /\ q ∉ around k /\ q ∉ inorder b.
Proof.
  rewrite inorder_plug. cbn [inorder]. unfold around.
  repeat rewrite ?not_elem_of_app, ?not_elem_of_cons. tauto.
Qed.

Lemma rotate_left_rep h up k c a x d b y e :
  tree_rep h up (plug k (Node c a x (Node d b y e))) ->
  exists h',
    rotate_left h (ptr (plug k (Node c a x (Node d b y e)))) x
    = Done (h', ptr (plug k (Node d (Node c a x b) y e)))
    /\ tree_rep h' up (plug k (Node d (Node c a x b) y e))
    /\ evolves (inorder (plug k (Node c a x (Node d b y e)))) h h'.
Proof.
  intros T. pose proof (t_rep _ _ _ T) as H. apply rep_plug in H as [Hk H]. cbn [ptr rep] in H.
  destruct H as (Hx & (dnx & dtx & Hnx) & Ha & Hy & (dny & dty & Hny) & Hb & He).
  destruct (pair_facts _ _ _ _ _ _ _ _ (t_nodup _ _ _ T)) as (Hxk & Hyk & Hxy & Hdk & Hsub & Hba & Hbe & Hndb).
  unfold rotate_left. run_store. cbn [right].
  rewrite require_true by lia. run_store. cbn [left].
  set (nx := mkNode _ _ _ _ _ _ _) in Hnx |- *. set (ny := mkNode _ _ _ _ _ _ _) in Hny.
  assert (Hbx : b <> Leaf -> ptr b <> x /\ ptr b <> y /\ ptr b ∉ around k).
  { intros Hl. apply Hsub. right; left. by apply ptr_in. }
  destruct (move_subtree (<[x := with_right (ptr b) nx]> h) b x) as (h2 & E2 & Ho2 & Hb2 & Hp2).
  { intros Hl. destruct (rep_ptr _ _ _ _ Hb Hl) as (? & n & Hn & _). destruct (Hbx Hl) as (? & _).
    split; [done|]. exists n. look. }
  unfold set_parent, assign in E2. rewrite E2.
  assert (Hx2 : h2 !! x = Some (with_right (ptr b) nx)).
  { rewrite Ho2; [look|]. destruct b; [by right|]. left. naive_solver. }
  assert (Hy2 : h2 !! y = Some ny).
  { rewrite Ho2; [look|]. destruct b; [by right|]. left. naive_solver. }
  assert (Hrest2 : forall q, q <> x -> q <> ptr b \/ b = Leaf -> h2 !! q = h !! q).
  { intros q Hq Hqb. rewrite Ho2 by done. by apply lookup_insert_ne. }
  cbn [obind]. run_store.
  destruct (replace_child_rep (<[y := with_left x ny]> h2) up k
              (ptr (plug k (Node c a x (Node d b y e)))) x y
              (with_right (ptr b) nx) (with_left x ny)) as (h' & E & Hk' & Hx' & Hy' & Ho' & Hp');
    try done; [|look|look|by apply sibling_ptr|].
  { apply (rep_ctx_agree h); [|done]. intros q Hq. fold (around k) in Hq.
    rewrite lookup_insert_ne by (intros <-; done). apply Hrest2; [intros ->; done|].
    destruct b; [by right|]. left. intros ->. by apply Hbx. }
  assert (Hag : forall q, q <> x -> q <> y -> q ∉ around k -> q <> ptr b \/ b = Leaf ->
                          h' !! q = h !! q).
  { intros q H1 H2 H3 H4. rewrite Ho' by (try done; by apply touched_around).
    rewrite lookup_insert_ne by done. by apply Hrest2. }
  assert (Hsame : forall t, (forall q, q ∈ inorder t -> q ∉ inorder b) ->
            (forall q, q ∈ inorder t -> q <> x /\ q <> y /\ q ∉ around k) ->
            forall par f, rep h par f t -> rep h' par f t).
  { intros t H1 H2 par f. apply rep_agree. intros q Hq. destruct (H2 q Hq) as (? & ? & ?).
    apply Hag; try done. destruct b as [|cb bl z br]; [by right|]. left.
    intros ->. apply (H1 z Hq). exact (ptr_in (Node cb bl z br) ltac:(done)). }
  exists h'. split_and!.
  - rewrite E. do 2 f_equal. rewrite (ptr_plug k _ (Node d (Node c a x b) y e)). by destruct k.
  - split; [|rewrite inorder_rotate; apply T].
    apply rep_plug. cbn [rep ptr]. split_and!; [done|done| |done| | | |].
    + eexists _, _. exact Hy'.
    + eexists _, _. exact Hx'.
    + apply Hsame; auto.
    + apply (rep_move h _ y); [done|done| |].
      * intros n Hl Hn. destruct (Hbx Hl) as (? & ? & ?).
        rewrite Ho' by (try done; by apply touched_around).
        rewrite lookup_insert_ne by done. apply Hb2; [done|]. by rewrite lookup_insert_ne.
      * intros q Hq Hne. destruct (Hsub q) as (? & ? & ?); [auto|]. apply Hag; auto.
    + apply Hsame; auto.
  - split.
    + intros q Hq. destruct (pair_outside _ _ _ _ _ _ _ _ _ Hq) as (? & ? & ? & Hqb).
      apply Hag; try done. destruct b; [by right|]. left. intros ->. apply Hqb. by apply ptr_in.
    + rewrite Hp'. payload_same. rewrite Hp2. by payload_same.
Qed.

Lemma rotate_right_rep h up k c d a y b x e :
  tree_rep h up (plug k (Node c (Node d a y b) x e)) ->
  exists h',
    rotate_right h (ptr (plug k (Node c (Node d a y b) x e))) x
    = Done (h', ptr (plug k (Node d a y (Node c b x e))))
    /\ tree_rep h' up (plug k (Node d a y (Node c b x e)))
    /\ evolves (inorder (plug k (Node c (Node d a y b) x e))) h h'.
Proof.
  intros T. pose proof (t_rep _ _ _ T) as H. apply rep_plug in H as [Hk H]. cbn [ptr rep] in H.
  destruct H as (Hx & (dnx & dtx & Hnx) & (Hy & (dny & dty & Hny) & Ha & Hb) & He).
  pose proof (t_nodup _ _ _ T) as Hnd. rewrite inorder_rotate in Hnd.
  destruct (pair_facts _ _ _ _ _ _ _ _ Hnd) as (Hyk & Hxk & Hyx & Hdk & Hsub & Hba & Hbe & Hndb).
  unfold rotate_right. run_store. cbn [left].
  rewrite require_true by lia. run_store. cbn [right].
  set (nx := mkNode _ _ _ _ _ _ _) in Hnx |- *. set (ny := mkNode _ _ _ _ _ _ _) in Hny.
  assert (Hbx : b <> Leaf -> ptr b <> y /\ ptr b <> x /\ ptr b ∉ around k).
  { intros Hl. apply Hsub. right; left. by apply ptr_in. }
  destruct (move_subtree (<[x := with_left (ptr b) nx]> h) b x) as (h2 & E2 & Ho2 & Hb2 & Hp2).
  { intros Hl. destruct (rep_ptr _ _ _ _ Hb Hl) as (? & n & Hn & _). destruct (Hbx Hl) as (_ & ? & _).
    split; [done|]. exists n. look. }
  unfold set_parent, assign in E2. rewrite E2.
  assert (Hx2 : h2 !! x = Some (with_left (ptr b) nx)).
  { rewrite Ho2; [look|]. destruct b; [by right|]. left. naive_solver. }
  assert (Hy2 : h2 !! y = Some ny).
  { rewrite Ho2; [look|]. destruct b; [by right|]. left. naive_solver. }
  assert (Hrest2 : forall q, q <> x -> q <> ptr b \/ b = Leaf -> h2 !! q = h !! q).
  { intros q Hq Hqb. rewrite Ho2 by done. by apply lookup_insert_ne. }
  cbn [obind]. run_store.
  destruct (replace_child_rep (<[y := with_right x ny]> h2) up k
              (ptr (plug k (Node c (Node d a y b) x e))) x y
              (with_left (ptr b) nx) (with_right x ny)) as (h' & E & Hk' & Hx' & Hy' & Ho' & Hp');
    try done; [|look|look|by apply sibling_ptr|].
  { apply (rep_ctx_agree h); [|done]. intros q Hq. fold (around k) in Hq.
    rewrite lookup_insert_ne by (intros <-; done). apply Hrest2; [intros ->; done|].
    destruct b; [by right|]. left. intros ->. by apply Hbx. }
  assert (Hag : forall q, q <> y -> q <> x -> q ∉ around k -> q <> ptr b \/ b = Leaf ->
                          h' !! q = h !! q).
  { intros q H1 H2 H3 H4. rewrite Ho' by (try done; by apply touched_around).
    rewrite lookup_insert_ne by done. by apply Hrest2. }
  assert (Hsame : forall t, (forall q, q ∈ inorder t -> q ∉ inorder b) ->
            (forall q, q ∈ inorder t -> q <> y /\ q <> x /\ q ∉ around k) ->
            forall par f, rep h par f t -> rep h' par f t).
  { intros t H1 H2 par f. apply rep_agree. intros q Hq. destruct (H2 q Hq) as (? & ? & ?).
    apply Hag; try done. destruct b as [|cb bl z br]; [by right|]. left.
    intros ->. apply (H1 z Hq). exact (ptr_in (Node cb bl z br) ltac:(done)). }
  exists h'. split_and!.
  - rewrite E. do 2 f_equal. rewrite (ptr_plug k _ (Node d a y (Node c b x e))). by destruct k.
  - split; [|by rewrite <- inorder_rotate; apply T].
    apply rep_plug. cbn [rep ptr]. split_and!; [done|done| | |done| | |].
    + eexists _, _. exact Hy'.
    + apply Hsame; auto.
    + eexists _, _. exact Hx'.
    + apply (rep_move h _ y); [done|done| |].
      * intros n Hl Hn. destruct (Hbx Hl) as (? & ? & ?).
        rewrite Ho' by (try done; by apply touched_around).
        rewrite lookup_insert_ne by done. apply Hb2; [done|]. by rewrite lookup_insert_ne.
      * intros q Hq Hne. destruct (Hsub q) as (? & ? & ?); [auto|]. apply Hag; auto.
    + apply Hsame; auto.
  - split.
    + intros q Hq. rewrite inorder_rotate in Hq.
      destruct (pair_outside _ _ _ _ _ _ _ _ _ Hq) as (? & ? & ? & Hqb).
      apply Hag; try done. destruct b; [by right|]. left. intros ->. apply Hqb. by apply ptr_in.
    + rewrite Hp'. payload_same. rewrite Hp2. by payload_same.
Qed.

Lemma root_around f k t : ptr (plug (f :: k) t) ∈ around (f :: k).
Proof.
  revert f t. induction k as [|g k IH]; intros [d c x s] t.
  - cbn [plug]. rewrite ptr_fill. apply around_cons. auto.
  - apply around_cons. right; right. apply (IH g).
Qed.

(** ** A session: the primitives on the represented tree *)

(** The store [h], which evolved from [h0], represents the tree [t] of the
    addresses [I], in this order. *)
Record good (h0 : store) (I : list Z) (up : Z) (h : store) (t : tree) : Prop := {
  g_rep : tree_rep h up t;
  g_inorder : inorder t = I;
  g_evolves : evolves I h0 h
}.

Section Session.
Context (h0 : store) (I : list Z) (up : Z).
Abbreviation good := (good h0 I up).

Lemma good_color h k c l x r c' :
  good h (plug k (Node c l x r)) ->
  exists h', set_color h x c' = Done h' /\ good h' (plug k (Node c' l x r)).
Proof.
  intros [T Ho E]. destruct (set_color_rep h up k c l x r c' T) as (h' & -> & T' & E').
  exists h'. split; [done|]. split; [done|by rewrite <- Ho, !inorder_plug|].
  rewrite Ho in E'. by etrans.
Qed.

Lemma good_rotate_left h k c a x d b y e :
  good h (plug k (Node c a x (Node d b y e))) ->
  exists h', rotate_left h (ptr (plug k (Node c a x (Node d b y e)))) x
             = Done (h', ptr (plug k (Node d (Node c a x b) y e)))
    /\ good h' (plug k (Node d (Node c a x b) y e)).
Proof.
  intros [T Ho E]. destruct (rotate_left_rep h up k c a x d b y e T) as (h' & -> & T' & E').
  exists h'. split; [done|]. split; [done|by rewrite inorder_rotate|].
  rewrite Ho in E'. by etrans.
Qed.

Lemma good_rotate_right h k c d a y b x e :
  good h (plug k (Node c (Node d a y b) x e)) ->
  exists h', rotate_right h (ptr (plug k (Node c (Node d a y b) x e))) x
             = Done (h', ptr (plug k (Node d a y (Node c b x e))))
    /\ good h' (plug k (Node d a y (Node c b x e))).
Proof.
  intros [T Ho E]. destruct (rotate_right_rep h up k c d a y b x e T) as (h' & -> & T' & E').
  exists h'. split; [done|]. split; [done|by rewrite <- inorder_rotate|].
  rewrite Ho in E'. by etrans.
Qed.

(** The node at a position, field by field. *)
Lemma good_read h k c l x r :
  good h (plug k (Node c l x r)) ->
  PARENT h x = Done (up_of k up) /\ LEFT h x = Done (ptr l) /\ RIGHT h x = Done (ptr r)
  /\ COLOR h x = Done c /\ IS_ROOT h x = Done (at_root k).
Proof.
  intros [T _ _]. destruct (read_node _ _ _ _ _ _ _ T) as (Hx & dn & dt & Hn).
  unfold PARENT, LEFT, RIGHT, COLOR, IS_ROOT. by rewrite (node_at_Done _ _ _ Hn).
Qed.

(** The colour of the subtree at a position. *)
Lemma good_shade h k t :
  good h (plug k t) ->
  IS_RED h (ptr t) = Done (bool_decide (root_color t = RED))
  /\ IS_BLACK h (ptr t) = Done (bool_decide (root_color t = BLACK)).
Proof.
  intros G. destruct t as [|c l x r]; [done|].
  destruct (good_read _ _ _ _ _ _ G) as (_ & _ & _ & Hc & _).
  destruct (read_node _ _ _ _ _ _ _ (g_rep _ _ _ _ _ G)) as (Hx & _).
  unfold IS_RED, IS_BLACK. cbn [ptr root_color].
  by rewrite (proj2 (Z.eqb_neq x 0)), Hc by done.
Qed.

Lemma good_address h k c l x r :
  good h (plug k (Node c l x r)) -> x <> 0 /\ x ∉ around k.
Proof.
  intros G. split; [apply (read_node _ _ _ _ _ _ _ (g_rep _ _ _ _ _ G))|].
  destruct (nodup_position _ _ (t_nodup _ _ _ (g_rep _ _ _ _ _ G))) as (_ & _ & H).
  apply H. cbn. rewrite elem_of_app, elem_of_cons. auto.
Qed.

(** The sibling of a position is another node. *)
Lemma good_sibling h d pc p s k c l x r :
  good h (plug (Frame d pc p s :: k) (Node c l x r)) -> ptr s <> x.
Proof.
  intros G. destruct (good_address _ _ _ _ _ _ G) as [Hx Hk]. by eapply sibling_ptr.
Qed.

(** A node below the root is not the root. *)
Lemma good_not_root h f k c l x r :
  good h (plug (f :: k) (Node c l x r)) -> ptr (plug (f :: k) (Node c l x r)) <> x.
Proof.
  intros G. destruct (good_address _ _ _ _ _ _ G) as [_ Hk]. intros E. apply Hk.
  rewrite <- E at 1. apply root_around.
Qed.
End Session.

(** ** Red-black trees *)

(** [rb c n t]: [t] has root colour [c], no red node has a red child, and every
    path has [n] black nodes. *)
Inductive rb : colour -> nat -> tree -> Prop :=
| rb_leaf : rb BLACK 0 Leaf
| rb_red n l x r : rb BLACK n l -> rb BLACK n r -> rb RED n (Node RED l x r)
| rb_black c1 c2 n l x r : rb c1 n l -> rb c2 n r -> rb BLACK (S n) (Node BLACK l x r).

(** [fits c n k]: the hole of [k] takes a tree of root colour [c] (a hole that
    takes a red root takes a black one) and black height [n]; the root of the
    whole is black. *)
Inductive fits : colour -> nat -> list frame -> Prop :=
| fits_nil n : fits BLACK n []
| fits_red d n x s k : rb BLACK n s -> fits RED n k -> fits BLACK n (Frame d RED x s :: k)
| fits_black d c c' n x s k : rb c' n s -> fits BLACK (S n) k -> fits c n (Frame d BLACK x s :: k).

Lemma fits_plug c n k t : fits c n k -> rb c n t -> exists m, rb BLACK m (plug k t).
Proof.
  intros H. revert t. induction H as [n|d n x s k Hs Hk IH|d c c' n x s k Hs Hk IH]; intros t Ht.
  - by exists n.
  - apply (IH (fill (Frame d RED x s) t)). destruct d; by constructor.
  - apply (IH (fill (Frame d BLACK x s) t)). destruct d; by econstructor.
Qed.

Lemma rb_color c n t : rb c n t -> root_color t = c.
Proof. by destruct 1. Qed.

Lemma ptr_plug_same k t t' : ptr t = ptr t' -> ptr (plug k t) = ptr (plug k t').
Proof. intros E. rewrite (ptr_plug k t t'). by destruct k. Qed.

(** The goal is a match on an outcome that [E] gives. *)
Ltac outcome_is E :=
  match type of E with
  | _ = ?r => match goal with |- match ?e with _ => _ end => replace e with r by (symmetry; exact E) end
  end.

(** ** Insertion *)

Definition red_top (k : list frame) : Z :=
  match k with Frame _ RED _ _ :: _ => Zlen k | _ => 0 end.

Section Insert.
Context (h0 : store) (I : list Z) (up : Z).

(** The loop of [dns_rbt_addonlevel]: [node] is red, and except for a red parent
    of [node] the tree is a red-black tree. *)
Definition add_inv (n : Z) (s : store * Z * Z) : Prop :=
  let '(h, node, root) := s in
  exists k a b m,
    good h0 I up h (plug k (Node RED a node b))
    /\ root = ptr (plug k (Node RED a node b))
    /\ rb BLACK m a /\ rb BLACK m b /\ fits BLACK m k /\ n = red_top k.

Definition add_post (r : store * Z) : Prop :=
  let '(h, root) := r in
  exists t m, good h0 I up h t /\ root = ptr t /\ t <> Leaf
    /\ (rb BLACK m t \/ exists l r, t = Node RED l root r /\ rb RED m t).

Abbreviation good := (good h0 I up).

Lemma make_black h k c l x r :
  good h (plug k (Node c l x r)) ->
  exists h', MAKE_BLACK h x = Done h' /\ good h' (plug k (Node BLACK l x r)).
Proof. apply good_color. Qed.

Lemma make_red h k c l x r :
  good h (plug k (Node c l x r)) ->
  exists h', MAKE_RED h x = Done h' /\ good h' (plug k (Node RED l x r)).
Proof. apply good_color. Qed.

Lemma turn_left h root k c a x d b y e :
  good h (plug k (Node c a x (Node d b y e))) ->
  root = ptr (plug k (Node c a x (Node d b y e))) ->
  exists h' root', rotate_left h root x = Done (h', root')
    /\ good h' (plug k (Node d (Node c a x b) y e))
    /\ root' = ptr (plug k (Node d (Node c a x b) y e)).
Proof. intros G ->. destruct (good_rotate_left _ _ _ _ _ _ _ _ _ _ _ _ G) as (h' & -> & G'). eauto. Qed.

Lemma turn_right h root k c d a y b x e :
  good h (plug k (Node c (Node d a y b) x e)) ->
  root = ptr (plug k (Node c (Node d a y b) x e)) ->
  exists h' root', rotate_right h root x = Done (h', root')
    /\ good h' (plug k (Node d a y (Node c b x e)))
    /\ root' = ptr (plug k (Node d a y (Node c b x e))).
Proof. intros G ->. destruct (good_rotate_right _ _ _ _ _ _ _ _ _ _ _ _ G) as (h' & -> & G'). eauto. Qed.

Lemma plug_not_leaf k t : t <> Leaf -> plug k t <> Leaf.
Proof.
  revert t. induction k as [|[[] c x s] k IH]; intros t Ht; [done|apply IH; done..].
Qed.

(** A red uncle: the colours of the parent, the uncle and the grandparent are
    exchanged and the loop goes on at the grandparent. *)
Lemma recolour h root k2 d d2 p s g ul z ur a node b m :
  good h (plug (Frame d RED p s :: Frame d2 BLACK g (Node RED ul z ur) :: k2) (Node RED a node b)) ->
  root = ptr (plug (Frame d RED p s :: Frame d2 BLACK g (Node RED ul z ur) :: k2) (Node RED a node b)) ->
  rb BLACK m a -> rb BLACK m b -> rb BLACK m s -> rb RED m (Node RED ul z ur) ->
  fits BLACK (S m) k2 ->
  exists h1 h2 h3, MAKE_BLACK h p = Done h1 /\ MAKE_BLACK h1 z = Done h2
    /\ MAKE_RED h2 g = Done h3 /\ add_inv (red_top k2) (h3, g, root).
Proof.
  intros G -> Ha Hb Hs Hu Hk2. inversion Hu; subst.
  assert (Hn : rb RED m (Node RED a node b)) by (by constructor).
  destruct d, d2;
    [ destruct (make_black h (Frame L BLACK g (Node RED ul z ur) :: k2) _ _ _ _ G) as (h1 & E1 & G1);
      destruct (make_black h1 (Frame R BLACK g _ :: k2) _ _ _ _ G1) as (h2 & E2 & G2)
    | destruct (make_black h (Frame R BLACK g (Node RED ul z ur) :: k2) _ _ _ _ G) as (h1 & E1 & G1);
      destruct (make_black h1 (Frame L BLACK g _ :: k2) _ _ _ _ G1) as (h2 & E2 & G2)
    | destruct (make_black h (Frame L BLACK g (Node RED ul z ur) :: k2) _ _ _ _ G) as (h1 & E1 & G1);
      destruct (make_black h1 (Frame R BLACK g _ :: k2) _ _ _ _ G1) as (h2 & E2 & G2)
    | destruct (make_black h (Frame R BLACK g (Node RED ul z ur) :: k2) _ _ _ _ G) as (h1 & E1 & G1);
      destruct (make_black h1 (Frame L BLACK g _ :: k2) _ _ _ _ G1) as (h2 & E2 & G2) ];
    destruct (make_red h2 k2 _ _ _ _ G2) as (h3 & E3 & G3);
    exists h1, h2, h3; (split_and!; [done..|]); exists k2; eexists _, _, (S m);
    (split_and!; [exact G3|cbn [plug fill]; by apply ptr_plug_same|by econstructor..|done|done]).
Qed.

(** A black uncle: one rotation, or two, and the loop ends. *)
Lemma rebalance_left h root k2 d p s g u a node b m :
  good h (plug (Frame d RED p s :: Frame L BLACK g u :: k2) (Node RED a node b)) ->
  root = ptr (plug (Frame d RED p s :: Frame L BLACK g u :: k2) (Node RED a node b)) ->
  rb BLACK m a -> rb BLACK m b -> rb BLACK m s -> rb BLACK m u -> fits BLACK (S m) k2 ->
  exists pr s', RIGHT h p = Done pr
    /\ (let* (h, root, node, parent, grandparent) :=
          (if node =? pr then
             let* (h, root) := rotate_left h root p in
             let node := p in
             let* parent := PARENT h node in
             let* grandparent := PARENT h parent in
             Done (h, root, node, parent, grandparent)
           else Done (h, root, node, p, g)) in
        let* h := MAKE_BLACK h parent in
        let* h := MAKE_RED h grandparent in
        let* (h, root) := rotate_right h root grandparent in
        Done (inl (h, node, root))) = Done (inl s' : _ + store * Z)
    /\ add_inv 0 s'.
Proof.
  intros G Hroot Ha Hb Hs Hu Hk2. destruct d.
  - assert (G0 : good h (plug (Frame L BLACK g u :: k2) (Node RED (Node RED a node b) p s))) by exact G.
    destruct (good_read _ _ _ _ _ _ _ _ _ G0) as (_ & _ & -> & _).
    pose proof (good_sibling _ _ _ _ _ _ _ _ _ _ _ _ _ G) as Hsib. exists (ptr s).
    rewrite (proj2 (Z.eqb_neq node (ptr s))) by done. cbn [obind].
    destruct (make_black h _ _ _ _ _ G0) as (h1 & -> & G1). cbn [obind].
    destruct (make_red h1 k2 _ _ _ _ G1) as (h2 & -> & G2). cbn [obind].
    destruct (turn_right h2 root k2 _ _ _ _ _ _ _ G2) as (h3 & root' & -> & G3 & ->).
    { rewrite Hroot. cbn [plug fill]. by apply ptr_plug_same. }
    eexists. split_and!; [done|done|].
    exists (Frame L BLACK p (Node RED s g u) :: k2), a, b, m.
    split_and!; [exact G3|done|done|done| |done]. econstructor; [|done]. by constructor.
  - assert (G0 : good h (plug (Frame L BLACK g u :: k2) (Node RED s p (Node RED a node b)))) by exact G.
    destruct (good_read _ _ _ _ _ _ _ _ _ G0) as (_ & _ & -> & _). exists node. cbn [ptr].
    rewrite Z.eqb_refl.
    destruct (turn_left h root _ _ _ _ _ _ _ _ G0) as (h1 & root1 & -> & G1 & Hroot1); [done|].
    cbn [obind].
    assert (Gp : good h1 (plug (Frame L RED node b :: Frame L BLACK g u :: k2) (Node RED s p a))) by exact G1.
    destruct (good_read _ _ _ _ _ _ _ _ _ Gp) as (-> & _). cbn [obind up_of].
    destruct (good_read _ _ _ _ _ _ _ _ _ G1) as (-> & _). cbn [obind up_of].
    destruct (make_black h1 _ _ _ _ _ G1) as (h2 & -> & G2). cbn [obind].
    destruct (make_red h2 k2 _ _ _ _ G2) as (h3 & -> & G3). cbn [obind].
    destruct (turn_right h3 root1 k2 _ _ _ _ _ _ _ G3) as (h4 & root' & -> & G4 & ->).
    { rewrite Hroot1. cbn [plug fill]. by apply ptr_plug_same. }
    eexists. split_and!; [done|done|].
    exists (Frame L BLACK node (Node RED b g u) :: k2), s, a, m.
    split_and!; [exact G4|done|done|done| |done]. econstructor; [|done]. by constructor.
Qed.

Lemma rebalance_right h root k2 d p s g u a node b m :
  good h (plug (Frame d RED p s :: Frame R BLACK g u :: k2) (Node RED a node b)) ->
  root = ptr (plug (Frame d RED p s :: Frame R BLACK g u :: k2) (Node RED a node b)) ->
  rb BLACK m a -> rb BLACK m b -> rb BLACK m s -> rb BLACK m u -> fits BLACK (S m) k2 ->
  exists pl s', LEFT h p = Done pl
    /\ (let* (h, root, node, parent, grandparent) :=
          (if node =? pl then
             let* (h, root) := rotate_right h root p in
             let node := p in
             let* parent := PARENT h node in
             let* grandparent := PARENT h parent in
             Done (h, root, node, parent, grandparent)
           else Done (h, root, node, p, g)) in
        let* h := MAKE_BLACK h parent in
        let* h := MAKE_RED h grandparent in
        let* (h, root) := rotate_left h root grandparent in
        Done (inl (h, node, root))) = Done (inl s' : _ + store * Z)
    /\ add_inv 0 s'.
Proof.
  intros G Hroot Ha Hb Hs Hu Hk2. destruct d.
  - assert (G0 : good h (plug (Frame R BLACK g u :: k2) (Node RED (Node RED a node b) p s))) by exact G.
    destruct (good_read _ _ _ _ _ _ _ _ _ G0) as (_ & -> & _). exists node. cbn [ptr].
    rewrite Z.eqb_refl.
    destruct (turn_right h root _ _ _ _ _ _ _ _ G0) as (h1 & root1 & -> & G1 & Hroot1); [done|].
    cbn [obind].
    assert (Gp : good h1 (plug (Frame R RED node a :: Frame R BLACK g u :: k2) (Node RED b p s))) by exact G1.
    destruct (good_read _ _ _ _ _ _ _ _ _ Gp) as (-> & _). cbn [obind up_of].
    destruct (good_read _ _ _ _ _ _ _ _ _ G1) as (-> & _). cbn [obind up_of].
    destruct (make_black h1 _ _ _ _ _ G1) as (h2 & -> & G2). cbn [obind].
    destruct (make_red h2 k2 _ _ _ _ G2) as (h3 & -> & G3). cbn [obind].
    destruct (turn_left h3 root1 k2 _ _ _ _ _ _ _ G3) as (h4 & root' & -> & G4 & ->).
    { rewrite Hroot1. cbn [plug fill]. by apply ptr_plug_same. }
    eexists. split_and!; [done|done|].
    exists (Frame R BLACK node (Node RED u g a) :: k2), b, s, m.
    split_and!; [exact G4|done|done|done| |done]. econstructor; [|done]. by constructor.
  - assert (G0 : good h (plug (Frame R BLACK g u :: k2) (Node RED s p (Node RED a node b)))) by exact G.
    destruct (good_read _ _ _ _ _ _ _ _ _ G0) as (_ & -> & _).
    pose proof (good_sibling _ _ _ _ _ _ _ _ _ _ _ _ _ G) as Hsib. exists (ptr s).
    rewrite (proj2 (Z.eqb_neq node (ptr s))) by done. cbn [obind].
    destruct (make_black h _ _ _ _ _ G0) as (h1 & -> & G1). cbn [obind].
    destruct (make_red h1 k2 _ _ _ _ G1) as (h2 & -> & G2). cbn [obind].
    destruct (turn_left h2 root k2 _ _ _ _ _ _ _ G2) as (h3 & root' & -> & G3 & ->).
    { rewrite Hroot. cbn [plug fill]. by apply ptr_plug_same. }
    eexists. split_and!; [done|done|].
    exists (Frame R BLACK p (Node RED u g s) :: k2), a, b, m.
    split_and!; [exact G3|done|done|done| |done]. econstructor; [|done]. by constructor.
Qed.

Lemma add_body_spec n s :
  add_inv n s ->
  match add_body s with
  | Done (inl s') => exists n', add_inv n' s' /\ 0 <= n' < n
  | Done (inr r) => add_post r
  | _ => False
  end.
Proof.
  destruct s as [[h node] root]. intros (k & a & b & m & G & Hroot & Ha & Hb & Hk & ->).
  unfold add_body. pose proof (good_read _ _ _ _ _ _ _ _ _ G) as (Hpar & _).
  destruct k as [|[d pc p s] k].
  { rewrite Hroot. cbn [plug ptr]. rewrite Z.eqb_refl. exists (Node RED a node b), m.
    split_and!; [done..|]. right. exists a, b. split; [done|]. by constructor. }
  pose proof (good_not_root _ _ _ _ _ _ _ _ _ _ G) as Hnr. rewrite <- Hroot in Hnr.
  rewrite (proj2 (Z.eqb_neq node root)) by (by intros ->). rewrite Hpar. cbn [obind up_of].
  assert (Gp : good h (plug k (fill (Frame d pc p s) (Node RED a node b)))) by exact G.
  pose proof (good_shade _ _ _ _ _ _ Gp) as [Hred _].
  assert (Hpp : ptr (fill (Frame d pc p s) (Node RED a node b)) = p) by (by destruct d).
  rewrite Hpp in Hred. rewrite Hred. cbn [obind].
  replace (root_color (fill (Frame d pc p s) (Node RED a node b))) with pc by (by destruct d).
  inversion Hk as [|? ? ? ? ? Hs Hk'|? ? cs ? ? ? ? Hs Hk']; subst; cbn [bool_decide negb].
  2:{ destruct (fits_plug RED m (Frame d BLACK p s :: k) (Node RED a node b)) as (m' & Hrb).
      - by econstructor.
      - by constructor.
      - cbn. eexists _, m'. split_and!; [exact G|done| |by left].
        apply (plug_not_leaf (Frame d BLACK p s :: k)). done. }
  inversion Hk' as [| |d2 ? cu ? g u k2 Hu Hk2]; subst. cbn.
  assert (Hparent : PARENT h p = Done g).
  { destruct d; apply (good_read _ _ _ _ _ _ _ _ _ Gp). }
  rewrite Hparent. cbn [obind].
  assert (Gg : good h (plug k2 (fill (Frame d2 BLACK g u) (fill (Frame d RED p s) (Node RED a node b)))))
    by exact G.
  assert (Hub : forall dd, good h (plug (Frame dd BLACK g (fill (Frame d RED p s) (Node RED a node b)) :: k2) u) ->
    IS_RED h (ptr u) = Done (bool_decide (cu = RED))).
  { intros dd Gu. rewrite (proj1 (good_shade _ _ _ _ _ _ Gu)). by rewrite (rb_color _ _ _ Hu). }
  assert (Hrec : cu = RED -> exists z h1 h2 h3, ptr u = z /\ MAKE_BLACK h p = Done h1
     /\ MAKE_BLACK h1 z = Done h2 /\ MAKE_RED h2 g = Done h3
     /\ add_inv (red_top k2) (h3, g, ptr (plug (Frame d RED p s :: Frame d2 BLACK g u :: k2) (Node RED a node b)))).
  { intros ->. inversion Hu as [|? ul z ur Hul Hur|]; subst. exists z.
    destruct (recolour h _ k2 d d2 p s g ul z ur a node b m G eq_refl Ha Hb Hs Hu Hk2)
      as (h1 & h2 & h3 & E1 & E2 & E3 & Hinv). exists h1, h2, h3. done. }
  assert (Hn : 0 <= red_top k2 < Zlen (Frame d RED p s :: Frame d2 BLACK g u :: k2)).
  { rewrite !Zlen_cons. pose proof (Zlen_nonneg k2).
    unfold red_top. destruct k2 as [|[? [] ? ?] ?]; lia. }
  destruct d2.
  - destruct (good_read h0 I up h k2 BLACK (fill (Frame d RED p s) (Node RED a node b)) g u Gg)
      as (_ & -> & -> & _). cbn [obind]. rewrite Hpp, Z.eqb_refl, (Hub R Gg). cbn [obind].
    case_bool_decide as Hcu.
    + destruct (Hrec Hcu) as (z & h1 & h2 & h3 & <- & -> & E2 & E3 & Hinv). cbn [obind].
      rewrite E2. cbn [obind]. rewrite E3. cbn [obind].
      exists (red_top k2). split; [exact Hinv|exact Hn].
    + assert (cu = BLACK) as -> by (by destruct cu).
      destruct (rebalance_left h _ k2 d p s g u a node b m G eq_refl Ha Hb Hs Hu Hk2)
        as (pr & s' & -> & E & Hinv). cbn [obind].
      outcome_is E. exists 0. split; [done|]. lia.
  - destruct (good_read h0 I up h k2 BLACK u g (fill (Frame d RED p s) (Node RED a node b)) Gg)
      as (_ & -> & -> & _). cbn [obind].
    assert (Hpu : ptr u <> p).
    { destruct d; by apply (good_sibling _ _ _ _ _ _ _ _ _ _ _ _ _ Gp). }
    rewrite (proj2 (Z.eqb_neq p (ptr u))) by done. rewrite (Hub L Gg). cbn [obind].
    case_bool_decide as Hcu.
    + destruct (Hrec Hcu) as (z & h1 & h2 & h3 & <- & -> & E2 & E3 & Hinv). cbn [obind].
      rewrite E2. cbn [obind]. rewrite E3. cbn [obind].
      exists (red_top k2). split; [exact Hinv|exact Hn].
    + assert (cu = BLACK) as -> by (by destruct cu).
      destruct (rebalance_right h _ k2 d p s g u a node b m G eq_refl Ha Hb Hs Hu Hk2)
        as (pr & s' & -> & E & Hinv). cbn [obind].
      outcome_is E. exists 0. split; [done|]. lia.
Qed.
End Insert.

Lemma fits_of_rb m k t : rb BLACK m (plug k t) -> exists c n, rb c n t /\ fits c n k.
Proof.
  revert t. induction k as [|[d fc x s] k IH]; intros t H.
  - exists BLACK, m. split; [done|constructor].
  - destruct (IH _ H) as (c & n & Hf & Hk).
    destruct d; cbn [fill] in Hf; inversion Hf; subst; eexists _, _;
      (split; [eassumption|]); by econstructor.
Qed.

(** A path is no longer than the number of nodes of the store. *)
Lemma rep_dom h par b t q : rep h par b t -> q ∈ inorder t -> q ∈ dom h.
Proof.
  revert par b. induction t as [|c l IHl x r IHr]; intros par b; cbn; [set_solver|].
  intros (_ & (dn & dt & Hn) & Hl & Hr). rewrite elem_of_app, elem_of_cons.
  intros [Hq|[->|Hq]]; [by eapply IHl| |by eapply IHr]. apply elem_of_dom. eauto.
Qed.

Lemma rep_size h up t : tree_rep h up t -> (length (inorder t) <= base.size h)%nat.
Proof.
  intros [H Hd]. rewrite <- size_dom, <- (size_list_to_set (C := gset Z) (inorder t)) by done.
  apply subseteq_size. intros q Hq. apply elem_of_list_to_set in Hq. by eapply rep_dom.
Qed.

Lemma length_plug k t : (length k + length (inorder t) <= length (inorder (plug k t)))%nat.
Proof.
  revert t. induction k as [|[d c x s] k IH]; intros t; cbn [plug length]; [lia|].
  specialize (IH (fill (Frame d c x s) t)).
  destruct d; cbn [fill inorder] in *; rewrite length_app in IH; cbn [length] in IH; lia.
Qed.

(** The new node is linked below [current]. *)
Lemma link_new h up k d c s current node n0 nc :
  tree_rep h up (plug (Frame d c current s :: k) Leaf) ->
  h !! current = Some nc ->
  h !! node = Some n0 -> left n0 = 0 -> right n0 = 0 -> is_root n0 = false ->
  node <> 0 -> node ∉ inorder (plug (Frame d c current s :: k) Leaf) ->
  let h' := <[node := with_color RED (with_parent current n0)]>
              (<[current := match d with L => with_left node | R => with_right node end nc]> h) in
  good h (inorder (plug (Frame d c current s :: k) (Node RED Leaf node Leaf))) up h'
    (plug (Frame d c current s :: k) (Node RED Leaf node Leaf)).
Proof.
  intros T Hnc Hn Hl Hr Hroot Hn0 Hnew h'.
  pose proof (t_rep _ _ _ T) as H. apply rep_plug in H as [(Hc0 & (dn & dt & Hc) & Hs & Hk) _].
  pose proof (t_nodup _ _ _ T) as Hd. rewrite inorder_plug in Hd. cbn [inorder app] in Hd.
  fold (around (Frame d c current s :: k)) in Hd.
  destruct (around_nodup _ _ _ _ _ Hd) as (Hcs & Hck & _).
  assert (Hna : node ∉ around (Frame d c current s :: k)).
  { intros Hq. apply Hnew. by rewrite inorder_plug. }
  rewrite around_cons in Hna. cbn [ptr] in Hc. 
  set (nc0 := mkNode _ _ _ _ _ _ _) in Hc. assert (Hnc0 : nc = nc0) by congruence.
  assert (Hne : node <> current) by tauto.
  assert (Hcur : h' !! current = Some (mkNode (up_of k up) (match d with L => node | R => ptr s end)
                   (match d with L => ptr s | R => node end) c (at_root k) dn dt)).
  { unfold h'. rewrite lookup_insert_ne, lookup_insert_eq, Hnc0 by done. by destruct d. }
  split; [split| |].
  - apply rep_plug. split.
    + apply (rep_ctx_child h _ up d c current s k node dn dt); try done.
      intros q Hq. unfold h'. rewrite !lookup_insert_ne; [done|..]; intros <-; tauto.
    + cbn [rep up_of at_root]. split_and!; [done| |done|done].
      exists (down n0), (info n0). unfold h'. rewrite lookup_insert_eq. cbn.
      unfold with_color, with_parent. cbn. by rewrite Hl, Hr, Hroot.
  - rewrite inorder_plug in *. cbn [inorder app] in *. rewrite <- Permutation_middle.
    constructor; [|done]. intros Hq. apply Hna. by apply around_cons in Hq.
  - done.
  - assert (evolves (inorder (plug (Frame d c current s :: k) (Node RED Leaf node Leaf))) h
              (<[current := match d with L => with_left node | R => with_right node end nc]> h)) as E1.
    { eapply evolves_insert; [exact Hnc|by destruct d|].
      rewrite inorder_plug. cbn [inorder app].
      assert (current ∈ around (Frame d c current s :: k)) by (apply around_cons; auto).
      unfold around in *. set_solver. }
    etrans; [exact E1|]. unfold h'.
    eapply evolves_insert; [by rewrite lookup_insert_ne|done|].
    rewrite inorder_plug. cbn [inorder app]. set_solver.
Qed.

(** The loop of the insertion, from the new red leaf. *)
Lemma add_loop h0 I up h K node :
  good h0 I up h (plug K (Node RED Leaf node Leaf)) -> fits BLACK 0 K ->
  exists h' root', loop (rbt_fuel h) add_body (h, node, ptr (plug K (Node RED Leaf node Leaf)))
                   = Done (h', root') /\ add_post h0 I up (h', root').
Proof.
  intros G HK.
  destruct (loop_rule_bound add_body (add_inv h0 I up) (add_post h0 I up) (add_body_spec h0 I up)
    (rbt_fuel h) (red_top K) (h, node, ptr (plug K (Node RED Leaf node Leaf)))) as ([h' root'] & E & Hp).
  - exists K, Leaf, Leaf, 0%nat. split_and!; [done|done|constructor|constructor|done|done].
  - pose proof (rep_size _ _ _ (g_rep _ _ _ _ _ G)). pose proof (length_plug K (Node RED Leaf node Leaf)).
    unfold red_top, Zlen, rbt_fuel. destruct K as [|[? [] ? ?] K]; cbn [length] in *; lia.
  - eauto.
Qed.

(** The end of the insertion: the root is made black. *)
Lemma paint_root h0 I up h t m :
  good h0 I up h t -> t <> Leaf ->
  (rb BLACK m t \/ exists l r, t = Node RED l (ptr t) r /\ rb RED m t) ->
  exists h' t' n, MAKE_BLACK h (ptr t) = Done h' /\ IS_ROOT h' (ptr t) = Done true
    /\ good h0 I up h' t' /\ rb BLACK n t' /\ ptr t' = ptr t.
Proof.
  intros G Ht Hrb. destruct t as [|c l x r]; [done|].
  destruct (make_black h0 I up h [] c l x r G) as (h' & E & G').
  exists h', (Node BLACK l x r). destruct (good_read _ _ _ _ _ _ _ _ _ G') as (_ & _ & _ & _ & Er).
  destruct Hrb as [Hrb|(l' & r' & [= -> -> ->] & Hrb)].
  - exists m. inversion Hrb; subst; by split_and!.
  - exists (S m). inversion Hrb; subst. split_and!; try done. by econstructor.
Qed.

(** The level and the position of the insertion: the empty child of [current] on
    the side that [order] selects. *)
Definition slot (order : Z) (c : colour) (current : Z) (s : tree) (k : list frame) : list frame :=
  Frame (if order <? 0 then L else R) c current s :: k.

Definition fresh_node (h : store) (node : Z) : Prop :=
  node <> 0 /\ exists dn dt c, h !! node = Some (mkNode 0 0 0 c false dn dt).

Lemma addonlevel_spec (h : store) (up node current order : Z) (c : colour) (s : tree)
    (k : list frame) (n : nat) :
  fresh_node h node ->
  (tree_rep h up (plug (slot order c current s k) Leaf) ->
   rb BLACK n (plug (slot order c current s k) Leaf) ->
   node ∉ inorder (plug (slot order c current s k) Leaf) ->
   exists h' t' n',
     dns_rbt_addonlevel h node current order (ptr (plug (slot order c current s k) Leaf))
       = Done (h', ptr t')
     /\ tree_rep h' up t' /\ rb BLACK n' t'
     /\ inorder t' = before (slot order c current s k) ++ node :: after (slot order c current s k)
     /\ evolves (inorder t') h h')
  /\ (current <> 0 ->
      exists h', dns_rbt_addonlevel h node current order 0 = Done (h', node)
        /\ tree_rep h' current (Node BLACK Leaf node Leaf) /\ evolves [node] h h').
Proof.
  intros (Hn0 & dn & dt & nc & Hn). split.
  - intros T Hrb Hnew. unfold slot in *. set (d := if order <? 0 then L else R) in *.
    assert (Hd : (order <? 0) = match d with L => true | R => false end)
      by (subst d; by destruct (order <? 0)).
    pose proof (t_rep _ _ _ T) as H. apply rep_plug in H as [(Hc0 & (dnc & dtc & Hc) & _ & _) _].
    destruct (fits_of_rb _ _ _ Hrb) as (c' & n' & Hleaf & Hfits).
    inversion Hleaf; subst c' n'.
    assert (Hne : current <> node).
    { intros ->. apply Hnew. rewrite inorder_plug. cbn [inorder app].
      change (before (Frame d c node s :: k) ++ after (Frame d c node s :: k))
        with (around (Frame d c node s :: k)). apply around_cons. auto. }
    pose proof (link_new h up k d c s current node _ _ T Hc Hn eq_refl eq_refl eq_refl Hn0 Hnew) as G.
    cbn zeta in G. set (h3 := <[node := _]> _) in G.
    set (K := Frame d c current s :: k) in *.
    assert (Hroot : ptr (plug K Leaf) = ptr (plug K (Node RED Leaf node Leaf)))
      by (rewrite (ptr_plug K Leaf (Node RED Leaf node Leaf)); done).
    assert (Hroot0 : ptr (plug K Leaf) <> 0).
    { apply (rep_ptr _ _ _ _ (t_rep _ _ _ T)). subst K. cbn [plug]. apply plug_not_leaf. by destruct d. }
    destruct (add_loop _ _ _ _ _ _ G Hfits) as (h4 & root4 & Eloop & t4 & m4 & G4 & -> & Ht4 & Hrb4).
    rewrite <- Hroot in Eloop.
    destruct (paint_root _ _ _ _ _ _ G4 Ht4 Hrb4) as (h5 & t5 & n5 & Eb & Er & G5 & Hrb5 & Hp5).
    exists h5, t5, n5. split_and!; [|apply G5|done| |].
    + unfold dns_rbt_addonlevel. run_store. cbn [left right].
      rewrite require_true by done. cbn [obind]. rewrite require_true by lia. cbn [obind].
      rewrite (proj2 (Z.eqb_neq _ 0)) by done.
      unfold MAKE_BLACK, set_color, assign in Eb. unfold IS_ROOT in Er.
      rewrite Hd. clearbody d. destruct d; run_store; rewrite require_true by done; run_store;
        rewrite require_true by done; run_store; rewrite insert_insert_eq; fold h3;
        rewrite Eloop; cbn [obind]; rewrite Eb; cbn [obind]; rewrite Er; cbn [obind];
        by rewrite require_true, Hp5.
    + rewrite (g_inorder _ _ _ _ _ G5), inorder_plug. done.
    + rewrite (g_inorder _ _ _ _ _ G5). apply G5.
  - intros Hc. unfold dns_rbt_addonlevel. run_store. cbn [left right].
    rewrite require_true by done. cbn [obind]. rewrite require_true by lia. cbn [obind].
    cbn [Z.eqb]. run_store. rewrite !insert_insert_eq.
    eexists. split; [done|]. split.
    + split; [|apply NoDup_singleton]. cbn. split_and!; [done| |done|done].
      exists dn, dt. by rewrite lookup_insert_eq.
    + eapply evolves_insert; [done|done|set_solver].
Qed.

(** Insertion on a level: a fresh node added at an empty child of [current]
    ends up exactly at that place of the in-order sequence; the result is a
    red-black tree whose parent, child and root links are consistent; the root
    pointer is right; no other node and no other field is touched; no assertion
    fails and the loop ends.  On an empty level the node becomes the black root,
    below the node of the level above. *)
Theorem addonlevel_correct (h : store) (up node current order : Z) (c : colour) (s : tree)
    (k : list frame) (n : nat) :
  fresh_node h node ->
  (tree_rep h up (plug (slot order c current s k) Leaf) ->
   rb BLACK n (plug (slot order c current s k) Leaf) ->
   node ∉ inorder (plug (slot order c current s k) Leaf) ->
   exists h' t' n',
     dns_rbt_addonlevel h node current order (ptr (plug (slot order c current s k) Leaf))
       = Done (h', ptr t')
     /\ tree_rep h' up t' /\ rb BLACK n' t'
     /\ inorder t' = before (slot order c current s k) ++ node :: after (slot order c current s k)
     /\ evolves (inorder t') h h')
  /\ (current <> 0 ->
      exists h', dns_rbt_addonlevel h node current order 0 = Done (h', node)
        /\ tree_rep h' current (Node BLACK Leaf node Leaf) /\ evolves [node] h h').
Proof. apply addonlevel_spec. Qed.

(** ** A level of three names below the node 5, and a fresh node *)

Definition three : tree := Node BLACK (Node RED Leaf 10 Leaf) 20 (Node RED Leaf 30 Leaf).
Definition sample_info (d : Z) : rbtinfo := mkInfo [1; 97 + d] [0] 2 1 0 d 0 0 false 0.
Definition sample_level : store :=
  <[10 := mkNode 20 0 0 RED false 0 (sample_info 1)]> (<[20 := mkNode 5 10 30 BLACK true 7 (sample_info 2)]>
  (<[30 := mkNode 20 0 0 RED false 0 (sample_info 3)]> (<[40 := mkNode 0 0 0 BLACK false 0 (sample_info 4)]> ∅))).

Lemma three_rep : tree_rep sample_level 5 three.
Proof.
  split; [|by apply (bool_decide_unpack _); vm_compute].
  cbn. split_and!; try done; by eexists _, _.
Qed.

Lemma three_rb : rb BLACK 1 three.
Proof. repeat econstructor. Qed.

Lemma addonlevel_correct_witness :
  exists h' t' n',
    dns_rbt_addonlevel sample_level 40 30 1 20 = Done (h', ptr t')
    /\ tree_rep h' 5 t' /\ rb BLACK n' t' /\ inorder t' = [10; 20; 30; 40]
    /\ evolves (inorder t') sample_level h'.
Proof.
  apply (addonlevel_correct sample_level 5 40 30 1 RED Leaf [Frame R BLACK 20 (Node RED Leaf 10 Leaf)] 1).
  - split; [done|]. by eexists _, _, _.
  - exact three_rep.
  - exact three_rb.
  - by apply (bool_decide_unpack _); vm_compute.
Defined.
