(* ===== verification/RbtDelete.v ===== *)
(** * One level of the red-black tree: deletion ([lib/dns/rbt.c])

    [dns_rbt_deletefromlevel] on the trees of [RbtTheory.v]: the node to be
    deleted changes places with its in-order successor when it has two children,
    is unlinked, and the colours are repaired on the way to the root. *)

From S2P Require Import Prelude Rbt RbtTheory.

(** ** Deletion: repairing the colours *)

Section Delete.
Context (h0 : store) (I : list Z) (up : Z).
Abbreviation good := (good h0 I up).

(** The subtree [t] at the position [k] is one black node short: either it has
    a black root, and the loop goes on, or it has a red one, and making it
    black pays for the missing node. *)
Inductive short : list frame -> tree -> Prop :=
| short_whole m t : rb BLACK m t -> short [] t
| short_black m k t : rb BLACK m t -> fits BLACK (S m) k -> short k t
| short_red m k l x r :
    rb BLACK (S m) (Node BLACK l x r) -> fits BLACK (S m) k -> short k (Node RED l x r).

Definition work (k : list frame) (t : tree) : Z :=
  match root_color t with BLACK => Zlen k | RED => 0 end.

Definition del_inv (n : Z) (s : store * Z * Z * Z) : Prop :=
  let '(h, child, parent, root) := s in
  exists k t, good h (plug k t) /\ plug k t <> Leaf
    /\ child = ptr t /\ root = ptr (plug k t)
    /\ parent = up_of k up /\ short k t /\ n = work k t.

Definition del_post (r : store * Z * Z) : Prop :=
  let '(h, child, root) := r in
  exists k t, good h (plug k t) /\ plug k t <> Leaf /\ child = ptr t /\ root = ptr (plug k t)
    /\ ((k = [] /\ exists m, rb BLACK m t)
        \/ exists m l x r, t = Node RED l x r /\ rb BLACK (S m) (Node BLACK l x r)
             /\ fits BLACK (S m) k).

Lemma fits_weaken n k : fits RED n k -> fits BLACK n k.
Proof. inversion 1; subst. by econstructor. Qed.

(** What the loop knows of the sibling, black by now. *)
Inductive sibling_black (m : nat) (pc : colour) (k : list frame) (s : tree) : Prop :=
| sibling_black_intro c1 c2 sl y sr :
    s = Node BLACK sl y sr -> rb c1 m sl -> rb c2 m sr ->
    (pc = RED /\ fits RED (S m) k \/ pc = BLACK /\ fits BLACK (S (S m)) k) ->
    sibling_black m pc k s.

(** Both nephews are black: the sibling turns red and the parent is short. *)
Lemma nephews_black d m pc k p sl y sr t :
  rb BLACK m t -> rb BLACK m sl -> rb BLACK m sr ->
  (pc = RED /\ fits RED (S m) k \/ pc = BLACK /\ fits BLACK (S (S m)) k) ->
  short k (fill (Frame d pc p (Node RED sl y sr)) t)
  /\ work k (fill (Frame d pc p (Node RED sl y sr)) t) = match pc with BLACK => Zlen k | RED => 0 end.
Proof.
  intros Ht Hl Hr Hpc. assert (rb RED m (Node RED sl y sr)) by (by constructor).
  destruct Hpc as [[-> Hk]|[-> Hk]]; (split; [|by destruct d]).
  - destruct d; eapply (short_red m); try (by apply fits_weaken); by econstructor.
  - destruct d; eapply (short_black (S m)); try done; by econstructor.
Qed.

(** The far nephew is red: one rotation ends the repair. *)
Lemma far_red m pc k a b c1 c2 c3 c4 :
  (pc = RED /\ fits RED (S m) k \/ pc = BLACK /\ fits BLACK (S (S m)) k) ->
  forall p w q u1 u2,
  rb c1 m a -> rb c2 m b -> rb c3 m u1 -> rb c4 m u2 ->
  exists M, rb BLACK M (plug k (Node pc (Node BLACK a p b) w (Node BLACK u1 q u2))).
Proof.
  intros Hpc p w q u1 u2 H1 H2 H3 H4.
  assert (Hl : rb BLACK (S m) (Node BLACK a p b)) by (by econstructor).
  assert (Hr : rb BLACK (S m) (Node BLACK u1 q u2)) by (by econstructor).
  destruct Hpc as [[-> Hk]|[-> Hk]]; eapply fits_plug; try eassumption; by econstructor.
Qed.

(** After a red sibling has been rotated away the sibling is black. *)
Lemma sibling_left h root k pc p s t m :
  good h (plug (Frame L pc p s :: k) t) -> root = ptr (plug (Frame L pc p s :: k) t) ->
  rb BLACK m t -> fits BLACK (S m) (Frame L pc p s :: k) ->
  exists (sred : bool) h1 root1 pc1 s1 k1,
    IS_RED h (ptr s) = Done sred
    /\ (if sred then
         let* h := MAKE_BLACK h (ptr s) in
         let* h := MAKE_RED h p in
         let* (h, root) := rotate_left h root p in
         let* sibling := RIGHT h p in
         Done (h, root, sibling)
       else Done (h, root, ptr s)) = Done (h1, root1, ptr s1)
    /\ good h1 (plug (Frame L pc1 p s1 :: k1) t)
    /\ root1 = ptr (plug (Frame L pc1 p s1 :: k1) t)
    /\ sibling_black m pc1 k1 s1 /\ (pc1 = BLACK -> k1 = k).
Proof.
  intros G Hroot Ht Hk.
  assert (Gs : good h (plug (Frame R pc p t :: k) s)) by exact G.
  exists (bool_decide (root_color s = RED)). rewrite (proj1 (good_shade _ _ _ _ _ _ Gs)).
  case_bool_decide as Hred.
  - inversion Hk as [|? ? ? ? ? Hs Hk'|? ? cs ? ? ? ? Hs Hk']; subst.
    { rewrite (rb_color _ _ _ Hs) in Hred. done. }
    rewrite (rb_color _ _ _ Hs) in Hred. subst cs.
    inversion Hs as [|? sl y sr Hsl Hsr|]; subst. cbn [ptr].
    destruct (make_black h0 I up h _ _ _ _ _ Gs) as (h1 & -> & G1). cbn [obind].
    assert (G1' : good h1 (plug k (Node BLACK t p (Node BLACK sl y sr)))) by exact G1.
    destruct (make_red h0 I up h1 _ _ _ _ _ G1') as (h2 & -> & G2). cbn [obind].
    match goal with |- context [rotate_left h2 ?rt p] =>
      destruct (turn_left h0 I up h2 rt k _ _ _ _ _ _ _ G2) as (h3 & root3 & -> & G3 & ->) end.
    { cbn [plug fill]. by apply ptr_plug_same. }
    cbn [obind].
    assert (G4 : good h3 (plug (Frame L BLACK y sr :: k) (Node RED t p sl))) by exact G3.
    destruct (good_read _ _ _ _ _ _ _ _ _ G4) as (_ & _ & -> & _). cbn [obind].
    inversion Hsl as [| |c1 c2 ? sll z slr]; subst.
    eexists _, _, RED, _, (Frame L BLACK y sr :: k). split_and!; [done|done|exact G3|done| |done].
    econstructor; [done|eassumption|eassumption|]. left. split; [done|]. by econstructor.
  - eexists _, _, pc, s, k. split_and!; [done|done|exact G|done| |done].
    inversion Hk as [|? ? ? ? ? Hs Hk'|? ? cs ? ? ? ? Hs Hk']; subst.
    + inversion Hs; subst. econstructor; eauto.
    + assert (cs = BLACK) as -> by (rewrite (rb_color _ _ _ Hs) in Hred; by destruct cs).
      inversion Hs; subst. econstructor; eauto.
Qed.

Lemma sibling_right h root k pc p s t m :
  good h (plug (Frame R pc p s :: k) t) -> root = ptr (plug (Frame R pc p s :: k) t) ->
  rb BLACK m t -> fits BLACK (S m) (Frame R pc p s :: k) ->
  exists (sred : bool) h1 root1 pc1 s1 k1,
    IS_RED h (ptr s) = Done sred
    /\ (if sred then
         let* h := MAKE_BLACK h (ptr s) in
         let* h := MAKE_RED h p in
         let* (h, root) := rotate_right h root p in
         let* sibling := LEFT h p in
         Done (h, root, sibling)
       else Done (h, root, ptr s)) = Done (h1, root1, ptr s1)
    /\ good h1 (plug (Frame R pc1 p s1 :: k1) t)
    /\ root1 = ptr (plug (Frame R pc1 p s1 :: k1) t)
    /\ sibling_black m pc1 k1 s1 /\ (pc1 = BLACK -> k1 = k).
Proof.
  intros G Hroot Ht Hk.
  assert (Gs : good h (plug (Frame L pc p t :: k) s)) by exact G.
  exists (bool_decide (root_color s = RED)). rewrite (proj1 (good_shade _ _ _ _ _ _ Gs)).
  case_bool_decide as Hred.
  - inversion Hk as [|? ? ? ? ? Hs Hk'|? ? cs ? ? ? ? Hs Hk']; subst.
    { rewrite (rb_color _ _ _ Hs) in Hred. done. }
    rewrite (rb_color _ _ _ Hs) in Hred. subst cs.
    inversion Hs as [|? sl y sr Hsl Hsr|]; subst. cbn [ptr].
    destruct (make_black h0 I up h _ _ _ _ _ Gs) as (h1 & -> & G1). cbn [obind].
    assert (G1' : good h1 (plug k (Node BLACK (Node BLACK sl y sr) p t))) by exact G1.
    destruct (make_red h0 I up h1 _ _ _ _ _ G1') as (h2 & -> & G2). cbn [obind].
    match goal with |- context [rotate_right h2 ?rt p] =>
      destruct (turn_right h0 I up h2 rt k _ _ _ _ _ _ _ G2) as (h3 & root3 & -> & G3 & ->) end.
    { cbn [plug fill]. by apply ptr_plug_same. }
    cbn [obind].
    assert (G4 : good h3 (plug (Frame R BLACK y sl :: k) (Node RED sr p t))) by exact G3.
    destruct (good_read _ _ _ _ _ _ _ _ _ G4) as (_ & -> & _). cbn [obind].
    inversion Hsr as [| |c1 c2 ? sll z slr]; subst.
    eexists _, _, RED, _, (Frame R BLACK y sl :: k). split_and!; [done|done|exact G3|done| |done].
    econstructor; [done|eassumption|eassumption|]. left. split; [done|]. by econstructor.
  - eexists _, _, pc, s, k. split_and!; [done|done|exact G|done| |done].
    inversion Hk as [|? ? ? ? ? Hs Hk'|? ? cs ? ? ? ? Hs Hk']; subst.
    + inversion Hs; subst. econstructor; eauto.
    + assert (cs = BLACK) as -> by (rewrite (rb_color _ _ _ Hs) in Hred; by destruct cs).
      inversion Hs; subst. econstructor; eauto.
Qed.

(** The last rotation, when the far nephew [q] is red. *)
Lemma finish_left h root k pc p a w u1 q u2 t :
  good h (plug (Frame L pc p (Node BLACK a w (Node RED u1 q u2)) :: k) t) ->
  root = ptr (plug (Frame L pc p (Node BLACK a w (Node RED u1 q u2)) :: k) t) ->
  exists h' root',
    (let* pc := COLOR h p in
     let* h := set_color h w pc in
     let* h := MAKE_BLACK h p in
     let* sr := RIGHT h w in
     REQUIRE negb (sr =? 0) ;;
     let* h := MAKE_BLACK h sr in
     let* (h, root) := rotate_left h root p in
     Done (h, root, root)) = Done (h', root', root')
    /\ good h' (plug k (Node pc (Node BLACK t p a) w (Node BLACK u1 q u2)))
    /\ root' = ptr (plug k (Node pc (Node BLACK t p a) w (Node BLACK u1 q u2))).
Proof.
  intros G Hroot.
  assert (Gp : good h (plug k (Node pc t p (Node BLACK a w (Node RED u1 q u2))))) by exact G.
  destruct (good_read _ _ _ _ _ _ _ _ _ Gp) as (_ & _ & _ & -> & _). cbn [obind].
  destruct (good_color h0 I up h (Frame R pc p t :: k) BLACK a w (Node RED u1 q u2) pc G)
    as (h1 & -> & G1). cbn [obind].
  assert (G1' : good h1 (plug k (Node pc t p (Node pc a w (Node RED u1 q u2))))) by exact G1.
  destruct (make_black h0 I up h1 _ _ _ _ _ G1') as (h2 & -> & G2). cbn [obind].
  assert (G2w : good h2 (plug (Frame R BLACK p t :: k) (Node pc a w (Node RED u1 q u2)))) by exact G2.
  destruct (good_read _ _ _ _ _ _ _ _ _ G2w) as (_ & _ & -> & _). cbn [obind ptr].
  assert (G2q : good h2 (plug (Frame R pc w a :: Frame R BLACK p t :: k) (Node RED u1 q u2))) by exact G2.
  destruct (good_address _ _ _ _ _ _ _ _ _ G2q) as [Hq _]. rewrite require_true by lia. cbn [obind].
  destruct (make_black h0 I up h2 _ _ _ _ _ G2q) as (h3 & -> & G3). cbn [obind].
  assert (G3' : good h3 (plug k (Node BLACK t p (Node pc a w (Node BLACK u1 q u2))))) by exact G3.
  destruct (turn_left h0 I up h3 root k _ _ _ _ _ _ _ G3') as (h4 & root4 & -> & G4 & ->).
  { rewrite Hroot. cbn [plug fill]. by apply ptr_plug_same. }
  eexists _, _. split_and!; [done|done|done].
Qed.

Lemma repair_left_spec h root k pc p s t m :
  good h (plug (Frame L pc p s :: k) t) -> root = ptr (plug (Frame L pc p s :: k) t) ->
  rb BLACK m t -> fits BLACK (S m) (Frame L pc p s :: k) ->
  exists h' k' t', repair_left h p root = Done (h', ptr t', ptr (plug k' t'))
    /\ good h' (plug k' t') /\ t' <> Leaf /\ short k' t'
    /\ 0 <= work k' t' < Zlen (Frame L pc p s :: k).
Proof.
  intros G Hroot Ht Hk. unfold repair_left. rewrite Zlen_cons. pose proof (Zlen_nonneg k) as Hk0.
  assert (Gp : good h (plug k (Node pc t p s))) by exact G.
  destruct (good_read _ _ _ _ _ _ _ _ _ Gp) as (_ & _ & -> & _). cbn [obind].
  destruct (sibling_left h root k pc p s t m G Hroot Ht Hk)
    as (sred & h1 & root1 & pc1 & s1 & k1 & -> & E1 & G1 & Hroot1 & Hsb & Hk1).
  cbn [obind]. rewrite E1. clear E1. cbn [obind].
  destruct Hsb as [c1 c2 sl y sr -> Hsl Hsr Hpc]. cbn [ptr].
  assert (Gy : good h1 (plug (Frame R pc1 p t :: k1) (Node BLACK sl y sr))) by exact G1.
  destruct (good_address _ _ _ _ _ _ _ _ _ Gy) as [Hy _]. rewrite require_true by lia. cbn [obind].
  destruct (good_read _ _ _ _ _ _ _ _ _ Gy) as (_ & -> & -> & _). cbn [obind].
  assert (Gsl : good h1 (plug (Frame L BLACK y sr :: Frame R pc1 p t :: k1) sl)) by exact G1.
  assert (Gsr : good h1 (plug (Frame R BLACK y sl :: Frame R pc1 p t :: k1) sr)) by exact G1.
  rewrite (proj2 (good_shade _ _ _ _ _ _ Gsl)), (proj2 (good_shade _ _ _ _ _ _ Gsr)). cbn [obind].
  rewrite (rb_color _ _ _ Hsl), (rb_color _ _ _ Hsr).
  destruct c2; cbn [bool_decide andb].
  - rewrite andb_false_r. cbn [obind]. inversion Hsr as [|? u1 q u2 Hu1 Hu2|]; subst.
    destruct (finish_left h1 _ k1 pc1 p sl y u1 q u2 t G1 eq_refl) as (h' & root' & E & G' & ->).
    destruct (far_red m pc1 k1 t sl BLACK c1 BLACK BLACK Hpc p y q u1 u2 Ht Hsl Hu1 Hu2) as (M & Hrb).
    exists h', [], (plug k1 (Node pc1 (Node BLACK t p sl) y (Node BLACK u1 q u2))).
    split_and!; [exact E|exact G'|by apply plug_not_leaf|by econstructor| |].
    + unfold work. rewrite (rb_color _ _ _ Hrb). done.
    + unfold work. rewrite (rb_color _ _ _ Hrb). change (Zlen []) with 0. lia.
  - destruct c1; cbn [bool_decide andb].
    + inversion Hsl as [|? a z b Ha Hb|]; subst. cbn [ptr obind].
      destruct (make_black h0 I up h1 _ _ _ _ _ Gsl) as (h2 & -> & G2). cbn [obind].
      assert (G2y : good h2 (plug (Frame R pc1 p t :: k1) (Node BLACK (Node BLACK a z b) y sr))) by exact G2.
      destruct (make_red h0 I up h2 _ _ _ _ _ G2y) as (h3 & -> & G3). cbn [obind].
      match goal with |- context [rotate_right h3 ?rt y] =>
        destruct (turn_right h0 I up h3 rt _ _ _ _ _ _ _ _ G3) as (h4 & root4 & -> & G4 & Hroot4) end.
      { cbn [plug fill]. by apply ptr_plug_same. }
      cbn [obind].
      assert (G4p : good h4 (plug k1 (Node pc1 t p (Node BLACK a z (Node RED b y sr))))) by exact G4.
      destruct (good_read _ _ _ _ _ _ _ _ _ G4p) as (_ & _ & -> & _). cbn [obind ptr].
      destruct (finish_left h4 root4 k1 pc1 p a z b y sr t G4 Hroot4) as (h' & root' & E & G' & ->).
      destruct (far_red m pc1 k1 t a BLACK BLACK BLACK BLACK Hpc p z y b sr Ht Ha Hb Hsr) as (M & Hrb).
      exists h', [], (plug k1 (Node pc1 (Node BLACK t p a) z (Node BLACK b y sr))).
      split_and!; [exact E|exact G'|by apply plug_not_leaf|by econstructor| |].
      * unfold work. rewrite (rb_color _ _ _ Hrb). done.
      * unfold work. rewrite (rb_color _ _ _ Hrb). change (Zlen []) with 0. lia.
    + destruct (make_red h0 I up h1 _ _ _ _ _ Gy) as (h2 & -> & G2). cbn [obind].
      destruct (nephews_black L m pc1 k1 p sl y sr t Ht Hsl Hsr Hpc) as [Hshort Hwork].
      exists h2, k1, (fill (Frame L pc1 p (Node RED sl y sr)) t).
      split_and!; [|exact G2|done|exact Hshort| |].
      * rewrite Hroot1. cbn [plug fill ptr]. do 2 f_equal. by apply ptr_plug_same.
      * rewrite Hwork. destruct pc1; [lia|]. apply Zlen_nonneg.
      * rewrite Hwork. destruct pc1; [lia|]. rewrite Hk1 by done. lia.
Qed.

Lemma finish_right h root k pc p a w u1 q u2 t :
  good h (plug (Frame R pc p (Node BLACK (Node RED u1 q u2) w a) :: k) t) ->
  root = ptr (plug (Frame R pc p (Node BLACK (Node RED u1 q u2) w a) :: k) t) ->
  exists h' root',
    (let* pc := COLOR h p in
     let* h := set_color h w pc in
     let* h := MAKE_BLACK h p in
     let* sl := LEFT h w in
     REQUIRE negb (sl =? 0) ;;
     let* h := MAKE_BLACK h sl in
     let* (h, root) := rotate_right h root p in
     Done (h, root, root)) = Done (h', root', root')
    /\ good h' (plug k (Node pc (Node BLACK u1 q u2) w (Node BLACK a p t)))
    /\ root' = ptr (plug k (Node pc (Node BLACK u1 q u2) w (Node BLACK a p t))).
Proof.
  intros G Hroot.
  assert (Gp : good h (plug k (Node pc (Node BLACK (Node RED u1 q u2) w a) p t))) by exact G.
  destruct (good_read _ _ _ _ _ _ _ _ _ Gp) as (_ & _ & _ & -> & _). cbn [obind].
  destruct (good_color h0 I up h (Frame L pc p t :: k) BLACK (Node RED u1 q u2) w a pc G)
    as (h1 & -> & G1). cbn [obind].
  assert (G1' : good h1 (plug k (Node pc (Node pc (Node RED u1 q u2) w a) p t))) by exact G1.
  destruct (make_black h0 I up h1 _ _ _ _ _ G1') as (h2 & -> & G2). cbn [obind].
  assert (G2w : good h2 (plug (Frame L BLACK p t :: k) (Node pc (Node RED u1 q u2) w a))) by exact G2.
  destruct (good_read _ _ _ _ _ _ _ _ _ G2w) as (_ & -> & _). cbn [obind ptr].
  assert (G2q : good h2 (plug (Frame L pc w a :: Frame L BLACK p t :: k) (Node RED u1 q u2))) by exact G2.
  destruct (good_address _ _ _ _ _ _ _ _ _ G2q) as [Hq _]. rewrite require_true by lia. cbn [obind].
  destruct (make_black h0 I up h2 _ _ _ _ _ G2q) as (h3 & -> & G3). cbn [obind].
  assert (G3' : good h3 (plug k (Node BLACK (Node pc (Node BLACK u1 q u2) w a) p t))) by exact G3.
  destruct (turn_right h0 I up h3 root k _ _ _ _ _ _ _ G3') as (h4 & root4 & -> & G4 & ->).
  { rewrite Hroot. cbn [plug fill]. by apply ptr_plug_same. }
  eexists _, _. split_and!; [done|done|done].
Qed.

Lemma repair_right_spec h root k pc p s t m :
  good h (plug (Frame R pc p s :: k) t) -> root = ptr (plug (Frame R pc p s :: k) t) ->
  rb BLACK m t -> fits BLACK (S m) (Frame R pc p s :: k) ->
  exists h' k' t', repair_right h p root = Done (h', ptr t', ptr (plug k' t'))
    /\ good h' (plug k' t') /\ t' <> Leaf /\ short k' t'
    /\ 0 <= work k' t' < Zlen (Frame R pc p s :: k).
Proof.
  intros G Hroot Ht Hk. unfold repair_right. rewrite Zlen_cons. pose proof (Zlen_nonneg k) as Hk0.
  assert (Gp : good h (plug k (Node pc s p t))) by exact G.
  destruct (good_read _ _ _ _ _ _ _ _ _ Gp) as (_ & -> & _). cbn [obind].
  destruct (sibling_right h root k pc p s t m G Hroot Ht Hk)
    as (sred & h1 & root1 & pc1 & s1 & k1 & -> & E1 & G1 & Hroot1 & Hsb & Hk1).
  cbn [obind]. rewrite E1. clear E1. cbn [obind].
  destruct Hsb as [c1 c2 sl y sr -> Hsl Hsr Hpc]. cbn [ptr].
  assert (Gy : good h1 (plug (Frame L pc1 p t :: k1) (Node BLACK sl y sr))) by exact G1.
  destruct (good_address _ _ _ _ _ _ _ _ _ Gy) as [Hy _]. rewrite require_true by lia. cbn [obind].
  destruct (good_read _ _ _ _ _ _ _ _ _ Gy) as (_ & -> & -> & _). cbn [obind].
  assert (Gsl : good h1 (plug (Frame L BLACK y sr :: Frame L pc1 p t :: k1) sl)) by exact G1.
  assert (Gsr : good h1 (plug (Frame R BLACK y sl :: Frame L pc1 p t :: k1) sr)) by exact G1.
  rewrite (proj2 (good_shade _ _ _ _ _ _ Gsl)), (proj2 (good_shade _ _ _ _ _ _ Gsr)). cbn [obind].
  rewrite (rb_color _ _ _ Hsl), (rb_color _ _ _ Hsr).
  destruct c1; cbn [bool_decide andb].
  - cbn [obind]. inversion Hsl as [|? u1 q u2 Hu1 Hu2|]; subst.
    destruct (finish_right h1 _ k1 pc1 p sr y u1 q u2 t G1 eq_refl) as (h' & root' & E & G' & ->).
    destruct (far_red m pc1 k1 u1 u2 BLACK BLACK c2 BLACK Hpc q y p sr t Hu1 Hu2 Hsr Ht) as (M & Hrb).
    exists h', [], (plug k1 (Node pc1 (Node BLACK u1 q u2) y (Node BLACK sr p t))).
    split_and!; [exact E|exact G'|by apply plug_not_leaf|by econstructor| |].
    + unfold work. rewrite (rb_color _ _ _ Hrb). done.
    + unfold work. rewrite (rb_color _ _ _ Hrb). change (Zlen []) with 0. lia.
  - destruct c2; cbn [bool_decide andb].
    + inversion Hsr as [|? a z b Ha Hb|]; subst. cbn [ptr obind].
      destruct (make_black h0 I up h1 _ _ _ _ _ Gsr) as (h2 & -> & G2). cbn [obind].
      assert (G2y : good h2 (plug (Frame L pc1 p t :: k1) (Node BLACK sl y (Node BLACK a z b)))) by exact G2.
      destruct (make_red h0 I up h2 _ _ _ _ _ G2y) as (h3 & -> & G3). cbn [obind].
      match goal with |- context [rotate_left h3 ?rt y] =>
        destruct (turn_left h0 I up h3 rt _ _ _ _ _ _ _ _ G3) as (h4 & root4 & -> & G4 & Hroot4) end.
      { cbn [plug fill]. by apply ptr_plug_same. }
      cbn [obind].
      assert (G4p : good h4 (plug k1 (Node pc1 (Node BLACK (Node RED sl y a) z b) p t))) by exact G4.
      destruct (good_read _ _ _ _ _ _ _ _ _ G4p) as (_ & -> & _). cbn [obind ptr].
      destruct (finish_right h4 root4 k1 pc1 p b z sl y a t G4 Hroot4) as (h' & root' & E & G' & ->).
      destruct (far_red m pc1 k1 sl a BLACK BLACK BLACK BLACK Hpc y z p b t Hsl Ha Hb Ht) as (M & Hrb).
      exists h', [], (plug k1 (Node pc1 (Node BLACK sl y a) z (Node BLACK b p t))).
      split_and!; [exact E|exact G'|by apply plug_not_leaf|by econstructor| |].
      * unfold work. rewrite (rb_color _ _ _ Hrb). done.
      * unfold work. rewrite (rb_color _ _ _ Hrb). change (Zlen []) with 0. lia.
    + destruct (make_red h0 I up h1 _ _ _ _ _ Gy) as (h2 & -> & G2). cbn [obind].
      destruct (nephews_black R m pc1 k1 p sl y sr t Ht Hsl Hsr Hpc) as [Hshort Hwork].
      exists h2, k1, (fill (Frame R pc1 p (Node RED sl y sr)) t).
      split_and!; [|exact G2|done|exact Hshort| |].
      * rewrite Hroot1. cbn [plug fill ptr]. do 2 f_equal. by apply ptr_plug_same.
      * rewrite Hwork. destruct pc1; [lia|]. apply Zlen_nonneg.
      * rewrite Hwork. destruct pc1; [lia|]. rewrite Hk1 by done. lia.
Qed.

Lemma delete_body_spec n s :
  del_inv n s ->
  match delete_body s with
  | Done (inl s') => exists n', del_inv n' s' /\ 0 <= n' < n
  | Done (inr r) => del_post r
  | _ => False
  end.
Proof.
  destruct s as [[[h child] parent] root].
  intros (k & t & G & Hne & Hchild & Hroot & Hparent & Hshort & ->). unfold delete_body.
  destruct (decide (root_color t = RED)) as [Hred|Hblack].
  { assert (Hpost : del_post (h, child, root)).
    { exists k, t. split_and!; try done. right.
      destruct Hshort as [m t Ht|m k t Ht Hk|m k l x r Hrb Hk].
      - rewrite (rb_color _ _ _ Ht) in Hred. done.
      - rewrite (rb_color _ _ _ Ht) in Hred. done.
      - by exists m, l, x, r. }
    destruct (child =? root); [done|].
    rewrite Hchild, (proj2 (good_shade _ _ _ _ _ _ G)), Hred. cbn. by rewrite <- Hchild. }
  assert (Hb : root_color t = BLACK) by (by destruct (root_color t)).
  destruct k as [|[d pc p s] k].
  { rewrite Hchild, Hroot. cbn [plug]. rewrite Z.eqb_refl. exists [], t. split_and!; try done.
    left. split; [done|]. destruct Hshort as [m t Ht|m k t Ht Hk|m k l x r Hrb Hk]; [by exists m..|].
    done. }
  assert (Hshort' : exists m, rb BLACK m t /\ fits BLACK (S m) (Frame d pc p s :: k)).
  { inversion Hshort; subst; [by exists m|done]. }
  destruct Hshort' as (m & Ht & Hk).
  assert (Hcr : child <> root).
  { rewrite Hchild, Hroot. destruct t as [|c l x r].
    - intros E. destruct (rep_ptr _ _ _ _ (t_rep _ _ _ (g_rep _ _ _ _ _ G)) Hne) as [H _].
      apply H. by rewrite <- E.
    - intros E. by apply (good_not_root _ _ _ _ _ _ _ _ _ _ G). }
  rewrite (proj2 (Z.eqb_neq child root)) by done.
  rewrite Hchild, (proj2 (good_shade _ _ _ _ _ _ G)), Hb. cbn [obind bool_decide negb].
  assert (Hroots : exists b : bool, (if ptr t =? 0 then Done false else IS_ROOT h (ptr t)) = Done b
                           /\ (ptr t =? 0) || negb b = true).
  { destruct t as [|c l x r]; [by exists false|]. exists false.
    destruct (good_address _ _ _ _ _ _ _ _ _ G) as [Hx _]. cbn [ptr].
    rewrite (proj2 (Z.eqb_neq x 0)) by done.
    destruct (good_read _ _ _ _ _ _ _ _ _ G) as (_ & _ & _ & _ & ->). done. }
  destruct Hroots as (b & -> & Hb'). cbn [obind]. rewrite require_true by done. cbn [obind].
  subst parent. cbn [up_of].
  assert (Hfinal : forall h' k' t', good h' (plug k' t') -> t' <> Leaf -> short k' t' ->
     0 <= work k' t' < work (Frame d pc p s :: k) t ->
     exists n', del_inv n' (h', ptr t', up_of k' up, ptr (plug k' t'))
        /\ 0 <= n' < work (Frame d pc p s :: k) t).
  { intros h' k' t' G' Ht' Hs' Hw. exists (work k' t'). split; [|done]. exists k', t'.
    split_and!; try done. by apply plug_not_leaf. }
  assert (Hwork : work (Frame d pc p s :: k) t = Zlen (Frame d pc p s :: k)).
  { unfold work. by rewrite Hb. }
  assert (Gp : good h (plug k (fill (Frame d pc p s) t))) by exact G.
  assert (Hparent : forall h' k' t', good h' (plug k' t') -> t' <> Leaf ->
                                     PARENT h' (ptr t') = Done (up_of k' up)).
  { intros h' k' [|c l x r] G' Hl; [done|]. apply (good_read _ _ _ _ _ _ _ _ _ G'). }
  destruct d; cbn [fill] in Gp; destruct (good_read _ _ _ _ _ _ _ _ _ Gp) as (_ & -> & _); cbn [obind].
  - rewrite Z.eqb_refl.
    destruct (repair_left_spec h root k pc p s t m G Hroot Ht Hk) as (h' & k' & t' & -> & G' & Hl & Hs' & Hw).
    cbn [obind]. rewrite (Hparent _ _ _ G' Hl). cbn [obind]. apply Hfinal; [done..|]. by rewrite Hwork.
  - assert (Hsne : s <> Leaf) by (inversion Hk; subst; intros ->; by inversion H3).
    assert (Hst : ptr s <> ptr t).
    { destruct t as [|c l x r]; [|by apply (good_sibling _ _ _ _ _ _ _ _ _ _ _ _ _ G)].
      destruct s as [|cs sl y sr]; [done|].
      assert (Gs : good h (plug (Frame L pc p Leaf :: k) (Node cs sl y sr))) by exact G.
      by destruct (good_address _ _ _ _ _ _ _ _ _ Gs). }
    rewrite (proj2 (Z.eqb_neq (ptr s) (ptr t))) by done.
    destruct (repair_right_spec h root k pc p s t m G Hroot Ht Hk) as (h' & k' & t' & -> & G' & Hl & Hs' & Hw).
    cbn [obind]. rewrite (Hparent _ _ _ G' Hl). cbn [obind]. apply Hfinal; [done..|]. by rewrite Hwork.
Qed.

Lemma fix_colors_spec h k t delete nd :
  good h (plug k t) -> plug k t <> Leaf -> delete <> 0 -> h !! delete = Some nd ->
  parent nd = up_of k up ->
  (color nd = RED -> exists m, rb BLACK m (plug k t)) ->
  (color nd = BLACK -> short k t) ->
  exists h' t' m, fix_colors h delete (ptr t) (ptr (plug k t)) = Done (h', ptr t')
    /\ good h' t' /\ rb BLACK m t'.
Proof.
  intros G Hne Hd Hnd Hpar Hred Hblack. unfold fix_colors.
  unfold IS_BLACK at 1. rewrite (proj2 (Z.eqb_neq delete 0)) by done.
  unfold COLOR, PARENT. rewrite (node_at_Done _ _ _ Hnd). cbn [obind].
  destruct (color nd) eqn:Hc; cbn [bool_decide negb].
  { destruct (Hred eq_refl) as (m & Hrb). exists h, (plug k t), m. done. }
  cbn [obind]. rewrite Hpar.
  destruct (loop_rule_bound delete_body del_inv del_post delete_body_spec
    (rbt_fuel h) (work k t) (h, ptr t, up_of k up, ptr (plug k t))) as ([[h' child] root] & -> & Hp).
  { exists k, t. split_and!; try done. by apply Hblack. }
  { pose proof (rep_size _ _ _ (g_rep _ _ _ _ _ G)). pose proof (length_plug k t).
    unfold work, Zlen, rbt_fuel. destruct (root_color t); lia. }
  cbn [obind]. destruct Hp as (k' & t' & G' & Hne' & -> & -> & Hend).
  rewrite (proj1 (good_shade _ _ _ _ _ _ G')). cbn [obind].
  destruct Hend as [[-> (m & Hrb)]|(m & l & x & r & -> & Hrb & Hk)].
  - rewrite (rb_color _ _ _ Hrb). cbn. exists h', t', m. done.
  - cbn [root_color bool_decide ptr].
    destruct (make_black h0 I up h' _ _ _ _ _ G') as (h2 & -> & G2). cbn [obind].
    destruct (fits_plug _ _ _ _ Hk Hrb) as (M & HM).
    exists h2, (plug k' (Node BLACK l x r)), M. split_and!; [|done|done].
    cbn. do 2 f_equal. by apply ptr_plug_same.
Qed.
End Delete.

(** ** The in-order successor *)

(** The successor is reached by going left. *)
Definition all_left (k : list frame) : Prop := Forall (fun '(Frame d _ _ _) => d = L) k.

Lemma plug_app k1 k2 t : plug (k1 ++ k2) t = plug k2 (plug k1 t).
Proof. revert t. induction k1 as [|f k1 IH]; intros t; [done|]. apply IH. Qed.

Lemma leftmost_spec h par f r :
  rep h par f r -> r <> Leaf ->
  exists kr c y ry, r = plug kr (Node c Leaf y ry) /\ all_left kr
    /\ forall fuel, (length (inorder r) <= fuel)%nat -> loop fuel (leftmost_body h) (ptr r) = Done y.
Proof.
  revert par f. induction r as [|c l IHl x r _]; intros par f; [done|].
  intros (Hx & (dn & dt & Hn) & Hl & _) _. destruct l as [|cl ll z lr].
  - exists [], c, x, r. split_and!; [done|by constructor|]. intros [|fuel] Hf; [cbn in Hf; lia|].
    cbn [loop ptr]. unfold leftmost_body, LEFT. by rewrite (node_at_Done _ _ _ Hn).
  - destruct (IHl x false Hl ltac:(done)) as (kr & cy & y & ry & E & Hk & Hloop).
    exists (kr ++ [Frame L c x r]), cy, y, ry. split_and!; [|apply Forall_app; by repeat constructor|].
    + by rewrite plug_app, <- E.
    + intros [|fuel] Hf; [cbn in Hf; rewrite length_app in Hf; cbn in Hf; lia|].
      cbn [loop ptr]. unfold leftmost_body at 1, LEFT. rewrite (node_at_Done _ _ _ Hn). cbn [obind left ptr].
      destruct Hl as (Hz & _). rewrite (proj2 (Z.eqb_neq z 0)) by done. apply Hloop.
      change (inorder (Node c (Node cl ll z lr) x r)) with (inorder (Node cl ll z lr) ++ x :: inorder r) in Hf.
      rewrite length_app in Hf. cbn [length] in Hf. lia.
Qed.

(** ** A context below a node *)

(** As [rep_ctx], for frames below the node [par]. *)
Fixpoint rep_sub (h : store) (par : Z) (k : list frame) (hole : Z) : Prop :=
  match k with
  | [] => True
  | Frame d c x s :: k =>
      x <> 0
      /\ (exists dn dt,
            h !! x = Some (mkNode (up_of k par) (match d with L => hole | R => ptr s end)
                             (match d with L => ptr s | R => hole end) c false dn dt))
      /\ rep h x false s /\ rep_sub h par k x
  end.

Definition top (k : list frame) (hole : Z) : Z :=
  match last k with Some (Frame _ _ x _) => x | None => hole end.

Lemma top_cons d c x s k hole : top (Frame d c x s :: k) hole = top k x.
Proof. unfold top. rewrite last_cons. by destruct (last k) as [[]|]. Qed.

Lemma up_of_app k1 d c x s k2 up : up_of (k1 ++ Frame d c x s :: k2) up = up_of k1 x.
Proof. by destruct k1 as [|[]]. Qed.

Lemma at_root_app k1 f k2 : at_root (k1 ++ f :: k2) = false.
Proof. by destruct k1. Qed.

Lemma rep_ctx_app h up k1 d c x s k2 hole :
  rep_ctx h up (k1 ++ Frame d c x s :: k2) hole
  <-> rep_sub h x k1 hole /\ rep_ctx h up (Frame d c x s :: k2) (top k1 hole).
Proof.
  revert hole. induction k1 as [|[d' c' x' s'] k1 IH]; intros hole.
  - split; [by split|by intros [_ ?]].
  - cbn [app rep_ctx rep_sub]. rewrite top_cons, up_of_app, at_root_app. rewrite IH. cbn [rep_ctx]. tauto.
Qed.

Lemma around_app k1 k2 q : q ∈ around (k1 ++ k2) <-> q ∈ around k1 \/ q ∈ around k2.
Proof.
  induction k1 as [|[d c x s] k1 IH]; cbn [app].
  - split; [by right|]. intros [?%elem_of_nil|]; done.
  - rewrite !around_cons, IH. tauto.
Qed.

Lemma rep_sub_agree h h' par k hole :
  (forall q, q ∈ around k -> h' !! q = h !! q) -> rep_sub h par k hole -> rep_sub h' par k hole.
Proof.
  revert hole. induction k as [|[d c x s] k IH]; intros hole H; cbn; [done|].
  intros (Hx & (dn & dt & Hn) & Hs & Hk).
  split_and!; [done| |apply (rep_agree h); [|done]|apply IH; [|done]].
  - exists dn, dt. rewrite H; [done|]. apply around_cons; auto.
  - intros q Hq. apply H, around_cons; auto.
  - intros q Hq. apply H, around_cons; auto.
Qed.

(** A new occupant of the hole. *)
Lemma rep_sub_hole h par d c x s k hole hole' n n' :
  rep_sub h par (Frame d c x s :: k) hole -> NoDup (around (Frame d c x s :: k)) ->
  h !! x = Some n -> n' = match d with L => with_left hole' n | R => with_right hole' n end ->
  rep_sub (<[x := n']> h) par (Frame d c x s :: k) hole'.
Proof.
  intros (Hx & (dn & dt & Hn) & Hs & Hk) Hd Hn0 ->.
  destruct (around_nodup _ _ _ _ _ Hd) as (Hxs & Hxk & _). cbn. split_and!; [done| | |].
  - exists dn, dt. rewrite lookup_insert_eq. rewrite Hn0 in Hn. injection Hn as ->. by destruct d.
  - apply (rep_agree h); [|done]. intros q Hq. apply lookup_insert_ne. by intros ->.
  - apply (rep_sub_agree h); [|done]. intros q Hq. apply lookup_insert_ne. by intros ->.
Qed.

(** A new node above. *)
Lemma rep_sub_parent h par par' k hole n :
  rep_sub h par k hole -> NoDup (around k) -> k <> [] -> h !! top k hole = Some n ->
  rep_sub (<[top k hole := with_parent par' n]> h) par' k hole.
Proof.
  revert hole. induction k as [|[d c x s] k IH]; intros hole; [done|].
  intros (Hx & (dn & dt & Hn) & Hs & Hk) Hd _. rewrite top_cons. intros Hn0.
  destruct (around_nodup _ _ _ _ _ Hd) as (Hxs & Hxk & Hdk & Hsk & _).
  destruct k as [|f k].
  - unfold top in *. cbn in *. split_and!; [done| | |done].
    + exists dn, dt. rewrite lookup_insert_eq. rewrite Hn0 in Hn. by injection Hn as ->.
    + apply (rep_agree h); [|done]. intros q Hq. apply lookup_insert_ne. by intros ->.
  - assert (Htop : top (f :: k) x ∈ around (f :: k)).
    { clear. revert f x. induction k as [|g k IH]; intros [d c z s] x; rewrite top_cons.
      - apply around_cons. by left.
      - apply around_cons. right; right. apply IH. }
    split_and!; [done| | |].
    + exists dn, dt. rewrite lookup_insert_ne by (intros E; apply Hxk; by rewrite <- E). destruct f. exact Hn.
    + apply (rep_agree h); [|done]. intros q Hq. apply lookup_insert_ne. intros E. apply (Hsk _ Hq). by rewrite <- E.
    + by apply IH.
Qed.

(** ** The node and its successor change places *)

Lemma with_root_same b n : is_root n = b -> with_root b n = n.
Proof. by destruct n; cbn; intros ->. Qed.

Lemma swap_link_rep h up k root x y nx ny :
  rep_ctx h up k x -> NoDup (around k) ->
  h !! x = Some nx -> h !! y = Some ny ->
  parent nx = up_of k up -> is_root nx = at_root k -> is_root ny = false ->
  x <> 0 -> x <> y -> x ∉ around k -> y ∉ around k ->
  exists h', swap_link h root x y = Done (h', if at_root k then y else root)
    /\ rep_ctx h' up k y
    /\ h' !! x = Some (with_root false nx)
    /\ h' !! y = Some (with_root (at_root k) ny)
    /\ (forall q, q <> x -> q <> y -> q ∉ around k -> h' !! q = h !! q)
    /\ payload <$> h' = payload <$> h.
Proof.
  intros Hk Hnd Hn Hc Hpar Hroot Hcroot Hx0 Hne Hnk Hck. unfold swap_link.
  pose proof (sibling_ptr k x Hx0 Hnk) as Hsib.
  destruct k as [|[d c p s] k]; cbn [at_root up_of] in *.
  - run_store. rewrite Hroot. run_store.
    eexists. split; [done|]. split_and!; [done|look|look| |by payload_same].
    intros q H1 H2 _. by rewrite !lookup_insert_ne by done.
  - destruct Hk as (Hp0 & (dn & dt & Hp) & Hs & Hk).
    rewrite around_cons in Hnk, Hck.
    assert (Hpn : p <> x) by (intros ->; tauto). assert (Hpc : p <> y) by (intros ->; tauto).
    destruct (around_nodup _ _ _ _ _ Hnd) as (Hps & Hpk & _).
    specialize (Hsib _ _ _ _ _ eq_refl).
    run_store. rewrite Hroot, Hpar. run_store. rewrite !with_root_same by done.
    destruct d; cbn [left];
      [rewrite Z.eqb_refl|rewrite (proj2 (Z.eqb_neq (ptr s) x)) by done]; run_store.
    all: eexists; split; [done|]; split_and!; [|look|look| |by payload_same].
    all: try (intros q H1 H2 H3; rewrite around_cons in H3; rewrite lookup_insert_ne; [done|]; intros ->; tauto).
    + apply (rep_ctx_child h _ up L c p s k y dn dt); try done; [look|].
      intros q Hq. rewrite lookup_insert_ne; [done|]. intros ->; tauto.
    + apply (rep_ctx_child h _ up R c p s k y dn dt); try done; [look|].
      intros q Hq. rewrite lookup_insert_ne; [done|]. intros ->; tauto.
Qed.

(** The addresses at and around a node with two children and its successor. *)
Record apart (k : list frame) (l : tree) (x : Z) (kr : list frame) (y : Z) (ry : tree) : Prop := {
  ap_k : NoDup (around k);
  ap_kr : NoDup (around kr);
  ap_l : NoDup (inorder l);
  ap_x : x <> y /\ x ∉ around k /\ x ∉ inorder l /\ x ∉ around kr /\ x ∉ inorder ry;
  ap_y : y ∉ around k /\ y ∉ inorder l /\ y ∉ around kr /\ y ∉ inorder ry;
  ap_around : forall q, q ∈ around k -> q ∉ inorder l /\ q ∉ around kr /\ q ∉ inorder ry;
  ap_left : forall q, q ∈ inorder l -> q ∉ around kr /\ q ∉ inorder ry;
  ap_right : forall q, q ∈ around kr -> q ∉ inorder ry
}.

Lemma elem_of_plug k t q : q ∈ inorder (plug k t) <-> q ∈ around k \/ q ∈ inorder t.
Proof. rewrite inorder_plug. unfold around. rewrite !elem_of_app. tauto. Qed.

Lemma apart_of_nodup k c l x kr cy y ry :
  NoDup (inorder (plug k (Node c l x (plug kr (Node cy Leaf y ry))))) -> apart k l x kr y ry.
Proof.
  intros Hd. destruct (nodup_position _ _ Hd) as (Hd1 & Hdk & Hdx). fold (around k) in Hdk, Hdx.
  cbn [inorder] in Hd1, Hdx. apply NoDup_app in Hd1 as (Hl & Hlr & Hd1).
  apply NoDup_cons in Hd1 as (Hx & Hd1).
  destruct (nodup_position _ _ Hd1) as (Hd2 & Hdr & Hdy). fold (around kr) in Hdr, Hdy.
  cbn [inorder app] in Hd2, Hdy. apply NoDup_cons in Hd2 as (Hy & _).
  rewrite elem_of_plug in Hx. cbn [inorder app] in Hx. rewrite elem_of_cons in Hx.
  assert (Hk : forall q, q ∈ inorder l \/ q = x \/ q ∈ around kr \/ q = y \/ q ∈ inorder ry -> q ∉ around k).
  { intros q Hq. apply Hdx. rewrite elem_of_app, elem_of_cons, elem_of_plug. cbn [inorder app].
    rewrite elem_of_cons. tauto. }
  assert (Hl' : forall q, q ∈ inorder l -> q <> x /\ q <> y /\ q ∉ around kr /\ q ∉ inorder ry).
  { intros q Hq. specialize (Hlr q Hq). rewrite elem_of_cons, elem_of_plug in Hlr. cbn [inorder app] in Hlr.
    rewrite elem_of_cons in Hlr. tauto. }
  assert (Hr' : forall q, q = y \/ q ∈ inorder ry -> q ∉ around kr).
  { intros q Hq. apply Hdy. by rewrite elem_of_cons. }
  split; [done|done|done| | | | |].
  - split_and!; [tauto|apply Hk; tauto| |tauto|tauto]. intros Hq. by destruct (Hl' x Hq).
  - split_and!; [apply Hk; tauto| |apply Hr'; tauto|done]. intros Hq. destruct (Hl' y Hq). tauto.
  - intros q Hq. split_and!; intros Hq'; apply (Hk q); tauto.
  - intros q Hq. destruct (Hl' q Hq). tauto.
  - intros q Hq Hq'. apply (Hr' q); tauto.
Qed.

Lemma top_plug k c l y r : top k y = ptr (plug k (Node c l y r)).
Proof.
  change y with (ptr (Node c l y r)) at 1. generalize (Node c l y r) as t.
  induction k as [|[d fc x s] k IH]; intros t; [done|]. rewrite top_cons. cbn [plug].
  rewrite <- IH. by rewrite ptr_fill.
Qed.

Lemma top_in k y : k <> [] -> top k y ∈ around k.
Proof.
  revert y. induction k as [|[d c x s] k IH]; intros y; [done|]. intros _. rewrite top_cons.
  apply around_cons. destruct k as [|f k]; [by left|]. right; right. by apply IH.
Qed.

Lemma rep_plug_sub h x k t :
  rep h x false (plug k t) -> rep_sub h x k (ptr t) /\ rep h (up_of k x) false t.
Proof.
  revert t. induction k as [|[d fc z s] k IH]; intros t; [done|]. cbn [plug rep_sub up_of].
  intros [H1 H2]%IH. rewrite ptr_fill in H1. destruct d; cbn [fill rep] in H2; tauto.
Qed.

(** What the tree says about [x], its left subtree and the way to its successor. *)
Lemma rep_successor h par b c l x kr cy y ry :
  rep h par b (Node c l x (plug kr (Node cy Leaf y ry))) ->
  x <> 0 /\ (exists dn dt, h !! x = Some (mkNode par (ptr l) (top kr y) c b dn dt))
  /\ rep h x false l /\ rep_sub h x kr y /\ y <> 0
  /\ (exists dn dt, h !! y = Some (mkNode (up_of kr x) 0 (ptr ry) cy false dn dt))
  /\ rep h y false ry.
Proof.
  cbn [rep]. rewrite <- (top_plug kr cy Leaf y ry).
  intros (Hx & Hn & Hl & [Hk (Hy & Hny & _ & Hry)]%rep_plug_sub). by split_and!.
Qed.

Lemma rep_sub_read h par k y :
  rep_sub h par k y -> k <> [] -> exists n, h !! top k y = Some n.
Proof.
  revert y. induction k as [|[d c x s] k IH]; intros y; [done|].
  intros (_ & (dn & dt & Hn) & _ & Hk) _. rewrite top_cons.
  destruct k as [|f k]; [by eexists|]. by apply IH.
Qed.

(** [if (RIGHT(successor) != successor) PARENT(RIGHT(successor)) = successor;] *)
Lemma move_right h par par' k y :
  rep_sub h par k y -> NoDup (around k) -> y ∉ around k ->
  exists h', (if top k y =? y then Done h else set_parent h (top k y) par') = Done h'
    /\ rep_sub h' par' k y /\ (forall q, q ∉ around k -> h' !! q = h !! q)
    /\ payload <$> h' = payload <$> h.
Proof.
  intros Hk Hd Hy. destruct (decide (k = [])) as [->|Hne].
  - unfold top. cbn [last]. rewrite Z.eqb_refl. by exists h.
  - destruct (rep_sub_read _ _ _ _ Hk Hne) as (n & Hn). pose proof (top_in k y Hne) as Hin.
    rewrite (proj2 (Z.eqb_neq _ y)) by (intros E; rewrite E in Hin; done).
    run_store. eexists. split; [done|]. split_and!; [by apply (rep_sub_parent h par)| |by payload_same].
    intros q Hq. rewrite lookup_insert_ne; [done|]. by intros <-.
Qed.

Lemma successor_in_place_rep h up k c l x kr cy y ry root :
  tree_rep h up (plug k (Node c l x (plug kr (Node cy Leaf y ry)))) -> l <> Leaf ->
  exists h', successor_in_place h root x y = Done (h', if at_root k then y else root)
    /\ rep_ctx h' up k y
    /\ (exists dn dt, h' !! y = Some (mkNode (up_of k up) (ptr l) (top kr y) c (at_root k) dn dt))
    /\ rep h' y false l /\ rep_sub h' y kr y
    /\ (exists n, h' !! x = Some n /\ is_root n = false) /\ rep h' y false ry
    /\ (forall q, q ∉ inorder (plug k (Node c l x (plug kr (Node cy Leaf y ry)))) -> h' !! q = h !! q)
    /\ payload <$> h' = payload <$> h.
Proof.
  intros [H Hd] Hl0. destruct (apart_of_nodup _ _ _ _ _ _ _ _ Hd) as [Hk1 Hkr1 Hl1 Hx1 Hy1 Ha Hb Hc].
  apply rep_plug in H as [Hk H]. cbn [ptr] in Hk.
  apply rep_successor in H as (Hx & (dnx & dtx & Hnx) & Hl & Hkr & Hy & (dny & dty & Hny) & Hry).
  destruct (swap_link_rep h up k root x y _ _ Hk Hk1 Hnx Hny) as (h1 & E1 & Hk' & Hx' & Hy' & Ho & Hp);
    try done; try tauto.
  unfold with_root in Hx', Hy'. cbn [parent left right color is_root down info] in Hx', Hy'.
  assert (Hxy : x <> y) by tauto. unfold successor_in_place. rewrite E1. cbn [obind].
  run_store. cbn [parent left right color]. rewrite !insert_insert_eq. run_store.
  match goal with |- context [<[y := ?n]> h1] => set (ny := n) end.
  assert (Eny : ny = mkNode (up_of k up) (ptr l) (top kr y) c (at_root k) dny dty) by done.
  clearbody ny. subst ny.
  assert (Hl2 : ptr l ∈ inorder l) by (by apply ptr_in).
  destruct (rep_ptr _ _ _ _ Hl Hl0) as (Hpl & nl & Hnl & _).
  assert (Hlx : ptr l <> x /\ ptr l <> y /\ ptr l ∉ around k).
  { split_and!; [intros E|intros E|intros E; (destruct (Ha _ E); tauto)]; try (rewrite E in Hl2; tauto). }
  destruct Hlx as (Hlx & Hly & Hlk).
  assert (Hnl1 : h1 !! ptr l = Some nl) by (by rewrite Ho).
  cbn [left]. rewrite (proj2 (Z.eqb_neq (ptr l) 0)) by done. run_store. 
  set (h2 := <[ptr l := _]> _). cbn [right].
  assert (Hrest : forall q, q <> x -> q <> y -> q <> ptr l -> q ∉ around k -> h2 !! q = h !! q).
  { intros q H1 H2 H3 H4. unfold h2. rewrite !lookup_insert_ne by done. by apply Ho. }
  assert (Hk2 : forall q, q ∈ around k -> h2 !! q = h1 !! q).
  { intros q Hq. unfold h2. rewrite !lookup_insert_ne; [done|..]; intros <-; tauto. }
  destruct (move_right h2 x y kr y) as (h3 & E3 & Hkr3 & Ho3 & Hp3); try tauto.
  { apply (rep_sub_agree h); [|done]. intros q Hq. apply Hrest; intros E; try (rewrite E in Hq; tauto).
    - rewrite E in Hq. destruct (Hb _ Hl2); tauto.
    - (destruct (Ha _ E); tauto). }
  unfold set_parent, assign in E3. rewrite E3. cbn [obind].
  exists h3. split_and!; [done| | | |done| | | |].
  - apply (rep_ctx_agree h1); [|done]. intros q Hq. rewrite Ho3 by (destruct (Ha q Hq); tauto). by apply Hk2.
  - eexists _, _. rewrite Ho3 by tauto. unfold h2. look.
  - apply (rep_move h _ x); [done|done| |].
    + intros n _ Hn. rewrite Ho3 by (destruct (Hb _ Hl2); tauto). unfold h2. rewrite lookup_insert_eq. congruence.
    + intros q Hq Hne. rewrite Ho3 by (destruct (Hb _ Hq); tauto). apply Hrest; try done; intros E;
        try (rewrite E in Hq; tauto). (destruct (Ha _ E); tauto).
  - eexists. split; [rewrite Ho3 by tauto; unfold h2; look|done].
  - apply (rep_agree h); [|done]. intros q Hq. rewrite Ho3 by (intros E; by apply (Hc _ E)).
    apply Hrest; intros E; try (rewrite E in Hq; tauto).
    + rewrite E in Hq. destruct (Hb _ Hl2); tauto.
    + (destruct (Ha _ E); tauto).
  - intros q Hq. rewrite elem_of_plug in Hq. cbn [inorder] in Hq.
    rewrite elem_of_app, elem_of_cons, elem_of_plug in Hq. cbn [inorder app] in Hq.
    rewrite elem_of_cons in Hq. rewrite Ho3 by tauto.
    apply Hrest; try tauto. intros ->; tauto.
  - rewrite Hp3. unfold h2. payload_same. done.
Qed.

(** [delete] is put into the successor's old place. *)
Lemma delete_in_place_rep h up k c l x kr y tmp dn dt n :
  rep_ctx h up k y -> rep h y false l -> rep_sub h y kr y ->
  h !! y = Some (mkNode (up_of k up) (ptr l) (top kr y) c (at_root k) dn dt) ->
  h !! x = Some n -> is_root n = false -> y <> 0 ->
  parent tmp = up_of kr x -> all_left kr -> NoDup (around k) -> NoDup (around kr) -> NoDup (inorder l) ->
  x <> y -> x ∉ around k -> x ∉ inorder l -> x ∉ around kr ->
  y ∉ around k -> y ∉ inorder l -> y ∉ around kr ->
  (forall q, q ∈ around kr -> q ∉ around k /\ q ∉ inorder l) ->
  exists h' n', delete_in_place h tmp x y = Done h'
    /\ rep_ctx h' up (kr ++ Frame R c y l :: k) x
    /\ h' !! x = Some n' /\ parent n' = up_of kr y /\ left n' = 0 /\ right n' = right tmp
    /\ color n' = color tmp /\ is_root n' = false
    /\ (forall q, q <> x -> q <> y -> q ∉ around kr -> h' !! q = h !! q)
    /\ payload <$> h' = payload <$> h.
Proof.
  intros Hk Hl Hkr Hy Hx Hroot Hy0 Htmp Hleft Hdk Hdkr Hdl Hxy Hxk Hxl Hxkr Hyk Hyl Hykr Hsep.
  unfold delete_in_place. run_store. rewrite Hroot, require_true by done. cbn [obind]. rewrite Htmp.
  destruct kr as [|[d cp p sp] kr]; cbn [up_of app].
  - rewrite Z.eqb_refl. run_store. rewrite !insert_insert_eq.
    eexists _, _. split; [done|]. split_and!; [|look|done..| |by payload_same].
    + apply (rep_ctx_child h _ up R c y l k x dn dt); try done; [look|].
      intros q Hq. rewrite !lookup_insert_ne; [done|..]; intros <-; tauto.
    + intros q H1 H2 _. by rewrite !lookup_insert_ne by done.
  - rewrite around_cons in Hxkr, Hykr.
    assert (Hpx : p <> x) by (intros ->; tauto). assert (Hpy : p <> y) by (intros ->; tauto).
    rewrite (proj2 (Z.eqb_neq p x)) by done. destruct Hkr as (Hp0 & (dnp & dtp & Hp) & Hsp & Hkr).
    run_store. rewrite !insert_insert_eq.
    eexists _, _. split; [done|]. split_and!; [|look|done..| |by payload_same].
    + apply Forall_cons in Hleft as [-> Hleft].
      pose proof (rep_sub_hole h y L cp p sp kr y x _ _ (conj Hp0 (conj (ex_intro _ dnp (ex_intro _ dtp Hp)) (conj Hsp Hkr)))
        Hdkr Hp eq_refl) as Hsub.
      apply (rep_ctx_app _ up (Frame L cp p sp :: kr)). split.
      * eapply rep_sub_agree; [|exact Hsub]. intros q Hq. rewrite lookup_insert_ne; [done|]. intros <-.
        rewrite around_cons in Hq. tauto.
      * rewrite top_cons in Hy |- *.
        apply (rep_ctx_child h _ up R c y l k _ dn dt); try done; [look|].
        intros q Hq. rewrite !lookup_insert_ne; [done|..]; intros <-; [|tauto].
        destruct (Hsep p); [apply around_cons|]; tauto.
    + intros q H1 H2 H3. rewrite around_cons in H3. rewrite !lookup_insert_ne; [done|..]; intros ->; tauto.
Qed.

Lemma swap_nodes_rep h up k c l x kr cy y ry root :
  tree_rep h up (plug k (Node c l x (plug kr (Node cy Leaf y ry)))) -> l <> Leaf -> all_left kr ->
  exists h' n, swap_nodes h root x y = Done (h', if at_root k then y else root)
    /\ rep_ctx h' up (kr ++ Frame R c y l :: k) x
    /\ h' !! x = Some n /\ parent n = up_of kr y /\ is_root n = false /\ color n = cy
    /\ rep h' y false ry
    /\ evolves (inorder (plug k (Node c l x (plug kr (Node cy Leaf y ry))))) h h'.
Proof.
  intros T Hl0 Hleft. unfold swap_nodes.
  destruct (apart_of_nodup _ _ _ _ _ _ _ _ (t_nodup _ _ _ T)) as [Hk1 Hkr1 Hl1 Hx1 Hy1 Ha Hb Hc].
  destruct (successor_in_place_rep h up k c l x kr cy y ry root T Hl0)
    as (h1 & E1 & Hk & (dn & dt & Hny) & Hl & Hkr & (n & Hn & Hr) & Hry & Ho & Hp).
  pose proof (t_rep _ _ _ T) as H. apply rep_plug in H as [_ H].
  apply rep_successor in H as (_ & _ & _ & _ & Hy0 & (dny & dty & Hy) & _).
  rewrite (node_at_Done _ _ _ Hy). cbn [obind]. rewrite E1. cbn [obind].
  destruct (delete_in_place_rep h1 up k c l x kr y (mkNode (up_of kr x) 0 (ptr ry) cy false dny dty) dn dt n)
    as (h2 & n2 & E2 & Hctx & Hn2 & Hpar & _ & _ & Hcol & Hr2 & Ho2 & Hp2); try done; try tauto.
  { intros q Hq. split; intros Hq'; [destruct (Ha q Hq')|destruct (Hb q Hq')]; tauto. }
  rewrite E2. cbn [obind]. exists h2, n2. split_and!; try done.
  - apply (rep_agree h1); [|done]. intros q Hq.
    apply Ho2; intros E; try (rewrite E in Hq; tauto). by apply (Hc q).
  - split; [|congruence]. intros q Hq. pose proof Hq as Hq'. rewrite elem_of_plug in Hq'. cbn [inorder] in Hq'.
    rewrite elem_of_app, elem_of_cons, elem_of_plug in Hq'. cbn [inorder app] in Hq'.
    rewrite elem_of_cons in Hq'. rewrite Ho2 by tauto. by apply Ho.
Qed.

(** ** The node is unlinked *)

Lemma unlink_node_rep h up k x par t root nx :
  rep_ctx h up k x -> NoDup (around k) -> h !! x = Some nx ->
  parent nx = up_of k up -> is_root nx = at_root k -> x <> 0 -> x ∉ around k -> x ∉ inorder t ->
  rep h par false t -> NoDup (inorder t) -> (forall q, q ∈ inorder t -> q ∉ around k) ->
  (k = [] -> t <> Leaf) ->
  exists h', unlink_node h x (ptr t) root = Done (h', if at_root k then ptr t else root)
    /\ rep_ctx h' up k (ptr t) /\ rep h' (up_of k up) (at_root k) t
    /\ h' !! x = Some nx
    /\ (forall q, q ∉ around k -> q ∉ inorder t -> h' !! q = h !! q)
    /\ payload <$> h' = payload <$> h.
Proof.
  intros Hk Hdk Hx Hpar Hroot Hx0 Hxk Hxt Ht Hdt Hsep Hne. unfold unlink_node.
  pose proof (sibling_ptr k x Hx0 Hxk) as Hsib.
  destruct k as [|[d c p s] k]; cbn [at_root up_of] in *.
  - destruct t as [|ct lt z rt]; [by destruct Hne|]. cbn [ptr inorder] in *.
    destruct Ht as (Hz & (dn & dt & Hnz) & Hlt & Hrt).
    apply NoDup_app in Hdt as (_ & Hd1 & Hd2%NoDup_cons).
    rewrite elem_of_app, elem_of_cons in Hxt. assert (Hxz : x <> z) by tauto.
    run_store. rewrite Hroot, Hpar. cbn [negb]. run_store. rewrite insert_insert_eq.
    eexists. split; [done|]. split_and!; [done| |look| |by payload_same].
    + cbn [rep]. split_and!; [done|eexists _, _; look| |]; (apply (rep_agree h); [|done]);
        intros q Hq; apply lookup_insert_ne; intros <-.
      * apply (Hd1 z Hq). by left.
      * by apply Hd2.
    + intros q _ Hq. apply lookup_insert_ne. intros <-. apply Hq. rewrite elem_of_app, elem_of_cons. tauto.
  - destruct Hk as (Hp0 & (dn & dt & Hp) & Hs & Hk). rewrite around_cons in Hxk.
    assert (Hpx : p <> x) by (intros ->; tauto).
    destruct (around_nodup _ _ _ _ _ Hdk) as (Hps & Hpk & _ & Hsk & _).
    assert (Hsep' : forall q, q ∈ inorder t -> q <> p /\ q ∉ inorder s /\ q ∉ around k).
    { intros q Hq. specialize (Hsep q Hq). rewrite around_cons in Hsep. tauto. }
    specialize (Hsib _ _ _ _ _ eq_refl).
    run_store. rewrite Hroot, Hpar. cbn [negb]. run_store.
    set (n1 := mkNode (up_of k up) (match d with L => ptr t | R => ptr s end)
                      (match d with L => ptr s | R => ptr t end) c (at_root k) dn dt).
    match goal with |- context [if ?b =? x then ?e1 else ?e2] =>
      replace (if b =? x then e1 else e2) with (Done (<[p := n1]> h)) end.
    2:{ destruct d; cbn [left]; [by rewrite Z.eqb_refl|]. by rewrite (proj2 (Z.eqb_neq (ptr s) x)). }
    cbn [obind].
    destruct (move_subtree (<[p := n1]> h) t p) as (h2 & E2 & Ho2 & Ht2 & Hp2).
    { intros Hl. destruct (rep_ptr _ _ _ _ Ht Hl) as (Hz & n & Hn & _). split; [done|]. exists n.
      destruct (Hsep' (ptr t)); [by apply ptr_in|]. look. }
    unfold set_parent, assign in E2. rewrite E2. cbn [obind].
    assert (Hnt : forall q, q ∉ inorder t -> h2 !! q = <[p := n1]> h !! q).
    { intros q Hq. apply Ho2. destruct t; [by right|]. left. intros ->. apply Hq. by apply ptr_in. }
    assert (Hpt : p ∉ inorder t) by (intros Hq; by destruct (Hsep' p Hq)).
    exists h2. split; [done|]. split_and!.
    + apply (rep_ctx_child h _ up d c p s k _ dn dt); try done; [rewrite Hnt by done; look|].
      intros q Hq. rewrite Hnt by (intros Hq'; destruct (Hsep' q Hq'); tauto).
      apply lookup_insert_ne. intros <-. tauto.
    + apply (rep_move h _ par); [done|done| |].
      * intros n Hl Hn. apply Ht2; [done|]. destruct (Hsep' (ptr t)); [by apply ptr_in|]. look.
      * intros q Hq Hqt. destruct (Hsep' q Hq). rewrite Ho2 by auto. by rewrite lookup_insert_ne.
    + rewrite Hnt by done. look.
    + intros q Hq Hqt. rewrite Hnt by done. apply lookup_insert_ne. intros <-. apply Hq, around_cons. auto.
    + rewrite Hp2. by payload_same.
Qed.

Lemma evolves_mono D D' h h' : (forall q, q ∈ D -> q ∈ D') -> evolves D h h' -> evolves D' h h'.
Proof. intros Hs [Ho Hp]. split; [|done]. intros q Hq. apply Ho. intros ?. by apply Hq, Hs. Qed.

(** A node with at most one child [t] has left a red-black tree: what remains is
    one, or lacks a black node at [t]. *)
Lemma remove_colors c m k l x r t :
  fits c m k -> rb c m (Node c l x r) -> (l = Leaf /\ t = r) \/ (r = Leaf /\ t = l) ->
  (c = RED -> exists n, rb BLACK n (plug k t)) /\ (c = BLACK -> short k t).
Proof.
  intros Hk Hrb Ht. split; intros ->.
  - inversion Hrb as [|? ? ? ? Hl Hr|]; subst. apply (fits_plug BLACK m); [by apply fits_weaken|].
    by destruct Ht as [[-> ->]|[-> ->]].
  - inversion Hrb as [| |c1 c2 m' ? ? ? Hl Hr]; subst.
    assert (exists c', rb c' 0 t /\ m' = 0%nat) as (c' & Ht0 & ->).
    { destruct Ht as [[-> ->]|[-> ->]]; [inversion Hl|inversion Hr]; subst; eauto. }
    inversion Ht0 as [|n ? z ? H1 H2|]; subst.
    + by apply (short_black 0).
    + apply (short_red 0); [by econstructor|done].
Qed.

(** The end of the deletion, from the removal of the links to the node. *)
Lemma remove_node h up k x par t nx c root :
  rep_ctx h up k x -> NoDup (around k) -> h !! x = Some nx ->
  parent nx = up_of k up -> is_root nx = at_root k -> color nx = c ->
  x <> 0 -> x ∉ around k -> x ∉ inorder t ->
  rep h par false t -> NoDup (inorder (plug k t)) -> plug k t <> Leaf ->
  (at_root k = false -> root = ptr (plug k t)) ->
  (c = RED -> exists n, rb BLACK n (plug k t)) -> (c = BLACK -> short k t) ->
  exists h' t' m,
    (let* (h, root) := unlink_node h x (ptr t) root in fix_colors h x (ptr t) root) = Done (h', ptr t')
    /\ tree_rep h' up t' /\ rb BLACK m t' /\ inorder t' = inorder (plug k t)
    /\ evolves (inorder (plug k t)) h h'.
Proof.
  intros Hk Hdk Hx Hpar Hroot Hcol Hx0 Hxk Hxt Ht Hd Hne Hrt Hred Hblack.
  destruct (nodup_position _ _ Hd) as (Hdt & _ & Hsep). fold (around k) in Hsep.
  destruct (unlink_node_rep h up k x par t root nx) as (h1 & E1 & Hk1 & Ht1 & Hx1 & Ho1 & Hp1); try done.
  { by intros ->. }
  assert (E1' : unlink_node h x (ptr t) root = Done (h1, ptr (plug k t))).
  { rewrite E1. do 2 f_equal. destruct k as [|f k]; [done|]. by rewrite Hrt. }
  rewrite E1'. cbn [obind].
  assert (Ev : evolves (inorder (plug k t)) h h1).
  { split; [|done]. intros q Hq. rewrite elem_of_plug in Hq. apply Ho1; tauto. }
  destruct (fix_colors_spec h1 (inorder (plug k t)) up h1 k t x nx) as (h2 & t2 & m & E2 & G2 & Hm); try done.
  { split; [split; [by apply rep_plug|done]|done|done]. }
  { by rewrite Hcol. } { by rewrite Hcol. }
  exists h2, t2, m. split_and!; [done|apply G2|done|apply G2|]. etrans; [done|apply G2].
Qed.

Lemma fits_rename c m k1 d fc x y s k2 :
  fits c m (k1 ++ Frame d fc x s :: k2) -> fits c m (k1 ++ Frame d fc y s :: k2).
Proof.
  revert c m. induction k1 as [|[d1 c1 z u] k1 IH]; intros c m; cbn [app];
    inversion 1; subst; econstructor; eauto.
Qed.

(** The assertion at the start of the deletion. *)
Lemma linked_check h up k c l x r :
  tree_rep h up (plug k (Node c l x r)) ->
  (let* isr := IS_ROOT h x in
   if isr then Done (ptr (plug k (Node c l x r)) =? x)
   else
     let* pd := PARENT h x in
     let* l := LEFT h pd in
     let* r := RIGHT h pd in
     Done ((l =? x) || (r =? x))) = Done true.
Proof.
  intros T. destruct (read_node _ _ _ _ _ _ _ T) as (Hx & dn & dt & Hn).
  destruct T as [H _]. apply rep_plug in H as [Hk _]. run_store. cbn [is_root parent].
  destruct k as [|[d fc p s] k]; cbn [at_root up_of]; [by rewrite Z.eqb_refl|].
  destruct Hk as (_ & (dnp & dtp & Hp) & _). run_store. cbn [left right ptr] in *.
  destruct d; rewrite Z.eqb_refl; [done|]. by rewrite orb_true_r.
Qed.

(** The in-order sequence without the node. *)
Lemma inorder_remove k c l x r :
  NoDup (inorder (plug k (Node c l x r))) ->
  x ∉ before k ++ (inorder l ++ inorder r) ++ after k
  /\ NoDup (before k ++ (inorder l ++ inorder r) ++ after k).
Proof.
  rewrite inorder_plug. cbn [inorder]. intros Hd.
  assert (Hp : before k ++ (inorder l ++ x :: inorder r) ++ after k
               ≡ₚ x :: before k ++ (inorder l ++ inorder r) ++ after k).
  { rewrite <- (Permutation_middle (inorder l) (inorder r) x). cbn [app].
    by rewrite <- (Permutation_middle (before k)). }
  rewrite Hp in Hd. by apply NoDup_cons in Hd.
Qed.

(** The node has at most one child. *)
Lemma delete_one_child h up k c l x r t n :
  tree_rep h up (plug k (Node c l x r)) -> rb BLACK n (plug k (Node c l x r)) ->
  (l = Leaf /\ t = r) \/ (r = Leaf /\ t = l) -> plug k t <> Leaf ->
  exists h' t' m,
    (let* (h, root) := unlink_node h x (ptr t) (ptr (plug k (Node c l x r))) in
     fix_colors h x (ptr t) root) = Done (h', ptr t')
    /\ tree_rep h' up t' /\ rb BLACK m t'
    /\ inorder t' = before k ++ (inorder l ++ inorder r) ++ after k
    /\ evolves (inorder (plug k (Node c l x r))) h h'.
Proof.
  intros T Hrb Ht Hne. destruct (read_node _ _ _ _ _ _ _ T) as (Hx & dn & dt & Hn).
  destruct T as [H Hd]. apply rep_plug in H as [Hk (_ & _ & Hl & Hr)]. cbn [ptr] in Hk.
  destruct (nodup_position _ _ Hd) as (Hd1 & Hdk & Hsep). fold (around k) in Hdk, Hsep. cbn [inorder] in *.
  destruct (fits_of_rb _ _ _ Hrb) as (c' & m & Hc & Hfit).
  assert (c' = c) as -> by (by apply rb_color in Hc).
  destruct (remove_colors c m k l x r t Hfit Hc Ht) as [Hred Hblack].
  assert (Ht' : inorder t = inorder l ++ inorder r) by
    (destruct Ht as [[-> ->]|[-> ->]]; cbn; by rewrite ?app_nil_r).
  rewrite <- Permutation_middle, <- Ht' in Hd1. apply NoDup_cons in Hd1 as [Hxt Hdt].
  destruct (remove_node h up k x x t _ c (ptr (plug k (Node c l x r))) Hk Hdk Hn) as (h' & t' & m' & E & T' & Hm & Hin & Ev); try done.
  - apply Hsep. rewrite elem_of_app, elem_of_cons. auto.
  - by destruct Ht as [[-> ->]|[-> ->]].
  - destruct (inorder_remove _ _ _ _ _ Hd) as [_ Hd']. by rewrite inorder_plug, Ht'.
  - intros Hr0. rewrite (ptr_plug k (Node c l x r) t), Hr0. done.
  - exists h', t', m'. split_and!; [done|done|done|by rewrite Hin, inorder_plug, Ht'|].
    eapply evolves_mono; [|exact Ev]. intros q. rewrite !elem_of_plug, Ht'. cbn [inorder].
    rewrite !elem_of_app, elem_of_cons. tauto.
Qed.

(** The node has two children. *)
Lemma delete_two_children h up k c l x kr cy y ry n :
  tree_rep h up (plug k (Node c l x (plug kr (Node cy Leaf y ry)))) ->
  rb BLACK n (plug k (Node c l x (plug kr (Node cy Leaf y ry)))) -> l <> Leaf -> all_left kr ->
  exists h' t' m,
    (let* (h, root) := swap_nodes h (ptr (plug k (Node c l x (plug kr (Node cy Leaf y ry))))) x y in
     let* (h, root) := unlink_node h x (ptr ry) root in
     fix_colors h x (ptr ry) root) = Done (h', ptr t')
    /\ tree_rep h' up t' /\ rb BLACK m t'
    /\ inorder t' = before k ++ (inorder l ++ inorder (plug kr (Node cy Leaf y ry))) ++ after k
    /\ evolves (inorder (plug k (Node c l x (plug kr (Node cy Leaf y ry))))) h h'.
Proof.
  intros T Hrb Hl Hleft. set (root := ptr (plug k _)).
  destruct (swap_nodes_rep h up k c l x kr cy y ry root T Hl Hleft)
    as (h1 & nx & E1 & Hk1 & Hnx & Hpar & Hroot & Hcol & Hry & Ev1).
  destruct (inorder_remove _ _ _ _ _ (t_nodup _ _ _ T)) as [Hx Hd].
  set (K := kr ++ Frame R c y l :: k) in *.
  assert (HK : inorder (plug K ry)
               = before k ++ (inorder l ++ inorder (plug kr (Node cy Leaf y ry))) ++ after k).
  { unfold K. rewrite plug_app. cbn [plug fill]. rewrite inorder_plug. cbn [inorder]. do 2 f_equal.
    rewrite !inorder_plug. cbn [inorder app]. f_equal.
    assert (before kr = []) as ->.
    { clear -Hleft. induction Hleft as [|[d c x s] kr -> _ IH]; [done|]. exact IH. }
    done. }
  rewrite <- HK in Hx, Hd |- *.
  assert (HxK : x ∉ around K /\ x ∉ inorder ry) by (rewrite elem_of_plug in Hx; tauto).
  change (plug k (Node c l x (plug kr (Node cy Leaf y ry))))
    with (plug (Frame R c x l :: k) (plug kr (Node cy Leaf y ry))) in Hrb.
  rewrite <- plug_app in Hrb. destruct (fits_of_rb _ _ _ Hrb) as (c' & m & Hc & Hfit).
  assert (c' = cy) as -> by (by apply rb_color in Hc).
  apply (fits_rename _ _ _ _ _ _ y) in Hfit. fold K in Hfit.
  destruct (remove_colors cy m K Leaf y ry ry Hfit Hc) as [Hred Hblack]; [by left|].
  destruct (nodup_position _ _ Hd) as (_ & HdK & _). fold (around K) in HdK.
  rewrite E1. cbn [obind].
  destruct (remove_node h1 up K x y ry nx cy (if at_root k then y else root))
    as (h2 & t2 & m2 & E2 & T2 & Hrb2 & Hin2 & Ev2); try done; try tauto.
  - unfold K. by rewrite up_of_app.
  - unfold K. by rewrite at_root_app.
  - by destruct (read_node _ _ _ _ _ _ _ T).
  - unfold K. rewrite plug_app. apply (plug_not_leaf k). done.
  - intros _. unfold K. rewrite plug_app. cbn [plug fill].
    unfold root. rewrite (ptr_plug k (Node c l y (plug kr ry)) (Node c l x (plug kr (Node cy Leaf y ry)))).
    done.
  - exists h2, t2, m2. split_and!; [done|done|done|done|]. etrans; [exact Ev1|].
    eapply evolves_mono; [|exact Ev2]. intros q. rewrite HK, (elem_of_plug k). cbn [inorder].
    unfold around. rewrite !elem_of_app, elem_of_cons. tauto.
Qed.

Lemma deletefromlevel_spec (h : store) (up : Z) (k : list frame) (c : colour) (l : tree) (x : Z)
    (r : tree) (n : nat) :
  tree_rep h up (plug k (Node c l x r)) -> rb BLACK n (plug k (Node c l x r)) ->
  exists h' t' n',
    dns_rbt_deletefromlevel h x (ptr (plug k (Node c l x r))) = Done (h', ptr t')
    /\ tree_rep h' up t' /\ rb BLACK n' t'
    /\ inorder t' = before k ++ (inorder l ++ inorder r) ++ after k
    /\ evolves (inorder (plug k (Node c l x r))) h h'.
Proof.
  intros T Hrb. destruct (read_node _ _ _ _ _ _ _ T) as (Hx & dn & dt & Hn).
  pose proof (linked_check _ _ _ _ _ _ _ T) as Hlinked.
  pose proof (t_rep _ _ _ T) as H. apply rep_plug in H as [_ (_ & _ & Hl & Hr)].
  unfold dns_rbt_deletefromlevel. rewrite require_true by lia. cbn [obind].
  assert (Hread : IS_ROOT h x = Done (at_root k) /\ LEFT h x = Done (ptr l) /\ RIGHT h x = Done (ptr r))
    by (unfold IS_ROOT, LEFT, RIGHT; by rewrite (node_at_Done _ _ _ Hn)).
  destruct Hread as (Hisr & HL & HR). rewrite Hisr in Hlinked |- *. cbn [obind] in Hlinked |- *.
  rewrite Hlinked. cbn [obind require]. rewrite HL. cbn [obind]. rewrite HR. cbn [obind].
  destruct l as [|cl ll zl lr].
  { cbn [ptr andb Z.eqb]. destruct ((ptr r =? 0) && at_root k) eqn:E0.
    - apply andb_true_iff in E0 as [E0 Ek]. destruct k; [|done].
      assert (r = Leaf) as -> by (destruct r; [done|]; cbn in E0; destruct Hr; lia).
      exists h, Leaf, 0%nat. split_and!; [done|by split; [|constructor]|constructor|done|done].
    - apply (delete_one_child h up k c Leaf x r r n T Hrb); [by left|]. destruct k as [|f k]; [|by apply (plug_not_leaf k); destruct f as [[]]].
      intros E. cbn in E. subst r. done. }
  assert (Hz : (ptr (Node cl ll zl lr) =? 0) = false) by (destruct Hl; cbn; lia). rewrite Hz. cbn [andb].
  destruct (decide (r = Leaf)) as [->|Hr0].
  { apply (delete_one_child h up k c _ x Leaf _ n T Hrb); [by right|]. by apply plug_not_leaf. }
  destruct (rep_ptr _ _ _ _ Hr Hr0) as [Hrp _]. rewrite (proj2 (Z.eqb_neq (ptr r) 0)) by done.
  destruct (leftmost_spec _ _ _ _ Hr Hr0) as (kr & cy & y & ry & -> & Hleft & Hloop).
  rewrite Hloop.
  2:{ pose proof (rep_size _ _ _ T). pose proof (length_plug k (Node c (Node cl ll zl lr) x (plug kr (Node cy Leaf y ry)))) as Hlen.
      change (inorder (Node c (Node cl ll zl lr) x (plug kr (Node cy Leaf y ry))))
        with (inorder (Node cl ll zl lr) ++ x :: inorder (plug kr (Node cy Leaf y ry))) in Hlen.
      rewrite length_app in Hlen. cbn [length] in Hlen. unfold rbt_fuel. lia. }
  cbn [obind]. apply rep_plug_sub in Hr as [_ (Hy & (dny & dty & Hny) & _)].
  unfold RIGHT at 1. rewrite (node_at_Done _ _ _ Hny). cbn [obind right].
  destruct (delete_two_children h up k c _ x kr cy y ry n T Hrb ltac:(done) Hleft)
    as (h' & t' & m & E & Hrest).
  exists h', t', m. split; [|exact Hrest].
  destruct (swap_nodes h _ x y) as [[h1 root1]| | |]; [|done..]. exact E.
Qed.

(** C35. Deletion from a level: the in-order sequence loses exactly the deleted
    node; what remains is a red-black tree whose parent, child and root links are
    consistent, and the root pointer is right (NULL when the node was the last
    one); no node of another level and no other field of any node is touched; no
    assertion fails and the loops end. *)
Theorem deletefromlevel_correct (h : store) (up : Z) (k : list frame) (c : colour) (l : tree) (x : Z)
    (r : tree) (n : nat) :
  tree_rep h up (plug k (Node c l x r)) -> rb BLACK n (plug k (Node c l x r)) ->
  exists h' t' n',
    dns_rbt_deletefromlevel h x (ptr (plug k (Node c l x r))) = Done (h', ptr t')
    /\ tree_rep h' up t' /\ rb BLACK n' t'
    /\ inorder t' = before k ++ (inorder l ++ inorder r) ++ after k
    /\ evolves (inorder (plug k (Node c l x r))) h h'.
Proof. apply deletefromlevel_spec. Qed.

Lemma deletefromlevel_correct_witness :
  exists h' t' n',
    dns_rbt_deletefromlevel sample_level 20 20 = Done (h', ptr t')
    /\ tree_rep h' 5 t' /\ rb BLACK n' t' /\ inorder t' = [10; 30]
    /\ evolves [10; 20; 30] sample_level h'.
Proof.
  apply (deletefromlevel_correct sample_level 5 [] BLACK (Node RED Leaf 10 Leaf) 20 (Node RED Leaf 30 Leaf) 1).
  - exact three_rep.
  - exact three_rb.
Defined.
