(* ===== verification/RbtTree.v ===== *)
(** * The tree of trees of names ([lib/dns/rbt.c])

    The names of a zone or of the cache are kept in a tree of red-black trees:
    the nodes of a level have no label in common, and the names below a node are
    on the level its [down] pointer leads to, without the labels of the node.  A
    hash table over the full names of the nodes replaces the binary search on the
    levels.

    This file models the nodes and their names, the hash table, insertion
    ([dns_rbt_addnode], [dns_rbt_addname]), the search ([dns_rbt_findnode],
    [dns_rbt_findname]), deletion and the node chains that walk through the names
    in order.  The balancing on a level is that of [Rbt].

    The tree is the record [dns_rbt] with the store of its nodes; memory for nodes
    and hash tables comes from the arguments: an address for a node (0 when there
    is none), whether there is memory for a larger hash table. *)

From S2P Require Import Prelude Buffer Name Hash Rbt.

(** ** Nodes *)

Definition DNS_RBT_NSEC_NORMAL : Z := 0.
Definition DNS_RBT_NSEC_HAS_NSEC : Z := 1.

Definition DOWN (h : store) (p : Z) : outcome Z := let* n := node_at h p in Done (down n).

Definition with_down (v : Z) (n : rbtnode) : rbtnode :=
  mkNode (parent n) (left n) (right n) (color n) (is_root n) v (info n).
Definition with_info (f : rbtinfo -> rbtinfo) (n : rbtnode) : rbtnode :=
  mkNode (parent n) (left n) (right n) (color n) (is_root n) (down n) (f (info n)).

Definition set_data (d : Z) (i : rbtinfo) : rbtinfo :=
  mkInfo (name_data i) (name_offsets i) (namelen i) (offsetlen i) (attrs i) d (hashval i) (hashnext i)
    (find_callback i) (nsec i).
Definition set_hashval (v : Z) (i : rbtinfo) : rbtinfo :=
  mkInfo (name_data i) (name_offsets i) (namelen i) (offsetlen i) (attrs i) (data i) v (hashnext i)
    (find_callback i) (nsec i).
Definition set_hashnext (v : Z) (i : rbtinfo) : rbtinfo :=
  mkInfo (name_data i) (name_offsets i) (namelen i) (offsetlen i) (attrs i) (data i) (hashval i) v
    (find_callback i) (nsec i).
Definition set_nsec (v : Z) (i : rbtinfo) : rbtinfo :=
  mkInfo (name_data i) (name_offsets i) (namelen i) (offsetlen i) (attrs i) (data i) (hashval i) (hashnext i)
    (find_callback i) v.
(** [NAMELEN = length; OFFSETLEN = labels; ATTRS &= ~DNS_NAMEATTR_ABSOLUTE] *)
Definition set_prefix (length labels : Z) (i : rbtinfo) : rbtinfo :=
  mkInfo (name_data i) (name_offsets i) length labels (Z.land (attrs i) (Z.lnot DNS_NAMEATTR_ABSOLUTE))
    (data i) (hashval i) (hashnext i) (find_callback i) (nsec i).

Definition set_down (h : store) (p v : Z) : outcome store := assign (with_down v) h p.

(** [NODENAME] *)
Definition NODENAME (n : rbtnode) : dns_name_t :=
  let i := info n in
  mkname (take (Z.to_nat (namelen i)) (name_data i)) (offsetlen i)
    (Z.lor (attrs i) DNS_NAMEATTR_READONLY) (Some (name_offsets i)) None.

(** [dns_fixedname_init]: a name with an offsets table and a buffer of its own. *)
Definition dns_fixedname : dns_name_t :=
  mkname [] 0 0 (Some odata) (Some (isc_buffer_init (replicate 255 0))).

(** [for (root = node; ! IS_ROOT(root); root = PARENT(root))] *)
Definition find_up_body (h : store) (root : Z) : outcome (Z + Z) :=
  let* n := node_at h root in
  Done (if is_root n then inr (parent n) else inl (parent n)).

Definition find_up (h : store) (node : Z) : outcome Z := loop (rbt_fuel h) (find_up_body h) node.

(** [mem] is the address of the new node. *)
Definition create_node (h : store) (mem : Z) (name : dns_name_t) : outcome (isc_result_t * store) :=
  match offsets name with
  | None => Abort
  | Some tbl =>
      let* lbls := dns_name_countlabels name in
      REQUIRE 0 <? lbls ;;
      if mem =? 0 then Done (ISC_R_NOMEMORY, h)
      else
        let* offs := copy_table (replicate (Z.to_nat lbls) 0) tbl lbls in
        let i := mkInfo (ndata name) offs (n_length name) lbls (Z.land (attributes name) 7) 0 0 0 false
                   DNS_RBT_NSEC_NORMAL in
        Done (ISC_R_SUCCESS, <[mem := mkNode 0 0 0 BLACK false 0 i]> h)
  end.

(** ** The hash table *)

Definition RBT_HASH_SIZE : Z := 64.

Record dns_rbt : Type := mkRbt {
  nodes : store;
  root : Z;
  nodecount : Z;
  hashtable : option (list Z)    (* the heads of the chains; hashsize is its length *)
}.

Definition with_nodes (h : store) (t : dns_rbt) : dns_rbt := mkRbt h (root t) (nodecount t) (hashtable t).
Definition with_top (v : Z) (t : dns_rbt) : dns_rbt := mkRbt (nodes t) v (nodecount t) (hashtable t).
Definition add_count (k : Z) (t : dns_rbt) : dns_rbt :=
  mkRbt (nodes t) (root t) (u32 (nodecount t + k)) (hashtable t).

(** [dns_rbt_create] with [inithash]. *)
Definition dns_rbt_create (mem table_mem : bool) : isc_result_t * option dns_rbt :=
  if negb mem then (ISC_R_NOMEMORY, None)
  else if negb table_mem then (ISC_R_NOMEMORY, None)
  else (ISC_R_SUCCESS, Some (mkRbt ∅ 0 0 (Some (replicate (Z.to_nat RBT_HASH_SIZE) 0)))).

Definition hash_add_node (hctx : isc_hash) (t : dns_rbt) (node : Z) (name : dns_name_t) : outcome dns_rbt :=
  let* v := dns_name_fullhash hctx name false in
  match hashtable t with
  | None => Undef
  | Some table =>
      REQUIRE 0 <? Zlen table ;;
      let hash := v mod Zlen table in
      let* next := rd table hash in
      let* h := assign (with_info (fun i => set_hashnext next (set_hashval v i))) (nodes t) node in
      let* table := wr table hash node in
      Done (mkRbt h (root t) (nodecount t) (Some table))
  end.

(** [while (node != NULL)] of [rehash]: the nodes of a chain are pushed on their
    new chains. *)
Definition rehash_body (s : store * list Z * Z) : outcome ((store * list Z * Z) + (store * list Z)) :=
  let '(h, table, node) := s in
  if node =? 0 then Done (inr (h, table))
  else
    let* n := node_at h node in
    REQUIRE 0 <? Zlen table ;;
    let hash := hashval (info n) mod Zlen table in
    let* next := rd table hash in
    let* h := assign (with_info (set_hashnext next)) h node in
    let* table := wr table hash node in
    Done (inl (h, table, hashnext (info n))).

Fixpoint rehash_chains (h : store) (table oldtable : list Z) : outcome (store * list Z) :=
  match oldtable with
  | [] => Done (h, table)
  | head :: oldtable =>
      let* (h, table) := loop (rbt_fuel h) rehash_body (h, table, head) in
      rehash_chains h table oldtable
  end.

(** [mem]: whether there is memory for the larger table. *)
Definition rehash (mem : bool) (t : dns_rbt) : outcome dns_rbt :=
  match hashtable t with
  | None => Undef
  | Some oldtable =>
      if negb mem then Done t
      else
        let* (h, table) :=
          rehash_chains (nodes t) (replicate (Z.to_nat (u32 (Zlen oldtable * 2 + 1))) 0) oldtable in
        Done (mkRbt h (root t) (nodecount t) (Some table))
  end.

Definition hash_node (hctx : isc_hash) (mem : bool) (t : dns_rbt) (node : Z) (name : dns_name_t) : outcome dns_rbt :=
  let size := match hashtable t with Some table => Zlen table | None => 0 end in
  let* t := (if u32 (size * 3) <=? nodecount t then rehash mem t else Done t) in
  hash_add_node hctx t node name.

(** [while (HASHNEXT(bucket_node) != node)] of [unhash_node]. *)
Definition unhash_body (h : store) (node : Z) (bucket_node : Z) : outcome (Z + Z) :=
  let* n := node_at h bucket_node in
  if hashnext (info n) =? node then Done (inr bucket_node)
  else REQUIRE negb (hashnext (info n) =? 0) ;; Done (inl (hashnext (info n))).

Definition unhash_node (t : dns_rbt) (node : Z) : outcome dns_rbt :=
  match hashtable t with
  | None => Done t
  | Some table =>
      let* n := node_at (nodes t) node in
      REQUIRE 0 <? Zlen table ;;
      let bucket := hashval (info n) mod Zlen table in
      let* bucket_node := rd table bucket in
      if bucket_node =? node then
        let* table := wr table bucket (hashnext (info n)) in
        Done (mkRbt (nodes t) (root t) (nodecount t) (Some table))
      else
        let* b := loop (rbt_fuel (nodes t)) (unhash_body (nodes t) node) bucket_node in
        let* h := assign (with_info (set_hashnext (hashnext (info n)))) (nodes t) b in
        Done (with_nodes h t)
  end.

(** ** Insertion *)

(** [root] is [&rbt->root] or [&DOWN(p)]: 0 or the address [p]. *)
Definition get_root (t : dns_rbt) (loc : Z) : outcome Z :=
  if loc =? 0 then Done (root t) else DOWN (nodes t) loc.
Definition put_root (t : dns_rbt) (loc v : Z) : outcome dns_rbt :=
  if loc =? 0 then Done (with_top v t)
  else let* h := set_down (nodes t) loc v in Done (with_nodes h t).

(** [dns_name_split(name, suffixlabels, name, NULL)] *)
Definition split_self (n : dns_name_t) (suffixlabels : Z) : outcome dns_name_t :=
  REQUIRE 0 <? suffixlabels ;;
  REQUIRE suffixlabels <? labels n ;;
  REQUIRE dns_name_hasbuffer n && BINDABLE n ;;
  dns_name_getlabelsequence n 0 (labels n - suffixlabels) n true.

Definition DNS_RBT_LEVELBLOCK : Z := 254.

(** How the descent of [dns_rbt_addnode] ends: the name is there; it belongs below
    [current] on the level [loc]; it shares [common] labels with [current]. *)
Inductive add_stop : Type :=
| AddExists (current : Z)
| AddLeaf (current order loc : Z) (add_name : dns_name_t)
| AddSplit (current order loc parent common : Z) (add_name : dns_name_t) (hlabels level_count : Z).

(** One iteration of [do ... while (child != NULL)]: the state is [root], [parent],
    [child], [add_name], [hlabels] and the number of levels in the chain. *)
Definition addnode_body (h : store) (s : Z * Z * Z * dns_name_t * Z * Z) :
    outcome ((Z * Z * Z * dns_name_t * Z * Z) + add_stop) :=
  let '(loc, par, current, add_name, hlabels, level_count) := s in
  let* n := node_at h current in
  let* (compared, order, common) := dns_name_fullcompare add_name (NODENAME n) in
  match compared with
  | dns_namereln_equal => Done (inr (AddExists current))
  | dns_namereln_none =>
      let '(par, child) :=
        if order <? 0 then (current, left n) else if 0 <? order then (current, right n) else (par, current) in
      Done (if child =? 0 then inr (AddLeaf current order loc add_name)
            else inl (loc, par, child, add_name, hlabels, level_count))
  | dns_namereln_subdomain =>
      let* add_name := split_self add_name common in
      let child := down n in
      let* ok := (if child =? 0 then Done true
                  else let* c := node_at h child in Done (is_root c && (parent c =? current))) in
      REQUIRE ok ;;
      if level_count <? DNS_RBT_LEVELBLOCK then
        Done (if child =? 0 then inr (AddLeaf current order current add_name)
              else inl (current, 0, child, add_name, hlabels + common, level_count + 1))
      else Undef
  | _ => Done (inr (AddSplit current order loc par common add_name (hlabels + common) level_count))
  end.

(** The new node takes the place of [current], which becomes the root of the level
    below it with the labels that are not in common. *)
Definition split_links (t : dns_rbt) (current new par loc : Z) (n : rbtnode) (plen plabels : Z) : outcome dns_rbt :=
  let h := nodes t in
  let* h := assign (fun m => mkNode (parent n) (left n) (right n) (color n) (is_root n) (down m)
                               (set_nsec (if nsec (info n) =? DNS_RBT_NSEC_HAS_NSEC then DNS_RBT_NSEC_NORMAL
                                          else nsec (info n)) (info m))) h new in
  let* h := (if par =? 0 then Done h
             else
               let* pn := node_at h par in
               if left pn =? current then set_left h par new else set_right h par new) in
  let* h := (if left n =? 0 then Done h else set_parent h (left n) new) in
  let* h := (if right n =? 0 then Done h else set_parent h (right n) new) in
  let t := with_nodes h t in
  let* r := get_root t loc in
  let* t := (if r =? current then put_root t loc new else Done t) in
  let* h := assign (fun m => mkNode new 0 0 BLACK true (down m) (set_prefix plen plabels (info m))) (nodes t) current in
  let* h := set_down h new current in
  Done (with_nodes h t).

(** A new node for [name], whose labels on its level are [add_name], is added below
    [current] on the level [loc]. *)
Definition add_leaf (hctx : isc_hash) (mem : Z) (table_mem : bool) (t : dns_rbt) (name add_name : dns_name_t)
    (current order loc : Z) : outcome (isc_result_t * Z * dns_rbt) :=
  let* (result, h) := create_node (nodes t) mem add_name in
  if bool_decide (result = ISC_R_SUCCESS) then
    let* r := get_root t loc in
    let* (h, r) := dns_rbt_addonlevel h mem current order r in
    let* t := put_root (with_nodes h t) loc r in
    let* t := hash_node hctx table_mem (add_count 1 t) mem name in
    Done (ISC_R_SUCCESS, mem, t)
  else Done (result, 0, t).

Definition add_split (hctx : isc_hash) (smem nmem : Z) (stable ntable : bool) (t : dns_rbt) (name : dns_name_t)
    (current order loc par common : Z) (add_name : dns_name_t) (hlabels level_count : Z) :
    outcome (isc_result_t * Z * dns_rbt) :=
  let* nlabels := dns_name_countlabels name in
  if level_count =? DNS_RBT_LEVELBLOCK then Done (ISC_R_NOSPACE, 0, t)
  else
    let* n := node_at (nodes t) current in
    let* (prefix, suffix) := dns_name_split (NODENAME n) common (Some dns_fixedname) (Some dns_fixedname) in
    match prefix, suffix with
    | Some prefix, Some suffix =>
        let* (result, h) := create_node (nodes t) smem suffix in
        if bool_decide (result = ISC_R_SUCCESS) then
          let* t := split_links (with_nodes h t) current smem par loc n (n_length prefix) (labels prefix) in
          let t := add_count 1 t in
          let* new_name := dns_name_getlabelsequence name (nlabels - hlabels) hlabels dns_fixedname false in
          let* t := hash_node hctx stable t smem new_name in
          let* alabels := dns_name_countlabels add_name in
          if common =? alabels then Done (ISC_R_SUCCESS, smem, t)
          else
            let* add_name := split_self add_name common in
            add_leaf hctx nmem ntable t name add_name current order smem
        else Done (result, 0, t)
    | _, _ => Undef
    end.

(** Every step of a descent goes to a child on the level, or down a level and takes
    a label or more off the name. *)
Definition search_fuel (t : dns_rbt) (name : dns_name_t) : nat :=
  (S (Z.to_nat (labels name)) * rbt_fuel (nodes t))%nat.

(** [smem] and [nmem] are the addresses of the node of a split and of the node for
    the name, [stable] and [ntable] whether there is memory for a larger hash table
    when they are hashed. *)
Definition dns_rbt_addnode (hctx : isc_hash) (smem nmem : Z) (stable ntable : bool) (t : dns_rbt)
    (name : dns_name_t) : outcome (isc_result_t * Z * dns_rbt) :=
  REQUIRE dns_name_isabsolute name ;;
  let* add_name := dns_name_clone name dns_fixedname in
  if root t =? 0 then
    let* (result, h) := create_node (nodes t) nmem add_name in
    if bool_decide (result = ISC_R_SUCCESS) then
      let* h := set_root h nmem true in
      let t := add_count 1 (with_top nmem (with_nodes h t)) in
      let* t := hash_node hctx ntable t nmem name in
      Done (ISC_R_SUCCESS, nmem, t)
    else Done (result, 0, t)
  else
    let* r := node_at (nodes t) (root t) in
    REQUIRE is_root r ;;
    let* nlabels := dns_name_countlabels name in
    let* stop := loop (search_fuel t name) (addnode_body (nodes t)) (0, 0, root t, add_name, 0, 0) in
    match stop with
    | AddExists current => Done (ISC_R_EXISTS, current, t)
    | AddLeaf current order loc add_name => add_leaf hctx nmem ntable t name add_name current order loc
    | AddSplit current order loc par common add_name hlabels level_count =>
        add_split hctx smem nmem stable ntable t name current order loc par common add_name hlabels level_count
    end.

Definition dns_rbt_addname (hctx : isc_hash) (smem nmem : Z) (stable ntable : bool) (t : dns_rbt)
    (name : dns_name_t) (d : Z) : outcome (isc_result_t * dns_rbt) :=
  REQUIRE dns_name_isabsolute name ;;
  let* (result, node, t) := dns_rbt_addnode hctx smem nmem stable ntable t name in
  let* free := (if bool_decide (result = ISC_R_EXISTS)
                then let* n := node_at (nodes t) node in Done (data (info n) =? 0)
                else Done (bool_decide (result = ISC_R_SUCCESS))) in
  if free then
    let* h := assign (with_info (set_data d)) (nodes t) node in
    Done (ISC_R_SUCCESS, with_nodes h t)
  else Done (result, t).

(** ** Chains *)

(** [levels] is the part of the array in use, from the top level on. *)
Record dns_rbtnodechain : Type := mkChain {
  chain_end : Z;
  levels : list Z;
  level_matches : Z
}.

Definition dns_rbtnodechain_init : dns_rbtnodechain := mkChain 0 [] 0.
Definition dns_rbtnodechain_reset (c : dns_rbtnodechain) : dns_rbtnodechain := mkChain 0 [] 0.

Definition with_end (v : Z) (c : dns_rbtnodechain) : dns_rbtnodechain := mkChain v (levels c) (level_matches c).

(** [ADD_LEVEL] *)
Definition ADD_LEVEL (c : dns_rbtnodechain) (node : Z) : outcome dns_rbtnodechain :=
  if Zlen (levels c) <? DNS_RBT_LEVELBLOCK
  then Done (mkChain (chain_end c) (levels c ++ [node]) (level_matches c)) else Undef.

(** [chain->levels[--chain->level_count]]: the last level and the chain without it. *)
Definition pop_level (c : dns_rbtnodechain) : outcome (Z * dns_rbtnodechain) :=
  match rev (levels c) with
  | [] => Undef
  | node :: rest => Done (node, mkChain (chain_end c) (rev rest) (level_matches c))
  end.

(** The loop of [chain_name] over the levels, the last first. *)
Fixpoint chain_concat (h : store) (nodes : list Z) (name : dns_name_t) : outcome (isc_result_t * dns_name_t) :=
  match nodes with
  | [] => Done (ISC_R_SUCCESS, name)
  | node :: nodes =>
      let* n := node_at h node in
      let* (result, name, _) := dns_name_concatenate (Some name) (Some (NODENAME n)) (Some name) None in
      if bool_decide (result = ISC_R_SUCCESS) then chain_concat h nodes name else Done (result, name)
  end.

Definition chain_name (h : store) (c : dns_rbtnodechain) (name : dns_name_t) (include_chain_end : bool) :
    outcome (isc_result_t * dns_name_t) :=
  let* (result, name) :=
    (if include_chain_end && negb (chain_end c =? 0) then
       let* n := node_at h (chain_end c) in
       let* (result, name, _) := dns_name_copy (NODENAME n) name None in
       Done (result, name)
     else let* name := dns_name_reset name in Done (ISC_R_SUCCESS, name)) in
  if bool_decide (result = ISC_R_SUCCESS) then chain_concat h (rev (levels c)) name else Done (result, name).

(** [while (RIGHT(node) != NULL) node = RIGHT(node);] *)
Definition rightmost_body (h : store) (p : Z) : outcome (Z + Z) :=
  let* r := RIGHT h p in Done (if r =? 0 then inr p else inl r).

(** [move_chain_to_last]: the state is the chain and [node]. *)
Definition last_body (h : store) (s : dns_rbtnodechain * Z) :
    outcome ((dns_rbtnodechain * Z) + dns_rbtnodechain) :=
  let '(c, node) := s in
  let* node := loop (rbt_fuel h) (rightmost_body h) node in
  let* d := DOWN h node in
  if d =? 0 then Done (inr (with_end node c))
  else let* c := ADD_LEVEL c node in Done (inl (c, d)).

Definition move_chain_to_last (h : store) (c : dns_rbtnodechain) (node : Z) : outcome dns_rbtnodechain :=
  loop (rbt_fuel h) (last_body h) (c, node).

(** [dns_rbtnodechain_current]: the result, the node, the name if it is asked for,
    and the origin. *)
Definition dns_rbtnodechain_current (h : store) (c : dns_rbtnodechain) (want_name : bool)
    (origin : option dns_name_t) : outcome (isc_result_t * Z * option dns_name_t * option dns_name_t) :=
  if chain_end c =? 0 then Done (ISC_R_NOTFOUND, 0, None, origin)
  else
    let* n := node_at h (chain_end c) in
    let name := NODENAME n in
    let* name :=
      (if want_name then
         if bool_decide (levels c = []) then
           REQUIRE dns_name_isabsolute name ;;
           Done (Some (mkname (take (length (ndata name) - 1) (ndata name)) (labels name - 1)
                         (Z.land (attributes name) (Z.lnot DNS_NAMEATTR_ABSOLUTE)) (offsets name) None))
         else Done (Some name)
       else Done None) in
    match origin with
    | None => Done (ISC_R_SUCCESS, chain_end c, name, None)
    | Some o =>
        let* (result, o) :=
          (if bool_decide (levels c = []) then
             let* (result, o, _) := dns_name_copy dns_rootname o None in Done (result, o)
           else chain_name h c o false) in
        Done (result, chain_end c, name, Some o)
    end.

(** [while (! IS_ROOT(current))] of [dns_rbtnodechain_prev] and [_next]: up to a
    node whose right ([right_link]) or left child the path came from; the result is
    [current] and whether it was found. *)
Definition ascend_body (h : store) (right_link : bool) (current : Z) : outcome (Z + Z * bool) :=
  let* n := node_at h current in
  if is_root n then Done (inr (current, false))
  else
    let* p := node_at h (parent n) in
    if (if right_link then right p else left p) =? current then Done (inr (parent n, true))
    else Done (inl (parent n)).

(** [do ... while (DOWN(predecessor) != NULL)] of [dns_rbtnodechain_prev]. *)
Definition prev_down_body (h : store) (s : dns_rbtnodechain * Z) :
    outcome ((dns_rbtnodechain * Z) + (dns_rbtnodechain * Z)) :=
  let '(c, predecessor) := s in
  let* d := DOWN h predecessor in
  if d =? 0 then Done (inr (c, predecessor))
  else
    let* c := ADD_LEVEL c predecessor in
    let* p := loop (rbt_fuel h) (rightmost_body h) d in
    Done (inl (c, p)).

Definition dns_rbtnodechain_prev (h : store) (c : dns_rbtnodechain) (want_name : bool)
    (origin : option dns_name_t) :
    outcome (isc_result_t * dns_rbtnodechain * option dns_name_t * option dns_name_t) :=
  REQUIRE negb (chain_end c =? 0) ;;
  let want_origin := match origin with Some _ => true | None => false end in
  let* l := LEFT h (chain_end c) in
  let* (current, found) :=
    (if l =? 0 then loop (rbt_fuel h) (ascend_body h true) (chain_end c)
     else let* p := loop (rbt_fuel h) (rightmost_body h) l in Done (p, true)) in
  let* (c, predecessor, new_origin) :=
    (if found then
       let* d := DOWN h current in
       let* (c, p) := loop (rbt_fuel h) (prev_down_body h) (c, current) in
       Done (c, p, negb (d =? 0) && want_origin)
     else if bool_decide (levels c = []) then Done (c, 0, false)
     else
       let* (p, c) := pop_level c in
       let* n := node_at h p in
       Done (c, p, want_origin && (negb (bool_decide (levels c = [])) || (1 <? offsetlen (info n))))) in
  if predecessor =? 0 then Done (ISC_R_NOMORE, c, None, origin)
  else
    let c := with_end predecessor c in
    let* (result, _, name, org) :=
      dns_rbtnodechain_current h c want_name (if new_origin : bool then origin else None) in
    Done (if new_origin && bool_decide (result = ISC_R_SUCCESS) then DNS_R_NEWORIGIN else result, c, name,
          if new_origin then org else origin).

(** The end of [dns_rbtnodechain_next] and [_down]: the chain ends at [successor]. *)
Definition next_end (h : store) (c : dns_rbtnodechain) (successor : Z) (new_origin : bool)
    (origin : option dns_name_t) :
    outcome (isc_result_t * dns_rbtnodechain * option dns_name_t * option dns_name_t) :=
  if successor =? 0 then Done (ISC_R_NOMORE, c, None, origin)
  else
    let c := with_end successor c in
    let* n := node_at h successor in
    if new_origin then
      match origin with
      | Some o =>
          let* (result, o) := chain_name h c o false in
          Done (if bool_decide (result = ISC_R_SUCCESS) then DNS_R_NEWORIGIN else result, c,
                Some (NODENAME n), Some o)
      | None => Done (DNS_R_NEWORIGIN, c, Some (NODENAME n), None)
      end
    else Done (ISC_R_SUCCESS, c, Some (NODENAME n), origin).

(** The leftmost node of the level below [current]; the origin is new unless it is
    the root name. *)
Definition chain_down (h : store) (c : dns_rbtnodechain) (n : rbtnode) :
    outcome (dns_rbtnodechain * Z * bool) :=
  let new_origin := negb (bool_decide (levels c = [])) || (1 <? offsetlen (info n)) in
  let* c := ADD_LEVEL c (chain_end c) in
  let* s := loop (rbt_fuel h) (leftmost_body h) (down n) in
  Done (c, s, new_origin).

Definition dns_rbtnodechain_down (h : store) (c : dns_rbtnodechain) (origin : option dns_name_t) :
    outcome (isc_result_t * dns_rbtnodechain * option dns_name_t * option dns_name_t) :=
  REQUIRE negb (chain_end c =? 0) ;;
  let* n := node_at h (chain_end c) in
  let* (c, successor, new_origin) :=
    (if down n =? 0 then Done (c, 0, false) else chain_down h c n) in
  next_end h c successor new_origin origin.

Definition dns_rbtnodechain_nextflat (h : store) (c : dns_rbtnodechain) :
    outcome (isc_result_t * dns_rbtnodechain * option dns_name_t) :=
  REQUIRE negb (chain_end c =? 0) ;;
  let* n := node_at h (chain_end c) in
  let* successor :=
    (if right n =? 0 then
       let* (p, found) := loop (rbt_fuel h) (ascend_body h false) (chain_end c) in
       Done (if found : bool then p else 0)
     else loop (rbt_fuel h) (leftmost_body h) (right n)) in
  let* (result, c, name, _) := next_end h c successor false None in
  Done (result, c, name).

(** [do ... while (successor == NULL)] of [dns_rbtnodechain_next]: the state is the
    chain, [current] and [new_origin]; the result adds [successor]. *)
Definition next_up_body (h : store) (s : dns_rbtnodechain * Z * bool) :
    outcome ((dns_rbtnodechain * Z * bool) + (dns_rbtnodechain * Z * bool * Z)) :=
  let '(c, current, new_origin) := s in
  let* (current, found) := loop (rbt_fuel h) (ascend_body h false) current in
  if found : bool then Done (inr (c, current, new_origin, current))
  else if bool_decide (levels c = []) then Done (inr (c, current, new_origin, 0))
  else
    let* (current, c) := pop_level c in
    let* r := RIGHT h current in
    Done (if r =? 0 then inl (c, current, true) else inr (c, current, true, 0)).

Definition dns_rbtnodechain_next (h : store) (c : dns_rbtnodechain) (origin : option dns_name_t) :
    outcome (isc_result_t * dns_rbtnodechain * option dns_name_t * option dns_name_t) :=
  REQUIRE negb (chain_end c =? 0) ;;
  let* n := node_at h (chain_end c) in
  let* (c, current, new_origin, successor) :=
    (if negb (down n =? 0) then
       let* (c', s, new_origin) := chain_down h c n in Done (c', chain_end c, new_origin, s)
     else if right n =? 0 then
       loop (rbt_fuel h) (next_up_body h) (c, chain_end c, false)
     else Done (c, chain_end c, false, 0)) in
  let* successor :=
    (if successor =? 0 then
       let* r := RIGHT h current in
       if r =? 0 then Done 0 else loop (rbt_fuel h) (leftmost_body h) r
     else Done successor) in
  next_end h c successor new_origin origin.

Definition first_or_last (h : store) (c : dns_rbtnodechain) (want_name : bool) (origin : option dns_name_t) :
    outcome (isc_result_t * dns_rbtnodechain * option dns_name_t * option dns_name_t) :=
  let* (result, _, name, origin) := dns_rbtnodechain_current h c want_name origin in
  Done (if bool_decide (result = ISC_R_SUCCESS) then DNS_R_NEWORIGIN else result, c, name, origin).

Definition dns_rbtnodechain_first (t : dns_rbt) (c : dns_rbtnodechain) (want_name : bool)
    (origin : option dns_name_t) :
    outcome (isc_result_t * dns_rbtnodechain * option dns_name_t * option dns_name_t) :=
  first_or_last (nodes t) (with_end (root t) (dns_rbtnodechain_reset c)) want_name origin.

Definition dns_rbtnodechain_last (t : dns_rbt) (c : dns_rbtnodechain) (want_name : bool)
    (origin : option dns_name_t) :
    outcome (isc_result_t * dns_rbtnodechain * option dns_name_t * option dns_name_t) :=
  let* c := move_chain_to_last (nodes t) (dns_rbtnodechain_reset c) (root t) in
  first_or_last (nodes t) c want_name origin.

(** ** Search *)

Definition DNS_RBTFIND_NOOPTIONS : Z := 0x00.
Definition DNS_RBTFIND_EMPTYDATA : Z := 0x01.
Definition DNS_RBTFIND_NOEXACT : Z := 0x02.
Definition DNS_RBTFIND_NOPREDECESSOR : Z := 0x04.

Definition option_set (options bit : Z) : bool := negb (Z.land options bit =? 0).

(** [for (hnode = ...; hnode != NULL; hnode = hnode->hashnext)]: 0 when the chain
    has no such node. *)
Definition bucket_body (h : store) (hash up_current : Z) (hash_name : dns_name_t) (hnode : Z) :
    outcome (Z + Z) :=
  if hnode =? 0 then Done (inr 0)
  else
    let* n := node_at h hnode in
    let next := hashnext (info n) in
    if negb (hash =? hashval (info n)) then Done (inl next)
    else
      let* up := find_up h hnode in
      if negb (up =? up_current) then Done (inl next)
      else
        let* same := dns_name_equal (NODENAME n) hash_name in
        Done (if same then inr hnode else inl next).

(** [hashagain]: the node of this level for the last [tlabels] labels of the search
    name, for [tlabels] from the given number on; [n] numbers are left. *)
Fixpoint hash_search (hctx : isc_hash) (h : store) (table : list Z) (name search_name : dns_name_t)
    (nlabels hlabels up_current tlabels : Z) (n : nat) : outcome (option (Z * Z)) :=
  match n with
  | O => Done None
  | S n =>
      let* hash_name := dns_name_getlabelsequence name (nlabels - tlabels) (hlabels + tlabels)
                          (dns_name_init None) false in
      let* hash := dns_name_fullhash hctx hash_name false in
      let* hash_name := dns_name_getlabelsequence search_name (nlabels - tlabels) tlabels hash_name false in
      REQUIRE 0 <? Zlen table ;;
      let* head := rd table (hash mod Zlen table) in
      let* hnode := loop (rbt_fuel h) (bucket_body h hash up_current hash_name) head in
      if hnode =? 0
      then hash_search hctx h table name search_name nlabels hlabels up_current (tlabels + 1) n
      else Done (Some (hnode, tlabels))
  end.

(** The variables of the search loop. *)
Record find_st : Type := mkFind {
  f_current : Z;
  f_root : Z;                    (* current_root *)
  f_search : dns_name_t;         (* search_name *)
  f_hlabels : Z;
  f_node : Z;                    (* *node *)
  f_chain : dns_rbtnodechain;
  f_last : Z;                    (* last_compared *)
  f_compared : dns_namereln_t;
  f_order : Z
}.

(** How the loop is left: with its variables and [saved_result], or with an error
    of [chain_name], [*node] and the chain. *)
Abbreviation find_stop := ((find_st * isc_result_t) + (isc_result_t * Z * dns_rbtnodechain))%type.

Definition with_current (v : Z) (s : find_st) : find_st :=
  mkFind v (f_root s) (f_search s) (f_hlabels s) (f_node s) (f_chain s) (f_last s) (f_compared s) (f_order s).

(** [subdomain]: down to the next level. *)
Definition find_subdomain (h : store) (options : Z)
    (callback : option (Z -> dns_name_t -> isc_result_t)) (s : find_st) (current common : Z) :
    outcome (find_st + find_stop) :=
  let* n := node_at h current in
  let* search := split_self (f_search s) common in
  let node := if negb (data (info n) =? 0) || option_set options DNS_RBTFIND_EMPTYDATA then current else f_node s in
  let* c := ADD_LEVEL (f_chain s) current in
  let s := mkFind (down n) (down n) search (f_hlabels s + common) node c (f_last s) dns_namereln_subdomain (f_order s) in
  match callback with
  | Some callback =>
      if find_callback (info n) then
        let* (result, callback_name) := chain_name h c dns_fixedname false in
        if bool_decide (result = ISC_R_SUCCESS) then
          let result := callback current callback_name in
          if bool_decide (result = DNS_R_CONTINUE) then Done (inl s)
          else Done (inr (inl (with_current 0 s, result)))
        else Done (inr (inr (result, node, dns_rbtnodechain_reset c)))
      else Done (inl s)
  | None => Done (inl s)
  end.

(** One iteration of [while (current != NULL)]. *)
Definition find_body (hctx : isc_hash) (t : dns_rbt) (name : dns_name_t) (options : Z)
    (callback : option (Z -> dns_name_t -> isc_result_t)) (s : find_st) :
    outcome (find_st + find_stop) :=
  let h := nodes t in
  if f_current s =? 0 then Done (inr (inl (s, ISC_R_SUCCESS)))
  else
    let* n := node_at h (f_current s) in
    let* (compared, order, common) := dns_name_fullcompare (f_search s) (NODENAME n) in
    let s := mkFind (f_current s) (f_root s) (f_search s) (f_hlabels s) (f_node s) (f_chain s) (f_current s)
               compared order in
    match compared with
    | dns_namereln_equal => Done (inr (inl (s, ISC_R_SUCCESS)))
    | dns_namereln_none =>
        match hashtable t with
        | None => Done (inl (with_current (if order <? 0 then left n else right n) s))
        | Some table =>
            REQUIRE f_current s =? f_root s ;;
            let* nlabels := dns_name_countlabels (f_search s) in
            let* hit := hash_search hctx h table name (f_search s) nlabels (f_hlabels s) (parent n) 1
                          (Z.to_nat nlabels) in
            match hit with
            | None => Done (inl (with_current 0 s))
            | Some (hnode, tlabels) =>
                if tlabels =? nlabels then
                  Done (inr (inl (mkFind hnode (f_root s) (f_search s) (f_hlabels s) (f_node s) (f_chain s)
                                    (f_last s) dns_namereln_equal order, ISC_R_SUCCESS)))
                else find_subdomain h options callback s hnode tlabels
            end
        end
    | dns_namereln_subdomain => find_subdomain h options callback s (f_current s) common
    | _ => Done (inl (with_current 0 s))
    end.

(** The level of the partial match: down from the last level to that of [node]. *)
Fixpoint match_level (levels : list Z) (node level : Z) (n : nat) : outcome Z :=
  let* x := rd levels level in
  if x =? node then Done level
  else
    REQUIRE 0 <? level ;;
    match n with O => NoFuel | S n => match_level levels node (level - 1) n end.

(** [while (current != NULL)] of the search for the node where a binary search
    stops; the state is [current], [last_compared] and [order]. *)
Definition stop_body (h : store) (search_name : dns_name_t) (s : Z * Z * Z) : outcome ((Z * Z * Z) + (Z * Z)) :=
  let '(current, last_compared, order) := s in
  if current =? 0 then Done (inr (last_compared, order))
  else
    let* n := node_at h current in
    let* (_, order, _) := dns_name_fullcompare search_name (NODENAME n) in
    Done (inl (if order <? 0 then left n else right n, current, order)).

(** The chain is pointed at the predecessor of a name that was not found. *)
Definition find_predecessor (h : store) (s : find_st) (c : dns_rbtnodechain) (result : isc_result_t) :
    outcome (isc_result_t * dns_rbtnodechain) :=
  if bool_decide (f_compared s = dns_namereln_subdomain) then
    REQUIRE negb (bool_decide (levels c = [])) ;;
    REQUIRE level_matches c <? Zlen (levels c) ;;
    let* (last, c) := pop_level c in
    Done (result, with_end last c)
  else
    let* (current, order) :=
      loop (rbt_fuel h) (stop_body h (f_search s))
        (if bool_decide (f_compared s = dns_namereln_none) then f_last s else 0, f_last s, f_order s) in
    if 0 <? order then
      let* d := DOWN h current in
      if d =? 0 then Done (result, with_end current c)
      else
        let* c := ADD_LEVEL c current in
        let* c := move_chain_to_last h c d in
        Done (result, c)
    else
      REQUIRE order <? 0 ;;
      let* (result2, c, _, _) := dns_rbtnodechain_prev h (with_end current c) false None in
      Done (match result2 with
            | ISC_R_SUCCESS | DNS_R_NEWORIGIN => (result, c)
            | ISC_R_NOMORE => (result, dns_rbtnodechain_reset c)
            | _ => (result2, c)
            end).

(** After the loop. *)
Definition find_finish (h : store) (options : Z) (foundname : option dns_name_t) (s : find_st)
    (saved_result : isc_result_t) :
    outcome (isc_result_t * Z * option dns_name_t * dns_rbtnodechain) :=
  let current := f_current s in
  let c := f_chain s in
  let named (c : dns_rbtnodechain) include_end :=
    match foundname with
    | Some name => let* (result, name) := chain_name h c name include_end in Done (result, Some name)
    | None => Done (ISC_R_SUCCESS, None)
    end in
  let* exact :=
    (if (current =? 0) || option_set options DNS_RBTFIND_NOEXACT then Done false
     else
       let* n := node_at h current in
       Done (negb (data (info n) =? 0) || option_set options DNS_RBTFIND_EMPTYDATA)) in
  if exact then
    let c := mkChain current (levels c) (Zlen (levels c)) in
    let* (result, foundname) := named c true in
    if bool_decide (result = ISC_R_SUCCESS) then Done (saved_result, current, foundname, c)
    else Done (result, 0, foundname, c)
  else
    let* (result, foundname, c) :=
      (if f_node s =? 0 then Done (ISC_R_NOTFOUND, foundname, c)
       else
         let* m := match_level (levels c) (f_node s) (Zlen (levels c) - 1) (length (levels c)) in
         let c := mkChain (chain_end c) (levels c) m in
         let* (result, foundname) := named (mkChain (chain_end c) (take (S (Z.to_nat m)) (levels c)) m) false in
         Done (if bool_decide (result = ISC_R_SUCCESS) then DNS_R_PARTIALMATCH else result, foundname, c)) in
    let* (result, c) :=
      (if negb (current =? 0) then
         let* n := node_at h current in
         REQUIRE option_set options DNS_RBTFIND_NOEXACT
                 || (negb (option_set options DNS_RBTFIND_EMPTYDATA) && (data (info n) =? 0)) ;;
         Done (result, with_end current c)
       else if option_set options DNS_RBTFIND_NOPREDECESSOR then Done (result, with_end 0 c)
       else find_predecessor h s c result) in
    Done (result, f_node s, foundname, c).

(** [dns_rbt_findnode]; [chain] is whether the caller passes one.  The results are
    the code, [*node], [*foundname] and [*chain]. *)
Definition dns_rbt_findnode (hctx : isc_hash) (t : dns_rbt) (name : dns_name_t) (foundname : option dns_name_t)
    (chain : bool) (options : Z) (callback : option (Z -> dns_name_t -> isc_result_t)) :
    outcome (isc_result_t * Z * option dns_name_t * dns_rbtnodechain) :=
  REQUIRE dns_name_isabsolute name ;;
  let both := Z.lor DNS_RBTFIND_NOEXACT DNS_RBTFIND_NOPREDECESSOR in
  REQUIRE negb (Z.land options both =? both) ;;
  let options := if chain then options else Z.lor options DNS_RBTFIND_NOPREDECESSOR in
  if root t =? 0 then Done (ISC_R_NOTFOUND, 0, foundname, dns_rbtnodechain_init)
  else
    let* search_name := dns_name_clone name dns_fixedname in
    let* stop := loop (search_fuel t name) (find_body hctx t name options callback)
                   (mkFind (root t) (root t) search_name 0 0 dns_rbtnodechain_init 0 dns_namereln_none 0) in
    match stop with
    | inl (s, saved_result) => find_finish (nodes t) options foundname s saved_result
    | inr (result, node, c) => Done (result, node, foundname, c)
    end.

(** The result and the data pointer. *)
Definition dns_rbt_findname (hctx : isc_hash) (t : dns_rbt) (name : dns_name_t) (options : Z)
    (foundname : option dns_name_t) : outcome (isc_result_t * Z * option dns_name_t) :=
  let* (result, node, foundname, _) := dns_rbt_findnode hctx t name foundname false options None in
  if negb (node =? 0) then
    let* n := node_at (nodes t) node in
    if negb (data (info n) =? 0) || option_set options DNS_RBTFIND_EMPTYDATA
    then Done (result, data (info n), foundname) else Done (ISC_R_NOTFOUND, 0, foundname)
  else Done (ISC_R_NOTFOUND, 0, foundname).

(** ** Deletion *)

(** What [rbt->data_deleter] is called with; 0 stands for no deleter. *)
Definition delete_data (deleter : bool) (i : rbtinfo) : list Z :=
  if negb (data i =? 0) && deleter then [data i] else [].

(** The node leaves the hash table and the store. *)
Definition release_node (t : dns_rbt) (node : Z) : outcome dns_rbt :=
  let* t := unhash_node t node in
  Done (add_count (-1) (with_nodes (delete node (nodes t)) t)).

(** The recursion goes through every node once. *)
Fixpoint dns_rbt_deletetree (fuel : nat) (deleter : bool) (t : dns_rbt) (node : Z) : outcome (list Z * dns_rbt) :=
  match fuel with
  | O => NoFuel
  | S fuel =>
      if node =? 0 then Done ([], t)
      else
        let* l := LEFT (nodes t) node in
        let* (dl, t) := (if l =? 0 then Done ([], t) else dns_rbt_deletetree fuel deleter t l) in
        let* h := (if l =? 0 then Done (nodes t) else set_left (nodes t) node 0) in
        let t := with_nodes h t in
        let* r := RIGHT (nodes t) node in
        let* (dr, t) := (if r =? 0 then Done ([], t) else dns_rbt_deletetree fuel deleter t r) in
        let* h := (if r =? 0 then Done (nodes t) else set_right (nodes t) node 0) in
        let t := with_nodes h t in
        let* d := DOWN (nodes t) node in
        let* (dd, t) := (if d =? 0 then Done ([], t) else dns_rbt_deletetree fuel deleter t d) in
        let* h := (if d =? 0 then Done (nodes t) else set_down (nodes t) node 0) in
        let t := with_nodes h t in
        let* n := node_at (nodes t) node in
        let* t := release_node t node in
        Done (dl ++ dr ++ dd ++ delete_data deleter (info n), t)
  end.

(** The result is the data that was handed to the deleter; the function always
    succeeds. *)
Definition dns_rbt_deletenode (deleter : bool) (t : dns_rbt) (node : Z) (recurse : bool) :
    outcome (list Z * dns_rbt) :=
  let* n := node_at (nodes t) node in
  if negb (down n =? 0) && negb recurse then
    let* h := assign (with_info (set_data 0)) (nodes t) node in
    Done (delete_data deleter (info n), with_nodes h t)
  else
    let* (dd, t) := (if down n =? 0 then Done ([], t)
                     else dns_rbt_deletetree (rbt_fuel (nodes t)) deleter t (down n)) in
    let* up := find_up (nodes t) node in
    let* r := get_root t up in
    let* (h, r) := dns_rbt_deletefromlevel (nodes t) node r in
    let* t := put_root (with_nodes h t) up r in
    let* n := node_at (nodes t) node in
    let* t := release_node t node in
    Done (dd ++ delete_data deleter (info n), t).

Definition dns_rbt_deletename (hctx : isc_hash) (deleter : bool) (t : dns_rbt) (name : dns_name_t) (recurse : bool) :
    outcome (isc_result_t * list Z * dns_rbt) :=
  REQUIRE dns_name_isabsolute name ;;
  let* (result, node, _, _) := dns_rbt_findnode hctx t name None false DNS_RBTFIND_NOOPTIONS None in
  match result with
  | ISC_R_SUCCESS =>
      let* n := node_at (nodes t) node in
      if data (info n) =? 0 then Done (ISC_R_NOTFOUND, [], t)
      else let* (dd, t) := dns_rbt_deletenode deleter t node recurse in Done (ISC_R_SUCCESS, dd, t)
  | DNS_R_PARTIALMATCH => Done (ISC_R_NOTFOUND, [], t)
  | _ => Done (result, [], t)
  end.

(** ** Names of nodes *)

Definition dns_rbt_namefromnode (n : rbtnode) : dns_name_t := NODENAME n.

(** [do ... while (! dns_name_isabsolute(name))]: the state is [node] and [name]. *)
Definition fullname_body (h : store) (s : Z * dns_name_t) :
    outcome ((Z * dns_name_t) + (isc_result_t * dns_name_t)) :=
  let '(node, name) := s in
  let* n := node_at h node in
  let* (result, name, _) := dns_name_concatenate (Some name) (Some (NODENAME n)) (Some name) None in
  if bool_decide (result = ISC_R_SUCCESS) then
    let* up := find_up h node in
    Done (if dns_name_isabsolute name then inr (result, name) else inl (up, name))
  else Done (inr (result, name)).

Definition dns_rbt_fullnamefromnode (h : store) (node : Z) (name : dns_name_t) :
    outcome (isc_result_t * dns_name_t) :=
  REQUIRE dns_name_hasbuffer name ;;
  let* name := dns_name_reset name in
  loop (rbt_fuel h) (fullname_body h) (node, name).
