(* ===== verification/RbtNames.v ===== *)
(** * Names as keys of the tree of trees

    The tree compares names from the last label on, so a name is the list of its
    labels in reverse, its key.  This file says what the operations on names that
    the tree uses do to keys: comparison, equality and hashing depend on the key up
    to case, splitting takes and drops its labels. *)

From S2P Require Import Prelude Buffer Name NameTheory Hash Rbt RbtTree.

Abbreviation label := (list Z).
Abbreviation namekey := (list (list Z)).

Definition keyed (n : dns_name_t) (ab : bool) (r : namekey) : Prop :=
  exists body, wf_name n body ab /\ r = rev (labels_of body ab).

Definition fold_key (r : namekey) : namekey := map lower_label r.

(** The relation of two names from their keys. *)
Definition reln (r1 r2 : namekey) : dns_namereln_t :=
  let c := common r1 r2 in
  if c =? Z.min (Zlen r1) (Zlen r2) then
    if Zlen r1 <? Zlen r2 then dns_namereln_contains
    else if Zlen r2 <? Zlen r1 then dns_namereln_subdomain
    else dns_namereln_equal
  else if 0 <? c then dns_namereln_commonancestor else dns_namereln_none.

Lemma keyed_labels n ab r : keyed n ab r -> labels n = Zlen r.
Proof. intros (body & W & ->). by rewrite (wn_labels _ _ _ W), Zlen_rev. Qed.

Lemma keyed_count n ab r : keyed n ab r -> Zlen r <= 128.
Proof.
  intros (body & W & ->). rewrite Zlen_rev. apply labels_of_count; [apply W|].
  pose proof (wn_length _ _ _ W) as H. unfold n_length in H. by rewrite (wn_data _ _ _ W) in H.
Qed.

Lemma keyed_countlabels n ab r : keyed n ab r -> dns_name_countlabels n = Done (Zlen r).
Proof.
  intros K. unfold dns_name_countlabels. rewrite (keyed_labels _ _ _ K). pose proof (keyed_count _ _ _ K).
  by rewrite require_true by lia.
Qed.

Lemma keyed_abs n ab r : keyed n ab r -> dns_name_isabsolute n = ab.
Proof. intros (body & W & _). by apply wf_attr_abs in W. Qed.

(** ** Comparison *)

Lemma keyed_compare n1 n2 ab r1 r2 :
  keyed n1 ab r1 -> keyed n2 ab r2 ->
  exists order, dns_name_fullcompare n1 n2 = Done (reln r1 r2, order, common r1 r2)
    /\ (order ?= 0) = labels_cmp r1 r2.
Proof.
  intros (b1 & W1 & ->) (b2 & W2 & ->). destruct (fullcompare_spec _ _ _ _ _ W1 W2) as (o & E & Ho).
  exists o. split; [|done]. unfold reln_of in E. unfold reln. by rewrite !Zlen_rev.
Qed.

Lemma keyed_equal n1 n2 ab r1 r2 :
  keyed n1 ab r1 -> keyed n2 ab r2 ->
  dns_name_equal n1 n2 = Done (bool_decide (fold_key r1 = fold_key r2)).
Proof.
  intros (b1 & W1 & ->) (b2 & W2 & ->). rewrite (equal_spec _ _ _ _ _ W1 W2). f_equal.
  apply bool_decide_ext. unfold same_labels, fold_key. rewrite !map_rev. split; [by intros ->|].
  intros H. by apply rev_inj.
Qed.

(** The common labels are the front of both keys up to case. *)
Lemma common_spec r1 : forall r2,
  0 <= common r1 r2 <= Zlen r1 /\ common r1 r2 <= Zlen r2
  /\ fold_key (take (Z.to_nat (common r1 r2)) r1) = fold_key (take (Z.to_nat (common r1 r2)) r2)
  /\ (common r1 r2 = Z.min (Zlen r1) (Zlen r2)
      \/ match r1 !! Z.to_nat (common r1 r2), r2 !! Z.to_nat (common r1 r2) with
         | Some l1, Some l2 => lower_label l1 <> lower_label l2 /\ labels_cmp r1 r2 = label_cmp l1 l2
         | _, _ => False
         end).
Proof.
  induction r1 as [|l1 r1 IH]; intros [|l2 r2]; cbn [common labels_cmp];
    try (unfold Zlen; cbn; split_and!; try done; try lia; left; lia).
  destruct (label_cmp l1 l2) eqn:E.
  - destruct (IH r2) as (H1 & H2 & H3 & H4). rewrite !Zlen_cons.
    replace (Z.to_nat (1 + common r1 r2)) with (S (Z.to_nat (common r1 r2))) by lia. cbn [take].
    split_and!; [lia|lia|lia| |].
    + unfold fold_key in *. cbn [map]. rewrite H3. f_equal. by apply label_cmp_eq.
    + destruct H4 as [H4|H4]; [left; lia|by right].
  - rewrite !Zlen_cons. change (Z.to_nat 0) with 0%nat. unfold Zlen. split_and!; try done; try lia. right. cbn.
    split; [|done]. intros H. apply label_cmp_eq in H. congruence.
  - rewrite !Zlen_cons. change (Z.to_nat 0) with 0%nat. unfold Zlen. split_and!; try done; try lia. right. cbn.
    split; [|done]. intros H. apply label_cmp_eq in H. congruence.
Qed.

Lemma length_fold r : length (fold_key r) = length r.
Proof. apply length_map. Qed.

Lemma fold_take n r : fold_key (take n r) = take n (fold_key r).
Proof. unfold fold_key. by rewrite <- firstn_map. Qed.

Lemma fold_app r1 r2 : fold_key (r1 ++ r2) = fold_key r1 ++ fold_key r2.
Proof. apply map_app. Qed.

Lemma fold_drop n r : fold_key (drop n r) = drop n (fold_key r).
Proof. unfold fold_key. by rewrite <- skipn_map. Qed.

(** [r] is the front of [q] up to case. *)
Definition prefix_key (r q : namekey) : Prop := fold_key r `prefix_of` fold_key q.

Lemma prefix_key_take r q :
  prefix_key r q <-> (length r <= length q)%nat /\ fold_key r = fold_key (take (length r) q).
Proof.
  unfold prefix_key. rewrite fold_take. split.
  - intros [k E]. pose proof (f_equal length E) as El. rewrite length_app, !length_fold in El.
    split; [lia|]. rewrite E, <- (length_fold r). by rewrite take_app_length.
  - intros [Hl E]. exists (drop (length r) (fold_key q)). rewrite E at 1. by rewrite take_drop.
Qed.

(** What a comparison of a search key [q] with the key [r] of a node says. *)
Inductive compared (q r : namekey) : dns_namereln_t -> Z -> Prop :=
| compared_equal : fold_key q = fold_key r -> compared q r dns_namereln_equal (Zlen r)
| compared_sub : prefix_key r q -> (length r < length q)%nat -> compared q r dns_namereln_subdomain (Zlen r)
| compared_none lq q' lr r' : q = lq :: q' -> r = lr :: r' -> lower_label lq <> lower_label lr ->
    labels_cmp q r = label_cmp lq lr -> compared q r dns_namereln_none 0
| compared_contains : prefix_key q r -> (length q < length r)%nat -> compared q r dns_namereln_contains (Zlen q)
| compared_common n lq lr : (0 < n)%nat -> q !! n = Some lq -> r !! n = Some lr ->
    fold_key (take n q) = fold_key (take n r) -> lower_label lq <> lower_label lr ->
    labels_cmp q r = label_cmp lq lr -> compared q r dns_namereln_commonancestor (Z.of_nat n).

Lemma compared_spec q r : q <> [] -> r <> [] -> compared q r (reln q r) (common q r).
Proof.
  intros Hq Hr. destruct (common_spec q r) as (H1 & H2 & H3 & H4). unfold reln.
  destruct (Z.eqb_spec (common q r) (Z.min (Zlen q) (Zlen r))) as [E|E].
  - clear H4. destruct (Z.ltb_spec (Zlen q) (Zlen r)) as [Hl|Hl].
    + rewrite E, Z.min_l by lia. constructor 4; [|unfold Zlen in Hl; lia].
      apply prefix_key_take. split; [unfold Zlen in Hl; lia|].
      rewrite E, Z.min_l, take_ge in H3 by (unfold Zlen in *; lia). rewrite H3. unfold Zlen. by rewrite Nat2Z.id.
    + destruct (Z.ltb_spec (Zlen r) (Zlen q)) as [Hl'|Hl'].
      * rewrite E, Z.min_r by lia. constructor 2; [|unfold Zlen in Hl'; lia].
        apply prefix_key_take. split; [unfold Zlen in Hl; lia|].
        rewrite E, Z.min_r, (take_ge r) in H3 by (unfold Zlen in *; lia). rewrite <- H3. unfold Zlen. by rewrite Nat2Z.id.
      * assert (Heq : Zlen q = Zlen r) by lia. rewrite E, Z.min_r by lia. constructor 1.
        rewrite E, Z.min_r, !take_ge in H3 by (unfold Zlen in *; lia). done.
  - destruct H4 as [H4|H4]; [done|].
    destruct (Z.ltb_spec 0 (common q r)) as [Hc|Hc].
    + destruct (q !! _) as [lq|] eqn:Eq; [|by destruct H4]. destruct (r !! _) as [lr|] eqn:Er; [|by destruct H4].
      rewrite <- (Z2Nat.id (common q r)) by lia. econstructor 5; try done; try lia; apply H4.
    + assert (Ec : common q r = 0) by lia. rewrite Ec in *. change (Z.to_nat 0) with 0%nat in H4.
      destruct q as [|lq q'], r as [|lr r']; try done. cbn in H4. econstructor 3; try done; apply H4.
Qed.

(** ** Splitting *)

Lemma keyed_suffix s ab r k target :
  keyed s ab r -> 1 <= k <= Zlen r -> seq_target target k ->
  exists n', dns_name_getlabelsequence s (labels s - k) k target false = Done n'
    /\ keyed n' ab (take (Z.to_nat k) r) /\ buffer n' = buffer target
    /\ (offsets target = None -> offsets n' = None).
Proof.
  intros K Hk Ht. pose proof (keyed_labels _ _ _ K) as Hl. destruct K as (body & W & ->).
  rewrite Zlen_rev in Hk, Hl.
  destruct (getlabelsequence_spec s body ab (labels s - k) k target W) as (n' & E & W' & Hb & Ho); [lia..|done|].
  exists n'. split_and!; try done. eexists. split.
  - replace ab with (seq_abs body ab (labels s - k) k); [exact W'|].
    unfold seq_abs. rewrite Hl. replace (Zlen (labels_of body ab) - k + k) with (Zlen (labels_of body ab)) by lia.
    rewrite Z.eqb_refl. destruct (Z.ltb_spec 0 k); [by destruct ab|lia].
  - assert (Ha : seq_abs body ab (labels s - k) k = ab).
    { unfold seq_abs. rewrite Hl. replace (Zlen (labels_of body ab) - k + k) with (Zlen (labels_of body ab)) by lia.
      rewrite Z.eqb_refl. destruct (Z.ltb_spec 0 k); [by destruct ab|lia]. }
    rewrite <- Ha at 2. rewrite <- labels_of_seq by lia. unfold seq_body. rewrite firstn_rev. f_equal.
    rewrite Hl, take_ge by (rewrite length_drop; unfold Zlen in *; lia). f_equal. unfold Zlen in *. lia.
Qed.

Lemma seq_abs_front body ab k : 1 <= k <= Zlen (labels_of body ab) ->
  seq_abs body ab 0 (Zlen (labels_of body ab) - k) = false.
Proof. intros Hk. unfold seq_abs. destruct (Z.eqb_spec (0 + (Zlen (labels_of body ab) - k)) (Zlen (labels_of body ab))); [lia|done]. Qed.

Lemma seq_front_key body ab k : 1 <= k <= Zlen (labels_of body ab) ->
  rev (labels_of (seq_body body 0 (Zlen (labels_of body ab) - k)) false)
  = drop (Z.to_nat k) (rev (labels_of body ab)).
Proof.
  intros Hk. rewrite <- (seq_abs_front body ab k Hk). rewrite <- labels_of_seq by lia.
  rewrite skipn_rev. unfold seq_body. change (Z.to_nat 0) with 0%nat. rewrite drop_0. do 2 f_equal. unfold Zlen in *. lia.
Qed.

Lemma keyed_prefix s ab r k target :
  keyed s ab r -> 1 <= k <= Zlen r -> seq_target target (Zlen r) ->
  exists n', dns_name_getlabelsequence s 0 (labels s - k) target false = Done n'
    /\ keyed n' false (drop (Z.to_nat k) r) /\ buffer n' = buffer target.
Proof.
  intros K Hk Ht. pose proof (keyed_labels _ _ _ K) as Hl. destruct K as (body & W & ->).
  rewrite Zlen_rev in Hk, Hl, Ht.
  destruct (getlabelsequence_spec s body ab 0 (labels s - k) target W) as (n' & E & W' & Hb & Ho); [lia..| |].
  { destruct Ht as [? Ht]. split; [done|]. destruct (offsets target); [lia|done]. }
  exists n'. split_and!; try done. exists (seq_body body 0 (labels s - k)). rewrite Hl in *.
  rewrite seq_abs_front in W' by done. split; [done|]. by rewrite seq_front_key.
Qed.
(** The search name: it has its own buffer and a table of 128 offsets. *)
Record search_name (n : dns_name_t) (ab : bool) (r : namekey) : Prop := {
  sn_keyed : keyed n ab r;
  sn_bindable : BINDABLE n = true;
  sn_buffer : dns_name_hasbuffer n = true;
  sn_table : exists t, offsets n = Some t
}.

Lemma bindable_set_absolute a b :
  Z.land (set_absolute a b) (Z.lor DNS_NAMEATTR_READONLY DNS_NAMEATTR_DYNAMIC)
  = Z.land a (Z.lor DNS_NAMEATTR_READONLY DNS_NAMEATTR_DYNAMIC).
Proof.
  unfold set_absolute, DNS_NAMEATTR_ABSOLUTE, DNS_NAMEATTR_READONLY, DNS_NAMEATTR_DYNAMIC.
  change (Z.lor 2 4) with 6. apply Z.bits_inj'. intros i Hi.
  destruct (decide (i = 0)) as [->|Hi0]; [by rewrite !Z.land_spec, !andb_false_r|].
  assert (H1 : Z.testbit 1 i = false) by (apply Z.bits_above_log2; cbn; lia).
  destruct b; rewrite ?Z.land_spec, ?Z.lor_spec, ?Z.lnot_spec, ?H1 by lia;
    by rewrite ?orb_false_r, ?andb_true_r.
Qed.

Lemma prefix_offs ls k t : offs 0 ls `prefix_of` t -> offs 0 (take k ls) `prefix_of` t.
Proof.
  intros H. etrans; [|exact H]. rewrite <- (take_drop k ls) at 2. rewrite offs_app. by apply prefix_app_r.
Qed.

(** The front labels of a name keep its table of offsets. *)
Lemma front_wf n body ab k t :
  wf_name n body ab -> offsets n = Some t -> 0 <= k < Zlen (labels_of body ab) ->
  dns_name_getlabelsequence n 0 k n true
    = (REQUIRE BINDABLE n ;;
       Done (mkname (sub (ndata n) 0 (Zlen (wire (take (Z.to_nat k) (labels_of body ab))))) k
               (set_absolute (attributes n) false) (Some t) (buffer n)))
  /\ wf_name (mkname (sub (ndata n) 0 (Zlen (wire (take (Z.to_nat k) (labels_of body ab))))) k
               (set_absolute (attributes n) false) (Some t) (buffer n)) (seq_body body 0 k) false.
Proof.
  intros W Ht Hk. pose proof (wf_attr_abs _ _ _ W) as Habs. destruct W as [Hd Hg Hl Hn Ha Ho].
  rewrite Ht in Ho. set (ls := labels_of body ab) in *.
  assert (Hseq : sub (ndata n) 0 (Zlen (wire (take (Z.to_nat k) ls))) = wire (seq_body ls 0 k)).
  { rewrite Hd, <- (wire_seq ls 0 k) by lia. change (take (Z.to_nat 0) ls) with (@nil (list Z)).
    change (Zlen (wire [])) with 0. by rewrite Z.sub_0_r. }
  assert (Hls : seq_body ls 0 k = labels_of (seq_body body 0 k) false).
  { unfold ls. rewrite labels_of_seq by (fold ls; lia). f_equal. unfold seq_abs. fold ls.
    by rewrite (proj2 (Z.eqb_neq (0 + k) (Zlen ls))) by lia. }
  assert (Htk : seq_body ls 0 k = take (Z.to_nat k) ls) by done.
  split.
  - unfold dns_name_getlabelsequence. rewrite Hn, !require_true by lia. cbn [obind].
    destruct (BINDABLE n); [|done]. cbn [require obind]. unfold setup_offsets. rewrite Ht. cbn [obind].
    rewrite (proj2 (Z.eqb_neq 0 (Zlen ls))) by lia. rewrite (offs_rd t ls 0) by (done || lia). cbn [obind].
    rewrite (proj2 (Z.eqb_neq (0 + k) (Zlen ls))) by lia. rewrite (offs_rd t ls (0 + k)) by (done || lia).
    cbn [obind negb orb andb]. change (take (Z.to_nat 0) ls) with (@nil (list Z)). change (Zlen (wire [])) with 0.
    by rewrite Z.sub_0_r, Z.add_0_l.
  - constructor; cbn.
    + by rewrite Hseq, Hls.
    + by apply Forall_take, Forall_drop.
    + unfold n_length in *. cbn. rewrite Hd in *. unfold sub, Zlen in *. rewrite length_take, length_drop. lia.
    + rewrite <- Hls, Htk. unfold Zlen in *. rewrite length_take. lia.
    + apply (set_absolute_land (attributes n) false).
    + rewrite <- Hls, Htk. by apply prefix_offs.
Qed.

Lemma split_self_spec n ab r k :
  search_name n ab r -> 1 <= k < Zlen r ->
  exists n', split_self n k = Done n' /\ search_name n' false (drop (Z.to_nat k) r).
Proof.
  intros [K Hb Hbuf [t Ht]] Hk. pose proof (keyed_labels _ _ _ K) as Hl. destruct K as (body & W & ->).
  rewrite Zlen_rev in Hl, Hk.
  destruct (front_wf n body ab (Zlen (labels_of body ab) - k) t W Ht) as [E W']; [lia|].
  unfold split_self. rewrite Hl, Hbuf, Hb. rewrite !require_true by lia. cbn [obind].
  rewrite E, Hb. cbn [require obind]. eexists. split; [done|]. split.
  - eexists. split; [done|]. by rewrite seq_front_key by lia.
  - unfold BINDABLE in *. cbn [attributes]. by rewrite bindable_set_absolute.
  - done.
  - by exists t.
Qed.

(** *** Names for a search *)

Lemma fixedname_facts :
  BINDABLE dns_fixedname = true /\ dns_name_hasbuffer dns_fixedname = true
  /\ offsets dns_fixedname = Some odata /\ Zlen odata = 128.
Proof. done. Qed.

Lemma copy_table_prefix dst src ls :
  offs 0 ls `prefix_of` src -> Zlen ls <= Zlen dst ->
  exists t, copy_table dst src (Zlen ls) = Done t /\ offs 0 ls `prefix_of` t /\ Zlen t = Zlen dst.
Proof.
  intros [q ->] Hl. unfold copy_table. unfold Zlen in *. rewrite length_app, length_offs.
  destruct (Z.leb_spec (Z.of_nat (length ls)) (Z.of_nat (length ls + length q))); [|lia].
  unfold sub. change (Z.to_nat 0) with 0%nat. rewrite drop_0, Nat2Z.id, take_app_length' by (by rewrite length_offs).
  unfold blit, Zlen. rewrite length_offs.
  destruct (_ && _) eqn:E; [|lia].
  eexists. split; [done|]. split.
  - change (take (Z.to_nat 0) dst) with (@nil Z). cbn [app]. by apply prefix_app_r.
  - change (take (Z.to_nat 0) dst) with (@nil Z). cbn [app]. rewrite length_app, length_offs, length_drop. lia.
Qed.

Lemma clone_bits a :
  Z.land (Z.land a (u32 (Z.lnot (Z.lor (Z.lor DNS_NAMEATTR_READONLY DNS_NAMEATTR_DYNAMIC) DNS_NAMEATTR_DYNOFFSETS)))) 1
    = Z.land a 1
  /\ Z.land (Z.land a (u32 (Z.lnot (Z.lor (Z.lor DNS_NAMEATTR_READONLY DNS_NAMEATTR_DYNAMIC) DNS_NAMEATTR_DYNOFFSETS))))
       (Z.lor DNS_NAMEATTR_READONLY DNS_NAMEATTR_DYNAMIC) = 0.
Proof. split; rewrite <- Z.land_assoc; [done|]. by apply Z.land_0_r. Qed.

Lemma clone_search n ab r : keyed n ab r -> r <> [] ->
  exists n', dns_name_clone n dns_fixedname = Done n' /\ search_name n' ab r.
Proof.
  intros K Hr. pose proof (keyed_labels _ _ _ K) as Hl. pose proof (keyed_count _ _ _ K) as Hc.
  destruct K as (body & W & ->). rewrite Zlen_rev in *.
  destruct (clone_bits (attributes n)) as [Ha1 Ha2].
  assert (Ht : exists t, (match offsets n with
      | Some stbl => copy_table odata stbl (labels n)
      | None => set_offsets (mkname (ndata n) (labels n)
                  (Z.land (attributes n) (u32 (Z.lnot (Z.lor (Z.lor DNS_NAMEATTR_READONLY DNS_NAMEATTR_DYNAMIC) DNS_NAMEATTR_DYNOFFSETS))))
                  (offsets dns_fixedname) (buffer dns_fixedname)) odata end) = Done t
      /\ offs 0 (labels_of body ab) `prefix_of` t).
  { destruct W as [Hd Hg Hlen Hn _ Ho]. destruct (offsets n) as [st|].
    - rewrite Hl. destruct (copy_table_prefix odata st (labels_of body ab)) as (t & E & P & _); [done..|]. by exists t.
    - destruct (set_offsets_spec (mkname (ndata n) (labels n)
                  (Z.land (attributes n) (u32 (Z.lnot (Z.lor (Z.lor DNS_NAMEATTR_READONLY DNS_NAMEATTR_DYNAMIC) DNS_NAMEATTR_DYNOFFSETS))))
                  (offsets dns_fixedname) (buffer dns_fixedname)) body ab odata) as (t & E & P & _); try done. by exists t. }
  destruct Ht as (t & Et & P).
  unfold dns_name_clone. destruct fixedname_facts as (-> & _ & Eo & _). cbn [require obind].
  rewrite Eo in *. assert (0 < labels n).
  { rewrite Hl. destruct (labels_of body ab); [done|]. rewrite Zlen_cons. pose proof (Zlen_nonneg l0). lia. }
  rewrite (proj2 (Z.ltb_lt 0 (labels n))) by done. rewrite Et. cbn [obind].
  eexists. split; [done|]. split.
  - exists body. split; [|done]. destruct W as [Hd Hg Hlen Hn Ha Ho]. constructor; cbn; try done.
    unfold DNS_NAMEATTR_ABSOLUTE in *. rewrite <- Ha. exact Ha1.
  - unfold BINDABLE. cbn [attributes]. by rewrite Ha2.
  - done.
  - by exists t.
Qed.

Lemma seq_target_fixed k : k <= 128 -> seq_target dns_fixedname k.
Proof. intros Hk. split; [done|]. destruct fixedname_facts as (_ & _ & -> & ->). done. Qed.

Lemma seq_target_init k : seq_target (dns_name_init None) k.
Proof. done. Qed.

(** ** Hashing *)

(** The hash of a key, the same for keys that differ in case. *)
Definition key_hash (hctx : isc_hash) (r : namekey) : Z :=
  match hash_calc hctx (wire (rev (fold_key r))) false with Done v => v | _ => 0 end.

Lemma key_hash_fold hctx r1 r2 : fold_key r1 = fold_key r2 -> key_hash hctx r1 = key_hash hctx r2.
Proof. unfold key_hash. by intros ->. Qed.

Lemma key_hash_range hctx r : 0 <= key_hash hctx r.
Proof.
  unfold key_hash, hash_calc. destruct (hash_sum _ _ _ _ _ _); cbn [obind]; try lia.
  destruct (rd _ _); cbn [obind]; try lia. apply Z.mod_pos_bound. done.
Qed.

Lemma lower_label_idem l : bytes l -> lower_label (lower_label l) = lower_label l.
Proof.
  intros H. unfold lower_label. rewrite map_map. apply map_ext_in. intros c Hc.
  apply tolower_idem. rewrite (Forall_forall (fun x => is_byte x) l) in H. apply H. by apply list_elem_of_In.
Qed.

Lemma labels_of_bytes body ab l : Forall good_label body -> l ∈ labels_of body ab -> bytes l.
Proof.
  intros Hg. unfold labels_of. rewrite elem_of_app. intros [H|H].
  - rewrite Forall_forall in Hg. by apply Hg.
  - destruct ab; [|by apply elem_of_nil in H]. apply list_elem_of_singleton in H as ->. constructor.
Qed.

Lemma same_labels_lower body ab : Forall good_label body ->
  same_labels (labels_of body ab) (map lower_label (labels_of body ab)).
Proof.
  intros Hg. unfold same_labels. rewrite map_map. apply map_ext_in. intros l Hl%list_elem_of_In.
  symmetry. apply lower_label_idem. by eapply labels_of_bytes.
Qed.

Lemma short_lower ls : Forall short_label ls -> Forall short_label (map lower_label ls).
Proof.
  intros H. apply Forall_map. eapply Forall_impl; [exact H|]. intros l Hl. unfold short_label, lower_label in *. len.
Qed.

Lemma keyed_fullhash hctx n ab r :
  hash_ok hctx -> keyed n ab r -> r <> [] -> dns_name_fullhash hctx n false = Done (key_hash hctx r).
Proof.
  intros [Hv Hlim] K Hr. pose proof (keyed_labels _ _ _ K) as Hl. destruct K as (body & [Hd Hg Hlen Hn Ha Ho] & ->).
  unfold dns_name_fullhash. rewrite Hl. rewrite (proj2 (Z.eqb_neq _ 0)).
  2: { destruct (rev (labels_of body ab)) as [|x q]; [done|]. rewrite Zlen_cons. pose proof (Zlen_nonneg q). lia. }
  unfold n_length in Hlen. unfold isc_hash_calc. rewrite require_true by lia. cbn [obind].
  assert (E : hash_calc hctx (ndata n) false = hash_calc hctx (wire (rev (fold_key (rev (labels_of body ab))))) false).
  { apply hash_calc_fold. rewrite Hd. unfold fold_key. rewrite map_rev, rev_involutive.
    apply fold_wire; [by apply labels_short|by apply short_lower, labels_short|by apply same_labels_lower]. }
  unfold key_hash. rewrite <- E. unfold hash_calc.
  destruct (hash_sum_total (rndvector hctx) (ndata n) false (length (ndata n)) 0 0) as [v ->];
    [lia|unfold Zlen; lia|lia|]. cbn [obind].
  destruct (rd_ok (rndvector hctx) (Zlen (ndata n))) as [w ->]; [pose proof (Zlen_nonneg (ndata n)); lia|]. done.
Qed.

(** ** Names of nodes *)

Lemma keyed_length n ab r : keyed n ab r -> n_length n = Zlen (wire (rev r)).
Proof. intros (body & W & ->). unfold n_length. by rewrite (wn_data _ _ _ W), rev_involutive. Qed.

Lemma getlabelsequence_table s first k target same n' t :
  dns_name_getlabelsequence s first k target same = Done n' -> offsets target = Some t ->
  exists t', offsets n' = Some t'.
Proof.
  intros H Ht. unfold dns_name_getlabelsequence in H. rewrite Ht in H.
  repeat (apply obind_Done in H as (? & ? & H)).
  destruct (negb same || _); [|by injection H as <-; exists t].
  apply obind_Done in H as (? & ? & H). injection H as <-. by eexists.
Qed.

Lemma split_fixed n ab r k :
  keyed n ab r -> 1 <= k < Zlen r ->
  exists p s, dns_name_split n k (Some dns_fixedname) (Some dns_fixedname) = Done (Some p, Some s)
    /\ keyed p false (drop (Z.to_nat k) r) /\ keyed s ab (take (Z.to_nat k) r)
    /\ exists t, offsets s = Some t.
Proof.
  intros K Hk. pose proof (keyed_labels _ _ _ K) as Hl. pose proof (keyed_count _ _ _ K) as Hc.
  destruct (keyed_prefix n ab r k dns_fixedname K) as (p & Ep & Kp & _); [lia|by apply seq_target_fixed|].
  destruct (keyed_suffix n ab r k dns_fixedname K) as (s & Es & Ks & _); [lia|apply seq_target_fixed; lia|].
  exists p, s. unfold dns_name_split. rewrite !require_true by (done || lia). cbn [obind].
  rewrite Ep. cbn [obind]. rewrite Es. cbn [obind]. split_and!; try done.
  eapply getlabelsequence_table; [exact Es|apply fixedname_facts].
Qed.

(** The attributes of a node's name. *)
Lemma node_attrs a : Z.land (Z.lor (Z.land a 7) DNS_NAMEATTR_READONLY) DNS_NAMEATTR_ABSOLUTE = Z.land a 1
  /\ Z.land (Z.lor (Z.land a (Z.lnot DNS_NAMEATTR_ABSOLUTE)) DNS_NAMEATTR_READONLY) DNS_NAMEATTR_ABSOLUTE = 0.
Proof.
  unfold DNS_NAMEATTR_ABSOLUTE, DNS_NAMEATTR_READONLY. split; rewrite Z.land_lor_distr_l, <- Z.land_assoc.
  - change (Z.land 7 1) with 1. change (Z.land 2 1) with 0. by rewrite Z.lor_0_r.
  - change (Z.land (Z.lnot 1) 1) with 0. by rewrite Z.land_0_r.
Qed.

(** The node that [create_node] makes. *)
Lemma create_node_spec h mem name ab r t :
  keyed name ab r -> offsets name = Some t -> r <> [] -> mem <> 0 ->
  exists i, create_node h mem name = Done (ISC_R_SUCCESS, <[mem := mkNode 0 0 0 BLACK false 0 i]> h)
    /\ (forall n, info n = i -> keyed (NODENAME n) ab r) /\ data i = 0 /\ hashval i = 0.
Proof.
  intros K Ht Hr Hm. pose proof (keyed_countlabels _ _ _ K) as Hc. pose proof (keyed_labels _ _ _ K) as Hl.
  pose proof (keyed_count _ _ _ K).
  assert (0 < Zlen r) by (destruct r; [done|rewrite Zlen_cons; pose proof (Zlen_nonneg r); lia]).
  destruct K as (body & [Hd Hg Hlen Hn Ha Ho] & ->). rewrite Zlen_rev in *.
  unfold create_node. rewrite Ht, Hc. cbn [obind]. rewrite require_true by lia. cbn [obind].
  rewrite (proj2 (Z.eqb_neq mem 0)) by done. rewrite Ht in Ho.
  destruct (copy_table_prefix (replicate (Z.to_nat (Zlen (labels_of body ab))) 0) t (labels_of body ab))
    as (t' & Et & P & _); [done|unfold Zlen; rewrite length_replicate; lia|].
  rewrite Et. cbn [obind]. eexists. split; [done|]. split_and!; [|done..].
  intros n En. exists body. split; [|done]. unfold NODENAME. rewrite En.
  constructor; cbn; try done.
  - unfold n_length. by rewrite <- Hd, take_ge by (unfold Zlen; lia).
  - unfold n_length in *. cbn. unfold Zlen in *. rewrite length_take. lia.
  - change (Z.land (Z.lor (Z.land (attributes name) 7) DNS_NAMEATTR_READONLY) DNS_NAMEATTR_ABSOLUTE = Z.b2z ab).
    rewrite (proj1 (node_attrs _)). exact Ha.
Qed.

Lemma create_node_nomem h name ab r t :
  keyed name ab r -> offsets name = Some t -> r <> [] -> create_node h 0 name = Done (ISC_R_NOMEMORY, h).
Proof.
  intros K Ht Hr. unfold create_node. rewrite Ht, (keyed_countlabels _ _ _ K). cbn [obind].
  rewrite require_true; [done|]. destruct r; [done|rewrite Zlen_cons; pose proof (Zlen_nonneg r); lia].
Qed.

(** A node that keeps the front labels of its name. *)
Lemma set_prefix_keyed n n' ab r k p :
  keyed (NODENAME n) ab r -> 1 <= k < Zlen r -> keyed p false (drop (Z.to_nat k) r) ->
  info n' = set_prefix (n_length p) (labels p) (info n) -> keyed (NODENAME n') false (drop (Z.to_nat k) r).
Proof.
  intros K Hk Kp En. rewrite (keyed_length _ _ _ Kp), (keyed_labels _ _ _ Kp) in En.
  destruct K as (body & W & ->). rewrite Zlen_rev in Hk. set (ls := labels_of body ab) in *.
  destruct (front_wf (NODENAME n) body ab (Zlen ls - k) (name_offsets (info n)) W eq_refl) as [_ W'];
    [fold ls; lia|].
  fold ls in W'. exists (seq_body body 0 (Zlen ls - k)). split; [|unfold ls; rewrite seq_front_key; [done|fold ls; lia]].
  assert (Er : rev (drop (Z.to_nat k) (rev ls)) = take (Z.to_nat (Zlen ls - k)) ls).
  { rewrite skipn_rev, rev_involutive. f_equal. unfold Zlen in *. lia. }
  rewrite Er in En. replace (Zlen (drop (Z.to_nat k) (rev ls))) with (Zlen ls - k) in En
    by (unfold Zlen in *; rewrite length_drop, length_rev; lia).
  unfold NODENAME in *. rewrite En. cbn [info set_prefix namelen name_data offsetlen attrs name_offsets] in *.
  pose proof (wn_length _ _ _ W) as Hlen. pose proof (wn_data _ _ _ W) as Hd. unfold n_length in Hlen. cbn in Hd, Hlen.
  fold ls in Hd.
  assert (Ed : take (Z.to_nat (Zlen (wire (take (Z.to_nat (Zlen ls - k)) ls)))) (name_data (info n))
               = sub (take (Z.to_nat (namelen (info n))) (name_data (info n))) 0
                   (Zlen (wire (take (Z.to_nat (Zlen ls - k)) ls)))).
  { unfold sub. change (Z.to_nat 0) with 0%nat. rewrite drop_0, take_take. f_equal.
    assert (Hle : (length (wire (take (Z.to_nat (Zlen ls - k)) ls)) <= length (wire ls))%nat).
    { generalize (Z.to_nat (Zlen ls - k)). intros m. rewrite <- (take_drop m ls) at 2. rewrite wire_app, length_app. lia. }
    apply (f_equal length) in Hd. rewrite length_take in Hd.
    revert Hle. generalize (wire (take (Z.to_nat (Zlen ls - k)) ls)). intros w Hle. unfold Zlen. lia. }
  rewrite Ed. destruct W' as [Hd' Hg' Hl' Hn' Ha' Ho']. constructor; try done. apply node_attrs.
Qed.
