(* ===== verification/RbtTrie.v ===== *)
(** * The tree of trees as a trie

    The abstract view of a tree: which nodes are on the level below each node, in
    which red-black tree, and which labels each node adds ([trie]).  [trie_ok] is
    the invariant that relates it to the nodes in memory, [hash_rep] the invariant
    of the hash table.  A node stands for the labels on the path from the top. *)

From stdpp Require Import sorting.
From S2P Require Import Prelude Buffer Name NameTheory Hash Rbt RbtTheory RbtTree RbtNames.

Record trie : Type := mkTrie {
  lev : Z -> tree;               (* the level below a node; that of 0 is the top *)
  key : Z -> namekey             (* the labels of a node *)
}.

(** The nodes from the top to [x], with all their labels. *)
Inductive path (T : trie) : list Z -> namekey -> Z -> Prop :=
| path_top : path T [] [] 0
| path_node ns k u x : path T ns k u -> x ∈ inorder (lev T u) -> path T (ns ++ [x]) (k ++ key T x) x.

(** The order of two nodes of a level: their last labels differ. *)
Definition head_lt (T : trie) (x y : Z) : Prop :=
  match key T x, key T y with l1 :: _, l2 :: _ => label_cmp l1 l2 = Lt | _, _ => False end.

Record trie_ok (h : store) (root : Z) (T : trie) : Prop := {
  to_null : h !! 0 = None;
  to_root : root = ptr (lev T 0);
  to_level : forall u, tree_rep h u (lev T u);
  to_rb : forall u, exists n, rb BLACK n (lev T u);
  to_apart : forall u v x, x ∈ inorder (lev T u) -> x ∈ inorder (lev T v) -> u = v;
  to_reach : forall x n, h !! x = Some n -> exists ns k, path T ns k x;
  to_node : forall u x n, x ∈ inorder (lev T u) -> h !! x = Some n ->
    down n = ptr (lev T x) /\ keyed (NODENAME n) (bool_decide (u = 0)) (key T x) /\ key T x <> [];
  to_order : forall u, StronglySorted (head_lt T) (inorder (lev T u));
  to_size : forall ns k x, path T ns k x -> Zlen (wire (rev k)) <= 255
}.

(** The nodes of a chain of the hash table. *)
Fixpoint chain (h : store) (p : Z) (c : list Z) : Prop :=
  match c with
  | [] => p = 0
  | x :: c => p = x /\ x <> 0 /\ exists n, h !! x = Some n /\ chain h (hashnext (info n)) c
  end.

Record hash_rep (hctx : isc_hash) (h : store) (T : trie) (table : list Z) : Prop := {
  hr_size : 0 < Zlen table;
  hr_chain : forall i p, table !! i = Some p -> exists c, chain h p c /\ NoDup c
    /\ forall x, x ∈ c <-> exists n, h !! x = Some n /\ hashval (info n) mod Zlen table = Z.of_nat i;
  hr_val : forall ns k x n, h !! x = Some n -> path T ns k x -> hashval (info n) = key_hash hctx k
}.

(** ** Levels *)

Section trie.
Context (h : store) (root : Z) (T : trie) (ok : trie_ok h root T).

Lemma member_node u x : x ∈ inorder (lev T u) -> x <> 0 /\ exists n, h !! x = Some n.
Proof.
  intros Hx. pose proof (t_rep _ _ _ (to_level _ _ _ ok u)) as H. revert H Hx.
  generalize true as b, u at 1 as par. induction (lev T u) as [|c l IHl y r IHr]; intros b par; cbn; [intros _ H; by apply elem_of_nil in H|].
  intros (Hy & (dn & dt & E) & Hl & Hr). rewrite elem_of_app, elem_of_cons.
  intros [H|[->|H]]; [by eapply IHl| |by eapply IHr]. split; [done|by eexists].
Qed.

Lemma no_zero u : 0 ∉ inorder (lev T u).
Proof. intros H. by apply member_node in H as [? _]. Qed.

Lemma member_key u x : x ∈ inorder (lev T u) -> exists l r, key T x = l :: r.
Proof.
  intros Hx. destruct (member_node u x Hx) as [_ [n Hn]].
  destruct (to_node _ _ _ ok u x n Hx Hn) as (_ & _ & Hk). destruct (key T x) as [|l r]; [done|]. by exists l, r.
Qed.

(** The nodes of a level have different last labels. *)
Lemma head_unique u x y lx rx ly ry :
  x ∈ inorder (lev T u) -> y ∈ inorder (lev T u) -> key T x = lx :: rx -> key T y = ly :: ry ->
  lower_label lx = lower_label ly -> x = y.
Proof.
  intros Hx Hy Kx Ky E. apply label_cmp_eq in E.
  destruct (decide (x = y)) as [|Hne]; [done|exfalso].
  assert (Hlt : forall a b, head_lt T a b -> forall la ra lb rb, key T a = la :: ra -> key T b = lb :: rb ->
                label_cmp la lb = Lt).
  { unfold head_lt. intros a b H la ra lb rb' Ea Eb. by rewrite Ea, Eb in H. }
  pose proof (to_order _ _ _ ok u) as S. apply list_elem_of_split in Hx as (a & b & El).
  rewrite El in S, Hy. apply StronglySorted_app in S as (S & _ & Sb).
  rewrite elem_of_app, elem_of_cons in Hy. destruct Hy as [Hy|[->|Hy]]; [|done|].
  - specialize (S y x Hy (list_elem_of_here _ _)).
    pose proof (Hlt _ _ S _ _ _ _ Ky Kx) as H. rewrite cmp_antisym, E in H. done.
  - apply StronglySorted_cons in Sb as [Sb _]. rewrite Forall_forall in Sb. specialize (Sb y Hy).
    pose proof (Hlt _ _ Sb _ _ _ _ Kx Ky) as H. congruence.
Qed.

(** ** Paths *)

Lemma path_inv ns k x : path T ns k x ->
  (ns = [] /\ k = [] /\ x = 0)
  \/ exists ns0 k0 u, ns = ns0 ++ [x] /\ k = k0 ++ key T x /\ path T ns0 k0 u /\ x ∈ inorder (lev T u).
Proof. intros [|ns0 k0 u y P Hy]; [by left|right]. by exists ns0, k0, u. Qed.

Lemma path_member ns k x : path T ns k x -> ns <> [] -> exists u, x ∈ inorder (lev T u).
Proof. intros P Hn. apply path_inv in P as [(-> & _)|(? & ? & u & _ & _ & _ & Hx)]; [done|by exists u]. Qed.

Lemma path_zero ns k x : path T ns k x -> (x = 0 <-> ns = []).
Proof.
  intros P. split.
  - intros ->. apply path_inv in P as [(-> & _)|(? & ? & u & _ & _ & _ & Hx)]; [done|]. by apply no_zero in Hx.
  - intros ->. apply path_inv in P as [(_ & _ & ->)|([|] & ? & u & E & _)]; done.
Qed.

Lemma path_unique ns k x : path T ns k x -> forall ns' k', path T ns' k' x -> ns = ns' /\ k = k'.
Proof.
  induction 1 as [|ns k u x P IH Hx]; intros ns' k' P'.
  - pose proof (proj1 (path_zero _ _ _ P') eq_refl) as ->. apply path_inv in P' as [(_ & -> & _)|([|] & ? & ? & E & _)]; done.
  - apply path_inv in P' as [(-> & -> & ->)|(ns0 & k0 & u' & -> & -> & P' & Hx')]; [by apply no_zero in Hx|].
    pose proof (to_apart _ _ _ ok _ _ _ Hx Hx') as <-. by destruct (IH _ _ P') as [-> ->].
Qed.

Lemma path_det ns k u : path T ns k u -> forall k' u', path T ns k' u' -> k = k' /\ u = u'.
Proof.
  induction 1 as [|ns k u x P IH Hx]; intros k' u' P'.
  - apply path_inv in P' as [(_ & -> & ->)|([|] & ? & ? & E & _)]; done.
  - apply path_inv in P' as [(E & _)|(ns0 & k0 & v & E & -> & P' & Hx')]; [by destruct ns|].
    apply app_inj_tail in E as [-> ->]. by destruct (IH _ _ P') as [-> ->].
Qed.

(** A path goes through the nodes of its front. *)
Lemma path_front ms : forall ns k x, path T (ns ++ ms) k x -> exists k0 u, path T ns k0 u /\ k0 `prefix_of` k.
Proof.
  induction ms as [|y ms IH] using rev_ind; intros ns k x P.
  - rewrite app_nil_r in P. by exists k, x.
  - rewrite app_assoc in P. apply path_inv in P as [(E & _)|(ns0 & k0 & v & E & -> & P & Hx)];
      [by destruct (ns ++ ms)|].
    apply app_inj_tail in E as [<- <-]. destruct (IH _ _ _ P) as (k1 & u & P1 & Hp). exists k1, u.
    split; [done|]. by apply prefix_app_r.
Qed.

Lemma path_next ns y ms k x k0 u :
  path T (ns ++ y :: ms) k x -> path T ns k0 u ->
  y ∈ inorder (lev T u) /\ (k0 ++ key T y) `prefix_of` k /\ path T (ns ++ [y]) (k0 ++ key T y) y.
Proof.
  intros P P0. replace (ns ++ y :: ms) with ((ns ++ [y]) ++ ms) in P by (by rewrite <- app_assoc).
  apply path_front in P as (k1 & v & P1 & Hp).
  apply path_inv in P1 as [(E & _)|(ns0 & k2 & w & E & -> & P2 & Hy)]; [by destruct ns|].
  apply app_inj_tail in E as [<- <-]. destruct (path_det _ _ _ P0 _ _ P2) as [<- <-]. split_and!; try done.
  by econstructor.
Qed.

Lemma prefix_key_trans k1 k2 q : k1 `prefix_of` k2 -> prefix_key k2 q -> prefix_key k1 q.
Proof. intros [r ->] H. unfold prefix_key in *. rewrite fold_app in H. etrans; [|exact H]. by apply prefix_app_r. Qed.

Lemma prefix_key_app k r q : prefix_key (k ++ r) q <-> prefix_key k q /\ prefix_key r (drop (length k) q).
Proof.
  unfold prefix_key. rewrite fold_app, fold_drop, <- (length_fold k). split.
  - intros [z E]. rewrite E, <- app_assoc. split; [by apply prefix_app_r|].
    rewrite drop_app_length. by apply prefix_app_r.
  - intros [[z E] [w E']]. rewrite E in *. rewrite drop_app_length in E'. rewrite E', app_assoc. by apply prefix_app_r.
Qed.

Lemma prefix_key_length k q : prefix_key k q -> (length k <= length q)%nat.
Proof. intros H. by apply prefix_key_take in H as [H _]. Qed.

Lemma prefix_key_head l r q : prefix_key (l :: r) q -> exists lq q', q = lq :: q' /\ lower_label l = lower_label lq.
Proof. intros [z E]. destruct q as [|lq q']; [done|]. injection E as E _. by exists lq, q'. Qed.

(** At most one node of a level begins a name. *)
Lemma member_unique u x y q : x ∈ inorder (lev T u) -> y ∈ inorder (lev T u) ->
  prefix_key (key T x) q -> prefix_key (key T y) q -> x = y.
Proof.
  intros Hx Hy Px Py. destruct (member_key _ _ Hx) as (lx & rx & Kx), (member_key _ _ Hy) as (ly & ry & Ky).
  rewrite Kx in Px. rewrite Ky in Py. apply prefix_key_head in Px as (l & q' & -> & Ex), Py as (l2 & q2 & E & Ey).
  injection E as <- <-. eapply head_unique; try done. congruence.
Qed.

(** The paths to the names above a name are parts of one path. *)
Lemma path_linear q ns k u : path T ns k u -> prefix_key k q -> forall ns' k' u', path T ns' k' u' -> prefix_key k' q ->
  ns `prefix_of` ns' \/ ns' `prefix_of` ns.
Proof.
  induction 1 as [|ns k u x P IH Hx]; intros Hk ns' k' u' P' Hk'; [left; apply prefix_nil|].
  pose proof (proj1 (prefix_key_app _ _ _) Hk) as [Hk0 Hkx].
  destruct (IH Hk0 _ _ _ P' Hk') as [[ms ->]|H]; [|right; by apply prefix_app_r].
  destruct ms as [|y ms]; [right; rewrite app_nil_r; by apply prefix_app_r|].
  destruct (path_next _ _ _ _ _ _ _ P' P) as (Hy & Hp & _).
  pose proof (prefix_key_trans _ _ _ Hp Hk') as [_ Hky]%prefix_key_app.
  rewrite (member_unique u x y _ Hx Hy Hkx Hky). left. exists ms. by rewrite <- app_assoc.
Qed.

Lemma path_length ns k u : path T ns k u -> (length ns <= length k)%nat.
Proof.
  induction 1 as [|ns k u x P IH Hx]; [done|]. destruct (member_key _ _ Hx) as (l & r & ->).
  rewrite !length_app. cbn. lia.
Qed.
End trie.
