(* ===== verification/RbtFind.v ===== *)
(** * The search in the tree of trees

    What [dns_rbt_findnode] finds, with the hash table and without. *)

From stdpp Require Import sorting.
From S2P Require Import Prelude Buffer Name NameTheory Hash Rbt RbtTheory RbtDelete RbtTree RbtNames RbtTrie.

Lemma elem_position x t : x ∈ inorder t -> exists k c l r, t = plug k (Node c l x r).
Proof.
  induction t as [|c l IHl y r IHr]; cbn; [intros H; by apply elem_of_nil in H|].
  rewrite elem_of_app, elem_of_cons. intros [H|[->|H]].
  - destruct (IHl H) as (k & c' & l' & r' & ->). exists (k ++ [Frame L c y r]), c', l', r'. by rewrite plug_app.
  - by exists [], c, l, r.
  - destruct (IHr H) as (k & c' & l' & r' & ->). exists (k ++ [Frame R c y l]), c', l', r'. by rewrite plug_app.
Qed.

(** The node above a level. *)
Lemma find_up_loop h u k : forall c l x r fuel,
  tree_rep h u (plug k (Node c l x r)) -> (length k < fuel)%nat -> loop fuel (find_up_body h) x = Done u.
Proof.
  induction k as [|[d c' y s] k IH]; intros c l x r fuel H Hf; (destruct fuel as [|fuel]; [cbn in Hf; lia|]);
    destruct (read_node _ _ _ _ _ _ _ H) as (_ & dn & dt & Hn); cbn [loop];
    unfold find_up_body at 1; rewrite (node_at_Done _ _ _ Hn); cbn [obind is_root parent at_root up_of]; [done|].
  cbn [plug] in H. destruct d; cbn [fill] in H; (eapply IH; [exact H|cbn in Hf; lia]).
Qed.

Section find.
Context (hctx : isc_hash) (t : dns_rbt) (T : trie) (ok : trie_ok (nodes t) (root t) T).

Lemma find_up_spec u x : x ∈ inorder (lev T u) -> find_up (nodes t) x = Done u.
Proof.
  intros Hx. pose proof (to_level _ _ _ ok u) as H. pose proof (rep_size _ _ _ H) as Hs.
  destruct (elem_position _ _ Hx) as (k & c & l & r & E). rewrite E in H, Hs.
  pose proof (length_plug k (Node c l x r)). eapply find_up_loop; [exact H|]. unfold rbt_fuel. lia.
Qed.

(** ** The chains of the hash table *)

Definition hit (u hash : Z) (r : namekey) (x : Z) : Prop :=
  x ∈ inorder (lev T u) /\ fold_key (key T x) = fold_key r
  /\ exists n, nodes t !! x = Some n /\ hashval (info n) = hash.

Lemma bucket_loop u hash name r c : keyed name (bool_decide (u = 0)) r -> forall p fuel,
  chain (nodes t) p c -> (length c < fuel)%nat ->
  exists x, loop fuel (bucket_body (nodes t) hash u name) p = Done x
    /\ (x = 0 /\ (forall y, y ∈ c -> ~ hit u hash r y) \/ x <> 0 /\ hit u hash r x).
Proof.
  intros Kr. induction c as [|x c IH]; intros p fuel Hc Hf; (destruct fuel as [|fuel]; [cbn in Hf; lia|]).
  - cbn in Hc. subst p. exists 0. split; [done|left]. split; [done|]. intros y Hy. by apply elem_of_nil in Hy.
  - destruct Hc as (-> & Hx & n & Hn & Hc). cbn [loop]. unfold bucket_body at 1.
    rewrite (proj2 (Z.eqb_neq x 0)) by done. rewrite (node_at_Done _ _ _ Hn). cbn [obind].
    assert (Hnext : ~ hit u hash r x -> exists y, loop fuel (bucket_body (nodes t) hash u name) (hashnext (info n)) = Done y
      /\ (y = 0 /\ (forall z, z ∈ x :: c -> ~ hit u hash r z) \/ y <> 0 /\ hit u hash r y)).
    { intros Hno. destruct (IH _ fuel Hc) as (y & E & Hy); [cbn in Hf; lia|]. exists y. split; [done|].
      destruct Hy as [[-> Hy]|Hy]; [left|by right]. split; [done|]. intros z [->|Hz]%elem_of_cons; auto. }
    destruct (Z.eqb_spec hash (hashval (info n))) as [Eh|Eh]; cbn [negb];
      [|apply Hnext; intros (_ & _ & n' & Hn' & Eh'); congruence].
    destruct (to_reach _ _ _ ok x n Hn) as (ns & k & P).
    destruct (path_inv _ _ _ _ P) as [(_ & _ & E0)|(ns0 & k0 & v & _ & _ & _ & Hv)]; [done|].
    rewrite (find_up_spec v x Hv). cbn [obind].
    destruct (Z.eqb_spec v u) as [->|Hvu]; cbn [negb];
      [|apply Hnext; intros (Hu & _); by rewrite (to_apart _ _ _ ok _ _ _ Hu Hv) in Hvu].
    destruct (to_node _ _ _ ok u x n Hv Hn) as (_ & Kx & _). rewrite (keyed_equal _ _ _ _ _ Kx Kr). cbn [obind].
    destruct (bool_decide_reflect (fold_key (key T x) = fold_key r)) as [Ek|Ek];
      [|apply Hnext; by intros (_ & Ek' & _)].
    exists x. split; [done|right]. split; [done|]. split_and!; [done..|]. by exists n.
Qed.

Lemma getlabelsequence_bindable s first k target same n' :
  dns_name_getlabelsequence s first k target same = Done n' -> BINDABLE n' = BINDABLE target.
Proof.
  intros H. unfold dns_name_getlabelsequence in H. repeat (apply obind_Done in H as (? & ? & H)).
  assert (E : BINDABLE n' = BINDABLE (mkname [] 0 (attributes n') None None)) by done. rewrite E.
  unfold BINDABLE at 1. cbn [attributes].
  assert (Ea : exists b, attributes n' = set_absolute (attributes target) b).
  { destruct (offsets target); [destruct (negb same || _)|].
    - apply obind_Done in H as (? & ? & H). injection H as <-. by eexists.
    - injection H as <-. by eexists.
    - injection H as <-. by eexists. }
  destruct Ea as [b ->]. by rewrite bindable_set_absolute.
Qed.

Lemma chain_size c p : chain (nodes t) p c -> NoDup c -> (length c <= base.size (nodes t))%nat.
Proof.
  intros Hc Hd. rewrite <- size_dom, <- (size_list_to_set (C := gset Z) c) by done.
  apply subseteq_size. intros x Hx. apply elem_of_list_to_set in Hx. revert p Hc Hx. clear Hd.
  induction c as [|y c IH]; intros p Hc Hx; [by apply elem_of_nil in Hx|].
  destruct Hc as (-> & _ & n & Hn & Hc). apply elem_of_cons in Hx as [->|Hx]; [apply elem_of_dom; by eexists|].
  by eapply IH.
Qed.

(** ** The search for the labels in the hash table *)

Lemma hash_search_spec table name q search ns k u n : forall tl,
  hash_ok hctx -> hash_rep hctx (nodes t) T table ->
  keyed name true q -> path T ns k u -> prefix_key k q -> (length k < length q)%nat ->
  keyed search (bool_decide (u = 0)) (drop (length k) q) ->
  1 <= tl -> tl + Z.of_nat n = Zlen (drop (length k) q) + 1 ->
  exists res, hash_search hctx (nodes t) table name search (Zlen (drop (length k) q)) (Zlen k) u tl n = Done res
    /\ match res with
       | None => forall x, x ∈ inorder (lev T u) -> prefix_key (key T x) (drop (length k) q) -> Zlen (key T x) < tl
       | Some (x, c) => x ∈ inorder (lev T u) /\ prefix_key (key T x) (drop (length k) q) /\ c = Zlen (key T x)
       end.
Proof.
  induction n as [|n IH]; intros tl HO HR K P Hk Hlt Ks Htl Hn; cbn [hash_search].
  - eexists. split; [done|]. intros x Hx Hp%prefix_key_length. unfold Zlen in *. lia.
  - assert (Hq : Zlen (drop (length k) q) = Zlen q - Zlen k) by (unfold Zlen; rewrite length_drop; lia).
    pose proof (keyed_labels _ _ _ K) as Hl. pose proof (keyed_labels _ _ _ Ks) as Hls.
    assert (Hkn : 0 <= Zlen k) by apply Zlen_nonneg.
    destruct (keyed_suffix name true q (Zlen k + tl) (dns_name_init None) K) as (n1 & E1 & K1 & _ & Ho1);
      [lia|done|].
    replace (labels name - (Zlen k + tl)) with (Zlen (drop (length k) q) - tl) in E1 by lia. rewrite E1. cbn [obind].
    set (full := take (Z.to_nat (Zlen k + tl)) q) in *.
    assert (Hfull : full <> []).
    { intros E. apply (f_equal length) in E. unfold full in E. rewrite length_take in E. cbn in E. unfold Zlen in *. lia. }
    rewrite (keyed_fullhash _ _ _ _ HO K1 Hfull). cbn [obind].
    destruct (keyed_suffix search _ _ tl n1 Ks) as (n2 & E2 & K2 & _); [lia| |].
    { split; [by rewrite (getlabelsequence_bindable _ _ _ _ _ _ E1)|by rewrite Ho1]. }
    rewrite Hls in E2. rewrite E2. cbn [obind]. destruct HR as [Hsz Hch Hval].
    rewrite require_true by lia. cbn [obind].
    set (hash := key_hash hctx full) in *.
    pose proof (Z.mod_pos_bound hash (Zlen table) Hsz) as Hm.
    destruct (rd_ok table (hash mod Zlen table) Hm) as [p Ep]. rewrite Ep. cbn [obind].
    apply rd_Done in Ep as [_ Ep]. destruct (Hch _ _ Ep) as (c & Hc & Hd & Hmem).
    destruct (bucket_loop u hash n2 _ c K2 p (rbt_fuel (nodes t)) Hc) as (x & Ex & Hx);
      [pose proof (chain_size c p Hc Hd); unfold rbt_fuel; lia|].
    rewrite Ex. cbn [obind].
    assert (Hsame : forall y, fold_key (key T y) = fold_key (take (Z.to_nat tl) (drop (length k) q)) ->
      prefix_key (key T y) (drop (length k) q) /\ Zlen (key T y) = tl).
    { intros y Ey. pose proof (f_equal length Ey) as El. rewrite !length_fold, length_take in El. unfold Zlen in *.
      split; [|lia]. apply prefix_key_take. split; [lia|]. rewrite Ey. do 2 f_equal. lia. }
    destruct Hx as [[-> Hnone]|[Hx0 (Hx & Efold & _)]].
    + cbn [Z.eqb]. destruct (IH (tl + 1)) as (res & Er & Hres); try done; try lia.
      exists res. split; [done|]. destruct res as [[x c']|]; [done|]. intros y Hy Hp.
      specialize (Hres y Hy Hp). destruct (decide (Zlen (key T y) = tl)) as [Ey|]; [exfalso|lia].
      apply prefix_key_take in Hp as [Hle Hf]. pose proof (member_node _ _ _ ok u y Hy) as [_ [n' Hn']].
      assert (Efy : fold_key (key T y) = fold_key (take (Z.to_nat tl) (drop (length k) q))).
      { rewrite Hf. do 2 f_equal. unfold Zlen in *. lia. }
      assert (Hv : hashval (info n') = hash).
      { rewrite (Hval (ns ++ [y]) (k ++ key T y) y n' Hn') by (by econstructor). apply key_hash_fold.
        apply prefix_key_take in Hk as [_ Hk]. unfold full. rewrite fold_app, Hk, Efy, <- fold_app. f_equal.
        rewrite take_take_drop. f_equal. unfold Zlen. lia. }
      apply (Hnone y); [|split_and!; try done; by exists n'].
      apply Hmem. exists n'. split; [done|]. rewrite Hv. lia.
    + rewrite (proj2 (Z.eqb_neq x 0)) by done. eexists. split; [done|]. destruct (Hsame x Efold) as [? ?].
      split_and!; done.
Qed.
End find.

(** ** The descent *)

Definition hash_ready (hctx : isc_hash) (t : dns_rbt) (T : trie) : Prop :=
  match hashtable t with
  | Some table => hash_ok hctx /\ hash_rep hctx (nodes t) T table
  | None => True
  end.

(** The nodes a search may return. *)
Definition usable (h : store) (options : Z) (x : Z) : bool :=
  match h !! x with
  | Some n => negb (data (info n) =? 0) || option_set options DNS_RBTFIND_EMPTYDATA
  | None => false
  end.

(** The last of them on a path, 0 when there is none. *)
Definition best (h : store) (options : Z) (ns : list Z) : Z :=
  foldl (fun b x => if usable h options x then x else b) 0 ns.

(** The search is on the level below [u], after the labels [k] of [q]. *)
Record at_level (h : store) (T : trie) (options : Z) (q : namekey) (s : find_st) (ns : list Z) (k : namekey) (u : Z) :
    Prop := {
  al_path : path T ns k u;
  al_prefix : prefix_key k q;
  al_less : (length k < length q)%nat;
  al_chain : f_chain s = mkChain 0 ns 0;
  al_hlabels : f_hlabels s = Zlen k;
  al_search : search_name (f_search s) (bool_decide (u = 0)) (drop (length k) q);
  al_root : f_root s = ptr (lev T u);
  al_node : f_node s = best h options ns
}.

(** The end of the descent: no node of the level begins the rest of the name, or a
    node is the name. *)
Inductive find_done (T : trie) (q : namekey) (k : namekey) (u : Z) : Z -> Prop :=
| find_none : (forall y, y ∈ inorder (lev T u) -> ~ prefix_key (key T y) (drop (length k) q)) -> find_done T q k u 0
| find_exact x : x ∈ inorder (lev T u) -> fold_key (key T x) = fold_key (drop (length k) q) -> find_done T q k u x.

Section descent.
Context (hctx : isc_hash) (t : dns_rbt) (T : trie) (ok : trie_ok (nodes t) (root t) T) (hashed : hash_ready hctx t T).
Context (name : dns_name_t) (q : namekey) (K : keyed name true q) (options : Z).

(** At most [n] iterations are left. *)
Definition find_inv (n : Z) (s : find_st) : Prop :=
  exists ns k u tr fr, at_level (nodes t) T options q s ns k u
    /\ (tr = Leaf \/ lev T u = plug fr tr) /\ f_current s = ptr tr
    /\ (forall y, y ∈ inorder (lev T u) -> prefix_key (key T y) (drop (length k) q) -> y ∈ inorder tr)
    /\ (is_Some (hashtable t) -> tr = Leaf \/ fr = [])
    /\ n = (Zlen q - Zlen k) * Z.of_nat (rbt_fuel (nodes t)) + Zlen (inorder tr).

Definition find_post (r : find_stop) : Prop :=
  match r with
  | inl (s, saved_result) => saved_result = ISC_R_SUCCESS
      /\ exists ns k u, at_level (nodes t) T options q s ns k u /\ find_done T q k u (f_current s)
  | inr _ => False
  end.

Lemma at_level_same s s' ns k u :
  at_level (nodes t) T options q s ns k u -> f_chain s' = f_chain s -> f_hlabels s' = f_hlabels s ->
  f_search s' = f_search s -> f_root s' = f_root s -> f_node s' = f_node s ->
  at_level (nodes t) T options q s' ns k u.
Proof. intros [H1 H2 H3 H4 H5 H6 H7 H8] E1 E2 E3 E4 E5. by constructor; rewrite ?E1, ?E2, ?E3, ?E4, ?E5. Qed.

(** Down to the level below [x]. *)
Lemma find_subdomain_spec s ns k u x c :
  at_level (nodes t) T options q s ns k u -> x ∈ inorder (lev T u) -> prefix_key (key T x) (drop (length k) q) ->
  c = Zlen (key T x) -> (length (key T x) < length (drop (length k) q))%nat ->
  exists s' n', find_subdomain (nodes t) options None s x c = Done (inl s')
    /\ find_inv n' s' /\ 0 <= n' < (Zlen q - Zlen k) * Z.of_nat (rbt_fuel (nodes t)).
Proof.
  intros [P Hk Hlt Hch Hhl Hs Hr Hn] Hx Hp -> Hl.
  destruct (member_node _ _ _ ok u x Hx) as [Hx0 [n En]]. destruct (to_node _ _ _ ok u x n Hx En) as (Hd & Kx & Hkx).
  unfold find_subdomain. rewrite (node_at_Done _ _ _ En). cbn [obind].
  assert (1 <= Zlen (key T x)) by (destruct (key T x) as [|? rx]; [done|rewrite Zlen_cons; pose proof (Zlen_nonneg rx); lia]).
  destruct (split_self_spec _ _ _ (Zlen (key T x)) Hs) as (se & Ese & Hse); [unfold Zlen in *; lia|].
  rewrite Ese, Hch. cbn [obind]. unfold ADD_LEVEL. cbn [levels chain_end level_matches].
  pose proof (path_length _ _ _ ok _ _ _ P) as Hpl. pose proof (keyed_count _ _ _ K) as Hc.
  rewrite (proj2 (Z.ltb_lt _ DNS_RBT_LEVELBLOCK)) by (unfold Zlen, DNS_RBT_LEVELBLOCK in *; lia). cbn [obind].
  eexists _, _. split; [done|]. rewrite Hd, Hhl. set (s' := mkFind _ _ _ _ _ _ _ _ _).
  assert (Hlen : Zlen (k ++ key T x) = Zlen k + Zlen (key T x)) by apply Zlen_app.
  pose proof (rep_size _ _ _ (to_level _ _ _ ok x)) as Hsz.
  split.
  - exists (ns ++ [x]), (k ++ key T x), x, (lev T x), []. split_and!; [|by right|done|done|by right|done].
    constructor; cbn.
    + by econstructor.
    + by apply prefix_key_app.
    + rewrite length_drop in Hl. rewrite length_app. lia.
    + done.
    + done.
    + rewrite bool_decide_eq_false_2 by done. rewrite length_app, <- drop_drop.
      replace (length (key T x)) with (Z.to_nat (Zlen (key T x))) by (unfold Zlen; lia). done.
    + done.
    + unfold best. rewrite foldl_app. cbn [foldl]. unfold usable at 1. rewrite En, Hn. done.
  - rewrite length_drop in Hl. pose proof (Zlen_nonneg (inorder (lev T x))). unfold rbt_fuel, Zlen in *. nia.
Qed.

(** A node with the last label of the rest of the name is the only candidate of
    its level. *)
Lemma only_candidate u x y lq q' lx rx : x ∈ inorder (lev T u) -> y ∈ inorder (lev T u) ->
  key T x = lx :: rx -> lower_label lx = lower_label lq -> prefix_key (key T y) (lq :: q') -> y = x.
Proof.
  intros Hx Hy Kx E Hp. destruct (member_key _ _ _ ok _ _ Hy) as (ly & ry & Ky). rewrite Ky in Hp.
  apply prefix_key_head in Hp as (l & z & El & Ey). injection El as <- <-.
  eapply (head_unique _ _ _ ok); try done. congruence.
Qed.

(** A binary search step keeps the candidates. *)
Lemma turn_candidates u fr c l x r lq q' lx rx y :
  lev T u = plug fr (Node c l x r) -> key T x = lx :: rx -> label_cmp lq lx <> Eq ->
  y ∈ inorder (Node c l x r) -> prefix_key (key T y) (lq :: q') ->
  y ∈ inorder (match label_cmp lq lx with Lt => l | _ => r end).
Proof.
  intros El Kx Hne Hy Hp. pose proof (to_order _ _ _ ok u) as S. rewrite El, inorder_plug in S.
  apply StronglySorted_app_1_r in S. apply StronglySorted_app_1_l in S. cbn in S, Hy.
  assert (Hm : y ∈ inorder (lev T u)) by (rewrite El, inorder_plug; cbn; set_solver).
  destruct (member_key _ _ _ ok _ _ Hm) as (ly & ry & Ky). rewrite Ky in Hp.
  apply prefix_key_head in Hp as (l' & z & E' & Ey). injection E' as <- <-. apply label_cmp_eq in Ey.
  apply StronglySorted_app in S as (S1 & _ & S2). apply StronglySorted_cons in S2 as [S2 _].
  rewrite elem_of_app, elem_of_cons in Hy. destruct Hy as [Hy|[->|Hy]].
  - specialize (S1 y x Hy (list_elem_of_here _ _)). unfold head_lt in S1. rewrite Ky, Kx in S1.
    rewrite (cmp_eq_l _ _ lx Ey) in S1. by rewrite S1.
  - rewrite Kx in Ky. injection Ky as <- <-. rewrite cmp_antisym, Ey in Hne. done.
  - rewrite Forall_forall in S2. specialize (S2 y Hy). unfold head_lt in S2. rewrite Ky, Kx in S2.
    rewrite (cmp_eq_r _ _ _ _ Ey) in S2. rewrite cmp_antisym, S2. done.
Qed.

(** The current node does not begin the rest of the name, and it has its last
    label: the search ends. *)
Lemma miss_spec s s' ns k u fr c l x r lq q' lx rx :
  at_level (nodes t) T options q s ns k u -> lev T u = plug fr (Node c l x r) ->
  drop (length k) q = lq :: q' -> key T x = lx :: rx -> lower_label lx = lower_label lq ->
  ~ prefix_key (key T x) (lq :: q') -> at_level (nodes t) T options q s' ns k u -> f_current s' = 0 ->
  exists n', find_inv n' s' /\ 0 <= n' <= (Zlen q - Zlen k) * Z.of_nat (rbt_fuel (nodes t)).
Proof.
  intros A El Eq Kx E Hno A' Hc. eexists. split; [exists ns, k, u, Leaf, []; split_and!; [done|by left|done| |by left|done]|].
  - intros y Hy Hp. rewrite Eq in Hp. exfalso. apply Hno.
    assert (Hx : x ∈ inorder (lev T u)) by (rewrite El, inorder_plug; cbn; set_solver).
    by rewrite <- (only_candidate u x y lq q' lx rx Hx Hy Kx E Hp).
  - change (Zlen (inorder Leaf)) with 0. pose proof (al_less _ _ _ _ _ _ _ _ A). unfold Zlen. nia.
Qed.

(** Without the hash table the search goes on at a child. *)
Lemma turn_spec s ns k u fr c l x r lq q' lx rx o :
  at_level (nodes t) T options q s ns k u -> hashtable t = None -> lev T u = plug fr (Node c l x r) ->
  drop (length k) q = lq :: q' -> key T x = lx :: rx -> lower_label lq <> lower_label lx ->
  (o ?= 0) = label_cmp lq lx ->
  (forall y, y ∈ inorder (lev T u) -> prefix_key (key T y) (lq :: q') -> y ∈ inorder (Node c l x r)) ->
  f_current s = (if o <? 0 then ptr l else ptr r) ->
  exists n', find_inv n' s
    /\ 0 <= n' < (Zlen q - Zlen k) * Z.of_nat (rbt_fuel (nodes t)) + Zlen (inorder (Node c l x r)).
Proof.
  intros A Eh El Eqr Kx Hne Ho Hcand Hc.
  assert (Hcmp : label_cmp lq lx <> Eq) by (by rewrite label_cmp_eq).
  set (tr := match label_cmp lq lx with Lt => l | _ => r end).
  assert (Hsub : exists fr', lev T u = plug fr' tr /\ Zlen (inorder tr) < Zlen (inorder (Node c l x r))).
  { cbn [inorder]. rewrite Zlen_app, Zlen_cons. pose proof (Zlen_nonneg (inorder l)). pose proof (Zlen_nonneg (inorder r)).
    subst tr. destruct (label_cmp lq lx).
    - done.
    - exists (Frame L c x r :: fr). split; [done|lia].
    - exists (Frame R c x l :: fr). split; [done|lia]. }
  destruct Hsub as (fr' & El' & Hless).
  eexists. split; [exists ns, k, u, tr, fr'; split_and!; [done|by right| | | |done]|].
  - rewrite Hc. subst tr. rewrite <- Ho. destruct (Z.compare_spec o 0), (Z.ltb_spec o 0); try lia; done.
  - intros y Hy Hp. rewrite Eqr in Hp. eapply turn_candidates; [exact El|exact Kx|done|by apply Hcand|done].
  - rewrite Eh. by intros [? ?].
  - pose proof (al_less _ _ _ _ _ _ _ _ A). pose proof (Zlen_nonneg (inorder tr)). unfold Zlen in *. nia.
Qed.

Lemma step_weaken (m : outcome (find_st + find_stop)) (P P' : find_st -> Prop) :
  (forall s, P s -> P' s) ->
  match m with Done (inl s) => P s | Done (inr r) => find_post r | _ => False end ->
  match m with Done (inl s) => P' s | Done (inr r) => find_post r | _ => False end.
Proof. intros H. destruct m as [[s|r]| | |]; auto. Qed.

(** With it the node of the level is found by its labels. *)
Lemma lookup_spec table s ns k u :
  at_level (nodes t) T options q s ns k u -> hashtable t = Some table ->
  match
    (let* nlabels := dns_name_countlabels (f_search s) in
     let* hit := hash_search hctx (nodes t) table name (f_search s) nlabels (f_hlabels s) u 1 (Z.to_nat nlabels) in
     match hit with
     | None => Done (inl (with_current 0 s))
     | Some (hnode, tlabels) =>
         if tlabels =? nlabels then
           Done (inr (inl (mkFind hnode (f_root s) (f_search s) (f_hlabels s) (f_node s) (f_chain s)
                             (f_last s) dns_namereln_equal (f_order s), ISC_R_SUCCESS)))
         else find_subdomain (nodes t) options None s hnode tlabels
     end)
  with
  | Done (inl s') => exists n', find_inv n' s' /\ 0 <= n' <= (Zlen q - Zlen k) * Z.of_nat (rbt_fuel (nodes t))
  | Done (inr r) => find_post r
  | _ => False
  end.
Proof.
  intros A Et. unfold hash_ready in hashed. rewrite Et in hashed. destruct hashed as [HO HR].
  destruct A as [P Hk Hlt Hch Hhl Hs Hr Hn] eqn:EA. pose proof (sn_keyed _ _ _ Hs) as Ks.
  rewrite (keyed_countlabels _ _ _ Ks), Hhl. cbn [obind].
  destruct (hash_search_spec hctx t T ok table name q (f_search s) ns k u
              (Z.to_nat (Zlen (drop (length k) q))) 1) as (res & Er & Hres); try done;
    [pose proof (Zlen_nonneg (drop (length k) q)); lia|].
  rewrite Er. cbn [obind]. destruct res as [[x c]|].
  - destruct Hres as (Hx & Hp & ->). pose proof (prefix_key_length _ _ Hp) as Hle.
    destruct (Z.eqb_spec (Zlen (key T x)) (Zlen (drop (length k) q))) as [E|E].
    + split; [done|]. exists ns, k, u. split; [by eapply at_level_same|]. cbn. constructor; [done|].
      apply prefix_key_take in Hp as [_ Hp]. rewrite Hp, take_ge by (unfold Zlen in *; lia). done.
    + destruct (find_subdomain_spec s ns k u x _ A Hx Hp eq_refl) as (s' & n' & -> & I & Hn');
        [unfold Zlen in *; lia|]. exists n'. split; [done|lia].
  - exists ((Zlen q - Zlen k) * Z.of_nat (rbt_fuel (nodes t)) + 0). split; [|unfold Zlen; nia].
    exists ns, k, u, Leaf, []. split_and!; [by eapply at_level_same|by left|done| |by left|done].
    intros y Hy Hp. specialize (Hres y Hy Hp). destruct (member_key _ _ _ ok _ _ Hy) as (? & ry & Ky).
    rewrite Ky, Zlen_cons in Hres. pose proof (Zlen_nonneg ry). lia.
Qed.

Lemma find_body_spec n s : find_inv n s ->
  match find_body hctx t name options None s with
  | Done (inl s') => exists n', find_inv n' s' /\ 0 <= n' < n
  | Done (inr r) => find_post r
  | _ => False
  end.
Proof.
  intros (ns & k & u & tr & fr & A & Htr & Ec & Hcand & Hh & ->). unfold find_body.
  destruct tr as [|c l x r].
  { rewrite Ec. cbn [ptr Z.eqb]. split; [done|]. exists ns, k, u. split; [done|]. rewrite Ec. constructor.
    intros y Hy Hp. by apply (Hcand y Hy), elem_of_nil in Hp. }
  destruct Htr as [?|El]; [done|]. cbn [ptr] in Ec. rewrite Ec.
  assert (Hx : x ∈ inorder (lev T u)) by (rewrite El, inorder_plug; cbn; set_solver).
  pose proof (to_level _ _ _ ok u) as HT. rewrite El in HT.
  destruct (read_node _ _ _ _ _ _ _ HT) as (Hx0 & dn & dt & En). rewrite (proj2 (Z.eqb_neq x 0)) by done.
  rewrite (node_at_Done _ _ _ En). cbn [obind]. destruct (to_node _ _ _ ok u x _ Hx En) as (_ & Kx & Hkx).
  pose proof (al_search _ _ _ _ _ _ _ _ A) as Hs.
  destruct (keyed_compare _ _ _ _ _ (sn_keyed _ _ _ Hs) Kx) as (o & Ecmp & Ho). rewrite Ecmp. cbn [obind].
  set (s1 := mkFind x _ _ _ _ _ _ _ _).
  assert (A1 : at_level (nodes t) T options q s1 ns k u) by (by eapply at_level_same).
  assert (Hrest : drop (length k) q <> []).
  { intros E. apply (f_equal length) in E. rewrite length_drop in E. cbn in E.
    pose proof (al_less _ _ _ _ _ _ _ _ A). lia. }
  destruct (drop (length k) q) as [|lq q'] eqn:Eq; [done|]. destruct (key T x) as [|lx rx] eqn:Ekx; [done|].
  assert (Hn : forall n', 0 <= n' <= (Zlen q - Zlen k) * Z.of_nat (rbt_fuel (nodes t)) ->
     0 <= n' < (Zlen q - Zlen k) * Z.of_nat (rbt_fuel (nodes t)) + Zlen (inorder (Node c l x r))).
  { intros n' ?. cbn [inorder]. unfold Zlen in *. rewrite length_app. cbn [length]. lia. }
  assert (Hmiss : lower_label lx = lower_label lq -> ~ prefix_key (key T x) (lq :: q') ->
    exists n', find_inv n' (with_current 0 s1)
      /\ 0 <= n' < (Zlen q - Zlen k) * Z.of_nat (rbt_fuel (nodes t)) + Zlen (inorder (Node c l x r))).
  { intros E Hno. destruct (miss_spec s (with_current 0 s1) _ _ _ _ _ _ _ _ _ _ _ _ A El Eq Ekx E Hno) as (n' & ? & ?);
      [by eapply at_level_same|done|]. exists n'. auto. }
  destruct (compared_spec (lq :: q') (lx :: rx)) as [Ef|Hp Hlen|? ? ? ? E1 E2 Hne Ecl|Hp Hlen|m lq' lr Hm E1 E2 Ef Hne Ecl];
    [done|done| | | | |].
  - split; [done|]. exists ns, k, u. split; [done|]. change (f_current s1) with x.
    apply find_exact; [done|]. by rewrite Ekx, Eq.
  - change (f_current s1) with x.
    destruct (find_subdomain_spec s1 ns k u x (Zlen (lx :: rx)) A1 Hx) as (s' & n' & E & I' & Hn');
      rewrite ?Ekx, ?Eq; try done. rewrite E. exists n'. split; [done|]. apply Hn. lia.
  - injection E1 as <- <-. injection E2 as <- <-. destruct (hashtable t) as [table|] eqn:Et.
    + destruct Hh as [Hl| ->]; [by eexists|done|]. cbn [plug] in El.
      rewrite require_true by (rewrite (al_root _ _ _ _ _ _ _ _ A1), El; cbn; lia). cbn [obind up_of parent].
      eapply step_weaken; [|exact (lookup_spec table s1 ns k u A1 Et)].
      intros s' (n' & I & Hn'). exists n'. auto.
    + cbn [left right]. rewrite Ecl in Ho. eapply turn_spec; try done. by eapply at_level_same.
  - apply Hmiss.
    + apply prefix_key_head in Hp as (? & ? & [= <- <-] & ?). done.
    + rewrite Ekx. intros H%prefix_key_length. lia.
  - apply Hmiss.
    + destruct m; [lia|]. cbn in Ef. by injection Ef.
    + rewrite Ekx. intros [z Ez]. apply Hne.
      assert (Hl1 : fold_key (lq :: q') !! m = Some (lower_label lq')) by (unfold fold_key; by rewrite list_lookup_fmap, E1).
      assert (Hl2 : fold_key (lx :: rx) !! m = Some (lower_label lr)) by (unfold fold_key; by rewrite list_lookup_fmap, E2).
      rewrite Ez in Hl1. rewrite (lookup_app_l_Some _ _ _ _ Hl2) in Hl1. congruence.
Qed.
End descent.

(** ** The result *)

Lemma best_spec h options ns :
  (best h options ns = 0 /\ forall x, x ∈ ns -> usable h options x = false)
  \/ exists a b, ns = a ++ best h options ns :: b /\ usable h options (best h options ns) = true
     /\ forall y, y ∈ b -> usable h options y = false.
Proof.
  induction ns as [|x ns IH] using rev_ind; [left; split; [done|]; intros x Hx; by apply elem_of_nil in Hx|].
  unfold best. rewrite foldl_app. cbn [foldl]. fold (best h options ns). destruct (usable h options x) eqn:Ux.
  - right. exists ns, []. split_and!; [done..|]. intros y Hy. by apply elem_of_nil in Hy.
  - destruct IH as [[-> Hn]|(a & b & E & Ub & Hb)].
    + left. split; [done|]. intros y [Hy|Hy%list_elem_of_singleton]%elem_of_app; [auto|by subst].
    + right. exists a, (b ++ [x]). split_and!; [|done|].
      * rewrite E at 1. by rewrite <- app_assoc.
      * intros y [Hy|Hy%list_elem_of_singleton]%elem_of_app; [auto|by subst].
Qed.

Lemma prefix_last {A} (x y : A) b a2 : forall a,
  a2 ++ [x] `prefix_of` a ++ y :: b -> x ∉ b -> a2 ++ [x] `prefix_of` a ++ [y].
Proof.
  induction a2 as [|w a2 IH]; intros [|z a]; cbn; intros [r E] Hx; injection E as -> E.
  - done.
  - apply (prefix_app_r [x] [x]). done.
  - exfalso. apply Hx. rewrite E, <- app_assoc. set_solver.
  - apply prefix_cons. apply IH; [by exists r|done].
Qed.

(** The partial match is on the chain. *)
Lemma match_level_spec ns x n : forall lvl,
  x ∈ take (S (Z.to_nat lvl)) ns -> 0 <= lvl < Zlen ns -> (Z.to_nat lvl < n)%nat ->
  exists m, match_level ns x lvl n = Done m /\ 0 <= m < Zlen ns /\ ns !! Z.to_nat m = Some x.
Proof.
  induction n as [|n IH]; intros lvl Hx Hl Hn; [lia|]. cbn [match_level].
  destruct (rd_ok ns lvl Hl) as [y Ey]. rewrite Ey. cbn [obind]. pose proof (proj2 (proj1 (rd_Done _ _ _) Ey)) as El.
  destruct (Z.eqb_spec y x) as [->|Hne]; [exists lvl; split_and!; (done || lia)|].
  assert (Hin : x ∈ take (Z.to_nat lvl) ns).
  { rewrite (take_S_r _ _ _ El) in Hx. apply elem_of_app in Hx as [?|Hx]; [done|].
    apply list_elem_of_singleton in Hx. congruence. }
  assert (0 < lvl).
  { destruct (decide (lvl = 0)) as [->|]; [|lia]. change (Z.to_nat 0) with 0%nat in Hin. by apply elem_of_nil in Hin. }
  rewrite require_true by lia. cbn [obind]. apply IH; [|lia|lia].
  replace (S (Z.to_nat (lvl - 1))) with (Z.to_nat lvl) by lia. done.
Qed.

(** A node that may answer the search for [q], with its labels. *)
Record candidate (h : store) (T : trie) (options : Z) (q : namekey) (x : Z) (k : namekey) : Prop := {
  ca_path : exists ns, path T ns k x;
  ca_node : x <> 0;
  ca_prefix : prefix_key k q;
  ca_usable : usable h options x = true;
  ca_exact : option_set options DNS_RBTFIND_NOEXACT = true -> (length k < length q)%nat
}.

(** The longest match: the name itself, or the closest name above it. *)
Definition longest_match (h : store) (T : trie) (options : Z) (q : namekey) (result : isc_result_t) (node : Z) : Prop :=
  match result with
  | ISC_R_SUCCESS => exists k, candidate h T options q node k /\ fold_key k = fold_key q
  | DNS_R_PARTIALMATCH => exists k, candidate h T options q node k /\ (length k < length q)%nat
      /\ forall x k', candidate h T options q x k' -> (length k' <= length k)%nat
  | ISC_R_NOTFOUND => node = 0 /\ forall x k, ~ candidate h T options q x k
  | _ => False
  end.

Section result.
Context (hctx : isc_hash) (t : dns_rbt) (T : trie) (ok : trie_ok (nodes t) (root t) T).
Context (q : namekey) (options : Z).

(** Every name above [q] is on the path of the search, or is the node it found. *)
Lemma names_above ns k u cur : path T ns k u -> prefix_key k q -> find_done T q k u cur ->
  forall ns' k' x, path T ns' k' x -> prefix_key k' q -> ns' `prefix_of` ns
    \/ ns' = ns ++ [cur] /\ x = cur /\ cur <> 0.
Proof.
  intros P Hk D ns' k' x P' Hk'.
  destruct (path_linear _ _ _ ok q _ _ _ P Hk _ _ _ P' Hk') as [[[|y ms] ->]|H];
    [left; by rewrite app_nil_r| |by left].
  destruct (path_next _ _ _ _ _ _ _ _ P' P) as (Hy & Hp & Py).
  pose proof (prefix_key_trans _ _ _ Hp Hk') as [_ Hky]%prefix_key_app.
  destruct D as [Hno|x' Hx Ef]; [by destruct (Hno y Hy)|right].
  assert (y = x') as ->.
  { eapply (member_unique _ _ _ ok); [exact Hy|exact Hx|exact Hky|]. unfold prefix_key. by rewrite Ef. }
  destruct ms as [|z ms].
  - destruct (path_det _ _ _ _ Py _ _ P') as [_ <-]. split_and!; [done..|]. by apply (member_node _ _ _ ok u x').
  - exfalso. replace (ns ++ x' :: z :: ms) with ((ns ++ [x']) ++ z :: ms) in P' by (by rewrite <- app_assoc).
    destruct (path_next _ _ _ _ _ _ _ _ P' Py) as (Hz & Hpz & _). apply prefix_length in Hpz.
    destruct (member_key _ _ _ ok _ _ Hz) as (l & r & Kz). rewrite Kz in Hpz. rewrite !length_app in Hpz. cbn in Hpz.
    apply prefix_key_length in Hk', Hk. apply (f_equal length) in Ef. rewrite !length_fold, length_drop in Ef. lia.
Qed.

(** The nodes above the level of the search that may be returned. *)
Lemma candidate_above ns k u y a b : path T ns k u -> prefix_key k q -> (length k < length q)%nat ->
  ns = a ++ y :: b -> usable (nodes t) options y = true ->
  exists k', candidate (nodes t) T options q y k' /\ path T (a ++ [y]) k' y /\ (length k' < length q)%nat.
Proof.
  intros P Hk Hlt E Uy. rewrite E in P. replace (a ++ y :: b) with ((a ++ [y]) ++ b) in P by (by rewrite <- app_assoc).
  destruct (path_front _ _ _ _ _ P) as (k' & v & P' & Hp).
  assert (v = y) as ->.
  { destruct (path_inv _ _ _ _ P') as [(E0 & _)|(? & ? & ? & E0 & _)]; [by destruct a|]. by apply app_inj_tail in E0 as [_ ->]. }
  pose proof (prefix_length _ _ Hp). exists k'. split_and!; [|done|lia].
  split; [by eexists| | |done|lia].
  - intros ->. pose proof (proj1 (path_zero _ _ _ ok _ _ _ P') eq_refl) as E0. by destruct a.
  - by eapply prefix_key_trans.
Qed.

(** What is left when the node of the name is not returned: the closest node above
    it. *)
Lemma best_match ns k u cur : path T ns k u -> prefix_key k q -> (length k < length q)%nat -> find_done T q k u cur ->
  (cur <> 0 -> usable (nodes t) options cur = true -> option_set options DNS_RBTFIND_NOEXACT = true) ->
  longest_match (nodes t) T options q
    (if best (nodes t) options ns =? 0 then ISC_R_NOTFOUND else DNS_R_PARTIALMATCH) (best (nodes t) options ns)
  /\ (best (nodes t) options ns <> 0 -> best (nodes t) options ns ∈ ns).
Proof.
  intros P Hk Hlt D Hcur.
  assert (Hall : forall x k', candidate (nodes t) T options q x k' -> exists ns', path T ns' k' x /\ ns' `prefix_of` ns).
  { intros x k' [[ns' P'] Hx Hp Ux Hex]. exists ns'. split; [done|].
    destruct (names_above ns k u cur P Hk D _ _ _ P' Hp) as [?|(-> & -> & Hc)]; [done|exfalso].
    specialize (Hex (Hcur Hc Ux)). destruct D as [|x Hx' Ef]; [done|].
    destruct (path_det _ _ _ _ P' _ _ (path_node _ _ _ _ _ P Hx')) as [-> _].
    apply (f_equal length) in Ef. rewrite !length_fold, length_drop in Ef. rewrite length_app in Hex. lia. }
  assert (Hin : forall x k' ns', path T ns' k' x -> x <> 0 -> ns' `prefix_of` ns -> exists a, ns' = a ++ [x] /\ x ∈ ns).
  { intros x k' ns' P' Hx [b ->]. destruct (path_inv _ _ _ _ P') as [(_ & _ & ->)|(a & ? & ? & -> & _)]; [done|].
    exists a. split; [done|]. rewrite !elem_of_app. left. right. by apply list_elem_of_singleton. }
  destruct (best_spec (nodes t) options ns) as [[Hb Hno]|(a & b & E & Ub & Hb)].
  - rewrite Hb. split; [|done]. split; [done|]. intros x k' C. destruct (Hall x k' C) as (ns' & P' & Hp).
    destruct (Hin _ _ _ P' (ca_node _ _ _ _ _ _ C) Hp) as (? & _ & Hx). apply Hno in Hx.
    by rewrite (ca_usable _ _ _ _ _ _ C) in Hx.
  - set (y := best (nodes t) options ns) in *. destruct (candidate_above ns k u y a b P Hk Hlt E Ub) as (k' & C & P' & Hl).
    rewrite (proj2 (Z.eqb_neq y 0)) by apply (ca_node _ _ _ _ _ _ C).
    split; [|intros _; rewrite E, elem_of_app, elem_of_cons; auto]. exists k'. split_and!; [done..|].
    intros x k2 C2. destruct (Hall x k2 C2) as (ns2 & P2 & Hp2).
    assert (Hpre : ns2 `prefix_of` a ++ [y]).
    { destruct (Hin _ _ _ P2 (ca_node _ _ _ _ _ _ C2) Hp2) as (a2 & -> & _).
      rewrite E in Hp2. eapply prefix_last; [exact Hp2|]. intros Hx%Hb.
      by rewrite (ca_usable _ _ _ _ _ _ C2) in Hx. }
    destruct Hpre as [z Ez]. rewrite Ez in P'. destruct (path_front _ _ _ _ _ P') as (k3 & v & P3 & Hp3).
    destruct (path_det _ _ _ _ P2 _ _ P3) as [-> _]. by apply prefix_length.
Qed.
End result.

(** ** [dns_rbt_findnode] *)

(** The result of the part after the loop does not depend on how the loop got
    there. *)
Lemma find_finish_same h options foundname s s' saved :
  option_set options DNS_RBTFIND_NOPREDECESSOR = true ->
  f_current s' = f_current s -> f_chain s' = f_chain s -> f_node s' = f_node s ->
  find_finish h options foundname s' saved = find_finish h options foundname s saved.
Proof. intros Ho E1 E2 E3. unfold find_finish. rewrite E1, E2, E3, Ho. done. Qed.

Lemma find_finish_spec t T (ok : trie_ok (nodes t) (root t) T) q options s ns k u :
  at_level (nodes t) T options q s ns k u -> find_done T q k u (f_current s) ->
  option_set options DNS_RBTFIND_NOPREDECESSOR = true ->
  exists result node c, find_finish (nodes t) options None s ISC_R_SUCCESS = Done (result, node, None, c)
    /\ longest_match (nodes t) T options q result node /\ levels c = ns
    /\ (result = DNS_R_PARTIALMATCH -> ns !! Z.to_nat (level_matches c) = Some node).
Proof.
  intros A D Hnp. destruct A as [P Hk Hlt Hch Hhl Hs Hr Hn].
  assert (Hcur : f_current s <> 0 -> exists n, nodes t !! f_current s = Some n).
  { intros Hc. destruct D as [|x Hx]; [done|]. apply (member_node _ _ _ ok _ _ Hx). }
  assert (Hexact : exists b, (if (f_current s =? 0) || option_set options DNS_RBTFIND_NOEXACT then Done false
       else let* n := node_at (nodes t) (f_current s) in
            Done (negb (data (info n) =? 0) || option_set options DNS_RBTFIND_EMPTYDATA)) = Done b
     /\ (b = true -> f_current s <> 0 /\ usable (nodes t) options (f_current s) = true
                     /\ option_set options DNS_RBTFIND_NOEXACT = false)
     /\ (b = false -> f_current s <> 0 -> usable (nodes t) options (f_current s) = true ->
          option_set options DNS_RBTFIND_NOEXACT = true)).
  { destruct (Z.eqb_spec (f_current s) 0) as [|Hc]; cbn [orb]; [by exists false|].
    destruct (option_set options DNS_RBTFIND_NOEXACT); [by exists false|]. destruct (Hcur Hc) as [n En].
    rewrite (node_at_Done _ _ _ En). cbn [obind]. eexists. split; [done|]. unfold usable. rewrite En.
    split; [done|]. intros ->. done. }
  destruct Hexact as (b & Eb & Htrue & Hfalse).
  unfold find_finish. rewrite Hch, Hn. cbn [levels chain_end level_matches]. rewrite Eb. cbn [obind]. destruct b.
  - destruct (Htrue eq_refl) as (Hc & U & Ex). rewrite bool_decide_eq_true_2 by done. eexists _, _, _.
    split; [done|]. split_and!; [|done..]. destruct D as [|x Hx Ef]; [done|]. exists (k ++ key T x).
    assert (Ek : fold_key (k ++ key T x) = fold_key q).
    { apply prefix_key_take in Hk as [_ Hk]. by rewrite fold_app, Hk, Ef, <- fold_app, take_drop. }
    split; [|done]. split; [eexists; by econstructor|done|unfold prefix_key; by rewrite Ek|done|by rewrite Ex].
  - destruct (best_match t T ok q options ns k u _ P Hk Hlt D (Hfalse eq_refl)) as [Hbest Hin].
    set (y := best (nodes t) options ns) in *.
    assert (Htail : forall r c, exists c',
      (if negb (f_current s =? 0) then
         let* n := node_at (nodes t) (f_current s) in
         REQUIRE option_set options DNS_RBTFIND_NOEXACT
                 || (negb (option_set options DNS_RBTFIND_EMPTYDATA) && (data (info n) =? 0)) ;;
         Done (r, with_end (f_current s) c)
       else if option_set options DNS_RBTFIND_NOPREDECESSOR then Done (r, with_end 0 c)
       else find_predecessor (nodes t) s c r) = Done (r, c') /\ levels c' = levels c /\ level_matches c' = level_matches c).
    { intros r c. rewrite Hnp. destruct (Z.eqb_spec (f_current s) 0) as [|Hc]; cbn [negb]; [by eexists|].
      destruct (Hcur Hc) as [n En]. rewrite (node_at_Done _ _ _ En). cbn [obind]. specialize (Hfalse eq_refl Hc).
      unfold usable in Hfalse. rewrite En in Hfalse. rewrite require_true; [by eexists|].
      destruct (option_set options DNS_RBTFIND_NOEXACT); [done|]. cbn [orb].
      destruct (option_set options DNS_RBTFIND_EMPTYDATA), (data (info n) =? 0); cbn in *; try done;
        by discriminate (Hfalse eq_refl). }
    destruct (Z.eqb_spec y 0) as [Hy|Hy]; cbn [obind].
    + destruct (Htail ISC_R_NOTFOUND (mkChain 0 ns 0)) as (c' & -> & Hl & _). cbn [obind]. by eexists _, _, _.
    + specialize (Hin Hy). assert (0 < Zlen ns).
      { destruct ns as [|n0 ns0]; [by apply elem_of_nil in Hin|rewrite Zlen_cons; pose proof (Zlen_nonneg ns0); lia]. }
      destruct (match_level_spec ns y (length ns) (Zlen ns - 1)) as (m & Em & _ & Hm);
        [by rewrite take_ge by (unfold Zlen; lia)|lia|unfold Zlen in *; lia|].
      rewrite Em. cbn [obind]. rewrite bool_decide_eq_true_2 by done.
      destruct (Htail DNS_R_PARTIALMATCH (mkChain 0 ns m)) as (c' & -> & Hl & Hm'). cbn [obind].
      eexists _, _, _. split; [done|]. split_and!; [done..|]. intros _. by rewrite Hm'.
Qed.

Lemma keyed_nonempty n r : keyed n true r -> r <> [].
Proof. intros (body & _ & ->). unfold labels_of. rewrite rev_app_distr. done. Qed.

(** The loop of the search ends, at the level and the node that [find_done]
    describes. *)
Lemma find_loop hctx t T name q options :
  trie_ok (nodes t) (root t) T -> hash_ready hctx t T -> keyed name true q ->
  exists search_name s ns k u, dns_name_clone name dns_fixedname = Done search_name
    /\ loop (search_fuel t name) (find_body hctx t name options None)
         (mkFind (root t) (root t) search_name 0 0 dns_rbtnodechain_init 0 dns_namereln_none 0)
       = Done (inl (s, ISC_R_SUCCESS))
    /\ at_level (nodes t) T options q s ns k u /\ find_done T q k u (f_current s).
Proof.
  intros ok Hh K. pose proof (keyed_nonempty _ _ K) as Hq. destruct (clone_search name true q K Hq) as (sn & Ec & Hs).
  set (s0 := mkFind (root t) (root t) sn 0 0 dns_rbtnodechain_init 0 dns_namereln_none 0).
  pose proof (rep_size _ _ _ (to_level _ _ _ ok 0)) as Hsz.
  destruct (loop_rule_bound _ _ _ (find_body_spec hctx t T ok Hh name q K options)
              (search_fuel t name) (Zlen q * Z.of_nat (rbt_fuel (nodes t)) + Zlen (inorder (lev T 0))) s0)
    as ([[s saved]|?] & El & Hpost).
  - exists [], [], 0, (lev T 0), []. split_and!; [|by right|apply (to_root _ _ _ ok)|done|by right|].
    + constructor; cbn; try done; [by constructor|apply prefix_nil|destruct q; [done|cbn; lia]|apply (to_root _ _ _ ok)].
    + change (@Zlen label []) with 0. lia.
  - unfold search_fuel. rewrite (keyed_labels _ _ _ K). pose proof (Zlen_nonneg q).
    unfold rbt_fuel, Zlen in *. nia.
  - destruct Hpost as (-> & ns & k & u & A & D). by exists sn, s, ns, k, u.
  - done.
Qed.

(** There is one place where a search can end. *)
Lemma find_done_unique t T (ok : trie_ok (nodes t) (root t) T) q ns k u cur ns' k' u' cur' :
  path T ns k u -> prefix_key k q -> (length k < length q)%nat -> find_done T q k u cur ->
  path T ns' k' u' -> prefix_key k' q -> (length k' < length q)%nat -> find_done T q k' u' cur' ->
  ns' = ns /\ k' = k /\ u' = u /\ cur' = cur.
Proof.
  assert (Hpre : forall ns k u cur ns' k' u', path T ns k u -> prefix_key k q -> (length k < length q)%nat ->
    find_done T q k u cur -> path T ns' k' u' -> prefix_key k' q -> (length k' < length q)%nat -> ns' `prefix_of` ns).
  { intros n1 k1 u1 c1 n2 k2 u2 P Hk Hl D P' Hk' Hl'.
    destruct (names_above t T ok q _ _ _ _ P Hk D _ _ _ P' Hk') as [?|(-> & -> & Hc)]; [done|exfalso].
    destruct D as [|x Hx Ef]; [done|]. destruct (path_det _ _ _ _ P' _ _ (path_node _ _ _ _ _ P Hx)) as [-> _].
    apply (f_equal length) in Ef. rewrite !length_fold, length_drop in Ef. rewrite length_app in Hl'. lia. }
  intros P Hk Hl D P' Hk' Hl' D'.
  assert (ns' = ns) as ->.
  { apply (anti_symm prefix); [exact (Hpre _ _ _ _ _ _ _ P Hk Hl D P' Hk' Hl')|exact (Hpre _ _ _ _ _ _ _ P' Hk' Hl' D' P Hk Hl)]. }
  destruct (path_det _ _ _ _ P _ _ P') as [<- <-]. split_and!; [done..|].
  destruct D as [Hn|x Hx Ef], D' as [Hn'|x' Hx' Ef']; [done| | |].
  - destruct (Hn _ Hx'). unfold prefix_key. by rewrite Ef'.
  - destruct (Hn' _ Hx). unfold prefix_key. by rewrite Ef.
  - eapply (member_unique _ _ _ ok); [exact Hx'|exact Hx|unfold prefix_key; by rewrite Ef'|unfold prefix_key; by rewrite Ef].
Qed.

Lemma option_set_nopredecessor options bit : Z.land DNS_RBTFIND_NOPREDECESSOR bit = 0 ->
  option_set (Z.lor options DNS_RBTFIND_NOPREDECESSOR) bit = option_set options bit.
Proof. intros E. unfold option_set. by rewrite Z.land_lor_distr_l, E, Z.lor_0_r. Qed.

Lemma longest_match_options h T q options result node :
  longest_match h T (Z.lor options DNS_RBTFIND_NOPREDECESSOR) q result node -> longest_match h T options q result node.
Proof.
  assert (Hu : forall x, usable h (Z.lor options DNS_RBTFIND_NOPREDECESSOR) x = usable h options x).
  { intros x. unfold usable. by rewrite option_set_nopredecessor. }
  assert (Hc : forall x k, candidate h T (Z.lor options DNS_RBTFIND_NOPREDECESSOR) q x k <-> candidate h T options q x k).
  { intros x k. split; intros [H1 H2 H3 H4 H5]; (split; [done..| |]); rewrite ?Hu, ?option_set_nopredecessor in *; done. }
  unfold longest_match. destruct result; try done.
  - intros (k & C & E). exists k. by rewrite <- Hc.
  - intros (E & Hn). split; [done|]. intros x k. rewrite <- Hc. apply Hn.
  - intros (k & C & Hl & Hn). exists k. rewrite <- Hc. split_and!; [done..|]. intros x k'. rewrite <- Hc. apply Hn.
Qed.

(** The searches that leave no predecessor behind. *)
Definition no_predecessor (chain : bool) (options : Z) : Prop :=
  chain = false \/ option_set options DNS_RBTFIND_NOPREDECESSOR = true.

Definition good_options (options : Z) : Prop :=
  Z.land options (Z.lor DNS_RBTFIND_NOEXACT DNS_RBTFIND_NOPREDECESSOR)
    <> Z.lor DNS_RBTFIND_NOEXACT DNS_RBTFIND_NOPREDECESSOR.

Lemma effective_options (chain : bool) options : no_predecessor chain options ->
  option_set (if chain then options else Z.lor options DNS_RBTFIND_NOPREDECESSOR) DNS_RBTFIND_NOPREDECESSOR = true.
Proof.
  intros [-> | H]; [|destruct chain; [done|]].
  - unfold option_set. rewrite Z.land_lor_distr_l. destruct (Z.eqb_spec (Z.lor (Z.land options DNS_RBTFIND_NOPREDECESSOR)
      (Z.land DNS_RBTFIND_NOPREDECESSOR DNS_RBTFIND_NOPREDECESSOR)) 0) as [E|]; [|done].
    by apply Z.lor_eq_0_iff in E as [_ E].
  - unfold option_set. rewrite Z.land_lor_distr_l. destruct (Z.eqb_spec (Z.lor (Z.land options DNS_RBTFIND_NOPREDECESSOR)
      (Z.land DNS_RBTFIND_NOPREDECESSOR DNS_RBTFIND_NOPREDECESSOR)) 0) as [E|]; [|done].
    by apply Z.lor_eq_0_iff in E as [_ E].
Qed.

Lemma empty_match h T q options : inorder (lev T 0) = [] -> longest_match h T options q ISC_R_NOTFOUND 0.
Proof.
  intros E. split; [done|]. intros x k [[ns P] Hx _ _ _].
  assert (Hall : forall ns k x, path T ns k x -> x = 0).
  { induction 1 as [|? ? u y P' -> Hy]; [done|]. rewrite E in Hy. by apply elem_of_nil in Hy. }
  apply Hx. by eapply Hall.
Qed.

Lemma findnode_spec hctx t T name q chain options :
  trie_ok (nodes t) (root t) T -> hash_ready hctx t T -> keyed name true q ->
  good_options options -> no_predecessor chain options ->
  exists result node c, dns_rbt_findnode hctx t name None chain options None = Done (result, node, None, c)
    /\ longest_match (nodes t) T options q result node.
Proof.
  intros ok Hh K Ho Hp. pose proof (effective_options _ _ Hp) as He.
  unfold dns_rbt_findnode. rewrite require_true by (by rewrite (keyed_abs _ _ _ K)). cbn [obind].
  unfold good_options in Ho. rewrite require_true by (apply negb_true_iff; lia). cbn [obind].
  destruct (Z.eqb_spec (root t) 0) as [Hr|Hr].
  { eexists _, _, _. split; [done|]. apply empty_match. rewrite (to_root _ _ _ ok) in Hr.
    destruct (lev T 0) as [|c l x r] eqn:E; [done|]. exfalso.
    apply (member_node _ _ _ ok 0 x); [|done]. rewrite E. cbn. set_solver. }
  set (opts := if chain then options else Z.lor options DNS_RBTFIND_NOPREDECESSOR) in *.
  destruct (find_loop hctx t T name q opts ok Hh K) as (sn & s & ns & k & u & -> & El & A & D). cbn [obind].
  rewrite El. cbn [obind].
  destruct (find_finish_spec t T ok q opts s ns k u A D He) as (result & node & c & -> & Hm & _).
  exists result, node, c. split; [done|]. subst opts. destruct chain; [done|by apply longest_match_options].
Qed.
