(* ===== verification/RbtAdd.v ===== *)
(** * Insertion into the tree of trees

    [dns_rbt_addnode] keeps the invariants of the trie and of the hash table, and
    adds the name and nothing else, except for the node that a split makes. *)

From stdpp Require Import sorting.
From S2P Require Import Prelude Buffer Name NameTheory Hash Rbt RbtTheory RbtDelete RbtTree RbtNames RbtTrie RbtFind.

(** ** Changes that the trie does not see *)

Definition links (n : rbtnode) : Z * Z * Z * colour * bool := (parent n, left n, right n, color n, is_root n).

Lemma rep_links h h' par b t :
  (forall q, q ∈ inorder t -> links <$> h' !! q = links <$> h !! q) -> rep h par b t -> rep h' par b t.
Proof.
  revert par b. induction t as [|c l IHl x r IHr]; intros par b H; cbn; [done|].
  intros (Hx & (dn & dt & Hn) & Hl & Hr).
  assert (Hin : forall q, q ∈ inorder l \/ q = x \/ q ∈ inorder r -> links <$> h' !! q = links <$> h !! q).
  { intros q Hq. apply H. cbn. rewrite elem_of_app, elem_of_cons. tauto. }
  split_and!; [done| |apply IHl; auto|apply IHr; auto].
  specialize (Hin x ltac:(auto)). rewrite Hn in Hin. cbn in Hin.
  destruct (h' !! x) as [[p l' r' c' b' d i]|]; [|done]. injection Hin as -> -> -> -> ->. by eexists _, _.
Qed.

Lemma tree_rep_links h h' up t :
  (forall q, q ∈ inorder t -> links <$> h' !! q = links <$> h !! q) -> tree_rep h up t -> tree_rep h' up t.
Proof. intros H [H1 H2]. split; [by eapply rep_links|done]. Qed.

(** A node without the fields of the hash table. *)
Definition core (n : rbtnode) : rbtnode := with_info (fun i => set_hashnext 0 (set_hashval 0 i)) n.

Lemma core_fields n n' : core n = core n' ->
  links n = links n' /\ down n = down n' /\ NODENAME n = NODENAME n' /\ data (info n) = data (info n').
Proof. destruct n as [? ? ? ? ? ? []], n' as [? ? ? ? ? ? []]. unfold core, with_info, set_hashnext, set_hashval. cbn. intros [=]. by subst. Qed.

Lemma core_lookup (h h' : store) x n : core <$> h' = core <$> h -> h' !! x = Some n ->
  exists n0, h !! x = Some n0 /\ core n = core n0.
Proof.
  intros E Hx. apply (f_equal (fun m => m !! x)) in E. rewrite !lookup_fmap, Hx in E.
  destruct (h !! x) as [n0|]; [|done]. apply (inj Some) in E. by exists n0.
Qed.

(** The fields that the trie is about. *)
Definition shape (n : rbtnode) := (links n, down n, NODENAME n).

Lemma trie_ok_shape h h' root T : (forall x, shape <$> h' !! x = shape <$> h !! x) -> trie_ok h root T -> trie_ok h' root T.
Proof.
  intros E ok.
  assert (Hs : forall x n, h' !! x = Some n -> exists n0, h !! x = Some n0 /\ shape n = shape n0).
  { intros x n Hx. specialize (E x). rewrite Hx in E. destruct (h !! x) as [n0|]; [|done].
    apply (inj Some) in E. by exists n0. }
  split; try apply ok.
  - destruct (h' !! 0) as [n|] eqn:Hn; [|done]. destruct (Hs _ _ Hn) as (n0 & Hn0 & _).
    by rewrite (to_null _ _ _ ok) in Hn0.
  - intros u. eapply tree_rep_links; [|apply ok]. intros x _. specialize (E x).
    destruct (h' !! x) as [n|], (h !! x) as [n0|]; try done. apply (inj Some) in E.
    pose proof (f_equal (fun p => fst (fst p)) E : links n = links n0) as El. cbn. by rewrite El.
  - intros x n Hx. destruct (Hs _ _ Hx) as (n0 & Hn & _). by eapply (to_reach _ _ _ ok).
  - intros u x n Hu Hx. destruct (Hs _ _ Hx) as (n0 & Hn & Es). 
    pose proof (f_equal snd Es : NODENAME n = NODENAME n0) as En.
    pose proof (f_equal (fun p => snd (fst p)) Es : down n = down n0) as Hd. rewrite Hd, En. by apply (to_node _ _ _ ok).
Qed.

Lemma trie_ok_core h h' root T : core <$> h' = core <$> h -> trie_ok h root T -> trie_ok h' root T.
Proof.
  intros E. apply trie_ok_shape. intros x. apply (f_equal (fun m => m !! x)) in E. rewrite !lookup_fmap in E.
  destruct (h' !! x) as [n|], (h !! x) as [n0|]; try done. apply (inj Some) in E.
  apply core_fields in E as (E1 & E2 & E3 & _). cbn. unfold shape. by rewrite E1, E2, E3.
Qed.

Lemma core_insert (h : store) x n n' : h !! x = Some n -> core n' = core n -> core <$> <[x := n']> h = core <$> h.
Proof. intros Hx E. rewrite fmap_insert, E. apply insert_id. by rewrite lookup_fmap, Hx. Qed.

(** ** The hash table *)

Definition hv (h : store) (x : Z) : option Z := (fun n => hashval (info n)) <$> h !! x.

(** The chains hold the nodes of [D]. *)
Record table_rep (h : store) (D : gset Z) (table : list Z) : Prop := {
  tr_size : 0 < Zlen table;
  tr_chain : forall i p, table !! i = Some p -> exists c, chain h p c /\ NoDup c
    /\ forall x, x ∈ c <-> x ∈ D /\ exists v, hv h x = Some v /\ v mod Zlen table = Z.of_nat i
}.

Lemma hash_rep_table hctx h T table :
  hash_rep hctx h T table <-> table_rep h (dom h) table
    /\ forall ns k x n, h !! x = Some n -> path T ns k x -> hashval (info n) = key_hash hctx k.
Proof.
  assert (E : forall i x, (x ∈ dom h /\ exists v, hv h x = Some v /\ v mod Zlen table = Z.of_nat i)
                     <-> exists n, h !! x = Some n /\ hashval (info n) mod Zlen table = Z.of_nat i).
  { intros i x. unfold hv. split.
    - intros (_ & v & Hv & Hm). destruct (h !! x) as [n|]; [|done]. injection Hv as <-. by exists n.
    - intros (n & Hn & Hm). split; [by eapply elem_of_dom_2|]. rewrite Hn. by eexists. }
  split.
  - intros [H1 H2 H3]. split; [|done]. split; [done|]. intros i p Hp. destruct (H2 i p Hp) as (c & Hc & Hd & Hx).
    exists c. split_and!; [done..|]. intros x. by rewrite E.
  - intros [[H1 H2] H3]. split; [done| |done]. intros i p Hp. destruct (H2 i p Hp) as (c & Hc & Hd & Hx).
    exists c. split_and!; [done..|]. intros x. by rewrite <- E.
Qed.

(** The fields of the hash table. *)
Definition hash_at (h : store) (x : Z) : option (Z * Z) :=
  (fun n => (hashval (info n), hashnext (info n))) <$> h !! x.

Lemma hash_at_hv h h' x : hash_at h' x = hash_at h x -> hv h' x = hv h x.
Proof. unfold hash_at, hv. destruct (h' !! x), (h !! x); try done. cbn. by intros [= -> _]. Qed.

Lemma chain_hash_at h h' c : forall p,
  (forall x, x ∈ c -> hash_at h' x = hash_at h x) -> chain h p c -> chain h' p c.
Proof.
  induction c as [|x c IH]; intros p H; cbn; [done|]. intros (-> & Hx & n & Hn & Hc).
  split_and!; [done..|]. specialize (H x ltac:(set_solver)) as Hi. unfold hash_at in Hi. rewrite Hn in Hi.
  destruct (h' !! x) as [n'|]; [|done]. injection Hi as _ Hi. exists n'. split; [done|]. rewrite Hi. apply IH; [set_solver|done].
Qed.

Lemma chain_agree h h' c p :
  (forall x, x ∈ c -> h' !! x = h !! x) -> chain h p c -> chain h' p c.
Proof. intros H. apply chain_hash_at. intros x Hx. unfold hash_at. by rewrite H. Qed.

Lemma table_rep_hash_at h h' D table :
  (forall x, x ∈ D -> hash_at h' x = hash_at h x) -> table_rep h D table -> table_rep h' D table.
Proof.
  intros H [H1 H2]. split; [done|]. intros i p Hp. destruct (H2 i p Hp) as (c & Hc & Hd & Hx). exists c.
  split_and!; [|done|].
  - eapply chain_hash_at; [|exact Hc]. intros x Hin. apply H. by apply Hx in Hin as [? _].
  - intros x. rewrite Hx. split; intros [HD Hv]; (split; [done|]); by rewrite ?(hash_at_hv h h') in * by auto.
Qed.

(** A node is put at the front of its chain. *)
Lemma push_rep h D table node n v p :
  table_rep h D table -> node ∉ D -> node <> 0 -> h !! node = Some n -> 0 <= v ->
  table !! Z.to_nat (v mod Zlen table) = Some p ->
  table_rep (<[node := with_info (fun i => set_hashnext p (set_hashval v i)) n]> h) (D ∪ {[node]})
    (<[Z.to_nat (v mod Zlen table) := node]> table).
Proof.
  intros [Hs Hc] Hnew Hn0 Hn Hv Hp. set (i0 := Z.to_nat (v mod Zlen table)) in *. set (n' := with_info _ n).
  assert (Hlen : Zlen (<[i0 := node]> table) = Zlen table) by (unfold Zlen; by rewrite length_insert).
  pose proof (Z.mod_pos_bound v (Zlen table) Hs) as Hm.
  assert (Hhv : forall x, x <> node -> hv (<[node := n']> h) x = hv h x).
  { intros x Hx. unfold hv. by rewrite lookup_insert_ne by done. }
  assert (Hhn : hv (<[node := n']> h) node = Some v) by (unfold hv; by rewrite lookup_insert_eq).
  split; [by rewrite Hlen|]. intros i p' Hp'. rewrite Hlen.
  assert (Hold : forall c x, x ∈ D -> (exists w, hv (<[node := n']> h) x = Some w /\ w mod Zlen table = Z.of_nat c)
                    <-> (exists w, hv h x = Some w /\ w mod Zlen table = Z.of_nat c)).
  { intros c x Hx. rewrite Hhv; [done|]. intros ->. done. }
  destruct (decide (i = i0)) as [->|Hi].
  - rewrite list_lookup_insert_eq in Hp' by (by apply lookup_lt_is_Some_1; eexists). injection Hp' as <-.
    destruct (Hc _ _ Hp) as (c & Hch & Hd & Hx).
    assert (Hnc : node ∉ c) by (intros Hin; apply Hx in Hin as [? _]; done).
    exists (node :: c). split_and!.
    + cbn. split_and!; [done..|]. exists n'. rewrite lookup_insert_eq. split; [done|]. cbn.
      eapply chain_agree; [|done]. intros x Hin. rewrite lookup_insert_ne; [done|]. by intros ->.
    + by constructor.
    + intros x. rewrite elem_of_cons, Hx, elem_of_union, elem_of_singleton. split.
      * intros [->|[HD Hw]]; [split; [by right|]|split; [by left|by apply Hold]]. exists v. rewrite Hhn.
        split; [done|]. unfold i0. lia.
      * intros [[HD| ->] Hw]; [right|by left]. split; [done|by apply Hold].
  - rewrite list_lookup_insert_ne in Hp' by done. destruct (Hc _ _ Hp') as (c & Hch & Hd & Hx).
    assert (Hnc : node ∉ c) by (intros Hin; apply Hx in Hin as [? _]; done).
    exists c. split_and!; [|done|].
    + eapply chain_agree; [|done]. intros x Hin. rewrite lookup_insert_ne; [done|]. by intros ->.
    + intros x. rewrite Hx, elem_of_union, elem_of_singleton. split.
      * intros [HD Hw]. split; [by left|by apply Hold].
      * intros [[HD| ->] Hw]; [split; [done|by apply Hold]|]. exfalso. destruct Hw as (w & Ew & Hw). rewrite Hhn in Ew.
        injection Ew as <-. apply Hi. unfold i0. lia.
Qed.

(** What moving nodes between chains leaves alone. *)
Definition rehashed (h h' : store) : Prop := core <$> h' = core <$> h /\ forall x, hv h' x = hv h x.

Lemma rehash_loop c : forall h D table p fuel,
  table_rep h D table -> chain h p c -> NoDup c -> (forall x, x ∈ c -> x ∉ D) -> (forall x v, hv h x = Some v -> 0 <= v) ->
  (length c < fuel)%nat ->
  exists h' table', loop fuel rehash_body (h, table, p) = Done (h', table')
    /\ table_rep h' (D ∪ list_to_set c) table' /\ rehashed h h' /\ Zlen table' = Zlen table
    /\ forall x, x ∉ c -> h' !! x = h !! x.
Proof.
  induction c as [|x c IH]; intros h D table p fuel R Hc Hd Hdis Hpos Hf; (destruct fuel as [|fuel]; [cbn in Hf; lia|]).
  - cbn in Hc. subst p. exists h, table. cbn. rewrite union_empty_r_L. by split_and!.
  - destruct Hc as (-> & Hx & n & Hn & Hc). apply NoDup_cons in Hd as [Hxc Hd]. cbn [loop]. unfold rehash_body at 1.
    rewrite (proj2 (Z.eqb_neq x 0)) by done. rewrite (node_at_Done _ _ _ Hn). cbn [obind].
    pose proof (tr_size _ _ _ R) as Hsz. rewrite require_true by lia. cbn [obind].
    set (v := hashval (info n)). pose proof (Z.mod_pos_bound v (Zlen table) Hsz) as Hm.
    destruct (rd_ok table (v mod Zlen table) Hm) as [q Eq]. rewrite Eq. cbn [obind].
    unfold assign. rewrite (node_at_Done _ _ _ Hn). cbn [obind].
    rewrite wr_ok by done. cbn [obind]. apply rd_Done in Eq as [_ Eq].
    assert (Hv : hv h x = Some v) by (unfold hv; by rewrite Hn).
    pose proof (push_rep h D table x n v q R (Hdis x ltac:(set_solver)) Hx Hn (Hpos _ _ Hv) Eq) as R'.
    assert (Enode : with_info (fun i => set_hashnext q (set_hashval v i)) n = with_info (set_hashnext q) n).
    { unfold v. by destruct n as [? ? ? ? ? ? []]. }
    rewrite Enode in R'. set (h1 := <[x := with_info (set_hashnext q) n]> h) in *.
    assert (Hr1 : rehashed h h1).
    { split; [eapply core_insert; [done|]; by destruct n as [? ? ? ? ? ? []]|]. intros y. unfold hv, h1.
      destruct (decide (y = x)) as [->|]; [by rewrite lookup_insert_eq, Hn|by rewrite lookup_insert_ne by done]. }
    assert (Hout : forall y, y <> x -> h1 !! y = h !! y) by (intros y Hy; unfold h1; by rewrite lookup_insert_ne).
    destruct (IH h1 (D ∪ {[x]}) _ (hashnext (info n)) fuel R') as (h' & table' & E & R2 & [Hc2 Hv2] & Hl & Ho).
    + eapply chain_agree; [|done]. intros y Hy. apply Hout. by intros ->.
    + done.
    + intros y Hy. rewrite elem_of_union, elem_of_singleton. intros [HD| ->]; [|done]. eapply Hdis; [|done]. set_solver.
    + intros y w. rewrite (proj2 Hr1). apply Hpos.
    + cbn in Hf. lia.
    + exists h', table'. rewrite E. destruct Hr1 as [Hc1 Hv1]. split_and!.
      * done.
      * cbn. by rewrite union_assoc_L.
      * split; [congruence|]. intros y. by rewrite Hv2.
      * rewrite Hl. unfold Zlen. by rewrite length_insert.
      * intros y Hy. apply not_elem_of_cons in Hy as [Hy1 Hy2]. rewrite Ho by done. by apply Hout.
Qed.

(** The chains of a table as lists. *)
Lemma table_lists (h : store) (Q : nat -> Z -> Prop) (unique : forall i j x, Q i x -> Q j x -> i = j) table : forall i0,
  (forall i p, table !! i = Some p -> exists c, chain h p c /\ NoDup c /\ forall x, x ∈ c <-> Q (i0 + i)%nat x) ->
  exists cs, Forall2 (chain h) table cs /\ NoDup (concat cs)
    /\ forall x, x ∈ concat cs <-> exists i, (i < length table)%nat /\ Q (i0 + i)%nat x.
Proof.
  induction table as [|p table IH]; intros i0 H.
  - exists []. split_and!; [by constructor|by constructor|]. intros x. cbn. split; [intros Hx; by apply elem_of_nil in Hx|].
    intros (i & ? & _). lia.
  - destruct (H 0%nat p eq_refl) as (c & Hc & Hd & Hx). destruct (IH (S i0)) as (cs & Hcs & Hd' & Hx').
    { intros i p' Hp'. destruct (H (S i) p' Hp') as (c' & ? & ? & Hm). exists c'. split_and!; [done..|].
      intros x. rewrite Hm. by replace (S i0 + i)%nat with (i0 + S i)%nat by lia. }
    exists (c :: cs). split_and!; [by constructor| |].
    + cbn. apply NoDup_app. split_and!; [done| |done]. intros x H1 H2. apply Hx in H1. apply Hx' in H2 as (i & _ & H2).
      pose proof (unique _ _ _ H1 H2). lia.
    + intros x. cbn. rewrite elem_of_app, Hx, Hx'. split.
      * intros [H1|(i & Hi & H2)]; [exists 0%nat; split; [lia|done]|exists (S i); split; [lia|]].
        by replace (i0 + S i)%nat with (S i0 + i)%nat by lia.
      * intros ([|i] & Hi & H1); [by left|right; exists i; split; [lia|]]. by replace (S i0 + i)%nat with (i0 + S i)%nat by lia.
Qed.

Lemma chains_in_store h c : forall p, chain h p c -> forall x, x ∈ c -> x ∈ dom h.
Proof.
  induction c as [|y c IH]; intros p Hc x Hx; [by apply elem_of_nil in Hx|]. destruct Hc as (_ & _ & n & Hn & Hc).
  apply elem_of_cons in Hx as [->|Hx]; [by eapply elem_of_dom_2|by eapply IH].
Qed.

Lemma rehash_chains_spec old cs : forall h D table,
  table_rep h D table -> Forall2 (chain h) old cs -> NoDup (concat cs) -> (forall x, x ∈ concat cs -> x ∉ D) ->
  (forall x v, hv h x = Some v -> 0 <= v) ->
  exists h' table', rehash_chains h table old = Done (h', table')
    /\ table_rep h' (D ∪ list_to_set (concat cs)) table' /\ rehashed h h'.
Proof.
  revert cs. induction old as [|p old IH]; intros cs h D table R Hcs Hd Hdis Hpos.
  - inversion Hcs; subst. exists h, table. cbn. rewrite union_empty_r_L. by split_and!.
  - inversion Hcs as [|? c ? cs' Hc Hcs']; subst. cbn [concat] in *. cbn [rehash_chains]. apply NoDup_app in Hd as (Hd1 & Hd12 & Hd2).
    destruct (rehash_loop c h D table p (rbt_fuel h) R Hc Hd1) as (h1 & t1 & E1 & R1 & [Hc1 Hv1] & _ & Ho1).
    + intros x Hx. apply Hdis. set_solver.
    + done.
    + assert (length c <= base.size h)%nat; [|unfold rbt_fuel; lia].
      rewrite <- size_dom, <- (size_list_to_set (C := gset Z) c) by done.
      apply subseteq_size. intros x Hx%elem_of_list_to_set. by eapply chains_in_store.
    + rewrite E1. cbn [obind].
      destruct (IH cs' h1 (D ∪ list_to_set c) t1 R1) as (h' & t' & E & R' & [Hc2 Hv2]).
      * apply Forall2_same_length_lookup in Hcs' as [Hlen Hl]. apply Forall2_same_length_lookup.
        split; [done|]. intros i q c' Hq Hc'. eapply chain_agree; [|by eapply Hl]. intros x Hx. apply Ho1.
        intros Hxc. apply (Hd12 x Hxc). apply list_elem_of_In, in_concat. exists c'.
        split; apply list_elem_of_In; [by eapply list_elem_of_lookup_2|done].
      * done.
      * intros x Hx. rewrite elem_of_union, elem_of_list_to_set. intros [HD|Hxc]; [eapply Hdis; [|done]; set_solver|].
        by apply (Hd12 x).
      * intros x v. rewrite Hv1. apply Hpos.
      * exists h', t'. split_and!; [done| |split; [congruence|intros x; by rewrite Hv2]].
        rewrite list_to_set_app_L. by rewrite union_assoc_L.
Qed.

Lemma empty_table h m : 0 < m -> table_rep h ∅ (replicate (Z.to_nat m) 0).
Proof.
  intros Hm. split; [unfold Zlen; rewrite length_replicate; lia|]. intros i p Hp. apply lookup_replicate in Hp as [-> _].
  exists []. split_and!; [done|constructor|]. intros x. split; [intros Hx; by apply elem_of_nil in Hx|set_solver].
Qed.

Lemma rehash_spec mem t table D :
  hashtable t = Some table -> table_rep (nodes t) D table -> (forall x, x ∈ D -> is_Some (nodes t !! x)) ->
  (forall x v, hv (nodes t) x = Some v -> 0 <= v) ->
  exists h' table', rehash mem t = Done (mkRbt h' (root t) (nodecount t) (Some table'))
    /\ table_rep h' D table' /\ rehashed (nodes t) h'.
Proof.
  intros Et R HD Hpos. unfold rehash. rewrite Et. destruct mem; cbn [negb].
  2: { exists (nodes t), table. split_and!; try done. by destruct t as [h r c ht]; cbn in *; rewrite <- Et. }
  assert (Hsz : 0 < u32 (Zlen table * 2 + 1)).
  { pose proof (u32_range (Zlen table * 2 + 1)). destruct (decide (u32 (Zlen table * 2 + 1) = 0)) as [E|]; [|lia].
    unfold u32 in E. apply Z.mod_divide in E as [m E]; [|done]. lia. }
  destruct (table_lists (nodes t) (fun i x => x ∈ D /\ exists v, hv (nodes t) x = Some v /\ v mod Zlen table = Z.of_nat i))
    with (table := table) (i0 := 0%nat) as (cs & Hcs & Hd & Hx).
  - intros i j x (_ & v & Ev & Hi) (_ & w & Ew & Hj). rewrite Ev in Ew. injection Ew as <-. lia.
  - intros i p Hp. apply (tr_chain _ _ _ R i p Hp).
  - destruct (rehash_chains_spec table cs (nodes t) ∅ _ (empty_table (nodes t) _ Hsz) Hcs Hd) as (h' & t' & E & R' & Hr);
      [set_solver|done|].
    rewrite E. cbn [obind]. exists h', t'. split_and!; [done| |done].
    replace D with (∅ ∪ list_to_set (concat cs) : gset Z); [done|].
    apply set_eq. intros x. rewrite elem_of_union, elem_of_list_to_set, Hx. split.
    + intros [H|(i & _ & ? & _)]; [by apply elem_of_empty in H|done].
    + intros Hin. right. destruct (HD x Hin) as [n Hn]. pose proof (tr_size _ _ _ R) as Hs.
      pose proof (Z.mod_pos_bound (hashval (info n)) (Zlen table) Hs) as Hm.
      exists (Z.to_nat (hashval (info n) mod Zlen table)). split; [unfold Zlen in *; lia|]. split; [done|].
      exists (hashval (info n)). unfold hv. rewrite Hn. split; [done|lia].
Qed.

Lemma hash_node_spec hctx mem t table D node n name ab r :
  hashtable t = Some table -> table_rep (nodes t) D table -> (forall x, x ∈ D -> is_Some (nodes t !! x)) ->
  (forall x v, hv (nodes t) x = Some v -> 0 <= v) ->
  node ∉ D -> node <> 0 -> nodes t !! node = Some n -> hash_ok hctx -> keyed name ab r -> r <> [] ->
  exists h' table', hash_node hctx mem t node name = Done (mkRbt h' (root t) (nodecount t) (Some table'))
    /\ table_rep h' (D ∪ {[node]}) table' /\ core <$> h' = core <$> nodes t
    /\ hv h' node = Some (key_hash hctx r) /\ (forall x, x <> node -> hv h' x = hv (nodes t) x).
Proof.
  intros Et R HD Hpos Hnew Hn0 Hn HO K Hr. unfold hash_node. rewrite Et.
  assert (Hre : exists h1 t1, (if u32 (Zlen table * 3) <=? nodecount t then rehash mem t else Done t)
            = Done (mkRbt h1 (root t) (nodecount t) (Some t1)) /\ table_rep h1 D t1 /\ rehashed (nodes t) h1).
  { destruct (_ <=? _); [by eapply rehash_spec|]. exists (nodes t), table. split_and!; try done.
    by destruct t as [h rt c ht]; cbn in *; rewrite <- Et. }
  destruct Hre as (h1 & t1 & E1 & R1 & Hc1 & Hv1). rewrite E1. cbn [obind]. unfold hash_add_node.
  rewrite (keyed_fullhash _ _ _ _ HO K Hr). cbn [obind hashtable nodes root nodecount].
  pose proof (tr_size _ _ _ R1) as Hsz. rewrite require_true by lia. cbn [obind].
  set (v := key_hash hctx r). pose proof (key_hash_range hctx r) as Hv. fold v in Hv.
  pose proof (Z.mod_pos_bound v (Zlen t1) Hsz) as Hm.
  destruct (rd_ok t1 (v mod Zlen t1) Hm) as [p Ep]. rewrite Ep. cbn [obind]. apply rd_Done in Ep as [_ Ep].
  destruct (core_lookup _ _ node n (eq_sym Hc1) Hn) as (n1 & Hn1 & _).
  unfold assign. rewrite (node_at_Done _ _ _ Hn1). cbn [obind]. rewrite wr_ok by done. cbn [obind].
  eexists _, _. split; [done|]. split_and!.
  - by apply push_rep.
  - rewrite <- Hc1. eapply core_insert; [done|]. by destruct n1 as [? ? ? ? ? ? []].
  - unfold hv. by rewrite lookup_insert_eq.
  - intros x Hx. rewrite <- Hv1. unfold hv. by rewrite lookup_insert_ne.
Qed.


(** ** A new node on a level *)

Lemma level_owner h root T (ok : trie_ok h root T) u x :
  x ∈ inorder (lev T u) -> exists ns k, path T ns k u /\ path T (ns ++ [x]) (k ++ key T x) x /\ (u = 0 \/ is_Some (h !! u)).
Proof.
  intros Hx. destruct (member_node _ _ _ ok u x Hx) as [Hx0 [n Hn]].
  destruct (to_reach _ _ _ ok x n Hn) as (ns & k & P).
  destruct (path_inv _ _ _ _ P) as [(_ & _ & ?)|(ns0 & k0 & v & -> & -> & P0 & Hv)]; [done|].
  pose proof (to_apart _ _ _ ok _ _ _ Hx Hv) as <-. exists ns0, k0. split_and!; [done..|].
  destruct (path_inv _ _ _ _ P0) as [(_ & _ & ->)|(? & ? & w & _ & _ & _ & Hw)]; [by left|right].
  by destruct (member_node _ _ _ ok w u Hw) as [_ ?].
Qed.

(** The order of a node's labels and a new name's. *)
Definition label_before (r1 r2 : namekey) : Prop :=
  match r1, r2 with l1 :: _, l2 :: _ => label_cmp l1 l2 = Lt | _, _ => False end.

Definition add_trie (T : trie) (u : Z) (t' : tree) (node : Z) (r : namekey) : trie :=
  mkTrie (fun v => if decide (v = node) then Leaf else if decide (v = u) then t' else lev T v)
         (fun x => if decide (x = node) then r else key T x).

(** What the change of a level does to the store. *)
Record level_change (h h' : store) (root root' : Z) (u : Z) (t' : tree) (node : Z) (r : namekey) : Prop := {
  lc_level : tree_rep h' u t';
  lc_rb : exists n, rb BLACK n t';
  lc_root : root' = if decide (u = 0) then ptr t' else root;
  lc_links : forall x, x ∉ inorder t' -> links <$> h' !! x = links <$> h !! x;
  lc_old : forall x n, x <> node -> h' !! x = Some n -> exists n0, h !! x = Some n0 /\ NODENAME n = NODENAME n0
             /\ down n = if decide (x = u) then ptr t' else down n0;
  lc_new : forall n, h' !! node = Some n -> down n = 0 /\ keyed (NODENAME n) (bool_decide (u = 0)) r
}.

Section add_node.
Context (h : store) (root : Z) (T : trie) (ok : trie_ok h root T).
Context (ns : list Z) (k : namekey) (u : Z) (P : path T ns k u) (a b : list Z) (El : inorder (lev T u) = a ++ b).
Context (node : Z) (Hn0 : node <> 0) (Hnew : h !! node = None) (r : namekey) (Hr : r <> []).
Context (Ha : forall y, y ∈ a -> label_before (key T y) r) (Hb : forall y, y ∈ b -> label_before r (key T y)).
Context (Hsize : Zlen (wire (rev (k ++ r))) <= 255).
Context (t' : tree) (Et : inorder t' = a ++ node :: b).

Let T' := add_trie T u t' node r.

Lemma new_not_member v : node ∉ inorder (lev T v).
Proof. intros H. apply (member_node _ _ _ ok) in H as [_ [n Hn]]. congruence. Qed.

Lemma new_not_up x v : x ∈ inorder (lev T v) -> v <> node.
Proof. intros Hx ->. apply (level_owner _ _ _ ok) in Hx as (? & ? & _ & _ & [?|[n Hn]]); congruence. Qed.

Lemma up_not_new : u <> node.
Proof.
  intros ->. destruct (path_inv _ _ _ _ P) as [(_ & _ & ?)|(? & ? & w & _ & _ & _ & Hw)]; [done|].
  by apply new_not_member in Hw.
Qed.

Lemma add_key x : x <> node -> key T' x = key T x.
Proof. intros H. cbn. by rewrite decide_False. Qed.

Lemma add_key_new : key T' node = r.
Proof. cbn. by rewrite decide_True. Qed.

Lemma add_lev_up : lev T' u = t'.
Proof. cbn. rewrite decide_False by apply up_not_new. by rewrite decide_True. Qed.

Lemma add_lev_other v : v <> u -> v <> node -> lev T' v = lev T v.
Proof. intros H1 H2. cbn. by rewrite !decide_False. Qed.

Lemma add_lev_new : lev T' node = Leaf.
Proof. cbn. by rewrite decide_True. Qed.

Lemma add_member x v : x ∈ inorder (lev T' v) <-> x ∈ inorder (lev T v) \/ (x = node /\ v = u).
Proof.
  destruct (decide (v = node)) as [->|Hv].
  { rewrite add_lev_new. cbn. split; [intros H; by apply elem_of_nil in H|].
    intros [H|[_ H]]; [by apply new_not_up in H|by destruct up_not_new]. }
  destruct (decide (v = u)) as [->|Hu].
  - rewrite add_lev_up, Et, El, !elem_of_app, elem_of_cons. tauto.
  - rewrite add_lev_other by done. tauto.
Qed.

Lemma add_path_old ns' k' x : path T ns' k' x -> path T' ns' k' x.
Proof.
  induction 1 as [|ns' k' v x P' IH Hx]; [constructor|].
  rewrite <- (add_key x); [|intros ->; by apply new_not_member in Hx].
  econstructor; [done|]. apply add_member. by left.
Qed.

Lemma add_path_new : path T' (ns ++ [node]) (k ++ r) node.
Proof. rewrite <- add_key_new. econstructor; [by apply add_path_old|]. apply add_member. by right. Qed.

Lemma add_path_inv ns' k' x : path T' ns' k' x -> (x <> node /\ path T ns' k' x) \/ (x = node /\ ns' = ns ++ [node] /\ k' = k ++ r).
Proof.
  induction 1 as [|ns' k' v x P' IH Hx]; [left; split; [done|constructor]|].
  apply add_member in Hx as [Hx|[-> ->]].
  - assert (x <> node) by (intros ->; by apply new_not_member in Hx).
    left. split; [done|]. rewrite add_key by done.
    destruct IH as [[_ P0]|[-> _]]; [by econstructor|]. by apply new_not_up in Hx.
  - right. split; [done|]. rewrite add_key_new. destruct IH as [[_ P0]|[E _]]; [|by destruct up_not_new].
    by destruct (path_unique _ _ _ ok _ _ _ P _ _ P0) as [-> ->].
Qed.

Lemma add_order v : StronglySorted (head_lt T') (inorder (lev T' v)).
Proof.
  assert (Hold : forall l, node ∉ l -> StronglySorted (head_lt T) l -> StronglySorted (head_lt T') l).
  { induction l as [|x l IH]; intros Hl S; [constructor|]. apply not_elem_of_cons in Hl as [Hx Hl].
    apply StronglySorted_cons in S as [S1 S2]. apply StronglySorted_cons. split; [|by apply IH].
    rewrite Forall_forall in *. intros y Hy. specialize (S1 y Hy). unfold head_lt in *. rewrite !add_key; [done| |done].
    intros ->. done. }
  destruct (decide (v = node)) as [->|Hv]; [rewrite add_lev_new; constructor|].
  destruct (decide (v = u)) as [->|Hu].
  2: { rewrite add_lev_other by done. apply Hold; [apply new_not_member|apply (to_order _ _ _ ok)]. }
  rewrite add_lev_up, Et. pose proof (to_order _ _ _ ok u) as S. rewrite El in S.
  pose proof (new_not_member u) as Hnm. rewrite El in Hnm. apply not_elem_of_app in Hnm as [Na Nb].
  apply StronglySorted_app in S as (Sab & Sa & Sb). apply StronglySorted_app. split_and!.
  - intros x y Hx Hy. apply elem_of_cons in Hy as [->|Hy]; unfold head_lt; rewrite (add_key x) by (intros ->; done).
    + rewrite add_key_new. apply Ha in Hx. unfold label_before in Hx. destruct (key T x), r; done.
    + rewrite add_key by (intros ->; done). by apply Sab.
  - by apply Hold.
  - apply StronglySorted_cons. split; [|by apply Hold]. apply Forall_forall. intros y Hy. unfold head_lt.
    rewrite add_key_new, add_key by (intros ->; done). by apply Hb.
Qed.

Lemma add_trie_ok h' root' : level_change h h' root root' u t' node r -> trie_ok h' root' T'.
Proof.
  intros [L1 L2 L3 L4 L5 L6].
  assert (Hnode : forall v x, x ∈ inorder (lev T' v) -> exists n, h' !! x = Some n).
  { intros v x Hx. apply add_member in Hx as [Hx|[-> ->]].
    - destruct (decide (v = u)) as [->|Hu].
      + assert (Hin : x ∈ dom h'); [|by apply elem_of_dom in Hin as [n ?]; exists n].
        eapply rep_dom; [apply L1|]. rewrite Et, El in *. set_solver.
      + destruct (member_node _ _ _ ok v x Hx) as [_ [n Hn]].
        assert (Hnot : x ∉ inorder t').
        { rewrite Et. intros Hin. assert (Hin' : x ∈ inorder (lev T u) \/ x = node) by (rewrite El; set_solver).
          destruct Hin' as [Hin'| ->]; [apply Hu; by eapply (to_apart _ _ _ ok)|by apply new_not_member in Hx]. }
        specialize (L4 x Hnot). rewrite Hn in L4. destruct (h' !! x) as [n'|]; [by exists n'|done].
    - assert (Hin : node ∈ dom h'); [|by apply elem_of_dom in Hin as [n ?]; exists n].
      eapply rep_dom; [apply L1|]. rewrite Et. set_solver. }
  split.
  - destruct (h' !! 0) as [n|] eqn:Hn; [|done]. destruct (L5 0 n (not_eq_sym Hn0) Hn) as (n0 & Hn' & _).
    by rewrite (to_null _ _ _ ok) in Hn'.
  - rewrite L3. destruct (decide (u = 0)) as [Hu|Hu].
    + rewrite <- Hu. by rewrite add_lev_up.
    + rewrite add_lev_other by congruence. apply (to_root _ _ _ ok).
  - intros v. destruct (decide (v = node)) as [->|Hv]; [rewrite add_lev_new; split; [done|constructor]|].
    destruct (decide (v = u)) as [->|Hu]; [by rewrite add_lev_up|]. rewrite add_lev_other by done.
    eapply tree_rep_links; [|apply (to_level _ _ _ ok)]. intros x Hx. apply L4. rewrite Et. intros Hin.
    assert (Hin' : x ∈ inorder (lev T u) \/ x = node) by (rewrite El; set_solver).
    destruct Hin' as [Hin'| ->]; [apply Hu; by eapply (to_apart _ _ _ ok)|by apply new_not_member in Hx].
  - intros v. destruct (decide (v = node)) as [->|Hv]; [rewrite add_lev_new; exists 0%nat; constructor|].
    destruct (decide (v = u)) as [->|Hu]; [by rewrite add_lev_up|]. rewrite add_lev_other by done. apply (to_rb _ _ _ ok).
  - intros v w x [Hv|[-> ->]]%add_member [Hw|[E ->]]%add_member.
    + by eapply (to_apart _ _ _ ok).
    + subst x. by apply new_not_member in Hv.
    + by apply new_not_member in Hw.
    + done.
  - intros x n Hn. destruct (decide (x = node)) as [->|Hx]; [eexists _, _; apply add_path_new|].
    destruct (L5 x n Hx Hn) as (n0 & Hn' & _). destruct (to_reach _ _ _ ok x n0 Hn') as (ns' & k' & P').
    exists ns', k'. by apply add_path_old.
  - intros v x n Hx Hn. apply add_member in Hx as [Hx|[-> ->]].
    + assert (Hxn : x <> node) by (intros ->; by apply new_not_member in Hx).
      destruct (L5 x n Hxn Hn) as (n0 & Hn' & En & Ed). destruct (to_node _ _ _ ok v x n0 Hx Hn') as (Hd & Kx & Hk).
      rewrite add_key by done. rewrite En, Ed. split_and!; [|done..].
      destruct (decide (x = u)) as [->|Hxu]; [by rewrite add_lev_up|by rewrite add_lev_other].
    + rewrite add_lev_new, add_key_new. by destruct (L6 n Hn).
  - apply add_order.
  - intros ns' k' x P'. destruct (add_path_inv _ _ _ P') as [[_ P0]|(_ & _ & ->)]; [|done].
    by eapply (to_size _ _ _ ok).
Qed.
End add_node.

(** ** [add_leaf] *)

(** The tree is a trie with its hash table. *)
Record rbt_ok (hctx : isc_hash) (t : dns_rbt) (T : trie) : Prop := {
  ro_trie : trie_ok (nodes t) (root t) T;
  ro_hash : hash_ok hctx;
  ro_table : exists table, hashtable t = Some table /\ hash_rep hctx (nodes t) T table
}.

Definition info_at (h : store) (x : Z) : option rbtinfo := info <$> h !! x.

Definition data_at (h : store) (x : Z) : option Z := (fun n => data (info n)) <$> h !! x.

(** The tree has one more node, [node], for the labels [k]; the other nodes keep
    their names and their data. *)
Record grows (h h' : store) (T T' : trie) (node : Z) (k : namekey) : Prop := {
  gr_fresh : h !! node = None;
  gr_new : exists ns, path T' ns k node;
  gr_old : forall x ns k', path T ns k' x -> exists ns', path T' ns' k' x;
  gr_only : forall x ns k', path T' ns k' x -> x = node \/ exists ns', path T ns' k' x;
  gr_data : forall x, x <> node -> data_at h' x = data_at h x;
  gr_empty : data_at h' node = Some 0
}.

(** The place of a new node on the level below [u], between the nodes [a] and
    [b]. *)
Inductive place (T : trie) (u current order : Z) : list Z -> list Z -> Prop :=
| place_slot c s fr : lev T u = plug (slot order c current s fr) Leaf ->
    place T u current order (before (slot order c current s fr)) (after (slot order c current s fr))
| place_empty : lev T u = Leaf -> current = u -> u <> 0 -> place T u current order [] [].

Lemma place_members T u current order a b : place T u current order a b -> inorder (lev T u) = a ++ b.
Proof. intros [c s fr E|E _ _]; rewrite E; [by rewrite inorder_plug|done]. Qed.

Lemma get_root_spec t T u ns k : trie_ok (nodes t) (root t) T -> path T ns k u -> get_root t u = Done (ptr (lev T u)).
Proof.
  intros ok P. unfold get_root. destruct (Z.eqb_spec u 0) as [->|Hu]; [by rewrite (to_root _ _ _ ok)|].
  destruct (path_inv _ _ _ _ P) as [(_ & _ & ?)|(? & ? & v & _ & _ & _ & Hv)]; [done|].
  destruct (member_node _ _ _ ok v u Hv) as [_ [n Hn]]. unfold DOWN. rewrite (node_at_Done _ _ _ Hn). cbn [obind].
  by destruct (to_node _ _ _ ok v u n Hv Hn) as (-> & _).
Qed.

Lemma addonlevel_place h T u current order a b node :
  tree_rep h u (lev T u) -> (exists n, rb BLACK n (lev T u)) -> place T u current order a b ->
  node ∉ inorder (lev T u) -> fresh_node h node ->
  exists h' t', dns_rbt_addonlevel h node current order (ptr (lev T u)) = Done (h', ptr t')
    /\ tree_rep h' u t' /\ (exists n, rb BLACK n t') /\ inorder t' = a ++ node :: b /\ evolves (inorder t') h h'.
Proof.
  intros R [m Hrb] Hp Hnew F. destruct Hp as [c s fr E|E -> Hu]; rewrite E in *.
  - destruct (proj1 (addonlevel_spec h u node current order c s fr m F) R Hrb Hnew) as (h' & t' & n' & ? & ? & ? & ? & ?).
    exists h', t'. split_and!; try done. by exists n'.
  - destruct (proj2 (addonlevel_spec h u node u order BLACK Leaf [] 0 F) Hu) as (h' & E' & R' & Ev).
    exists h', (Node BLACK Leaf node Leaf). split_and!; try done. exists 1%nat. econstructor; constructor.
Qed.

Lemma put_root_spec h t u v : (u <> 0 -> is_Some (h !! u)) ->
  exists h', put_root (with_nodes h t) u v = Done (mkRbt h' (if decide (u = 0) then v else root t) (nodecount t) (hashtable t))
    /\ (forall x, info_at h' x = info_at h x) /\ (forall x, links <$> h' !! x = links <$> h !! x)
    /\ (forall x n', h' !! x = Some n' -> exists n, h !! x = Some n /\ info n' = info n
          /\ down n' = if decide (x = u /\ u <> 0) then v else down n).
Proof.
  intros Hu. unfold put_root. destruct (Z.eqb_spec u 0) as [->|Hu0].
  - exists h. rewrite decide_True by done. split_and!; [done..|]. intros x n' Hx. exists n'.
    rewrite decide_False by naive_solver. done.
  - destruct (Hu Hu0) as [n Hn]. unfold set_down, assign. cbn [nodes with_nodes]. rewrite (node_at_Done _ _ _ Hn). cbn [obind].
    rewrite decide_False by done. eexists. split; [done|]. cbn [nodes].
    split_and!.
    + intros x. unfold info_at. destruct (decide (x = u)) as [->|]; [by rewrite lookup_insert_eq, Hn|by rewrite lookup_insert_ne].
    + intros x. destruct (decide (x = u)) as [->|]; [by rewrite lookup_insert_eq, Hn|by rewrite lookup_insert_ne].
    + intros x n' Hx. destruct (decide (x = u)) as [->|Hne].
      * rewrite lookup_insert_eq in Hx. injection Hx as <-. exists n. by rewrite decide_True.
      * rewrite lookup_insert_ne in Hx by done. exists n'. by rewrite decide_False by naive_solver.
Qed.

(** The new node goes into the hash table. *)
Lemma hash_new_spec hctx mem t t3 T T' node n3 name ab q :
  rbt_ok hctx t T -> trie_ok (nodes t3) (root t3) T' -> hashtable t3 = hashtable t ->
  nodes t !! node = None -> node <> 0 -> nodes t3 !! node = Some n3 -> hashval (info n3) = 0 ->
  (forall x, x <> node -> hash_at (nodes t3) x = hash_at (nodes t) x) ->
  (forall x ns k, path T' ns k x -> x = node /\ fold_key k = fold_key q \/ exists ns', path T ns' k x) ->
  keyed name ab q -> q <> [] ->
  exists t4, hash_node hctx mem t3 node name = Done t4 /\ rbt_ok hctx t4 T'
    /\ core <$> nodes t4 = core <$> nodes t3.
Proof.
  intros [ok HO (table & Et & HR)] ok' Eh Hnew Hn0 Hn3 Hz Hsame Hpath K Hq.
  apply hash_rep_table in HR as [R Hval].
  assert (Hdom : dom (nodes t3) = dom (nodes t) ∪ {[node]}).
  { apply set_eq. intros x. rewrite elem_of_union, elem_of_singleton, !elem_of_dom. destruct (decide (x = node)) as [->|Hx].
    - rewrite Hn3. split; [by right|by eexists].
    - specialize (Hsame x Hx). unfold hash_at in Hsame. destruct (nodes t3 !! x), (nodes t !! x); try done;
        (split; [intros _; left; by eexists|intros _; by eexists]) || naive_solver. }
  destruct (hash_node_spec hctx mem t3 table (dom (nodes t)) node n3 name ab q) as (h4 & t4 & E & R4 & Hc & Hvn & Hvo);
    try done.
  - by rewrite Eh.
  - eapply table_rep_hash_at; [|done]. intros x Hx. apply Hsame. intros ->. by apply elem_of_dom in Hx as [? ?]; simplify_eq.
  - intros x Hx. apply elem_of_dom. rewrite Hdom. set_solver.
  - intros x v Hv. destruct (decide (x = node)) as [->|Hx]; [unfold hv in Hv; rewrite Hn3 in Hv; injection Hv as <-; lia|].
    rewrite (hash_at_hv _ _ _ (Hsame x Hx)) in Hv. unfold hv in Hv. destruct (nodes t !! x) as [n|] eqn:Hn; [|done].
    injection Hv as <-. destruct (to_reach _ _ _ ok x n Hn) as (ns & k & P). rewrite (Hval _ _ _ _ Hn P). apply key_hash_range.
  - intros Hx. by apply elem_of_dom in Hx as [? ?]; simplify_eq.
  - eexists. split; [exact E|]. split; [|done]. split; [by eapply trie_ok_core|done|]. exists t4. split; [done|].
    apply hash_rep_table. cbn [nodes]. split.
    + replace (dom h4) with (dom (nodes t) ∪ {[node]}); [done|]. rewrite <- Hdom, <- (dom_fmap_L core h4), Hc, dom_fmap_L. done.
    + intros ns k x n Hx P. assert (Ev : hv h4 x = Some (hashval (info n))) by (unfold hv; by rewrite Hx).
      destruct (decide (x = node)) as [->|Hne].
      * rewrite Hvn in Ev. injection Ev as <-. destruct (Hpath _ _ _ P) as [[_ E']|[ns' P']]; [by apply key_hash_fold|].
        exfalso. destruct (path_inv _ _ _ _ P') as [(_ & _ & ?)|(? & ? & v & _ & _ & _ & Hv)]; [done|].
        destruct (member_node _ _ _ ok v node Hv) as [_ [? ?]]. congruence.
      * rewrite Hvo, (hash_at_hv _ _ _ (Hsame x Hne)) in Ev by done. unfold hv in Ev.
        destruct (nodes t !! x) as [n0|] eqn:Hn; [|done]. injection Ev as <-.
        destruct (Hpath _ _ _ P) as [[? _]|[ns' P']]; [done|]. by eapply Hval.
Qed.

Lemma core_data h h' x : core <$> h' = core <$> h -> data_at h' x = data_at h x.
Proof.
  intros E. apply (f_equal (fun m => m !! x)) in E. rewrite !lookup_fmap in E. unfold data_at.
  destruct (h' !! x) as [n'|], (h !! x) as [n|]; try done. apply (inj Some) in E. cbn.
  by apply core_fields in E as (_ & _ & _ & ->).
Qed.

(** The level with its new node, before the hash table is changed. *)
Lemma add_level_change h h1 h2 h3 root u T t' node (i : rbtinfo) r a b v (ns : list Z) (k : namekey) :
  trie_ok h root T -> h !! node = None -> node <> 0 -> path T ns k u ->
  inorder (lev T u) = a ++ b -> inorder t' = a ++ node :: b ->
  h1 = <[node := mkNode 0 0 0 BLACK false 0 i]> h ->
  tree_rep h2 u t' -> (exists n, rb BLACK n t') -> evolves (inorder t') h1 h2 ->
  (forall x, links <$> h3 !! x = links <$> h2 !! x) ->
  (forall x n', h3 !! x = Some n' -> exists n, h2 !! x = Some n /\ info n' = info n
      /\ down n' = if decide (x = u /\ u <> 0) then v else down n) ->
  v = ptr t' -> (forall n, info n = i -> keyed (NODENAME n) (bool_decide (u = 0)) r) ->
  level_change h h3 root (if decide (u = 0) then v else root) u t' node r.
Proof.
  intros ok Hnew Hn0 P El Et -> R2 Hrb [Eo Ep] Hl3 Hd3 -> Kn.
  assert (Hun : u <> node) by (by eapply up_not_new).
  assert (Hpay : forall x n, h2 !! x = Some n -> exists n1, <[node := mkNode 0 0 0 BLACK false 0 i]> h !! x = Some n1
            /\ payload n = payload n1).
  { intros x n Hx. apply (f_equal (fun m => m !! x)) in Ep. rewrite !lookup_fmap, Hx in Ep.
    destruct (<[node := _]> h !! x) as [n1|]; [|done]. exists n1. split; [done|]. by apply (inj Some) in Ep. }
  split.
  - eapply tree_rep_links; [|exact R2]. intros x _. apply Hl3.
  - done.
  - done.
  - intros x Hx. rewrite Hl3, Eo by done. rewrite lookup_insert_ne; [done|]. intros <-. apply Hx. rewrite Et. set_solver.
  - intros x n Hx Hn. destruct (Hd3 x n Hn) as (n2 & Hn2 & Ei & Ed). destruct (Hpay x n2 Hn2) as (n1 & Hn1 & Epay).
    rewrite lookup_insert_ne in Hn1 by done. exists n1. injection Epay as Ed1 Ei1. split_and!; [done| |].
    + unfold NODENAME. by rewrite Ei, Ei1.
    + rewrite Ed, Ed1. destruct (decide (x = u)) as [->|Hxu].
      * destruct (decide (u = 0)) as [->|Hu0]; [by rewrite (to_null _ _ _ ok) in Hn1|]. by rewrite decide_True.
      * by rewrite decide_False by naive_solver.
  - intros n Hn. destruct (Hd3 node n Hn) as (n2 & Hn2 & Ei & Ed). destruct (Hpay node n2 Hn2) as (n1 & Hn1 & Epay).
    rewrite lookup_insert_eq in Hn1. injection Hn1 as <-. injection Epay as Ed1 Ei1.
    rewrite decide_False in Ed by naive_solver. split; [by rewrite Ed, Ed1|]. apply Kn. by rewrite Ei, Ei1.
Qed.

Lemma add_leaf_spec hctx mem table_mem t T name add_name q current order u ns k r a b tbl :
  rbt_ok hctx t T -> path T ns k u -> place T u current order a b ->
  keyed name true q -> keyed add_name (bool_decide (u = 0)) r -> offsets add_name = Some tbl -> r <> [] ->
  fold_key (k ++ r) = fold_key q -> Zlen (wire (rev (k ++ r))) <= 255 ->
  (forall y, y ∈ a -> label_before (key T y) r) -> (forall y, y ∈ b -> label_before r (key T y)) ->
  (mem = 0 -> add_leaf hctx mem table_mem t name add_name current order u = Done (ISC_R_NOMEMORY, 0, t))
  /\ (mem <> 0 -> nodes t !! mem = None ->
      exists t' T', add_leaf hctx mem table_mem t name add_name current order u = Done (ISC_R_SUCCESS, mem, t')
        /\ rbt_ok hctx t' T' /\ grows (nodes t) (nodes t') T T' mem (k ++ r)).
Proof.
  intros RO P Hpl K Kr Htbl Hr Hf Hsz Ha Hb. pose proof (ro_trie _ _ _ RO) as ok.
  pose proof (place_members _ _ _ _ _ _ Hpl) as El. unfold add_leaf. split.
  - intros ->. rewrite (create_node_nomem _ _ _ _ _ Kr Htbl Hr). done.
  - intros Hm Hnew. destruct (create_node_spec (nodes t) mem add_name _ r tbl Kr Htbl Hr Hm) as (i & Ecr & Kn & Hdata & Hhash).
    rewrite Ecr. cbn [obind]. rewrite bool_decide_eq_true_2 by done.
    rewrite (get_root_spec t T u ns k ok P). cbn [obind].
    set (h1 := <[mem := mkNode 0 0 0 BLACK false 0 i]> (nodes t)) in *.
    assert (Hnm : mem ∉ inorder (lev T u)) by (by eapply new_not_member).
    destruct (addonlevel_place h1 T u current order a b mem) as (h2 & t' & E2 & R2 & Hrb2 & Et & Ev); try done.
    { eapply tree_rep_links; [|apply (to_level _ _ _ ok)]. intros x Hx. unfold h1. rewrite lookup_insert_ne; [done|].
      by intros <-. }
    { apply (to_rb _ _ _ ok). }
    { split; [done|]. eexists _, _, _. unfold h1. by rewrite lookup_insert_eq. }
    rewrite E2. cbn [obind].
    assert (Hu2 : u <> 0 -> is_Some (h2 !! u)).
    { intros Hu. destruct (path_inv _ _ _ _ P) as [(_ & _ & ?)|(? & ? & v & _ & _ & _ & Hv)]; [done|].
      destruct (member_node _ _ _ ok v u Hv) as [_ [n Hn]]. apply elem_of_dom.
      rewrite <- (dom_fmap_L payload h2), (e_payload _ _ _ Ev), dom_fmap_L. unfold h1. rewrite dom_insert_L.
      apply elem_of_dom_2 in Hn. set_solver. }
    destruct (put_root_spec h2 t u (ptr t') Hu2) as (h3 & E3 & Hi3 & Hl3 & Hd3). rewrite E3. cbn [obind].
    assert (LC : level_change (nodes t) h3 (root t) (if decide (u = 0) then ptr t' else root t) u t' mem r)
      by (by eapply add_level_change).
    set (T' := add_trie T u t' mem r).
    assert (ok3 : trie_ok h3 (if decide (u = 0) then ptr t' else root t) T') by (by eapply add_trie_ok).
    assert (Hinfo : forall x, x <> mem -> info_at h3 x = info_at (nodes t) x).
    { intros x Hx. rewrite Hi3. pose proof (f_equal (fun m => m !! x) (e_payload _ _ _ Ev)) as Ep.
      rewrite !lookup_fmap in Ep. unfold h1 in Ep. rewrite lookup_insert_ne in Ep by done. unfold info_at.
      destruct (h2 !! x), (nodes t !! x); try done. cbn in *. by injection Ep as _ ->. }
    assert (Hnode : exists n3, h3 !! mem = Some n3 /\ info n3 = i).
    { pose proof (Hi3 mem) as Hm3. pose proof (f_equal (fun m => m !! mem) (e_payload _ _ _ Ev)) as Ep.
      rewrite !lookup_fmap in Ep. unfold h1 in Ep. rewrite lookup_insert_eq in Ep. unfold info_at in Hm3.
      destruct (h2 !! mem) as [n2|]; [|done]. cbn in Ep. injection Ep as _ E. destruct (h3 !! mem) as [n3|]; [|done].
      exists n3. split; [done|]. injection Hm3 as ->. done. }
    destruct Hnode as (n3 & Hn3 & Ei3).
    assert (Hinv : forall ns' k' x, path T' ns' k' x ->
      (x <> mem /\ path T ns' k' x) \/ (x = mem /\ ns' = ns ++ [mem] /\ k' = k ++ r)).
    { intros ns' k' x P'. eapply add_path_inv; eauto. }
    set (t3 := add_count 1 (mkRbt h3 (if decide (u = 0) then ptr t' else root t) (nodecount t) (hashtable t))).
    destruct (hash_new_spec hctx table_mem t t3 T T' mem n3 name true q) as (t4 & E4 & RO4 & Hc4); try done.
    { by rewrite Ei3. }
    { intros x Hx. specialize (Hinfo x Hx). unfold info_at, hash_at in *. change (nodes t3) with h3.
      destruct (h3 !! x), (nodes t !! x); try done. cbn in *. by injection Hinfo as ->. }
    { intros x ns' k' P'. destruct (Hinv _ _ _ P') as [[_ P0]|(-> & _ & ->)];
        [right; by eexists|by left]. }
    { by apply (keyed_nonempty name). }
    rewrite E4. cbn [obind]. exists t4, T'. split_and!; [done..|]. split.
    + done.
    + eexists. eapply add_path_new; try done.
    + intros x ns' k' P'. exists ns'. by eapply add_path_old.
    + intros x ns' k' P'. destruct (Hinv _ _ _ P') as [[_ P0]|(-> & _ & ->)];
        [right; by eexists|by left].
    + intros x Hx. rewrite (core_data _ _ _ Hc4). specialize (Hinfo x Hx). unfold info_at, data_at in *. change (nodes t3) with h3.
      destruct (h3 !! x), (nodes t !! x); try done. cbn in *. by injection Hinfo as ->.
    + rewrite (core_data _ _ _ Hc4). unfold data_at. change (nodes t3) with h3. rewrite Hn3. cbn. by rewrite Ei3, Hdata.
Qed.
