(* ===== verification/RbtSplit.v ===== *)
(** * Splitting a node of the tree of trees

    When a name shares only some labels with a node, [dns_rbt_addnode] puts a new
    node for the common labels in its place and moves it to a level of its own
    below.  The invariants hold after the split, and no name is lost. *)

From stdpp Require Import sorting.
From S2P Require Import Prelude Buffer Name NameTheory Hash Rbt RbtTheory RbtDelete RbtTree RbtNames RbtTrie RbtFind RbtAdd.

(** ** Splitting a node *)

Definition split_trie (T : trie) (u : Z) (tr : tree) (current new : Z) (c : nat) : trie :=
  mkTrie (fun v => if decide (v = new) then Node BLACK Leaf current Leaf else if decide (v = u) then tr else lev T v)
         (fun x => if decide (x = new) then take c (key T current)
                   else if decide (x = current) then drop c (key T current) else key T x).

Record split_change (h h' : store) (root root' : Z) (T : trie) (u : Z) (tr : tree) (current new : Z) (c : nat) : Prop := {
  sc_level : tree_rep h' u tr;
  sc_below : tree_rep h' new (Node BLACK Leaf current Leaf);
  sc_root : root' = if decide (u = 0) then ptr tr else root;
  sc_links : forall x, x <> new -> x ∉ inorder (lev T u) -> links <$> h' !! x = links <$> h !! x;
  sc_old : forall x n, x <> new -> x <> current -> h' !! x = Some n -> exists n0, h !! x = Some n0
             /\ NODENAME n = NODENAME n0 /\ down n = if decide (x = u) then ptr tr else down n0;
  sc_current : forall n, h' !! current = Some n ->
             down n = ptr (lev T current) /\ keyed (NODENAME n) false (drop c (key T current));
  sc_new : forall n, h' !! new = Some n ->
             down n = current /\ keyed (NODENAME n) (bool_decide (u = 0)) (take c (key T current))
}.

Lemma not_own_level h root T (ok : trie_ok h root T) u x : x ∈ inorder (lev T u) -> x <> u.
Proof.
  intros Hx ->. destruct (level_owner _ _ _ ok _ _ Hx) as (ns & k & P & P' & _).
  destruct (path_unique _ _ _ ok _ _ _ P _ _ P') as [E _]. apply (f_equal length) in E. rewrite length_app in E. cbn in E. lia.
Qed.

Lemma wire_front_length (k1 k2 : namekey) : Zlen (wire (rev k1)) <= Zlen (wire (rev (k1 ++ k2))).
Proof. rewrite rev_app_distr, wire_app, Zlen_app. pose proof (Zlen_nonneg (wire (rev k2))). lia. Qed.

Section split_node.
Context (h : store) (root : Z) (T : trie) (ok : trie_ok h root T).
Context (ns : list Z) (k : namekey) (u : Z) (P : path T ns k u).
Context (fr : list frame) (col : colour) (l r : tree) (current : Z) (El : lev T u = plug fr (Node col l current r)).
Context (new : Z) (Hn0 : new <> 0) (Hnew : h !! new = None).
Context (c : nat) (Hc : (0 < c < length (key T current))%nat).

Let tr := plug fr (Node col l new r).
Let T' := split_trie T u tr current new c.

Lemma split_in : current ∈ inorder (lev T u).
Proof. rewrite El, inorder_plug. cbn. set_solver. Qed.

Lemma split_outside v : new ∉ inorder (lev T v).
Proof. intros H. apply (member_node _ _ _ ok) in H as [_ [n Hn]]. congruence. Qed.

Lemma split_new_leaf x v : x ∈ inorder (lev T v) -> v <> new.
Proof. intros Hx ->. apply (level_owner _ _ _ ok) in Hx as (? & ? & _ & _ & [?|[n Hn]]); congruence. Qed.

Lemma split_up : u <> new.
Proof. eapply split_new_leaf. apply split_in. Qed.

Lemma split_current_ne : current <> new.
Proof. intros E. eapply split_outside. rewrite <- E. apply split_in. Qed.

Lemma split_inorder : inorder tr = before fr ++ (inorder l ++ new :: inorder r) ++ after fr
  /\ inorder (lev T u) = before fr ++ (inorder l ++ current :: inorder r) ++ after fr
  /\ current ∉ before fr /\ current ∉ inorder l /\ current ∉ inorder r /\ current ∉ after fr.
Proof.
  unfold tr. rewrite El, !inorder_plug. cbn. split_and!; [done..| | | |];
    pose proof (t_nodup _ _ _ (to_level _ _ _ ok u)) as Hd; rewrite El, inorder_plug in Hd; cbn in Hd;
    repeat (rewrite ?NoDup_app, ?NoDup_cons in Hd); set_solver.
Qed.

Lemma split_key x : x <> new -> x <> current -> key T' x = key T x.
Proof. intros H1 H2. cbn. by rewrite !decide_False. Qed.

Lemma split_key_new : key T' new = take c (key T current).
Proof. cbn. by rewrite decide_True. Qed.

Lemma split_key_current : key T' current = drop c (key T current).
Proof. cbn. rewrite decide_False by apply split_current_ne. by rewrite decide_True. Qed.

Lemma split_lev_up : lev T' u = tr.
Proof. cbn. rewrite decide_False by apply split_up. by rewrite decide_True. Qed.

Lemma split_lev_new : lev T' new = Node BLACK Leaf current Leaf.
Proof. cbn. by rewrite decide_True. Qed.

Lemma split_lev_other v : v <> u -> v <> new -> lev T' v = lev T v.
Proof. intros H1 H2. cbn. by rewrite !decide_False. Qed.

Lemma split_member x v : x ∈ inorder (lev T' v) <->
  (x = current /\ v = new) \/ (x = new /\ v = u) \/ (x <> current /\ x ∈ inorder (lev T v)).
Proof.
  destruct (decide (v = new)) as [->|Hv].
  - rewrite split_lev_new. cbn. rewrite list_elem_of_singleton. split; [by left; split|].
    intros [[-> _]|[[_ H]|[_ H]]]; [done|by destruct split_up|by apply split_new_leaf in H].
  - destruct (decide (v = u)) as [->|Hu].
    + rewrite split_lev_up. destruct split_inorder as (-> & -> & H1 & H2 & H3 & H4). set_solver.
    + rewrite split_lev_other by done. split.
      * intros Hx. right. right. split; [|done]. intros ->. apply Hu. by eapply (to_apart _ _ _ ok); [|apply split_in].
      * intros [[_ ?]|[[_ ?]|[_ ?]]]; done.
Qed.

Lemma split_path_up ns' k' : path T' ns' k' u -> path T' (ns' ++ [new]) (k' ++ take c (key T current)) new.
Proof. intros P'. rewrite <- split_key_new. econstructor; [done|]. apply split_member. auto. Qed.

Lemma split_path_old ns' k' x : path T ns' k' x -> exists ns2, path T' ns2 k' x.
Proof.
  induction 1 as [|ns' k' v x P' [ns2 IH] Hx]; [exists []; constructor|].
  destruct (decide (x = current)) as [->|Hxc].
  - pose proof (to_apart _ _ _ ok _ _ _ Hx split_in) as ->. exists ((ns2 ++ [new]) ++ [current]).
    rewrite <- (take_drop c (key T current)), app_assoc, <- split_key_current.
    econstructor; [by apply split_path_up|]. apply split_member. auto.
  - exists (ns2 ++ [x]). assert (x <> new) by (intros ->; by apply split_outside in Hx).
    rewrite <- (split_key x) by done. econstructor; [done|]. apply split_member. auto.
Qed.

Lemma split_path_new : exists ns2, path T' ns2 (k ++ take c (key T current)) new.
Proof. destruct (split_path_old _ _ _ P) as [ns2 P2]. eexists. by apply split_path_up. Qed.

Lemma split_path_inv ns' k' x : path T' ns' k' x ->
  (x = new /\ k' = k ++ take c (key T current)) \/ (x <> new /\ exists ns2, path T ns2 k' x).
Proof.
  induction 1 as [|ns' k' v x P' IH Hx]; [right; split; [done|exists []; constructor]|].
  apply split_member in Hx as [[-> ->]|[[-> ->]|[Hxc Hx]]].
  - right. split; [apply split_current_ne|]. destruct IH as [[_ ->]|[? _]]; [|done].
    rewrite split_key_current, <- app_assoc, take_drop. eexists. econstructor; [exact P|apply split_in].
  - left. split; [done|]. rewrite split_key_new. destruct IH as [[E _]|[_ [ns2 P2]]]; [by destruct split_up|].
    by destruct (path_unique _ _ _ ok _ _ _ P _ _ P2) as [_ ->].
  - assert (Hxn : x <> new) by (intros ->; by apply split_outside in Hx). right. split; [done|].
    rewrite split_key by done. destruct IH as [[-> _]|[_ [ns2 P2]]]; [by apply split_new_leaf in Hx|].
    eexists. by econstructor.
Qed.

(** The new node has the last label of the node it replaces. *)
Lemma split_heads : exists lc rc rc', key T current = lc :: rc /\ take c (key T current) = lc :: rc'.
Proof.
  destruct (key T current) as [|lc rc]; [cbn in Hc; lia|]. destruct c as [|c']; [lia|]. by exists lc, rc, (take c' rc).
Qed.

Lemma split_order v : StronglySorted (head_lt T') (inorder (lev T' v)).
Proof.
  set (swap := fun x => if decide (x = current) then new else x).
  assert (Hlt : forall x y, x <> new -> y <> new -> head_lt T x y -> head_lt T' (swap x) (swap y)).
  { intros x y Hx Hy. unfold head_lt, swap. destruct split_heads as (lc & rc & rc' & E1 & E2).
    destruct (decide (x = current)) as [->|Hxc], (decide (y = current)) as [->|Hyc];
      rewrite ?split_key_new, ?E2, ?split_key, ?E1 by done; done. }
  assert (Hmap : forall l, new ∉ l -> StronglySorted (head_lt T) l -> StronglySorted (head_lt T') (map swap l)).
  { induction l0 as [|x l0 IH]; intros Hl S; [constructor|]. apply not_elem_of_cons in Hl as [Hx Hl].
    apply StronglySorted_cons in S as [S1 S2]. cbn. apply StronglySorted_cons. split; [|by apply IH].
    rewrite Forall_map. rewrite Forall_forall in *. intros y Hy. apply Hlt; [done| |by apply S1]. intros ->. done. }
  assert (Hid : forall l, current ∉ l -> map swap l = l).
  { induction l0 as [|x l0 IH]; intros Hl; [done|]. apply not_elem_of_cons in Hl as [Hx Hl]. cbn. rewrite IH by done.
    unfold swap. by rewrite decide_False. }
  destruct (decide (v = new)) as [->|Hv]; [rewrite split_lev_new; cbn; repeat constructor|].
  pose proof (Hmap (inorder (lev T v)) (split_outside v) (to_order _ _ _ ok v)) as S.
  destruct (decide (v = u)) as [->|Hu].
  - rewrite split_lev_up. destruct split_inorder as (-> & E & H1 & H2 & H3 & H4). rewrite E in S.
    rewrite !map_app in S. cbn in S. rewrite !Hid in S by done. unfold swap in S. by rewrite decide_True in S.
  - rewrite split_lev_other by done. rewrite Hid in S; [done|]. intros Hx. apply Hu.
    by eapply (to_apart _ _ _ ok); [|apply split_in].
Qed.

Lemma split_rb : exists n, rb BLACK n tr.
Proof.
  destruct (to_rb _ _ _ ok u) as [n Hn]. rewrite El in Hn. destruct (fits_of_rb _ _ _ Hn) as (c' & m & Hm & Hf).
  apply (fits_plug c' m); [done|]. inversion Hm; subst; by econstructor.
Qed.

Lemma split_trie_ok h' root' : split_change h h' root root' T u tr current new c -> trie_ok h' root' T'.
Proof.
  intros [L1 L2 L3 L4 L5 L6 L7].
  split.
  - destruct (h' !! 0) as [n|] eqn:Hn; [|done]. destruct (decide (0 = current)) as [E|Hc0].
    + exfalso. eapply (no_zero _ _ _ ok u). rewrite E. apply split_in.
    + destruct (L5 0 n (not_eq_sym Hn0) Hc0 Hn) as (n0 & Hn' & _). by rewrite (to_null _ _ _ ok) in Hn'.
  - rewrite L3. destruct (decide (u = 0)) as [Hu|Hu].
    + rewrite <- Hu. by rewrite split_lev_up.
    + rewrite split_lev_other by congruence. apply (to_root _ _ _ ok).
  - intros v. destruct (decide (v = new)) as [->|Hv]; [by rewrite split_lev_new|].
    destruct (decide (v = u)) as [->|Hu]; [by rewrite split_lev_up|]. rewrite split_lev_other by done.
    eapply tree_rep_links; [|apply (to_level _ _ _ ok)]. intros x Hx. apply L4.
    + intros ->. by apply split_outside in Hx.
    + intros Hin. apply Hu. by eapply (to_apart _ _ _ ok).
  - intros v. destruct (decide (v = new)) as [->|Hv].
    { rewrite split_lev_new. exists 1%nat. econstructor; constructor. }
    destruct (decide (v = u)) as [->|Hu]; [rewrite split_lev_up; apply split_rb|].
    rewrite split_lev_other by done. apply (to_rb _ _ _ ok).
  - intros v w x Hv%split_member Hw%split_member. pose proof split_current_ne.
    destruct Hv as [[-> ->]|[[-> ->]|[Hxc Hv]]], Hw as [[E ->]|[[E ->]|[Hyc Hw]]]; try done;
      try (subst; by apply split_outside in Hv || by apply split_outside in Hw).
    by eapply (to_apart _ _ _ ok).
  - intros x n Hn. destruct (decide (x = new)) as [->|Hx].
    { destruct split_path_new as [ns2 ?]. by eexists _, _. }
    assert (Hreach : exists ns' k', path T ns' k' x).
    { destruct (decide (x = current)) as [->|Hxc]; [eexists _, _; econstructor; [exact P|apply split_in]|].
      destruct (L5 x n Hx Hxc Hn) as (n0 & Hn' & _). by apply (to_reach _ _ _ ok x n0). }
    destruct Hreach as (ns' & k' & P'). destruct (split_path_old _ _ _ P') as [ns2 ?]. by eexists _, _.
  - intros v x n Hx Hn. apply split_member in Hx as [[-> ->]|[[-> ->]|[Hxc Hx]]].
    + destruct (L6 n Hn) as [Hd Kc]. rewrite split_key_current, bool_decide_eq_false_2 by done.
      rewrite split_lev_other; [|by eapply (not_own_level _ _ _ ok); apply split_in|apply split_current_ne].
      split_and!; [done..|]. intros E. apply (f_equal length) in E. rewrite length_drop in E. cbn in E. lia.
    + destruct (L7 n Hn) as [Hd Kn]. rewrite split_key_new, split_lev_new. split_and!; [done..|].
      destruct split_heads as (? & ? & ? & _ & ->). done.
    + assert (Hxn : x <> new) by (intros ->; by apply split_outside in Hx).
      destruct (L5 x n Hxn Hxc Hn) as (n0 & Hn' & En & Ed). destruct (to_node _ _ _ ok v x n0 Hx Hn') as (Hd & Kx & Hk).
      rewrite split_key by done. rewrite En, Ed. split_and!; [|done..].
      destruct (decide (x = u)) as [->|Hxu]; [by rewrite split_lev_up|by rewrite split_lev_other].
  - apply split_order.
  - intros ns' k' x P'. destruct (split_path_inv _ _ _ P') as [[_ ->]|[_ [ns2 P2]]]; [|by eapply (to_size _ _ _ ok)].
    pose proof (to_size _ _ _ ok _ _ _ (path_node _ _ _ _ _ P split_in)) as Hs.
    rewrite <- (take_drop c (key T current)) in Hs. rewrite app_assoc in Hs.
    pose proof (wire_front_length (k ++ take c (key T current)) (drop c (key T current))). lia.
Qed.
End split_node.

(** ** [split_links] *)

(** The parent's link goes to the new node. *)
Lemma redirect_child h up fr current new :
  rep_ctx h up fr current -> NoDup (around fr) -> current <> 0 -> current ∉ around fr -> new ∉ around fr ->
  exists h', (if up_of fr 0 =? 0 then Done h
              else let* pn := node_at h (up_of fr 0) in
                   if left pn =? current then set_left h (up_of fr 0) new else set_right h (up_of fr 0) new) = Done h'
    /\ rep_ctx h' up fr new /\ (forall q, q ∉ around fr -> h' !! q = h !! q) /\ payload <$> h' = payload <$> h.
Proof.
  intros Hk Hnd Hc0 Hck Hnk. pose proof (sibling_ptr fr current Hc0 Hck) as Hsib.
  destruct fr as [|[d c p s] fr]; cbn [up_of]; [by exists h|].
  destruct Hk as (Hp0 & (dn & dt & Hp) & Hs & Hk). specialize (Hsib _ _ _ _ _ eq_refl).
  destruct (around_nodup _ _ _ _ _ Hnd) as (Hps & Hpk & _).
  rewrite (proj2 (Z.eqb_neq p 0)) by done. run_store.
  destruct d; cbn [left]; [rewrite Z.eqb_refl|rewrite (proj2 (Z.eqb_neq (ptr s) current)) by done]; run_store.
  all: eexists; split; [done|]; split_and!; [| |by payload_same].
  all: try (intros q Hq; rewrite around_cons in Hq; rewrite lookup_insert_ne; [done|]; intros ->; tauto).
  - apply (rep_ctx_child h _ up L c p s fr new dn dt); try done; [look|].
    intros q Hq. rewrite lookup_insert_ne; [done|]. intros ->; tauto.
  - apply (rep_ctx_child h _ up R c p s fr new dn dt); try done; [look|].
    intros q Hq. rewrite lookup_insert_ne; [done|]. intros ->; tauto.
Qed.

(** The addresses at and around a node. *)
Lemma position_apart fr col l x r : NoDup (inorder (plug fr (Node col l x r))) ->
  NoDup (around fr) /\ x ∉ around fr /\ x ∉ inorder l /\ x ∉ inorder r /\ NoDup (inorder l) /\ NoDup (inorder r)
  /\ (forall q, q ∈ around fr -> q ∉ inorder l /\ q ∉ inorder r) /\ (forall q, q ∈ inorder l -> q ∉ inorder r).
Proof.
  rewrite inorder_plug. unfold around. cbn. intros H.
  repeat (rewrite ?NoDup_app, ?NoDup_cons in H). rewrite NoDup_app. destruct_and!.
  split_and!; try done; set_solver.
Qed.

(** The new node takes over the links of [current]. *)
Lemma take_over h up fr col l current r new m (i : rbtinfo) :
  tree_rep h up (plug fr (Node col l current r)) -> new ∉ inorder (plug fr (Node col l current r)) -> new <> 0 ->
  h !! new = Some m ->
  let n' := mkNode (up_of fr up) (ptr l) (ptr r) col (at_root fr) (down m) i in
  exists h', (let* h := (if up_of fr 0 =? 0 then Done (<[new := n']> h)
              else let* pn := node_at (<[new := n']> h) (up_of fr 0) in
                   if left pn =? current then set_left (<[new := n']> h) (up_of fr 0) new
                   else set_right (<[new := n']> h) (up_of fr 0) new) in
              let* h := (if ptr l =? 0 then Done h else set_parent h (ptr l) new) in
              if ptr r =? 0 then Done h else set_parent h (ptr r) new) = Done h'
    /\ tree_rep h' up (plug fr (Node col l new r)) /\ h' !! current = h !! current
    /\ (forall q, q <> new -> q ∉ inorder (plug fr (Node col l current r)) -> h' !! q = h !! q)
    /\ payload <$> h' = payload <$> <[new := n']> h.
Proof.
  intros [H Hd] Hnew Hn0 Hm n'. destruct (position_apart _ _ _ _ _ Hd) as (Hk1 & Hxk & Hxl & Hxr & Hl1 & Hr1 & Ha & Hb).
  apply rep_plug in H as [Hk (Hx0 & (dn & dt & Hx) & Hl & Hr)]. cbn [ptr] in Hk.
  rewrite elem_of_plug in Hnew. cbn [inorder] in Hnew. rewrite elem_of_app, elem_of_cons in Hnew.
  set (h1 := <[new := n']> h).
  assert (Hag : forall q, q <> new -> h1 !! q = h !! q) by (intros q Hq; unfold h1; by rewrite lookup_insert_ne).
  destruct (redirect_child h1 up fr current new) as (h2 & E2 & Hk2 & Ho2 & Hp2); try done; try tauto.
  { apply (rep_ctx_agree h); [|done]. intros q Hq. apply Hag. intros ->. apply Hnew. by left. }
  rewrite E2. cbn [obind].
  assert (Hrep : forall t, t = l \/ t = r -> rep h2 current false t).
  { intros t Ht. apply (rep_agree h); [|by destruct Ht as [->| ->]]. intros q Hq. rewrite Ho2, Hag; [done|..].
    - intros ->. destruct Ht as [->| ->]; tauto.
    - intros Hqa. apply Ha in Hqa. destruct Ht as [->| ->]; tauto. }
  assert (Hex : forall h' t, rep h' current false t -> t <> Leaf -> ptr t <> 0 /\ exists n, h' !! ptr t = Some n).
  { intros h' t Ht Hne. destruct (rep_ptr _ _ _ _ Ht Hne) as (? & n & ? & _). split; [done|by exists n]. }
  destruct (move_subtree h2 l new) as (h3 & E3 & Ho3 & Hl3 & Hp3); [apply Hex; auto|]. rewrite E3. cbn [obind].
  assert (Hr3 : rep h3 current false r).
  { apply (rep_agree h2); [|auto]. intros q Hq. apply Ho3. destruct (decide (l = Leaf)) as [|Hne]; [by right|left].
    intros ->. by apply (Hb _ (ptr_in _ Hne)). }
  destruct (move_subtree h3 r new) as (h4 & E4 & Ho4 & Hr4 & Hp4); [by apply Hex|].
  exists h4. split; [done|].
  assert (Hout : forall q, q ∉ inorder l -> q ∉ inorder r -> h4 !! q = h2 !! q).
  { intros q Hql Hqr. rewrite Ho4, Ho3; [done|..].
    - destruct (decide (l = Leaf)) as [|Hne]; [by right|left]. intros ->. by apply Hql, ptr_in.
    - destruct (decide (r = Leaf)) as [|Hne]; [by right|left]. intros ->. by apply Hqr, ptr_in. }
  split_and!.
  - split.
    + apply rep_plug. cbn [ptr]. split.
      * apply (rep_ctx_agree h2); [|done]. intros q Hq. apply Hout; apply (Ha q Hq).
      * split_and!; [done| | |].
        -- exists (down m), i. rewrite Hout, Ho2 by tauto. unfold h1. by rewrite lookup_insert_eq.
        -- apply (rep_move h2 _ current); [auto|done| |].
           ++ intros n Hne Hn. rewrite Ho4; [by apply Hl3|]. destruct (decide (r = Leaf)) as [|Hr0]; [by right|left].
              intros E. apply (Hb _ (ptr_in _ Hne)). rewrite E. by apply ptr_in.
           ++ intros q Hq Hne. rewrite Ho4, Ho3; [done|by left|]. destruct (decide (r = Leaf)) as [|Hr0]; [by right|left].
              intros ->. by apply (Hb _ Hq), ptr_in.
        -- apply (rep_move h3 _ current); [done|done|done|]. intros q Hq Hne. apply Ho4. by left.
    + rewrite inorder_plug in *. unfold around in *. cbn in *.
      repeat (rewrite ?NoDup_app, ?NoDup_cons in Hd). repeat (rewrite ?NoDup_app, ?NoDup_cons). destruct_and!. split_and!; try done; set_solver.
  - rewrite Hout, Ho2, Hag; [done| |done..]. intros ->. tauto.
  - intros q Hq Hin. rewrite elem_of_plug in Hin. cbn [inorder] in Hin. rewrite elem_of_app, elem_of_cons in Hin.
    rewrite Hout, Ho2, Hag by tauto. done.
  - by rewrite Hp4, Hp3, Hp2.
Qed.

(** The pointer to the level is changed if it went to [current]. *)
Lemma redirect_root h t T (ok : trie_ok (nodes t) (root t) T) u fr col l current r new :
  lev T u = plug fr (Node col l current r) -> (u <> 0 -> exists n, h !! u = Some n /\ down n = ptr (lev T u)) ->
  exists h', (let* r := get_root (with_nodes h t) u in
              if r =? current then put_root (with_nodes h t) u new else Done (with_nodes h t))
      = Done (mkRbt h' (if decide (u = 0) then ptr (plug fr (Node col l new r)) else root t) (nodecount t) (hashtable t))
    /\ (forall x, info_at h' x = info_at h x) /\ (forall x, links <$> h' !! x = links <$> h !! x)
    /\ (forall x n', h' !! x = Some n' -> exists n, h !! x = Some n /\ info n' = info n
          /\ down n' = if decide (x = u /\ u <> 0) then ptr (plug fr (Node col l new r)) else down n).
Proof.
  intros El Hu. assert (Eg : get_root (with_nodes h t) u = Done (ptr (lev T u))).
  { unfold get_root. cbn. destruct (Z.eqb_spec u 0) as [->|Hu0]; [by rewrite (to_root _ _ _ ok)|].
    destruct (Hu Hu0) as (n & Hn & Hd). unfold DOWN. rewrite (node_at_Done _ _ _ Hn). cbn [obind]. by rewrite Hd. }
  rewrite Eg. cbn [obind]. rewrite El, (ptr_plug fr (Node col l current r) (Node col l new r)).
  pose proof (t_nodup _ _ _ (to_level _ _ _ ok u)) as Hd. rewrite El in Hd.
  destruct (position_apart _ _ _ _ _ Hd) as (_ & Hck & _).
  destruct fr as [|f fr]; cbn [at_root].
  - cbn [ptr plug]. rewrite Z.eqb_refl. apply put_root_spec. intros Hu0. destruct (Hu Hu0) as (n & ? & _). by exists n.
  - assert (Hne : ptr (plug (f :: fr) (Node col l new r)) <> current).
    { intros E. apply Hck. rewrite <- E. apply root_around. }
    pose proof (ptr_plug (f :: fr) (Node col l current r) (Node col l new r)) as Es. cbn [at_root] in Es.
    rewrite (proj2 (Z.eqb_neq _ current)) by done. exists h. split_and!; [|done|done|].
    + unfold with_nodes. do 2 f_equal. destruct (decide (u = 0)) as [->|]; [|done]. by rewrite (to_root _ _ _ ok), El, Es.
    + intros x n' Hx. exists n'. split_and!; [done..|]. destruct (decide (x = u /\ u <> 0)) as [[-> Hu0]|]; [|done].
      destruct (Hu Hu0) as (n & Hn & Hdn). rewrite <- Es, <- El, <- Hdn. congruence.
Qed.

Lemma set_nsec_name v (i : rbtinfo) n n' : info n = i -> info n' = set_nsec v i -> NODENAME n' = NODENAME n.
Proof. intros E1 E2. unfold NODENAME. rewrite E1, E2. done. Qed.

Section split_store.
Context (t : dns_rbt) (T : trie) (ok : trie_ok (nodes t) (root t) T).
Context (ns : list Z) (k : namekey) (u : Z) (P : path T ns k u).
Context (fr : list frame) (col : colour) (l r : tree) (current : Z) (El : lev T u = plug fr (Node col l current r)).
Context (new : Z) (Hn0 : new <> 0) (Hnew : nodes t !! new = None).
Context (c : Z) (Hc : 1 <= c < Zlen (key T current)).
Context (i : rbtinfo) (Hi : hashval i = 0 /\ data i = 0).
Context (Kn : forall n, info n = i -> keyed (NODENAME n) (bool_decide (u = 0)) (take (Z.to_nat c) (key T current))).
Context (p : dns_name_t) (Kp : keyed p false (drop (Z.to_nat c) (key T current))).

Let h1 : store := <[new := mkNode 0 0 0 BLACK false 0 i]> (nodes t).
Let tr := plug fr (Node col l new r).

(** The end of the split: [current] becomes the root of the level below the new
    node. *)
Definition below_links (h : store) : store :=
  match h !! current, h !! new with
  | Some m, Some n' =>
      <[new := with_down current n']>
        (<[current := mkNode new 0 0 BLACK true (down m) (set_prefix (n_length p) (labels p) (info m))]> h)
  | _, _ => h
  end.

Lemma split_change_of h5 h6 dt (i' : rbtinfo) (v : Z) :
  current <> new -> current <> u -> current <> 0 -> current ∈ inorder (lev T u) ->
  nodes t !! current = Some (mkNode (up_of fr u) (ptr l) (ptr r) col (at_root fr) (ptr (lev T current)) dt) ->
  keyed (NODENAME (mkNode 0 0 0 BLACK false 0 dt)) (bool_decide (u = 0)) (key T current) ->
  i' = set_nsec v i -> tree_rep h5 u tr ->
  (forall q, q <> new -> q ∉ inorder (lev T u) -> h5 !! q = nodes t !! q) ->
  (forall x n5, x <> new -> h5 !! x = Some n5 -> exists n0, nodes t !! x = Some n0 /\ payload n5 = payload n0) ->
  (forall x, info_at h6 x = info_at h5 x) -> (forall x, links <$> h6 !! x = links <$> h5 !! x) ->
  (forall x n6, h6 !! x = Some n6 -> exists n5, h5 !! x = Some n5 /\ info n6 = info n5
      /\ down n6 = if decide (x = u /\ u <> 0) then ptr tr else down n5) ->
  is_Some (h6 !! current) -> info_at h6 new = Some i' ->
  split_change (nodes t) (below_links h6) (root t) (if decide (u = 0) then ptr tr else root t) T u tr current new (Z.to_nat c)
  /\ (forall x, x <> new -> info_at (below_links h6) x
        = (if decide (x = current) then set_prefix (n_length p) (labels p) else id) <$> info_at (nodes t) x)
  /\ info_at (below_links h6) new = Some i'.
Proof.
  intros Hcn Hcu Hc0 Hin Hcur Kc Ei' R5 Ho5 Hpay Hi6 Hl6 Hd6 [m Hm] Hn6.
  unfold info_at in Hn6. destruct (h6 !! new) as [n6|] eqn:En6; [|done]. injection Hn6 as Hn6.
  unfold below_links. rewrite Hm, En6.
  set (h7 := <[current := _]> h6). set (h8 := <[new := _]> h7).
  assert (H8 : forall x, x <> new -> x <> current -> h8 !! x = h6 !! x).
  { intros x H1 H2. unfold h8, h7. by rewrite !lookup_insert_ne. }
  assert (H8n : h8 !! new = Some (with_down current n6)) by (unfold h8; by rewrite lookup_insert_eq).
  assert (H8c : h8 !! current = Some (mkNode new 0 0 BLACK true (down m) (set_prefix (n_length p) (labels p) (info m)))).
  { unfold h8, h7. rewrite lookup_insert_ne by done. by rewrite lookup_insert_eq. }
  assert (Hmd : down m = ptr (lev T current) /\ info m = dt).
  { destruct (Hd6 current m Hm) as (n5 & H5 & E1 & E2). destruct (Hpay current n5 Hcn H5) as (n0 & H0 & Ep).
    rewrite Hcur in H0. injection H0 as <-. injection Ep as Ed Ei. rewrite decide_False in E2 by naive_solver.
    cbn in Ed, Ei. by rewrite E2, E1, Ed, Ei. }
  destruct Hmd as [Hmd Hmi]. rewrite Hmi in H8c.
  assert (Hctr : current ∉ inorder tr).
  { pose proof (t_nodup _ _ _ (to_level _ _ _ ok u)) as Hd. rewrite El in Hd.
    destruct (position_apart _ _ _ _ _ Hd) as (_ & H1 & H2 & H3 & _). unfold tr. rewrite elem_of_plug. cbn [inorder].
    rewrite elem_of_app, elem_of_cons. naive_solver. }
  split_and!.
  - split.
    + eapply tree_rep_links; [|exact R5]. intros x Hx. rewrite <- Hl6. destruct (decide (x = new)) as [->|Hxn].
      * by rewrite H8n, En6.
      * rewrite H8; [done..|]. by intros ->.
    + split; [|apply NoDup_singleton]. cbn. split_and!; [done| |done|done]. by eexists _, _.
    + done.
    + intros x Hxn Hx. rewrite H8, Hl6, Ho5; [done..|]. by intros ->.
    + intros x n8 Hxn Hxc Hn8. rewrite H8 in Hn8 by done. destruct (Hd6 x n8 Hn8) as (n5 & H5 & E1 & E2).
      destruct (Hpay x n5 Hxn H5) as (n0 & H0 & Ep). injection Ep as Ed Ei. exists n0. split_and!; [done| |].
      * unfold NODENAME. by rewrite E1, Ei.
      * rewrite E2, Ed. destruct (decide (x = u)) as [->|Hxu].
        -- destruct (decide (u = 0)) as [Hu|Hu]; [|by rewrite decide_True]. rewrite Hu, (to_null _ _ _ ok) in H0. done.
        -- by rewrite decide_False by naive_solver.
    + intros n8 Hn8. rewrite H8c in Hn8. injection Hn8 as <-. cbn [down]. split; [done|].
      eapply (set_prefix_keyed (mkNode 0 0 0 BLACK false 0 dt)); [exact Kc|lia|exact Kp|done].
    + intros n8 Hn8. rewrite H8n in Hn8. injection Hn8 as <-. split; [done|].
      rewrite (set_nsec_name v i (mkNode 0 0 0 BLACK false 0 i)); [by apply Kn|done|]. cbn. by rewrite Hn6.
  - intros x Hxn. destruct (decide (x = current)) as [->|Hxc].
    + unfold info_at. by rewrite H8c, Hcur.
    + assert (E : info_at h8 x = info_at h5 x) by (rewrite <- Hi6; unfold info_at; by rewrite H8).
      rewrite E. unfold info_at. destruct (h5 !! x) as [n5|] eqn:H5.
      * destruct (Hpay x n5 Hxn H5) as (n0 & -> & Ep). injection Ep as _ Ei. cbn. by rewrite Ei.
      * destruct (nodes t !! x) as [n0|] eqn:H0; [|done]. exfalso.
        destruct (decide (x ∈ inorder (lev T u))) as [Hxu|Hxu]; [|rewrite Ho5 in H5 by done; congruence].
        assert (Hxt : x ∈ inorder tr).
        { rewrite El, elem_of_plug in Hxu. unfold tr. rewrite elem_of_plug. cbn [inorder] in *.
          rewrite elem_of_app, elem_of_cons in *. naive_solver. }
        pose proof (rep_dom _ _ _ _ _ (t_rep _ _ _ R5) Hxt) as Hdom. apply elem_of_dom in Hdom as [? ?]. congruence.
  - unfold info_at. rewrite H8n. cbn. by rewrite Hn6.
Qed.
Lemma split_links_spec n : nodes t !! current = Some n ->
  exists h', split_links (with_nodes h1 t) current new (up_of fr 0) u n (n_length p) (labels p)
      = Done (mkRbt h' (if decide (u = 0) then ptr tr else root t) (nodecount t) (hashtable t))
    /\ split_change (nodes t) h' (root t) (if decide (u = 0) then ptr tr else root t) T u tr current new (Z.to_nat c)
    /\ (forall x, x <> new -> hash_at h' x = hash_at (nodes t) x /\ data_at h' x = data_at (nodes t) x)
    /\ exists n3, h' !! new = Some n3 /\ hashval (info n3) = 0 /\ data (info n3) = 0.
Proof.
  intros Hcur. assert (Hin : current ∈ inorder (lev T u)) by (rewrite El, inorder_plug; cbn; set_solver).
  assert (Hout : new ∉ inorder (lev T u)) by (by eapply split_outside).
  assert (Hcn : current <> new) by (intros ->; done).
  assert (Hcu : current <> u) by (by eapply not_own_level).
  destruct (to_node _ _ _ ok u current n Hin Hcur) as (Hdn & Kc & _).
  pose proof (to_level _ _ _ ok u) as HT. rewrite El in HT, Hout.
  destruct (read_node _ _ _ _ _ _ _ HT) as (Hc0 & dn & dt & En). rewrite Hcur in En. injection En as ->.
  cbn [down] in Hdn. subst dn.
  assert (HT1 : tree_rep h1 u (plug fr (Node col l current r))).
  { eapply tree_rep_links; [|exact HT]. intros q Hq. unfold h1. rewrite lookup_insert_ne; [done|]. by intros <-. }
  set (i' := set_nsec (if nsec dt =? DNS_RBT_NSEC_HAS_NSEC then DNS_RBT_NSEC_NORMAL else nsec dt) i).
  assert (Hm1 : h1 !! new = Some (mkNode 0 0 0 BLACK false 0 i)) by (unfold h1; by rewrite lookup_insert_eq).
  destruct (take_over h1 u fr col l current r new _ i' HT1 Hout Hn0 Hm1) as (h5 & E5 & R5 & Hc5 & Ho5 & Hp5).
  cbn [down] in E5, Hp5.
  assert (Hpay : forall x n5, x <> new -> h5 !! x = Some n5 -> exists n0, nodes t !! x = Some n0 /\ payload n5 = payload n0).
  { intros x n5 Hx Hn5. apply (f_equal (fun m => m !! x)) in Hp5. rewrite !lookup_fmap, Hn5 in Hp5.
    rewrite lookup_insert_ne in Hp5 by done. unfold h1 in Hp5. rewrite lookup_insert_ne in Hp5 by done.
    destruct (nodes t !! x) as [n0|]; [|done]. exists n0. split; [done|]. by apply (inj Some) in Hp5. }
  assert (Hu5 : u <> 0 -> exists n, h5 !! u = Some n /\ down n = ptr (lev T u)).
  { intros Hu. destruct (path_inv _ _ _ _ P) as [(_ & _ & ?)|(? & ? & v & _ & _ & _ & Hv)]; [done|].
    destruct (member_node _ _ _ ok v u Hv) as [_ [nu Hnu]]. destruct (to_node _ _ _ ok v u nu Hv Hnu) as (Hd & _).
    assert (u <> new) by (intros ->; congruence). exists nu. split; [|done]. rewrite Ho5.
    - unfold h1. by rewrite lookup_insert_ne.
    - done.
    - rewrite <- El. intros Hu'. by apply (not_own_level _ _ _ ok) in Hu'. }
  destruct (redirect_root h5 t T ok u fr col l current r new El Hu5) as (h6 & E6 & Hi6 & Hl6 & Hd6). fold tr in E6, Hd6.
  assert (Hc6 : exists m, h6 !! current = Some m).
  { pose proof (Hi6 current) as E. unfold info_at in E. rewrite Hc5 in E. unfold h1 in E.
    rewrite lookup_insert_ne, Hcur in E by done. destruct (h6 !! current) as [m|]; [by exists m|done]. }
  destruct Hc6 as [m Hm].
  assert (Hn6 : info_at h6 new = Some i').
  { rewrite Hi6. apply (f_equal (fun m => m !! new)) in Hp5. rewrite !lookup_fmap, lookup_insert_eq in Hp5. unfold info_at.
    destruct (h5 !! new) as [n5|]; [|done]. cbn in *. by injection Hp5 as _ ->. }
  destruct (split_change_of h5 h6 dt i' (if nsec dt =? DNS_RBT_NSEC_HAS_NSEC then DNS_RBT_NSEC_NORMAL else nsec dt))
    as (SC & Hinfo & Hinew); try done.
  { intros q Hq1 Hq2. rewrite Ho5 by (try done; by rewrite <- El). unfold h1. by rewrite lookup_insert_ne. }
  exists (below_links h6). split_and!; [|done| |].
  - unfold split_links. cbn [nodes with_nodes]. unfold assign at 1. rewrite (node_at_Done _ _ _ Hm1).
    cbn [obind parent left right color is_root down info]. fold i'.
    apply obind_Done in E5 as (h2 & E2 & E5). apply obind_Done in E5 as (h3 & E3 & E4).
    rewrite E2. cbn [obind]. rewrite E3. cbn [obind]. rewrite E4. cbn [obind].
    change (with_nodes h5 (with_nodes h1 t)) with (with_nodes h5 t).
    apply obind_Done in E6 as (rr & Er & E6). rewrite Er. cbn [obind]. rewrite E6. cbn [obind nodes].
    unfold assign at 1. rewrite (node_at_Done _ _ _ Hm). cbn [obind]. unfold set_down, assign.
    unfold info_at in Hn6. unfold below_links. rewrite Hm. destruct (h6 !! new) as [n6|] eqn:En6; [|done].
    unfold node_at. rewrite lookup_insert_ne, En6 by done. cbn [obind]. done.
  - intros x Hx. specialize (Hinfo x Hx). unfold info_at in Hinfo. unfold hash_at, data_at.
    destruct (below_links h6 !! x) as [n8|], (nodes t !! x) as [n0|]; try done. cbn in *.
    injection Hinfo as ->. by destruct (decide (x = current)).
  - unfold info_at in Hinew. destruct (below_links h6 !! new) as [n3|]; [|done]. exists n3.
    injection Hinew as ->. destruct Hi as [? ?]. by split_and!.
Qed.
End split_store.
