(* ===== verification/RbtInsert.v ===== *)
(** * Insertion of a name

    [dns_rbt_addnode] and [dns_rbt_addname]: the descent, the new leaf or the split
    with the new leaf, and what this does to the names of the tree. *)

From stdpp Require Import sorting.
From S2P Require Import Prelude Buffer Name NameTheory Hash Rbt RbtTheory RbtDelete RbtTree RbtNames RbtTrie RbtFind RbtAdd.
From S2P Require Import RbtSplit.

(** The nodes [new] were added, without data; the other names and data are the
    same. *)
Record extends (h h' : store) (T T' : trie) (new : list Z) : Prop := {
  ex_old : forall x ns k, path T ns k x -> exists ns', path T' ns' k x;
  ex_only : forall x ns k, path T' ns k x -> x ∈ new \/ exists ns', path T ns' k x;
  ex_data : forall x, x ∉ new -> data_at h' x = data_at h x;
  ex_new : forall x, x ∈ new -> h !! x = None /\ data_at h' x = Some 0
}.

Lemma extends_refl h T : extends h h T T [].
Proof.
  split; [by intros x ns k P; exists ns|intros x ns k P; right; by exists ns|done|].
  intros x Hx. by apply elem_of_nil in Hx.
Qed.

Lemma extends_fresh h h' T T' new x : extends h h' T T' new -> h' !! x = None -> h !! x = None.
Proof.
  intros E Hx. destruct (decide (x ∈ new)) as [Hin|Hout]; [by apply (ex_new _ _ _ _ _ E)|].
  pose proof (ex_data _ _ _ _ _ E x Hout) as Ed. unfold data_at in Ed. rewrite Hx in Ed. by destruct (h !! x).
Qed.

Lemma extends_grows h h' T T' node k : grows h h' T T' node k -> extends h h' T T' [node].
Proof.
  intros [G1 G2 G3 G4 G5 G6]. split; [done| | |].
  - intros x ns k' P. destruct (G4 _ _ _ P) as [->|?]; [left; set_solver|by right].
  - intros x Hx. apply G5. set_solver.
  - intros x Hx%list_elem_of_singleton. by subst.
Qed.

Lemma extends_trans h h1 h2 T T1 T2 new1 new2 :
  extends h h1 T T1 new1 -> extends h1 h2 T1 T2 new2 -> extends h h2 T T2 (new2 ++ new1).
Proof.
  intros E1 E2. split.
  - intros x ns k P. destruct (ex_old _ _ _ _ _ E1 _ _ _ P) as [ns1 P1]. by eapply (ex_old _ _ _ _ _ E2).
  - intros x ns k P. rewrite elem_of_app. destruct (ex_only _ _ _ _ _ E2 _ _ _ P) as [Hx|[ns1 P1]]; [by left; left|].
    destruct (ex_only _ _ _ _ _ E1 _ _ _ P1) as [Hx|?]; [left; by right|by right].
  - intros x Hx. apply not_elem_of_app in Hx as [Hx2 Hx1].
    by rewrite (ex_data _ _ _ _ _ E2), (ex_data _ _ _ _ _ E1).
  - intros x Hx. destruct (decide (x ∈ new2)) as [H2|H2].
    + destruct (ex_new _ _ _ _ _ E2 x H2) as [Hn Hd]. split; [by eapply extends_fresh|done].
    + apply elem_of_app in Hx as [?|H1]; [done|]. rewrite (ex_data _ _ _ _ _ E2) by done. by apply (ex_new _ _ _ _ _ E1).
Qed.

(** [x] is the node of the name [q]. *)
Definition names (T : trie) (x : Z) (q : namekey) : Prop := exists ns k, path T ns k x /\ fold_key k = fold_key q.

Lemma wire_fold_length r1 r2 : fold_key r1 = fold_key r2 -> Zlen (wire (rev r1)) = Zlen (wire (rev r2)).
Proof.
  intros E. eapply same_labels_wire_len. unfold same_labels. rewrite !map_rev. unfold fold_key in E. by rewrite E.
Qed.

Lemma rest_size k q : prefix_key k q -> Zlen (wire (rev (k ++ drop (length k) q))) = Zlen (wire (rev q))
  /\ fold_key (k ++ drop (length k) q) = fold_key q.
Proof.
  intros Hk. apply prefix_key_take in Hk as [_ Hk].
  assert (E : fold_key (k ++ drop (length k) q) = fold_key q) by (by rewrite fold_app, Hk, <- fold_app, take_drop).
  split; [by apply wire_fold_length|done].
Qed.

(** ** The descent *)

(** The level below [u], after the labels [k] of the name, and what is left. *)
Record add_level (T : trie) (q : namekey) (ns : list Z) (k : namekey) (u : Z) (add_name : dns_name_t) : Prop := {
  av_path : path T ns k u;
  av_prefix : prefix_key k q;
  av_less : (length k < length q)%nat;
  av_name : search_name add_name (bool_decide (u = 0)) (drop (length k) q)
}.

(** Where the descent ends. *)
Inductive add_end (T : trie) (q : namekey) : add_stop -> Prop :=
| end_exists x : names T x q -> x <> 0 -> add_end T q (AddExists x)
| end_leaf ns k u add_name current order a b :
    add_level T q ns k u add_name -> place T u current order a b ->
    (forall y, y ∈ a -> label_before (key T y) (drop (length k) q)) ->
    (forall y, y ∈ b -> label_before (drop (length k) q) (key T y)) ->
    add_end T q (AddLeaf current order u add_name)
| end_split ns k u add_name fr col l r current order c :
    add_level T q ns k u add_name -> lev T u = plug fr (Node col l current r) ->
    (0 < c < length (key T current))%nat -> (c <= length (drop (length k) q))%nat ->
    fold_key (take c (drop (length k) q)) = fold_key (take c (key T current)) ->
    ((c < length (drop (length k) q))%nat -> exists lq lr, drop (length k) q !! c = Some lq /\ key T current !! c = Some lr
        /\ lower_label lq <> lower_label lr /\ (order ?= 0) = label_cmp lq lr) ->
    add_end T q (AddSplit current order u (up_of fr 0) (Z.of_nat c) add_name (Zlen k + Z.of_nat c) (Zlen ns)).

Section descent.
Context (t : dns_rbt) (T : trie) (ok : trie_ok (nodes t) (root t) T) (name : dns_name_t) (q : namekey)
  (K : keyed name true q).

Definition descent_inv (n : Z) (s : Z * Z * Z * dns_name_t * Z * Z) : Prop :=
  exists ns k u add_name fr col l x r,
    s = (u, up_of fr 0, x, add_name, Zlen k, Zlen ns) /\ add_level T q ns k u add_name
    /\ lev T u = plug fr (Node col l x r)
    /\ (forall y, y ∈ before fr -> label_before (key T y) (drop (length k) q))
    /\ (forall y, y ∈ after fr -> label_before (drop (length k) q) (key T y))
    /\ n = (Zlen q - Zlen k) * Z.of_nat (rbt_fuel (nodes t)) + Zlen (inorder (Node col l x r)).

Lemma label_before_trans r1 r2 r3 : label_before r1 r2 -> label_before r2 r3 -> label_before r1 r3.
Proof.
  unfold label_before. destruct r1 as [|l1 r1], r2 as [|l2 r2], r3 as [|l3 r3]; try done. apply cmp_lt_trans.
Qed.

(** The nodes on the two sides of a node of the level. *)
Lemma sides fr col l x r u :
  lev T u = plug fr (Node col l x r) ->
  (forall y, y ∈ inorder l -> label_before (key T y) (key T x)) /\ (forall y, y ∈ inorder r -> label_before (key T x) (key T y)).
Proof.
  intros El. pose proof (to_order _ _ _ ok u) as S. rewrite El, inorder_plug in S.
  apply StronglySorted_app_1_r in S. apply StronglySorted_app_1_l in S. cbn in S.
  apply StronglySorted_app in S as (S1 & _ & S2). apply StronglySorted_cons in S2 as [S2 _].
  rewrite Forall_forall in S2. split; intros y Hy; [apply (S1 y x Hy), list_elem_of_here|by apply S2].
Qed.

(** To the left or to the right of a node with another last label. *)
Lemma turn_frames fr col l x r u rest lq lx (o : Z) :
  lev T u = plug fr (Node col l x r) ->
  (forall y, y ∈ before fr -> label_before (key T y) rest) -> (forall y, y ∈ after fr -> label_before rest (key T y)) ->
  head rest = Some lq -> head (key T x) = Some lx -> lower_label lq <> lower_label lx -> (o ?= 0) = label_cmp lq lx ->
  let f := if o <? 0 then Frame L col x r else Frame R col x l in
  (forall y, y ∈ before (f :: fr) -> label_before (key T y) rest)
  /\ (forall y, y ∈ after (f :: fr) -> label_before rest (key T y)) /\ o <> 0.
Proof.
  intros El Hb Ha Hq Hx Hne Ho f. destruct (sides _ _ _ _ _ _ El) as [Sl Sr].
  destruct rest as [|lq' q']; [done|]. injection Hq as ->. destruct (key T x) as [|lx' rx] eqn:Kx; [done|]. injection Hx as ->.
  assert (o <> 0).
  { intros ->. symmetry in Ho. by apply label_cmp_eq in Ho. }
  subst f. destruct (Z.ltb_spec o 0) as [Hlt|Hge]; cbn [before after].
  - assert (Hlx : label_before (lq :: q') (lx :: rx)) by (cbn; rewrite <- Ho; by apply Z.compare_lt_iff).
    split_and!; [done| |done]. intros y [->|[Hy|Hy]%elem_of_app]%elem_of_cons; [by rewrite Kx| |by apply Ha].
    eapply label_before_trans; [exact Hlx|]. by apply Sr.
  - assert (Hlx : label_before (lx :: rx) (lq :: q')).
    { cbn. rewrite cmp_antisym, <- Ho. assert (Eo : (o ?= 0) = Gt) by (apply Z.compare_gt_iff; lia). by rewrite Eo. }
    split_and!; [|done|done]. intros y Hy. rewrite !elem_of_app, list_elem_of_singleton in Hy.
    destruct Hy as [Hy|[Hy| ->]]; [by apply Hb| |by rewrite Kx].
    eapply label_before_trans; [by apply Sl|done].
Qed.

Lemma none_step n ns k u add_name fr col l x r rest lq lx o nx :
  n = (Zlen q - Zlen k) * Z.of_nat (rbt_fuel (nodes t)) + Zlen (inorder (Node col l x r)) ->
  add_level T q ns k u add_name -> rest = drop (length k) q -> lev T u = plug fr (Node col l x r) ->
  (forall y, y ∈ before fr -> label_before (key T y) rest) -> (forall y, y ∈ after fr -> label_before rest (key T y)) ->
  head rest = Some lq -> head (key T x) = Some lx -> lower_label lq <> lower_label lx -> (o ?= 0) = label_cmp lq lx ->
  left nx = ptr l -> right nx = ptr r ->
  match
    (let '(par, child) := if o <? 0 then (x, left nx) else if 0 <? o then (x, right nx) else (up_of fr 0, x) in
     if child =? 0 then inr (AddLeaf x o u add_name) else inl (u, par, child, add_name, Zlen k, Zlen ns))
  with
  | inl s' => exists n', descent_inv n' s' /\ 0 <= n' < n
  | inr e => add_end T q e
  end.
Proof.
  intros -> A -> El Hb Ha Hq Hx Hne Ho Hl Hr.
  destruct (turn_frames fr col l x r u _ lq lx o El Hb Ha Hq Hx Hne Ho) as (Hb' & Ha' & Ho0).
  set (f := if o <? 0 then Frame L col x r else Frame R col x l) in *.
  set (tr := if o <? 0 then l else r).
  assert (Epar : (if o <? 0 then (x, left nx) else if 0 <? o then (x, right nx) else (up_of fr 0, x)) = (x, ptr tr)).
  { rewrite Hl, Hr. subst tr. destruct (Z.ltb_spec o 0), (Z.ltb_spec 0 o); try done. lia. }
  rewrite Epar. assert (Etr : lev T u = plug (f :: fr) tr) by (rewrite El; subst f tr; by destruct (o <? 0)).
  destruct tr as [|c' l' y r'] eqn:Et; cbn [ptr Z.eqb].
  - assert (Es : f :: fr = slot o col x (if o <? 0 then r else l) fr) by (unfold slot; subst f; by destruct (o <? 0)).
    rewrite Es in *. eapply end_leaf; [exact A|by constructor|done|done].
  - assert (Hy : y ∈ inorder (lev T u)) by (rewrite Etr, inorder_plug; cbn; set_solver).
    destruct (member_node _ _ _ ok u y Hy) as [Hy0 _]. rewrite (proj2 (Z.eqb_neq y 0)) by done.
    eexists. split.
    + exists ns, k, u, add_name, (f :: fr), c', l', y, r'. split_and!; try done. subst f. by destruct (o <? 0).
    + assert (Hsz : Zlen (inorder (Node c' l' y r')) < Zlen (inorder (Node col l x r))).
      { rewrite <- Et. subst tr. cbn [inorder]. rewrite Zlen_app, Zlen_cons. pose proof (Zlen_nonneg (inorder l)).
        pose proof (Zlen_nonneg (inorder r)). destruct (o <? 0); lia. }
      pose proof (av_less _ _ _ _ _ _ A). pose proof (Zlen_nonneg (inorder (Node c' l' y r'))). unfold Zlen in *. nia.
Qed.

(** Down to the level below [x]. *)
Lemma down_step n ns k u add_name x nx o :
  (Zlen q - Zlen k) * Z.of_nat (rbt_fuel (nodes t)) < n -> add_level T q ns k u add_name ->
  x ∈ inorder (lev T u) -> nodes t !! x = Some nx -> prefix_key (key T x) (drop (length k) q) ->
  (length (key T x) < length (drop (length k) q))%nat ->
  exists res, (let* add_name := split_self add_name (Zlen (key T x)) in
   let child := down nx in
   let* ok := (if child =? 0 then Done true
               else let* c := node_at (nodes t) child in Done (is_root c && (parent c =? x))) in
   REQUIRE ok ;;
   if Zlen ns <? DNS_RBT_LEVELBLOCK then
     Done (if child =? 0 then inr (AddLeaf x o x add_name)
           else inl (x, 0, child, add_name, Zlen k + Zlen (key T x), Zlen ns + 1))
   else Undef) = Done res
  /\ match res with
     | inl s' => exists n', descent_inv n' s' /\ 0 <= n' < n
     | inr e => add_end T q e
     end.
Proof.
  intros Hn [P Hk Hlt Hs] Hx Hnx Hp Hl. destruct (to_node _ _ _ ok u x nx Hx Hnx) as (Hd & Kx & Hkx).
  destruct (member_node _ _ _ ok u x Hx) as [Hx0 _].
  assert (1 <= Zlen (key T x)) by (destruct (key T x) as [|? rx]; [done|rewrite Zlen_cons; pose proof (Zlen_nonneg rx); lia]).
  destruct (split_self_spec _ _ _ (Zlen (key T x)) Hs) as (an & -> & Han); [unfold Zlen in *; lia|]. cbn [obind].
  replace (Z.to_nat (Zlen (key T x))) with (length (key T x)) in Han by (unfold Zlen; lia).
  rewrite drop_drop in Han. rewrite length_drop in Hl.
  assert (A' : add_level T q (ns ++ [x]) (k ++ key T x) x an).
  { split; [by econstructor|by apply prefix_key_app|rewrite length_app; lia|].
    rewrite bool_decide_eq_false_2, length_app by done. done. }
  pose proof (path_length _ _ _ ok _ _ _ P) as Hpl. pose proof (keyed_count _ _ _ K) as Hcount.
  pose proof (to_level _ _ _ ok x) as Rx. pose proof (rep_size _ _ _ Rx) as Hsz.
  assert (Hlvl : Zlen ns <? DNS_RBT_LEVELBLOCK = true) by (unfold Zlen, DNS_RBT_LEVELBLOCK in *; lia).
  rewrite Hd. destruct (lev T x) as [|c' l' y r'] eqn:Ex; cbn [ptr Z.eqb].
  - cbn [obind require]. rewrite Hlvl. eexists. split; [done|].
    eapply end_leaf; [exact A'|by constructor| |]; intros y Hy; by apply elem_of_nil in Hy.
  - destruct (read_node _ _ [] _ _ _ _ Rx) as (Hy0 & dn & dt & Ey). cbn [up_of at_root] in Ey.
    rewrite (proj2 (Z.eqb_neq y 0)) by done. rewrite (node_at_Done _ _ _ Ey). cbn [obind is_root parent].
    rewrite Z.eqb_refl. cbn [andb require obind]. rewrite Hlvl. eexists. split; [done|].
    eexists. split.
    + exists (ns ++ [x]), (k ++ key T x), x, an, [], c', l', y, r'. split_and!; try done.
      * by rewrite !Zlen_app.
      * intros z Hz. by apply elem_of_nil in Hz.
      * intros z Hz. by apply elem_of_nil in Hz.
    + rewrite Zlen_app. pose proof (Zlen_nonneg (inorder (Node c' l' y r'))). unfold rbt_fuel, Zlen in *. nia.
Qed.

(** A node that shares some labels with the rest of the name and has others. *)
Lemma split_step ns k u add_name fr col l x r o c :
  add_level T q ns k u add_name -> lev T u = plug fr (Node col l x r) ->
  (0 < c < length (key T x))%nat -> (c <= length (drop (length k) q))%nat ->
  fold_key (take c (drop (length k) q)) = fold_key (take c (key T x)) ->
  ((c < length (drop (length k) q))%nat -> exists lq lr, drop (length k) q !! c = Some lq /\ key T x !! c = Some lr
      /\ lower_label lq <> lower_label lr /\ (o ?= 0) = label_cmp lq lr) ->
  forall common, common = Z.of_nat c ->
  add_end T q (AddSplit x o u (up_of fr 0) common add_name (Zlen k + common) (Zlen ns)).
Proof. intros A El Hc Hle Hf Hn common ->. by eapply end_split. Qed.

Lemma descent_body n s : descent_inv n s ->
  match addnode_body (nodes t) s with
  | Done (inl s') => exists n', descent_inv n' s' /\ 0 <= n' < n
  | Done (inr e) => add_end T q e
  | _ => False
  end.
Proof.
  intros (ns & k & u & an & fr & col & l & x & r & -> & A & El & Hb & Ha & Hn). unfold addnode_body.
  assert (Hx : x ∈ inorder (lev T u)) by (rewrite El, inorder_plug; cbn; set_solver).
  pose proof (to_level _ _ _ ok u) as HT. rewrite El in HT.
  destruct (read_node _ _ _ _ _ _ _ HT) as (Hx0 & dn & dt & En). rewrite (node_at_Done _ _ _ En). cbn [obind].
  destruct (to_node _ _ _ ok u x _ Hx En) as (_ & Kx & Hkx).
  destruct (keyed_compare _ _ _ _ _ (sn_keyed _ _ _ (av_name _ _ _ _ _ _ A)) Kx) as (o & Ecmp & Ho). rewrite Ecmp. cbn [obind].
  pose proof (av_less _ _ _ _ _ _ A) as Hless.
  assert (Hrest : drop (length k) q <> []).
  { intros E. apply (f_equal length) in E. rewrite length_drop in E. cbn in E. lia. }
  destruct (compared_spec (drop (length k) q) (key T x) Hrest Hkx)
    as [Ef|Hp Hlen|lq q' lx rx E1 E2 Hne Ecl|Hp Hlen|m lq lr Hm E1 E2 Ef Hne Ecl].
  - apply end_exists; [|done]. exists (ns ++ [x]), (k ++ key T x). split; [econstructor; [apply A|done]|].
    rewrite fold_app, <- Ef, <- fold_app. apply rest_size, A.
  - assert (Hn' : (Zlen q - Zlen k) * Z.of_nat (rbt_fuel (nodes t)) < n).
    { rewrite Hn. cbn [inorder]. rewrite Zlen_app, Zlen_cons. pose proof (Zlen_nonneg (inorder l)).
      pose proof (Zlen_nonneg (inorder r)). lia. }
    destruct (down_step n ns k u an x _ o Hn' A Hx En Hp Hlen) as (res & E & Hres).
    outcome_is E. by destruct res.
  - rewrite Ecl in Ho.
    pose proof (none_step n ns k u an fr col l x r _ lq lx o _ Hn A eq_refl El Hb Ha ltac:(by rewrite E1) ltac:(by rewrite E2)
                  Hne Ho (eq_refl : left (mkNode (up_of fr u) (ptr l) (ptr r) col (at_root fr) dn dt) = ptr l) eq_refl) as Hs.
    destruct (if o <? 0 then _ else _) as [par child]. cbn [obind]. by destruct (child =? 0).
  - eapply split_step with (c := length (drop (length k) q)); try done; try lia.
    + destruct (drop (length k) q); [done|]. cbn [length] in *. lia.
    + rewrite take_ge by lia. by apply prefix_key_take in Hp as [_ ->].
  - pose proof (lookup_lt_Some _ _ _ E1). pose proof (lookup_lt_Some _ _ _ E2).
    eapply split_step with (c := m); try done; try lia. intros _. exists lq, lr. by rewrite Ho.
Qed.

Lemma descent : root t <> 0 -> forall add_name, search_name add_name true q ->
  exists stop, loop (search_fuel t name) (addnode_body (nodes t)) (0, 0, root t, add_name, 0, 0) = Done stop
    /\ add_end T q stop.
Proof.
  intros Hr an Hs. pose proof (to_root _ _ _ ok) as Er. destruct (lev T 0) as [|c l x r] eqn:E0; [done|].
  pose proof (rep_size _ _ _ (to_level _ _ _ ok 0)) as Hsz. rewrite E0 in Hsz. pose proof (keyed_nonempty _ _ K) as Hq.
  apply (loop_rule_bound _ descent_inv _ descent_body _
           (Zlen q * Z.of_nat (rbt_fuel (nodes t)) + Zlen (inorder (Node c l x r)))).
  - exists [], [], 0, an, [], c, l, x, r. split_and!; try done.
    + by rewrite Er.
    + split; [constructor|apply prefix_nil|destruct q; [done|cbn; lia]|done].
    + intros z Hz. by apply elem_of_nil in Hz.
    + intros z Hz. by apply elem_of_nil in Hz.
    + change (@Zlen label []) with 0. lia.
  - unfold search_fuel. rewrite (keyed_labels _ _ _ K). unfold rbt_fuel, Zlen in *. nia.
Qed.
End descent.

(** ** The split *)

Section add_split.
Context (hctx : isc_hash) (t : dns_rbt) (T : trie) (RO : rbt_ok hctx t T) (name : dns_name_t) (q : namekey)
  (K : keyed name true q).
Context (ns : list Z) (k : namekey) (u : Z) (add_name : dns_name_t) (A : add_level T q ns k u add_name).
Context (fr : list frame) (col : colour) (l r : tree) (current : Z) (El : lev T u = plug fr (Node col l current r)).
Context (c : nat) (Hc : (0 < c < length (key T current))%nat) (Hle : (c <= length (drop (length k) q))%nat).
Context (Hf : fold_key (take c (drop (length k) q)) = fold_key (take c (key T current))).

Lemma split_prefix : fold_key (k ++ take c (key T current)) = fold_key (take (length k + c) q).
Proof.
  pose proof (av_prefix _ _ _ _ _ _ A) as Hk. apply prefix_key_take in Hk as [_ Hk].
  rewrite fold_app, <- Hf, Hk, <- fold_app. by rewrite take_take_drop.
Qed.

(** The node [smem] with the common labels is put above [current] and hashed. *)
Lemma split_done smem stable suffix tbl p n :
  smem <> 0 -> nodes t !! smem = None -> nodes t !! current = Some n ->
  keyed suffix (bool_decide (u = 0)) (take c (key T current)) -> offsets suffix = Some tbl ->
  keyed p false (drop c (key T current)) ->
  exists h1 t2 nn t1, create_node (nodes t) smem suffix = Done (ISC_R_SUCCESS, h1)
    /\ split_links (with_nodes h1 t) current smem (up_of fr 0) u n (n_length p) (labels p) = Done t2
    /\ dns_name_getlabelsequence name (Zlen q - (Zlen k + Z.of_nat c)) (Zlen k + Z.of_nat c) dns_fixedname false = Done nn
    /\ hash_node hctx stable (add_count 1 t2) smem nn = Done t1
    /\ let T1 := split_trie T u (plug fr (Node col l smem r)) current smem c in
       rbt_ok hctx t1 T1 /\ grows (nodes t) (nodes t1) T T1 smem (k ++ take c (key T current)).
Proof.
  intros Hs0 Hnew Hn Ks Htbl Kp. pose proof (ro_trie _ _ _ RO) as ok. destruct A as [P Hk Hlt Hsn].
  assert (Htk : take c (key T current) <> []).
  { intros E. apply (f_equal length) in E. rewrite length_take in E. cbn in E. lia. }
  destruct (create_node_spec (nodes t) smem suffix _ _ tbl Ks Htbl Htk Hs0) as (i & Ecr & Kn & Hd & Hh).
  destruct (split_links_spec t T ok ns k u P fr col l r current El smem Hs0 Hnew (Z.of_nat c)) with (i := i) (p := p) (n := n)
    as (h' & E & SC & Hsame & n3 & Hn3 & Hh3 & Hd3); try done; rewrite ?Nat2Z.id; try done; [unfold Zlen; lia|].
  rewrite Nat2Z.id in SC. set (tr := plug fr (Node col l smem r)) in *. set (T1 := split_trie T u tr current smem c).
  set (rt := if decide (u = 0) then ptr tr else root t) in *.
  assert (ok1 : trie_ok h' rt T1) by (eapply split_trie_ok; try done).
  assert (Hinv : forall x ns' k', path T1 ns' k' x -> (x = smem /\ k' = k ++ take c (key T current))
            \/ (x <> smem /\ exists ns2, path T ns2 k' x)) by (intros x ns' k' P'; eapply split_path_inv; eauto).
  rewrite length_drop in Hle. pose proof (keyed_count _ _ _ K) as Hcount. pose proof (keyed_labels _ _ _ K) as Hlab.
  destruct (keyed_suffix name true q (Zlen k + Z.of_nat c) dns_fixedname K) as (nn & En & Knn & _);
    [unfold Zlen in *; lia|apply seq_target_fixed; unfold Zlen in *; lia|].
  rewrite Hlab in En. replace (Z.to_nat (Zlen k + Z.of_nat c)) with (length k + c)%nat in Knn by (unfold Zlen; lia).
  set (t2 := mkRbt h' rt (nodecount t) (hashtable t)).
  destruct (hash_new_spec hctx stable t (add_count 1 t2) T T1 smem n3 nn true (take (length k + c) q))
    as (t4 & E4 & RO4 & Hc4); try done.
  { intros x Hx. by apply Hsame. }
  { intros x ns' k' P'. destruct (Hinv _ _ _ P') as [[-> ->]|[_ ?]]; [left; split; [done|apply split_prefix]|by right]. }
  { by apply (keyed_nonempty nn). }
  eexists _, t2, nn, t4. split_and!; try done. split; [done|]. split.
  - done.
  - eapply split_path_new; eauto.
  - intros x ns' k' P'. eapply split_path_old; eauto.
  - intros x ns' k' P'. destruct (Hinv _ _ _ P') as [[-> ->]|[_ ?]]; [by left|by right].
  - intros x Hx. rewrite (core_data _ _ _ Hc4). by apply Hsame.
  - rewrite (core_data _ _ _ Hc4). unfold data_at. cbn. by rewrite Hn3, <- Hd3.
Qed.
End add_split.

(** ** The results of [dns_rbt_addnode] *)

(** The addresses for new nodes are free, and they are two. *)
Record fresh (t : dns_rbt) (smem nmem : Z) : Prop := {
  fr_split : smem <> 0 -> nodes t !! smem = None;
  fr_node : nmem <> 0 -> nodes t !! nmem = None;
  fr_two : smem <> 0 -> smem <> nmem
}.

(** What [dns_rbt_addnode] does to the tree: the invariants hold, the other names
    and their data are the same; the new nodes are for the name and for names above
    it. *)
Definition added (hctx : isc_hash) (t : dns_rbt) (T : trie) (q : namekey) (smem nmem : Z)
    (result : isc_result_t) (node : Z) (t' : dns_rbt) : Prop :=
  exists T' new, rbt_ok hctx t' T' /\ extends (nodes t) (nodes t') T T' new
    /\ (forall x, x ∈ new -> (x = smem \/ x = nmem) /\ exists ns k, path T' ns k x /\ prefix_key k q)
    /\ match result with
       | ISC_R_SUCCESS => names T' node q /\ node ∈ new
       | ISC_R_EXISTS => names T node q /\ node <> 0 /\ t' = t
       | ISC_R_NOMEMORY => node = 0 /\ (smem = 0 \/ nmem = 0)
       | _ => False
       end.

Lemma prefix_of_fold k q : fold_key k = fold_key q -> prefix_key k q.
Proof. intros E. unfold prefix_key. by rewrite E. Qed.

Lemma added_nothing hctx t T q smem nmem : rbt_ok hctx t T -> smem = 0 \/ nmem = 0 ->
  added hctx t T q smem nmem ISC_R_NOMEMORY 0 t.
Proof.
  intros RO Hm. exists T, []. split_and!; [done|apply extends_refl| |done|done]. intros x Hx. by apply elem_of_nil in Hx.
Qed.

Lemma added_one hctx t t' T T' q smem nmem node k : rbt_ok hctx t' T' -> node = smem \/ node = nmem ->
  grows (nodes t) (nodes t') T T' node k -> fold_key k = fold_key q ->
  added hctx t T q smem nmem ISC_R_SUCCESS node t'.
Proof.
  intros RO Hnode G Hf. exists T', [node]. destruct (gr_new _ _ _ _ _ _ G) as [ns P].
  split_and!; [done|by eapply extends_grows| | |set_solver].
  - intros x Hx%list_elem_of_singleton. subst x. split; [done|]. exists ns, k. split; [done|by apply prefix_of_fold].
  - by exists ns, k.
Qed.

Lemma grows_fresh h h' T T' node k x : grows h h' T T' node k -> x <> node -> h !! x = None -> h' !! x = None.
Proof.
  intros G Hx Hn. pose proof (gr_data _ _ _ _ _ _ G x Hx) as E. unfold data_at in E. rewrite Hn in E.
  by destruct (h' !! x).
Qed.

Lemma added_leaf hctx nmem ntable t T q name add_name ns k u current order a b smem :
  rbt_ok hctx t T -> keyed name true q -> add_level T q ns k u add_name -> place T u current order a b ->
  (forall y, y ∈ a -> label_before (key T y) (drop (length k) q)) ->
  (forall y, y ∈ b -> label_before (drop (length k) q) (key T y)) -> (nmem <> 0 -> nodes t !! nmem = None) ->
  exists result node t', add_leaf hctx nmem ntable t name add_name current order u = Done (result, node, t')
    /\ added hctx t T q smem nmem result node t'.
Proof.
  intros RO K [P Hk Hlt [Kn _ _ [tbl Htbl]]] Hpl Ha Hb Hfresh. destruct (rest_size k q Hk) as [Hsz Hf].
  assert (Hr : drop (length k) q <> []).
  { intros E. apply (f_equal length) in E. rewrite length_drop in E. cbn in E. lia. }
  assert (Hq : Zlen (wire (rev q)) <= 255).
  { pose proof (keyed_length _ _ _ K) as El. destruct K as (body & W & _). rewrite <- El. apply W. }
  destruct (add_leaf_spec hctx nmem ntable t T name add_name q current order u ns k (drop (length k) q) a b tbl)
    as [Hno Hyes]; try done; [lia|].
  destruct (decide (nmem = 0)) as [E0|E0].
  - rewrite Hno by done. eexists _, _, _. split; [done|]. apply added_nothing; auto.
  - destruct (Hyes E0 (Hfresh E0)) as (t' & T' & -> & RO' & G). eexists _, _, _. split; [done|]. eapply added_one; eauto.
Qed.

(** A name is added after a split. *)
Lemma added_after_split hctx t t1 t' T T1 q smem nmem k result node :
  grows (nodes t) (nodes t1) T T1 smem k -> prefix_key k q ->
  added hctx t1 T1 q smem nmem result node t' -> result <> ISC_R_EXISTS -> added hctx t T q smem nmem result node t'.
Proof.
  intros G Hk (T' & new & RO & E & Hnew & Hres) Hne. exists T', (new ++ [smem]).
  pose proof (extends_grows _ _ _ _ _ _ G) as E1. split_and!; [done|by eapply extends_trans| |].
  - intros x [Hx|Hx%list_elem_of_singleton]%elem_of_app; [by apply Hnew|]. subst x. split; [by left|].
    destruct (gr_new _ _ _ _ _ _ G) as [ns P]. destruct (ex_old _ _ _ _ _ E _ _ _ P) as [ns' P']. by exists ns', k.
  - destruct result; try done. destruct Hres as [? ?]. split; [done|set_solver].
Qed.

Lemma add_leaf_not_exists hctx mem table_mem t name add_name current order loc node t' :
  add_leaf hctx mem table_mem t name add_name current order loc <> Done (ISC_R_EXISTS, node, t').
Proof.
  unfold add_leaf. destruct (create_node (nodes t) mem add_name) as [[result h]| | |] eqn:E; cbn [obind]; try done.
  assert (result <> ISC_R_EXISTS).
  { intros ->. unfold create_node in E. destruct (offsets add_name); [|done].
    apply obind_Done in E as (? & _ & E). apply obind_Done in E as (? & _ & E). destruct (mem =? 0); [done|].
    by apply obind_Done in E as (? & _ & E). }
  destruct (bool_decide (result = ISC_R_SUCCESS)); [|congruence].
  destruct (get_root t loc) as [rt| | |]; cbn [obind]; try done.
  destruct (dns_rbt_addonlevel h mem current order rt) as [[? ?]| | |]; cbn [obind]; try done.
  destruct (put_root _ _ _); cbn [obind]; try done. by destruct (hash_node _ _ _ _ _).
Qed.

(** The new leaf on the level of the split. *)
Lemma split_leaf T1 current smem (kc r : namekey) lq lr order :
  lev T1 smem = Node BLACK Leaf current Leaf -> key T1 current = kc -> head kc = Some lr -> head r = Some lq ->
  lower_label lq <> lower_label lr -> (order ?= 0) = label_cmp lq lr ->
  exists a b, place T1 smem current order a b /\ (forall y, y ∈ a -> label_before (key T1 y) r)
    /\ (forall y, y ∈ b -> label_before r (key T1 y)).
Proof.
  intros El Kc Hkc Hr Hne Ho. destruct kc as [|lr' rc]; [done|]. injection Hkc as ->. destruct r as [|lq' rq]; [done|].
  injection Hr as ->.
  assert (Hpl : lev T1 smem = plug (slot order BLACK current Leaf []) Leaf) by (rewrite El; unfold slot; by destruct (order <? 0)).
  eexists _, _. split; [by constructor|]. unfold slot.
  assert (Ho0 : order <> 0) by (intros ->; symmetry in Ho; by apply label_cmp_eq in Ho).
  destruct (Z.ltb_spec order 0); cbn; split; intros y Hy; try (by apply elem_of_nil in Hy);
    apply list_elem_of_singleton in Hy; subst y; rewrite Kc; cbn.
  - rewrite <- Ho. by apply Z.compare_lt_iff.
  - rewrite cmp_antisym, <- Ho. assert (Eo : (order ?= 0) = Gt) by (apply Z.compare_gt_iff; lia). by rewrite Eo.
Qed.

Lemma head_drop (r : namekey) c l : r !! c = Some l -> head (drop c r) = Some l.
Proof. intros H. rewrite head_lookup, lookup_drop, Nat.add_0_r. done. Qed.

Lemma added_split hctx smem nmem stable ntable t T q name add_name ns k u fr col l r current order c :
  rbt_ok hctx t T -> keyed name true q -> add_level T q ns k u add_name -> lev T u = plug fr (Node col l current r) ->
  (0 < c < length (key T current))%nat -> (c <= length (drop (length k) q))%nat ->
  fold_key (take c (drop (length k) q)) = fold_key (take c (key T current)) ->
  ((c < length (drop (length k) q))%nat -> exists lq lr, drop (length k) q !! c = Some lq /\ key T current !! c = Some lr
      /\ lower_label lq <> lower_label lr /\ (order ?= 0) = label_cmp lq lr) ->
  fresh t smem nmem ->
  exists result node t', add_split hctx smem nmem stable ntable t name current order u (up_of fr 0) (Z.of_nat c) add_name
      (Zlen k + Z.of_nat c) (Zlen ns) = Done (result, node, t') /\ added hctx t T q smem nmem result node t'.
Proof.
  intros RO K A El Hc Hle Hf Hnext [F1 F2 F3]. pose proof (ro_trie _ _ _ RO) as ok. destruct A as [P Hk Hlt Hs] eqn:EA.
  assert (Hin : current ∈ inorder (lev T u)) by (rewrite El, inorder_plug; cbn; set_solver).
  destruct (member_node _ _ _ ok u current Hin) as [_ [n Hn]]. destruct (to_node _ _ _ ok u current n Hin Hn) as (_ & Kc & _).
  unfold add_split. rewrite (keyed_countlabels _ _ _ K). cbn [obind].
  pose proof (path_length _ _ _ ok _ _ _ P) as Hpl. pose proof (keyed_count _ _ _ K) as Hcount.
  rewrite (proj2 (Z.eqb_neq (Zlen ns) DNS_RBT_LEVELBLOCK)) by (unfold Zlen, DNS_RBT_LEVELBLOCK in *; lia).
  rewrite (node_at_Done _ _ _ Hn). cbn [obind].
  destruct (split_fixed (NODENAME n) _ (key T current) (Z.of_nat c) Kc) as (p & s & -> & Kp & Ks & tbl & Htbl);
    [unfold Zlen; lia|]. cbn [obind]. rewrite Nat2Z.id in Kp, Ks.
  assert (Htk : take c (key T current) <> []).
  { intros E. apply (f_equal length) in E. rewrite length_take in E. cbn in E. lia. }
  destruct (decide (smem = 0)) as [E0|E0].
  { rewrite E0 in *. rewrite (create_node_nomem _ _ _ _ _ Ks Htbl Htk). cbn [obind].
    eexists _, _, _. split; [done|]. apply added_nothing; auto. }
  destruct (split_done hctx t T RO name q K ns k u add_name A fr col l r current El c Hc Hle Hf smem stable s tbl p n)
    as (h1 & t2 & nn & t1 & -> & E2 & E3 & E4 & RO1 & G); auto.
  cbn [obind]. rewrite bool_decide_eq_true_2 by done. rewrite E2. cbn [obind]. rewrite E3. cbn [obind]. rewrite E4. cbn [obind].
  rewrite (keyed_countlabels _ _ _ (sn_keyed _ _ _ Hs)). cbn [obind].
  pose proof (split_prefix T q ns k u add_name A current c Hf) as Hpre. rewrite length_drop in Hle.
  destruct (Z.eqb_spec (Z.of_nat c) (Zlen (drop (length k) q))) as [Ec|Ec].
  - eexists _, _, _. split; [done|]. unfold Zlen in Ec. rewrite length_drop in Ec.
    rewrite (take_ge q) in Hpre by lia. eapply added_one; eauto.
  - unfold Zlen in Ec. rewrite length_drop in Ec.
    destruct Hnext as (lq & lr & E1 & E1' & Hne & Ho); [rewrite length_drop; lia|].
    destruct (split_self_spec _ _ _ (Z.of_nat c) Hs) as (an & -> & Han); [unfold Zlen; rewrite length_drop; lia|].
    cbn [obind]. rewrite Nat2Z.id, drop_drop in Han. set (T1 := split_trie _ _ _ _ _ _) in *.
    destruct (gr_new _ _ _ _ _ _ G) as [ns1 P1].
    set (k1 := k ++ take c (key T current)) in *.
    assert (Hk1 : length k1 = (length k + c)%nat) by (unfold k1; rewrite length_app, length_take; lia).
    assert (Hk1q : prefix_key k1 q) by (apply prefix_key_take; rewrite Hk1; split; [lia|done]).
    assert (A1 : add_level T1 q ns1 k1 smem an).
    { split; [done|done|lia|]. rewrite bool_decide_eq_false_2, Hk1 by done. done. }
    destruct (split_leaf T1 current smem (drop c (key T current)) (drop (length k1) q) lq lr order) as (a & b & Hpl1 & Ha & Hb);
      try done.
    + by eapply split_lev_new.
    + eapply split_key_current; eauto.
    + by apply head_drop.
    + rewrite Hk1, <- drop_drop. by apply head_drop.
    + destruct (added_leaf hctx nmem ntable t1 T1 q name an ns1 k1 smem current order a b smem RO1 K A1 Hpl1 Ha Hb)
        as (result & node & t' & Ead & Hadd).
      { intros Hn0. eapply grows_fresh; [exact G|by apply not_eq_sym, F3|by apply F2]. }
      exists result, node, t'. split; [done|]. eapply added_after_split; eauto. intros ->.
      by apply add_leaf_not_exists in Ead.
Qed.

(** ** [dns_rbt_addnode] *)

Lemma empty_level h root T (ok : trie_ok h root T) : root = 0 -> lev T 0 = Leaf.
Proof.
  intros Hr. rewrite (to_root _ _ _ ok) in Hr. destruct (lev T 0) as [|c l x r] eqn:E; [done|]. exfalso.
  apply (member_node _ _ _ ok 0 x); [|done]. rewrite E. cbn. set_solver.
Qed.

(** The first node of the tree. *)
Lemma added_first hctx smem nmem ntable t T q name add_name :
  rbt_ok hctx t T -> keyed name true q -> search_name add_name true q -> root t = 0 -> (nmem <> 0 -> nodes t !! nmem = None) ->
  exists result node t',
    (let* (result, h) := create_node (nodes t) nmem add_name in
     if bool_decide (result = ISC_R_SUCCESS) then
       let* h := set_root h nmem true in
       let t := add_count 1 (with_top nmem (with_nodes h t)) in
       let* t := hash_node hctx ntable t nmem name in
       Done (ISC_R_SUCCESS, nmem, t)
     else Done (result, 0, t)) = Done (result, node, t') /\ added hctx t T q smem nmem result node t'.
Proof.
  intros RO K [Kn _ _ [tbl Htbl]] Hr F. pose proof (ro_trie _ _ _ RO) as ok. pose proof (keyed_nonempty _ _ K) as Hq.
  destruct (decide (nmem = 0)) as [->|Hm].
  { rewrite (create_node_nomem _ _ _ _ _ Kn Htbl Hq). eexists _, _, _. split; [done|]. apply added_nothing; auto. }
  destruct (create_node_spec (nodes t) nmem add_name _ _ tbl Kn Htbl Hq Hm) as (i & -> & Ki & Hd & Hh). cbn [obind].
  rewrite bool_decide_eq_true_2 by done. unfold set_root, assign, node_at. rewrite lookup_insert_eq. cbn [obind].
  rewrite insert_insert_eq. set (n := with_root true _). specialize (F Hm).
  assert (Etr : inorder (Node BLACK Leaf nmem Leaf) = [] ++ nmem :: []) by reflexivity.
  set (h' := <[nmem := n]> (nodes t)). set (tr := Node BLACK Leaf nmem Leaf). set (T' := add_trie T 0 tr nmem q).
  assert (El : inorder (lev T 0) = [] ++ []) by (by rewrite (empty_level _ _ _ ok Hr)).
  assert (Hsz : Zlen (wire (rev ([] ++ q))) <= 255).
  { change ([] ++ q) with q. pose proof (keyed_length _ _ _ K) as E. destruct K as (body & W & _). rewrite <- E. apply W. }
  assert (LC : level_change (nodes t) h' (root t) nmem 0 tr nmem q).
  { split.
    - split; [|apply NoDup_singleton]. cbn. split_and!; [done| |done|done]. unfold h'. rewrite lookup_insert_eq. by eexists _, _.
    - exists 1%nat. econstructor; constructor.
    - done.
    - intros x Hx. unfold h'. rewrite lookup_insert_ne; [done|]. intros <-. apply Hx. cbn. set_solver.
    - intros x n0 Hx Hn0. unfold h' in Hn0. rewrite lookup_insert_ne in Hn0 by done. exists n0. split_and!; [done..|].
      rewrite decide_False; [done|]. intros ->. by rewrite (to_null _ _ _ ok) in Hn0.
    - intros n0 Hn0. unfold h' in Hn0. rewrite lookup_insert_eq in Hn0. injection Hn0 as <-. split; [done|]. by apply Ki. }
  assert (Hinv : forall x ns' k', path T' ns' k' x -> (x <> nmem /\ path T ns' k' x) \/ (x = nmem /\ ns' = [] ++ [nmem] /\ k' = [] ++ q)).
  { intros x ns' k' P'. eapply (add_path_inv (nodes t) (root t) T ok [] [] 0 (path_top T) [] [] El nmem Hm F q); try done;
      try exact Etr; try (intros y Hy; by apply elem_of_nil in Hy). }
  assert (ok' : trie_ok h' nmem T').
  { eapply (add_trie_ok (nodes t) (root t) T ok [] [] 0 (path_top T) [] [] El nmem Hm F q Hq); try done;
      try exact Etr; try (intros y Hy; by apply elem_of_nil in Hy). }
  destruct (hash_new_spec hctx ntable t (add_count 1 (with_top nmem (with_nodes h' t))) T T' nmem n name true q)
    as (t4 & E4 & RO4 & Hc4); try done.
  { unfold h'. cbn. by rewrite lookup_insert_eq. }
  { intros x Hx. cbn. unfold hash_at, h'. by rewrite lookup_insert_ne. }
  { intros x ns' k' P'. destruct (Hinv _ _ _ P') as [[_ P0]|(-> & _ & ->)]; [right; by eexists|by left]. }
  rewrite E4. cbn [obind]. eexists _, _, _. split; [done|]. eapply (added_one _ _ _ _ _ _ _ _ _ q); [exact RO4|by right| |done].
  split; [done| | | | |].
  - exists ([] ++ [nmem]). change (path T' ([] ++ [nmem]) ([] ++ q) nmem).
    eapply (add_path_new (nodes t) (root t) T ok [] [] 0 (path_top T) [] [] El nmem Hm F q); try done;
      try exact Etr; try (intros y Hy; by apply elem_of_nil in Hy).
  - intros x ns k P. exists ns. eapply (add_path_old (nodes t) (root t) T ok [] [] 0 (path_top T) [] [] El nmem Hm F q); try done;
      try exact Etr; try (intros y Hy; by apply elem_of_nil in Hy).
  - intros x ns' k' P'. destruct (Hinv _ _ _ P') as [[_ P0]|(-> & _ & ->)]; [right; by eexists|by left].
  - intros x Hx. rewrite (core_data _ _ _ Hc4). unfold data_at. cbn. unfold h'. by rewrite lookup_insert_ne.
  - rewrite (core_data _ _ _ Hc4). unfold data_at. cbn. unfold h'. rewrite lookup_insert_eq. cbn. by rewrite Hd.
Qed.

Lemma addnode_spec hctx smem nmem stable ntable t T name q :
  rbt_ok hctx t T -> keyed name true q -> fresh t smem nmem ->
  exists result node t', dns_rbt_addnode hctx smem nmem stable ntable t name = Done (result, node, t')
    /\ added hctx t T q smem nmem result node t'.
Proof.
  intros RO K F. pose proof (ro_trie _ _ _ RO) as ok. unfold dns_rbt_addnode.
  rewrite require_true by (by rewrite (keyed_abs _ _ _ K)). cbn [obind].
  destruct (clone_search name true q K (keyed_nonempty _ _ K)) as (an & -> & Hs). cbn [obind].
  destruct (Z.eqb_spec (root t) 0) as [Hr|Hr]; [by apply added_first; try apply F|].
  pose proof (to_root _ _ _ ok) as Er. pose proof (to_level _ _ _ ok 0) as R0.
  destruct (lev T 0) as [|c l x r] eqn:E0; [done|]. destruct (read_node _ _ [] _ _ _ _ R0) as (_ & dn & dt & Ex).
  rewrite Er. cbn [ptr]. rewrite (node_at_Done _ _ _ Ex). cbn [obind at_root is_root require].
  rewrite (keyed_countlabels _ _ _ K). cbn [obind]. change x with (ptr (Node c l x r)). rewrite <- Er.
  destruct (descent t T ok name q K Hr an Hs) as (stop & -> & Hend). cbn [obind].
  destruct Hend as [y Hy Hy0|ns k u an' current order a b A Hpl Ha Hb|ns k u an' fr col l' r' current order c' A El Hc Hle Hf Hn].
  - eexists _, _, _. split; [done|]. exists T, []. split_and!; [done|apply extends_refl| |done|done|done].
    intros z Hz. by apply elem_of_nil in Hz.
  - eapply added_leaf; try done. apply F.
  - by eapply added_split.
Qed.
