(* ===== verification/RbtMap.v ===== *)
(** * The tree of trees as a map from names to data

    [entry] is the abstract view of a tree: the data of the names that have data,
    up to the case of the labels.  [dns_rbt_addname] inserts, [dns_rbt_findname]
    finds the longest match, and the tree of [dns_rbt_create] is empty. *)

From stdpp Require Import sorting.
From S2P Require Import Prelude Buffer Name NameTheory Hash Rbt RbtTheory RbtDelete RbtTree RbtNames RbtTrie RbtFind RbtAdd.
From S2P Require Import RbtSplit RbtInsert.

Definition entry (t : dns_rbt) (T : trie) (k : namekey) (d : Z) : Prop :=
  d <> 0 /\ exists x, x <> 0 /\ names T x k /\ data_at (nodes t) x = Some d.

(** A name has one node. *)
Lemma names_unique h root T (ok : trie_ok h root T) x y q : names T x q -> names T y q -> x = y.
Proof.
  assert (Hle : forall x y ns k ms k', path T ns k x -> path T (ns ++ ms) k' y -> length k = length k' -> x = y).
  { intros x1 y1 ns k ms k' P1 P2 E. destruct ms as [|z ms].
    - rewrite app_nil_r in P2. by destruct (path_det _ _ _ _ P1 _ _ P2).
    - destruct (path_next _ _ _ _ _ _ _ _ P2 P1) as (Hz & Hp & _). apply prefix_length in Hp. rewrite length_app in Hp.
      destruct (member_key _ _ _ ok _ _ Hz) as (? & ? & Kz). rewrite Kz in Hp. cbn in Hp. lia. }
  intros (ns & k & P & E) (ns' & k' & P' & E').
  assert (El : length k = length k').
  { rewrite <- (length_fold k), <- (length_fold k'). congruence. }
  destruct (path_linear _ _ _ ok q _ _ _ P (prefix_of_fold _ _ E) _ _ _ P' (prefix_of_fold _ _ E')) as [[ms ->]|[ms ->]].
  - by eapply Hle.
  - symmetry. by eapply Hle.
Qed.

Lemma names_fold T x k k' : fold_key k = fold_key k' -> names T x k -> names T x k'.
Proof. intros E (ns & k0 & P & Ek). exists ns, k0. split; [done|congruence]. Qed.

Lemma names_member h root T (ok : trie_ok h root T) x k : names T x k -> x <> 0 -> exists n, h !! x = Some n.
Proof.
  intros (ns & k0 & P & _) Hx. destruct (path_inv _ _ _ _ P) as [(_ & _ & ?)|(? & ? & u & _ & _ & _ & Hu)]; [done|].
  apply (member_node _ _ _ ok u x Hu).
Qed.

(** ** Storing data *)

Lemma data_at_set h x n d y : h !! x = Some n ->
  data_at (<[x := with_info (set_data d) n]> h) y = if decide (y = x) then Some d else data_at h y.
Proof.
  intros Hx. unfold data_at. destruct (decide (y = x)) as [->|Hne]; [by rewrite lookup_insert_eq|by rewrite lookup_insert_ne].
Qed.

Lemma set_data_ok hctx t T x n d : rbt_ok hctx t T -> nodes t !! x = Some n ->
  rbt_ok hctx (with_nodes (<[x := with_info (set_data d) n]> (nodes t)) t) T.
Proof.
  intros [ok HO (table & Et & HR)] Hx. apply hash_rep_table in HR as [R Hv].
  set (h' := <[x := _]> (nodes t)).
  assert (Hh : forall y, hash_at h' y = hash_at (nodes t) y).
  { intros y. unfold hash_at, h'. destruct (decide (y = x)) as [->|]; [by rewrite lookup_insert_eq, Hx|by rewrite lookup_insert_ne]. }
  split; [|done|].
  - eapply trie_ok_shape; [|exact ok]. intros y. cbn. unfold h'.
    destruct (decide (y = x)) as [->|]; [by rewrite lookup_insert_eq, Hx|by rewrite lookup_insert_ne].
  - exists table. split; [done|]. apply hash_rep_table. cbn [nodes with_nodes]. split.
    + unfold h'. rewrite dom_insert_lookup_L by (by eexists). eapply table_rep_hash_at; [|exact R]. intros y _. apply Hh.
    + intros ns k y n' Hy P. pose proof (hash_at_hv _ _ _ (Hh y)) as E. unfold hv in E. rewrite Hy in E.
      destruct (nodes t !! y) as [n0|] eqn:H0; [|done]. injection E as ->. by eapply Hv.
Qed.

(** ** [dns_rbt_addname] *)

(** The names and data after nodes without data were added. *)
Lemma extends_entry hctx t t' T T' new : rbt_ok hctx t T -> rbt_ok hctx t' T' -> extends (nodes t) (nodes t') T T' new ->
  forall k d, entry t' T' k d <-> entry t T k d.
Proof.
  intros RO RO' E k d. unfold entry. split; intros (Hd & x & Hx & (ns & k0 & P & Ek) & Hdx); (split; [done|]); exists x; (split; [done|]).
  - destruct (decide (x ∈ new)) as [Hin|Hout].
    { apply (ex_new _ _ _ _ _ E) in Hin as [_ Hz]. rewrite Hz in Hdx. by injection Hdx as <-. }
    destruct (ex_only _ _ _ _ _ E _ _ _ P) as [?|[ns' P']]; [done|].
    split; [by exists ns', k0|]. by rewrite (ex_data _ _ _ _ _ E) in Hdx.
  - destruct (ex_old _ _ _ _ _ E _ _ _ P) as [ns' P']. split; [by exists ns', k0|].
    rewrite (ex_data _ _ _ _ _ E); [done|]. intros Hin. apply (ex_new _ _ _ _ _ E) in Hin as [Hn _].
    unfold data_at in Hdx. by rewrite Hn in Hdx.
Qed.

(** Data stored at the node of a name that has none. *)
Lemma set_data_entry hctx t T x n q d : rbt_ok hctx t T -> names T x q -> x <> 0 -> nodes t !! x = Some n -> d <> 0 ->
  data_at (nodes t) x = Some 0 ->
  forall k d', entry (with_nodes (<[x := with_info (set_data d) n]> (nodes t)) t) T k d'
    <-> (fold_key k = fold_key q /\ d' = d) \/ (fold_key k <> fold_key q /\ entry t T k d').
Proof.
  intros RO Hx Hx0 Hn Hd Hz k d'. pose proof (ro_trie _ _ _ RO) as ok. unfold entry. cbn [nodes with_nodes]. split.
  - intros (Hd' & y & Hy0 & Hy & Ey). rewrite (data_at_set _ _ _ _ _ Hn) in Ey.
    destruct (decide (y = x)) as [->|Hne].
    + left. injection Ey as <-. destruct Hx as (ns & k1 & P & E1), Hy as (ns' & k2 & P' & E2).
      destruct (path_unique _ _ _ ok _ _ _ P _ _ P') as [_ <-]. split; [congruence|done].
    + right. split; [|by eauto 6]. intros E. apply Hne. eapply (names_unique _ _ _ ok); [|exact Hx]. by eapply names_fold.
  - intros [[E ->]|[E (Hd' & y & Hy0 & Hy & Ey)]].
    + split; [done|]. exists x. split_and!; [done|by eapply names_fold|]. rewrite (data_at_set _ _ _ _ _ Hn). by rewrite decide_True.
    + split; [done|]. exists y. split_and!; [done..|]. rewrite (data_at_set _ _ _ _ _ Hn). rewrite decide_False; [done|].
      intros ->. rewrite Hz in Ey. by injection Ey as <-.
Qed.

Lemma addname_spec hctx smem nmem stable ntable t T name q d :
  rbt_ok hctx t T -> keyed name true q -> fresh t smem nmem -> d <> 0 ->
  exists result t' T', dns_rbt_addname hctx smem nmem stable ntable t name d = Done (result, t') /\ rbt_ok hctx t' T'
    /\ match result with
       | ISC_R_SUCCESS => (forall d', ~ entry t T q d')
           /\ forall k d', entry t' T' k d' <-> (fold_key k = fold_key q /\ d' = d) \/ entry t T k d'
       | ISC_R_EXISTS => (exists d', entry t T q d') /\ t' = t
       | ISC_R_NOMEMORY => (smem = 0 \/ nmem = 0) /\ forall k d', entry t' T' k d' <-> entry t T k d'
       | _ => False
       end.
Proof.
  intros RO K F Hd. unfold dns_rbt_addname. rewrite require_true by (by rewrite (keyed_abs _ _ _ K)). cbn [obind].
  destruct (addnode_spec hctx smem nmem stable ntable t T name q RO K F) as (result & node & t1 & -> & T1 & new & RO1 & E & Hnew & Hres).
  cbn [obind]. pose proof (extends_entry _ _ _ _ _ _ RO RO1 E) as He.
  assert (Hstore : forall n, names T1 node q -> node <> 0 -> nodes t1 !! node = Some n -> data_at (nodes t1) node = Some 0 ->
    let t' := with_nodes (<[node := with_info (set_data d) n]> (nodes t1)) t1 in
    (forall d', ~ entry t T q d') /\ forall k d', entry t' T1 k d' <-> (fold_key k = fold_key q /\ d' = d) \/ entry t T k d').
  { intros n Hn Hn0 Hx Hz t'.
    assert (Hno : forall d', ~ entry t T q d').
    { intros d' Hent. apply He in Hent as (Hd' & y & _ & Hy & Ey).
      rewrite (names_unique _ _ _ (ro_trie _ _ _ RO1) _ _ _ Hy Hn), Hz in Ey. by injection Ey as <-. }
    split; [done|]. intros k d'. unfold t'. rewrite (set_data_entry _ _ _ _ _ _ _ RO1 Hn Hn0 Hx Hd Hz), He.
    split; [tauto|]. intros [?|Hent]; [by left|right]. split; [|done]. intros Ek. apply (Hno d'). destruct Hent as (? & y & ? & ? & ?).
    split; [done|]. exists y. split_and!; [done|by eapply names_fold|done]. }
  destruct result; try done; cbn [bool_decide].
  - rewrite bool_decide_eq_false_2, bool_decide_eq_true_2 by done. cbn [obind]. destruct Hres as [Hn Hin].
    destruct (ex_new _ _ _ _ _ E node Hin) as [Hfresh Hz]. unfold data_at in Hz.
    destruct (nodes t1 !! node) as [n|] eqn:Hx; [|done]. unfold assign. rewrite (node_at_Done _ _ _ Hx). cbn [obind].
    assert (Hn0 : node <> 0) by (intros ->; by rewrite (to_null _ _ _ (ro_trie _ _ _ RO1)) in Hx).
    eexists _, _, T1. split; [done|]. split; [by apply set_data_ok|]. apply Hstore; try done. unfold data_at. by rewrite Hx.
  - destruct Hres as [-> Hm]. rewrite !bool_decide_eq_false_2 by done. cbn [obind]. eexists _, _, T1. split; [done|].
    split; [done|]. by split.
  - destruct Hres as (Hn & Hn0 & ->). rewrite bool_decide_eq_true_2 by done.
    assert (Hn1 : names T1 node q).
    { destruct Hn as (ns & k & P & Ek). destruct (ex_old _ _ _ _ _ E _ _ _ P) as [ns' P']. by exists ns', k. }
    destruct (names_member _ _ _ (ro_trie _ _ _ RO) _ _ Hn Hn0) as [n Hx]. rewrite (node_at_Done _ _ _ Hx). cbn [obind].
    destruct (Z.eqb_spec (data (info n)) 0) as [Hz|Hz].
    + unfold assign. rewrite (node_at_Done _ _ _ Hx). cbn [obind]. eexists _, _, T1. split; [done|].
      split; [by apply set_data_ok|]. apply Hstore; try done. unfold data_at. rewrite Hx. cbn. by rewrite Hz.
    + eexists _, _, T. split; [done|]. split; [done|]. split; [|done]. exists (data (info n)). split; [done|].
      exists node. split_and!; [done..|]. unfold data_at. by rewrite Hx.
Qed.

(** ** [dns_rbt_findname] *)

Lemma no_options : option_set DNS_RBTFIND_NOOPTIONS DNS_RBTFIND_EMPTYDATA = false
  /\ option_set DNS_RBTFIND_NOOPTIONS DNS_RBTFIND_NOEXACT = false.
Proof. done. Qed.

Lemma candidate_entry t T q x k :
  candidate (nodes t) T DNS_RBTFIND_NOOPTIONS q x k -> exists d, entry t T k d /\ data_at (nodes t) x = Some d /\ prefix_key k q.
Proof.
  intros [[ns P] Hx Hp Hu _]. unfold usable in Hu. destruct (nodes t !! x) as [n|] eqn:Hn; [|done].
  rewrite (proj1 no_options), orb_false_r in Hu. apply negb_true_iff, Z.eqb_neq in Hu.
  assert (Hd : data_at (nodes t) x = Some (data (info n))) by (unfold data_at; by rewrite Hn).
  exists (data (info n)). split_and!; [|done|done]. split; [done|]. exists x. split_and!; [done|by exists ns, k|done].
Qed.

Lemma entry_candidate t T q k d : entry t T k d -> prefix_key k q ->
  exists x k', candidate (nodes t) T DNS_RBTFIND_NOOPTIONS q x k' /\ fold_key k' = fold_key k /\ data_at (nodes t) x = Some d.
Proof.
  intros (Hd & x & Hx & (ns & k' & P & E) & Hdx) Hp. exists x, k'. split_and!; [|done|done].
  split; [by exists ns|done| |unfold usable|by rewrite (proj2 no_options)].
  - unfold prefix_key in *. by rewrite E.
  - unfold data_at in Hdx. destruct (nodes t !! x) as [n|]; [|done]. injection Hdx as ->.
    by rewrite (proj2 (Z.eqb_neq d 0)) by done.
Qed.

(** The result of a search in the map: the data of the name, or of the closest name
    above it that has data. *)
Definition found (t : dns_rbt) (T : trie) (q : namekey) (result : isc_result_t) (d : Z) : Prop :=
  match result with
  | ISC_R_SUCCESS => entry t T q d
  | DNS_R_PARTIALMATCH => exists k, entry t T k d /\ prefix_key k q /\ (length k < length q)%nat
      /\ forall k' d', entry t T k' d' -> prefix_key k' q -> (length k' <= length k)%nat
  | ISC_R_NOTFOUND => d = 0 /\ forall k d', entry t T k d' -> ~ prefix_key k q
  | _ => False
  end.

Lemma findname_spec hctx t T name q : trie_ok (nodes t) (root t) T -> hash_ready hctx t T -> keyed name true q ->
  exists result d, dns_rbt_findname hctx t name DNS_RBTFIND_NOOPTIONS None = Done (result, d, None) /\ found t T q result d.
Proof.
  intros ok Hh K. unfold dns_rbt_findname.
  destruct (findnode_spec hctx t T name q false DNS_RBTFIND_NOOPTIONS ok Hh K) as (result & node & c & -> & Hm);
    [done|by left|]. cbn [obind].
  assert (Hget : forall k, candidate (nodes t) T DNS_RBTFIND_NOOPTIONS q node k -> exists d,
    (if negb (node =? 0) then let* n := node_at (nodes t) node in
       if negb (data (info n) =? 0) || option_set DNS_RBTFIND_NOOPTIONS DNS_RBTFIND_EMPTYDATA
       then Done (result, data (info n), None) else Done (ISC_R_NOTFOUND, 0, None)
     else Done (ISC_R_NOTFOUND, 0, None)) = Done (result, d, @None dns_name_t) /\ entry t T k d).
  { intros k C. destruct (candidate_entry _ _ _ _ _ C) as (d & Hent & Hd & _). exists d. split; [|done].
    rewrite (proj2 (Z.eqb_neq node 0)) by apply (ca_node _ _ _ _ _ _ C). cbn [negb]. unfold data_at in Hd.
    destruct (nodes t !! node) as [n|] eqn:Hn; [|done]. injection Hd as Hd. rewrite (node_at_Done _ _ _ Hn). cbn [obind].
    rewrite Hd. destruct Hent as [Hd0 _]. by rewrite (proj2 (Z.eqb_neq d 0)). }
  destruct result; try done; cbn in Hm.
  - destruct Hm as (k & C & E). destruct (Hget k C) as (d & -> & Hent). eexists _, _. split; [done|].
    destruct Hent as (? & x & ? & ? & ?). split; [done|]. exists x. split_and!; [done|by eapply names_fold|done].
  - destruct Hm as [-> Hno]. eexists _, _. split; [done|]. split; [done|]. intros k d' Hent Hp.
    destruct (entry_candidate _ _ _ _ _ Hent Hp) as (x & k' & C & _). by apply Hno in C.
  - destruct Hm as (k & C & Hl & Hmax). destruct (Hget k C) as (d & -> & Hent). eexists _, _. split; [done|].
    exists k. split_and!; [done|apply (ca_prefix _ _ _ _ _ _ C)|done|]. intros k' d' Hent' Hp.
    destruct (entry_candidate _ _ _ _ _ Hent' Hp) as (x & k2 & C2 & E2 & _). specialize (Hmax _ _ C2).
    rewrite <- (length_fold k2), E2, length_fold in Hmax. done.
Qed.

Lemma rbt_ok_ready hctx t T : rbt_ok hctx t T -> hash_ready hctx t T.
Proof. intros [_ HO (table & Et & HR)]. unfold hash_ready. by rewrite Et. Qed.

(** ** The empty tree *)

Definition empty_trie : trie := mkTrie (fun _ => Leaf) (fun _ => []).

Lemma create_ok hctx mem table_mem t : hash_ok hctx -> dns_rbt_create mem table_mem = (ISC_R_SUCCESS, Some t) ->
  rbt_ok hctx t empty_trie /\ forall k d, ~ entry t empty_trie k d.
Proof.
  intros HO E. unfold dns_rbt_create in E. destruct mem; [|done]. destruct table_mem; [|done]. injection E as <-.
  assert (Hp : forall ns k x, path empty_trie ns k x -> ns = [] /\ k = [] /\ x = 0).
  { intros ns k x P. destruct (path_inv _ _ _ _ P) as [?|(? & ? & u & _ & _ & _ & Hu)]; [done|]. by apply elem_of_nil in Hu. }
  split.
  - split; [|done|].
    + split; cbn; try done.
      * intros u. split; [done|constructor].
      * intros u. exists 0%nat. constructor.
      * intros u v x Hx. by apply elem_of_nil in Hx.
      * intros u. constructor.
      * intros ns k x P. by destruct (Hp _ _ _ P) as (_ & -> & _).
    + exists (replicate (Z.to_nat RBT_HASH_SIZE) 0). split; [done|]. apply hash_rep_table. cbn [nodes]. split; [|done].
      rewrite dom_empty_L. by apply empty_table.
  - intros k d (_ & x & Hx & (ns & k' & P & _) & _). by destruct (Hp _ _ _ P) as (_ & _ & ?).
Qed.

(** ** What a search finds depends on the map alone *)

Lemma entry_unique h root T (ok : trie_ok h root T) t k k' d d' :
  entry t T k d -> entry t T k' d' -> fold_key k = fold_key k' -> d = d'.
Proof.
  intros (_ & x & _ & Hx & Ex) (_ & y & _ & Hy & Ey) E.
  rewrite (names_unique _ _ _ ok x y k') in Ex; [congruence| |done]. by eapply names_fold.
Qed.

Lemma prefix_key_same k k' q : prefix_key k q -> prefix_key k' q -> length k = length k' -> fold_key k = fold_key k'.
Proof. intros [_ ->]%prefix_key_take [_ ->]%prefix_key_take E. by rewrite E. Qed.

Lemma found_unique t t' T T' q r r' d d' : trie_ok (nodes t) (root t) T ->
  (forall k e, prefix_key k q -> (entry t' T' k e <-> entry t T k e)) ->
  found t T q r d -> found t' T' q r' d' -> r' = r /\ d' = d.
Proof.
  intros ok He. assert (Hq : prefix_key q q) by by apply prefix_of_fold.
  unfold found. destruct r; try done; destruct r'; try done.
  - intros H1 H2. apply He in H2; [|done]. split; [done|]. by eapply (entry_unique _ _ _ ok).
  - intros H1 [_ H2]. destruct (H2 q d); [|done]. by apply He.
  - intros H1 (k & H2 & Hp & Hl & Hm). specialize (Hm q d). rewrite He in Hm by done. specialize (Hm H1 Hq). lia.
  - intros [_ H1] H2. apply He in H2; [|done]. by destruct (H1 q d').
  - intros [-> _] [-> _]. done.
  - intros [_ H1] (k & H2 & Hp & _). apply He in H2; [|done]. by destruct (H1 k d').
  - intros (k & H1 & Hp & Hl & Hm) H2. apply He in H2; [|done]. specialize (Hm q d' H2 Hq). lia.
  - intros (k & H1 & Hp & _) [_ H2]. destruct (H2 k d); [|done]. by apply He.
  - intros (k & H1 & Hp & Hl & Hm) (k' & H2 & Hp' & Hl' & Hm'). split; [done|].
    apply He in H2; [|done]. specialize (Hm _ _ H2 Hp'). specialize (Hm' k d). rewrite He in Hm' by done.
    specialize (Hm' H1 Hp). eapply (entry_unique _ _ _ ok); [exact H2|exact H1|]. eapply prefix_key_same; [done..|lia].
Qed.

(** ** Claims *)

(** C10. The search finds the longest match: whatever the names in the tree, the
    search for a name returns its node if it may answer the search (it has data, or
    nodes without data are asked for; exact matches are wanted), else
    [DNS_R_PARTIALMATCH] with the node closest above it that may answer, else
    [ISC_R_NOTFOUND]; the loops end and no assertion fails.  This holds with the
    hash table and without. *)
Theorem rbt_findnode_longest_match (hctx : isc_hash) (t : dns_rbt) (T : trie) (name : dns_name_t) (q : namekey)
    (chain : bool) (options : Z) :
  trie_ok (nodes t) (root t) T -> hash_ready hctx t T -> keyed name true q ->
  good_options options -> no_predecessor chain options ->
  exists result node c, dns_rbt_findnode hctx t name None chain options None = Done (result, node, None, c)
    /\ longest_match (nodes t) T options q result node.
Proof. apply findnode_spec. Qed.

Definition without_hash (t : dns_rbt) : dns_rbt := mkRbt (nodes t) (root t) (nodecount t) None.

(** C22. The hash table changes nothing but the time of a search: the search with a
    hash table over the nodes of the tree returns the same code, node, name and
    chain as the binary search on every level. *)
Theorem rbt_hash_search_equivalent (hctx : isc_hash) (t : dns_rbt) (T : trie) (table : list Z) (name : dns_name_t)
    (q : namekey) (foundname : option dns_name_t) (chain : bool) (options : Z) :
  trie_ok (nodes t) (root t) T -> hashtable t = Some table -> hash_ok hctx -> hash_rep hctx (nodes t) T table ->
  keyed name true q -> no_predecessor chain options ->
  dns_rbt_findnode hctx t name foundname chain options None
  = dns_rbt_findnode hctx (without_hash t) name foundname chain options None.
Proof.
  intros ok Et HO HR K Hp. pose proof (effective_options _ _ Hp) as He. unfold dns_rbt_findnode.
  destruct (require (dns_name_isabsolute name)) as [[]| | |]; try done. cbn [obind].
  destruct (require (negb _)) as [[]| | |]; try done. cbn [obind].
  change (root (without_hash t)) with (root t). change (nodes (without_hash t)) with (nodes t).
  destruct (root t =? 0); [done|]. cbv zeta.
  set (opts := if chain then options else Z.lor options DNS_RBTFIND_NOPREDECESSOR) in *.
  destruct (find_loop hctx t T name q opts ok) as (sn & s & ns & k & u & Ec & El & A & D);
    [by unfold hash_ready; rewrite Et|done|].
  destruct (find_loop hctx (without_hash t) T name q opts ok I K) as (sn' & s' & ns' & k' & u' & Ec' & El' & A' & D').
  rewrite Ec in *. injection Ec' as <-. cbn [obind].
  change (root (without_hash t)) with (root t) in El'. rewrite El, El'. cbn [obind].
  destruct A as [P Hk Hl Hch _ _ _ Hn], A' as [P' Hk' Hl' Hch' _ _ _ Hn'].
  destruct (find_done_unique t T ok q _ _ _ _ _ _ _ _ P Hk Hl D P' Hk' Hl' D') as (-> & -> & -> & E).
  symmetry. apply find_finish_same; [done|done|by rewrite Hch, Hch'|by rewrite Hn, Hn'].
Qed.

(** Insertion keeps the invariants: on every tree whose levels are red-black
    trees ordered by the last labels and whose hash table holds the nodes,
    [dns_rbt_addnode] returns, with the invariants intact, and the names of the tree
    are those from before with their data, the name, and possibly one name above it,
    both without data; the node returned is the one of the name, new
    ([ISC_R_SUCCESS]) or not ([ISC_R_EXISTS]); [ISC_R_NOMEMORY] is returned only if
    memory ran out. *)
Theorem rbt_addnode_correct (hctx : isc_hash) (smem nmem : Z) (stable ntable : bool) (t : dns_rbt) (T : trie)
    (name : dns_name_t) (q : namekey) :
  rbt_ok hctx t T -> keyed name true q -> fresh t smem nmem ->
  exists result node t', dns_rbt_addnode hctx smem nmem stable ntable t name = Done (result, node, t')
    /\ added hctx t T q smem nmem result node t'.
Proof. apply addnode_spec. Qed.

(** The tree refines a map from names, up to case, to data: [dns_rbt_addname]
    adds exactly the name with its data when the name has none, changes nothing when
    it has ([ISC_R_EXISTS]) or when memory runs out, and keeps the invariants. *)
Theorem rbt_addname_refines_insert (hctx : isc_hash) (smem nmem : Z) (stable ntable : bool) (t : dns_rbt) (T : trie)
    (name : dns_name_t) (q : namekey) (d : Z) :
  rbt_ok hctx t T -> keyed name true q -> fresh t smem nmem -> d <> 0 ->
  exists result t' T', dns_rbt_addname hctx smem nmem stable ntable t name d = Done (result, t') /\ rbt_ok hctx t' T'
    /\ match result with
       | ISC_R_SUCCESS => (forall d', ~ entry t T q d')
           /\ forall k d', entry t' T' k d' <-> (fold_key k = fold_key q /\ d' = d) \/ entry t T k d'
       | ISC_R_EXISTS => (exists d', entry t T q d') /\ t' = t
       | ISC_R_NOMEMORY => (smem = 0 \/ nmem = 0) /\ forall k d', entry t' T' k d' <-> entry t T k d'
       | _ => False
       end.
Proof. apply addname_spec. Qed.

(** What was added is found: after [dns_rbt_addname] succeeded, the search for
    the name, in any case, returns the data; the search for a name that is not below
    it returns what it returned before. *)
Theorem rbt_add_find_roundtrip (hctx : isc_hash) (smem nmem : Z) (stable ntable : bool) (t t' : dns_rbt) (T : trie)
    (name name' : dns_name_t) (q q' : namekey) (d : Z) :
  rbt_ok hctx t T -> keyed name true q -> keyed name' true q' -> fresh t smem nmem -> d <> 0 ->
  dns_rbt_addname hctx smem nmem stable ntable t name d = Done (ISC_R_SUCCESS, t') ->
  (fold_key q' = fold_key q -> dns_rbt_findname hctx t' name' DNS_RBTFIND_NOOPTIONS None = Done (ISC_R_SUCCESS, d, None))
  /\ (~ prefix_key q q' -> dns_rbt_findname hctx t' name' DNS_RBTFIND_NOOPTIONS None
                           = dns_rbt_findname hctx t name' DNS_RBTFIND_NOOPTIONS None).
Proof.
  intros RO K K' F Hd Hadd.
  destruct (addname_spec hctx smem nmem stable ntable t T name q d RO K F Hd) as (result & t2 & T' & E & RO' & Hres).
  rewrite Hadd in E. injection E as <- <-. destruct Hres as [_ Hent].
  pose proof (ro_trie _ _ _ RO') as ok'.
  destruct (findname_spec hctx t' T' name' q' ok' (rbt_ok_ready _ _ _ RO') K') as (r' & d' & Ef' & Hf').
  split.
  - intros Eq. rewrite Ef'. assert (Hq : entry t' T' q' d) by (apply Hent; by left).
    assert (Hp : prefix_key q' q') by by apply prefix_of_fold. unfold found in Hf'. destruct r'; try done.
    + by rewrite (entry_unique _ _ _ ok' _ _ _ _ _ Hf' Hq).
    + destruct Hf' as [_ Hno]. by destruct (Hno q' d).
    + destruct Hf' as (k & _ & _ & Hl & Hm). specialize (Hm _ _ Hq Hp). lia.
  - intros Hnp.
    destruct (findname_spec hctx t T name' q' (ro_trie _ _ _ RO) (rbt_ok_ready _ _ _ RO) K') as (r & d0 & Ef & Hf).
    rewrite Ef', Ef. destruct (found_unique t t' T T' q' r r' d0 d' (ro_trie _ _ _ RO)) as [-> ->]; try done.
    intros k e Hp. rewrite Hent. split; [|by right]. intros [[Ek _]|?]; [|done].
    exfalso. apply Hnp. unfold prefix_key in *. by rewrite <- Ek.
Qed.

(** ** Witnesses: a tree with the name [www.ex.] *)

Definition sample_hash : isc_hash := mkHash 255 (map (fun i => (i * 40503 + 12345) mod 65536) (seqZ 0 256)).

Definition name_www : dns_name_t := mk_name [[119; 119; 119]; [101; 120]] true.
Definition name_WWW : dns_name_t := mk_name [[87; 87; 87]; [69; 88]] true.
Definition name_ftp : dns_name_t := mk_name [[102; 116; 112]; [101; 120]] true.

Lemma sample_keyed body : forallb good_labelb body = true -> (Zlen (wire (labels_of body true)) <=? 255) = true ->
  keyed (mk_name body true) true (rev (labels_of body true)).
Proof. intros Hg Hl. exists body. split; [|done]. by apply mk_name_wf. Qed.

Definition empty_tree : dns_rbt := mkRbt ∅ 0 0 (Some (replicate (Z.to_nat RBT_HASH_SIZE) 0)).

Definition sample_tree : dns_rbt :=
  match dns_rbt_addname sample_hash 2 1 true true empty_tree name_www 7 with Done (_, t) => t | _ => empty_tree end.

Lemma sample_hash_ok : hash_ok sample_hash.
Proof. by split; vm_compute. Qed.

Lemma sample_ok : exists T, rbt_ok sample_hash sample_tree T.
Proof.
  destruct (create_ok sample_hash true true empty_tree sample_hash_ok eq_refl) as [RO _].
  destruct (addname_spec sample_hash 2 1 true true empty_tree empty_trie name_www _ 7 RO
              (sample_keyed [[119; 119; 119]; [101; 120]] eq_refl eq_refl)) as (result & t' & T' & E & RO' & _);
    [by split|done|].
  exists T'. unfold sample_tree. by rewrite E.
Qed.

Lemma sample_fresh : fresh sample_tree 2 3.
Proof. split; [intros _; by vm_compute|intros _; by vm_compute|done]. Qed.

Lemma rbt_findnode_longest_match_witness : exists T result node c,
  rbt_ok sample_hash sample_tree T
  /\ dns_rbt_findnode sample_hash sample_tree name_WWW None false DNS_RBTFIND_NOOPTIONS None = Done (result, node, None, c)
  /\ longest_match (nodes sample_tree) T DNS_RBTFIND_NOOPTIONS [[]; [69; 88]; [87; 87; 87]] result node.
Proof.
  destruct sample_ok as [T RO]. exists T.
  destruct (rbt_findnode_longest_match sample_hash sample_tree T name_WWW [[]; [69; 88]; [87; 87; 87]] false
              DNS_RBTFIND_NOOPTIONS) as (result & node & c & E & Hm).
  - apply RO.
  - by apply rbt_ok_ready.
  - exact (sample_keyed [[87; 87; 87]; [69; 88]] eq_refl eq_refl).
  - done.
  - by left.
  - exists result, node, c. split; [exact RO|split; [exact E|exact Hm]].
Defined.

Lemma rbt_hash_search_equivalent_witness :
  dns_rbt_findnode sample_hash sample_tree name_ftp None false DNS_RBTFIND_EMPTYDATA None
  = dns_rbt_findnode sample_hash (without_hash sample_tree) name_ftp None false DNS_RBTFIND_EMPTYDATA None.
Proof.
  destruct sample_ok as [T [ok HO (table & Et & HR)]].
  apply (rbt_hash_search_equivalent sample_hash sample_tree T table name_ftp [[]; [101; 120]; [102; 116; 112]]); try done.
  - exact (sample_keyed [[102; 116; 112]; [101; 120]] eq_refl eq_refl).
  - by left.
Defined.

Lemma rbt_addnode_correct_witness : exists T result node t',
  dns_rbt_addnode sample_hash 2 3 true true sample_tree name_ftp = Done (result, node, t')
  /\ added sample_hash sample_tree T [[]; [101; 120]; [102; 116; 112]] 2 3 result node t'.
Proof.
  destruct sample_ok as [T RO]. exists T.
  apply (rbt_addnode_correct sample_hash 2 3 true true sample_tree T name_ftp [[]; [101; 120]; [102; 116; 112]]).
  - done.
  - exact (sample_keyed [[102; 116; 112]; [101; 120]] eq_refl eq_refl).
  - exact sample_fresh.
Defined.

Lemma rbt_addname_refines_insert_witness : exists T result t' T',
  dns_rbt_addname sample_hash 2 3 true true sample_tree name_ftp 9 = Done (result, t') /\ rbt_ok sample_hash sample_tree T
  /\ rbt_ok sample_hash t' T'.
Proof.
  destruct sample_ok as [T RO]. exists T.
  destruct (rbt_addname_refines_insert sample_hash 2 3 true true sample_tree T name_ftp [[]; [101; 120]; [102; 116; 112]] 9)
    as (result & t' & T' & E & RO' & _).
  - done.
  - exact (sample_keyed [[102; 116; 112]; [101; 120]] eq_refl eq_refl).
  - exact sample_fresh.
  - done.
  - exists result, t', T'. split; [exact E|split; [exact RO|exact RO']].
Defined.

Definition sample_tree2 : dns_rbt :=
  match dns_rbt_addname sample_hash 2 3 true true sample_tree name_ftp 9 with Done (_, t) => t | _ => empty_tree end.

Lemma rbt_add_find_roundtrip_witness :
  dns_rbt_findname sample_hash sample_tree2 name_WWW DNS_RBTFIND_NOOPTIONS None
  = dns_rbt_findname sample_hash sample_tree name_WWW DNS_RBTFIND_NOOPTIONS None.
Proof.
  destruct sample_ok as [T RO].
  apply (rbt_add_find_roundtrip sample_hash 2 3 true true sample_tree sample_tree2 T name_ftp name_WWW
           [[]; [101; 120]; [102; 116; 112]] [[]; [69; 88]; [87; 87; 87]] 9).
  - done.
  - exact (sample_keyed [[102; 116; 112]; [101; 120]] eq_refl eq_refl).
  - exact (sample_keyed [[87; 87; 87]; [69; 88]] eq_refl eq_refl).
  - exact sample_fresh.
  - done.
  - unfold sample_tree2. assert (E : exists t, dns_rbt_addname sample_hash 2 3 true true sample_tree name_ftp 9 = Done (ISC_R_SUCCESS, t))
      by (eexists; vm_compute; reflexivity). destruct E as [t E]. rewrite E. reflexivity.
  - unfold prefix_key. intros [r E]. discriminate E.
Defined.
