(* ===== verification/RbtRemove.v ===== *)
(** * Deletion from the tree of trees

    [dns_rbt_deletenode] (without [recurse]) on the tries of [RbtTrie.v]: a node
    with names below it loses its data, a node without leaves its level, the hash
    table and the store. *)

From stdpp Require Import sorting.
From S2P Require Import Prelude Buffer Name NameTheory Hash Rbt RbtTheory RbtDelete RbtTree RbtNames RbtTrie RbtFind RbtAdd.

(** ** A trie without one of its nodes *)

Definition del_trie (T : trie) (u : Z) (t' : tree) : trie :=
  mkTrie (fun v => if decide (v = u) then t' else lev T v) (key T).

(** What taking the node [x] from its level does to the store. *)
Record level_drop (h h' : store) (root root' : Z) (u : Z) (t' : tree) (x : Z) : Prop := {
  ld_level : tree_rep h' u t';
  ld_rb : exists n, rb BLACK n t';
  ld_root : root' = if decide (u = 0) then ptr t' else root;
  ld_links : forall y, y ∉ inorder t' -> y <> x -> links <$> h' !! y = links <$> h !! y;
  ld_old : forall y n, h' !! y = Some n -> y <> x /\ exists n0, h !! y = Some n0 /\ NODENAME n = NODENAME n0
    /\ down n = if decide (y = u) then ptr t' else down n0
}.

Section remove_node.
Context (h : store) (root : Z) (T : trie) (ok : trie_ok h root T).
Context (u x : Z) (t' : tree) (a b : list Z).
Context (El : inorder (lev T u) = a ++ x :: b) (Et : inorder t' = a ++ b) (Hleaf : lev T x = Leaf).
Let T' := del_trie T u t'.

Lemma removed_member : x ∈ inorder (lev T u).
Proof. rewrite El. set_solver. Qed.

Lemma up_not_removed : u <> x.
Proof. intros E. pose proof removed_member as Hx. rewrite E, Hleaf in Hx. by apply elem_of_nil in Hx. Qed.

Lemma del_member y v : y ∈ inorder (lev T' v) <-> y ∈ inorder (lev T v) /\ y <> x.
Proof.
  cbn. destruct (decide (v = u)) as [->|Hv].
  - pose proof (t_nodup _ _ _ (to_level _ _ _ ok u)) as ND. rewrite El in ND. rewrite El, Et.
    apply NoDup_app in ND as (_ & Ha & [Hb _]%NoDup_cons). rewrite !elem_of_app, elem_of_cons. split.
    + intros H. split; [tauto|]. intros ->. destruct H as [H|H]; [|done]. by apply (Ha x); [|left].
    + tauto.
  - split; [|by intros [? _]]. intros Hy. split; [done|]. intros ->. apply Hv.
    eapply (to_apart _ _ _ ok); [exact Hy|exact removed_member].
Qed.

Lemma del_path ns k y : path T' ns k y <-> path T ns k y /\ y <> x.
Proof.
  assert (Hx0 : x <> 0) by (by apply (member_node _ _ _ ok u x removed_member)).
  split.
  - induction 1 as [|ns k v y P [IH Hv] Hy]; [split; [constructor|done]|]. apply del_member in Hy as [Hy Hne].
    split; [by apply (path_node T ns k v y)|done].
  - intros [P Hy]. induction P as [|ns k v y P IH Hm]; [constructor|].
    apply (path_node T' ns k v y); [|by apply del_member]. apply IH. intros ->. rewrite Hleaf in Hm. by apply elem_of_nil in Hm.
Qed.

Lemma del_other y v : v <> u -> y ∈ inorder (lev T v) -> y ∉ inorder t' /\ y <> x.
Proof.
  intros Hv Hy. split; [|intros ->; apply Hv; eapply (to_apart _ _ _ ok); [exact Hy|exact removed_member]].
  rewrite Et. intros Hin. apply Hv. eapply (to_apart _ _ _ ok); [exact Hy|]. rewrite El. set_solver.
Qed.

Lemma sorted_without (R : Z -> Z -> Prop) : StronglySorted R (a ++ x :: b) -> StronglySorted R (a ++ b).
Proof.
  rewrite !StronglySorted_app, StronglySorted_cons. intros (H & Sa & _ & Sb). split_and!; [|done..].
  intros p q Hp Hq. apply H; [done|by right].
Qed.

Lemma del_trie_ok h' root' : level_drop h h' root root' u t' x -> trie_ok h' root' T'.
Proof.
  intros [L1 L2 L3 L4 L5]. split.
  - destruct (h' !! 0) as [n|] eqn:Hn; [|done]. destruct (L5 0 n Hn) as (_ & n0 & Hn' & _).
    by rewrite (to_null _ _ _ ok) in Hn'.
  - rewrite L3. cbn. destruct (decide (u = 0)) as [<-|Hu]; [by rewrite decide_True|].
    rewrite decide_False by congruence. apply (to_root _ _ _ ok).
  - intros v. cbn. destruct (decide (v = u)) as [->|Hv]; [done|].
    eapply tree_rep_links; [|apply (to_level _ _ _ ok)]. intros y Hy. destruct (del_other y v Hv Hy). by apply L4.
  - intros v. cbn. destruct (decide (v = u)) as [->|Hv]; [done|apply (to_rb _ _ _ ok)].
  - intros v w y [Hv _]%del_member [Hw _]%del_member. by eapply (to_apart _ _ _ ok).
  - intros y n Hn. destruct (L5 y n Hn) as (Hy & n0 & Hn' & _). destruct (to_reach _ _ _ ok y n0 Hn') as (ns & k & P).
    exists ns, k. by apply del_path.
  - intros v y n [Hm Hy]%del_member Hn. destruct (L5 y n Hn) as (_ & n0 & Hn' & En & Ed).
    destruct (to_node _ _ _ ok v y n0 Hm Hn') as (Hd & Kx & Hk). cbn. rewrite En, Ed. split_and!; [|done..].
    by destruct (decide (y = u)).
  - intros v. cbn. change (head_lt T') with (head_lt T). destruct (decide (v = u)) as [->|Hv]; [|apply (to_order _ _ _ ok)].
    rewrite Et. apply sorted_without. rewrite <- El. apply (to_order _ _ _ ok).
  - intros ns k y [P _]%del_path. by eapply (to_size _ _ _ ok).
Qed.
End remove_node.

(** ** The hash table without a node *)

(** The chain of a bucket goes through the node. *)
Lemma chain_split h c1 x c2 : forall p, chain h p (c1 ++ x :: c2) ->
  exists n, x <> 0 /\ h !! x = Some n /\ chain h (hashnext (info n)) c2.
Proof.
  induction c1 as [|y c1 IH]; intros p; cbn.
  - intros (_ & Hx & n & Hn & Hc). by exists n.
  - intros (_ & _ & n & _ & Hc). by apply IH in Hc.
Qed.

Lemma unhash_loop h x c2 : forall c1 y p fuel, chain h p (c1 ++ y :: x :: c2) -> NoDup (c1 ++ y :: x :: c2) ->
  (length c1 < fuel)%nat -> loop fuel (unhash_body h x) p = Done y.
Proof.
  induction c1 as [|z c1 IH]; intros y p [|fuel] Hc ND Hf; cbn [length] in *; try lia;
    destruct Hc as (-> & _ & n & Hn & Hc); cbn [loop]; unfold unhash_body at 1; rewrite (node_at_Done _ _ _ Hn); cbn [obind].
  - destruct Hc as (E & _). by rewrite (proj2 (Z.eqb_eq _ _) E).
  - assert (Hnext : hashnext (info n) <> x /\ hashnext (info n) <> 0).
    { apply NoDup_cons in ND as [_ ND]. destruct c1 as [|w c1]; destruct Hc as (-> & H0 & _); (split; [|done]); intros ->;
        apply NoDup_cons in ND as [ND _]; apply ND; set_solver. }
    rewrite (proj2 (Z.eqb_neq _ x)) by apply Hnext. rewrite require_true by (rewrite (proj2 (Z.eqb_neq _ 0)) by apply Hnext; done).
    cbn [obind]. apply IH; [done|by apply NoDup_cons in ND as [_ ND]|lia].
Qed.

(** A chain without one of its nodes. *)
Lemma chain_unlink h c1 x c2 y n nx : forall p, chain h p (c1 ++ y :: x :: c2) -> NoDup (c1 ++ y :: x :: c2) ->
  h !! y = Some n -> h !! x = Some nx ->
  chain (<[y := with_info (set_hashnext (hashnext (info nx))) n]> h) p (c1 ++ y :: c2).
Proof.
  induction c1 as [|z c1 IH]; intros p Hc ND Hn Hnx.
  - destruct Hc as (-> & Hy & n' & Hn' & Hc). simplify_eq. split_and!; [done..|].
    eexists. rewrite lookup_insert_eq. split; [done|]. destruct Hc as (_ & _ & n2 & Hn2 & Hc). simplify_eq. cbn.
    eapply chain_agree; [|exact Hc]. intros w Hw. rewrite lookup_insert_ne; [done|]. intros ->.
    apply NoDup_cons in ND as [ND _]. apply ND. set_solver.
  - destruct Hc as (-> & Hz & nz & Hnz & Hc). apply NoDup_cons in ND as [Hne ND]. split_and!; [done..|].
    exists nz. rewrite lookup_insert_ne by set_solver. split; [done|]. by apply IH.
Qed.

Lemma drop_rep h h' D table table' i0 p p' c1 x c2 :
  table_rep h D table -> (forall y, hv h' y = hv h y) -> length table' = length table ->
  table !! i0 = Some p -> chain h p (c1 ++ x :: c2) -> NoDup (c1 ++ x :: c2) ->
  (forall y, y ∈ c1 ++ x :: c2 <-> y ∈ D /\ exists v, hv h y = Some v /\ v mod Zlen table = Z.of_nat i0) ->
  (forall i, i <> i0 -> table' !! i = table !! i) -> table' !! i0 = Some p' -> chain h' p' (c1 ++ c2) ->
  (forall y, y ∉ c1 ++ x :: c2 -> hash_at h' y = hash_at h y) -> table_rep h' (D ∖ {[x]}) table'.
Proof.
  intros [Hs Hc] Hv El Hp Hch ND Hx Ho Hp' Hch' Hsame.
  assert (Ez : Zlen table' = Zlen table) by (unfold Zlen; by rewrite El). split; [by rewrite Ez|].
  assert (Hperm : c1 ++ x :: c2 ≡ₚ x :: c1 ++ c2) by (by rewrite Permutation_middle).
  rewrite Hperm in ND. apply NoDup_cons in ND as [Hxc ND].
  intros i r Hr. rewrite Ez. destruct (decide (i = i0)) as [->|Hi].
  - rewrite Hp' in Hr. injection Hr as <-. exists (c1 ++ c2). split_and!; [done..|]. intros y. rewrite Hv, elem_of_difference, elem_of_singleton.
    specialize (Hx y). rewrite Hperm, elem_of_cons in Hx. split.
    + intros Hy. destruct (proj1 Hx (or_intror Hy)) as [HD Hw]. split; [|done]. split; [done|]. by intros ->.
    + intros [[HD Hne] Hw]. by destruct (proj2 Hx (conj HD Hw)).
  - rewrite Ho in Hr by done. destruct (Hc i r Hr) as (c & Hcc & Hcd & Hcx). exists c.
    assert (Hout : forall y, y ∈ c -> y ∉ c1 ++ x :: c2).
    { intros y Hy [_ (v & Ev & Hv0)]%Hx. apply Hcx in Hy as [_ (w & Ew & Hw)]. rewrite Ev in Ew. injection Ew as <-. lia. }
    split_and!; [|done|].
    + eapply chain_hash_at; [|exact Hcc]. intros y Hy. apply Hsame. by apply Hout.
    + intros y. rewrite Hv, Hcx, elem_of_difference, elem_of_singleton. split; [|by intros [[? _] ?]].
      intros [HD Hw]. split; [|done]. split; [done|]. intros ->. apply (Hout x); [by apply Hcx|set_solver].
Qed.

Lemma unhash_spec t table D x v : hashtable t = Some table -> table_rep (nodes t) D table ->
  x ∈ D -> hv (nodes t) x = Some v -> 0 <= v ->
  exists h' table', unhash_node t x = Done (mkRbt h' (root t) (nodecount t) (Some table'))
    /\ table_rep h' (D ∖ {[x]}) table' /\ rehashed (nodes t) h'.
Proof.
  intros Et R HD Hv Hv0. pose proof (tr_size _ _ _ R) as Hs. unfold unhash_node. rewrite Et.
  assert (Hn : exists n, nodes t !! x = Some n /\ hashval (info n) = v).
  { unfold hv in Hv. destruct (nodes t !! x) as [n|]; [|done]. injection Hv as <-. by exists n. }
  destruct Hn as (n & Hn & Ev). rewrite (node_at_Done _ _ _ Hn). cbn [obind]. rewrite require_true by lia. cbn [obind].
  rewrite Ev. pose proof (Z.mod_pos_bound v (Zlen table) Hs) as Hb.
  destruct (rd_ok table _ Hb) as [p Hp]. rewrite Hp. apply rd_Done in Hp as [_ Hp]. cbn [obind].
  set (i0 := Z.to_nat (v mod Zlen table)) in *. destruct (tr_chain _ _ _ R i0 p Hp) as (c & Hch & ND & Hx).
  assert (Hxc : x ∈ c). { apply Hx. split; [done|]. exists v. split; [done|]. unfold i0. lia. }
  assert (Hlen : (length c <= size (dom (nodes t)))%nat).
  { rewrite <- (size_list_to_set (C := gset Z) c) by done. apply subseteq_size. intros y Hy%elem_of_list_to_set. by eapply chains_in_store. }
  rewrite size_dom in Hlen. apply list_elem_of_split in Hxc as (c1 & c2 & ->).
  destruct (chain_split _ _ _ _ _ Hch) as (n' & Hx0 & Hn' & Hc2). simplify_eq.
  destruct c1 as [|y c1 _] using rev_ind.
  - destruct Hch as (-> & _). rewrite Z.eqb_refl. rewrite wr_ok by done. cbn [obind]. eexists _, _. split; [done|].
    split; [|done]. eapply (drop_rep (nodes t) (nodes t) D table _ i0 _ _ [] x c2); try done.
    + by rewrite length_insert.
    + split_and!; [done..|]. by exists n.
    + intros i Hi. fold i0. by rewrite list_lookup_insert_ne.
    + fold i0. apply list_lookup_insert_eq. by apply lookup_lt_is_Some_1; eexists.
  - rewrite <- app_assoc in Hch, ND, Hlen, Hx. cbn [app] in Hch, ND, Hlen, Hx.
    assert (Hpx : p <> x).
    { destruct c1 as [|z c1]; destruct Hch as (-> & _); apply NoDup_cons in ND as [ND _]; set_solver. }
    rewrite (proj2 (Z.eqb_neq _ _)) by done.
    rewrite (unhash_loop _ _ _ _ _ _ _ Hch ND); [|rewrite length_app in Hlen; cbn in Hlen; unfold rbt_fuel; lia].
    cbn [obind]. destruct (chain_split _ _ _ _ _ Hch) as (ny & Hy0 & Hny & _). unfold assign. rewrite (node_at_Done _ _ _ Hny).
    cbn [obind]. set (h' := <[y := _]> (nodes t)).
    assert (HR : rehashed (nodes t) h').
    { split; [by eapply core_insert|]. intros w. unfold hv, h'. destruct (decide (w = y)) as [->|Hw];
        [by rewrite lookup_insert_eq, Hny|by rewrite lookup_insert_ne]. }
    eexists _, _. split; [unfold with_nodes; by rewrite Et|]. split; [|done].
    eapply (drop_rep (nodes t) h' D table table i0 p p (c1 ++ [y]) x c2); try done; rewrite <- ?app_assoc; cbn [app]; try done.
    + apply HR.
    + by eapply chain_unlink.
    + intros w Hw. unfold hash_at, h'. rewrite lookup_insert_ne; [done|]. set_solver.
Qed.

(** ** [dns_rbt_deletenode] *)

(** The level without the node, and the root pointer of the level, before the node
    leaves the hash table and the store. *)
Lemma drop_level_change (h h2 h3 : store) root u x T t' a b :
  trie_ok h root T -> inorder (lev T u) = a ++ x :: b -> inorder t' = a ++ b -> lev T x = Leaf ->
  tree_rep h2 u t' -> (exists n, rb BLACK n t') -> evolves (inorder (lev T u)) h h2 ->
  (forall y, links <$> h3 !! y = links <$> h2 !! y) ->
  (forall y n', h3 !! y = Some n' -> exists n, h2 !! y = Some n /\ info n' = info n
      /\ down n' = if decide (y = u /\ u <> 0) then ptr t' else down n) ->
  forall h4 : store, (forall y, shape <$> h4 !! y = shape <$> h3 !! y) ->
  level_drop h (delete x h4) root (if decide (u = 0) then ptr t' else root) u t' x.
Proof.
  intros ok El Et Hleaf R2 Hrb [Eo Ep] Hl3 Hd3 h4 Hs.
  assert (Hlinks : forall y, links <$> h4 !! y = links <$> h2 !! y).
  { intros y. rewrite <- Hl3. specialize (Hs y). destruct (h4 !! y), (h3 !! y); try done.
    apply (inj Some) in Hs. cbn. f_equal. exact (f_equal (fun s => fst (fst s)) Hs). }
  assert (Hxt : x ∉ inorder t').
  { pose proof (t_nodup _ _ _ (to_level _ _ _ ok u)) as ND. rewrite El in ND. rewrite Et.
    apply NoDup_app in ND as (_ & Ha & [Hb _]%NoDup_cons). rewrite elem_of_app. intros [H|H]; [|done]. by apply (Ha x); [|left]. }
  split.
  - eapply tree_rep_links; [|exact R2]. intros y Hy. rewrite lookup_delete_ne; [apply Hlinks|]. by intros ->.
  - done.
  - done.
  - intros y Hy Hyx. rewrite lookup_delete_ne by done. rewrite Hlinks, Eo; [done|]. rewrite El. rewrite Et in Hy. set_solver.
  - intros y n Hy. apply lookup_delete_Some in Hy as [Hxy Hy]. split; [done|]. specialize (Hs y). rewrite Hy in Hs.
    destruct (h3 !! y) as [n3|] eqn:H3; [|done]. apply (inj Some) in Hs.
    pose proof (f_equal (fun s => snd (fst s)) Hs) as Hdn. pose proof (f_equal snd Hs) as Hnm. cbn in Hdn, Hnm.
    destruct (Hd3 y n3 H3) as (n2 & H2 & Ei & Ed). pose proof (f_equal (fun m => m !! y) Ep) as E. rewrite !lookup_fmap, H2 in E.
    destruct (h !! y) as [n0|] eqn:H0; [|done]. apply (inj Some) in E. injection E as Ed0 Ei0. exists n0. split_and!; [done| |].
    + rewrite Hnm. unfold NODENAME. by rewrite Ei, Ei0.
    + rewrite Hdn, Ed, Ed0. destruct (decide (y = u)) as [->|Hyu]; [|by rewrite decide_False by naive_solver].
      destruct (decide (u = 0)) as [->|Hu]; [by rewrite (to_null _ _ _ ok) in H0|by rewrite decide_True].
Qed.

(** The node leaves the hash table and the store. *)
Lemma release_spec hctx t T table x h root' T' :
  rbt_ok hctx t T -> hashtable t = Some table -> is_Some (nodes t !! x) ->
  (forall y, info_at h y = info_at (nodes t) y) ->
  (forall h4 : store, (forall y, shape <$> h4 !! y = shape <$> h !! y) -> trie_ok (delete x h4) root' T') ->
  (forall ns k y, path T' ns k y -> path T ns k y) ->
  exists t', release_node (mkRbt h root' (nodecount t) (hashtable t)) x = Done t' /\ rbt_ok hctx t' T'
    /\ (forall y, y <> x -> data_at (nodes t') y = data_at (nodes t) y).
Proof.
  intros [ok HO (table' & Et & HR)] Et' [n Hn] Hi Hok Hpath. rewrite Et in Et'. injection Et' as <-.
  apply hash_rep_table in HR as [R Hval].
  assert (Hhv : forall y, hash_at h y = hash_at (nodes t) y).
  { intros y. specialize (Hi y). unfold info_at in Hi. unfold hash_at. destruct (h !! y), (nodes t !! y); try done. cbn in *. by injection Hi as ->. }
  assert (Hdom : dom h = dom (nodes t)).
  { apply set_eq. intros y. rewrite !elem_of_dom. specialize (Hi y). unfold info_at in Hi. destruct (h !! y), (nodes t !! y); try done. }
  set (t1 := mkRbt h root' (nodecount t) (hashtable t)).
  destruct (unhash_spec t1 table' (dom (nodes t)) x (hashval (info n))) as (h4 & tab4 & E & R4 & HC & HV).
  - done.
  - eapply table_rep_hash_at; [|exact R]. intros y _. apply Hhv.
  - by eapply elem_of_dom_2.
  - cbn [nodes t1]. rewrite (hash_at_hv _ _ _ (Hhv x)). unfold hv. by rewrite Hn.
  - destruct (to_reach _ _ _ ok x n Hn) as (ns & k & P). rewrite (Hval _ _ _ _ Hn P). apply key_hash_range.
  - unfold release_node. rewrite E. cbn [obind]. eexists. split; [done|]. split; [split; [|done|]|].
    + cbn. apply Hok. intros y. pose proof (f_equal (fun m => m !! y) HC) as Ec. rewrite !lookup_fmap in Ec. cbn [nodes t1] in Ec.
      destruct (h4 !! y), (h !! y); try done. apply (inj Some) in Ec. apply core_fields in Ec as (E1 & E2 & E3 & _).
      cbn. unfold shape. by rewrite E1, E2, E3.
    + exists tab4. split; [done|]. apply hash_rep_table. cbn. split.
      * rewrite dom_delete_L. replace (dom h4) with (dom (nodes t)); [eapply table_rep_hash_at; [|exact R4]|].
        { intros y Hy. unfold hash_at. rewrite lookup_delete_ne; [done|]. set_solver. }
        rewrite <- Hdom, <- (dom_fmap_L core h4), HC, dom_fmap_L. done.
      * intros ns k y ny Hy P. apply lookup_delete_Some in Hy as [_ Hy]. pose proof (HV y) as E2. cbn [nodes t1] in E2.
        rewrite (hash_at_hv _ _ _ (Hhv y)) in E2. unfold hv in E2. rewrite Hy in E2.
        destruct (nodes t !! y) as [n0|] eqn:H0; [|done]. injection E2 as ->. eapply Hval; [exact H0|by apply Hpath].
    + intros y Hy. cbn. unfold data_at at 1. rewrite lookup_delete_ne by done. fold (data_at h4 y). rewrite (core_data _ _ _ HC). cbn [nodes t1].
      specialize (Hi y). unfold info_at in Hi. unfold data_at. destruct (h !! y), (nodes t !! y); try done. cbn in *. by injection Hi as ->.
Qed.

(** The tree lost the node [x] and nothing else. *)
Record shrinks (h h' : store) (T T' : trie) (x : Z) : Prop := {
  sh_path : forall ns k y, path T' ns k y <-> path T ns k y /\ y <> x;
  sh_data : forall y, y <> x -> data_at h' y = data_at h y
}.

Lemma deletenode_leaf hctx deleter t T u x n recurse : rbt_ok hctx t T -> x ∈ inorder (lev T u) ->
  nodes t !! x = Some n -> down n = 0 ->
  exists t' T', dns_rbt_deletenode deleter t x recurse = Done (delete_data deleter (info n), t')
    /\ rbt_ok hctx t' T' /\ shrinks (nodes t) (nodes t') T T' x.
Proof.
  intros RO Hx Hn Hd. pose proof (ro_trie _ _ _ RO) as ok. destruct (ro_table _ _ _ RO) as (table & Et & _).
  destruct (level_owner _ _ _ ok u x Hx) as (ns & k & P & _ & Hu).
  assert (Hleaf : lev T x = Leaf).
  { destruct (to_node _ _ _ ok u x n Hx Hn) as (E & _). rewrite Hd in E. destruct (lev T x) as [|c l y r] eqn:El; [done|].
    exfalso. cbn in E. subst y. apply (no_zero _ _ _ ok x). rewrite El. cbn. set_solver. }
  unfold dns_rbt_deletenode. rewrite (node_at_Done _ _ _ Hn). cbn [obind]. rewrite Hd. cbn [negb andb Z.eqb obind].
  rewrite (find_up_spec t T ok u x Hx). cbn [obind]. rewrite (get_root_spec t T u ns k ok P). cbn [obind].
  destruct (elem_position x (lev T u) Hx) as (fr & c & l & r & El). destruct (to_rb _ _ _ ok u) as [m Hrb].
  pose proof (to_level _ _ _ ok u) as HT. rewrite El in HT, Hrb.
  destruct (deletefromlevel_spec (nodes t) u fr c l x r m HT Hrb) as (h2 & t' & m' & E2 & R2 & Hrb2 & Et' & Ev).
  rewrite El, E2. cbn [obind]. rewrite <- El in Ev.
  assert (Eio : inorder (lev T u) = (before fr ++ inorder l) ++ x :: (inorder r ++ after fr)).
  { rewrite El, inorder_plug. cbn. by rewrite <- !app_assoc. }
  assert (Et2 : inorder t' = (before fr ++ inorder l) ++ (inorder r ++ after fr)) by (rewrite Et'; by rewrite <- !app_assoc).
  assert (Hu2 : u <> 0 -> is_Some (h2 !! u)).
  { intros Hu0. destruct Hu as [?|Hu]; [done|]. apply elem_of_dom. apply elem_of_dom in Hu.
    by rewrite <- (dom_fmap_L payload h2), (e_payload _ _ _ Ev), dom_fmap_L. }
  destruct (put_root_spec h2 t u (ptr t') Hu2) as (h3 & E3 & Hi3 & Hl3 & Hd3). rewrite E3. cbn [obind nodes].
  assert (Hinfo : forall y, info_at h3 y = info_at (nodes t) y).
  { intros y. rewrite Hi3. pose proof (f_equal (fun m => m !! y) (e_payload _ _ _ Ev)) as Ep. rewrite !lookup_fmap in Ep.
    unfold info_at. destruct (h2 !! y), (nodes t !! y); try done. cbn in *. by injection Ep as _ ->. }
  assert (Hn3 : exists n3, h3 !! x = Some n3 /\ info n3 = info n).
  { specialize (Hinfo x). unfold info_at in Hinfo. rewrite Hn in Hinfo. destruct (h3 !! x) as [n3|]; [|done].
    exists n3. split; [done|]. by injection Hinfo as ->. }
  destruct Hn3 as (n3 & Hn3 & Ein). rewrite (node_at_Done _ _ _ Hn3). cbn [obind]. rewrite Ein.
  destruct (release_spec hctx t T table x h3 (if decide (u = 0) then ptr t' else root t) (del_trie T u t'))
    as (t4 & E4 & RO4 & Hd4); try done.
  - intros h4 Hs. eapply (del_trie_ok (nodes t) (root t) T ok u x t' _ _ Eio Et2 Hleaf).
    eapply (drop_level_change (nodes t) h2 h3); try done. by eexists.
  - intros ns' k' y P'. by eapply (del_path (nodes t) (root t) T ok u x t' _ _ Eio Et2 Hleaf).
  - rewrite E4. cbn [obind app]. exists t4, (del_trie T u t'). split_and!; [done..|]. split; [|done].
    intros ns' k' y. by eapply (del_path (nodes t) (root t) T ok u x t' _ _ Eio Et2 Hleaf).
Qed.
