(* ===== verification/RbtHistory.v ===== *)
(** * The tree of trees as a map, over its whole life

    Deletion on the map of [RbtMap.v], and the refinement of a finite map by a
    sequence of insertions, deletions and searches. *)

From stdpp Require Import sorting.
From S2P Require Import Prelude Buffer Name NameTheory Hash Rbt RbtTheory RbtDelete RbtTree RbtNames RbtTrie RbtFind RbtAdd.
From S2P Require Import RbtSplit RbtInsert RbtMap RbtRemove.

(** ** [dns_rbt_deletename] *)

(** The map without the name: its node is gone, or is still there without data. *)
Lemma shrinks_entry hctx t t' T T' x q : rbt_ok hctx t T -> shrinks (nodes t) (nodes t') T T' x -> names T x q ->
  forall k d, entry t' T' k d <-> fold_key k <> fold_key q /\ entry t T k d.
Proof.
  intros RO [Sp Sd] Hx k d. pose proof (ro_trie _ _ _ RO) as ok. unfold entry, names. split.
  - intros (Hd & y & Hy & (ns & k0 & P & Ek) & Hdy). apply Sp in P as [P Hne]. split.
    + intros E. apply Hne. eapply (names_unique _ _ _ ok); [|exact Hx]. exists ns, k0. split; [done|congruence].
    + split; [done|]. exists y. split_and!; [done|by exists ns, k0|]. by rewrite <- Sd.
  - intros (E & Hd & y & Hy & (ns & k0 & P & Ek) & Hdy). split; [done|]. exists y.
    assert (Hne : y <> x).
    { intros ->. destruct Hx as (ns' & k' & P' & E'). destruct (path_unique _ _ _ ok _ _ _ P _ _ P') as [_ <-]. congruence. }
    split_and!; [done| |by rewrite Sd]. exists ns, k0. split; [|done]. by apply Sp.
Qed.

Lemma clear_data_entry hctx t T x n q : rbt_ok hctx t T -> names T x q -> nodes t !! x = Some n ->
  forall k d, entry (with_nodes (<[x := with_info (set_data 0) n]> (nodes t)) t) T k d
    <-> fold_key k <> fold_key q /\ entry t T k d.
Proof.
  intros RO Hx Hn k d. pose proof (ro_trie _ _ _ RO) as ok. unfold entry. cbn [nodes with_nodes]. split.
  - intros (Hd & y & Hy & Hyn & Hdy). rewrite (data_at_set _ _ _ _ _ Hn) in Hdy.
    destruct (decide (y = x)) as [->|Hne]; [by injection Hdy as <-|]. split; [|by eauto 6].
    intros E. apply Hne. eapply (names_unique _ _ _ ok); [|exact Hx]. by eapply names_fold.
  - intros (E & Hd & y & Hy & Hyn & Hdy). split; [done|]. exists y. split_and!; [done..|].
    rewrite (data_at_set _ _ _ _ _ Hn). rewrite decide_False; [done|]. intros ->.
    destruct Hx as (ns & k1 & P & E1), Hyn as (ns' & k2 & P' & E2).
    destruct (path_unique _ _ _ ok _ _ _ P _ _ P') as [_ <-]. congruence.
Qed.

(** The node of a name is deleted from the map, whether it has names below or not. *)
Lemma deletenode_spec hctx deleter t T x n q : rbt_ok hctx t T -> names T x q -> nodes t !! x = Some n ->
  exists t' T', dns_rbt_deletenode deleter t x false = Done (delete_data deleter (info n), t') /\ rbt_ok hctx t' T'
    /\ forall k d, entry t' T' k d <-> fold_key k <> fold_key q /\ entry t T k d.
Proof.
  intros RO Hx Hn. pose proof (ro_trie _ _ _ RO) as ok. destruct (Z.eqb_spec (down n) 0) as [Hd|Hd].
  - assert (Hm : exists u, x ∈ inorder (lev T u)).
    { destruct Hx as (ns & k & P & _). destruct (path_inv _ _ _ _ P) as [(_ & _ & ->)|(? & ? & u & _ & _ & _ & Hu)]; [|by exists u].
      by rewrite (to_null _ _ _ ok) in Hn. }
    destruct Hm as [u Hu]. destruct (deletenode_leaf hctx deleter t T u x n false RO Hu Hn Hd) as (t' & T' & E & RO' & S).
    exists t', T'. split_and!; [done..|]. by eapply shrinks_entry.
  - unfold dns_rbt_deletenode. rewrite (node_at_Done _ _ _ Hn). cbn [obind]. rewrite (proj2 (Z.eqb_neq _ _)) by done.
    cbn [negb andb]. unfold assign. rewrite (node_at_Done _ _ _ Hn). cbn [obind]. eexists _, T. split; [done|].
    split; [by apply set_data_ok|by eapply clear_data_entry].
Qed.

Lemma deletename_spec hctx deleter t T name q : rbt_ok hctx t T -> keyed name true q ->
  exists result dd t' T', dns_rbt_deletename hctx deleter t name false = Done (result, dd, t') /\ rbt_ok hctx t' T'
    /\ match result with
       | ISC_R_SUCCESS => exists d, entry t T q d /\ dd = (if deleter then [d] else [])
           /\ forall k d', entry t' T' k d' <-> fold_key k <> fold_key q /\ entry t T k d'
       | ISC_R_NOTFOUND => (forall d, ~ entry t T q d) /\ dd = [] /\ t' = t
       | _ => False
       end.
Proof.
  intros RO K. pose proof (ro_trie _ _ _ RO) as ok. unfold dns_rbt_deletename.
  rewrite require_true by (by rewrite (keyed_abs _ _ _ K)). cbn [obind].
  destruct (findnode_spec hctx t T name q false DNS_RBTFIND_NOOPTIONS ok (rbt_ok_ready _ _ _ RO) K)
    as (result & node & c & -> & Hm); [done|by left|]. cbn [obind].
  assert (Hq : prefix_key q q) by by apply prefix_of_fold.
  destruct result; try done; cbn in Hm.
  - destruct Hm as (k & C & E). destruct (candidate_entry _ _ _ _ _ C) as (d & Hent & Hd & _).
    destruct C as [[ns P] Hx _ _ _]. assert (Hnm : names T node q) by (by exists ns, k; split; [|symmetry]).
    destruct (nodes t !! node) as [n|] eqn:Hn; [|by unfold data_at in Hd; rewrite Hn in Hd].
    assert (Ed : data (info n) = d) by (unfold data_at in Hd; rewrite Hn in Hd; by injection Hd).
    assert (Hentq : entry t T q d).
    { destruct Hent as (? & _). split; [done|]. by exists node. }
    rewrite (node_at_Done _ _ _ Hn). cbn [obind]. rewrite Ed, (proj2 (Z.eqb_neq d 0)) by apply Hent.
    destruct (deletenode_spec hctx deleter t T node n q RO Hnm Hn) as (t' & T' & Edel & RO' & He). rewrite Edel. cbn [obind].
    eexists _, _, t', T'. split_and!; [done..|]. exists d. split_and!; [done| |done].
    unfold delete_data. rewrite Ed, (proj2 (Z.eqb_neq d 0)) by apply Hent. done.
  - destruct Hm as [-> Hno]. eexists _, _, _, T. split; [done|]. split; [done|]. split_and!; [|done..]. intros d Hent.
    destruct (entry_candidate _ _ _ _ _ Hent Hq) as (x & k' & C & _). by apply Hno in C.
  - destruct Hm as (k & C & Hl & Hmax). eexists _, _, _, T. split; [done|]. split; [done|]. split_and!; [|done..]. intros d Hent.
    destruct (entry_candidate _ _ _ _ _ Hent Hq) as (x & k2 & C2 & E2 & _). specialize (Hmax _ _ C2).
    rewrite <- (length_fold k2), E2, length_fold in Hmax. lia.
Qed.

(** ** A history of calls *)

(** The tree stands for a map from folded names to data. *)

Definition represents (t : dns_rbt) (T : trie) (m : gmap namekey Z) : Prop :=
  forall k d, entry t T k d <-> m !! fold_key k = Some d.

(** The data of the longest name of the map among the [n] last labels of [q]. *)
Fixpoint longest (m : gmap namekey Z) (q : namekey) (n : nat) : option (nat * Z) :=
  match m !! fold_key (take n q) with
  | Some d => Some (n, d)
  | None => match n with O => None | S n => longest m q n end
  end.

Definition map_find (m : gmap namekey Z) (q : namekey) : isc_result_t * Z :=
  match longest m q (length q) with
  | Some (n, d) => (if (n =? length q)%nat then ISC_R_SUCCESS else DNS_R_PARTIALMATCH, d)
  | None => (ISC_R_NOTFOUND, 0)
  end.

Lemma longest_some m q : forall n j d, longest m q n = Some (j, d) ->
  (j <= n)%nat /\ m !! fold_key (take j q) = Some d /\ forall i, (j < i <= n)%nat -> m !! fold_key (take i q) = None.
Proof.
  induction n as [|n IH]; intros j d; cbn [longest]; destruct (m !! _) as [e|] eqn:E; intros H; simplify_eq.
  - split_and!; [done..|lia].
  - split_and!; [done..|lia].
  - apply IH in H as (H1 & H2 & H3). split_and!; [lia|done|]. intros i Hi. destruct (decide (i = S n)) as [->|]; [done|]. apply H3. lia.
Qed.

Lemma longest_none m q : forall n, longest m q n = None -> forall i, (i <= n)%nat -> m !! fold_key (take i q) = None.
Proof.
  induction n as [|n IH]; cbn [longest]; destruct (m !! _) as [e|] eqn:E; intros H i Hi; simplify_eq.
  - by assert (i = 0)%nat as -> by lia.
  - destruct (decide (i = S n)) as [->|]; [done|]. apply IH; [done|lia].
Qed.

Lemma represents_find t T m q r d : represents t T m -> trie_ok (nodes t) (root t) T -> found t T q r d -> (r, d) = map_find m q.
Proof.
  intros Hr ok Hf.
  assert (Hfm : found t T q (map_find m q).1 (map_find m q).2).
  { unfold map_find. destruct (longest m q (length q)) as [[j e]|] eqn:E.
    - apply longest_some in E as (Hj & He & Hmax).
      assert (Hk : forall k d', entry t T k d' -> prefix_key k q -> (length k <= j)%nat).
      { intros k d' Hent [Hl Ek]%prefix_key_take. apply Hr in Hent. rewrite Ek in Hent.
        destruct (decide (length k <= j)%nat); [done|]. rewrite Hmax in Hent by lia. done. }
      destruct (Nat.eqb_spec j (length q)) as [->|Hne]; cbn.
      + rewrite take_ge in He by lia. by apply Hr.
      + exists (take j q). rewrite length_take_le by done. split_and!; [by apply Hr| |lia|done].
        apply prefix_key_take. rewrite length_take_le by done. done.
    - cbn. split; [done|]. intros k d' Hent [Hl Ek]%prefix_key_take. apply Hr in Hent. rewrite Ek in Hent.
      by rewrite (longest_none _ _ _ E) in Hent. }
  destruct (found_unique t t T T q _ _ _ _ ok (fun _ _ _ => iff_refl _) Hfm Hf) as [-> ->]. by destruct (map_find m q).
Qed.

Inductive rbt_call : Type :=
| CallAdd (name : dns_name_t) (d : Z)
| CallDelete (name : dns_name_t)
| CallFind (name : dns_name_t).

(** The same call on the map: the name as its key. *)
Inductive map_call : Type :=
| MapAdd (q : namekey) (d : Z)
| MapDelete (q : namekey)
| MapFind (q : namekey).

Inductive same_call : rbt_call -> map_call -> Prop :=
| same_add name q d : keyed name true q -> d <> 0 -> same_call (CallAdd name d) (MapAdd q d)
| same_delete name q : keyed name true q -> same_call (CallDelete name) (MapDelete q)
| same_find name q : keyed name true q -> same_call (CallFind name) (MapFind q).

(** The result code, and the data that a call returned or released. *)
Definition answer : Type := isc_result_t * list Z.

Definition map_step (m : gmap namekey Z) (c : map_call) : answer * gmap namekey Z :=
  match c with
  | MapAdd q d => match m !! fold_key q with
                  | Some _ => (ISC_R_EXISTS, [], m)
                  | None => (ISC_R_SUCCESS, [], <[fold_key q := d]> m)
                  end
  | MapDelete q => match m !! fold_key q with
                   | Some d => (ISC_R_SUCCESS, [d], delete (fold_key q) m)
                   | None => (ISC_R_NOTFOUND, [], m)
                   end
  | MapFind q => let '(r, d) := map_find m q in (r, [d], m)
  end.

Fixpoint map_run (m : gmap namekey Z) (cs : list map_call) : list answer * gmap namekey Z :=
  match cs with
  | [] => ([], m)
  | c :: cs => let '(a, m) := map_step m c in let '(l, m) := map_run m cs in (a :: l, m)
  end.

Section history.
(** The keyed hash, the addresses that the allocator returns for the two nodes of an
    insertion, and whether there is memory for a larger hash table. *)
Context (hctx : isc_hash) (alloc : store -> Z * Z) (table_mem : dns_rbt -> bool).

Definition rbt_step (t : dns_rbt) (c : rbt_call) : outcome (answer * dns_rbt) :=
  match c with
  | CallAdd name d =>
      let* (result, t') := dns_rbt_addname hctx (alloc (nodes t)).1 (alloc (nodes t)).2 (table_mem t) (table_mem t) t name d in
      Done (result, [], t')
  | CallDelete name =>
      let* (result, dd, t') := dns_rbt_deletename hctx true t name false in Done (result, dd, t')
  | CallFind name =>
      let* (result, d, _) := dns_rbt_findname hctx t name DNS_RBTFIND_NOOPTIONS None in Done (result, [d], t)
  end.

Fixpoint rbt_run (t : dns_rbt) (cs : list rbt_call) : outcome (list answer * dns_rbt) :=
  match cs with
  | [] => Done ([], t)
  | c :: cs =>
      let* (a, t) := rbt_step t c in
      let* (l, t) := rbt_run t cs in
      Done (a :: l, t)
  end.

(** An allocator that does not fail returns two unused addresses. *)
Context (alloc_fresh : forall t, fresh t (alloc (nodes t)).1 (alloc (nodes t)).2)
  (alloc_succeeds : forall h, (alloc h).1 <> 0 /\ (alloc h).2 <> 0).

Lemma rbt_step_spec t T m c mc : rbt_ok hctx t T -> represents t T m -> same_call c mc ->
  exists t' T', rbt_step t c = Done ((map_step m mc).1, t') /\ rbt_ok hctx t' T' /\ represents t' T' (map_step m mc).2.
Proof.
  intros RO Hr [name q d K Hd|name q K|name q K]; cbn [rbt_step map_step].
  - destruct (addname_spec hctx (alloc (nodes t)).1 (alloc (nodes t)).2 (table_mem t) (table_mem t) t T name q d RO K
                (alloc_fresh t) Hd) as (result & t' & T' & -> & RO' & Hres).
    cbn [obind]. destruct result; try done.
    + destruct Hres as [Hno He]. destruct (m !! fold_key q) as [e|] eqn:E; [by apply Hr in E; apply Hno in E|].
      exists t', T'. split_and!; [done..|]. intros k d'. rewrite He. cbn. destruct (decide (fold_key k = fold_key q)) as [Ek|Ek].
      * rewrite Ek, lookup_insert_eq. split; [|intros [= ->]; by left].
        intros [[_ ->]|Hent]; [done|]. apply Hr in Hent. congruence.
      * rewrite lookup_insert_ne by done. rewrite <- (Hr k d'). naive_solver.
    + destruct Hres as [[H|H] _]; by apply alloc_succeeds in H.
    + destruct Hres as [[e Hent] ->]. apply Hr in Hent. rewrite Hent. by exists t, T.
  - destruct (deletename_spec hctx true t T name q RO K) as (result & dd & t' & T' & -> & RO' & Hres). cbn [obind].
    destruct result; try done.
    + destruct Hres as (d & Hent & -> & He). apply Hr in Hent. rewrite Hent. exists t', T'. split_and!; [done..|].
      intros k d'. rewrite He, (Hr k d'). cbn [snd]. rewrite lookup_delete_Some. naive_solver.
    + destruct Hres as (Hno & -> & ->). destruct (m !! fold_key q) as [e|] eqn:E; [by apply Hr in E; apply Hno in E|].
      by exists t, T.
  - destruct (findname_spec hctx t T name q (ro_trie _ _ _ RO) (rbt_ok_ready _ _ _ RO) K) as (r & d & -> & Hf). cbn [obind].
    pose proof (represents_find _ _ _ _ _ _ Hr (ro_trie _ _ _ RO) Hf) as E. rewrite <- E. by exists t, T.
Qed.

Lemma rbt_run_spec cs mcs : Forall2 same_call cs mcs -> forall t T m, rbt_ok hctx t T -> represents t T m ->
  exists t' T', rbt_run t cs = Done ((map_run m mcs).1, t') /\ rbt_ok hctx t' T' /\ represents t' T' (map_run m mcs).2.
Proof.
  induction 1 as [|c mc cs mcs Hc _ IH]; intros t T m RO Hr; cbn [rbt_run map_run]; [by exists t, T|].
  destruct (rbt_step_spec t T m c mc RO Hr Hc) as (t1 & T1 & -> & RO1 & Hr1). cbn [obind].
  destruct (map_step m mc) as [a m1]. destruct (IH t1 T1 m1 RO1 Hr1) as (t2 & T2 & E2 & RO2 & Hr2).
  destruct (map_run m1 mcs) as [l m2]. cbn [fst snd] in *. rewrite E2. cbn [obind]. by exists t2, T2.
Qed.

Lemma represents_empty t T : (forall k d, ~ entry t T k d) -> represents t T ∅.
Proof. intros H k d. rewrite lookup_empty. split; [by intros ?%H|done]. Qed.
End history.

(** ** Claims *)

(** [dns_rbt_deletename] refines deletion from the map: it removes exactly the
    name, whether or not there are names below it, hands its data to the deleter and
    keeps the invariants; a name without data is not found and nothing changes. *)
Theorem rbt_deletename_refines_delete (hctx : isc_hash) (deleter : bool) (t : dns_rbt) (T : trie) (name : dns_name_t)
    (q : namekey) :
  rbt_ok hctx t T -> keyed name true q ->
  exists result dd t' T', dns_rbt_deletename hctx deleter t name false = Done (result, dd, t') /\ rbt_ok hctx t' T'
    /\ match result with
       | ISC_R_SUCCESS => exists d, entry t T q d /\ dd = (if deleter then [d] else [])
           /\ forall k d', entry t' T' k d' <-> fold_key k <> fold_key q /\ entry t T k d'
       | ISC_R_NOTFOUND => (forall d, ~ entry t T q d) /\ dd = [] /\ t' = t
       | _ => False
       end.
Proof. apply deletename_spec. Qed.

(** C9. The tree of trees is a map: every sequence of insertions, deletions and
    searches on a tree from [dns_rbt_create] returns, with the answers of a finite map
    from names, up to case, to data, a search being the search for the longest name of
    the map above the one asked for; the tree represents the map at the end.  The
    allocator is assumed to return unused memory. *)
Theorem rbt_history_refines_map (hctx : isc_hash) (alloc : store -> Z * Z) (table_mem : dns_rbt -> bool) (t : dns_rbt)
    (cs : list rbt_call) (mcs : list map_call) :
  hash_ok hctx -> (forall t, fresh t (alloc (nodes t)).1 (alloc (nodes t)).2) ->
  (forall h, (alloc h).1 <> 0 /\ (alloc h).2 <> 0) ->
  dns_rbt_create true true = (ISC_R_SUCCESS, Some t) -> Forall2 same_call cs mcs ->
  exists t' T', rbt_run hctx alloc table_mem t cs = Done ((map_run ∅ mcs).1, t') /\ rbt_ok hctx t' T'
    /\ represents t' T' (map_run ∅ mcs).2.
Proof.
  intros HO Hf Hs Hc Hcs. destruct (create_ok hctx true true t HO Hc) as [RO He].
  eapply rbt_run_spec; try done. by apply represents_empty.
Qed.

(** ** Witnesses *)

Lemma rbt_deletename_refines_delete_witness : exists T result dd t' T',
  dns_rbt_deletename sample_hash true sample_tree name_WWW false = Done (result, dd, t') /\ rbt_ok sample_hash sample_tree T
  /\ rbt_ok sample_hash t' T'.
Proof.
  destruct sample_ok as [T RO]. exists T.
  destruct (rbt_deletename_refines_delete sample_hash true sample_tree T name_WWW [[]; [69; 88]; [87; 87; 87]])
    as (result & dd & t' & T' & E & RO' & _).
  - exact RO.
  - exact (sample_keyed [[87; 87; 87]; [69; 88]] eq_refl eq_refl).
  - exists result, dd, t', T'. split; [exact E|split; [exact RO|exact RO']].
Defined.

Definition sample_alloc (h : store) : Z * Z :=
  let a := base.fresh ({[0]} ∪ dom h) in (a, base.fresh ({[0; a]} ∪ dom h)).

Lemma sample_alloc_fresh t : fresh t (sample_alloc (nodes t)).1 (sample_alloc (nodes t)).2.
Proof.
  unfold sample_alloc. cbn [fst snd]. set (a := base.fresh _).
  pose proof (is_fresh (C := gset Z) ({[0]} ∪ dom (nodes t))) as Ha. fold a in Ha.
  pose proof (is_fresh (C := gset Z) ({[0; a]} ∪ dom (nodes t))) as Hb.
  split; intros _; [apply not_elem_of_dom; set_solver|apply not_elem_of_dom; set_solver|set_solver].
Qed.

Lemma sample_alloc_succeeds h : (sample_alloc h).1 <> 0 /\ (sample_alloc h).2 <> 0.
Proof.
  unfold sample_alloc. cbn [fst snd]. set (a := base.fresh _).
  pose proof (is_fresh (C := gset Z) ({[0]} ∪ dom h)) as Ha. fold a in Ha.
  pose proof (is_fresh (C := gset Z) ({[0; a]} ∪ dom h)) as Hb. set_solver.
Qed.

Lemma rbt_history_refines_map_witness : exists t',
  rbt_run sample_hash sample_alloc (fun _ => true) empty_tree
    [CallAdd name_www 7; CallAdd name_ftp 9; CallFind name_WWW; CallDelete name_WWW; CallFind name_www; CallFind name_ftp]
  = Done ([(ISC_R_SUCCESS, []); (ISC_R_SUCCESS, []); (ISC_R_SUCCESS, [7]); (ISC_R_SUCCESS, [7]); (ISC_R_NOTFOUND, [0]);
           (ISC_R_SUCCESS, [9])], t').
Proof.
  destruct (rbt_history_refines_map sample_hash sample_alloc (fun _ => true) empty_tree
    [CallAdd name_www 7; CallAdd name_ftp 9; CallFind name_WWW; CallDelete name_WWW; CallFind name_www; CallFind name_ftp]
    [MapAdd [[]; [101; 120]; [119; 119; 119]] 7; MapAdd [[]; [101; 120]; [102; 116; 112]] 9;
     MapFind [[]; [69; 88]; [87; 87; 87]]; MapDelete [[]; [69; 88]; [87; 87; 87]];
     MapFind [[]; [101; 120]; [119; 119; 119]]; MapFind [[]; [101; 120]; [102; 116; 112]]]) as (t' & T' & E & _).
  - exact sample_hash_ok.
  - exact sample_alloc_fresh.
  - exact sample_alloc_succeeds.
  - reflexivity.
  - repeat (constructor; [constructor; first [exact (sample_keyed [[119; 119; 119]; [101; 120]] eq_refl eq_refl)
      |exact (sample_keyed [[102; 116; 112]; [101; 120]] eq_refl eq_refl)
      |exact (sample_keyed [[87; 87; 87]; [69; 88]] eq_refl eq_refl)|discriminate]|]). constructor.
  - exists t'. exact E.
Defined.
