(* ===== verification/RbtChain.v ===== *)
(** * Walks through the tree of trees

    A node chain ([dns_rbtnodechain_t]) stands at a node and remembers the nodes
    above it.  [dns_rbtnodechain_next] moves it to the next name in the DNSSEC order
    (RFC 4034), so that a walk from [dns_rbtnodechain_first] visits every name once
    and in order. *)

From stdpp Require Import sorting.
From S2P Require Import Prelude Buffer Name NameTheory Hash Rbt RbtTheory RbtDelete RbtTree RbtNames RbtTrie RbtFind RbtAdd.
From S2P Require Import RbtSplit RbtInsert RbtMap.

(** ** The order of the names *)

Definition key_lt (k1 k2 : namekey) : Prop := labels_cmp k1 k2 = Lt.

Lemma labels_cmp_refl k : labels_cmp k k = Eq.
Proof. by apply labels_cmp_eq. Qed.

Lemma labels_cmp_app k r1 r2 : labels_cmp (k ++ r1) (k ++ r2) = labels_cmp r1 r2.
Proof.
  induction k as [|l k IH]; cbn [app labels_cmp]; [done|]. rewrite (proj2 (label_cmp_eq l l)) by done. exact IH.
Qed.

Lemma key_lt_longer k l r : key_lt k (k ++ l :: r).
Proof. unfold key_lt. rewrite <- (app_nil_r k) at 1. by rewrite labels_cmp_app. Qed.

Lemma key_lt_irrefl k : ~ key_lt k k.
Proof. unfold key_lt. by rewrite labels_cmp_refl. Qed.

Lemma key_lt_trans k1 k2 k3 : key_lt k1 k2 -> key_lt k2 k3 -> key_lt k1 k3.
Proof. apply cmp_lt_trans. Qed.

Lemma key_lt_asym k1 k2 : key_lt k1 k2 -> ~ key_lt k2 k1.
Proof. intros H1 H2. exact (key_lt_irrefl _ (key_lt_trans _ _ _ H1 H2)). Qed.

(** Two lists are equal, one goes on where the other ends, or they part. *)
Lemma list_compare {A} `{EqDecision A} (l1 : list A) : forall l2, l1 = l2
  \/ (exists w r, l2 = l1 ++ w :: r) \/ (exists w r, l1 = l2 ++ w :: r)
  \/ exists p a b r1 r2, l1 = p ++ a :: r1 /\ l2 = p ++ b :: r2 /\ a <> b.
Proof.
  induction l1 as [|a l1 IH]; intros [|b l2]; [by left| | |].
  - right. left. by exists b, l2.
  - right. right. left. by exists a, l1.
  - destruct (decide (a = b)) as [<-|Hab].
    + destruct (IH l2) as [->|[(w & r & ->)|[(w & r & ->)|(p & x & y & r1 & r2 & -> & -> & H)]]].
      * by left.
      * right. left. by exists w, r.
      * right. right. left. by exists w, r.
      * right. right. right. by exists (a :: p), x, y, r1, r2.
    + right. right. right. by exists [], a, b, l1, l2.
Qed.

Lemma two_members {A} (l : list A) a b : a ∈ l -> b ∈ l -> a <> b ->
  (exists l1 l2 l3, l = l1 ++ a :: l2 ++ b :: l3) \/ (exists l1 l2 l3, l = l1 ++ b :: l2 ++ a :: l3).
Proof.
  intros Ha Hb Hne. apply list_elem_of_split in Ha as (p & q & ->). rewrite elem_of_app, elem_of_cons in Hb.
  destruct Hb as [Hb|[->|Hb]]; [|done|]; apply list_elem_of_split in Hb as (p' & q' & ->).
  - right. exists p', q', q. by rewrite <- app_assoc.
  - left. by exists p, p', q'.
Qed.

Section order.
Context (h : store) (root : Z) (T : trie) (ok : trie_ok h root T).

Lemma path_through ns k u y ms kz z : path T ns k u -> path T (ns ++ y :: ms) kz z ->
  y ∈ inorder (lev T u) /\ exists r, kz = k ++ key T y ++ r.
Proof.
  intros P Pz. destruct (path_next T ns y ms kz z k u Pz P) as (Hy & [r ->] & _). split; [done|]. exists r. by rewrite <- app_assoc.
Qed.

(** A name is before the names below it. *)
Lemma below_lt ns k x w ms kz z : path T ns k x -> path T (ns ++ w :: ms) kz z -> key_lt k kz.
Proof.
  intros P Pz. destruct (path_through _ _ _ _ _ _ _ P Pz) as (Hw & r & ->).
  destruct (member_key _ _ _ ok _ _ Hw) as (l & r' & ->). apply key_lt_longer.
Qed.

(** The names at or below a node are before those at or below a later node of the
    level. *)
Lemma level_lt ns k u l1 a l2 b l3 ma mb ka kb xa xb :
  path T ns k u -> inorder (lev T u) = l1 ++ a :: l2 ++ b :: l3 ->
  path T (ns ++ a :: ma) ka xa -> path T (ns ++ b :: mb) kb xb -> key_lt ka kb.
Proof.
  intros P El Pa Pb. destruct (path_through _ _ _ _ _ _ _ P Pa) as (Ha & ra & ->), (path_through _ _ _ _ _ _ _ P Pb) as (Hb & rb & ->).
  unfold key_lt. rewrite labels_cmp_app.
  destruct (member_key _ _ _ ok _ _ Ha) as (la & ra' & Ka), (member_key _ _ _ ok _ _ Hb) as (lb & rb' & Kb).
  pose proof (to_order _ _ _ ok u) as S. rewrite El in S. apply StronglySorted_app in S as (_ & _ & S).
  apply StronglySorted_cons in S as [S _]. rewrite Forall_forall in S. specialize (S b ltac:(set_solver)).
  unfold head_lt in S. rewrite Ka, Kb in S. rewrite Ka, Kb. cbn. by rewrite S.
Qed.

(** A later name is below the first one, or below a later node of a level on the way
    to the first one. *)
Lemma later_cases ns k x nsz kz z : path T ns k x -> path T nsz kz z -> key_lt k kz ->
  (exists w ms, nsz = ns ++ w :: ms)
  \/ exists n0 k0 u a b ma mb l1 l2 l3, path T n0 k0 u /\ ns = n0 ++ a :: ma /\ nsz = n0 ++ b :: mb
       /\ inorder (lev T u) = l1 ++ a :: l2 ++ b :: l3.
Proof.
  intros P Pz Hlt. destruct (list_compare ns nsz) as [<-|[?|[(w & ms & ->)|(p & a & b & ma & mb & -> & -> & Hne)]]].
  - destruct (path_det _ _ _ _ P _ _ Pz) as [<- _]. by apply key_lt_irrefl in Hlt.
  - by left.
  - exfalso. apply (key_lt_asym _ _ Hlt). by eapply below_lt.
  - right. destruct (path_front _ _ _ _ _ P) as (k0 & u & P0 & _).
    destruct (path_through _ _ _ _ _ _ _ P0 P) as [Ha _], (path_through _ _ _ _ _ _ _ P0 Pz) as [Hb _].
    destruct (two_members _ _ _ Ha Hb Hne) as [(l1 & l2 & l3 & El)|(l1 & l2 & l3 & El)].
    + by exists p, k0, u, a, b, ma, mb, l1, l2, l3.
    + exfalso. apply (key_lt_asym _ _ Hlt). by eapply level_lt.
Qed.

(** The first name after [k]. *)
Definition successor (k : namekey) (ns : list Z) (y : Z) (ky : namekey) : Prop :=
  path T ns ky y /\ key_lt k ky /\ forall nsz kz z, path T nsz kz z -> key_lt k kz -> ~ key_lt kz ky.

Lemma successor_down ns k x y l : path T ns k x -> inorder (lev T x) = y :: l ->
  successor k (ns ++ [y]) y (k ++ key T y).
Proof.
  intros P El. assert (Py : path T (ns ++ [y]) (k ++ key T y) y) by (econstructor; [done|rewrite El; set_solver]).
  split; [done|]. split; [by eapply below_lt|]. intros nsz kz z Pz Hlt.
  destruct (later_cases _ _ _ _ _ _ P Pz Hlt) as [(w & ms & ->)|(n0 & k0 & u & a & b & ma & mb & l1 & l2 & l3 & P0 & -> & -> & E)].
  - destruct (path_through _ _ _ _ _ _ _ P Pz) as [Hw _]. rewrite El in Hw. apply elem_of_cons in Hw as [->|Hw].
    + destruct ms as [|w' ms].
      * destruct (path_det _ _ _ _ Py _ _ Pz) as [<- _]. apply key_lt_irrefl.
      * apply key_lt_asym. eapply (below_lt (ns ++ [y]) _ _ w' ms); [exact Py|]. rewrite <- app_assoc. exact Pz.
    + apply list_elem_of_split in Hw as (l2 & l3 & ->). apply key_lt_asym. by eapply (level_lt ns k x [] y l2 w l3).
  - apply key_lt_asym. rewrite <- app_assoc in Py. by eapply (level_lt n0 k0 u).
Qed.

(** No later name is at or below [x]: the search for the successor goes up. *)
Definition passed (k0 : namekey) (ns : list Z) : Prop :=
  forall nsz kz z, path T nsz kz z -> key_lt k0 kz -> ~ ns `prefix_of` nsz.

Lemma passed_leaf ns k x : path T ns k x -> inorder (lev T x) = [] -> passed k ns.
Proof.
  intros P El nsz kz z Pz Hlt [[|w ms] ->].
  - rewrite app_nil_r in Pz. destruct (path_det _ _ _ _ P _ _ Pz) as [<- _]. by apply key_lt_irrefl in Hlt.
  - destruct (path_through _ _ _ _ _ _ _ P Pz) as [Hw _]. rewrite El in Hw. by apply elem_of_nil in Hw.
Qed.

(** The first name is at or below [x], which is the last node of its level. *)
Lemma passed_up k0 n0 x0 ns k u x ms l : path T n0 k0 x0 -> n0 = ns ++ x :: ms -> path T ns k u -> passed k0 (ns ++ [x]) ->
  inorder (lev T u) = l ++ [x] -> passed k0 ns.
Proof.
  intros P0 -> P Hp El nsz kz z Pz Hlt [[|w mz] ->].
  - rewrite app_nil_r in Pz. apply (key_lt_asym _ _ Hlt). by eapply below_lt.
  - destruct (path_through _ _ _ _ _ _ _ P Pz) as [Hw _]. rewrite El, elem_of_app, list_elem_of_singleton in Hw.
    destruct Hw as [Hw| ->].
    + apply list_elem_of_split in Hw as (l1 & l2 & ->). apply (key_lt_asym _ _ Hlt).
      eapply (level_lt ns k u l1 w l2 x []); try done. by rewrite El, <- app_assoc.
    + apply (Hp _ _ _ Pz Hlt). exists mz. by rewrite <- app_assoc.
Qed.

(** The first name is at or below [x], and [y] is the next node of the level. *)
Lemma successor_level k0 n0 x0 ns k u x y ms l1 l3 : path T n0 k0 x0 -> n0 = ns ++ x :: ms -> path T ns k u ->
  passed k0 (ns ++ [x]) -> inorder (lev T u) = l1 ++ x :: y :: l3 -> successor k0 (ns ++ [y]) y (k ++ key T y).
Proof.
  intros P0 -> P Hp El. assert (Py : path T (ns ++ [y]) (k ++ key T y) y) by (econstructor; [done|rewrite El; set_solver]).
  split; [done|]. split; [by eapply (level_lt ns k u l1 x [] y l3)|]. intros nsz kz z Pz Hlt.
  destruct (later_cases _ _ _ _ _ _ P0 Pz Hlt) as [(w & mw & ->)|(p & k1 & v & a & b & ma & mb & l1' & l2 & l3' & P1 & En & -> & E)].
  { exfalso. apply (Hp _ _ _ Pz Hlt). exists (ms ++ w :: mw). by rewrite <- !app_assoc. }
  destruct (list_compare p ns) as [->|[(w & r & ->)|[(w & r & ->)|(p0 & a' & b' & r1 & r2 & -> & -> & Hne)]]].
  - apply app_inv_head in En. injection En as <- <-. destruct (path_det _ _ _ _ P _ _ P1) as [<- <-].
    assert (Hb : l2 ++ b :: l3' = y :: l3).
    { pose proof (t_nodup _ _ _ (to_level _ _ _ ok u)) as ND. rewrite E in El. rewrite E in ND.
      clear -El ND. revert l1 El ND. induction l1' as [|c l1' IH]; intros [|d l1] El ND; cbn in *.
      - by injection El.
      - injection El as -> El. apply NoDup_cons in ND as [ND _]. rewrite El in ND. set_solver.
      - injection El as -> El. apply NoDup_cons in ND as [ND _]. set_solver.
      - injection El as -> El. apply NoDup_cons in ND as [_ ND]. by eapply IH. }
    destruct l2 as [|y' l2]; injection Hb as -> <-.
    + destruct mb as [|w mb].
      * destruct (path_det _ _ _ _ Py _ _ Pz) as [<- _]. apply key_lt_irrefl.
      * apply key_lt_asym. eapply (below_lt (ns ++ [y]) _ _ w mb); [exact Py|]. rewrite <- app_assoc. exact Pz.
    + apply key_lt_asym. eapply (level_lt ns k u (l1 ++ [x]) y l2 b l3'); try done. by rewrite El, <- !app_assoc.
  - (* they part above the level *)
    rewrite <- app_assoc in En. apply app_inv_head in En. injection En as <- <-.
    apply key_lt_asym. rewrite <- app_assoc in Py. by eapply (level_lt p k1 v).
  - exfalso. rewrite <- app_assoc in En. apply app_inv_head in En. injection En as <- ->.
    apply (Hp _ _ _ Pz Hlt). exists (r ++ b :: mb). by rewrite <- !app_assoc.
  - exfalso. rewrite <- !app_assoc in En. apply app_inv_head in En. by injection En as ->.
Qed.
End order.

(** ** Steps on a level *)

Lemma ptr_member (h : store) par b s : rep h par b s -> s <> Leaf -> ptr s ∈ inorder s.
Proof. destruct s as [|c l x r]; [done|]. cbn. set_solver. Qed.

(** Up to the next node of the level, if there is one. *)
Lemma ascend_spec h u : forall fr c l x r fuel, tree_rep h u (plug fr (Node c l x r)) -> (length fr < fuel)%nat ->
  match after fr with
  | y :: _ => loop fuel (ascend_body h false) x = Done (y, true)
  | [] => exists p, loop fuel (ascend_body h false) x = Done (p, false) /\ (fr = [] -> p = x)
  end.
Proof.
  induction fr as [|[d c' y s] fr IH]; intros c l x r [|fuel] HT Hf; cbn [length] in Hf; try lia;
    destruct (read_node _ _ _ _ _ _ _ HT) as (Hx & dn & dt & Hn); cbn [loop]; unfold ascend_body at 1; try unfold ascend_body at 2;
    rewrite (node_at_Done _ _ _ Hn); cbn [obind is_root at_root parent up_of].
  - cbn. by exists x.
  - destruct d; cbn [plug fill] in HT; destruct (read_node _ _ _ _ _ _ _ HT) as (Hy & dn' & dt' & Hn');
      rewrite (node_at_Done _ _ _ Hn'); cbn [obind left ptr after].
    + by rewrite Z.eqb_refl.
    + assert (Hne : ptr s <> x).
      { intros E. pose proof (t_rep _ _ _ HT) as HR. apply rep_plug in HR as [_ (_ & _ & Hs & _)].
        pose proof (t_nodup _ _ _ HT) as ND. rewrite inorder_plug in ND.
        apply NoDup_app in ND as (_ & _ & ND). apply NoDup_app in ND as (ND & _). cbn in ND. apply NoDup_app in ND as (_ & ND & _).
        destruct (decide (s = Leaf)) as [->|Hs0]; [by cbn in E; subst x|].
        apply (ND x); [rewrite <- E; by eapply ptr_member|set_solver]. }
      rewrite (proj2 (Z.eqb_neq _ _)) by done. cbn [obind].
      specialize (IH _ _ _ _ fuel HT ltac:(lia)). destruct (after fr); [|done].
      destruct IH as (p & -> & _). by exists p.
Qed.

Lemma leftmost_first h par b r : rep h par b r -> r <> Leaf ->
  exists y l, inorder r = y :: l /\ forall fuel, (length (inorder r) <= fuel)%nat -> loop fuel (leftmost_body h) (ptr r) = Done y.
Proof.
  intros Hr Hne. destruct (leftmost_spec _ _ _ _ Hr Hne) as (kr & c & y & ry & -> & Hleft & Hloop).
  exists y, (inorder ry ++ after kr). split; [|done]. rewrite inorder_plug. cbn.
  replace (before kr) with (@nil Z); [done|]. clear -Hleft. induction Hleft as [|[[] ? ? ?] kr Hf _ IH]; [done| |].
  - exact IH.
  - discriminate Hf.
Qed.

(** ** [dns_rbtnodechain_next] *)

Section chain_next.
Context (t : dns_rbt) (T : trie) (ok : trie_ok (nodes t) (root t) T).

(** All names are absolute, so that the top level has the root label only. *)
Lemma top_single x : x ∈ inorder (lev T 0) -> exists c, lev T 0 = Node c Leaf x Leaf.
Proof.
  intros Hx.
  assert (Hall : forall y, y ∈ inorder (lev T 0) -> y = x).
  { assert (Hk : forall y, y ∈ inorder (lev T 0) -> exists r, key T y = [] :: r).
    { intros y Hy. destruct (member_node _ _ _ ok 0 y Hy) as [_ [n Hn]].
      destruct (to_node _ _ _ ok 0 y n Hy Hn) as (_ & (body & _ & E) & _). rewrite bool_decide_eq_true_2 in E by done.
      exists (rev body). rewrite E. unfold labels_of. by rewrite rev_app_distr. }
    intros y Hy. destruct (Hk _ Hx) as [rx Kx], (Hk _ Hy) as [ry Ky].
    by eapply (head_unique _ _ _ ok 0 y x). }
  pose proof (t_nodup _ _ _ (to_level _ _ _ ok 0)) as ND. destruct (lev T 0) as [|c l y r]; [by apply elem_of_nil in Hx|].
  cbn in ND, Hall. assert (y = x) as -> by (apply Hall; set_solver). apply NoDup_app in ND as (_ & Hl & [Hr _]%NoDup_cons).
  exists c. f_equal.
  - destruct l as [|cl ll z lr]; [done|]. assert (z = x) as -> by (apply Hall; cbn; set_solver).
    destruct (Hl x); [cbn; set_solver|set_solver].
  - destruct r as [|cr rl z rr]; [done|]. assert (z = x) as -> by (apply Hall; cbn; set_solver).
    destruct Hr. cbn. set_solver.
Qed.

Lemma path_nodup ns k x : path T ns k x -> NoDup ns /\ forall y, y ∈ ns -> y ∈ dom (nodes t).
Proof.
  induction 1 as [|ns k u x P IH Hx]; [split; [constructor|set_solver]|]. destruct IH as [ND Hd].
  destruct (member_node _ _ _ ok u x Hx) as [Hx0 [n Hn]]. split.
  - apply NoDup_app. split_and!; [done| |apply NoDup_singleton]. intros y Hy ->%list_elem_of_singleton.
    apply list_elem_of_split in Hy as (a & b & ->).
    replace (a ++ x :: b) with ((a ++ [x]) ++ b) in P by (by rewrite <- app_assoc).
    destruct (path_front _ _ _ _ _ P) as (k0 & v & P0 & _).
    destruct (path_inv _ _ _ _ P0) as [(E & _)|(n1 & k1 & w & E & _ & _ & _)]; [by destruct a|].
    apply app_inj_tail in E as [-> <-].
    assert (Px : path T ((n1 ++ [x]) ++ b ++ [x]) (k ++ key T x) x) by (rewrite app_assoc; by econstructor).
    destruct (path_unique _ _ _ ok _ _ _ P0 _ _ Px) as [E _]. apply (f_equal length) in E. rewrite !length_app in E. cbn in E. lia.
  - intros y. rewrite elem_of_app, list_elem_of_singleton. intros [Hy| ->]; [by apply Hd|by eapply elem_of_dom_2].
Qed.

Lemma path_levels ns k x : path T ns k x -> (length ns <= base.size (nodes t))%nat.
Proof.
  intros P. destruct (path_nodup _ _ _ P) as [ND Hd]. rewrite <- size_dom.
  rewrite <- (size_list_to_set (C := gset Z) ns) by done. apply subseteq_size. intros y Hy%elem_of_list_to_set. by apply Hd.
Qed.

(** The levels of a chain fit into its array. *)
Lemma path_depth ns k x : path T ns k x -> Zlen ns <= 255.
Proof.
  intros P. pose proof (path_length _ _ _ ok _ _ _ P) as Hl. pose proof (to_size _ _ _ ok _ _ _ P) as Hs.
  assert (Hw : forall ls : list (list Z), Zlen ls <= Zlen (wire ls)).
  { intros ls. unfold wire. induction ls as [|l ls IH]; cbn [map concat]; [done|]. unfold enc_label at 1.
    rewrite Zlen_app, !Zlen_cons. pose proof (Zlen_nonneg l). lia. }
  specialize (Hw (rev k)). unfold Zlen in *. rewrite length_rev in Hw. lia.
Qed.

(** What the loop upwards leaves: the successor, a node with a right subtree, or
    nothing. *)
Definition climbed (k0 : namekey) (n0 : list Z) (r : dns_rbtnodechain * Z * bool * Z) : Prop :=
  let '(c, current, _, s) := r in
  (s <> 0 /\ exists ky, successor T k0 (levels c ++ [s]) s ky)
  \/ (s = 0 /\ exists k u fr col l r ms, path T (levels c) k u /\ lev T u = plug fr (Node col l current r) /\ r <> Leaf
        /\ passed T k0 (levels c ++ [current]) /\ n0 = levels c ++ current :: ms)
  \/ (s = 0 /\ RIGHT (nodes t) current = Done 0 /\ passed T k0 []).

Lemma ascend_level u fr c l x r : lev T u = plug fr (Node c l x r) ->
  match after fr with
  | y :: _ => loop (rbt_fuel (nodes t)) (ascend_body (nodes t) false) x = Done (y, true)
  | [] => exists p, loop (rbt_fuel (nodes t)) (ascend_body (nodes t) false) x = Done (p, false) /\ (fr = [] -> p = x)
  end.
Proof.
  intros E. pose proof (to_level _ _ _ ok u) as HT. pose proof (rep_size _ _ _ HT). rewrite E in HT, H.
  pose proof (length_plug fr (Node c l x r)). eapply ascend_spec; [exact HT|]. unfold rbt_fuel. lia.
Qed.

Lemma position_no_right u x : x ∈ inorder (lev T u) -> RIGHT (nodes t) x = Done 0 ->
  exists fr c l, lev T u = plug fr (Node c l x Leaf).
Proof.
  intros Hx Hr. destruct (elem_position x (lev T u) Hx) as (fr & c & l & r & El). exists fr, c, l. rewrite El. do 2 f_equal.
  pose proof (to_level _ _ _ ok u) as HT. rewrite El in HT. pose proof (t_rep _ _ _ HT) as HR. apply rep_plug in HR as [_ (_ & _ & _ & HR)].
  destruct (read_node _ _ _ _ _ _ _ HT) as (_ & dn & dt & Hn). unfold RIGHT in Hr. rewrite (node_at_Done _ _ _ Hn) in Hr.
  cbn in Hr. injection Hr as Hr. destruct r as [|? ? z ?]; [done|]. destruct HR as [Hz _]. by cbn in Hr.
Qed.

Lemma pop_app c ns y : levels c = ns ++ [y] -> pop_level c = Done (y, mkChain (chain_end c) ns (level_matches c)).
Proof. intros E. unfold pop_level. rewrite E, rev_app_distr. cbn. by rewrite rev_involutive. Qed.

Lemma right_link u fr c l x r : lev T u = plug fr (Node c l x r) -> RIGHT (nodes t) x = Done (ptr r).
Proof.
  intros El. pose proof (to_level _ _ _ ok u) as HT. rewrite El in HT. destruct (read_node _ _ _ _ _ _ _ HT) as (_ & dn & dt & Hn).
  unfold RIGHT. by rewrite (node_at_Done _ _ _ Hn).
Qed.

Lemma next_up_spec k0 n0 x0 : path T n0 k0 x0 -> forall ns x k u ms c no fuel, path T ns k u -> n0 = ns ++ x :: ms ->
  x ∈ inorder (lev T u) -> RIGHT (nodes t) x = Done 0 -> passed T k0 (ns ++ [x]) -> levels c = ns -> (length ns < fuel)%nat ->
  exists r, loop fuel (next_up_body (nodes t)) (c, x, no) = Done r /\ climbed k0 n0 r.
Proof.
  intros P0. induction ns as [|y ns IH] using rev_ind; intros x k u ms c no [|fuel] P En Hx Hr Hp Hc Hf; try lia;
    cbn [loop]; unfold next_up_body at 1;
    destruct (position_no_right u x Hx Hr) as (fr & col & l & El); pose proof (ascend_level _ _ _ _ _ _ El) as Ha;
    assert (Eio : inorder (lev T u) = (before fr ++ inorder l) ++ x :: after fr)
      by (rewrite El, inorder_plug; cbn; by rewrite <- !app_assoc);
    destruct (after fr) as [|y' l3] eqn:Eaf.
  2,4: rewrite Ha; cbn [obind]; eexists; (split; [reflexivity|]); left; rewrite Hc; (split; [|by eexists; eapply (successor_level _ _ _ ok k0 n0 x0)]);
       intros ->; apply (no_zero _ _ _ ok u); rewrite Eio; set_solver.
  - destruct Ha as (p & -> & Hpx). cbn [obind]. rewrite bool_decide_eq_true_2 by done. eexists. split; [done|]. right. right.
    split; [done|]. pose proof (proj2 (path_zero _ _ _ ok _ _ _ P) eq_refl) as ->.
    destruct (top_single x Hx) as [c' E']. assert (fr = []) as ->.
    { destruct fr as [|f fr]; [done|]. rewrite E' in El. apply (f_equal (fun t => length (inorder t))) in El.
      pose proof (length_plug (f :: fr) (Node col l x Leaf)). cbn [length] in *. rewrite <- El in H. cbn in H. rewrite length_app in H. cbn in H. lia. }
    rewrite (Hpx eq_refl). split; [done|]. eapply (passed_up _ _ _ ok k0 n0 x0 [] k 0 x ms); done.
  - destruct Ha as (p & -> & _). cbn [obind]. rewrite bool_decide_eq_false_2 by (rewrite Hc; by destruct ns).
    rewrite (pop_app _ _ _ Hc). cbn [obind].
    destruct (path_inv _ _ _ _ P) as [(E & _)|(ns' & k' & v & E & -> & P' & Hv)]; [by destruct ns|].
    apply app_inj_tail in E as [<- ->]. rename u into y.
    assert (Hp' : passed T k0 (ns ++ [y])) by (eapply (passed_up _ _ _ ok k0 n0 x0); done).
    assert (En' : n0 = ns ++ y :: x :: ms) by (by rewrite En, <- app_assoc).
    destruct (elem_position y (lev T v) Hv) as (fr' & col' & l' & r' & El'). pose proof (right_link _ _ _ _ _ _ El') as Hry.
    rewrite Hry. cbn [obind]. destruct (Z.eqb_spec (ptr r') 0) as [Hz|Hz].
    + eapply IH; try done; [by rewrite Hry, Hz|rewrite length_app in Hf; cbn in Hf; lia].
    + eexists. split; [done|]. right. left. split; [done|]. cbn [levels]. eexists _, v, fr', col', l', r', (x :: ms).
      split_and!; try done. by intros ->.
Qed.

(** The chain stands at the node [x]. *)
Definition stands (c : dns_rbtnodechain) (k : namekey) : Prop := path T (levels c ++ [chain_end c]) k (chain_end c).

Definition next_result (k : namekey) (result : isc_result_t) (c' : dns_rbtnodechain) : Prop :=
  match result with
  | ISC_R_SUCCESS | DNS_R_NEWORIGIN => exists k', stands c' k' /\ key_lt k k'
      /\ forall ns kz z, path T ns kz z -> key_lt k kz -> ~ key_lt kz k'
  | ISC_R_NOMORE => forall ns kz z, path T ns kz z -> ~ key_lt k kz
  | _ => False
  end.

Lemma next_end_spec c k s no ky : s <> 0 -> successor T k (levels c ++ [s]) s ky ->
  exists result c' name, next_end (nodes t) c s no None = Done (result, c', name, None) /\ next_result k result c'.
Proof.
  intros Hs (P & Hlt & Hmin). unfold next_end. rewrite (proj2 (Z.eqb_neq s 0)) by done.
  destruct (path_member _ _ _ _ P) as [u Hu]; [by destruct (levels c)|]. destruct (member_node _ _ _ ok u s Hu) as [_ [n Hn]].
  rewrite (node_at_Done _ _ _ Hn). cbn [obind].
  destruct no; (eexists _, _, _; split; [done|]; exists ky; by split_and!).
Qed.

Lemma leaf_of_down u x n : x ∈ inorder (lev T u) -> nodes t !! x = Some n -> (down n = 0 <-> lev T x = Leaf).
Proof.
  intros Hx Hn. destruct (to_node _ _ _ ok u x n Hx Hn) as (-> & _). split; [|by intros ->].
  intros E. destruct (lev T x) as [|c l y r] eqn:El; [done|]. exfalso. cbn in E. subst y. apply (no_zero _ _ _ ok x). rewrite El. cbn. set_solver.
Qed.

Lemma leftmost_fuel u par b r : rep (nodes t) par b r -> r <> Leaf -> (length (inorder r) <= length (inorder (lev T u)))%nat ->
  exists y l, inorder r = y :: l /\ loop (rbt_fuel (nodes t)) (leftmost_body (nodes t)) (ptr r) = Done y.
Proof.
  intros Hr Hne Hl. destruct (leftmost_first _ _ _ _ Hr Hne) as (y & l & E & Hloop). exists y, l. split; [done|]. apply Hloop.
  pose proof (rep_size _ _ _ (to_level _ _ _ ok u)). unfold rbt_fuel. lia.
Qed.

(** The end of the function, after the loop upwards. *)
Lemma next_tail k n0 x0 r : path T n0 k x0 -> climbed k n0 r ->
  exists result c' name,
    (let '(c, current, new_origin, successor) := r in
     let* successor :=
       (if successor =? 0 then
          let* r := RIGHT (nodes t) current in
          if r =? 0 then Done 0 else loop (rbt_fuel (nodes t)) (leftmost_body (nodes t)) r
        else Done successor) in
     next_end (nodes t) c successor new_origin None) = Done (result, c', name, None) /\ next_result k result c'.
Proof.
  intros P0. destruct r as [[[c current] no] s].
  intros [(Hs & ky & Hy)|[(-> & k1 & u & fr & col & l & r & ms & P & El & Hr & Hp & En)|(-> & Hr & Hp)]].
  - rewrite (proj2 (Z.eqb_neq s 0)) by done. cbn [obind]. by eapply next_end_spec.
  - cbn [Z.eqb]. rewrite (right_link _ _ _ _ _ _ El). cbn [obind].
    pose proof (to_level _ _ _ ok u) as HT. rewrite El in HT. pose proof (t_rep _ _ _ HT) as HR. apply rep_plug in HR as [_ (_ & _ & _ & HR)].
    destruct (rep_ptr _ _ _ _ HR Hr) as [Hz _]. rewrite (proj2 (Z.eqb_neq (ptr r) 0)) by done.
    assert (Eio : inorder (lev T u) = (before fr ++ inorder l) ++ current :: inorder r ++ after fr)
      by (rewrite El, inorder_plug; cbn; by rewrite <- !app_assoc).
    destruct (leftmost_fuel u _ _ r HR Hr) as (y & l' & Er & ->).
    { rewrite Eio, !length_app. cbn. rewrite !length_app. lia. }
    cbn [obind]. rewrite Er in Eio. eapply next_end_spec.
    + intros ->. apply (no_zero _ _ _ ok u). rewrite Eio. set_solver.
    + eapply (successor_level _ _ _ ok k n0 x0); try done.
  - cbn [Z.eqb]. rewrite Hr. cbn [obind Z.eqb]. eexists _, _, _. split; [done|].
    intros ns kz z Pz Hlt. apply (Hp ns kz z Pz Hlt). by exists ns.
Qed.

(** A step of a chain goes to the least name of the tree that is greater. *)
Lemma next_spec c k : stands c k ->
  exists result c' name, dns_rbtnodechain_next (nodes t) c None = Done (result, c', name, None) /\ next_result k result c'.
Proof.
  intros P. unfold stands in P. destruct (path_inv _ _ _ _ P) as [(E & _)|(ns & k1 & u & E & Ek & P1 & Hx)]; [by destruct (levels c)|].
  apply app_inj_tail in E as [<- _]. set (x := chain_end c) in *.
  destruct (member_node _ _ _ ok u x Hx) as [Hx0 [n Hn]]. pose proof (leaf_of_down u x n Hx Hn) as Hleaf.
  unfold dns_rbtnodechain_next. fold x. rewrite require_true by (by rewrite (proj2 (Z.eqb_neq x 0))). cbn [obind].
  rewrite (node_at_Done _ _ _ Hn). cbn [obind]. destruct (elem_position x (lev T u) Hx) as (fr & col & l & r & El).
  pose proof (right_link _ _ _ _ _ _ El) as Hr. unfold RIGHT in Hr. rewrite (node_at_Done _ _ _ Hn) in Hr. cbn in Hr. injection Hr as Hr.
  destruct (Z.eqb_spec (down n) 0) as [Hd|Hd]; cbn [negb].
  - assert (Hp : passed T k (levels c ++ [x])).
    { eapply passed_leaf; [exact P|]. by rewrite (proj1 Hleaf Hd). }
    destruct (Z.eqb_spec (right n) 0) as [Hrn|Hrn].
    + destruct (next_up_spec k _ x P (levels c) x k1 u [] c false (rbt_fuel (nodes t))) as (res & -> & Hres); try done.
      * unfold RIGHT. rewrite (node_at_Done _ _ _ Hn). cbn. by rewrite Hrn.
      * pose proof (path_levels _ _ _ P1). unfold rbt_fuel. lia.
      * cbn [obind]. destruct res as [[[c1 cur] no] s]. by eapply (next_tail k _ x (c1, cur, no, s)).
    + cbn [obind]. eapply (next_tail k _ x (c, x, false, 0)); [exact P|]. right. left. split; [done|].
      exists k1, u, fr, col, l, r, []. split_and!; try done. intros ->. by cbn in Hr.
  - assert (Hl : lev T x <> Leaf) by (intros E; by apply Hd, Hleaf).
    pose proof (t_rep _ _ _ (to_level _ _ _ ok x)) as HR.
    destruct (leftmost_fuel x _ _ _ HR Hl) as (y & l' & Ey & Hloop); [done|].
    pose proof (successor_down _ _ _ ok _ _ _ y l' P Ey) as Hs. destruct (to_node _ _ _ ok u x n Hx Hn) as (Hdn & _ & _).
    pose proof (path_depth _ _ _ (proj1 Hs)) as Hdep. rewrite !Zlen_app in Hdep. change (Zlen [x]) with 1 in Hdep. change (Zlen [y]) with 1 in Hdep.
    unfold chain_down, ADD_LEVEL. rewrite (proj2 (Z.ltb_lt _ _)) by (unfold DNS_RBT_LEVELBLOCK; lia). cbn [obind].
    rewrite Hdn, Hloop. cbn [obind]. assert (Hy : y <> 0).
    { intros ->. apply (no_zero _ _ _ ok x). rewrite Ey. set_solver. }
    rewrite (proj2 (Z.eqb_neq y 0)) by done. cbn [obind]. eapply next_end_spec; [done|]. cbn [levels]. exact Hs.
Qed.
End chain_next.

(** ** The walk through a tree *)

(** [for (...; result == ISC_R_SUCCESS || result == DNS_R_NEWORIGIN; result =
    dns_rbtnodechain_next(...))], the loop of the users of a chain: the nodes that
    follow the end of the chain. *)
Fixpoint walk (fuel : nat) (h : store) (c : dns_rbtnodechain) : outcome (list Z) :=
  match fuel with
  | O => NoFuel
  | S fuel =>
      let* (result, c, _, _) := dns_rbtnodechain_next h c None in
      if bool_decide (result = ISC_R_SUCCESS \/ result = DNS_R_NEWORIGIN)
      then let* l := walk fuel h c in Done (chain_end c :: l)
      else Done []
  end.

Definition rbt_walk (t : dns_rbt) : outcome (list Z) :=
  let* (result, c, _, _) := dns_rbtnodechain_first t dns_rbtnodechain_init false None in
  if bool_decide (result = ISC_R_SUCCESS \/ result = DNS_R_NEWORIGIN)
  then let* l := walk (rbt_fuel (nodes t)) (nodes t) c in Done (chain_end c :: l)
  else Done [].

(** The name of [x] is before the name of [y]. *)
Definition name_lt (T : trie) (x y : Z) : Prop :=
  exists ns kx ms ky, path T ns kx x /\ path T ms ky y /\ key_lt kx ky.

Section walk.
Context (t : dns_rbt) (T : trie) (ok : trie_ok (nodes t) (root t) T).

Definition later (k : namekey) (z : Z) : Prop := exists ns kz, path T ns kz z /\ key_lt k kz.

(** A later name is the successor or later than that. *)
Lemma later_split k ns y ky z : path T ns ky y -> key_lt k ky ->
  (forall ns' kz z, path T ns' kz z -> key_lt k kz -> ~ key_lt kz ky) -> later k z <-> z = y \/ later ky z.
Proof.
  intros Py Hlt Hmin. split.
  - intros (ns' & kz & Pz & Hk). specialize (Hmin _ _ _ Pz Hk). unfold key_lt in Hmin.
    destruct (labels_cmp kz ky) eqn:E; [left|done|right].
    + eapply (names_unique _ _ _ ok z y kz); [by exists ns', kz|]. exists ns, ky. split; [done|]. symmetry. by apply labels_cmp_eq.
    + exists ns', kz. split; [done|]. unfold key_lt. by rewrite cmp_antisym, E.
  - intros [->|(ns' & kz & Pz & Hk)]; [by exists ns, ky|]. exists ns', kz. split; [done|]. by eapply key_lt_trans.
Qed.

Lemma later_irrefl ns k x : path T ns k x -> ~ later k x.
Proof.
  intros P (ns' & k' & P' & Hlt). destruct (path_unique _ _ _ ok _ _ _ P _ _ P') as [_ <-]. by apply key_lt_irrefl in Hlt.
Qed.

Lemma walk_spec fuel : forall c k (X : gset Z), stands T c k -> (forall z, later k z -> z ∈ X) -> (size X < fuel)%nat ->
  exists l, walk fuel (nodes t) c = Done l /\ (forall z, z ∈ l <-> later k z) /\ StronglySorted (name_lt T) (chain_end c :: l).
Proof.
  induction fuel as [|fuel IH]; intros c k X Hc HX Hf; [lia|]. cbn [walk].
  destruct (next_spec t T ok c k Hc) as (result & c' & name & -> & Hres). cbn [obind].
  assert (Hnext : (result = ISC_R_SUCCESS \/ result = DNS_R_NEWORIGIN) /\ (exists k', stands T c' k' /\ key_lt k k'
      /\ forall ns kz z, path T ns kz z -> key_lt k kz -> ~ key_lt kz k')
    \/ result = ISC_R_NOMORE /\ forall ns kz z, path T ns kz z -> ~ key_lt k kz) by (destruct result; try done; auto).
  destruct Hnext as [[Hr (k' & Hc' & Hlt & Hmin)]|[-> Hno]].
  - rewrite bool_decide_eq_true_2 by done. pose proof (fun z => later_split k _ _ k' z Hc' Hlt Hmin) as Hsp.
    destruct (IH c' k' (X ∖ {[chain_end c']}) Hc') as (l & -> & Hl & Hs).
    + intros z Hz. apply elem_of_difference. split; [apply HX, Hsp; by right|]. intros ->%elem_of_singleton. by eapply later_irrefl in Hz.
    + assert (Hy : chain_end c' ∈ X) by (apply HX, Hsp; by left).
      rewrite size_difference by set_solver. rewrite size_singleton.
      assert (size X <> 0)%nat by (intros E; apply size_empty_inv in E; set_solver). lia.
    + cbn [obind]. eexists. split; [done|]. split; [intros z; by rewrite elem_of_cons, Hl, Hsp|].
      apply StronglySorted_cons. split; [|done]. apply Forall_forall. intros z Hz.
      assert (Hz' : later k z) by (apply Hsp; apply elem_of_cons in Hz as [->|Hz]; [by left|right; by apply Hl]).
      destruct Hz' as (ns & kz & Pz & Hk). by exists (levels c ++ [chain_end c]), k, ns, kz.
  - rewrite bool_decide_eq_false_2 by (intros [|]; done). eexists. split; [done|]. split.
    + intros z. split; [intros H; by apply elem_of_nil in H|]. intros (ns & kz & Pz & Hk). by destruct (Hno _ _ _ Pz).
    + by repeat constructor.
Qed.

Lemma name_lt_irrefl x : ~ name_lt T x x.
Proof.
  intros (ns & k & ms & k' & P & P' & Hlt). destruct (path_unique _ _ _ ok _ _ _ P _ _ P') as [_ <-]. by apply key_lt_irrefl in Hlt.
Qed.

Lemma sorted_nodup l : StronglySorted (name_lt T) l -> NoDup l.
Proof.
  induction 1 as [|x l S IH F]; constructor; [|done]. intros Hx. rewrite Forall_forall in F. by apply (name_lt_irrefl x), F.
Qed.

Lemma rbt_walk_spec : exists l, rbt_walk t = Done l /\ l ≡ₚ elements (dom (nodes t)) /\ StronglySorted (name_lt T) l.
Proof.
  unfold rbt_walk, dns_rbtnodechain_first, first_or_last, dns_rbtnodechain_current. cbn [chain_end with_end dns_rbtnodechain_reset levels].
  pose proof (to_root _ _ _ ok) as Hroot. destruct (lev T 0) as [|c l x r] eqn:El.
  - cbn in Hroot. rewrite Hroot. cbn [Z.eqb obind bool_decide]. rewrite !bool_decide_eq_false_2 by naive_solver.
    exists []. split; [done|]. split; [|constructor]. replace (nodes t) with (∅ : store); [done|]. symmetry. apply map_empty. intros y.
    destruct (nodes t !! y) as [n|] eqn:Hy; [|done]. destruct (to_reach _ _ _ ok y n Hy) as (ns & k & P). exfalso.
    assert (Hns : ns <> []).
    { intros ->. destruct (path_inv _ _ _ _ P) as [(_ & _ & ->)|([|] & ? & ? & ? & _)]; [|done..]. by rewrite (to_null _ _ _ ok) in Hy. }
    destruct ns as [|w ns]; [done|]. destruct (path_through T [] [] 0 w ns k y (path_top T) P) as [Hw _]. rewrite El in Hw. by apply elem_of_nil in Hw.
  - cbn in Hroot. assert (Hx : x ∈ inorder (lev T 0)) by (rewrite El; cbn; set_solver).
    destruct (member_node _ _ _ ok 0 x Hx) as [Hx0 [n Hn]]. rewrite Hroot, (proj2 (Z.eqb_neq x 0)) by done.
    rewrite (node_at_Done _ _ _ Hn). cbn [obind bool_decide]. rewrite !bool_decide_eq_true_2 by auto.
    set (c0 := with_end x (dns_rbtnodechain_reset dns_rbtnodechain_init)). assert (Hst : stands T c0 (key T x)).
    { unfold stands. cbn. apply (path_node T [] [] 0 x); [constructor|done]. }
    assert (Hlater : forall z nz, nodes t !! z = Some nz -> z = x \/ later (key T x) z).
    { intros z nz Hz. destruct (to_reach _ _ _ ok z nz Hz) as (ns & k & P). destruct ns as [|w ns].
      { destruct (path_inv _ _ _ _ P) as [(_ & _ & ->)|([|] & ? & ? & ? & _)]; [|done..]. by rewrite (to_null _ _ _ ok) in Hz. }
      destruct (path_through T [] [] 0 w ns k z (path_top T) P) as [Hw _]. destruct (top_single t T ok x Hx) as [c' E].
      rewrite E in Hw. cbn in Hw. apply list_elem_of_singleton in Hw as ->. destruct ns as [|w ns].
      - left. by destruct (path_det _ _ _ _ Hst _ _ P).
      - right. exists (x :: w :: ns), k. split; [done|]. by eapply (below_lt _ _ _ ok [x] (key T x) x w ns). }
    destruct (walk_spec (rbt_fuel (nodes t)) c0 (key T x) (dom (nodes t)) Hst) as (l' & -> & Hl & Hs).
    + intros z (ns & kz & Pz & Hk). destruct (path_inv _ _ _ _ Pz) as [(_ & -> & _)|(? & ? & u & _ & _ & _ & Hu)].
      * unfold key_lt in Hk. by destruct (key T x).
      * destruct (member_node _ _ _ ok u z Hu) as [_ [nz Hz]]. by eapply elem_of_dom_2.
    + rewrite size_dom. unfold rbt_fuel. lia.
    + cbn [obind]. eexists. split; [done|]. split; [|done]. apply NoDup_Permutation; [by apply sorted_nodup|apply NoDup_elements|].
      intros z. rewrite elem_of_elements, elem_of_cons, Hl, elem_of_dom. change (chain_end c0) with x. split.
      * intros [->|(ns & kz & Pz & Hk)]; [by eexists|].
        destruct (path_inv _ _ _ _ Pz) as [(_ & -> & _)|(? & ? & u & _ & _ & _ & Hu)]; [unfold key_lt in Hk; by destruct (key T x)|].
        by destruct (member_node _ _ _ ok u z Hu) as [_ ?].
      * intros [nz Hz]. by apply (Hlater z nz).
Qed.
End walk.

(** ** Claims *)

(** C11. A walk visits every name once and in order: the nodes that
    [dns_rbtnodechain_first] and repeated [dns_rbtnodechain_next] go through are all
    nodes of the tree, and their names increase in the DNSSEC order; the walk ends. *)
Theorem rbt_walk_in_order (t : dns_rbt) (T : trie) :
  trie_ok (nodes t) (root t) T ->
  exists l, rbt_walk t = Done l /\ l ≡ₚ elements (dom (nodes t)) /\ StronglySorted (name_lt T) l.
Proof. apply rbt_walk_spec. Qed.

(** ** Witnesses *)

Lemma rbt_walk_in_order_witness : exists T l,
  rbt_walk sample_tree = Done l /\ l ≡ₚ elements (dom (nodes sample_tree)) /\ StronglySorted (name_lt T) l.
Proof.
  destruct sample_ok as [T RO]. exists T. apply (rbt_walk_in_order sample_tree T). exact (ro_trie _ _ _ RO).
Defined.
