(* ===== verification/Radix.v ===== *)
(** * The radix tree of address prefixes ([lib/isc/radix.c])

    The IP table of an access list is a Patricia tree of prefixes.  An IPv4 and
    an IPv6 prefix with the same bits share a node, so each node has two numbers
    and two data pointers; the numbers record the order of insertion, and a search
    returns the matching node with the least number for the family ("first
    match").

    Nodes are records in a store from addresses to nodes; 0 is the NULL pointer
    and an access through NULL or outside the store is [Undef].  The 16 octets of
    an address are always present; what [_new_prefix] leaves uninitialised is
    what the allocated memory held before.  The answers of the allocator are
    arguments: an address for a node (0 when there is no memory), the previous
    contents of a prefix ([None] when there is none).  Prefixes are never changed
    after they are made, so a shared prefix is its value; of the reference count
    only the test for 0, a prefix that was not allocated, is kept. *)

From S2P Require Import Prelude.

Definition AF_UNSPEC : Z := 0.
Definition AF_INET : Z := 2.
Definition AF_INET6 : Z := 10.
Definition RADIX_MAXBITS : Z := 128.

Record isc_prefix : Type := mkPrefix {
  family : Z;
  bitlen : Z;
  is_static : bool;              (* refcount is 0 *)
  add : list Z                   (* the union of in_addr and in6_addr: 16 octets *)
}.

(** A two-element array indexed by [ISC_IS6(family)]. *)
Abbreviation pair2 := (Z * Z)%type.
Definition ISC_IS6 (fam : Z) : bool := fam =? AF_INET6.
Definition at6 (is6 : bool) (a : pair2) : Z := if is6 then a.2 else a.1.
Definition set6 (is6 : bool) (v : Z) (a : pair2) : pair2 := if is6 then (a.1, v) else (v, a.2).

Record radix_node : Type := mkRnode {
  rn_bit : Z;                    (* isc_uint32_t *)
  rn_prefix : option isc_prefix;
  rn_l : Z;
  rn_r : Z;
  rn_parent : Z;
  rn_data : pair2;
  node_num : pair2               (* int; -1 for glue *)
}.

Record isc_radix_tree : Type := mkRadix {
  rt_nodes : gmap Z radix_node;
  rt_head : Z;
  maxbits : Z;
  num_active_node : Z;
  num_added_node : Z
}.

Definition isc_radix_create (bits : Z) : outcome isc_radix_tree :=
  REQUIRE bits <=? RADIX_MAXBITS ;;
  Done (mkRadix ∅ 0 bits 0 0).

(** ** Fields of nodes *)

Definition rnode_at (h : gmap Z radix_node) (p : Z) : outcome radix_node :=
  match h !! p with Some n => Done n | None => Undef end.

Definition with_rn_parent (v : Z) (n : radix_node) : radix_node :=
  mkRnode (rn_bit n) (rn_prefix n) (rn_l n) (rn_r n) v (rn_data n) (node_num n).
Definition with_rn_l (v : Z) (n : radix_node) : radix_node :=
  mkRnode (rn_bit n) (rn_prefix n) v (rn_r n) (rn_parent n) (rn_data n) (node_num n).
Definition with_rn_r (v : Z) (n : radix_node) : radix_node :=
  mkRnode (rn_bit n) (rn_prefix n) (rn_l n) v (rn_parent n) (rn_data n) (node_num n).
Definition with_prefix (p : option isc_prefix) (n : radix_node) : radix_node :=
  mkRnode (rn_bit n) p (rn_l n) (rn_r n) (rn_parent n) (rn_data n) (node_num n).
Definition with_num (v : pair2) (n : radix_node) : radix_node :=
  mkRnode (rn_bit n) (rn_prefix n) (rn_l n) (rn_r n) (rn_parent n) (rn_data n) v.
Definition with_rn_data (v : pair2) (n : radix_node) : radix_node :=
  mkRnode (rn_bit n) (rn_prefix n) (rn_l n) (rn_r n) (rn_parent n) v (node_num n).

Definition rassign (f : radix_node -> radix_node) (h : gmap Z radix_node) (p : Z) :
    outcome (gmap Z radix_node) :=
  let* n := rnode_at h p in Done (<[p := f n]> h).

(** [BIT_TEST(addr[bit >> 3], 0x80 >> (bit & 0x07))] *)
Definition BIT_TEST (addr : list Z) (bit : Z) : outcome bool :=
  let* o := rd addr (Z.shiftr bit 3) in
  Done (negb (Z.land o (Z.shiftr 0x80 (Z.land bit 7)) =? 0)).

(** ** Prefixes *)

Definition _new_prefix (mem : option (list Z)) (fam : Z) (dest : list Z) (blen : Z) :
    outcome (isc_result_t * option isc_prefix) :=
  if negb (fam =? AF_INET6) && negb (fam =? AF_INET) && negb (fam =? AF_UNSPEC)
  then Done (ISC_R_NOTIMPLEMENTED, None)
  else
    match mem with
    | None => Done (ISC_R_NOMEMORY, None)
    | Some junk =>
        if fam =? AF_INET6 then
          let* a := blit junk 0 (sub dest 0 16) in
          Done (ISC_R_SUCCESS, Some (mkPrefix fam (if 0 <=? blen then blen else 128) false a))
        else
          let* a := blit junk 0 (sub dest 0 4) in
          Done (ISC_R_SUCCESS, Some (mkPrefix fam (if 0 <=? blen then blen else 32) false a))
    end.

Definition _ref_prefix (mem : option (list Z)) (p : isc_prefix) :
    outcome (isc_result_t * option isc_prefix) :=
  REQUIRE ((family p =? AF_INET) && (bitlen p <=? 32))
    || ((family p =? AF_INET6) && (bitlen p <=? 128))
    || ((family p =? AF_UNSPEC) && (bitlen p =? 0)) ;;
  if is_static p then _new_prefix mem (family p) (add p) (bitlen p)
  else Done (ISC_R_SUCCESS, Some p).

(** [memcmp(a, b, n) == 0] *)
Definition memcmp_eq (a b : list Z) (n : Z) : outcome bool :=
  if (n <=? Zlen a) && (n <=? Zlen b) then Done (bool_decide (sub a 0 n = sub b 0 n)) else Undef.

Definition _comp_with_mask (addr dest : list Z) (mask : Z) : outcome bool :=
  if mask =? 0 then Done true
  else
    let* same := memcmp_eq addr dest (mask / 8) in
    if same then
      if mask mod 8 =? 0 then Done true
      else
        let m := Z.shiftl (-1) (8 - mask mod 8) in
        let* a := rd addr (mask / 8) in
        let* b := rd dest (mask / 8) in
        Done (Z.land a m =? Z.land b m)
    else Done false.

(** ** Search *)

(** The loop that goes down and pushes the nodes with a prefix; the state is
    [node] (not NULL) and the stack, the top first.  The stack has
    [RADIX_MAXBITS + 1] cells. *)
Definition push (stack : list Z) (node : Z) : outcome (list Z) :=
  if Zlen stack <? RADIX_MAXBITS + 1 then Done (node :: stack) else Undef.

Definition search_body (h : gmap Z radix_node) (addr : list Z) (blen : Z) (s : Z * list Z) :
    outcome ((Z * list Z) + (Z * list Z)) :=
  let '(node, stack) := s in
  let* n := rnode_at h node in
  if rn_bit n <? blen then
    let* stack := (match rn_prefix n with Some _ => push stack node | None => Done stack end) in
    let* b := BIT_TEST addr (rn_bit n) in
    let next := if b then rn_r n else rn_l n in
    Done (if next =? 0 then inr (next, stack) else inl (next, stack))
  else Done (inr (node, stack)).

(** [while (cnt-- > 0) ...]: the nodes on the stack, the top first; [target] is
    [*target]. *)
Fixpoint select (h : gmap Z radix_node) (p : isc_prefix) (stack : list Z) (target : Z) : outcome Z :=
  match stack with
  | [] => Done target
  | node :: stack =>
      let* n := rnode_at h node in
      match rn_prefix n with
      | None => Undef
      | Some np =>
          let* matches := _comp_with_mask (add np) (add p) (bitlen np) in
          let num := at6 (ISC_IS6 (family p)) (node_num n) in
          let* target :=
            (if matches && negb (num =? -1) then
               if target =? 0 then Done node
               else
                 let* t := rnode_at h target in
                 Done (if num <? at6 (ISC_IS6 (family p)) (node_num t) then node else target)
             else Done target) in
          select h p stack target
      end
  end.

(** Each step goes one level down. *)
Definition radix_fuel (h : gmap Z radix_node) : nat := S (base.size h).

Definition isc_radix_search (radix : isc_radix_tree) (p : isc_prefix) :
    outcome (isc_result_t * Z) :=
  REQUIRE bitlen p <=? maxbits radix ;;
  if rt_head radix =? 0 then Done (ISC_R_NOTFOUND, 0)
  else
    let h := rt_nodes radix in
    let* (node, stack) :=
      loop (radix_fuel h) (search_body h (add p) (bitlen p)) (rt_head radix, []) in
    let* stack :=
      (if node =? 0 then Done stack
       else
         let* n := rnode_at h node in
         match rn_prefix n with Some _ => push stack node | None => Done stack end) in
    let* target := select h p stack 0 in
    Done (if target =? 0 then (ISC_R_NOTFOUND, 0) else (ISC_R_SUCCESS, target)).

(** ** Insertion *)

(** [while (node->bit < bitlen || node->prefix == NULL)]: down to a node with a
    prefix. *)
Definition descend_body (h : gmap Z radix_node) (addr : list Z) (blen maxb : Z) (node : Z) :
    outcome (Z + Z) :=
  let* n := rnode_at h node in
  if (rn_bit n <? blen) || bool_decide (rn_prefix n = None) then
    let* b := (if rn_bit n <? maxb then BIT_TEST addr (rn_bit n) else Done false) in
    let next := if b then rn_r n else rn_l n in
    Done (if next =? 0 then inr node else inl next)
  else Done (inr node).

(** [for (j = 0; j < 8; j++) if (BIT_TEST (r, (0x80 >> j))) break;] *)
Fixpoint find_bit (r : Z) (j : Z) (n : nat) : Z :=
  match n with
  | O => j
  | S n => if negb (Z.land r (Z.shiftr 0x80 j) =? 0) then j else find_bit r (j + 1) n
  end.

(** [for (i = 0; i*8 < check_bit; i++)]: the first bit that differs; the state is
    [i] and [differ_bit]. *)
Definition differ_body (addr test_addr : list Z) (check_bit : Z) (s : Z * Z) : outcome ((Z * Z) + Z) :=
  let '(i, differ_bit) := s in
  if i * 8 <? check_bit then
    let* a := rd addr i in
    let* t := rd test_addr i in
    let r := Z.lxor a t in
    if r =? 0 then Done (inl (i + 1, (i + 1) * 8))
    else
      let j := find_bit r 0 8 in
      REQUIRE j <? 8 ;;
      Done (inr (i * 8 + j))
  else Done (inr differ_bit).

(** [while (parent != NULL && parent->bit >= differ_bit)]: up to the place of the
    new node; the state is [node] and [parent]. *)
Definition climb_body (h : gmap Z radix_node) (differ_bit : Z) (s : Z * Z) : outcome ((Z * Z) + Z) :=
  let '(node, parent) := s in
  if parent =? 0 then Done (inr node)
  else
    let* n := rnode_at h parent in
    if differ_bit <=? rn_bit n then Done (inl (parent, rn_parent n)) else Done (inr node).

(** The numbers and the data of a new node, and the new [num_added_node]. *)
Definition new_numbers (added fam : Z) (source : option radix_node) : pair2 * pair2 * Z :=
  match source with
  | Some src =>
      let num k := if k =? -1 then -1 else s32 (added + k) in
      ((num (node_num src).1, num (node_num src).2), rn_data src, added)
  | None =>
      let added := s32 (added + 1) in
      (if fam =? AF_UNSPEC then (added, added) else set6 (ISC_IS6 fam) added (-1, -1), (0, 0), added)
  end.

(** The numbers and the data of a glue node that becomes a prefix. *)
Definition glue_numbers (added fam : Z) (source : option radix_node) (n : radix_node) :
    radix_node * Z :=
  match source with
  | Some src =>
      let n := if (node_num src).1 =? -1 then n
               else with_rn_data (set6 false (rn_data src).1 (rn_data n))
                      (with_num (set6 false (s32 (added + (node_num src).1)) (node_num n)) n) in
      let n := if (node_num src).2 =? -1 then n
               else with_rn_data (set6 true (rn_data src).2 (rn_data n))
                      (with_num (set6 true (s32 (added + (node_num src).2)) (node_num n)) n) in
      (n, added)
  | None =>
      let added := s32 (added + 1) in
      (with_num (if fam =? AF_UNSPEC then (added, added)
                 else set6 (ISC_IS6 fam) added (node_num n)) n, added)
  end.

(** The numbers of a node that has a prefix already: set only if they have not
    been set before.  The test of [source->node_num[0]] in the second branch is
    the source's. *)
Definition old_numbers (added fam : Z) (source : option radix_node) (n : radix_node) :
    radix_node * Z :=
  match source with
  | Some src =>
      let n := if ((node_num n).1 =? -1) && negb ((node_num src).1 =? -1)
               then with_rn_data (set6 false (rn_data src).1 (rn_data n))
                      (with_num (set6 false (s32 (added + (node_num src).1)) (node_num n)) n)
               else n in
      let n := if ((node_num n).2 =? -1) && negb ((node_num src).1 =? -1)
               then with_rn_data (set6 true (rn_data src).2 (rn_data n))
                      (with_num (set6 true (s32 (added + (node_num src).2)) (node_num n)) n)
               else n in
      (n, added)
  | None =>
      if fam =? AF_UNSPEC then
        let next := s32 (added + 1) in
        let '(n, added) :=
          if (node_num n).1 =? -1 then (with_num (set6 false next (node_num n)) n, next) else (n, added) in
        if (node_num n).2 =? -1 then (with_num (set6 true next (node_num n)) n, next) else (n, added)
      else if at6 (ISC_IS6 fam) (node_num n) =? -1 then
        let added := s32 (added + 1) in
        (with_num (set6 (ISC_IS6 fam) added (node_num n)) n, added)
      else (n, added)
  end.

Definition set_nodes (h : gmap Z radix_node) (added : Z) (radix : isc_radix_tree) : isc_radix_tree :=
  mkRadix h (rt_head radix) (maxbits radix) (num_active_node radix) added.

(** The first node of a tree. *)
Definition insert_head (radix : isc_radix_tree) (node_mem : Z) (pmem : option (list Z))
    (source : option radix_node) (p : isc_prefix) : outcome (isc_result_t * Z * isc_radix_tree) :=
  if node_mem =? 0 then Done (ISC_R_NOMEMORY, 0, radix)
  else
    let* (result, np) := _ref_prefix pmem p in
    if bool_decide (result = ISC_R_SUCCESS) then
      let '(num, data, added) := new_numbers (num_added_node radix) (family p) source in
      Done (ISC_R_SUCCESS, node_mem,
            mkRadix (<[node_mem := mkRnode (bitlen p) np 0 0 0 data num]> (rt_nodes radix)) node_mem
              (maxbits radix) (num_active_node radix + 1) added)
    else Done (result, 0, radix).

(** The node has the bit length and the bits of the new prefix. *)
Definition insert_old (radix : isc_radix_tree) (node : Z) (pmem : option (list Z))
    (source : option radix_node) (p : isc_prefix) : outcome (isc_result_t * Z * isc_radix_tree) :=
  let* n := rnode_at (rt_nodes radix) node in
  match rn_prefix n with
  | Some _ =>
      let '(n, added) := old_numbers (num_added_node radix) (family p) source n in
      Done (ISC_R_SUCCESS, node, set_nodes (<[node := n]> (rt_nodes radix)) added radix)
  | None =>
      let* (result, np) := _ref_prefix pmem p in
      if bool_decide (result = ISC_R_SUCCESS) then
        REQUIRE bool_decide (rn_data n = (0, 0)) && bool_decide (node_num n = (-1, -1)) ;;
        let '(n, added) := glue_numbers (num_added_node radix) (family p) source (with_prefix np n) in
        Done (ISC_R_SUCCESS, node, set_nodes (<[node := n]> (rt_nodes radix)) added radix)
      else Done (result, 0, radix)
  end.

(** [child] takes the place of [node] below the parent of [node]. *)
Definition replace_link (h : gmap Z radix_node) (head node child : Z) :
    outcome (gmap Z radix_node * Z) :=
  let* n := rnode_at h node in
  if rn_parent n =? 0 then REQUIRE head =? node ;; Done (h, child)
  else
    let* pn := rnode_at h (rn_parent n) in
    let* h := (if rn_r pn =? node then rassign (with_rn_r child) h (rn_parent n)
               else rassign (with_rn_l child) h (rn_parent n)) in
    Done (h, head).

(** The links of the new node: below [node], above it, or beside it under a glue
    node. *)
Definition link_new_node (h : gmap Z radix_node) (head maxb : Z) (node new glue : Z)
    (addr test_addr : list Z) (blen differ_bit : Z) : outcome (gmap Z radix_node * Z) :=
  let* n := rnode_at h node in
  if rn_bit n =? differ_bit then
    let* h := rassign (with_rn_parent node) h new in
    let* b := (if rn_bit n <? maxb then BIT_TEST addr (rn_bit n) else Done false) in
    if b then REQUIRE rn_r n =? 0 ;; let* h := rassign (with_rn_r new) h node in Done (h, head)
    else REQUIRE rn_l n =? 0 ;; let* h := rassign (with_rn_l new) h node in Done (h, head)
  else if blen =? differ_bit then
    let* b := (if blen <? maxb then BIT_TEST test_addr blen else Done false) in
    let* h := (if b then rassign (with_rn_r node) h new else rassign (with_rn_l node) h new) in
    let* h := rassign (with_rn_parent (rn_parent n)) h new in
    let* (h, head) := replace_link h head node new in
    let* h := rassign (with_rn_parent new) h node in
    Done (h, head)
  else
    REQUIRE negb (glue =? 0) ;;
    let* b := (if differ_bit <? maxb then BIT_TEST addr differ_bit else Done false) in
    let h := <[glue := mkRnode differ_bit None (if b then node else new) (if b then new else node)
                         (rn_parent n) (0, 0) (-1, -1)]> h in
    let* h := rassign (with_rn_parent glue) h new in
    let* (h, head) := replace_link h head node glue in
    let* h := rassign (with_rn_parent glue) h node in
    Done (h, head).

(** A new node next to [node], with a glue node when neither is above the other. *)
Definition insert_new (radix : isc_radix_tree) (node node_mem glue_mem : Z) (pmem : option (list Z))
    (source : option radix_node) (p : isc_prefix) (test_addr : list Z) (differ_bit : Z) :
    outcome (isc_result_t * Z * isc_radix_tree) :=
  let* n := rnode_at (rt_nodes radix) node in
  let needs_glue := negb (rn_bit n =? differ_bit) && negb (bitlen p =? differ_bit) in
  if node_mem =? 0 then Done (ISC_R_NOMEMORY, 0, radix)
  else if needs_glue && (glue_mem =? 0) then Done (ISC_R_NOMEMORY, 0, radix)
  else
    let* (result, np) := _ref_prefix pmem p in
    if bool_decide (result = ISC_R_SUCCESS) then
      let '(num, data, added) := new_numbers (num_added_node radix) (family p) source in
      let h := <[node_mem := mkRnode (bitlen p) np 0 0 0 data num]> (rt_nodes radix) in
      let* (h, head) := link_new_node h (rt_head radix) (maxbits radix) node node_mem
                          (if needs_glue then glue_mem else 0) (add p) test_addr (bitlen p) differ_bit in
      Done (ISC_R_SUCCESS, node_mem,
            mkRadix h head (maxbits radix)
              (num_active_node radix + 1 + (if needs_glue then 1 else 0)) added)
    else Done (result, 0, radix).

Definition isc_radix_insert (radix : isc_radix_tree) (node_mem glue_mem : Z) (pmem : option (list Z))
    (source : option radix_node) (prefix : option isc_prefix) :
    outcome (isc_result_t * Z * isc_radix_tree) :=
  REQUIRE match prefix with Some p => bitlen p <=? maxbits radix | None => true end ;;
  match (match prefix with
         | Some p => Some p
         | None => match source with Some src => rn_prefix src | None => None end
         end) with
  | None => Abort
  | Some p =>
      if rt_head radix =? 0 then insert_head radix node_mem pmem source p
      else
        let h := rt_nodes radix in
        let* node := loop (radix_fuel h) (descend_body h (add p) (bitlen p) (maxbits radix))
                       (rt_head radix) in
        let* n := rnode_at h node in
        match rn_prefix n with
        | None => Abort
        | Some np =>
            let check_bit := if rn_bit n <? bitlen p then rn_bit n else bitlen p in
            let* d := loop (S (Z.to_nat check_bit)) (differ_body (add p) (add np) check_bit) (0, 0) in
            let differ_bit := if check_bit <? d then check_bit else d in
            let* node := loop (radix_fuel h) (climb_body h differ_bit) (node, rn_parent n) in
            let* n := rnode_at h node in
            if (differ_bit =? bitlen p) && (rn_bit n =? bitlen p)
            then insert_old radix node pmem source p
            else insert_new radix node node_mem glue_mem pmem source p (add np) differ_bit
        end
  end.

(** ** Walking and removing *)

(** One step of [RADIX_WALK] ... [RADIX_WALK_END]: the state is [Xrn] (not NULL),
    the stack of right children, and the nodes with a prefix seen so far, the
    last first. *)
Definition walk_body (h : gmap Z radix_node) (s : Z * list Z * list Z) :
    outcome ((Z * list Z * list Z) + list Z) :=
  let '(Xrn, stack, seen) := s in
  let* n := rnode_at h Xrn in
  let seen := match rn_prefix n with Some _ => Xrn :: seen | None => seen end in
  if negb (rn_l n =? 0) then
    let* stack := (if rn_r n =? 0 then Done stack else push stack (rn_r n)) in
    Done (inl (rn_l n, stack, seen))
  else if negb (rn_r n =? 0) then Done (inl (rn_r n, stack, seen))
  else
    match stack with
    | top :: stack => Done (inl (top, stack, seen))
    | [] => Done (inr seen)
    end.

(** The nodes for which [RADIX_WALK] runs its body, in order. *)
Definition radix_walk (radix : isc_radix_tree) : outcome (list Z) :=
  if rt_head radix =? 0 then Done []
  else
    let* seen := loop (radix_fuel (rt_nodes radix)) (walk_body (rt_nodes radix))
                   (rt_head radix, [], []) in
    Done (rev seen).

(** The end of the branch of [isc_radix_remove] for a leaf: a glue node above it
    goes too. *)
Definition remove_glue (radix : isc_radix_tree) (h : gmap Z radix_node) (parent child : Z) :
    outcome isc_radix_tree :=
  let* pn := rnode_at h parent in
  let active := num_active_node radix - 1 in
  match rn_prefix pn with
  | Some _ => Done (mkRadix h (rt_head radix) (maxbits radix) active (num_added_node radix))
  | None =>
      let* (h, head) :=
        (if rn_parent pn =? 0 then REQUIRE rt_head radix =? parent ;; Done (h, child)
         else
           let* gn := rnode_at h (rn_parent pn) in
           if rn_r gn =? parent then
             let* h := rassign (with_rn_r child) h (rn_parent pn) in Done (h, rt_head radix)
           else
             REQUIRE rn_l gn =? parent ;;
             let* h := rassign (with_rn_l child) h (rn_parent pn) in Done (h, rt_head radix)) in
      let* h := rassign (with_rn_parent (rn_parent pn)) h child in
      Done (mkRadix (delete parent h) head (maxbits radix) (active - 1) (num_added_node radix))
  end.

Definition remove_leaf (radix : isc_radix_tree) (node : Z) (n : radix_node) : outcome isc_radix_tree :=
  let h := delete node (rt_nodes radix) in
  if rn_parent n =? 0 then
    REQUIRE rt_head radix =? node ;;
    Done (mkRadix h 0 (maxbits radix) (num_active_node radix - 1) (num_added_node radix))
  else
    let* pn := rnode_at h (rn_parent n) in
    if rn_r pn =? node then
      let* h := rassign (with_rn_r 0) h (rn_parent n) in
      remove_glue radix h (rn_parent n) (rn_l pn)
    else
      REQUIRE rn_l pn =? node ;;
      let* h := rassign (with_rn_l 0) h (rn_parent n) in
      remove_glue radix h (rn_parent n) (rn_r pn).

Definition remove_single (radix : isc_radix_tree) (node : Z) (n : radix_node) (child : Z) :
    outcome isc_radix_tree :=
  let* h := rassign (with_rn_parent (rn_parent n)) (rt_nodes radix) child in
  let h := delete node h in
  let active := num_active_node radix - 1 in
  if rn_parent n =? 0 then
    REQUIRE rt_head radix =? node ;;
    Done (mkRadix h child (maxbits radix) active (num_added_node radix))
  else
    let* pn := rnode_at h (rn_parent n) in
    let* h := (if rn_r pn =? node then rassign (with_rn_r child) h (rn_parent n)
               else REQUIRE rn_l pn =? node ;; rassign (with_rn_l child) h (rn_parent n)) in
    Done (mkRadix h (rt_head radix) (maxbits radix) active (num_added_node radix)).

Definition isc_radix_remove (radix : isc_radix_tree) (node : Z) : outcome isc_radix_tree :=
  let* n := rnode_at (rt_nodes radix) node in
  if negb (rn_r n =? 0) && negb (rn_l n =? 0) then
    Done (set_nodes (<[node := with_rn_data (0, 0) (with_prefix None n)]> (rt_nodes radix))
            (num_added_node radix) radix)
  else if (rn_r n =? 0) && (rn_l n =? 0) then remove_leaf radix node n
  else remove_single radix node n (if rn_r n =? 0 then rn_l n else rn_r n).
