(* ===== verification/RadixTheory.v ===== *)
(** * The radix tree: insertion and first match

    A prefix is its list of bits, a node of the tree has the bits of its position.
    The store of [Radix.v] represents a tree ([rep]); [wf] says that every node is
    where its bits put it.  Insertion changes exactly the entry of the new prefix,
    and a search finds, among all entries that match an address, the one with the
    least number. *)

From S2P Require Import Prelude Radix.

(** ** Octets and bits *)

Definition byte_bits (b : Z) : list bool :=
  [Z.testbit b 7; Z.testbit b 6; Z.testbit b 5; Z.testbit b 4;
   Z.testbit b 3; Z.testbit b 2; Z.testbit b 1; Z.testbit b 0].

Definition bits_of (l : list Z) : list bool := concat (byte_bits <$> l).

Lemma bits_of_cons b l : bits_of (b :: l) = byte_bits b ++ bits_of l.
Proof. done. Qed.

Lemma length_bits l : length (bits_of l) = (8 * length l)%nat.
Proof. induction l as [|b l IH]; [done|]. rewrite bits_of_cons, length_app, IH. cbn. lia. Qed.

Lemma byte_bits_lookup b j :
  (j < 8)%nat -> byte_bits b !! j = Some (Z.testbit b (7 - Z.of_nat j)).
Proof. intros Hj. do 8 (destruct j as [|j]; [done|]). lia. Qed.

Lemma bits_lookup l i j b :
  l !! i = Some b -> (j < 8)%nat -> bits_of l !! (8 * i + j)%nat = byte_bits b !! j.
Proof.
  revert i. induction l as [|c l IH]; intros i Hi Hj; [done|]. rewrite bits_of_cons.
  destruct i as [|i]; cbn in Hi.
  - injection Hi as ->. rewrite lookup_app_l; [f_equal; lia|]. cbn. lia.
  - rewrite lookup_app_r by (cbn; lia). rewrite <- (IH i) by done. f_equal. cbn. lia.
Qed.

(** A property of octets and small indices, by computation. *)
Lemma byte_index_forall (P : Z -> nat -> bool) (n : nat) :
  forallb (fun j => forallb (fun b => P (Z.of_nat b) j) (seq 0 256)) (seq 0 n) = true ->
  forall b j, is_byte b -> (j < n)%nat -> P b j = true.
Proof.
  intros H b j [Hb1 Hb2] Hj. rewrite forallb_forall in H. specialize (H j).
  rewrite forallb_forall in H. specialize (H ltac:(apply in_seq; lia) (Z.to_nat b)).
  rewrite Z2Nat.id in H by lia. apply H, in_seq. lia.
Qed.

Lemma testbit_mask b j :
  is_byte b -> (j < 8)%nat ->
  negb (Z.land b (Z.shiftr 0x80 (Z.of_nat j)) =? 0) = Z.testbit b (7 - Z.of_nat j).
Proof.
  intros Hb Hj. apply eqb_prop.
  apply (byte_index_forall (fun b j => eqb (negb (Z.land b (Z.shiftr 0x80 (Z.of_nat j)) =? 0))
                                         (Z.testbit b (7 - Z.of_nat j))) 8); [|done|done].
  by vm_compute.
Qed.

(** [BIT_TEST] reads one bit of an address. *)
Lemma BIT_TEST_spec addr bit x :
  bytes addr -> 0 <= bit -> bits_of addr !! Z.to_nat bit = Some x -> BIT_TEST addr bit = Done x.
Proof.
  intros Hb H0 Hx. unfold BIT_TEST.
  assert (Hlt : (Z.to_nat bit < 8 * length addr)%nat)
    by (rewrite <- length_bits; by eapply lookup_lt_Some).
  rewrite Z.shiftr_div_pow2 by lia. change (2 ^ 3) with 8.
  assert (Hi : 0 <= bit / 8 < Zlen addr) by (unfold Zlen; divlia).
  destruct (rd_ok addr (bit / 8) Hi) as (o & Ho). rewrite Ho. cbn [obind]. f_equal.
  change 7 with (Z.ones 3). rewrite Z.land_ones by lia. change (2 ^ 3) with 8.
  assert (Hmod : bit mod 8 = Z.of_nat (Z.to_nat (bit mod 8))) by divlia. rewrite Hmod.
  rewrite testbit_mask by (try (by eapply rd_bytes); divlia).
  assert (Hl : addr !! Z.to_nat (bit / 8) = Some o) by (apply rd_Done in Ho; tauto).
  replace (Z.to_nat bit) with (8 * Z.to_nat (bit / 8) + Z.to_nat (bit mod 8))%nat in Hx by divlia.
  rewrite (bits_lookup _ _ _ _ Hl) in Hx by divlia. rewrite byte_bits_lookup in Hx by divlia.
  congruence.
Qed.

Definition from_bits (l : list bool) : Z := fold_left (fun acc b => 2 * acc + Z.b2z b) l 0.

Lemma byte_bits_inj a b : is_byte a -> is_byte b -> byte_bits a = byte_bits b -> a = b.
Proof.
  assert (H : forall c, is_byte c -> from_bits (byte_bits c) = c).
  { intros c Hc. apply Z.eqb_eq. revert c Hc. apply byte_forall. by vm_compute. }
  intros Ha Hb E. by rewrite <- (H a Ha), <- (H b Hb), E.
Qed.

Lemma bits_of_inj a b :
  bytes a -> bytes b -> length a = length b -> bits_of a = bits_of b -> a = b.
Proof.
  intros Ha. revert b. induction Ha as [|x a Hx Ha IH]; intros [|y b] Hb Hl E; try done.
  apply bytes_cons in Hb as [Hy Hb]. rewrite !bits_of_cons in E.
  apply app_inj_1 in E as [E1 E2]; [|done]. f_equal; [by apply byte_bits_inj|]. apply IH; auto.
Qed.

(** The first [r] bits of two octets, compared with a mask. *)
Lemma mask_eq a b r :
  is_byte a -> is_byte b -> (r < 8)%nat ->
  (Z.land a (Z.shiftl (-1) (8 - Z.of_nat r)) =? Z.land b (Z.shiftl (-1) (8 - Z.of_nat r)))
  = bool_decide (take r (byte_bits a) = take r (byte_bits b)).
Proof.
  intros Ha Hb Hr.
  assert (H1 : forall c, is_byte c -> from_bits (take r (byte_bits c) ++ replicate (8 - r) false)
                                      = Z.land c (Z.shiftl (-1) (8 - Z.of_nat r))).
  { intros c Hc. apply Z.eqb_eq.
    apply (byte_index_forall (fun c r => from_bits (take r (byte_bits c) ++ replicate (8 - r) false)
                                =? Z.land c (Z.shiftl (-1) (8 - Z.of_nat r))) 8); [|done|done].
    by vm_compute. }
  assert (H2 : forall c, is_byte c -> take r (byte_bits (Z.land c (Z.shiftl (-1) (8 - Z.of_nat r))))
                                      = take r (byte_bits c)).
  { intros c Hc.
    pose (P := fun c r => bool_decide
      (take r (byte_bits (Z.land c (Z.shiftl (-1) (8 - Z.of_nat r)))) = take r (byte_bits c))).
    assert (E : P c r = true) by (apply (byte_index_forall P 8); [by vm_compute|done|done]).
    exact (bool_decide_eq_true_1 _ E). }
  case_bool_decide as E.
  - apply Z.eqb_eq. by rewrite <- (H1 a Ha), <- (H1 b Hb), E.
  - apply Z.eqb_neq. intros E'. apply E. by rewrite <- (H2 a Ha), <- (H2 b Hb), E'.
Qed.

Lemma take_bits l n r x :
  l !! n = Some x -> (r <= 8)%nat ->
  take (8 * n + r) (bits_of l) = bits_of (take n l) ++ take r (byte_bits x).
Proof.
  revert n. induction l as [|c l IH]; intros n Hn Hr; [done|]. destruct n as [|n]; cbn in Hn.
  - injection Hn as ->. rewrite bits_of_cons, take_app_le by (cbn; lia). done.
  - replace (8 * S n + r)%nat with (8 + (8 * n + r))%nat by lia. rewrite bits_of_cons.
    rewrite take_app_ge by (cbn; lia). change (take (S n) (c :: l)) with (c :: take n l).
    rewrite bits_of_cons, <- app_assoc, <- (IH n) by done. do 2 f_equal. cbn. lia.
Qed.

Lemma take_bits_whole l n : (n <= length l)%nat -> take (8 * n) (bits_of l) = bits_of (take n l).
Proof.
  revert n. induction l as [|c l IH]; intros [|n] Hn; try done; cbn in Hn; try lia.
  replace (8 * S n)%nat with (8 + 8 * n)%nat by lia. rewrite bits_of_cons, take_app_ge by (cbn; lia).
  change (take (S n) (c :: l)) with (c :: take n l). rewrite bits_of_cons, <- (IH n) by (cbn in Hn; lia).
  do 2 f_equal. cbn. lia.
Qed.

(** [_comp_with_mask] compares the first [mask] bits. *)
Lemma comp_with_mask_spec a b mask :
  bytes a -> bytes b -> 0 <= mask <= 8 * Zlen a -> mask <= 8 * Zlen b ->
  _comp_with_mask a b mask
  = Done (bool_decide (take (Z.to_nat mask) (bits_of a) = take (Z.to_nat mask) (bits_of b))).
Proof.
  intros Ha Hb H1 H2. unfold _comp_with_mask. destruct (mask =? 0) eqn:E0.
  { apply Z.eqb_eq in E0. subst. done. }
  unfold memcmp_eq. rewrite !(proj2 (Z.leb_le _ _)) by divlia. cbn [andb obind].
  unfold sub. change (Z.to_nat 0) with 0%nat. rewrite !drop_0.
  set (n := Z.to_nat (mask / 8)). set (r := Z.to_nat (mask mod 8)).
  assert (Em : Z.to_nat mask = (8 * n + r)%nat) by (subst n r; divlia).
  assert (Hna : (n <= length a)%nat) by (subst n; unfold Zlen in *; divlia).
  assert (Hnb : (n <= length b)%nat) by (subst n; unfold Zlen in *; divlia).
  assert (Hpre : take n a = take n b <-> bits_of (take n a) = bits_of (take n b)).
  { split; [by intros ->|]. apply bits_of_inj; [by apply bytes_take..|]. rewrite !length_take. lia. }
  destruct (mask mod 8 =? 0) eqn:Er.
  - assert (r = 0%nat) as Hr0 by (subst r; lia). rewrite Em, Hr0, Nat.add_0_r, !take_bits_whole by done.
    case_bool_decide as E1; f_equal; symmetry; [apply bool_decide_eq_true_2|apply bool_decide_eq_false_2]; tauto.
  - assert (Hi : 0 <= mask / 8 < Zlen a /\ mask / 8 < Zlen b) by (unfold Zlen in *; divlia).
    destruct (rd_ok a (mask / 8)) as (x & Hx); [tauto|]. destruct (rd_ok b (mask / 8)) as (y & Hy); [lia|].
    rewrite Hx, Hy. cbn [obind].
    pose proof (rd_bytes a _ x Ha Hx) as Hxb. pose proof (rd_bytes b _ y Hb Hy) as Hyb.
    apply rd_Done in Hx as [_ Hx]. apply rd_Done in Hy as [_ Hy]. fold n in Hx, Hy.
    assert (Hr8 : (r < 8)%nat) by (subst r; divlia).
    rewrite Em, (take_bits _ _ _ _ Hx), (take_bits _ _ _ _ Hy) by lia.
    replace (mask mod 8) with (Z.of_nat r) by (subst r; divlia). rewrite (mask_eq x y r) by done.
    case_bool_decide as E1.
    + rewrite E1. f_equal. apply bool_decide_ext. split; [by intros ->|]. by intros ?%app_inv_head.
    + rewrite bool_decide_false; [done|]. intros E2. apply E1, Hpre.
      apply app_inj_1 in E2; [tauto|]. rewrite !length_bits, !length_take. lia.
Qed.

(** The bits [a] and [b] agree on the first [d] and differ at [d], unless [d] is
    [c]. *)
Definition differ_at (a b : list bool) (c d : nat) : Prop :=
  take d a = take d b /\ (d <= c)%nat /\ (d = c \/ a !! d <> b !! d).

Lemma land_pow2 r k : 0 <= k -> negb (Z.land r (2 ^ k) =? 0) = Z.testbit r k.
Proof.
  intros Hk. destruct (Z.testbit r k) eqn:E.
  - apply negb_true_iff, Z.eqb_neq. intros H.
    assert (E' : Z.testbit (Z.land r (2 ^ k)) k = true)
      by (rewrite Z.land_spec, E, Z.pow2_bits_true by lia; done).
    rewrite H, Z.bits_0 in E'. done.
  - apply negb_false_iff, Z.eqb_eq, Z.bits_inj'. intros i Hi. rewrite Z.land_spec, Z.bits_0.
    destruct (decide (i = k)) as [->|Hne]; [by rewrite E|].
    rewrite Z.pow2_bits_false by lia. apply andb_false_r.
Qed.

(** The bit [n] differs, or the next ones are looked at. *)
Ltac first_differs x y n :=
  destruct (bool_dec x y) as [->|?];
  [rewrite eqb_reflx
  |rewrite (proj2 (eqb_false_iff x y)) by done; exists n;
   split; [lia|]; split; [done|]; split; [done|]; cbn; congruence].

Lemma find_bit_spec a b :
  is_byte a -> is_byte b -> a <> b ->
  exists j : nat, (j < 8)%nat /\ find_bit (Z.lxor a b) 0 8 = Z.of_nat j
    /\ take j (byte_bits a) = take j (byte_bits b) /\ byte_bits a !! j <> byte_bits b !! j.
Proof.
  intros Ha Hb Hne.
  assert (Hstep : forall j n, 0 <= j < 8 -> find_bit (Z.lxor a b) j (S n)
     = if eqb (Z.testbit a (7 - j)) (Z.testbit b (7 - j)) then find_bit (Z.lxor a b) (j + 1) n else j).
  { intros j n Hj. cbn [find_bit]. change 0x80 with (2 ^ 7). rewrite Z.shiftr_div_pow2, <- Z.pow_sub_r by lia.
    rewrite land_pow2, Z.lxor_spec by lia. by destruct (Z.testbit a _), (Z.testbit b _). }
  rewrite !Hstep by lia.
  repeat match goal with |- context [7 - ?j] => let v := eval vm_compute in (7 - j) in change (7 - j) with v end.
  assert (Hbb : byte_bits a <> byte_bits b) by (intros E; by apply Hne, byte_bits_inj).
  unfold byte_bits in *. clear Hstep. revert Hbb.
  generalize (Z.testbit a 7) (Z.testbit a 6) (Z.testbit a 5) (Z.testbit a 4) (Z.testbit a 3) (Z.testbit a 2) (Z.testbit a 1) (Z.testbit a 0) (Z.testbit b 7) (Z.testbit b 6) (Z.testbit b 5) (Z.testbit b 4) (Z.testbit b 3) (Z.testbit b 2) (Z.testbit b 1) (Z.testbit b 0).
  intros a7 a6 a5 a4 a3 a2 a1 a0 b7 b6 b5 b4 b3 b2 b1 b0 Hbb.
  first_differs a7 b7 0%nat.
  first_differs a6 b6 1%nat.
  first_differs a5 b5 2%nat.
  first_differs a4 b4 3%nat.
  first_differs a3 b3 4%nat.
  first_differs a2 b2 5%nat.
  first_differs a1 b1 6%nat.
  first_differs a0 b0 7%nat.
  by destruct Hbb.
Qed.

Lemma lookup_take_eq {A} (a b : list A) n i : take n a = take n b -> (i < n)%nat -> a !! i = b !! i.
Proof. intros E Hi. by rewrite <- (lookup_take_lt a n i), <- (lookup_take_lt b n i), E by done. Qed.

(** The loop that looks for the first different bit, and the bound on it. *)
Lemma differ_spec addr test (c : nat) :
  bytes addr -> bytes test -> (c <= 8 * length addr)%nat -> (c <= 8 * length test)%nat ->
  exists d, loop (S (Z.to_nat (Z.of_nat c))) (differ_body addr test (Z.of_nat c)) (0, 0) = Done d
    /\ exists n : nat, (if Z.of_nat c <? d then Z.of_nat c else d) = Z.of_nat n
       /\ differ_at (bits_of addr) (bits_of test) c n.
Proof.
  intros Ha Ht Hca Hct.
  pose (Inv := fun (s : Z * Z) => exists i : nat, s = (Z.of_nat i, Z.of_nat (8 * i))
                 /\ take i addr = take i test /\ (8 * i < c + 8)%nat /\ (i <= length addr)%nat /\ (i <= length test)%nat).
  apply (loop_rule _ Inv (fun s => Z.of_nat c - s.1)).
  - intros s (i & -> & Htake & Hi & Hia & Hit). unfold differ_body.
    destruct (Z.of_nat i * 8 <? Z.of_nat c) eqn:Ec.
    + destruct (rd_ok addr (Z.of_nat i)) as (x & Hx); [unfold Zlen; lia|].
      destruct (rd_ok test (Z.of_nat i)) as (y & Hy); [unfold Zlen; lia|].
      pose proof (rd_bytes addr _ x Ha Hx) as Hxb. pose proof (rd_bytes test _ y Ht Hy) as Hyb.
      rewrite Hx, Hy. cbn [obind]. apply rd_Done in Hx as [_ Hx], Hy as [_ Hy]. rewrite Nat2Z.id in Hx, Hy.
      destruct (Z.lxor x y =? 0) eqn:E0.
      * apply Z.eqb_eq, Z.lxor_eq in E0 as ->. split; [|cbn; lia].
        exists (S i). split_and!; [f_equal; lia| |lia|apply lookup_lt_Some in Hx; lia|apply lookup_lt_Some in Hy; lia].
        by rewrite (take_S_r _ _ _ Hx), (take_S_r _ _ _ Hy), Htake.
      * assert (Hne : x <> y) by (intros ->; rewrite Z.lxor_nilpotent in E0; done).
        destruct (find_bit_spec x y Hxb Hyb Hne) as (j & Hj & -> & Htj & Hdj).
        rewrite require_true by lia. cbn [obind].
        assert (Hpre : take (8 * i + j) (bits_of addr) = take (8 * i + j) (bits_of test))
          by (rewrite (take_bits _ _ _ _ Hx), (take_bits _ _ _ _ Hy), Htake, Htj by lia; done).
        exists (min c (8 * i + j)). split; [destruct (Z.of_nat c <? _) eqn:E; lia|].
        split_and!; [|lia|].
        { apply (f_equal (take c)) in Hpre. by rewrite !take_take in Hpre. }
        destruct (decide (c <= 8 * i + j)%nat); [left; lia|]. right.
        rewrite (Nat.min_r c) by lia. rewrite (bits_lookup _ _ _ _ Hx), (bits_lookup _ _ _ _ Hy) by done. done.
    + exists c. split; [destruct (Z.of_nat c <? _) eqn:E; lia|]. split_and!; [|lia|by left].
      apply (f_equal (fun l => take c (bits_of l))) in Htake.
      rewrite <- !take_bits_whole, !take_take in Htake by done. by rewrite !Nat.min_l in Htake by lia.
  - exists 0%nat. split_and!; [done|done|lia|lia|lia].
  - cbn. lia.
Qed.

(** ** Trees *)

Record slots : Type := mkSlots { s_data : pair2; s_num : pair2 }.

(** A node with the bits of its position, its prefix unless it is glue, its data
    and numbers, and its address. *)
Inductive rtree : Type :=
| RLeaf
| RNode (key : list bool) (o : option isc_prefix) (s : slots) (l : rtree) (x : Z) (r : rtree).

#[export] Instance isc_prefix_eq_dec : EqDecision isc_prefix.
Proof. solve_decision. Defined.
#[export] Instance slots_eq_dec : EqDecision slots.
Proof. solve_decision. Defined.
#[export] Instance rtree_eq_dec : EqDecision rtree.
Proof. solve_decision. Defined.

Definition rptr (t : rtree) : Z := match t with RLeaf => 0 | RNode _ _ _ _ x _ => x end.

Fixpoint addrs (t : rtree) : list Z :=
  match t with RLeaf => [] | RNode _ _ _ l x r => x :: addrs l ++ addrs r end.

(** The prefixes of a tree. *)
Fixpoint entries (t : rtree) : list (list bool * slots) :=
  match t with
  | RLeaf => []
  | RNode key o s l x r =>
      match o with Some _ => [(key, s)] | None => [] end ++ entries l ++ entries r
  end.

(** [RFrame d ...]: the hole is the right child if [d], otherwise the left one. *)
Inductive rframe : Type :=
| RFrame (d : bool) (key : list bool) (o : option isc_prefix) (s : slots) (x : Z) (t : rtree).

Definition rfill (f : rframe) (t : rtree) : rtree :=
  match f with
  | RFrame true key o s x t' => RNode key o s t' x t
  | RFrame false key o s x t' => RNode key o s t x t'
  end.

Fixpoint rplug (k : list rframe) (t : rtree) : rtree :=
  match k with [] => t | f :: k => rplug k (rfill f t) end.

Definition rup (k : list rframe) : Z := match k with [] => 0 | RFrame _ _ _ _ x _ :: _ => x end.

Fixpoint around (k : list rframe) : list Z :=
  match k with [] => [] | RFrame _ _ _ _ x t :: k => x :: addrs t ++ around k end.

Fixpoint entries_around (k : list rframe) : list (list bool * slots) :=
  match k with
  | [] => []
  | RFrame _ key o s x t :: k =>
      match o with Some _ => [(key, s)] | None => [] end ++ entries t ++ entries_around k
  end.

Lemma addrs_plug k t : addrs (rplug k t) ≡ₚ addrs t ++ around k.
Proof.
  revert t. induction k as [|[d key o s x t'] k IH]; intros t; cbn [rplug around]; [by rewrite app_nil_r|].
  rewrite IH. destruct d; cbn [rfill addrs app]; rewrite <- Permutation_middle; f_equiv.
  - by rewrite (Permutation_app_comm (addrs t')), <- app_assoc.
  - by rewrite <- app_assoc.
Qed.

Lemma entries_plug k t : entries (rplug k t) ≡ₚ entries t ++ entries_around k.
Proof.
  revert t. induction k as [|[d key o s x t'] k IH]; intros t; cbn [rplug entries_around];
    [by rewrite app_nil_r|].
  rewrite IH.
  destruct d; cbn [rfill entries]; generalize (match o with Some _ => [(key, s)] | None => [] end); intros e.
  - by rewrite (app_assoc e), (Permutation_app_comm (e ++ entries t')), <- !app_assoc.
  - by rewrite (app_assoc e), (Permutation_app_comm e), <- !app_assoc.
Qed.

(** ** Representation *)

Definition cell (key : list bool) (o : option isc_prefix) (s : slots) (par l r : Z) : radix_node :=
  mkRnode (Z.of_nat (length key)) o l r par (s_data s) (s_num s).

Fixpoint rep (h : gmap Z radix_node) (par : Z) (t : rtree) : Prop :=
  match t with
  | RLeaf => True
  | RNode key o s l x r =>
      x <> 0 /\ h !! x = Some (cell key o s par (rptr l) (rptr r)) /\ rep h x l /\ rep h x r
  end.

Fixpoint rep_ctx (h : gmap Z radix_node) (k : list rframe) (hole : Z) : Prop :=
  match k with
  | [] => True
  | RFrame d key o s x t :: k =>
      x <> 0
      /\ h !! x = Some (cell key o s (rup k) (if d then rptr t else hole) (if d then hole else rptr t))
      /\ rep h x t /\ rep_ctx h k x
  end.

Lemma rptr_fill f t : rptr (rfill f t) = rup [f].
Proof. by destruct f as [[] ? ? ? ?]. Qed.

Lemma rrep_plug h k t : rep h 0 (rplug k t) <-> rep_ctx h k (rptr t) /\ rep h (rup k) t.
Proof.
  revert t. induction k as [|[d key o s x t'] k IH]; intros t; cbn [rplug rep_ctx rup].
  - tauto.
  - rewrite IH, rptr_fill. destruct d; cbn [rfill rep rup]; tauto.
Qed.

Lemma rrep_agree h h' par t :
  (forall q, q ∈ addrs t -> h' !! q = h !! q) -> rep h par t -> rep h' par t.
Proof.
  revert par. induction t as [|key o s l IHl x r IHr]; intros par H; cbn; [done|].
  intros (Hx & Hn & Hl & Hr).
  assert (Hin : forall q, q = x \/ q ∈ addrs l \/ q ∈ addrs r -> h' !! q = h !! q).
  { intros q Hq. apply H. cbn. rewrite elem_of_cons, elem_of_app. tauto. }
  split_and!; [done|rewrite Hin; tauto|apply IHl; auto|apply IHr; auto].
Qed.

Lemma rrep_ctx_agree h h' k hole :
  (forall q, q ∈ around k -> h' !! q = h !! q) -> rep_ctx h k hole -> rep_ctx h' k hole.
Proof.
  revert hole. induction k as [|[d key o s x t] k IH]; intros hole H; cbn; [done|].
  intros (Hx & Hn & Ht & Hk).
  assert (Hin : forall q, q = x \/ q ∈ addrs t \/ q ∈ around k -> h' !! q = h !! q).
  { intros q Hq. apply H. cbn. rewrite elem_of_cons, elem_of_app. tauto. }
  split_and!; [done|rewrite Hin; tauto|apply (rrep_agree h); auto|apply IH; auto].
Qed.

(** ** Well-formed trees *)

(** The bits of a prefix. *)
Definition pbits (p : isc_prefix) : list bool := take (Z.to_nat (bitlen p)) (bits_of (add p)).

(** A prefix as the callers make them: 16 octets and a length that fits the
    family. *)
Record prefix_ok (p : isc_prefix) : Prop := {
  po_bytes : bytes (add p);
  po_size : length (add p) = 16%nat;
  po_len : 0 <= bitlen p;
  po_family : (family p = AF_INET /\ bitlen p <= 32) \/ (family p = AF_INET6 /\ bitlen p <= 128)
              \/ (family p = AF_UNSPEC /\ bitlen p = 0)
}.

Definition glue_slots : slots := mkSlots (0, 0) (-1, -1).

(** A node is in its place: a glue node is empty, a prefix has the bits of the
    node, and a node with an IPv4 number has at most 32 of them. *)
Definition node_ok (key : list bool) (o : option isc_prefix) (s : slots) : Prop :=
  match o with
  | None => s = glue_slots
  | Some p => prefix_ok p /\ pbits p = key /\ ((s_num s).1 <> -1 -> (length key <= 32)%nat)
  end.

(** Every node of [t] extends [pfx]; a glue node has two children. *)
Fixpoint wf (pfx : list bool) (t : rtree) : Prop :=
  match t with
  | RLeaf => True
  | RNode key o s l x r =>
      pfx `prefix_of` key /\ node_ok key o s
      /\ (o = None -> l <> RLeaf /\ r <> RLeaf)
      /\ wf (key ++ [false]) l /\ wf (key ++ [true]) r
  end.

Definition hole_key (k : list rframe) : list bool :=
  match k with [] => [] | RFrame d key _ _ _ _ :: _ => key ++ [d] end.

Definition glue_hole (k : list rframe) : Prop :=
  match k with RFrame _ _ None _ _ _ :: _ => True | _ => False end.

Fixpoint wf_ctx (k : list rframe) : Prop :=
  match k with
  | [] => True
  | RFrame d key o s x t :: k =>
      hole_key k `prefix_of` key /\ node_ok key o s /\ (o = None -> t <> RLeaf)
      /\ wf (key ++ [negb d]) t /\ wf_ctx k
  end.

Lemma rfill_not_leaf f t : rfill f t <> RLeaf.
Proof. by destruct f as [[] ? ? ? ?]. Qed.

Lemma wf_plug k t :
  wf [] (rplug k t) <-> wf_ctx k /\ wf (hole_key k) t /\ (glue_hole k -> t <> RLeaf).
Proof.
  revert t. induction k as [|[d key o s x t'] k IH]; intros t; cbn [rplug wf_ctx hole_key glue_hole].
  - tauto.
  - rewrite IH. pose proof (rfill_not_leaf (RFrame d key o s x t') t).
    destruct d, o; cbn [rfill wf negb]; intuition congruence.
Qed.

Lemma rplug_app k1 k2 t : rplug (k1 ++ k2) t = rplug k2 (rplug k1 t).
Proof. revert t. induction k1 as [|f k1 IH]; intros t; [done|]. apply IH. Qed.

Lemma wf_fill pfx d key o s x t' t :
  wf pfx (rfill (RFrame d key o s x t') t) ->
  pfx `prefix_of` key /\ wf (key ++ [d]) t /\ wf (key ++ [negb d]) t'.
Proof. destruct d; cbn [rfill wf negb]; tauto. Qed.

(** A node below a position extends the bits of the position. *)
Lemma wf_below k pfx key o s l x r :
  wf pfx (rplug k (RNode key o s l x r)) -> pfx `prefix_of` key.
Proof.
  revert pfx. induction k as [|[d fk fo fs fx ft] k IH] using rev_ind; intros pfx.
  - by intros [? _].
  - rewrite rplug_app. intros (H1 & H2 & _)%wf_fill. etrans; [exact H1|].
    etrans; [|exact (IH _ H2)]. by apply prefix_app_r.
Qed.

Lemma root_below k pfx key o s l x r :
  wf pfx (rplug k (RNode key o s l x r)) ->
  exists key' o' s' l' x' r', rplug k (RNode key o s l x r) = RNode key' o' s' l' x' r'
    /\ key' `prefix_of` key.
Proof.
  destruct k as [|[d fk fo fs fx ft] k _] using rev_ind.
  - intros _. by eexists _, _, _, _, _, _.
  - rewrite rplug_app. intros (H1 & H2 & _)%wf_fill. apply wf_below in H2.
    destruct d; cbn [rplug rfill]; eexists _, _, _, _, _, _; (split; [done|]);
      (etrans; [|exact H2]; by apply prefix_app_r).
Qed.

(** The way down, bit by bit. *)
Definition on_path (bits : list bool) (blen : nat) (k : list rframe) : Prop :=
  Forall (fun '(RFrame d key _ _ _ _) => (length key < blen)%nat -> bits !! length key = Some d) k.

Definition child (d : bool) (l r : rtree) : rtree := if d then r else l.

Lemma rnode_at_Done h p n : h !! p = Some n -> rnode_at h p = Done n.
Proof. unfold rnode_at. by intros ->. Qed.

Lemma rptr_zero h par t : rep h par t -> (rptr t =? 0) = bool_decide (t = RLeaf).
Proof.
  destruct t as [|key o s l x r]; [done|]. intros (Hx & _). cbn [rptr].
  rewrite (proj2 (Z.eqb_neq x 0)) by done. by rewrite bool_decide_false.
Qed.

Lemma wf_length pfx key o s l x r :
  wf pfx (RNode key o s l x r) -> (length key <= 128)%nat /\ (l <> RLeaf \/ r <> RLeaf -> (length key < 128)%nat).
Proof.
  assert (H : forall t pfx key o s l x r, t = RNode key o s l x r -> wf pfx t -> (length key <= 128)%nat).
  { clear. induction t as [|key o s l IHl x r _]; intros pfx key' o' s' l' x' r' E Hwf; [done|].
    injection E as <- <- <- <- <- <-. destruct Hwf as (_ & Hok & Hg & Hl & _). destruct o as [p|].
    - destruct Hok as (Hp & <- & _). unfold pbits. rewrite length_take, length_bits, (po_size _ Hp). lia.
    - destruct Hg as [Hl0 _]; [done|]. destruct l as [|kl ol sl ll xl rl]; [done|].
      pose proof (IHl _ _ _ _ _ _ _ eq_refl Hl). destruct Hl as (Hpre & _).
      apply prefix_length in Hpre. rewrite length_app in Hpre. cbn in Hpre. lia. }
  intros Hwf. split; [by eapply H|]. destruct Hwf as (_ & _ & _ & Hl & Hr).
  intros Hne. destruct Hne as [Hne|Hne];
    [destruct l as [|kl ol sl ll xl rl]; [done|]; pose proof (H _ _ _ _ _ _ _ _ eq_refl Hl); destruct Hl as (Hpre & _)
    |destruct r as [|kl ol sl ll xl rl]; [done|]; pose proof (H _ _ _ _ _ _ _ _ eq_refl Hr); destruct Hr as (Hpre & _)];
    apply prefix_length in Hpre; rewrite length_app in Hpre; cbn in Hpre; lia.
Qed.

Lemma addr_bit a (n : nat) :
  length a = 16%nat -> (n < 128)%nat -> exists b, bits_of a !! n = Some b.
Proof. intros Ha Hn. apply lookup_lt_is_Some. rewrite length_bits. lia. Qed.

Lemma descend_spec h a (blen : nat) k t :
  rep h (rup k) t -> wf (hole_key k) t -> t <> RLeaf -> bytes a -> length a = 16%nat ->
  on_path (bits_of a) blen k ->
  exists k' key p s l x r, rplug k t = rplug k' (RNode key (Some p) s l x r)
    /\ on_path (bits_of a) blen k'
    /\ (forall b, (length key < blen)%nat -> bits_of a !! length key = Some b -> child b l r = RLeaf)
    /\ (forall fuel, (length (addrs t) <= fuel)%nat ->
          loop fuel (descend_body h a (Z.of_nat blen) RADIX_MAXBITS) (rptr t) = Done x).
Proof.
  intros Hrep Hwf Hne Ha Ha16. revert k Hrep Hwf Hne.
  induction t as [|key o s l IHl x r IHr]; intros k Hrep Hwf Hne Hpath; [done|].
  pose proof (wf_length _ _ _ _ _ _ _ Hwf) as [Hlen Hlen'].
  destruct Hrep as (Hx & Hn & Hl & Hr). destruct Hwf as (Hpre & Hok & Hglue & Hwl & Hwr).
  assert (Hbody : descend_body h a (Z.of_nat blen) RADIX_MAXBITS x
    = if (length key <? blen)%nat || bool_decide (o = None) then
        let* b := (if (length key <? 128)%nat then BIT_TEST a (Z.of_nat (length key)) else Done false) in
        Done (if rptr (child b l r) =? 0 then inr x else inl (rptr (child b l r)))
      else Done (inr x)).
  { unfold descend_body. rewrite (rnode_at_Done _ _ _ Hn). cbn [obind rn_bit rn_prefix rn_l rn_r cell].
    unfold RADIX_MAXBITS. replace (Z.of_nat (length key) <? Z.of_nat blen) with (length key <? blen)%nat by lia.
    replace (Z.of_nat (length key) <? 128) with (length key <? 128)%nat by lia.
    destruct (_ || _); [|done]. destruct (length key <? 128)%nat; cbn [obind]; [|done].
    destruct (BIT_TEST a _) as [[]| | |]; done. }
  assert (Hstop : forall p, o = Some p ->
     (forall b, (length key < blen)%nat -> bits_of a !! length key = Some b -> child b l r = RLeaf) ->
     descend_body h a (Z.of_nat blen) RADIX_MAXBITS x = Done (inr x) ->
     exists k' key' p s' l' x' r', rplug k (RNode key o s l x r) = rplug k' (RNode key' (Some p) s' l' x' r')
    /\ on_path (bits_of a) blen k'
    /\ (forall b, (length key' < blen)%nat -> bits_of a !! length key' = Some b -> child b l' r' = RLeaf)
    /\ (forall fuel, (length (addrs (RNode key o s l x r)) <= fuel)%nat ->
          loop fuel (descend_body h a (Z.of_nat blen) RADIX_MAXBITS) x = Done x')).
  { intros p -> Hc Hb. exists k, key, p, s, l, x, r. split_and!; try done.
    intros [|fuel] Hf; [cbn in Hf; lia|]. cbn [loop]. by rewrite Hb. }
  destruct ((length key <? blen)%nat || bool_decide (o = None)) eqn:Ego.
  2:{ apply orb_false_iff in Ego as [E1 E2%bool_decide_eq_false]. destruct o as [p|]; [|done].
      apply (Hstop p); [done|lia|done]. }
  assert (Hdir : exists b, (if (length key <? 128)%nat then BIT_TEST a (Z.of_nat (length key)) else Done false) = Done b
     /\ ((length key < blen)%nat -> bits_of a !! length key = Some b \/ child b l r = RLeaf /\ length key = 128%nat)).
  { destruct (length key <? 128)%nat eqn:E.
    - destruct (addr_bit a (length key) Ha16 ltac:(lia)) as (b & Hb). exists b. split; [|by left].
      apply BIT_TEST_spec; [done|lia|]. by rewrite Nat2Z.id.
    - exists false. split; [done|]. intros _. right. split; [|lia]. cbn.
      destruct l; [done|]. assert (length key < 128)%nat by (apply Hlen'; by left). lia. }
  destruct Hdir as (b & Hb & Hbits). rewrite Hb in Hbody. cbn [obind] in Hbody.
  assert (Hc : rep h x (child b l r)) by (by destruct b).
  rewrite (rptr_zero _ _ _ Hc) in Hbody. case_bool_decide as Ec.
  { destruct o as [p|]; [|destruct (Hglue eq_refl); by destruct b].
    apply (Hstop p); [done| |done]. intros b' Hlt Hb'.
    destruct (Hbits Hlt) as [Hb''|[_ H128]]; [|by rewrite H128, lookup_ge_None_2 in Hb' by (rewrite length_bits; lia)].
    assert (b' = b) as -> by congruence. done. }
  set (f := RFrame b key o s x (child (negb b) l r)).
  assert (Hf : rplug k (RNode key o s l x r) = rplug (f :: k) (child b l r)) by (by destruct b).
  assert (Hpath' : on_path (bits_of a) blen (f :: k)).
  { constructor; [|done]. intros Hlt. destruct (Hbits Hlt) as [?|[? _]]; done. }
  assert (IH : exists k' key' p s' l' x' r', rplug (f :: k) (child b l r) = rplug k' (RNode key' (Some p) s' l' x' r')
    /\ on_path (bits_of a) blen k'
    /\ (forall b, (length key' < blen)%nat -> bits_of a !! length key' = Some b -> child b l' r' = RLeaf)
    /\ (forall fuel, (length (addrs (child b l r)) <= fuel)%nat ->
          loop fuel (descend_body h a (Z.of_nat blen) RADIX_MAXBITS) (rptr (child b l r)) = Done x')).
  { destruct b; [apply IHr|apply IHl]; done. }
  destruct IH as (k' & key' & p & s' & l' & x' & r' & E & Hk' & Hend & Hloop).
  exists k', key', p, s', l', x', r'. split_and!; [congruence|done|done|].
  intros [|fuel] Hfuel; [cbn in Hfuel; lia|]. cbn [loop rptr]. rewrite Hbody. apply Hloop.
  cbn [addrs] in Hfuel. cbn [length] in Hfuel. rewrite length_app in Hfuel. destruct b; cbn [child]; lia.
Qed.

Definition frame_len (f : rframe) : nat := let '(RFrame _ key _ _ _ _) := f in length key.

(** The way up: past the frames of at least [d] bits. *)
Lemma climb_spec h (d : nat) k t :
  rep_ctx h k (rptr t) ->
  exists k2 k1, k = k2 ++ k1 /\ Forall (fun f => (d <= frame_len f)%nat) k2
    /\ match k1 with [] => True | f :: _ => (frame_len f < d)%nat end
    /\ (forall fuel, (length k < fuel)%nat ->
          loop fuel (climb_body h (Z.of_nat d)) (rptr t, rup k) = Done (rptr (rplug k2 t))).
Proof.
  revert t. induction k as [|[b key o s x t'] k IH]; intros t Hk.
  - exists [], []. split_and!; [done|constructor|done|]. intros [|fuel] Hf; [lia|]. done.
  - destruct Hk as (Hx & Hn & Ht & Hk).
    assert (Hbody : climb_body h (Z.of_nat d) (rptr t, x)
       = Done (if (d <=? length key)%nat then inl (x, rup k) else inr (rptr t))).
    { unfold climb_body. rewrite (proj2 (Z.eqb_neq x 0)) by done. rewrite (rnode_at_Done _ _ _ Hn).
      cbn [obind rn_bit rn_parent cell]. replace (Z.of_nat d <=? Z.of_nat (length key)) with (d <=? length key)%nat by lia.
      by destruct (d <=? length key)%nat. }
    destruct (d <=? length key)%nat eqn:E.
    + destruct (IH (rfill (RFrame b key o s x t') t)) as (k2 & k1 & -> & Hk2 & Hk1 & Hloop).
      { by rewrite rptr_fill. }
      exists (RFrame b key o s x t' :: k2), k1. split_and!; [done| |done|].
      * constructor; [cbn; lia|done].
      * intros [|fuel] Hf; [lia|]. cbn [loop rup]. rewrite Hbody. cbn [rplug].
        rewrite rptr_fill in Hloop. apply Hloop. cbn in Hf. lia.
    + exists [], (RFrame b key o s x t' :: k). split_and!; [done|constructor|cbn; lia|].
      intros [|fuel] Hf; [lia|]. cbn [loop rup]. by rewrite Hbody.
Qed.

Lemma prefix_take {A} (l1 l2 : list A) : l1 `prefix_of` l2 -> l1 = take (length l1) l2.
Proof. intros [l ->]. by rewrite take_app_length. Qed.

Lemma prefix_of_take {A} (l1 l2 : list A) n : l1 `prefix_of` l2 -> (length l1 <= n)%nat -> l1 `prefix_of` take n l2.
Proof.
  intros [l ->] Hn. rewrite take_app_ge by lia. by apply prefix_app_r.
Qed.

(** Where the new prefix belongs: the node [K] at the position [k1] has the same
    first [n] bits, the frames around have fewer. *)
Record place (q : list bool) (n : nat) (k1 : list rframe) (K : list bool) : Prop := {
  pl_key : take n q = take n K;
  pl_n : (n <= length K)%nat /\ (n <= length q)%nat;
  pl_hole : hole_key k1 `prefix_of` take n q
}.

Lemma place_of q n k1 k2 key o s l x r :
  wf_ctx k1 -> wf (hole_key k1) (rplug k2 (RNode key o s l x r)) ->
  Forall (fun f => (n <= frame_len f)%nat) k2 ->
  match k1 with [] => True | f :: _ => (frame_len f < n)%nat end ->
  take n q = take n key -> (n <= length q)%nat -> (n <= length key)%nat ->
  exists K o' s' l' x' r', rplug k2 (RNode key o s l x r) = RNode K o' s' l' x' r'
    /\ K `prefix_of` key /\ place q n k1 K.
Proof.
  intros Hk1 Hwf Hk2 Hlt Htake Hq Hkey.
  destruct (root_below _ _ _ _ _ _ _ _ Hwf) as (K & o' & s' & l' & x' & r' & E & HK).
  exists K, o', s', l', x', r'. split_and!; [done|done|].
  assert (HnK : (n <= length K)%nat).
  { destruct k2 as [|[b fk fo fs fx ft] k2 _] using rev_ind.
    - cbn in E. injection E as -> -> -> -> -> ->. done.
    - apply Forall_app in Hk2 as [_ Hk2]. apply Forall_inv in Hk2. cbn in Hk2.
      rewrite rplug_app in E. destruct b; cbn in E; injection E as <-; done. }
  assert (HtK : take n q = take n K).
  { rewrite Htake, (prefix_take _ _ HK), take_take, Nat.min_l by done. done. }
  split; [done|done|]. rewrite HtK. rewrite E in Hwf. destruct Hwf as (Hhole & _).
  apply prefix_of_take; [done|]. destruct k1 as [|[b fk fo fs fx ft] k1]; cbn in *; [lia|].
  rewrite length_app. cbn. lia.
Qed.

(** ** Linking the new node *)

Ltac rlook :=
  first [ eassumption
        | rewrite lookup_insert_eq; reflexivity
        | rewrite lookup_insert_ne by congruence; rlook ].

Ltac raccess :=
  match goal with
  | |- context [rnode_at ?h ?p] => erewrite (rnode_at_Done h p) by rlook
  end; cbn [obind].

Ltac run_radix := unfold rassign; cbn [obind]; repeat raccess.

Lemma rptr_in t : t <> RLeaf -> rptr t ∈ addrs t.
Proof. destruct t; [done|]. intros _. cbn. by left. Qed.

Lemma rptr_other t x : x <> 0 -> x ∉ addrs t -> rptr t <> x.
Proof. intros Hx Hin <-. destruct t; [done|]. apply Hin. by left. Qed.

(** The parent of the hole gets a new child. *)
Lemma rrep_ctx_child (h h' : gmap Z radix_node) (d : bool) key o s x t k hole :
  rep_ctx h k x -> rep h x t -> x <> 0 ->
  h' !! x = Some (cell key o s (rup k) (if d then rptr t else hole) (if d then hole else rptr t)) ->
  (forall q, q ∈ addrs t \/ q ∈ around k -> h' !! q = h !! q) ->
  rep_ctx h' (RFrame d key o s x t :: k) hole.
Proof.
  intros Hk Ht Hx Hn Hag. cbn. split_and!; [done|done| |].
  - apply (rrep_agree h); [|done]. intros q Hq. apply Hag. auto.
  - apply (rrep_ctx_agree h); [|done]. intros q Hq. apply Hag. auto.
Qed.

Lemma replace_link_rep (h : gmap Z radix_node) k head node child n :
  rep_ctx h k node -> NoDup (around k) -> node <> 0 -> node ∉ around k ->
  h !! node = Some n -> rn_parent n = rup k -> (k = [] -> head = node) ->
  exists h', replace_link h head node child = Done (h', match k with [] => child | _ => head end)
    /\ rep_ctx h' k child /\ (forall q, q ∉ around k -> h' !! q = h !! q).
Proof.
  intros Hk Hd H0 Hnk Hn Hpar Hhead. unfold replace_link. run_radix. rewrite Hpar.
  destruct k as [|[d key o s x t] k]; cbn [rup].
  - rewrite Hhead by done. rewrite Z.eqb_refl, require_true by lia. by exists h.
  - destruct Hk as (Hx & Hnx & Ht & Hk). rewrite (proj2 (Z.eqb_neq x 0)) by done. run_radix.
    cbn [around] in Hd, Hnk. rewrite elem_of_cons, elem_of_app in Hnk.
    apply NoDup_cons in Hd as [Hxk Hd]. rewrite elem_of_app in Hxk.
    assert (Hpt : rptr t <> node) by (apply rptr_other; tauto). cbn [rn_r cell].
    assert (Hctx : rep_ctx (<[x := cell key o s (rup k) (if d then rptr t else child) (if d then child else rptr t)]> h)
                     (RFrame d key o s x t :: k) child).
    { apply (rrep_ctx_child h); try done; [rlook|]. intros q Hq. apply lookup_insert_ne. intros <-. tauto. }
    assert (Hout : forall q n', q ∉ x :: addrs t ++ around k -> <[x := n']> h !! q = h !! q).
    { intros q n' Hq. apply lookup_insert_ne. intros <-. apply Hq. by left. }
    destruct d; [rewrite Z.eqb_refl|rewrite (proj2 (Z.eqb_neq (rptr t) node)) by done]; run_radix;
      eexists; (split; [done|]); (split; [exact Hctx|]); intros q Hq; by apply Hout.
Qed.

(** The subtree whose root gets a new parent. *)
Lemma rrep_move (h h' : gmap Z radix_node) par par' key o s l x r :
  rep h par (RNode key o s l x r) -> NoDup (addrs (RNode key o s l x r)) ->
  h' !! x = Some (cell key o s par' (rptr l) (rptr r)) ->
  (forall q, q ∈ addrs l \/ q ∈ addrs r -> h' !! q = h !! q) -> rep h' par' (RNode key o s l x r).
Proof.
  cbn [rep addrs]. intros (Hx & _ & Hl & Hr) Hd Hn Hag. split_and!; [done|done| |].
  - apply (rrep_agree h); [|done]. intros q Hq. apply Hag. auto.
  - apply (rrep_agree h); [|done]. intros q Hq. apply Hag. auto.
Qed.

Lemma rptr_plug_same k t t' : rptr t = rptr t' -> rptr (rplug k t) = rptr (rplug k t').
Proof.
  revert t t'. induction k as [|f k IH]; intros t t' E; [done|]. cbn. apply IH. by rewrite !rptr_fill.
Qed.

Section Link.
Context (h : gmap Z radix_node) (k : list rframe).
Context (K : list bool) (o : option isc_prefix) (s : slots) (l : rtree) (x : Z) (r : rtree).
Context (new : Z) (q : list bool) (np : option isc_prefix) (sn : slots).

Hypothesis Hrep : rep h 0 (rplug k (RNode K o s l x r)).
Hypothesis Hnodup : NoDup (addrs (rplug k (RNode K o s l x r))).
Hypothesis Hnew : new <> 0 /\ new ∉ addrs (rplug k (RNode K o s l x r)).

(** The store with the new node, not yet linked. *)
Let h1 : gmap Z radix_node := <[new := cell q np sn 0 0 0]> h.
Let head : Z := rptr (rplug k (RNode K o s l x r)).
Let New : rtree := RNode q np sn RLeaf new RLeaf.

Lemma link_facts :
  rep_ctx h k x /\ x <> 0 /\ h !! x = Some (cell K o s (rup k) (rptr l) (rptr r))
  /\ rep h x l /\ rep h x r /\ NoDup (around k)
  /\ x ∉ around k /\ x ∉ addrs l /\ x ∉ addrs r
  /\ new <> x /\ new ∉ around k /\ new ∉ addrs l /\ new ∉ addrs r
  /\ (forall y, y ∈ addrs l \/ y ∈ addrs r -> y ∉ around k) /\ NoDup (x :: addrs l ++ addrs r).
Proof.
  pose proof Hrep as H. apply rrep_plug in H as [Hk (Hx & Hn & Hl & Hr)]. cbn [rptr] in Hk.
  pose proof Hnodup as Hd. rewrite addrs_plug in Hd. apply NoDup_app in Hd as (Hd1 & Hd2 & Hd3).
  destruct Hnew as [_ Hn1]. rewrite addrs_plug in Hn1. cbn [addrs] in *.
  rewrite elem_of_app, elem_of_cons, elem_of_app in Hn1.
  assert (Hsep : forall y, y = x \/ y ∈ addrs l \/ y ∈ addrs r -> y ∉ around k).
  { intros y Hy. apply Hd2. rewrite elem_of_cons, elem_of_app. tauto. }
  pose proof Hd1 as Hd1'. apply NoDup_cons in Hd1' as [Hxlr _]. rewrite elem_of_app in Hxlr.
  split_and!; try done; try tauto; [apply Hsep; tauto|]. intros y Hy. apply Hsep. tauto.
Qed.

Lemma head_of : k = [] -> head = x.
Proof. intros ->. done. Qed.

(** Below the node. *)
Lemma link_below (b : bool) addr test :
  child b l r = RLeaf -> (length K < 128)%nat -> BIT_TEST addr (Z.of_nat (length K)) = Done b ->
  exists h', link_new_node h1 head RADIX_MAXBITS x new 0 addr test (Z.of_nat (length q)) (Z.of_nat (length K))
      = Done (h', rptr (rplug (RFrame b K o s x (child (negb b) l r) :: k) New))
    /\ rep h' 0 (rplug (RFrame b K o s x (child (negb b) l r) :: k) New)
    /\ (forall y, y <> new -> y ∉ addrs (rplug k (RNode K o s l x r)) -> h' !! y = h !! y).
Proof.
  destruct link_facts as (Hk & Hx & Hn & Hl & Hr & Hdk & Hxk & Hxl & Hxr & Hnx & Hnk & Hnl & Hnr & Hsep & _).
  intros Hc HK Hb. unfold link_new_node, h1. run_radix. cbn [rn_bit rn_l rn_r cell].
  rewrite Z.eqb_refl. run_radix. rewrite (proj2 (Z.ltb_lt _ _)) by (unfold RADIX_MAXBITS; lia).
  rewrite Hb. cbn [obind]. rewrite insert_insert_eq.
  assert (Hhead : head = rptr (rplug (RFrame b K o s x (child (negb b) l r) :: k) New)).
  { unfold head. cbn [rplug]. apply rptr_plug_same. by destruct b. }
  assert (Hgoal : forall h', h' = <[x := cell K o s (rup k) (if b then rptr l else new) (if b then new else rptr r)]>
              (<[new := cell q np sn x 0 0]> h) ->
     rep h' 0 (rplug (RFrame b K o s x (child (negb b) l r) :: k) New)
     /\ (forall y, y <> new -> y ∉ addrs (rplug k (RNode K o s l x r)) -> h' !! y = h !! y)).
  { intros h' ->. split.
    - apply rrep_plug. split.
      + apply (rrep_ctx_child h); try done; [by destruct b|rewrite lookup_insert_eq; by destruct b|].
        intros y Hy. rewrite !lookup_insert_ne; [done|..]; intros <-; destruct b; cbn in Hy; tauto.
      + cbn. split_and!; [tauto| |done|done]. rewrite lookup_insert_ne by congruence. apply lookup_insert_eq.
    - intros y Hy Hin. rewrite !lookup_insert_ne; [done|congruence|]. intros <-. apply Hin.
      rewrite addrs_plug. cbn. by left. }
  assert (Hz : rptr (child b l r) = 0) by (by rewrite Hc).
  destruct b; cbn [child] in Hz; rewrite require_true by lia; run_radix;
    (eexists; split; [by rewrite Hhead|]; apply Hgoal; done).
Qed.

(** A node that is not in the tree takes the place of [x], which goes below it. *)
Lemma link_over (h2 : gmap Z radix_node) over (c : radix_node) :
  over <> x -> over ∉ around k -> over ∉ addrs l -> over ∉ addrs r ->
  (forall y, y ∈ addrs (rplug k (RNode K o s l x r)) -> h2 !! y = h !! y) -> h2 !! over = Some c ->
  exists h3, replace_link h2 head x over = Done (h3, match k with [] => over | _ => head end)
    /\ exists n3, h3 !! x = Some n3 /\ with_rn_parent over n3 = cell K o s over (rptr l) (rptr r)
    /\ rep_ctx (<[x := with_rn_parent over n3]> h3) k over
    /\ rep (<[x := with_rn_parent over n3]> h3) over (RNode K o s l x r)
    /\ <[x := with_rn_parent over n3]> h3 !! over = Some c
    /\ (forall y, y <> x -> y ∉ around k -> <[x := with_rn_parent over n3]> h3 !! y = h2 !! y).
Proof.
  destruct link_facts as (Hk & Hx & Hn & Hl & Hr & Hdk & Hxk & Hxl & Hxr & _ & _ & _ & _ & Hsep & Hd).
  intros Ho Hok Hol Hor Hag Hc.
  assert (Hag' : forall y, y = x \/ y ∈ addrs l \/ y ∈ addrs r \/ y ∈ around k -> h2 !! y = h !! y).
  { intros y Hy. apply Hag. rewrite addrs_plug. cbn. rewrite elem_of_cons, !elem_of_app. tauto. }
  destruct (replace_link_rep h2 k head x over (cell K o s (rup k) (rptr l) (rptr r)))
    as (h3 & E3 & Hk3 & Ho3); try done.
  { apply (rrep_ctx_agree h); [|done]. intros y Hy. apply Hag'. tauto. }
  { rewrite Hag' by tauto. done. }
  { exact head_of. }
  exists h3. split; [done|]. exists (cell K o s (rup k) (rptr l) (rptr r)).
  assert (Hx3 : h3 !! x = Some (cell K o s (rup k) (rptr l) (rptr r))).
  { rewrite Ho3, Hag' by tauto. done. }
  split_and!; [done|done| | | |].
  - apply (rrep_ctx_agree h3); [|done]. intros y Hy. apply lookup_insert_ne. by intros <-.
  - apply (rrep_move h _ (rup k)); [by split_and!|done|apply lookup_insert_eq|].
    intros y Hy. rewrite lookup_insert_ne by (intros <-; tauto). rewrite Ho3 by (by apply Hsep).
    apply Hag'. tauto.
  - rewrite lookup_insert_ne by done. by rewrite Ho3.
  - intros y Hy Hyk. rewrite lookup_insert_ne by done. by apply Ho3.
Qed.

Lemma head_over b key' o' s' y t (t' : rtree) :
  match k with [] => y | _ => head end = rptr (rplug (RFrame b key' o' s' y t :: k) t').
Proof.
  cbn [rplug]. unfold head. destruct k as [|f k']; [by destruct b|].
  cbn [rplug]. apply rptr_plug_same. by rewrite !rptr_fill.
Qed.

(** Above the node. *)
Lemma link_above (b : bool) addr test glue :
  length K <> length q -> (length q < 128)%nat -> BIT_TEST test (Z.of_nat (length q)) = Done b ->
  exists h', link_new_node h1 head RADIX_MAXBITS x new glue addr test (Z.of_nat (length q)) (Z.of_nat (length q))
      = Done (h', rptr (rplug (RFrame b q np sn new RLeaf :: k) (RNode K o s l x r)))
    /\ rep h' 0 (rplug (RFrame b q np sn new RLeaf :: k) (RNode K o s l x r))
    /\ (forall y, y <> new -> y ∉ addrs (rplug k (RNode K o s l x r)) -> h' !! y = h !! y).
Proof.
  destruct link_facts as (Hk & Hx & Hn & Hl & Hr & Hdk & Hxk & Hxl & Hxr & Hnx & Hnk & Hnl & Hnr & Hsep & _).
  intros HKq Hq Hb. unfold link_new_node, h1. run_radix. cbn [rn_bit cell rn_parent].
  rewrite (proj2 (Z.eqb_neq _ _)), Z.eqb_refl by lia.
  rewrite (proj2 (Z.ltb_lt _ _)) by (unfold RADIX_MAXBITS; lia). rewrite Hb. cbn [obind].
  set (c := cell q np sn (rup k) (if b then 0 else x) (if b then x else 0)).
  destruct (link_over (<[new := c]> h) new c) as (h3 & E3 & n3 & Hn3 & En3 & Hk3 & Hrep3 & Hnew3 & Hout3); try done.
  { intros y Hy. apply lookup_insert_ne. intros <-. by apply Hnew. }
  { apply lookup_insert_eq. }
  assert (Hend : forall h2, h2 = <[new := c]> h ->
    (let* (h, head) := replace_link h2 head x new in
     let* h := rassign (with_rn_parent new) h x in Done (h, head))
    = Done (<[x := with_rn_parent new n3]> h3,
            rptr (rplug (RFrame b q np sn new RLeaf :: k) (RNode K o s l x r)))).
  { intros h2 ->. rewrite E3. cbn [obind]. run_radix. do 2 f_equal. apply head_over. }
  exists (<[x := with_rn_parent new n3]> h3). split; [|split].
  - destruct b; run_radix; rewrite !insert_insert_eq; by apply Hend.
  - apply rrep_plug. split; [|exact Hrep3]. cbn [rep_ctx]. split_and!; [tauto| |done|done].
    rewrite Hnew3. unfold c. by destruct b.
  - intros y Hy Hin. rewrite addrs_plug in Hin. cbn in Hin. rewrite elem_of_cons, !elem_of_app in Hin.
    rewrite Hout3 by tauto. apply lookup_insert_ne. congruence.
Qed.

(** Beside the node, under a glue node. *)
Lemma link_beside (b : bool) addr test glue (n : nat) :
  length K <> n -> length q <> n -> (n < 128)%nat -> BIT_TEST addr (Z.of_nat n) = Done b ->
  glue <> 0 -> glue <> new -> glue ∉ addrs (rplug k (RNode K o s l x r)) -> length (take n q) = n ->
  exists h', link_new_node h1 head RADIX_MAXBITS x new glue addr test (Z.of_nat (length q)) (Z.of_nat n)
      = Done (h', rptr (rplug (RFrame (negb b) (take n q) None glue_slots glue New :: k) (RNode K o s l x r)))
    /\ rep h' 0 (rplug (RFrame (negb b) (take n q) None glue_slots glue New :: k) (RNode K o s l x r))
    /\ (forall y, y <> new -> y <> glue -> y ∉ addrs (rplug k (RNode K o s l x r)) -> h' !! y = h !! y).
Proof.
  destruct link_facts as (Hk & Hx & Hn & Hl & Hr & Hdk & Hxk & Hxl & Hxr & Hnx & Hnk & Hnl & Hnr & Hsep & _).
  intros HK Hq Hn128 Hb Hg0 Hgn Hgt Hlen. unfold link_new_node, h1. run_radix. cbn [rn_bit cell rn_parent].
  rewrite !(proj2 (Z.eqb_neq _ _)) by lia. rewrite require_true by lia. cbn [obind].
  rewrite (proj2 (Z.ltb_lt _ _)) by (unfold RADIX_MAXBITS; lia). rewrite Hb. cbn [obind].
  set (c := mkRnode (Z.of_nat n) None (if b then x else new) (if b then new else x) (rup k) (0, 0) (-1, -1)).
  pose proof Hgt as Hgt'. rewrite addrs_plug in Hgt'. cbn in Hgt'. rewrite elem_of_cons, !elem_of_app in Hgt'.
  run_radix.
  set (h2 := <[new := with_rn_parent glue (cell q np sn 0 0 0)]> (<[glue := c]> (<[new := cell q np sn 0 0 0]> h))).
  destruct (link_over h2 glue c) as (h3 & E3 & n3 & Hn3 & En3 & Hk3 & Hrep3 & Hglue3 & Hout3); try tauto.
  { intros y Hy. unfold h2. rewrite !lookup_insert_ne; [done|..]; intros <-; try done; by apply Hnew. }
  { unfold h2. rlook. }
  rewrite E3. cbn [obind]. run_radix. eexists. split; [do 2 f_equal; apply head_over|split].
  - apply rrep_plug. split; [|exact Hrep3]. cbn [rep_ctx rptr]. split_and!; [done| | |done].
    + rewrite Hglue3. unfold c, cell. rewrite Hlen. cbn [s_data s_num glue_slots]. by destruct b.
    + cbn [rep rptr]. split_and!; [tauto| |done|done]. rewrite Hout3 by tauto. unfold h2. rlook.
  - intros y Hy Hyg Hin. rewrite addrs_plug in Hin. cbn in Hin. rewrite elem_of_cons, !elem_of_app in Hin.
    rewrite Hout3 by tauto. unfold h2. rewrite !lookup_insert_ne by congruence. done.
Qed.
End Link.

(** ** Insertion *)

(** The slots of a node for a new prefix, and the new counter. *)
Definition fresh_slots (added fam : Z) (source : option radix_node) : slots * Z :=
  let '(num, data, added) := new_numbers added fam source in (mkSlots data num, added).

(** The slots of a node whose prefix is added again. *)
Definition old_slots (added fam : Z) (source : option radix_node) (s : slots) : slots * Z :=
  let '(n, added) := old_numbers added fam source (cell [] None s 0 0 0) in
  (mkSlots (rn_data n) (node_num n), added).

(** A node that is merged in: no data without a number, and an IPv4 number only on
    a prefix that can be one. *)
Definition source_ok (p : isc_prefix) (source : option radix_node) : Prop :=
  match source with
  | None => True
  | Some n => ((node_num n).1 = -1 -> (rn_data n).1 = 0) /\ ((node_num n).2 = -1 -> (rn_data n).2 = 0)
              /\ ((node_num n).1 <> -1 -> bitlen p <= 32)
  end.

Lemma old_numbers_cell added fam source key o s par l r :
  old_numbers added fam source (cell key o s par l r)
  = (cell key o (old_slots added fam source s).1 par l r, (old_slots added fam source s).2).
Proof.
  unfold old_slots, old_numbers, cell. destruct source as [src|]; cbn.
  - destruct ((s_num s).1 =? -1), ((node_num src).1 =? -1); cbn; destruct ((s_num s).2 =? -1); done.
  - destruct (fam =? AF_UNSPEC).
    + destruct ((s_num s).1 =? -1); cbn; destruct ((s_num s).2 =? -1); done.
    + destruct (at6 (ISC_IS6 fam) (s_num s) =? -1); done.
Qed.

Lemma glue_numbers_cell added fam source p key o par l r :
  source_ok p source ->
  glue_numbers added fam source (cell key o glue_slots par l r)
  = (cell key o (fresh_slots added fam source).1 par l r, (fresh_slots added fam source).2).
Proof.
  unfold fresh_slots, glue_numbers, new_numbers, cell, source_ok. destruct source as [src|]; cbn; [|done].
  intros (H1 & H2 & _). destruct (rn_data src) as [d0 d1]. destruct (node_num src) as [n0 n1]. cbn in *.
  destruct (n0 =? -1) eqn:E0, (n1 =? -1) eqn:E1; cbn; try done;
    rewrite ?H1, ?H2 by lia; done.
Qed.

Lemma family_cases p : prefix_ok p ->
  (family p = AF_INET /\ bitlen p <= 32) \/ (family p = AF_INET6 /\ bitlen p <= 128)
  \/ (family p = AF_UNSPEC /\ bitlen p = 0).
Proof. apply po_family. Qed.

Lemma fresh_v4 added p source :
  prefix_ok p -> source_ok p source ->
  (s_num (fresh_slots added (family p) source).1).1 <> -1 -> bitlen p <= 32.
Proof.
  intros Hp Hs. unfold fresh_slots, new_numbers. destruct source as [src|]; cbn.
  - destruct ((node_num src).1 =? -1) eqn:E; [done|]. intros _. apply Hs. lia.
  - destruct (family_cases p Hp) as [[-> H]|[[-> H]|[-> H]]]; cbn; [done|done|lia].
Qed.

Lemma old_v4 added p source s :
  prefix_ok p -> source_ok p source ->
  (s_num (old_slots added (family p) source s).1).1 <> -1 -> (s_num s).1 <> -1 \/ bitlen p <= 32.
Proof.
  intros Hp Hs. unfold old_slots, old_numbers, cell. destruct source as [src|]; cbn.
  - destruct ((s_num s).1 =? -1) eqn:E1; [|left; lia].
    destruct ((node_num src).1 =? -1) eqn:E2; cbn.
    + rewrite andb_false_r. cbn. left. done.
    + right. apply Hs. lia.
  - destruct ((s_num s).1 =? -1) eqn:E1; [|left; lia].
    destruct (family_cases p Hp) as [[-> H]|[[-> H]|[-> H]]]; cbn; [auto| |right; lia].
    destruct ((s_num s).2 =? -1); cbn; auto.
Qed.

Lemma length_pbits p : prefix_ok p -> length (pbits p) = Z.to_nat (bitlen p).
Proof.
  intros Hp. unfold pbits. rewrite length_take, length_bits, (po_size _ Hp).
  pose proof (po_family _ Hp). lia.
Qed.

(** The memory for a prefix. *)
Definition pmem_ok (pmem : option (list Z)) : Prop :=
  match pmem with Some junk => bytes junk /\ length junk = 16%nat | None => False end.

Lemma take_take_le {A} (l : list A) n m : (n <= m)%nat -> take n (take m l) = take n l.
Proof. intros H. by rewrite take_take, Nat.min_l. Qed.

Lemma ref_prefix_spec pmem p :
  prefix_ok p -> pmem_ok pmem ->
  exists np, _ref_prefix pmem p = Done (ISC_R_SUCCESS, Some np) /\ prefix_ok np /\ pbits np = pbits p.
Proof.
  intros Hp Hm. destruct pmem as [junk|]; [|done]. destruct Hm as [Hj Hj16]. unfold _ref_prefix.
  pose proof (po_family _ Hp) as Hf. pose proof (po_len _ Hp) as Hl. pose proof (po_size _ Hp) as H16.
  pose proof (po_bytes _ Hp) as Hb.
  rewrite require_true by (unfold AF_INET, AF_INET6, AF_UNSPEC in *; lia). cbn [obind].
  destruct (is_static p); [|by exists p]. unfold _new_prefix.
  replace (negb (family p =? AF_INET6) && negb (family p =? AF_INET) && negb (family p =? AF_UNSPEC)) with false
    by (unfold AF_INET, AF_INET6, AF_UNSPEC in *; lia).
  unfold sub. change (Z.to_nat 0) with 0%nat. rewrite !drop_0.
  destruct (family p =? AF_INET6) eqn:E6.
  - rewrite take_ge, blit_ok by (unfold Zlen; lia). cbn [obind]. change (take (Z.to_nat 0) junk) with (@nil Z).
    rewrite drop_ge, app_nil_r by (unfold Zlen; lia). rewrite (proj2 (Z.leb_le 0 (bitlen p))) by lia.
    eexists. split; [done|]. split; [by split|done].
  - rewrite blit_ok by (unfold Zlen; rewrite ?length_take; lia). cbn [obind].
    change (take (Z.to_nat 0) junk) with (@nil Z). rewrite (proj2 (Z.leb_le 0 (bitlen p))) by lia.
    assert (E4 : Zlen (take (Z.to_nat 4) (add p)) = 4) by (unfold Zlen; rewrite length_take; lia).
    rewrite E4. change (Z.to_nat (0 + 4)) with 4%nat. change (Z.to_nat 4) with 4%nat.
    eexists. split; [done|]. split; [split; cbn|].
    + apply bytes_app. split; [by apply bytes_take|by apply bytes_drop].
    + rewrite length_app, length_take, length_drop. lia.
    + done.
    + done.
    + unfold pbits. cbn [bitlen add app].
      assert (H32 : (Z.to_nat (bitlen p) <= 8 * 4)%nat) by (unfold AF_INET, AF_INET6, AF_UNSPEC in *; lia).
      rewrite <- (take_take_le _ _ _ H32), <- (take_take_le (bits_of (add p)) _ _ H32).
      rewrite !take_bits_whole by (rewrite ?length_app, ?length_take, ?length_drop; lia).
      by rewrite take_app_length' by (rewrite length_take; lia).
Qed.

(** The prefix is copied, or shared, for a new node. *)
Definition prefix_granted (pmem : option (list Z)) (p : isc_prefix) : Prop :=
  exists np, _ref_prefix pmem p = Done (ISC_R_SUCCESS, Some np) /\ prefix_ok np /\ pbits np = pbits p.

Record radix_rep (radix : isc_radix_tree) (t : rtree) : Prop := {
  rr_head : rt_head radix = rptr t;
  rr_rep : rep (rt_nodes radix) 0 t;
  rr_nodup : NoDup (addrs t);
  rr_wf : wf [] t;
  rr_bits : maxbits radix = RADIX_MAXBITS;
  rr_active : num_active_node radix = Zlen (addrs t)
}.

(** The new prefix below, above or beside the node of its place. *)
Section Wf.
Context (q : list bool) (n : nat) (k : list rframe) (K : list bool).
Context (o : option isc_prefix) (s : slots) (l : rtree) (x : Z) (r : rtree).
Context (new : Z) (np : isc_prefix) (sn : slots).
Hypothesis Hwf : wf [] (rplug k (RNode K o s l x r)).
Hypothesis Hpl : place q n k K.
Hypothesis Hnp : node_ok q (Some np) sn.

Let New : rtree := RNode q (Some np) sn RLeaf new RLeaf.

Lemma prefix_bit {A} (a b : list A) c : a = take (length a) b -> b !! length a = Some c -> a ++ [c] `prefix_of` b.
Proof.
  intros Ha Hc. exists (drop (S (length a)) b). rewrite <- app_assoc. cbn.
  rewrite <- (take_drop_middle b (length a) c Hc) at 1. by rewrite <- Ha.
Qed.

Lemma wf_below_node b :
  n = length K -> q !! n = Some b -> child b l r = RLeaf ->
  wf [] (rplug (RFrame b K o s x (child (negb b) l r) :: k) New).
Proof.
  intros -> Hb Hc. apply wf_plug in Hwf as (Hk & (Hh & Hok & Hg & Hl & Hr) & _).
  destruct Hpl as [Hkey [Hn1 Hn2] _].
  apply wf_plug. split_and!; [|cbn [hole_key]|done].
  - cbn [wf_ctx]. split_and!; [done|done| |by destruct b|done].
    intros E. destruct (Hg E). by destruct b.
  - split_and!; [|done|done|done|done]. apply prefix_bit; [|done].
    rewrite Hkey. symmetry. apply take_ge. lia.
Qed.

Lemma wf_above_node b :
  n = length q -> K !! n = Some b -> length K <> length q ->
  wf [] (rplug (RFrame b q (Some np) sn new RLeaf :: k) (RNode K o s l x r)).
Proof.
  intros -> Hb Hne. apply wf_plug in Hwf as (Hk & (Hh & Hrest) & _). destruct Hpl as [Hkey [Hn1 Hn2] Hhole].
  apply wf_plug. split_and!; [|cbn [hole_key]|done].
  - cbn [wf_ctx]. split_and!; [|done|done|done|done]. by rewrite take_ge in Hhole.
  - split; [|done]. apply prefix_bit; [|done]. rewrite <- Hkey. symmetry. apply take_ge. lia.
Qed.

Lemma wf_beside_node glue b :
  q !! n = Some b -> K !! n = Some (negb b) ->
  wf [] (rplug (RFrame (negb b) (take n q) None glue_slots glue New :: k) (RNode K o s l x r)).
Proof.
  intros Hq HK. apply wf_plug in Hwf as (Hk & (Hh & Hrest) & _). destruct Hpl as [Hkey [Hn1 Hn2] Hhole].
  assert (Hlen : length (take n q) = n) by (rewrite length_take; lia).
  apply wf_plug. split_and!; [|cbn [hole_key]|done].
  - cbn [wf_ctx]. split_and!; [done|done|done| |done]. rewrite negb_involutive.
    split_and!; [|done|done|done|done]. apply prefix_bit; by rewrite Hlen.
  - split; [|done]. apply prefix_bit; rewrite Hlen; [by rewrite Hkey|done].
Qed.
End Wf.

(** The prefix that is inserted. *)
Definition effective (source : option radix_node) (prefix : option isc_prefix) : option isc_prefix :=
  match prefix with
  | Some p => Some p
  | None => match source with Some src => rn_prefix src | None => None end
  end.

Lemma length_around k t : (length k + length (addrs t) <= length (addrs (rplug k t)))%nat.
Proof.
  rewrite addrs_plug, length_app. enough (length k <= length (around k))%nat by lia.
  induction k as [|[d key o s x t'] k IH]; cbn; [lia|]. rewrite length_app. lia.
Qed.

Lemma rrep_dom h par t y : rep h par t -> y ∈ addrs t -> y ∈ dom h.
Proof.
  revert par. induction t as [|key o s l IHl x r IHr]; intros par; cbn; [set_solver|].
  intros (_ & Hn & Hl & Hr). rewrite elem_of_cons, elem_of_app.
  intros [->|[Hy|Hy]]; [|by eapply IHl|by eapply IHr]. apply elem_of_dom. eauto.
Qed.

Lemma rrep_size h par t : rep h par t -> NoDup (addrs t) -> (length (addrs t) <= base.size h)%nat.
Proof.
  intros H Hd. rewrite <- size_dom, <- (size_list_to_set (C := gset Z) (addrs t)) by done.
  apply subseteq_size. intros y Hy. apply elem_of_list_to_set in Hy. by eapply rrep_dom.
Qed.

(** What the two loops and the comparison establish about the place. *)
Record found (p : isc_prefix) (test : list Z) (n : nat) (k : list rframe) (K : list bool) (l r : rtree) : Prop := {
  fd_place : place (pbits p) n k K;
  fd_below : n = length K -> (n < length (pbits p))%nat ->
             exists b, pbits p !! n = Some b /\ BIT_TEST (add p) (Z.of_nat n) = Done b /\ child b l r = RLeaf;
  fd_above : n = length (pbits p) -> (n < length K)%nat ->
             exists b, K !! n = Some b /\ BIT_TEST test (Z.of_nat n) = Done b;
  fd_beside : (n < length K)%nat -> (n < length (pbits p))%nat ->
              exists b, pbits p !! n = Some b /\ K !! n = Some (negb b) /\ BIT_TEST (add p) (Z.of_nat n) = Done b
}.

Lemma pbits_lookup p i b :
  prefix_ok p -> pbits p !! i = Some b ->
  bits_of (add p) !! i = Some b /\ BIT_TEST (add p) (Z.of_nat i) = Done b.
Proof.
  intros Hp Hb. unfold pbits in Hb. apply lookup_take_Some in Hb as [Hb Hi]. split; [done|].
  apply BIT_TEST_spec; [apply Hp|lia|]. by rewrite Nat2Z.id.
Qed.

Lemma found_spec p p0 n k2 k1 key s l x r :
  prefix_ok p -> wf [] (rplug (k2 ++ k1) (RNode key (Some p0) s l x r)) ->
  on_path (bits_of (add p)) (length (pbits p)) (k2 ++ k1) ->
  (forall b, (length key < length (pbits p))%nat -> bits_of (add p) !! length key = Some b -> child b l r = RLeaf) ->
  Forall (fun f => (n <= frame_len f)%nat) k2 ->
  match k1 with [] => True | f :: _ => (frame_len f < n)%nat end ->
  differ_at (bits_of (add p)) (bits_of (add p0)) (min (length key) (length (pbits p))) n ->
  exists K o' s' l' x' r', rplug k2 (RNode key (Some p0) s l x r) = RNode K o' s' l' x' r'
    /\ found p (add p0) n k1 K l' r'.
Proof.
  intros Hp Hwf Hpath Hend Hk2 Hk1 (Htake & Hn & Hdiff).
  rewrite rplug_app in Hwf. pose proof Hwf as Hwf'. apply wf_plug in Hwf' as (Hwk1 & Hwt & _).
  assert (Hp0 : prefix_ok p0 /\ pbits p0 = key).
  { rewrite <- rplug_app in Hwf. apply wf_plug in Hwf as (_ & (_ & Hok & _) & _). cbn in Hok. tauto. }
  destruct Hp0 as [Hp0 Hkey].
  assert (Hq : take n (pbits p) = take n key).
  { rewrite <- Hkey. unfold pbits. rewrite !take_take_le; [done| |].
    - rewrite <- Hkey, length_pbits in Hn by done. lia.
    - rewrite (length_pbits p) in Hn by done. lia. }
  destruct (place_of (pbits p) n k1 k2 key (Some p0) s l x r Hwk1 Hwt Hk2 Hk1 Hq ltac:(lia) ltac:(lia))
    as (K & o' & s' & l' & x' & r' & E & HK & Hpl).
  exists K, o', s', l', x', r'. split; [done|].
  assert (HKbit : forall i b, K !! i = Some b -> bits_of (add p0) !! i = Some b /\ BIT_TEST (add p0) (Z.of_nat i) = Done b).
  { intros i b Hb. apply pbits_lookup; [done|]. rewrite Hkey. by eapply prefix_lookup_Some. }
  split; [done| | |].
  - intros HnK Hnq. destruct (lookup_lt_is_Some_2 (pbits p) n Hnq) as (b & Hb). exists b.
    destruct (pbits_lookup p n b Hp Hb) as [Hb1 Hb2]. split_and!; [done|done|].
    destruct k2 as [|[d fk fo fs fx ft] k2 _] using rev_ind.
    + cbn in E. injection E as <- <- <- <- <- <-. apply Hend; congruence.
    + exfalso. rewrite rplug_app in E, Hwt. cbn [rplug] in E, Hwt.
      apply wf_fill in Hwt as (_ & Hw & _). apply wf_below in Hw.
      assert (fk = K) as -> by (destruct d; cbn in E; by injection E).
      apply Forall_app in Hpath as [Hpath _]. apply Forall_app in Hpath as [_ Hpath].
      apply Forall_inv in Hpath. rewrite <- HnK in Hpath. specialize (Hpath Hnq).
      assert (Hd : pbits p0 !! n = Some d).
      { rewrite Hkey. eapply prefix_lookup_Some; [|exact Hw]. rewrite HnK. apply list_lookup_middle. done. }
      apply prefix_length in Hw. rewrite length_app in Hw. cbn in Hw.
      destruct Hdiff as [->|Hne]; [lia|]. apply Hne. rewrite Hpath.
      symmetry. by apply (pbits_lookup p0).
  - intros Hnq HnK. destruct (lookup_lt_is_Some_2 K n HnK) as (b & Hb). exists b. split; [done|]. by apply HKbit.
  - intros HnK Hnq. destruct (lookup_lt_is_Some_2 (pbits p) n Hnq) as (b & Hb). exists b.
    destruct (pbits_lookup p n b Hp Hb) as [Hb1 Hb2]. destruct (lookup_lt_is_Some_2 K n HnK) as (b' & Hb').
    split_and!; [done| |done]. rewrite Hb'. f_equal. destruct (HKbit n b' Hb') as [Hb3 _].
    apply prefix_length in HK. destruct Hdiff as [->|Hne]; [lia|]. rewrite Hb1, Hb3 in Hne. by destruct b, b'.
Qed.

(** The part of [isc_radix_insert] up to the place of the new prefix. *)
Lemma insert_finds radix t source prefix p node_mem glue_mem pmem :
  radix_rep radix t -> t <> RLeaf -> prefix_ok p -> effective source prefix = Some p ->
  exists n test k K o s l x r, t = rplug k (RNode K o s l x r) /\ found p test n k K l r
    /\ isc_radix_insert radix node_mem glue_mem pmem source prefix
       = if (Z.of_nat n =? bitlen p) && (Z.of_nat (length K) =? bitlen p)
         then insert_old radix x pmem source p
         else insert_new radix x node_mem glue_mem pmem source p test (Z.of_nat n).
Proof.
  intros [Hhead Hrep Hnd Hwf Hmax _] Hne Hp Heff.
  assert (Hlen : Z.of_nat (length (pbits p)) = bitlen p).
  { rewrite length_pbits by done. pose proof (po_len _ Hp). lia. }
  destruct (descend_spec (rt_nodes radix) (add p) (length (pbits p)) [] t Hrep Hwf Hne (po_bytes _ Hp) (po_size _ Hp)
    ltac:(constructor)) as (k & key & p0 & s & l & x & r & E & Hpath & Hend & Hdescend).
  cbn [rplug] in E. subst t. pose proof Hrep as Hrep'. apply rrep_plug in Hrep' as [Hk (Hx & Hn & _)].
  pose proof Hwf as Hwf'. apply wf_plug in Hwf' as (_ & (_ & (Hp0 & Hkey & _) & _) & _).
  destruct (differ_spec (add p) (add p0) (min (length key) (length (pbits p)))) as (d & Ed & n & Hn' & Hdiff).
  { apply Hp. } { apply Hp0. }
  { unfold pbits. rewrite length_take, length_bits. lia. }
  { rewrite <- Hkey. unfold pbits. rewrite !length_take, !length_bits. lia. }
  destruct (climb_spec (rt_nodes radix) n k (RNode key (Some p0) s l x r) Hk) as (k2 & k1 & -> & Hk2 & Hk1 & Hclimb).
  destruct (found_spec p p0 n k2 k1 key s l x r Hp Hwf Hpath Hend Hk2 Hk1 Hdiff)
    as (K & o' & s' & l' & x' & r' & E & Hfound).
  exists n, (add p0), k1, K, o', s', l', x', r'. split; [by rewrite rplug_app, E|]. split; [done|].
  unfold isc_radix_insert. fold (effective source prefix). rewrite Heff.
  rewrite require_true.
  2:{ destruct prefix as [p'|]; [|done]. injection Heff as ->. rewrite Hmax, <- Hlen. unfold RADIX_MAXBITS.
      unfold pbits. rewrite length_take, length_bits, (po_size _ Hp). lia. }
  cbn [obind]. rewrite Hhead, (rptr_zero _ _ _ Hrep), bool_decide_false by done.
  pose proof (rrep_size _ _ _ Hrep Hnd) as Hsize. rewrite <- Hlen at 1.
  rewrite Hmax, Hdescend by (unfold radix_fuel; lia). cbn [obind].
  rewrite (rnode_at_Done _ _ _ Hn). cbn [obind rn_prefix rn_bit rn_parent cell].
  assert (Hmin : (if Z.of_nat (length key) <? bitlen p then Z.of_nat (length key) else bitlen p)
                 = Z.of_nat (min (length key) (length (pbits p)))).
  { rewrite <- Hlen. destruct (Z.of_nat (length key) <? _) eqn:?; lia. }
  rewrite Hmin, Ed. cbn [obind]. rewrite Hn'.
  assert (Hfuel : (length (k2 ++ k1) < radix_fuel (rt_nodes radix))%nat).
  { pose proof (length_around (k2 ++ k1) (RNode key (Some p0) s l x r)). unfold radix_fuel. lia. }
  specialize (Hclimb _ Hfuel). cbn [rptr] in Hclimb. rewrite Hclimb. cbn [obind].
  rewrite E. cbn [rptr]. rewrite rplug_app, E in Hrep. apply rrep_plug in Hrep as [_ (_ & Hn1 & _)].
  rewrite (rnode_at_Done _ _ _ Hn1). cbn [obind rn_bit cell]. by destruct (_ && _).
Qed.

(** ** What an insertion does to the entries *)

Lemma entries_extend pfx t key s : wf pfx t -> (key, s) ∈ entries t -> pfx `prefix_of` key.
Proof.
  revert pfx. induction t as [|K o s' l IHl x r IHr]; intros pfx; cbn; [set_solver|].
  intros (Hpre & _ & _ & Hl & Hr). rewrite !elem_of_app. intros [H|[H|H]].
  - destruct o; [|by apply elem_of_nil in H]. apply list_elem_of_singleton in H. by injection H as -> ->.
  - etrans; [exact Hpre|]. etrans; [|by apply (IHl _ Hl)]. by apply prefix_app_r.
  - etrans; [exact Hpre|]. etrans; [|by apply (IHr _ Hr)]. by apply prefix_app_r.
Qed.

Lemma entries_nodup pfx t : wf pfx t -> NoDup (entries t).*1.
Proof.
  revert pfx. induction t as [|K o s l IHl x r IHr]; intros pfx; cbn; [constructor|].
  intros (_ & _ & _ & Hl & Hr). rewrite !fmap_app.
  assert (Hext : forall b t key, wf (K ++ [b]) t -> key ∈ (entries t).*1 -> K ++ [b] `prefix_of` key).
  { intros b t key Ht Hk. apply list_elem_of_fmap in Hk as ([key' s'] & -> & Hk). by eapply entries_extend. }
  assert (HK : forall b t, wf (K ++ [b]) t -> K ∉ (entries t).*1).
  { intros b t Ht Hk. apply (Hext b) in Hk; [|done]. apply prefix_length in Hk. rewrite length_app in Hk. cbn in Hk. lia. }
  assert (Hlr : NoDup ((entries l).*1 ++ (entries r).*1)).
  { apply NoDup_app. split_and!; [by eapply IHl| |by eapply IHr]. intros key H1 H2.
    apply (Hext false) in H1; [|done]. apply (Hext true) in H2; [|done].
    assert (E1 : key !! length K = Some false).
    { eapply prefix_lookup_Some; [|exact H1]. by apply list_lookup_middle. }
    assert (E2 : key !! length K = Some true).
    { eapply prefix_lookup_Some; [|exact H2]. by apply list_lookup_middle. }
    congruence. }
  destruct o; [|done]. cbn. constructor; [|done]. rewrite elem_of_app. intros [H|H]; revert H; by eapply HK.
Qed.

(** Does a prefix of the family hold for IPv6 ([is6]) or IPv4 addresses? *)
Definition covers (is6 : bool) (fam : Z) : bool := (fam =? AF_UNSPEC) || eqb (ISC_IS6 fam) is6.

(** Does the call have a number for the slot?  A prefix from the caller has one for the
    slots of its family; a node of another tree for the slots that are set in it - but
    where the prefix is in the tree already ([old]), [isc_radix_insert] asks for the IPv4
    slot of the node both times (radix.c:438). *)
Definition gives (old : bool) (fam : Z) (source : option radix_node) (is6 : bool) : bool :=
  match source with
  | None => covers is6 fam
  | Some src => negb (at6 (if old then false else is6) (node_num src) =? -1)
  end.

(** The slots [s] became [s'], slot by slot: a slot is set when it was free and the call has
    a number for it - the next number of the tree, or the number and the data of the node
    that is merged in, counted on from those of the tree - and else it is as it was.  The
    count goes up by one if a prefix from the caller filled a slot. *)
Record filled (old : bool) (added fam : Z) (source : option radix_node) (s s' : slots) (added' : Z) : Prop := {
  fl_num is6 : at6 is6 (s_num s') =
    if (at6 is6 (s_num s) =? -1) && gives old fam source is6
    then s32 (added + match source with None => 1 | Some src => at6 is6 (node_num src) end)
    else at6 is6 (s_num s);
  fl_data is6 : at6 is6 (s_data s') =
    match source with
    | Some src => if (at6 is6 (s_num s) =? -1) && gives old fam source is6 then at6 is6 (rn_data src) else at6 is6 (s_data s)
    | None => at6 is6 (s_data s)
    end;
  fl_added : added' =
    match source with
    | Some _ => added
    | None => if existsb (fun is6 => (at6 is6 (s_num s) =? -1) && gives old fam source is6) [false; true]
              then s32 (added + 1) else added
    end
}.

Lemma filled_unique old added fam source s s1 a1 s2 a2 :
  filled old added fam source s s1 a1 -> filled old added fam source s s2 a2 -> s1 = s2 /\ a1 = a2.
Proof.
  intros [N1 D1 A1] [N2 D2 A2]. split; [|congruence].
  pose proof (N1 false). pose proof (N1 true). pose proof (N2 false). pose proof (N2 true).
  pose proof (D1 false). pose proof (D1 true). pose proof (D2 false). pose proof (D2 true).
  destruct s1 as [[] []], s2 as [[] []]. cbn [at6 s_num s_data fst snd] in *. congruence.
Qed.

Lemma fresh_filled added fam p source : source_ok p source ->
  filled false added fam source glue_slots (fresh_slots added fam source).1 (fresh_slots added fam source).2.
Proof.
  unfold fresh_slots, new_numbers, source_ok. destruct source as [src|].
  - intros (H1 & H2 & _). destruct src as [b p0 pa l r [d0 d1] [n0 n1]]. cbn in *. split; [..|done].
    + intros []; cbn; by destruct (_ =? -1).
    + intros []; cbn; destruct (_ =? -1) eqn:E; cbn; try done; bool_prop; auto.
  - intros _. destruct (fam =? AF_UNSPEC) eqn:E, (ISC_IS6 fam) eqn:E6; cbn;
      (split; [intros []|intros []|]; unfold gives, covers; cbn; rewrite ?E, ?E6; done).
Qed.

Lemma old_filled added fam source s :
  filled true added fam source s (old_slots added fam source s).1 (old_slots added fam source s).2.
Proof.
  unfold old_slots, old_numbers, cell. destruct s as [[d0 d1] [n0 n1]]. destruct source as [src|]; cbn.
  - destruct (n0 =? -1) eqn:E0, (n1 =? -1) eqn:E1, ((node_num src).1 =? -1) eqn:E2;
      repeat (cbn; rewrite ?E0, ?E1, ?E2); (split; [intros []|intros []|]; unfold gives; cbn; rewrite ?E0, ?E1, ?E2; done).
  - destruct (fam =? AF_UNSPEC) eqn:Ef, (ISC_IS6 fam) eqn:E6, (n0 =? -1) eqn:E0, (n1 =? -1) eqn:E1;
      repeat (cbn; rewrite ?E0, ?E1);
      (split; [intros []|intros []|]; unfold gives, covers; cbn; rewrite ?Ef, ?E6, ?E0, ?E1; done).
Qed.

(** The entry of [q] is new, or it is the one that was there with its free slots
    filled; the other entries are as they were. *)
Inductive inserted (added fam : Z) (source : option radix_node) (q : list bool) (t t' : rtree) (added' : Z) : Prop :=
| inserted_new s' : q ∉ (entries t).*1 -> filled false added fam source glue_slots s' added' ->
    entries t' ≡ₚ (q, s') :: entries t -> inserted added fam source q t t' added'
| inserted_old s s' rest : filled true added fam source s s' added' -> entries t ≡ₚ (q, s) :: rest ->
    entries t' ≡ₚ (q, s') :: rest -> inserted added fam source q t t' added'.

Lemma inserted_new_wf added fam p source q t t' : source_ok p source ->
  wf [] t' -> entries t' ≡ₚ (q, (fresh_slots added fam source).1) :: entries t ->
  inserted added fam source q t t' (fresh_slots added fam source).2.
Proof.
  intros Hs Hwf E. apply (inserted_new _ _ _ _ _ _ _ (fresh_slots added fam source).1); [|by apply (fresh_filled _ _ p)|done].
  apply entries_nodup in Hwf. rewrite E in Hwf. cbn in Hwf. by apply NoDup_cons in Hwf as [? _].
Qed.

(** The node of a prefix. *)
Definition is_node (t : rtree) (x : Z) (q : list bool) (s : slots) : Prop :=
  exists k np l r, t = rplug k (RNode q (Some np) s l x r).

(** A successful call. *)
Record insert_post (radix : isc_radix_tree) (source : option radix_node) (p : isc_prefix) (t : rtree)
    (new : list Z) (target : Z) (radix' : isc_radix_tree) (t' : rtree) : Prop := {
  ip_rep : radix_rep radix' t';
  ip_entries : inserted (num_added_node radix) (family p) source (pbits p) t t' (num_added_node radix');
  ip_target : exists s, is_node t' target (pbits p) s;
  ip_outside : forall y, y ∉ new -> y ∉ addrs t -> rt_nodes radix' !! y = rt_nodes radix !! y
}.

Lemma insert_head_spec radix source p node_mem pmem :
  radix_rep radix RLeaf -> prefix_ok p -> source_ok p source -> prefix_granted pmem p -> node_mem <> 0 ->
  exists radix' t', insert_head radix node_mem pmem source p = Done (ISC_R_SUCCESS, node_mem, radix')
    /\ insert_post radix source p RLeaf [node_mem] node_mem radix' t'.
Proof.
  intros [Hhead _ _ _ Hmax Hact] Hp Hs Hm Hn0. unfold insert_head.
  rewrite (proj2 (Z.eqb_neq node_mem 0)) by done.
  destruct Hm as (np & -> & Hnp & Hbits). cbn [obind].
  rewrite bool_decide_true by done. destruct (new_numbers _ _ _) as [[num data] added] eqn:En.
  assert (Ef : fresh_slots (num_added_node radix) (family p) source = (mkSlots data num, added))
    by (unfold fresh_slots; by rewrite En).
  set (t' := RNode (pbits p) (Some np) (mkSlots data num) RLeaf node_mem RLeaf).
  eexists _, t'. split; [done|].
  assert (Hwf : wf [] t').
  { cbn [wf node_ok s_num t']. split_and!; try done; [apply prefix_nil|]. rewrite length_pbits by done.
    pose proof (fresh_v4 (num_added_node radix) p source Hp Hs) as H4. rewrite Ef in H4. intros H.
    specialize (H4 H). lia. }
  split; cbn [rt_head rt_nodes num_added_node maxbits num_active_node].
  - split; cbn [rt_head rt_nodes num_added_node maxbits num_active_node]; try done.
    + assert (Hl : Z.of_nat (length (pbits p)) = bitlen p)
        by (rewrite length_pbits by done; pose proof (po_len _ Hp); lia).
      split_and!; try done. rewrite lookup_insert_eq. unfold cell. by rewrite Hl.
    + apply NoDup_singleton.
    + rewrite Hact. done.
  - pose proof (inserted_new_wf (num_added_node radix) (family p) p source (pbits p) RLeaf t' Hs Hwf) as H.
    rewrite Ef in H. by apply H.
  - exists (mkSlots data num), [], np, RLeaf, RLeaf. done.
  - intros y Hy _. apply lookup_insert_ne. intros <-. apply Hy. by left.
Qed.

Lemma rep_update h k K o s l x r o' s' :
  rep h 0 (rplug k (RNode K o s l x r)) -> NoDup (addrs (rplug k (RNode K o s l x r))) ->
  rep (<[x := cell K o' s' (rup k) (rptr l) (rptr r)]> h) 0 (rplug k (RNode K o' s' l x r)).
Proof.
  intros H Hd. apply rrep_plug in H as [Hk (Hx & Hn & Hl & Hr)]. rewrite addrs_plug in Hd.
  apply NoDup_app in Hd as (Hd1 & Hd2 & _). cbn [addrs] in Hd1, Hd2. apply NoDup_cons in Hd1 as [Hx1 _].
  rewrite elem_of_app in Hx1.
  assert (Hag : forall y c, y <> x -> <[x := c]> h !! y = h !! y) by (intros y c Hy; by apply lookup_insert_ne).
  apply rrep_plug. split; [|split_and!; [done|apply lookup_insert_eq| |]].
  - apply (rrep_ctx_agree h); [|done]. intros y Hy. apply Hag. intros ->. apply (Hd2 x); [by left|done].
  - apply (rrep_agree h); [|done]. intros y Hy. apply Hag. intros ->. tauto.
  - apply (rrep_agree h); [|done]. intros y Hy. apply Hag. intros ->. tauto.
Qed.

Lemma wf_update k K o s l x r o' s' :
  wf [] (rplug k (RNode K o s l x r)) -> node_ok K o' s' -> o' <> None ->
  wf [] (rplug k (RNode K o' s' l x r)).
Proof.
  intros H Hok Hne. apply wf_plug in H as (Hk & (H1 & _ & _ & H2 & H3) & _).
  apply wf_plug. split_and!; [done| |done]. by split_and!.
Qed.

Lemma addrs_update k K o s l x r o' s' :
  addrs (rplug k (RNode K o' s' l x r)) = addrs (rplug k (RNode K o s l x r)).
Proof.
  enough (H : forall t t', addrs t = addrs t' -> addrs (rplug k t) = addrs (rplug k t')) by (by apply H).
  induction k as [|[d key' o1 s1 x1 t1] k IH]; intros t t' E; [done|]. cbn. apply IH.
  destruct d; cbn; by rewrite E.
Qed.

Lemma insert_old_spec radix source p pmem k o s l x r :
  radix_rep radix (rplug k (RNode (pbits p) o s l x r)) ->
  prefix_ok p -> source_ok p source -> (o = None -> prefix_granted pmem p) ->
  exists radix' t', insert_old radix x pmem source p = Done (ISC_R_SUCCESS, x, radix')
    /\ insert_post radix source p (rplug k (RNode (pbits p) o s l x r)) [] x radix' t'.
Proof.
  intros [Hhead Hrep Hnd Hwf Hmax Hact] Hp Hs Hm. unfold insert_old.
  pose proof Hrep as Hrep'. apply rrep_plug in Hrep' as [_ (Hx & Hn & _)].
  pose proof Hwf as Hwf'. apply wf_plug in Hwf' as (_ & (_ & Hok & _) & _).
  rewrite (rnode_at_Done _ _ _ Hn). cbn [obind rn_prefix cell].
  assert (Hgen : forall np s', node_ok (pbits p) (Some np) s' -> forall added,
    inserted (num_added_node radix) (family p) source (pbits p) (rplug k (RNode (pbits p) o s l x r))
      (rplug k (RNode (pbits p) (Some np) s' l x r)) added ->
    insert_post radix source p (rplug k (RNode (pbits p) o s l x r)) [] x
      (set_nodes (<[x := cell (pbits p) (Some np) s' (rup k) (rptr l) (rptr r)]> (rt_nodes radix)) added radix)
      (rplug k (RNode (pbits p) (Some np) s' l x r))).
  { intros np s' Hok' added Hins. split; [split| | |]; cbn [set_nodes rt_head rt_nodes num_added_node maxbits num_active_node].
    - rewrite Hhead. by apply rptr_plug_same.
    - by eapply rep_update.
    - by rewrite (addrs_update _ _ o s).
    - by eapply wf_update.
    - done.
    - by rewrite (addrs_update _ _ o s).
    - done.
    - by exists s', k, np, l, r.
    - intros y _ Hy. apply lookup_insert_ne. intros <-. apply Hy. rewrite addrs_plug. by left. }
  pose proof (length_pbits p Hp) as Hlen.
  destruct o as [p0|].
  - rewrite old_numbers_cell. eexists _, _. split; [done|]. apply Hgen.
    + destruct Hok as (H1 & H2 & H3). split_and!; [done|done|]. intros H.
      apply (old_v4 _ p) in H; [|done|done]. destruct H as [H|H]; [by apply H3|]. lia.
    + apply (inserted_old _ _ _ _ _ _ _ s (old_slots (num_added_node radix) (family p) source s).1 (entries l ++ entries r ++ entries_around k));
        [apply old_filled|rewrite entries_plug; cbn; by rewrite <- app_assoc..].
  - cbn in Hok. subst s. destruct (Hm eq_refl) as (np & -> & Hnp & Hbits). cbn [obind].
    rewrite bool_decide_true by done. cbn [rn_data node_num cell glue_slots s_data s_num].
    rewrite !bool_decide_true by done. cbn [require andb obind].
    change (with_prefix (Some np) (cell (pbits p) None glue_slots (rup k) (rptr l) (rptr r)))
      with (cell (pbits p) (Some np) glue_slots (rup k) (rptr l) (rptr r)).
    rewrite (glue_numbers_cell _ _ _ p) by done. eexists _, _. split; [done|]. 
    assert (Hok' : node_ok (pbits p) (Some np) (fresh_slots (num_added_node radix) (family p) source).1).
    { split_and!; [done|done|]. intros H%fresh_v4; [|done|done]. lia. }
    apply Hgen; [done|]. apply (inserted_new_wf _ _ p); [done|by eapply wf_update|]. rewrite !entries_plug. done.
Qed.

(** The links give a tree with the new node. *)
Lemma insert_new_post radix source p t t' (extra : list Z) node_mem glue_mem h' active slots' added :
  radix_rep radix t -> (forall y, y ∈ node_mem :: extra -> y ∉ addrs t) -> NoDup (node_mem :: extra) ->
  (forall y, y ∈ extra -> y = glue_mem) ->
  rep h' 0 t' -> wf [] t' ->
  (forall y, y ∉ node_mem :: extra -> y ∉ addrs t -> h' !! y = rt_nodes radix !! y) ->
  addrs t' ≡ₚ (node_mem :: extra) ++ addrs t ->
  entries t' ≡ₚ (pbits p, slots') :: entries t -> is_node t' node_mem (pbits p) slots' ->
  source_ok p source -> fresh_slots (num_added_node radix) (family p) source = (slots', added) ->
  active = num_active_node radix + Zlen (node_mem :: extra) ->
  insert_post radix source p t [node_mem; glue_mem] node_mem
    (mkRadix h' (rptr t') RADIX_MAXBITS active added) t'.
Proof.
  intros [Hhead Hrep Hnd Hwf Hmax Hact] Hfresh Hndn Hextra Hrep' Hwf' Hout Haddr Hent Hnode Hsrc Ef ->.
  split; [split| | |]; cbn [rt_head rt_nodes num_added_node maxbits num_active_node]; try done.
  - rewrite Haddr. apply NoDup_app. split_and!; [done| |done]. intros y Hy. by apply Hfresh.
  - rewrite Hact. unfold Zlen. rewrite Haddr, length_app. lia.
  - pose proof (inserted_new_wf (num_added_node radix) (family p) p source (pbits p) t t' Hsrc Hwf') as H.
    rewrite Ef in H. by apply H.
  - by eexists.
  - intros y Hy Hyt. apply Hout; [|done]. rewrite elem_of_cons. intros [->|H]; apply Hy; [by left|].
    apply Hextra in H as ->. by right; left.
Qed.

Lemma insert_new_spec radix source p pmem test n k K o s l x r node_mem glue_mem :
  radix_rep radix (rplug k (RNode K o s l x r)) -> found p test n k K l r ->
  ~ (n = length (pbits p) /\ length K = length (pbits p)) ->
  prefix_ok p -> source_ok p source -> prefix_granted pmem p ->
  node_mem <> 0 -> glue_mem <> 0 \/ n = length K \/ n = length (pbits p) -> node_mem <> glue_mem ->
  node_mem ∉ addrs (rplug k (RNode K o s l x r)) -> glue_mem ∉ addrs (rplug k (RNode K o s l x r)) ->
  exists radix' t', insert_new radix x node_mem glue_mem pmem source p test (Z.of_nat n)
      = Done (ISC_R_SUCCESS, node_mem, radix')
    /\ insert_post radix source p (rplug k (RNode K o s l x r)) [node_mem; glue_mem] node_mem radix' t'.
Proof.
  intros R Hfound Hnot Hp Hs Hm Hn0 Hg0 Hng Hnt Hgt. unfold insert_new.
  pose proof R as [Hhead Hrep Hnd Hwf Hmax Hact].
  pose proof Hrep as Hrep'. apply rrep_plug in Hrep' as [_ (Hx & Hn & _)].
  rewrite (rnode_at_Done _ _ _ Hn). cbn [obind rn_bit cell].
  rewrite (proj2 (Z.eqb_neq node_mem 0)) by done.
  assert (Hlen : Z.of_nat (length (pbits p)) = bitlen p).
  { rewrite length_pbits by done. pose proof (po_len _ Hp). lia. }
  replace (negb (Z.of_nat (length K) =? Z.of_nat n) && negb (bitlen p =? Z.of_nat n) && (glue_mem =? 0))
    with false by lia.
  destruct Hm as (np & -> & Hnp & Hbits). cbn [obind].
  rewrite bool_decide_true by done. destruct (new_numbers _ _ _) as [[num data] added] eqn:En.
  assert (Ef : fresh_slots (num_added_node radix) (family p) source = (mkSlots data num, added))
    by (unfold fresh_slots; by rewrite En).
  assert (Hq128 : (length (pbits p) <= 128)%nat).
  { unfold pbits. rewrite length_take, length_bits, (po_size _ Hp). lia. }
  assert (Hok : node_ok (pbits p) (Some np) (mkSlots data num)).
  { split_and!; [done|done|]. intros H. pose proof (fresh_v4 (num_added_node radix) p source Hp Hs) as H4.
    rewrite Ef in H4. specialize (H4 H). lia. }
  pose proof (wf_length _ _ _ _ _ _ _ (proj1 (proj2 (proj1 (wf_plug _ _) Hwf)))) as [HK128 _].
  destruct Hfound as [Hpl Hbelow Habove Hbeside]. destruct (pl_n _ _ _ _ Hpl) as [HnK Hnq].
  rewrite Hmax, <- Hlen, Hhead.
  change (mkRnode (Z.of_nat (length (pbits p))) (Some np) 0 0 0 data num)
    with (cell (pbits p) (Some np) (mkSlots data num) 0 0 0).
  set (New := RNode (pbits p) (Some np) (mkSlots data num) RLeaf node_mem RLeaf).
  replace (Z.of_nat (length K) =? Z.of_nat n) with (bool_decide (length K = n)) by (case_bool_decide; lia).
  replace (Z.of_nat (length (pbits p)) =? Z.of_nat n) with (bool_decide (length (pbits p) = n)) by (case_bool_decide; lia).
  case_bool_decide as EK; [|case_bool_decide as Eq]; cbn [negb andb].
  - destruct (Hbelow ltac:(lia) ltac:(lia)) as (b & Hb & HbT & Hc). subst n.
    destruct (link_below (rt_nodes radix) k K o s l x r node_mem (pbits p) (Some np) (mkSlots data num)
      Hrep Hnd (conj Hn0 Hnt) b (add p) test Hc ltac:(lia) HbT) as (h' & -> & Hrep2 & Hout).
    cbn [obind]. eexists _, _. split; [done|].
    apply (insert_new_post _ _ _ _ _ [] _ _ _ _ (mkSlots data num)); try done.
    + intros y ->%list_elem_of_singleton. done.
    + apply NoDup_singleton.
    + by intros y ?%elem_of_nil.
    + by apply (wf_below_node (pbits p) (length K)).
    + intros y Hy. apply Hout. intros ->. apply Hy. by left.
    + rewrite !addrs_plug. destruct b; cbn [child negb] in Hc |- *; rewrite Hc;
        cbn [addrs around app]; by rewrite ?app_nil_r.
    + rewrite !entries_plug. destruct b; cbn [child negb] in Hc |- *; rewrite Hc;
        cbn [entries entries_around app]; by rewrite ?app_nil_r, <- ?app_assoc.
    + by eexists _, np, RLeaf, RLeaf.
    + unfold Zlen. cbn. lia.
  - destruct (Habove ltac:(lia) ltac:(lia)) as (b & Hb & HbT). subst n.
    destruct (link_above (rt_nodes radix) k K o s l x r node_mem (pbits p) (Some np) (mkSlots data num)
      Hrep Hnd (conj Hn0 Hnt) b (add p) test 0 ltac:(lia) ltac:(lia) HbT) as (h' & -> & Hrep2 & Hout).
    cbn [obind]. eexists _, _. split; [done|].
    apply (insert_new_post _ _ _ _ _ [] _ _ _ _ (mkSlots data num)); try done.
    + intros y ->%list_elem_of_singleton. done.
    + apply NoDup_singleton.
    + by intros y ?%elem_of_nil.
    + by apply (wf_above_node (pbits p) (length (pbits p))).
    + intros y Hy. apply Hout. intros ->. apply Hy. by left.
    + rewrite !addrs_plug. symmetry. apply (Permutation_middle (addrs (RNode K o s l x r)) (around k)).
    + rewrite !entries_plug. symmetry.
      apply (Permutation_middle (entries (RNode K o s l x r)) (entries_around k)).
    + exists k, np, (if b then RLeaf else RNode K o s l x r), (if b then RNode K o s l x r else RLeaf). by destruct b.
    + unfold Zlen. cbn. lia.
  - destruct (Hbeside ltac:(lia) ltac:(lia)) as (b & Hb & HbK & HbT).
    destruct (link_beside (rt_nodes radix) k K o s l x r node_mem (pbits p) (Some np) (mkSlots data num)
      Hrep Hnd (conj Hn0 Hnt) b (add p) test glue_mem n ltac:(lia) ltac:(lia) ltac:(lia) HbT ltac:(lia) ltac:(done) Hgt)
      as (h' & -> & Hrep2 & Hout); [rewrite length_take; lia|].
    cbn [obind]. eexists _, _. split; [done|].
    apply (insert_new_post _ _ _ _ _ [glue_mem] _ _ _ _ (mkSlots data num)); try done.
    + intros y [-> | ->%list_elem_of_singleton]%elem_of_cons; done.
    + apply NoDup_cons. split; [|apply NoDup_singleton]. by intros ->%list_elem_of_singleton.
    + by intros y ->%list_elem_of_singleton.
    + by apply (wf_beside_node (pbits p) n).
    + intros y Hy. apply Hout; intros ->; apply Hy; [by left|by right; left].
    + rewrite !addrs_plug.
      change (addrs (RNode K o s l x r) ++ glue_mem :: node_mem :: around k ≡ₚ
              node_mem :: glue_mem :: addrs (RNode K o s l x r) ++ around k).
      rewrite <- !Permutation_middle. apply Permutation_swap.
    + rewrite !entries_plug. symmetry.
      apply (Permutation_middle (entries (RNode K o s l x r)) (entries_around k)).
    + destruct b.
      * by exists (RFrame true (take n (pbits p)) None glue_slots glue_mem (RNode K o s l x r) :: k), np, RLeaf, RLeaf.
      * by exists (RFrame false (take n (pbits p)) None glue_slots glue_mem (RNode K o s l x r) :: k), np, RLeaf, RLeaf.
    + unfold Zlen. cbn. lia.
Qed.

(** What the allocator may answer: no memory, or an object that is not in use. *)
Record allocator (t : rtree) (node_mem glue_mem : Z) (pmem : option (list Z)) : Prop := {
  al_node : node_mem ∉ addrs t;
  al_glue : glue_mem ∉ addrs t;
  al_distinct : node_mem <> 0 -> node_mem <> glue_mem;
  al_prefix : match pmem with Some junk => bytes junk /\ length junk = 16%nat | None => True end
}.

Lemma ref_prefix_total pmem p :
  prefix_ok p -> match pmem with Some junk => bytes junk /\ length junk = 16%nat | None => True end ->
  prefix_granted pmem p \/ _ref_prefix pmem p = Done (ISC_R_NOMEMORY, None).
Proof.
  intros Hp Hm. destruct pmem as [junk|].
  - left. destruct (ref_prefix_spec (Some junk) p Hp Hm) as (np & H). by exists np.
  - pose proof (po_family _ Hp) as Hf. unfold prefix_granted, _ref_prefix.
    rewrite require_true by (unfold AF_INET, AF_INET6, AF_UNSPEC in *; lia). cbn [obind].
    destruct (is_static p); [|left; by exists p]. right. unfold _new_prefix.
    by replace (negb (family p =? AF_INET6) && negb (family p =? AF_INET) && negb (family p =? AF_UNSPEC)) with false
      by (unfold AF_INET, AF_INET6, AF_UNSPEC in *; lia).
Qed.

Lemma insert_post_mono radix source p t new new' target radix' t' :
  (forall y, y ∈ new -> y ∈ new') -> insert_post radix source p t new target radix' t' ->
  insert_post radix source p t new' target radix' t'.
Proof. intros Hs [H1 H2 H3 H4]. split; try done. intros y Hy. apply H4. intros ?. by apply Hy, Hs. Qed.

(** Without memory nothing changes. *)
Definition insert_result (radix : isc_radix_tree) (source : option radix_node) (p : isc_prefix) (t : rtree)
    (new : list Z) (out : outcome (isc_result_t * Z * isc_radix_tree)) : Prop :=
  out = Done (ISC_R_NOMEMORY, 0, radix)
  \/ exists target radix' t', out = Done (ISC_R_SUCCESS, target, radix')
       /\ insert_post radix source p t new target radix' t'.

(** The calls of [isc_radix_insert] with and without memory. *)
Section Total.
Context (radix : isc_radix_tree) (t : rtree) (source : option radix_node) (p : isc_prefix).
Context (pmem : option (list Z)) (node_mem glue_mem : Z).
Hypothesis R : radix_rep radix t.
Hypothesis Hp : prefix_ok p.
Hypothesis Hs : source_ok p source.
Hypothesis A : allocator t node_mem glue_mem pmem.

Abbreviation result := (insert_result radix source p t [node_mem; glue_mem]).
(** Enough memory for every request. *)
Definition memory_available : Prop := node_mem <> 0 /\ glue_mem <> 0 /\ prefix_granted pmem p.
Abbreviation served := (fun out => memory_available -> out <> Done (ISC_R_NOMEMORY, 0, radix)).

Lemma result_done out new :
  (exists radix' target t', out = Done (ISC_R_SUCCESS, target, radix')
     /\ insert_post radix source p t new target radix' t') ->
  (forall y, y ∈ new -> y ∈ [node_mem; glue_mem]) -> result out /\ served out.
Proof.
  intros (radix' & target & t' & -> & Hpost) Hnew. split; [|done]. right.
  exists target, radix', t'. split; [done|]. by eapply insert_post_mono.
Qed.

Lemma result_none out :
  out = Done (ISC_R_NOMEMORY, 0, radix) -> ~ memory_available -> result out /\ served out.
Proof. intros -> H. split; [by left|]. intros ?. by destruct H. Qed.

Lemma not_granted : _ref_prefix pmem p = Done (ISC_R_NOMEMORY, None) -> ~ memory_available.
Proof. intros E (_ & _ & np & E' & _). congruence. Qed.

Lemma insert_head_total :
  t = RLeaf -> result (insert_head radix node_mem pmem source p) /\ served (insert_head radix node_mem pmem source p).
Proof.
  intros Et. destruct A as [_ _ _ Hm]. unfold memory_available.
  destruct (decide (node_mem = 0)) as [E|Hn].
  { apply result_none; [unfold insert_head; by rewrite E|]. unfold memory_available. tauto. }
  destruct (ref_prefix_total pmem p Hp Hm) as [Hgr|Hno].
  - destruct (insert_head_spec radix source p node_mem pmem) as (radix' & t' & E & Hpost); try done; [by rewrite Et in R|].
    rewrite <- Et in Hpost. eapply result_done; [by exists radix', node_mem, t'|].
    intros y ->%list_elem_of_singleton. by left.
  - apply result_none; [|by apply not_granted]. unfold insert_head. by rewrite (proj2 (Z.eqb_neq node_mem 0)), Hno by done.
Qed.

Lemma insert_old_total k o s l x r :
  t = rplug k (RNode (pbits p) o s l x r) ->
  result (insert_old radix x pmem source p) /\ served (insert_old radix x pmem source p).
Proof.
  intros Et. destruct A as [_ _ _ Hm].
  assert (Hcase : (o = None -> prefix_granted pmem p) \/ (o = None /\ _ref_prefix pmem p = Done (ISC_R_NOMEMORY, None))).
  { destruct o; [by left|]. destruct (ref_prefix_total pmem p Hp Hm); auto. }
  destruct Hcase as [Hgr|[-> Hno]].
  - destruct (insert_old_spec radix source p pmem k o s l x r) as (radix' & t' & E & Hpost); try done; [by rewrite Et in R|].
    rewrite <- Et in Hpost. eapply result_done; [by exists radix', x, t'|]. by intros y ?%elem_of_nil.
  - apply result_none; [|by apply not_granted]. pose proof (rr_rep _ _ R) as H. rewrite Et in H.
    apply rrep_plug in H as [_ (_ & Hn & _)]. unfold insert_old. rewrite (rnode_at_Done _ _ _ Hn).
    cbn [obind rn_prefix cell]. by rewrite Hno.
Qed.

Lemma insert_new_total test n k K o s l x r :
  t = rplug k (RNode K o s l x r) -> found p test n k K l r ->
  ~ (n = length (pbits p) /\ length K = length (pbits p)) ->
  result (insert_new radix x node_mem glue_mem pmem source p test (Z.of_nat n))
  /\ served (insert_new radix x node_mem glue_mem pmem source p test (Z.of_nat n)).
Proof.
  intros Et Hf Hnot. destruct A as [Hn Hg Hng Hm].
  pose proof (rr_rep _ _ R) as H. rewrite Et in H. apply rrep_plug in H as [_ (_ & Hx & _)].
  assert (Hlen : Z.of_nat (length (pbits p)) = bitlen p).
  { rewrite length_pbits by done. pose proof (po_len _ Hp). lia. }
  set (glue_needed := negb (Z.of_nat (length K) =? Z.of_nat n) && negb (bitlen p =? Z.of_nat n)).
  destruct (decide (node_mem = 0)) as [E|Hn0].
  { apply result_none; [|unfold memory_available; tauto]. unfold insert_new.
    rewrite (rnode_at_Done _ _ _ Hx). cbn [obind]. by rewrite E. }
  destruct (glue_needed && (glue_mem =? 0)) eqn:Eg.
  { apply result_none; [|unfold memory_available; lia]. unfold insert_new.
    rewrite (rnode_at_Done _ _ _ Hx). cbn [obind rn_bit cell]. fold glue_needed.
    by rewrite (proj2 (Z.eqb_neq node_mem 0)), Eg by done. }
  destruct (ref_prefix_total pmem p Hp Hm) as [Hgr|Hno].
  - destruct (insert_new_spec radix source p pmem test n k K o s l x r node_mem glue_mem)
      as (radix' & t' & E & Hpost); rewrite <- ?Et; try done; [subst glue_needed; lia|by apply Hng|].
    rewrite <- Et in Hpost. eapply result_done; [by exists radix', node_mem, t'|done].
  - apply result_none; [|by apply not_granted]. unfold insert_new.
    rewrite (rnode_at_Done _ _ _ Hx). cbn [obind rn_bit cell]. fold glue_needed.
    by rewrite (proj2 (Z.eqb_neq node_mem 0)), Eg, Hno by done.
Qed.
End Total.

Lemma radix_insert_total radix t source prefix p pmem node_mem glue_mem :
  radix_rep radix t -> prefix_ok p -> effective source prefix = Some p -> source_ok p source ->
  allocator t node_mem glue_mem pmem ->
  insert_result radix source p t [node_mem; glue_mem]
    (isc_radix_insert radix node_mem glue_mem pmem source prefix)
  /\ (memory_available p pmem node_mem glue_mem ->
      isc_radix_insert radix node_mem glue_mem pmem source prefix <> Done (ISC_R_NOMEMORY, 0, radix)).
Proof.
  intros R Hp Heff Hs A. destruct (decide (t = RLeaf)) as [Et|Et].
  - assert (E : isc_radix_insert radix node_mem glue_mem pmem source prefix = insert_head radix node_mem pmem source p).
    { unfold isc_radix_insert. fold (effective source prefix). rewrite Heff, (rr_head _ _ R), Et.
      rewrite require_true; [done|]. destruct prefix as [p'|]; [|done]. injection Heff as ->.
      rewrite (rr_bits _ _ R). unfold RADIX_MAXBITS. pose proof (po_family _ Hp). lia. }
    rewrite E. by apply insert_head_total.
  - destruct (insert_finds radix t source prefix p node_mem glue_mem pmem R Et Hp Heff)
      as (n & test & k & K & o & s & l & x & r & Et' & Hf & ->).
    assert (Hlen : Z.of_nat (length (pbits p)) = bitlen p).
    { rewrite length_pbits by done. pose proof (po_len _ Hp). lia. }
    destruct ((Z.of_nat n =? bitlen p) && (Z.of_nat (length K) =? bitlen p)) eqn:Eold.
    + assert (K = pbits p) as ->.
      { destruct (fd_place _ _ _ _ _ _ _ Hf) as [Hk [H1 H2] _]. rewrite !take_ge in Hk by lia. done. }
      by eapply insert_old_total.
    + eapply insert_new_total; try done. lia.
Qed.

(** ** Search *)

(** A node with a prefix: its address, bits and slots. *)
Definition item : Type := Z * list bool * slots.

(** The nodes with a prefix on the way of the bits [q]. *)
Fixpoint visit (q : list bool) (t : rtree) : list item :=
  match t with
  | RLeaf => []
  | RNode key o s l x r =>
      match o with Some _ => [(x, key, s)] | None => [] end
      ++ match q !! length key with
         | Some true => visit q r
         | Some false => visit q l
         | None => []
         end
  end.

Lemma visit_entries pfx q t key s :
  wf pfx t -> (key, s) ∈ entries t -> key `prefix_of` q -> exists x, (x, key, s) ∈ visit q t.
Proof.
  revert pfx. induction t as [|K o s' l IHl x r IHr]; intros pfx Hwf Hin Hq; [by apply elem_of_nil in Hin|].
  cbn in Hin. rewrite !elem_of_app in Hin. destruct Hwf as (_ & _ & _ & Hl & Hr).
  assert (Hbit : forall b t', wf (K ++ [b]) t' -> (key, s) ∈ entries t' -> q !! length K = Some b).
  { intros b t' Ht' Hin'. eapply prefix_lookup_Some; [|exact Hq].
    eapply prefix_lookup_Some; [|by eapply entries_extend]. by apply list_lookup_middle. }
  cbn. destruct Hin as [H|[H|H]].
  - destruct o; [|by apply elem_of_nil in H]. apply list_elem_of_singleton in H. injection H as -> ->.
    exists x. by left.
  - rewrite (Hbit _ _ Hl H). destruct (IHl _ Hl H Hq) as (y & Hy). exists y. apply elem_of_app. by right.
  - rewrite (Hbit _ _ Hr H). destruct (IHr _ Hr H Hq) as (y & Hy). exists y. apply elem_of_app. by right.
Qed.

Lemma visit_node q k t x key s :
  (x, key, s) ∈ visit q t -> is_node (rplug k t) x key s /\ (key, s) ∈ entries t.
Proof.
  revert k. induction t as [|K o s' l IHl y r IHr]; intros k Hin; [by apply elem_of_nil in Hin|].
  cbn in Hin. rewrite elem_of_app in Hin. destruct Hin as [H|H].
  - destruct o as [np|]; [|by apply elem_of_nil in H]. apply list_elem_of_singleton in H. injection H as -> -> ->.
    split; [by exists k, np, l, r|]. cbn. by left.
  - cbn. destruct (q !! length K) as [[]|]; [| |by apply elem_of_nil in H].
    + destruct (IHr (RFrame true K o s' y l :: k) H) as [H1 H2]. split; [exact H1|]. rewrite !elem_of_app. auto.
    + destruct (IHl (RFrame false K o s' y r :: k) H) as [H1 H2]. split; [exact H1|]. rewrite !elem_of_app. auto.
Qed.

(** The end of the first loop: the last node is pushed too. *)
Definition push_last (h : gmap Z radix_node) (s : Z * list Z) : outcome (list Z) :=
  let '(node, stack) := s in
  if node =? 0 then Done stack
  else
    let* n := rnode_at h node in
    match rn_prefix n with Some _ => push stack node | None => Done stack end.

Lemma search_loop h p par pfx t stack fuel :
  prefix_ok p -> rep h par t -> wf pfx t -> t <> RLeaf -> (length stack <= length pfx)%nat ->
  (length (addrs t) <= fuel)%nat ->
  exists s, loop fuel (search_body h (add p) (bitlen p)) (rptr t, stack) = Done s
    /\ push_last h s = Done (rev (fst <$> (fst <$> visit (pbits p) t)) ++ stack).
Proof.
  intros Hp. revert par pfx stack fuel.
  induction t as [|key o s l IHl x r IHr]; intros par pfx stack fuel Hrep Hwf Hne Hst Hf; [done|].
  destruct fuel as [|fuel]; [cbn in Hf; lia|].
  pose proof (wf_length _ _ _ _ _ _ _ Hwf) as [Hlen _].
  destruct Hrep as (Hx & Hn & Hl & Hr). destruct Hwf as (Hpre & _ & _ & Hwl & Hwr).
  apply prefix_length in Hpre. pose proof (po_len _ Hp) as Hpl. pose proof (length_pbits p Hp) as Hpb.
  set (stack' := match o with Some _ => x :: stack | None => stack end).
  assert (Hpush : match o with Some _ => push stack x | None => Done stack end = Done stack').
  { unfold push. destruct o; [|done]. rewrite (proj2 (Z.ltb_lt _ _)); [done|]. unfold Zlen, RADIX_MAXBITS. lia. }
  assert (Hst' : forall b : bool, (length stack' <= length (key ++ [b]))%nat).
  { intros b. rewrite length_app. cbn. unfold stack'. destruct o; cbn; lia. }
  cbn [loop rptr]. unfold search_body at 1. rewrite (rnode_at_Done _ _ _ Hn). cbn [obind rn_bit rn_prefix rn_l rn_r cell].
  assert (Hend : forall rest : list item, rest = [] ->
    rev (fst <$> (fst <$> (match o with Some _ => [(x, key, s)] | None => [] end ++ rest))) ++ stack = stack').
  { intros rest ->. unfold stack'. by destruct o. }
  destruct (Z.of_nat (length key) <? bitlen p) eqn:Elt.
  - rewrite Hpush. cbn [obind].
    destruct (lookup_lt_is_Some_2 (pbits p) (length key)) as (b & Hb); [lia|].
    destruct (pbits_lookup p _ b Hp Hb) as [_ HbT]. rewrite HbT. cbn [obind].
    assert (Hc : rep h x (child b l r)) by (by destruct b).
    replace (if b then rptr r else rptr l) with (rptr (child b l r)) by (by destruct b).
    rewrite (rptr_zero _ _ _ Hc).
    assert (Hv : visit (pbits p) (RNode key o s l x r)
       = match o with Some _ => [(x, key, s)] | None => [] end ++ visit (pbits p) (child b l r)).
    { cbn [visit]. rewrite Hb. by destruct b. }
    rewrite Hv.
    case_bool_decide as Ec.
    + rewrite Ec. exists (0, stack'). split; [done|]. unfold push_last. cbn [Z.eqb]. by rewrite Hend.
    + assert (IH : exists s0, loop fuel (search_body h (add p) (bitlen p)) (rptr (child b l r), stack') = Done s0
         /\ push_last h s0 = Done (rev (fst <$> (fst <$> visit (pbits p) (child b l r))) ++ stack')).
      { cbn [addrs length] in Hf. rewrite length_app in Hf.
        destruct b; [apply (IHr x (key ++ [true]))|apply (IHl x (key ++ [false]))]; cbn [child] in *; try done; lia. }
      destruct IH as (s0 & E & Hs0). exists s0. split; [done|]. rewrite Hs0. f_equal.
      rewrite !fmap_app, rev_app_distr, <- app_assoc. f_equal. unfold stack'. by destruct o.
  - exists (x, stack). split; [done|]. unfold push_last. rewrite (proj2 (Z.eqb_neq x 0)) by done.
    rewrite (rnode_at_Done _ _ _ Hn). cbn [obind rn_prefix cell]. rewrite Hpush. f_equal. cbn [visit].
    rewrite Hend; [done|]. by rewrite lookup_ge_None_2 by lia.
Qed.

(** An item matches: it has a number for the family, and its bits are the first
    bits of the address. *)
Definition num6 (is6 : bool) (i : item) : Z := at6 is6 (s_num i.2).
Definition hit (is6 : bool) (q : list bool) (i : item) : Prop :=
  num6 is6 i <> -1 /\ i.1.2 `prefix_of` q.

#[export] Instance hit_dec is6 q i : Decision (hit is6 q i).
Proof. unfold hit. apply _. Defined.

(** [i] is the best of [l], none if there is none. *)
Definition best (is6 : bool) (q : list bool) (l : list item) (o : option item) : Prop :=
  match o with
  | None => forall i, i ∈ l -> ~ hit is6 q i
  | Some i => i ∈ l /\ hit is6 q i /\ forall j, j ∈ l -> hit is6 q j -> num6 is6 i <= num6 is6 j
  end.

Definition target_of (o : option item) : Z := match o with Some i => i.1.1 | None => 0 end.

(** A host address is longer than every prefix that has a number for its family. *)
Definition host (p : isc_prefix) : Prop :=
  prefix_ok p /\ ((family p = AF_INET /\ bitlen p = 32) \/ (family p = AF_INET6 /\ bitlen p = 128)).

(** An item as it is in the store. *)
Definition item_ok (h : gmap Z radix_node) (i : item) : Prop :=
  let '(x, key, s) := i in
  x <> 0 /\ exists np par l r, h !! x = Some (cell key (Some np) s par l r) /\ node_ok key (Some np) s.

Lemma prefix_match_spec p np s :
  host p -> node_ok (pbits np) (Some np) s -> at6 (ISC_IS6 (family p)) (s_num s) <> -1 ->
  _comp_with_mask (add np) (add p) (bitlen np) = Done (bool_decide (pbits np `prefix_of` pbits p)).
Proof.
  intros [Hp Hhost] (Hnp & _ & H4) Hnum. pose proof (po_size _ Hp). pose proof (po_size _ Hnp).
  pose proof (po_len _ Hp). pose proof (po_len _ Hnp). pose proof (po_family _ Hnp) as Hfam.
  rewrite comp_with_mask_spec; [|apply Hnp|apply Hp|unfold Zlen; lia|unfold Zlen; lia].
  assert (Hle : (Z.to_nat (bitlen np) <= Z.to_nat (bitlen p))%nat).
  { rewrite length_pbits in H4 by done. destruct Hhost as [[E ->]|[E ->]]; [|lia].
    rewrite E in Hnum. cbn in Hnum. specialize (H4 Hnum). lia. }
  f_equal. apply bool_decide_ext. fold (pbits np).
  rewrite <- (take_take_le (bits_of (add p)) _ _ Hle). fold (pbits p). split.
  - intros ->. exists (drop (Z.to_nat (bitlen np)) (pbits p)). by rewrite take_drop.
  - intros Hpre. apply prefix_take in Hpre. by rewrite length_pbits in Hpre.
Qed.

Lemma select_spec h p l (cur : option item) (seen : list item) :
  host p -> Forall (item_ok h) l -> best (ISC_IS6 (family p)) (pbits p) seen cur ->
  (forall i, cur = Some i -> item_ok h i) ->
  exists o, select h p (fst <$> (fst <$> l)) (target_of cur) = Done (target_of o)
    /\ best (ISC_IS6 (family p)) (pbits p) (seen ++ l) o
    /\ (forall i, o = Some i -> item_ok h i).
Proof.
  intros Hp Hl. revert cur seen. induction Hl as [|[[x key] s] l Hi Hl IH]; intros cur seen Hbest Hcur.
  - exists cur. by rewrite app_nil_r.
  - destruct Hi as (Hx & np & par & lp & rp & Hn & Hok). cbn [fmap list_fmap fst select].
    rewrite (rnode_at_Done _ _ _ Hn). cbn [obind rn_prefix node_num cell].
    assert (Hkey : pbits np = key) by (destruct Hok; tauto). subst key.
    assert (Hcomp : exists m, _comp_with_mask (add np) (add p) (bitlen np) = Done m
       /\ (m && negb (at6 (ISC_IS6 (family p)) (s_num s) =? -1) = bool_decide (hit (ISC_IS6 (family p)) (pbits p) (x, pbits np, s)))).
    { destruct (decide (at6 (ISC_IS6 (family p)) (s_num s) = -1)) as [E|E].
      - destruct Hp as [Hp _]. destruct Hok as (Hnp & _ & _).
        pose proof (po_size _ Hp). pose proof (po_size _ Hnp). pose proof (po_len _ Hnp). pose proof (po_family _ Hnp).
        rewrite comp_with_mask_spec; [|apply Hnp|apply Hp|unfold Zlen; lia|unfold Zlen; lia].
        eexists. split; [done|]. rewrite (proj2 (Z.eqb_eq _ _) E), andb_false_r. symmetry.
        apply bool_decide_eq_false_2. intros [H' _]. done.
      - rewrite (prefix_match_spec p np s) by done. eexists. split; [done|].
        rewrite (proj2 (Z.eqb_neq _ _)), andb_true_r by done. apply bool_decide_ext.
        unfold hit, num6. cbn [fst snd]. tauto. }
    destruct Hcomp as (m & -> & Em). cbn [obind]. rewrite Em.
    set (it := (x, pbits np, s) : item) in *.
    assert (Hit : item_ok h it) by (split; [done|by exists np, par, lp, rp]).
    assert (Hstep : exists cur', (if bool_decide (hit (ISC_IS6 (family p)) (pbits p) it) then
                 if target_of cur =? 0 then Done x
                 else let* t := rnode_at h (target_of cur) in
                      Done (if at6 (ISC_IS6 (family p)) (s_num s) <? at6 (ISC_IS6 (family p)) (node_num t)
                            then x else target_of cur)
               else Done (target_of cur)) = Done (target_of cur')
       /\ best (ISC_IS6 (family p)) (pbits p) (seen ++ [it]) cur' /\ (forall i, cur' = Some i -> item_ok h i)).
    { case_bool_decide as Hh.
      - destruct cur as [[[y ky] sy]|]; cbn [target_of fst].
        + destruct (Hcur _ eq_refl) as (Hy & npy & pary & ly & ry & Hny & _).
          rewrite (proj2 (Z.eqb_neq y 0)) by done. rewrite (rnode_at_Done _ _ _ Hny). cbn [obind node_num cell].
          destruct Hbest as (Hin & Hhy & Hmin).
          destruct (at6 _ (s_num s) <? at6 _ (s_num sy)) eqn:Elt.
          * exists (Some it). split; [done|]. split; [|by intros i [= <-]]. split_and!; [apply elem_of_app; right; by left|done|].
            intros j [Hj | ->%list_elem_of_singleton]%elem_of_app Hhj; [|done].
            specialize (Hmin j Hj Hhj). unfold num6 in *. cbn [snd] in *. cbn. lia.
          * exists (Some (y, ky, sy)). split; [done|]. split; [|done]. split_and!; [apply elem_of_app; by left|done|].
            intros j [Hj | ->%list_elem_of_singleton]%elem_of_app Hhj; [by apply Hmin|]. unfold num6. cbn. lia.
        + exists (Some it). split; [done|]. split; [|by intros i [= <-]]. split_and!; [apply elem_of_app; right; by left|done|].
          intros j [Hj | ->%list_elem_of_singleton]%elem_of_app Hhj; [|done]. by destruct (Hbest j Hj).
      - exists cur. split; [done|]. split; [|done]. destruct cur as [i|]; cbn in Hbest |- *.
        + destruct Hbest as (Hin & Hhi & Hmin). split_and!; [apply elem_of_app; by left|done|].
          intros j [Hj | ->%list_elem_of_singleton]%elem_of_app Hhj; [by apply Hmin|done].
        + intros j [Hj | ->%list_elem_of_singleton]%elem_of_app; [by apply Hbest|done]. }
    destruct Hstep as (cur' & -> & Hbest' & Hcur'). cbn [obind].
    destruct (IH cur' (seen ++ [it]) Hbest' Hcur') as (o & E & Hb & Ho). exists o. split; [exact E|].
    split; [|done]. by rewrite <- app_assoc in Hb.
Qed.

Lemma is_node_ok radix t x key s :
  radix_rep radix t -> is_node t x key s ->
  x <> 0 /\ exists np par l r, rt_nodes radix !! x = Some (cell key (Some np) s par l r) /\ node_ok key (Some np) s.
Proof.
  intros [_ Hrep _ Hwf _ _] (k & np & l & r & ->).
  apply rrep_plug in Hrep as [_ (Hx & Hn & _)]. apply wf_plug in Hwf as (_ & (_ & Hok & _) & _).
  split; [done|]. by exists np, (rup k), (rptr l), (rptr r).
Qed.

(** The entry with the least number among those that match. *)
Definition first_match (is6 : bool) (q : list bool) (l : list (list bool * slots)) (key : list bool) (s : slots) : Prop :=
  (key, s) ∈ l /\ at6 is6 (s_num s) <> -1 /\ key `prefix_of` q
  /\ forall key' s', (key', s') ∈ l -> at6 is6 (s_num s') <> -1 -> key' `prefix_of` q ->
       at6 is6 (s_num s) <= at6 is6 (s_num s').

Lemma fmap_rev {A B} (f : A -> B) (l : list A) : f <$> rev l = rev (f <$> l).
Proof. induction l as [|x l IH]; [done|]. cbn. by rewrite fmap_app, IH. Qed.

Lemma radix_search_spec radix t p :
  radix_rep radix t -> host p ->
  (exists x key s, isc_radix_search radix p = Done (ISC_R_SUCCESS, x) /\ is_node t x key s
     /\ first_match (ISC_IS6 (family p)) (pbits p) (entries t) key s)
  \/ (isc_radix_search radix p = Done (ISC_R_NOTFOUND, 0)
      /\ forall key s, (key, s) ∈ entries t -> at6 (ISC_IS6 (family p)) (s_num s) <> -1 ->
           ~ key `prefix_of` pbits p).
Proof.
  intros R Hhost. pose proof R as [Hhead Hrep Hnd Hwf Hmax _]. pose proof Hhost as [Hp Hlen].
  unfold isc_radix_search. rewrite require_true by (rewrite Hmax; unfold RADIX_MAXBITS; lia). cbn [obind].
  rewrite Hhead, (rptr_zero _ _ _ Hrep). case_bool_decide as Et.
  { right. subst t. split; [done|]. by intros key s ?%elem_of_nil. }
  destruct (search_loop (rt_nodes radix) p 0 [] t [] (radix_fuel (rt_nodes radix)) Hp Hrep Hwf Et ltac:(done))
    as (st & -> & Hlast); [pose proof (rrep_size _ _ _ Hrep Hnd); unfold radix_fuel; lia|].
  cbn [obind]. destruct st as [node stack]. unfold push_last in Hlast. rewrite Hlast. cbn [obind].
  rewrite app_nil_r.
  assert (Hs : rev (fst <$> (fst <$> visit (pbits p) t)) = fst <$> (fst <$> rev (visit (pbits p) t)))
    by (by rewrite !fmap_rev).
  rewrite Hs.
  destruct (select_spec (rt_nodes radix) p (rev (visit (pbits p) t)) None [] Hhost) as (o & E & Hbest & Ho).
  { apply Forall_forall. intros [[x key] s] Hin. rewrite list_elem_of_In, <- in_rev, <- list_elem_of_In in Hin.
    apply (visit_node _ []) in Hin as [Hin _]. exact (is_node_ok _ _ _ _ _ R Hin). }
  { by intros i ?%elem_of_nil. }
  { done. }
  assert (Hrev : forall i, i ∈ rev (visit (pbits p) t) <-> i ∈ visit (pbits p) t).
  { intros i. by rewrite list_elem_of_In, <- in_rev, <- list_elem_of_In. }
  cbn [target_of app] in E, Hbest. rewrite E. cbn [obind].
  assert (Hvis : forall key s, (key, s) ∈ entries t -> key `prefix_of` pbits p ->
                   exists x, (x, key, s) ∈ rev (visit (pbits p) t)).
  { intros key s Hin Hpre. destruct (visit_entries [] (pbits p) t key s Hwf Hin Hpre) as (x & Hx).
    exists x. by apply Hrev. }
  destruct o as [[[x key] s]|]; cbn [target_of fst].
  - destruct (Ho _ eq_refl) as (Hx & _). rewrite (proj2 (Z.eqb_neq x 0)) by done.
    left. exists x, key, s. split; [done|]. destruct Hbest as (Hin & [Hnum Hpre] & Hmin).
    apply Hrev, (visit_node _ []) in Hin as [Hnode Hent]. split; [exact Hnode|]. split_and!; try done.
    intros key' s' Hin' Hnum' Hpre'. destruct (Hvis key' s' Hin' Hpre') as (y & Hy).
    by apply (Hmin (y, key', s')).
  - right. split; [done|]. intros key s Hin Hnum Hpre. destruct (Hvis key s Hin Hpre) as (y & Hy).
    by apply (Hbest _ Hy).
Qed.

(** ** Theorems *)

(** C27. Inserting a prefix, from the caller or from a node of another tree, keeps
    the tree a Patricia tree in which every node is where its bits say, leaves
    every other entry as it is and fills the free slots of the prefix ([filled]): a
    prefix from the caller gets the next number in the free slots of its family; a node
    that is merged in gives the free slots its numbers, counted on from those of the
    tree, and its data, for the slots that are set in it when the prefix is new, but for
    both or none, as its IPv4 slot is set or not, when the prefix was there; a slot that
    was set before is never changed.  Without memory the tree is unchanged, and with
    memory the insertion succeeds. *)
Theorem radix_insert_correct radix t source prefix p pmem node_mem glue_mem :
  radix_rep radix t -> prefix_ok p -> effective source prefix = Some p -> source_ok p source ->
  allocator t node_mem glue_mem pmem ->
  (isc_radix_insert radix node_mem glue_mem pmem source prefix = Done (ISC_R_NOMEMORY, 0, radix)
     /\ ~ memory_available p pmem node_mem glue_mem)
  \/ exists target radix' t',
       isc_radix_insert radix node_mem glue_mem pmem source prefix = Done (ISC_R_SUCCESS, target, radix')
       /\ insert_post radix source p t [node_mem; glue_mem] target radix' t'.
Proof.
  intros R Hp He Hs A. destruct (radix_insert_total radix t source prefix p pmem node_mem glue_mem R Hp He Hs A) as [H Hm].
  destruct H as [E|H]; [left|by right]. split; [done|]. intros Hav. by apply Hm.
Qed.

(** C36. A search for an address finds, of all the entries of its family that hold
    the address, the one that was numbered first, and reports that there is none
    only when there is none. *)
Theorem radix_search_first_match radix t p :
  radix_rep radix t -> host p ->
  (exists x key s, isc_radix_search radix p = Done (ISC_R_SUCCESS, x) /\ is_node t x key s
     /\ first_match (ISC_IS6 (family p)) (pbits p) (entries t) key s)
  \/ (isc_radix_search radix p = Done (ISC_R_NOTFOUND, 0)
      /\ forall key s, (key, s) ∈ entries t -> at6 (ISC_IS6 (family p)) (s_num s) <> -1 ->
           ~ key `prefix_of` pbits p).
Proof. apply radix_search_spec. Qed.

(** The tree with 10.0.0.0/8, then 10.1.0.0/16 inserted beside 11.0.0.0/8. *)
Definition prefix4 (a b c d len : Z) : isc_prefix := mkPrefix AF_INET len true ([a; b; c; d] ++ replicate 12 0).

Lemma prefix4_ok a b c d len :
  forallb is_byteb [a; b; c; d] = true -> 0 <= len <= 32 -> prefix_ok (prefix4 a b c d len).
Proof.
  intros Hb Hl. split; cbn [add bitlen family prefix4]; [|done|lia|left; split; [done|lia]].
  apply bytes_app. split; [by apply bytesb_spec|apply (bytes_replicate 12)].
Qed.

Definition sample_tree : rtree :=
  let s n := mkSlots (1, 0) (n, -1) in
  let key a n := take n (byte_bits a) in
  RNode (key 10 7%nat) None glue_slots
    (RNode (key 10 8%nat) (Some (prefix4 10 0 0 0 8)) (s 1) RLeaf 1 RLeaf) 3
    (RNode (key 11 8%nat) (Some (prefix4 11 0 0 0 8)) (s 2) RLeaf 2 RLeaf).

Definition sample_radix : isc_radix_tree :=
  mkRadix (<[3 := cell (take 7 (byte_bits 10)) None glue_slots 0 1 2]>
           (<[1 := cell (byte_bits 10) (Some (prefix4 10 0 0 0 8)) (mkSlots (1, 0) (1, -1)) 3 0 0]>
           (<[2 := cell (byte_bits 11) (Some (prefix4 11 0 0 0 8)) (mkSlots (1, 0) (2, -1)) 3 0 0]> ∅)))
    3 RADIX_MAXBITS 3 2.

Lemma sample_radix_rep : radix_rep sample_radix sample_tree.
Proof.
  split; try done.
  - apply (bool_decide_eq_true_1 _). vm_compute. reflexivity.
  - cbn. split_and!; try done; try (by apply prefix4_ok); try lia. apply prefix_nil.
Qed.

Lemma radix_insert_correct_witness :
  radix_rep sample_radix sample_tree /\
  ((isc_radix_insert sample_radix 5 6 (Some (replicate 16 0)) None (Some (prefix4 10 1 0 0 16)) = Done (ISC_R_NOMEMORY, 0, sample_radix)
    /\ ~ memory_available (prefix4 10 1 0 0 16) (Some (replicate 16 0)) 5 6)
   \/ exists target radix' t',
        isc_radix_insert sample_radix 5 6 (Some (replicate 16 0)) None (Some (prefix4 10 1 0 0 16)) = Done (ISC_R_SUCCESS, target, radix')
        /\ insert_post sample_radix None (prefix4 10 1 0 0 16) sample_tree [5; 6] target radix' t').
Proof.
  split; [apply sample_radix_rep|].
  apply (radix_insert_correct sample_radix sample_tree None (Some (prefix4 10 1 0 0 16)) (prefix4 10 1 0 0 16)
           (Some (replicate 16 0)) 5 6).
  - apply sample_radix_rep.
  - by apply prefix4_ok.
  - reflexivity.
  - exact I.
  - split; [apply (bool_decide_eq_true_1 _); reflexivity|apply (bool_decide_eq_true_1 _); reflexivity|done|]. split; [apply (bytes_replicate 16); lia|done].
Defined.

Lemma radix_search_first_match_witness :
  host (prefix4 10 1 2 3 32) /\
  ((exists x key s, isc_radix_search sample_radix (prefix4 10 1 2 3 32) = Done (ISC_R_SUCCESS, x) /\ is_node sample_tree x key s
     /\ first_match false (pbits (prefix4 10 1 2 3 32)) (entries sample_tree) key s)
  \/ (isc_radix_search sample_radix (prefix4 10 1 2 3 32) = Done (ISC_R_NOTFOUND, 0)
      /\ forall key s, (key, s) ∈ entries sample_tree -> at6 false (s_num s) <> -1 ->
           ~ key `prefix_of` pbits (prefix4 10 1 2 3 32))).
Proof.
  assert (H : host (prefix4 10 1 2 3 32)) by (split; [by apply prefix4_ok|by left]).
  split; [exact H|]. apply (radix_search_first_match sample_radix sample_tree (prefix4 10 1 2 3 32) sample_radix_rep H).
Defined.
