(* ===== verification/Acl.v ===== *)
(** * Access lists ([lib/dns/iptable.c], [lib/dns/acl.c])

    An access list is an IP table, a radix tree whose data pointers say whether a
    prefix is allowed or denied, and an array of elements for everything that is
    not an address: key names, nested lists, [localhost] and [localnets].  The
    entries of both are numbered in the order in which they are added; a match is
    the entry with the least number.

    Lists are immutable once they are in use, so a nested list is its value; the
    reference counts are memory management and left out.  [elements] is the
    initialised part of the array, [alloc] its size. *)

From S2P Require Import Prelude Name Radix.

(** ** Addresses *)

(** [type] is the union of [in], [in6] and a path: at least 16 octets. *)
Record isc_netaddr : Type := mkNetaddr { na_family : Z; na_type : list Z }.

(** [NETADDR_TO_PREFIX_T] *)
Definition NETADDR_TO_PREFIX_T (na : option isc_netaddr) (bits : Z) : outcome isc_prefix :=
  let zero := replicate 16 0 in
  match na with
  | Some na =>
      let* a := blit zero 0 (sub (na_type na) 0 ((bits + 7) / 8)) in
      Done (mkPrefix (na_family na) bits true a)
  | None => Done (mkPrefix AF_UNSPEC 0 true zero)
  end.

(** [IN6_IS_ADDR_V4MAPPED] *)
Definition IN6_IS_ADDR_V4MAPPED (a : list Z) : bool :=
  bool_decide (sub a 0 12 = replicate 10 0 ++ [0xff; 0xff]).

Definition isc_netaddr_fromv4mapped (s : isc_netaddr) : outcome isc_netaddr :=
  REQUIRE na_family s =? AF_INET6 ;;
  REQUIRE IN6_IS_ADDR_V4MAPPED (na_type s) ;;
  let* a := blit (replicate 16 0) 0 (sub (na_type s) 12 4) in
  Done (mkNetaddr AF_INET a).

(** ** IP tables *)

(** The addresses of [dns_iptable_pos] and [dns_iptable_neg]. *)
Definition dns_iptable_pos : Z := 1.
Definition dns_iptable_neg : Z := 2.

(** [*(isc_boolean_t * ) data] *)
Definition iptable_value (data : Z) : outcome bool :=
  if data =? dns_iptable_pos then Done true
  else if data =? dns_iptable_neg then Done false
  else Undef.

(** [mem]: whether the table and its tree could be allocated. *)
Definition dns_iptable_create (mem : bool) : outcome (isc_result_t * option isc_radix_tree) :=
  if negb mem then Done (ISC_R_NOMEMORY, None)
  else let* tab := isc_radix_create RADIX_MAXBITS in Done (ISC_R_SUCCESS, Some tab).

(** The data pointers that are NULL are set. *)
Definition set_data (fam v : Z) (n : radix_node) : radix_node :=
  let put is6 n := if at6 is6 (rn_data n) =? 0 then with_rn_data (set6 is6 v (rn_data n)) n else n in
  if fam =? AF_UNSPEC then put true (put false n) else put (ISC_IS6 fam) n.

Definition dns_iptable_addprefix (tab : isc_radix_tree) (node_mem glue_mem : Z) (pmem : option (list Z))
    (addr : option isc_netaddr) (blen : Z) (pos : bool) : outcome (isc_result_t * isc_radix_tree) :=
  let* pfx := NETADDR_TO_PREFIX_T addr blen in
  let* (result, node, tab) := isc_radix_insert tab node_mem glue_mem pmem None (Some pfx) in
  if bool_decide (result = ISC_R_SUCCESS) then
    REQUIRE negb (family pfx =? AF_UNSPEC) || (bitlen pfx =? 0) ;;
    let* h := rassign (set_data (family pfx) (if pos then dns_iptable_pos else dns_iptable_neg))
                (rt_nodes tab) node in
    Done (ISC_R_SUCCESS, set_nodes h (num_added_node tab) tab)
  else Done (result, tab).

(** The data of a node that is merged with [pos] false: positive entries become
    negative. *)
Definition negate_data (src : radix_node) (n : radix_node) : outcome radix_node :=
  let negate is6 n :=
    let d := at6 is6 (rn_data src) in
    if d =? 0 then Done n
    else
      let* v := iptable_value d in
      Done (if v then with_rn_data (set6 is6 dns_iptable_neg (rn_data n)) n else n) in
  let* n := negate false n in negate true n.

(** The body of the walk of [dns_iptable_merge] for the nodes of the source, with
    the allocator's answers for each. *)
Fixpoint merge_nodes (tab source : isc_radix_tree) (pos : bool) (nodes : list Z)
    (mems : list (Z * Z)) (max_node : Z) : outcome (isc_result_t * isc_radix_tree * Z) :=
  match nodes with
  | [] => Done (ISC_R_SUCCESS, tab, max_node)
  | node :: nodes =>
      let* n := rnode_at (rt_nodes source) node in
      let '(node_mem, glue_mem) := default (0, 0) (head mems) in
      let* (result, new_node, tab) := isc_radix_insert tab node_mem glue_mem None (Some n) None in
      if bool_decide (result = ISC_R_SUCCESS) then
        let* h :=
          (if pos then Done (rt_nodes tab)
           else
             let* m := rnode_at (rt_nodes tab) new_node in
             let* m := negate_data n m in
             Done (<[new_node := m]> (rt_nodes tab))) in
        let max_node := Z.max (node_num n).2 (Z.max (node_num n).1 max_node) in
        merge_nodes (set_nodes h (num_added_node tab) tab) source pos nodes (tail mems) max_node
      else Done (result, tab, max_node)
  end.

Definition dns_iptable_merge (tab source : isc_radix_tree) (pos : bool) (mems : list (Z * Z)) :
    outcome (isc_result_t * isc_radix_tree) :=
  let* nodes := radix_walk source in
  let* (result, tab, max_node) := merge_nodes tab source pos nodes mems 0 in
  if bool_decide (result = ISC_R_SUCCESS)
  then Done (ISC_R_SUCCESS, set_nodes (rt_nodes tab) (s32 (num_added_node tab + max_node)) tab)
  else Done (result, tab).

(** ** Access lists *)

Inductive dns_aclelementtype : Type :=
| dns_aclelementtype_ipprefix
| dns_aclelementtype_keyname
| dns_aclelementtype_nestedacl
| dns_aclelementtype_localhost
| dns_aclelementtype_localnets
| dns_aclelementtype_any.

Inductive dns_acl : Type :=
| mkAcl (iptable : isc_radix_tree) (elements : list dns_aclelement) (has_negatives : bool) (alloc : Z)
with dns_aclelement : Type :=
| mkElement (type : dns_aclelementtype) (negative : bool) (keyname : option dns_name_t)
    (nestedacl : option dns_acl) (e_num : Z).

Definition iptable (a : dns_acl) : isc_radix_tree := let '(mkAcl t _ _ _) := a in t.
Definition elements (a : dns_acl) : list dns_aclelement := let '(mkAcl _ e _ _) := a in e.
Definition alloc (a : dns_acl) : Z := let '(mkAcl _ _ _ n) := a in n.
Definition negative (e : dns_aclelement) : bool := let '(mkElement _ n _ _ _) := e in n.
Definition e_num (e : dns_aclelement) : Z := let '(mkElement _ _ _ _ n) := e in n.

Record dns_aclenv : Type := mkAclenv {
  localhost : option dns_acl;
  localnets : option dns_acl;
  match_mapped : bool
}.

Definition dns_acl_create (mem tab_mem elements_mem : bool) (n : Z) :
    outcome (isc_result_t * option dns_acl) :=
  let n := if n =? 0 then 1 else n in
  if negb mem then Done (ISC_R_NOMEMORY, None)
  else
    let* (result, tab) := dns_iptable_create tab_mem in
    match tab with
    | None => Done (result, None)
    | Some tab =>
        if negb elements_mem then Done (ISC_R_NOMEMORY, None)
        else Done (ISC_R_SUCCESS, Some (mkAcl tab [] false n))
    end.

Definition dns_acl_anyornone (mem tab_mem elements_mem : bool) (node_mem glue_mem : Z) (pmem : option (list Z))
    (neg : bool) : outcome (isc_result_t * option dns_acl) :=
  let* (result, acl) := dns_acl_create mem tab_mem elements_mem 0 in
  match acl with
  | None => Done (result, None)
  | Some (mkAcl tab e hn al) =>
      let* (result, tab) := dns_iptable_addprefix tab node_mem glue_mem pmem None 0 (negb neg) in
      Done (result, if bool_decide (result = ISC_R_SUCCESS) then Some (mkAcl tab e hn al) else None)
  end.

(** [dns_acl_isanyornone] *)
Definition dns_acl_isanyornone (acl : dns_acl) (pos : bool) : outcome bool :=
  let radix := iptable acl in
  if rt_head radix =? 0 then Done false
  else
    let* n := rnode_at (rt_nodes radix) (rt_head radix) in
    match rn_prefix n with
    | None => Done false
    | Some p =>
        if negb (bool_decide (elements acl = [])) || negb (num_added_node radix =? 1) then Done false
        else if (bitlen p =? 0) && negb ((rn_data n).1 =? 0) && ((rn_data n).1 =? (rn_data n).2) then
          let* v := iptable_value (rn_data n).1 in Done (eqb v pos)
        else Done false
    end.

Definition dns_acl_isany (acl : dns_acl) : outcome bool := dns_acl_isanyornone acl true.
Definition dns_acl_isnone (acl : dns_acl) : outcome bool := dns_acl_isanyornone acl false.

(** The host prefix of an address, with IPv4-mapped addresses as IPv4 ones if the
    environment says so. *)
Definition request_prefix (reqaddr : isc_netaddr) (env : option dns_aclenv) : outcome isc_prefix :=
  let* addr :=
    (match env with
     | Some env =>
         if negb (match_mapped env) || negb (na_family reqaddr =? AF_INET6)
            || negb (IN6_IS_ADDR_V4MAPPED (na_type reqaddr))
         then Done reqaddr
         else isc_netaddr_fromv4mapped reqaddr
     | None => Done reqaddr
     end) in
  NETADDR_TO_PREFIX_T (Some addr) (if na_family addr =? AF_INET6 then 128 else 32).

(** The match in the IP table: [match_num] and [*match]. *)
Definition match_table (tab : isc_radix_tree) (pfx : isc_prefix) : outcome (Z * Z) :=
  let* (result, node) := isc_radix_search tab pfx in
  if bool_decide (result = ISC_R_SUCCESS) then
    let* n := rnode_at (rt_nodes tab) node in
    let match_num := at6 (ISC_IS6 (family pfx)) (node_num n) in
    let* v := iptable_value (at6 (ISC_IS6 (family pfx)) (rn_data n)) in
    Done (match_num, if v then match_num else - match_num)
  else Done (-1, 0).

(** The loop over the elements; [ematch e matchelt] is [dns_aclelement_match], the
    result is [*match] and [*matchelt]. *)
Fixpoint match_elements (ematch : dns_aclelement -> option dns_aclelement -> outcome (bool * option dns_aclelement))
    (es : list dns_aclelement) (match_num m : Z) (matchelt : option dns_aclelement) :
    outcome (Z * option dns_aclelement) :=
  match es with
  | [] => Done (m, matchelt)
  | e :: es =>
      if negb (match_num =? -1) && (match_num <? e_num e) then Done (m, matchelt)
      else
        let* (b, matchelt) := ematch e matchelt in
        if b then
          Done (if (match_num =? -1) || (e_num e <? match_num)
                then if negative e then - e_num e else e_num e
                else m, matchelt)
        else match_elements ematch es match_num m matchelt
  end.

(** [acl_match inner matchelt] is the call of [dns_acl_match] for a nested list.
    The results are the value and [*matchelt]. *)
Definition dns_aclelement_match
    (acl_match : dns_acl -> option dns_aclelement -> outcome (Z * option dns_aclelement))
    (reqsigner : option dns_name_t) (env : option dns_aclenv)
    (e : dns_aclelement) (matchelt : option dns_aclelement) : outcome (bool * option dns_aclelement) :=
  let indirect inner :=
    let* (indirectmatch, matchelt) := acl_match inner matchelt in
    Done (if 0 <? indirectmatch then (true, Some e) else (false, None)) in
  let '(mkElement type _ keyname nestedacl _) := e in
  match type with
  | dns_aclelementtype_keyname =>
      match reqsigner, keyname with
      | Some signer, Some k =>
          let* same := dns_name_equal signer k in
          Done (if same then (true, Some e) else (false, matchelt))
      | Some _, None => Undef
      | None, _ => Done (false, matchelt)
      end
  | dns_aclelementtype_nestedacl =>
      match nestedacl with Some inner => indirect inner | None => Undef end
  | dns_aclelementtype_localhost =>
      match env with
      | Some env =>
          match localhost env with Some inner => indirect inner | None => Done (false, matchelt) end
      | None => Done (false, matchelt)
      end
  | dns_aclelementtype_localnets =>
      match env with
      | Some env =>
          match localnets env with Some inner => indirect inner | None => Done (false, matchelt) end
      | None => Done (false, matchelt)
      end
  | _ => Abort
  end.

(** The fuel is the depth of the nesting.  The caller's [matchelt] is not NULL; a
    caller that passes NULL gets the same match. *)
Fixpoint dns_acl_match (fuel : nat) (reqaddr : isc_netaddr) (reqsigner : option dns_name_t)
    (acl : dns_acl) (env : option dns_aclenv) (matchelt : option dns_aclelement) {struct fuel} :
    outcome (Z * option dns_aclelement) :=
  match fuel with
  | O => NoFuel
  | S fuel =>
      REQUIRE match matchelt with None => true | Some _ => false end ;;
      let* pfx := request_prefix reqaddr env in
      let* (match_num, m) := match_table (iptable acl) pfx in
      match_elements
        (dns_aclelement_match (fun inner => dns_acl_match fuel reqaddr reqsigner inner env) reqsigner env)
        (elements acl) match_num m matchelt
  end.

(** The end of the loop of [cfg_acl_fromconfig] ([lib/isccfg/aclconf.c]): the
    element at the end of the array gets the next number. *)
Definition append_element (acl : dns_acl) (type : dns_aclelementtype) (neg : bool)
    (keyname : option dns_name_t) (nestedacl : option dns_acl) : outcome dns_acl :=
  let '(mkAcl tab es hn al) := acl in
  let count := s32 (num_added_node tab + 1) in
  let es := es ++ [mkElement type neg keyname nestedacl count] in
  REQUIRE Zlen es <=? al ;;
  Done (mkAcl (set_nodes (rt_nodes tab) count tab) es hn al).

(** The loop of [dns_acl_merge] over the elements of the source; [names] says for
    which key names there is memory, [elements] is what has been copied. *)
Fixpoint merge_elements (count : Z) (pos : bool) (names : list bool) (source elements : list dns_aclelement)
    (max_node : Z) : outcome (isc_result_t * list dns_aclelement * Z) :=
  match source with
  | [] => Done (ISC_R_SUCCESS, elements, max_node)
  | mkElement type neg keyname nestedacl num :: source =>
      let max_node := if max_node <? num then num else max_node in
      let* (result, keyname) :=
        (match type, keyname with
         | dns_aclelementtype_keyname, Some k =>
             let* (result, k) := dns_name_dup (default true (head names)) k (dns_name_init None) in
             Done (result, Some k)
         | dns_aclelementtype_keyname, None => Undef
         | _, _ => Done (ISC_R_SUCCESS, None)
         end) in
      if bool_decide (result = ISC_R_SUCCESS) then
        let nestedacl := match type with dns_aclelementtype_nestedacl => nestedacl | _ => None end in
        let neg := if negb pos && negb neg then true else neg in
        let names := match type with dns_aclelementtype_keyname => tail names | _ => names end in
        merge_elements count pos names source
          (elements ++ [mkElement type neg keyname nestedacl (s32 (num + count))]) max_node
      else Done (result, elements, max_node)
  end.

(** [dns_acl_merge].  When a key name cannot be copied the array is left with
    elements that have no value: there is no list then. *)
Definition dns_acl_merge (mem : bool) (names : list bool) (mems : list (Z * Z)) (dest source : dns_acl)
    (pos : bool) : outcome (isc_result_t * option dns_acl) :=
  let '(mkAcl tab es hn al) := dest in
  let resize := al <? Zlen es + Zlen (elements source) in
  if resize && negb mem then Done (ISC_R_NOMEMORY, Some dest)
  else
    let al := if resize then Z.max 4 (al + alloc source) else al in
    let* (result, es, max_node) :=
      merge_elements (num_added_node tab) pos names (elements source) es 0 in
    if bool_decide (result = ISC_R_SUCCESS) then
      let nodes := s32 (max_node + num_added_node tab) in
      let* (result, tab) := dns_iptable_merge tab (iptable source) pos mems in
      let tab := if bool_decide (result = ISC_R_SUCCESS) && (num_added_node tab <? nodes)
                 then set_nodes (rt_nodes tab) nodes tab else tab in
      Done (result, Some (mkAcl tab es hn al))
    else Done (result, None).

(** [is_insecure], the callback of [dns_acl_isinsecure]: does the node make the
    list insecure? *)
Definition is_insecure (p : isc_prefix) (data : pair2) : outcome bool :=
  let* secure := iptable_value (at6 (ISC_IS6 (family p)) data) in
  if negb secure then Done false
  else if (family p =? AF_INET) && (bitlen p =? 32) && bool_decide (sub (add p) 0 4 = [127; 0; 0; 1])
  then Done false
  else if (family p =? AF_INET6) && (bitlen p =? 128)
          && bool_decide (add p = replicate 15 0 ++ [1])
  then Done false
  else Done true.

(** [isc_radix_process(a->iptable->radix, is_insecure)]: the value of
    [insecure_prefix_found]. *)
Fixpoint insecure_nodes (h : gmap Z radix_node) (nodes : list Z) (found : bool) : outcome bool :=
  match nodes with
  | [] => Done found
  | node :: nodes =>
      let* n := rnode_at h node in
      match rn_prefix n with
      | None => Undef
      | Some p =>
          let* b := is_insecure p (rn_data n) in
          insecure_nodes h nodes (found || b)
      end
  end.

Fixpoint dns_acl_isinsecure (fuel : nat) (a : dns_acl) {struct fuel} : outcome bool :=
  match fuel with
  | O => NoFuel
  | S fuel =>
      let* nodes := radix_walk (iptable a) in
      let* insecure := insecure_nodes (rt_nodes (iptable a)) nodes false in
      if insecure then Done true
      else
        (fix scan (es : list dns_aclelement) : outcome bool :=
           match es with
           | [] => Done false
           | mkElement type neg _ nestedacl _ :: es =>
               if neg then scan es
               else
                 match type with
                 | dns_aclelementtype_keyname | dns_aclelementtype_localhost => scan es
                 | dns_aclelementtype_nestedacl =>
                     match nestedacl with
                     | Some inner =>
                         let* b := dns_acl_isinsecure fuel inner in
                         if b then Done true else scan es
                     | None => Undef
                     end
                 | dns_aclelementtype_localnets => Done true
                 | _ => Abort
                 end
           end) (elements a)
  end.
