(* ===== verification/AclTheory.v ===== *)
(** * Access lists match the first rule

    An access list is built by adding rules one after the other: address prefixes
    go into the radix tree, everything else into the array of elements.  Whatever
    the shape of the tree, matching gives the verdict of the first rule of the list
    that applies to the request. *)

From S2P Require Import Prelude Name NameTheory Radix RadixTheory Acl.

Set Warnings "-register-all".

(** ** Prefixes and requests *)

(** A caller's prefix: none for "any", or an address with a length that fits. *)
Definition addr_ok (addr : option isc_netaddr) (blen : Z) : Prop :=
  match addr with
  | None => blen = 0
  | Some a => bytes (na_type a) /\ length (na_type a) = 16%nat
              /\ ((na_family a = AF_INET /\ 0 <= blen <= 32) \/ (na_family a = AF_INET6 /\ 0 <= blen <= 128))
  end.

Definition rule_bits (addr : option isc_netaddr) (blen : Z) : list bool :=
  match addr with Some a => take (Z.to_nat blen) (bits_of (na_type a)) | None => [] end.

Definition rule_family (addr : option isc_netaddr) : Z :=
  match addr with Some a => na_family a | None => AF_UNSPEC end.

Lemma bits_app a b : bits_of (a ++ b) = bits_of a ++ bits_of b.
Proof. unfold bits_of. by rewrite fmap_app, concat_app. Qed.

(** Copying the octets that hold the first [n] bits. *)
Lemma copy_bits a n rest :
  0 <= n <= 8 * Zlen a ->
  take (Z.to_nat n) (bits_of (sub a 0 ((n + 7) / 8) ++ rest)) = take (Z.to_nat n) (bits_of a).
Proof.
  intros Hn. unfold sub. change (Z.to_nat 0) with 0%nat. rewrite drop_0, bits_app.
  set (m := Z.to_nat ((n + 7) / 8)).
  assert (Hm : (Z.to_nat n <= 8 * m)%nat /\ (m <= length a)%nat) by (subst m; unfold Zlen in Hn; divlia).
  rewrite <- take_bits_whole by lia.
  rewrite take_app_le by (rewrite length_take, length_bits; lia). rewrite take_take. f_equal. lia.
Qed.

Lemma netaddr_to_prefix addr blen :
  addr_ok addr blen ->
  exists p, NETADDR_TO_PREFIX_T addr blen = Done p /\ prefix_ok p /\ pbits p = rule_bits addr blen
    /\ family p = rule_family addr
    /\ bitlen p = blen.
Proof.
  destruct addr as [a|]; cbn [addr_ok]; unfold NETADDR_TO_PREFIX_T.
  - intros (Hb & H16 & Hfam). assert (Hl : 0 <= blen <= 128) by lia.
    assert (Hz : Zlen (sub (na_type a) 0 ((blen + 7) / 8)) = (blen + 7) / 8).
    { apply Zlen_sub; unfold Zlen; divlia. }
    rewrite blit_ok; [|lia|unfold Zlen at 2; rewrite length_replicate; rewrite Hz; divlia].
    cbn [obind]. change (take (Z.to_nat 0) (replicate 16 0)) with (@nil Z). cbn [app].
    eexists. split; [done|]. split_and!; [split; cbn [add bitlen family]|..]; try done.
    + apply bytes_app. split; [by apply bytes_sub|]. apply bytes_drop, bytes_replicate.
    + rewrite length_app, length_drop, length_replicate. unfold Zlen in *. rewrite Hz. divlia.
    + lia.
    + tauto.
    + unfold pbits. cbn [bitlen add]. apply copy_bits. unfold Zlen. lia.
  - intros ->. eexists. split; [done|]. split_and!; try done. split; cbn; [apply (bytes_replicate 16)|done|done|].
    right; right. done.
Qed.

(** The request as the radix tree sees it: the family and the bits. *)
Definition mapped (reqaddr : isc_netaddr) (env : option dns_aclenv) : bool :=
  match env with
  | Some env => match_mapped env && (na_family reqaddr =? AF_INET6) && IN6_IS_ADDR_V4MAPPED (na_type reqaddr)
  | None => false
  end.

Definition req_is6 (reqaddr : isc_netaddr) (env : option dns_aclenv) : bool :=
  negb (mapped reqaddr env) && ISC_IS6 (na_family reqaddr).

Definition req_bits (reqaddr : isc_netaddr) (env : option dns_aclenv) : list bool :=
  if mapped reqaddr env then bits_of (drop 12 (na_type reqaddr))
  else if ISC_IS6 (na_family reqaddr) then bits_of (na_type reqaddr)
  else bits_of (take 4 (na_type reqaddr)).

Definition request_ok (reqaddr : isc_netaddr) : Prop :=
  bytes (na_type reqaddr) /\ length (na_type reqaddr) = 16%nat
  /\ (na_family reqaddr = AF_INET \/ na_family reqaddr = AF_INET6).

Lemma host_prefix a :
  request_ok a ->
  exists p, NETADDR_TO_PREFIX_T (Some a) (if na_family a =? AF_INET6 then 128 else 32) = Done p /\ host p
    /\ ISC_IS6 (family p) = ISC_IS6 (na_family a)
    /\ pbits p = if ISC_IS6 (na_family a) then bits_of (na_type a) else bits_of (take 4 (na_type a)).
Proof.
  intros (Hb & H16 & Hfam).
  destruct (netaddr_to_prefix (Some a) (if na_family a =? AF_INET6 then 128 else 32)) as (p & E & Hp & Hbits & Hf & Hl).
  { split_and!; [done|done|]. unfold AF_INET, AF_INET6 in *. destruct (na_family a =? 10) eqn:?; lia. }
  exists p. split; [done|]. cbn [rule_family] in Hf. split_and!; [split; [done|]|by rewrite Hf|].
  - rewrite Hf, Hl. unfold AF_INET, AF_INET6 in *. destruct (na_family a =? 10) eqn:?; lia.
  - rewrite Hbits. cbn [rule_bits]. unfold ISC_IS6. destruct (na_family a =? AF_INET6).
    + rewrite take_ge; [done|]. rewrite length_bits. lia.
    + change (Z.to_nat 32) with (8 * 4)%nat. apply take_bits_whole. lia.
Qed.

Lemma request_prefix_spec reqaddr env :
  request_ok reqaddr ->
  exists p, request_prefix reqaddr env = Done p /\ host p
    /\ ISC_IS6 (family p) = req_is6 reqaddr env /\ pbits p = req_bits reqaddr env.
Proof.
  intros Hreq. unfold request_prefix, req_is6, req_bits.
  assert (Hno : mapped reqaddr env = false ->
    (match env with
     | Some env =>
         if negb (match_mapped env) || negb (na_family reqaddr =? AF_INET6)
            || negb (IN6_IS_ADDR_V4MAPPED (na_type reqaddr))
         then Done reqaddr else isc_netaddr_fromv4mapped reqaddr
     | None => Done reqaddr
     end) = Done reqaddr).
  { unfold mapped. destruct env as [e|]; [|done].
    destruct (match_mapped e), (na_family reqaddr =? AF_INET6), (IN6_IS_ADDR_V4MAPPED (na_type reqaddr)); done. }
  destruct (mapped reqaddr env) eqn:Em.
  - destruct Hreq as (Hb & H16 & Hfam). unfold mapped in Em. destruct env as [e|]; [|done].
    apply andb_true_iff in Em as [Em E3]. apply andb_true_iff in Em as [E1 E2]. rewrite E1, E2, E3. cbn [negb orb].
    unfold isc_netaddr_fromv4mapped. rewrite E2, E3. cbn [require obind].
    rewrite blit_ok; [|lia|unfold Zlen; unfold sub; rewrite length_take, length_drop, length_replicate; lia].
    cbn [obind]. change (take (Z.to_nat 0) (replicate 16 0)) with (@nil Z). cbn [app].
    assert (Hs : sub (na_type reqaddr) 12 4 = drop 12 (na_type reqaddr)).
    { unfold sub. apply take_ge. rewrite length_drop. lia. }
    assert (Hl : length (drop 12 (na_type reqaddr)) = 4%nat) by (rewrite length_drop; lia).
    rewrite Hs. unfold Zlen. rewrite Hl. change (Z.to_nat (0 + Z.of_nat 4)) with 4%nat.
    destruct (host_prefix (mkNetaddr AF_INET (drop 12 (na_type reqaddr) ++ drop 4 (replicate 16 0))))
      as (p & E & Hh & Hf & Hbits).
    { split_and!; cbn; [|rewrite length_app, Hl; done|by left].
      apply bytes_app. split; [by apply bytes_drop|]. apply (bytes_replicate 12). }
    exists p. split_and!; [exact E|done|by rewrite Hf|]. rewrite Hbits. cbn [na_family na_type ISC_IS6 Z.eqb].
    change (AF_INET =? AF_INET6) with false. cbn. by rewrite take_app_length'.
  - rewrite Hno by done. cbn [obind]. destruct (host_prefix reqaddr Hreq) as (p & E & Hh & Hf & Hbits).
    exists p. split_and!; [done|done|by rewrite Hf|done].
Qed.

(** ** Adding a prefix *)

Definition pointer (pos : bool) : Z := if pos then dns_iptable_pos else dns_iptable_neg.

(** A prefix takes the slots of its families that are free. *)
Definition fill (fam added v : Z) (s : slots) : slots :=
  let put (is6 : bool) s :=
    if covers is6 fam && (at6 is6 (s_num s) =? -1)
    then mkSlots (set6 is6 v (s_data s)) (set6 is6 (added + 1) (s_num s)) else s in
  put true (put false s).

(** A slot has a number when it has a data pointer. *)
Definition full (s : slots) : Prop := forall is6, at6 is6 (s_num s) = -1 <-> at6 is6 (s_data s) = 0.

Definition known_family (fam : Z) : Prop := fam = AF_UNSPEC \/ fam = AF_INET \/ fam = AF_INET6.

Lemma at6_set6 (b c : bool) v a : at6 b (set6 c v a) = if eqb b c then v else at6 b a.
Proof. by destruct b, c. Qed.

Lemma fill_slots fam added v s is6 :
  at6 is6 (s_num (fill fam added v s))
    = (if covers is6 fam && (at6 is6 (s_num s) =? -1) then added + 1 else at6 is6 (s_num s))
  /\ at6 is6 (s_data (fill fam added v s))
     = if covers is6 fam && (at6 is6 (s_num s) =? -1) then v else at6 is6 (s_data s).
Proof.
  destruct s as [[d0 d1] [n0 n1]]. unfold fill. cbn.
  destruct is6, (covers false fam), (covers true fam), (n0 =? -1) eqn:E0, (n1 =? -1) eqn:E1; cbn;
    rewrite ?E0, ?E1; done.
Qed.

Lemma fill_full fam added v s : 0 <= added -> v <> 0 -> full s -> full (fill fam added v s).
Proof.
  intros Ha Hv H is6. destruct (fill_slots fam added v s is6) as [-> ->]. specialize (H is6).
  destruct (covers is6 fam && (at6 is6 (s_num s) =? -1)); [lia|done].
Qed.

Lemma s32_next n : 0 <= n < 2 ^ 31 - 1 -> s32 (n + 1) = n + 1.
Proof. intros H. unfold s32. cbv zeta. unfold u32. rewrite Z.mod_small by lia. destruct (_ <? _) eqn:?; lia. Qed.

Section Slots.
Context (added fam : Z) (key : list bool) (o : option isc_prefix) (par l r : Z) (pos : bool).
Hypothesis Hadded : 0 <= added < 2 ^ 31 - 1.
Hypothesis Hfam : known_family fam.

Lemma set_data_fresh :
  set_data fam (pointer pos) (cell key o (fresh_slots added fam None).1 par l r)
    = cell key o (fill fam added (pointer pos) glue_slots) par l r
  /\ (fresh_slots added fam None).2 = added + 1.
Proof.
  unfold fresh_slots, new_numbers, set_data, fill, cell. rewrite s32_next by done.
  destruct Hfam as [-> | [-> | ->]]; done.
Qed.

Lemma set_data_old s :
  full s ->
  set_data fam (pointer pos) (cell key o (old_slots added fam None s).1 par l r)
    = cell key o (fill fam added (pointer pos) s) par l r
  /\ (old_slots added fam None s).2
     = if existsb (fun is6 => covers is6 fam && (at6 is6 (s_num s) =? -1)) [false; true]
       then added + 1 else added.
Proof.
  intros H. pose proof (H false) as H0. pose proof (H true) as H1. clear H.
  destruct s as [[d0 d1] [n0 n1]]. cbn in H0, H1.
  unfold old_slots, old_numbers, set_data, fill, cell. rewrite s32_next by done.
  assert (E0 : (n0 =? -1) = (d0 =? 0)) by (destruct (n0 =? -1) eqn:?, (d0 =? 0) eqn:?; lia).
  assert (E1 : (n1 =? -1) = (d1 =? 0)) by (destruct (n1 =? -1) eqn:?, (d1 =? 0) eqn:?; lia).
  destruct Hfam as [-> | [-> | ->]]; cbn; rewrite ?E0, ?E1; destruct (d0 =? 0) eqn:F0, (d1 =? 0) eqn:F1;
    do 3 (cbn; rewrite ?E0, ?E1, ?F0, ?F1); done.
Qed.

End Slots.

Lemma set_data_num fam v n : node_num (set_data fam v n) = node_num n.
Proof. unfold set_data. repeat case_match; done. Qed.

(** The slot of a prefix for a family: its number and its data pointer. *)
Definition slot (t : rtree) (is6 : bool) (key : list bool) (num data : Z) : Prop :=
  exists s, (key, s) ∈ entries t /\ at6 is6 (s_num s) = num /\ num <> -1 /\ at6 is6 (s_data s) = data.

(** The table of an access list. *)
Record table_ok (tab : isc_radix_tree) (t : rtree) : Prop := {
  to_rep : radix_rep tab t;
  to_full : forall key s, (key, s) ∈ entries t -> full s;
  to_added : 0 <= num_added_node tab;
  to_num : forall is6 key num data,
    slot t is6 key num data -> 1 <= num <= num_added_node tab /\ exists pos, data = pointer pos
}.

Lemma perm_key (l1 l2 : list (list bool * slots)) q a b :
  NoDup ((q, a) :: l1).*1 -> (q, a) :: l1 ≡ₚ (q, b) :: l2 -> a = b /\ l1 ≡ₚ l2.
Proof.
  intros Hnd E. assert (Hin : (q, b) ∈ (q, a) :: l1) by (rewrite E; left).
  cbn in Hnd. apply NoDup_cons in Hnd as [Hq _].
  apply elem_of_cons in Hin as [[= ->] | Hin]; [split; [done|]; by apply (Permutation_cons_inv (a := (q, a)))|].
  destruct Hq. apply list_elem_of_fmap. by exists (q, b).
Qed.

(** The data pointers of a node of the tree change. *)
Lemma table_assign tab t x q s1 f s2 :
  radix_rep tab t -> is_node t x q s1 -> s_num s2 = s_num s1 ->
  (forall o par l r, f (cell q o s1 par l r) = cell q o s2 par l r) ->
  exists h t', rassign f (rt_nodes tab) x = Done h /\ radix_rep (set_nodes h (num_added_node tab) tab) t'
    /\ exists rest, entries t ≡ₚ (q, s1) :: rest /\ entries t' ≡ₚ (q, s2) :: rest.
Proof.
  intros [Hh Hr Hn Hw Hb Ha] (k & np & l & r & ->) Hnum Hf.
  pose proof Hr as (Hx & E & _)%rrep_plug%proj2. unfold rassign, rnode_at. rewrite E. cbn [obind]. rewrite Hf.
  eexists _, (rplug k (RNode q (Some np) s2 l x r)). split; [done|]. split.
  - split; cbn; rewrite ?(addrs_update k q (Some np) s1); try done.
    + rewrite Hh. by apply rptr_plug_same.
    + by eapply rep_update.
    + eapply wf_update; [done| |done]. apply wf_plug in Hw as (_ & Hw & _). cbn in Hw.
      destruct Hw as (_ & Hok & _). cbn in *. by rewrite Hnum.
  - exists (entries l ++ entries r ++ entries_around k).
    split; rewrite entries_plug; cbn; by rewrite <- ?app_assoc.
Qed.

(** The entries before a prefix is added: its node, or nothing. *)
Definition prior (t : rtree) (q : list bool) (s : slots) (rest : list (list bool * slots)) : Prop :=
  entries t ≡ₚ (q, s) :: rest \/ (s = glue_slots /\ entries t ≡ₚ rest).

Definition slot_in (l : list (list bool * slots)) (is6 : bool) (key : list bool) (num data : Z) : Prop :=
  exists s, (key, s) ∈ l /\ at6 is6 (s_num s) = num /\ num <> -1 /\ at6 is6 (s_data s) = data.

Lemma slot_in_cons q s rest is6 key num data :
  slot_in ((q, s) :: rest) is6 key num data <->
  slot_in rest is6 key num data
  \/ (key = q /\ at6 is6 (s_num s) = num /\ num <> -1 /\ at6 is6 (s_data s) = data).
Proof.
  split.
  - intros (s' & Hin & H). apply elem_of_cons in Hin as [[= -> ->] | Hin]; [by right|]. left. by exists s'.
  - intros [(s' & Hin & H) | (-> & H)]; [exists s'; by split; [right|]|]. exists s. by split; [left|].
Qed.

Lemma slot_entries t l is6 key num data : entries t ≡ₚ l -> slot t is6 key num data <-> slot_in l is6 key num data.
Proof. intros E. unfold slot, slot_in. by setoid_rewrite E. Qed.

Lemma slot_prior t q s rest is6 key num data :
  prior t q s rest ->
  slot t is6 key num data <->
  slot_in rest is6 key num data
  \/ (key = q /\ at6 is6 (s_num s) = num /\ num <> -1 /\ at6 is6 (s_data s) = data).
Proof.
  intros [E | [-> E]]; rewrite (slot_entries _ _ _ _ _ _ E); [apply slot_in_cons|].
  split; [by left|]. intros [? | (_ & H & ? & _)]; [done|]. by destruct is6.
Qed.

Lemma slot_filled t t' q s rest fam added v is6 key num data :
  prior t q s rest -> entries t' ≡ₚ (q, fill fam added v s) :: rest -> q ∉ rest.*1 -> 0 <= added ->
  slot t' is6 key num data <->
  slot t is6 key num data
  \/ (covers is6 fam = true /\ key = q /\ num = added + 1 /\ data = v /\ forall n d, ~ slot t is6 q n d).
Proof.
  intros Hp Hf Hq Ha. rewrite (slot_entries _ _ _ _ _ _ Hf), slot_in_cons, (slot_prior _ _ _ _ _ _ _ _ Hp).
  destruct (fill_slots fam added v s is6) as [-> ->].
  assert (Hfree : (forall n d, ~ slot t is6 q n d) <-> at6 is6 (s_num s) = -1).
  { split; [intros H; destruct (decide (at6 is6 (s_num s) = -1)) as [|Hn]; [done|]|].
    - destruct (H (at6 is6 (s_num s)) (at6 is6 (s_data s))). apply (slot_prior _ _ _ _ _ _ _ _ Hp). by right.
    - intros H n d [(s' & Hin & _) | (_ & ? & ? & _)]%(slot_prior _ _ _ _ _ _ _ _ Hp); [|congruence].
      apply Hq, list_elem_of_fmap. by exists (q, s'). }
  rewrite Hfree. destruct (covers is6 fam), (Z.eqb_spec (at6 is6 (s_num s)) (-1)) as [E|E]; cbn [andb].
  - rewrite E. split; [intros [?|(-> & <- & ? & <-)]; [left; by left|right; by split_and!]|].
    intros [[?|(_ & <- & [] & _)]|(_ & -> & -> & -> & _)]; [by left|done|]. right. split_and!; [done..|lia|done].
  - split; [by left|]. intros [?|(_ & _ & _ & _ & ?)]; done.
  - split; [by left|]. intros [?|([=] & _)]; done.
  - split; [by left|]. intros [?|([=] & _)]; done.
Qed.

Lemma insert_prior (tab tab' : isc_radix_tree) t t' q fam :
  (forall key s, (key, s) ∈ entries t -> full s) ->
  inserted (num_added_node tab) fam None q t t' (num_added_node tab') -> NoDup (entries t').*1 ->
  0 <= num_added_node tab < 2 ^ 31 - 1 -> known_family fam ->
  exists s s1 rest, prior t q s rest /\ full s /\ entries t' ≡ₚ (q, s1) :: rest
    /\ (forall o par l r pos, set_data fam (pointer pos) (cell q o s1 par l r)
          = cell q o (fill fam (num_added_node tab) (pointer pos) s) par l r)
    /\ num_added_node tab' = if existsb (fun is6 => covers is6 fam && (at6 is6 (s_num s) =? -1)) [false; true]
                             then num_added_node tab + 1 else num_added_node tab.
Proof.
  intros Hfull Hi Hnd Ha Hfam. remember (num_added_node tab') as a' eqn:E'. clear E'. destruct Hi as [s' Hq F E | s s' rest F E E'].
  - destruct (filled_unique _ _ _ _ _ _ _ _ _ F (fresh_filled _ fam (mkPrefix 0 0 false []) None I)) as [-> ->].
    exists glue_slots, (fresh_slots (num_added_node tab) fam None).1, (entries t).
    split; [by right|]. split; [by intros []|]. split; [done|].
    split; [intros; by apply set_data_fresh|].
    rewrite (proj2 (set_data_fresh _ _ [] None 0 0 0 true Ha Hfam)). by destruct Hfam as [-> | [-> | ->]].
  - destruct (filled_unique _ _ _ _ _ _ _ _ _ F (old_filled _ fam None s)) as [-> ->].
    exists s, (old_slots (num_added_node tab) fam None s).1, rest.
    assert (Hs : full s) by (apply (Hfull q); rewrite E; left).
    split; [by left|]. split; [done|]. split; [done|]. split; [intros; by apply set_data_old|].
    by rewrite (proj2 (set_data_old _ _ [] None 0 0 0 true Ha Hfam s Hs)).
Qed.

(** What adding a prefix does to the slots. *)
Record added_prefix (tab tab' : isc_radix_tree) (t t' : rtree) (addr : option isc_netaddr) (blen : Z) (pos : bool) : Prop := {
  ap_ok : table_ok tab' t';
  ap_added : num_added_node tab <= num_added_node tab' <= num_added_node tab + 1;
  ap_slots : forall is6 key num data,
    slot t' is6 key num data <->
    slot t is6 key num data
    \/ (covers is6 (rule_family addr) = true /\ key = rule_bits addr blen /\ num = num_added_node tab + 1
        /\ data = pointer pos /\ forall n d, ~ slot t is6 key n d)
}.

Lemma prefix_family p :
  prefix_ok p -> known_family (family p) /\ negb (family p =? AF_UNSPEC) || (bitlen p =? 0) = true.
Proof. intros [_ _ _ H]. unfold known_family, AF_UNSPEC, AF_INET, AF_INET6 in *. lia. Qed.

Lemma addprefix_spec tab t nm gm pm addr blen pos :
  table_ok tab t -> addr_ok addr blen -> allocator t nm gm pm -> num_added_node tab < 2 ^ 31 - 1 ->
  dns_iptable_addprefix tab nm gm pm addr blen pos = Done (ISC_R_NOMEMORY, tab)
  \/ exists tab' t', dns_iptable_addprefix tab nm gm pm addr blen pos = Done (ISC_R_SUCCESS, tab')
       /\ added_prefix tab tab' t t' addr blen pos.
Proof.
  intros [R Hfull Ha Hnum] Haddr A Hmax. unfold dns_iptable_addprefix.
  destruct (netaddr_to_prefix _ _ Haddr) as (p & -> & Hp & Hbits & Hf & _). cbn [obind].
  destruct (radix_insert_total tab t None (Some p) p pm nm gm R Hp eq_refl I A) as [[-> | Hok] _]; [by left|].
  destruct Hok as (x & tab1 & t1 & -> & [R1 Hi [s1 Hx] _]). cbn [obind]. right.
  rewrite bool_decide_true by done. destruct (prefix_family p Hp) as [Hfam H0].
  rewrite H0. cbn [require obind]. pose proof (entries_nodup [] t1 (rr_wf _ _ R1)) as Hnd.
  destruct (insert_prior tab tab1 t t1 _ _ Hfull Hi Hnd (conj Ha Hmax) Hfam)
    as (s & s1' & rest & Hprior & Hs & E1 & Hset & Hcount).
  assert (s1 = s1') as ->.
  { destruct Hx as (k & np & l & r & ->). rewrite entries_plug in E1, Hnd. cbn in E1, Hnd.
    by apply (perm_key _ _ _ _ _ Hnd) in E1 as [? _]. }
  destruct (table_assign tab1 t1 x _ _ (set_data (family p) (pointer pos))
              (fill (family p) (num_added_node tab) (pointer pos) s) R1 Hx) as (h & t' & E & R' & rest' & Et & Et').
  { pose proof (Hset None 0 0 0 pos) as H. apply (f_equal node_num) in H. by rewrite set_data_num in H. }
  { intros. apply Hset. }
  change (if pos then dns_iptable_pos else dns_iptable_neg) with (pointer pos). rewrite E. cbn [obind].
  rewrite E1 in Hnd. assert (rest ≡ₚ rest') as Er by (rewrite E1 in Et; by apply perm_key in Et as [_ ?]).
  rewrite <- Er in Et'. cbn in Hnd. apply NoDup_cons in Hnd as [Hq _].
  assert (Hslots : forall is6 key num data, slot t' is6 key num data <-> slot t is6 key num data
            \/ (covers is6 (rule_family addr) = true /\ key = rule_bits addr blen /\ num = num_added_node tab + 1
                /\ data = pointer pos /\ forall n d, ~ slot t is6 key n d)).
  { intros is6 key num data. rewrite (slot_filled _ _ _ _ _ _ _ _ _ _ _ _ Hprior Et' Hq Ha), Hf, Hbits.
    split; (intros [?|(? & -> & ? & ? & ?)]; [by left|right; by split_and!]). }
  eexists _, t'. split; [done|]. split; [split|..]; cbn [num_added_node set_nodes].
  - done.
  - intros key s' Hin. rewrite Et' in Hin. apply elem_of_cons in Hin as [[= -> ->] | Hin].
    + apply fill_full; [done|by destruct pos|done].
    + apply (Hfull key). destruct Hprior as [E'|[_ E']]; rewrite E'; [by right|done].
  - rewrite Hcount. destruct (existsb _ _); lia.
  - intros is6 key num data [H|(Hc & -> & -> & -> & Hn)]%Hslots; (split; [|by eauto || apply (Hnum _ _ _ _ H)]).
    + apply Hnum in H as [H _]. rewrite Hcount. destruct (existsb _ _); lia.
    + assert (Hex : existsb (fun is6 => covers is6 (family p) && (at6 is6 (s_num s) =? -1)) [false; true] = true);
        [|rewrite Hcount, Hex; lia].
      apply existsb_exists. exists is6. split; [destruct is6; cbn; tauto|]. rewrite Hf, Hc. cbn. apply Z.eqb_eq.
      destruct (decide (at6 is6 (s_num s) = -1)) as [|Hn1]; [done|].
      destruct (Hn (at6 is6 (s_num s)) (at6 is6 (s_data s))). apply (slot_prior _ _ _ _ _ _ _ _ Hprior). right.
      by rewrite Hbits.
  - rewrite Hcount. destruct (existsb _ _); lia.
  - done.
Qed.

(** ** Rules *)

(** What an administrator writes, in order: prefixes, keys, nested lists, the
    host's own addresses and networks; each is positive or negated. *)
Record prule : Type := mkPrule { pr_addr : option isc_netaddr; pr_len : Z; pr_pos : bool }.

Inductive rule : Type :=
| RPrefix (p : prule)
| RKey (neg : bool) (key : list (list Z))
| RNested (neg : bool) (rules : list rule)
| RLocalhost (neg : bool)
| RLocalnets (neg : bool).

Definition allows (r : rule) : bool :=
  match r with
  | RPrefix p => pr_pos p
  | RKey neg _ | RNested neg _ | RLocalhost neg | RLocalnets neg => negb neg
  end.

(** The specification: the first rule that applies to a request decides; a nested
    list applies when it allows the request. *)
Section Verdict.
Context (is6 : bool) (q : list bool) (signer : option (list (list Z))).
Context (host_rules net_rules : option (list prule)).

Definition prefix_applies (p : prule) : bool :=
  covers is6 (rule_family (pr_addr p)) && bool_decide (rule_bits (pr_addr p) (pr_len p) `prefix_of` q).

Fixpoint prefixes_verdict (ps : list prule) : option bool :=
  match ps with
  | [] => None
  | p :: ps => if prefix_applies p then Some (pr_pos p) else prefixes_verdict ps
  end.

Definition local_applies (ps : option (list prule)) : bool :=
  match ps with Some ps => bool_decide (prefixes_verdict ps = Some true) | None => false end.

Fixpoint applies (r : rule) : bool :=
  match r with
  | RPrefix p => prefix_applies p
  | RKey _ key =>
      match signer with
      | Some s => bool_decide (same_labels (labels_of s true) (labels_of key true))
      | None => false
      end
  | RNested _ rules =>
      bool_decide ((fix verdict (rs : list rule) : option bool :=
                      match rs with
                      | [] => None
                      | r :: rs => if applies r then Some (allows r) else verdict rs
                      end) rules = Some true)
  | RLocalhost _ => local_applies host_rules
  | RLocalnets _ => local_applies net_rules
  end.

Fixpoint verdict (rs : list rule) : option bool :=
  match rs with
  | [] => None
  | r :: rs => if applies r then Some (allows r) else verdict rs
  end.

Lemma applies_nested neg rs : applies (RNested neg rs) = bool_decide (verdict rs = Some true).
Proof. done. Qed.

Lemma verdict_snoc rs r :
  verdict (rs ++ [r]) = match verdict rs with
                        | Some v => Some v
                        | None => if applies r then Some (allows r) else None
                        end.
Proof. induction rs as [|x rs IH]; [done|]. cbn. by destruct (applies x). Qed.

Lemma verdict_prefixes ps : verdict (RPrefix <$> ps) = prefixes_verdict ps.
Proof. induction ps as [|p ps IH]; [done|]. cbn. by rewrite IH. Qed.

End Verdict.

(** How deep the match descends. *)
Fixpoint rule_depth (r : rule) : nat :=
  match r with
  | RPrefix _ | RKey _ _ => 0
  | RLocalhost _ | RLocalnets _ => 1
  | RNested _ rs => (1 + foldr (fun r n => Nat.max (rule_depth r) n) 0 rs)%nat
  end.
Definition list_depth (rs : list rule) : nat := foldr (fun r n => Nat.max (rule_depth r) n) 0%nat rs.

Lemma list_depth_snoc rs r : list_depth (rs ++ [r]) = Nat.max (list_depth rs) (rule_depth r).
Proof. unfold list_depth. induction rs as [|x rs IH]; cbn; [|rewrite IH]; lia. Qed.

(** Lists that are built by a sequence of calls: [dns_acl_create], then
    [dns_iptable_addprefix] with fresh memory, or an element appended. *)
Inductive builds : list rule -> dns_acl -> Prop :=
| builds_create n acl : dns_acl_create true true true n = Done (ISC_R_SUCCESS, Some acl) -> builds [] acl
| builds_prefix rs tab es hn hn' al nm gm pm addr blen pos tab' :
    builds rs (mkAcl tab es hn al) -> addr_ok addr blen -> Zlen rs < 2 ^ 31 - 1 ->
    nm ∉ dom (rt_nodes tab) -> gm ∉ dom (rt_nodes tab) -> (nm <> 0 -> nm <> gm) ->
    match pm with Some junk => bytes junk /\ length junk = 16%nat | None => True end ->
    dns_iptable_addprefix tab nm gm pm addr blen pos = Done (ISC_R_SUCCESS, tab') ->
    builds (rs ++ [RPrefix (mkPrule addr blen pos)]) (mkAcl tab' es hn' al)
| builds_element rs acl acl' r type neg name inner :
    builds rs acl -> Zlen rs < 2 ^ 31 - 1 -> element_for r type neg name inner ->
    append_element acl type neg name inner = Done acl' -> builds (rs ++ [r]) acl'
with element_for : rule -> dns_aclelementtype -> bool -> option dns_name_t -> option dns_acl -> Prop :=
| element_key neg name body : wf_name name body true ->
    element_for (RKey neg body) dns_aclelementtype_keyname neg (Some name) None
| element_nested neg rs inner : builds rs inner ->
    element_for (RNested neg rs) dns_aclelementtype_nestedacl neg None (Some inner)
| element_localhost neg : element_for (RLocalhost neg) dns_aclelementtype_localhost neg None None
| element_localnets neg : element_for (RLocalnets neg) dns_aclelementtype_localnets neg None None.

Scheme builds_mut := Minimality for builds Sort Prop
with element_for_mut := Minimality for element_for Sort Prop.

(** ** Matching *)

Lemma slot_fun tab t is6 key n d n' d' :
  table_ok tab t -> slot t is6 key n d -> slot t is6 key n' d' -> n = n' /\ d = d'.
Proof.
  intros T (s & Hin & <- & _ & <-) (s' & Hin' & <- & _ & <-).
  assert (s = s') as ->; [|done].
  pose proof (entries_nodup [] t (rr_wf _ _ (to_rep _ _ T))) as Hnd.
  apply list_elem_of_split in Hin as (l1 & l2 & E). rewrite E in Hnd, Hin'.
  rewrite fmap_app in Hnd. cbn in Hnd. apply NoDup_app in Hnd as (_ & H1 & H2). apply NoDup_cons in H2 as [H2 _].
  apply elem_of_app in Hin' as [Hin'|Hin'].
  - destruct (H1 key); [|left]. apply list_elem_of_fmap. by exists (key, s').
  - apply elem_of_cons in Hin' as [[= ->]|Hin']; [done|]. destruct H2. apply list_elem_of_fmap. by exists (key, s').
Qed.

Lemma match_table_spec tab t p :
  table_ok tab t -> host p ->
  (exists key num data, slot t (ISC_IS6 (family p)) key num data /\ key `prefix_of` pbits p
     /\ match_table tab p = (let* v := iptable_value data in Done (num, if v : bool then num else - num))
     /\ forall key' num' data', slot t (ISC_IS6 (family p)) key' num' data' -> key' `prefix_of` pbits p -> num <= num')
  \/ (match_table tab p = Done (-1, 0)
      /\ forall key num data, slot t (ISC_IS6 (family p)) key num data -> ~ key `prefix_of` pbits p).
Proof.
  intros T Hp. pose proof (to_rep _ _ T) as R. unfold match_table.
  destruct (radix_search_spec tab t p R Hp) as [(x & key & s & -> & Hx & Hin & Hn & Hpre & Hmin)|[-> Hno]];
    cbn [obind].
  - left. rewrite bool_decide_true by done.
    destruct (is_node_ok _ _ _ _ _ R Hx) as (_ & np & par & l & r & E & _). rewrite (rnode_at_Done _ _ _ E).
    cbn [obind]. eexists key, _, _. split; [by exists s|]. split; [done|]. split; [done|].
    intros key' num' data' (s' & Hin' & <- & Hn' & _) Hpre'. by apply (Hmin key').
  - right. split; [done|]. intros key num data (s & Hin & <- & Hn & _). by apply Hno with s.
Qed.

Lemma pointer_value pos : iptable_value (pointer pos) = Done pos.
Proof. by destruct pos. Qed.

(** The entry that decides, given which elements match. *)
Section Winner.
Context (is6 : bool) (q : list bool) (em : dns_aclelement -> bool).
Context (tab : isc_radix_tree) (t : rtree).

Definition matching (num data : Z) (key : list bool) : Prop := slot t is6 key num data /\ key `prefix_of` q.

Inductive winner (es : list dns_aclelement) : option bool -> Prop :=
| winner_none :
    (forall num data key, ~ matching num data key) -> (forall e, e ∈ es -> em e = false) -> winner es None
| winner_prefix key num pos :
    matching num (pointer pos) key ->
    (forall num' data' key', matching num' data' key' -> key' = key \/ num < num') ->
    (forall e, e ∈ es -> em e = true -> num < e_num e) -> winner es (Some pos)
| winner_element es1 e es2 :
    es = es1 ++ e :: es2 -> em e = true ->
    (forall e', e' ∈ es1 -> em e' = false /\ e_num e' < e_num e) ->
    (forall num data key, matching num data key -> e_num e < num) -> winner es (Some (negb (negative e))).

(** The sign of a match. *)
Definition agrees (v : option bool) (m : Z) : Prop :=
  match v with None => m = 0 | Some true => 0 < m | Some false => m < 0 end.

Section Loop.
Context (ematch : dns_aclelement -> option dns_aclelement -> outcome (bool * option dns_aclelement)).
Definition reports (es : list dns_aclelement) : Prop :=
  forall e, e ∈ es -> ematch e None = Done (em e, if em e then Some e else None).

Lemma match_none es mn m :
  reports es -> (forall e, e ∈ es -> em e = false \/ (mn <> -1 /\ mn < e_num e)) ->
  match_elements ematch es mn m None = Done (m, None).
Proof.
  induction es as [|e es IH]; intros Hr H; [done|]. cbn.
  destruct (negb (mn =? -1) && (mn <? e_num e)) eqn:E; [done|].
  destruct (H e) as [He|?]; [left| |lia]. rewrite (Hr e), He by left. cbn [obind].
  apply IH; intros e' He'; [apply Hr|apply H]; by right.
Qed.

Lemma match_element es1 e es2 mn m :
  reports (es1 ++ e :: es2) -> em e = true -> (mn = -1 \/ e_num e < mn) ->
  (forall e', e' ∈ es1 -> em e' = false /\ e_num e' < e_num e) ->
  match_elements ematch (es1 ++ e :: es2) mn m None = Done (if negative e then - e_num e else e_num e, Some e).
Proof.
  intros Hr He Hmn. induction es1 as [|e1 es1 IH]; intros H; cbn.
  - assert (E : negb (mn =? -1) && (mn <? e_num e) = false) by lia. rewrite E, (Hr e), He by left. cbn.
    assert (E' : (mn =? -1) || (e_num e <? mn) = true) by lia. by rewrite E'.
  - destruct (H e1) as [He1 Hlt]; [left|]. assert (E : negb (mn =? -1) && (mn <? e_num e1) = false) by lia.
    rewrite E, (Hr e1), He1 by left. cbn [obind]. apply IH; intros e' He'; [apply Hr|apply H]; by right.
Qed.

Lemma match_winner p es v :
  table_ok tab t -> host p -> ISC_IS6 (family p) = is6 -> pbits p = q ->
  winner es v -> reports es -> (forall e, e ∈ es -> 1 <= e_num e) ->
  exists m el, (let* (match_num, m) := match_table tab p in match_elements ematch es match_num m None) = Done (m, el)
    /\ agrees v m.
Proof.
  intros T Hp H6 Hq Hw Hr Hpos. pose proof (match_table_spec tab t p T Hp) as H. rewrite H6, Hq in H.
  destruct H as [(key & num & data & Hslot & Hpre & -> & Hmin)|[-> Hno]].
  - pose proof (to_num _ _ T _ _ _ _ Hslot) as [Hnum Hdata]. destruct Hw as [Hno _|key' num' pos [Hs' Hp'] Hbest Hes|es1 e es2 -> He He1 Hbest].
    + by destruct (Hno num data key).
    + assert (key = key' /\ num = num' /\ data = pointer pos) as (-> & -> & ->).
      { destruct (Hbest num data key) as [->|Hlt]; [done| |specialize (Hmin _ _ _ Hs' Hp'); lia].
        split; [done|]. by eapply slot_fun. }
      exists (if pos then num' else - num'), None. split; [|destruct pos; cbn; lia].
      rewrite pointer_value. cbn [obind].
      apply match_none; [done|]. intros e He. destruct (em e) eqn:Ee; [right|by left]. split; [lia|by apply Hes].
    + destruct Hdata as [b ->]. assert (Hlt : e_num e < num) by (by apply (Hbest num (pointer b) key)).
      assert (He0 : 1 <= e_num e) by (apply Hpos; apply elem_of_app; right; left).
      rewrite pointer_value. cbn [obind]. exists (if negative e then - e_num e else e_num e), (Some e).
      split; [|destruct (negative e); cbn; lia]. apply match_element; auto.
  - cbn [obind]. destruct Hw as [_ Hes|key' num' pos [Hs' Hp'] _ _|es1 e es2 -> He He1 Hbest].
    + exists 0, None. split; [|done]. apply match_none; [done|]. intros e He. left. by apply Hes.
    + by destruct (Hno _ _ _ Hs' Hp').
    + assert (He0 : 1 <= e_num e) by (apply Hpos; apply elem_of_app; right; left).
      exists (if negative e then - e_num e else e_num e), (Some e).
      split; [|destruct (negative e); cbn; lia]. apply match_element; auto.
Qed.
End Loop.
End Winner.

Definition or_else (v : option bool) (b : bool) (w : bool) : option bool :=
  match v with Some v => Some v | None => if b then Some w else None end.

Lemma winner_add_prefix is6 q em tab tab' t t' es v addr blen pos :
  table_ok tab t -> added_prefix tab tab' t t' addr blen pos ->
  (forall e, e ∈ es -> e_num e <= num_added_node tab) ->
  winner is6 q em t es v ->
  winner is6 q em t' es (or_else v (prefix_applies is6 q (mkPrule addr blen pos)) pos).
Proof.
  intros T [_ _ Hs] He Hw. unfold matching in Hw.
  assert (Hnew : forall num data key, matching is6 q t' num data key ->
            matching is6 q t num data key \/ (num_added_node tab < num
              /\ key = rule_bits addr blen /\ data = pointer pos /\ prefix_applies is6 q (mkPrule addr blen pos) = true)).
  { intros num data key [[?|(Hc & -> & -> & -> & Hn)]%Hs Hpre]; [by left|right]. split_and!; [lia|done..|].
    unfold prefix_applies. cbn. rewrite Hc. by apply bool_decide_eq_true. }
  assert (Hold : forall num data key, matching is6 q t num data key -> num <= num_added_node tab).
  { intros num data key [H _]. apply (to_num _ _ T) in H. lia. }
  destruct Hw as [Hno Hes|key num b Hm Hbest Hes|es1 e es2 -> He1 Hes Hbest]; cbn [or_else].
  - destruct (prefix_applies is6 q _) eqn:Ea.
    + unfold prefix_applies in Ea. cbn in Ea. apply andb_true_iff in Ea as [Hc Hpre%bool_decide_eq_true].
      eapply (winner_prefix _ _ _ _ _ (rule_bits addr blen) (num_added_node tab + 1)).
      * split; [|done]. apply Hs. right. split_and!; try done. intros n d Hslot. by eapply Hno.
      * intros num' data' key' [[]%Hno|(_ & -> & _)]%Hnew. by left.
      * intros e Hin Hem. by rewrite (Hes e Hin) in Hem.
    + apply winner_none; [|done]. intros num data key [[]%Hno|(_ & _ & _ & ?)]%Hnew. congruence.
  - pose proof (Hold _ _ _ Hm) as Hle. eapply winner_prefix; [|..|done].
    + destruct Hm as [Hm ?]. split; [apply Hs; by left|done].
    + intros num' data' key' [?%Hbest|(? & _)]%Hnew; [done|]. right. lia.
  - apply (winner_element _ _ _ _ _ es1 e es2); try done.
    intros num data key [?%Hbest|(? & _)]%Hnew; [done|].
    specialize (He e). assert (e ∈ es1 ++ e :: es2) by (apply elem_of_app; right; left). set_solver by lia.
Qed.

Lemma winner_add_element is6 q em tab t es v e :
  table_ok tab t -> (forall e', e' ∈ es -> e_num e' <= num_added_node tab) ->
  e_num e = num_added_node tab + 1 -> winner is6 q em t es v ->
  winner is6 q em t (es ++ [e]) (or_else v (em e) (negb (negative e))).
Proof.
  intros T He Hnum Hw.
  assert (Hold : forall num data key, matching is6 q t num data key -> num <= num_added_node tab).
  { intros num data key [H _]. apply (to_num _ _ T) in H. lia. }
  destruct Hw as [Hno Hes|key num b Hm Hbest Hes|es1 e1 es2 -> He1 Hes Hbest]; cbn [or_else].
  - destruct (em e) eqn:Ee.
    + apply (winner_element _ _ _ _ _ es e []); [done..| |].
      * intros e' Hin. split; [by apply Hes|]. specialize (He _ Hin). lia.
      * intros num data key []%Hno.
    + apply winner_none; [done|]. intros e' [Hin| ->%list_elem_of_singleton]%elem_of_app; [by apply Hes|done].
  - eapply winner_prefix; [done..|]. intros e' [Hin| ->%list_elem_of_singleton]%elem_of_app Hem; [by apply Hes|].
    apply Hold in Hm. lia.
  - apply (winner_element _ _ _ _ _ es1 e1 (es2 ++ [e])); [by rewrite <- app_assoc|done..].
Qed.

(** ** Every list that is built gives the verdict of its rules *)

Lemma flat_depth ps : list_depth (RPrefix <$> ps) = 0%nat.
Proof. unfold list_depth. induction ps as [|p ps IH]; [done|]. cbn. by rewrite IH. Qed.

(** A list decides on a request, whatever the fuel beyond the depth. *)
Section Decides.
Context (reqaddr : isc_netaddr) (reqsigner : option dns_name_t) (env : option dns_aclenv).

Definition decides (acl : dns_acl) (v : option bool) (depth : nat) : Prop :=
  forall f, (depth <= f)%nat ->
    exists m el, dns_acl_match f reqaddr reqsigner acl env None = Done (m, el) /\ agrees v m.

Lemma indirect_spec acl v d f n type neg name inner :
  decides acl v d -> (d <= f)%nat ->
  (let* (indirectmatch, matchelt) := dns_acl_match f reqaddr reqsigner acl env None in
   Done (if 0 <? indirectmatch then (true, Some (mkElement type neg name inner n)) else (false, None)))
  = Done (let b := bool_decide (v = Some true) in (b, if b then Some (mkElement type neg name inner n) else None)).
Proof.
  intros Hd Hf. destruct (Hd f Hf) as (m & el & -> & Hm). cbn [obind]. f_equal.
  destruct v as [[]|]; cbn in Hm; destruct (Z.ltb_spec 0 m); try lia; done.
Qed.

End Decides.

Section Request.
Context (reqaddr : isc_netaddr) (reqsigner : option dns_name_t) (env : option dns_aclenv).
Context (signer : option (list (list Z))) (host_rules net_rules : option (list prule)).

Definition signer_ok : Prop :=
  match reqsigner, signer with
  | Some name, Some body => wf_name name body true
  | None, None => True
  | _, _ => False
  end.

Definition env_list (acl : option dns_acl) (ps : option (list prule)) : Prop :=
  match acl, ps with
  | Some acl, Some ps => builds (RPrefix <$> ps) acl
  | None, None => True
  | _, _ => False
  end.

(** The lists of the environment are made of prefixes: the server's own addresses
    and networks. *)
Definition env_ok : Prop :=
  env_list (env ≫= localhost) host_rules /\ env_list (env ≫= localnets) net_rules.

Hypothesis Hreq : request_ok reqaddr.
Hypothesis Hsigner : signer_ok.

Let is6 : bool := req_is6 reqaddr env.
Let q : list bool := req_bits reqaddr env.
Let V : list rule -> option bool := verdict is6 q signer host_rules net_rules.
Let ematch (f : nat) :=
  dns_aclelement_match (fun inner => dns_acl_match f reqaddr reqsigner inner env) reqsigner env.
Let em (f : nat) (e : dns_aclelement) : bool := match ematch f e None with Done (b, _) => b | _ => false end.

Definition locals_ok : Prop :=
  match env ≫= localhost, host_rules with
  | Some acl, Some ps => decides reqaddr reqsigner env acl (prefixes_verdict is6 q ps) 1
  | None, None => True
  | _, _ => False
  end
  /\ match env ≫= localnets, net_rules with
     | Some acl, Some ps => decides reqaddr reqsigner env acl (prefixes_verdict is6 q ps) 1
     | None, None => True
     | _, _ => False
     end.

Definition flat (rs : list rule) : Prop := exists ps, rs = RPrefix <$> ps.

Definition acl_inv (rs : list rule) (acl : dns_acl) : Prop :=
  exists t, table_ok (iptable acl) t /\ num_added_node (iptable acl) <= Zlen rs
    /\ (forall e, e ∈ elements acl -> 1 <= e_num e <= num_added_node (iptable acl))
    /\ (flat rs \/ locals_ok -> forall f, (list_depth rs <= f)%nat ->
          reports (em f) (ematch f) (elements acl) /\ winner is6 q (em f) t (elements acl) (V rs)).

Definition element_inv (r : rule) (type : dns_aclelementtype) (neg : bool) (name : option dns_name_t)
    (inner : option dns_acl) : Prop :=
  negb neg = allows r /\ (forall p, r <> RPrefix p)
  /\ (locals_ok -> forall n f, (rule_depth r <= f)%nat ->
        ematch f (mkElement type neg name inner n) None
        = Done (let b := applies is6 q signer host_rules net_rules r in
                (b, if b then Some (mkElement type neg name inner n) else None))).

Lemma inv_decides rs acl : acl_inv rs acl -> flat rs \/ locals_ok -> decides reqaddr reqsigner env acl (V rs) (S (list_depth rs)).
Proof.
  intros (t & T & _ & He & Hw) Hor f Hf. destruct f as [|f]; [lia|]. cbn [dns_acl_match require obind].
  destruct (request_prefix_spec reqaddr env Hreq) as (p & -> & Hp & H6 & Hb). cbn [obind].
  destruct (Hw Hor f) as [Hr Hwin]; [lia|].
  eapply (match_winner is6 q (em f) (iptable acl) t); try done. intros e Hin. by apply He.
Qed.

Lemma flat_snoc rs r : flat (rs ++ [r]) -> flat rs /\ exists p, r = RPrefix p.
Proof.
  intros [ps E]. destruct ps as [|p ps' _] using rev_ind; [by destruct rs|].
  rewrite fmap_app in E. cbn in E. apply app_inj_tail in E as [-> ->]. split; [by exists ps'|by exists p].
Qed.

Lemma em_step f e : forall b, ematch f e None = Done (b, if b : bool then Some e else None) -> em f e = b.
Proof. intros b E. unfold em. by rewrite E. Qed.

Lemma inv_create n acl : dns_acl_create true true true n = Done (ISC_R_SUCCESS, Some acl) -> acl_inv [] acl.
Proof.
  unfold dns_acl_create, dns_iptable_create. cbn. intros [= <-]. exists RLeaf. split_and!; cbn.
  - split; [split; try done; constructor|by intros ? ? ?%not_elem_of_nil|done|by intros ? ? ? ? (? & ?%not_elem_of_nil & _)].
  - done.
  - by intros ? ?%not_elem_of_nil.
  - intros _ f _. split; [by intros ? ?%not_elem_of_nil|].
    apply winner_none; [by intros ? ? ? [(? & ?%not_elem_of_nil & _) _]|by intros ? ?%not_elem_of_nil].
Qed.

Lemma inv_prefix rs tab es hn hn' al nm gm pm addr blen pos tab' :
  acl_inv rs (mkAcl tab es hn al) -> addr_ok addr blen -> Zlen rs < 2 ^ 31 - 1 ->
  nm ∉ dom (rt_nodes tab) -> gm ∉ dom (rt_nodes tab) -> (nm <> 0 -> nm <> gm) ->
  match pm with Some junk => bytes junk /\ length junk = 16%nat | None => True end ->
  dns_iptable_addprefix tab nm gm pm addr blen pos = Done (ISC_R_SUCCESS, tab') ->
  acl_inv (rs ++ [RPrefix (mkPrule addr blen pos)]) (mkAcl tab' es hn' al).
Proof.
  intros (t & T & Hn & He & Hw) Haddr Hlen Hnm Hgm Hne Hpm E. cbn [iptable elements] in *.
  assert (A : allocator t nm gm pm).
  { pose proof (rr_rep _ _ (to_rep _ _ T)) as Hrep. split; try done.
    - intros Hin. by apply Hnm, (rrep_dom _ _ _ _ Hrep).
    - intros Hin. by apply Hgm, (rrep_dom _ _ _ _ Hrep). }
  destruct (addprefix_spec tab t nm gm pm addr blen pos T Haddr A) as [E'|(tab1 & t' & E' & P)]; [lia|congruence|].
  assert (tab1 = tab') as -> by congruence. exists t'. cbn [iptable elements]. pose proof (ap_added _ _ _ _ _ _ _ P) as Hcount.
  split; [by eapply ap_ok|]. split; [unfold Zlen in *; rewrite length_app; cbn; lia|].
  split; [intros e Hin; specialize (He e Hin); lia|].
  intros Hor f Hf. rewrite list_depth_snoc in Hf. destruct (Hw) with f as [Hr Hwin]; [|lia|].
  { destruct Hor as [[? _]%flat_snoc|?]; tauto. }
  split; [done|]. unfold V. rewrite verdict_snoc.
  eapply (winner_add_prefix is6 q (em f) tab); try done. intros e Hin. by apply He.
Qed.

Lemma inv_element rs acl acl' r type neg name inner :
  acl_inv rs acl -> Zlen rs < 2 ^ 31 - 1 -> element_inv r type neg name inner ->
  append_element acl type neg name inner = Done acl' -> acl_inv (rs ++ [r]) acl'.
Proof.
  intros (t & T & Hn & He & Hw) Hlen (Hneg & Hnp & Hr) E. destruct acl as [tab es hn al]. cbn [iptable elements] in *.
  unfold append_element in E. pose proof (to_added _ _ T). rewrite s32_next in E by lia.
  set (e := mkElement type neg name inner (num_added_node tab + 1)) in *.
  destruct (Zlen (es ++ [e]) <=? al); [|done]. cbn in E. injection E as <-.
  exists t. cbn [iptable elements set_nodes num_added_node].
  split; [destruct T as [R F ? N]; split; [by destruct R|done|cbn; lia|]|].
  { intros ? ? ? ? [? ?]%N. split; [cbn; lia|done]. }
  split; [unfold Zlen in *; rewrite length_app; cbn; lia|]. split.
  { intros e' [Hin| ->%list_elem_of_singleton]%elem_of_app; [specialize (He _ Hin)|cbn]; lia. }
  intros Hor f Hf. rewrite list_depth_snoc in Hf.
  assert (L : locals_ok) by (destruct Hor as [[_ [p Hp]]%flat_snoc|?]; [by destruct (Hnp p)|done]).
  destruct (Hw (or_intror L) f) as [Hrep Hwin]; [lia|].
  pose proof (Hr L (num_added_node tab + 1) f ltac:(lia)) as Ee. cbv zeta in Ee. fold e in Ee.
  pose proof (em_step _ _ _ Ee) as Em. split.
  - intros e' [Hin| ->%list_elem_of_singleton]%elem_of_app; [by apply Hrep|]. by rewrite Em.
  - unfold V. rewrite verdict_snoc, <- Em, <- Hneg. change (negb neg) with (negb (negative e)).
    eapply (winner_add_element is6 q (em f) tab); try done. intros e' Hin. by apply He.
Qed.

Lemma inv_key neg name body : wf_name name body true ->
  element_inv (RKey neg body) dns_aclelementtype_keyname neg (Some name) None.
Proof.
  intros Hname. split; [done|]. split; [done|]. intros _ n f Hf.
  unfold ematch. cbn [dns_aclelement_match]. unfold signer_ok in Hsigner. cbn [applies].
  destruct reqsigner as [s|], signer as [sb|]; try done.
  rewrite (equal_spec s name sb body true) by done. cbn [obind]. by destruct (bool_decide _).
Qed.

Lemma inv_nested neg rs inner : acl_inv rs inner ->
  element_inv (RNested neg rs) dns_aclelementtype_nestedacl neg None (Some inner).
Proof.
  intros Hinv. split; [done|]. split; [done|]. intros L n f Hf.
  rewrite applies_nested. apply (indirect_spec _ _ _ _ _ (S (list_depth rs))); [|cbn in Hf; unfold list_depth; lia].
  apply inv_decides; [done|by right].
Qed.

Lemma inv_localhost neg : element_inv (RLocalhost neg) dns_aclelementtype_localhost neg None None.
Proof.
  split; [done|]. split; [done|]. intros [L _] n f Hf.
  unfold ematch. cbn [dns_aclelement_match applies local_applies].
  destruct env as [e|]; cbn in L; [destruct (localhost e) as [acl|]|]; destruct host_rules as [ps|]; try done.
  apply (indirect_spec _ _ _ _ _ 1); [done|cbn in Hf; lia].
Qed.

Lemma inv_localnets neg : element_inv (RLocalnets neg) dns_aclelementtype_localnets neg None None.
Proof.
  split; [done|]. split; [done|]. intros [_ L] n f Hf.
  unfold ematch. cbn [dns_aclelement_match applies local_applies].
  destruct env as [e|]; cbn in L; [destruct (localnets e) as [acl|]|]; destruct net_rules as [ps|]; try done.
  apply (indirect_spec _ _ _ _ _ 1); [done|cbn in Hf; lia].
Qed.

Lemma builds_inv rs acl : builds rs acl -> acl_inv rs acl.
Proof.
  apply (builds_mut acl_inv element_inv).
  - apply inv_create.
  - intros rs0 tab es hn hn' al nm gm. intros. by eapply (inv_prefix _ _ _ _ _ _ nm gm).
  - intros. by eapply inv_element.
  - intros. by apply inv_key.
  - intros. by apply inv_nested.
  - apply inv_localhost.
  - apply inv_localnets.
Qed.

Lemma env_locals : env_ok -> locals_ok.
Proof.
  assert (H : forall acl ps, env_list acl ps ->
    match acl, ps with Some acl, Some ps => decides reqaddr reqsigner env acl (prefixes_verdict is6 q ps) 1 | None, None => True | _, _ => False end).
  { intros [acl|] [ps|] Hl; try done. cbn in Hl. rewrite <- (verdict_prefixes _ _ signer host_rules net_rules).
    replace 1%nat with (S (list_depth (RPrefix <$> ps))).
    - apply inv_decides; [by apply builds_inv|left; by exists ps].
    - by rewrite flat_depth. }
  intros [H1 H2]. split; by apply H.
Qed.

Lemma built_decides rs acl : builds rs acl -> env_ok -> decides reqaddr reqsigner env acl (V rs) (S (list_depth rs)).
Proof. intros Hb He. apply inv_decides; [by apply builds_inv|right; by apply env_locals]. Qed.

End Request.

(** C26. The sign of a match is the verdict of the first rule of the list that
    applies to the request, however the prefixes are spread over the radix tree
    and the other rules over the array: positive when that rule allows, negative
    when it denies, zero when no rule applies. *)
Theorem acl_first_match reqaddr reqsigner env signer host_rules net_rules rs acl fuel :
  request_ok reqaddr -> signer_ok reqsigner signer -> env_ok env host_rules net_rules ->
  builds rs acl -> (S (list_depth rs) <= fuel)%nat ->
  exists m el, dns_acl_match fuel reqaddr reqsigner acl env None = Done (m, el)
    /\ agrees (verdict (req_is6 reqaddr env) (req_bits reqaddr env) signer host_rules net_rules rs) m.
Proof. intros Hreq Hs He Hb Hf. by apply (built_decides _ _ _ _ _ _ Hreq Hs rs acl Hb He). Qed.

(** ** A sample list *)

Definition ip4 (a b c d : Z) : isc_netaddr := mkNetaddr AF_INET ([a; b; c; d] ++ replicate 12 0).
Definition ip6 (front : list Z) : isc_netaddr := mkNetaddr AF_INET6 (front ++ replicate (16 - length front) 0).

(** [!10.1.0.0/16; key example; { localhost; }; 10.0.0.0/8;], the environment's
    [localhost] being 127.0.0.1. *)
Definition sample_rules : list rule :=
  [RPrefix (mkPrule (Some (ip4 10 1 0 0)) 16 false);
   RKey false [[101; 120]];
   RNested true [RLocalhost false];
   RPrefix (mkPrule (Some (ip4 10 0 0 0)) 8 true)].

Definition addr_okb (addr : option isc_netaddr) (blen : Z) : bool :=
  match addr with
  | None => blen =? 0
  | Some a => forallb is_byteb (na_type a) && (length (na_type a) =? 16)%nat
              && ((na_family a =? AF_INET) && (0 <=? blen) && (blen <=? 32)
                  || (na_family a =? AF_INET6) && (0 <=? blen) && (blen <=? 128))
  end.

Lemma addr_okb_spec addr blen : addr_okb addr blen = true -> addr_ok addr blen.
Proof.
  destruct addr as [a|]; cbn; [|lia]. intros H. apply andb_true_iff in H as [H H3]. apply andb_true_iff in H as [H1 H2].
  split_and!; [by apply bytesb_spec|by apply Nat.eqb_eq|lia].
Qed.

Definition junk16 : list Z := replicate 16 170.

Lemma junk_ok : bytes junk16 /\ length junk16 = 16%nat.
Proof. split; [by apply bytesb_spec|done]. Qed.

(** Building a list by evaluation. *)
Definition add_rule (acl : dns_acl) (nm gm : Z) (p : prule) : dns_acl :=
  match dns_iptable_addprefix (iptable acl) nm gm (Some junk16) (pr_addr p) (pr_len p) (pr_pos p) with
  | Done (_, tab') => mkAcl tab' (elements acl) false (alloc acl)
  | _ => acl
  end.

Definition add_rule_ok (rs : list rule) (acl : dns_acl) (nm gm : Z) (p : prule) : bool :=
  addr_okb (pr_addr p) (pr_len p) && (Zlen rs <? 2 ^ 31 - 1) && negb (nm =? gm)
  && bool_decide (rt_nodes (iptable acl) !! nm = None) && bool_decide (rt_nodes (iptable acl) !! gm = None)
  && match dns_iptable_addprefix (iptable acl) nm gm (Some junk16) (pr_addr p) (pr_len p) (pr_pos p) with
     | Done (ISC_R_SUCCESS, _) => true
     | _ => false
     end.

Lemma add_rule_builds rs acl nm gm p :
  builds rs acl -> add_rule_ok rs acl nm gm p = true -> builds (rs ++ [RPrefix p]) (add_rule acl nm gm p).
Proof.
  intros Hb H. destruct acl as [tab es hn al], p as [addr blen pos]. unfold add_rule_ok, add_rule in *.
  cbn [iptable elements alloc pr_addr pr_len pr_pos] in *.
  destruct (dns_iptable_addprefix tab nm gm (Some junk16) addr blen pos) as [[[] tab']| | |] eqn:E; bool_prop; try done.
  eapply (builds_prefix _ _ _ _ _ _ nm gm (Some junk16)); try done.
  - by apply addr_okb_spec.
  - apply not_elem_of_dom. by eapply bool_decide_eq_true.
  - apply not_elem_of_dom. by eapply bool_decide_eq_true.
  - exact junk_ok.
Qed.

Definition add_element (acl : dns_acl) (type : dns_aclelementtype) (neg : bool) (name : option dns_name_t)
    (inner : option dns_acl) : dns_acl :=
  match append_element acl type neg name inner with Done acl => acl | _ => acl end.

Lemma add_element_builds rs acl r type neg name inner :
  builds rs acl -> element_for r type neg name inner ->
  (Zlen rs <? 2 ^ 31 - 1) && match append_element acl type neg name inner with Done _ => true | _ => false end = true ->
  builds (rs ++ [r]) (add_element acl type neg name inner).
Proof.
  intros Hb He H. unfold add_element. destruct (append_element _ _ _ _ _) as [acl'| | |] eqn:E; bool_prop; try done.
  by eapply builds_element.
Qed.

Definition new_acl (n : Z) : dns_acl :=
  match dns_acl_create true true true n with Done (_, Some acl) => acl | _ => mkAcl (mkRadix ∅ 0 0 0 0) [] false 0 end.

Definition loopback : list prule := [mkPrule (Some (ip4 127 0 0 1)) 32 true].
Definition loopback_acl : dns_acl := add_rule (new_acl 1) 1 2 (mkPrule (Some (ip4 127 0 0 1)) 32 true).

Definition inner_acl : dns_acl := add_element (new_acl 1) dns_aclelementtype_localhost false None None.
Definition sample_acl : dns_acl :=
  let acl := add_rule (new_acl 4) 1 2 (mkPrule (Some (ip4 10 1 0 0)) 16 false) in
  let acl := add_element acl dns_aclelementtype_keyname false (Some (mk_name [[101; 120]] true)) None in
  let acl := add_element acl dns_aclelementtype_nestedacl true None (Some inner_acl) in
  add_rule acl 3 4 (mkPrule (Some (ip4 10 0 0 0)) 8 true).

Lemma loopback_builds : builds (RPrefix <$> loopback) loopback_acl.
Proof. apply (add_rule_builds []); [by apply (builds_create 1)|vm_compute; reflexivity]. Qed.

Lemma sample_builds : builds sample_rules sample_acl.
Proof.
  unfold sample_acl. apply (add_rule_builds [_; _; _]); [|vm_compute; reflexivity].
  apply (add_element_builds [_; _] _ (RNested true [RLocalhost false])); [| |vm_compute; reflexivity].
  2: { apply element_nested. apply (add_element_builds [] _ (RLocalhost false)); [by apply (builds_create 1)|constructor|vm_compute; reflexivity]. }
  apply (add_element_builds [_]); [|apply element_key; by apply mk_name_wf|vm_compute; reflexivity].
  apply (add_rule_builds []); [by apply (builds_create 4)|vm_compute; reflexivity].
Qed.

Definition sample_env : option dns_aclenv := Some (mkAclenv (Some loopback_acl) None true).

(** 10.1.2.3 without a key is denied by the first rule, though the prefix that
    allows it is above in the tree. *)
Lemma acl_first_match_witness :
  request_ok (ip4 10 1 2 3) /\ builds sample_rules sample_acl
  /\ exists m el, dns_acl_match 3 (ip4 10 1 2 3) None sample_acl sample_env None = Done (m, el) /\ m < 0.
Proof.
  assert (Hreq : request_ok (ip4 10 1 2 3)) by (split_and!; [by apply bytesb_spec|done|by left]).
  split_and!; [apply Hreq..|apply sample_builds|].
  apply (acl_first_match (ip4 10 1 2 3) None sample_env None (Some loopback) None sample_rules sample_acl 3);
    [done|done|split; [apply loopback_builds|done]|apply sample_builds|vm_compute; lia].
Defined.

(** ** Merging lists that share a prefix *)

Definition net10 (pos : bool) : prule := mkPrule (Some (ip4 10 0 0 0)) 8 pos.
Definition net10_acl : dns_acl := add_rule (new_acl 1) 1 2 (net10 true).
Definition net0a : prule := mkPrule (Some (ip6 [10])) 8 true.
Definition net0a_acl : dns_acl := add_rule (new_acl 1) 1 2 net0a.

Lemma net10_builds : builds [RPrefix (net10 true)] net10_acl.
Proof. apply (add_rule_builds []); [by apply (builds_create 1)|vm_compute; reflexivity]. Qed.

Lemma net0a_builds : builds [RPrefix net0a] net0a_acl.
Proof. apply (add_rule_builds []); [by apply (builds_create 1)|vm_compute; reflexivity]. Qed.

Definition merged (dest source : dns_acl) (pos : bool) : option dns_acl :=
  match dns_acl_merge true [] [(5, 6)] dest source pos with
  | Done (ISC_R_SUCCESS, acl) => acl
  | _ => None
  end.

(** [isc_radix_insert] tests the IPv4 number of the source node before it
    copies the IPv6 slot.  Merging a list that allows 0a00::/8 into one that
    allows 10.0.0.0/8, which has the same bits, loses the rule; merging two lists
    that both have 10.0.0.0/8 gives the node an IPv6 number without data, and the
    match of an IPv6 request below it reads through a NULL pointer; and merging
    it negated turns the earlier rule that allows 10.0.0.0/8 into one that denies. *)
Theorem merge_shared_prefix_wrong :
  builds [RPrefix (net10 true)] net10_acl /\ builds [RPrefix net0a] net0a_acl
  /\ (exists acl, merged net10_acl net0a_acl true = Some acl
        /\ dns_acl_match 1 (ip6 [10; 0; 0; 1]) None net0a_acl None None = Done (1, None)
        /\ dns_acl_match 1 (ip6 [10; 0; 0; 1]) None acl None None = Done (0, None))
  /\ (exists acl, merged net10_acl net10_acl true = Some acl
        /\ dns_acl_match 1 (ip6 [10; 0; 0; 1]) None acl None None = Undef)
  /\ (exists acl, merged net10_acl net10_acl false = Some acl
        /\ dns_acl_match 1 (ip4 10 0 0 1) None net10_acl None None = Done (1, None)
        /\ dns_acl_match 1 (ip4 10 0 0 1) None acl None None = Done (-1, None)).
Proof.
  split_and!; [apply net10_builds|apply net0a_builds|..];
    (eexists; split_and!; vm_compute; reflexivity).
Qed.
