(* ===== verification/Task.v ===== *)
(** * Tasks ([lib/isc/task.c], the variant with worker threads)

    A task is a queue of events that at most one worker thread serves at a time.
    Its fields are guarded by the lock of the task, the queues of ready tasks by
    the lock of the manager, and no routine but [isc__taskmgr_destroy] holds both:
    a routine that makes a task ready changes its state under the task lock,
    releases it, and puts the task on a queue later under the manager lock.

    The model is a transition system.  One step is one critical section, with the
    unlocked code around it that touches nothing shared.  A worker is its program
    counter; a call of [task_ready] that still has to reach the queue is an entry of
    [calls]; actions of events are arbitrary code, so while a worker is in an action
    any routine of the interface may be called, by it or by another thread.  [guard]
    is the callers' side of the contract of [isc/task.h]; [step] is the code.  A
    failed assertion is [Abort]; the use of a task that has been freed, and the
    second insertion of an element into a list or its removal from a list it is not
    on, which would damage the links, are [Undef].

    [SIGNAL] wakes one sleeping thread, [BROADCAST] all of them, and a thread may
    wake without either ([W_spurious], [C_spurious]).  Tasks and events are named by
    numbers that stand for their addresses; the address of a freed task may be used
    again.  The allocator's answers and the clock are arguments. *)

From S2P Require Import Prelude.

(** ** Events ([isc/event.h]) *)

Definition ISC_EVENTATTR_NOPURGE : Z := 1.
Definition ISC_TASKEVENT_SHUTDOWN : Z := 1.

(** [ev_action] tells whether the action is not [NULL]; a sender or a tag is an
    address, 0 being [NULL]. *)
Record isc_event : Type := mkEvent {
  ev_id : nat;
  ev_attributes : Z;
  ev_tag : Z;
  ev_type : Z;
  ev_action : bool;
  ev_sender : Z
}.

#[export] Instance isc_event_eq_dec : EqDecision isc_event.
Proof. solve_decision. Defined.

(** The lists of [isc/list.h], by the addresses of their elements. *)
Definition ENQUEUE {A} (key : A -> nat) (l : list A) (x : A) : outcome (list A) :=
  if bool_decide (key x ∈ map key l) then Undef else Done (l ++ [x]).

Definition DEQUEUE {A} (key : A -> nat) (l : list A) (x : A) : outcome (list A) :=
  if bool_decide (key x ∈ map key l)
  then Done (filter (fun y => key y <> key x) l) else Undef.

Definition EMPTY {A} (l : list A) : bool := match l with [] => true | _ => false end.

(** ** Tasks *)

Inductive task_state_t : Type :=
| task_state_idle | task_state_ready | task_state_running | task_state_done.

#[export] Instance task_state_eq_dec : EqDecision task_state_t.
Proof. solve_decision. Defined.

Record isc__task : Type := mkTask {
  state : task_state_t;
  references : Z;                (* unsigned int *)
  events : list isc_event;
  on_shutdown : list isc_event;
  quantum : Z;                   (* unsigned int *)
  flags : Z;                     (* unsigned int *)
  now : Z;                       (* isc_stdtime_t *)
  name : list Z;                 (* char[16] *)
  tag : Z                        (* void * *)
}.

Definition set_state (s : task_state_t) (T : isc__task) : isc__task :=
  mkTask s (references T) (events T) (on_shutdown T) (quantum T) (flags T) (now T) (name T) (tag T).
Definition set_references (r : Z) (T : isc__task) : isc__task :=
  mkTask (state T) r (events T) (on_shutdown T) (quantum T) (flags T) (now T) (name T) (tag T).
Definition set_events (l : list isc_event) (T : isc__task) : isc__task :=
  mkTask (state T) (references T) l (on_shutdown T) (quantum T) (flags T) (now T) (name T) (tag T).
Definition set_on_shutdown (l : list isc_event) (T : isc__task) : isc__task :=
  mkTask (state T) (references T) (events T) l (quantum T) (flags T) (now T) (name T) (tag T).
Definition set_flags (f : Z) (T : isc__task) : isc__task :=
  mkTask (state T) (references T) (events T) (on_shutdown T) (quantum T) f (now T) (name T) (tag T).
Definition set_now (n : Z) (T : isc__task) : isc__task :=
  mkTask (state T) (references T) (events T) (on_shutdown T) (quantum T) (flags T) n (name T) (tag T).

Definition TASK_F_SHUTTINGDOWN : Z := 1.
Definition TASK_F_PRIVILEGED : Z := 2.
Definition TASK_SHUTTINGDOWN (T : isc__task) : bool :=
  negb (Z.land (flags T) TASK_F_SHUTTINGDOWN =? 0).

Definition DEFAULT_DEFAULT_QUANTUM : Z := 5.

Definition in_state (s : task_state_t) (T : isc__task) : bool := bool_decide (state T = s).

Definition new_task (q : Z) : isc__task :=
  mkTask task_state_idle 1 [] [] q 0 0 (replicate 16 0) 0.

(** [isc__task_attach], under the task lock. *)
Definition isc__task_attach (T : isc__task) : isc__task :=
  set_references (u32 (references T + 1)) T.

(** One turn of the loop that posts the shutdown events. *)
Definition post_event (e : isc_event) (T : isc__task) : outcome isc__task :=
  let* l := DEQUEUE ev_id (on_shutdown T) e in
  let* q := ENQUEUE ev_id (events T) e in
  Done (set_events q (set_on_shutdown l T)).

(** The loop; its argument is what is left of the list, from its tail on. *)
Fixpoint post_events (l : list isc_event) (T : isc__task) : outcome isc__task :=
  match l with
  | [] => Done T
  | e :: l' => let* T' := post_event e T in post_events l' T'
  end.

(** Each of the following runs under the task lock; the boolean is [was_idle]. *)
Definition task_shutdown (T : isc__task) : outcome (isc__task * bool) :=
  if TASK_SHUTTINGDOWN T then Done (T, false)
  else
    let T := set_flags (Z.lor (flags T) TASK_F_SHUTTINGDOWN) T in
    let* (T, was_idle) :=
      (if in_state task_state_idle T
       then REQUIRE EMPTY (events T) ;; Done (set_state task_state_ready T, true)
       else Done (T, false)) in
    REQUIRE in_state task_state_ready T || in_state task_state_running T ;;
    let* T := post_events (rev (on_shutdown T)) T in
    Done (T, was_idle).

Definition task_detach (T : isc__task) : outcome (isc__task * bool) :=
  REQUIRE 0 <? references T ;;
  let T := set_references (u32 (references T - 1)) T in
  if (references T =? 0) && in_state task_state_idle T
  then REQUIRE EMPTY (events T) ;; Done (set_state task_state_ready T, true)
  else Done (T, false).

Definition task_send (e : isc_event) (T : isc__task) : outcome (isc__task * bool) :=
  REQUIRE 0 <? ev_type e ;;
  REQUIRE negb (in_state task_state_done T) ;;
  let* (T, was_idle) :=
    (if in_state task_state_idle T
     then REQUIRE EMPTY (events T) ;; Done (set_state task_state_ready T, true)
     else Done (T, false)) in
  REQUIRE in_state task_state_ready T || in_state task_state_running T ;;
  let* q := ENQUEUE ev_id (events T) e in
  Done (set_events q T, was_idle).

(** The locked part of [isc__task_sendanddetach] and the assertion after it. *)
Definition task_sendanddetach (e : isc_event) (T : isc__task) : outcome (isc__task * bool) :=
  let* (T, idle1) := task_send e T in
  let* (T, idle2) := task_detach T in
  REQUIRE negb (idle1 && idle2) ;;
  Done (T, idle1 || idle2).

(** *** Removing events *)

Definition PURGE_OK (e : isc_event) : bool :=
  Z.land (ev_attributes e) ISC_EVENTATTR_NOPURGE =? 0.

Definition dequeue_match (sender first last tag : Z) (purging : bool) (e : isc_event) : bool :=
  (first <=? ev_type e) && (ev_type e <=? last)
  && ((sender =? 0) || (ev_sender e =? sender))
  && ((tag =? 0) || (ev_tag e =? tag))
  && (negb purging || PURGE_OK e).

(** The walk over the queue: what stays on it and what is moved to [*events]. *)
Fixpoint dequeue_walk (p : isc_event -> bool) (l : list isc_event) : list isc_event * list isc_event :=
  match l with
  | [] => ([], [])
  | e :: l' =>
      let '(kept, moved) := dequeue_walk p l' in
      if p e then (kept, e :: moved) else (e :: kept, moved)
  end.

(** The task, the events removed, which [isc__task_purgerange] frees and
    [isc__task_unsendrange] gives to the caller, and their number. *)
Definition dequeue_events (sender first last tag : Z) (purging : bool) (T : isc__task)
    : outcome (isc__task * list isc_event * Z) :=
  REQUIRE first <=? last ;;
  let '(kept, moved) := dequeue_walk (dequeue_match sender first last tag purging) (events T) in
  Done (set_events kept T, moved, u32 (Zlen moved)).

Definition isc__task_purgerange (sender first last tag : Z) (T : isc__task) :=
  dequeue_events sender first last tag true T.
Definition isc__task_purge (sender type tag : Z) (T : isc__task) :=
  isc__task_purgerange sender type type tag T.
Definition isc__task_unsendrange (sender first last tag : Z) (T : isc__task) :=
  dequeue_events sender first last tag false T.
Definition isc__task_unsend (sender type tag : Z) (T : isc__task) :=
  dequeue_events sender type type tag false T.

(** [isc__task_purgeevent]: the first event of the queue with the address [id] that
    may be purged is removed. *)
Fixpoint purgeevent_walk (id : nat) (l : list isc_event) : list isc_event * option isc_event :=
  match l with
  | [] => ([], None)
  | e :: l' =>
      if (ev_id e =? id)%nat && PURGE_OK e then (l', Some e)
      else let '(kept, r) := purgeevent_walk id l' in (e :: kept, r)
  end.

Definition isc__task_purgeevent (id : nat) (T : isc__task) : isc__task * option isc_event :=
  let '(kept, r) := purgeevent_walk id (events T) in (set_events kept T, r).

(** [isc__task_onshutdown]; [event] is what [isc_event_allocate] returned. *)
Definition isc__task_onshutdown (event : option nat) (T : isc__task)
    : outcome (isc_result_t * isc__task) :=
  match event with
  | None => Done (ISC_R_NOMEMORY, T)
  | Some id =>
      if TASK_SHUTTINGDOWN T then Done (ISC_R_SHUTTINGDOWN, T)
      else
        let* l := ENQUEUE ev_id (on_shutdown T) (mkEvent id 0 0 ISC_TASKEVENT_SHUTDOWN true 0) in
        Done (ISC_R_SUCCESS, set_on_shutdown l T)
  end.

(** [isc__task_setname]: at most 15 characters, up to the first 0, and zeros. *)
Fixpoint strncpy_pad (n : nat) (s : list Z) : list Z :=
  match n, s with
  | O, _ => []
  | S n', c :: s' => if c =? 0 then replicate n 0 else c :: strncpy_pad n' s'
  | S n', [] => replicate n 0
  end.

Definition isc__task_setname (s : list Z) (tg : Z) (T : isc__task) : isc__task :=
  mkTask (state T) (references T) (events T) (on_shutdown T) (quantum T) (flags T) (now T)
    (strncpy_pad 15 s ++ [0]) tg.

Definition isc__task_privilege (T : isc__task) : bool :=
  negb (Z.land (flags T) TASK_F_PRIVILEGED =? 0).

(** The first critical section of [isc__task_setprivilege]: the task and whether the
    flag changed, so that the second section follows. *)
Definition setprivilege_flag (priv : bool) (T : isc__task) : isc__task * bool :=
  let oldpriv := isc__task_privilege T in
  (set_flags (if priv then Z.lor (flags T) TASK_F_PRIVILEGED
              else Z.land (flags T) (Z.lxor (2 ^ 32 - 1) TASK_F_PRIVILEGED)) T,
   xorb priv oldpriv).

(** ** The task manager *)

Inductive isc_taskmgrmode_t : Type := isc_taskmgrmode_normal | isc_taskmgrmode_privileged.

#[export] Instance mode_eq_dec : EqDecision isc_taskmgrmode_t.
Proof. solve_decision. Defined.

Record isc__taskmgr : Type := mkMgr {
  default_quantum : Z;           (* unsigned int *)
  tasks : list nat;
  ready_tasks : list nat;
  ready_priority_tasks : list nat;
  mode : isc_taskmgrmode_t;
  tasks_running : Z;             (* unsigned int *)
  pause_requested : bool;
  exclusive_requested : bool;
  exiting : bool;
  excl : option nat
}.

Definition set_tasks (l : list nat) (m : isc__taskmgr) : isc__taskmgr :=
  mkMgr (default_quantum m) l (ready_tasks m) (ready_priority_tasks m) (mode m)
    (tasks_running m) (pause_requested m) (exclusive_requested m) (exiting m) (excl m).
Definition set_ready (l p : list nat) (m : isc__taskmgr) : isc__taskmgr :=
  mkMgr (default_quantum m) (tasks m) l p (mode m)
    (tasks_running m) (pause_requested m) (exclusive_requested m) (exiting m) (excl m).
Definition set_mode (x : isc_taskmgrmode_t) (m : isc__taskmgr) : isc__taskmgr :=
  mkMgr (default_quantum m) (tasks m) (ready_tasks m) (ready_priority_tasks m) x
    (tasks_running m) (pause_requested m) (exclusive_requested m) (exiting m) (excl m).
Definition set_running (n : Z) (m : isc__taskmgr) : isc__taskmgr :=
  mkMgr (default_quantum m) (tasks m) (ready_tasks m) (ready_priority_tasks m) (mode m)
    n (pause_requested m) (exclusive_requested m) (exiting m) (excl m).
Definition set_pause (b : bool) (m : isc__taskmgr) : isc__taskmgr :=
  mkMgr (default_quantum m) (tasks m) (ready_tasks m) (ready_priority_tasks m) (mode m)
    (tasks_running m) b (exclusive_requested m) (exiting m) (excl m).
Definition set_exclusive (b : bool) (m : isc__taskmgr) : isc__taskmgr :=
  mkMgr (default_quantum m) (tasks m) (ready_tasks m) (ready_priority_tasks m) (mode m)
    (tasks_running m) (pause_requested m) b (exiting m) (excl m).
Definition set_exiting (b : bool) (m : isc__taskmgr) : isc__taskmgr :=
  mkMgr (default_quantum m) (tasks m) (ready_tasks m) (ready_priority_tasks m) (mode m)
    (tasks_running m) (pause_requested m) (exclusive_requested m) b (excl m).
Definition set_excl (x : option nat) (m : isc__taskmgr) : isc__taskmgr :=
  mkMgr (default_quantum m) (tasks m) (ready_tasks m) (ready_priority_tasks m) (mode m)
    (tasks_running m) (pause_requested m) (exclusive_requested m) (exiting m) x.

Definition FINISHED (m : isc__taskmgr) : bool := exiting m && EMPTY (tasks m).

(** The queue that the current mode serves. *)
Definition readyq (m : isc__taskmgr) : list nat :=
  match mode m with
  | isc_taskmgrmode_normal => ready_tasks m
  | isc_taskmgrmode_privileged => ready_priority_tasks m
  end.

Definition empty_readyq (m : isc__taskmgr) : bool := EMPTY (readyq m).

Definition linked (t : nat) (l : list nat) : bool := bool_decide (t ∈ l).

Definition enqueue (l : list nat) (t : nat) : outcome (list nat) := ENQUEUE (fun x => x) l t.
Definition dequeue (l : list nat) (t : nat) : outcome (list nat) := DEQUEUE (fun x => x) l t.

Definition pop_readyq (m : isc__taskmgr) : outcome (isc__taskmgr * option nat) :=
  match readyq m with
  | [] => Done (m, None)
  | t :: _ =>
      let* r := dequeue (ready_tasks m) t in
      let* p := (if linked t (ready_priority_tasks m)
                 then dequeue (ready_priority_tasks m) t
                 else Done (ready_priority_tasks m)) in
      Done (set_ready r p m, Some t)
  end.

(** [T] is the record of the task [t]. *)
Definition push_readyq (t : nat) (T : isc__task) (m : isc__taskmgr) : outcome isc__taskmgr :=
  let* r := enqueue (ready_tasks m) t in
  let* p := (if isc__task_privilege T
             then enqueue (ready_priority_tasks m) t
             else Done (ready_priority_tasks m)) in
  Done (set_ready r p m).

(** The second critical section of [isc__task_setprivilege]. *)
Definition setprivilege_queue (t : nat) (priv : bool) (m : isc__taskmgr) : outcome isc__taskmgr :=
  if priv && linked t (ready_tasks m) then
    let* p := enqueue (ready_priority_tasks m) t in Done (set_ready (ready_tasks m) p m)
  else if negb priv && linked t (ready_priority_tasks m) then
    let* p := dequeue (ready_priority_tasks m) t in Done (set_ready (ready_tasks m) p m)
  else Done m.

(** ** A worker in [dispatch]: the part under the task lock *)

(** How the section ends: with the lock released for the action of an event, or
    after the loop with the task idle, put back among the ready ones, or done. *)
Inductive verdict : Type :=
| V_action (dispatch_count : Z)
| V_idle
| V_requeue
| V_finished.

(** The body of the loop after the event: the shutdown of a task nobody refers to,
    and the tests that end the loop. *)
Definition dispatch_tests (T : isc__task) (dispatch_count : Z) : outcome (isc__task * option verdict) :=
  let* T :=
    (if (references T =? 0) && EMPTY (events T) && negb (TASK_SHUTTINGDOWN T)
     then let* (T', was_idle) := task_shutdown T in
          REQUIRE negb was_idle ;; Done T'
     else Done T) in
  if EMPTY (events T) then
    if (references T =? 0) && TASK_SHUTTINGDOWN T
    then Done (set_state task_state_done T, Some V_finished)
    else Done (set_state task_state_idle T, Some V_idle)
  else if quantum T <=? dispatch_count
  then Done (set_state task_state_ready T, Some V_requeue)
  else Done (T, None).

(** The task, the events taken off its queue, and how the section ended. *)
Definition dispatched : Type := isc__task * list isc_event * verdict.

Definition dispatch_after (again : isc__task -> Z -> outcome dispatched)
    (T : isc__task) (dispatch_count : Z) : outcome dispatched :=
  let* (T', v) := dispatch_tests T dispatch_count in
  match v with
  | Some v => Done (T', [], v)
  | None => again T' dispatch_count
  end.

(** The loop from its top; an event without an action is taken off the queue and
    the loop goes on. *)
Fixpoint dispatch_events (fuel : nat) (T : isc__task) (dispatch_count : Z) : outcome dispatched :=
  match fuel with
  | O => NoFuel
  | S fuel' =>
      match events T with
      | [] => dispatch_after (dispatch_events fuel') T dispatch_count
      | e :: q =>
          if ev_action e then Done (set_events q T, [e], V_action dispatch_count)
          else
            let* (T', l, v) :=
              dispatch_after (dispatch_events fuel') (set_events q T) (u32 (dispatch_count + 1)) in
            Done (T', e :: l, v)
      end
  end.

Definition dispatch_fuel (T : isc__task) : nat :=
  S (S (length (events T) + length (on_shutdown T))).

(** From taking the task lock for the first time to the first release of it. *)
Definition dispatch_start (time : Z) (T : isc__task) : outcome dispatched :=
  REQUIRE in_state task_state_ready T ;;
  let T := set_now time (set_state task_state_running T) in
  dispatch_events (dispatch_fuel T) T 0.

(** From the return of an action to the next release of the task lock. *)
Definition dispatch_return (T : isc__task) (dispatch_count : Z) : outcome dispatched :=
  dispatch_after (dispatch_events (dispatch_fuel T)) T (u32 (dispatch_count + 1)).

(** ** The whole system *)

(** Where a worker is.  [dispatch_count] is a local variable of [dispatch];
    [exclusive] tells whether the action holds exclusive access. *)
Inductive worker_pc : Type :=
| W_start                                         (* at while (!FINISHED(manager)) *)
| W_wait                                          (* asleep on work_available *)
| W_wake                                          (* woken, taking the manager lock *)
| W_popped (t : nat)                              (* before LOCK(&task->lock) *)
| W_action (t : nat) (dispatch_count : Z) (exclusive : bool)
| W_exclwait (t : nat) (dispatch_count : Z)       (* asleep on exclusive_granted *)
| W_exclwake (t : nat) (dispatch_count : Z)
| W_finished (t : nat)                            (* in task_finished *)
| W_free (t : nat)                                (* in task_finished, after UNLOCK *)
| W_end (requeue : option nat)                    (* before LOCK(&manager->lock) *)
| W_exit.

#[export] Instance worker_pc_eq_dec : EqDecision worker_pc.
Proof. solve_decision. Defined.

(** [calls] are the calls of [task_ready] in progress, with [has_privilege] once it
    has been read; [pausing] and [resumed] are the callers of [isc__taskmgr_pause]
    that sleep on [paused], and that woke up; [freed] is set by [manager_free]. *)
Record system : Type := mkSystem {
  store : gmap nat isc__task;
  manager : isc__taskmgr;
  calls : list (nat * option bool);
  workers : list worker_pc;
  pausing : list nat;
  resumed : list nat;
  freed : bool
}.

Definition set_store (s : gmap nat isc__task) (st : system) : system :=
  mkSystem s (manager st) (calls st) (workers st) (pausing st) (resumed st) (freed st).
Definition set_manager (m : isc__taskmgr) (st : system) : system :=
  mkSystem (store st) m (calls st) (workers st) (pausing st) (resumed st) (freed st).
Definition set_calls (l : list (nat * option bool)) (st : system) : system :=
  mkSystem (store st) (manager st) l (workers st) (pausing st) (resumed st) (freed st).
Definition set_workers (l : list worker_pc) (st : system) : system :=
  mkSystem (store st) (manager st) (calls st) l (pausing st) (resumed st) (freed st).
Definition set_pausers (l k : list nat) (st : system) : system :=
  mkSystem (store st) (manager st) (calls st) (workers st) l k (freed st).
Definition set_freed (b : bool) (st : system) : system :=
  mkSystem (store st) (manager st) (calls st) (workers st) (pausing st) (resumed st) b.

Definition goto (w : nat) (pc : worker_pc) (st : system) : system :=
  set_workers (<[w := pc]> (workers st)) st.

(** The record of a task; a freed one may not be used. *)
Definition get (st : system) (t : nat) : outcome isc__task :=
  match store st !! t with Some T => Done T | None => Undef end.

Definition put (t : nat) (T : isc__task) (st : system) : system :=
  set_store (<[t := T]> (store st)) st.

(** *** Condition variables *)

Definition wake (pc : worker_pc) : worker_pc := match pc with W_wait => W_wake | _ => pc end.

(** [BROADCAST(&manager->work_available)] *)
Definition broadcast (ws : list worker_pc) : list worker_pc := map wake ws.

Fixpoint signal_first (ws : list worker_pc) : list worker_pc :=
  match ws with
  | [] => []
  | W_wait :: ws' => W_wake :: ws'
  | pc :: ws' => pc :: signal_first ws'
  end.

(** [SIGNAL(&manager->work_available)]: the worker [who] when it sleeps, another
    sleeping one otherwise. *)
Definition signal (who : nat) (ws : list worker_pc) : list worker_pc :=
  match ws !! who with
  | Some W_wait => <[who := W_wake]> ws
  | _ => signal_first ws
  end.

(** [SIGNAL(&manager->exclusive_granted)] *)
Fixpoint signal_exclusive (ws : list worker_pc) : list worker_pc :=
  match ws with
  | [] => []
  | W_exclwait t n :: ws' => W_exclwake t n :: ws'
  | pc :: ws' => pc :: signal_exclusive ws'
  end.

(** [SIGNAL(&manager->paused)] *)
Definition signal_paused (st : system) : system :=
  match pausing st with
  | [] => st
  | p :: l => set_pausers l (resumed st ++ [p]) st
  end.

(** *** A worker in [dispatch]: the parts under the manager lock *)

(** The test at the end of the loop: privileged mode is left when nothing runs and
    no privileged task is ready. *)
Definition drop_privilege (st : system) : system :=
  let m := manager st in
  if (tasks_running m =? 0) && empty_readyq m then
    let m' := set_mode isc_taskmgrmode_normal m in
    set_workers (if empty_readyq m' then workers st else broadcast (workers st)) (set_manager m' st)
  else st.

(** From the inner [while] on: sleep, or take a task. *)
Definition dispatch_inner (w : nat) (st : system) : outcome system :=
  let m := manager st in
  if (empty_readyq m || pause_requested m || exclusive_requested m) && negb (FINISHED m)
  then Done (goto w W_wait st)
  else
    let* (m', popped) := pop_readyq m in
    match popped with
    | Some t =>
        let* _ := get st t in
        Done (goto w (W_popped t) (set_manager (set_running (u32 (tasks_running m' + 1)) m') st))
    | None =>
        let st' := drop_privilege st in
        Done (goto w (if FINISHED (manager st') then W_exit else W_start) st')
    end.

Definition dispatch_outer (w : nat) (st : system) : outcome system :=
  if FINISHED (manager st) then Done (goto w W_exit st) else dispatch_inner w st.

(** After a task: the worker no longer runs it, wakes who waits for that, and puts
    the task back on the queue when its quantum expired. *)
Definition dispatch_end (requeue : option nat) (st : system) : outcome system :=
  let m := set_running (u32 (tasks_running (manager st) - 1)) (manager st) in
  let st := set_manager m st in
  let st :=
    if exclusive_requested m && (tasks_running m =? 1)
    then set_workers (signal_exclusive (workers st)) st
    else if pause_requested m && (tasks_running m =? 0) then signal_paused st
    else st in
  match requeue with
  | None => Done st
  | Some t =>
      let* T := get st t in
      let* m' := push_readyq t T (manager st) in
      Done (set_manager m' st)
  end.

(** [task_finished] up to the release of the manager lock *)
Definition task_finished (t : nat) (st : system) : outcome system :=
  let* T := get st t in
  REQUIRE EMPTY (events T) ;;
  REQUIRE EMPTY (on_shutdown T) ;;
  REQUIRE references T =? 0 ;;
  REQUIRE in_state task_state_done T ;;
  let* l := dequeue (tasks (manager st)) t in
  let m := set_tasks l (manager st) in
  let st := set_manager m st in
  Done (if FINISHED m then set_workers (broadcast (workers st)) st else st).

(** *** The interface *)

(** [isc__task_create]; [t] is the address that [isc_mem_get] returned, if any. *)
Definition isc__task_create (q : Z) (t : option nat) (mutex_ok : bool) (st : system)
    : isc_result_t * system :=
  match t with
  | None => (ISC_R_NOMEMORY, st)
  | Some t =>
      if negb mutex_ok then (ISC_R_UNEXPECTED, st)
      else
        let m := manager st in
        if exiting m then (ISC_R_SHUTTINGDOWN, st)
        else
          let q := if q =? 0 then default_quantum m else q in
          (ISC_R_SUCCESS,
           put t (new_task q) (set_manager (set_tasks (tasks m ++ [t]) m) st))
  end.

(** A routine that changes a task under its lock; when the task was idle the call
    goes on in [task_ready]. *)
Definition on_task (t : nat) (f : isc__task -> outcome (isc__task * bool)) (st : system)
    : outcome system :=
  let* T := get st t in
  let* (T', was_idle) := f T in
  let st := put t T' st in
  Done (if was_idle then set_calls (calls st ++ [(t, None)]) st else st).

Definition isc__task_detach (t : nat) (st : system) : outcome system := on_task t task_detach st.
Definition isc__task_send (t : nat) (e : isc_event) (st : system) : outcome system :=
  on_task t (task_send e) st.
Definition isc__task_sendanddetach (t : nat) (e : isc_event) (st : system) : outcome system :=
  on_task t (task_sendanddetach e) st.
Definition isc__task_shutdown (t : nat) (st : system) : outcome system := on_task t task_shutdown st.

(** [task_ready]: [isc__task_privilege] and the assertion, then the queue. *)
Definition task_ready_privilege (t : nat) (st : system) : outcome system :=
  let* T := get st t in
  REQUIRE in_state task_state_ready T ;;
  Done (set_calls (map (fun c => if (c.1 =? t)%nat then (t, Some (isc__task_privilege T)) else c)
                     (calls st)) st).

Definition task_ready_push (t : nat) (has_privilege : bool) (who : nat) (st : system) : outcome system :=
  let* T := get st t in
  let* m := push_readyq t T (manager st) in
  let st := set_calls (filter (fun c => c.1 <> t) (calls st)) (set_manager m st) in
  Done (if bool_decide (mode m = isc_taskmgrmode_normal) || has_privilege
        then set_workers (signal who (workers st)) st else st).

Definition isc__taskmgr_setmode (x : isc_taskmgrmode_t) (st : system) : system :=
  set_manager (set_mode x (manager st)) st.

(** [isc__taskmgr_pause] by the thread [p], from the test of its loop on *)
Definition isc__taskmgr_pause (p : nat) (st : system) : system :=
  if 0 <? tasks_running (manager st)
  then set_pausers (pausing st ++ [p]) (resumed st) st
  else set_manager (set_pause true (manager st)) st.

Definition isc__taskmgr_resume (st : system) : system :=
  if pause_requested (manager st)
  then set_workers (broadcast (workers st)) (set_manager (set_pause false (manager st)) st)
  else st.

(** The loop of [isc__task_beginexclusive] and its end *)
Definition exclusive_wait (w t : nat) (n : Z) (st : system) : system :=
  if 1 <? tasks_running (manager st) then goto w (W_exclwait t n) st else goto w (W_action t n true) st.

Definition isc__task_beginexclusive (w t : nat) (n : Z) (st : system) : outcome (isc_result_t * system) :=
  let* T := get st t in
  REQUIRE in_state task_state_running T ;;
  if exclusive_requested (manager st) then Done (ISC_R_LOCKBUSY, st)
  else Done (ISC_R_SUCCESS,
             exclusive_wait w t n (set_manager (set_exclusive true (manager st)) st)).

Definition isc__task_endexclusive (w t : nat) (n : Z) (st : system) : outcome system :=
  let* T := get st t in
  REQUIRE in_state task_state_running T ;;
  REQUIRE exclusive_requested (manager st) ;;
  let st := set_manager (set_exclusive false (manager st)) st in
  Done (set_workers (broadcast (<[w := W_action t n false]> (workers st))) st).

(** [isc__taskmgr_setexcltask] and the start of [isc__taskmgr_destroy]:
    [isc__task_detach(&mgr->excl)] when there is one. *)
Definition detach_excl (st : system) : outcome system :=
  match excl (manager st) with
  | None => Done st
  | Some t =>
      let* st := isc__task_detach t st in
      Done (set_manager (set_excl None (manager st)) st)
  end.

(** The rest of [isc__taskmgr_setexcltask] *)
Definition attach_excl (t : nat) (st : system) : outcome system :=
  let* T := get st t in
  Done (set_manager (set_excl (Some t) (manager st)) (put t (isc__task_attach T) st)).

Definition isc__taskmgr_excltask (st : system) : outcome (isc_result_t * system) :=
  match excl (manager st) with
  | None => Done (ISC_R_NOTFOUND, st)
  | Some t =>
      let* T := get st t in
      Done (ISC_R_SUCCESS, put t (isc__task_attach T) st)
  end.

(** The loop of [isc__taskmgr_destroy] over the tasks of the manager *)
Fixpoint shutdown_tasks (l : list nat) (st : system) : outcome system :=
  match l with
  | [] => Done st
  | t :: l' =>
      let* T := get st t in
      let* (T', was_idle) := task_shutdown T in
      let* m := (if was_idle then push_readyq t T' (manager st) else Done (manager st)) in
      shutdown_tasks l' (put t T' (set_manager m st))
  end.

(** [isc__taskmgr_destroy] under the manager lock *)
Definition isc__taskmgr_destroy (st : system) : outcome system :=
  REQUIRE negb (exiting (manager st)) ;;
  let st := set_manager (set_mode isc_taskmgrmode_normal (set_exiting true (manager st))) st in
  let* st := shutdown_tasks (tasks (manager st)) st in
  Done (set_workers (broadcast (workers st)) st).

(** [isc__taskmgr_create]; [mem], [mutex], [conds] are the answers for the memory of
    the manager and of its threads, the mutex and the condition variables, [threads]
    those of [isc_thread_create]. *)
Definition isc__taskmgr_create (q : Z) (mem mutex thr conds : bool) (threads : list bool)
    : isc_result_t * option system :=
  if negb mem then (ISC_R_NOMEMORY, None)
  else if negb mutex then (ISC_R_UNEXPECTED, None)
  else if negb thr then (ISC_R_NOMEMORY, None)
  else if negb conds then (ISC_R_UNEXPECTED, None)
  else
    let q := if q =? 0 then DEFAULT_DEFAULT_QUANTUM else q in
    let started := filter (fun ok => ok = true) threads in
    if EMPTY started then (ISC_R_NOTHREADS, None)
    else (ISC_R_SUCCESS,
          Some (mkSystem ∅ (mkMgr q [] [] [] isc_taskmgrmode_normal 0 false false false None) []
                  (map (fun _ => W_start) started) [] [] false)).

(** ** Steps *)

Inductive label : Type :=
| C_create (q : Z) (t : option nat) (mutex_ok : bool)
| C_attach (t : nat)
| C_detach (t : nat)
| C_send (t : nat) (e : isc_event)
| C_sendanddetach (t : nat) (e : isc_event)
| C_dequeue (t : nat) (sender first last tag : Z) (purging : bool)
| C_purgeevent (t id : nat)
| C_onshutdown (t : nat) (event : option nat)
| C_shutdown (t : nat)
| C_setname (t : nat) (s : list Z) (tg : Z)
| C_ready_privilege (t : nat)
| C_ready_push (t : nat) (has_privilege : bool) (who : nat)
| C_setprivilege (caller : option nat) (t : nat) (priv : bool)
| C_setprivilege_flag (t : nat) (priv : bool)
| C_setprivilege_queue (t : nat) (priv : bool)
| C_setmode (caller : option nat) (x : isc_taskmgrmode_t)
| C_pause (p : nat)
| C_pause_woken (p : nat)
| C_spurious (p : nat)
| C_resume
| C_detach_excl
| C_attach_excl (t : nat)
| C_excltask
| C_destroy
| C_join
| W_dispatch (w : nat)
| W_begin (w : nat) (time : Z)
| W_return (w : nat)
| W_beginexclusive (w : nat)
| W_granted (w : nat)
| W_endexclusive (w : nat)
| W_task_finished (w : nat)
| W_task_free (w : nat)
| W_done (w : nat)
| W_spurious (w : nat).

(** [isc__task_destroy] is two calls, with steps of other threads between them. *)
Definition isc__task_destroy (t : nat) : list label := [C_shutdown t; C_detach t].

(** What happens to the queue of a task: an event is put on it, is taken off it to
    be run, or is removed by its sender. *)
Inductive obs : Type :=
| Sent (t : nat) (e : isc_event)
| Ran (t : nat) (e : isc_event)
| Removed (t : nat) (e : isc_event).

(** The shutdown events posted when a task goes from [T] to [T']. *)
Definition posted (T T' : isc__task) : list isc_event :=
  if TASK_SHUTTINGDOWN T' && negb (TASK_SHUTTINGDOWN T) then rev (on_shutdown T) else [].

Definition posted_in (st st' : system) (t : nat) : list obs :=
  match store st !! t, store st' !! t with
  | Some T, Some T' => Sent t <$> posted T T'
  | _, _ => []
  end.

(** *** The callers' side of the contract *)

Definition in_action (t : nat) (pc : worker_pc) : bool :=
  match pc with W_action t' _ _ => (t' =? t)%nat | _ => false end.

(** A caller may use a task when it holds a reference to it, or when it is the
    action of one of its events. *)
Definition usable (st : system) (t : nat) : bool :=
  negb (freed st) &&
  match store st !! t with
  | Some T => (0 <? references T) || existsb (in_action t) (workers st)
  | None => false
  end.

(** There is a reference that is not the manager's own. *)
Definition detachable (st : system) (t : nat) : bool :=
  negb (freed st) &&
  match store st !! t with
  | Some T => (if bool_decide (excl (manager st) = Some t) then 1 else 0) <? references T
  | None => false
  end.

Definition attachable (st : system) (t : nat) : bool :=
  usable st t &&
  match store st !! t with Some T => references T <? 2 ^ 32 - 1 | None => false end.

(** The event belongs to the caller: it is on the list of no task. *)
Definition own_event (st : system) (id : nat) : bool :=
  forallb (fun p => negb (bool_decide (id ∈ map ev_id (events p.2 ++ on_shutdown p.2))))
    (map_to_list (store st)).

Definition called_by (st : system) (caller : option nat) : bool :=
  match caller with
  | None => true
  | Some w => match workers st !! w with Some (W_action _ _ _) => true | _ => false end
  end.

Definition at_pc (st : system) (w : nat) (p : worker_pc -> bool) : bool :=
  match workers st !! w with Some pc => p pc | None => false end.

(** When a step may be taken: a thread is at that point, or the caller of a routine
    of the interface keeps to its contract. *)
Definition guard (st : system) (l : label) : bool :=
  match l with
  | C_create q t _ =>
      negb (freed st) && (0 <=? q) && (q <? 2 ^ 32) &&
      match t with Some t => bool_decide (store st !! t = None) | None => true end
  | C_attach t => attachable st t
  | C_detach t => detachable st t
  | C_send t e => usable st t && own_event st (ev_id e) && (0 <? ev_type e)
  | C_sendanddetach t e =>
      usable st t && detachable st t && own_event st (ev_id e) && (0 <? ev_type e)
  | C_dequeue t _ first last _ _ => usable st t && (first <=? last)
  | C_purgeevent t _ => usable st t
  | C_onshutdown t e =>
      usable st t && match e with Some id => own_event st id | None => true end
  | C_shutdown t => usable st t
  | C_setname t _ _ => usable st t
  | C_ready_privilege t => bool_decide ((t, None) ∈ calls st)
  | C_ready_push t p _ => bool_decide ((t, Some p) ∈ calls st)
  | C_setprivilege caller t _ => usable st t && called_by st caller
  | C_setprivilege_flag t _ => usable st t
  | C_setprivilege_queue t _ => usable st t
  | C_setmode caller _ => negb (freed st) && called_by st caller
  | C_pause _ => negb (freed st)
  | C_pause_woken p => negb (freed st) && linked p (resumed st)
  | C_spurious p => negb (freed st) && linked p (pausing st)
  | C_resume => negb (freed st)
  | C_detach_excl => negb (freed st)
  | C_attach_excl t => attachable st t && bool_decide (excl (manager st) = None)
  | C_excltask =>
      negb (freed st) &&
      match excl (manager st) with Some t => attachable st t | None => true end
  | C_destroy => negb (freed st) && negb (exiting (manager st))
  | C_join => negb (freed st) && exiting (manager st) &&
              forallb (fun pc => bool_decide (pc = W_exit)) (workers st)
  | W_dispatch w => at_pc st w (fun pc => match pc with W_start | W_wake => true | _ => false end)
  | W_begin w _ => at_pc st w (fun pc => match pc with W_popped _ => true | _ => false end)
  | W_return w => at_pc st w (fun pc => match pc with W_action _ _ false => true | _ => false end)
  | W_beginexclusive w =>
      at_pc st w (fun pc => match pc with W_action _ _ _ => true | _ => false end)
  | W_granted w => at_pc st w (fun pc => match pc with W_exclwake _ _ => true | _ => false end)
  | W_endexclusive w =>
      at_pc st w (fun pc => match pc with W_action _ _ true => true | _ => false end)
  | W_task_finished w => at_pc st w (fun pc => match pc with W_finished _ => true | _ => false end)
  | W_task_free w => at_pc st w (fun pc => match pc with W_free _ => true | _ => false end)
  | W_done w => at_pc st w (fun pc => match pc with W_end _ => true | _ => false end)
  | W_spurious w =>
      at_pc st w (fun pc => match pc with W_wait | W_exclwait _ _ => true | _ => false end)
  end.

(** *** The code *)

(** A step of a worker under the lock of the task it serves. *)
Definition worker_task (w t : nat) (f : isc__task -> outcome dispatched) (st : system)
    : outcome (system * list obs) :=
  let* T := get st t in
  let* (T', l, v) := f T in
  let pc := match v with
            | V_action n => W_action t n false
            | V_idle => W_end None
            | V_requeue => W_end (Some t)
            | V_finished => W_finished t
            end in
  Done (goto w pc (put t T' st), (Sent t <$> posted T T') ++ (Ran t <$> l)).

Definition worker_step (st : system) (w : nat) (l : label) : outcome (system * list obs) :=
  match workers st !! w, l with
  | Some W_start, W_dispatch _ => let* s := dispatch_outer w st in Done (s, [])
  | Some W_wake, W_dispatch _ => let* s := dispatch_inner w st in Done (s, [])
  | Some (W_popped t), W_begin _ time => worker_task w t (dispatch_start time) st
  | Some (W_action t n _), W_return _ => worker_task w t (fun T => dispatch_return T n) st
  | Some (W_action t n _), W_beginexclusive _ =>
      let* (_, s) := isc__task_beginexclusive w t n st in Done (s, [])
  | Some (W_exclwake t n), W_granted _ => Done (exclusive_wait w t n st, [])
  | Some (W_action t n _), W_endexclusive _ =>
      let* s := isc__task_endexclusive w t n st in Done (s, [])
  | Some (W_finished t), W_task_finished _ =>
      let* s := task_finished t (goto w (W_free t) st) in Done (s, [])
  | Some (W_free t), W_task_free _ =>
      let* _ := get st t in
      Done (goto w (W_end None) (set_store (delete t (store st)) st), [])
  | Some (W_end requeue), W_done _ =>
      let* s := dispatch_end requeue (goto w W_start st) in
      let* s := dispatch_outer w (drop_privilege s) in Done (s, [])
  | Some W_wait, W_spurious _ => Done (goto w W_wake st, [])
  | Some (W_exclwait t n), W_spurious _ => Done (goto w (W_exclwake t n) st, [])
  | _, _ => Undef
  end.

Definition client_step (st : system) (l : label) : outcome (system * list obs) :=
  match l with
  | C_create q t ok => Done (snd (isc__task_create q t ok st), [])
  | C_attach t => let* s := on_task t (fun T => Done (isc__task_attach T, false)) st in Done (s, [])
  | C_detach t => let* s := isc__task_detach t st in Done (s, [])
  | C_send t e => let* s := isc__task_send t e st in Done (s, [Sent t e])
  | C_sendanddetach t e => let* s := isc__task_sendanddetach t e st in Done (s, [Sent t e])
  | C_dequeue t sender first last tg purging =>
      let* T := get st t in
      let* (T', moved, _) := dequeue_events sender first last tg purging T in
      Done (put t T' st, Removed t <$> moved)
  | C_purgeevent t id =>
      let* T := get st t in
      let '(T', r) := isc__task_purgeevent id T in
      Done (put t T' st, Removed t <$> option_list r)
  | C_onshutdown t e =>
      let* T := get st t in
      let* (_, T') := isc__task_onshutdown e T in
      Done (put t T' st, [])
  | C_shutdown t => let* s := isc__task_shutdown t st in Done (s, posted_in st s t)
  | C_setname t s tg =>
      let* s := on_task t (fun T => Done (isc__task_setname s tg T, false)) st in Done (s, [])
  | C_ready_privilege t => let* s := task_ready_privilege t st in Done (s, [])
  | C_ready_push t p who => let* s := task_ready_push t p who st in Done (s, [])
  | C_setprivilege _ t priv =>
      let* T := get st t in
      let '(T', changed) := setprivilege_flag priv T in
      let st := put t T' st in
      let* m := (if changed then setprivilege_queue t priv (manager st) else Done (manager st)) in
      Done (set_manager m st, [])
  | C_setprivilege_flag t priv =>
      let* T := get st t in Done (put t (fst (setprivilege_flag priv T)) st, [])
  | C_setprivilege_queue t priv =>
      let* m := setprivilege_queue t priv (manager st) in Done (set_manager m st, [])
  | C_setmode _ x => Done (isc__taskmgr_setmode x st, [])
  | C_pause p => Done (isc__taskmgr_pause p st, [])
  | C_pause_woken p =>
      Done (isc__taskmgr_pause p (set_pausers (pausing st) (filter (fun x => x <> p) (resumed st)) st), [])
  | C_spurious p =>
      Done (set_pausers (filter (fun x => x <> p) (pausing st)) (resumed st ++ [p]) st, [])
  | C_resume => Done (isc__taskmgr_resume st, [])
  | C_detach_excl => let* s := detach_excl st in Done (s, [])
  | C_attach_excl t => let* s := attach_excl t st in Done (s, [])
  | C_excltask => let* (_, s) := isc__taskmgr_excltask st in Done (s, [])
  | C_destroy =>
      let* s := isc__taskmgr_destroy st in
      Done (s, concat (map (posted_in st s) (tasks (manager st))))
  | C_join => Done (set_freed true st, [])
  | _ => Undef
  end.

Definition label_worker (l : label) : option nat :=
  match l with
  | W_dispatch w | W_begin w _ | W_return w | W_beginexclusive w | W_granted w
  | W_endexclusive w | W_task_finished w | W_task_free w | W_done w | W_spurious w => Some w
  | _ => None
  end.

(** After [manager_free] nothing may touch the manager. *)
Definition step (st : system) (l : label) : outcome (system * list obs) :=
  if freed st then Undef
  else match label_worker l with
       | Some w => worker_step st w l
       | None => client_step st l
       end.

(** Executions whose labels satisfy [ok] *)
Inductive steps (ok : label -> bool) (st0 : system) : list obs -> system -> Prop :=
| steps_refl : steps ok st0 [] st0
| steps_next tr st l st' o :
    steps ok st0 tr st -> ok l = true -> guard st l = true -> step st l = Done (st', o) ->
    steps ok st0 (tr ++ o) st'.

Fixpoint run (ok : label -> bool) (st : system) (ls : list label) : option (system * list obs) :=
  match ls with
  | [] => Some (st, [])
  | l :: ls' =>
      if ok l && guard st l then
        match step st l with
        | Done (st', o) =>
            match run ok st' ls' with Some (st'', tr) => Some (st'', o ++ tr) | None => None end
        | _ => None
        end
      else None
  end.

(** The labels of executions in which the two critical sections of
    [isc__task_setprivilege], that of the task and that of the manager, are taken together
    by [C_setprivilege].  The code lets another thread move between them; then a list of
    ready tasks may be damaged ([setprivilege_race]), so that the theorems on safety are
    about the executions in which none does. *)
Definition undivided (l : label) : bool :=
  match l with C_setprivilege_flag _ _ | C_setprivilege_queue _ _ => false | _ => true end.

(** [isc_taskmgr_setmode] and [isc_task_setprivilege] are called by actions. *)
Definition inside (l : label) : bool :=
  undivided l &&
  match l with C_setmode None _ | C_setprivilege None _ _ => false | _ => true end.
