(* ===== verification/TaskOps.v ===== *)
(** * One task: what the routines of [task.c] do under the task lock

    [task_ok] is the invariant of a task outside its lock; [updates] is what a
    routine called by a client does, [flows] what a worker's section does to the
    queue of events. *)

From S2P Require Import Prelude Task.

(** ** Lists of [isc/list.h] *)

Lemma ENQUEUE_ok {A} (key : A -> nat) l x :
  key x ∉ map key l -> ENQUEUE key l x = Done (l ++ [x]).
Proof. intros H. unfold ENQUEUE. by rewrite bool_decide_eq_false_2. Qed.

Lemma DEQUEUE_ok {A} (key : A -> nat) l x :
  key x ∈ map key l -> DEQUEUE key l x = Done (filter (fun y => key y <> key x) l).
Proof. intros H. unfold DEQUEUE. by rewrite bool_decide_eq_true_2. Qed.

Lemma filter_key_ne {A} (key : A -> nat) l x :
  key x ∉ map key l -> filter (fun y => key y <> key x) l = l.
Proof.
  induction l as [|y l IH]; [done|]. cbn [map]. rewrite not_elem_of_cons. intros [H1 H2].
  rewrite filter_cons_True by done. by rewrite IH.
Qed.

Lemma DEQUEUE_last {A} (key : A -> nat) l x :
  key x ∉ map key l -> DEQUEUE key (l ++ [x]) x = Done l.
Proof.
  intros H. rewrite DEQUEUE_ok.
  - by rewrite filter_app, filter_key_ne, filter_cons_False, filter_nil, app_nil_r by naive_solver.
  - rewrite map_app. set_solver.
Qed.

Lemma EMPTY_true {A} (l : list A) : EMPTY l = true <-> l = [].
Proof. by destruct l. Qed.

Lemma EMPTY_false {A} (l : list A) : EMPTY l = false <-> l <> [].
Proof. by destruct l. Qed.

Lemma EMPTY_spec {A} (l : list A) : EMPTY l = bool_decide (l = []).
Proof. by destruct l. Qed.

(** ** Flags *)

Lemma shutting_set f : negb (Z.land (Z.lor f TASK_F_SHUTTINGDOWN) TASK_F_SHUTTINGDOWN =? 0) = true.
Proof.
  apply negb_true_iff, Z.eqb_neq. rewrite Z.land_lor_distr_l. intros H.
  apply Z.lor_eq_0_iff in H as [_ H]. by vm_compute in H.
Qed.

Lemma privilege_shutting f :
  Z.land (Z.lor f TASK_F_SHUTTINGDOWN) TASK_F_PRIVILEGED = Z.land f TASK_F_PRIVILEGED.
Proof. rewrite Z.land_lor_distr_l. change (Z.land _ TASK_F_PRIVILEGED) with 0 at 2. apply Z.lor_0_r. Qed.

Lemma privilege_flag priv T :
  isc__task_privilege (fst (setprivilege_flag priv T)) = priv /\
  TASK_SHUTTINGDOWN (fst (setprivilege_flag priv T)) = TASK_SHUTTINGDOWN T.
Proof.
  unfold setprivilege_flag, isc__task_privilege, TASK_SHUTTINGDOWN. cbn. destruct priv.
  - rewrite !Z.land_lor_distr_l. change (Z.land TASK_F_PRIVILEGED TASK_F_SHUTTINGDOWN) with 0.
    rewrite Z.lor_0_r. split; [|done]. apply negb_true_iff, Z.eqb_neq. intros H.
    apply Z.lor_eq_0_iff in H as [_ H]. by vm_compute in H.
  - rewrite <- !Z.land_assoc.
    change (Z.land (Z.lxor 4294967295 TASK_F_PRIVILEGED) TASK_F_PRIVILEGED) with 0.
    change (Z.land (Z.lxor 4294967295 TASK_F_PRIVILEGED) TASK_F_SHUTTINGDOWN)
      with TASK_F_SHUTTINGDOWN.
    by rewrite Z.land_0_r.
Qed.

(** ** The invariant of a task *)

Record task_ok (T : isc__task) : Prop := {
  ok_references : 0 <= references T < 2 ^ 32;
  ok_idle : state T = task_state_idle -> events T = [] /\ 0 < references T;
  ok_done : state T = task_state_done ->
    references T = 0 /\ events T = [] /\ TASK_SHUTTINGDOWN T = true;
  ok_shutdown : TASK_SHUTTINGDOWN T = true -> on_shutdown T = [];
  ok_ids : NoDup (map ev_id (events T ++ on_shutdown T))
}.

Lemma in_state_spec s T : in_state s T = true <-> state T = s.
Proof. unfold in_state. by rewrite bool_decide_eq_true. Qed.

Lemma in_state_false s T : in_state s T = false <-> state T <> s.
Proof. unfold in_state. by rewrite bool_decide_eq_false. Qed.

(** What a routine of the interface does to the state of a task: nothing, or, when
    [idle], it makes an idle task ready. *)
Record updates (T T' : isc__task) (idle : bool) : Prop := {
  upd_ok : task_ok T';
  upd_privilege : isc__task_privilege T' = isc__task_privilege T;
  upd_state : if idle then state T = task_state_idle /\ state T' = task_state_ready
              else state T' = state T
}.

(** *** Shutdown *)

Lemma post_events_ok k T :
  on_shutdown T = rev k -> NoDup (map ev_id (events T ++ on_shutdown T)) ->
  post_events k T = Done (set_events (events T ++ k) (set_on_shutdown [] T)).
Proof.
  revert T. induction k as [|e k IH]; intros T Hs Hn.
  - cbn. rewrite app_nil_r. by destruct T; cbn in *; subst.
  - cbn [rev] in Hs. cbn [post_events]. unfold post_event.
    rewrite Hs in Hn |- *. rewrite !map_app, !NoDup_app in Hn. cbn in Hn.
    destruct Hn as (Hn1 & Hd & Hn2 & Hd2 & _).
    rewrite DEQUEUE_last by (intros H; exact (Hd2 _ H ltac:(left))).
    cbn [obind]. rewrite ENQUEUE_ok.
    2: { intros H. apply (Hd _ H). set_solver. }
    cbn [obind]. rewrite IH; cbn.
    + by rewrite <- app_assoc.
    + done.
    + rewrite !map_app, !NoDup_app. cbn. repeat split; [done| |apply NoDup_singleton| |done].
      * intros x Hx Hx'. apply (Hd x Hx). set_solver.
      * intros x [Hx|Hx]%elem_of_app Hx'.
        -- apply (Hd x Hx). set_solver.
        -- apply list_elem_of_singleton in Hx as ->. by apply (Hd2 _ Hx'); left.
Qed.

Definition shut (T : isc__task) : isc__task :=
  set_events (events T ++ rev (on_shutdown T))
    (set_on_shutdown [] (set_flags (Z.lor (flags T) TASK_F_SHUTTINGDOWN) T)).

Lemma task_shutdown_spec T :
  task_ok T ->
  task_shutdown T =
    if TASK_SHUTTINGDOWN T then Done (T, false)
    else if in_state task_state_idle T then Done (set_state task_state_ready (shut T), true)
    else Done (shut T, false).
Proof.
  intros HT. unfold task_shutdown. destruct (TASK_SHUTTINGDOWN T) eqn:Es; [done|].
  unfold in_state at 1. cbn [state set_flags]. fold (in_state task_state_idle T).
  destruct (in_state task_state_idle T) eqn:Ei.
  - apply in_state_spec in Ei. destruct (ok_idle _ HT Ei) as [He _]. cbn. rewrite He. cbn.
    rewrite post_events_ok; cbn; [|by rewrite rev_involutive|].
    + unfold shut. rewrite He. done.
    + apply HT.
  - apply in_state_false in Ei. cbn [obind].
    assert (in_state task_state_ready (set_flags (Z.lor (flags T) TASK_F_SHUTTINGDOWN) T)
            || in_state task_state_running (set_flags (Z.lor (flags T) TASK_F_SHUTTINGDOWN) T) = true)
      as Hst.
    { rewrite orb_true_iff, !in_state_spec. cbn. destruct (state T) eqn:E; auto; [done|].
      apply (ok_done _ HT) in E. destruct E as (_&_&E). congruence. }
    rewrite (require_true _ Hst). cbn [obind].
    rewrite post_events_ok; cbn; [done|by rewrite rev_involutive|apply HT].
Qed.

Lemma shut_perm T : NoDup (map ev_id (events T ++ on_shutdown T)) -> NoDup (map ev_id (events (shut T) ++ [])).
Proof.
  intros H. cbn. rewrite app_nil_r. eapply NoDup_Permutation_proper; [|exact H].
  by rewrite <- (Permutation_rev (on_shutdown T)).
Qed.

Lemma shut_shutting T : TASK_SHUTTINGDOWN (shut T) = true.
Proof. apply shutting_set. Qed.

Lemma task_shutdown_ok T :
  task_ok T -> exists T' b,
    task_shutdown T = Done (T', b) /\ updates T T' b /\ references T' = references T /\
    TASK_SHUTTINGDOWN T' = true /\ events T' = events T ++ posted T T'.
Proof.
  intros HT. rewrite task_shutdown_spec by done. unfold posted.
  destruct (TASK_SHUTTINGDOWN T) eqn:Es; [|destruct (in_state task_state_idle T) eqn:Ei].
  - exists T, false. rewrite Es. cbn. rewrite app_nil_r. split_and!; try done. 
  - apply in_state_spec in Ei. eexists _, true. split; [done|].
    assert (TASK_SHUTTINGDOWN (set_state task_state_ready (shut T)) = true) as Hs by apply shut_shutting.
    rewrite Hs. split_and!; try done. split.
    + split; try done; [apply HT|]. cbn. by apply shut_perm, HT.
    + unfold isc__task_privilege. cbn. by rewrite privilege_shutting.
    + done.
  - apply in_state_false in Ei. eexists _, false. split; [done|]. rewrite shut_shutting.
    split_and!; try done. split.
    + split; [apply HT|by intros ?| |done|by apply shut_perm, HT].
      intros E. apply (ok_done _ HT) in E. destruct E as (_&_&E). congruence.
    + unfold isc__task_privilege. cbn. by rewrite privilege_shutting.
    + done.
Qed.

(** *** References *)

Lemma task_attach_ok T :
  task_ok T -> references T < 2 ^ 32 - 1 -> state T <> task_state_done ->
  updates T (isc__task_attach T) false /\ references (isc__task_attach T) = references T + 1.
Proof.
  intros HT H Hd. assert (references (isc__task_attach T) = references T + 1) as E.
  { cbn. apply u32_small. pose proof (ok_references _ HT). lia. }
  split; [|done]. split; [|done|done]. split.
  - rewrite E. pose proof (ok_references _ HT). lia.
  - intros Hi. apply (ok_idle _ HT) in Hi. rewrite E. cbn. intuition lia.
  - done.
  - apply HT.
  - apply HT.
Qed.

Lemma task_detach_ok T :
  task_ok T -> 0 < references T -> exists T' b,
    task_detach T = Done (T', b) /\ updates T T' b /\ references T' = references T - 1 /\
    events T' = events T /\ on_shutdown T' = on_shutdown T /\
    TASK_SHUTTINGDOWN T' = TASK_SHUTTINGDOWN T.
Proof.
  intros HT H. pose proof (ok_references _ HT) as Hr. unfold task_detach.
  rewrite require_true by lia. cbn [obind].
  assert (u32 (references T - 1) = references T - 1) as E by (apply u32_small; lia).
  change (references (set_references (u32 (references T - 1)) T)) with (u32 (references T - 1)).
  change (in_state task_state_idle (set_references (u32 (references T - 1)) T))
    with (in_state task_state_idle T).
  rewrite E. destruct ((references T - 1 =? 0) && in_state task_state_idle T) eqn:Ei.
  - apply andb_true_iff in Ei as [E0 Ei%in_state_spec]. cbn.
    destruct (ok_idle _ HT Ei) as [He _]. rewrite He. cbn. eexists _, true. split; [done|].
    split_and!; try done. split; [|done|done]. split; cbn; [lia|done|done|apply HT|apply HT].
  - eexists _, false. split; [done|]. split_and!; try done.
    split; [|done|done]. split; cbn; [lia| | |apply HT|apply HT].
    + intros Hi. split; [by apply (ok_idle _ HT)|]. apply andb_false_iff in Ei as [Ei|Ei]; [lia|].
      by apply in_state_false in Ei.
    + intros Hd. apply (ok_done _ HT) in Hd. lia.
Qed.

(** *** Sending *)

Lemma task_send_ok e T :
  task_ok T -> state T <> task_state_done -> 0 < ev_type e ->
  ev_id e ∉ map ev_id (events T ++ on_shutdown T) -> exists T' b,
    task_send e T = Done (T', b) /\ updates T T' b /\ references T' = references T /\
    state T' <> task_state_idle /\ events T' = events T ++ [e] /\
    on_shutdown T' = on_shutdown T /\ TASK_SHUTTINGDOWN T' = TASK_SHUTTINGDOWN T.
Proof.
  intros HT Hd Ht He. unfold task_send. rewrite require_true by lia. cbn [obind].
  rewrite require_true by (by apply negb_true_iff, in_state_false). cbn [obind].
  assert (ev_id e ∉ map ev_id (events T)) as He'.
  { rewrite map_app in He. set_solver. }
  assert (NoDup (map ev_id ((events T ++ [e]) ++ on_shutdown T))) as Hn.
  { eapply NoDup_Permutation_proper; [|apply NoDup_cons_2; [exact He|apply HT]].
    change (ev_id e :: map ev_id (events T ++ on_shutdown T))
      with (map ev_id ([e] ++ events T ++ on_shutdown T)).
    by rewrite (Permutation_app_comm (events T) [e]), <- app_assoc. }
  destruct (in_state task_state_idle T) eqn:Ei.
  - apply in_state_spec in Ei. destruct (ok_idle _ HT Ei) as [E0 _].
    rewrite E0 in He' |- *. cbn [EMPTY require obind].
    rewrite require_true by done. cbn [obind].
    rewrite ENQUEUE_ok by (cbn; rewrite E0; done). cbn. rewrite E0 in Hn |- *.
    eexists _, true. split; [done|]. split_and!; try done. split; [|done|done].
    split; cbn; [apply HT|done|done|apply HT|done].
  - apply in_state_false in Ei. cbn [obind].
    rewrite require_true.
    2: { rewrite orb_true_iff, !in_state_spec. destruct (state T); auto; done. }
    cbn [obind]. rewrite ENQUEUE_ok by done. cbn [obind].
    eexists _, false. split; [done|]. split_and!; try done. split; [|done|done].
    split; cbn; [apply HT|done|done|apply HT|done].
Qed.

Lemma updates_trans T T1 T2 b1 b2 :
  updates T T1 b1 -> updates T1 T2 b2 -> state T1 <> task_state_idle \/ b1 = false ->
  updates T T2 (b1 || b2) /\ b1 && b2 = false.
Proof.
  intros [H1 P1 S1] [H2 P2 S2] Hb. destruct b1, b2; cbn in *.
  - destruct Hb as [Hb|Hb]; [|done]. by destruct S2.
  - split; [|done]. split; [done|congruence|]. destruct S1. by rewrite S2.
  - split; [|done]. split; [done|congruence|]. destruct S2. split; [congruence|done].
  - split; [|done]. split; [done|congruence|congruence].
Qed.

Lemma task_sendanddetach_ok e T :
  task_ok T -> 0 < references T -> 0 < ev_type e ->
  ev_id e ∉ map ev_id (events T ++ on_shutdown T) -> exists T' b,
    task_sendanddetach e T = Done (T', b) /\ updates T T' b /\ references T' = references T - 1 /\
    events T' = events T ++ [e] /\ on_shutdown T' = on_shutdown T /\
    TASK_SHUTTINGDOWN T' = TASK_SHUTTINGDOWN T.
Proof.
  intros HT Hr Ht He. unfold task_sendanddetach.
  destruct (task_send_ok e T HT) as (T1 & b1 & E1 & U1 & R1 & S1 & V1 & O1 & F1); [|done|done|].
  { intros Hd. apply (ok_done _ HT) in Hd. lia. }
  rewrite E1. cbn [obind].
  destruct (task_detach_ok T1) as (T2 & b2 & E2 & U2 & R2 & V2 & O2 & F2); [apply U1|lia|].
  rewrite E2. cbn [obind]. destruct (updates_trans _ _ _ _ _ U1 U2 (or_introl S1)) as [U Hb].
  rewrite Hb. cbn. eexists _, _. split; [done|]. split_and!; try done; [lia|congruence..].
Qed.

(** *** Removing events *)

Lemma dequeue_walk_spec p l kept moved :
  dequeue_walk p l = (kept, moved) ->
  kept = filter (fun e => p e = false) l /\ moved = filter (fun e => p e = true) l.
Proof.
  revert kept moved. induction l as [|e l IH]; intros kept moved; [by intros [= <- <-]|].
  cbn [dequeue_walk]. destruct (dequeue_walk p l) as [k m] eqn:E.
  destruct (IH _ _ eq_refl) as [-> ->].
  rewrite !filter_cons. destruct (p e); intros [= <- <-]; done.
Qed.

Lemma purgeevent_walk_spec id l kept r :
  purgeevent_walk id l = (kept, r) ->
  match r with
  | None => kept = l
  | Some e => exists l1 l2, l = l1 ++ e :: l2 /\ kept = l1 ++ l2 /\ ev_id e = id /\ PURGE_OK e = true
  end.
Proof.
  revert kept r. induction l as [|e l IH]; intros kept r; [by intros [= <- <-]|].
  cbn [purgeevent_walk]. destruct ((ev_id e =? id)%nat && PURGE_OK e) eqn:E.
  - apply andb_true_iff in E as [E%Nat.eqb_eq ?]. intros [= <- <-]. by exists [], l.
  - destruct (purgeevent_walk id l) as [k r'] eqn:Ek. intros [= <- <-].
    specialize (IH _ _ eq_refl). destruct r' as [e'|]; [|by rewrite IH].
    destruct IH as (l1 & l2 & -> & -> & ? & ?). by exists (e :: l1), l2.
Qed.

(** Removing events changes neither the state of the task nor its references. *)
Lemma set_events_ok l T :
  task_ok T -> l `sublist_of` events T -> updates T (set_events l T) false.
Proof.
  intros HT Hl. split; [|done|done]. split; cbn; [apply HT| | |apply HT|].
  - intros Hi. destruct (ok_idle _ HT Hi) as [E ?]. rewrite E in Hl.
    by apply sublist_nil_r in Hl.
  - intros Hd. destruct (ok_done _ HT Hd) as (?&E&?). rewrite E in Hl.
    by apply sublist_nil_r in Hl.
  - eapply sublist_NoDup; [apply HT|]. rewrite !map_app. apply sublist_app; [|done].
    exact (fmap_sublist ev_id _ _ Hl).
Qed.

Lemma task_onshutdown_ok ev T :
  task_ok T -> state T <> task_state_done ->
  (forall id, ev = Some id -> id ∉ map ev_id (events T ++ on_shutdown T)) -> exists r T',
    isc__task_onshutdown ev T = Done (r, T') /\ updates T T' false /\
    references T' = references T /\ events T' = events T /\
    TASK_SHUTTINGDOWN T' = TASK_SHUTTINGDOWN T /\
    (r <> ISC_R_SUCCESS -> T' = T) /\ (TASK_SHUTTINGDOWN T = true -> T' = T).
Proof.
  intros HT Hd Hid. assert (updates T T false) as Hsame by done.
  destruct ev as [id|]; [|eexists _, T; by split_and!].
  cbn. destruct (TASK_SHUTTINGDOWN T) eqn:Es; [eexists _, T; by split_and!|].
  specialize (Hid id eq_refl). rewrite map_app in Hid.
  rewrite ENQUEUE_ok by (cbn; set_solver). cbn. eexists _, _. split; [done|]. split_and!; try done.
  split; [|done|done]. split; cbn; [apply HT|apply HT|done|intros E; change (TASK_SHUTTINGDOWN T = true) in E; congruence|].
  pose proof (ok_ids _ HT) as Hn. rewrite app_assoc, map_app. rewrite NoDup_app. cbn.
  split; [done|]. split; [|apply NoDup_singleton]. rewrite map_app. set_solver.
Qed.

Lemma task_setname_ok s tg T : task_ok T -> updates T (isc__task_setname s tg T) false.
Proof. intros HT. split; [|done|done]. split; cbn; apply HT. Qed.

Lemma new_task_ok q : task_ok (new_task q).
Proof. split; cbn; try done; first [lia | intros _; split; [done|lia] | apply NoDup_nil_2]. Qed.

(** ** The sections of a worker *)

Definition verdict_state (v : verdict) : task_state_t :=
  match v with
  | V_action _ => task_state_running
  | V_idle => task_state_idle
  | V_requeue => task_state_ready
  | V_finished => task_state_done
  end.

(** From [T] to [T'] the events [l] are taken off the queue, from its front. *)
Record flows (T T' : isc__task) (l : list isc_event) : Prop := {
  fl_queue : events T ++ posted T T' = l ++ events T';
  fl_shutting : TASK_SHUTTINGDOWN T = true -> TASK_SHUTTINGDOWN T' = true;
  fl_list : TASK_SHUTTINGDOWN T' = TASK_SHUTTINGDOWN T -> on_shutdown T' = on_shutdown T;
  fl_privilege : isc__task_privilege T' = isc__task_privilege T;
  fl_references : references T' = references T
}.

Lemma flows_same T T' l :
  events T = l ++ events T' -> flags T' = flags T -> on_shutdown T' = on_shutdown T ->
  references T' = references T -> flows T T' l.
Proof.
  intros H1 H2 H3 H4. assert (TASK_SHUTTINGDOWN T' = TASK_SHUTTINGDOWN T) as Hs.
  { unfold TASK_SHUTTINGDOWN. by rewrite H2. }
  split; [|congruence|done|unfold isc__task_privilege; by rewrite H2|done].
  unfold posted. rewrite Hs, andb_negb_r, app_nil_r. done.
Qed.

Lemma flows_trans T T1 T2 l k :
  flows T T1 l -> flows T1 T2 k -> flows T T2 (l ++ k).
Proof.
  intros [Q1 S1 L1 P1 R1] [Q2 S2 L2 P2 R2]. split; [|auto| |congruence|congruence].
  - rewrite <- app_assoc, <- Q2, app_assoc, <- Q1, <- app_assoc. f_equal. unfold posted.
    destruct (TASK_SHUTTINGDOWN T), (TASK_SHUTTINGDOWN T1), (TASK_SHUTTINGDOWN T2); cbn;
      rewrite ?app_nil_r; try done; try (by specialize (S1 eq_refl)); try (by specialize (S2 eq_refl)).
    by rewrite L1.
  - intros E. destruct (TASK_SHUTTINGDOWN T) eqn:E0, (TASK_SHUTTINGDOWN T1) eqn:E1;
      rewrite ?L2 by congruence; auto; try done.
    + by specialize (S1 eq_refl).
    + rewrite S2 in E by done. done.
Qed.

(** What is left to dispatch in a section: nothing is added to it but by the
    shutdown, whose events are counted from the start. *)
Definition backlog (T : isc__task) : nat := length (events T) + length (on_shutdown T).

Lemma task_running_shutdown T :
  task_ok T -> state T = task_state_running -> TASK_SHUTTINGDOWN T = false ->
  task_shutdown T = Done (shut T, false) /\ task_ok (shut T) /\ flows T (shut T) [] /\
  backlog (shut T) = backlog T.
Proof.
  intros HT Hr Hs. split_and!.
  - rewrite task_shutdown_spec by done. rewrite Hs.
    assert (in_state task_state_idle T = false) as -> by (apply in_state_false; congruence). done.
  - destruct (task_shutdown_ok T HT) as (T' & b & E & U & _).
    rewrite task_shutdown_spec in E by done. rewrite Hs in E.
    assert (in_state task_state_idle T = false) as Hi by (apply in_state_false; congruence).
    rewrite Hi in E. injection E as <- <-. apply U.
  - split; [|intros _; apply shut_shutting| | |done].
    + unfold posted. rewrite shut_shutting, Hs. done.
    + rewrite shut_shutting, Hs. done.
    + unfold isc__task_privilege. cbn. by rewrite privilege_shutting.
  - unfold backlog. cbn. rewrite length_app, length_rev. lia.
Qed.

(** The tests after an event: the loop goes on with a task that has events, or ends
    with a task in the state of the verdict. *)
Lemma dispatch_tests_ok T n :
  task_ok T -> state T = task_state_running -> exists T' v,
    dispatch_tests T n = Done (T', v) /\ task_ok T' /\ flows T T' [] /\ backlog T' = backlog T /\
    match v with
    | Some v => state T' = verdict_state v /\ (forall k, v <> V_action k)
    | None => state T' = task_state_running /\ events T' <> []
    end.
Proof.
  intros HT Hr. unfold dispatch_tests.
  assert (exists T1,
    (if (references T =? 0) && EMPTY (events T) && negb (TASK_SHUTTINGDOWN T)
     then let* (T', was_idle) := task_shutdown T in REQUIRE negb was_idle ;; Done T'
     else Done T) = Done T1 /\ task_ok T1 /\ flows T T1 [] /\ backlog T1 = backlog T /\
    state T1 = task_state_running /\
    (references T1 = 0 -> events T1 = [] -> TASK_SHUTTINGDOWN T1 = true))
    as (T1 & -> & HT1 & F1 & B1 & R1 & Z1).
  { destruct ((references T =? 0) && EMPTY (events T) && negb (TASK_SHUTTINGDOWN T)) eqn:E.
    - apply andb_true_iff in E as [_ E%negb_true_iff].
      destruct (task_running_shutdown T HT Hr E) as (-> & H1 & H2 & H3). cbn.
      exists (shut T). split_and!; try done. intros _ _. apply shut_shutting.
    - exists T. split_and!; try done; [by apply flows_same|]. intros H1 H2.
      rewrite H1, H2 in E. cbn in E. by apply negb_false_iff in E. }
  cbn [obind]. clear HT Hr. destruct (EMPTY (events T1)) eqn:Ee.
  - apply EMPTY_true in Ee. destruct ((references T1 =? 0) && TASK_SHUTTINGDOWN T1) eqn:Ed.
    + apply andb_true_iff in Ed as [Er%Z.eqb_eq Es]. eexists _, _. split; [done|]. split_and!; try done.
      * split; cbn; [lia|done|done|apply HT1|apply HT1].
      * eapply (flows_trans _ T1 _ [] []); [done|by apply flows_same].
    + eexists _, _. split; [done|]. split_and!; try done.
      * split; cbn; [apply HT1| |done|apply HT1|apply HT1].
        intros _. split; [done|]. pose proof (ok_references _ HT1).
        apply andb_false_iff in Ed as [Ed%Z.eqb_neq|Ed]; [lia|].
        destruct (decide (references T1 = 0)) as [E0|]; [|lia]. rewrite Z1 in Ed by done. done.
      * eapply (flows_trans _ T1 _ [] []); [done|by apply flows_same].
  - apply EMPTY_false in Ee. destruct (quantum T1 <=? n).
    + eexists _, _. split; [done|]. split_and!; try done.
      * split; cbn; [apply HT1|done|done|apply HT1|apply HT1].
      * eapply (flows_trans _ T1 _ [] []); [done|by apply flows_same].
    + eexists _, None. split; [done|]. split_and!; try done.
Qed.

(** A section ends well: the task is in the state of the verdict, and the events
    taken off the queue were at its front. *)
Definition section_ok (T : isc__task) (r : outcome dispatched) : Prop :=
  exists T' l v, r = Done (T', l, v) /\ task_ok T' /\ state T' = verdict_state v /\ flows T T' l.

Lemma set_events_running e q T :
  task_ok T -> state T = task_state_running -> events T = e :: q ->
  task_ok (set_events q T) /\ flows T (set_events q T) [e] /\ backlog T = S (backlog (set_events q T)).
Proof.
  intros HT Hr He. split_and!.
  - apply set_events_ok; [done|]. rewrite He. by apply sublist_cons.
  - by apply flows_same.
  - unfold backlog. cbn. by rewrite He.
Qed.

Lemma dispatch_after_ok again T n :
  task_ok T -> state T = task_state_running ->
  (forall T' k, task_ok T' -> state T' = task_state_running -> events T' <> [] ->
     backlog T' = backlog T -> section_ok T' (again T' k)) ->
  section_ok T (dispatch_after again T n).
Proof.
  intros HT Hr IH. unfold dispatch_after.
  destruct (dispatch_tests_ok T n HT Hr) as (T1 & v & -> & HT1 & F1 & B1 & Hv). cbn.
  destruct v as [v|].
  - exists T1, [], v. split_and!; try done. apply Hv.
  - destruct Hv as [S1 E1]. destruct (IH T1 n) as (T2 & l & v & -> & HT2 & S2 & F2); [done..|].
    exists T2, l, v. split_and!; try done. by apply (flows_trans _ T1 _ []).
Qed.

Lemma dispatch_events_ok fuel T n :
  task_ok T -> state T = task_state_running ->
  (backlog T + (if EMPTY (events T) then 1 else 0) < fuel)%nat ->
  section_ok T (dispatch_events fuel T n).
Proof.
  revert T n. induction fuel as [|fuel IH]; intros T n HT Hr Hf; [lia|]. cbn [dispatch_events].
  destruct (events T) as [|e q] eqn:Ee; cbn [EMPTY] in Hf.
  - apply dispatch_after_ok; [done..|]. intros T' k HT' Hr' He' Hb. apply IH; [done..|].
    apply EMPTY_false in He'. rewrite He', Hb. lia.
  - destruct (set_events_running e q T HT Hr Ee) as (H1 & F1 & B1). destruct (ev_action e).
    + eexists _, _, _. split; [done|]. by split_and!.
    + destruct (dispatch_after_ok (dispatch_events fuel) (set_events q T) (u32 (n + 1)) H1 Hr)
        as (T2 & l & v & -> & HT2 & S2 & F2).
      { intros T' k HT' Hr' He' Hb. apply IH; [done..|].
        apply EMPTY_false in He'. rewrite He', Hb. lia. }
      cbn. eexists _, _, _. split; [done|]. split_and!; try done.
      by apply (flows_trans _ (set_events q T) _ [e]).
Qed.

Lemma dispatch_return_ok T n :
  task_ok T -> state T = task_state_running -> section_ok T (dispatch_return T n).
Proof.
  intros HT Hr. apply dispatch_after_ok; [done..|]. intros T' k HT' Hr' He' Hb.
  apply dispatch_events_ok; [done..|]. apply EMPTY_false in He'. rewrite He', Hb.
  unfold dispatch_fuel, backlog. lia.
Qed.

Lemma dispatch_start_ok time T :
  task_ok T -> state T = task_state_ready -> section_ok T (dispatch_start time T).
Proof.
  intros HT Hr. unfold dispatch_start. rewrite require_true by (by apply in_state_spec). cbn [obind].
  set (T1 := set_now time (set_state task_state_running T)).
  assert (task_ok T1) as HT1.
  { split; cbn; [apply HT|done|done|apply HT|apply HT]. }
  destruct (dispatch_events_ok (dispatch_fuel T1) T1 0) as (T2 & l & v & -> & HT2 & S2 & F2);
    [done|done| |].
  { unfold dispatch_fuel, backlog. destruct (EMPTY (events T1)); lia. }
  exists T2, l, v. split_and!; try done.
  apply (flows_trans _ T1 _ [] l); [by apply flows_same|done].
Qed.
