(* ===== verification/TaskPlace.v ===== *)
(** * Where the tasks are

    A task that is not idle is in exactly one place: a call of [task_ready] in
    progress, the queue of ready tasks, or a worker.  [placed] is that invariant, with
    the lists of the manager, over an arbitrary list of places; each lemma is one of
    the changes that the steps of [Task] are made of. *)

From S2P Require Import Prelude Task TaskOps.

Definition place : Type := nat * task_state_t.

Record placed (s : gmap nat isc__task) (tl rl pl : list nat) (P : list place) (F : list nat)
    (ex : option nat) : Prop := {
  p_ok : forall t T, s !! t = Some T -> task_ok T;
  p_nodup : NoDup P.*1;
  p_state : forall t x, (t, x) ∈ P -> x <> task_state_idle /\ exists T, s !! t = Some T /\ state T = x;
  p_somewhere : forall t T, s !! t = Some T -> state T <> task_state_idle -> t ∈ P.*1;
  p_tasks : NoDup tl;
  p_listed : forall t, t ∈ tl <-> is_Some (s !! t) /\ t ∉ F;
  p_free : forall t, t ∈ F -> (t, task_state_done) ∈ P;
  p_ready : forall t, t ∈ rl -> (t, task_state_ready) ∈ P;
  p_queue : NoDup pl;
  p_priority : forall t, t ∈ pl <-> t ∈ rl /\ exists T, s !! t = Some T /\ isc__task_privilege T = true;
  p_excl : forall t, ex = Some t -> exists T, s !! t = Some T /\ 0 < references T
}.

Section Placed.
Context {s : gmap nat isc__task} {tl rl pl : list nat} {P : list place} {F : list nat} {ex : option nat}.
Context (H : placed s tl rl pl P F ex).

Lemma placed_perm P' F' : P ≡ₚ P' -> F ≡ₚ F' -> placed s tl rl pl P' F' ex.
Proof.
  intros EP EF. destruct H. split; try done.
  - by rewrite <- EP.
  - intros t x. rewrite <- EP. auto.
  - intros t T. rewrite <- EP. eauto.
  - intros t. rewrite <- EF. auto.
  - intros t. rewrite <- EF, <- EP. auto.
  - intros t. rewrite <- EP. auto.
Qed.

(** The state of a placed task is that of its place. *)
Lemma placed_at t T x : s !! t = Some T -> (t, x) ∈ P -> state T = x.
Proof. intros E Hp. destruct (p_state _ _ _ _ _ _ _ H _ _ Hp) as (_ & T' & E' & <-). congruence. Qed.

Lemma placed_idle t T : s !! t = Some T -> state T = task_state_idle -> t ∉ P.*1.
Proof.
  intros E Hi ([t' x] & -> & Hp)%list_elem_of_fmap.
  destruct (p_state _ _ _ _ _ _ _ H _ _ Hp) as (Hx & T' & E' & <-). cbn in *. congruence.
Qed.

Lemma placed_here t T : s !! t = Some T -> state T <> task_state_idle -> (t, state T) ∈ P.
Proof.
  intros E Hi. destruct (proj1 (list_elem_of_fmap _ _ _) (p_somewhere _ _ _ _ _ _ _ H _ _ E Hi))
    as ([t' x] & -> & Hp). by rewrite (placed_at _ _ _ E Hp).
Qed.

Lemma placed_not_free t T : s !! t = Some T -> state T <> task_state_done -> t ∉ F.
Proof.
  intros E Hd HF. apply (p_free _ _ _ _ _ _ _ H) in HF. by rewrite (placed_at _ _ _ E HF) in Hd.
Qed.

Lemma placed_not_ready t T : s !! t = Some T -> state T <> task_state_ready -> t ∉ rl.
Proof.
  intros E Hd HF. apply (p_ready _ _ _ _ _ _ _ H) in HF. by rewrite (placed_at _ _ _ E HF) in Hd.
Qed.

(** The priority queue does not change with a task whose flag does not. *)
Lemma placed_priority t T T' t' :
  s !! t = Some T -> isc__task_privilege T' = isc__task_privilege T ->
  t' ∈ pl <-> t' ∈ rl /\ exists T1, <[t := T']> s !! t' = Some T1 /\ isc__task_privilege T1 = true.
Proof.
  intros E Hp. rewrite (p_priority _ _ _ _ _ _ _ H t'). destruct (decide (t = t')) as [<-|Hne].
  - rewrite lookup_insert_eq, E. split; intros (Hr & T1 & [= <-] & HT); (split; [done|]).
    + exists T'. split; [done|congruence].
    + exists T. split; [done|congruence].
  - by rewrite lookup_insert_ne by done.
Qed.

Lemma placed_dom t T T' t' : s !! t = Some T -> is_Some (<[t := T']> s !! t') <-> is_Some (s !! t').
Proof.
  intros E. destruct (decide (t = t')) as [<-|Hne].
  - rewrite lookup_insert_eq, E. split; eauto.
  - by rewrite lookup_insert_ne by done.
Qed.

Lemma placed_excl t T T' :
  s !! t = Some T -> (ex = Some t -> 0 < references T') ->
  forall t', ex = Some t' -> exists T1, <[t := T']> s !! t' = Some T1 /\ 0 < references T1.
Proof.
  intros E He t' Ht. destruct (decide (t = t')) as [<-|Hne].
  - exists T'. rewrite lookup_insert_eq. auto.
  - rewrite lookup_insert_ne by done. by apply H.
Qed.

Lemma placed_all_ok t T' :
  task_ok T' -> forall t' T1, <[t := T']> s !! t' = Some T1 -> task_ok T1.
Proof.
  intros HT' t' T1 [[-> <-]|[_ E]]%lookup_insert_Some; [done|]. by apply (p_ok _ _ _ _ _ _ _ H t').
Qed.

(** A routine of the interface changed the task; a task that was idle is now in a
    call of [task_ready]. *)
Lemma placed_update t T T' (idle : bool) :
  s !! t = Some T -> updates T T' idle -> (ex = Some t -> 0 < references T') ->
  placed (<[t := T']> s) tl rl pl (if idle then (t, task_state_ready) :: P else P) F ex.
Proof.
  intros E [Hok Hp Hs] He. split.
  - by apply placed_all_ok.
  - destruct idle; [|apply H]. cbn. apply NoDup_cons_2; [|apply H]. by apply (placed_idle t T), Hs.
  - intros t' x Hx. destruct (decide (t = t')) as [<-|Hne].
    + rewrite lookup_insert_eq. destruct idle.
      * apply elem_of_cons in Hx as [[= ->]|Hx].
        -- split; [done|]. exists T'. split; [done|apply Hs].
        -- destruct (placed_idle t T E (proj1 Hs)). apply list_elem_of_fmap. by exists (t, x).
      * destruct (p_state _ _ _ _ _ _ _ H _ _ Hx) as (Hn & _). split; [done|]. exists T'. split; [done|].
        rewrite Hs. by apply placed_at with t.
    + rewrite lookup_insert_ne by done.
      assert ((t', x) ∈ P) as Hx'.
      { destruct idle; [|done]. apply elem_of_cons in Hx as [[= -> _]|Hx]; done. }
      by apply H.
  - intros t' T1 [[<- <-]|[Hne E1]]%lookup_insert_Some Hi.
    + destruct idle; [left|]. rewrite Hs in Hi. by eapply p_somewhere.
    + assert (t' ∈ P.*1) by (by eapply p_somewhere). destruct idle; [right|]; done.
  - apply H.
  - intros t'. rewrite placed_dom by done. apply H.
  - intros t' Ht. apply (p_free _ _ _ _ _ _ _ H) in Ht. destruct idle; [right|]; done.
  - intros t' Ht. apply (p_ready _ _ _ _ _ _ _ H) in Ht. destruct idle; [right|]; done.
  - apply H.
  - intros t'. by apply placed_priority with T.
  - by apply placed_excl with T.
Qed.

(** A worker's section: the task is in the place of the worker and goes to the place
    of its new state, or to none when it is idle. *)
Lemma placed_section t T T' P0 :
  s !! t = Some T -> P ≡ₚ (t, state T) :: P0 -> state T <> task_state_done -> t ∉ rl ->
  task_ok T' -> isc__task_privilege T' = isc__task_privilege T -> references T' = references T ->
  placed (<[t := T']> s) tl rl pl
    (if decide (state T' = task_state_idle) then P0 else (t, state T') :: P0) F ex.
Proof.
  intros E EP Hd Hrl Hok Hp Hr.
  pose proof (p_nodup _ _ _ _ _ _ _ H) as Hn. rewrite EP in Hn. cbn in Hn.
  apply NoDup_cons in Hn as [Hn0 Hn].
  assert (forall t' x, t' <> t -> (t', x) ∈ P -> (t', x) ∈ P0) as Hin.
  { intros t' x Hne. rewrite EP, elem_of_cons. intros [[= -> _]|?]; done. }
  assert (forall x : place, x ∈ P0 -> x ∈ if decide (state T' = task_state_idle) then P0
            else (t, state T') :: P0) as Hsub.
  { intros x Hx. case_decide; [done|by right]. }
  split.
  - by apply placed_all_ok.
  - case_decide; [done|]. by apply NoDup_cons_2.
  - intros t' x Hx. destruct (decide (t = t')) as [<-|Hne].
    + rewrite lookup_insert_eq. case_decide.
      * destruct Hn0. apply list_elem_of_fmap. by exists (t, x).
      * apply elem_of_cons in Hx as [[= ->]|Hx].
        -- split; [done|]. by exists T'.
        -- destruct Hn0. apply list_elem_of_fmap. by exists (t, x).
    + rewrite lookup_insert_ne by done. apply H. rewrite EP. right.
      case_decide; [done|]. apply elem_of_cons in Hx as [[= -> _]|Hx]; done.
  - intros t' T1 [[<- <-]|[Hne E1]]%lookup_insert_Some Hi.
    + rewrite decide_False by done. left.
    + assert (t' ∈ P0.*1).
      { pose proof (p_somewhere _ _ _ _ _ _ _ H _ _ E1 Hi) as Hx. rewrite EP in Hx.
        apply elem_of_cons in Hx as [->|?]; done. }
      case_decide; [done|by right].
  - apply H.
  - intros t'. rewrite placed_dom by done. apply H.
  - intros t' Ht. apply Hsub, Hin; [|by apply H].
    intros ->. by apply (placed_not_free _ _ E Hd).
  - intros t' Ht. apply Hsub, Hin; [|by apply H]. by intros ->.
  - apply H.
  - intros t'. by apply placed_priority with T.
  - apply placed_excl with T; [done|]. intros Ht. rewrite Hr.
    destruct (p_excl _ _ _ _ _ _ _ H _ Ht) as (T1 & E1 & ?). congruence.
Qed.

(** [push_readyq] of a task that is on its way to the queue. *)
Lemma placed_push t T :
  s !! t = Some T -> (t, task_state_ready) ∈ P -> t ∉ rl ->
  t ∉ pl /\
  placed s tl (rl ++ [t]) (if isc__task_privilege T then pl ++ [t] else pl) P F ex.
Proof.
  intros E Hp Hr. assert (t ∉ pl) as Hpl by (rewrite (p_priority _ _ _ _ _ _ _ H); tauto).
  split; [done|]. split; try apply H.
  - intros t' [Ht|Ht%list_elem_of_singleton]%elem_of_app; [by apply H|by subst].
  - destruct (isc__task_privilege T); [|apply H]. apply NoDup_app. split_and!; [apply H| |apply NoDup_singleton].
    intros x Hx Hx'%list_elem_of_singleton. by subst.
  - intros t'. destruct (isc__task_privilege T) eqn:Ep.
    + rewrite !elem_of_app, !list_elem_of_singleton, (p_priority _ _ _ _ _ _ _ H).
      naive_solver.
    + rewrite !elem_of_app, !list_elem_of_singleton, (p_priority _ _ _ _ _ _ _ H).
      split; [naive_solver|]. intros [[? | ->] (T1 & ? & ?)]; [eauto|congruence].
Qed.

(** [pop_readyq] *)
Lemma placed_pop t :
  t ∈ rl -> placed s tl (filter (fun x => x <> t) rl) (filter (fun x => x <> t) pl) P F ex.
Proof.
  intros Ht. split; try apply H.
  - intros t' [_ Ht']%list_elem_of_filter. by apply H.
  - apply NoDup_filter, H.
  - intros t'. rewrite !list_elem_of_filter, (p_priority _ _ _ _ _ _ _ H). tauto.
Qed.

(** [isc__task_create] *)
Lemma placed_create t T :
  s !! t = None -> T = new_task (quantum T) -> placed (<[t := T]> s) (tl ++ [t]) rl pl P F ex.
Proof.
  intros E HT.
  assert (forall x, (t, x) ∉ P) as Hno.
  { intros x Hx. destruct (p_state _ _ _ _ _ _ _ H _ _ Hx) as (_ & T' & E' & _). congruence. }
  assert (t ∉ tl) as Htl.
  { rewrite (p_listed _ _ _ _ _ _ _ H), E. intros [[? ?] _]. done. }
  split; try apply H.
  - apply placed_all_ok. rewrite HT. apply new_task_ok.
  - intros t' x Hx. destruct (decide (t = t')) as [<-|Hne]; [by destruct (Hno x)|].
    rewrite lookup_insert_ne by done. by apply H.
  - intros t' T1 [[<- <-]|[Hne E1]]%lookup_insert_Some Hi; [by rewrite HT in Hi|].
    by eapply p_somewhere.
  - apply NoDup_app. split_and!; [apply H| |apply NoDup_singleton].
    intros x Hx Hx'%list_elem_of_singleton. by subst.
  - intros t'. rewrite elem_of_app, list_elem_of_singleton, (p_listed _ _ _ _ _ _ _ H).
    destruct (decide (t = t')) as [<-|Hne].
    + rewrite lookup_insert_eq. split; [|naive_solver]. intros _. split; [done|].
      intros HF. by apply (Hno task_state_done), H.
    + rewrite lookup_insert_ne by done. naive_solver.
  - intros t'. rewrite (p_priority _ _ _ _ _ _ _ H t'). destruct (decide (t = t')) as [<-|Hne].
    + rewrite E, lookup_insert_eq. split; [by intros (_ & ? & ? & _)|].
      intros (Hr & _). by destruct (Hno task_state_ready); apply H.
    + by rewrite lookup_insert_ne by done.
  - intros t' Ht. destruct (p_excl _ _ _ _ _ _ _ H _ Ht) as (T1 & E1 & ?).
    exists T1. split; [|done]. rewrite lookup_insert_ne by congruence. done.
Qed.

(** [task_finished]: the task leaves the list of the manager, and then the store. *)
Lemma placed_finished t :
  (t, task_state_done) ∈ P -> t ∉ F ->
  t ∈ tl /\ placed s (filter (fun x => x <> t) tl) rl pl P (t :: F) ex.
Proof.
  intros Ht HF. destruct (p_state _ _ _ _ _ _ _ H _ _ Ht) as (_ & T & E & _).
  split; [rewrite (p_listed _ _ _ _ _ _ _ H); eauto|]. split; try apply H.
  - apply NoDup_filter, H.
  - intros t'. rewrite list_elem_of_filter, (p_listed _ _ _ _ _ _ _ H), not_elem_of_cons. tauto.
  - intros t' [->|?]%elem_of_cons; [done|]. by apply H.
Qed.

Lemma placed_freed t P0 F0 :
  P ≡ₚ (t, task_state_done) :: P0 -> F ≡ₚ t :: F0 -> t ∉ F0 ->
  is_Some (s !! t) /\ placed (delete t s) tl rl pl P0 F0 ex.
Proof.
  intros EP EF HF0. pose proof (p_nodup _ _ _ _ _ _ _ H) as Hn. rewrite EP in Hn. cbn in Hn.
  apply NoDup_cons in Hn as [Hn0 Hn].
  destruct (p_state _ _ _ _ _ _ _ H t task_state_done) as (_ & T & E & Hd); [rewrite EP; left|].
  split; [done|].
  assert (forall x, (t, x) ∉ P0) as Hno.
  { intros x Hx. destruct Hn0. apply list_elem_of_fmap. by exists (t, x). }
  assert (forall t' x, t' <> t -> (t', x) ∈ P -> (t', x) ∈ P0) as Hin.
  { intros t' x Hne. rewrite EP, elem_of_cons. intros [[= -> _]|?]; done. }
  assert (t ∉ rl) as Hrl by (apply (placed_not_ready t T); congruence).
  split; try apply H.
  - intros t' T1 [_ E1]%lookup_delete_Some. by apply (p_ok _ _ _ _ _ _ _ H t').
  - done.
  - intros t' x Hx. rewrite lookup_delete_ne by (intros <-; by apply (Hno x)).
    apply H. rewrite EP. by right.
  - intros t' T1 [Hne E1]%lookup_delete_Some Hi.
    pose proof (p_somewhere _ _ _ _ _ _ _ H _ _ E1 Hi) as Hx. rewrite EP in Hx.
    apply elem_of_cons in Hx as [->|?]; done.
  - intros t'. rewrite (p_listed _ _ _ _ _ _ _ H), EF, not_elem_of_cons.
    destruct (decide (t = t')) as [<-|Hne].
    + rewrite lookup_delete_eq. split; [tauto|]. by intros [[? ?] _].
    + rewrite lookup_delete_ne by done. split; [tauto|]. intros [? ?]. split; [done|]. split; [congruence|done].
  - intros t' Ht. apply Hin; [|apply H; rewrite EF; by right]. intros ->. done.
  - intros t' Ht. apply Hin; [|by apply H]. intros ->. done.
  - intros t'. rewrite (p_priority _ _ _ _ _ _ _ H). split.
    + intros (Hr & T1 & E1 & ?). split; [done|]. exists T1. rewrite lookup_delete_ne; [done|].
      intros ->. done.
    + intros (Hr & T1 & [_ E1]%lookup_delete_Some & ?). eauto.
  - intros t' Ht. destruct (p_excl _ _ _ _ _ _ _ H _ Ht) as (T1 & E1 & Hr).
    exists T1. split; [|done]. rewrite lookup_delete_ne; [done|]. intros <-.
    rewrite E1 in E. injection E as ->. apply (p_ok _ _ _ _ _ _ _ H) in E1.
    apply (ok_done _ E1) in Hd. lia.
Qed.

(** [isc__task_setprivilege]; [pl'] is the priority queue after it. *)
Lemma placed_privilege t T T' pl' :
  s !! t = Some T -> task_ok T' -> state T' = state T -> references T' = references T ->
  NoDup pl' ->
  (forall t', t' ∈ pl' <-> if decide (t' = t) then t ∈ rl /\ isc__task_privilege T' = true else t' ∈ pl) ->
  placed (<[t := T']> s) tl rl pl' P F ex.
Proof.
  intros E Hok Hs Hr Hnd Hpl. split; try apply H; try done.
  - by apply placed_all_ok.
  - intros t' x Hx. destruct (p_state _ _ _ _ _ _ _ H _ _ Hx) as (Hn & T1 & E1 & Hx1).
    split; [done|]. destruct (decide (t = t')) as [<-|Hne].
    + exists T'. rewrite lookup_insert_eq. split; [done|congruence].
    + exists T1. by rewrite lookup_insert_ne by done.
  - intros t' T1 [[<- <-]|[Hne E1]]%lookup_insert_Some Hi.
    + rewrite Hs in Hi. by eapply p_somewhere.
    + by eapply p_somewhere.
  - intros t'. rewrite placed_dom by done. apply H.
  - intros t'. rewrite Hpl. case_decide as Hd.
    + subst. rewrite lookup_insert_eq. naive_solver.
    + rewrite lookup_insert_ne by done. apply H.
  - apply placed_excl with T; [done|]. intros Ht. rewrite Hr.
    destruct (p_excl _ _ _ _ _ _ _ H _ Ht) as (T1 & E1 & ?). congruence.
Qed.

Lemma placed_set_excl ex' :
  (forall t, ex' = Some t -> exists T, s !! t = Some T /\ 0 < references T) ->
  placed s tl rl pl P F ex'.
Proof. intros He. destruct H. by split. Qed.

End Placed.
