(* ===== verification/TaskSystem.v ===== *)
(** * The invariant of the task system

    [inv] combines the places of the tasks ([TaskPlace]) with the counters and flags
    of the manager, which are related to the numbers of workers at certain points of
    their code ([control]).  [good] is what every step does: it keeps the invariant,
    moves events through the queues in order, does not lose a wake-up, and wakes no
    caller of [isc__taskmgr_pause]. *)

From S2P Require Import Prelude Task TaskOps TaskPlace.

(** ** Counting workers *)

Definition count (p : worker_pc -> bool) (ws : list worker_pc) : nat :=
  length (filter (fun pc => p pc = true) ws).
#[global] Arguments count : simpl never.

(** Between taking a task and giving it back *)
Definition busy (pc : worker_pc) : bool :=
  match pc with W_start | W_wait | W_wake | W_exit => false | _ => true end.
Definition sleeping (pc : worker_pc) : bool := match pc with W_wait => true | _ => false end.
Definition exited (pc : worker_pc) : bool := match pc with W_exit => true | _ => false end.
(** Holding exclusive access, asleep for it, woken to test again *)
Definition granted (pc : worker_pc) : bool := match pc with W_action _ _ true => true | _ => false end.
Definition exclwaiting (pc : worker_pc) : bool := match pc with W_exclwait _ _ => true | _ => false end.
Definition exclwoken (pc : worker_pc) : bool := match pc with W_exclwake _ _ => true | _ => false end.
(** Able to move without being woken *)
Definition awake (pc : worker_pc) : bool :=
  negb (sleeping pc || exited pc || exclwaiting pc).

Lemma count_cons p pc ws : count p (pc :: ws) = ((if p pc then 1 else 0) + count p ws)%nat.
Proof. unfold count. rewrite filter_cons. destruct (p pc); done. Qed.

Lemma count_insert p ws w pc pc' :
  ws !! w = Some pc ->
  (count p (<[w := pc']> ws) + (if p pc then 1 else 0) = count p ws + (if p pc' then 1 else 0))%nat.
Proof.
  revert w. induction ws as [|x ws IH]; intros [|w] E; [done..| |].
  - injection E as ->. change (<[0%nat := pc']> (pc :: ws)) with (pc' :: ws). rewrite !count_cons. lia.
  - change (<[S w := pc']> (x :: ws)) with (x :: <[w := pc']> ws). rewrite !count_cons.
    specialize (IH w E). lia.
Qed.

Lemma count_le (p q : worker_pc -> bool) ws : (forall pc, p pc = true -> q pc = true) -> (count p ws <= count q ws)%nat.
Proof.
  intros Hpq. induction ws as [|x ws IH]; [done|]. rewrite !count_cons. specialize (Hpq x).
  destruct (p x), (q x); try lia; by specialize (Hpq eq_refl).
Qed.

Lemma count_add (p q r : worker_pc -> bool) ws :
  (forall pc, (if p pc then 1 else 0) <= (if q pc then 1 else 0) + (if r pc then 1 else 0))%nat ->
  (count p ws <= count q ws + count r ws)%nat.
Proof.
  intros Hp. induction ws as [|x ws IH]; [unfold count; cbn; lia|]. rewrite !count_cons. specialize (Hp x). lia.
Qed.

Lemma count_map (p : worker_pc -> bool) f ws : (forall pc, p (f pc) = p pc) -> count p (map f ws) = count p ws.
Proof.
  intros Hf. induction ws as [|x ws IH]; [done|]. cbn [map]. by rewrite !count_cons, IH, Hf.
Qed.

Lemma count_pos p ws pc : pc ∈ ws -> p pc = true -> (0 < count p ws)%nat.
Proof.
  intros (ws1 & ws2 & ->)%list_elem_of_split Hp. unfold count.
  rewrite filter_app, length_app, filter_cons_True by done. cbn. lia.
Qed.

Lemma count_zero p ws pc : count p ws = 0%nat -> pc ∈ ws -> p pc = false.
Proof. intros Hc Hin. destruct (p pc) eqn:E; [|done]. pose proof (count_pos _ _ _ Hin E). lia. Qed.

Lemma count_witness p ws : (0 < count p ws)%nat -> exists w pc, ws !! w = Some pc /\ p pc = true.
Proof.
  unfold count. intros H. destruct (filter (fun pc => p pc = true) ws) as [|pc l] eqn:E; [cbn in H; lia|].
  assert (pc ∈ filter (fun pc => p pc = true) ws) as Hin by (rewrite E; left).
  apply list_elem_of_filter in Hin as [Hp (w & Hw)%list_elem_of_lookup]. eauto.
Qed.

Lemma count_length p ws : (count p ws <= length ws)%nat.
Proof. apply length_filter. Qed.

Lemma wake_wake p ws :
  (forall pc, p (wake pc) = p pc) -> count p (broadcast ws) = count p ws.
Proof. apply count_map. Qed.

Lemma broadcast_sleeping ws : count sleeping (broadcast ws) = 0%nat.
Proof. induction ws as [|x ws IH]; [done|]. cbn [broadcast map]. rewrite count_cons. by destruct x. Qed.

(** A signal moves one sleeping worker. *)
Lemma signal_shape who ws :
  signal who ws = ws /\ count sleeping ws = 0%nat \/
  exists w, ws !! w = Some W_wait /\ signal who ws = <[w := W_wake]> ws.
Proof.
  assert (signal_first ws = ws /\ count sleeping ws = 0%nat \/
    exists w, ws !! w = Some W_wait /\ signal_first ws = <[w := W_wake]> ws) as Hf.
  { clear who. induction ws as [|x ws IH]; [by left|]. destruct (decide (x = W_wait)) as [->|Hx].
    - right. by exists 0%nat.
    - assert (signal_first (x :: ws) = x :: signal_first ws) as -> by (by destruct x).
      rewrite count_cons. assert (sleeping x = false) as -> by (by destruct x).
      destruct IH as [[-> ->]|(w & Hw & ->)]; [by left|]. right. by exists (S w). }
  unfold signal. destruct (ws !! who) as [[]|] eqn:E; try exact Hf. right. by exists who.
Qed.

Lemma signal_exclusive_shape ws :
  signal_exclusive ws = ws /\ count exclwaiting ws = 0%nat \/
  exists w t n, ws !! w = Some (W_exclwait t n) /\ signal_exclusive ws = <[w := W_exclwake t n]> ws.
Proof.
  induction ws as [|x ws IH]; [by left|]. destruct (exclwaiting x) eqn:Ex.
  - right. destruct x; try done. by eexists 0%nat, _, _.
  - assert (signal_exclusive (x :: ws) = x :: signal_exclusive ws) as -> by (by destruct x).
    rewrite count_cons, Ex. destruct IH as [[-> ->]|(w & t & n & Hw & ->)]; [by left|].
    right. by exists (S w), t, n.
Qed.

(** ** The counters and flags of the manager *)

Record control (m : isc__taskmgr) (ws : list worker_pc) : Prop := {
  c_running : tasks_running m = Z.of_nat (count busy ws);
  c_small : Zlen ws < 2 ^ 32;
  c_some : (0 < length ws)%nat;
  c_pause : pause_requested m = true -> count busy ws = 0%nat;
  c_exclusive : (count granted ws + count exclwaiting ws + count exclwoken ws
                 = if exclusive_requested m then 1 else 0)%nat;
  c_granted : (0 < count granted ws)%nat -> count busy ws = 1%nat;
  c_waiting : (0 < count exclwaiting ws)%nat -> (1 < count busy ws)%nat;
  c_exit : (0 < count exited ws)%nat -> FINISHED m = true;
  c_finished : FINISHED m = true -> count sleeping ws = 0%nat
}.

(** No wake-up is lost: when a worker may take a task, one is awake; and privileged
    mode does not outlive the work it is for. *)
Record wakeful (m : isc__taskmgr) (ws : list worker_pc) : Prop := {
  w_work : pause_requested m = false -> exclusive_requested m = false -> readyq m <> [] ->
    (0 < count awake ws)%nat;
  w_mode : mode m = isc_taskmgrmode_privileged ->
    (0 < count busy ws)%nat \/ ready_priority_tasks m <> []
}.

Lemma control_ext m m' ws :
  tasks_running m' = tasks_running m -> pause_requested m' = pause_requested m ->
  exclusive_requested m' = exclusive_requested m -> FINISHED m' = FINISHED m ->
  control m ws -> control m' ws.
Proof. intros E1 E2 E3 E4 []. split; by rewrite ?E1, ?E2, ?E3, ?E4. Qed.

Lemma wakeful_ext m m' ws :
  pause_requested m' = pause_requested m -> exclusive_requested m' = exclusive_requested m ->
  mode m' = mode m -> ready_tasks m' = ready_tasks m ->
  ready_priority_tasks m' = ready_priority_tasks m -> wakeful m ws -> wakeful m' ws.
Proof.
  intros E1 E2 E3 E4 E5 []. unfold readyq in *. split; unfold readyq; by rewrite ?E1, ?E2, ?E3, ?E4, ?E5.
Qed.

(** ** Places *)

Definition pc_place (pc : worker_pc) : option place :=
  match pc with
  | W_popped t | W_end (Some t) => Some (t, task_state_ready)
  | W_action t _ _ | W_exclwait t _ | W_exclwake t _ => Some (t, task_state_running)
  | W_finished t | W_free t => Some (t, task_state_done)
  | _ => None
  end.

Definition pc_free (pc : worker_pc) : option nat := match pc with W_free t => Some t | _ => None end.

Definition ready_place (t : nat) : place := (t, task_state_ready).

Definition places (st : system) : list place :=
  map (fun c => ready_place c.1) (calls st) ++ map ready_place (ready_tasks (manager st))
  ++ omap pc_place (workers st).

Definition frees (st : system) : list nat := omap pc_free (workers st).

Record inv (st : system) : Prop := {
  i_placed : placed (store st) (tasks (manager st)) (ready_tasks (manager st))
    (ready_priority_tasks (manager st)) (places st) (frees st) (excl (manager st));
  i_control : control (manager st) (workers st);
  i_freed : freed st = true -> count exited (workers st) = length (workers st)
}.

Lemma omap_insert {A} (f : worker_pc -> option A) ws w pc :
  ws !! w = Some pc -> exists rest,
    omap f ws ≡ₚ option_list (f pc) ++ rest /\
    forall pc', omap f (<[w := pc']> ws) ≡ₚ option_list (f pc') ++ rest.
Proof.
  intros E. apply list_elem_of_split_length in E as (l1 & l2 & -> & ->).
  exists (omap f l1 ++ omap f l2). split.
  - rewrite omap_app. cbn. destruct (f pc); cbn; [|done]. by rewrite Permutation_middle.
  - intros pc'. rewrite insert_app_r_alt by lia. rewrite Nat.sub_diag. cbn.
    rewrite omap_app. cbn. destruct (f pc'); cbn; [|done]. by rewrite Permutation_middle.
Qed.

Lemma omap_broadcast {A} (f : worker_pc -> option A) ws :
  (forall pc, f (wake pc) = f pc) -> omap f (broadcast ws) = omap f ws.
Proof.
  intros Hf. induction ws as [|x ws IH]; [done|]. cbn. rewrite Hf. unfold broadcast in IH. cbn in IH.
  by rewrite IH.
Qed.

(** Changing a program counter to one at the same place *)
Lemma omap_same {A} (f : worker_pc -> option A) ws w pc pc' :
  ws !! w = Some pc -> f pc' = f pc -> omap f (<[w := pc']> ws) ≡ₚ omap f ws.
Proof. intros E Hf. destruct (omap_insert f _ _ _ E) as (r & -> & H). by rewrite H, Hf. Qed.

(** ** What a step does *)

Definition sent (t : nat) (o : list obs) : list isc_event :=
  omap (fun x => match x with Sent t' e => if (t' =? t)%nat then Some e else None | _ => None end) o.
Definition ran (t : nat) (o : list obs) : list isc_event :=
  omap (fun x => match x with Ran t' e => if (t' =? t)%nat then Some e else None | _ => None end) o.
Definition removed (t : nat) (o : list obs) : list isc_event :=
  omap (fun x => match x with Removed t' e => if (t' =? t)%nat then Some e else None | _ => None end) o.

(** The queue of a task; a task that is not there has none. *)
Definition queue (st : system) (t : nat) : list isc_event :=
  match store st !! t with Some T => events T | None => [] end.

(** The events of [o] pass through the queue of the task in order, and none is lost: what was
    on the queue or put on it has run, was removed, or is on the queue still. *)
Record passes (t : nat) (q q' : list isc_event) (o : list obs) : Prop := {
  ps_order : ran t o ++ q' `sublist_of` q ++ sent t o;
  ps_all : removed t o ++ ran t o ++ q' ≡ₚ q ++ sent t o
}.

Record good (st : system) (l : label) (st' : system) (o : list obs) : Prop := {
  g_inv : inv st';
  g_queue : forall t, passes t (queue st t) (queue st' t) o;
  g_wake : inside l = true -> wakeful (manager st) (workers st) -> wakeful (manager st') (workers st');
  g_pause : forall p, p ∈ pausing st -> l <> C_spurious p -> p ∈ pausing st'
}.

Lemma sent_app t o o' : sent t (o ++ o') = sent t o ++ sent t o'.
Proof. apply omap_app. Qed.
Lemma ran_app t o o' : ran t (o ++ o') = ran t o ++ ran t o'.
Proof. apply omap_app. Qed.
Lemma removed_app t o o' : removed t (o ++ o') = removed t o ++ removed t o'.
Proof. apply omap_app. Qed.

Lemma passes_trans t q q1 q2 o o' :
  passes t q q1 o -> passes t q1 q2 o' -> passes t q q2 (o ++ o').
Proof.
  intros [O1 E1] [O2 E2]. split; rewrite ?ran_app, ?sent_app, ?removed_app, <- ?app_assoc.
  - etrans; [apply sublist_app; [done|exact O2]|]. rewrite !app_assoc. by apply sublist_app.
  - rewrite (Permutation_app_swap_app (removed t o') (ran t o)), E2, !app_assoc. f_equiv.
    by rewrite <- app_assoc.
Qed.

Lemma sublist_full {A} (l k : list A) : l `sublist_of` k -> length l = length k -> l = k.
Proof.
  induction 1 as [|x l k _ IH|x l k H _]; cbn; intros E; [done|f_equal; apply IH; lia|].
  apply sublist_length in H. lia.
Qed.

(** When none was removed, they are all of them, in order. *)
Lemma passes_exact t q q' o : passes t q q' o -> removed t o = [] -> ran t o ++ q' = q ++ sent t o.
Proof.
  intros [H1 H2] E. rewrite E in H2. cbn in H2. apply Permutation_length in H2. by apply sublist_full.
Qed.

Lemma passes_refl t q : passes t q q [].
Proof. split; cbn; by rewrite app_nil_r. Qed.

Lemma passes_only t t' (f : nat -> isc_event -> obs) l :
  f = Sent \/ f = Ran \/ f = Removed -> t <> t' ->
  sent t (f t' <$> l) = [] /\ ran t (f t' <$> l) = [] /\ removed t (f t' <$> l) = [].
Proof.
  intros Hf Hne. assert ((t' =? t)%nat = false) as E by (by apply Nat.eqb_neq).
  induction l as [|e l IH]; [done|]. destruct IH as (H1 & H2 & H3).
  destruct Hf as [->|[->| ->]]; cbn in *; rewrite ?E; by split_and!.
Qed.

Lemma passes_here t l :
  (sent t (Sent t <$> l) = l /\ ran t (Sent t <$> l) = [] /\ removed t (Sent t <$> l) = []) /\
  (sent t (Ran t <$> l) = [] /\ ran t (Ran t <$> l) = l /\ removed t (Ran t <$> l) = []) /\
  (sent t (Removed t <$> l) = [] /\ ran t (Removed t <$> l) = [] /\ removed t (Removed t <$> l) = l).
Proof.
  induction l as [|e l IH]; [done|]. destruct IH as ((H1&H2&H3)&(H4&H5&H6)&(H7&H8&H9)).
  cbn in *. rewrite !Nat.eqb_refl. split_and!; by try f_equal.
Qed.

(** One task changed, and the events observed are its own. *)
Lemma passes_put st t T T' snt rn rm t' :
  store st !! t = Some T ->
  rn ++ events T' `sublist_of` events T ++ snt ->
  rm ++ rn ++ events T' ≡ₚ events T ++ snt ->
  passes t' (queue st t') (queue (put t T' st) t')
    ((Sent t <$> snt) ++ (Ran t <$> rn) ++ (Removed t <$> rm)).
Proof.
  intros E Ho Hx. unfold queue. cbn. destruct (decide (t' = t)) as [->|Hne].
  - rewrite lookup_insert_eq, E. cbn.
    destruct (passes_here t snt) as ((S1&S2&S3)&_&_), (passes_here t rn) as (_&(R1&R2&R3)&_),
      (passes_here t rm) as (_&_&(M1&M2&M3)).
    split; rewrite ?sent_app, ?ran_app, ?removed_app; rewrite ?S1, ?S2, ?S3, ?R1, ?R2, ?R3, ?M1, ?M2, ?M3;
      cbn; rewrite ?app_nil_r; done.
  - rewrite lookup_insert_ne by done.
    destruct (passes_only t' t Sent snt) as (S1&S2&S3); [auto|done|].
    destruct (passes_only t' t Ran rn) as (R1&R2&R3); [auto|done|].
    destruct (passes_only t' t Removed rm) as (M1&M2&M3); [auto|done|].
    split; rewrite ?sent_app, ?ran_app, ?removed_app; rewrite ?S1, ?S2, ?S3, ?R1, ?R2, ?R3, ?M1, ?M2, ?M3;
      cbn; rewrite ?app_nil_r; done.
Qed.

Lemma passes_same st st' :
  (forall t, queue st' t = queue st t) -> forall t, passes t (queue st t) (queue st' t) [].
Proof. intros H t. rewrite H. apply passes_refl. Qed.

(** What a part of a step under the manager lock keeps, when it observes nothing. *)
Record quiet (st st' : system) : Prop := {
  q_inv : inv st';
  q_queue : forall t, queue st' t = queue st t;
  q_pausing : pausing st' = pausing st
}.

Lemma quiet_trans st st1 st2 : quiet st st1 -> quiet st1 st2 -> quiet st st2.
Proof. intros [] []. split; [done| |congruence]. intros t. by rewrite q_queue1. Qed.

Lemma quiet_good st l st' :
  quiet st st' -> (wakeful (manager st) (workers st) -> wakeful (manager st') (workers st')) ->
  good st l st' [].
Proof. intros [H1 H2 H3] Hw. split; [done|by apply passes_same|auto|]. intros p Hp _. by rewrite H3. Qed.

(** ** Routines of the interface that change one task *)

Lemma filter_out_perm {A} (key : A -> nat) l x :
  NoDup (map key l) -> x ∈ l -> l ≡ₚ x :: filter (fun y => key y <> key x) l.
Proof.
  induction l as [|y l IH]; cbn [map]; [by intros _ ?%not_elem_of_nil|].
  intros [Hy Hn]%NoDup_cons [->|Hx]%elem_of_cons.
  - rewrite filter_cons_False by naive_solver. by rewrite filter_key_ne.
  - rewrite filter_cons_True.
    + rewrite Permutation_swap. by rewrite <- IH.
    + intros E. apply Hy. rewrite E. by apply list_elem_of_fmap_2.
Qed.

Lemma freed_false st : inv st -> (exists pc, pc ∈ workers st /\ exited pc = false) \/ calls st <> [] ->
  freed st = false.
Proof.
  intros Hi Hc. destruct (freed st) eqn:Ef; [|done]. exfalso.
  pose proof (i_freed _ Hi Ef) as Hall. pose proof (i_control _ Hi) as Hctl.
  assert (forall pc, pc ∈ workers st -> pc = W_exit) as Hex.
  { intros pc Hpc. clear - Hall Hpc. induction (workers st) as [|x ws IH]; [by apply not_elem_of_nil in Hpc|].
    rewrite count_cons in Hall. cbn [length] in Hall. pose proof (count_length exited ws).
    destruct (exited x) eqn:Ex; [|lia].
    apply elem_of_cons in Hpc as [->|Hpc]; [by destruct x|]. apply IH; [lia|done]. }
  destruct Hc as [(pc & Hpc & Hno)|Hc].
  - by rewrite (Hex _ Hpc) in Hno.
  - destruct (calls st) as [|[t x] cl] eqn:Ec; [done|].
    assert ((t, task_state_ready) ∈ places st) as Hp by (unfold places; rewrite Ec; left).
    destruct (p_state _ _ _ _ _ _ _ (i_placed _ Hi) _ _ Hp) as (_ & T & ET & HT).
    assert (t ∈ tasks (manager st)) as Hin.
    { apply (p_listed _ _ _ _ _ _ _ (i_placed _ Hi)). split; [eauto|].
      apply (placed_not_free (i_placed _ Hi) t T); [done|congruence]. }
    assert (FINISHED (manager st) = true) as Hfin.
    { apply (c_exit _ _ Hctl). rewrite Hall. apply Hctl. }
    unfold FINISHED in Hfin. apply andb_true_iff in Hfin as [_ Hfin%EMPTY_true].
    rewrite Hfin in Hin. by apply not_elem_of_nil in Hin.
Qed.

(** What a caller may rely on for a task it may use *)
Lemma usable_spec st t :
  inv st -> usable st t = true ->
  freed st = false /\ exists T, store st !! t = Some T /\ task_ok T /\ state T <> task_state_done.
Proof.
  intros Hi Hu. unfold usable in Hu. apply andb_true_iff in Hu as [Hf%negb_true_iff Hu].
  split; [done|]. destruct (store st !! t) as [T|] eqn:E; [|done]. exists T.
  pose proof (p_ok _ _ _ _ _ _ _ (i_placed _ Hi) _ _ E) as HT. split_and!; [done..|].
  intros Hd. destruct (ok_done _ HT Hd) as (Hr & _). rewrite Hr in Hu. cbn in Hu.
  apply existsb_exists in Hu as (pc & Hin%list_elem_of_In & Hpc).
  destruct pc as [| | | |t' n x| | | | | |]; try done. cbn in Hpc. apply Nat.eqb_eq in Hpc as ->.
  assert ((t, task_state_running) ∈ places st) as Hp.
  { unfold places. rewrite !elem_of_app. right; right. apply list_elem_of_omap. by exists (W_action t n x). }
  rewrite (placed_at (i_placed _ Hi) _ _ _ E Hp) in Hd. done.
Qed.

Lemma detachable_spec st t :
  inv st -> detachable st t = true ->
  freed st = false /\ exists T, store st !! t = Some T /\ task_ok T /\ 0 < references T /\
    (excl (manager st) = Some t -> 1 < references T).
Proof.
  intros Hi Hu. unfold detachable in Hu. apply andb_true_iff in Hu as [Hf%negb_true_iff Hu].
  split; [done|]. destruct (store st !! t) as [T|] eqn:E; [|done]. exists T.
  pose proof (p_ok _ _ _ _ _ _ _ (i_placed _ Hi) _ _ E) as HT. case_bool_decide; split_and!; try done; lia.
Qed.

Lemma attachable_spec st t :
  inv st -> attachable st t = true ->
  freed st = false /\ exists T, store st !! t = Some T /\ task_ok T /\ state T <> task_state_done /\
    references T < 2 ^ 32 - 1.
Proof.
  intros Hi [Hu Hr]%andb_true_iff. destruct (usable_spec _ _ Hi Hu) as (Hf & T & E & HT & Hd).
  split; [done|]. exists T. rewrite E in Hr. split_and!; try done. lia.
Qed.

Lemma own_event_spec st id t T :
  own_event st id = true -> store st !! t = Some T -> id ∉ map ev_id (events T ++ on_shutdown T).
Proof.
  unfold own_event. rewrite forallb_forall. intros Ho E.
  specialize (Ho (t, T)). cbn in Ho. rewrite <- list_elem_of_In in Ho.
  specialize (Ho (proj2 (elem_of_map_to_list _ _ _) E)).
  apply negb_true_iff, bool_decide_eq_false in Ho. done.
Qed.

(** The general form of a step that changes one task under its lock. *)
Lemma good_update st l o t T T' (b : bool) :
  inv st -> freed st = false -> store st !! t = Some T -> updates T T' b ->
  (excl (manager st) = Some t -> 0 < references T') ->
  (forall t', passes t' (queue st t') (queue (put t T' st) t') o) ->
  good st l (if b then set_calls (calls st ++ [(t, None)]) (put t T' st) else put t T' st) o.
Proof.
  intros Hi Hf E Hu He Hq. split.
  - split; [|destruct b; apply Hi|destruct b; apply Hi].
    pose proof (placed_update (i_placed _ Hi) t T T' b E Hu He) as Hp. destruct b; [|exact Hp].
    eapply placed_perm; [exact Hp| |done]. unfold places. cbn [calls set_calls put set_store].
    rewrite map_app. cbn. by rewrite <- app_assoc, Permutation_middle.
  - intros t'. specialize (Hq t'). by destruct b.
  - by destruct b.
  - by destruct b.
Qed.

Lemma on_task_good st l o t T f T' (b : bool) :
  inv st -> freed st = false -> store st !! t = Some T -> f T = Done (T', b) -> updates T T' b ->
  (excl (manager st) = Some t -> 0 < references T') ->
  (forall t', passes t' (queue st t') (queue (put t T' st) t') o) ->
  exists st', on_task t f st = Done st' /\ good st l st' o /\ (store st' = <[t := T']> (store st)).
Proof.
  intros Hi Hf E Ef Hu He Hq. unfold on_task, get. rewrite E. cbn. rewrite Ef. cbn.
  eexists. split; [done|]. split; [by apply good_update with T|]. by destruct b.
Qed.
