(* ===== verification/TaskClient.v ===== *)
(** * Steps of the callers of [task.c] *)

From S2P Require Import Prelude Task TaskOps TaskPlace TaskSystem.

(** The step does not fail and is [good]. *)
Definition step_good (st : system) (l : label) : Prop :=
  exists st' o, step st l = Done (st', o) /\ good st l st' o.

Lemma step_client st l :
  freed st = false -> label_worker l = None -> step st l = client_step st l.
Proof. intros Hf Hl. unfold step. by rewrite Hf, Hl. Qed.

Lemma passes_keep st t T T' t' :
  store st !! t = Some T -> events T' = events T ->
  passes t' (queue st t') (queue (put t T' st) t') [].
Proof.
  intros E Hev. apply (passes_put st t T T' [] [] []); [done|..]; rewrite Hev, ?app_nil_r; done.
Qed.

Lemma get_ok st t T : store st !! t = Some T -> get st t = Done T.
Proof. unfold get. by intros ->. Qed.

(** A manager's reference is a reference. *)
Lemma excl_references st t T :
  inv st -> store st !! t = Some T -> excl (manager st) = Some t -> 0 < references T.
Proof.
  intros Hi E He. destruct (p_excl _ _ _ _ _ _ _ (i_placed _ Hi) _ He) as (T' & E' & ?). congruence.
Qed.

(** The step of a routine that is one [on_task], when it is known what it does. *)
Lemma on_task_step st l o t T f T' (b : bool) :
  inv st -> freed st = false -> store st !! t = Some T -> f T = Done (T', b) -> updates T T' b ->
  (excl (manager st) = Some t -> 0 < references T') ->
  (forall t', passes t' (queue st t') (queue (put t T' st) t') o) ->
  label_worker l = None ->
  (forall st', store st' = <[t := T']> (store st) -> on_task t f st = Done st' ->
     client_step st l = Done (st', o)) ->
  step_good st l.
Proof.
  intros Hi Hf E Ef Hu He Hq Hl Hc.
  destruct (on_task_good st l o t T f T' b Hi Hf E Ef Hu He Hq) as (st' & Es & Hg & Hs).
  exists st', o. split; [|done]. rewrite step_client by done. by apply Hc.
Qed.

(** The step of a routine that replaces the record of a task. *)
Lemma put_task_step st l o t T T' :
  inv st -> freed st = false -> store st !! t = Some T -> updates T T' false ->
  (excl (manager st) = Some t -> 0 < references T') ->
  (forall t', passes t' (queue st t') (queue (put t T' st) t') o) ->
  label_worker l = None -> client_step st l = Done (put t T' st, o) -> step_good st l.
Proof.
  intros Hi Hf E Hu He Hq Hl Hc. exists (put t T' st), o. rewrite step_client by done.
  split; [done|]. by apply (good_update st l o t T T' false).
Qed.

(** The calls that are one [on_task] *)
Ltac unfold_calls :=
  unfold isc__task_detach, isc__task_send, isc__task_sendanddetach, isc__task_shutdown.

Section Client.
Context (st : system) (Hi : inv st).

Lemma attach_good t : guard st (C_attach t) = true -> step_good st (C_attach t).
Proof.
  intros (Hf & T & E & HT & Hd & Hr)%attachable_spec; [|done].
  destruct (task_attach_ok T HT Hr Hd) as [Hu Href].
  eapply (on_task_step st _ [] t T (fun T => Done (isc__task_attach T, false))); try done.
  - intros _. rewrite Href. pose proof (ok_references _ HT). lia.
  - intros t'. by apply passes_keep with T.
  - intros st' _ Es'. cbn [client_step]. unfold_calls. by rewrite Es'.
Qed.

Lemma detach_good t : guard st (C_detach t) = true -> step_good st (C_detach t).
Proof.
  intros (Hf & T & E & HT & Hr & He)%detachable_spec; [|done].
  destruct (task_detach_ok T HT Hr) as (T' & b & Ed & Hu & Hr' & Hev & _).
  eapply (on_task_step st _ [] t T task_detach); try done.
  - intros Hx. specialize (He Hx). lia.
  - intros t'. by apply passes_keep with T.
  - intros st' _ Es'. cbn [client_step]. unfold_calls. by rewrite Es'.
Qed.

Lemma send_good t e : guard st (C_send t e) = true -> step_good st (C_send t e).
Proof.
  cbn. rewrite !andb_true_iff. intros [[Hu Ho] Ht]. apply Z.ltb_lt in Ht.
  destruct (usable_spec _ _ Hi Hu) as (Hf & T & E & HT & Hd).
  destruct (task_send_ok e T HT Hd Ht (own_event_spec _ _ _ _ Ho E))
    as (T' & b & Es & Hup & Hr & _ & Hev & _).
  eapply (on_task_step st _ [Sent t e] t T (task_send e)); try done.
  - rewrite Hr. by apply excl_references.
  - intros t'. apply (passes_put st t T T' [e] [] []); [done|..]; by rewrite Hev.
  - intros st' _ Es'. cbn [client_step]. unfold_calls. by rewrite Es'.
Qed.

Lemma sendanddetach_good t e :
  guard st (C_sendanddetach t e) = true -> step_good st (C_sendanddetach t e).
Proof.
  cbn. rewrite !andb_true_iff. intros [[[_ Hd] Ho] Ht]. apply Z.ltb_lt in Ht.
  destruct (detachable_spec _ _ Hi Hd) as (Hf & T & E & HT & Hr & He).
  destruct (task_sendanddetach_ok e T HT Hr Ht (own_event_spec _ _ _ _ Ho E))
    as (T' & b & Es & Hup & Hr' & Hev & _).
  eapply (on_task_step st _ [Sent t e] t T (task_sendanddetach e)); try done.
  - intros Hx. specialize (He Hx). lia.
  - intros t'. apply (passes_put st t T T' [e] [] []); [done|..]; by rewrite Hev.
  - intros st' _ Es'. cbn [client_step]. unfold_calls. by rewrite Es'.
Qed.

Lemma shutdown_good t : guard st (C_shutdown t) = true -> step_good st (C_shutdown t).
Proof.
  cbn. intros Hu. destruct (usable_spec _ _ Hi Hu) as (Hf & T & E & HT & Hd).
  destruct (task_shutdown_ok T HT) as (T' & b & Es & Hup & Hr & _ & Hev).
  eapply (on_task_step st _ (Sent t <$> posted T T') t T task_shutdown); try done.
  - rewrite Hr. by apply excl_references.
  - intros t'. rewrite <- (app_nil_r (Sent t <$> _)).
    apply (passes_put st t T T' _ [] []); [done|..]; by rewrite Hev.
  - intros st' Hs Es'. cbn [client_step]. unfold_calls. rewrite Es'. cbn. unfold posted_in.
    by rewrite E, Hs, lookup_insert_eq.
Qed.

Lemma setname_good t s tg : guard st (C_setname t s tg) = true -> step_good st (C_setname t s tg).
Proof.
  cbn. intros Hu. destruct (usable_spec _ _ Hi Hu) as (Hf & T & E & HT & Hd).
  eapply (on_task_step st _ [] t T (fun T => Done (isc__task_setname s tg T, false))); try done.
  - by apply task_setname_ok.
  - exact (excl_references st t T Hi E).
  - intros t'. by apply passes_keep with T.
  - intros st' _ Es'. cbn [client_step]. unfold_calls. by rewrite Es'.
Qed.

Lemma dequeue_good t sender first last tg purging :
  guard st (C_dequeue t sender first last tg purging) = true ->
  step_good st (C_dequeue t sender first last tg purging).
Proof.
  cbn. rewrite andb_true_iff. intros [Hu Hle].
  destruct (usable_spec _ _ Hi Hu) as (Hf & T & E & HT & Hd).
  destruct (dequeue_walk (dequeue_match sender first last tg purging) (events T)) as [kept moved] eqn:Ew.
  pose proof (dequeue_walk_spec _ _ _ _ Ew) as [Ek Em].
  eapply (put_task_step st _ (Removed t <$> moved) t T (set_events kept T)); try done.
  - apply set_events_ok; [done|]. rewrite Ek. apply sublist_filter.
  - exact (excl_references st t T Hi E).
  - intros t'. apply (passes_put st t T _ [] [] moved); [done|..]; cbn; rewrite app_nil_r, Ek.
    + apply sublist_filter.
    + rewrite Em. clear. induction (events T) as [|e l IH]; [done|]. rewrite !filter_cons. cbn [app] in IH.
      do 2 case_decide; try congruence; cbn [app]; [by rewrite IH|by rewrite <- Permutation_middle, IH|].
      destruct (dequeue_match sender first last tg purging e); done.
  - cbn. rewrite (get_ok _ _ _ E). cbn. unfold dequeue_events. rewrite Hle. cbn. by rewrite Ew.
Qed.

Lemma purgeevent_good t id : guard st (C_purgeevent t id) = true -> step_good st (C_purgeevent t id).
Proof.
  cbn. intros Hu. destruct (usable_spec _ _ Hi Hu) as (Hf & T & E & HT & Hd).
  destruct (purgeevent_walk id (events T)) as [kept r] eqn:Ew.
  pose proof (purgeevent_walk_spec _ _ _ _ Ew) as Hw.
  assert (kept `sublist_of` events T) as Hsub.
  { destruct r as [e|]; [|by rewrite Hw]. destruct Hw as (l1 & l2 & -> & -> & _).
    apply sublist_app; [done|]. by apply sublist_cons. }
  eapply (put_task_step st _ (Removed t <$> option_list r) t T (set_events kept T)); try done.
  - by apply set_events_ok.
  - exact (excl_references st t T Hi E).
  - intros t'. apply (passes_put st t T _ [] [] (option_list r)); [done|..]; cbn; rewrite app_nil_r; [done|].
    destruct r; [|by rewrite Hw]. destruct Hw as (l1 & l2 & -> & -> & _). cbn. by rewrite Permutation_middle.
  - cbn. rewrite (get_ok _ _ _ E). cbn. unfold isc__task_purgeevent. by rewrite Ew.
Qed.

Lemma onshutdown_good t ev : guard st (C_onshutdown t ev) = true -> step_good st (C_onshutdown t ev).
Proof.
  cbn. rewrite andb_true_iff. intros [Hu Ho].
  destruct (usable_spec _ _ Hi Hu) as (Hf & T & E & HT & Hd).
  destruct (task_onshutdown_ok ev T HT Hd) as (r & T' & Es & Hup & Hr & Hev & _).
  { intros id ->. by apply (own_event_spec st id t). }
  eapply (put_task_step st _ [] t T T'); try done.
  - rewrite Hr. by apply excl_references.
  - intros t'. by apply passes_keep with T.
  - cbn. rewrite (get_ok _ _ _ E). cbn. by rewrite Es.
Qed.

(** ** The manager's own reference *)

Lemma detach_excl_good : guard st C_detach_excl = true -> step_good st C_detach_excl.
Proof.
  cbn. intros Hf%negb_true_iff. unfold step_good. rewrite step_client by done. cbn.
  unfold detach_excl. destruct (excl (manager st)) as [t|] eqn:Ex.
  2: { exists st, []. split; [done|]. split; [done| |done|done]. by apply passes_same. }
  destruct (p_excl _ _ _ _ _ _ _ (i_placed _ Hi) _ Ex) as (T & E & Hr).
  pose proof (p_ok _ _ _ _ _ _ _ (i_placed _ Hi) _ _ E) as HT.
  destruct (task_detach_ok T HT Hr) as (T' & b & Ed & Hu & Hr' & Hev & _).
  set (st0 := set_manager (set_excl None (manager st)) st).
  assert (inv st0) as Hi0.
  { split; [|by apply (control_ext (manager st)), Hi|apply Hi]. by apply (placed_set_excl (i_placed _ Hi)). }
  destruct (on_task_good st0 C_detach_excl [] t T task_detach T' b) as (st' & Es & Hg & _); try done.
  { intros t'. by apply passes_keep with T. }
  unfold_calls. unfold on_task, get in *. cbn [store st0 set_manager] in Es. rewrite E in Es |- *. cbn in Es |- *.
  rewrite Ed in Es |- *. cbn in Es |- *. injection Es as <-.
  eexists _, []. split; [done|].
  assert (set_manager (set_excl None (manager (if b then set_calls (calls st ++ [(t, None)]) (put t T' st) else put t T' st)))
     (if b then set_calls (calls st ++ [(t, None)]) (put t T' st) else put t T' st)
    = if b then set_calls (calls st0 ++ [(t, None)]) (put t T' st0) else put t T' st0) as Eq
    by (by destruct b).
  cbn in Eq |- *. rewrite Eq. destruct Hg as [G1 G2 G3 G4]. split; try done.
  intros Hin Hw. apply G3; [done|]. by apply (wakeful_ext (manager st)).
Qed.

Lemma attach_excl_good t : guard st (C_attach_excl t) = true -> step_good st (C_attach_excl t).
Proof.
  cbn. rewrite andb_true_iff. intros [Ha _].
  destruct (attachable_spec _ _ Hi Ha) as (Hf & T & E & HT & Hd & Hr).
  destruct (task_attach_ok T HT Hr Hd) as [Hu Href]. pose proof (ok_references _ HT) as Hrr.
  destruct (good_update st (C_attach_excl t) [] t T (isc__task_attach T) false Hi Hf E Hu) as [G1 G2 G3 G4].
  { intros _. rewrite Href. lia. }
  { intros t'. by apply passes_keep with T. }
  eexists _, []. rewrite step_client by done. cbn. unfold attach_excl. rewrite (get_ok _ _ _ E). cbn.
  split; [done|].
  split; [|exact G2|intros _; by apply (wakeful_ext (manager st))|done].
  split; [|by apply (control_ext (manager st)), Hi|apply Hi].
  apply (placed_set_excl (i_placed _ G1)). intros t' [= <-]. exists (isc__task_attach T).
  cbn. rewrite lookup_insert_eq. split; [done|]. rewrite u32_small by lia. lia.
Qed.

Lemma excltask_good : guard st C_excltask = true -> step_good st C_excltask.
Proof.
  cbn. rewrite andb_true_iff. intros [Hf%negb_true_iff Ha].
  destruct (excl (manager st)) as [t|] eqn:Ex.
  - destruct (attachable_spec _ _ Hi Ha) as (_ & T & E & HT & Hd & Hr).
    destruct (task_attach_ok T HT Hr Hd) as [Hu Href]. pose proof (ok_references _ HT) as Hrr.
    eapply (put_task_step st _ [] t T (isc__task_attach T)); try done.
    + intros _. rewrite Href. lia.
    + intros t'. by apply passes_keep with T.
    + cbn. unfold isc__taskmgr_excltask. rewrite Ex, (get_ok _ _ _ E). done.
  - exists st, []. rewrite step_client by done. cbn. unfold isc__taskmgr_excltask. rewrite Ex.
    split; [done|]. split; [done| |done|done]. by apply passes_same.
Qed.

End Client.
