(* ===== verification/TaskManager.v ===== *)
(** * Steps under the lock of the task manager *)

From S2P Require Import Prelude Task TaskOps TaskPlace TaskSystem TaskClient.

(** ** The queues *)

Lemma enqueue_ok l t : t ∉ l -> enqueue l t = Done (l ++ [t]).
Proof. intros H. apply ENQUEUE_ok. by rewrite map_id. Qed.

Lemma dequeue_ok l t : t ∈ l -> dequeue l t = Done (filter (fun x => x <> t) l).
Proof. intros H. apply (DEQUEUE_ok (fun x => x)). by rewrite map_id. Qed.

Lemma filter_ne (l : list nat) (t : nat) : t ∉ l -> filter (fun x => x <> t) l = l.
Proof. intros H. apply (filter_key_ne (fun x => x)). by rewrite map_id. Qed.

Definition pushed (t : nat) (T : isc__task) (m : isc__taskmgr) : isc__taskmgr :=
  set_ready (ready_tasks m ++ [t])
    (if isc__task_privilege T then ready_priority_tasks m ++ [t] else ready_priority_tasks m) m.

Lemma push_ok t T m :
  t ∉ ready_tasks m -> t ∉ ready_priority_tasks m -> push_readyq t T m = Done (pushed t T m).
Proof.
  intros H1 H2. unfold push_readyq, pushed. rewrite enqueue_ok by done. cbn.
  destruct (isc__task_privilege T); [|done]. by rewrite enqueue_ok.
Qed.

Definition popped (t : nat) (m : isc__taskmgr) : isc__taskmgr :=
  set_ready (filter (fun x => x <> t) (ready_tasks m)) (filter (fun x => x <> t) (ready_priority_tasks m)) m.

Lemma pop_ok s P F m t q :
  placed s (tasks m) (ready_tasks m) (ready_priority_tasks m) P F (excl m) ->
  readyq m = t :: q -> t ∈ ready_tasks m /\ pop_readyq m = Done (popped t m, Some t).
Proof.
  intros H Eq. assert (t ∈ ready_tasks m) as Ht.
  { unfold readyq in Eq. destruct (mode m); [rewrite Eq; left|].
    apply (p_priority _ _ _ _ _ _ _ H t). rewrite Eq. left. }
  split; [done|]. unfold pop_readyq. rewrite Eq, dequeue_ok by done. cbn. unfold linked, popped.
  case_bool_decide; [by rewrite dequeue_ok|]. cbn. by rewrite (filter_ne (ready_priority_tasks m)).
Qed.

(** ** Who is awake *)

Lemma awake_busy m ws : control m ws -> exclusive_requested m = false -> (count busy ws <= count awake ws)%nat.
Proof.
  intros H He. pose proof (c_exclusive _ _ H) as Hx. rewrite He in Hx.
  pose proof (count_add busy awake exclwaiting ws) as Ha.
  assert (count busy ws <= count awake ws + count exclwaiting ws)%nat; [|lia].
  apply Ha. intros []; cbn; lia.
Qed.

Lemma awake_all m ws :
  control m ws -> exclusive_requested m = false -> FINISHED m = false ->
  (length ws <= count awake ws + count sleeping ws)%nat.
Proof.
  intros H He Hf. pose proof (c_exclusive _ _ H) as Hx. rewrite He in Hx.
  assert (count exited ws = 0)%nat as Hex.
  { destruct (count exited ws) eqn:E; [done|]. rewrite (c_exit _ _ H) in Hf by lia. done. }
  assert (length ws <= count awake ws + count sleeping ws + count exited ws + count exclwaiting ws)%nat; [|lia].
  clear. induction ws as [|x ws IH]; [cbn; lia|]. rewrite !count_cons. cbn [length]. destruct x; cbn; lia.
Qed.

(** The counts after one worker moved *)
Ltac counts E pc' :=
  pose proof (count_insert busy _ _ _ pc' E) as Cbusy;
  pose proof (count_insert sleeping _ _ _ pc' E) as Csleeping;
  pose proof (count_insert exited _ _ _ pc' E) as Cexited;
  pose proof (count_insert granted _ _ _ pc' E) as Cgranted;
  pose proof (count_insert exclwaiting _ _ _ pc' E) as Cwaiting;
  pose proof (count_insert exclwoken _ _ _ pc' E) as Cwoken;
  pose proof (count_insert awake _ _ _ pc' E) as Cawake;
  cbn [busy sleeping exited granted exclwaiting exclwoken awake negb orb] in
    Cbusy, Csleeping, Cexited, Cgranted, Cwaiting, Cwoken, Cawake.

Lemma Zlen_insert {A} (l : list A) w x : Zlen (<[w := x]> l) = Zlen l.
Proof. len. Qed.

(** Waking a sleeping worker *)
Lemma control_wake m ws w :
  control m ws -> ws !! w = Some W_wait -> control m (<[w := W_wake]> ws).
Proof.
  intros H E. counts E W_wake. destruct H. split; rewrite ?Zlen_insert, ?length_insert; try done; lia.
Qed.

Lemma control_signal m ws who : control m ws -> control m (signal who ws).
Proof.
  intros H. destruct (signal_shape who ws) as [[-> _]|(w & E & ->)]; [done|]. by apply control_wake.
Qed.

Lemma wake_counts ws :
  count busy (broadcast ws) = count busy ws /\ count exited (broadcast ws) = count exited ws /\
  count granted (broadcast ws) = count granted ws /\
  count exclwaiting (broadcast ws) = count exclwaiting ws /\
  count exclwoken (broadcast ws) = count exclwoken ws /\ (count awake ws <= count awake (broadcast ws))%nat.
Proof.
  split_and!; try (apply wake_wake; by intros []).
  induction ws as [|x ws IH]; [done|]. cbn [broadcast map]. rewrite !count_cons.
  destruct x; cbn; unfold broadcast in IH; lia.
Qed.

Lemma control_broadcast_ext m m' ws :
  control m ws -> tasks_running m' = tasks_running m ->
  (pause_requested m' = true -> pause_requested m = true) ->
  exclusive_requested m' = exclusive_requested m ->
  (FINISHED m = true -> FINISHED m' = true) -> control m' (broadcast ws).
Proof.
  intros [] R1 R2 R3 R4. destruct (wake_counts ws) as (E1 & E2 & E3 & E4 & E5 & E6).
  split; rewrite ?E1, ?E2, ?E3, ?E4, ?E5, ?R1, ?R3; try done; auto.
  - unfold Zlen, broadcast in *. by rewrite length_map.
  - unfold broadcast. by rewrite length_map.
  - intros _. apply broadcast_sleeping.
Qed.

Lemma control_broadcast m ws : control m ws -> control m (broadcast ws).
Proof. intros H. by apply (control_broadcast_ext m). Qed.

(** After a broadcast every worker that has not ended is awake. *)
Lemma broadcast_awake m ws :
  control m ws -> exclusive_requested m = false -> FINISHED m = false -> (0 < count awake (broadcast ws))%nat.
Proof.
  intros H He Hf. pose proof (awake_all _ _ (control_broadcast _ _ H) He Hf) as Ha.
  rewrite broadcast_sleeping in Ha. unfold broadcast at 1 in Ha. rewrite length_map in Ha.
  pose proof (c_some _ _ H). lia.
Qed.

Lemma places_broadcast ws : omap pc_place (broadcast ws) = omap pc_place ws.
Proof. apply omap_broadcast. by intros []. Qed.

Lemma frees_broadcast ws : omap pc_free (broadcast ws) = omap pc_free ws.
Proof. apply omap_broadcast. by intros []. Qed.

Lemma omap_signal {A} (f : worker_pc -> option A) who ws :
  f W_wake = f W_wait -> omap f (signal who ws) ≡ₚ omap f ws.
Proof.
  intros Hf. destruct (signal_shape who ws) as [[-> _]|(w & E & ->)]; [done|]. by apply omap_same with W_wait.
Qed.

(** Signals keep a worker awake. *)
Lemma signal_awake who ws : (count awake ws <= count awake (signal who ws))%nat.
Proof.
  destruct (signal_shape who ws) as [[-> _]|(w & E & ->)]; [done|]. counts E W_wake. lia.
Qed.

Lemma signal_busy who ws : count busy (signal who ws) = count busy ws.
Proof.
  destruct (signal_shape who ws) as [[-> _]|(w & E & ->)]; [done|]. counts E W_wake. lia.
Qed.

Lemma signal_length who ws : length (signal who ws) = length ws.
Proof.
  destruct (signal_shape who ws) as [[-> _]|(w & E & ->)]; [done|]. by rewrite length_insert.
Qed.

(** A signal leaves a worker awake when there is one to wake. *)
Lemma signal_wakes m ws who :
  control m ws -> exclusive_requested m = false -> FINISHED m = false -> (0 < count awake (signal who ws))%nat.
Proof.
  intros H He Hf. destruct (signal_shape who ws) as [[-> Hs]|(w & E & ->)].
  - pose proof (awake_all _ _ H He Hf). pose proof (c_some _ _ H). lia.
  - apply count_pos with W_wake; [|done]. apply list_elem_of_lookup. exists w.
    apply list_lookup_insert_eq. by apply lookup_lt_Some in E.
Qed.

(** ** Steps of the callers *)

(** A step that changes neither tasks nor their places. *)
Lemma good_manager st l st' :
  store st' = store st -> tasks (manager st') = tasks (manager st) ->
  ready_tasks (manager st') = ready_tasks (manager st) ->
  ready_priority_tasks (manager st') = ready_priority_tasks (manager st) ->
  excl (manager st') = excl (manager st) ->
  places st' ≡ₚ places st -> frees st' ≡ₚ frees st -> freed st' = false ->
  (forall p, p ∈ pausing st -> l <> C_spurious p -> p ∈ pausing st') ->
  inv st -> control (manager st') (workers st') ->
  (inside l = true -> wakeful (manager st) (workers st) -> wakeful (manager st') (workers st')) ->
  good st l st' [].
Proof.
  intros E1 E2 E3 E4 E5 EP EF Ef Hp Hi Hc Hw. split; [|apply passes_same; intros t; unfold queue; by rewrite E1|done|done].
  split; [|done|congruence]. rewrite E1, E2, E3, E4, E5.
  eapply placed_perm; [apply Hi|by rewrite EP|by rewrite EF].
Qed.

Lemma calls_nodup st : inv st -> NoDup (map fst (calls st)).
Proof.
  intros Hi. pose proof (p_nodup _ _ _ _ _ _ _ (i_placed _ Hi)) as Hn. unfold places in Hn.
  rewrite fmap_app, NoDup_app in Hn. destruct Hn as [Hn _].
  change (NoDup (map fst (map (fun c : nat * option bool => ready_place c.1) (calls st)))) in Hn.
  rewrite map_map in Hn. exact Hn.
Qed.

Section Manager.
Context (st : system) (Hi : inv st).

Lemma create_good q t ok : guard st (C_create q t ok) = true -> step_good st (C_create q t ok).
Proof.
  cbn. rewrite !andb_true_iff. intros [[[Hf%negb_true_iff _] _] Ht].
  unfold step_good. rewrite step_client by done. eexists _, []. split; [done|].
  assert (good st (C_create q t ok) st []) as Hsame.
  { split; [done| |done|done]. by apply passes_same. }
  unfold isc__task_create. destruct t as [t|]; [|done]. destruct ok; [|done]. cbn [negb].
  destruct (exiting (manager st)) eqn:Ex; [done|]. cbn [snd].
  apply bool_decide_eq_true in Ht. split.
  - split.
    + cbn. by apply (placed_create (i_placed _ Hi)).
    + cbn. pose proof (i_control _ Hi) as []. split; cbn; try done.
      * intros Hx. specialize (c_exit Hx). unfold FINISHED in *. by rewrite Ex in c_exit.
      * unfold FINISHED. cbn. by rewrite Ex.
    + cbn. congruence.
  - apply passes_same. intros t'. unfold queue. cbn. destruct (decide (t = t')) as [<-|Hne].
    + by rewrite lookup_insert_eq, Ht.
    + by rewrite lookup_insert_ne.
  - intros _. by apply wakeful_ext.
  - done.
Qed.

Lemma call_place t x : (t, x) ∈ calls st -> (t, task_state_ready) ∈ places st.
Proof.
  intros H. unfold places. rewrite elem_of_app. left. apply list_elem_of_fmap. by exists (t, x).
Qed.

Lemma ready_privilege_good t :
  guard st (C_ready_privilege t) = true -> step_good st (C_ready_privilege t).
Proof.
  cbn. intros Hc%bool_decide_eq_true.
  assert (freed st = false) as Hf.
  { apply freed_false; [done|]. right. intros E. rewrite E in Hc. by apply not_elem_of_nil in Hc. }
  unfold step_good. rewrite step_client by done. cbn. unfold task_ready_privilege.
  destruct (p_state _ _ _ _ _ _ _ (i_placed _ Hi) _ _ (call_place _ _ Hc)) as (_ & T & E & HT).
  rewrite (get_ok _ _ _ E). cbn. rewrite require_true by (by apply in_state_spec). cbn.
  eexists _, []. split; [done|]. apply good_manager; try done; [|apply Hi].
  unfold places. cbn. rewrite map_map.
  erewrite (map_ext _ (fun c : nat * option bool => ready_place c.1)); [done|].
  intros [t' x]. cbn. destruct (t' =? t)%nat eqn:Et; [|done]. by apply Nat.eqb_eq in Et as ->.
Qed.

Lemma ready_push_good t p who :
  guard st (C_ready_push t p who) = true -> step_good st (C_ready_push t p who).
Proof.
  cbn. intros Hc%bool_decide_eq_true.
  assert (freed st = false) as Hf.
  { apply freed_false; [done|]. right. intros E. rewrite E in Hc. by apply not_elem_of_nil in Hc. }
  unfold step_good. rewrite step_client by done. cbn. unfold task_ready_push.
  pose proof (call_place _ _ Hc) as Hp.
  destruct (p_state _ _ _ _ _ _ _ (i_placed _ Hi) _ _ Hp) as (_ & T & E & HT).
  pose proof (filter_out_perm fst _ _ (calls_nodup _ Hi) Hc) as Hperm. cbn in Hperm.
  set (cl := filter (fun c : nat * option bool => c.1 <> t) (calls st)) in *.
  assert (t ∉ ready_tasks (manager st)) as Hrl.
  { intros Hr. pose proof (p_nodup _ _ _ _ _ _ _ (i_placed _ Hi)) as Hn. unfold places in Hn.
    rewrite Hperm in Hn. cbn in Hn. apply NoDup_cons in Hn as [Hn _]. apply Hn.
    rewrite !fmap_app, !elem_of_app. right; left. apply list_elem_of_fmap. exists (ready_place t).
    split; [done|]. by apply list_elem_of_fmap_2. }
  destruct (placed_push (i_placed _ Hi) t T E Hp Hrl) as [Hpl Hplaced].
  rewrite (get_ok _ _ _ E). cbn. rewrite push_ok by done. cbn.
  set (ws' := if bool_decide (mode (manager st) = isc_taskmgrmode_normal) || p
              then signal who (workers st) else workers st).
  exists (mkSystem (store st) (pushed t T (manager st)) cl ws' (pausing st) (resumed st) (freed st)), [].
  split.
  { unfold ws'. change (mode (pushed t T (manager st))) with (mode (manager st)). by destruct (_ || p). }
  assert (omap pc_place ws' ≡ₚ omap pc_place (workers st)) as Ews.
  { unfold ws'. destruct (_ || p); [|done]. by apply omap_signal. }
  assert (omap pc_free ws' ≡ₚ omap pc_free (workers st)) as Efs.
  { unfold ws'. destruct (_ || p); [|done]. by apply omap_signal. }
  pose proof (i_control _ Hi) as Hctl.
  split; [split| |intros _ Hw|done].
  - cbn. eapply placed_perm; [exact Hplaced| |by symmetry]. unfold places. cbn.
    rewrite Ews, Hperm, map_app. cbn. rewrite <- (app_assoc _ [_]). cbn.
    by rewrite <- !Permutation_middle.
  - cbn. apply (control_ext (manager st)); try done. unfold ws'. destruct (_ || p); [|done]. by apply control_signal.
  - cbn. congruence.
  - by apply passes_same.
  - cbn. assert (FINISHED (manager st) = false) as Hfin.
    { unfold FINISHED. apply andb_false_iff. right. apply EMPTY_false. intros E0.
      assert (t ∈ tasks (manager st)) as Hin.
      { apply (p_listed _ _ _ _ _ _ _ (i_placed _ Hi)). split; [eauto|].
        apply (placed_not_free (i_placed _ Hi) t T); [done|congruence]. }
      rewrite E0 in Hin. by apply not_elem_of_nil in Hin. }
    split; cbn.
    + intros Hpa Hex Hq. unfold ws'. destruct (bool_decide _ || p) eqn:Em; [by apply (signal_wakes (manager st))|].
      apply orb_false_iff in Em as [Em%bool_decide_eq_false _].
      assert (mode (manager st) = isc_taskmgrmode_privileged) as Hm by (by destruct (mode (manager st))).
      destruct (ready_priority_tasks (manager st)) as [|x l] eqn:Epl.
      * destruct (w_mode _ _ Hw Hm) as [Hb|Hb]; [|done].
        pose proof (awake_busy _ _ Hctl Hex). lia.
      * apply (w_work _ _ Hw); [done..|]. unfold readyq. by rewrite Hm, Epl.
    + intros Hm. destruct (w_mode _ _ Hw Hm) as [Hb|Hb].
      * left. unfold ws'. destruct (_ || p); [|done]. by rewrite signal_busy.
      * right. destruct (isc__task_privilege T); [|done]. intros [? ?]%app_nil. done.
Qed.

Lemma usable_running caller : called_by st caller = true -> caller <> None -> (0 < count busy (workers st))%nat.
Proof.
  destruct caller as [w|]; [|done]. cbn. destruct (workers st !! w) as [pc|] eqn:E; [|done].
  intros Hc _. apply count_pos with pc; [by apply list_elem_of_lookup_2 in E|]. by destruct pc.
Qed.

(** The flag: the task stays in its state, and the invariant of a task does not
    mention the privilege. *)
Lemma setprivilege_flag_ok priv T T' changed :
  task_ok T -> setprivilege_flag priv T = (T', changed) ->
  task_ok T' /\ isc__task_privilege T' = priv /\ changed = xorb priv (isc__task_privilege T) /\
  state T' = state T /\ references T' = references T /\ events T' = events T.
Proof.
  intros HT Efl. pose proof (privilege_flag priv T) as [Hp Hsh]. rewrite Efl in Hp, Hsh. cbn in Hp, Hsh.
  assert (T' = set_flags (flags T') T /\ changed = xorb priv (isc__task_privilege T)) as [HT' Hch].
  { unfold setprivilege_flag in Efl. injection Efl as <- <-. done. }
  split_and!; try done; try (by rewrite HT'). rewrite HT'. split; cbn; try apply HT.
  - intros Hst. apply (ok_done _ HT) in Hst. destruct Hst as (?&?&Hs). split_and!; try done.
    rewrite <- HT'. congruence.
  - intros Hs. rewrite <- HT' in Hs. apply HT. congruence.
Qed.

(** The queue: the task is on the priority queue when it is ready and privileged. *)
Lemma setprivilege_queue_ok t priv (old : bool) m :
  NoDup (ready_priority_tasks m) ->
  (t ∈ ready_priority_tasks m <-> t ∈ ready_tasks m /\ old = true) -> exists pl',
    (if xorb priv old then setprivilege_queue t priv m else Done m)
    = Done (set_ready (ready_tasks m) pl' m) /\ NoDup pl' /\
    (forall t', t' ∈ pl' <-> if decide (t' = t) then t ∈ ready_tasks m /\ priv = true
                else t' ∈ ready_priority_tasks m).
Proof.
  intros Hnq Hpr.
  assert (m = set_ready (ready_tasks m) (ready_priority_tasks m) m) as Hset by (by destruct m).
  assert ((t ∈ ready_priority_tasks m <-> t ∈ ready_tasks m /\ priv = true) ->
    Done m = Done (set_ready (ready_tasks m) (ready_priority_tasks m) m) /\ NoDup (ready_priority_tasks m) /\
    (forall t', t' ∈ ready_priority_tasks m <-> if decide (t' = t) then t ∈ ready_tasks m /\ priv = true
                else t' ∈ ready_priority_tasks m)) as Hsame.
  { intros H. split_and!; [by rewrite <- Hset|done|]. intros t'. case_decide; [|done]. by subst t'. }
  destruct priv, old; cbn [xorb]; try (eexists; apply Hsame; naive_solver);
    unfold setprivilege_queue, linked; cbn [andb negb].
  - case_bool_decide as El; [|eexists; apply Hsame; naive_solver].
    assert (t ∉ ready_priority_tasks m) as Hnp by naive_solver.
    rewrite enqueue_ok by done. cbn. eexists. split; [done|]. split.
    + apply NoDup_app. split_and!; [done| |apply NoDup_singleton].
      intros x Hx Hx'%list_elem_of_singleton. by subst.
    + intros t'. rewrite elem_of_app, list_elem_of_singleton. case_decide; [|tauto]. subst t'. tauto.
  - case_bool_decide as El; [|eexists; apply Hsame; naive_solver].
    rewrite dequeue_ok by done. cbn. eexists. split; [done|].
    split; [by apply NoDup_filter|]. intros t'. rewrite list_elem_of_filter. case_decide; naive_solver.
Qed.

Lemma setprivilege_good caller t priv :
  guard st (C_setprivilege caller t priv) = true -> step_good st (C_setprivilege caller t priv).
Proof.
  cbn. rewrite andb_true_iff. intros [Hu Hcall]. destruct (usable_spec _ _ Hi Hu) as (Hf & T & E & HT & Hd).
  unfold step_good. rewrite step_client by done. cbn [client_step]. rewrite (get_ok _ _ _ E). cbn [obind].
  destruct (setprivilege_flag priv T) as [T' changed] eqn:Efl.
  destruct (setprivilege_flag_ok _ _ _ _ HT Efl) as (Hok & Hp & -> & Hst & Href & Hev).
  destruct (setprivilege_queue_ok t priv (isc__task_privilege T) (manager st)) as (pl' & Epl & Hnd & Hmem).
  { apply Hi. }
  { rewrite (p_priority _ _ _ _ _ _ _ (i_placed _ Hi) t).
    split; [intros (?&T1&E1&?); split; congruence|naive_solver]. }
  cbn [manager put set_store]. rewrite Epl. cbn. eexists _, []. split; [done|]. split.
  - split; [|by apply (control_ext (manager st)), Hi|cbn; congruence].
    apply (placed_privilege (i_placed _ Hi) t T T'); try done. intros t'. by rewrite Hmem, Hp.
  - intros t'. by apply (passes_keep st t T T' t' E).
  - intros Hin Hw. assert (0 < count busy (workers st))%nat as Hb.
    { apply (usable_running caller); [done|]. intros ->. by cbn in Hin. }
    split; cbn; [|by left]. intros Hpa Hex Hq.
    eapply Nat.lt_le_trans; [exact Hb|]. exact (awake_busy _ _ (i_control _ Hi) Hex).
  - done.
Qed.

Lemma setmode_good caller x : guard st (C_setmode caller x) = true -> step_good st (C_setmode caller x).
Proof.
  cbn. rewrite andb_true_iff. intros [Hf%negb_true_iff Hcall].
  unfold step_good. rewrite step_client by done. eexists _, []. split; [done|].
  apply good_manager; try done; [by apply (control_ext (manager st)), Hi|].
  intros Hin _. assert (0 < count busy (workers st))%nat as Hb.
  { apply (usable_running caller); [done|]. intros ->. by cbn in Hin. }
  split; cbn; [|by left]. intros _ Hex _.
  eapply Nat.lt_le_trans; [exact Hb|]. exact (awake_busy _ _ (i_control _ Hi) Hex).
Qed.

(** [isc__taskmgr_pause]: the caller sleeps, or no worker runs a task. *)
Lemma pause_good_gen l p st0 :
  inv st0 -> freed st0 = false -> (inside l = true -> wakeful (manager st) (workers st) ->
    wakeful (manager st0) (workers st0)) ->
  (forall t, queue st0 t = queue st t) ->
  (forall p, p ∈ pausing st -> l <> C_spurious p -> p ∈ pausing st0) ->
  good st l (isc__taskmgr_pause p st0) [].
Proof.
  intros Hi0 Hf0 Hw Hq Hp. unfold isc__taskmgr_pause. destruct (0 <? tasks_running (manager st0)) eqn:Er.
  - split; [|by apply passes_same|done|].
    + split; [apply Hi0|apply Hi0|cbn; congruence].
    + intros x Hx Hl. cbn. rewrite elem_of_app. left. by apply Hp.
  - apply Z.ltb_ge in Er. pose proof (i_control _ Hi0) as Hc. split; [|by apply passes_same| |done].
    + split; [apply Hi0| |cbn; congruence]. pose proof (c_running _ _ Hc). destruct Hc.
      split; cbn; try done. intros _. lia.
    + intros Hin Hw0. specialize (Hw Hin Hw0). destruct Hw. by split.
Qed.

Lemma pause_good p : guard st (C_pause p) = true -> step_good st (C_pause p).
Proof.
  cbn. intros Hf%negb_true_iff. unfold step_good. rewrite step_client by done.
  eexists _, []. split; [done|]. by apply pause_good_gen.
Qed.

Lemma inv_pausers l k : inv (set_pausers l k st).
Proof. split; apply Hi. Qed.

Lemma pause_woken_good p : guard st (C_pause_woken p) = true -> step_good st (C_pause_woken p).
Proof.
  cbn. rewrite andb_true_iff. intros [Hf%negb_true_iff _]. unfold step_good. rewrite step_client by done.
  eexists _, []. split; [done|]. apply pause_good_gen; try done. apply inv_pausers.
Qed.

Lemma spurious_good p : guard st (C_spurious p) = true -> step_good st (C_spurious p).
Proof.
  cbn. rewrite andb_true_iff. intros [Hf%negb_true_iff _]. unfold step_good. rewrite step_client by done.
  eexists _, []. split; [done|]. split; [apply inv_pausers|by apply passes_same|done|].
  intros x Hx Hne. cbn. apply list_elem_of_filter. split; [congruence|done].
Qed.

Lemma ready_unfinished : readyq (manager st) <> [] -> FINISHED (manager st) = false.
Proof.
  intros Hq. destruct (readyq (manager st)) as [|t q] eqn:Eq; [done|].
  destruct (pop_ok _ _ _ _ _ _ (i_placed _ Hi) Eq) as [Ht _].
  apply (p_ready _ _ _ _ _ _ _ (i_placed _ Hi)) in Ht.
  destruct (p_state _ _ _ _ _ _ _ (i_placed _ Hi) _ _ Ht) as (_ & T & E & HT).
  unfold FINISHED. apply andb_false_iff. right. apply EMPTY_false. intros E0.
  assert (t ∈ tasks (manager st)) as Hin.
  { apply (p_listed _ _ _ _ _ _ _ (i_placed _ Hi)). split; [eauto|].
    apply (placed_not_free (i_placed _ Hi) t T); [done|congruence]. }
  rewrite E0 in Hin. by apply not_elem_of_nil in Hin.
Qed.

Lemma resume_good : guard st C_resume = true -> step_good st C_resume.
Proof.
  cbn. intros Hf%negb_true_iff. unfold step_good. rewrite step_client by done.
  eexists _, []. split; [done|]. unfold isc__taskmgr_resume.
  destruct (pause_requested (manager st)) eqn:Ep.
  2: { split; [done|by apply passes_same|done|done]. }
  pose proof (i_control _ Hi) as Hc.
  assert (control (set_pause false (manager st)) (broadcast (workers st))) as Hc'
    by (by apply (control_broadcast_ext (manager st))).
  apply good_manager; try done.
  - unfold places. cbn. by rewrite places_broadcast.
  - unfold frees. cbn. by rewrite frees_broadcast.
  - intros _ Hw. split; cbn.
    + intros _ Hex Hq. apply (broadcast_awake (manager st)); [done|done|]. by apply ready_unfinished.
    + destruct (wake_counts (workers st)) as (-> & _). apply Hw.
Qed.

Lemma join_good : guard st C_join = true -> step_good st C_join.
Proof.
  cbn. rewrite !andb_true_iff. intros [[Hf%negb_true_iff _] Hall]. unfold step_good. rewrite step_client by done.
  eexists _, []. split; [done|]. split; [|by apply passes_same|done|done].
  split; [apply Hi|apply Hi|]. intros _. cbn. rewrite forallb_forall in Hall.
  setoid_rewrite <- list_elem_of_In in Hall. clear - Hall. induction (workers st) as [|x ws IH]; [done|].
  rewrite count_cons. cbn [length]. rewrite IH.
  - assert (x = W_exit) as ->; [|done]. specialize (Hall x). rewrite bool_decide_eq_true in Hall. apply Hall. left.
  - intros y Hy. apply Hall. by right.
Qed.

End Manager.

(** ** [isc__taskmgr_destroy] *)

(** The part of the invariant that does not involve the counters. *)
Definition iplaced (st : system) : Prop :=
  placed (store st) (tasks (manager st)) (ready_tasks (manager st))
    (ready_priority_tasks (manager st)) (places st) (frees st) (excl (manager st)).

(** The loop changes the tasks and the queues of ready tasks, nothing else. *)
Definition same_but_queues (st st' : system) : Prop :=
  exists s r p, st' = set_store s (set_manager (set_ready r p (manager st)) st).

Lemma same_but_queues_trans st st1 st2 :
  same_but_queues st st1 -> same_but_queues st1 st2 -> same_but_queues st st2.
Proof. intros (s & r & p & ->) (s' & r' & p' & ->). by exists s', r', p'. Qed.

Lemma shutdown_task_ok t st :
  iplaced st -> t ∈ tasks (manager st) -> exists T T' b m,
    store st !! t = Some T /\ task_shutdown T = Done (T', b) /\
    (if b then push_readyq t T' (manager st) else Done (manager st)) = Done m /\
    iplaced (put t T' (set_manager m st)) /\ same_but_queues st (put t T' (set_manager m st)) /\
    events T' = events T ++ posted T T'.
Proof.
  intros Hp Ht. destruct (proj1 (p_listed _ _ _ _ _ _ _ Hp t) Ht) as [[T E] _].
  pose proof (p_ok _ _ _ _ _ _ _ Hp _ _ E) as HT.
  destruct (task_shutdown_ok T HT) as (T' & b & Es & Hu & Hr & _ & Hev).
  assert (excl (manager st) = Some t -> 0 < references T') as He.
  { intros Hx. rewrite Hr. destruct (p_excl _ _ _ _ _ _ _ Hp _ Hx) as (T1 & E1 & ?). congruence. }
  pose proof (placed_update Hp t T T' b E Hu He) as Hp1. exists T, T', b. destruct b.
  - assert (t ∉ ready_tasks (manager st)) as Hrl.
    { apply (placed_not_ready Hp t T E). destruct (upd_state _ _ _ Hu). congruence. }
    destruct (placed_push Hp1 t T') as [Hpl Hp2]; [apply lookup_insert_eq|left|done|].
    exists (pushed t T' (manager st)). split_and!; try done.
    + by apply push_ok.
    + eapply placed_perm; [exact Hp2| |done]. unfold places. cbn. rewrite map_app. cbn.
      rewrite <- (app_assoc _ [_]). cbn. by rewrite <- !Permutation_middle.
    + by eexists _, _, _.
  - exists (manager st). split_and!; try done.
    exists (<[t := T']> (store st)), (ready_tasks (manager st)), (ready_priority_tasks (manager st)).
    by destruct st as [s []].
Qed.

Lemma shutdown_tasks_ok l st :
  iplaced st -> NoDup l -> (forall t, t ∈ l -> t ∈ tasks (manager st)) -> exists st',
    shutdown_tasks l st = Done st' /\ iplaced st' /\ same_but_queues st st' /\
    (forall t, t ∉ l -> store st' !! t = store st !! t) /\
    (forall t, t ∈ l -> exists T T', store st !! t = Some T /\ store st' !! t = Some T' /\
       events T' = events T ++ posted T T').
Proof.
  revert st. induction l as [|t l IH]; intros st Hp Hn Hl.
  - exists st. split_and!; try done; [|by intros t ?%not_elem_of_nil].
    exists (store st), (ready_tasks (manager st)), (ready_priority_tasks (manager st)). by destruct st as [s []].
  - apply NoDup_cons in Hn as [Hnt Hn].
    destruct (shutdown_task_ok t st Hp) as (T & T' & b & m & E & Es & Em & Hp1 & Hs1 & Hev); [apply Hl; left|].
    cbn [shutdown_tasks]. rewrite (get_ok _ _ _ E). cbn [obind]. rewrite Es. cbn [obind].
    rewrite Em. cbn [obind]. destruct (IH (put t T' (set_manager m st))) as (st' & -> & Hp' & Hs' & Hne & Hin); [done|done| |].
    { intros t' Ht'. destruct Hs1 as (s & r & p & ->). apply Hl. by right. }
    exists st'. split_and!; try done.
    + by eapply same_but_queues_trans.
    + intros t' [Hd Hd']%not_elem_of_cons. rewrite Hne by done. cbn. by rewrite lookup_insert_ne.
    + intros t' [->|Ht']%elem_of_cons.
      * exists T, T'. rewrite Hne by done. cbn. by rewrite lookup_insert_eq.
      * destruct (Hin t' Ht') as (T1 & T2 & E1 & E2 & H12). exists T1, T2. split_and!; try done.
        cbn in E1. rewrite lookup_insert_ne in E1; [done|]. by intros ->.
Qed.

(** Observations of several tasks, each at most once *)
Lemma concat_posted t (f : nat -> list isc_event) l :
  NoDup l ->
  sent t (concat (map (fun t' => Sent t' <$> f t') l)) = (if decide (t ∈ l) then f t else []) /\
  ran t (concat (map (fun t' => Sent t' <$> f t') l)) = [] /\
  removed t (concat (map (fun t' => Sent t' <$> f t') l)) = [].
Proof.
  induction l as [|x l IH]; intros Hn; [done|]. apply NoDup_cons in Hn as [Hx Hn].
  destruct (IH Hn) as (I1 & I2 & I3). cbn [map concat]. rewrite sent_app, ran_app, removed_app, I1, I2, I3.
  destruct (decide (t = x)) as [->|Hne].
  - destruct (passes_here x (f x)) as ((-> & -> & ->) & _). rewrite decide_False by done.
    rewrite decide_True by left. by rewrite app_nil_r.
  - destruct (passes_only t x Sent (f x)) as (-> & -> & ->); [by left|done|]. cbn.
    split_and!; try done. destruct (decide (t ∈ l)) as [Hd|Hd].
    + rewrite decide_True; [done|]. by right.
    + rewrite decide_False; [done|]. apply not_elem_of_cons. done.
Qed.

(** What the loop over the tasks posts *)
Lemma destroy_passes st st2 t :
  NoDup (tasks (manager st)) ->
  (forall t, t ∉ tasks (manager st) -> store st2 !! t = store st !! t) ->
  (forall t, t ∈ tasks (manager st) -> exists T T', store st !! t = Some T /\ store st2 !! t = Some T' /\
     events T' = events T ++ posted T T') ->
  passes t (queue st t) (queue st2 t) (concat (map (posted_in st st2) (tasks (manager st)))).
Proof.
  intros Hnd Hne Hin.
  set (f := fun t' => match store st !! t', store st2 !! t' with
                      | Some T, Some T' => posted T T' | _, _ => [] end).
  assert (map (posted_in st st2) (tasks (manager st)) = map (fun t' => Sent t' <$> f t') (tasks (manager st))) as ->.
  { apply map_ext. intros t'. unfold posted_in, f. by destruct (store st !! t'), (store st2 !! t'). }
  destruct (concat_posted t f _ Hnd) as (O1 & O2 & O3).
  assert (queue st2 t = queue st t ++ sent t (concat (map (fun t' => Sent t' <$> f t') (tasks (manager st))))) as Hq.
  { rewrite O1. unfold queue, f. case_decide as Hd.
    - destruct (Hin t Hd) as (T & T' & E & E' & Hev). by rewrite E, E'.
    - rewrite (Hne t Hd). by rewrite app_nil_r. }
  split; rewrite ?O3, O2, Hq; done.
Qed.

Lemma destroy_good st : inv st -> guard st C_destroy = true -> step_good st C_destroy.
Proof.
  intros Hi. cbn. rewrite andb_true_iff. intros [Hf%negb_true_iff Hex]. apply negb_true_iff in Hex.
  unfold step_good. rewrite step_client by done. cbn. unfold isc__taskmgr_destroy.
  rewrite require_true by (by rewrite Hex). cbn [obind].
  set (st0 := set_manager (set_mode isc_taskmgrmode_normal (set_exiting true (manager st))) st).
  change (tasks (manager st0)) with (tasks (manager st)).
  assert (iplaced st0) as Hp0 by apply Hi.
  destruct (shutdown_tasks_ok (tasks (manager st)) st0 Hp0) as (st' & -> & Hp' & Hs & Hne & Hin);
    [apply Hi|done|]. cbn [obind].
  destruct Hs as (s & r & p & Est').
  assert (control (manager st') (broadcast (workers st'))) as Hc2.
  { rewrite Est'. apply (control_broadcast_ext (manager st)); try done; [apply Hi|].
    intros Hfin. unfold FINISHED in Hfin. by rewrite Hex in Hfin. }
  set (st2 := set_workers (broadcast (workers st')) st').
  assert (inv st2) as Hi2.
  { split; [|done|unfold st2; rewrite Est'; cbn; congruence].
    eapply placed_perm; [exact Hp'|..].
    - unfold places. cbn. by rewrite places_broadcast.
    - unfold frees. cbn. by rewrite frees_broadcast. }
  eexists _, _. split; [done|]. split; [done| | |intros x Hx _; unfold st2; by rewrite Est'].
  - intros t. apply destroy_passes; [apply Hi|exact Hne|exact Hin].
  - intros _ Hw. split; [|unfold st2; by rewrite Est'].
    intros _ Hx Hq. pose proof (ready_unfinished st2 Hi2 Hq) as Hfin.
    pose proof (broadcast_awake _ _ Hc2 Hx Hfin) as Ha.
    assert (broadcast (broadcast (workers st')) = broadcast (workers st')) as Hbb.
    { unfold broadcast. rewrite map_map. apply map_ext. by intros []. }
    rewrite Hbb in Ha. exact Ha.
Qed.
