(* ===== verification/TaskWorker.v ===== *)
(** * Steps of the workers *)

From S2P Require Import Prelude Task TaskOps TaskPlace TaskSystem TaskClient TaskManager.

Lemma step_worker st l w :
  freed st = false -> label_worker l = Some w -> step st l = worker_step st w l.
Proof. intros Hf Hl. unfold step. by rewrite Hf, Hl. Qed.

Lemma worker_unfreed st w pc :
  inv st -> workers st !! w = Some pc -> exited pc = false -> freed st = false.
Proof.
  intros Hi E Hx. apply freed_false; [done|]. left. exists pc. split; [|done]. by eapply list_elem_of_lookup_2.
Qed.

(** The places of the tasks when one worker moves *)
Lemma places_goto st w pc :
  workers st !! w = Some pc -> exists rest,
    places st ≡ₚ option_list (pc_place pc) ++ map ready_place (ready_tasks (manager st)) ++ rest /\
    forall pc' st', calls st' = calls st -> workers st' = <[w := pc']> (workers st) ->
      places st' ≡ₚ option_list (pc_place pc') ++ map ready_place (ready_tasks (manager st')) ++ rest.
Proof.
  intros E. destruct (omap_insert pc_place _ _ _ E) as (r & E1 & E2).
  exists (map (fun c => ready_place c.1) (calls st) ++ r).
  assert (forall a b c d : list place, c ++ a ++ b ++ d ≡ₚ b ++ a ++ c ++ d) as Hsw.
  { intros a b c d. rewrite (app_assoc c a), (Permutation_app_comm c a), <- app_assoc.
    rewrite (app_assoc c b), (Permutation_app_comm c b), <- app_assoc.
    rewrite (app_assoc a b), (Permutation_app_comm a b), <- app_assoc. done. }
  split; [unfold places; by rewrite E1, Hsw|].
  intros pc' st' Hc Hw. unfold places. by rewrite Hc, Hw, E2, Hsw.
Qed.

(** A worker moves between points with the same place. *)
Lemma places_same st w pc pc' st' :
  workers st !! w = Some pc -> pc_place pc' = pc_place pc -> calls st' = calls st ->
  ready_tasks (manager st') = ready_tasks (manager st) ->
  workers st' = <[w := pc']> (workers st) -> places st' ≡ₚ places st.
Proof.
  intros E Hp Hc Hr Hw. destruct (places_goto st w pc E) as (rest & -> & H).
  rewrite (H pc' st') by done. by rewrite Hp, Hr.
Qed.

Lemma frees_same st w pc pc' st' :
  workers st !! w = Some pc -> pc_free pc' = pc_free pc ->
  workers st' = <[w := pc']> (workers st) -> frees st' ≡ₚ frees st.
Proof. intros E Hp Hw. unfold frees. rewrite Hw. by apply omap_same with pc. Qed.

(** A task at a worker is not on the queue. *)
Lemma worker_not_queued st w pc t x :
  inv st -> workers st !! w = Some pc -> pc_place pc = Some (t, x) ->
  t ∉ ready_tasks (manager st) /\ exists T, store st !! t = Some T /\ state T = x.
Proof.
  intros Hi E Hp. destruct (places_goto st w pc E) as (rest & Hperm & _). rewrite Hp in Hperm. split.
  - intros Hr. pose proof (p_nodup _ _ _ _ _ _ _ (i_placed _ Hi)) as Hn. rewrite Hperm in Hn.
    cbn in Hn. apply NoDup_cons in Hn as [Hn _]. apply Hn. rewrite fmap_app, elem_of_app. left.
    apply list_elem_of_fmap. exists (ready_place t). split; [done|]. by apply list_elem_of_fmap_2.
  - apply (p_state _ _ _ _ _ _ _ (i_placed _ Hi)). rewrite Hperm. left.
Qed.

(** Two workers are never at the same task. *)
Lemma one_worker st w1 w2 pc1 pc2 t x1 x2 :
  inv st -> workers st !! w1 = Some pc1 -> workers st !! w2 = Some pc2 ->
  pc_place pc1 = Some (t, x1) -> pc_place pc2 = Some (t, x2) -> w1 = w2.
Proof.
  intros Hi E1 E2 P1 P2. destruct (decide (w1 = w2)) as [|Hne]; [done|]. exfalso.
  pose proof (p_nodup _ _ _ _ _ _ _ (i_placed _ Hi)) as Hn. unfold places in Hn.
  rewrite !fmap_app, !NoDup_app in Hn. destruct Hn as (_ & _ & _ & _ & Hn).
  destruct (omap_insert pc_place _ _ _ E1) as (r & O1 & O2). rewrite P1 in O1.
  change (NoDup (omap pc_place (workers st)).*1) in Hn. rewrite O1 in Hn. cbn in Hn.
  apply NoDup_cons in Hn as [Hn _]. apply Hn.
  assert (omap pc_place (<[w1 := W_exit]> (workers st)) ≡ₚ r) as O3 by apply (O2 W_exit).
  apply list_elem_of_fmap. exists (t, x2). split; [done|]. rewrite <- O3.
  apply list_elem_of_omap. exists pc2. split; [|done].
  apply list_elem_of_lookup_2 with w2. by rewrite list_lookup_insert_ne.
Qed.

Lemma count_insert_le p (ws : list worker_pc) w pc : (count p (<[w := pc]> ws) <= length ws)%nat.
Proof. rewrite <- (length_insert ws w pc). apply count_length. Qed.

(** ** The sections under the task lock *)

Definition verdict_pc (t : nat) (v : verdict) : worker_pc :=
  match v with
  | V_action n => W_action t n false
  | V_idle => W_end None
  | V_requeue => W_end (Some t)
  | V_finished => W_finished t
  end.

(** A busy worker that neither holds nor wants exclusive access moves to a point of
    the same kind. *)
Lemma control_move m ws w pc pc' :
  control m ws -> ws !! w = Some pc ->
  busy pc = true -> granted pc = false -> exclwaiting pc = false -> exclwoken pc = false ->
  busy pc' = true -> granted pc' = false -> exclwaiting pc' = false -> exclwoken pc' = false ->
  control m (<[w := pc']> ws) /\ count busy (<[w := pc']> ws) = count busy ws /\
  count awake (<[w := pc']> ws) = count awake ws.
Proof.
  intros Hc E B1 G1 W1 K1 B2 G2 W2 K2.
  assert (forall pc, busy pc = true -> exclwaiting pc = false ->
    sleeping pc = false /\ exited pc = false /\ awake pc = true) as Hb by (by intros []).
  destruct (Hb _ B1 W1) as (S1 & X1 & A1), (Hb _ B2 W2) as (S2 & X2 & A2).
  assert (forall p, p pc = p pc' -> count p (<[w := pc']> ws) = count p ws) as Hsame.
  { intros p Hp. pose proof (count_insert p _ _ _ pc' E) as H. rewrite Hp in H. clear - H. lia. }
  split_and!; try (apply Hsame; congruence).
  destruct Hc. split; rewrite ?(Hsame busy), ?(Hsame granted), ?(Hsame exclwaiting), ?(Hsame exclwoken),
    ?(Hsame exited), ?(Hsame sleeping), ?Zlen_insert, ?length_insert by congruence; assumption.
Qed.

Lemma worker_task_good st w pc t T f l :
  inv st -> workers st !! w = Some pc -> pc_place pc = Some (t, state T) ->
  busy pc = true -> granted pc = false -> exclwaiting pc = false -> exclwoken pc = false ->
  pc_free pc = None -> state T <> task_state_done ->
  store st !! t = Some T -> section_ok T (f T) ->
  exists st' o, worker_task w t f st = Done (st', o) /\ good st l st' o.
Proof.
  intros Hi E Hp B G W K Hfree Hd ET (T' & evs & v & Ef & HT' & Sv & Hfl).
  unfold worker_task. rewrite (get_ok _ _ _ ET). cbn [obind]. rewrite Ef. cbn [obind].
  fold (verdict_pc t v). eexists _, _. split; [done|].
  destruct (worker_not_queued st w pc t _ Hi E Hp) as [Hrl _].
  destruct (places_goto st w pc E) as (rest & Hperm & Hgoto). rewrite Hp in Hperm. cbn in Hperm.
  destruct (control_move _ _ w pc (verdict_pc t v) (i_control _ Hi) E) as (Hc & Hb & Ha); try done;
    [by destruct v..|].
  pose proof (placed_section (i_placed _ Hi) t T T' _ ET Hperm Hd Hrl HT' (fl_privilege _ _ _ Hfl)
    (fl_references _ _ _ Hfl)) as Hplaced.
  split.
  - split; [|done|].
    + eapply placed_perm; [exact Hplaced|..].
      * rewrite (Hgoto (verdict_pc t v)) by done. rewrite Sv. by destruct v.
      * unfold frees. cbn. symmetry. apply omap_same with pc; [done|]. rewrite Hfree. by destruct v.
    + cbn. rewrite (worker_unfreed st w pc Hi E); [done|by destruct pc].
  - intros t'. rewrite <- (app_nil_r (Ran t <$> evs)).
    apply (passes_put st t T T' _ evs []); [done|..]; by rewrite (fl_queue _ _ _ Hfl).
  - intros _ []. split; cbn; by rewrite ?Hb, ?Ha.
  - done.
Qed.

(** ** Exclusive access *)

Lemma exclusive_wait_control m ws w t n pc :
  control m ws -> ws !! w = Some pc -> pc = W_exclwake t n ->
  let pc' := if 1 <? tasks_running m then W_exclwait t n else W_action t n true in
  control m (<[w := pc']> ws) /\ count busy (<[w := pc']> ws) = count busy ws /\
  (exclusive_requested m = true).
Proof.
  intros Hc E -> pc'. assert (0 < count exclwoken ws)%nat as Hk.
  { apply count_pos with (W_exclwake t n); [by eapply list_elem_of_lookup_2|done]. }
  assert (exclusive_requested m = true) as Hx.
  { pose proof (c_exclusive _ _ Hc). destruct (exclusive_requested m); [done|lia]. }
  pose proof (c_exclusive _ _ Hc) as Hcx. rewrite Hx in Hcx.
  assert (0 < count busy ws)%nat as Hb.
  { apply count_pos with (W_exclwake t n); [by eapply list_elem_of_lookup_2|done]. }
  pose proof (c_running _ _ Hc) as Hr.
  unfold pc'. destruct (1 <? tasks_running m) eqn:E1.
  - apply Z.ltb_lt in E1. counts E (W_exclwait t n). destruct Hc. split_and!; [|lia|done].
    split; rewrite ?Zlen_insert, ?length_insert, ?Hx; try assumption; try lia.
  - apply Z.ltb_ge in E1. counts E (W_action t n true). destruct Hc. split_and!; [|lia|done].
    split; rewrite ?Zlen_insert, ?length_insert, ?Hx; try assumption; try lia.
Qed.

(** A step that only moves a worker and changes the flags of the manager. *)
Lemma quiet_goto st w pc pc' m :
  inv st -> workers st !! w = Some pc -> exited pc = false ->
  pc_place pc' = pc_place pc -> pc_free pc' = pc_free pc ->
  tasks m = tasks (manager st) -> ready_tasks m = ready_tasks (manager st) ->
  ready_priority_tasks m = ready_priority_tasks (manager st) -> excl m = excl (manager st) ->
  control m (<[w := pc']> (workers st)) -> quiet st (goto w pc' (set_manager m st)).
Proof.
  intros Hi E Hx Hp Hf E1 E2 E3 E4 Hc. split; [|done|done]. split; [|done|].
  - cbn [store manager goto set_workers set_manager]. rewrite E1, E2, E3, E4.
    eapply placed_perm; [apply Hi|symmetry; by apply places_same with w pc pc'|].
    symmetry. by apply frees_same with w pc pc'.
  - cbn. by rewrite (worker_unfreed st w pc).
Qed.

Lemma good_goto st w l pc pc' m :
  inv st -> workers st !! w = Some pc -> exited pc = false ->
  pc_place pc' = pc_place pc -> pc_free pc' = pc_free pc ->
  tasks m = tasks (manager st) -> ready_tasks m = ready_tasks (manager st) ->
  ready_priority_tasks m = ready_priority_tasks (manager st) -> excl m = excl (manager st) ->
  control m (<[w := pc']> (workers st)) ->
  (wakeful (manager st) (workers st) -> wakeful m (<[w := pc']> (workers st))) ->
  good st l (goto w pc' (set_manager m st)) [].
Proof. intros. apply quiet_good; [by apply quiet_goto with pc|done]. Qed.

Section Worker.
Context (st : system) (Hi : inv st) (w : nat).

Lemma beginexclusive_good t n x :
  workers st !! w = Some (W_action t n x) -> step_good st (W_beginexclusive w).
Proof.
  intros E. pose proof (worker_unfreed _ _ _ Hi E eq_refl) as Hf.
  destruct (worker_not_queued st w _ t _ Hi E eq_refl) as (_ & T & ET & HT).
  unfold step_good. rewrite (step_worker st _ w) by done. unfold worker_step. rewrite E.
  unfold isc__task_beginexclusive. rewrite (get_ok _ _ _ ET). cbn.
  rewrite require_true by (by apply in_state_spec). cbn.
  destruct (exclusive_requested (manager st)) eqn:Ex.
  { exists st, []. split; [done|]. split; [done|by apply passes_same|done|done]. }
  pose proof (i_control _ Hi) as Hc. pose proof (c_exclusive _ _ Hc) as Hcx. rewrite Ex in Hcx.
  assert (x = false) as ->.
  { destruct x; [|done]. assert (0 < count granted (workers st))%nat; [|lia].
    apply count_pos with (W_action t n true); [by eapply list_elem_of_lookup_2|done]. }
  set (m := set_exclusive true (manager st)).
  counts E (W_exclwake t n).
  assert (0 < count busy (workers st))%nat as Hb.
  { apply count_pos with (W_action t n false); [by eapply list_elem_of_lookup_2|done]. }
  set (ws1 := <[w := W_exclwake t n]> (workers st)) in *.
  assert (control m ws1) as Hc1.
  { destruct Hc. split; unfold ws1; rewrite ?Zlen_insert, ?length_insert; cbn;
      try assumption; fold ws1; clear Hi; try lia.
    - intros Hxx. apply c_exit. lia.
    - intros Hxx. specialize (c_finished Hxx). lia. }
  assert (ws1 !! w = Some (W_exclwake t n)) as E1
    by (apply list_lookup_insert_eq; by apply lookup_lt_Some in E).
  destruct (exclusive_wait_control m ws1 w t n _ Hc1 E1 eq_refl) as (Hc2 & Hb2 & _).
  assert (exclusive_wait w t n (set_manager m st) =
    goto w (if 1 <? tasks_running m then W_exclwait t n else W_action t n true) (set_manager m st)) as ->.
  { unfold exclusive_wait, m. cbn. by destruct (1 <? tasks_running (manager st)). }
  set (pc' := if 1 <? tasks_running m then W_exclwait t n else W_action t n true) in *.
  eexists _, []. split; [done|]. unfold ws1 in Hc2, Hb2. rewrite list_insert_insert_eq in Hc2, Hb2.
  apply good_goto with (W_action t n false); try done.
  - unfold pc'. by destruct (1 <? _).
  - unfold pc'. by destruct (1 <? _).
  - intros []. split; [done|]. intros Hm. left. rewrite Hb2. fold ws1. lia.
Qed.

Lemma granted_good t n : workers st !! w = Some (W_exclwake t n) -> step_good st (W_granted w).
Proof.
  intros E. pose proof (worker_unfreed _ _ _ Hi E eq_refl) as Hf.
  unfold step_good. rewrite (step_worker st _ w) by done. unfold worker_step. rewrite E.
  destruct (exclusive_wait_control _ _ w t n _ (i_control _ Hi) E eq_refl) as (Hc & Hb & Hx).
  assert (exclusive_wait w t n st =
    goto w (if 1 <? tasks_running (manager st) then W_exclwait t n else W_action t n true)
      (set_manager (manager st) st)) as ->.
  { unfold exclusive_wait. destruct st; cbn. by destruct (1 <? _). }
  eexists _, []. split; [done|]. apply good_goto with (W_exclwake t n); try done.
  - by destruct (1 <? _).
  - by destruct (1 <? _).
  - intros [H1 H2]. split; [congruence|]. by rewrite Hb.
Qed.

Lemma endexclusive_good t n : workers st !! w = Some (W_action t n true) -> step_good st (W_endexclusive w).
Proof.
  intros E. pose proof (worker_unfreed _ _ _ Hi E eq_refl) as Hf.
  destruct (worker_not_queued st w _ t _ Hi E eq_refl) as (_ & T & ET & HT).
  unfold step_good. rewrite (step_worker st _ w) by done. unfold worker_step. rewrite E.
  unfold isc__task_endexclusive. rewrite (get_ok _ _ _ ET). cbn.
  rewrite require_true by (by apply in_state_spec). cbn.
  pose proof (i_control _ Hi) as Hc. pose proof (c_exclusive _ _ Hc) as Hcx.
  assert (0 < count granted (workers st))%nat as Hg.
  { apply count_pos with (W_action t n true); [by eapply list_elem_of_lookup_2|done]. }
  destruct (exclusive_requested (manager st)) eqn:Ex; [|lia]. cbn.
  counts E (W_action t n false).
  set (ws1 := <[w := W_action t n false]> (workers st)) in *.
  set (m := set_exclusive false (manager st)).
  assert (control m ws1) as Hc1.
  { destruct Hc. split; unfold ws1; rewrite ?Zlen_insert, ?length_insert; cbn;
      try assumption; fold ws1; clear Hi; try lia.
    - intros Hxx. apply c_exit. lia.
    - intros Hxx. specialize (c_finished Hxx). lia. }
  eexists _, []. split; [done|].
  apply good_manager; try done.
  - unfold places. cbn. rewrite places_broadcast. do 2 f_equiv. by apply omap_same with (W_action t n true).
  - unfold frees. cbn. rewrite frees_broadcast. by apply omap_same with (W_action t n true).
  - cbn. by apply control_broadcast.
  - intros _ Hw. cbn. destruct (wake_counts ws1) as (Hb1 & _ & _ & _ & _ & Ha1).
    assert (0 < count busy ws1)%nat as Hb.
    { pose proof (c_granted _ _ Hc Hg). lia. }
    split.
    + intros _ _ _. pose proof (awake_busy _ _ Hc1 eq_refl). lia.
    + intros _. left. lia.
Qed.

Lemma spurious_worker_good pc :
  workers st !! w = Some pc -> sleeping pc || exclwaiting pc = true -> step_good st (W_spurious w).
Proof.
  intros E Hs. assert (exited pc = false) as Hx by (by destruct pc).
  pose proof (worker_unfreed _ _ _ Hi E Hx) as Hf.
  unfold step_good. rewrite (step_worker st _ w) by done. unfold worker_step. rewrite E.
  assert (forall pc', goto w pc' st = goto w pc' (set_manager (manager st) st)) as Hg by (by destruct st).
  pose proof (i_control _ Hi) as Hc.
  destruct pc as [| | | | |t n| | | | |]; try done; rewrite Hg; eexists _, []; (split; [done|]).
  - apply good_goto with W_wait; try done; [by apply control_wake|].
    counts E W_wake. intros [H1 H2]. split; [intros A B C; specialize (H1 A B C); lia|].
    intros A. destruct (H2 A) as [?|?]; [left; lia|by right].
  - counts E (W_exclwake t n). apply good_goto with (W_exclwait t n); try done.
    + destruct Hc. split; rewrite ?Zlen_insert, ?length_insert; try assumption; clear Hi Hg; lia.
    + intros [H1 H2]. split; [intros A B C; specialize (H1 A B C); lia|].
      intros A. destruct (H2 A) as [?|?]; [left; lia|by right].
Qed.

(** ** The end of a task *)

Lemma finished_in_list t : workers st !! w = Some (W_finished t) -> t ∉ frees st.
Proof.
  intros E HF. unfold frees in HF. apply list_elem_of_omap in HF as (pc & Hin & Hpc).
  destruct pc; try done. injection Hpc as ->. destruct (list_elem_of_lookup_1 _ _ Hin) as [w' Hw'].
  assert (w = w') as -> by (by eapply (one_worker st w w')). congruence.
Qed.

Lemma task_finished_good t : workers st !! w = Some (W_finished t) -> step_good st (W_task_finished w).
Proof.
  intros E. pose proof (worker_unfreed _ _ _ Hi E eq_refl) as Hf.
  destruct (worker_not_queued st w _ t _ Hi E eq_refl) as (_ & T & ET & HT).
  pose proof (p_ok _ _ _ _ _ _ _ (i_placed _ Hi) _ _ ET) as Hok.
  destruct (ok_done _ Hok HT) as (Hr & Hev & Hsh). pose proof (ok_shutdown _ Hok Hsh) as Hon.
  assert ((t, task_state_done) ∈ places st) as Hp.
  { destruct (places_goto st w _ E) as (rest & Hperm & _). rewrite Hperm. left. }
  destruct (placed_finished (i_placed _ Hi) t Hp (finished_in_list t E)) as [Htl Hplaced].
  unfold step_good. rewrite (step_worker st _ w) by done. unfold worker_step. rewrite E.
  unfold task_finished. change (get (goto w (W_free t) st) t) with (get st t).
  rewrite (get_ok _ _ _ ET). cbn [obind]. rewrite Hev, Hon, Hr. cbn [EMPTY require obind Z.eqb].
  rewrite require_true by (by apply in_state_spec). cbn [obind].
  change (manager (goto w (W_free t) st)) with (manager st). rewrite dequeue_ok by done. cbn [obind].
  set (m := set_tasks (filter (fun x => x <> t) (tasks (manager st))) (manager st)).
  set (ws1 := <[w := W_free t]> (workers st)).
  exists (mkSystem (store st) m (calls st) (if FINISHED m then broadcast ws1 else ws1)
    (pausing st) (resumed st) (freed st)), [].
  split; [by destruct (FINISHED m)|].
  destruct (control_move _ _ w _ (W_free t) (i_control _ Hi) E) as (Hc & Hb & Ha); try done.
  fold ws1 in Hc, Hb, Ha.
  assert (count exited ws1 = 0%nat) as Hex.
  { destruct (count exited ws1) eqn:Ec; [done|].
    assert (FINISHED (manager st) = true) as Hfin by (apply Hc; lia).
    unfold FINISHED in Hfin. apply andb_true_iff in Hfin as [_ Hfin%EMPTY_true].
    rewrite Hfin in Htl. by apply not_elem_of_nil in Htl. }
  assert (control m (if FINISHED m then broadcast ws1 else ws1)) as Hc'.
  { destruct (FINISHED m) eqn:Efin.
    - apply (control_broadcast_ext (manager st)); try done.
    - destruct Hc. split; try assumption; [lia|]. by rewrite Efin. }
  assert (forall A (f : worker_pc -> option A), (forall pc, f (wake pc) = f pc) ->
    omap f (if FINISHED m then broadcast ws1 else ws1) = omap f ws1) as Hom.
  { intros A f Hff. destruct (FINISHED m); [by apply omap_broadcast|done]. }
  split; [split| | |done].
  - cbn. eapply placed_perm; [exact Hplaced|..].
    + unfold places. cbn. rewrite Hom by (by intros []). do 2 f_equiv. symmetry.
      by apply omap_same with (W_finished t).
    + unfold frees. cbn. rewrite Hom by (by intros []). unfold ws1.
      destruct (omap_insert pc_free _ _ _ E) as (r & E1 & E2). by rewrite E1, E2.
  - exact Hc'.
  - cbn. congruence.
  - by apply passes_same.
  - intros _ [H1 H2]. cbn. destruct (wake_counts ws1) as (Hb' & _ & _ & _ & _ & Ha').
    split; cbn.
    + intros A B C. specialize (H1 A B C). destruct (FINISHED m); lia.
    + intros A. destruct (H2 A) as [?|?]; [left; destruct (FINISHED m); lia|by right].
Qed.

Lemma task_free_good t : workers st !! w = Some (W_free t) -> step_good st (W_task_free w).
Proof.
  intros E. pose proof (worker_unfreed _ _ _ Hi E eq_refl) as Hf.
  destruct (places_goto st w _ E) as (rest & Hperm & Hgoto). cbn in Hperm.
  destruct (omap_insert pc_free _ _ _ E) as (r & E1 & E2). cbn in E1.
  assert (NoDup (frees st)) as Hnd.
  { pose proof (p_nodup _ _ _ _ _ _ _ (i_placed _ Hi)) as Hn. unfold places in Hn.
    rewrite !fmap_app, !NoDup_app in Hn. destruct Hn as (_ & _ & _ & _ & Hn).
    unfold frees. eapply sublist_NoDup; [exact Hn|]. clear.
    induction (workers st) as [|pc ws IH]; [done|].
    destruct pc as [| | | | | | | | |[]|]; cbn; try done; try (by apply sublist_cons); by apply sublist_skip. }
  assert (t ∉ r) as Htr.
  { unfold frees in Hnd. rewrite E1 in Hnd. by apply NoDup_cons in Hnd as [? _]. }
  destruct (placed_freed (i_placed _ Hi) t _ r Hperm E1 Htr) as [[T ET] Hplaced].
  unfold step_good. rewrite (step_worker st _ w) by done. unfold worker_step. rewrite E.
  rewrite (get_ok _ _ _ ET). cbn [obind]. eexists _, []. split; [done|].
  destruct (control_move _ _ w _ (W_end None) (i_control _ Hi) E) as (Hc & Hb & Ha); try done.
  split; [split| | |done].
  - eapply placed_perm; [exact Hplaced|..].
    + by rewrite (Hgoto (W_end None)).
    + unfold frees. cbn. by rewrite E2.
  - exact Hc.
  - cbn. congruence.
  - assert (events T = []) as Hev.
    { pose proof (p_ok _ _ _ _ _ _ _ (i_placed _ Hi) _ _ ET) as Hok. apply (ok_done _ Hok).
      apply (placed_at (i_placed _ Hi) t T _ ET). rewrite Hperm. left. }
    apply passes_same. intros t'. unfold queue. cbn. destruct (decide (t = t')) as [<-|Hne].
    + by rewrite lookup_delete_eq, ET.
    + by rewrite lookup_delete_ne.
  - intros _ []. split; cbn; by rewrite ?Hb, ?Ha.
Qed.

End Worker.
