(* ===== verification/TaskDispatch.v ===== *)
(** * The loop of [dispatch] under the manager lock, and every step *)

From S2P Require Import Prelude Task TaskOps TaskPlace TaskSystem TaskClient TaskManager TaskWorker.

(** [w_work] alone: [w_mode] is restored by [drop_privilege]. *)
Definition working (st : system) : Prop :=
  pause_requested (manager st) = false -> exclusive_requested (manager st) = false ->
  readyq (manager st) <> [] -> (0 < count awake (workers st))%nat.

(** A worker that waits for nothing *)
Lemma start_awake st w pc : workers st !! w = Some pc -> awake pc = true -> (0 < count awake (workers st))%nat.
Proof. intros E Ha. apply count_pos with pc; [by eapply list_elem_of_lookup_2|done]. Qed.

Lemma unfinished_ready st : inv st -> FINISHED (manager st) = true -> readyq (manager st) = [].
Proof.
  intros Hi Hf. destruct (readyq (manager st)) eqn:E; [done|].
  rewrite (ready_unfinished st Hi) in Hf; [done|]. by rewrite E.
Qed.

Lemma drop_privilege_ok st :
  inv st -> freed st = false -> working st ->
  quiet st (drop_privilege st) /\
  wakeful (manager (drop_privilege st)) (workers (drop_privilege st)) /\
  FINISHED (manager (drop_privilege st)) = FINISHED (manager st) /\
  freed (drop_privilege st) = false /\
  (forall w pc, workers st !! w = Some pc -> pc <> W_wait -> workers (drop_privilege st) !! w = Some pc).
Proof.
  intros Hi Hf Hw. unfold drop_privilege. pose proof (i_control _ Hi) as Hc.
  destruct ((tasks_running (manager st) =? 0) && empty_readyq (manager st)) eqn:Ed.
  2: { split_and!; try done. split; [done|]. intros Hm.
       apply andb_false_iff in Ed as [Ed%Z.eqb_neq|Ed].
       - left. rewrite (c_running _ _ Hc) in Ed. lia.
       - right. unfold empty_readyq, readyq in Ed. rewrite Hm in Ed. by apply EMPTY_false. }
  set (m := set_mode isc_taskmgrmode_normal (manager st)).
  assert (control m (workers st)) as Hc1 by (by apply (control_ext (manager st))).
  assert (inv (set_manager m st)) as Hi1 by (split; [apply Hi|done|apply Hi]).
  destruct (empty_readyq m) eqn:Em.
  - split_and!; try done.
    split; [|done]. intros _ _ Hq. by apply EMPTY_true in Em.
  - apply EMPTY_false in Em. split_and!; try done.
    + split; [|done|done]. split; [|cbn; by apply control_broadcast|cbn; congruence].
      eapply placed_perm; [apply Hi|..].
      * unfold places. cbn. by rewrite places_broadcast.
      * unfold frees. cbn. by rewrite frees_broadcast.
    + split; [|done]. intros _ Hex _. cbn. apply (broadcast_awake m); [done..|].
      exact (ready_unfinished _ Hi1 Em).
    + intros w pc E Hne. cbn. unfold broadcast. rewrite list_lookup_fmap, E. cbn. by destruct pc.
Qed.

Section Dispatch.
Context (st : system) (Hi : inv st) (w : nat) (pc : worker_pc).
Context (E : workers st !! w = Some pc).

(** The worker is at the head of the loop, or just woken. *)
Context (Hpc : pc = W_start \/ pc = W_wake).

Lemma head_spec :
  busy pc = false /\ sleeping pc = false /\ exited pc = false /\ granted pc = false /\
  exclwaiting pc = false /\ exclwoken pc = false /\ awake pc = true /\ pc_place pc = None /\ pc_free pc = None.
Proof. by destruct Hpc as [-> | ->]. Qed.

Lemma goto_manager pc' : goto w pc' st = goto w pc' (set_manager (manager st) st).
Proof. by destruct st. Qed.

(** The worker moves to a point where it does not run a task. *)
Lemma head_control m pc' :
  busy pc' = false -> granted pc' = false -> exclwaiting pc' = false -> exclwoken pc' = false ->
  tasks_running m = tasks_running (manager st) -> pause_requested m = pause_requested (manager st) ->
  exclusive_requested m = exclusive_requested (manager st) -> FINISHED m = FINISHED (manager st) ->
  (sleeping pc' = true -> FINISHED m = false) -> (exited pc' = true -> FINISHED m = true) ->
  control m (<[w := pc']> (workers st)) /\
  count busy (<[w := pc']> (workers st)) = count busy (workers st).
Proof.
  intros B2 G2 W2 K2 R1 R2 R3 R4 Hsl Hex.
  destruct head_spec as (Hb & Hs & Hx & Hg & Hw & Hk & Ha & Hp & Hf).
  assert (forall p, p pc' = false -> p pc = false ->
    count p (<[w := pc']> (workers st)) = count p (workers st)) as Hsame.
  { intros p H1 H2. pose proof (count_insert p _ _ _ pc' E) as H. rewrite H1, H2 in H. clear - H. lia. }
  split; [|by apply Hsame]. pose proof (i_control _ Hi) as [].
  split; rewrite ?(Hsame busy), ?(Hsame granted), ?(Hsame exclwaiting), ?(Hsame exclwoken),
    ?Zlen_insert, ?length_insert, ?R1, ?R2, ?R3, ?R4 by done; try assumption.
  - intros Hpos. rewrite R4 in Hex. destruct (exited pc') eqn:Ee; [by apply Hex|]. apply c_exit.
    by rewrite Hsame in Hpos.
  - intros Hfin. rewrite R4 in Hsl. destruct (sleeping pc') eqn:Ee; [by rewrite Hsl in Hfin|].
    rewrite Hsame by done. by apply c_finished.
Qed.

Lemma exit_ok :
  FINISHED (manager st) = true ->
  quiet st (goto w W_exit st) /\
  (wakeful (manager st) (workers st) ->
   wakeful (manager (goto w W_exit st)) (workers (goto w W_exit st))).
Proof.
  intros Hfin. destruct head_spec as (Hb & Hs & Hx & Hg & Hw & Hk & Ha & Hp & Hf).
  destruct (head_control (manager st) W_exit) as [Hc Eb]; try done. rewrite goto_manager. split.
  - apply quiet_goto with pc; try done; by rewrite ?Hp, ?Hf.
  - intros [H1 H2]. split; cbn; [|by rewrite Eb]. intros _ _ Hq.
    by rewrite (unfinished_ready st Hi Hfin) in Hq.
Qed.

Lemma sleep_ok :
  empty_readyq (manager st) || pause_requested (manager st) || exclusive_requested (manager st) = true ->
  FINISHED (manager st) = false ->
  quiet st (goto w W_wait st) /\
  (wakeful (manager st) (workers st) ->
   wakeful (manager (goto w W_wait st)) (workers (goto w W_wait st))).
Proof.
  intros Hcond Hfin. destruct head_spec as (Hb & Hs & Hx & Hg & Hw & Hk & Ha & Hp & Hf).
  destruct (head_control (manager st) W_wait) as [Hc Eb]; try done. rewrite goto_manager. split.
  - apply quiet_goto with pc; try done; by rewrite ?Hp, ?Hf.
  - intros [H1 H2]. split; cbn; [|by rewrite Eb]. intros A B C.
    rewrite A, B in Hcond. rewrite !orb_false_r in Hcond. by apply EMPTY_true in Hcond.
Qed.

(** Taking a task *)
Lemma take_ok t q :
  readyq (manager st) = t :: q -> pause_requested (manager st) = false ->
  exclusive_requested (manager st) = false -> exists T,
  store st !! t = Some T /\
  let m := popped t (manager st) in
  let st' := goto w (W_popped t) (set_manager (set_running (u32 (tasks_running m + 1)) m) st) in
  quiet st st' /\ wakeful (manager st') (workers st').
Proof.
  intros Eq Hpa Hexc. destruct head_spec as (Hb & Hs & Hx & Hg & Hw & Hk & Ha & Hp & Hf).
  destruct (pop_ok _ _ _ _ _ _ (i_placed _ Hi) Eq) as [Ht _].
  pose proof (p_ready _ _ _ _ _ _ _ (i_placed _ Hi) _ Ht) as Hpl.
  destruct (p_state _ _ _ _ _ _ _ (i_placed _ Hi) _ _ Hpl) as (_ & T & ET & HT).
  exists T. split; [done|]. intros m st'.
  set (ws' := <[w := W_popped t]> (workers st)).
  assert (count busy ws' = S (count busy (workers st))) as Eb.
  { pose proof (count_insert busy _ _ _ (W_popped t) E) as H. rewrite Hb in H. cbn in H. unfold ws'. clear - H. lia. }
  assert (0 < count awake ws')%nat as Haw.
  { apply count_pos with (W_popped t); [|done]. apply list_elem_of_lookup_2 with w.
    apply list_lookup_insert_eq. by apply lookup_lt_Some in E. }
  split; [split; [split| |]|split].
  - eapply placed_perm; [exact (placed_pop (i_placed _ Hi) t Ht)|..].
    + destruct (places_goto st w pc E) as (rest & Hperm & Hgoto). rewrite Hp in Hperm. cbn in Hperm.
      rewrite (Hgoto (W_popped t) st') by done. cbn. rewrite Hperm.
      assert (ready_tasks (manager st) ≡ₚ t :: filter (fun x => x <> t) (ready_tasks (manager st))) as Hf1.
      { apply (filter_out_perm (fun x => x)); [|done]. rewrite map_id.
        pose proof (p_nodup _ _ _ _ _ _ _ (i_placed _ Hi)) as Hn. unfold places in Hn.
        rewrite !fmap_app, !NoDup_app in Hn. destruct Hn as (_ & _ & Hn & _).
        change (NoDup (map fst (map ready_place (ready_tasks (manager st))))) in Hn.
        rewrite map_map in Hn. by rewrite map_id in Hn. }
      exact (Permutation_app_tail rest (Permutation_map ready_place Hf1)).
    + symmetry. apply frees_same with w pc (W_popped t); [done|by rewrite Hf|done].
  - cbn. change (<[w := W_popped t]> (workers st)) with ws'. pose proof (i_control _ Hi) as Hc.
    assert (forall p, p (W_popped t) = false -> p pc = false -> count p ws' = count p (workers st)) as Hsame.
    { intros p H1 H2. pose proof (count_insert p _ _ _ (W_popped t) E) as H. rewrite H1, H2 in H. unfold ws'. clear - H. lia. }
    pose proof (c_exclusive _ _ Hc) as Hce. rewrite Hexc in Hce.
    pose proof (count_insert_le busy (workers st) w (W_popped t)) as Hle. fold ws' in Hle.
    assert (Zlen ws' = Zlen (workers st) /\ length ws' = length (workers st)) as [HZ HL].
    { unfold ws'. by rewrite Zlen_insert, length_insert. }
    destruct Hc. split; cbn; rewrite ?HZ, ?HL, ?(Hsame granted), ?(Hsame exclwaiting), ?(Hsame exclwoken),
      ?(Hsame exited), ?(Hsame sleeping) by done; try assumption.
    + rewrite Eb, c_running. unfold Zlen in c_small. rewrite Eb in Hle. clear - c_small Hle.
      rewrite u32_small; lia.
    + by rewrite Hpa.
    + intros Hgr. exfalso. clear - Hce Hgr. lia.
    + intros Hgr. exfalso. clear - Hce Hgr. lia.
  - cbn. rewrite (worker_unfreed st w pc); done.
  - done.
  - done.
  - intros _ _ _. exact Haw.
  - intros _. left. cbn. fold ws'. rewrite Eb. clear. lia.
Qed.

End Dispatch.

Section Loop.
Context (st : system) (Hi : inv st) (w : nat) (pc : worker_pc).
Context (E : workers st !! w = Some pc) (Hpc : pc = W_start \/ pc = W_wake).

(** Leaving the loop by its last test *)
Lemma last_exit_ok :
  FINISHED (manager st) = true ->
  quiet st (goto w W_exit (drop_privilege st)) /\
  wakeful (manager (goto w W_exit (drop_privilege st))) (workers (goto w W_exit (drop_privilege st))).
Proof.
  intros Hfin. assert (freed st = false) as Hf.
  { apply (worker_unfreed st w pc Hi E). by destruct Hpc as [-> | ->]. }
  destruct (drop_privilege_ok st Hi Hf) as (Hq & Hw & Hfin' & _ & Hpcs).
  { intros _ _ Hq. by rewrite (unfinished_ready st Hi Hfin) in Hq. }
  assert (workers (drop_privilege st) !! w = Some pc) as E1.
  { apply Hpcs; [done|]. by destruct Hpc as [-> | ->]. }
  destruct (exit_ok (drop_privilege st) (q_inv _ _ Hq) w pc E1 Hpc) as [Hq2 Hw2]; [congruence|].
  split; [by eapply quiet_trans|auto].
Qed.

Lemma dispatch_inner_ok : exists st',
  dispatch_inner w st = Done st' /\ quiet st st' /\
  (wakeful (manager st) (workers st) -> wakeful (manager st') (workers st')).
Proof.
  unfold dispatch_inner.
  destruct (empty_readyq (manager st) || pause_requested (manager st) || exclusive_requested (manager st)) eqn:Ec;
    [destruct (FINISHED (manager st)) eqn:Ef|]; cbn [andb negb].
  - unfold pop_readyq. rewrite (unfinished_ready st Hi Ef). cbn [obind].
    assert (FINISHED (manager (drop_privilege st)) = true) as ->.
    { unfold drop_privilege. by destruct (_ && _). }
    destruct (last_exit_ok Ef) as [Hq Hw]. eexists. by split_and!.
  - eexists. split; [done|]. by apply sleep_ok with pc.
  - apply orb_false_iff in Ec as [[Ee Ep]%orb_false_iff Ex]. apply EMPTY_false in Ee.
    destruct (readyq (manager st)) as [|t q] eqn:Eq; [done|].
    destruct (pop_ok _ _ _ _ _ _ (i_placed _ Hi) Eq) as [_ ->]. cbn [obind].
    destruct (take_ok st Hi w pc E Hpc t q Eq Ep Ex) as (T & ET & Hq & Hw). rewrite (get_ok _ _ _ ET). cbn [obind].
    eexists. split; [done|]. split; [exact Hq|]. intros _. exact Hw.
Qed.

Lemma dispatch_outer_ok : exists st',
  dispatch_outer w st = Done st' /\ quiet st st' /\
  (wakeful (manager st) (workers st) -> wakeful (manager st') (workers st')).
Proof.
  unfold dispatch_outer. destruct (FINISHED (manager st)) eqn:Ef; [|apply dispatch_inner_ok].
  eexists. split; [done|]. by apply exit_ok with pc.
Qed.

Lemma dispatch_good : step_good st (W_dispatch w).
Proof.
  assert (freed st = false) as Hf.
  { apply (worker_unfreed st w pc Hi E). by destruct Hpc as [-> | ->]. }
  unfold step_good. rewrite (step_worker st _ w) by done. unfold worker_step. rewrite E.
  destruct dispatch_outer_ok as (st1 & E1 & Hq1 & Hw1), dispatch_inner_ok as (st2 & E2 & Hq2 & Hw2).
  destruct Hpc as [Hs|Hs]; rewrite Hs.
  - rewrite E1. cbn. eexists _, []. split; [done|]. by apply quiet_good.
  - rewrite E2. cbn. eexists _, []. split; [done|]. by apply quiet_good.
Qed.

End Loop.

(** ** After a task *)

Definition ended (m : isc__taskmgr) : isc__taskmgr := set_running (u32 (tasks_running m - 1)) m.

Definition end_signal (m : isc__taskmgr) (ws : list worker_pc) : list worker_pc :=
  if exclusive_requested (ended m) && (tasks_running (ended m) =? 1) then signal_exclusive ws else ws.

Lemma end_signal_shape m ws :
  end_signal m ws = ws \/
  exists w t n, ws !! w = Some (W_exclwait t n) /\ end_signal m ws = <[w := W_exclwake t n]> ws.
Proof.
  unfold end_signal. destruct (_ && _); [|by left].
  destruct (signal_exclusive_shape ws) as [[-> _]|H]; [by left|by right].
Qed.

(** The counters of the manager when a worker has given its task back: they are in
    order, or the worker that sleeps until it is alone is now alone. *)
Lemma control_ended m ws w rq :
  control m ws -> ws !! w = Some (W_end rq) ->
  let ws1 := <[w := W_start]> ws in
  pause_requested m = false /\ tasks_running (ended m) = Z.of_nat (count busy ws1) /\
  (control (ended m) ws1 \/
   exclusive_requested m = true /\ count busy ws1 = 1%nat /\ count exclwaiting ws1 = 1%nat /\
   count granted ws1 = 0%nat /\ count exclwoken ws1 = 0%nat /\
   (count exited ws1 = count exited ws) /\ count sleeping ws1 = count sleeping ws).
Proof.
  intros Hc E ws1. assert (0 < count busy ws)%nat as Hb.
  { apply count_pos with (W_end rq); [by eapply list_elem_of_lookup_2|done]. }
  assert (pause_requested m = false) as Hp.
  { destruct (pause_requested m) eqn:Ep; [|done]. pose proof (c_pause _ _ Hc Ep) as H. clear - H Hb. lia. }
  counts E W_start. fold ws1 in Cbusy, Csleeping, Cexited, Cgranted, Cwaiting, Cwoken.
  assert (tasks_running (ended m) = Z.of_nat (count busy ws1)) as Hr.
  { cbn. pose proof (c_running _ _ Hc) as H1. pose proof (c_small _ _ Hc) as H2. unfold Zlen in H2.
    pose proof (count_length busy ws) as H3. rewrite H1. clear - Cbusy Hb H2 H3. rewrite u32_small; lia. }
  assert (count granted ws = 0)%nat as Hg0.
  { assert (count granted ws1 <= count busy ws1)%nat as Hgb by (apply count_le; by intros []).
    destruct (count granted ws) eqn:Eg; [done|]. pose proof (c_granted _ _ Hc) as H.
    clear - H Eg Cbusy Cgranted Hgb. lia. }
  pose proof (c_exclusive _ _ Hc) as Hex. pose proof (c_waiting _ _ Hc) as Hwt.
  split_and!; [done..|].
  destruct (decide (0 < count exclwaiting ws1 /\ count busy ws1 <= 1)%nat) as [[H1 H2]|Hno].
  - right. clear - H1 H2 Hex Hwt Cwaiting Cbusy Cgranted Cwoken Cexited Csleeping Hg0.
    destruct (exclusive_requested m); split_and!; lia || done.
  - left. assert (Zlen ws1 = Zlen ws /\ length ws1 = length ws) as [HZ HL].
    { unfold ws1. by rewrite Zlen_insert, length_insert. }
    split; cbn [pause_requested exclusive_requested ended set_running]; rewrite ?HZ, ?HL, ?Hr;
      try apply Hc; try done.
    + by rewrite Hp.
    + clear - Hex Cgranted Cwaiting Cwoken. destruct (exclusive_requested m); lia.
    + clear - Cgranted Hg0. lia.
    + clear - Hno. lia.
    + intros H. apply (c_exit _ _ Hc). clear - H Cexited. lia.
    + intros H. pose proof (c_finished _ _ Hc H) as Hfi. clear - Hfi Csleeping. lia.
Qed.

Lemma control_end m ws w rq :
  control m ws -> ws !! w = Some (W_end rq) ->
  control (ended m) (end_signal m (<[w := W_start]> ws)) /\ pause_requested m = false.
Proof.
  intros Hc E. destruct (control_ended m ws w rq Hc E) as (Hp & Hr & Hcase). split; [|done].
  assert (Zlen (<[w := W_start]> ws) = Zlen ws /\ length (<[w := W_start]> ws) = length ws) as [HZ HL].
  { by rewrite Zlen_insert, length_insert. }
  set (ws1 := <[w := W_start]> ws) in *.
  unfold end_signal. change (exclusive_requested (ended m)) with (exclusive_requested m). rewrite Hr.
  destruct Hcase as [Hc1|(Hx & Hb1 & Hw1 & Hg1 & Hk1 & Hx1 & Hs1)].
  - destruct (exclusive_requested m && (Z.of_nat (count busy ws1) =? 1)) eqn:Es; [|done].
    destruct (signal_exclusive_shape ws1) as [[-> _]|(w' & t & n & E' & _)]; [done|].
    exfalso. assert (0 < count exclwaiting ws1)%nat as Hpos.
    { apply count_pos with (W_exclwait t n); [by eapply list_elem_of_lookup_2|done]. }
    pose proof (c_waiting _ _ Hc1 Hpos) as H. clear - Es H. lia.
  - rewrite Hx, Hb1. change (true && (Z.of_nat 1 =? 1)) with true. cbn [andb].
    destruct (signal_exclusive_shape ws1) as [[_ H]|(w' & t & n & E' & ->)]; [clear - H Hw1; lia|].
    counts E' (W_exclwake t n).
    split; cbn [pause_requested exclusive_requested ended set_running]; rewrite ?Zlen_insert, ?length_insert, ?HZ, ?HL;
      try apply Hc; try done.
    + change (tasks_running (set_running _ m)) with (tasks_running (ended m)). rewrite Hr. clear - Cbusy. lia.
    + by rewrite Hp.
    + rewrite Hx. clear - Cgranted Cwaiting Cwoken Hw1 Hg1 Hk1. lia.
    + clear - Cgranted Hg1. lia.
    + clear - Cwaiting Hw1. lia.
    + intros H. apply (c_exit _ _ Hc). clear - H Cexited Hx1. lia.
    + intros H. pose proof (c_finished _ _ Hc H) as Hfi. clear - Hfi Csleeping Hs1. lia.
Qed.

Lemma dispatch_end_ok st w rq :
  inv st -> workers st !! w = Some (W_end rq) -> exists st',
    dispatch_end rq (goto w W_start st) = Done st' /\ quiet st st' /\ freed st' = false /\
    workers st' !! w = Some W_start.
Proof.
  intros Hi E. pose proof (worker_unfreed _ _ _ Hi E eq_refl) as Hf.
  destruct (control_end _ _ w rq (i_control _ Hi) E) as [Hc Hp].
  set (ws2 := end_signal (manager st) (<[w := W_start]> (workers st))) in *.
  set (st1 := set_workers ws2 (set_manager (ended (manager st)) st)).
  assert (ws2 !! w = Some W_start) as E2.
  { assert (<[w := W_start]> (workers st) !! w = Some W_start) as E1
      by (apply list_lookup_insert_eq; by apply lookup_lt_Some in E).
    unfold ws2. destruct (end_signal_shape (manager st) (<[w := W_start]> (workers st)))
      as [->|(w' & t & n & Ew & ->)]; [done|]. rewrite list_lookup_insert_ne; [done|]. intros ->. congruence. }
  assert (forall A (f : worker_pc -> option A), (forall t n, f (W_exclwake t n) = f (W_exclwait t n)) ->
    omap f ws2 ≡ₚ omap f (<[w := W_start]> (workers st))) as Hom.
  { intros A f Hff. unfold ws2. destruct (end_signal_shape (manager st) (<[w := W_start]> (workers st)))
      as [->|(w' & t & n & Ew & ->)]; [done|]. by apply omap_same with (W_exclwait t n). }
  assert (dispatch_end rq (goto w W_start st) =
    match rq with
    | None => Done st1
    | Some t => let* T := get st1 t in let* m' := push_readyq t T (manager st1) in Done (set_manager m' st1)
    end) as ->.
  { unfold dispatch_end. cbn [manager goto set_workers set_manager workers].
    fold (ended (manager st)). unfold st1, ws2, end_signal. change (pause_requested (ended (manager st))) with (pause_requested (manager st)).
    rewrite Hp. cbn [andb]. by destruct (exclusive_requested (ended (manager st)) && _). }
  assert (frees st1 ≡ₚ frees st) as Hfree.
  { unfold frees. cbn. rewrite Hom by done. by apply omap_same with (W_end rq). }
  destruct (omap_insert pc_place _ _ _ E) as (r & O1 & O2).
  destruct rq as [t|].
  - destruct (worker_not_queued st w _ t _ Hi E eq_refl) as (Hrl & T & ET & HT).
    assert ((t, task_state_ready) ∈ places st) as Hpl.
    { unfold places. rewrite !elem_of_app. right; right. apply list_elem_of_omap.
      exists (W_end (Some t)). split; [by eapply list_elem_of_lookup_2|done]. }
    destruct (placed_push (i_placed _ Hi) t T ET Hpl Hrl) as [Hpq Hplaced].
    rewrite (get_ok _ _ T) by done. cbn [obind]. rewrite push_ok by done. cbn [obind].
    eexists. split; [done|]. split_and!; try done. split; [|done|done]. split; [| |cbn; congruence].
    + cbn. eapply placed_perm; [exact Hplaced| |by symmetry].
      unfold places. cbn. rewrite Hom by done. rewrite O1, O2. cbn. rewrite map_app. cbn.
      by rewrite <- app_assoc.
    + by apply (control_ext (ended (manager st))).
  - eexists. split; [done|]. split_and!; try done. split; [|done|done]. split; [|done|cbn; congruence].
    cbn. eapply placed_perm; [apply Hi| |by symmetry].
    unfold places. cbn. rewrite Hom by done. by rewrite O1, O2.
Qed.

Lemma done_good st w rq : inv st -> workers st !! w = Some (W_end rq) -> step_good st (W_done w).
Proof.
  intros Hi E. pose proof (worker_unfreed _ _ _ Hi E eq_refl) as Hf.
  unfold step_good. rewrite (step_worker st _ w) by done. unfold worker_step. rewrite E.
  destruct (dispatch_end_ok st w rq Hi E) as (st1 & -> & Hq1 & Hf1 & E1). cbn [obind].
  destruct (drop_privilege_ok st1 (q_inv _ _ Hq1) Hf1) as (Hq2 & Hw2 & _ & _ & Hpcs).
  { intros _ _ _. by apply (start_awake st1 w W_start). }
  destruct (dispatch_outer_ok (drop_privilege st1) (q_inv _ _ Hq2) w W_start) as (st3 & -> & Hq3 & Hw3);
    [by apply Hpcs|by left|].
  cbn. eexists _, []. split; [done|]. apply quiet_good; [|auto].
  eapply quiet_trans; [exact Hq1|]. by eapply quiet_trans.
Qed.
