(* ===== verification/TaskTheory.v ===== *)
(** * Theorems on tasks

    Each is a statement about every execution of any number of worker threads and
    callers that keep to the contract ([guard]), from the system that
    [isc__taskmgr_create] makes, in which no thread moves between the two critical sections
    of [isc__task_setprivilege] ([undivided]). *)

From S2P Require Import Prelude Task TaskOps TaskPlace TaskSystem TaskClient TaskManager TaskWorker TaskDispatch.

(** ** Every step *)

Lemma begin_good st w t time :
  inv st -> workers st !! w = Some (W_popped t) -> step_good st (W_begin w time).
Proof.
  intros Hi E. pose proof (worker_unfreed _ _ _ Hi E eq_refl) as Hf.
  destruct (worker_not_queued st w _ t _ Hi E eq_refl) as (_ & T & ET & HT).
  unfold step_good. rewrite (step_worker st _ w) by done. unfold worker_step. rewrite E.
  apply worker_task_good with (W_popped t) T; try done; [by rewrite HT|by rewrite HT|].
  apply dispatch_start_ok; [|done]. by apply (p_ok _ _ _ _ _ _ _ (i_placed _ Hi) t).
Qed.

Lemma return_good st w t n :
  inv st -> workers st !! w = Some (W_action t n false) -> step_good st (W_return w).
Proof.
  intros Hi E. pose proof (worker_unfreed _ _ _ Hi E eq_refl) as Hf.
  destruct (worker_not_queued st w _ t _ Hi E eq_refl) as (_ & T & ET & HT).
  unfold step_good. rewrite (step_worker st _ w) by done. unfold worker_step. rewrite E.
  apply worker_task_good with (W_action t n false) T; try done; [by rewrite HT|by rewrite HT|].
  apply dispatch_return_ok; [|done]. by apply (p_ok _ _ _ _ _ _ _ (i_placed _ Hi) t).
Qed.

Lemma worker_good st l w : inv st -> label_worker l = Some w -> guard st l = true -> step_good st l.
Proof.
  intros Hi Hl Hg. destruct l; try discriminate Hl; injection Hl as ->; cbn [guard] in Hg; unfold at_pc in Hg;
    (destruct (workers st !! w) as [pc|] eqn:E; [|done]);
    destruct pc as [| | | |t k []|t k|t k|t|t|rq|]; try discriminate Hg.
  - apply (dispatch_good st Hi w W_start E). by left.
  - apply (dispatch_good st Hi w W_wake E). by right.
  - by apply begin_good with t.
  - by apply return_good with t k.
  - by apply beginexclusive_good with t k true.
  - by apply beginexclusive_good with t k false.
  - by apply granted_good with t k.
  - by apply endexclusive_good with t k.
  - by apply task_finished_good with t.
  - by apply task_free_good with t.
  - by apply done_good with rq.
  - by apply spurious_worker_good with W_wait.
  - by apply spurious_worker_good with (W_exclwait t k).
Qed.

(** In a state of the invariant every step that may be taken is [good]. *)
Lemma every_step st l : inv st -> undivided l = true -> guard st l = true -> step_good st l.
Proof.
  intros Hi Hu Hg. destruct (label_worker l) as [w|] eqn:Hl; [by apply worker_good with w|].
  destruct l; try discriminate Hl; try discriminate Hu.
  - by apply create_good.
  - by apply attach_good.
  - by apply detach_good.
  - by apply send_good.
  - by apply sendanddetach_good.
  - by apply dequeue_good.
  - by apply purgeevent_good.
  - by apply onshutdown_good.
  - by apply shutdown_good.
  - by apply setname_good.
  - by apply ready_privilege_good.
  - by apply ready_push_good.
  - by apply setprivilege_good.
  - by apply setmode_good.
  - by apply pause_good.
  - by apply pause_woken_good.
  - by apply spurious_good.
  - by apply resume_good.
  - by apply detach_excl_good.
  - by apply attach_excl_good.
  - by apply excltask_good.
  - by apply destroy_good.
  - by apply join_good.
Qed.

(** ** Executions *)

Section Executions.
Context (q : Z) (mem mutex thr conds : bool) (threads : list bool) (st0 : system).
Context (Hthreads : Zlen threads < 2 ^ 32).
Context (Hcreate : isc__taskmgr_create q mem mutex thr conds threads = (ISC_R_SUCCESS, Some st0)).

Lemma created :
  exists q' n, st0 = mkSystem ∅ (mkMgr q' [] [] [] isc_taskmgrmode_normal 0 false false false None) []
    (replicate n W_start) [] [] false /\ (0 < n)%nat /\ Z.of_nat n < 2 ^ 32.
Proof.
  revert Hcreate. unfold isc__taskmgr_create. destruct mem, mutex, thr, conds; cbn [negb]; try discriminate.
  set (started := filter (fun ok => ok = true) threads). destruct (EMPTY started) eqn:Ee; [discriminate|].
  intros [= <-]. apply EMPTY_false in Ee. exists (if q =? 0 then DEFAULT_DEFAULT_QUANTUM else q), (length started).
  split_and!.
  - f_equal. clear. induction started as [|x l IH]; [done|]. cbn. by rewrite IH.
  - destruct started; [done|]. cbn. lia.
  - pose proof (length_filter (fun ok => ok = true) threads) as H. fold started in H. unfold Zlen in Hthreads. lia.
Qed.

Lemma count_start p n : p W_start = false -> count p (replicate n W_start) = 0%nat.
Proof. intros Hp. induction n as [|n IH]; [done|]. cbn [replicate]. by rewrite count_cons, Hp. Qed.

Lemma created_inv : inv st0 /\ wakeful (manager st0) (workers st0) /\ (forall t, queue st0 t = []).
Proof.
  destruct created as (q' & n & -> & Hn & Hb).
  assert (forall A (f : worker_pc -> option A), f W_start = None -> omap f (replicate n W_start) = []) as Hom.
  { intros A f Hff. clear - Hff. induction n as [|n IH]; [done|]. cbn. by rewrite Hff. }
  split_and!; [split|split|]; cbn; try done.
  - unfold places, frees. cbn. rewrite !Hom by done. split; try done; cbn.
    + apply NoDup_nil_2.
    + intros t x Hx. by apply not_elem_of_nil in Hx.
    + apply NoDup_nil_2.
    + intros t. rewrite lookup_empty. split; [by intros ?%not_elem_of_nil|]. by intros [[? ?] _].
    + intros t Hx. by apply not_elem_of_nil in Hx.
    + intros t Hx. by apply not_elem_of_nil in Hx.
    + apply NoDup_nil_2.
    + intros t. split; [by intros ?%not_elem_of_nil|]. by intros [?%not_elem_of_nil _].
  - split; cbn; rewrite ?count_start by done; try done; try lia.
    + unfold Zlen. by rewrite length_replicate.
    + by rewrite length_replicate.
Qed.

(** The invariant, and the passage of events, in every reachable state. *)
Lemma steps_inv ok tr st :
  (forall l, ok l = true -> undivided l = true) -> steps ok st0 tr st ->
  inv st /\ (forall t, passes t [] (queue st t) tr).
Proof.
  intros Hok. induction 1 as [|tr st l st' o Hs [IH1 IH2] Hl Hg Hst].
  - destruct created_inv as (H1 & _ & H3). split; [done|]. intros t. rewrite H3. apply passes_refl.
  - destruct (every_step st l IH1 (Hok _ Hl) Hg) as (st1 & o1 & E1 & G). rewrite Hst in E1. injection E1 as <- <-.
    split; [apply G|]. intros t. eapply passes_trans; [apply IH2|apply G].
Qed.

Lemma steps_wakeful tr st : steps inside st0 tr st -> wakeful (manager st) (workers st).
Proof.
  assert (forall l, inside l = true -> undivided l = true) as Hok by (by intros l [? _]%andb_true_iff).
  induction 1 as [|tr st l st' o Hs IH Hl Hg Hst]; [apply created_inv|].
  destruct (steps_inv _ _ _ Hok Hs) as [Hi _].
  destruct (every_step st l Hi (Hok _ Hl) Hg) as (st1 & o1 & E1 & G). rewrite Hst in E1. injection E1 as <- <-.
  by apply G.
Qed.

End Executions.

(** Executions in which the thread [p] does not wake without a signal *)
Definition no_spurious (p : nat) (l : label) : bool :=
  undivided l && match l with C_spurious p' => negb (p' =? p)%nat | _ => true end.

Lemma steps_pausing p st tr st' :
  inv st -> p ∈ pausing st -> steps (no_spurious p) st tr st' -> p ∈ pausing st'.
Proof.
  intros Hi Hp Hs. assert (inv st' /\ p ∈ pausing st') as [_ ?]; [|done].
  induction Hs as [|tr st1 l st2 o Hs [IH1 IH2] Hl Hg Hst]; [done|].
  apply andb_true_iff in Hl as [Hu Hl].
  destruct (every_step st1 l IH1 Hu Hg) as (st3 & o3 & E3 & G). rewrite Hst in E3. injection E3 as <- <-.
  split; [apply G|]. apply (g_pause _ _ _ _ G); [done|]. intros ->. by rewrite Nat.eqb_refl in Hl.
Qed.

(** ** The theorems *)

Section Theorems.
Context {q : Z} {mem mutex thr conds : bool} {threads : list bool} {st0 : system}.

(** C12. As long as no thread moves between the two critical sections of
    [isc__task_setprivilege] ([undivided]), no assertion of [task.c] fails, no freed task is
    used and no list is damaged: in every state that such an execution reaches every step
    that a thread may take, [isc__task_setprivilege] as a whole included, returns.  When a
    thread does move between the two sections a list may be damaged
    ([setprivilege_race]). *)
Theorem task_steps_safe tr st l :
  Zlen threads < 2 ^ 32 ->
  isc__taskmgr_create q mem mutex thr conds threads = (ISC_R_SUCCESS, Some st0) ->
  steps undivided st0 tr st -> undivided l = true -> guard st l = true ->
  exists st' o, step st l = Done (st', o).
Proof.
  intros Ht Hc Hs Hu Hg. destruct (steps_inv _ _ _ _ _ _ _ Ht Hc _ _ _ (fun _ H => H) Hs) as [Hi _].
  destruct (every_step st l Hi Hu Hg) as (st' & o & E & _). eauto.
Qed.

(** C13. A task is served by one worker at a time and is not lost: an idle task has
    no events, is referred to and is in no queue; any other task is in exactly one
    place, which agrees with its state: a call of [task_ready], the queue of ready
    tasks or a worker; and no two workers are at the same task. *)
Theorem task_one_place tr st :
  Zlen threads < 2 ^ 32 ->
  isc__taskmgr_create q mem mutex thr conds threads = (ISC_R_SUCCESS, Some st0) ->
  steps undivided st0 tr st ->
  (forall t T, store st !! t = Some T ->
     match state T with
     | task_state_idle => events T = [] /\ 0 < references T /\ t ∉ (places st).*1
     | x => exists P0, places st ≡ₚ (t, x) :: P0 /\ t ∉ P0.*1
     end) /\
  (forall w1 w2 pc1 pc2 t x1 x2,
     workers st !! w1 = Some pc1 -> workers st !! w2 = Some pc2 ->
     pc_place pc1 = Some (t, x1) -> pc_place pc2 = Some (t, x2) -> w1 = w2).
Proof.
  intros Ht Hc Hs. destruct (steps_inv _ _ _ _ _ _ _ Ht Hc _ _ _ (fun _ H => H) Hs) as [Hi _].
  split; [|intros *; by apply one_worker]. intros t T E.
  pose proof (p_ok _ _ _ _ _ _ _ (i_placed _ Hi) _ _ E) as HT.
  assert (state T <> task_state_idle -> exists P0, places st ≡ₚ (t, state T) :: P0 /\ t ∉ P0.*1) as Hx.
  { intros Hx. pose proof (placed_here (i_placed _ Hi) _ _ E Hx) as Hin.
    apply elem_of_Permutation in Hin as [P0 HP]. exists P0. split; [done|].
    pose proof (p_nodup _ _ _ _ _ _ _ (i_placed _ Hi)) as Hn. rewrite HP in Hn. cbn in Hn.
    by apply NoDup_cons in Hn as [? _]. }
  destruct (state T) eqn:Es; try (by apply Hx).
  destruct (ok_idle _ HT Es). split_and!; try done. by apply (placed_idle (i_placed _ Hi) t T).
Qed.

(** C14. Events are run in the order in which they were sent, and none is lost: the events
    of a task that ran, followed by those on its queue, are events put on the queue, in that
    order; together with those removed by purging or unsending they are all of the events
    put on the queue, each once; and when none was removed, the events that ran and those on
    the queue are just the events put on it, in that order. *)
Theorem task_events_in_order tr st t :
  Zlen threads < 2 ^ 32 ->
  isc__taskmgr_create q mem mutex thr conds threads = (ISC_R_SUCCESS, Some st0) ->
  steps undivided st0 tr st ->
  ran t tr ++ queue st t `sublist_of` sent t tr /\
  removed t tr ++ ran t tr ++ queue st t ≡ₚ sent t tr /\
  (removed t tr = [] -> ran t tr ++ queue st t = sent t tr).
Proof.
  intros Ht Hc Hs. destruct (steps_inv _ _ _ _ _ _ _ Ht Hc _ _ _ (fun _ H => H) Hs) as [_ Hp].
  pose proof (passes_exact _ _ _ _ (Hp t)). destruct (Hp t) as [H1 H2]. by split_and!.
Qed.

(** C16. Exclusive access is exclusive: while the action of a worker holds it, no other
    worker is between taking a task and giving it back. *)
Theorem task_exclusive tr st w t n :
  Zlen threads < 2 ^ 32 ->
  isc__taskmgr_create q mem mutex thr conds threads = (ISC_R_SUCCESS, Some st0) ->
  steps undivided st0 tr st -> workers st !! w = Some (W_action t n true) ->
  forall w' pc, w' <> w -> workers st !! w' = Some pc -> busy pc = false.
Proof.
  intros Ht Hc Hs E w' pc Hne E'. destruct (steps_inv _ _ _ _ _ _ _ Ht Hc _ _ _ (fun _ H => H) Hs) as [Hi _].
  pose proof (c_granted _ _ (i_control _ Hi)) as Hg.
  assert (0 < count granted (workers st))%nat as Hpos.
  { apply count_pos with (W_action t n true); [by eapply list_elem_of_lookup_2|done]. }
  specialize (Hg Hpos). pose proof (count_insert busy _ _ _ W_exit E) as Hci. cbn in Hci.
  apply (count_zero busy (<[w := W_exit]> (workers st))); [lia|].
  apply list_elem_of_lookup_2 with w'. by rewrite list_lookup_insert_ne.
Qed.

(** C15. No wake-up is lost, when privileges and modes are set by actions, as
    [isc/task.h] asks: while there is a task to run and no pause or exclusive access
    is requested, some worker can move; a worker that sleeps until it is alone is not
    alone, and is woken by the last of the others; and no worker sleeps when the
    manager exits and the last task is gone. *)
Theorem task_no_lost_wakeup tr st :
  Zlen threads < 2 ^ 32 ->
  isc__taskmgr_create q mem mutex thr conds threads = (ISC_R_SUCCESS, Some st0) ->
  steps inside st0 tr st ->
  (pause_requested (manager st) = false -> exclusive_requested (manager st) = false ->
   readyq (manager st) <> [] ->
   exists w l, label_worker l = Some w /\ guard st l = true /\ l <> W_spurious w) /\
  (forall w t n, workers st !! w = Some (W_exclwait t n) -> 1 < tasks_running (manager st)) /\
  (FINISHED (manager st) = true -> W_wait ∉ workers st).
Proof.
  intros Ht Hc Hs. pose proof (steps_wakeful _ _ _ _ _ _ _ Ht Hc _ _ Hs) as Hw.
  destruct (steps_inv _ _ _ _ _ _ _ Ht Hc inside tr st) as [Hi _]; [by intros l [? _]%andb_true_iff|done|].
  pose proof (i_control _ Hi) as Hctl. split_and!.
  - intros Hp Hx Hq. destruct (count_witness _ _ (w_work _ _ Hw Hp Hx Hq)) as (w & pc & E & Ha).
    exists w. destruct pc as [| | | |t n []|t n|t n|t|t|rq|]; try done.
    + exists (W_dispatch w). cbn. unfold at_pc. by rewrite E.
    + exists (W_dispatch w). cbn. unfold at_pc. by rewrite E.
    + exists (W_begin w 0). cbn. unfold at_pc. by rewrite E.
    + exists (W_endexclusive w). cbn. unfold at_pc. by rewrite E.
    + exists (W_return w). cbn. unfold at_pc. by rewrite E.
    + exists (W_granted w). cbn. unfold at_pc. by rewrite E.
    + exists (W_task_finished w). cbn. unfold at_pc. by rewrite E.
    + exists (W_task_free w). cbn. unfold at_pc. by rewrite E.
    + exists (W_done w). cbn. unfold at_pc. by rewrite E.
  - intros w t n E. rewrite (c_running _ _ Hctl).
    assert (0 < count exclwaiting (workers st))%nat as Hpos.
    { apply count_pos with (W_exclwait t n); [by eapply list_elem_of_lookup_2|done]. }
    pose proof (c_waiting _ _ Hctl Hpos). lia.
  - intros Hf Hin. pose proof (count_zero sleeping _ _ (c_finished _ _ Hctl Hf) Hin) as H. discriminate H.
Qed.

(** C17. The manager is freed when nothing uses it: once all workers have ended, every
    task has been freed, no call of [task_ready] is in progress and both queues are
    empty. *)
Theorem taskmgr_destroyed_clean tr st :
  Zlen threads < 2 ^ 32 ->
  isc__taskmgr_create q mem mutex thr conds threads = (ISC_R_SUCCESS, Some st0) ->
  steps undivided st0 tr st -> (forall pc, pc ∈ workers st -> pc = W_exit) ->
  store st = ∅ /\ calls st = [] /\ tasks (manager st) = [] /\
  ready_tasks (manager st) = [] /\ ready_priority_tasks (manager st) = [].
Proof.
  intros Ht Hc Hs Hall. destruct (steps_inv _ _ _ _ _ _ _ Ht Hc _ _ _ (fun _ H => H) Hs) as [Hi _].
  pose proof (i_control _ Hi) as Hctl. pose proof (i_placed _ Hi) as Hp.
  assert (FINISHED (manager st) = true) as Hf.
  { apply Hctl. pose proof (c_some _ _ Hctl) as Hn. destruct (workers st) as [|pc ws] eqn:Ew; [cbn in Hn; lia|].
    apply count_pos with pc; [left|]. by rewrite (Hall pc) by left. }
  unfold FINISHED in Hf. apply andb_true_iff in Hf as [_ Htl%EMPTY_true].
  assert (frees st = []) as Hfr.
  { unfold frees. clear - Hall. induction (workers st) as [|pc ws IH]; [done|]. cbn.
    rewrite (Hall pc) by left. apply IH. intros pc' Hpc'. apply Hall. by right. }
  assert (store st = ∅) as Hst.
  { apply map_empty. intros t. destruct (store st !! t) as [T|] eqn:E; [|done]. exfalso.
    assert (t ∈ tasks (manager st)) as Hin.
    { apply (p_listed _ _ _ _ _ _ _ Hp). rewrite Hfr. split; [eauto|apply not_elem_of_nil]. }
    rewrite Htl in Hin. by apply not_elem_of_nil in Hin. }
  assert (places st = []) as Hpl.
  { destruct (places st) as [|[t x] P] eqn:Ep; [done|].
    destruct (p_state _ _ _ _ _ _ _ Hp t x) as (_ & T & E & _); [left|].
    by rewrite Hst, lookup_empty in E. }
  unfold places in Hpl. apply app_nil in Hpl as [H1 [H2 H3]%app_nil].
  apply map_eq_nil in H1, H2. split_and!; try done.
  destruct (ready_priority_tasks (manager st)) as [|t l] eqn:Epl; [done|].
  destruct (proj1 (p_priority _ _ _ _ _ _ _ Hp t)) as [Hr _]; [left|].
  rewrite H2 in Hr. by apply not_elem_of_nil in Hr.
Qed.

(** C37. A call of [isc__taskmgr_pause] that finds a task running never returns: it
    sleeps on [paused] with [pause_requested] still unset, and a worker signals that
    condition only when it is set; but while it is set no task runs.  Whatever the workers
    and the callers do, the thread [p] stays asleep, unless it wakes without a signal. *)
Theorem taskmgr_pause_sleeps tr st p tr' st' :
  Zlen threads < 2 ^ 32 ->
  isc__taskmgr_create q mem mutex thr conds threads = (ISC_R_SUCCESS, Some st0) ->
  steps undivided st0 tr st -> 0 < tasks_running (manager st) ->
  steps (no_spurious p) (isc__taskmgr_pause p st) tr' st' -> p ∈ pausing st'.
Proof.
  intros Ht Hc Hs Hr Hs'. destruct (steps_inv _ _ _ _ _ _ _ Ht Hc _ _ _ (fun _ H => H) Hs) as [Hi _].
  assert (freed st = false) as Hf.
  { pose proof (c_running _ _ (i_control _ Hi)) as Hcr.
    destruct (count_witness busy (workers st)) as (w & pc & E & Hb); [lia|].
    apply (worker_unfreed st w pc Hi E). by destruct pc. }
  apply (steps_pausing p (isc__taskmgr_pause p st) tr' st'); [| |done].
  - destruct (every_step st (C_pause p) Hi eq_refl) as (st1 & o & E1 & G); [cbn; by rewrite Hf|].
    rewrite step_client in E1 by done. injection E1 as <- <-. apply G.
  - unfold isc__taskmgr_pause. rewrite (proj2 (Z.ltb_lt _ _) Hr). cbn. rewrite elem_of_app. right. left.
Qed.

End Theorems.

(** ** Executions that were run *)

Lemma run_steps_from ok st0 tr st ls st' tr' :
  steps ok st0 tr st -> run ok st ls = Some (st', tr') -> steps ok st0 (tr ++ tr') st'.
Proof.
  revert tr st tr'. induction ls as [|l ls IH]; intros tr st tr' Hs Hr.
  - injection Hr as <- <-. by rewrite app_nil_r.
  - cbn [run] in Hr. destruct (ok l && guard st l) eqn:Eg; [|done]. apply andb_true_iff in Eg as [Ho Hg].
    destruct (step st l) as [[st1 o]| | |] eqn:Es; try done.
    destruct (run ok st1 ls) as [[st2 tr2]|] eqn:Er; [|done]. injection Hr as <- <-.
    rewrite app_assoc. apply (IH (tr ++ o) st1 tr2); [|done]. by apply steps_next with st l.
Qed.

Lemma run_steps ok st ls st' tr : run ok st ls = Some (st', tr) -> steps ok st tr st'.
Proof. apply (run_steps_from ok st [] st ls). constructor. Qed.

Section Demo.

(** A manager with two workers *)
Definition demo_start : system :=
  match isc__taskmgr_create 0 true true true true [true; true] with
  | (_, Some st) => st
  | (_, None) => mkSystem ∅ (mkMgr 0 [] [] [] isc_taskmgrmode_normal 0 false false false None) [] [] [] [] false
  end.

Definition demo_event : isc_event := mkEvent 1 0 0 5 true 0.

Definition demo_after (ls : list label) : system :=
  match run inside demo_start ls with Some (st, _) => st | None => demo_start end.
Definition demo_trace (ls : list label) : list obs :=
  match run inside demo_start ls with Some (_, tr) => tr | None => [] end.

(** A task gets an event, and a worker runs its action. *)
Definition demo_running : list label :=
  [C_create 0 (Some 7%nat) true; W_dispatch 0; W_dispatch 1; C_send 7 demo_event;
   C_ready_privilege 7; C_ready_push 7 false 1; W_dispatch 1; W_begin 1 0].

(** The task is then given up and the manager destroyed. *)
Definition demo_end : list label :=
  [C_detach 7; W_return 1; W_task_finished 1; W_task_free 1; W_done 1;
   C_destroy; W_dispatch 0; W_dispatch 1].

Lemma demo_steps ls :
  is_Some (run inside demo_start ls) -> steps inside demo_start (demo_trace ls) (demo_after ls).
Proof.
  intros [[st tr] E]. unfold demo_trace, demo_after. rewrite E. by apply run_steps with ls.
Qed.

Lemma steps_weaken (ok ok' : label -> bool) st0 tr st :
  (forall l, ok l = true -> ok' l = true) -> steps ok st0 tr st -> steps ok' st0 tr st.
Proof. intros Hw. induction 1; [constructor|]. by eapply steps_next; eauto. Qed.

Lemma demo_undivided ls :
  is_Some (run inside demo_start ls) -> steps undivided demo_start (demo_trace ls) (demo_after ls).
Proof. intros H. apply steps_weaken with inside; [by intros l [? _]%andb_true_iff|]. by apply demo_steps. Qed.

End Demo.

Lemma task_steps_safe_witness :
  exists st' o, step (demo_after demo_running) (C_shutdown 7) = Done (st', o).
Proof.
  apply (task_steps_safe (q := 0) (mem := true) (mutex := true) (thr := true) (conds := true)
    (threads := [true; true]) (st0 := demo_start) (demo_trace demo_running)).
  - reflexivity.
  - reflexivity.
  - apply demo_undivided. vm_compute. eauto.
  - reflexivity.
  - vm_compute. reflexivity.
Defined.

Lemma task_one_place_witness :
  exists P0, places (demo_after demo_running) ≡ₚ (7%nat, task_state_running) :: P0 /\ 7%nat ∉ P0.*1.
Proof.
  destruct (task_one_place (q := 0) (mem := true) (mutex := true) (thr := true) (conds := true)
    (threads := [true; true]) (st0 := demo_start) (demo_trace demo_running) (demo_after demo_running))
    as [H _]; [reflexivity|reflexivity|apply demo_undivided; vm_compute; eauto|].
  destruct (store (demo_after demo_running) !! 7%nat) as [T|] eqn:E; [|vm_compute in E; discriminate E].
  specialize (H 7%nat T E). vm_compute in E. injection E as <-. exact H.
Defined.

Lemma task_events_in_order_witness :
  ran 7 (demo_trace demo_running) ++ queue (demo_after demo_running) 7 = [demo_event] /\
  sent 7 (demo_trace demo_running) = [demo_event].
Proof.
  destruct (task_events_in_order (q := 0) (mem := true) (mutex := true) (thr := true) (conds := true)
    (threads := [true; true]) (st0 := demo_start) (demo_trace demo_running) (demo_after demo_running) 7%nat)
    as (_ & _ & H); [reflexivity|reflexivity|apply demo_undivided; vm_compute; eauto|].
  rewrite H by (vm_compute; reflexivity). split; vm_compute; reflexivity.
Defined.

Lemma task_exclusive_witness :
  exists pc, workers (demo_after (demo_running ++ [W_beginexclusive 1])) !! 0%nat = Some pc /\ busy pc = false.
Proof.
  destruct (workers (demo_after (demo_running ++ [W_beginexclusive 1])) !! 0%nat) as [pc|] eqn:E;
    [|vm_compute in E; discriminate E].
  exists pc. split; [reflexivity|].
  apply (task_exclusive (q := 0) (mem := true) (mutex := true) (thr := true) (conds := true)
    (threads := [true; true]) (st0 := demo_start) (demo_trace (demo_running ++ [W_beginexclusive 1]))
    (demo_after (demo_running ++ [W_beginexclusive 1])) 1%nat 7%nat 0) with 0%nat.
  - reflexivity.
  - reflexivity.
  - apply demo_undivided. vm_compute. eauto.
  - vm_compute. reflexivity.
  - discriminate.
  - exact E.
Defined.

Lemma task_no_lost_wakeup_witness :
  exists w l, label_worker l = Some w /\ guard (demo_after (take 6 demo_running)) l = true /\ l <> W_spurious w.
Proof.
  destruct (task_no_lost_wakeup (q := 0) (mem := true) (mutex := true) (thr := true) (conds := true)
    (threads := [true; true]) (st0 := demo_start) (demo_trace (take 6 demo_running))
    (demo_after (take 6 demo_running))) as [H _];
    [reflexivity|reflexivity|apply demo_steps; vm_compute; eauto|].
  apply H; vm_compute; [reflexivity|reflexivity|discriminate].
Defined.

Lemma taskmgr_destroyed_clean_witness : store (demo_after (demo_running ++ demo_end)) = ∅.
Proof.
  apply (taskmgr_destroyed_clean (q := 0) (mem := true) (mutex := true) (thr := true) (conds := true)
    (threads := [true; true]) (st0 := demo_start) (demo_trace (demo_running ++ demo_end))
    (demo_after (demo_running ++ demo_end))).
  - reflexivity.
  - reflexivity.
  - apply demo_undivided. vm_compute. eauto.
  - intros pc Hpc. vm_compute in Hpc. repeat (apply elem_of_cons in Hpc as [->|Hpc]; [reflexivity|]).
    by apply not_elem_of_nil in Hpc.
Defined.

(** The pause is asked for while the action runs; everything else comes to its end. *)
Lemma taskmgr_pause_sleeps_witness :
  exists tr st, run (no_spurious 3) (isc__taskmgr_pause 3 (demo_after demo_running)) demo_end = Some (st, tr) /\
    3%nat ∈ pausing st.
Proof.
  destruct (run (no_spurious 3) (isc__taskmgr_pause 3 (demo_after demo_running)) demo_end)
    as [[st tr]|] eqn:E; [|vm_compute in E; discriminate E].
  exists tr, st. split; [reflexivity|].
  apply (taskmgr_pause_sleeps (q := 0) (mem := true) (mutex := true) (thr := true) (conds := true)
    (threads := [true; true]) (st0 := demo_start) (demo_trace demo_running) (demo_after demo_running) 3%nat tr st).
  - reflexivity.
  - reflexivity.
  - apply demo_undivided. vm_compute. eauto.
  - vm_compute. reflexivity.
  - apply run_steps with demo_end. exact E.
Defined.

(** [isc_task_setprivilege] sets the flag in one critical section and the priority
    queue in another.  When a task that was just sent its first event is pushed between
    the two, it is already on the priority queue, and the second section puts it there
    again, which damages the list: every caller kept to its contract. *)
Theorem setprivilege_race :
  exists st tr,
    run (fun _ => true) demo_start
      [C_create 0 (Some 7%nat) true; C_send 7 demo_event; C_setprivilege_flag 7 true;
       C_ready_privilege 7; C_ready_push 7 true 0] = Some (st, tr) /\
    guard st (C_setprivilege_queue 7 true) = true /\
    step st (C_setprivilege_queue 7 true) = Undef.
Proof. eexists _, _. split; [vm_compute; reflexivity|]. split; vm_compute; reflexivity. Qed.
